(* ===== verification/_CoqProject ===== *)
-Q . S2P
Prelude.v
Dlist.v
Str.v
Utf8.v
CLib.v
Date.v
DateFormat.v
Schedule.v
Event.v
Scheduler.v
Value.v
Serialize.v
Logdata.v
LogdataSerialize.v
Logqueue.v
RecordIface.v
Expr.v
ExprTypes.v
ExprEval.v
Statvar.v
ExprCore.v
ExprCoreSpec.v
ExprCoreTypes.v
Route.v
Csv.v
Kvp.v
Syslog.v
SyslogWrite.v
SyslogParse.v
SyslogSafe.v
SyslogSpec.v
Reader.v
ReaderSpec.v
Multiline.v
MultilineSpec.v
Evcorr.v
EvcorrSpec.v
EvcorrSafe.v
ConfigCache.v
ConfigCacheSpec.v
Buffer.v
BufferSpec.v
