(* ===== verification/Prelude.v ===== *)
(** * VX-LOG: a verification of the core of the log collector

    VX-LOG (the nxlog log collector, C, under src/src) reads log messages with input
    modules, turns them into records with fields, hands the records along routes
    through processor modules to output modules, and runs the modules as jobs of
    worker threads.  This development is a shallow embedding of its core: the data of
    the program as Rocq types, its functions as executable definitions with the
    program's names, and theorems about them.

    ** How C code is modelled

    - A function that may fail returns an [outcome]: a value, a thrown
      [nx_exception_t], a panic ([nx_panic] or a failed [ASSERT]), or undefined
      behaviour, which is a value of the model, so that "no undefined behaviour" is a
      statement that can be proved or refuted.
    - Integers are [Z] with the wrap-around or the overflow of their C type written
      out.  Bytes are [Byte.byte]; a buffer is a list of bytes of the block's size.
    - State is passed explicitly, by the monad [cmd] of this file where a function
      changes shared state and may fail.  Objects that other objects point to live in
      finite maps from locations ([gmap]), so that aliasing, double frees and uses
      after free are visible.
    - Code that is not under src/ is a parameter: [Malloc] (what [malloc]'s blocks
      contain and where), [Host] (byte order), [TimeEnv] (the calendar of APR and
      [mktime]), [ValueEnv] (IPv6 texts and compiled patterns), [Pcre] (matching),
      [Stale] (the contents of values that were not initialised), [CoreEnv] (the
      host's names, [strptime], [strftime]), [CacheEnv] (the order of a hash table).  Their laws are classes with
      instances that satisfy them.

    ** Files

    - [Prelude]: outcomes, the monad, bytes, shared lemmas and tactics.
    - [Dlist]: common/dlist.h, doubly linked lists over a heap of links.
    - [Str], [Utf8]: common/str.c, growing strings with their buffer, size and limit;
      escapes; UTF-8 validation and repair.
    - [CLib]: character classes, [printf] and [sscanf] of integers.
    - [Date], [DateFormat]: common/date.c, the parsers and printers of dates; the
      laws of the calendar and a calendar in UTC.
    - [Schedule]: common/schedule.c, crontab lines, intervals and the next run.
    - [Event]: common/event.c, the queues of timed events and of jobs.
    - [Scheduler]: core/ctx.c, core/nxlog.c and the event functions of
      common/module.c: job groups, the choice of the next job, the event thread, the
      worker threads, and their interleaving as a step relation.
    - [Value], [Serialize]: common/value.c, value-serialize.c and serialize.h.
    - [Logdata], [LogdataSerialize]: common/logdata.c and logdata-serialize.c, records
      on a heap of strings with the alias [raw_event].
    - [Logqueue]: common/logqueue.c, the queue of a module and its file.
    - [RecordIface]: what the parsers and writers need of records, as a class; the
      records of [Logdata] are an instance, and so is a record together with the text that
      is parsed, which may be the buffer of its own [raw_event].
    - [Expr]: common/expr.c, expressions with their static types, operators,
      regular-expression substitution, statements, and the resolution of functions and
      procedures; [ExprTypes] is a logic for these programs and the soundness of the
      types, [ExprEval] the properties of evaluation and statements.
    - [Statvar]: common/statvar.c, the variables and statistical counters of a module
      with the expiry events that point to them.
    - [ExprCore]: common/expr-core-funcproc-cb.c, the functions and procedures of the
      language; [ExprCoreSpec] and [ExprCoreTypes] are their properties.
    - [Route]: common/module.c, the way of a record along a route, with flow control;
      records are copied by [nx_logdata_clone], which throws or panics for some.
    - [Syslog]: modules/extension/syslog/syslog.c, the parsers and writers of BSD,
      IETF and Snare messages; [SyslogWrite] and [SyslogParse] are logics for what the
      writers append and what the parsers set, [SyslogSafe] the safety of the parser
      on any bytes, [SyslogSpec] the round trip and the messages it gets wrong.
    - [Reader], [ReaderSpec]: common/readerfuncs.c and common/writerfuncs.c, how records
      are taken from the buffer of an input and put into that of an output.
    - [Multiline], [MultilineSpec]: modules/extension/multiline/xm_multiline.c, a
      reader that joins lines.
    - [Evcorr]: modules/processor/evcorr/pm_evcorr.c, rules that correlate records by
      their times; [EvcorrSpec] what rules do on a stream of records, [EvcorrSafe] the
      invariant of the module.
    - [ConfigCache], [ConfigCacheSpec]: common/config_cache.c, the positions that modules
      keep from one process to the next, and the map that they implement.
    - [Buffer], [BufferSpec]: modules/processor/buffer/pm_buffer.c, the buffer in memory or
      in chunk files, and the queue that it implements across restarts.
    - [Csv], [Kvp]: the parsers and writers of the extension modules, proved against
      [RecordIface].

    ** Theorems

    - Refinement: the list macros implement sequences ([Dlist.dlist_ops_refine]),
      records implement association lists with one alias ([Logdata.record_ops_refine]),
      the queue is a FIFO whose protocol is peek before pop
      ([Logqueue.queue_refines_fifo]).
    - Threads: however workers, event thread and module calls interleave, no
      assertion fails and the scheduler uses no event after its release, if modules remove
      only events that are still in a list ([Scheduler.threads_safe]),
      a job is held by at most one worker ([Scheduler.workers_exclusive]), a ready
      job is taken after a bounded number of calls ([Scheduler.next_job_fair]) and a pass of the
      event thread hands on the events whose time has come ([Scheduler.event_pass]).
    - Routes: every destination gets exactly one copy of a record that can be copied, and no
      record is lost, shared or leaked ([Route.input_delivers], [Route.progress_delivers],
      [Route.peek_takes_first]).
    - Parsers do not read or write out of bounds on any input, and where the text is the
      buffer of the record's own [raw_event], only fail if the text itself sets that field
      ([Csv.csv_parse_safe], [Kvp.kvp_parse_safe], [Date.date_parse_safe],
      [LogdataSerialize.record_from_membuf_safe], [SyslogSafe.syslog5424_safe]); round trips of what the writers produce
      ([SyslogSpec.syslog5424_roundtrip], [ReaderSpec.binary_record_roundtrip] and those of CSV, key-value pairs, dates, values
      and records); schedules run when their text says, as the code reads it ([Schedule.crontab_denotes],
      [Schedule.crontab_next_run]).
    - Expressions: an expression that the constructors accept, under stated conditions,
      evaluates without a failed assertion or undefined behaviour to a value of its type
      ([ExprTypes.expr_type_sound], [ExprCoreTypes.core_functions_sound]); a
      substitution ends and rewrites its field ([ExprEval.substitution_rewrites]); the
      tables of a module and its expiry events stay consistent
      ([Statvar.tables_consistent]); [replace] cuts its subject at the leftmost occurrences
      ([ExprCoreSpec.replace_spec]).
    - The readers deliver the lines and the messages of a stream however it is cut into
      pieces ([ReaderSpec.linereader_stream], [MultilineSpec.multiline_messages]).
    - Correlation: a thresholded rule fires when enough matches fall into its interval, and
      a suppressed one when it was quiet for its interval, on any stream in the order
      of its times ([EvcorrSpec.thresholded_counts], [EvcorrSpec.suppressed_quiet]); events
      and data stay consistent under records, events, cleanups and restarts
      ([EvcorrSafe.evcorr_safe]).
    - The cache of positions implements a map across restarts
      ([ConfigCacheSpec.cache_refines]); the buffer implements a queue, without a loss across
      restarts ([BufferSpec.buffer_delivers]) and, until it is restarted from disk, of bounded size
      ([BufferSpec.buffer_bounded]).
    - Copies and repairs: a copy of a record is independent
      ([Logdata.record_clone_independent]); a repaired text is accepted and has its length
      ([Utf8.validate_utf8_repairs]).
    - Conditions: where the code fails or does something else without a condition, the
      comment of the theorem states it and, mostly, what happens then.
    - Theorems that describe defects (named [_gaps], [_freed], [_panics] and the like): what the code does on inputs its authors did
      not have in mind; the theorems say which.

    ** Fuel

    Loops without a structural argument have fuel, and running out of it is the
    outcome [Undef "out of fuel"], which the theorems exclude.  The fuel is the length
    of the text for scanners ([escape_loop], [unescape_loop], [parse_elements],
    [fields_from_membuf], [find_lf], [resync], [scan], [sd_loop], [sd_params_loop], the CSV and key-value parsers), the number of elements for
    walks over lists ([NX_DLIST_CHECK], [dedupe_loop], [sweep], [event_loop],
    [scan_group]), the matches for [count_expired], the bytes of the file for [read_items] and [count_records],
    the records of the buffer for [send_buffered], the minutes of a year for [crontab_loop], the number of intervals
    for [every_loop], the code's own bound of 10000 for [substitute_loop], the length of
    the subject for [replace_loop] and of the record for [delete_loop], 20 for the digits of a 64-bit number.

    ** Not modelled

    Sockets, files other than those of the queue, the cache and the buffer, threads and mutexes as such (their
    effects are the steps of [Scheduler]), signals and process start; the generated
    scanner and parser of the expression language; modules that are bindings of
    libraries (Perl, OpenSSL, libdbi, yajl); [printf] with arbitrary formats.
    Of expressions, the positions in the source ([decl]) and the locks of modules.
    The configuration parser, which runs once at start-up and ends the process on errors,
    and with it the configuration of the modules other than the buffer; the processors that only apply an
    expression or a parser to each record; the pattern database (XML and PCRE). *)

From stdpp Require Export base gmap list strings.
From Stdlib Require Export ZArith Lia.
From Stdlib Require Export Strings.Byte.

#[global] Open Scope Z_scope.

(** ** Outcomes of C code

    A C function returns ([Ret]), throws an [nx_exception_t] ([Throw], the
    [throw_msg]/[throw] macros of exception.h), stops in [nx_panic] or in a
    failed [ASSERT] ([Panic]), or performs an operation whose behaviour C
    leaves undefined, such as a read or write outside an allocated block
    ([Undef]).  The string is the format string of the message. *)

Inductive outcome (A : Type) : Type :=
| Ret (a : A)
| Throw (msg : string)
| Panic (msg : string)
| Undef (msg : string).
Arguments Ret {A} a.
Arguments Throw {A} msg.
Arguments Panic {A} msg.
Arguments Undef {A} msg.

#[export] Instance outcome_ret : MRet outcome := @Ret.
#[export] Instance outcome_bind : MBind outcome := fun A B f m =>
  match m with
  | Ret a => f a
  | Throw e => Throw e
  | Panic e => Panic e
  | Undef e => Undef e
  end.
#[export] Instance outcome_fmap : FMap outcome := fun A B f m =>
  match m with
  | Ret a => Ret (f a)
  | Throw e => Throw e
  | Panic e => Panic e
  | Undef e => Undef e
  end.

(** The [ASSERT] macro of error_debug.h. *)
Definition ASSERT (b : bool) (msg : string) : outcome unit :=
  if b then Ret tt else Panic msg.

(** A pointer or table access that must succeed. *)
Definition deref {A} (o : option A) (msg : string) : outcome A :=
  match o with Some a => Ret a | None => Undef msg end.

(** A lookup whose failure throws. *)
Definition throw_none {A} (o : option A) (msg : string) : outcome A :=
  match o with Some a => Ret a | None => Throw msg end.

(** A computation over a state [S] whose effects survive an exception: the
    program's data structures keep the changes made before a [throw]. *)
Definition cmd (S A : Type) : Type := S -> S * outcome A.

#[export] Instance cmd_ret S : MRet (cmd S) := fun A a s => (s, Ret a).
#[export] Instance cmd_bind S : MBind (cmd S) := fun A B f m s =>
  match m s with
  | (s', Ret a) => f a s'
  | (s', Throw e) => (s', Throw e)
  | (s', Panic e) => (s', Panic e)
  | (s', Undef e) => (s', Undef e)
  end.

Definition lift {S A} (m : outcome A) : cmd S A := fun s => (s, m).
Definition get {S} : cmd S S := fun s => (s, Ret s).
Definition put {S} (s : S) : cmd S unit := fun _ => (s, Ret tt).

(** *** Execution and inversion of binds *)

Lemma cmd_bind_Ret {S A B} (m : cmd S A) (f : A -> cmd S B) s s' a :
  m s = (s', Ret a) -> (m ≫= f) s = f a s'.
Proof. unfold mbind, cmd_bind. by intros ->. Qed.

Lemma cmd_bind_Throw {S A B} (m : cmd S A) (f : A -> cmd S B) s s' e :
  m s = (s', Throw e) -> (m ≫= f) s = (s', Throw e).
Proof. unfold mbind, cmd_bind. by intros ->. Qed.

Lemma cmd_bind_Undef {S A B} (m : cmd S A) (f : A -> cmd S B) s s' e :
  m s = (s', Undef e) -> (m ≫= f) s = (s', Undef e).
Proof. unfold mbind, cmd_bind. by intros ->. Qed.

Lemma cmd_bind_assoc {S A B C} (m : cmd S A) (f : A -> cmd S B) (g : B -> cmd S C) s :
  (m ≫= fun x => f x ≫= g) s = ((m ≫= f) ≫= g) s.
Proof. unfold mbind, cmd_bind. by destruct (m s) as [s' []]. Qed.

Lemma bind_Ret {A B} (m : outcome A) (f : A -> outcome B) b :
  (m ≫= f) = Ret b <-> exists a, m = Ret a /\ f a = Ret b.
Proof.
  destruct m; simpl; split; try discriminate; eauto.
  - intros (? & [= <-] & ?); done.
  - intros (? & ? & ?); discriminate.
  - intros (? & ? & ?); discriminate.
  - intros (? & ? & ?); discriminate.
Qed.

(** One step of a computation. *)
Lemma bind_is {A B} (m : outcome A) (f : A -> outcome B) a r : m = Ret a -> f a = r -> (m ≫= f) = r.
Proof. by intros -> <-. Qed.

Lemma deref_Ret {A} (o : option A) msg a : deref o msg = Ret a <-> o = Some a.
Proof. destruct o; simpl; split; congruence. Qed.

Lemma ASSERT_Ret b msg u : ASSERT b msg = Ret u <-> b = true.
Proof. destruct b, u; simpl; split; congruence. Qed.

(** ** Bytes

    The sources are built with [-funsigned-char] (configure.in), so a [char]
    is the unsigned value of a byte. *)

Abbreviation bytes := (list byte).

#[export] Instance byte_eq_decision : EqDecision byte := Byte.byte_eq_dec.
#[export] Instance byte_inhabited : Inhabited byte := populate x00.

(** The value of an [unsigned char]. *)
Definition bz (b : byte) : Z := Z.of_N (Byte.to_N b).

(** The conversion [(char) z] (or [(uint8_t) z]): reduction modulo 256. *)
Definition zb (z : Z) : byte :=
  match Byte.of_N (Z.to_N (z mod 256)) with Some b => b | None => x00 end.

(** A string literal of the program. *)
Definition lit (s : string) : bytes := String.list_byte_of_string s.

Lemma bz_range b : 0 <= bz b < 256.
Proof. unfold bz. pose proof (Byte.to_N_bounded b). lia. Qed.

Lemma zb_bz b : zb (bz b) = b.
Proof.
  unfold zb. rewrite Z.mod_small by apply bz_range.
  unfold bz. rewrite N2Z.id, Byte.of_to_N. done.
Qed.

Lemma bz_zb z : bz (zb z) = z mod 256.
Proof.
  unfold zb. pose proof (Z.mod_pos_bound z 256 ltac:(lia)) as H.
  destruct (Byte.of_N (Z.to_N (z mod 256))) as [b|] eqn:E.
  - unfold bz. apply Byte.to_of_N in E. rewrite E. lia.
  - apply Byte.of_N_None_iff in E. lia.
Qed.

Lemma bz_inj a b : bz a = bz b -> a = b.
Proof. intros H. by rewrite <- (zb_bz a), <- (zb_bz b), H. Qed.

#[export] Instance bz_Inj : Inj (=) (=) bz := bz_inj.

Lemma high_bit c : (0 <? Z.land (bz c) 128) = (128 <=? bz c).
Proof. by destruct c. Qed.

(** Boolean equality of bytes, the [==] of the code on characters. *)
Definition beq (a b : byte) : bool := bool_decide (a = b).

Declare Scope nx_scope.
Delimit Scope nx_scope with nx.
Notation "a =c b" := (beq a b) (at level 70, no associativity) : nx_scope.
#[global] Open Scope nx_scope.

Lemma beq_true a b : (a =c b) = true <-> a = b.
Proof. apply bool_decide_eq_true. Qed.
Lemma beq_false a b : (a =c b) = false <-> a <> b.
Proof. apply bool_decide_eq_false. Qed.
Lemma beq_refl a : (a =c a) = true.
Proof. by apply beq_true. Qed.

(** Bytes and byte strings are keys of finite maps. *)
#[export] Instance byte_countable : Countable byte := inj_countable Byte.to_N Byte.of_N Byte.of_to_N.

(** Length of a byte block as a machine-size integer. *)
Abbreviation zlen l := (Z.of_nat (length l)).

(** ** C strings

    A NUL-terminated [char *] is represented by the bytes before its NUL. *)

Definition no_nul (s : bytes) : Prop := x00 ∉ s.
#[export] Instance no_nul_dec s : Decision (no_nul s) := _.

(** The C string stored at the start of a block: the bytes up to the first
    NUL. *)
Fixpoint cstr (mem : bytes) : bytes :=
  match mem with
  | [] => []
  | c :: mem' => if c =c x00 then [] else c :: cstr mem'
  end.

Lemma cstr_no_nul s : no_nul s -> cstr s = s.
Proof.
  unfold no_nul. induction s as [|c s IH]; simpl; [done|].
  intros H. destruct (c =c x00) eqn:E.
  - apply beq_true in E. set_solver.
  - f_equal. apply IH. set_solver.
Qed.

Lemma no_nul_cstr s : no_nul (cstr s).
Proof.
  unfold no_nul. induction s as [|c s IH]; simpl; [set_solver|].
  destruct (c =c x00) eqn:E; [set_solver|].
  apply beq_false in E. set_solver.
Qed.

Lemma cstr_app_nul s r : no_nul s -> cstr (s ++ x00 :: r) = s.
Proof.
  unfold no_nul. induction s as [|c s IH]; simpl; [done|].
  intros H. destruct (c =c x00) eqn:E.
  - apply beq_true in E. set_solver.
  - f_equal. apply IH. set_solver.
Qed.

Lemma cstr_length b : zlen (cstr b) <= zlen b.
Proof. induction b as [|c b IH]; simpl; [lia|]. destruct (c =c x00); simpl; lia. Qed.

(** [tolower] in the C locale, and [strcasecmp(a, b) == 0]. *)
Definition tolower (c : byte) : byte :=
  if (65 <=? bz c) && (bz c <=? 90) then zb (bz c + 32) else c.

Definition strcasecmp_eq (a b : bytes) : bool :=
  bool_decide (map tolower a = map tolower b).

(** [strcmp(a, b) == 0]. *)
Definition strcmp_eq (a b : bytes) : bool := bool_decide (a = b).

Lemma strcasecmp_eq_true a b :
  strcasecmp_eq a b = true <-> map tolower a = map tolower b.
Proof. apply bool_decide_eq_true. Qed.
Lemma strcasecmp_eq_false a b :
  strcasecmp_eq a b = false <-> map tolower a <> map tolower b.
Proof. apply bool_decide_eq_false. Qed.
Lemma strcmp_eq_true a b : strcmp_eq a b = true <-> a = b.
Proof. apply bool_decide_eq_true. Qed.
Lemma strcmp_eq_false a b : strcmp_eq a b = false <-> a <> b.
Proof. apply bool_decide_eq_false. Qed.

(** ** Blocks of memory *)

(** [memcpy(buf + off, data, length data)]: undefined outside the block. *)
Definition mem_write (buf : bytes) (off : Z) (data : bytes) : outcome bytes :=
  if (0 <=? off) && (off + zlen data <=? zlen buf)
  then Ret (take (Z.to_nat off) buf ++ data ++ drop (Z.to_nat off + length data) buf)
  else Undef "write outside the block".

(** The [n] bytes at [buf + off]. *)
Definition mem_read (buf : bytes) (off n : Z) : outcome bytes :=
  if (0 <=? off) && (0 <=? n) && (off + n <=? zlen buf)
  then Ret (take (Z.to_nat n) (drop (Z.to_nat off) buf))
  else Undef "read outside the block".

Lemma mem_write_length buf off data buf' :
  mem_write buf off data = Ret buf' -> length buf' = length buf.
Proof.
  unfold mem_write. destruct (_ && _) eqn:E; [|done]. intros [= <-].
  apply andb_true_iff in E as [E1 E2].
  apply Z.leb_le in E1, E2.
  rewrite !length_app, length_take, length_drop. lia.
Qed.

Lemma mem_write_oob buf off data :
  zlen buf < off + zlen data -> mem_write buf off data = Undef "write outside the block".
Proof.
  intros H. unfold mem_write. destruct (_ && _) eqn:E; [|done].
  apply andb_true_iff in E as [_ E]. apply Z.leb_le in E. lia.
Qed.

(** ** Tactics *)

(** Turn boolean tests of the code into propositions. *)
Ltac tests :=
  repeat match goal with
  | H : _ && _ = true |- _ => apply andb_true_iff in H; destruct H
  | H : _ || _ = false |- _ => apply orb_false_iff in H; destruct H
  | H : negb _ = true |- _ => apply negb_true_iff in H
  | H : negb _ = false |- _ => apply negb_false_iff in H
  | H : (_ =c _) = true |- _ => apply beq_true in H
  | H : (_ =c _) = false |- _ => apply beq_false in H
  | H : (_ <=? _)%Z = true |- _ => apply Z.leb_le in H
  | H : (_ <=? _)%Z = false |- _ => apply Z.leb_gt in H
  | H : (_ <? _)%Z = true |- _ => apply Z.ltb_lt in H
  | H : (_ <? _)%Z = false |- _ => apply Z.ltb_ge in H
  | H : (_ =? _)%Z = true |- _ => apply Z.eqb_eq in H
  | H : (_ =? _)%Z = false |- _ => apply Z.eqb_neq in H
  | H : strcmp_eq _ _ = true |- _ => apply strcmp_eq_true in H
  | H : strcmp_eq _ _ = false |- _ => apply strcmp_eq_false in H
  | H : bool_decide _ = true |- _ => apply bool_decide_eq_true in H
  | H : bool_decide _ = false |- _ => apply bool_decide_eq_false in H
  end.

(** Case analysis on the first test of the goal. *)
Ltac case_test :=
  match goal with
  | |- context [if ?b then _ else _] => destruct b eqn:?; tests
  end.

(** Inversion of a computation that returned. *)
Ltac inv_ret :=
  repeat match goal with
  | H : mbind _ _ = Ret _ |- _ => apply bind_Ret in H as (? & ? & H)
  | H : deref _ _ = Ret _ |- _ => apply deref_Ret in H
  | H : ASSERT _ _ = Ret _ |- _ => apply ASSERT_Ret in H
  | H : Ret _ = Ret _ |- _ => injection H as H
  end.

(** Arithmetic on the lengths of concatenations and slices. *)
Ltac lens :=
  subst; repeat first
    [ rewrite length_app in * | rewrite length_cons in * | rewrite length_nil in *
    | rewrite length_take in * | rewrite length_drop in * ]; lia.

Create HintDb nx.
Create Rewrite HintDb nx.
#[export] Hint Resolve bz_range no_nul_cstr beq_refl : nx.
#[export] Hint Rewrite @length_app @length_take @length_drop @length_cons
  @length_nil bz_zb zb_bz : nx.
