(* ===== verification/Dlist.v ===== *)
(** * Doubly linked lists (common/dlist.h)

    The [NX_DLIST_*] macros work on a head structure ([first], [last]) and on
    the [link] member ([next], [prev]) of the elements.  The model has a heap
    of link members indexed by element addresses; every macro is the sequence
    of loads and stores of its expansion, and a load or store through an
    address that is not allocated is undefined. *)

From S2P Require Import Prelude.

Abbreviation loc := positive.

Module Dlist.

(** [NX_DLIST_ENTRY] *)
Record link := Link { next : option loc; prev : option loc }.

(** [NX_DLIST_HEAD], with the links of the elements reachable by address. *)
Record dlist := DL { first : option loc; last : option loc; links : gmap loc link }.

Definition null_link : link := Link None None.

Definition set_first (v : option loc) (d : dlist) : dlist := DL v (last d) (links d).
Definition set_last (v : option loc) (d : dlist) : dlist := DL (first d) v (links d).

(** [(p)->link.next = v] and [(p)->link.prev = v] *)
Definition store_next (p : loc) (v : option loc) (d : dlist) : outcome dlist :=
  k ← deref (links d !! p) "link.next of an unallocated element";
  Ret (DL (first d) (last d) (<[p := Link v (prev k)]> (links d))).
Definition store_prev (p : loc) (v : option loc) (d : dlist) : outcome dlist :=
  k ← deref (links d !! p) "link.prev of an unallocated element";
  Ret (DL (first d) (last d) (<[p := Link (next k) v]> (links d))).

(** [(p)->link.next] and [(p)->link.prev]; the pointer may be NULL. *)
Definition load_next (p : option loc) (d : dlist) : outcome (option loc) :=
  k ← deref (p ≫= fun p => links d !! p) "link.next of NULL or unallocated";
  Ret (next k).
Definition load_prev (p : option loc) (d : dlist) : outcome (option loc) :=
  k ← deref (p ≫= fun p => links d !! p) "link.prev of NULL or unallocated";
  Ret (prev k).

Definition NX_DLIST_INIT (d : dlist) : dlist := set_last None (set_first None d).

Definition NX_DLIST_EMPTY (d : dlist) : bool :=
  bool_decide (first d = None) && bool_decide (last d = None).

Definition NX_DLIST_INSERT_BEFORE (lep nep : loc) (d : dlist) : outcome dlist :=
  d ← store_next nep (Some lep) d;
  p ← load_prev (Some lep) d;
  d ← match p with
      | None => Ret (set_first (Some nep) d)
      | Some q => store_next q (Some nep) d
      end;
  p ← load_prev (Some lep) d;
  d ← store_prev nep p d;
  store_prev lep (Some nep) d.

Definition NX_DLIST_INSERT_AFTER (lep nep : loc) (d : dlist) : outcome dlist :=
  d ← store_prev nep (Some lep) d;
  n ← load_next (Some lep) d;
  d ← match n with
      | None => Ret (set_last (Some nep) d)
      | Some _ => Ret d
      end;
  n ← load_next (Some lep) d;
  d ← store_next nep n d;
  store_next lep (Some nep) d.

Definition NX_DLIST_INSERT_HEAD (nep : loc) (d : dlist) : outcome dlist :=
  d ← store_prev nep None d;
  d ← store_next nep (first d) d;
  d ← match first d with
      | Some f => store_prev f (Some nep) d
      | None => Ret d
      end;
  let d := set_first (Some nep) d in
  Ret (match last d with None => set_last (Some nep) d | Some _ => d end).

Definition NX_DLIST_INSERT_TAIL (nep : loc) (d : dlist) : outcome dlist :=
  d ← store_next nep None d;
  d ← store_prev nep (last d) d;
  d ← match last d with
      | Some l => store_next l (Some nep) d
      | None => Ret d
      end;
  let d := set_last (Some nep) d in
  Ret (match first d with None => set_first (Some nep) d | Some _ => d end).

(** The two [if] statements of [NX_DLIST_REMOVE]: the first redirects what
    points to the element from the left, the second from the right. *)
Definition remove_from_left (ep : loc) (d : dlist) : outcome dlist :=
  if bool_decide (first d = Some ep)
  then n ← load_next (first d) d; Ret (set_first n d)
  else p ← load_prev (Some ep) d;
       q ← deref p "link.prev of the removed element is NULL";
       n ← load_next (Some ep) d;
       store_next q n d.

Definition remove_from_right (ep : loc) (d : dlist) : outcome dlist :=
  if bool_decide (last d = Some ep)
  then p ← load_prev (last d) d; Ret (set_last p d)
  else n ← load_next (Some ep) d;
       q ← deref n "link.next of the removed element is NULL";
       p ← load_prev (Some ep) d;
       store_prev q p d.

Definition NX_DLIST_REMOVE (ep : loc) (d : dlist) : outcome dlist :=
  d ← remove_from_left ep d;
  d ← remove_from_right ep d;
  d ← store_prev ep None d;
  store_next ep None d.

(** [NX_DLIST_CHECK] *)
Definition NX_DLIST_CHECK (d : dlist) : outcome unit :=
  match first d with
  | None => ASSERT (bool_decide (last d = None)) "(hp)->last == NULL"
  | Some _ =>
      p ← load_prev (first d) d;
      _ ← ASSERT (bool_decide (p = None)) "(hp)->first->link.prev == NULL";
      n ← load_next (last d) d;
      ASSERT (bool_decide (n = None)) "(hp)->last->link.next == NULL"
  end.

(** The loop [for ( e = FIRST; e != NULL; e = NEXT(e) )] as the list of the
    elements it visits; [fuel] bounds the number of iterations. *)
Fixpoint walk (fuel : nat) (p : option loc) (d : dlist) : outcome (list loc) :=
  match p with
  | None => Ret []
  | Some q =>
      match fuel with
      | O => Undef "out of fuel"
      | S fuel =>
          n ← load_next p d;
          l ← walk fuel n d;
          Ret (q :: l)
      end
  end.

(** The same loop from the last element through [prev]. *)
Fixpoint walk_back (fuel : nat) (p : option loc) (d : dlist) : outcome (list loc) :=
  match p with
  | None => Ret []
  | Some q =>
      match fuel with
      | O => Undef "out of fuel"
      | S fuel =>
          n ← load_prev p d;
          l ← walk_back fuel n d;
          Ret (q :: l)
      end
  end.

(** ** Representation of an abstract list *)

(** [fst_or l n]: the first element of [l], or [n] when there is none. *)
Definition fst_or (l : list loc) (n : option loc) : option loc :=
  match l with [] => n | x :: _ => Some x end.
Fixpoint lst_or (l : list loc) (p : option loc) : option loc :=
  match l with [] => p | x :: l => lst_or l (Some x) end.

(** The elements [l] are chained in both directions between [p] and [n]. *)
Fixpoint seg (h : gmap loc link) (p : option loc) (l : list loc) (n : option loc) : Prop :=
  match l with
  | [] => True
  | x :: l' => h !! x = Some (Link (fst_or l' n) p) /\ seg h (Some x) l' n
  end.

(** The structure [d] holds the elements [l], in this order. *)
Definition rep (d : dlist) (l : list loc) : Prop :=
  NoDup l /\ first d = fst_or l None /\ last d = lst_or l None /\ seg (links d) None l None.

(** ** Segments *)

Lemma fst_or_app l1 l2 n : fst_or (l1 ++ l2) n = fst_or l1 (fst_or l2 n).
Proof. by destruct l1. Qed.

Lemma lst_or_app l1 l2 p : lst_or (l1 ++ l2) p = lst_or l2 (lst_or l1 p).
Proof. revert p; induction l1; intros p; simpl; auto. Qed.

Lemma seg_app h p l1 l2 n :
  seg h p (l1 ++ l2) n <-> seg h p l1 (fst_or l2 n) /\ seg h (lst_or l1 p) l2 n.
Proof.
  revert p; induction l1 as [|x l1 IH]; intros p; simpl; [tauto|].
  rewrite IH, fst_or_app. tauto.
Qed.

Lemma seg_frame h h' p l n :
  (forall x, x ∈ l -> h' !! x = h !! x) -> seg h p l n -> seg h' p l n.
Proof.
  revert p; induction l as [|x l IH]; intros p Hh; simpl; [done|].
  intros [Hx Hs]. split; [rewrite Hh; [done|set_solver]|].
  apply IH; [|done]. intros y Hy. apply Hh. set_solver.
Qed.

Lemma seg_insert h p l n x k : x ∉ l -> seg h p l n -> seg (<[x:=k]> h) p l n.
Proof.
  intros Hx. apply seg_frame. intros y Hy. apply lookup_insert_ne. set_solver.
Qed.

Lemma seg_lookup h p l1 x l2 n :
  seg h p (l1 ++ x :: l2) n -> h !! x = Some (Link (fst_or l2 n) (lst_or l1 p)).
Proof. rewrite seg_app. simpl. tauto. Qed.

(** Changing the last [next] or the first [prev] of a segment. *)
Lemma seg_set_next h p l x n n' :
  x ∉ l -> seg h p (l ++ [x]) n ->
  seg (<[x := Link n' (lst_or l p)]> h) p (l ++ [x]) n'.
Proof.
  intros Hx. rewrite !seg_app. simpl. intros [Hl _].
  split; [by apply seg_insert|]. by rewrite lookup_insert_eq.
Qed.

Lemma seg_set_prev h p p' x l n :
  x ∉ l -> seg h p (x :: l) n -> seg (<[x := Link (fst_or l n) p']> h) p' (x :: l) n.
Proof.
  simpl. intros Hx [_ Hl]. rewrite lookup_insert_eq.
  split; [done|]. by apply seg_insert.
Qed.

#[local] Hint Resolve seg_insert : nx.

(** Run the loads and stores of a macro: look the links up in the hypotheses
    and through the updates made so far. *)
Ltac run :=
  unfold store_next, store_prev, load_next, load_prev, set_first, set_last; simpl;
  repeat (simplify_map_eq; simpl; try rewrite bool_decide_true by congruence;
          try rewrite bool_decide_false by congruence).

(** A list is empty or has a last element. *)
Lemma snoc_case (l : list loc) : l = [] \/ exists l' x, l = l' ++ [x].
Proof. destruct l using rev_ind; eauto. Qed.

Lemma NoDup_mid (l1 l2 : list loc) x :
  NoDup (l1 ++ x :: l2) <-> x ∉ l1 /\ x ∉ l2 /\ NoDup (l1 ++ l2).
Proof.
  rewrite <- Permutation_middle, NoDup_cons, not_elem_of_app. tauto.
Qed.

Lemma fst_or_some l x : exists y, fst_or l (Some x) = Some y.
Proof. destruct l; simpl; eauto. Qed.
Lemma lst_or_some l x : exists y, lst_or l (Some x) = Some y.
Proof. revert x; induction l; simpl; eauto. Qed.

(** ** Refinement of the macros *)

Lemma insert_tail_rep d l x :
  rep d l -> x ∉ l -> is_Some (links d !! x) ->
  exists d', NX_DLIST_INSERT_TAIL x d = Ret d' /\ rep d' (l ++ [x]) /\
    (forall y, y ∉ l -> y <> x -> links d' !! y = links d !! y).
Proof.
  intros (Hnd & Hf & Hl & Hs) Hx [k Hk]. unfold NX_DLIST_INSERT_TAIL.
  destruct d as [f la h]; simpl in *; subst.
  destruct (snoc_case l) as [->|(l' & q & ->)].
  - run. eexists; split; [done|]. split.
    + repeat split; simpl; [apply NoDup_singleton | by simplify_map_eq].
    + intros y _ Hy. by simplify_map_eq.
  - assert (x ∉ l' /\ x <> q) as [Hxl Hxq] by set_solver.
    pose proof (seg_lookup _ _ _ _ _ _ Hs) as Hq. simpl in Hq.
    rewrite lst_or_app, fst_or_app. simpl.
    destruct (fst_or_some l' q) as [f Ef]. rewrite Ef. run.
    eexists; split; [done|]. split; [split_and!|]; simpl.
    + apply NoDup_mid. rewrite app_nil_r. set_solver.
    + rewrite !fst_or_app. simpl. by destruct l'.
    + by rewrite lst_or_app.
    + apply seg_app. simpl.
      split; [|rewrite lst_or_app; simpl; by simplify_map_eq].
      apply (seg_set_next _ _ _ _ None); [apply NoDup_mid in Hnd; set_solver|].
      do 2 (apply seg_insert; [set_solver|]). done.
    + intros y Hy Hyx. assert (y <> q) by set_solver. by simplify_map_eq.
Qed.

Lemma insert_head_rep d l x :
  rep d l -> x ∉ l -> is_Some (links d !! x) ->
  exists d', NX_DLIST_INSERT_HEAD x d = Ret d' /\ rep d' (x :: l) /\
    (forall y, y ∉ l -> y <> x -> links d' !! y = links d !! y).
Proof.
  intros (Hnd & Hf & Hl & Hs) Hx [k Hk]. unfold NX_DLIST_INSERT_HEAD.
  destruct d as [f la h]; simpl in *; subst.
  destruct l as [|q l].
  - run. eexists; split; [done|]. split.
    + repeat split; simpl; [apply NoDup_singleton | by simplify_map_eq].
    + intros y _ Hy. by simplify_map_eq.
  - assert (x ∉ l /\ x <> q) as [Hxl Hxq] by set_solver.
    pose proof (proj1 Hs) as Hq. destruct (lst_or_some l q) as [la El]. run.
    eexists; split; [done|]. split; [split_and!|]; simpl; auto.
    + by apply NoDup_cons.
    + split; [by simplify_map_eq|]. apply (seg_set_prev _ None).
      * apply NoDup_cons in Hnd. tauto.
      * do 2 (apply seg_insert; [set_solver|]). done.
    + intros y Hy Hyx. assert (y <> q) by set_solver. by simplify_map_eq.
Qed.

Lemma insert_before_rep d l1 lep l2 x :
  rep d (l1 ++ lep :: l2) -> x ∉ l1 ++ lep :: l2 -> is_Some (links d !! x) ->
  exists d', NX_DLIST_INSERT_BEFORE lep x d = Ret d' /\ rep d' (l1 ++ x :: lep :: l2).
Proof.
  intros (Hnd & Hf & Hl & Hs) Hx [k Hk]. unfold NX_DLIST_INSERT_BEFORE.
  destruct d as [f la h]; simpl in *; subst.
  pose proof (seg_lookup _ _ _ _ _ _ Hs) as Hq.
  apply seg_app in Hs as [Hs1 Hs2]. simpl in Hs1.
  pose proof Hnd as Hnd'. apply NoDup_mid in Hnd' as (Hn1 & Hn2 & Hn12).
  assert (x ∉ l1 /\ x <> lep /\ x ∉ l2) as (Hx1 & Hxl & Hx2) by set_solver.
  assert (NoDup (l1 ++ x :: lep :: l2)) as Hnew by (apply NoDup_mid; set_solver).
  destruct (snoc_case l1) as [->|(l' & q & ->)].
  - run. eexists; split; [done|]. split_and!; simpl; auto.
    split; [by simplify_map_eq|]. apply (seg_set_prev _ None); [done|].
    do 2 (apply seg_insert; [set_solver|]). done.
  - pose proof (seg_lookup _ _ _ _ _ _ Hs1) as Hq'. simpl in Hq'.
    rewrite lst_or_app in *. simpl in *. 
    assert (q <> lep /\ q <> x) as [? ?] by set_solver.
    run. eexists; split; [done|]. split_and!; simpl; auto.
    + by rewrite !fst_or_app.
    + by rewrite !lst_or_app.
    + rewrite <- app_assoc in Hn12. apply NoDup_mid in Hn12.
      apply seg_app. rewrite lst_or_app. simpl. split_and!.
      * do 2 (apply seg_insert; [set_solver|]).
        apply (seg_set_next _ _ _ _ (Some lep)); [tauto|].
        apply seg_insert; [set_solver|done].
      * by simplify_map_eq.
      * by simplify_map_eq.
      * do 4 (apply seg_insert; [set_solver|]). simpl in Hs2. tauto.
Qed.

Lemma lst_or_elem l p x : lst_or l p = Some x -> p = Some x \/ x ∈ l.
Proof.
  revert p; induction l as [|y l IH]; intros p; simpl; [auto|].
  intros [[= ->]|]%IH; set_solver.
Qed.

Lemma fst_or_elem l n x : fst_or l n = Some x -> n = Some x \/ x ∈ l.
Proof. destruct l; simpl; [auto|]. intros [= ->]. set_solver. Qed.

Lemma remove_from_left_ok f la h l1 x l2 :
  NoDup (l1 ++ x :: l2) -> f = fst_or (l1 ++ x :: l2) None -> seg h None (l1 ++ x :: l2) None ->
  exists h', remove_from_left x (DL f la h) = Ret (DL (fst_or (l1 ++ l2) None) la h') /\
    seg h' None l1 (fst_or l2 None) /\ (forall y, y ∉ l1 -> h' !! y = h !! y).
Proof.
  intros Hnd -> Hs. unfold remove_from_left. simpl.
  pose proof (seg_lookup _ _ _ _ _ _ Hs) as Hx.
  apply seg_app in Hs as [Hs1 _]. simpl in Hs1. apply NoDup_mid in Hnd as (Hn1 & Hn2 & Hn12).
  destruct (snoc_case l1) as [->|(l' & q & ->)]; simpl in *.
  - run. eauto.
  - assert (fst_or ((l' ++ [q]) ++ x :: l2) None <> Some x).
    { rewrite !fst_or_app. intros [[=]|]%fst_or_elem; set_solver. }
    pose proof (seg_lookup _ _ _ _ _ _ Hs1) as Hq. simpl in Hq.
    rewrite lst_or_app in Hx. simpl in Hx. run.
    rewrite !fst_or_app. simpl. eexists; split; [done|]. split.
    + rewrite <- app_assoc in Hn12. apply NoDup_mid in Hn12.
      apply (seg_set_next _ _ _ _ (Some x)); tauto.
    + intros y Hy. assert (y <> q) by set_solver. by simplify_map_eq.
Qed.

Lemma remove_from_right_ok f la h l1 x l2 :
  NoDup (l1 ++ x :: l2) -> la = lst_or (l1 ++ x :: l2) None ->
  h !! x = Some (Link (fst_or l2 None) (lst_or l1 None)) -> seg h (Some x) l2 None ->
  exists h', remove_from_right x (DL f la h) = Ret (DL f (lst_or (l1 ++ l2) None) h') /\
    seg h' (lst_or l1 None) l2 None /\ (forall y, y ∉ l2 -> h' !! y = h !! y).
Proof.
  intros Hnd -> Hx Hs2. unfold remove_from_right. simpl.
  apply NoDup_mid in Hnd as (Hn1 & Hn2 & Hn12). rewrite !lst_or_app. simpl.
  destruct l2 as [|r l2]; simpl in *.
  - run. eauto.
  - assert (lst_or l2 (Some r) <> Some x) by (intros [?|?]%lst_or_elem; set_solver).
    pose proof (proj1 Hs2) as Hr. run. eexists; split; [done|]. split.
    + apply (seg_set_prev _ (Some x)); [|done].
      apply NoDup_mid in Hn12. tauto.
    + intros y Hy. assert (y <> r) by set_solver. by simplify_map_eq.
Qed.

Lemma remove_rep d l1 x l2 :
  rep d (l1 ++ x :: l2) ->
  exists d', NX_DLIST_REMOVE x d = Ret d' /\ rep d' (l1 ++ l2) /\
    links d' !! x = Some null_link /\
    (forall y, y ∉ l1 ++ x :: l2 -> links d' !! y = links d !! y).
Proof.
  intros (Hnd & Hf & Hl & Hs). unfold NX_DLIST_REMOVE. destruct d as [f la h]; simpl in *.
  destruct (remove_from_left_ok f la h l1 x l2) as (h1 & E1 & S1 & F1); [done..|].
  pose proof (seg_lookup _ _ _ _ _ _ Hs) as Hx. apply seg_app in Hs as [_ [_ Hs2]].
  pose proof Hnd as Hnd'. apply NoDup_mid in Hnd' as (Hn1 & Hn2 & Hn12).
  pose proof Hn12 as Hn12'. apply NoDup_app in Hn12' as (_ & Hdis & _).
  destruct (remove_from_right_ok (fst_or (l1 ++ l2) None) la h1 l1 x l2)
    as (h2 & E2 & S2 & F2); [done|done|by rewrite F1|..].
  { apply (seg_frame h); [|done]. intros y Hy. apply F1. set_solver. }
  rewrite E1. simpl. rewrite E2. simpl.
  assert (h2 !! x = Some (Link (fst_or l2 None) (lst_or l1 None))) by (rewrite F2, F1; done).
  run. eexists; split; [done|]. split; [split_and!|split]; simpl; auto.
  - apply seg_app. split; do 2 (apply seg_insert; [done|]); [|done].
    apply (seg_frame h1); [|done]. intros y Hy. apply F2. set_solver.
  - by simplify_map_eq.
  - intros y Hy. assert (y <> x) by set_solver. simplify_map_eq.
    rewrite F2, F1; set_solver.
Qed.

(** Inserting after an element that has a successor leaves the successor's
    [prev] link on the old predecessor. *)
Lemma insert_after_links d l1 lep r l2 x :
  rep d (l1 ++ lep :: r :: l2) -> x ∉ l1 ++ lep :: r :: l2 -> is_Some (links d !! x) ->
  exists d', NX_DLIST_INSERT_AFTER lep x d = Ret d' /\
    (exists k, links d' !! lep = Some k /\ next k = Some x) /\
    links d' !! x = Some (Link (Some r) (Some lep)) /\
    (exists k, links d' !! r = Some k /\ prev k = Some lep).
Proof.
  intros (Hnd & Hf & Hl & Hs) Hx [k Hk]. unfold NX_DLIST_INSERT_AFTER.
  pose proof (seg_lookup _ _ _ _ _ _ Hs) as Hq. simpl in Hq.
  apply seg_app in Hs as [_ [_ [Hr _]]].
  apply NoDup_mid in Hnd as (_ & Hlep & _).
  assert (x <> lep /\ x <> r /\ lep <> r) as (? & ? & ?) by set_solver.
  run. eexists; split; [done|]. simpl. simplify_map_eq. eauto 10.
Qed.

(** ** Traversals *)

Lemma walk_seg d p l fuel :
  seg (links d) p l None -> (length l <= fuel)%nat -> walk fuel (fst_or l None) d = Ret l.
Proof.
  revert p fuel; induction l as [|x l IH]; intros p fuel; simpl.
  - by destruct fuel.
  - intros [Hx Hs] Hf. destruct fuel as [|fuel]; [lia|]. simpl. unfold load_next. simpl.
    rewrite Hx. simpl. rewrite (IH (Some x)); [done|done|lia].
Qed.

Lemma walk_back_seg d l n fuel :
  seg (links d) None l n -> (length l <= fuel)%nat ->
  walk_back fuel (lst_or l None) d = Ret (rev l).
Proof.
  revert n fuel; induction l as [|x l IH] using rev_ind; intros n fuel; simpl.
  - by destruct fuel.
  - rewrite length_app, lst_or_app, rev_app_distr. simpl. intros Hs Hf.
    destruct fuel as [|fuel]; [lia|]. simpl. unfold load_prev. simpl.
    rewrite (seg_lookup _ _ _ _ _ _ Hs). simpl. apply seg_app in Hs as [Hs _].
    rewrite (IH (Some x)); [done|done|lia].
Qed.

Lemma rep_walk d l fuel :
  rep d l -> (length l <= fuel)%nat ->
  walk fuel (first d) d = Ret l /\ walk_back fuel (last d) d = Ret (rev l).
Proof.
  intros (_ & -> & -> & Hs) Hf. eauto using walk_seg, walk_back_seg.
Qed.

Lemma rep_check d l : rep d l -> NX_DLIST_CHECK d = Ret tt.
Proof.
  intros (_ & Hf & Hl & Hs). unfold NX_DLIST_CHECK. rewrite Hf, Hl.
  destruct (snoc_case l) as [->|(l' & q & E)]; [done|]. subst l.
  pose proof (seg_lookup _ _ _ _ _ _ Hs) as Hq.
  unfold load_prev, load_next. rewrite lst_or_app. simpl. 
  destruct l' as [|y l']; simpl in *; destruct Hs as [Hy _].
  - by rewrite Hq.
  - rewrite Hy, Hq. done.
Qed.

Lemma rep_empty d l : rep d l -> NX_DLIST_EMPTY d = bool_decide (l = []).
Proof.
  intros (_ & Hf & Hl & _). unfold NX_DLIST_EMPTY. rewrite Hf, Hl.
  by destruct l.
Qed.

Lemma rep_init d : rep (NX_DLIST_INIT d) [].
Proof. repeat split. apply NoDup_nil_2. Qed.

(** ** Sequences of operations *)

(** The operations the program applies to a list. *)
Inductive op :=
| OpTail (x : loc)
| OpHead (x : loc)
| OpBefore (lep x : loc)
| OpRemove (x : loc).

Definition run_op (o : op) (d : dlist) : outcome dlist :=
  match o with
  | OpTail x => NX_DLIST_INSERT_TAIL x d
  | OpHead x => NX_DLIST_INSERT_HEAD x d
  | OpBefore lep x => NX_DLIST_INSERT_BEFORE lep x d
  | OpRemove x => NX_DLIST_REMOVE x d
  end.

Fixpoint run_ops (os : list op) (d : dlist) : outcome dlist :=
  match os with
  | [] => Ret d
  | o :: os => d ← run_op o d; run_ops os d
  end.

(** The specification: the same operations on a list without duplicates; an
    inserted element must be new and a removed or named one present. *)
Fixpoint spec_before (lep x : loc) (l : list loc) : option (list loc) :=
  match l with
  | [] => None
  | y :: l' => if bool_decide (y = lep) then Some (x :: y :: l')
               else (cons y) <$> spec_before lep x l'
  end.

Fixpoint spec_remove (x : loc) (l : list loc) : option (list loc) :=
  match l with
  | [] => None
  | y :: l' => if bool_decide (y = x) then Some l' else (cons y) <$> spec_remove x l'
  end.

Definition spec_op (o : op) (l : list loc) : option (list loc) :=
  match o with
  | OpTail x => if bool_decide (x ∈ l) then None else Some (l ++ [x])
  | OpHead x => if bool_decide (x ∈ l) then None else Some (x :: l)
  | OpBefore lep x => if bool_decide (x ∈ l) then None else spec_before lep x l
  | OpRemove x => spec_remove x l
  end.

Fixpoint spec_ops (os : list op) (l : list loc) : option (list loc) :=
  match os with
  | [] => Some l
  | o :: os => l ← spec_op o l; spec_ops os l
  end.

Lemma spec_before_Some lep x l l' :
  spec_before lep x l = Some l' ->
  exists l1 l2, l = l1 ++ lep :: l2 /\ l' = l1 ++ x :: lep :: l2.
Proof.
  revert l'; induction l as [|y l IH]; intros l'; simpl; [done|].
  case_bool_decide as E; [intros [= <-]; subst; by exists [], l|].
  destruct (spec_before lep x l) as [m|]; [|done]. intros [= <-].
  destruct (IH m eq_refl) as (l1 & l2 & -> & ->). by exists (y :: l1), l2.
Qed.

Lemma spec_remove_Some x l l' :
  spec_remove x l = Some l' -> exists l1 l2, l = l1 ++ x :: l2 /\ l' = l1 ++ l2.
Proof.
  revert l'; induction l as [|y l IH]; intros l'; simpl; [done|].
  case_bool_decide as E; [intros [= <-]; subst; by exists [], l|].
  destruct (spec_remove x l) as [m|]; [|done]. intros [= <-].
  destruct (IH m eq_refl) as (l1 & l2 & -> & ->). by exists (y :: l1), l2.
Qed.

(** The elements an operation may insert. *)
Definition op_elem (o : op) : loc :=
  match o with OpTail x | OpHead x | OpBefore _ x | OpRemove x => x end.

Lemma store_next_dom p v d d' : store_next p v d = Ret d' -> dom (links d') = dom (links d).
Proof.
  unfold store_next. destruct (links d !! p) eqn:E; simpl; [|done].
  intros [= <-]. simpl. apply dom_insert_lookup_L. eauto.
Qed.
Lemma store_prev_dom p v d d' : store_prev p v d = Ret d' -> dom (links d') = dom (links d).
Proof.
  unfold store_prev. destruct (links d !! p) eqn:E; simpl; [|done].
  intros [= <-]. simpl. apply dom_insert_lookup_L. eauto.
Qed.

(** One operation: it runs, represents the specified list and allocates or
    frees nothing. *)
Lemma dlist_op_rep o d l l' :
  rep d l -> is_Some (links d !! op_elem o) -> spec_op o l = Some l' ->
  exists d', run_op o d = Ret d' /\ rep d' l'.
Proof.
  intros Hr Ha. destruct o as [x|x|lep x|x]; simpl.
  - case_bool_decide; [done|]. intros [= <-].
    destruct (insert_tail_rep d l x) as (d' & ? & ? & _); eauto.
  - case_bool_decide; [done|]. intros [= <-].
    destruct (insert_head_rep d l x) as (d' & ? & ? & _); eauto.
  - case_bool_decide; [done|]. intros (l1 & l2 & -> & ->)%spec_before_Some.
    by apply insert_before_rep.
  - intros (l1 & l2 & -> & ->)%spec_remove_Some.
    destruct (remove_rep d l1 x l2) as (d' & ? & ? & _); eauto.
Qed.

Lemma run_op_dom o d d' : run_op o d = Ret d' -> dom (links d') = dom (links d).
Proof.
  destruct o; simpl;
    unfold NX_DLIST_INSERT_TAIL, NX_DLIST_INSERT_HEAD, NX_DLIST_INSERT_BEFORE,
      NX_DLIST_REMOVE, remove_from_left, remove_from_right; intros H; inv_ret;
    repeat match goal with
    | H : context [match ?x with _ => _ end] |- _ => destruct x
    | H : (if ?b then _ else _) = _ |- _ => destruct b
    end; inv_ret; subst; simpl in *;
    repeat match goal with
    | H : store_next _ _ _ = Ret _ |- _ => apply store_next_dom in H
    | H : store_prev _ _ _ = Ret _ |- _ => apply store_prev_dom in H
    end; simpl in *; try congruence.
Qed.

Lemma dlist_run_rep os d l l' :
  rep d l -> (forall o, o ∈ os -> is_Some (links d !! op_elem o)) ->
  spec_ops os l = Some l' -> exists d', run_ops os d = Ret d' /\ rep d' l'.
Proof.
  revert d l; induction os as [|o os IH]; intros d l Hr Ha; simpl; [naive_solver|].
  destruct (spec_op o l) as [m|] eqn:E; [|done]. simpl. intros Hs.
  destruct (dlist_op_rep o d l m) as (d1 & E1 & R1); [done|apply Ha; set_solver|done|].
  rewrite E1. simpl. apply (IH d1 m); [done| |done].
  intros o' Ho'. rewrite <- elem_of_dom, (run_op_dom _ _ _ E1), elem_of_dom.
  apply Ha. set_solver.
Qed.

(** ** Properties *)

(** C2: any sequence of insertions and removals that is meaningful on the
    abstract list runs on the linked structure without touching an unallocated
    element, the structure passes [NX_DLIST_CHECK], and both traversals see
    exactly the abstract list, forwards and backwards. *)
Theorem dlist_ops_refine os d l fuel :
  (forall o, o ∈ os -> is_Some (links d !! op_elem o)) ->
  spec_ops os [] = Some l -> (length l <= fuel)%nat ->
  exists d', run_ops os (NX_DLIST_INIT d) = Ret d' /\
    NX_DLIST_CHECK d' = Ret tt /\
    NX_DLIST_EMPTY d' = bool_decide (l = []) /\
    walk fuel (first d') d' = Ret l /\
    walk_back fuel (last d') d' = Ret (rev l).
Proof.
  intros Ha Hs Hf.
  destruct (dlist_run_rep os (NX_DLIST_INIT d) [] l) as (d' & E & R); [apply rep_init|done..|].
  exists d'. destruct (rep_walk d' l fuel R Hf). split_and!; eauto using rep_check, rep_empty.
Qed.

Definition three_cells : dlist :=
  DL None None (<[1%positive := null_link]> (<[2%positive := null_link]>
    (<[3%positive := null_link]> ∅))).

Lemma dlist_ops_refine_witness :
  exists d', run_ops [OpTail 1; OpTail 2; OpBefore 2 3; OpRemove 1]%positive
               (NX_DLIST_INIT three_cells) = Ret d' /\
    NX_DLIST_CHECK d' = Ret tt /\
    NX_DLIST_EMPTY d' = bool_decide ([3; 2]%positive = []) /\
    walk 5 (first d') d' = Ret [3; 2]%positive /\
    walk_back 5 (last d') d' = Ret (rev [3; 2]%positive).
Proof.
  apply (dlist_ops_refine [OpTail 1; OpTail 2; OpBefore 2 3; OpRemove 1]%positive
           three_cells [3; 2]%positive 5).
  - intros o Ho. repeat (apply elem_of_cons in Ho as [->|Ho]; [vm_compute; eauto|]).
    by apply elem_of_nil in Ho.
  - vm_compute. reflexivity.
  - simpl. lia.
Defined.

(** [NX_DLIST_INSERT_AFTER] does not update the [prev] link of the element
    that follows: after an insertion before a successor [r] the structure
    represents no list at all, although the forward links are right. *)
Theorem insert_after_not_rep d l1 lep r l2 x :
  rep d (l1 ++ lep :: r :: l2) -> x ∉ l1 ++ lep :: r :: l2 -> is_Some (links d !! x) ->
  exists d', NX_DLIST_INSERT_AFTER lep x d = Ret d' /\
    load_next (Some lep) d' = Ret (Some x) /\
    load_next (Some x) d' = Ret (Some r) /\
    load_prev (Some r) d' = Ret (Some lep) /\
    (forall l, lep ∈ l -> ~ rep d' l).
Proof.
  intros Hr Hx Ha.
  destruct (insert_after_links d l1 lep r l2 x Hr Hx Ha)
    as (d' & E & (k1 & H1 & N1) & H2 & (k3 & H3 & P3)).
  exists d'. unfold load_next, load_prev. simpl. rewrite H1, H2, H3. simpl.
  split_and!; [done|congruence|done|congruence|].
  intros l (l3 & l4 & ->)%list_elem_of_split (Hnd & _ & _ & Hs).
  pose proof (seg_lookup _ _ _ _ _ _ Hs) as L1. rewrite H1 in L1. injection L1 as ->.
  destruct l4 as [|y l4]; simpl in N1; [done|]. injection N1 as ->.
  apply seg_app in Hs as [_ [_ [L2 Hs]]]. rewrite H2 in L2. injection L2 as L2.
  destruct l4 as [|z l4]; simpl in L2; [done|]. injection L2 as <-.
  destruct Hs as [L3 _]. rewrite H3 in L3. injection L3 as ->. simpl in P3.
  injection P3 as ->. apply NoDup_mid in Hnd as (_ & Hn & _). set_solver.
Qed.

Definition two_chained : dlist :=
  DL (Some 1%positive) (Some 2%positive)
    (<[1%positive := Link (Some 2%positive) None]>
     (<[2%positive := Link None (Some 1%positive)]> (<[3%positive := null_link]> ∅))).

Lemma insert_after_not_rep_witness :
  exists d', NX_DLIST_INSERT_AFTER 1 3 two_chained = Ret d' /\
    load_next (Some 1%positive) d' = Ret (Some 3%positive) /\
    load_next (Some 3%positive) d' = Ret (Some 2%positive) /\
    load_prev (Some 2%positive) d' = Ret (Some 1%positive) /\
    (forall l, 1%positive ∈ l -> ~ rep d' l).
Proof.
  apply (insert_after_not_rep two_chained [] 1 2 [] 3).
  - split; [apply (bool_decide_unpack _); vm_compute; done|]. repeat split.
  - apply (bool_decide_unpack _). vm_compute. done.
  - vm_compute. eauto.
Defined.

End Dlist.
