(* ===== verification/Str.v ===== *)
(** * Growable strings (common/str.h, common/str.c)

    An [nx_string_t] is a heap block [buf] with its recorded size [bufsize],
    the length [len] of the string and flags.  Every [memcpy], [memmove] and
    single-byte store of the code is a checked access to the block, so a
    computation that returns has stayed inside its allocation.  Fresh memory
    has arbitrary contents: [malloc] is a parameter ([Malloc]).

    The second half states the contract of the component: operations on the
    byte string [content s], and that each operation implements it. *)

From S2P Require Import Prelude.

(** Memory returned by [malloc(n)]: [n] bytes of unknown value. *)
Class Malloc := {
  malloc : Z -> bytes;
  malloc_length n : 0 <= n -> zlen (malloc n) = n
}.

Module Str.

(** NX_STRING_DEFAULT_SIZE, NX_STRING_DEFAULT_LIMIT and the constant
    [_string_limit] initialised with it. *)
Definition NX_STRING_DEFAULT_SIZE : Z := 128.
Definition string_limit : Z := 1024 * 1024.
Definition NX_STRING_FLAG_CONST : Z := 2.

Record nx_string := NxString {
  flags : Z;
  buf : bytes;
  bufsize : Z;
  len : Z
}.

(** Wrap-around of [uint32_t], [size_t] and of the conversion to [int]. *)
Definition u32 (z : Z) : Z := z mod 2 ^ 32.
Definition u64 (z : Z) : Z := z mod 2 ^ 64.
Definition s32 (z : Z) : Z := (z + 2 ^ 31) mod 2 ^ 32 - 2 ^ 31.

(** [strlen] of the C string at the start of a readable region. *)
Definition strlen (mem : bytes) : outcome Z :=
  if bool_decide (x00 ∈ mem) then Ret (zlen (cstr mem)) else Undef "strlen of an unterminated string".

(** [memmove(buf + d, buf + s, n)] *)
Definition memmove (b : bytes) (d s n : Z) : outcome bytes :=
  data ← mem_read b s n; mem_write b d data.

Definition set_buf (b : bytes) (s : nx_string) : nx_string :=
  NxString (flags s) b (bufsize s) (len s).
Definition set_slen (n : Z) (s : nx_string) : nx_string :=
  NxString (flags s) (buf s) (bufsize s) n.

(** [s->buf[i] = c] *)
Definition store (s : nx_string) (i : Z) (c : byte) : outcome nx_string :=
  b ← mem_write (buf s) i [c]; Ret (set_buf b s).

Definition is_const (s : nx_string) : bool :=
  negb (Z.land (flags s) NX_STRING_FLAG_CONST =? 0).

Section with_malloc.
Context `{M : Malloc}.

(** [realloc(b, n)] *)
Definition realloc (b : bytes) (n : Z) : bytes :=
  take (Z.to_nat n) b ++ drop (length b) (malloc n).

Definition nx_string_new : outcome nx_string :=
  b ← mem_write (malloc NX_STRING_DEFAULT_SIZE) 0 [x00];
  Ret (NxString 0 b NX_STRING_DEFAULT_SIZE 0).

Definition nx_string_new_size (n : Z) : outcome nx_string :=
  if n =? 0 then nx_string_new
  else if string_limit <? n then Throw "oversized string, limit is %d bytes"
  else
    b ← mem_write (malloc n) 0 [x00];
    Ret (NxString 0 b (u32 n) 0).

Definition nx_string_create (src : bytes) (n : Z) : outcome nx_string :=
  n ← (if n <? 0 then s32 <$> strlen src else Ret n);
  if string_limit <? n then Throw "oversized string, limit is %d bytes"
  else
    data ← mem_read src 0 n;
    b ← mem_write (malloc (n + 1)) 0 data;
    b ← mem_write b n [x00];
    Ret (NxString 0 b (u32 (u32 n + 1)) (u32 n)).

(** The string takes over the block [src]. *)
Definition nx_string_create_owned (src : bytes) (n : Z) : outcome nx_string :=
  n ← (if n <? 0 then s32 <$> strlen src else Ret n);
  if string_limit <? n then Throw "oversized string, limit is %d bytes"
  else Ret (NxString 0 src (u32 (u32 n + 1)) (u32 n)).

Definition nx_string_init_const (src : bytes) : outcome nx_string :=
  n ← strlen src;
  Ret (NxString NX_STRING_FLAG_CONST src 0 (u32 n)).

(** The code also computes a geometrically grown [newsize] and then ignores
    it: the block grows by [n] bytes. *)
Definition ensure_size (dst : nx_string) (n : Z) : outcome nx_string :=
  if n <? bufsize dst then Ret dst
  else if string_limit <? n then Throw "string limit (%d bytes) reached"
  else Ret (NxString (flags dst) (realloc (buf dst) (bufsize dst + n))
              (u32 (bufsize dst + u32 n)) (len dst)).

Definition nx_string_ensure_size (s : nx_string) (n : Z) : outcome nx_string :=
  _ ← ASSERT (0 <? n) "len > 0"; ensure_size s n.

Definition set_len (dst : nx_string) (n : Z) : outcome nx_string :=
  if (1024 <? bufsize dst) && (n <? bufsize dst)
  then Ret (NxString 0 (malloc n) (u32 n) (len dst))
  else if bufsize dst <=? n then ensure_size dst n
  else Ret dst.

(** [dst->len + (size_t) srclen + 1] for an [int]: a negative [srclen], which the length of
    a text of 2 GB or more becomes, wraps around. *)
Definition needed (dst : nx_string) (srclen : Z) : Z :=
  if srclen <? 0 then u64 (len dst + srclen + 1) else len dst + srclen + 1.

(** [nx_string_append] once the length of the source is known. *)
Definition append_n (dst : nx_string) (src : bytes) (srclen : Z) : outcome nx_string :=
  if string_limit <? needed dst srclen then
    let n := string_limit - 1 in
    if len dst <? n then
      dst ← ensure_size dst (n + 1);
      data ← mem_read src 0 (n - len dst);
      b ← mem_write (buf dst) (len dst) data;
      store (set_slen n (set_buf b dst)) n x00
    else Ret dst
  else
    dst ← ensure_size dst (needed dst srclen);
    data ← mem_read src 0 srclen;
    b ← mem_write (buf dst) (len dst) data;
    let n := u32 (len dst + u32 srclen) in
    store (set_slen n (set_buf b dst)) n x00.

Definition nx_string_append (dst : nx_string) (src : bytes) (srclen : Z) : outcome nx_string :=
  _ ← ASSERT (negb (is_const dst)) "!(dst->flags & NX_STRING_FLAG_CONST)";
  if srclen <? 0 then n ← strlen src; append_n dst src (s32 n)
  else if srclen =? 0 then Ret dst
  else append_n dst src srclen.

(** [nx_string_prepend] once the length of the source is known. *)
Definition prepend_n (dst : nx_string) (src : bytes) (srclen : Z) : outcome nx_string :=
  if string_limit <? needed dst srclen then
    let n := string_limit - 1 in
    if len dst <? n then
      dst ← ensure_size dst (n + 1);
      b ← (if (srclen <? 0) || (string_limit <? srclen)    (* an unsigned comparison *)
           then data ← mem_read src 0 n; mem_write (buf dst) 0 data
           else
             b ← memmove (buf dst) srclen 0 (u64 (n - srclen));
             data ← mem_read src 0 srclen;
             mem_write b 0 data);
      store (set_slen n (set_buf b dst)) n x00
    else Ret dst
  else
    dst ← ensure_size dst (needed dst srclen);
    b ← memmove (buf dst) srclen 0 (len dst);
    data ← mem_read src 0 srclen;
    b ← mem_write b 0 data;
    let n := u32 (len dst + u32 srclen) in
    store (set_slen n (set_buf b dst)) n x00.

Definition nx_string_prepend (dst : nx_string) (src : bytes) (srclen : Z) : outcome nx_string :=
  _ ← ASSERT (negb (is_const dst)) "!(dst->flags & NX_STRING_FLAG_CONST)";
  if srclen <? 0 then n ← strlen src; prepend_n dst src (s32 n)
  else if srclen =? 0 then Ret dst
  else prepend_n dst src srclen.

Definition nx_string_set (dst : nx_string) (src : bytes) (srclen : Z) : outcome nx_string :=
  _ ← ASSERT (negb (is_const dst)) "!(dst->flags & NX_STRING_FLAG_CONST)";
  srclen ← (if srclen <? 0 then s32 <$> strlen src else Ret srclen);
  dst ← set_len dst (srclen + 1);
  dst ← (if 0 <? srclen
         then data ← mem_read src 0 srclen;
              b ← mem_write (buf dst) 0 data; Ret (set_buf b dst)
         else Ret dst);
  store (set_slen (u32 srclen) dst) (u32 srclen) x00.

Definition nx_string_clone (str : nx_string) : outcome nx_string :=
  let n := if string_limit <? len str then string_limit - 1 else len str in
  r ← nx_string_new_size (u32 (n + 1));
  data ← mem_read (buf str) 0 n;
  b ← mem_write (buf r) 0 data;
  b ← mem_write b n [x00];
  Ret (NxString 0 b (bufsize r) n).

Definition nx_string_strip_crlf (str : nx_string) : outcome nx_string :=
  if 0 <? len str then
    c ← mem_read (buf str) (len str - 1) 1;
    if bool_decide (c = [x0a]) then
      str ← store str (len str - 1) x00;
      let str := set_slen (len str - 1) str in
      if 0 <? len str then
        c ← mem_read (buf str) (len str - 1) 1;
        if bool_decide (c = [x0d]) then
          str ← store str (len str - 1) x00;
          Ret (set_slen (len str - 1) str)
        else Ret str
      else Ret str
    else Ret str
  else Ret str.

(** ** Escaping in place

    The escaping loops of str.c, csv.c and kvp.c make room for one byte at
    [i] in one of two ways: by moving the tail from [i] on and putting the
    escape character in front ([escape_keep]), or by moving the tail after
    [i] and replacing the character by two ([escape_letter]). *)

Definition grow_for_escape (s : nx_string) : outcome nx_string :=
  if bufsize s <=? len s + 1 then ensure_size s (len s + 2) else Ret s.

Definition escape_keep (s : nx_string) (i : Z) (esc : byte) : outcome nx_string :=
  s ← grow_for_escape s;
  b ← memmove (buf s) (i + 1) i (len s - i);
  b ← mem_write b i [esc];
  let n := len s + 1 in
  store (set_slen n (set_buf b s)) n x00.

Definition escape_letter (s : nx_string) (i : Z) (esc letter : byte) : outcome nx_string :=
  s ← grow_for_escape s;
  b ← memmove (buf s) (i + 2) (i + 1) (len s - i - 1);
  b ← mem_write b i [esc];
  b ← mem_write b (i + 1) [letter];
  let n := len s + 1 in
  store (set_slen n (set_buf b s)) n x00.

(** The [switch] of [nx_string_escape]: what happens to one character. *)
Inductive escaping := NoEscape | Keep (esc : byte) | Letter (esc letter : byte).

Definition escape_class (c : byte) : escaping :=
  if (c =c x00) || (c =c "\") || (c =c "'") || (c =c x22) then Keep "\"
  else if c =c x0a then Letter "\" "n"
  else if c =c x0d then Letter "\" "r"
  else if c =c x09 then Letter "\" "t"
  else if c =c x08 then Letter "\" "b"
  else NoEscape.

(** The loop shared by the escaping functions: [i] runs to [len], and skips
    the inserted character.  Bytes with the high bit are left alone. *)
Fixpoint escape_loop (cls : byte -> escaping) (fuel : nat) (i : Z) (s : nx_string)
    : outcome nx_string :=
  if i <? len s then
    match fuel with
    | O => Undef "out of fuel"
    | S fuel =>
        c ← mem_read (buf s) i 1;
        let c := default x00 (head c) in
        if 0 <? Z.land (bz c) 128 then escape_loop cls fuel (i + 1) s
        else match cls c with
             | NoEscape => escape_loop cls fuel (i + 1) s
             | Keep esc => s ← escape_keep s i esc; escape_loop cls fuel (i + 2) s
             | Letter esc l => s ← escape_letter s i esc l; escape_loop cls fuel (i + 2) s
             end
    end
  else Ret s.

Definition nx_string_escape (s : nx_string) : outcome nx_string :=
  escape_loop escape_class (Z.to_nat (len s)) 0 s.

End with_malloc.

(** ** Unescaping in place ([nx_string_unescape_c])

    The argument is the block that holds the C string.  [len] is a [size_t]:
    the counts passed to [memmove] wrap around modulo [2^64]. *)

Definition isxdigit (c : byte) : bool :=
  ((48 <=? bz c) && (bz c <=? 57)) || ((97 <=? bz c) && (bz c <=? 102))
  || ((65 <=? bz c) && (bz c <=? 70)).

Definition hexval (c : byte) : Z :=
  if (48 <=? bz c) && (bz c <=? 57) then bz c - 48
  else if (97 <=? bz c) && (bz c <=? 102) then bz c - 97 + 10
  else if (65 <=? bz c) && (bz c <=? 70) then bz c - 65 + 10
  else 0.

Definition load (b : bytes) (i : Z) : outcome byte :=
  l ← mem_read b i 1; deref (head l) "load".

(** Replace the character at [i] and close the gap of one after it. *)
Definition unescape_one (b : bytes) (i n : Z) (c : byte) : outcome bytes :=
  b ← mem_write b i [c];
  memmove b (i + 1) (i + 2) (u64 (n - i - 1)).

(** One iteration at a backslash: the new block and the new [len]. *)
Definition unescape_at (b : bytes) (i n : Z) : outcome (bytes * Z) :=
  c ← load b (i + 1);
  if c =c "\" then
    b ← memmove b (i + 1) (i + 2) (u64 (n - i - 1)); Ret (b, u64 (n - 1))
  else if c =c x22 then
    b ← memmove b i (i + 1) (u64 (n - i)); Ret (b, u64 (n - 1))
  else if c =c "n" then b ← unescape_one b i n x0a; Ret (b, u64 (n - 1))
  else if c =c "r" then b ← unescape_one b i n x0d; Ret (b, u64 (n - 1))
  else if c =c "t" then b ← unescape_one b i n x09; Ret (b, u64 (n - 1))
  else if c =c "b" then b ← unescape_one b i n x08; Ret (b, u64 (n - 1))
  else if (c =c "x") || (c =c "X") then
    h ← load b (i + 2);
    if isxdigit h then
      l ← load b (i + 3);
      if isxdigit l then
        b ← mem_write b i [zb (hexval h * 16 + hexval l)];
        b ← memmove b (i + 1) (i + 4) (u64 (n - i - 3));
        Ret (b, u64 (n - 3))
      else Ret (b, u64 (n - 3))
    else Ret (b, u64 (n - 3))
  else Ret (b, n).

Fixpoint unescape_loop (fuel : nat) (i n : Z) (b : bytes) : outcome (bytes * Z) :=
  c ← load b i;
  if c =c x00 then Ret (b, n)
  else
    match fuel with
    | O => Undef "out of fuel"
    | S fuel =>
        if c =c "\" then
          r ← unescape_at b i n;
          unescape_loop fuel (i + 1) (snd r) (fst r)
        else unescape_loop fuel (i + 1) n b
    end.

Definition nx_string_unescape_c (b : bytes) : outcome (bytes * Z) :=
  n ← strlen b;
  unescape_loop (length b) 0 n b.

#[global] Arguments string_limit : simpl never.

(** ** Access lemmas *)

Lemma mem_write_at a b data :
  (length data <= length b)%nat ->
  mem_write (a ++ b) (zlen a) data = Ret (a ++ data ++ drop (length data) b).
Proof.
  intros H. unfold mem_write. rewrite length_app.
  case_test; [|apply andb_false_iff in Heqb0; destruct Heqb0; tests; lia].
  rewrite Nat2Z.id, take_app_length, drop_app_ge by lia. do 4 f_equal. lia.
Qed.

Lemma mem_write_at' buf off a b data :
  buf = a ++ b -> off = zlen a -> (length data <= length b)%nat ->
  mem_write buf off data = Ret (a ++ data ++ drop (length data) b).
Proof. intros -> ->. apply mem_write_at. Qed.

Lemma mem_read_at buf off n a b :
  buf = a ++ b -> off = zlen a -> 0 <= n <= zlen b ->
  mem_read buf off n = Ret (take (Z.to_nat n) b).
Proof.
  intros -> -> H. unfold mem_read. rewrite length_app.
  case_test; [|apply andb_false_iff in Heqb0 as [E|E]; [apply andb_false_iff in E as [E|E]|]; tests; lia].
  by rewrite Nat2Z.id, drop_app_length.
Qed.

(** The abstraction: [s] is a well-formed, NUL-terminated string of content
    [c] inside its block. *)
Definition str_rep (s : nx_string) (c : bytes) : Prop :=
  is_const s = false /\ (exists r, buf s = c ++ x00 :: r) /\
  zlen (buf s) = bufsize s /\ len s = zlen c /\ bufsize s < 2 ^ 32.

(** The string itself: its first [len] bytes. *)
Definition content (s : nx_string) : bytes := take (Z.to_nat (len s)) (buf s).

Lemma str_rep_content s c : str_rep s c -> content s = c.
Proof.
  intros (_ & (r & Hb) & _ & Hl & _). unfold content. rewrite Hb, Hl, Nat2Z.id.
  apply take_app_length.
Qed.

(** The string structure that holds exactly [c]. *)
Definition exact (c : bytes) : nx_string := NxString 0 (c ++ [x00]) (zlen c + 1) (zlen c).

Lemma exact_rep c : zlen c + 1 < 2 ^ 32 -> str_rep (exact c) c.
Proof. intros H. repeat split; simpl; [by exists []|lens|done]. Qed.

Section with_malloc.
Context `{M : Malloc}.

Lemma realloc_app b n :
  zlen b <= n -> exists r, realloc b n = b ++ r /\ zlen (b ++ r) = n.
Proof.
  intros H. exists (drop (length b) (malloc n)). unfold realloc.
  rewrite take_ge by lia. split; [done|].
  rewrite length_app, length_drop. pose proof (malloc_length n). lia.
Qed.

Lemma ensure_size_rep s c n :
  str_rep s c -> 0 <= n <= string_limit ->
  exists s', ensure_size s n = Ret s' /\ str_rep s' c /\ n < bufsize s' /\ flags s' = flags s.
Proof.
  intros (Hc & (r & Hb) & Hz & Hl & Hw) Hn. unfold ensure_size.
  assert (0 < bufsize s) by (rewrite <- Hz, Hb, length_app; simpl; lia).
  case_test; [exists s; repeat split; eauto; lia|].
  rewrite (proj2 (Z.ltb_ge string_limit n)) by lia.
  destruct (realloc_app (buf s) (bufsize s + n)) as (r' & E & L); [lia|].
  assert (u32 (bufsize s + u32 n) = bufsize s + n) as ->.
  { unfold u32, string_limit in *. rewrite (Z.mod_small n), Z.mod_small; lia. }
  eexists; split; [done|]. repeat split; simpl; try done.
  - exists (r ++ r'). rewrite E, Hb, <- app_assoc. done.
  - by rewrite E.
  - unfold string_limit in *. lia.
  - lia.
Qed.

(** Terminating a string that fits its block. *)
Lemma store_end s p t n :
  buf s = p ++ t -> (0 < length t)%nat -> n = zlen p -> is_const s = false ->
  zlen (buf s) = bufsize s -> bufsize s < 2 ^ 32 ->
  exists s', store (set_slen n s) n x00 = Ret s' /\ str_rep s' p /\ bufsize s' = bufsize s.
Proof.
  intros Hb Ht -> Hc Hz Hw. unfold store. simpl.
  rewrite (mem_write_at' _ _ p t) by (simpl; auto; lia). simpl.
  eexists; split; [done|]. split; [|done]. repeat split; simpl; eauto.
  rewrite <- Hz, Hb, !length_app, length_cons, length_drop. lia.
Qed.

(** The truncating concatenation [nx_string_append] promises. *)
Definition spec_append (c src : bytes) : bytes :=
  if string_limit - 1 <=? zlen c then c
  else take (Z.to_nat (string_limit - 1)) (c ++ src).

Lemma spec_append_fits c src : zlen c + zlen src + 1 <= string_limit -> spec_append c src = c ++ src.
Proof.
  intros Hl. unfold spec_append. case_test.
  - destruct src; [by rewrite app_nil_r|]. rewrite length_cons in Hl. lia.
  - apply take_ge. rewrite length_app. lia.
Qed.

(** Copying [data] behind the string and terminating it. *)
Lemma append_data s c data :
  str_rep s c -> zlen c + zlen data < bufsize s ->
  exists s', (b ← mem_write (buf s) (len s) data;
              store (set_slen (zlen c + zlen data) (set_buf b s)) (zlen c + zlen data) x00) = Ret s'
    /\ str_rep s' (c ++ data) /\ bufsize s' = bufsize s.
Proof.
  intros (Hc & (r & Hb) & Hz & Hl & Hw) Hn.
  assert (zlen c + zlen (x00 :: r) = bufsize s) as Hsz.
  { rewrite <- Hz, Hb, length_app. lia. }
  rewrite Hb, Hl, mem_write_at by lia.
  destruct (store_end (set_buf (c ++ data ++ drop (length data) (x00 :: r)) s) (c ++ data)
    (drop (length data) (x00 :: r)) (zlen c + zlen data)) as (s' & E & R & B); simpl; auto.
  - by rewrite app_assoc.
  - rewrite length_drop. lia.
  - rewrite length_app. lia.
  - rewrite !length_app, length_drop. lia.
  - exists s'. simpl in E. rewrite E. auto.
Qed.

Lemma needed_nonneg s n : 0 <= n -> needed s n = len s + n + 1.
Proof. intros Hn. unfold needed. by rewrite (proj2 (Z.ltb_ge n 0)) by lia. Qed.

Lemma append_n_rep s c src n :
  str_rep s c -> 0 <= n <= zlen src ->
  exists s', append_n s src n = Ret s' /\ str_rep s' (spec_append c (take (Z.to_nat n) src)).
Proof.
  intros Hs Hn. pose proof Hs as (_ & _ & _ & Hl & _). unfold append_n, spec_append.
  rewrite needed_nonneg, Hl by lia. case_test.
  - case_test.
    + rewrite (proj2 (Z.leb_gt _ _)) by lia.
      destruct (ensure_size_rep s c (string_limit - 1 + 1)) as (s1 & E1 & R1 & B1 & _);
        [done|unfold string_limit; lia|].
      pose proof R1 as (_ & _ & _ & Hl1 & _). rewrite E1. simpl. rewrite Hl1.
      rewrite (mem_read_at src 0 _ [] src) by (simpl; auto; lia). simpl.
      set (data := take (Z.to_nat (string_limit - 1 - zlen c)) src).
      assert (zlen data = string_limit - 1 - zlen c) as Hd.
      { unfold data. rewrite length_take. lia. }
      destruct (append_data s1 c data R1) as (s2 & E2 & R2 & _); [lia|].
      rewrite Hl1, Hd in E2. replace (zlen c + (string_limit - 1 - zlen c)) with (string_limit - 1) in E2 by lia.
      exists s2. split; [done|]. 
      rewrite take_app_ge by lia. rewrite take_take.
      replace (Nat.min _ _) with (Z.to_nat (string_limit - 1 - zlen c)) by lia. done.
    + rewrite (proj2 (Z.leb_le _ _)) by lia. eauto.
  - destruct (ensure_size_rep s c (zlen c + n + 1)) as (s1 & E1 & R1 & B1 & _); [done|lia|].
    pose proof R1 as (_ & _ & _ & Hl1 & _). rewrite E1. simpl. rewrite Hl1.
    rewrite (mem_read_at src 0 _ [] src) by (simpl; auto; lia). simpl.
    destruct (append_data s1 c (take (Z.to_nat n) src) R1) as (s2 & E2 & R2 & _).
    { rewrite length_take. lia. }
    assert (u32 (zlen c + u32 n) = zlen c + zlen (take (Z.to_nat n) src)) as ->.
    { rewrite length_take. unfold u32, string_limit in *. rewrite (Z.mod_small n), Z.mod_small; lia. }
    rewrite Hl1 in E2. exists s2. split; [done|]. case_test.
    + assert (n = 0) as -> by lia. by rewrite app_nil_r in R2.
    + rewrite (take_ge (c ++ _)); [done|]. rewrite length_app, length_take. lia.
Qed.

(** [nx_string_append(dst, src, n)] with an explicit length. *)
Lemma nx_string_append_rep s c src n :
  str_rep s c -> 0 <= n <= zlen src ->
  exists s', nx_string_append s src n = Ret s' /\ str_rep s' (spec_append c (take (Z.to_nat n) src)).
Proof.
  intros Hs Hn. unfold nx_string_append. pose proof Hs as (Hc & _). rewrite Hc. simpl.
  rewrite (proj2 (Z.ltb_ge _ _)) by lia. case_test; [|by apply append_n_rep].
  subst n. simpl. exists s. split; [done|]. unfold spec_append. rewrite app_nil_r.
  case_test; [done|]. rewrite take_ge by lia. done.
Qed.

Lemma strlen_lit src rest : no_nul src -> strlen (src ++ x00 :: rest) = Ret (zlen src).
Proof.
  intros H. unfold strlen. rewrite bool_decide_true by set_solver. by rewrite cstr_app_nul.
Qed.

Lemma s32_small n : - 2 ^ 31 <= n < 2 ^ 31 -> s32 n = n.
Proof. intros H. unfold s32. rewrite Z.mod_small; lia. Qed.

(** [nx_string_append(dst, src, -1)] of a C string. *)
Lemma nx_string_append_cstr s c src rest n :
  str_rep s c -> no_nul src -> zlen src < 2 ^ 31 -> n < 0 ->
  exists s', nx_string_append s (src ++ x00 :: rest) n = Ret s' /\ str_rep s' (spec_append c src).
Proof.
  intros Hs Hnul Hlen Hn. unfold nx_string_append. pose proof Hs as (Hc & _). rewrite Hc. simpl.
  rewrite (proj2 (Z.ltb_lt _ _)) by lia. rewrite strlen_lit by done. simpl.
  rewrite s32_small by lia.
  destruct (append_n_rep s c (src ++ x00 :: rest) (zlen src)) as (s' & E & R); [done|rewrite length_app; lia|].
  exists s'. split; [done|]. by rewrite Nat2Z.id, take_app_length in R.
Qed.

(** *** Construction *)

Lemma new_block_rep n : 0 < n < 2 ^ 32 ->
  exists s, (b ← mem_write (malloc n) 0 [x00]; Ret (NxString 0 b n 0)) = Ret s /\
    str_rep s [] /\ bufsize s = n.
Proof.
  intros Hn. pose proof (malloc_length n ltac:(lia)) as L.
  rewrite (mem_write_at' _ _ [] (malloc n)) by (simpl; auto; lia). simpl.
  eexists; split; [done|]. split; [|done]. repeat split; simpl; eauto; [|lia].
  rewrite length_drop. lia.
Qed.

Lemma nx_string_new_rep : exists s, nx_string_new = Ret s /\ str_rep s [].
Proof.
  destruct (new_block_rep NX_STRING_DEFAULT_SIZE) as (s & E & R & _); [unfold NX_STRING_DEFAULT_SIZE; lia|eauto].
Qed.

Lemma nx_string_new_size_rep n : 0 <= n <= string_limit ->
  exists s, nx_string_new_size n = Ret s /\ str_rep s [] /\ (0 < n -> bufsize s = n).
Proof.
  intros Hn. unfold nx_string_new_size. case_test.
  - destruct nx_string_new_rep as (s & E & R). exists s. rewrite E. split_and!; [done..|lia].
  - rewrite (proj2 (Z.ltb_ge _ _)) by lia. unfold string_limit in *.
    assert (u32 n = n) as -> by (unfold u32; apply Z.mod_small; lia).
    destruct (new_block_rep n) as (s & E & R & B); [lia|]. eauto 10.
Qed.

Lemma nx_string_create_rep src n : 0 <= n <= zlen src -> n <= string_limit ->
  exists s, nx_string_create src n = Ret s /\ str_rep s (take (Z.to_nat n) src) /\ bufsize s = n + 1.
Proof.
  intros Hn Hlim. unfold nx_string_create. rewrite (proj2 (Z.ltb_ge n 0)) by lia. simpl.
  rewrite (proj2 (Z.ltb_ge _ _)) by lia.
  rewrite (mem_read_at src 0 _ [] src) by (simpl; auto; lia). simpl.
  pose proof (malloc_length (n + 1) ltac:(lia)) as L.
  rewrite (mem_write_at' _ _ [] (malloc (n + 1))) by (simpl; auto; rewrite length_take; lia). simpl.
  rewrite (mem_write_at' _ _ (take (Z.to_nat n) src) (drop (length (take (Z.to_nat n) src)) (malloc (n + 1))))
    by (rewrite ?length_drop, ?length_take; simpl; auto; lia). simpl.
  unfold u32, string_limit in *. rewrite !(Z.mod_small n), Z.mod_small by lia.
  eexists; split; [done|]. split; [|done]. repeat split; simpl; eauto.
  - rewrite !length_app, length_cons, !length_drop, !length_take. lia.
  - rewrite length_take. lia.
  - lia.
Qed.

Lemma nx_string_create_too_long src n :
  string_limit < n -> nx_string_create src n = Throw "oversized string, limit is %d bytes".
Proof.
  intros H. unfold nx_string_create. rewrite (proj2 (Z.ltb_ge n 0)) by (unfold string_limit in *; lia). simpl.
  by rewrite (proj2 (Z.ltb_lt _ _)).
Qed.

Lemma nx_string_clone_rep s c : str_rep s c -> zlen c < string_limit ->
  exists s', nx_string_clone s = Ret s' /\ str_rep s' c.
Proof.
  intros (Hc & (r & Hb) & Hz & Hl & Hw) Hlen. unfold nx_string_clone.
  rewrite Hl, (proj2 (Z.ltb_ge _ _)) by lia.
  assert (u32 (zlen c + 1) = zlen c + 1) as ->.
  { unfold u32, string_limit in *. apply Z.mod_small. lia. }
  destruct (nx_string_new_size_rep (zlen c + 1)) as (s1 & E1 & (Hc1 & (r1 & Hb1) & Hz1 & Hl1 & Hw1) & B1);
    [lia|]. rewrite E1. simpl. specialize (B1 ltac:(lia)).
  rewrite (mem_read_at (buf s) 0 (zlen c) [] (buf s)), Hb by (rewrite ?Hb, ?length_app; simpl; auto; lia).
  rewrite Nat2Z.id, take_app_length. simpl.
  rewrite (mem_write_at' _ _ [] (buf s1)) by (simpl; auto; lia). simpl.
  rewrite (mem_write_at' _ _ c (drop (length c) (buf s1))) by (rewrite ?length_drop; simpl; auto; lia). simpl.
  eexists; split; [done|]. repeat split; simpl; eauto.
  rewrite length_app, length_cons, !length_drop. lia.
Qed.

(** *** Prepending *)

(** What [nx_string_prepend] promises; a source of exactly [string_limit]
    bytes on the truncating path is outside its contract. *)
Definition spec_prepend (c src : bytes) : bytes :=
  if (string_limit <? zlen c + zlen src + 1) && (string_limit - 1 <=? zlen c) then c
  else take (Z.to_nat (string_limit - 1)) (src ++ c).

(** Moving [k] bytes of the string up by [length data], copying [data] in
    front and terminating the result. *)
Lemma prepend_data s c k data :
  str_rep s c -> 0 <= k <= zlen c -> zlen data + k < bufsize s ->
  exists s', (b ← (b ← memmove (buf s) (zlen data) 0 k; mem_write b 0 data);
              store (set_slen (zlen data + k) (set_buf b s)) (zlen data + k) x00) = Ret s'
    /\ str_rep s' (data ++ take (Z.to_nat k) c).
Proof.
  intros (Hc & (r & Hb) & Hz & Hl & Hw) Hk Hn.
  set (d := take (Z.to_nat k) c).
  assert (zlen d = k) as Hd by (unfold d; rewrite length_take; lia).
  unfold memmove. rewrite (mem_read_at (buf s) 0 k [] (buf s)) by (simpl; auto; lia). simpl.
  replace (take (Z.to_nat k) (buf s)) with d by (unfold d; rewrite Hb, take_app_le by lia; done).
  rewrite (mem_write_at' (buf s) _ (take (length data) (buf s)) (drop (length data) (buf s)))
    by (rewrite ?take_drop, ?length_take, ?length_drop; auto; lia). simpl.
  rewrite (mem_write_at' _ 0 [] (take (length data) (buf s) ++ d ++ drop (length d) (drop (length data) (buf s))))
    by (rewrite ?length_app, ?length_take, ?length_drop; simpl; auto; lia). simpl.
  rewrite drop_app_ge by (rewrite length_take; lia).
  replace (length data - length (take (length data) (buf s)))%nat with 0%nat by (rewrite length_take; lia).
  rewrite drop_0.
  destruct (store_end (set_buf (data ++ d ++ drop (length d) (drop (length data) (buf s))) s) (data ++ d)
    (drop (length d) (drop (length data) (buf s))) (zlen data + k)) as (s' & E & R & B); simpl; auto.
  - by rewrite app_assoc.
  - rewrite !length_drop. lia.
  - rewrite length_app. lia.
  - rewrite !length_app, !length_drop. lia.
  - exists s'. simpl in E. rewrite E. auto.
Qed.

Lemma prepend_n_rep s c src :
  str_rep s c -> zlen src <> string_limit ->
  exists s', prepend_n s src (zlen src) = Ret s' /\ str_rep s' (spec_prepend c src).
Proof.
  intros Hs Hne. pose proof Hs as (_ & _ & _ & Hl & _). unfold prepend_n, spec_prepend.
  rewrite needed_nonneg, (proj2 (Z.ltb_ge (zlen src) 0)), Hl by lia. cbn [orb]. destruct (string_limit <? _) eqn:E0; tests; simpl.
  - destruct (_ <? string_limit - 1) eqn:E1; tests; [|rewrite (proj2 (Z.leb_le _ _)) by lia; eauto].
    rewrite (proj2 (Z.leb_gt _ _)) by lia.
    destruct (ensure_size_rep s c (string_limit - 1 + 1)) as (s1 & E & R1 & B1 & _);
      [done|unfold string_limit; lia|]. rewrite E. simpl. clear E.
    case_test.
    + rewrite (mem_read_at src 0 _ [] src) by (simpl; auto; unfold string_limit in *; lia). simpl.
      set (d := take (Z.to_nat (string_limit - 1)) src).
      assert (zlen d = string_limit - 1) as Hd by (unfold d; rewrite length_take; unfold string_limit in *; lia).
      pose proof R1 as (Hc1 & (r1 & Hb1) & Hz1 & Hl1 & Hw1).
      rewrite (mem_write_at' _ 0 [] (buf s1)) by (simpl; auto; lia). simpl.
      destruct (store_end (set_buf (d ++ drop (length d) (buf s1)) s1) d
        (drop (length d) (buf s1)) (string_limit - 1)) as (s' & E & R & _); simpl; auto.
      * rewrite length_drop. lia.
      * rewrite length_app, length_drop. lia.
      * simpl in E. exists s'. rewrite E. split; [done|].
        rewrite take_app_le by lia. done.
    + assert (u64 (string_limit - 1 - zlen src) = string_limit - 1 - zlen src) as ->.
      { unfold u64. apply Z.mod_small. unfold string_limit in *. lia. }
      destruct (prepend_data s1 c (string_limit - 1 - zlen src) src R1) as (s2 & E2 & R2); [lia..|].
      replace (zlen src + (string_limit - 1 - zlen src)) with (string_limit - 1) in E2 by lia.
      rewrite (mem_read_at src 0 (zlen src) [] src), Nat2Z.id, firstn_all by (simpl; auto; lia). simpl.
      exists s2. split; [done|]. rewrite take_app_ge by lia.
      by replace (Z.to_nat (string_limit - 1) - length src)%nat with (Z.to_nat (string_limit - 1 - zlen src)) by lia.
  - destruct (ensure_size_rep s c (zlen c + zlen src + 1)) as (s1 & E & R1 & B1 & _); [done|lia|].
    rewrite E. simpl. pose proof R1 as (_ & _ & _ & Hl1 & _). rewrite Hl1.
    destruct (prepend_data s1 c (zlen c) src R1) as (s2 & E2 & R2); [lia..|].
    rewrite (mem_read_at src 0 (zlen src) [] src), Nat2Z.id, firstn_all by (simpl; auto; lia). simpl.
    assert (u32 (zlen c + u32 (zlen src)) = zlen src + zlen c) as ->.
    { unfold u32, string_limit in *. rewrite (Z.mod_small (zlen src)), Z.mod_small; lia. }
    rewrite Nat2Z.id, firstn_all in R2. exists s2. split.
    + rewrite <- E2. destruct (memmove _ _ _ _); simpl; [|done..]. done.
    + rewrite take_ge by (rewrite length_app; lia). done.
Qed.

Lemma nx_string_prepend_rep s c src :
  str_rep s c -> zlen src <> string_limit ->
  exists s', nx_string_prepend s src (zlen src) = Ret s' /\ str_rep s' (spec_prepend c src).
Proof.
  intros Hs Hn. unfold nx_string_prepend. pose proof Hs as (Hc & _). rewrite Hc. simpl.
  rewrite (proj2 (Z.ltb_ge _ _)) by lia. case_test; [|by apply prepend_n_rep].
  destruct src; [|done]. exists s. split; [done|]. unfold spec_prepend. simpl.
  case_test; [done|]. destruct (string_limit <? _) eqn:E; tests.
  - apply andb_false_iff in Heqb0 as [?|?]; [congruence|]. tests. lia.
  - rewrite take_ge by lia. done.
Qed.

(** *** Overwriting *)

Lemma set_len_rep s c n : str_rep s c -> 0 < n <= string_limit ->
  exists s', set_len s n = Ret s' /\ is_const s' = false /\ zlen (buf s') = bufsize s' /\
    n <= bufsize s' < 2 ^ 32.
Proof.
  intros Hs Hn. pose proof Hs as (Hc & _ & Hz & _ & Hw). unfold set_len. case_test.
  - eexists; split; [done|]. unfold u32, is_const, string_limit in *. simpl.
    rewrite malloc_length, Z.mod_small by lia. repeat split; lia.
  - case_test.
    + destruct (ensure_size_rep s c n) as (s1 & E & (Hc1 & _ & Hz1 & _ & Hw1) & B1 & _); [done|lia|].
      exists s1. repeat split; auto; lia.
    + exists s. repeat split; auto; lia.
Qed.

Lemma nx_string_set_rep s c src n :
  str_rep s c -> 0 <= n <= zlen src -> n + 1 <= string_limit ->
  exists s', nx_string_set s src n = Ret s' /\ str_rep s' (take (Z.to_nat n) src).
Proof.
  intros Hs Hn Hl. unfold nx_string_set. pose proof Hs as (Hc & _). rewrite Hc. simpl.
  rewrite (proj2 (Z.ltb_ge n 0)) by lia. simpl.
  destruct (set_len_rep s c (n + 1)) as (s1 & E & Hc1 & Hz1 & Hw1); [done|lia|].
  rewrite E. simpl. assert (u32 n = n) as -> by (unfold u32, string_limit in *; apply Z.mod_small; lia).
  set (d := take (Z.to_nat n) src).
  assert (zlen d = n) as Hd by (unfold d; rewrite length_take; lia).
  case_test.
  - rewrite (mem_read_at src 0 n [] src) by (simpl; auto; lia). simpl. fold d.
    rewrite (mem_write_at' _ 0 [] (buf s1)) by (simpl; auto; lia). simpl.
    destruct (store_end (set_buf (d ++ drop (length d) (buf s1)) s1) d
        (drop (length d) (buf s1)) n) as (s' & E' & R & _); simpl; auto; try lia.
    + rewrite length_drop. lia.
    + rewrite length_app, length_drop. lia.
    + simpl in E'. eauto.
  - destruct d as [|? d'] eqn:Ed; [|simpl in Hd; lia]. simpl in Hd. subst n.
    destruct (store_end s1 [] (buf s1) 0) as (s' & E' & R & _); simpl; auto; try lia. eauto.
Qed.

(** *** Escaping *)

(** What an escaping class does to one character. *)
Definition escape_char (cls : byte -> escaping) (c : byte) : bytes :=
  if 0 <? Z.land (bz c) 128 then [c]
  else match cls c with NoEscape => [c] | Keep e => [e; c] | Letter e l => [e; l] end.

Lemma grow_for_escape_rep s c : str_rep s c -> zlen c + 2 <= string_limit ->
  exists s', grow_for_escape s = Ret s' /\ str_rep s' c /\ zlen c + 1 < bufsize s'.
Proof.
  intros Hs Hn. unfold grow_for_escape. pose proof Hs as (_ & _ & _ & -> & _).
  case_test; [|eauto with lia].
  destruct (ensure_size_rep s c (zlen c + 2)) as (s' & E & R & B & _); [done|lia|].
  exists s'. split_and!; [done..|lia].
Qed.

(** A block that holds [a ++ t], with room for one more byte. *)
Lemma str_rep_room s a t : str_rep s (a ++ t) -> zlen (a ++ t) + 1 < bufsize s ->
  exists z r, buf s = a ++ t ++ x00 :: z :: r.
Proof.
  intros (_ & ([|z r] & Hb) & Hz & _) Hr.
  - rewrite Hb, !length_app in Hz. rewrite length_app in Hr. simpl in Hz. lia.
  - rewrite <- app_assoc in Hb. eauto.
Qed.

Lemma escape_keep_rep s a c b e :
  str_rep s (a ++ c :: b) -> zlen (a ++ c :: b) + 2 <= string_limit ->
  exists s', escape_keep s (zlen a) e = Ret s' /\ str_rep s' (a ++ e :: c :: b).
Proof.
  intros Hs Hn. unfold escape_keep.
  destruct (grow_for_escape_rep s _ Hs Hn) as (s1 & E & R & B). rewrite E. simpl.
  destruct (str_rep_room s1 a (c :: b) R B) as (z & r & Hb).
  destruct R as (Hc & _ & Hz & Hl & Hw). rewrite Hl. rewrite length_app in *. unfold memmove.
  rewrite (mem_read_at _ (zlen a) _ a ((c :: b) ++ x00 :: z :: r)) by (rewrite ?length_app; simpl; auto; lia).
  replace (Z.to_nat _) with (length (c :: b)) by lia. rewrite take_app_length. simpl.
  rewrite (mem_write_at' _ (zlen a + 1) (a ++ [c]) (b ++ x00 :: z :: r))
    by (rewrite ?Hb, ?length_app, <- ?app_assoc; simpl; auto; lia). simpl.
  rewrite (mem_write_at' _ (zlen a) a (c :: c :: b ++ drop (S (length b)) (b ++ x00 :: z :: r)))
    by (rewrite <- ?app_assoc; simpl; auto; lia). simpl.
  replace (drop (S (length b)) (b ++ x00 :: z :: r)) with (z :: r)
    by (rewrite drop_app_ge, Nat.sub_succ_l, Nat.sub_diag by lia; done).
  destruct (store_end (set_buf (a ++ e :: c :: b ++ z :: r) s1) (a ++ e :: c :: b) (z :: r) (zlen a + zlen (c :: b) + 1))
    as (s' & E' & R' & _); simpl; auto; try lia.
  - rewrite <- app_assoc. done.
  - rewrite length_app. simpl. lia.
  - rewrite <- Hz, Hb, !length_app. simpl. rewrite !length_app. simpl. lia.
  - rewrite Nat2Z.inj_add. eauto.
Qed.

Lemma escape_letter_rep s a c b e l :
  str_rep s (a ++ c :: b) -> zlen (a ++ c :: b) + 2 <= string_limit ->
  exists s', escape_letter s (zlen a) e l = Ret s' /\ str_rep s' (a ++ e :: l :: b).
Proof.
  intros Hs Hn. unfold escape_letter.
  destruct (grow_for_escape_rep s _ Hs Hn) as (s1 & E & R & B). rewrite E. simpl.
  destruct (str_rep_room s1 a (c :: b) R B) as (z & r & Hb).
  destruct R as (Hc & _ & Hz & Hl & Hw). rewrite Hl. rewrite length_app in *. unfold memmove.
  rewrite (mem_read_at _ (zlen a + 1) _ (a ++ [c]) (b ++ x00 :: z :: r))
    by (rewrite ?Hb, ?length_app, <- ?app_assoc; simpl; auto; lia).
  replace (Z.to_nat _) with (length b) by (simpl; lia). rewrite take_app_length. simpl.
  rewrite (mem_write_at' _ (zlen a + 2) (a ++ [c; hd x00 (b ++ [x00])]) (drop 1 (b ++ x00 :: z :: r))).
  2:{ rewrite Hb, <- app_assoc. simpl. by destruct b. }
  2:{ rewrite length_app. simpl. lia. }
  2:{ rewrite length_drop, length_app. simpl. lia. }
  simpl.
  rewrite (mem_write_at' _ (zlen a) a (c :: hd x00 (b ++ [x00]) :: b ++ drop (length b) (drop 1 (b ++ x00 :: z :: r))))
    by (rewrite <- ?app_assoc; simpl; auto; lia). simpl.
  rewrite (mem_write_at' _ (zlen a + 1) (a ++ [e]) (hd x00 (b ++ [x00]) :: b ++ drop (length b) (drop 1 (b ++ x00 :: z :: r))))
    by (rewrite ?length_app, <- ?app_assoc; simpl; auto; lia). simpl.
  rewrite drop_drop, <- app_assoc. simpl.
  replace (drop (S (length b)) (b ++ x00 :: z :: r)) with (z :: r)
    by (rewrite drop_app_ge, Nat.sub_succ_l, Nat.sub_diag by lia; done).
  destruct (store_end (set_buf (a ++ e :: l :: b ++ z :: r) s1) (a ++ e :: l :: b) (z :: r) (zlen a + zlen (c :: b) + 1))
    as (s' & E' & R' & _); simpl; auto; try lia.
  - rewrite <- app_assoc. done.
  - rewrite length_app. simpl. lia.
  - rewrite <- Hz, Hb, !length_app. simpl. rewrite !length_app. simpl. lia.
  - rewrite Nat2Z.inj_add. eauto.
Qed.

Lemma escape_length cls b : (length b <= length (b ≫= escape_char cls))%nat.
Proof.
  induction b as [|c b IH]; [done|]. rewrite bind_cons, length_app, length_cons.
  assert (1 <= length (escape_char cls c))%nat; [|lia].
  unfold escape_char. case_test; simpl; [lia|]. destruct (cls c); simpl; lia.
Qed.

(** The escaping loop appends the escaped characters one by one: enough fuel
    is the number of characters left. *)
Lemma escape_loop_rep cls s a b fuel :
  str_rep s (a ++ b) -> (length b <= fuel)%nat ->
  zlen a + zlen (b ≫= escape_char cls) + 1 <= string_limit ->
  exists s', escape_loop cls fuel (zlen a) s = Ret s' /\ str_rep s' (a ++ (b ≫= escape_char cls)).
Proof.
  revert s a fuel. induction b as [|c b IH]; intros s a fuel Hs Hf Hn.
  - pose proof Hs as (_ & _ & _ & Hl & _). rewrite app_nil_r in *.
    destruct fuel; simpl; rewrite Hl, Z.ltb_irrefl; eauto.
  - destruct fuel as [|fuel]; simpl in Hf; [lia|]. cbn [escape_loop].
    pose proof Hs as (_ & (r & Hb) & _ & Hl & _).
    rewrite Hl, (proj2 (Z.ltb_lt _ _)) by (rewrite length_app; simpl; lia).
    rewrite (mem_read_at _ _ 1 a (c :: b ++ x00 :: r)) by (rewrite ?Hb, <- ?app_assoc; simpl; auto; lia).
    rewrite bind_cons, length_app in Hn. rewrite bind_cons. cbn [mbind outcome_bind].
    change (default x00 (head _)) with c.
    pose proof (escape_length cls b) as Hlb.
    assert (forall d s1 i, escape_char cls c = d -> str_rep s1 (a ++ d ++ b) -> i = zlen a + zlen d ->
      exists s', escape_loop cls fuel i s1 = Ret s' /\
        str_rep s' (a ++ escape_char cls c ++ (b ≫= escape_char cls))) as Hgo.
    { intros d s1 i Hd Hs1 Hi. rewrite app_assoc. 
      replace i with (zlen (a ++ escape_char cls c)) by (rewrite length_app, Hd; lia).
      apply IH; [by rewrite <- app_assoc, Hd|lia|]. rewrite length_app. lia. }
    assert (zlen (a ++ c :: b) + 2 <= string_limit \/ length (escape_char cls c) = 1%nat) as Hroom.
    { rewrite length_app. simpl.
      destruct (escape_char cls c) as [|? [|? ?]] eqn:Ed; simpl in *; [|auto|left; lia].
      unfold escape_char in Ed. destruct (0 <? _); [done|]. by destruct (cls c). }
    clear IH Hn Hlb. revert Hgo. generalize (b ≫= escape_char cls). intros rest Hgo.
    unfold escape_char in *.
    destruct (0 <? Z.land (bz c) 128); [by eapply Hgo|].
    destruct (cls c) as [|e|e l]; [by eapply Hgo| |].
    + destruct Hroom as [Hroom|[=]].
      destruct (escape_keep_rep s a c b e Hs Hroom) as (s1 & E & R). rewrite E. by eapply Hgo.
    + destruct Hroom as [Hroom|[=]].
      destruct (escape_letter_rep s a c b e l Hs Hroom) as (s1 & E & R). rewrite E. by eapply Hgo.
Qed.

Lemma nx_string_escape_rep s c :
  str_rep s c -> zlen (c ≫= escape_char escape_class) + 1 <= string_limit ->
  exists s', nx_string_escape s = Ret s' /\ str_rep s' (c ≫= escape_char escape_class).
Proof.
  intros Hs Hn. unfold nx_string_escape. pose proof Hs as (_ & _ & _ & Hl & _). rewrite Hl, Nat2Z.id.
  apply (escape_loop_rep escape_class s [] c); [done|lia|done].
Qed.

(** *** Removing the line end *)

(** The string without a final LF, and then without a final CR. *)
Definition chop (c : bytes) (d : byte) : bytes :=
  if bool_decide (last c = Some d) then take (length c - 1) c else c.
Definition spec_strip_crlf (c : bytes) : bytes :=
  if bool_decide (last c = Some x0a) then chop (chop c x0a) x0d else c.

Lemma chop_rep s c d : str_rep s (c ++ [d]) ->
  exists s', store s (len s - 1) x00 = Ret s' /\ str_rep (set_slen (len s' - 1) s') c.
Proof.
  intros (Hc & (r & Hb) & Hz & Hl & Hw). unfold store. rewrite Hl, length_app. simpl.
  rewrite (mem_write_at' _ _ c (d :: x00 :: r)) by (rewrite ?Hb, <- ?app_assoc; simpl; auto; lia). simpl.
  eexists; split; [done|]. repeat split; simpl; eauto.
  - rewrite <- Hz, Hb, !length_app. simpl. lia.
  - rewrite Hl, length_app. simpl. lia.
Qed.

Lemma last_byte_rep s c d : str_rep s (c ++ [d]) ->
  mem_read (buf s) (len s - 1) 1 = Ret [d] /\ 0 < len s.
Proof.
  intros (_ & (r & Hb) & _ & Hl & _). rewrite Hl, length_app. simpl. split; [|lia].
  rewrite (mem_read_at _ _ 1 c (d :: x00 :: r)) by (rewrite ?Hb, <- ?app_assoc; simpl; auto; lia).
  done.
Qed.


Lemma nx_string_strip_crlf_rep s c : str_rep s c ->
  exists s', nx_string_strip_crlf s = Ret s' /\ str_rep s' (spec_strip_crlf c).
Proof.
  intros Hs. unfold nx_string_strip_crlf, spec_strip_crlf.
  destruct c as [|d c _] using rev_ind.
  { pose proof Hs as (_ & _ & _ & -> & _). simpl. eauto. }
  destruct (last_byte_rep s c d Hs) as [E Hp]. rewrite (proj2 (Z.ltb_lt _ _)) by done.
  rewrite E, last_snoc. cbn [mbind outcome_bind].
  destruct (decide (d = x0a)) as [->|Hd]; [|rewrite !bool_decide_false by congruence; eauto].
  rewrite !bool_decide_true by done.
  destruct (chop_rep s c x0a Hs) as (s1 & E1 & R1). rewrite E1. cbn [mbind outcome_bind].
  unfold chop at 2. rewrite last_snoc, bool_decide_true by done.
  replace (take _ (c ++ [x0a])) with c by (rewrite length_app, take_app_le, take_ge; simpl; auto; lia).
  set (s2 := set_slen _ s1) in *. clearbody s2. clear E1 s1 E Hs Hp. unfold chop.
  destruct c as [|d c _] using rev_ind.
  { pose proof R1 as (_ & _ & _ & -> & _). simpl. eauto. }
  destruct (last_byte_rep s2 c d R1) as [E Hp]. rewrite (proj2 (Z.ltb_lt _ _)) by done.
  rewrite E, last_snoc. cbn [mbind outcome_bind].
  destruct (decide (d = x0d)) as [->|Hd]; [|rewrite !bool_decide_false by congruence; eauto].
  rewrite !bool_decide_true by done.
  destruct (chop_rep s2 c x0d R1) as (s3 & E3 & R3). rewrite E3.
  exists (set_slen (len s3 - 1) s3). split; [done|].
  by rewrite length_app, take_app_le, take_ge by (simpl; lia).
Qed.

End with_malloc.

(** *** Unescaping *)

(** The unescaping function on byte strings. *)
Fixpoint unescape_spec (s : bytes) : bytes :=
  match s with
  | [] => []
  | c :: r =>
      if c =c "\" then
        match r with
        | [] => [c]
        | d :: r' =>
            if d =c "\" then "\"%byte :: unescape_spec r'
            else if d =c x22 then x22 :: unescape_spec r'
            else if d =c "n" then x0a :: unescape_spec r'
            else if d =c "r" then x0d :: unescape_spec r'
            else if d =c "t" then x09 :: unescape_spec r'
            else if d =c "b" then x08 :: unescape_spec r'
            else if (d =c "x") || (d =c "X") then
              match r' with
              | h :: l :: r'' => zb (hexval h * 16 + hexval l) :: unescape_spec r''
              | _ => c :: unescape_spec r
              end
            else c :: unescape_spec r
        end
      else c :: unescape_spec r
  end.

(** Every [\x] escape of the string has its two hexadecimal digits. *)
Fixpoint hex_ok (s : bytes) : bool :=
  match s with
  | [] => true
  | c :: r =>
      if c =c "\" then
        match r with
        | [] => true
        | d :: r' =>
            if (d =c "\") || (d =c x22) || (d =c "n") || (d =c "r") || (d =c "t") || (d =c "b")
            then hex_ok r'
            else if (d =c "x") || (d =c "X") then
              match r' with
              | h :: l :: r'' => isxdigit h && isxdigit l && hex_ok r''
              | _ => false
              end
            else hex_ok r
        end
      else hex_ok r
  end.

Lemma load_at b i p c r : b = p ++ c :: r -> i = zlen p -> load b i = Ret c.
Proof.
  intros -> ->. unfold load.
  by rewrite (mem_read_at _ _ 1 p (c :: r)) by (simpl; auto; lia).
Qed.

Lemma write_byte_at b i p c d r : b = p ++ c :: r -> i = zlen p -> mem_write b i [d] = Ret (p ++ d :: r).
Proof. intros -> ->. by rewrite mem_write_at by (simpl; lia). Qed.

(** Closing the gap before a terminated tail. *)
Lemma close_gap b i j n p gap t r :
  b = p ++ gap ++ t ++ x00 :: r -> i = zlen p -> j = zlen p + zlen gap -> n = zlen t + 1 -> n < 2 ^ 64 ->
  exists r', memmove b i j (u64 n) = Ret (p ++ t ++ x00 :: r') /\
    length (p ++ t ++ x00 :: r') = length b.
Proof.
  intros -> -> -> -> Hn. unfold memmove, u64. rewrite Z.mod_small by lia.
  rewrite (mem_read_at _ _ _ (p ++ gap) (t ++ x00 :: r))
    by (rewrite <- ?app_assoc, ?length_app; simpl; auto; lia). simpl.
  replace (take (Z.to_nat (zlen t + 1)) (t ++ x00 :: r)) with (t ++ [x00]).
  2:{ rewrite take_app_ge by lia. replace (_ - _)%nat with 1%nat by lia. done. }
  rewrite (mem_write_at' _ _ p (gap ++ t ++ x00 :: r)) by (rewrite ?length_app; simpl; auto; lia).
  exists (drop (length (t ++ [x00])) (gap ++ t ++ x00 :: r)).
  rewrite <- app_assoc. split; [done|].
  rewrite !length_app. simpl. rewrite length_drop, !length_app. simpl. lia.
Qed.

Lemma unescape_one_ok b i n p c d t r e :
  b = p ++ c :: d :: t ++ x00 :: r -> i = zlen p -> n = zlen p + zlen (c :: d :: t) -> zlen b < 2 ^ 64 ->
  exists r', unescape_one b i n e = Ret ((p ++ [e]) ++ t ++ x00 :: r') /\
    length ((p ++ [e]) ++ t ++ x00 :: r') = length b.
Proof.
  intros Hb -> -> Hs. unfold unescape_one. rewrite (write_byte_at b _ p c e _ Hb) by done. simpl.
  destruct (close_gap (p ++ e :: d :: t ++ x00 :: r) (zlen p + 1) (zlen p + 2)
    (zlen p + zlen (c :: d :: t) - zlen p - 1) (p ++ [e]) [d] t r) as (r' & E & L).
  - by rewrite <- app_assoc.
  - rewrite length_app. simpl. lia.
  - rewrite length_app. simpl. lia.
  - simpl. lia.
  - lens.
  - exists r'. split; [done|]. rewrite L. lens.
Qed.

(** One iteration at a backslash turns the escape into one character [e] and
    leaves the rest [t] to be processed. *)
Lemma unescape_at_ok p rest r b i n :
  b = p ++ ("\"%byte :: rest) ++ x00 :: r -> i = zlen p -> n = zlen p + zlen ("\"%byte :: rest) ->
  no_nul rest -> hex_ok ("\"%byte :: rest) = true -> zlen b < 2 ^ 64 ->
  exists e t r', unescape_at b i n = Ret ((p ++ [e]) ++ t ++ x00 :: r', zlen p + 1 + zlen t) /\
    unescape_spec ("\"%byte :: rest) = e :: unescape_spec t /\ hex_ok t = true /\
    (exists u, rest = u ++ t) /\ length ((p ++ [e]) ++ t ++ x00 :: r') = length b.
Proof.
  intros Hb Hi Hn Hnul Hx Hs. unfold unescape_at. cbn [hex_ok] in Hx. cbn [unescape_spec].
  rewrite beq_refl in *. unfold no_nul in Hnul.
  assert (forall k, 0 <= k <= n -> u64 (n - k) = n - k) as Hu
    by (intros k Hk; unfold u64; apply Z.mod_small; lens).
  destruct rest as [|d rest].
  { rewrite (load_at b (i + 1) (p ++ ["\"%byte]) x00 r)
      by (subst; rewrite <- ?app_assoc; simpl; auto; lens). simpl.
    exists "\"%byte, [], r. subst. rewrite <- app_assoc. simpl. split_and!; auto; [|by exists []].
    do 2 f_equal. lia. }
  rewrite (load_at b (i + 1) (p ++ ["\"%byte]) d (rest ++ x00 :: r))
    by (subst; rewrite <- ?app_assoc; simpl; auto; lens). cbn [mbind outcome_bind].
  assert (forall e, hex_ok rest = true -> exists t r',
    (b0 ← unescape_one b i n e; Ret (b0, u64 (n - 1))) = Ret ((p ++ [e]) ++ t ++ x00 :: r', zlen p + 1 + zlen t) /\
    e :: unescape_spec rest = e :: unescape_spec t /\ hex_ok t = true /\
    (exists u, d :: rest = u ++ t) /\ length ((p ++ [e]) ++ t ++ x00 :: r') = length b) as Hone.
  { intros e Hr. destruct (unescape_one_ok b i n p "\"%byte d rest r e) as (r' & E & L); [by subst|by subst..|].
    rewrite E. exists rest, r'. split_and!; [|done|done|by exists [d]|done].
    cbn. rewrite Hu by lens. do 2 f_equal. lens. }
  destruct (d =c "\") eqn:E1; tests; cbn [orb] in Hx.
  { subst d. destruct (close_gap b (i + 1) (i + 2) (n - i - 1) (p ++ ["\"%byte]) ["\"%byte] rest r) as (r' & E & L);
      [subst; by rewrite <- app_assoc|lens..|].
    rewrite E. exists "\"%byte, rest, r'. split_and!; [|done|done|by exists ["\"%byte]|done].
    cbn. rewrite Hu by lens. do 2 f_equal. lens. }
  destruct (d =c x22) eqn:E2; tests; cbn [orb] in Hx.
  { subst d. destruct (close_gap b i (i + 1) (n - i) p ["\"%byte] (x22 :: rest) r) as (r' & E & L);
      [by subst|lens..|].
    rewrite E. exists x22, rest, r'.
    split_and!; [|done|done|by exists [x22]|by rewrite <- app_assoc]. rewrite <- app_assoc.
    cbn. rewrite Hu by lens. do 2 f_equal. lens. }
  destruct (d =c "n"); cbn [orb] in Hx; [eauto|].
  destruct (d =c "r"); cbn [orb] in Hx; [eauto|].
  destruct (d =c "t"); cbn [orb] in Hx; [eauto|].
  destruct (d =c "b"); cbn [orb] in Hx; [eauto|]. clear Hone.
  destruct ((d =c "x") || (d =c "X")).
  2:{ exists "\"%byte, (d :: rest), r. subst. rewrite <- app_assoc. simpl. split_and!; auto; [|by exists []].
      do 2 f_equal. lia. }
  destruct rest as [|h [|l rest]]; [done..|]. apply andb_true_iff in Hx as [Hx Hr].
  apply andb_true_iff in Hx as [Hh Hl].
  rewrite (load_at b (i + 2) (p ++ ["\"%byte; d]) h (l :: rest ++ x00 :: r))
    by (subst; rewrite <- ?app_assoc; simpl; auto; lens). cbn [mbind outcome_bind]. rewrite Hh.
  rewrite (load_at b (i + 3) (p ++ ["\"%byte; d; h]) l (rest ++ x00 :: r))
    by (subst; rewrite <- ?app_assoc; simpl; auto; lens). cbn [mbind outcome_bind]. rewrite Hl.
  rewrite (write_byte_at b i p "\"%byte _ (d :: h :: l :: rest ++ x00 :: r)) by (subst; done). cbn [mbind outcome_bind].
  set (e := zb _).
  destruct (close_gap (p ++ e :: d :: h :: l :: rest ++ x00 :: r) (i + 1) (i + 4) (n - i - 3) (p ++ [e]) [d; h; l] rest r)
    as (r' & E & L); [by rewrite <- app_assoc|lens..|].
  rewrite E. exists e, rest, r'. split_and!; [|done|done|by exists [d; h; l]|rewrite L; lens].
  cbn. rewrite Hu by lens. do 2 f_equal. lens.
Qed.

(** The loop on a well-formed rest [todo] behind the processed prefix [p]. *)
Lemma unescape_loop_ok fuel p todo r b i n :
  b = p ++ todo ++ x00 :: r -> i = zlen p -> n = zlen p + zlen todo ->
  no_nul todo -> hex_ok todo = true -> (length todo <= fuel)%nat -> zlen b < 2 ^ 64 ->
  exists r', unescape_loop fuel i n b =
    Ret (p ++ unescape_spec todo ++ x00 :: r', zlen p + zlen (unescape_spec todo)) /\
    length (p ++ unescape_spec todo ++ x00 :: r') = length b.
Proof.
  revert p todo r b i n. induction fuel as [|fuel IH]; intros p todo r b i n Hb Hi Hn Hnul Hx Hf Hs;
    (destruct todo as [|c todo]; [simpl; rewrite (load_at b i p x00 r) by done; exists r; by subst|]);
    simpl in Hf; [lia|]. cbn [unescape_loop].
  rewrite (load_at b i p c (todo ++ x00 :: r)) by (subst; done). cbn [mbind outcome_bind].
  unfold no_nul in Hnul. rewrite (proj2 (beq_false c x00)) by set_solver.
  assert (forall e t r' d m, unescape_spec (c :: todo) = e :: unescape_spec t ->
     d = (p ++ [e]) ++ t ++ x00 :: r' -> m = zlen p + 1 + zlen t -> (exists u, todo = u ++ t) ->
     hex_ok t = true -> length d = length b ->
     exists r', unescape_loop fuel (i + 1) m d =
       Ret (p ++ unescape_spec (c :: todo) ++ x00 :: r', zlen p + zlen (unescape_spec (c :: todo))) /\
       length (p ++ unescape_spec (c :: todo) ++ x00 :: r') = length b) as Hgo.
  { intros e t r' d m Hu -> -> (u & Hut) Hx' Hl.
    destruct (IH (p ++ [e]) t r' ((p ++ [e]) ++ t ++ x00 :: r') (i + 1) (zlen p + 1 + zlen t))
      as (r2 & E & L); auto; [lens|lens|unfold no_nul; set_solver|lens|lia|].
    exists r2. rewrite E, Hu, <- Hl, <- L, <- app_assoc. split; [|done].
    do 2 f_equal. rewrite length_app. simpl. lia. }
  destruct (c =c "\") eqn:Ec; tests.
  - subst c. destruct (unescape_at_ok p todo r b i n) as (e & t & r' & E & H1 & H2 & H3 & H4);
      auto; [unfold no_nul; set_solver|]. rewrite E. eapply Hgo; eauto.
  - cbn [hex_ok unescape_spec] in *. rewrite (proj2 (beq_false c "\"%byte)) in * by done.
    apply (Hgo c todo r); auto; [by subst; rewrite <- app_assoc|lens|by exists []].
Qed.

Lemma nx_string_unescape_c_ok s r :
  no_nul s -> hex_ok s = true -> zlen (s ++ x00 :: r) < 2 ^ 64 ->
  exists r', nx_string_unescape_c (s ++ x00 :: r) =
    Ret (unescape_spec s ++ x00 :: r', zlen (unescape_spec s)) /\
    length (unescape_spec s ++ x00 :: r') = length (s ++ x00 :: r).
Proof.
  intros Hn Hx Hs. unfold nx_string_unescape_c. rewrite strlen_lit by done. cbn [mbind outcome_bind].
  apply (unescape_loop_ok _ [] s r); auto. lens.
Qed.

(** Escaping is undone by unescaping, except for the apostrophe, which
    [nx_string_unescape_c] does not know. *)
Lemma unescape_escape_char c t :
  c <> x00 -> c <> "'"%byte ->
  unescape_spec (escape_char escape_class c ++ t) = c :: unescape_spec t.
Proof. intros H0 H1. destruct c; (reflexivity || contradiction). Qed.

Lemma hex_ok_escape_char c t :
  hex_ok (escape_char escape_class c ++ t) = hex_ok t.
Proof. destruct c; reflexivity. Qed.

Lemma no_nul_escape_char c : c <> x00 -> no_nul (escape_char escape_class c).
Proof. intros H. apply (bool_decide_unpack _). destruct c; (reflexivity || contradiction). Qed.

Lemma unescape_escape s :
  no_nul s -> "'"%byte ∉ s -> unescape_spec (s ≫= escape_char escape_class) = s.
Proof.
  unfold no_nul. induction s as [|c s IH]; [done|]. intros H0 H1.
  rewrite bind_cons, unescape_escape_char by set_solver. f_equal. apply IH; set_solver.
Qed.

Lemma hex_ok_escape s : hex_ok (s ≫= escape_char escape_class) = true.
Proof. induction s as [|c s IH]; [done|]. by rewrite bind_cons, hex_ok_escape_char. Qed.

Lemma no_nul_escape s : no_nul s -> no_nul (s ≫= escape_char escape_class).
Proof.
  unfold no_nul. induction s as [|c s IH]; [set_solver|]. intros H.
  rewrite bind_cons, not_elem_of_app. split; [apply no_nul_escape_char; set_solver|].
  apply IH. set_solver.
Qed.

(** ** Properties *)

(** An allocator whose fresh memory is never NUL, for concrete runs. *)
Definition poison_malloc : Malloc.
Proof.
  refine {| malloc n := replicate (Z.to_nat n) xcd |}.
  intros n Hn. rewrite length_replicate. lia.
Defined.

(** Appending [n] bytes never accesses memory outside the block, always
    returns, keeps the string NUL-terminated inside its block, and yields the
    concatenation, truncated to one byte less than the string limit. *)
Theorem nx_string_append_spec `{M : Malloc} s c src n :
  str_rep s c -> 0 <= n <= zlen src ->
  exists s', nx_string_append s src n = Ret s' /\
    str_rep s' (spec_append c (take (Z.to_nat n) src)) /\
    (zlen c + n < string_limit -> str_rep s' (c ++ take (Z.to_nat n) src)).
Proof.
  intros Hs Hn. destruct (nx_string_append_rep s c src n Hs Hn) as (s' & E & R).
  exists s'. split_and!; [done..|]. intros Hl. unfold spec_append in R.
  destruct (_ <=? _) eqn:El; tests.
  - assert (n = 0) as -> by lia. by rewrite app_nil_r.
  - by rewrite take_ge in R by lens.
Qed.

Lemma nx_string_append_spec_witness :
  exists s, (s0 ← nx_string_create (M := poison_malloc) (lit "log") 3;
             nx_string_append (M := poison_malloc) s0 (lit "line") 4) = Ret s /\
    str_rep s (lit "logline").
Proof.
  destruct (nx_string_create_rep (M := poison_malloc) (lit "log") 3) as (s0 & E & R & _);
    [vm_compute; split; discriminate|vm_compute; discriminate|].
  destruct (nx_string_append_spec (M := poison_malloc) s0 (lit "log") (lit "line") 4)
    as (s & E' & _ & R'); [done|vm_compute; split; discriminate|].
  exists s. rewrite E. split; [done|]. by apply R'.
Defined.

(** Unescaping undoes escaping: for a string without NUL and without
    apostrophe whose escaped form fits the limit, [nx_string_escape] returns a
    string whose buffer [nx_string_unescape_c] turns back into the original,
    with its length. *)
Theorem escape_unescape_roundtrip `{M : Malloc} s c :
  str_rep s c -> no_nul c -> "'"%byte ∉ c ->
  zlen (c ≫= escape_char escape_class) + 1 <= string_limit ->
  exists s' b', nx_string_escape s = Ret s' /\
    nx_string_unescape_c (buf s') = Ret (b', zlen c) /\
    cstr b' = c /\ length b' = length (buf s').
Proof.
  intros Hs H0 H1 Hl. destruct (nx_string_escape_rep s c Hs Hl) as (s' & E & R).
  destruct R as (Hc & (r & Hb) & Hz & Hlen & Hw).
  destruct (nx_string_unescape_c_ok (c ≫= escape_char escape_class) r) as (r' & E' & L).
  - by apply no_nul_escape.
  - apply hex_ok_escape.
  - rewrite <- Hb. lia.
  - rewrite unescape_escape in * by done. rewrite <- Hb in *.
    exists s', (c ++ x00 :: r'). split_and!; [done..| |done]. by apply cstr_app_nul.
Qed.

Lemma escape_unescape_roundtrip_witness :
  exists s s' b', nx_string_create (M := poison_malloc) (lit "a\b") 3 = Ret s /\
    nx_string_escape (M := poison_malloc) s = Ret s' /\
    nx_string_unescape_c (buf s') = Ret (b', 3) /\ cstr b' = lit "a\b" /\
    length b' = length (buf s').
Proof.
  destruct (nx_string_create_rep (M := poison_malloc) (lit "a\b") 3) as (s & E & R & _);
    [vm_compute; split; discriminate|vm_compute; discriminate|].
  destruct (escape_unescape_roundtrip (M := poison_malloc) s (lit "a\b") R) as (s' & b' & H);
    [apply (bool_decide_unpack _); done|apply (bool_decide_unpack _); done|vm_compute; discriminate|].
  exists s, s', b'. split; [done|]. exact H.
Defined.

(** For a C string whose [\x] escapes have their two digits,
    [nx_string_unescape_c] stays inside the block, returns the unescaped string
    in place and its length. *)
Theorem unescape_c_spec s r :
  no_nul s -> hex_ok s = true -> zlen (s ++ x00 :: r) < 2 ^ 64 ->
  exists r', nx_string_unescape_c (s ++ x00 :: r) =
    Ret (unescape_spec s ++ x00 :: r', zlen (unescape_spec s)) /\
    length (unescape_spec s ++ x00 :: r') = length (s ++ x00 :: r).
Proof. apply nx_string_unescape_c_ok. Qed.

Lemma unescape_c_spec_witness :
  exists r', nx_string_unescape_c (lit "a\tb\x41" ++ [x00]) =
    Ret (unescape_spec (lit "a\tb\x41") ++ x00 :: r', zlen (unescape_spec (lit "a\tb\x41"))) /\
    length (unescape_spec (lit "a\tb\x41") ++ x00 :: r') = length (lit "a\tb\x41" ++ [x00]).
Proof.
  apply (unescape_c_spec (lit "a\tb\x41") []);
    [apply (bool_decide_unpack _); done|reflexivity|reflexivity].
Defined.

(** A [\x] without two digits makes [nx_string_unescape_c] lose track of the
    length: it reports 1 for the unchanged four-character string [\xzz], and a
    following escape passes a wrapped-around count to [memmove]. *)
Theorem unescape_c_malformed_hex :
  nx_string_unescape_c (lit "\xzz" ++ [x00]) = Ret (lit "\xzz" ++ [x00], 1) /\
  nx_string_unescape_c (lit "\xzz\n" ++ [x00]) = Undef "read outside the block".
Proof. split; vm_compute; reflexivity. Qed.

(** A string of exactly [string_limit] bytes can be created but not cloned:
    [nx_string_clone] asks for one byte more than the limit and throws. *)
Theorem clone_at_limit_throws `{M : Malloc} src :
  zlen src = string_limit ->
  exists s, nx_string_create src string_limit = Ret s /\ str_rep s src /\
    nx_string_clone s = Throw "oversized string, limit is %d bytes".
Proof.
  intros Hl. destruct (nx_string_create_rep src string_limit) as (s & E & R & _);
    [rewrite Hl; unfold string_limit; lia|lia|].
  rewrite take_ge in R by lia. exists s. split_and!; [done..|].
  destruct R as (_ & _ & _ & HL & _). unfold nx_string_clone. rewrite HL, Hl. reflexivity.
Qed.

Lemma clone_at_limit_throws_witness :
  exists s, nx_string_create (M := poison_malloc)
              (replicate (Z.to_nat string_limit) "a"%byte) string_limit = Ret s /\
    str_rep s (replicate (Z.to_nat string_limit) "a"%byte) /\
    nx_string_clone (M := poison_malloc) s = Throw "oversized string, limit is %d bytes".
Proof.
  apply (clone_at_limit_throws (M := poison_malloc)).
  rewrite length_replicate. unfold string_limit. lia.
Defined.

End Str.
