(* ===== verification/Utf8.v ===== *)
(** * UTF-8 validation and repair (common/str.c)

    [nx_utf8_find_next_char], [nx_utf8_is_valid_char] and
    [nx_string_validate_utf8], which walks a string, decodes every character
    and, on a bad one, throws, returns FALSE or overwrites it with question
    marks.  Pointers into the buffer are indices.  The reference is the table of
    well-formed byte sequences of the Unicode standard, without the two
    noncharacters U+FFFE and U+FFFF that the code rejects as well. *)

From S2P Require Import Prelude Str.
Import Str.

Module Utf8.

(** [_nx_trailing_bytes_for_utf8] *)
Definition trailing_table : list nat :=
  replicate 192 0%nat ++ replicate 32 1%nat ++ replicate 16 2%nat ++ replicate 8 3%nat
  ++ replicate 4 4%nat ++ replicate 2 5%nat ++ replicate 2 0%nat.

Definition nx_trailing_bytes_for_utf8 (c : byte) : Z :=
  Z.of_nat (default 0%nat (trailing_table !! Z.to_nat (bz c))).

(** [_nx_offsets_from_utf8] *)
Definition nx_offsets_from_utf8 (n : Z) : Z :=
  default 0 ([0; 0x3080; 0xE2080; 0x3C82080; 0xFA082080; 0x82082080] !! Z.to_nat n).

(** The loop of [nx_utf8_find_next_char] over continuation bytes. *)
Fixpoint skip_continuation (fuel : nat) (b : bytes) (p e : Z) : outcome Z :=
  match fuel with
  | O => Ret p
  | S fuel =>
      if p <? e then
        c ← load b p;
        if Z.land (bz c) 0xc0 =? 0x80 then skip_continuation fuel b (p + 1) e else Ret p
      else Ret p
  end.

(** [nx_utf8_find_next_char(p, end)]; [None] is NULL.  Its only callers pass a
    non-NULL [end]. *)
Definition nx_utf8_find_next_char (b : bytes) (p e : Z) : outcome (option Z) :=
  c ← load b p;
  p ← (if c =c x00 then Ret p else skip_continuation (length b) b (p + 1) e);
  Ret (if p =? e then None else Some p).

(** [nx_utf8_is_valid_char(src, length)]: the cases fall through. *)
Definition continuation_ok (b : bytes) (i : Z) : outcome bool :=
  a ← load b i;
  Ret (negb ((bz a <? 0x80) || (0xBF <? bz a))).

Definition second_ok (b : bytes) (src : Z) : outcome bool :=
  a ← load b (src + 1);
  c ← load b src;
  Ret (if 0xBF <? bz a then false
       else if bz c =? 0xE0 then negb (bz a <? 0xA0)
       else if bz c =? 0xED then negb (0x9F <? bz a)
       else if bz c =? 0xF0 then negb (bz a <? 0x90)
       else if bz c =? 0xF4 then negb (0x8F <? bz a)
       else negb (bz a <? 0x80)).

Definition first_ok (b : bytes) (src : Z) : outcome bool :=
  c ← load b src;
  Ret (negb ((0x80 <=? bz c) && (bz c <? 0xC2)) && negb (0xF4 <? bz c)).

Definition nx_utf8_is_valid_char (b : bytes) (src length : Z) : outcome bool :=
  if (length <? 1) || (4 <? length) then Ret false
  else
    ok ← (if length =? 4 then continuation_ok b (src + 3) else Ret true);
    if negb ok then Ret false else
    ok ← (if 3 <=? length then continuation_ok b (src + 2) else Ret true);
    if negb ok then Ret false else
    ok ← (if 2 <=? length then second_ok b src else Ret true);
    if negb ok then Ret false else first_ok b src.

Definition NX_UNICODE_LAST_CHAR : Z := 0x10ffff.

(** The decoding [switch]: [n] bytes are shifted in, then the last one added. *)
Fixpoint decode (n : nat) (b : bytes) (p chr : Z) : outcome Z :=
  c ← load b p;
  match n with
  | O => Ret (u32 (chr + bz c))
  | S n => decode n b (p + 1) (u32 (Z.shiftl (u32 (chr + bz c)) 6))
  end.

Definition bad_char (chr : Z) : bool :=
  if chr <=? NX_UNICODE_LAST_CHAR
  then ((0xD800 <=? chr) && (chr <=? 0xDFFF)) || (chr =? 0xFFFE) || (chr =? 0xFFFF)
  else true.

(** What the three error branches share when [needfix] is set: overwrite from
    [dst] up to the next character after [src], or to the end.  The new
    position is [None] after the [break]. *)
Definition repair (b : bytes) (dst src e : Z) : outcome (bytes * option Z) :=
  n ← nx_utf8_find_next_char b src e;
  let stop := default e n in
  b ← mem_write b dst (replicate (Z.to_nat (stop - dst)) "?"%byte);
  Ret (b, n).

(** What is wrong at the position of [srcptr]: nothing (then the next position),
    or the first byte to overwrite and where the search for the next character
    starts, and the message. *)
Inductive verdict := Good (next : Z) | Bad (dst src : Z) (msg : string).

Definition inspect (b : bytes) (p e : Z) : outcome verdict :=
  c ← load b p;
  let n := nx_trailing_bytes_for_utf8 c in
  if e <? p + n + 1 then
    Ret (Bad p p "incomplete utf-8 byte sequence at end of input at pos %lld")
  else
    ok ← nx_utf8_is_valid_char b p (n + 1);
    if negb ok then Ret (Bad p p "invalid utf-8 byte sequence at end of input at pos %lld")
    else
      chr ← decode (Z.to_nat n) b p 0;
      let chr := u32 (chr - nx_offsets_from_utf8 n) in
      if bad_char chr then Ret (Bad p (p + n + 1) "invalid utf-8 byte sequence at pos %d")
      else Ret (Good (p + n + 1)).

Fixpoint validate_loop (fuel : nat) (needfix throw : bool) (b : bytes) (p e : Z) (valid : bool)
    : outcome (bytes * bool) :=
  if p <? e then
    match fuel with
    | O => Undef "out of fuel"
    | S fuel =>
        v ← inspect b p e;
        match v with
        | Good p => validate_loop fuel needfix throw b p e valid
        | Bad dst src msg =>
            if throw then Throw msg
            else if needfix then
              r ← repair b dst src e;
              match snd r with
              | None => Ret (fst r, false)
              | Some p => validate_loop fuel needfix throw (fst r) p e false
              end
            else Ret (b, false)
        end
    end
  else Ret (b, valid).

(** [nx_string_validate_utf8]; the [while] loop advances in every iteration, so
    [len] iterations are enough. *)
Definition nx_string_validate_utf8 (s : nx_string) (needfix throw : bool)
    : outcome (nx_string * bool) :=
  r ← validate_loop (Z.to_nat (len s)) needfix throw (buf s) 0 (len s) true;
  Ret (set_buf (fst r) s, snd r).

(** ** Reference: well-formed UTF-8 *)

Definition in_range (lo hi : Z) (c : byte) : bool := (lo <=? bz c) && (bz c <=? hi).
Definition tail (c : byte) : bool := in_range 0x80 0xBF c.

(** The table of well-formed sequences, without U+FFFE and U+FFFF.  With
    [strict = false] the second byte after ED and F4 has no lower bound: this is
    the language the code accepts. *)
Fixpoint utf8 (strict : bool) (s : bytes) : bool :=
  let low := if strict then 0x80 else 0 in
  match s with
  | [] => true
  | a :: r =>
      if bz a <? 0x80 then utf8 strict r
      else if in_range 0xC2 0xDF a then
        match r with b :: r => tail b && utf8 strict r | _ => false end
      else if in_range 0xE0 0xEF a then
        match r with
        | b :: c :: r =>
            (if bz a =? 0xE0 then in_range 0xA0 0xBF b
             else if bz a =? 0xED then in_range low 0x9F b else tail b)
            && tail c
            && negb ((bz a =? 0xEF) && (bz b =? 0xBF) && (0xBE <=? bz c))
            && utf8 strict r
        | _ => false
        end
      else if in_range 0xF0 0xF4 a then
        match r with
        | b :: c :: d :: r =>
            (if bz a =? 0xF0 then in_range 0x90 0xBF b
             else if bz a =? 0xF4 then in_range low 0x8F b else tail b)
            && tail c && tail d && utf8 strict r
        | _ => false
        end
      else false
  end.

(** Well-formed UTF-8, and what [nx_string_validate_utf8] accepts. *)
Definition wf_utf8 : bytes -> bool := utf8 true.
Definition code_utf8 : bytes -> bool := utf8 false.

(** ** Characters *)

Lemma trailing_ranges c :
  nx_trailing_bytes_for_utf8 c =
    if bz c <? 0xC0 then 0 else if bz c <? 0xE0 then 1 else if bz c <? 0xF0 then 2
    else if bz c <? 0xF8 then 3 else if bz c <? 0xFC then 4 else if bz c <? 0xFE then 5 else 0.
Proof. destruct c; vm_compute; reflexivity. Qed.

Lemma load_suffix a l k : 0 <= k -> load (a ++ l) (zlen a + k) = 
  match l !! Z.to_nat k with Some c => Ret c | None => Undef "read outside the block" end.
Proof.
  intros Hk. destruct (l !! Z.to_nat k) as [c|] eqn:E.
  - apply list_elem_of_split_length in E as (l1 & l2 & -> & E).
    apply (load_at _ _ (a ++ l1) c l2); [by rewrite <- app_assoc|lens].
  - apply lookup_ge_None in E. unfold load, mem_read.
    rewrite (proj2 (Z.leb_gt (_ + 1) _)) by lens. by rewrite andb_false_r.
Qed.

Lemma load_suffix0 a l : load (a ++ l) (zlen a) = 
  match l !! 0%nat with Some c => Ret c | None => Undef "read outside the block" end.
Proof. rewrite <- (Z.add_0_r (zlen a)). by rewrite load_suffix. Qed.

Lemma u32_small z : 0 <= z < 2 ^ 32 -> u32 z = z.
Proof. intros H. by apply Z.mod_small. Qed.

Lemma decode_step n b p chr c :
  load b p = Ret c -> 0 <= chr < 2 ^ 24 ->
  decode (S n) b p chr = decode n b (p + 1) ((chr + bz c) * 64).
Proof.
  intros H Hc. simpl. rewrite H. simpl. pose proof (bz_range c).
  rewrite (u32_small (chr + bz c)), Z.shiftl_mul_pow2, u32_small by lia. done.
Qed.

Lemma decode_last b p chr c :
  load b p = Ret c -> 0 <= chr < 2 ^ 31 -> decode 0 b p chr = Ret (chr + bz c).
Proof. intros H Hc. simpl. rewrite H. simpl. pose proof (bz_range c). by rewrite u32_small by lia. Qed.

(** What [inspect] finds in front of a rest [s] of the string. *)
Definition inspected (p e : Z) (s : bytes) (v : verdict) : Prop :=
  match v with
  | Good q => exists k t, s = k ++ t /\ k <> [] /\ q = p + zlen k /\
                (forall u, utf8 false (k ++ u) = utf8 false u)
  | Bad dst src _ => dst = p /\ utf8 false s = false /\
                ((src = p /\ s !! 0%nat <> Some x00) \/ (p < src <= e))
  end.

Ltac bzr := repeat match goal with
  | c : byte |- _ => lazymatch goal with H : 0 <= bz c < 256 |- _ => fail | _ => pose proof (bz_range c) end
  end.

(** Decide the comparisons of the goal by arithmetic. *)
Ltac cmp :=
  repeat match goal with
  | |- context [(?x <? ?y)%Z] => first
      [rewrite (proj2 (Z.ltb_lt x y)) by lia | rewrite (proj2 (Z.ltb_ge x y)) by lia]
  | |- context [(?x <=? ?y)%Z] => first
      [rewrite (proj2 (Z.leb_le x y)) by lia | rewrite (proj2 (Z.leb_gt x y)) by lia]
  | |- context [(?x =? ?y)%Z] => first
      [rewrite (proj2 (Z.eqb_eq x y)) by lia | rewrite (proj2 (Z.eqb_neq x y)) by lia]
  end.



Lemma lookup_load l k : 0 <= k ->
  load l k = match l !! Z.to_nat k with Some c => Ret c | None => Undef "read outside the block" end.
Proof. intros Hk. apply (load_suffix [] l k Hk). Qed.

Lemma load_shift a l k : 0 <= k -> load (a ++ l) (zlen a + k) = load l k.
Proof. intros Hk. by rewrite load_suffix, lookup_load. Qed.

Lemma is_valid_shift a l n : nx_utf8_is_valid_char (a ++ l) (zlen a) n = nx_utf8_is_valid_char l 0 n.
Proof.
  unfold nx_utf8_is_valid_char, continuation_ok, second_ok, first_ok.
  rewrite !load_shift by lia. pose proof (load_shift a l 0 ltac:(lia)) as H0.
  rewrite Z.add_0_r in H0. by rewrite H0.
Qed.

Lemma decode_shift a l n k chr : 0 <= k -> decode n (a ++ l) (zlen a + k) chr = decode n l k chr.
Proof.
  revert k chr. induction n as [|n IH]; intros k chr Hk; simpl; rewrite load_shift by done; [done|].
  destruct (load l k); simpl; [|done..]. rewrite <- Z.add_assoc. apply IH. lia.
Qed.

Definition shift_verdict (d : Z) (v : verdict) : verdict :=
  match v with Good q => Good (d + q) | Bad x y m => Bad (d + x) (d + y) m end.

Lemma inspect_shift a l e :
  inspect (a ++ l) (zlen a) (zlen a + e) = shift_verdict (zlen a) <$> inspect l 0 e.
Proof.
  unfold inspect. pose proof (load_shift a l 0 ltac:(lia)) as H0. rewrite Z.add_0_r in H0. rewrite H0.
  destruct (load l 0) as [c| | |]; simpl; [|done..]. rewrite Z.add_0_l.
  replace (zlen a + e <? zlen a + nx_trailing_bytes_for_utf8 c + 1) with (e <? nx_trailing_bytes_for_utf8 c + 1)
    by (destruct (_ <? _) eqn:E; tests; symmetry; [apply Z.ltb_lt|apply Z.ltb_ge]; lia).
  case_test; [simpl; by rewrite Z.add_0_r|].
  rewrite is_valid_shift. destruct (nx_utf8_is_valid_char _ _ _) as [[]| | |]; simpl; try done;
    [|by rewrite Z.add_0_r].
  pose proof (decode_shift a l (Z.to_nat (nx_trailing_bytes_for_utf8 c)) 0 0 ltac:(lia)) as H1.
  rewrite Z.add_0_r in H1. rewrite H1. generalize (decode (Z.to_nat (nx_trailing_bytes_for_utf8 c)) l 0 0). intros []; [|reflexivity..]. cbn [mbind fmap outcome_bind outcome_fmap].
  case_test; simpl; by rewrite ?Z.add_0_r, Z.add_assoc.
Qed.

(** The tests of [nx_utf8_is_valid_char] as functions of the bytes. *)
Definition cont_byte (a : byte) : bool := negb ((bz a <? 0x80) || (0xBF <? bz a)).
Definition second_byte (c a : byte) : bool :=
  if 0xBF <? bz a then false
  else if bz c =? 0xE0 then negb (bz a <? 0xA0)
  else if bz c =? 0xED then negb (0x9F <? bz a)
  else if bz c =? 0xF0 then negb (bz a <? 0x90)
  else if bz c =? 0xF4 then negb (0x8F <? bz a)
  else negb (bz a <? 0x80).
Definition first_byte (c : byte) : bool :=
  negb ((0x80 <=? bz c) && (bz c <? 0xC2)) && negb (0xF4 <? bz c).

Lemma load_0 c l : load (c :: l) 0 = Ret c.
Proof. by apply (load_at _ _ [] c l). Qed.
Lemma load_1 c d l : load (c :: d :: l) 1 = Ret d.
Proof. by apply (load_at _ _ [c] d l). Qed.
Lemma load_2 c d e l : load (c :: d :: e :: l) 2 = Ret e.
Proof. by apply (load_at _ _ [c; d] e l). Qed.
Lemma load_3 c d e f l : load (c :: d :: e :: f :: l) 3 = Ret f.
Proof. by apply (load_at _ _ [c; d; e] f l). Qed.

Ltac ev :=
  rewrite ?Z.add_0_l;
  repeat (rewrite ?load_0, ?load_1, ?load_2, ?load_3; cbn [mbind outcome_bind negb]).

Lemma valid1 c l : nx_utf8_is_valid_char (c :: l) 0 1 = Ret (first_byte c).
Proof. unfold nx_utf8_is_valid_char, first_ok. simpl. by ev. Qed.
Lemma valid2 c d l : nx_utf8_is_valid_char (c :: d :: l) 0 2 = Ret (second_byte c d && first_byte c).
Proof.
  unfold nx_utf8_is_valid_char, second_ok, first_ok.
  replace ((2 <? 1) || (4 <? 2)) with false by done.
  replace (2 =? 4) with false by done. replace (3 <=? 2) with false by done. replace (2 <=? 2) with true by done.
  ev. fold (second_byte c d) (first_byte c). by destruct (second_byte c d).
Qed.
Lemma valid3 c d f l : nx_utf8_is_valid_char (c :: d :: f :: l) 0 3 =
  Ret (cont_byte f && (second_byte c d && first_byte c)).
Proof.
  unfold nx_utf8_is_valid_char, continuation_ok, second_ok, first_ok.
  replace ((3 <? 1) || (4 <? 3)) with false by done.
  replace (3 =? 4) with false by done. replace (3 <=? 3) with true by done. replace (2 <=? 3) with true by done.
  ev. fold (cont_byte f) (second_byte c d) (first_byte c).
  by destruct (cont_byte f), (second_byte c d).
Qed.
Lemma valid4 c d f g l : nx_utf8_is_valid_char (c :: d :: f :: g :: l) 0 4 =
  Ret (cont_byte g && (cont_byte f && (second_byte c d && first_byte c))).
Proof.
  unfold nx_utf8_is_valid_char, continuation_ok, second_ok, first_ok.
  replace ((4 <? 1) || (4 <? 4)) with false by done.
  replace (4 =? 4) with true by done. replace (3 <=? 4) with true by done. replace (2 <=? 4) with true by done.
  ev. fold (cont_byte f) (cont_byte g) (second_byte c d) (first_byte c).
  by destruct (cont_byte g), (cont_byte f), (second_byte c d).
Qed.
Lemma valid_long b n : 4 < n -> nx_utf8_is_valid_char b 0 n = Ret false.
Proof. intros H. unfold nx_utf8_is_valid_char. by rewrite (proj2 (Z.ltb_lt 4 n)), orb_true_r by done. Qed.

(** The code point of the first character, as the decoding computes it. *)
Lemma decode1 c l : decode 0 (c :: l) 0 0 = Ret (bz c).
Proof. rewrite (decode_last _ _ _ c); [done|apply load_0|lia]. Qed.
Lemma decode2 c d l : decode 1 (c :: d :: l) 0 0 = Ret (bz c * 64 + bz d).
Proof.
  bzr. rewrite (decode_step _ _ _ _ c), (decode_last _ _ _ d); [done|apply load_1|lia|apply load_0|lia].
Qed.
Lemma decode3 c d e l : decode 2 (c :: d :: e :: l) 0 0 = Ret ((bz c * 64 + bz d) * 64 + bz e).
Proof.
  bzr. rewrite (decode_step _ _ _ _ c), (decode_step _ _ _ _ d), (decode_last _ _ _ e);
    [done|apply load_2|lia|apply load_1|lia|apply load_0|lia].
Qed.
Lemma decode4 c d e f l :
  decode 3 (c :: d :: e :: f :: l) 0 0 = Ret (((bz c * 64 + bz d) * 64 + bz e) * 64 + bz f).
Proof.
  bzr. rewrite (decode_step _ _ _ _ c), (decode_step _ _ _ _ d), (decode_step _ _ _ _ e), (decode_last _ _ _ f);
    [done|apply load_3|lia|apply load_2|lia|apply load_1|lia|apply load_0|lia].
Qed.

Lemma inspected_bad c s e src msg :
  utf8 false (c :: s) = false -> (src = 0 /\ c <> x00) \/ 0 < src <= e ->
  inspected 0 e (c :: s) (Bad 0 src msg).
Proof. intros Hw Hs. simpl. split_and!; auto. destruct Hs as [[-> Hc]|]; [left|right]; auto. split; [done|congruence]. Qed.

(** The tests of a character of [n+1] bytes that is complete. *)
Lemma inspect_step c s r n v : 
  nx_trailing_bytes_for_utf8 c = n -> n <= zlen s ->
  (ok ← nx_utf8_is_valid_char (c :: s ++ x00 :: r) 0 (n + 1);
   if negb ok then Ret (Bad 0 0 "invalid utf-8 byte sequence at end of input at pos %lld")
   else chr ← decode (Z.to_nat n) (c :: s ++ x00 :: r) 0 0;
        if bad_char (u32 (chr - nx_offsets_from_utf8 n))
        then Ret (Bad 0 (n + 1) "invalid utf-8 byte sequence at pos %d")
        else Ret (Good (n + 1))) = Ret v ->
  inspect ((c :: s) ++ x00 :: r) 0 (zlen (c :: s)) = Ret v.
Proof.
  intros Hn Hs H. unfold inspect. change ((c :: s) ++ x00 :: r) with (c :: s ++ x00 :: r).
  rewrite load_0. cbn [mbind outcome_bind]. rewrite Hn, Z.add_0_l.
  by rewrite (proj2 (Z.ltb_ge _ _)) by lens.
Qed.

Lemma inspect_short c s r :
  zlen s < nx_trailing_bytes_for_utf8 c ->
  inspect ((c :: s) ++ x00 :: r) 0 (zlen (c :: s)) =
    Ret (Bad 0 0 "incomplete utf-8 byte sequence at end of input at pos %lld").
Proof.
  intros Hs. unfold inspect. change ((c :: s) ++ x00 :: r) with (c :: s ++ x00 :: r).
  rewrite load_0. cbn [mbind outcome_bind].
  by rewrite (proj2 (Z.ltb_lt _ _)) by lens.
Qed.

Lemma bad_lead c s : bz c >= 0x80 -> (bz c < 0xC2 \/ 0xF4 < bz c) -> utf8 false (c :: s) = false.
Proof. intros H1 H2. bzr. cbn [utf8]. unfold in_range. destruct H2; cmp; done. Qed.

Lemma not_nul c : bz c >= 0x80 -> c <> x00.
Proof. intros H ->. by apply H. Qed.

Lemma valid_bad_lead c s n : first_byte c = false -> 0 <= n <= zlen s ->
  nx_utf8_is_valid_char (c :: s) 0 (n + 1) = Ret false.
Proof.
  intros Hf Hn. destruct (decide (3 < n)); [apply valid_long; lia|].
  assert (n = 0 \/ n = 1 \/ n = 2 \/ n = 3) as [->|[->|[->| ->]]] by lia.
  - rewrite valid1. by rewrite Hf.
  - destruct s as [|d s]; [simpl in *; lia|]. rewrite valid2, Hf. by destruct (second_byte c d).
  - destruct s as [|d [|e s]]; [simpl in *; lia..|]. rewrite valid3, Hf. by destruct (second_byte c d), (cont_byte e).
  - destruct s as [|d [|e [|f s]]]; [simpl in *; lia..|]. rewrite valid4, Hf.
    by destruct (second_byte c d), (cont_byte e), (cont_byte f).
Qed.

Lemma inspect_bad_lead c s r : bz c >= 0x80 -> (bz c < 0xC2 \/ 0xF4 < bz c) ->
  exists v, inspect ((c :: s) ++ x00 :: r) 0 (zlen (c :: s)) = Ret v /\ inspected 0 (zlen (c :: s)) (c :: s) v.
Proof.
  intros H1 H2. destruct (Z.lt_ge_cases (zlen s) (nx_trailing_bytes_for_utf8 c)).
  - rewrite inspect_short by done. eexists; split; [done|].
    apply inspected_bad; [by apply bad_lead|left; auto using not_nul].
  - exists (Bad 0 0 "invalid utf-8 byte sequence at end of input at pos %lld"). split.
    + eapply inspect_step; [done|done|]. rewrite valid_bad_lead; [done| |].
      * unfold first_byte. bzr. destruct H2; [cmp; done|]. by rewrite (proj2 (Z.ltb_lt 0xF4 _)), andb_false_r.
      * unfold nx_trailing_bytes_for_utf8 in *. lens.
    + apply inspected_bad; [by apply bad_lead|left; auto using not_nul].
Qed.

(** A [Good] verdict for a character of the bytes [k]. *)
Lemma inspected_good k t e : k <> [] -> (forall u, utf8 false (k ++ u) = utf8 false u) ->
  inspected 0 e (k ++ t) (Good (zlen k)).
Proof. intros Hk Hu. exists k, t. auto. Qed.

(** A rejected character. *)
Lemma inspect_invalid c s r n :
  nx_trailing_bytes_for_utf8 c = n -> n <= zlen s -> bz c >= 0x80 ->
  nx_utf8_is_valid_char (c :: s ++ x00 :: r) 0 (n + 1) = Ret false -> utf8 false (c :: s) = false ->
  exists v, inspect ((c :: s) ++ x00 :: r) 0 (zlen (c :: s)) = Ret v /\ inspected 0 (zlen (c :: s)) (c :: s) v.
Proof.
  intros Hn Hs Hc Hv Hw. exists (Bad 0 0 "invalid utf-8 byte sequence at end of input at pos %lld"). split.
  - eapply inspect_step; [exact Hn|done|]. by rewrite Hv.
  - apply inspected_bad; [done|left; split; [done|by apply not_nul]].
Qed.

Lemma inspect_incomplete c s r :
  zlen s < nx_trailing_bytes_for_utf8 c -> bz c >= 0x80 -> utf8 false (c :: s) = false ->
  exists v, inspect ((c :: s) ++ x00 :: r) 0 (zlen (c :: s)) = Ret v /\ inspected 0 (zlen (c :: s)) (c :: s) v.
Proof.
  intros Hs Hc Hw. rewrite inspect_short by done. eexists; split; [done|].
  apply inspected_bad; [done|left; split; [done|by apply not_nul]].
Qed.

(** An accepted character [k] with code point [chr]. *)
Lemma inspect_valid c k s r n chr :
  nx_trailing_bytes_for_utf8 c = n -> n = zlen k ->
  nx_utf8_is_valid_char (c :: k ++ s ++ x00 :: r) 0 (n + 1) = Ret true ->
  decode (Z.to_nat n) (c :: k ++ s ++ x00 :: r) 0 0 = Ret chr ->
  bad_char (u32 (chr - nx_offsets_from_utf8 n)) = false ->
  (forall u, utf8 false (c :: k ++ u) = utf8 false u) ->
  exists v, inspect ((c :: k ++ s) ++ x00 :: r) 0 (zlen (c :: k ++ s)) = Ret v /\
    inspected 0 (zlen (c :: k ++ s)) (c :: k ++ s) v.
Proof.
  intros Hn Hk Hv Hd Hb Hw. exists (Good (n + 1)). split.
  - eapply inspect_step; [exact Hn|lens|]. rewrite <- app_assoc, Hv. cbn [mbind outcome_bind negb].
    by rewrite Hd; cbn [mbind outcome_bind]; rewrite Hb.
  - replace (n + 1) with (zlen (c :: k)) by (simpl; lia). by apply (inspected_good (c :: k) s).
Qed.

Lemma inspect_ascii c s r : bz c < 0x80 ->
  exists v, inspect ((c :: s) ++ x00 :: r) 0 (zlen (c :: s)) = Ret v /\ inspected 0 (zlen (c :: s)) (c :: s) v.
Proof.
  intros H. bzr. pose proof (trailing_ranges c) as Ht. revert Ht. cmp. intros Ht.
  apply (inspect_valid c [] s r 0 (bz c)); auto.
  - rewrite valid1. unfold first_byte. by cmp.
  - apply decode1.
  - change (nx_offsets_from_utf8 0) with 0. rewrite u32_small by lia.
    unfold bad_char, NX_UNICODE_LAST_CHAR. by cmp.
  - intros u. simpl. by cmp.
Qed.

Lemma inspect_two c s r : 0xC2 <= bz c < 0xE0 ->
  exists v, inspect ((c :: s) ++ x00 :: r) 0 (zlen (c :: s)) = Ret v /\ inspected 0 (zlen (c :: s)) (c :: s) v.
Proof.
  intros H. pose proof (trailing_ranges c) as Ht. revert Ht. cmp. intros Ht. destruct s as [|d s].
  { apply inspect_incomplete; [simpl; lia|lia|simpl; unfold in_range; by cmp]. }
  pose proof (bz_range d) as Hd.
  assert (forall u, utf8 false (c :: d :: u) = tail d && utf8 false u) as Hw
    by (intros u; simpl; unfold in_range; cmp; done).
  assert (second_byte c d && first_byte c = tail d) as Hv.
  { unfold second_byte, first_byte, tail, in_range. cmp.
    destruct (Z.ltb_spec 0xBF (bz d)), (Z.ltb_spec (bz d) 0x80); cmp; done || lia. }
  destruct (tail d) eqn:Etd.
  - apply (inspect_valid c [d] s r 1 (bz c * 64 + bz d)); auto.
    + change (1 + 1) with 2. simpl app. by rewrite valid2, Hv.
    + apply decode2.
    + unfold tail, in_range in Etd. tests. change (nx_offsets_from_utf8 1) with 0x3080.
      rewrite u32_small by lia. unfold bad_char, NX_UNICODE_LAST_CHAR. by cmp.
  - apply (inspect_invalid c (d :: s) r 1); [done|simpl; lia|lia| |by rewrite Hw].
    change (1 + 1) with 2. simpl app. by rewrite valid2, Hv.
Qed.

(** The noncharacters U+FFFE and U+FFFF are rejected after decoding. *)
Lemma inspect_nonchar c d e s r chr :
  nx_trailing_bytes_for_utf8 c = 2 ->
  nx_utf8_is_valid_char (c :: d :: e :: s ++ x00 :: r) 0 3 = Ret true ->
  decode 2 (c :: d :: e :: s ++ x00 :: r) 0 0 = Ret chr ->
  bad_char (u32 (chr - nx_offsets_from_utf8 2)) = true -> utf8 false (c :: d :: e :: s) = false ->
  exists v, inspect ((c :: d :: e :: s) ++ x00 :: r) 0 (zlen (c :: d :: e :: s)) = Ret v /\
    inspected 0 (zlen (c :: d :: e :: s)) (c :: d :: e :: s) v.
Proof.
  intros Hn Hv Hd Hb Hw. exists (Bad 0 3 "invalid utf-8 byte sequence at pos %d"). split.
  - apply (inspect_step c (d :: e :: s) r 2); [exact Hn|simpl; lia|].
    change (2 + 1) with 3. simpl app. rewrite Hv. cbn [mbind outcome_bind negb].
    change (Z.to_nat 2) with 2%nat. rewrite Hd. cbn [mbind outcome_bind]. by rewrite Hb.
  - apply inspected_bad; [done|right; simpl; lia].
Qed.

Definition ok3 (c d e : byte) : bool :=
  (if bz c =? 0xE0 then in_range 0xA0 0xBF d
   else if bz c =? 0xED then in_range 0 0x9F d else tail d) && tail e.
Definition non3 (c d e : byte) : bool := (bz c =? 0xEF) && (bz d =? 0xBF) && (0xBE <=? bz e).

Lemma valid3_ok3 c d e : 0xE0 <= bz c < 0xF0 ->
  cont_byte e && (second_byte c d && first_byte c) = ok3 c d e.
Proof.
  intros H. bzr. unfold ok3, cont_byte, second_byte, first_byte, tail, in_range. cmp.
  destruct (Z.ltb_spec 0xBF (bz d)), (Z.ltb_spec (bz e) 0x80), (Z.ltb_spec 0xBF (bz e)),
    (Z.eqb_spec (bz c) 0xE0), (Z.eqb_spec (bz c) 0xED), (Z.ltb_spec (bz d) 0x80),
    (Z.ltb_spec (bz d) 0xA0), (Z.ltb_spec 0x9F (bz d)); cmp; done || lia.
Qed.

Lemma chr3_bad c d e : 0xE0 <= bz c < 0xF0 -> ok3 c d e = true ->
  bad_char (u32 ((bz c * 64 + bz d) * 64 + bz e - nx_offsets_from_utf8 2)) = non3 c d e.
Proof.
  intros H Hok. bzr. change (nx_offsets_from_utf8 2) with 0xE2080. unfold ok3, tail, in_range in Hok.
  unfold non3, bad_char, NX_UNICODE_LAST_CHAR.
  destruct (Z.eqb_spec (bz c) 0xE0), (Z.eqb_spec (bz c) 0xED); tests; try lia;
    rewrite u32_small by lia;
    destruct (Z.eqb_spec (bz c) 0xEF), (Z.eqb_spec (bz d) 0xBF), (Z.leb_spec 0xBE (bz e)); try lia; cmp; try done.
  all: try (destruct (Z.lt_ge_cases (bz c) 0xED); cmp; done).
  assert (bz e = 0xBE \/ bz e = 0xBF) as [E|E] by lia; cmp; done.
Qed.

Lemma in_range_true lo hi c : lo <= bz c <= hi -> in_range lo hi c = true.
Proof. intros H. unfold in_range. by cmp. Qed.
Lemma in_range_false lo hi c : bz c < lo \/ hi < bz c -> in_range lo hi c = false.
Proof. intros H. unfold in_range. apply andb_false_iff. destruct H; [left|right]; by cmp. Qed.

Lemma inspect_three c s r : 0xE0 <= bz c < 0xF0 ->
  exists v, inspect ((c :: s) ++ x00 :: r) 0 (zlen (c :: s)) = Ret v /\ inspected 0 (zlen (c :: s)) (c :: s) v.
Proof.
  intros H. pose proof (trailing_ranges c) as Ht. revert Ht. cmp. intros Ht. destruct s as [|d [|e s]].
  1,2: apply inspect_incomplete; [simpl; lia|lia|simpl; unfold in_range; by cmp].
  assert (forall u, utf8 false (c :: d :: e :: u) = ok3 c d e && negb (non3 c d e) && utf8 false u) as Hw
    by (intros u; cbn [utf8]; rewrite (proj2 (Z.ltb_ge (bz c) 0x80)), (in_range_false 0xC2),
      (in_range_true 0xE0) by lia; done).
  pose proof (valid3_ok3 c d e H) as Hv. destruct (ok3 c d e) eqn:Eok.
  2:{ apply (inspect_invalid c (d :: e :: s) r 2); [done|simpl; lia|lia| |by rewrite Hw].
      change (2 + 1) with 3. simpl app. by rewrite valid3, Hv. }
  pose proof (chr3_bad c d e H Eok) as Hb. destruct (non3 c d e).
  - eapply inspect_nonchar; [done|by rewrite valid3, Hv|apply decode3|done|by rewrite Hw].
  - apply (inspect_valid c [d; e] s r 2 ((bz c * 64 + bz d) * 64 + bz e)); auto.
    + change (2 + 1) with 3. simpl app. by rewrite valid3, Hv.
    + apply decode3.
Qed.

Definition ok4 (c d e f : byte) : bool :=
  (if bz c =? 0xF0 then in_range 0x90 0xBF d
   else if bz c =? 0xF4 then in_range 0 0x8F d else tail d) && tail e && tail f.

Lemma valid4_ok4 c d e f : 0xF0 <= bz c <= 0xF4 ->
  cont_byte f && (cont_byte e && (second_byte c d && first_byte c)) = ok4 c d e f.
Proof.
  intros H. bzr. unfold ok4, cont_byte, second_byte, first_byte, tail, in_range. cmp.
  destruct (Z.ltb_spec 0xBF (bz d)), (Z.ltb_spec (bz e) 0x80), (Z.ltb_spec 0xBF (bz e)),
    (Z.ltb_spec (bz f) 0x80), (Z.ltb_spec 0xBF (bz f)); try lia;
  destruct (Z.eqb_spec (bz c) 0xF0), (Z.eqb_spec (bz c) 0xF4), (Z.ltb_spec (bz d) 0x80),
    (Z.ltb_spec (bz d) 0x90), (Z.ltb_spec 0x8F (bz d)); try lia; cmp; done.
Qed.

Lemma inspect_four c s r : 0xF0 <= bz c <= 0xF4 ->
  exists v, inspect ((c :: s) ++ x00 :: r) 0 (zlen (c :: s)) = Ret v /\ inspected 0 (zlen (c :: s)) (c :: s) v.
Proof.
  intros H. pose proof (trailing_ranges c) as Ht. revert Ht. cmp. intros Ht. destruct s as [|d [|e [|f s]]].
  1,2,3: apply inspect_incomplete; [simpl; lia|lia|simpl; unfold in_range; by cmp].
  assert (forall u, utf8 false (c :: d :: e :: f :: u) = ok4 c d e f && utf8 false u) as Hw
    by (intros u; cbn [utf8]; rewrite (proj2 (Z.ltb_ge (bz c) 0x80)), (in_range_false 0xC2),
      (in_range_false 0xE0), (in_range_true 0xF0) by lia; done).
  pose proof (valid4_ok4 c d e f H) as Hv. destruct (ok4 c d e f) eqn:Eok.
  2:{ apply (inspect_invalid c (d :: e :: f :: s) r 3); [done|simpl; lia|lia| |by rewrite Hw].
      change (3 + 1) with 4. simpl app. by rewrite valid4, Hv. }
  apply (inspect_valid c [d; e; f] s r 3 (((bz c * 64 + bz d) * 64 + bz e) * 64 + bz f)); auto.
  - change (3 + 1) with 4. simpl app. by rewrite valid4, Hv.
  - apply decode4.
  - change (nx_offsets_from_utf8 3) with 0x3C82080. unfold ok4, tail, in_range in Eok. bzr.
    destruct (Z.eqb_spec (bz c) 0xF0), (Z.eqb_spec (bz c) 0xF4); tests; try lia;
      rewrite u32_small by lia; unfold bad_char, NX_UNICODE_LAST_CHAR; by cmp.
Qed.

Lemma inspect_first c s r :
  exists v, inspect ((c :: s) ++ x00 :: r) 0 (zlen (c :: s)) = Ret v /\ inspected 0 (zlen (c :: s)) (c :: s) v.
Proof.
  destruct (Z.lt_ge_cases (bz c) 0x80); [by apply inspect_ascii|].
  destruct (Z.lt_ge_cases (bz c) 0xC2); [apply inspect_bad_lead; lia|].
  destruct (Z.lt_ge_cases 0xF4 (bz c)); [apply inspect_bad_lead; lia|].
  destruct (Z.lt_ge_cases (bz c) 0xE0); [apply inspect_two; lia|].
  destruct (Z.lt_ge_cases (bz c) 0xF0); [apply inspect_three; lia|apply inspect_four; lia].
Qed.

(** ** The validation loop *)

Lemma inspect_at a c s r :
  exists v, inspect (a ++ (c :: s) ++ x00 :: r) (zlen a) (zlen a + zlen (c :: s)) = Ret v /\
    inspected (zlen a) (zlen a + zlen (c :: s)) (c :: s) v.
Proof.
  destruct (inspect_first c s r) as (v & E & H). exists (shift_verdict (zlen a) v).
  rewrite inspect_shift, E. split; [done|]. destruct v as [q|dst src msg]; simpl in *.
  - destruct H as (k & t & -> & Hk & -> & Hu). exists k, t. auto.
  - destruct H as (-> & Hw & Hs). split_and!; [lia|done|]. destruct Hs as [[-> ?]|?]; [left|right]; [split; [lia|done]|lia].
Qed.

Lemma skip_continuation_ok fuel b p e :
  0 <= p <= e -> e <= zlen b -> (Z.to_nat (e - p) <= fuel)%nat ->
  exists q, skip_continuation fuel b p e = Ret q /\ p <= q <= e.
Proof.
  revert p. induction fuel as [|fuel IH]; intros p Hp He Hf; simpl.
  - exists p. split; [done|lia].
  - case_test; [|exists p; split; [done|lia]].
    rewrite <- (take_drop (Z.to_nat p) b). set (l := take _ b).
    assert (zlen l = p) as Hl by (unfold l; rewrite length_take; lia).
    destruct (drop (Z.to_nat p) b) as [|c t] eqn:Ed.
    { apply (f_equal length) in Ed. rewrite length_drop in Ed. simpl in Ed. lia. }
    rewrite (load_at _ p l c t) by auto. simpl.
    replace (l ++ c :: t) with b by (unfold l; by rewrite <- Ed, take_drop).
    case_test; [|exists p; split; [done|lia]].
    destruct (IH (p + 1)) as (q & E & Hq); [lia..|]. exists q. split; [done|lia].
Qed.

(** Repairing overwrites from [dst] to a position after it. *)
Lemma repair_ok a s r src :
  s <> [] -> (src = zlen a /\ s !! 0%nat <> Some x00) \/ zlen a < src <= zlen a + zlen s ->
  exists (m : nat) n, repair (a ++ s ++ x00 :: r) (zlen a) src (zlen a + zlen s) =
    Ret (a ++ (replicate m "?"%byte ++ drop m s) ++ x00 :: r, n) /\
    (0 < m <= length s)%nat /\
    n = (if bool_decide (m = length s) then None else Some (zlen a + Z.of_nat m)).
Proof.
  intros Hs Hsrc. unfold repair, nx_utf8_find_next_char.
  assert (exists q, (c ← load (a ++ s ++ x00 :: r) src;
    p ← (if c =c x00 then Ret src else skip_continuation (length (a ++ s ++ x00 :: r)) (a ++ s ++ x00 :: r) (src + 1) (zlen a + zlen s));
    Ret (if p =? zlen a + zlen s then None else Some p)) =
    Ret (if q =? zlen a + zlen s then None else Some q) /\ zlen a < q <= zlen a + zlen s) as (q & E & Hq).
  { pose proof (load_suffix a (s ++ x00 :: r) (src - zlen a) ltac:(lia)) as HL.
    replace (zlen a + (src - zlen a)) with src in HL by lia. rewrite HL. clear HL.
    destruct ((s ++ x00 :: r) !! Z.to_nat (src - zlen a)) as [c|] eqn:Ec.
    2:{ apply lookup_ge_None in Ec. lens. }
    simpl. destruct (c =c x00) eqn:E0; tests.
    - exists src. split; [done|]. destruct Hsrc as [[-> Hn]|]; [|lia].
      rewrite Z.sub_diag in Ec. destruct s as [|c' s]; [done|]. simpl in *. congruence.
    - destruct (Z.eq_dec src (zlen a + zlen s)) as [->|].
      { rewrite lookup_app_r in Ec by lia. replace (_ - _)%nat with 0%nat in Ec by lia. simpl in Ec. congruence. }
      destruct (skip_continuation_ok (length (a ++ s ++ x00 :: r)) (a ++ s ++ x00 :: r) (src + 1) (zlen a + zlen s))
        as (q & E & Hq); [lens..|]. rewrite E. exists q. split; [done|lia]. }
  rewrite E. cbn [mbind outcome_bind]. clear E.
  replace (default _ _) with q by (destruct (q =? _) eqn:E; tests; simpl; lia).
  exists (Z.to_nat (q - zlen a)). eexists.
  rewrite (mem_write_at' _ _ a (s ++ x00 :: r)) by (rewrite ?length_replicate; auto; lens).
  cbn [mbind outcome_bind]. split; [|split; [lia|done]].
  rewrite length_replicate, drop_app_le by lia. rewrite <- !app_assoc. do 2 f_equal.
  case_bool_decide; destruct (q =? _) eqn:E; tests; try lia; [done|]. f_equal. lia.
Qed.

Lemma utf8_question m u : utf8 false (replicate m "?"%byte ++ u) = utf8 false u.
Proof. induction m as [|m IH]; simpl; [done|]. by rewrite IH. Qed.

(** The loop without repair decides the language. *)
Lemma validate_check fuel throw a s r valid :
  (length s <= fuel)%nat ->
  exists msg, validate_loop fuel false throw (a ++ s ++ x00 :: r) (zlen a) (zlen a + zlen s) valid =
    if utf8 false s then Ret (a ++ s ++ x00 :: r, valid)
    else if throw then Throw msg else Ret (a ++ s ++ x00 :: r, false).
Proof.
  revert a s. induction fuel as [|fuel IH]; intros a s Hf; destruct s as [|c s]; simpl in Hf; try lia.
  1,2: exists ""%string; simpl; rewrite Z.add_0_r, Z.ltb_irrefl; done.
  cbn [validate_loop]. rewrite (proj2 (Z.ltb_lt _ _)) by lens.
  destruct (inspect_at a c s r) as (v & E & H). rewrite E. cbn [mbind outcome_bind].
  destruct v as [q|dst src msg].
  - destruct H as (k & t & Hk & Hne & -> & Hu). rewrite Hk, Hu.
    destruct (IH (a ++ k) t) as (msg & E').
    { destruct k; [done|]. apply (f_equal length) in Hk. lens. }
    exists msg. rewrite <- !app_assoc in *. rewrite length_app in E' |- *.
    rewrite !Nat2Z.inj_add, Z.add_assoc in *. done.
  - destruct H as (_ & -> & _). exists msg. by destruct throw.
Qed.

(** The loop with repair always returns, and leaves a valid string. *)
Lemma validate_fix fuel a s r valid :
  (length s <= fuel)%nat ->
  exists s', validate_loop fuel true false (a ++ s ++ x00 :: r) (zlen a) (zlen a + zlen s) valid =
      Ret (a ++ s' ++ x00 :: r, valid && utf8 false s) /\
    length s' = length s /\ utf8 false s' = true /\ (utf8 false s = true -> s' = s).
Proof.
  revert a s valid. induction fuel as [|fuel IH]; intros a s valid Hf; destruct s as [|c s]; simpl in Hf; try lia.
  1,2: exists []; simpl; rewrite Z.add_0_r, Z.ltb_irrefl, andb_true_r; done.
  cbn [validate_loop]. rewrite (proj2 (Z.ltb_lt _ _)) by lens.
  destruct (inspect_at a c s r) as (v & E & H). rewrite E. cbn [mbind outcome_bind].
  destruct v as [q|dst src msg].
  - destruct H as (k & t & Hk & Hne & -> & Hu). rewrite Hk, Hu.
    destruct (IH (a ++ k) t valid) as (t' & E' & L & W & Q).
    { destruct k; [done|]. apply (f_equal length) in Hk. lens. }
    exists (k ++ t'). rewrite <- !app_assoc in *. rewrite length_app, Nat2Z.inj_add in E'.
    rewrite (length_app k), Nat2Z.inj_add, Z.add_assoc, E'. rewrite !length_app, Hu.
    split_and!; [done|lia|done|]. intros Ht. by rewrite Q.
  - destruct H as (-> & Hw & Hs).
    destruct (repair_ok a (c :: s) r src) as (m & n & E' & Hm & ->); [done|done|]. rewrite E'.
    cbn [mbind outcome_bind fst snd]. rewrite Hw, andb_false_r. case_bool_decide as Hml.
    + exists (replicate m "?"%byte ++ drop m (c :: s)). split; [done|].
      rewrite utf8_question, drop_ge by lia. split_and!; [|done|done].
      rewrite length_app, length_replicate. simpl in *. lia.
    + destruct (IH (a ++ replicate m "?"%byte) (drop m (c :: s)) false) as (t' & E2 & L & W & _); [lens|].
      exists (replicate m "?"%byte ++ t').
      rewrite <- !app_assoc in *. rewrite length_app, length_replicate in E2.
      rewrite !Nat2Z.inj_add, length_drop in E2.
      replace (zlen a + Z.of_nat m + Z.of_nat (length (c :: s) - m)) with (zlen a + zlen (c :: s)) in E2 by lia.
      rewrite E2, utf8_question, length_app, length_replicate, L, length_drop.
      split_and!; [done|lia|done|done].
Qed.

(** ** The two languages *)

Lemma utf8_strict_lenient s : utf8 true s = true -> utf8 false s = true.
Proof.
  assert (forall n s, (length s <= n)%nat -> utf8 true s = true -> utf8 false s = true) as H; [|eauto].
  clear s. induction n as [|n IH]; intros s Hn; destruct s as [|a s]; simpl in Hn; [done|lia|done|].
  assert (forall u, (length u <= length s)%nat -> utf8 true u = true -> utf8 false u = true) as IH'
    by (intros u Hu; apply IH; lia).
  clear IH. cbn [utf8]. destruct (bz a <? 0x80); [by apply IH'|].
  destruct (in_range 0xC2 0xDF a).
  { destruct s as [|b s]; [done|]. intros [? ?]%andb_true_iff. apply andb_true_iff. split; [done|].
    apply IH'; simpl; auto with lia. }
  assert (forall hi b, in_range 0x80 hi b = true -> in_range 0 hi b = true) as Hlow.
  { intros hi b. unfold in_range. intros [? ?]%andb_true_iff. tests. apply andb_true_iff. split; apply Z.leb_le; lia. }
  destruct (in_range 0xE0 0xEF a).
  { destruct s as [|b [|c s]]; [done..|]. intros H. tests. rewrite !andb_true_iff. split_and!; auto.
    - destruct (bz a =? 0xE0), (bz a =? 0xED); auto.
    - by apply negb_true_iff.
    - apply IH'; simpl; auto with lia. }
  destruct (in_range 0xF0 0xF4 a); [|done].
  destruct s as [|b [|c [|d s]]]; [done..|]. intros H. tests. rewrite !andb_true_iff. split_and!; auto.
  - destruct (bz a =? 0xF0), (bz a =? 0xF4); auto.
  - apply IH'; simpl; auto with lia.
Qed.

(** ** The loop on a whole string *)

Lemma set_buf_eta s : set_buf (buf s) s = s.
Proof. by destruct s. Qed.

Lemma validate_check_str s c throw : str_rep s c ->
  exists msg, nx_string_validate_utf8 s false throw =
    if utf8 false c then Ret (s, true) else if throw then Throw msg else Ret (s, false).
Proof.
  intros (_ & (r & Hb) & _ & Hl & _). unfold nx_string_validate_utf8.
  destruct (validate_check (Z.to_nat (len s)) throw [] c r true) as (msg & E); [lia|].
  exists msg. change (zlen []) with 0 in E. rewrite Z.add_0_l in E. cbn [app] in E.
  rewrite <- Hb, <- Hl in E. rewrite E.
  destruct (utf8 false c), throw; simpl; by rewrite ?set_buf_eta.
Qed.

Lemma validate_fix_str s c : str_rep s c ->
  exists s' c', nx_string_validate_utf8 s true false = Ret (s', utf8 false c) /\
    str_rep s' c' /\ length c' = length c /\ utf8 false c' = true /\
    (utf8 false c = true -> c' = c /\ s' = s).
Proof.
  intros (Hc & (r & Hb) & Hz & Hl & Hw). unfold nx_string_validate_utf8.
  destruct (validate_fix (Z.to_nat (len s)) [] c r true) as (c' & E & L & W & Q); [lia|].
  change (zlen []) with 0 in E. rewrite Z.add_0_l in E. cbn [app andb] in E.
  rewrite <- Hb, <- Hl in E. rewrite E.
  exists (set_buf (c' ++ x00 :: r) s), c'. split_and!; [done| |done|done|].
  - repeat split; simpl; eauto; [rewrite <- Hz, Hb; lens|lia].
  - intros Hu. rewrite (Q Hu), <- Hb. by rewrite set_buf_eta.
Qed.

(** ** Properties *)

(** Without repair [nx_string_validate_utf8] never leaves the string's block
    and terminates; it leaves the string alone and decides the language
    [code_utf8], returning FALSE or, with [throw], throwing on other strings. *)
Theorem validate_utf8_decides s c throw :
  str_rep s c ->
  exists msg, nx_string_validate_utf8 s false throw =
    if code_utf8 c then Ret (s, true) else if throw then Throw msg else Ret (s, false).
Proof. apply validate_check_str. Qed.

Lemma validate_utf8_decides_witness :
  exists s, nx_string_create (M := poison_malloc) [xc3; xa9] 2 = Ret s /\
    exists msg, nx_string_validate_utf8 s false true =
      if code_utf8 [xc3; xa9] then Ret (s, true) else if true then Throw msg else Ret (s, false).
Proof.
  destruct (nx_string_create_rep (M := poison_malloc) [xc3; xa9] 2) as (s & E & R & _);
    [vm_compute; split; discriminate|vm_compute; discriminate|].
  exists s. split; [done|]. exact (validate_utf8_decides s [xc3; xa9] true R).
Defined.

(** C40: With repair, and without the option to throw, [nx_string_validate_utf8] always
    returns; the repaired string has the same length, is accepted by a second
    validation, and is the original one exactly when the original was
    accepted.  Accepted means by the code's own table of sequences ([code_utf8]), which
    takes a few that are no UTF-8: see [validate_utf8_gaps]. *)
Theorem validate_utf8_repairs s c :
  str_rep s c ->
  exists s' c', nx_string_validate_utf8 s true false = Ret (s', code_utf8 c) /\
    str_rep s' c' /\ length c' = length c /\
    (code_utf8 c = true <-> c' = c) /\
    nx_string_validate_utf8 s' false false = Ret (s', true).
Proof.
  intros Hs. destruct (validate_fix_str s c Hs) as (s' & c' & E & R & L & W & Q).
  exists s', c'. split_and!; [done..| |].
  - split; [intros Hu; apply Q, Hu|]. intros ->. exact W.
  - destruct (validate_check_str s' c' false R) as (msg & E'). by rewrite W in E'.
Qed.

Lemma validate_utf8_repairs_witness :
  exists s, nx_string_create (M := poison_malloc) (x41 :: [xff]) 2 = Ret s /\
  exists s' c', nx_string_validate_utf8 s true false = Ret (s', code_utf8 (x41 :: [xff])) /\
    str_rep s' c' /\ length c' = 2%nat /\
    (code_utf8 (x41 :: [xff]) = true <-> c' = x41 :: [xff]) /\
    nx_string_validate_utf8 s' false false = Ret (s', true).
Proof.
  destruct (nx_string_create_rep (M := poison_malloc) (x41 :: [xff]) 2) as (s & E & R & _);
    [vm_compute; split; discriminate|vm_compute; discriminate|].
  exists s. split; [done|]. exact (validate_utf8_repairs s (x41 :: [xff]) R).
Defined.

(** Every well-formed UTF-8 string without U+FFFE and U+FFFF is accepted and
    left unchanged, also when repair is asked for. *)
Theorem validate_utf8_accepts_wf s c needfix :
  str_rep s c -> wf_utf8 c = true ->
  nx_string_validate_utf8 s needfix false = Ret (s, true).
Proof.
  intros Hs Hw%utf8_strict_lenient. destruct needfix.
  - destruct (validate_fix_str s c Hs) as (s' & c' & E & _ & _ & _ & Q).
    destruct (Q Hw) as [_ ->]. by rewrite E, Hw.
  - destruct (validate_check_str s c false Hs) as (msg & E). by rewrite Hw in E.
Qed.

Lemma validate_utf8_accepts_wf_witness :
  exists s, nx_string_create (M := poison_malloc) [xe2; x82; xac] 3 = Ret s /\
    nx_string_validate_utf8 s true false = Ret (s, true).
Proof.
  destruct (nx_string_create_rep (M := poison_malloc) [xe2; x82; xac] 3) as (s & E & R & _);
    [vm_compute; split; discriminate|vm_compute; discriminate|].
  exists s. split; [done|]. apply (validate_utf8_accepts_wf s [xe2; x82; xac] true R). reflexivity.
Defined.

(** The second byte after ED (and F4) is not checked to be a continuation
    byte: the ill-formed ED 41 80 is accepted.  And the repair of U+FFFE also
    overwrites the character that follows it. *)
Theorem validate_utf8_gaps :
  (exists s, nx_string_create (M := poison_malloc) [xed; x41; x80] 3 = Ret s /\
     wf_utf8 [xed; x41; x80] = false /\
     nx_string_validate_utf8 s false false = Ret (s, true)) /\
  (exists s s', nx_string_create (M := poison_malloc) ([xef; xbf; xbe] ++ lit "abc") 6 = Ret s /\
     nx_string_validate_utf8 s true false = Ret (s', false) /\
     take 6 (buf s') = lit "????bc").
Proof.
  split; [eexists|do 2 eexists]; (split; [vm_compute; reflexivity|]); split; vm_compute; reflexivity.
Qed.

End Utf8.
