(* ===== verification/CLib.v ===== *)
(** * The C library functions the program uses on text

    Characters of the C locale, integers printed and scanned by [printf] and
    [sscanf], and indexing of C strings. *)

From S2P Require Import Prelude Str.
Import Str.

Module CLib.

(** ** Characters and integers *)

(** [printf("%lld")]: decimal digits of a non-negative number, most significant
    first.  A 64-bit number has at most 20 digits. *)
Fixpoint digits_aux (fuel : nat) (n : Z) (acc : bytes) : bytes :=
  match fuel with
  | O => acc
  | S fuel =>
      let acc := zb (48 + n mod 10) :: acc in
      if n <? 10 then acc else digits_aux fuel (n / 10) acc
  end.

Definition print_nat (n : Z) : bytes := digits_aux 20 n [].
Definition print_int (z : Z) : bytes :=
  if z <? 0 then "-"%byte :: print_nat (- z) else print_nat z.

(** Character classes of the C locale. *)
Definition isdigit (c : byte) : bool := (48 <=? bz c) && (bz c <=? 57).
Definition isspace (c : byte) : bool := (bz c =? 32) || ((9 <=? bz c) && (bz c <=? 13)).
Definition toupper (c : byte) : byte :=
  if (97 <=? bz c) && (bz c <=? 122) then zb (bz c - 32) else c.

(** The digits at the front of a string, in a base. *)
Fixpoint scan_digits (base : Z) (s : bytes) (acc : Z) (any : bool) : Z * bool :=
  match s with
  | c :: s' =>
      if isxdigit c && (hexval c <? base) then scan_digits base s' (acc * base + hexval c) true
      else (acc, any)
  | [] => (acc, any)
  end.

Fixpoint skip_space (s : bytes) : bytes :=
  match s with c :: s' => if isspace c then skip_space s' else s | [] => [] end.

(** A sign in front of a number. *)
Definition scan_sign (s : bytes) : bool * bytes :=
  match s with
  | c :: s' => if c =c "-" then (true, s') else if c =c "+" then (false, s') else (false, s)
  | [] => (false, [])
  end.

Definition LONG_MAX : Z := 2 ^ 63 - 1.
Definition s64 (z : Z) : Z := (z + 2 ^ 63) mod 2 ^ 64 - 2 ^ 63.

(** [sscanf(s, "%ld", &val)]: the conversion of [strtol] in base 10, saturating;
    [None] when no number was matched. *)
Definition scanf_ld (s : bytes) : option Z :=
  let '(neg, s) := scan_sign (skip_space s) in
  match scan_digits 10 s 0 false with
  | (_, false) => None
  | (n, true) =>
      Some (if neg then Z.max (- LONG_MAX - 1) (- n) else Z.min LONG_MAX n)
  end.

(** [sscanf(s, "%lx", &val)]: [strtoul] in base 16 with an optional [0x] before
    a digit, saturating at [ULONG_MAX], stored in a signed [long]. *)
Definition skip_0x (s : bytes) : bytes :=
  match s with
  | z :: x :: s' =>
      if (z =c "0") && ((x =c "x") || (x =c "X")) && match s' with c :: _ => isxdigit c | [] => false end
      then s' else s
  | _ => s
  end.

Definition scanf_lx (s : bytes) : option Z :=
  let '(neg, s) := scan_sign (skip_space s) in
  match scan_digits 16 (skip_0x s) 0 false with
  | (_, false) => None
  | (n, true) =>
      let n := Z.min (2 ^ 64 - 1) n in
      Some (s64 (if neg then - n else n))
  end.

(** A multiplication in [long]: overflow is undefined. *)
Definition mul_long (a b : Z) : outcome Z :=
  if (- 2 ^ 63 <=? a * b) && (a * b <? 2 ^ 63) then Ret (a * b) else Undef "signed overflow".

(** [string[k]] of a C string with [k] possibly the position of the NUL. *)
Definition cchar (s : bytes) (k : Z) : outcome byte :=
  if (0 <=? k) && (k <? zlen s) then deref (s !! Z.to_nat k) "char"
  else if k =? zlen s then Ret x00 else Undef "character outside the string".

(** ** Decimal numbers *)

(** [ds] is a numeral of value [n]. *)
Definition numeral (ds : bytes) (n : Z) : Prop :=
  ds <> [] /\ Forall (fun c => isdigit c = true) ds /\
  forall a any rest, scan_digits 10 (ds ++ rest) a any = scan_digits 10 rest (a * 10 ^ zlen ds + n) true.

Lemma digit_byte d : 0 <= d < 10 ->
  isdigit (zb (48 + d)) = true /\ isxdigit (zb (48 + d)) = true /\ hexval (zb (48 + d)) = d.
Proof.
  intros H. unfold isdigit, isxdigit, hexval. rewrite !bz_zb, Z.mod_small by lia.
  rewrite !(proj2 (Z.leb_le _ _)) by lia. simpl. split_and!; [done..|lia].
Qed.

Lemma scan_digit d rest a any : 0 <= d < 10 ->
  scan_digits 10 (zb (48 + d) :: rest) a any = scan_digits 10 rest (a * 10 + d) true.
Proof.
  intros H. destruct (digit_byte d H) as (_ & Hx & Hv). cbn [scan_digits]. rewrite Hx, Hv.
  by rewrite (proj2 (Z.ltb_lt _ _)) by lia.
Qed.

Lemma digits_aux_numeral fuel n acc :
  (0 < fuel)%nat -> 0 <= n < 10 ^ Z.of_nat fuel ->
  exists ds, digits_aux fuel n acc = ds ++ acc /\ numeral ds n /\ (length ds <= fuel)%nat.
Proof.
  revert n acc. induction fuel as [|fuel IH]; intros n acc Hf Hn; [lia|]. simpl.
  pose proof (Z.mod_pos_bound n 10 ltac:(lia)) as Hm.
  destruct (digit_byte (n mod 10) Hm) as (Hd & _).
  destruct (n <? 10) eqn:E; tests.
  - exists [zb (48 + n mod 10)]. split_and!; [done| |simpl; lia]. split_and!; [done|by constructor|].
    intros a any rest. simpl app. rewrite scan_digit by done. rewrite Z.mod_small by lia. done.
  - destruct fuel as [|fuel]; [change (10 ^ Z.of_nat 1) with 10 in Hn; lia|].
    destruct (IH (n / 10) (zb (48 + n mod 10) :: acc)) as (ds & Eq & (Hne & Hall & Hs) & Hl); [lia| |].
    { split; [apply Z.div_pos; lia|]. apply Z.div_lt_upper_bound; [lia|].
      rewrite (Nat2Z.inj_succ (S fuel)), Z.pow_succ_r in Hn by lia. lia. }
    exists (ds ++ [zb (48 + n mod 10)]). split_and!; [by rewrite Eq, <- app_assoc| |lens].
    split_and!; [by destruct ds|apply Forall_app; auto|].
    intros a any rest. rewrite <- app_assoc, Hs. simpl app. rewrite scan_digit by done.
    f_equal. rewrite length_app, Nat2Z.inj_add, Z.pow_add_r by lia. simpl (10 ^ zlen [_]).
    rewrite (Z.div_mod n 10) at 3 by lia. lia.
Qed.

Lemma print_nat_numeral n : 0 <= n < 10 ^ 20 -> numeral (print_nat n) n /\ (length (print_nat n) <= 20)%nat.
Proof.
  intros Hn. destruct (digits_aux_numeral 20 n []) as (ds & E & H & Hl); [lia|done|].
  rewrite app_nil_r in E. unfold print_nat. by rewrite E.
Qed.

Lemma numeral_scan ds n : numeral ds n -> scan_digits 10 ds 0 false = (n, true).
Proof. intros (_ & _ & H). specialize (H 0 false []). rewrite app_nil_r in H. by rewrite H. Qed.

Lemma isdigit_facts c : isdigit c = true ->
  isspace c = false /\ isxdigit c = true /\ c <> "-"%byte /\ c <> "+"%byte /\ c <> "."%byte /\
  c <> x00 /\ tolower c <> "x"%byte.
Proof. destruct c; try discriminate; intros _; split_and!; (reflexivity || discriminate). Qed.

Lemma numeral_head ds n : numeral ds n -> exists c t, ds = c :: t /\ isdigit c = true.
Proof. intros (Hne & Hall & _). destruct Hall as [|c t Hc]; [done|eauto]. Qed.

Lemma numeral_last ds n : numeral ds n -> exists t c, ds = t ++ [c] /\ isdigit c = true.
Proof.
  intros (Hne & Hall & _). destruct ds as [|c t _] using rev_ind; [done|].
  apply Forall_app in Hall as [_ Hc]. inversion Hc; subst. eauto.
Qed.

Lemma scanf_ld_numeral ds n : numeral ds n -> scanf_ld ds = Some (Z.min LONG_MAX n).
Proof.
  intros H. destruct (numeral_head _ _ H) as (c & t & -> & Hc).
  destruct (isdigit_facts c Hc) as (Hs & _ & Hm & Hp & _). unfold scanf_ld. simpl skip_space. rewrite Hs.
  unfold scan_sign. rewrite (proj2 (beq_false c _)), (proj2 (beq_false c _)) by done.
  by rewrite (numeral_scan _ _ H).
Qed.

Lemma numeral_no_0x p ds n :
  numeral ds n -> strcasecmp_eq (take 2 (drop (length p) (p ++ ds))) (lit "0X") = false.
Proof.
  intros (_ & Hall & _). rewrite drop_app_length. apply strcasecmp_eq_false.
  destruct Hall as [|c t Hc [|d u Hd Hall]]; simpl; [done|done|].
  destruct (isdigit_facts d Hd) as (_ & _ & _ & _ & _ & _ & Hx). intros [= _ Hx']; by apply Hx.
Qed.

Lemma cchar_at p c r : cchar (p ++ c :: r) (zlen p) = Ret c.
Proof.
  unfold cchar. rewrite (proj2 (Z.leb_le _ _)), (proj2 (Z.ltb_lt _ _)) by lens. simpl.
  by rewrite Nat2Z.id, list_lookup_middle.
Qed.

Lemma cchar_end s : cchar s (zlen s) = Ret x00.
Proof. unfold cchar. by rewrite Z.ltb_irrefl, andb_false_r, Z.eqb_refl. Qed.

End CLib.
