(* ===== verification/Date.v ===== *)
(** * Dates (common/date.c)

    The parsers of the date formats found in logs and the functions that print
    dates.  A date is a C string; its characters are read one by one, and a read
    behind the terminator is undefined.  The calendar is not part of the program:
    [mktime] of the C library and the time functions of APR are the class
    [TimeEnv]; an error status of theirs is [None].  The argument [dateend] is NULL, or points
    to a pointer that may be NULL.  An integer that is used before it is set has the
    value [stack_int].  The sources are configured
    with [HAVE_STRUCT_TM_TM_GMTOFF] (common/config.h). *)

From S2P Require Import Prelude Str CLib.
Import Str CLib.

(** [struct tm]: the members the code sets ([tm_gmtoff] not always). *)
Record tm := Tm {
  tm_year : Z; tm_mon : Z; tm_mday : Z; tm_hour : Z; tm_min : Z; tm_sec : Z;
  tm_isdst : Z; tm_gmtoff : option Z
}.

(** [apr_time_exp_t]: [tm_wday] is read but never set by the code. *)
Record time_exp := TimeExp {
  x_usec : Z; x_sec : Z; x_min : Z; x_hour : Z; x_mday : Z; x_mon : Z; x_year : Z;
  x_wday : option Z; x_isdst : Z; x_gmtoff : Z
}.

Class TimeEnv := {
  mktime : tm -> Z;
  apr_time_ansi_put : Z -> option Z;
  apr_time_exp_gmt : Z -> option time_exp;
  apr_time_exp_lt : Z -> option time_exp;
  apr_time_exp_gmt_get : time_exp -> option Z;
  apr_time_now : Z;
  stack_int : Z                        (* what an [int] that is not initialised holds *)
}.

Module Date.

(** ** Characters and masks *)

Definition isupper (c : byte) : bool := (65 <=? bz c) && (bz c <=? 90).
Definition islower (c : byte) : bool := (97 <=? bz c) && (bz c <=? 122).

(** [c - '0'] *)
Definition digit (c : byte) : Z := bz c - 48.

(** The number of two digits at [i]. *)
Definition num2 (s : bytes) (i : Z) : outcome Z :=
  a ← cchar s i; b ← cchar s (i + 1); Ret (digit a * 10 + digit b).

(** The loop of [_date_checkmask]: [mask] is the rest of the mask at [i]. *)
Fixpoint checkmask_loop (fuel : nat) (data : bytes) (i : Z) (mask : bytes) : outcome bool :=
  match fuel with
  | O => Ret false
  | S fuel =>
      d ← cchar data i;
      match mask with
      | [] => Ret (d =c x00)
      | m :: mask =>
          if m =c "*" then Ret true
          else if m =c "@" then if isupper d then checkmask_loop fuel data (i + 1) mask else Ret false
          else if m =c "$" then if islower d then checkmask_loop fuel data (i + 1) mask else Ret false
          else if m =c "#" then if isdigit d then checkmask_loop fuel data (i + 1) mask else Ret false
          else if m =c "&" then if isxdigit d then checkmask_loop fuel data (i + 1) mask else Ret false
          else if m =c "~" then
            if (d =c " ") || isdigit d then checkmask_loop fuel data (i + 1) mask else Ret false
          else if m =c "%" then
            if negb (d =c x00) && negb (d =c " ") then Ret false
            else if d =c x00 then Ret true
            else checkmask_loop fuel data (i + 1) mask
          else if m =c d then checkmask_loop fuel data (i + 1) mask
          else Ret false
      end
  end.

Definition _date_checkmask (data mask : bytes) : outcome bool := checkmask_loop 256 data 0 mask.

(** [TIMEPARSE_STD] at [timstr]: hour, minute and second. *)
Definition timeparse_std (s : bytes) (p : Z) : outcome (Z * Z * Z) :=
  h ← num2 s p; m ← num2 s (p + 3); c ← num2 s (p + 6); Ret (h, m, c).

Definition months : list bytes :=
  [lit "Jan"; lit "Feb"; lit "Mar"; lit "Apr"; lit "May"; lit "Jun"; lit "Jul";
   lit "Aug"; lit "Sep"; lit "Oct"; lit "Nov"; lit "Dec"].

(** [(a << 16) | (b << 8) | c] *)
Definition mint (a b c : byte) : Z := Z.lor (Z.lor (Z.shiftl (bz a) 16) (Z.shiftl (bz b) 8)) (bz c).
Definition month_code (m : bytes) : Z :=
  match m with [a; b; c] => mint a b c | _ => 0 end.

(** The search for a month: 12 when it is not found. *)
Definition find_month (s : bytes) (p : Z) : outcome Z :=
  a ← cchar s p; b ← cchar s (p + 1); c ← cchar s (p + 2);
  Ret (match list_find (fun m => mint a b c = month_code m) months with
       | Some (i, _) => Z.of_nat i
       | None => 12
       end).

(** The time zones known by name, in minutes. *)
Definition tz_offsets : list (bytes * Z) :=
  [(lit "UTC", 0); (lit "GMT", 0); (lit "MET", 1 * 60); (lit "CET", 1 * 60); (lit "EET", 2 * 60);
   (lit "WST", 8 * 60); (lit "JST", 9 * 60); (lit "NZT", 12 * 60); (lit "AST", -4 * 60);
   (lit "ADT", -3 * 60); (lit "EST", -5 * 60); (lit "EDT", -4 * 60); (lit "CST", -6 * 60);
   (lit "CDT", -5 * 60); (lit "MST", -7 * 60); (lit "MDT", -6 * 60); (lit "PST", -8 * 60);
   (lit "PDT", -7 * 60)].

(** [get_tz_offset(s + p, &offs)]: the length and [offs], or [None] when it
    returns 0 and leaves [offs] alone. *)
Definition get_tz_offset (s : bytes) (p : Z) : outcome (option (Z * Z)) :=
  c ← cchar s p;
  if (c =c "+") || (c =c "-") then
    let mul := if c =c "-" then -1 else 1 in
    d1 ← cchar s (p + 1);
    if negb (isdigit d1) then Ret None
    else
      d2 ← cchar s (p + 2);
      if negb (isdigit d2) then Ret None
      else
        let offset := (digit d1 * 10 + digit d2) * 60 in
        c ← cchar s (p + 3);
        let i := if c =c ":" then 4 else 3 in
        d1 ← cchar s (p + i);
        if negb (isdigit d1) then Ret None
        else
          d2 ← cchar s (p + i + 1);
          if negb (isdigit d2) then Ret None
          else Ret (Some (i + 2, (offset + (digit d1 * 10 + digit d2)) * mul))
  else
    Ret (match list_find (fun z => strcasecmp_eq (take 3 (drop (Z.to_nat p) s)) (fst z) = true) tz_offsets with
         | Some (_, (_, offs)) => Some (3, offs)
         | None => None
         end).

(** The digits of a fraction of a second: [usec] and the next [offs], or [None]
    for more than six digits. *)
Fixpoint parse_usec (fuel : nat) (s : bytes) (offs i usec mul : Z) : outcome (option (Z * Z)) :=
  match fuel with
  | O => Ret None
  | S fuel =>
      c ← cchar s offs;
      if isdigit c then
        if 6 <=? i then Ret None
        else parse_usec fuel s (offs + 1) (i + 1) (usec + digit c * mul) (Z.quot mul 10)
      else Ret (Some (usec, offs))
  end.

(** An optional fraction behind the characters [sep]. *)
Definition parse_fraction (sep : bytes) (s : bytes) (offs : Z) : outcome (option (Z * Z)) :=
  c ← cchar s offs;
  if bool_decide (c ∈ sep) then parse_usec 7 s (offs + 1) 0 0 100000 else Ret (Some (0, offs)).

Definition bad_mday (mday : Z) : bool := (mday <=? 0) || (31 <? mday).
Definition bad_time (t : Z * Z * Z) : bool :=
  let '(h, m, s) := t in (23 <? h) || (59 <? m) || (61 <? s).
Definition bad_31 (mday mon : Z) : bool :=
  (mday =? 31) && ((mon =? 3) || (mon =? 5) || (mon =? 8) || (mon =? 10)).

Section parsers.
Context `{T : TimeEnv}.

Definition _get_curr_year : outcome Z :=
  match apr_time_exp_gmt apr_time_now with
  | Some e => Ret (x_year e)
  | None => Panic "apr_time_exp_gmt(&exp, apr_time_now()) == APR_SUCCESS"
  end.

(** [mktime] and [apr_time_ansi_put] *)
Definition time_of (ds : tm) : option Z :=
  let tval := mktime ds in
  if tval =? -1 then None else apr_time_ansi_put tval.

(** The argument [dateend]: NULL, or the pointer it points to, which is NULL or a
    position in the text.  A parser returns the time, if it succeeds, and the new
    [dateend]. *)
Abbreviation dateend := (option (option Z)).
Abbreviation parser := (bytes -> dateend -> outcome (option Z * dateend)).

Definition set_end (p : Z) (e : dateend) : dateend := match e with Some _ => Some (Some p) | None => None end.
Definition add_end (n : Z) (e : dateend) : outcome dateend :=
  match e with
  | Some (Some p) => Ret (Some (Some (p + n)))
  | Some None => Undef "arithmetic on a null pointer"
  | None => Ret None
  end.

(** ** RFC 3164 *)

(** The day and time after the month of [s], if one of the three masks matches. *)
Definition rfc3164_fields (s : bytes) : outcome (option (Z * (Z * Z * Z))) :=
  b ← _date_checkmask s (lit "@$$ ## ##:##:##%*");
  if (b : bool) then d ← num2 s 4; t ← timeparse_std s 7; Ret (Some (d, t))
  else
    b ← _date_checkmask s (lit "@$$  # ##:##:##%*");
    if (b : bool) then c ← cchar s 5; t ← timeparse_std s 7; Ret (Some (digit c, t))
    else
      b ← _date_checkmask s (lit "@$$ # ##:##:##%*");
      if (b : bool) then c ← cchar s 4; t ← timeparse_std s 6; Ret (Some (digit c, t))
      else Ret None.

Definition nx_date_parse_rfc3164 : parser := fun date e =>
  c ← cchar date 0;
  let s := if isdigit c then date else skip_space date in
  let offs := zlen date - zlen s in
  match s with
  | [] => Ret (None, e)
  | _ =>
      c1 ← cchar s 1;
      if c1 =c x00 then Ret (None, e)
      else
        c2 ← cchar s 2;
        if c2 =c x00 then Ret (None, e)
        else
          mon ← find_month s 0;
          if mon =? 12 then Ret (None, e)
          else
            f ← rfc3164_fields s;
            match f with
            | None => Ret (None, e)
            | Some (mday, t) =>
                if bad_mday mday || bad_time t || bad_31 mday mon then Ret (None, e)
                else
                  year ← _get_curr_year;
                  let '(h, m, c) := t in
                  match time_of (Tm year mon mday h m c (-1) (Some 0)) with
                  | None => Ret (None, e)
                  | Some t => Ret (Some t, set_end (offs + 15) e)
                  end
            end
  end.

(** ** RFC 1123 *)

(** What a format yields: year, day, position of the month, time, position of
    the time zone ([None] is NULL) and the position stored in [dateend] by the
    formats without a zone. *)
Record parts := Parts {
  p_year : Z; p_mday : Z; p_monstr : Z; p_time : Z * Z * Z; p_tzstr : option Z; p_end : option Z
}.

(** A year of four digits with the test for a century before 1900, and a year of
    two digits. *)
Definition year4 (s : bytes) (p : Z) : outcome (option Z) :=
  c ← num2 s p;
  let year := (c - 19) * 100 in
  if year <? 0 then Ret None else y ← num2 s (p + 2); Ret (Some (year + y)).

Definition year2 (s : bytes) (p : Z) : outcome (option Z) :=
  y ← num2 s p; Ret (Some (if y <? 70 then y + 100 else y)).

Definition digit_at (s : bytes) (p : Z) : outcome Z := c ← cchar s p; Ret (digit c).

Definition space_day (s : bytes) (p : Z) : outcome Z :=
  c ← cchar s p; d ← cchar s (p + 1);
  Ret ((if c =c " " then 0 else digit c * 10) + digit d).

(** [TIMEPARSE] without seconds, and with the hour's only digit at
    [timstr[1]]. *)
Definition timeparse_hm (s : bytes) (p : Z) : outcome (Z * Z * Z) :=
  h ← num2 s p; m ← num2 s (p + 3); Ret (h, m, 0).
Definition timeparse_h1 (s : bytes) (p : Z) : outcome (Z * Z * Z) :=
  h ← digit_at s (p + 1); m ← num2 s (p + 3); c ← num2 s (p + 6); Ret (h, m, c).

Definition fields (year : outcome (option Z)) (mday : outcome Z) (monstr : Z) (time : outcome (Z * Z * Z))
    (tzstr dend : option Z) : outcome (option parts) :=
  y ← year;
  match y with
  | None => Ret None
  | Some y => d ← mday; t ← time; Ret (Some (Parts y d monstr t tzstr dend))
  end.

(** The formats with a time without seconds, an hour of one digit or a year of
    four digits behind a space or dashes. *)
Definition rfc1123_more (s : bytes) : list (bytes * outcome (option parts)) :=
  [(lit "## @$$ ## ##:##%*", fields (year2 s 7) (num2 s 0) 3 (timeparse_hm s 10) None (Some 16));
   (lit "# @$$ ## ##:##%*", fields (year2 s 6) (digit_at s 0) 2 (timeparse_hm s 9) None (Some 15));
   (lit "## @$$ ## #:##:## *", fields (year2 s 7) (num2 s 0) 3 (timeparse_h1 s 9) (Some 18) None);
   (lit "# @$$ ## #:##:## *", fields (year2 s 6) (digit_at s 0) 2 (timeparse_h1 s 8) (Some 17) None);
   (lit " # @$$ #### ##:##:## *", fields (year4 s 7) (digit_at s 1) 3 (timeparse_std s 12) (Some 21) None);
   (lit "##-@$$-#### ##:##:## *", fields (year4 s 7) (num2 s 0) 3 (timeparse_std s 12) (Some 21) None)].

(** The formats in the order they are tried. *)
Definition rfc1123_formats (s : bytes) : list (bytes * outcome (option parts)) :=
  (lit "## @$$ #### ##:##:## *", fields (year4 s 7) (num2 s 0) 3 (timeparse_std s 12) (Some 21) None) ::
  (lit "##-@$$-## ##:##:## *", fields (year2 s 7) (num2 s 0) 3 (timeparse_std s 10) (Some 19) None) ::
  (lit "@$$ ~# ##:##:## ####%*", fields (year4 s 16) (space_day s 4) 0 (timeparse_std s 7) None (Some 20)) ::
  (lit "# @$$ #### ##:##:## *", fields (year4 s 6) (digit_at s 0) 2 (timeparse_std s 11) (Some 20) None) ::
  (lit "## @$$ ## ##:##:## *", fields (year2 s 7) (num2 s 0) 3 (timeparse_std s 10) (Some 19) None) ::
  (lit " # @$$ ## ##:##:## *", fields (year2 s 7) (digit_at s 1) 3 (timeparse_std s 10) (Some 19) None) ::
  (lit "# @$$ ## ##:##:## *", fields (year2 s 6) (digit_at s 0) 2 (timeparse_std s 9) (Some 18) None) ::
  rfc1123_more s.

(** The chain of tests: the first mask that matches decides. *)
Fixpoint first_format (s : bytes) (fs : list (bytes * outcome (option parts))) : outcome (option parts) :=
  match fs with
  | [] => Ret None
  | (mask, f) :: fs => b ← _date_checkmask s mask; if (b : bool) then f else first_format s fs
  end.

(** 29 February in a year that is not a leap year, or a later day; [year] counts
    from 1900. *)
Definition bad_february (year mon mday : Z) : bool :=
  (mon =? 1) &&
  ((29 <? mday) ||
   ((mday =? 29) && (negb (Z.land year 3 =? 0) || ((Z.rem year 100 =? 0) && negb (Z.rem year 400 =? 100))))).

(** The position behind the space after the weekday. *)
Fixpoint after_space (s : bytes) : option bytes :=
  match s with
  | [] => None
  | c :: s => if c =c " " then Some s else after_space s
  end.

(** The checks behind the formats, the zone and the time. *)
Definition rfc1123_finish (s : bytes) (p : parts) (e : dateend) : outcome (option Z * dateend) :=
  if bad_mday (p_mday p) || bad_time (p_time p) then Ret (None, e)
  else
    mon ← find_month s (p_monstr p);
    if (mon =? 12) || bad_31 (p_mday p) mon || bad_february (p_year p) mon (p_mday p) then Ret (None, e)
    else
      '(gmtoff, e) ← match p_tzstr p with
          | None => Ret (0, e)
          | Some q =>
              z ← get_tz_offset s q;
              match z with Some (len, offset) => e ← add_end len e; Ret (offset * 60, e) | None => Ret (0, e) end
          end;
      let '(h, m, c) := p_time p in
      match time_of (Tm (p_year p) mon (p_mday p) h m c (-1) (Some (gmtoff * 60))) with
      | None => Ret (None, e)
      | Some t =>
          _ ← ASSERT (negb (bool_decide (e = Some None))) "*dateend != NULL";
          Ret (Some t, e)
      end.

Definition nx_date_parse_rfc1123 : parser := fun date e =>
  c ← cchar date 0;
  match (if isdigit c then Some date
         else match skip_space date with [] => None | s => after_space s end) with
  | None => Ret (None, e)
  | Some s =>
      let offs := zlen date - zlen s in
      f ← first_format s (rfc1123_formats s);
      match f with
      | None => Ret (None, e)
      | Some p =>
          rfc1123_finish s p (match p_end p with Some q => set_end (offs + q) e | None => e end)
      end
  end.

(** ** Apache *)

Definition nx_date_parse_apache : parser := fun date e =>
  b ← _date_checkmask date (lit "##/@$$/####:##:##:## *");
  if negb b then Ret (None, e)
  else
    mday ← num2 date 0;
    mon ← find_month date 3;
    if mon =? 12 then Ret (None, e)
    else
      c ← num2 date 7;
      let year := c * 100 in
      if year <? 0 then Ret (None, e)
      else
        y ← num2 date 9;
        let year := year + y in
        t ← timeparse_std date 12;
        z ← get_tz_offset date 21;
        let '(offs, gmtoff) := default (0, 0) z in
        if bad_mday mday || bad_time t || bad_31 mday mon || (year <? 1970) then Ret (None, e)
        else
          let '(h, m, c) := t in
          match time_of (Tm (year - 1900) mon mday h m c (-1) (Some (gmtoff * 60))) with
          | None => Ret (None, e)
          | Some t => Ret (Some t, set_end offs e)
          end.

(** ** ISO (RFC 3339) *)

Definition num4 (s : bytes) (p : Z) : outcome Z :=
  a ← cchar s p; b ← cchar s (p + 1); c ← cchar s (p + 2); d ← cchar s (p + 3);
  Ret (digit a * 1000 + digit b * 100 + digit c * 10 + digit d).

(** A number of one or two digits: two, or one that is followed by [sep]; then
    the character [sep] itself.  The value and the next [offs]. *)
Definition short_number (sep : byte) (s : bytes) (offs : Z) : outcome (option (Z * Z)) :=
  a ← cchar s offs;
  if negb (isdigit a) then Ret None
  else
    b ← cchar s (offs + 1);
    if isdigit b then
      c ← cchar s (offs + 2);
      Ret (if c =c sep then Some (digit a * 10 + digit b, offs + 3) else None)
    else if b =c sep then Ret (Some (digit a, offs + 2))
    else Ret None.

(** Year, month, day, time and the position behind them. *)
Record iso_parts := IsoParts { i_year : Z; i_mon : Z; i_mday : Z; i_time : Z * Z * Z; i_offs : Z }.

Definition iso_std (s : bytes) : outcome iso_parts :=
  y ← num4 s 0; m ← num2 s 5; d ← num2 s 8; t ← timeparse_std s 11; Ret (IsoParts y (m - 1) d t 19).

(** The format with single digits. *)
Definition iso_short (s : bytes) : outcome (option iso_parts) :=
  y ← num4 s 0;
  mon ← short_number "-" s 5;
  match mon with
  | None => Ret None
  | Some (mon, offs) =>
      mday ← short_number " " s offs;
      match mday with
      | None => Ret None
      | Some (mday, offs) =>
          hour ← short_number ":" s offs;
          match hour with
          | None => Ret None
          | Some (hour, offs) =>
              min ← short_number ":" s offs;
              match min with
              | None => Ret None
              | Some (min, offs) =>
                  a ← cchar s offs;
                  if negb (isdigit a) then Ret None
                  else
                    b ← cchar s (offs + 1);
                    let '(sec, offs) :=
                      if isdigit b then (digit a * 10 + digit b, offs + 2) else (digit a, offs + 1) in
                    Ret (Some (IsoParts y (mon - 1) mday (hour, min, sec) offs))
              end
          end
      end
  end.

(** The fraction and the time zone: [usec], the offset in minutes if there is a
    zone, and the position behind. *)
Definition iso_tail (s : bytes) (offs : Z) : outcome (option (Z * option Z * Z)) :=
  f ← parse_fraction (lit ".,") s offs;
  match f with
  | None => Ret None
  | Some (usec, offs) =>
      c ← cchar s offs;
      if (c =c "+") || (c =c "-") then
        z ← get_tz_offset s offs;
        let '(len, gmtoff) := default (0, 0) z in
        Ret (Some (usec, Some gmtoff, offs + len))
      else if c =c "Z" then Ret (Some (usec, Some 0, offs + 1))
      else Ret (Some (usec, None, offs))
  end.

(** The checks behind the formats and the time. *)
Definition iso_finish (p : iso_parts) (usec : Z) (zone : option Z) (offs : Z) (e : dateend) : outcome (option Z * dateend) :=
  if bad_mday (i_mday p) || bad_time (i_time p) || bad_31 (i_mday p) (i_mon p) || (i_year p <? 1970)
  then Ret (None, e)
  else
    let '(h, m, c) := i_time p in
    let year := i_year p - 1900 in
    let t := match zone with
      | Some gmtoff =>
          apr_time_exp_gmt_get (TimeExp usec c m h (i_mday p) (i_mon p) year None (-1) (gmtoff * 60))
      | None =>
          t ← time_of (Tm year (i_mon p) (i_mday p) h m c (-1) None); Some (t + usec)
      end in
    match t with
    | None => Ret (None, e)
    | Some t => Ret (Some t, set_end offs e)
    end.

Definition nx_date_parse_iso : parser := fun date e =>
  b1 ← _date_checkmask date (lit "####-##-## ##:##:##*");
  b ← (if (b1 : bool) then Ret true else _date_checkmask date (lit "####-##-##T##:##:##*"));
  p ← (if (b : bool) then p ← iso_std date; Ret (Some p)
       else
         b ← _date_checkmask date (lit "####-#*");
         if (b : bool) then iso_short date else Ret None);
  match p with
  | None => Ret (None, e)
  | Some p =>
      f ← iso_tail date (i_offs p);
      match f with
      | None => Ret (None, e)
      | Some (usec, zone, offs) =>
          iso_finish p usec zone offs e
      end
  end.

(** ** Cisco *)

Definition one_of (s : bytes) (ms : list bytes) : outcome bool :=
  foldr (fun m r => b ← _date_checkmask s m; if (b : bool) then Ret true else r) (Ret false) ms.

(** The first position from [i] that is not a space. *)
Fixpoint skip_blanks (fuel : nat) (s : bytes) (i : Z) : outcome Z :=
  match fuel with
  | O => Undef "out of fuel"
  | S fuel => c ← cchar s i; if c =c " " then skip_blanks fuel s (i + 1) else Ret i
  end.

(** The day at [i] and the position behind the space after it. *)
Definition cisco_day (s : bytes) (i : Z) : outcome (Z * Z) :=
  b ← cchar s (i + 1);
  if b =c " " then a ← cchar s i; Ret (digit a, i + 2)
  else a ← cchar s i; Ret (digit a * 10 + digit b, i + 3).

Definition nx_date_parse_cisco : parser := fun date e =>
  b1 ← one_of date [lit "@$$ # ##:##:##*"; lit "@$$  # ##:##:##*"; lit "@$$ ## ##:##:##*"];
  b2 ← (if (b1 : bool) then Ret false
        else one_of date [lit "@$$ # #### ##:##:##*"; lit "@$$  # #### ##:##:##*"; lit "@$$ ## #### ##:##:##*"]);
  if negb ((b1 : bool) || b2) then Ret (None, e)
  else
    mon ← find_month date 0;
    if mon =? 12 then Ret (None, e)
    else
      i ← skip_blanks (S (length date)) date 4;
      '(mday, i) ← cisco_day date i;
      y ← (if b1 then Ret (Some (None, i))
           else y ← year4 date i; Ret (match y with Some y => Some (Some y, i + 5) | None => None end));
      match y with
      | None => Ret (None, e)
      | Some (y, i) =>
          t ← timeparse_std date i;
          f ← parse_fraction (lit ".") date (i + 8);
          match f with
          | None => Ret (None, e)
          | Some (usec, offs) =>
              year ← match y with Some y => Ret y | None => _get_curr_year end;
              if bad_mday mday || bad_time t || bad_31 mday mon then Ret (None, e)
              else
                year ← (if year =? 0 then _get_curr_year else Ret year);
                let '(h, m, c) := t in
                match time_of (Tm year mon mday h m c (-1) (Some 0)) with
                | None => Ret (None, e)
                | Some t => Ret (Some (t + usec), set_end offs e)
                end
          end
      end.

(** ** WMI *)

Definition nx_date_parse_win : parser := fun date e =>
  b ← one_of date [lit "##############.######-###"; lit "##############.#########"];
  if negb b then Ret (None, e)
  else
    year ← num4 date 0;
    mon ← num2 date 4;
    mday ← num2 date 6;
    h ← num2 date 8; m ← num2 date 10; c ← num2 date 12;
    f ← parse_fraction (lit ".") date 14;
    match f with
    | None => Ret (None, e)
    | Some (usec, offs) =>
        x ← cchar date offs;
        let offs := if x =c "+" then offs + 1 else offs in
        x ← cchar date offs;
        let '(offs, sign) := if x =c "-" then (offs + 1, -1) else (offs, 1) in
        a ← cchar date offs; z ← num2 date (offs + 1);
        let gmtoff := (digit a * 100 + z) * sign in
        let mon := mon - 1 in
        if bad_mday mday || bad_time (h, m, c) || bad_31 mday mon || (year <? 1970) then Ret (None, e)
        else
          match time_of (Tm (year - 1900) mon mday h m c (-1) (Some (gmtoff * 60))) with
          | None => Ret (None, e)
          | Some t => Ret (Some (t + usec), set_end offs e)
          end
    end.

(** ** Seconds since the epoch *)

Definition add_long (a b : Z) : outcome Z :=
  if (- 2 ^ 63 <=? a + b) && (a + b <? 2 ^ 63) then Ret (a + b) else Undef "signed overflow".

(** [i++] *)
Definition incr_int (i : Z) : outcome Z :=
  if (- 2 ^ 31 <=? i + 1) && (i + 1 <? 2 ^ 31) then Ret (i + 1) else Undef "signed overflow".

(** The loop also counts in [i], which is not initialised. *)
Fixpoint parse_seconds (fuel : nat) (s : bytes) (offs i sec : Z) : outcome (Z * Z) :=
  match fuel with
  | O => Undef "out of fuel"
  | S fuel =>
      c ← cchar s offs;
      if isdigit c then
        sec ← mul_long sec 10;
        sec ← add_long sec (digit c);
        i ← incr_int i;
        parse_seconds fuel s (offs + 1) i sec
      else Ret (sec, offs)
  end.

Definition APR_USEC_PER_SEC : Z := 1000000.

Definition nx_date_parse_timestamp : parser := fun date e =>
  '(sec, offs) ← parse_seconds (S (length date)) date 0 stack_int 0;
  c ← cchar date offs;
  f ← (if c =c "." then parse_usec 7 date (offs + 1) 0 0 100000
       else if (c =c x00) || (c =c " ") || (c =c x09) then Ret (Some (0, offs))
       else Ret None);
  match f with
  | None => Ret (None, e)
  | Some (usec, offs) =>
      t ← mul_long sec APR_USEC_PER_SEC;
      t ← add_long t usec;
      Ret (Some t, set_end offs e)
  end.

(** ** All formats *)

Fixpoint try_parsers (ps : list parser) : parser := fun date e =>
  match ps with
  | [] => Ret (None, e)
  | p :: ps =>
      '(t, e) ← p date e;
      match t with Some t => Ret (Some t, e) | None => try_parsers ps date e end
  end.

Definition nx_date_parse : parser :=
  try_parsers [nx_date_parse_rfc3164; nx_date_parse_rfc1123; nx_date_parse_iso; nx_date_parse_apache;
               nx_date_parse_cisco; nx_date_parse_win; nx_date_parse_timestamp].

(** ** Printing *)

(** [(char) (z + '0')] *)
Definition chr (z : Z) : byte := zb (z + 48).
Definition two (z : Z) : bytes := [chr (Z.quot z 10); chr (Z.rem z 10)].

(** An entry of a table of names. *)
Definition name_at (names : list bytes) (i : Z) : outcome bytes :=
  if 0 <=? i then deref (names !! Z.to_nat i) "names[i]" else Undef "names[i]".

Definition wdays : list bytes :=
  [lit "Sun"; lit "Mon"; lit "Tue"; lit "Wed"; lit "Thu"; lit "Fri"; lit "Sat"].

(** The functions write to a block [dst] of at least [dstsize] bytes; the result
    is the block, or [None] for an error. *)
Definition nx_date_to_rfc3164 (dst : bytes) (dstsize t : Z) : outcome (option bytes) :=
  _ ← ASSERT (16 <=? dstsize) "dstsize >= 16";
  match apr_time_exp_lt t with
  | None => Ret None
  | Some ds =>
      _ ← ASSERT (x_mon ds <? 12) "ds.tm_mon < 12";
      mon ← name_at months (x_mon ds);
      let day := if 10 <=? x_mday ds then two (x_mday ds) else [" "%byte; chr (x_mday ds)] in
      Some <$> mem_write dst 0 (mon ++ lit " " ++ day ++ lit " " ++ two (x_hour ds) ++ lit ":" ++
        two (x_min ds) ++ lit ":" ++ two (x_sec ds) ++ [x00])
  end.

Definition nx_date_to_rfc3164_wday_year (dst : bytes) (dstsize t : Z) (spaceday : bool) : outcome (option bytes) :=
  _ ← ASSERT (25 <=? dstsize) "dstsize >= 25";
  match apr_time_exp_lt t with
  | None => Ret None
  | Some ds =>
      _ ← ASSERT (x_mon ds <? 12) "ds.tm_mon < 12";
      wd ← deref (x_wday ds) "ds.tm_wday";
      _ ← ASSERT ((0 <=? wd) && (wd <=? 6)) "(ds.tm_wday >= 0) && (ds.tm_wday <= 6)";
      wday ← name_at wdays wd;
      mon ← name_at months (x_mon ds);
      let day := if 10 <=? x_mday ds then two (x_mday ds)
                 else [if spaceday then " "%byte else "0"%byte; chr (x_mday ds)] in
      let year := if x_year ds <? 1900 then x_year ds + 1900 else x_year ds in
      let y3 := year - Z.quot year 1000 * 1000 in
      let y2 := y3 - Z.quot y3 100 * 100 in
      Some <$> mem_write dst 0 (wday ++ lit " " ++ mon ++ lit " " ++ day ++ lit " " ++ two (x_hour ds) ++ lit ":" ++
        two (x_min ds) ++ lit ":" ++ two (x_sec ds) ++ lit " " ++
        [chr (Z.quot year 1000); chr (Z.quot y3 100)] ++ two y2 ++ [x00])
  end.

(** [snprintf(dst, n, ...)] of the text [s]. *)
Definition snprintf (dst : bytes) (n : Z) (s : bytes) : outcome bytes :=
  mem_write dst 0 (take (Z.to_nat (n - 1)) s ++ [x00]).

(** [%+0<w>d] and [%0<w>d] *)
Definition printf_d (plus : bool) (w : nat) (z : Z) : bytes :=
  let sign := if z <? 0 then lit "-" else if plus then lit "+" else [] in
  let ds := print_nat (Z.abs z) in
  sign ++ replicate (w - length sign - length ds) "0"%byte ++ ds.

Definition full_year (e : time_exp) : Z := if x_year e <? 1900 then x_year e + 1900 else x_year e.

(** ["%d-%02d-%02d<sep>%02d:%02d:%02d"] *)
Definition iso_text (sep : bytes) (e : time_exp) : bytes :=
  print_int (full_year e) ++ lit "-" ++ printf_d false 2 (x_mon e + 1) ++ lit "-" ++ printf_d false 2 (x_mday e) ++
  sep ++ printf_d false 2 (x_hour e) ++ lit ":" ++ printf_d false 2 (x_min e) ++ lit ":" ++ printf_d false 2 (x_sec e).

Definition nx_date_to_iso (dst : bytes) (dstsize t : Z) : outcome (option bytes) :=
  _ ← ASSERT (20 <=? dstsize) "dstsize >= 20";
  match apr_time_exp_lt t with
  | None => Ret None
  | Some e => Some <$> snprintf dst 20 (iso_text (lit " ") e)
  end.

Definition nx_date_to_rfc5424 (dst : bytes) (dstsize : Z) (gmt : bool) (t : Z) : outcome (option bytes) :=
  _ ← ASSERT (33 <=? dstsize) "dstsize >= 33";
  if gmt then
    match apr_time_exp_gmt t with
    | None => Ret None
    | Some e => Some <$> snprintf dst 30 (iso_text (lit "T") e ++ lit "." ++ printf_d false 6 (x_usec e) ++ lit "Z")
    end
  else
    match apr_time_exp_lt t with
    | None => Ret None
    | Some e =>
        let off := x_gmtoff e in
        Some <$> snprintf dst 33 (iso_text (lit "T") e ++ lit "." ++ printf_d false 6 (x_usec e) ++
          printf_d true 3 (Z.quot off 3600) ++ lit ":" ++
          printf_d false 2 (Z.rem (Z.quot (if 0 <? off then off else - off) 60) 60))
    end.

(** [nx_date_fix_year(&t)]: the new time, or [None] for an error.  The result of
    [nx_date_to_iso] is not checked: if it fails [tmpstr] is not initialised. *)
Definition nx_date_fix_year `{M : Malloc} (t : Z) : outcome (option Z) :=
  match apr_time_exp_gmt t with
  | None => Ret None
  | Some e =>
      if x_year e <=? 70 then
        r ← nx_date_to_iso (malloc 20) 20 t;
        let tmpstr := default (malloc 20) r in
        match apr_time_exp_gmt apr_time_now with
        | None => Ret None
        | Some e2 =>
            tmpstr ← mem_write tmpstr 0 ["2"%byte; chr (Z.quot (x_year e2 - 100) 100);
                                          chr (Z.quot (x_year e2 - 100) 10); chr (Z.rem (x_year e2) 10)];
            n ← strlen tmpstr;
            '(t, _) ← nx_date_parse_iso (take (Z.to_nat n) tmpstr) None;
            Ret t
        end
      else Ret (Some t)
  end.

End parsers.

(** ** Reading inside the string *)

(** A computation that returns, with a result that satisfies [P]. *)
Definition runs {A} (o : outcome A) (P : A -> Prop) : Prop := exists a, o = Ret a /\ P a.

Lemma runs_ret {A} (a : A) (P : A -> Prop) : P a -> runs (Ret a) P.
Proof. by exists a. Qed.

Lemma runs_bind {A B} (o : outcome A) (f : A -> outcome B) P Q :
  runs o P -> (forall a, P a -> runs (f a) Q) -> runs (o ≫= f) Q.
Proof. intros (a & -> & Ha) Hf. exact (Hf a Ha). Qed.

Lemma runs_mono {A} (o : outcome A) (P Q : A -> Prop) : (forall a, P a -> Q a) -> runs o P -> runs o Q.
Proof. intros HPQ (a & Ho & Ha). exists a. auto. Qed.

(** A position of a C string or of its terminator; the terminator is where the
    string ends. *)
Lemma cchar_runs s k : 0 <= k <= zlen s -> runs (cchar s k) (fun c => no_nul s -> c <> x00 -> k < zlen s).
Proof.
  intros Hk. unfold cchar. rewrite (proj2 (Z.leb_le 0 k)) by lia. destruct (Z.ltb_spec k (zlen s)) as [Hl|Hl].
  - destruct (lookup_lt_is_Some_2 s (Z.to_nat k)) as [c Hc]; [lia|]. exists c. cbn [andb]. by rewrite Hc.
  - replace (k =? zlen s) with true by (symmetry; apply Z.eqb_eq; lia). exists x00. by split.
Qed.

Lemma cchar_in s k : 0 <= k <= zlen s -> runs (cchar s k) (fun _ => True).
Proof. intros Hk. eapply runs_mono; [|by apply cchar_runs]. done. Qed.

Lemma num2_in s p : 0 <= p -> p + 1 <= zlen s -> runs (num2 s p) (fun _ => True).
Proof.
  intros H0 H1. unfold num2. eapply runs_bind; [apply cchar_in; lia|]. intros a _.
  eapply runs_bind; [apply cchar_in; lia|]. intros b _. by apply runs_ret.
Qed.

(** The characters a mask demands before a [*] or [%]. *)
Fixpoint mask_len (mask : bytes) : Z :=
  match mask with
  | [] => 0
  | m :: mask => if (m =c "*") || (m =c "%") then 0 else 1 + mask_len mask
  end.

Lemma class_not_nul d : isupper d || islower d || isdigit d || isxdigit d || (d =c " ") = true -> d <> x00.
Proof. by intros H ->. Qed.

Lemma checkmask_runs fuel s i mask : no_nul s -> no_nul mask -> 0 <= i <= zlen s ->
  runs (checkmask_loop fuel s i mask) (fun b => b = true -> i + mask_len mask <= zlen s).
Proof.
  intros Hs. revert i mask. induction fuel as [|fuel IH]; intros i mask Hm Hi; [by apply runs_ret|].
  cbn [checkmask_loop]. eapply runs_bind; [by apply cchar_runs|]. intros d Hd.
  destruct mask as [|m mask]; [apply runs_ret; simpl; lia|]. unfold no_nul in Hm. apply not_elem_of_cons in Hm as [Hm0 Hm].
  assert (d <> x00 -> (m =c "*") || (m =c "%") = false ->
    runs (checkmask_loop fuel s (i + 1) mask) (fun b => b = true -> i + mask_len (m :: mask) <= zlen s)) as Hgo.
  { intros H0 Hstar. eapply runs_mono; [|apply IH; [done|specialize (Hd Hs H0); lia]]. cbn [mask_len]. rewrite Hstar. simpl. intros b Hb E. specialize (Hb E). lia. }
  assert (runs (@Ret bool false) (fun b => b = true -> i + mask_len (m :: mask) <= zlen s)) as Hno by (by apply runs_ret).
  destruct (m =c "*") eqn:E1; [apply runs_ret; cbn [mask_len]; rewrite E1; simpl; lia|].
  destruct (m =c "%") eqn:E2.
  - tests. subst m. change (mask_len _) with 0.
    change ("%" =c "@") with false. change ("%" =c "$") with false. change ("%" =c "#") with false.
    change ("%" =c "&") with false. change ("%" =c "~") with false. cbv iota.
    destruct (d =c x00) eqn:E0; cbn [negb andb]; [apply runs_ret; lia|].
    destruct (d =c " "); cbn [negb]; [|done]. tests.
    eapply runs_mono; [|apply IH; [done|specialize (Hd Hs E0); lia]]. simpl. lia.
  - assert (forall b : bool, (b = true -> d <> x00) -> runs (if b then checkmask_loop fuel s (i + 1) mask else Ret false)
      (fun b => b = true -> i + mask_len (m :: mask) <= zlen s)) as Hif.
    { intros [|] Hb; [|done]. by apply Hgo; auto. }
    assert (forall b : bool, (b = true -> isupper d || islower d || isdigit d || isxdigit d || (d =c " ") = true) -> b = true -> d <> x00) as Hcls.
    { intros b Hb E. apply class_not_nul. auto. }
    repeat (case_match; [apply Hif|]); try (apply Hcls; intros ->; rewrite ?orb_true_r; done).
    + apply Hcls. intros Hor. apply orb_true_iff in Hor as [-> | ->]; rewrite ?orb_true_r; done.
    + apply Hif. intros Heq ->. tests. done.
Qed.

Lemma mask_runs s mask : no_nul s -> no_nul mask ->
  runs (_date_checkmask s mask) (fun b => b = true -> mask_len mask <= zlen s).
Proof. intros Hs Hm. exact (checkmask_runs 256 s 0 mask Hs Hm ltac:(lia)). Qed.

(** Steps of a proof that a parser stays inside the string: read a character,
    evaluate a mask, finish. *)
Ltac runs_step :=
  match goal with
  | |- runs (Ret _) _ => apply runs_ret; auto
  | |- runs (mbind _ (num2 _ _)) _ => eapply runs_bind; [apply num2_in; lia|intros ? _]
  | |- runs (mbind _ (cchar _ _)) _ => eapply runs_bind; [apply cchar_in; lia|intros ? _]
  | |- runs (if ?b then _ else _) _ => destruct b eqn:?; tests
  | |- runs (match ?x with _ => _ end) _ => destruct x
  end.

Section safety.
Variable s : bytes.
Hypothesis Hs : no_nul s.

Lemma timeparse_std_in p : 0 <= p -> p + 7 <= zlen s -> runs (timeparse_std s p) (fun _ => True).
Proof. intros H0 H1. unfold timeparse_std. repeat runs_step. Qed.

Lemma find_month_in p : 0 <= p -> p + 2 <= zlen s -> runs (find_month s p) (fun _ => True).
Proof. intros H0 H1. unfold find_month. repeat runs_step. Qed.

Lemma isdigit_not_nul c : isdigit c = true -> c <> x00.
Proof. intros H ->. discriminate. Qed.

(** A digit is before the terminator. *)
Lemma digit_inside k c : (no_nul s -> c <> x00 -> k < zlen s) -> isdigit c = true -> k + 1 <= zlen s.
Proof. intros H Hc. specialize (H Hs (isdigit_not_nul c Hc)). lia. Qed.

Lemma zone_name_length z : z ∈ tz_offsets -> length (fst z) = 3%nat.
Proof. revert z. apply Forall_forall. repeat constructor. Qed.

Lemma get_tz_offset_in p : 0 <= p <= zlen s ->
  runs (get_tz_offset s p) (fun r => match r with Some (len, _) => 0 <= len /\ p + len <= zlen s | None => True end).
Proof.
  intros Hp. unfold get_tz_offset. eapply runs_bind; [by apply cchar_runs|]. intros c Hc. runs_step.
  - assert (p < zlen s) as Hp1 by (apply Hc; [done|]; intros ->; discriminate).
    eapply runs_bind; [apply cchar_runs; lia|]. intros d1 Hd1. runs_step; [by apply runs_ret|].
    pose proof (digit_inside _ _ Hd1 Heqb0). eapply runs_bind; [apply cchar_runs; lia|]. intros d2 Hd2. runs_step; [by apply runs_ret|].
    pose proof (digit_inside _ _ Hd2 Heqb1). eapply runs_bind; [apply cchar_runs; lia|]. intros c3 Hc3.
    assert (0 <= (if c3 =c ":" then 4 else 3) /\ p + (if c3 =c ":" then 4 else 3) <= zlen s) as [Hi0 Hi].
    { destruct (c3 =c ":") eqn:E; [|lia]. tests. subst c3. assert (p + 3 < zlen s) by (by apply Hc3). lia. }
    set (i := if c3 =c ":" then 4 else 3) in *. clearbody i.
    eapply runs_bind; [apply cchar_runs; lia|]. intros e1 He1. runs_step; [by apply runs_ret|].
    pose proof (digit_inside _ _ He1 Heqb2). eapply runs_bind; [apply cchar_runs; lia|]. intros e2 He2. runs_step; [by apply runs_ret|].
    pose proof (digit_inside _ _ He2 Heqb3). apply runs_ret. lia.
  - apply runs_ret. destruct (list_find _ tz_offsets) as [[i [z o]]|] eqn:E; [|done].
    apply list_find_Some in E as (Hl & Hz & _). apply list_elem_of_lookup_2, zone_name_length in Hl. simpl in *.
    apply strcasecmp_eq_true, (f_equal length) in Hz. rewrite !length_map, length_take, length_drop in Hz. lia.
Qed.

Lemma parse_usec_in fuel offs i usec mul : 0 <= offs <= zlen s ->
  runs (parse_usec fuel s offs i usec mul) (fun r => match r with Some (_, o) => offs <= o <= zlen s | None => True end).
Proof.
  revert offs i usec mul. induction fuel as [|fuel IH]; intros offs i usec mul Ho; [by apply runs_ret|]. cbn [parse_usec].
  eapply runs_bind; [by apply cchar_runs|]. intros c Hc. runs_step; [|apply runs_ret; lia].
  runs_step; [by apply runs_ret|]. pose proof (digit_inside _ _ Hc Heqb).
  eapply runs_mono; [|apply IH; lia]. simpl. intros [[u o]|]; [lia|done].
Qed.

Lemma parse_fraction_in sep offs : x00 ∉ sep -> 0 <= offs <= zlen s ->
  runs (parse_fraction sep s offs) (fun r => match r with Some (_, o) => offs <= o <= zlen s | None => True end).
Proof.
  intros Hsep Ho. unfold parse_fraction. eapply runs_bind; [by apply cchar_runs|]. intros c Hc.
  case_bool_decide as Hin; [|apply runs_ret; lia].
  assert (offs < zlen s) by (apply Hc; [done|]; by intros ->). eapply runs_mono; [|apply parse_usec_in; lia].
  simpl. intros [[u o]|]; [lia|done].
Qed.

Lemma year4_in p : 0 <= p -> p + 3 <= zlen s -> runs (year4 s p) (fun _ => True).
Proof. intros H0 H1. unfold year4. repeat runs_step. Qed.
Lemma year2_in p : 0 <= p -> p + 1 <= zlen s -> runs (year2 s p) (fun _ => True).
Proof. intros H0 H1. unfold year2. repeat runs_step. Qed.
Lemma digit_at_in p : 0 <= p <= zlen s -> runs (digit_at s p) (fun _ => True).
Proof. intros H0. unfold digit_at. repeat runs_step. Qed.
Lemma space_day_in p : 0 <= p -> p + 1 <= zlen s -> runs (space_day s p) (fun _ => True).
Proof. intros H0 H1. unfold space_day. repeat runs_step. Qed.
Lemma timeparse_hm_in p : 0 <= p -> p + 4 <= zlen s -> runs (timeparse_hm s p) (fun _ => True).
Proof. intros H0 H1. unfold timeparse_hm. repeat runs_step. Qed.
Lemma timeparse_h1_in p : 0 <= p -> p + 7 <= zlen s -> runs (timeparse_h1 s p) (fun _ => True).
Proof.
  intros H0 H1. unfold timeparse_h1. eapply runs_bind; [apply digit_at_in; lia|]. intros h _. repeat runs_step.
Qed.

(** The fields of a format whose mask matched; the month and the zone are inside
    the string too. *)
Lemma fields_in y d monstr t tz dend : runs y (fun _ => True) -> runs d (fun _ => True) -> runs t (fun _ => True) ->
  0 <= monstr -> monstr + 2 <= zlen s -> (forall q, tz = Some q -> 0 <= q <= zlen s) ->
  runs (fields y d monstr t tz dend) (fun r => match r with
    | Some p => 0 <= p_monstr p /\ p_monstr p + 2 <= zlen s /\ forall q, p_tzstr p = Some q -> 0 <= q <= zlen s
    | None => True end).
Proof.
  intros Hy Hd Ht H0 H1 Hq. unfold fields. eapply runs_bind; [exact Hy|]. intros [y'|] _; [|by apply runs_ret].
  eapply runs_bind; [exact Hd|]. intros d' _. eapply runs_bind; [exact Ht|]. intros t' _. by apply runs_ret.
Qed.

Lemma first_format_in fs P : P None ->
  Forall (fun f => no_nul (fst f) /\ (mask_len (fst f) <= zlen s -> runs (snd f) P)) fs -> runs (first_format s fs) P.
Proof.
  intros HN HF. induction HF as [|[mask f] fs [Hm Hf] HF IH]; [by apply runs_ret|]. cbn [first_format].
  eapply runs_bind; [by apply mask_runs|]. intros [|] Hb; [|done]. apply Hf. by apply Hb.
Qed.

Lemma rfc1123_formats_in : runs (first_format s (rfc1123_formats s)) (fun r => match r with
    | Some p => 0 <= p_monstr p /\ p_monstr p + 2 <= zlen s /\ forall q, p_tzstr p = Some q -> 0 <= q <= zlen s
    | None => True end).
Proof.
  apply first_format_in; [done|]. unfold rfc1123_formats, rfc1123_more.
  repeat (apply Forall_cons; split; [split; [apply (bool_decide_unpack _); reflexivity|];
    cbn [fst snd]; let H := fresh in intros H;
    match type of H with ?a <= _ => let n := eval vm_compute in a in change (n <= zlen s) in H end;
    apply fields_in;
      [first [apply year4_in | apply year2_in]; lia
      |first [apply num2_in; lia | apply digit_at_in; lia | apply space_day_in; lia]
      |first [apply timeparse_std_in | apply timeparse_hm_in | apply timeparse_h1_in]; lia
      |lia|lia|intros q; first [intros [= <-]; lia | discriminate]] |]).
  constructor.
Qed.

End safety.

Lemma skip_space_suffix s : exists p, s = p ++ skip_space s.
Proof. induction s as [|c s [p IH]]; [by exists []|]. cbn [skip_space]. destruct (isspace c); [|by exists []]. exists (c :: p). simpl. congruence. Qed.

Lemma after_space_suffix s r : after_space s = Some r -> exists p, s = p ++ r.
Proof.
  induction s as [|c s IH]; [done|]. cbn [after_space]. case_test.
  - intros [= ->]. by exists [c].
  - intros H. destruct (IH H) as [p ->]. by exists (c :: p).
Qed.

Lemma no_nul_suffix p s : no_nul (p ++ s) -> no_nul s.
Proof. unfold no_nul. set_solver. Qed.

Lemma no_nul_skip_space s : no_nul s -> no_nul (skip_space s).
Proof. intros H. destruct (skip_space_suffix s) as [p E]. rewrite E in H. by eapply no_nul_suffix. Qed.

Section parser_safety.
Context `{T : TimeEnv}.
Hypothesis clock : is_Some (apr_time_exp_gmt apr_time_now).
Variable s : bytes.
Hypothesis Hs : no_nul s.

Lemma curr_year_runs : runs _get_curr_year (fun _ => True).
Proof using clock. unfold _get_curr_year. destruct clock as [e ->]. by apply runs_ret. Qed.

(** Use a mask, given as a literal: the length it demands. *)
Ltac by_mask H :=
  let Hb := fresh in
  eapply runs_bind; [apply mask_runs; [assumption|apply (bool_decide_unpack _); reflexivity]|];
  intros [|] Hb;
  [pose proof (Hb eq_refl) as H; clear Hb;
   match type of H with ?a <= _ => let n := eval vm_compute in a in change (n <= zlen s) in H end
  |clear Hb].

Lemma rfc3164_fields_in : runs (rfc3164_fields s) (fun _ => True).
Proof using Hs.
  unfold rfc3164_fields. by_mask H.
  { eapply runs_bind; [apply num2_in; lia|]. intros d _. eapply runs_bind; [apply timeparse_std_in; lia|]. intros t _. by apply runs_ret. }
  by_mask H.
  { runs_step. eapply runs_bind; [apply timeparse_std_in; lia|]. intros t _. by apply runs_ret. }
  by_mask H; [|by apply runs_ret].
  runs_step. eapply runs_bind; [apply timeparse_std_in; lia|]. intros t _. by apply runs_ret.
Qed.

(** The position stored in [dateend] is inside the string; it is stored with a
    time only. *)
Definition end_inside (e : option (option Z)) (r : option Z * option (option Z)) : Prop :=
  match fst r, snd r with
  | Some _, Some (Some p) => is_Some e /\ 0 <= p <= zlen s
  | None, _ => snd r = e
  | _, None => e = None
  | _, _ => False
  end.

(** A [dateend] that is not NULL points to a position; the parsers keep that. *)
Definition pointed (e : option (option Z)) : Prop := e <> Some None.
Definition keeps_pointed (e : option (option Z)) (r : option Z * option (option Z)) : Prop := pointed e -> pointed (snd r).

Lemma set_end_pointed p e : pointed (set_end p e).
Proof using. by destruct e. Qed.

Lemma end_inside_pointed e r : end_inside e r -> keeps_pointed e r.
Proof using. unfold keeps_pointed, pointed, end_inside. destruct r as [[t|] [[p|]|]]; simpl; (congruence || tauto). Qed.


Lemma apache_in e : runs (nx_date_parse_apache s e) (keeps_pointed e).
Proof using Hs.
  unfold nx_date_parse_apache. by_mask H; [|by apply runs_ret; intros ?]. cbn [negb]. runs_step.
  eapply runs_bind; [apply find_month_in; lia|]. intros mon _. repeat first [by apply runs_ret; intros ?|runs_step].
  eapply runs_bind; [apply timeparse_std_in; lia|]. intros t _.
  eapply runs_bind; [apply get_tz_offset_in; [done|lia]|]. intros z _.
  repeat first [apply runs_ret; intros ?; by first [apply set_end_pointed|assumption]|runs_step].
Qed.

Lemma short_number_in sep offs : sep <> x00 -> 0 <= offs <= zlen s ->
  runs (short_number sep s offs) (fun r => match r with Some (_, o) => offs <= o <= zlen s | None => True end).
Proof using Hs.
  intros Hsep Ho. unfold short_number. eapply runs_bind; [by apply cchar_runs|]. intros a Ha. runs_step; [by apply runs_ret|].
  pose proof (digit_inside s Hs _ _ Ha Heqb). eapply runs_bind; [apply cchar_runs; lia|]. intros b Hb. runs_step.
  - pose proof (digit_inside s Hs _ _ Hb Heqb0). eapply runs_bind; [apply cchar_runs; lia|]. intros c Hc. apply runs_ret.
    destruct (c =c sep) eqn:E; [|done]. tests. subst c. specialize (Hc Hs Hsep). lia.
  - runs_step; [|by apply runs_ret]. subst b. specialize (Hb Hs Hsep). apply runs_ret. lia.
Qed.

Lemma num4_in p : 0 <= p -> p + 3 <= zlen s -> runs (num4 s p) (fun _ => True).
Proof using. intros H0 H1. unfold num4. repeat runs_step. Qed.

Lemma iso_short_in : 6 <= zlen s ->
  runs (iso_short s) (fun r => match r with Some p => 0 <= i_offs p <= zlen s | None => True end).
Proof using Hs.
  intros Hl. unfold iso_short. eapply runs_bind; [apply num4_in; lia|]. intros y _.
  do 4 (eapply runs_bind; [apply short_number_in; [discriminate|lia]|]; intros [[? ?]|] ?; [|by apply runs_ret]).
  eapply runs_bind; [apply cchar_runs; lia|]. intros a Ha. runs_step; [by apply runs_ret|].
  pose proof (digit_inside s Hs _ _ Ha Heqb). eapply runs_bind; [apply cchar_runs; lia|]. intros b Hb.
  destruct (isdigit b) eqn:Eb; apply runs_ret; simpl; [|lia]. pose proof (digit_inside s Hs _ _ Hb Eb). lia.
Qed.

Lemma iso_tail_in offs : 0 <= offs <= zlen s ->
  runs (iso_tail s offs) (fun r => match r with Some (_, o) => 0 <= o <= zlen s | None => True end).
Proof using Hs.
  intros Ho. unfold iso_tail. eapply runs_bind; [apply parse_fraction_in; [done|apply (bool_decide_unpack _); reflexivity|done]|].
  intros [[u o]|] Hr; [|by apply runs_ret]. eapply runs_bind; [apply cchar_runs; lia|]. intros c Hc. runs_step.
  - eapply runs_bind; [apply get_tz_offset_in; [done|lia]|]. intros [[l g]|] Hz; apply runs_ret; simpl; lia.
  - runs_step; apply runs_ret; [|lia]. subst c. assert (o < zlen s) by (by apply Hc). lia.
Qed.

Lemma end_inside_ret e t p : 0 <= p <= zlen s -> end_inside e (Some t, set_end p e).
Proof using. intros Hp. destruct e; simpl; unfold end_inside; simpl; eauto. Qed.

Lemma iso_in e : runs (nx_date_parse_iso s e) (end_inside e).
Proof using Hs.
  unfold nx_date_parse_iso. eapply runs_bind; [apply mask_runs; [done|apply (bool_decide_unpack _); reflexivity]|]. intros b1 Hb1.
  eapply runs_bind with (P := fun b => b = true -> 19 <= zlen s).
  { destruct b1; [apply runs_ret; intros _; by apply Hb1|].
    eapply runs_mono; [|apply mask_runs; [done|apply (bool_decide_unpack _); reflexivity]]. simpl. intros b Hb E. by apply Hb. }
  intros b Hb. eapply runs_bind with (P := fun r => match r with Some p => 0 <= i_offs p <= zlen s | None => True end).
  { destruct b.
    - specialize (Hb eq_refl). unfold iso_std. eapply runs_bind with (P := fun p => i_offs p = 19).
      + eapply runs_bind; [apply num4_in; lia|]. intros y _. repeat runs_step.
        eapply runs_bind; [apply timeparse_std_in; lia|]. intros t _. by apply runs_ret.
      + intros p Hp. apply runs_ret. lia.
    - by_mask H; [|by apply runs_ret]. apply iso_short_in. lia. }
  intros [p|] Hp; [|by apply runs_ret]. eapply runs_bind; [by apply iso_tail_in|]. intros [[[u z] o]|] Ho; [|by apply runs_ret].
  unfold iso_finish. runs_step; [by apply runs_ret|]. destruct (i_time p) as [[h m] c].
  destruct (match z with Some _ => _ | None => _ end) as [t|]; apply runs_ret; [by apply end_inside_ret|done].
Qed.

Lemma one_of_in ms : Forall no_nul ms ->
  runs (one_of s ms) (fun b => b = true -> exists m, m ∈ ms /\ mask_len m <= zlen s).
Proof using Hs.
  induction 1 as [|m ms Hm HF IH]; [by apply runs_ret|]. cbn [one_of foldr].
  eapply runs_bind; [by apply mask_runs|]. intros [|] Hb.
  - apply runs_ret. intros _. exists m. split; [left|by apply Hb].
  - eapply runs_mono; [|exact IH]. intros b Hb' E. destruct (Hb' E) as (m' & Hm' & Hl). exists m'. split; [by right|done].
Qed.

(** The characters a mask demands. *)
Definition mask_class (m c : byte) : bool :=
  if m =c "@" then isupper c else if m =c "$" then islower c else if m =c "#" then isdigit c
  else if m =c "&" then isxdigit c else if m =c "~" then (c =c " ") || isdigit c else m =c c.

Lemma checkmask_chars fuel i mask j m : checkmask_loop fuel s i mask = Ret true ->
  mask !! j = Some m -> Z.of_nat j < mask_len mask -> exists c, cchar s (i + Z.of_nat j) = Ret c /\ mask_class m c = true.
Proof using.
  revert fuel i j. induction mask as [|m0 mask IH]; intros fuel i j Hrun Hj Hl; [done|].
  destruct fuel as [|fuel]; [done|]. cbn [checkmask_loop] in Hrun. cbn [mask_len] in Hl.
  apply bind_Ret in Hrun as (d & Hd & Hrun).
  destruct (m0 =c "*") eqn:Estar; [simpl in Hl; lia|]. destruct (m0 =c "%") eqn:Epct; [simpl in Hl; lia|]. simpl in Hl.
  assert (mask_class m0 d = true /\ checkmask_loop fuel s (i + 1) mask = Ret true) as [Hcls Hrest].
  { unfold mask_class. repeat (case_match; try discriminate); auto. }
  destruct j as [|j]; [injection Hj as <-; exists d; by rewrite Z.add_0_r|].
  destruct (IH fuel (i + 1) j Hrest Hj) as (c & Hc & Hm); [lia|]. exists c. split; [|done]. rewrite <- Hc. f_equal. lia.
Qed.

Lemma mask_chars mask j m : _date_checkmask s mask = Ret true ->
  mask !! j = Some m -> Z.of_nat j < mask_len mask -> exists c, cchar s (Z.of_nat j) = Ret c /\ mask_class m c = true.
Proof using. unfold _date_checkmask. exact (checkmask_chars 256 0 mask j m). Qed.

Lemma mask_len_le m : _date_checkmask s m = Ret true -> no_nul m -> mask_len m <= zlen s.
Proof using Hs. intros Hrun Hm. destruct (mask_runs s m Hs Hm) as (b & Hb & Hl). rewrite Hrun in Hb. injection Hb as <-. by apply Hl. Qed.

(** The three spellings of the day: the position behind it. *)
Definition day_end (n : Z) : Prop :=
  exists d, (i ← skip_blanks (S (length s)) s 4; cisco_day s i) = Ret (d, n).

Lemma one_of_chars ms : one_of s ms = Ret true -> exists m, m ∈ ms /\ _date_checkmask s m = Ret true.
Proof using.
  induction ms as [|m ms IH]; [done|]. cbn [one_of foldr]. intros H. apply bind_Ret in H as (b & Hb & H). destruct b.
  - exists m. split; [left|done].
  - destruct (IH H) as (m' & Hm & Hr). exists m'. split; [by right|done].
Qed.

Lemma space_class c : mask_class " " c = true -> c = " "%byte.
Proof using. unfold mask_class. intros H. change (" " =c "@") with false in H. cbv iota in H. 
  change (" " =c "$") with false in H. change (" " =c "#") with false in H. change (" " =c "&") with false in H.
  change (" " =c "~") with false in H. cbv iota in H. by tests. Qed.

Lemma day_spaced1 c : cchar s 4 = Ret c -> isdigit c = true -> cchar s 5 = Ret " "%byte -> day_end 6.
Proof using.
  intros H4 Hc H5. exists (digit c). cbn [skip_blanks]. rewrite H4. cbn [mbind outcome_bind].
  rewrite (proj2 (beq_false c " ")) by (by intros ->). cbn [mbind outcome_bind]. unfold cisco_day.
  change (4 + 1) with 5. rewrite H5. cbn [mbind outcome_bind]. rewrite beq_refl, H4. done.
Qed.

Lemma day_spaced2 c : cchar s 4 = Ret " "%byte -> cchar s 5 = Ret c -> isdigit c = true -> cchar s 6 = Ret " "%byte ->
  (0 < length s)%nat -> day_end 7.
Proof using.
  intros H4 H5 Hc H6 Hl. exists (digit c). cbn [skip_blanks]. rewrite H4. cbn [mbind outcome_bind]. rewrite beq_refl.
  destruct (length s); [lia|]. cbn [skip_blanks]. change (4 + 1) with 5. rewrite H5. cbn [mbind outcome_bind].
  rewrite (proj2 (beq_false c " ")) by (by intros ->). cbn [mbind outcome_bind]. unfold cisco_day.
  change (5 + 1) with 6. rewrite H6. cbn [mbind outcome_bind]. rewrite beq_refl, H5. done.
Qed.

Lemma day_two a b : cchar s 4 = Ret a -> isdigit a = true -> cchar s 5 = Ret b -> isdigit b = true -> day_end 7.
Proof using.
  intros H4 Ha H5 Hb. exists (digit a * 10 + digit b). cbn [skip_blanks]. rewrite H4. cbn [mbind outcome_bind].
  rewrite (proj2 (beq_false a " ")) by (by intros ->). cbn [mbind outcome_bind]. unfold cisco_day.
  change (4 + 1) with 5. rewrite H5. cbn [mbind outcome_bind]. rewrite (proj2 (beq_false b " ")) by (by intros ->).
  by rewrite H4.
Qed.

(** A mask gives the spelling of the day. *)
Lemma mask_day m : _date_checkmask s m = Ret true -> no_nul m -> 7 <= mask_len m ->
  match take 3 (drop 4 m) with
  | [a; b; c] => if b =c " " then a = "#"%byte -> day_end 6
                 else if a =c " " then b = "#"%byte -> c = " "%byte -> day_end 7
                 else a = "#"%byte -> b = "#"%byte -> day_end 7
  | _ => True
  end.
Proof using Hs.
  intros Hrun Hm Hl. destruct (take 3 (drop 4 m)) as [|a [|b [|c [|]]]] eqn:E; try done.
  assert (forall j x, [a; b; c] !! j = Some x -> (j < 3)%nat -> exists d, cchar s (Z.of_nat (4 + j)) = Ret d /\ mask_class x d = true) as Hc.
  { intros j x Hj Hj3. apply (mask_chars m); [done| |lia].
    rewrite <- E, lookup_take_Some, lookup_drop in Hj. tauto. }
  destruct (Hc 0%nat a) as (x & H4 & Hx); [done|lia|]. destruct (Hc 1%nat b) as (y & H5 & Hy); [done|lia|].
  destruct (Hc 2%nat c) as (z & H6 & Hz); [done|lia|]. change (Z.of_nat (4 + 0)) with 4 in H4.
  change (Z.of_nat (4 + 1)) with 5 in H5. change (Z.of_nat (4 + 2)) with 6 in H6.
  assert (0 < length s)%nat as Hls.
  { pose proof (mask_len_le m Hrun Hm). lia. }
  destruct (b =c " ") eqn:Eb; [|destruct (a =c " ") eqn:Ea]; tests.
  - intros ->. subst b. apply space_class in Hy as ->. by eapply day_spaced1.
  - intros -> ->. subst a. apply space_class in Hx as ->. apply space_class in Hz as ->. by eapply day_spaced2.
  - intros -> ->. by eapply day_two.
Qed.

(** What the masks of the Cisco format demand. *)
Definition cisco_mask (year : bool) (m : bytes) : Prop :=
  no_nul m /\ 14 <= mask_len m /\
  exists n, (7 <= mask_len m -> _date_checkmask s m = Ret true -> day_end n) /\ 0 <= n /\
    n + (if year then 13 else 8) <= mask_len m.

Lemma cisco_masks1 m : m ∈ [lit "@$$ # ##:##:##*"; lit "@$$  # ##:##:##*"; lit "@$$ ## ##:##:##*"] -> cisco_mask false m.
Proof using Hs.
  revert m. apply Forall_forall.
  repeat (apply Forall_cons; split; [split_and!; [apply (bool_decide_unpack _); reflexivity|done|]|]); [| | |constructor];
    [exists 6|exists 7|exists 7]; (split; [|done]); intros Hl Hrun;
    (eapply (mask_day _ Hrun); [apply (bool_decide_unpack _); reflexivity|done|reflexivity..]).
Qed.

Lemma cisco_masks2 m : m ∈ [lit "@$$ # #### ##:##:##*"; lit "@$$  # #### ##:##:##*"; lit "@$$ ## #### ##:##:##*"] ->
  cisco_mask true m.
Proof using Hs.
  revert m. apply Forall_forall.
  repeat (apply Forall_cons; split; [split_and!; [apply (bool_decide_unpack _); reflexivity|done|]|]); [| | |constructor];
    [exists 6|exists 7|exists 7]; (split; [|done]); intros Hl Hrun;
    (eapply (mask_day _ Hrun); [apply (bool_decide_unpack _); reflexivity|done|reflexivity..]).
Qed.

Lemma cisco_masks_day year ms : Forall (cisco_mask year) ms -> one_of s ms = Ret true ->
  14 <= zlen s /\ exists n, day_end n /\ 0 <= n /\ n + (if year then 13 else 8) <= zlen s.
Proof using Hs.
  intros HF Hrun. apply one_of_chars in Hrun as (m & Hm & Hrun).
  rewrite Forall_forall in HF. destruct (HF m Hm) as (Hnul & Hl & n & Hday & H0 & Hn).
  pose proof (mask_len_le m Hrun Hnul). split; [lia|]. exists n. split_and!; [apply Hday; [lia|done]|lia|lia].
Qed.

Lemma cisco_in e : runs (nx_date_parse_cisco s e) (end_inside e).
Proof using Hs clock.
  unfold nx_date_parse_cisco.
  destruct (one_of_in [lit "@$$ # ##:##:##*"; lit "@$$  # ##:##:##*"; lit "@$$ ## ##:##:##*"]) as (b1 & E1 & _).
  { apply Forall_forall. intros m Hm. apply (cisco_masks1 m Hm). }
  rewrite E1. cbn [mbind outcome_bind].
  destruct (one_of_in [lit "@$$ # #### ##:##:##*"; lit "@$$  # #### ##:##:##*"; lit "@$$ ## #### ##:##:##*"]) as (b2 & E2 & _).
  { apply Forall_forall. intros m Hm. apply (cisco_masks2 m Hm). }
  assert ((b1 || b2 = true) -> 14 <= zlen s /\ exists n, day_end n /\ 0 <= n /\ n + (if b1 then 8 else 13) <= zlen s) as Hm.
  { intros Hb. destruct b1; [apply (cisco_masks_day false _ (proj2 (Forall_forall _ _) cisco_masks1) E1)|].
    simpl in Hb. subst b2. apply (cisco_masks_day true _ (proj2 (Forall_forall _ _) cisco_masks2) E2). }
  eapply runs_bind with (P := fun b => b1 || b = true -> b1 || b2 = true).
  { destruct b1; [by apply runs_ret|]. rewrite E2. by apply runs_ret. }
  intros b Hb. destruct (b1 || b) eqn:Eb; cbn [negb]; [|by apply runs_ret].
  destruct (Hm (Hb eq_refl)) as (Hl & n & (d & Hd) & Hn0 & Hn). apply bind_Ret in Hd as (i & Hi & Hd).
  eapply runs_bind; [apply find_month_in; lia|]. intros mon _. runs_step; [by apply runs_ret|].
  rewrite Hi. cbn [mbind outcome_bind]. rewrite Hd. cbn [mbind outcome_bind].
  eapply runs_bind with (P := fun r => match r with Some (_, j) => 0 <= j /\ j + 8 <= zlen s | None => True end).
  { destruct b1; [by apply runs_ret|]. eapply runs_bind; [apply year4_in; lia|].
    intros [y|] _; apply runs_ret; [lia|done]. }
  intros [[y j]|] Hj; [|by apply runs_ret].
  eapply runs_bind; [apply timeparse_std_in; lia|]. intros t _.
  eapply runs_bind; [apply parse_fraction_in; [done|apply (bool_decide_unpack _); reflexivity|lia]|].
  intros [[u o]|] Ho; [|by apply runs_ret].
  eapply runs_bind with (P := fun _ => True); [destruct y; [by apply runs_ret|apply curr_year_runs]|]. intros year _.
  runs_step; [by apply runs_ret|].
  eapply runs_bind with (P := fun _ => True); [runs_step; [apply curr_year_runs|by apply runs_ret]|]. intros year' _.
  destruct t as [[h m] c]. destruct (time_of _); apply runs_ret; [apply end_inside_ret; lia|done].
Qed.

(** Where a fraction ends: at the first character that is not a digit, at most
    six digits on. *)
Lemma parse_usec_stop fuel offs i usec mul u o : 0 <= i <= 6 -> parse_usec fuel s offs i usec mul = Ret (Some (u, o)) ->
  o <= offs + (6 - i) /\ exists c, cchar s o = Ret c /\ isdigit c = false.
Proof using.
  revert offs i usec mul. induction fuel as [|fuel IH]; intros offs i usec mul Hi H; [done|]. cbn [parse_usec] in H.
  apply bind_Ret in H as (c & Hc & H). destruct (isdigit c) eqn:Ec.
  - destruct (Z.leb_spec 6 i); [done|]. apply IH in H; [|lia]. destruct H as [Ho Hx]. split; [lia|done].
  - injection H as <- <-. split; [lia|]. by exists c.
Qed.

Lemma parse_fraction_stop sep offs u o : parse_fraction sep s offs = Ret (Some (u, o)) -> o <= offs + 7.
Proof using.
  unfold parse_fraction. intros H. apply bind_Ret in H as (c & _ & H). case_bool_decide; [|injection H as <- <-; lia].
  apply parse_usec_stop in H; lia.
Qed.

(** A run of digits longer than six after the point is refused. *)
Lemma parse_usec_long j offs fuel i usec mul : 0 <= offs -> i + Z.of_nat j = 6 ->
  (forall k, offs <= k <= offs + Z.of_nat j -> exists c, cchar s k = Ret c /\ isdigit c = true) ->
  (j < fuel)%nat -> parse_usec fuel s offs i usec mul = Ret None.
Proof using.
  revert offs fuel i usec mul. induction j as [|j IH]; intros offs fuel i usec mul H0 Hi Hd Hf; (destruct fuel as [|fuel]; [lia|]);
    cbn [parse_usec]; destruct (Hd offs) as (c & Hc & Hdc); try lia; rewrite Hc; cbn [mbind outcome_bind]; rewrite Hdc.
  - by rewrite (proj2 (Z.leb_le 6 i)) by lia.
  - rewrite (proj2 (Z.leb_gt 6 i)) by lia. apply IH; [lia|lia| |lia]. intros k Hk. apply Hd. lia.
Qed.

Lemma win_mask1 : _date_checkmask s (lit "##############.######-###") = Ret true -> 25 <= zlen s.
Proof using Hs. intros H. apply mask_len_le in H; [exact H|apply (bool_decide_unpack _); reflexivity]. Qed.

Lemma win_mask2 : _date_checkmask s (lit "##############.#########") = Ret true ->
  24 <= zlen s /\ parse_fraction (lit ".") s 14 = Ret None.
Proof using Hs.
  intros H. split; [apply mask_len_le in H; [exact H|apply (bool_decide_unpack _); reflexivity]|].
  destruct (mask_chars _ 14 "."%byte H) as (c & Hc & Hm); [done|done|].
  unfold parse_fraction. change 14 with (Z.of_nat 14). rewrite Hc. cbn [mbind outcome_bind].
  change (mask_class "." c) with ("." =c c) in Hm. tests. subst c. rewrite bool_decide_eq_true_2 by (apply list_elem_of_singleton; done).
  apply (parse_usec_long 6); [lia|lia| |lia]. intros k Hk.
  destruct (mask_chars _ (Z.to_nat k) "#"%byte H) as (c & Hkc & Hkm); [|change (mask_len _) with 24; lia|].
  - assert (k = 15 \/ k = 16 \/ k = 17 \/ k = 18 \/ k = 19 \/ k = 20 \/ k = 21) as Hk' by lia.
    by destruct Hk' as [-> |[-> |[-> |[-> |[-> |[-> | ->]]]]]].
  - exists c. rewrite Z2Nat.id in Hkc by lia. by split.
Qed.

Lemma win_in e : runs (nx_date_parse_win s e) (end_inside e).
Proof using Hs.
  unfold nx_date_parse_win.
  destruct (one_of_in [lit "##############.######-###"; lit "##############.#########"]) as (b & Eb & _).
  { repeat constructor; apply (bool_decide_unpack _); reflexivity. }
  rewrite Eb. cbn [mbind outcome_bind]. destruct b; [|by apply runs_ret]. cbn [negb].
  assert (24 <= zlen s /\ forall u o, parse_fraction (lit ".") s 14 = Ret (Some (u, o)) -> o + 4 <= zlen s) as [Hl Hf].
  { apply one_of_chars in Eb as (m & Hm & Hrun). apply elem_of_cons in Hm as [-> |Hm].
    - apply win_mask1 in Hrun. split; [lia|]. intros u o Ho. apply parse_fraction_stop in Ho. lia.
    - apply list_elem_of_singleton in Hm as ->. apply win_mask2 in Hrun as [Hl Hn]. split; [done|]. rewrite Hn. done. }
  eapply runs_bind; [apply num4_in; lia|]. intros y _. do 5 runs_step.
  destruct (parse_fraction_in s Hs (lit ".") 14) as (f & Ef & Hin); [apply (bool_decide_unpack _); reflexivity|lia|].
  rewrite Ef. cbn [mbind outcome_bind]. destruct f as [[u o]|]; [|by apply runs_ret]. specialize (Hf u o Ef).
  runs_step. set (o1 := if _ =c "+" then o + 1 else o). assert (o <= o1 <= o + 1) by (subst o1; case_match; lia). clearbody o1.
  runs_step. destruct (_ =c "-"); do 2 runs_step; (runs_step; [by apply runs_ret|]);
    destruct (time_of _); apply runs_ret; try done; apply end_inside_ret; lia.
Qed.

(** The digits at the front of a string. *)
Fixpoint digit_run (s : bytes) : nat :=
  match s with c :: s => if isdigit c then S (digit_run s) else O | [] => O end.

Lemma digit_range c : isdigit c = true -> 0 <= digit c <= 9.
Proof using. unfold isdigit, digit. intros H. apply andb_true_iff in H as [H1%Z.leb_le H2%Z.leb_le]. lia. Qed.

Lemma cchar_drop k c : 0 <= k -> cchar s k = Ret c -> isdigit c = true ->
  drop (Z.to_nat k) s = c :: drop (Z.to_nat (k + 1)) s.
Proof using.
  intros H0 Hc Hd. unfold cchar in Hc. rewrite (proj2 (Z.leb_le 0 k)) in Hc by lia.
  destruct (Z.ltb_spec k (zlen s)).
  - simpl in Hc. destruct (s !! Z.to_nat k) as [x|] eqn:E; [|done]. injection Hc as ->.
    replace (Z.to_nat (k + 1)) with (S (Z.to_nat k)) by lia. by apply drop_S.
  - simpl in Hc. destruct (k =? zlen s); [|done]. injection Hc as <-. done.
Qed.

Lemma mul_long_ret a b : - 2 ^ 63 <= a * b < 2 ^ 63 -> mul_long a b = Ret (a * b).
Proof using. intros H. unfold mul_long. by rewrite (proj2 (Z.leb_le _ _)), (proj2 (Z.ltb_lt _ _)) by lia. Qed.
Lemma add_long_ret a b : - 2 ^ 63 <= a + b < 2 ^ 63 -> add_long a b = Ret (a + b).
Proof using. intros H. unfold add_long. by rewrite (proj2 (Z.leb_le _ _)), (proj2 (Z.ltb_lt _ _)) by lia. Qed.

(** A number of at most twelve digits in all is read without overflow. *)
Lemma incr_int_ret i : - 2 ^ 31 <= i + 1 < 2 ^ 31 -> incr_int i = Ret (i + 1).
Proof using. intros H. unfold incr_int. by rewrite (proj2 (Z.leb_le _ _)), (proj2 (Z.ltb_lt _ _)) by lia. Qed.

Lemma parse_seconds_in fuel offs i sec n : 0 <= offs <= zlen s -> 0 <= sec < 10 ^ n -> 0 <= n -> - 2 ^ 31 <= i < 2 ^ 31 - (12 - n) ->
  (Z.to_nat (zlen s - offs) < fuel)%nat -> n + Z.of_nat (digit_run (drop (Z.to_nat offs) s)) <= 12 ->
  runs (parse_seconds fuel s offs i sec) (fun r => 0 <= fst r < 10 ^ 12 /\ offs <= snd r <= zlen s).
Proof using Hs.
  revert offs i sec n. induction fuel as [|fuel IH]; intros offs i sec n Ho Hsec Hn Hi Hf Hrun; [lia|]. cbn [parse_seconds].
  destruct (cchar_runs s offs Ho) as (c & Ec & Hc). rewrite Ec. cbn [mbind outcome_bind]. destruct (isdigit c) eqn:Ed.
  - pose proof (digit_inside s Hs _ _ Hc Ed). pose proof (digit_range c Ed).
    rewrite (cchar_drop offs c) in Hrun by (done || lia). cbn [digit_run] in Hrun. rewrite Ed in Hrun.
    assert (10 ^ n <= 10 ^ 11) by (apply Z.pow_le_mono_r; lia). change (10 ^ 11) with 100000000000 in *.
    rewrite mul_long_ret by lia. cbn [mbind outcome_bind]. rewrite add_long_ret by lia. cbn [mbind outcome_bind].
    rewrite incr_int_ret by lia. cbn [mbind outcome_bind].
    eapply runs_mono; [|apply (IH _ _ _ (n + 1)); [lia| |lia|lia|lia|lia]].
    + simpl. intros r [Hr1 Hr2]. split; [done|lia].
    + rewrite Z.pow_add_r, Z.pow_1_r by lia. lia.
  - apply runs_ret. simpl. assert (10 ^ n <= 10 ^ 12) by (apply Z.pow_le_mono_r; lia). lia.
Qed.

Lemma parse_usec_range fuel offs i usec mul u o : 0 <= usec < 1000000 -> 0 <= mul -> usec + 10 * mul <= 1000000 ->
  parse_usec fuel s offs i usec mul = Ret (Some (u, o)) -> 0 <= u < 1000000.
Proof using.
  revert offs i usec mul. induction fuel as [|fuel IH]; intros offs i usec mul Hu Hm Hum H; [done|]. cbn [parse_usec] in H.
  apply bind_Ret in H as (c & Hc & H). destruct (isdigit c) eqn:Ec; [|by injection H as <- <-].
  destruct (Z.leb_spec 6 i); [done|]. pose proof (digit_range c Ec).
  assert (mul = 0 \/ 0 < mul) as Hpos by lia. pose proof (Z.quot_pos mul 10 Hm ltac:(lia)).
  pose proof (Z.mul_quot_le mul 10 Hm ltac:(lia)). apply IH in H; [done|nia|lia|nia].
Qed.

Lemma timestamp_in e : (digit_run s <= 12)%nat -> - 2 ^ 31 <= stack_int < 2 ^ 31 - 12 -> runs (nx_date_parse_timestamp s e) (end_inside e).
Proof using Hs.
  intros Hd Hi. unfold nx_date_parse_timestamp. eapply runs_bind; [apply (parse_seconds_in _ 0 _ 0 0); [lia|lia|lia|lia|lia|]; change (drop (Z.to_nat 0) s) with s; lia|].
  intros [sec o] [Hsec Ho]. simpl in Hsec, Ho. eapply runs_bind; [apply cchar_runs; lia|]. intros c Hc.
  eapply runs_bind with (P := fun r => match r with Some (u, o) => 0 <= u < 1000000 /\ 0 <= o <= zlen s | None => True end).
  { runs_step; [|runs_step; apply runs_ret; [lia|done]]. subst c. assert (o < zlen s) by (by apply Hc).
    destruct (parse_usec_in s Hs 7 (o + 1) 0 0 100000) as (f & Ef & Hf); [lia|]. exists f. split; [done|].
    destruct f as [[u o']|]; [|done]. apply parse_usec_range in Ef; lia. }
  intros [[u o']|] Hu; [|by apply runs_ret]. unfold APR_USEC_PER_SEC. change (10 ^ 12) with 1000000000000 in *.
  rewrite mul_long_ret by lia. cbn [mbind outcome_bind]. rewrite add_long_ret by lia. apply runs_ret, end_inside_ret. lia.
Qed.

End parser_safety.

Section date_safety.
Context `{T : TimeEnv}.
Hypothesis clock : is_Some (apr_time_exp_gmt apr_time_now).
Variable date : bytes.
Hypothesis Hdate : no_nul date.

Lemma rfc3164_in e : pointed e -> runs (nx_date_parse_rfc3164 date e) (fun r => pointed (snd r)).
Proof using clock Hdate.
  intros He. unfold nx_date_parse_rfc3164. runs_step. set (s := if isdigit _ then date else skip_space date).
  assert (no_nul s) as Hs by (subst s; case_match; [done|by apply no_nul_skip_space]). clearbody s. cbv zeta.
  destruct s as [|c0 s0] eqn:Es; [by apply runs_ret|]. rewrite <- Es in *. assert (1 <= zlen s) as H1 by (rewrite Es; simpl; lia).
  clear Es. eapply runs_bind; [apply cchar_runs; lia|]. intros c1 Hc1. runs_step; [by apply runs_ret|].
  specialize (Hc1 Hs ltac:(done)). eapply runs_bind; [apply cchar_runs; lia|]. intros c2 Hc2. runs_step; [by apply runs_ret|].
  eapply runs_bind; [apply find_month_in; lia|]. intros mon _. runs_step; [by apply runs_ret|].
  eapply runs_bind; [by apply rfc3164_fields_in|]. intros [[mday t]|] _; [|by apply runs_ret].
  runs_step; [by apply runs_ret|]. eapply runs_bind; [by apply curr_year_runs|]. intros year _.
  destruct t as [[h m] c]. destruct (time_of _); apply runs_ret; [apply set_end_pointed|done].
Qed.

Lemma rfc1123_in e : pointed e -> runs (nx_date_parse_rfc1123 date e) (fun r => pointed (snd r)).
Proof using Hdate.
  intros He. unfold nx_date_parse_rfc1123. eapply runs_bind; [apply cchar_in; lia|]. intros c _.
  destruct (if isdigit c then _ else _) as [s|] eqn:Es; [|by apply runs_ret].
  assert (no_nul s) as Hs.
  { destruct (isdigit c); [by injection Es as <-|]. destruct (skip_space date) as [|c0 s0] eqn:E; [done|].
    apply after_space_suffix in Es as [p Hp]. apply (no_nul_suffix p). rewrite <- Hp, <- E. by apply no_nul_skip_space. }
  cbv zeta. eapply runs_bind; [by apply rfc1123_formats_in|]. intros [p|] Hp; [|by apply runs_ret].
  destruct Hp as (Hm0 & Hm & Hz). set (e1 := match p_end p with Some q => _ | None => e end).
  assert (pointed e1) as He1 by (subst e1; destruct (p_end p); [apply set_end_pointed|done]). clearbody e1. unfold rfc1123_finish. runs_step; [by apply runs_ret|].
  eapply runs_bind; [by apply find_month_in|]. intros mon _. runs_step; [by apply runs_ret|].
  eapply runs_bind with (P := fun r => pointed (snd r)).
  { destruct (p_tzstr p) as [q|]; [|by apply runs_ret]. eapply runs_bind; [apply get_tz_offset_in; [done|by apply Hz]|].
    intros [[len o]|] _; [|by apply runs_ret]. destruct e1 as [[p1|]|]; [by apply runs_ret|done|by apply runs_ret]. }
  intros [g e'] He'. simpl in He'. destruct (p_time p) as [[h m] c']. destruct (time_of _); [|by apply runs_ret].
  rewrite bool_decide_eq_false_2 by done. by apply runs_ret.
Qed.

Lemma try_parsers_in ps e : Forall (fun p : bytes -> option (option Z) -> outcome (option Z * option (option Z)) =>
    forall e, pointed e -> runs (p date e) (fun r => pointed (snd r))) ps -> pointed e -> runs (try_parsers ps date e) (fun _ => True).
Proof using.
  intros HF. revert e. induction HF as [|p ps Hp HF IH]; intros e He; [by apply runs_ret|]. cbn [try_parsers].
  eapply runs_bind; [by apply Hp|]. intros [[t|] e'] He'; [by apply runs_ret|by apply IH].
Qed.

Lemma kept_pointed (o : outcome (option Z * option (option Z))) e : pointed e -> runs o (keeps_pointed e) -> runs o (fun r => pointed (snd r)).
Proof using. intros He. apply runs_mono. intros r Hr. by apply Hr. Qed.

Lemma inside_pointed (o : outcome (option Z * option (option Z))) s e : pointed e -> runs o (end_inside s e) -> runs o (fun r => pointed (snd r)).
Proof using. intros He H. apply (kept_pointed o e He). revert H. apply runs_mono. intros r. apply end_inside_pointed. Qed.

End date_safety.


(** The position stored in [dateend] by the ISO, Cisco and WMI formats and by
    the timestamps is inside the string, and it is stored together with a time
    only. *)
Theorem date_end_inside `{T : TimeEnv} date e :
  is_Some (apr_time_exp_gmt apr_time_now) -> no_nul date -> (digit_run date <= 12)%nat -> - 2 ^ 31 <= stack_int < 2 ^ 31 - 12 ->
  forall p, p ∈ [nx_date_parse_iso; nx_date_parse_cisco; nx_date_parse_win; nx_date_parse_timestamp] ->
  exists r, p date e = Ret r /\ end_inside date e r.
Proof.
  intros clock Hs Hd Hi. apply Forall_forall. repeat constructor; [apply iso_in|apply cisco_in|apply win_in|apply timestamp_in]; done.
Qed.

End Date.
