(* ===== verification/DateFormat.v ===== *)
(** * Printed dates (common/date.c)

    The formats [nx_date_to_iso], [nx_date_to_rfc5424], [nx_date_to_rfc3164] and
    [nx_date_to_rfc3164_wday_year] write are read back by [nx_date_parse].  What
    the functions rely on of APR and of the C library is the class [TimeLaws]; a
    calendar in UTC, [utc_env], satisfies it. *)

From S2P Require Import Prelude Str CLib Date.
Import Str CLib Date.

Module DateFormat.

(** Linear arithmetic with divisions by constants. *)
Ltac dlia := Z.to_euclidean_division_equations; lia.

(** ** Decimal digits *)

(** A number written with [w] digits. *)
Fixpoint dec (w : nat) (z : Z) : bytes :=
  match w with O => [] | S w => dec w (z / 10) ++ [zb (48 + z mod 10)] end.

Lemma dec_length w z : length (dec w z) = w.
Proof. revert z. induction w as [|w IH]; intros z; [done|]. simpl. rewrite length_app, IH. simpl. lia. Qed.

Lemma dec_zero w : dec w 0 = replicate w "0"%byte.
Proof.
  induction w as [|w IH]; [done|]. cbn [dec]. change (0 / 10) with 0. rewrite IH. by rewrite <- replicate_S_end.
Qed.

Lemma digits_aux_acc fuel n acc : digits_aux fuel n acc = digits_aux fuel n [] ++ acc.
Proof.
  revert n acc. induction fuel as [|fuel IH]; intros n acc; [done|]. cbn [digits_aux].
  destruct (n <? 10); [done|]. rewrite IH. rewrite (IH (n / 10) [_]). by rewrite <- app_assoc.
Qed.

Lemma digits_aux_dec w fuel n : (0 < w)%nat -> (w <= fuel)%nat -> 0 <= n < 10 ^ Z.of_nat w ->
  (length (digits_aux fuel n []) <= w)%nat /\
  replicate (w - length (digits_aux fuel n [])) "0"%byte ++ digits_aux fuel n [] = dec w n.
Proof.
  revert fuel n. induction w as [|w IH]; intros fuel n Hw Hf Hn; [lia|]. destruct fuel as [|fuel]; [lia|].
  cbn [digits_aux dec]. destruct (Z.ltb_spec n 10).
  - rewrite Z.div_small, dec_zero by lia. simpl. rewrite Nat.sub_0_r. split; [lia|done].
  - destruct (Nat.eq_dec w 0) as [-> |]; [change (10 ^ Z.of_nat 1) with 10 in Hn; lia|].
    rewrite digits_aux_acc. destruct (IH fuel (n / 10)) as [Hl Hd]; [lia|lia| |].
    { rewrite Nat2Z.inj_succ, Z.pow_succ_r in Hn by lia. split; [apply Z.div_pos; lia|apply Z.div_lt_upper_bound; lia]. }
    rewrite <- Hd, length_app. simpl length. split; [lia|]. rewrite app_assoc.
    f_equal. f_equal. f_equal. lia.
Qed.

Lemma printf_d_dec w z : (0 < w <= 20)%nat -> 0 <= z < 10 ^ Z.of_nat w -> printf_d false w z = dec w z.
Proof.
  intros Hw Hz. unfold printf_d. rewrite (proj2 (Z.ltb_ge z 0)), Z.abs_eq by lia.
  destruct (digits_aux_dec w 20 z) as [_ Hd]; [lia|lia|done|]. change (length []) with 0%nat. rewrite Nat.sub_0_r. exact Hd.
Qed.

Lemma printf_d_plus h : 0 <= h < 100 -> printf_d true 3 h = "+"%byte :: dec 2 h.
Proof.
  intros Hh. unfold printf_d. rewrite (proj2 (Z.ltb_ge h 0)), Z.abs_eq by lia.
  destruct (digits_aux_dec 2 20 h) as [_ Hd]; [lia|lia|done|]. rewrite <- Hd. reflexivity.
Qed.

Lemma printf_d_minus h : 0 < h < 100 -> printf_d true 3 (- h) = "-"%byte :: dec 2 h.
Proof.
  intros Hh. unfold printf_d. rewrite (proj2 (Z.ltb_lt (- h) 0)), Z.abs_opp, Z.abs_eq by lia.
  destruct (digits_aux_dec 2 20 h) as [_ Hd]; [lia|lia|lia|]. rewrite <- Hd. reflexivity.
Qed.

Lemma print_year y : 1000 <= y < 10000 -> print_int y = dec 4 y.
Proof.
  intros Hy. unfold print_int. rewrite (proj2 (Z.ltb_ge y 0)) by lia. unfold print_nat.
  do 3 (cbn [digits_aux]; rewrite (proj2 (Z.ltb_ge _ 10)) by dlia). cbn [digits_aux].
  rewrite (proj2 (Z.ltb_lt _ 10)) by dlia. reflexivity.
Qed.

Lemma two_dec z : 0 <= z < 100 -> two z = dec 2 z.
Proof.
  intros Hz. unfold two, chr. simpl. rewrite Z.quot_div_nonneg, Z.rem_mod_nonneg by lia.
  rewrite (Z.mod_small (z / 10)) by dlia. f_equal; [f_equal; lia|]. f_equal. f_equal. lia.
Qed.

(** A digit of the number, as the parsers read it. *)
Lemma digit_zb d : 0 <= d < 10 -> digit (zb (48 + d)) = d.
Proof. intros Hd. unfold digit. rewrite bz_zb, Z.mod_small by lia. lia. Qed.

Lemma isdigit_zb z : isdigit (zb (48 + z mod 10)) = true.
Proof. apply digit_byte. apply Z.mod_pos_bound. lia. Qed.

Lemma digit_mod z : digit (zb (48 + z mod 10)) = z mod 10.
Proof. apply digit_zb, Z.mod_pos_bound. lia. Qed.

Lemma dec_digits w z : Forall (fun c => isdigit c = true) (dec w z).
Proof.
  revert z. induction w as [|w IH]; intros z; [constructor|]. cbn [dec]. apply Forall_app. split; [apply IH|].
  constructor; [apply isdigit_zb|constructor].
Qed.

(** ** The calendar *)

(** A broken-down time in its ranges, in the years 1970 to 3799. *)
Record exp_ok (e : time_exp) : Prop := {
  ok_usec : 0 <= x_usec e < 1000000;
  ok_sec : 0 <= x_sec e <= 61;
  ok_min : 0 <= x_min e <= 59;
  ok_hour : 0 <= x_hour e <= 23;
  ok_mday : 1 <= x_mday e <= 31;
  ok_mon : 0 <= x_mon e <= 11;
  ok_year : 70 <= x_year e < 1900;
  ok_31 : bad_31 (x_mday e) (x_mon e) = false;
  ok_feb : bad_february (x_year e) (x_mon e) (x_mday e) = false;
  ok_wday : exists w, x_wday e = Some w /\ 0 <= w <= 6
}.

Definition DAY : Z := 86400 * 1000000.
(** The first microsecond of the year 3800. *)
Definition TIME_MAX : Z := 668394 * DAY.

(** [apr_time_exp_gmt_get] reads the date, the time and the offset of its
    argument only; it gives back [t]. *)
Definition gets `{T : TimeEnv} (e : time_exp) (t : Z) : Prop :=
  forall w d, apr_time_exp_gmt_get
    (TimeExp (x_usec e) (x_sec e) (x_min e) (x_hour e) (x_mday e) (x_mon e) (x_year e) w d (x_gmtoff e)) = Some t.

(** What the program relies on of APR: the broken-down times are in their ranges
    and [apr_time_exp_gmt_get] inverts them; a zone is a whole number of minutes
    less than a day from UTC. *)
Class TimeLaws (T : TimeEnv) : Prop := {
  exp_gmt_law t : 0 <= t < TIME_MAX ->
    exists e, apr_time_exp_gmt t = Some e /\ exp_ok e /\ x_gmtoff e = 0 /\ gets e t;
  exp_lt_law t : DAY <= t < TIME_MAX - DAY ->
    exists e, apr_time_exp_lt t = Some e /\ exp_ok e /\ x_gmtoff e mod 60 = 0 /\ - 86400 < x_gmtoff e < 86400 /\ gets e t;
  ansi_put_law z : apr_time_ansi_put z = Some (z * 1000000)
}.

(** [mktime] inverts the local time of [t], that is, the clock on the wall shows
    it once. *)
Definition shown_once `{T : TimeEnv} (t : Z) : Prop :=
  forall e g, apr_time_exp_lt t = Some e ->
  mktime (Tm (x_year e) (x_mon e) (x_mday e) (x_hour e) (x_min e) (x_sec e) (-1) g) = t / 1000000.

(** *** A calendar in UTC *)

(** The days from 1970 to the first day of the year [y]. *)
Definition days_to (y : Z) : Z :=
  365 * (y - 1970) + ((y - 1) / 4 - 492) - ((y - 1) / 100 - 19) + ((y - 1) / 400 - 4).
Definition year_len (y : Z) : Z := days_to (y + 1) - days_to y.

Fixpoint year_of (fuel : nat) (y d : Z) : Z * Z :=
  match fuel with
  | O => (y, d)
  | S fuel => if d <? year_len y then (y, d) else year_of fuel (y + 1) (d - year_len y)
  end.

Definition month_lens (y : Z) : list Z :=
  [31; year_len y - 337; 31; 30; 31; 30; 31; 31; 30; 31; 30; 31].
Fixpoint sum (l : list Z) : Z := match l with [] => 0 | x :: l => x + sum l end.

Fixpoint month_of (ls : list Z) (m d : Z) : Z * Z :=
  match ls with
  | [] => (m, d)
  | l :: ls => if d <? l then (m, d) else month_of ls (m + 1) (d - l)
  end.

(** Seconds since the epoch of a date and time. *)
Definition seconds (year mon mday h m c : Z) : Z :=
  (days_to (year + 1900) + sum (take (Z.to_nat mon) (month_lens (year + 1900))) + mday - 1) * 86400 + h * 3600 + m * 60 + c.

Definition explode (t : Z) : option time_exp :=
  if (0 <=? t) && (t <? TIME_MAX) then
    let secs := t / 1000000 in
    let days := secs / 86400 in
    let '(y, d) := year_of 1830 1970 days in
    let '(mon, d) := month_of (month_lens y) 0 d in
    Some (TimeExp (t mod 1000000) (secs mod 60) (secs / 60 mod 60) (secs / 3600 mod 24) (d + 1) mon (y - 1900)
            (Some ((days + 4) mod 7)) 0 0)
  else None.

Definition utc_env (now : Z) : TimeEnv := {|
  mktime t := seconds (tm_year t) (tm_mon t) (tm_mday t) (tm_hour t) (tm_min t) (tm_sec t);
  apr_time_ansi_put z := Some (z * 1000000);
  apr_time_exp_gmt := explode;
  apr_time_exp_lt := explode;
  apr_time_exp_gmt_get e :=
    Some ((seconds (x_year e) (x_mon e) (x_mday e) (x_hour e) (x_min e) (x_sec e) - x_gmtoff e) * 1000000 + x_usec e);
  apr_time_now := now;
  stack_int := 0
|}.

Lemma year_len_range y : 365 <= year_len y <= 366.
Proof. unfold year_len, days_to. dlia. Qed.

Lemma days_to_mono y n : 0 <= n -> days_to y <= days_to (y + n).
Proof. intros Hn. unfold days_to. dlia. Qed.

Lemma year_of_spec fuel y d y' d' : 0 <= d < days_to (y + Z.of_nat fuel) - days_to y -> year_of fuel y d = (y', d') ->
  y <= y' < y + Z.of_nat fuel /\ 0 <= d' < year_len y' /\ days_to y' + d' = days_to y + d.
Proof.
  revert y d. induction fuel as [|fuel IH]; intros y d Hd H; [rewrite Z.add_0_r in Hd; lia|]. cbn [year_of] in H.
  destruct (Z.ltb_spec d (year_len y)).
  - injection H as <- <-. lia.
  - apply IH in H; unfold year_len in *; [lia|]. replace (y + 1 + Z.of_nat fuel) with (y + Z.of_nat (S fuel)) by lia. lia.
Qed.

Lemma month_of_spec ls m d m' d' : 0 <= d < sum ls -> month_of ls m d = (m', d') ->
  exists k l, m' = m + Z.of_nat k /\ ls !! k = Some l /\ 0 <= d' < l /\ sum (take k ls) + d' = d.
Proof.
  revert m d. induction ls as [|l ls IH]; intros m d Hd H; simpl in Hd; [lia|]. cbn [month_of] in H.
  destruct (Z.ltb_spec d l).
  - injection H as <- <-. exists 0%nat, l. simpl. split_and!; [lia|done|lia|lia|lia].
  - apply IH in H; [|lia]. destruct H as (k & l' & -> & Hl & Hd' & Hs). exists (S k), l'. simpl. split_and!; [lia|done|lia|lia|lia].
Qed.

Lemma sum_months y : sum (month_lens y) = year_len y.
Proof. simpl. lia. Qed.

Lemma month_lens_31 y k l d : 1970 <= y -> month_lens y !! k = Some l -> 0 <= d < l ->
  (k <= 11)%nat /\ d + 1 <= 31 /\ bad_31 (d + 1) (Z.of_nat k) = false /\ bad_february (y - 1900) (Z.of_nat k) (d + 1) = false.
Proof.
  intros H70 Hl Hd. pose proof (year_len_range y) as Hy.
  assert (bad_31 (d + 1) (Z.of_nat k) = false \/ d + 1 = 31 /\ (k = 3 \/ k = 5 \/ k = 8 \/ k = 10)%nat) as H31.
  { unfold bad_31. destruct (Z.eqb_spec (d + 1) 31); [|by left]. simpl.
    repeat match goal with |- context [Z.of_nat k =? ?x] => destruct (Z.eqb_spec (Z.of_nat k) x); [right; lia|] end. by left. }
  assert (k <> 1%nat -> bad_february (y - 1900) (Z.of_nat k) (d + 1) = false) as Hfeb.
  { intros Hk. unfold bad_february. by destruct (Z.eqb_spec (Z.of_nat k) 1); [lia|]. }
  destruct k as [|[|[|[|[|[|[|[|[|[|[|[|k]]]]]]]]]]]]; [..|done]; injection Hl as <-;
    try (split_and!; [lia|lia|destruct H31 as [H31|H31]; [exact H31|lia]|apply Hfeb; lia]).
  split_and!; [lia|lia|destruct H31 as [H31|H31]; [exact H31|lia]|].
  unfold bad_february. simpl. rewrite (proj2 (Z.ltb_ge 29 (d + 1))) by lia. simpl.
  destruct (Z.eqb_spec (d + 1) 29); [|done]. simpl. change 3 with (Z.ones 2). rewrite Z.land_ones by lia.
  assert (year_len y = 366) as Hleap by lia. unfold year_len, days_to in Hleap.
  destruct (Z.eqb_spec ((y - 1900) mod 2 ^ 2) 0); [|dlia]. simpl.
  destruct (Z.eqb_spec (Z.rem (y - 1900) 100) 0); [|done]. simpl. destruct (Z.eqb_spec (Z.rem (y - 1900) 400) 100); [done|dlia].
Qed.

Lemma explode_spec t : 0 <= t < TIME_MAX -> exists e, explode t = Some e /\ exp_ok e /\ (x_gmtoff e = 0 /\ x_sec e < 60) /\
  seconds (x_year e) (x_mon e) (x_mday e) (x_hour e) (x_min e) (x_sec e) * 1000000 + x_usec e = t.
Proof.
  intros Ht. unfold explode. rewrite (proj2 (Z.leb_le _ _)), (proj2 (Z.ltb_lt _ _)) by lia. cbn [andb]. cbv zeta.
  set (secs := t / 1000000). assert (0 <= secs /\ secs / 86400 < 668394 /\ t = secs * 1000000 + t mod 1000000) as (Hs0 & Hs1 & Hs2).
  { subst secs. unfold TIME_MAX, DAY in Ht. split_and!; dlia. }
  assert (0 <= t mod 1000000 < 1000000) as Hu by (apply Z.mod_pos_bound; lia).
  destruct (year_of 1830 1970 (secs / 86400)) as [y d] eqn:Ey.
  apply year_of_spec in Ey; [|change (Z.of_nat 1830) with 1830; change (days_to (1970 + 1830) - days_to 1970) with 668394; dlia].
  change (days_to 1970) with 0 in Ey. change (Z.of_nat 1830) with 1830 in Ey. destruct Ey as (Hy & Hd & Eyd).
  destruct (month_of (month_lens y) 0 d) as [mon md] eqn:Em. apply month_of_spec in Em; [|by rewrite sum_months].
  destruct Em as (k & l & Emon & Hl & Hmd & Hsum). rewrite Z.add_0_l in Emon. subst mon.
  destruct (month_lens_31 y k l md ltac:(lia) Hl Hmd) as (Hk & Hm31 & H31 & Hfeb).
  eexists. split; [reflexivity|]. split; [constructor; simpl|split; [split; [done|cbn [x_sec]; dlia]|]].
  - done.
  - dlia.
  - dlia.
  - dlia.
  - lia.
  - lia.
  - lia.
  - done.
  - done.
  - eexists. split; [reflexivity|]. dlia.
  - cbn [x_year x_mon x_mday x_hour x_min x_sec x_usec]. unfold seconds. replace (y - 1900 + 1900) with y by lia. rewrite Nat2Z.id.
    assert (days_to y + sum (take k (month_lens y)) + (md + 1) - 1 = secs / 86400) as -> by lia.
    clear - Hs0 Hs2. rewrite Hs2 at 2. generalize (t mod 1000000). clear Hs2. clearbody secs. intros u. dlia.
Qed.

#[export] Instance utc_laws now : TimeLaws (utc_env now).
Proof.
  split.
  - intros t Ht. destruct (explode_spec t Ht) as (e & He & Hok & [Hg _] & Hs). exists e. split_and!; [done|done|done|].
    intros w d. simpl. rewrite Hg, Z.sub_0_r. by rewrite Hs.
  - intros t Ht. destruct (explode_spec t ltac:(unfold DAY in *; lia)) as (e & He & Hok & [Hg _] & Hs).
    exists e. rewrite Hg. split_and!; [done|done|done|lia|lia|]. intros w d. simpl. rewrite Hg, Z.sub_0_r. by rewrite Hs.
  - done.
Qed.

Lemma utc_shown_once now t : 0 <= t < TIME_MAX -> shown_once (T := utc_env now) t.
Proof.
  intros Ht e g He. destruct (explode_spec t Ht) as (e' & He' & Hok & _ & Hs). simpl in *.
  rewrite He in He'. injection He' as <-. destruct Hok. apply (Z.div_unique _ _ _ (x_usec e)); lia.
Qed.

(** ** Masks and characters *)

Definition plain_mask (mask : bytes) : bool := forallb (fun m => negb ((m =c "*") || (m =c "%"))) mask.

Lemma checkmask_step fuel s i m mask c : cchar s i = Ret c -> negb ((m =c "*") || (m =c "%")) = true ->
  mask_class m c = true -> checkmask_loop (S fuel) s i (m :: mask) = checkmask_loop fuel s (i + 1) mask.
Proof.
  intros Hc Hm Hcls. cbn [checkmask_loop]. rewrite Hc. cbn [mbind outcome_bind].
  destruct (m =c "*"); [done|]. destruct (m =c "%"); [done|]. unfold mask_class in Hcls.
  repeat (case_match; try done).
Qed.

Lemma checkmask_prefix fuel p mask cs tail rest :
  Forall2 (fun m c => mask_class m c = true) mask cs -> plain_mask mask = true ->
  checkmask_loop (length mask + fuel) (p ++ cs ++ rest) (zlen p) (mask ++ tail) =
  checkmask_loop fuel (p ++ cs ++ rest) (zlen (p ++ cs)) tail.
Proof.
  intros HF. revert p. induction HF as [|m c mask cs Hc HF IH]; intros p Hp; [by rewrite app_nil_r|].
  cbn [plain_mask forallb] in Hp. apply andb_true_iff in Hp as [Hm Hp]. simpl app. simpl length. rewrite Nat.add_succ_l.
  rewrite (checkmask_step _ _ _ _ _ c); [|apply cchar_at|done|done].
  specialize (IH (p ++ [c]) Hp). rewrite <- !app_assoc in IH. simpl in IH. rewrite <- IH. f_equal. lens.
Qed.

(** A mask that ends in a star matches a string that starts with fitting
    characters. *)
Lemma mask_star mask cs rest : Forall2 (fun m c => mask_class m c = true) mask cs -> plain_mask mask = true ->
  (length mask < 256)%nat -> _date_checkmask (cs ++ rest) (mask ++ lit "*") = Ret true.
Proof.
  intros HF Hp Hl. unfold _date_checkmask. replace 256%nat with (length mask + S (255 - length mask))%nat by lia.
  etransitivity; [exact (checkmask_prefix (S (255 - length mask)) [] mask cs (lit "*") rest HF Hp)|]. cbn [checkmask_loop].
  destruct (cchar_in (cs ++ rest) (zlen ([] ++ cs))) as (c & Hc & _); [lens|]. simpl in *. by rewrite Hc.
Qed.

(** A mask that ends in [%*] wants the end of the string or a space. *)
Lemma mask_percent mask cs rest : Forall2 (fun m c => mask_class m c = true) mask cs -> plain_mask mask = true ->
  (length mask < 250)%nat -> (rest = [] \/ exists r, rest = " "%byte :: r) ->
  _date_checkmask (cs ++ rest) (mask ++ lit "%*") = Ret true.
Proof.
  intros HF Hp Hl Hr. unfold _date_checkmask. replace 256%nat with (length mask + S (S (254 - length mask)))%nat by lia.
  etransitivity; [exact (checkmask_prefix (S (S (254 - length mask))) [] mask cs (lit "%*") rest HF Hp)|]. cbn [checkmask_loop app].
  destruct Hr as [-> |[r ->]].
  - rewrite app_nil_r, cchar_end. reflexivity.
  - rewrite cchar_at. cbn [mbind outcome_bind].
    destruct (cchar_in (cs ++ " "%byte :: r) (zlen cs + 1)) as (c & Hc & _); [lens|]. rewrite Hc. reflexivity.
Qed.

(** A mask that a character does not fit. *)
Lemma mask_refused s mask j m c : no_nul s -> no_nul mask -> mask !! j = Some m -> Z.of_nat j < mask_len mask ->
  s !! j = Some c -> mask_class m c = false -> _date_checkmask s mask = Ret false.
Proof.
  intros Hs Hm Hj Hl Hc Hcls. destruct (mask_runs s mask Hs Hm) as (b & Hb & _). rewrite Hb. destruct b; [|done].
  destruct (mask_chars s mask j m Hb Hj Hl) as (c' & Hc' & Hcls'). exfalso.
  assert (c' = c) as ->; [|congruence]. pose proof (lookup_lt_Some _ _ _ Hc).
  unfold cchar in Hc'. rewrite (proj2 (Z.leb_le _ _)), (proj2 (Z.ltb_lt _ _)) in Hc' by lia. simpl in Hc'.
  rewrite Nat2Z.id, Hc in Hc'. simpl in Hc'. congruence.
Qed.

Lemma cchar_lookup s k c : 0 <= k -> s !! Z.to_nat k = Some c -> cchar s k = Ret c.
Proof.
  intros H0 Hk. pose proof (lookup_lt_Some _ _ _ Hk). unfold cchar.
  rewrite (proj2 (Z.leb_le _ _)), (proj2 (Z.ltb_lt _ _)) by lia. simpl. by rewrite Hk.
Qed.

(** Read a character of a string whose shape is known. *)
Ltac read := erewrite cchar_lookup; [|lia|reflexivity]; cbn [mbind outcome_bind].

Lemma num2_at s k z : 0 <= k -> 0 <= z < 100 -> s !! Z.to_nat k = Some (zb (48 + (z / 10) mod 10)) ->
  s !! Z.to_nat (k + 1) = Some (zb (48 + z mod 10)) -> num2 s k = Ret z.
Proof.
  intros Hk Hz H1 H2. unfold num2. rewrite (cchar_lookup _ _ _ Hk H1). cbn [mbind outcome_bind].
  rewrite (cchar_lookup _ (k + 1) _ ltac:(lia) H2). cbn [mbind outcome_bind]. rewrite !digit_mod. f_equal. dlia.
Qed.

(** ** ISO dates *)

Definition iso_chars (sep : byte) (y mo d h mi c : Z) : bytes :=
  dec 4 y ++ "-"%byte :: dec 2 mo ++ "-"%byte :: dec 2 d ++ sep :: dec 2 h ++ ":"%byte :: dec 2 mi ++ ":"%byte :: dec 2 c.

Lemma iso_text_chars sep e : exp_ok e ->
  iso_text [sep] e = iso_chars sep (x_year e + 1900) (x_mon e + 1) (x_mday e) (x_hour e) (x_min e) (x_sec e).
Proof.
  intros []. unfold iso_text, full_year, iso_chars. rewrite (proj2 (Z.ltb_lt (x_year e) 1900)) by lia.
  rewrite print_year by lia. rewrite !printf_d_dec by lia. reflexivity.
Qed.

Ltac fits := repeat (constructor; [first [exact (isdigit_zb _) | assumption | reflexivity]|]); constructor.

Lemma iso_chars_mask y mo d h mi c rest :
  _date_checkmask (iso_chars " " y mo d h mi c ++ rest) (lit "####-##-## ##:##:##*") = Ret true.
Proof. apply (mask_star (lit "####-##-## ##:##:##")); [fits|reflexivity|apply (bool_decide_unpack _); reflexivity]. Qed.

Lemma iso_chars_mask_T y mo d h mi c rest :
  _date_checkmask (iso_chars "T" y mo d h mi c ++ rest) (lit "####-##-##T##:##:##*") = Ret true.
Proof. apply (mask_star (lit "####-##-##T##:##:##")); [fits|reflexivity|apply (bool_decide_unpack _); reflexivity]. Qed.

Lemma iso_std_eval sep y mo d h mi c rest : 0 <= y < 10000 -> 0 <= mo < 100 -> 0 <= d < 100 -> 0 <= h < 100 ->
  0 <= mi < 100 -> 0 <= c < 100 ->
  iso_std (iso_chars sep y mo d h mi c ++ rest) = Ret (IsoParts y (mo - 1) d (h, mi, c) 19).
Proof.
  intros Hy Hmo Hd Hh Hmi Hc. unfold iso_std, num4. do 4 read. rewrite !digit_mod.
  rewrite (num2_at _ 5 mo), (num2_at _ 8 d) by (lia || reflexivity). cbn [mbind outcome_bind]. unfold timeparse_std.
  rewrite (num2_at _ 11 h), (num2_at _ (11 + 3) mi), (num2_at _ (11 + 6) c) by (lia || reflexivity).
  cbn [mbind outcome_bind]. f_equal. f_equal. dlia.
Qed.

(** No digit of a printed date is a NUL. *)
Lemma dec_no_nul w z : no_nul (dec w z).
Proof.
  intros Hin. pose proof (dec_digits w z) as HF. rewrite Forall_forall in HF. by apply HF in Hin.
Qed.

Lemma no_nul_app a b : no_nul a -> no_nul b -> no_nul (a ++ b).
Proof. unfold no_nul. set_solver. Qed.
Lemma no_nul_cons c b : c <> x00 -> no_nul b -> no_nul (c :: b).
Proof. unfold no_nul. set_solver. Qed.

Ltac no_nuls := repeat first
  [ apply dec_no_nul | apply no_nul_app | apply no_nul_cons; [done|] | (by apply not_elem_of_nil) | assumption
  | (apply (bool_decide_unpack _); reflexivity) ].

Lemma iso_chars_no_nul sep y mo d h mi c : sep <> x00 -> no_nul (iso_chars sep y mo d h mi c).
Proof. intros Hsep. unfold iso_chars. no_nuls. Qed.

(** The mask is refused at position [j], by a hypothesis on the character. *)
Ltac refused j :=
  eapply (mask_refused _ _ j); [assumption|apply (bool_decide_unpack _); reflexivity|cbn; reflexivity|reflexivity|cbn; reflexivity|];
  match goal with H : mask_class ?m ?c = false |- mask_class ?m ?c = false => exact H end.

Section roundtrips.
Context `{T : TimeEnv} {TL : TimeLaws T}.

(** Reading the fields of a printed date with a given tail. *)
Lemma iso_eval sep x rest usec zone offs e : sep = " "%byte \/ sep = "T"%byte -> exp_ok x -> no_nul rest ->
  let s := iso_chars sep (x_year x + 1900) (x_mon x + 1) (x_mday x) (x_hour x) (x_min x) (x_sec x) ++ rest in
  iso_tail s 19 = Ret (Some (usec, zone, offs)) ->
  nx_date_parse_iso s e =
    match match zone with
      | Some gmtoff => apr_time_exp_gmt_get
          (TimeExp usec (x_sec x) (x_min x) (x_hour x) (x_mday x) (x_mon x) (x_year x) None (-1) (gmtoff * 60))
      | None => t ← time_of (Tm (x_year x) (x_mon x) (x_mday x) (x_hour x) (x_min x) (x_sec x) (-1) None); Some (t + usec)
      end with
    | None => Ret (None, e)
    | Some t => Ret (Some t, set_end offs e)
    end.
Proof using.
  intros Hsep Hx Hrest s Htail. unfold nx_date_parse_iso. destruct Hx.
  assert (no_nul s) as Hs by (subst s; destruct Hsep as [-> | ->]; apply no_nul_app; [by apply iso_chars_no_nul|done|by apply iso_chars_no_nul|done]).
  assert ((b1 ← _date_checkmask s (lit "####-##-## ##:##:##*");
           if (b1 : bool) then Ret true else _date_checkmask s (lit "####-##-##T##:##:##*")) = Ret true) as Hmask.
  { subst s. destruct Hsep as [-> | ->]; [by rewrite iso_chars_mask|].
    rewrite (mask_refused _ (lit "####-##-## ##:##:##*") 10 " "%byte "T"%byte) by (done || apply (bool_decide_unpack _); reflexivity).
    apply iso_chars_mask_T. }
  apply bind_Ret in Hmask as (b1 & Hb1 & Hmask). rewrite Hb1. cbn [mbind outcome_bind]. rewrite Hmask. cbn [mbind outcome_bind].
  subst s. rewrite iso_std_eval by lia. cbn [mbind outcome_bind i_offs]. rewrite Htail. cbn [mbind outcome_bind]. unfold iso_finish. cbn [mbind outcome_bind i_mday i_time i_mon i_year].
  replace (x_mon x + 1 - 1) with (x_mon x) by lia. replace (x_year x + 1900 - 1900) with (x_year x) by lia.
  unfold bad_mday, bad_time. rewrite ok_32. repeat rewrite (proj2 (Z.leb_gt _ _)) by lia.
  repeat rewrite (proj2 (Z.ltb_ge _ _)) by lia. reflexivity.
Qed.

Lemma iso_tail_end s : zlen s = 19 -> iso_tail s 19 = Ret (Some (0, None, 19)).
Proof using. intros Hl. unfold iso_tail, parse_fraction. rewrite <- Hl, cchar_end. cbn [mbind outcome_bind].
  change (bool_decide (x00 ∈ lit ".,")) with false. cbn [mbind outcome_bind]. by rewrite cchar_end. Qed.

Lemma iso_chars_length sep y mo d h mi c : zlen (iso_chars sep y mo d h mi c) = 19.
Proof using. reflexivity. Qed.

Lemma parse_usec_six p u c r : 0 <= u < 1000000 -> isdigit c = false ->
  parse_usec 7 (p ++ dec 6 u ++ c :: r) (zlen p) 0 0 100000 = Ret (Some (u, zlen p + 6)).
Proof using.
  intros Hu Hc.
  assert (forall k x, dec 6 u !! k = Some x -> cchar (p ++ dec 6 u ++ c :: r) (zlen p + Z.of_nat k) = Ret x) as Hread.
  { intros k x Hk. apply cchar_lookup; [lia|]. replace (Z.to_nat _) with (length p + k)%nat by lia.
    rewrite lookup_app_r by lia. replace (length p + k - length p)%nat with k by lia. by apply lookup_app_l_Some. }
  assert (cchar (p ++ dec 6 u ++ c :: r) (zlen p + 6) = Ret c) as Hend.
  { apply cchar_lookup; [lia|]. replace (Z.to_nat _) with (length p + 6)%nat by lia. rewrite lookup_app_r by lia.
    replace (length p + 6 - length p)%nat with 6%nat by lia. reflexivity. }
  set (s := p ++ dec 6 u ++ c :: r) in *. clearbody s.
  pose proof (Hread 0%nat _ eq_refl) as H0. rewrite Z.add_0_r in H0.
  pose proof (Hread 1%nat _ eq_refl) as H1. pose proof (Hread 2%nat _ eq_refl) as H2. pose proof (Hread 3%nat _ eq_refl) as H3.
  pose proof (Hread 4%nat _ eq_refl) as H4. pose proof (Hread 5%nat _ eq_refl) as H5. clear Hread.
  replace (zlen p + 6) with (zlen p + 1 + 1 + 1 + 1 + 1 + 1) in * by lia.
  replace (zlen p + Z.of_nat 5) with (zlen p + 1 + 1 + 1 + 1 + 1) in * by lia.
  replace (zlen p + Z.of_nat 4) with (zlen p + 1 + 1 + 1 + 1) in * by lia.
  replace (zlen p + Z.of_nat 3) with (zlen p + 1 + 1 + 1) in * by lia.
  replace (zlen p + Z.of_nat 2) with (zlen p + 1 + 1) in * by lia. change (Z.of_nat 1) with 1 in H1.
  cbn [parse_usec]. rewrite H0, H1, H2, H3, H4, H5, Hend. cbn [mbind outcome_bind]. rewrite !isdigit_zb, Hc, !digit_mod.
  change (Z.quot 100000 10) with 10000. change (Z.quot 10000 10) with 1000. change (Z.quot 1000 10) with 100.
  change (Z.quot 100 10) with 10. change (Z.quot 10 10) with 1. simpl. do 3 f_equal. clear - Hu. dlia.
Qed.

(** A date that starts with three digits is left to the later formats. *)
Lemma digit_class_other c : isdigit c = true ->
  mask_class " " c = false /\ mask_class "-" c = false /\ mask_class "@" c = false /\ mask_class "/" c = false.
Proof using. destruct c; try discriminate; intros _; split_and!; reflexivity. Qed.

Lemma mint_first a b c : Z.shiftr (mint a b c) 16 = bz a.
Proof using.
  unfold mint. rewrite !Z.shiftr_lor, Z.shiftr_shiftl_l, Z.sub_diag, Z.shiftl_0_r by lia.
  pose proof (bz_range b). pose proof (bz_range c).
  rewrite (Z.shiftr_div_pow2 (Z.shiftl _ _)), Z.shiftl_mul_pow2, Z.shiftr_div_pow2, !Z.div_small, !Z.lor_0_r by lia. done.
Qed.

Lemma find_month_digit s p a b c : isdigit a = true -> cchar s p = Ret a -> cchar s (p + 1) = Ret b ->
  cchar s (p + 2) = Ret c -> find_month s p = Ret 12.
Proof using.
  intros Ha H1 H2 H3. unfold find_month. rewrite H1, H2, H3. cbn [mbind outcome_bind].
  destruct (list_find _ months) as [[i m]|] eqn:E; [|done]. exfalso.
  apply list_find_Some in E as (Hl & Hm & _). apply (f_equal (fun z => Z.shiftr z 16)) in Hm. rewrite mint_first in Hm.
  assert (Forall (fun m => isdigit (zb (Z.shiftr (month_code m) 16)) = false) months) as HF by (by repeat constructor).
  rewrite Forall_forall in HF. specialize (HF m (list_elem_of_lookup_2 _ _ _ Hl)). rewrite <- Hm, zb_bz in HF. congruence.
Qed.

Lemma try_parsers_skip (p : bytes -> option (option Z) -> outcome (option Z * option (option Z))) ps s e :
  p s e = Ret (None, e) -> try_parsers (p :: ps) s e = try_parsers ps s e.
Proof using. intros H. cbn [try_parsers]. by rewrite H. Qed.

Lemma try_parsers_hit (p : bytes -> option (option Z) -> outcome (option Z * option (option Z))) ps s e t e' :
  p s e = Ret (Some t, e') -> try_parsers (p :: ps) s e = Ret (Some t, e').
Proof using. intros H. cbn [try_parsers]. by rewrite H. Qed.

Section digits_first.
Variables a b c : byte.
Variable r : bytes.
Hypothesis Ha : isdigit a = true.
Hypothesis Hb : isdigit b = true.
Hypothesis Hc : isdigit c = true.
Hypothesis Hr : no_nul (a :: b :: c :: r).

Lemma rfc3164_digits e : nx_date_parse_rfc3164 (a :: b :: c :: r) e = Ret (None, e).
Proof using Ha Hb Hc Hr.
  unfold nx_date_parse_rfc3164. read. rewrite Ha. do 2 read.
  rewrite (proj2 (beq_false b _)), (proj2 (beq_false c _)) by (by intros ->).
  rewrite (find_month_digit _ 0 a b c Ha) by (apply cchar_lookup; [lia|reflexivity]). reflexivity.
Qed.

Lemma rfc1123_digits e : nx_date_parse_rfc1123 (a :: b :: c :: r) e = Ret (None, e).
Proof using Ha Hb Hc Hr.
  unfold nx_date_parse_rfc1123. read. rewrite Ha. cbv zeta.
  destruct (digit_class_other a Ha) as (A1 & A2 & A3 & _). destruct (digit_class_other b Hb) as (B1 & _).
  destruct (digit_class_other c Hc) as (C1 & C2 & _).
  assert (forall fs, Forall (fun f => _date_checkmask (a :: b :: c :: r) (fst f) = Ret false) fs ->
    first_format (a :: b :: c :: r) fs = Ret None) as Hnone.
  { induction 1 as [|[m f] fs Hm HF IH]; [done|]. cbn [first_format]. simpl in Hm. by rewrite Hm. }
  rewrite Hnone; [done|]. unfold rfc1123_formats, rfc1123_more.
  repeat (apply Forall_cons; split; [cbn [fst];
    first [refused 0%nat | refused 1%nat | refused 2%nat]|]).
  constructor.
Qed.

Lemma digits_first_parse e : nx_date_parse (a :: b :: c :: r) e =
  try_parsers [nx_date_parse_iso; nx_date_parse_apache; nx_date_parse_cisco; nx_date_parse_win; nx_date_parse_timestamp]
    (a :: b :: c :: r) e.
Proof using Ha Hb Hc Hr.
  unfold nx_date_parse. rewrite try_parsers_skip by apply rfc3164_digits. apply try_parsers_skip, rfc1123_digits.
Qed.

End digits_first.

Lemma iso_first sep y mo d h mi c rest e t e' : sep <> x00 -> no_nul rest ->
  nx_date_parse_iso (iso_chars sep y mo d h mi c ++ rest) e = Ret (Some t, e') ->
  nx_date_parse (iso_chars sep y mo d h mi c ++ rest) e = Ret (Some t, e').
Proof using.
  intros Hsep Hrest H. pose proof (iso_chars_no_nul sep y mo d h mi c Hsep) as Hn.
  etransitivity; [apply (digits_first_parse _ _ _ _ (isdigit_zb _) (isdigit_zb _) (isdigit_zb _)); exact (no_nul_app _ _ Hn Hrest)|].
  apply try_parsers_hit. exact H.
Qed.

Lemma snprintf_text dst n text : no_nul text -> zlen text < n -> n <= zlen dst ->
  snprintf dst n text = Ret (text ++ x00 :: drop (S (length text)) dst) /\
  cstr (text ++ x00 :: drop (S (length text)) dst) = text.
Proof using.
  intros Hn Hl Hd. split; [|by apply cstr_app_nul]. unfold snprintf. rewrite take_ge by lia.
  rewrite (mem_write_at' _ 0 [] dst) by (lens || done). simpl. rewrite <- app_assoc. simpl. do 4 f_equal. lens.
Qed.

Lemma time_of_seconds x t g : DAY <= t -> shown_once t -> apr_time_exp_lt t = Some x ->
  time_of (Tm (x_year x) (x_mon x) (x_mday x) (x_hour x) (x_min x) (x_sec x) (-1) g) = Some (t / 1000000 * 1000000).
Proof using TL.
  intros Ht Honce Hx. unfold time_of. rewrite (Honce x g Hx).
  rewrite (proj2 (Z.eqb_neq _ _)) by (unfold DAY in Ht; dlia). apply ansi_put_law.
Qed.

End roundtrips.

(** ** RFC 5424 *)

(** The fraction and the zone behind the seconds. *)
Lemma iso_tail_fraction p u z r : zlen p = 19 -> 0 <= u < 1000000 -> isdigit z = false ->
  let s := p ++ "."%byte :: dec 6 u ++ z :: r in
  iso_tail s 19 =
    if (z =c "+") || (z =c "-") then
      z ← get_tz_offset s 26; let '(len, gmtoff) := default (0, 0) z in Ret (Some (u, Some gmtoff, 26 + len))
    else if z =c "Z" then Ret (Some (u, Some 0, 26 + 1)) else Ret (Some (u, None, 26)).
Proof.
  intros Hl Hu Hz s. unfold iso_tail, parse_fraction.
  assert (cchar s 19 = Ret "."%byte) as -> by (rewrite <- Hl; apply cchar_at). cbn [mbind outcome_bind].
  change (bool_decide ("."%byte ∈ lit ".,")) with true. cbv iota.
  assert (s = (p ++ ["."%byte]) ++ dec 6 u ++ z :: r) as Es by (by subst s; rewrite <- app_assoc).
  rewrite Es at 1. replace (19 + 1) with (zlen (p ++ ["."%byte])) by lens.
  rewrite parse_usec_six by done. replace (zlen (p ++ ["."%byte]) + 6) with 26 by lens. cbn [mbind outcome_bind].
  assert (cchar s 26 = Ret z) as ->; [|reflexivity]. rewrite Es, app_assoc.
  replace 26 with (zlen ((p ++ ["."%byte]) ++ dec 6 u)) by (rewrite length_app, dec_length; lens). apply cchar_at.
Qed.

Lemma tz_offset_eval p sign hh mm tail : (sign = "+"%byte \/ sign = "-"%byte) -> 0 <= hh < 100 -> 0 <= mm < 100 ->
  get_tz_offset (p ++ sign :: dec 2 hh ++ ":"%byte :: dec 2 mm ++ tail) (zlen p) =
  Ret (Some (6, (hh * 60 + mm) * (if sign =c "-" then -1 else 1))).
Proof.
  intros Hsign Hh Hm.
  assert (forall k x, (sign :: dec 2 hh ++ ":"%byte :: dec 2 mm ++ tail) !! k = Some x ->
    cchar (p ++ sign :: dec 2 hh ++ ":"%byte :: dec 2 mm ++ tail) (zlen p + Z.of_nat k) = Ret x) as Hread.
  { intros k x Hk. apply cchar_lookup; [lia|]. replace (Z.to_nat _) with (length p + k)%nat by lia.
    rewrite lookup_app_r by lia. by replace (length p + k - length p)%nat with k by lia. }
  set (s := p ++ _) in *. clearbody s.
  pose proof (Hread 0%nat _ eq_refl) as H0. rewrite Z.add_0_r in H0.
  pose proof (Hread 1%nat _ eq_refl) as H1. pose proof (Hread 2%nat _ eq_refl) as H2. pose proof (Hread 3%nat _ eq_refl) as H3.
  pose proof (Hread 4%nat _ eq_refl) as H4. pose proof (Hread 5%nat _ eq_refl) as H5. clear Hread.
  change (Z.of_nat 1) with 1 in H1. change (Z.of_nat 2) with 2 in H2. change (Z.of_nat 3) with 3 in H3.
  change (Z.of_nat 4) with 4 in H4. change (Z.of_nat 5) with 5 in H5.
  unfold get_tz_offset. rewrite H0. cbn [mbind outcome_bind].
  replace ((sign =c "+") || (sign =c "-")) with true by (by destruct Hsign as [-> | ->]).
  rewrite H1. cbn [mbind outcome_bind]. rewrite isdigit_zb. cbn [negb]. rewrite H2. cbn [mbind outcome_bind].
  rewrite isdigit_zb. cbn [negb]. rewrite H3. cbn [mbind outcome_bind]. change (":" =c ":") with true. cbv iota.
  rewrite H4. cbn [mbind outcome_bind]. rewrite isdigit_zb. cbn [negb]. rewrite <- (Z.add_assoc _ 4 1). change (4 + 1) with 5.
  rewrite H5. cbn [mbind outcome_bind]. rewrite isdigit_zb. cbn [negb]. rewrite !digit_mod. do 4 f_equal.
  clear - Hh Hm. dlia.
Qed.

(** The zone as it is printed. *)
Definition zone_chars (off : Z) : bytes :=
  printf_d true 3 (Z.quot off 3600) ++ lit ":" ++ printf_d false 2 (Z.rem (Z.quot (if 0 <? off then off else - off) 60) 60).

Lemma zone_chars_shape off : off mod 60 = 0 -> - 86400 < off < 86400 -> 0 <= off \/ off <= - 3600 ->
  exists sign hh mm, zone_chars off = sign :: dec 2 hh ++ ":"%byte :: dec 2 mm /\ (sign = "+"%byte \/ sign = "-"%byte) /\
    0 <= hh < 100 /\ 0 <= mm < 100 /\ (hh * 60 + mm) * (if sign =c "-" then -1 else 1) * 60 = off.
Proof.
  intros H60 Hr Hsign. unfold zone_chars. destruct (Z.ltb_spec 0 off); rewrite printf_d_dec by dlia.
  - exists "+"%byte, (Z.quot off 3600), (Z.rem (Z.quot off 60) 60).
    rewrite printf_d_plus by dlia. change ("+" =c "-") with false. split_and!; [done|by left|dlia..].
  - destruct (Z.eq_dec off 0) as [-> |]; [exists "+"%byte, 0, 0; split_and!; [reflexivity|by left|lia..]|].
    exists "-"%byte, (Z.quot (- off) 3600), (Z.rem (Z.quot (- off) 60) 60).
    replace (Z.quot off 3600) with (- (Z.quot (- off) 3600)) by dlia.
    rewrite printf_d_minus by dlia. change ("-" =c "-") with true. split_and!; [done|by right|dlia..].
Qed.

(** The text behind the seconds: six digits of a fraction and a zone. *)
Lemma rfc5424_parse `{T : TimeEnv} x u rest zone offs t e : exp_ok x -> no_nul rest -> gets x t -> u = x_usec x -> zone * 60 = x_gmtoff x ->
  let s := iso_chars "T" (x_year x + 1900) (x_mon x + 1) (x_mday x) (x_hour x) (x_min x) (x_sec x) ++ rest in
  iso_tail s 19 = Ret (Some (u, Some zone, offs)) ->
  nx_date_parse_iso s e = Ret (Some t, set_end offs e) /\ nx_date_parse s e = Ret (Some t, set_end offs e).
Proof.
  intros Hok Hn Hget -> Hz s Htail.
  assert (nx_date_parse_iso s e = Ret (Some t, set_end offs e)) as H.
  { unfold s. rewrite (iso_eval "T" x rest _ _ _ e (or_intror eq_refl) Hok Hn Htail), Hz. by rewrite Hget. }
  split; [exact H|]. by apply iso_first.
Qed.

(** A printed date has no spaces and starts with a digit. *)
Lemma dec_no_space w z : Forall (fun c => c <> " "%byte) (dec w z).
Proof. eapply Forall_impl; [apply dec_digits|]. by intros c Hc ->. Qed.

Ltac no_spaces := repeat first [ apply dec_no_space | apply Forall_app; split | apply List.Forall_cons; [discriminate|] | constructor ].

Lemma iso_chars_no_space y mo d h mi c : Forall (fun c => c <> " "%byte) (iso_chars "T" y mo d h mi c) /\
  forall r, head (iso_chars "T" y mo d h mi c ++ r) <> Some "-"%byte.
Proof.
  split; [unfold iso_chars; no_spaces|]. intros r H. unfold iso_chars in H. cbn [dec app head] in H. injection H as H.
  pose proof (isdigit_zb (y / 10 / 10 / 10)) as Hd. rewrite H in Hd. discriminate Hd.
Qed.

(** The text that is printed, and how it is read when [tail] follows it. *)
Lemma rfc5424_reads `{T : TimeEnv} {TL : TimeLaws T} dst dstsize gmt t :
  DAY <= t < TIME_MAX - DAY -> 33 <= dstsize <= zlen dst ->
  (gmt = false -> forall x, apr_time_exp_lt t = Some x -> 0 <= x_gmtoff x \/ x_gmtoff x <= - 3600) ->
  exists b text, nx_date_to_rfc5424 dst dstsize gmt t = Ret (Some b) /\ length b = length dst /\
    (exists r, b = text ++ x00 :: r) /\ no_nul text /\ zlen text = (if gmt then 27 else 32) /\
    Forall (fun c => c <> " "%byte) text /\ head text <> Some "-"%byte /\
    forall tail e, no_nul tail -> nx_date_parse_iso (text ++ tail) e = Ret (Some t, set_end (zlen text) e) /\
      nx_date_parse (text ++ tail) e = Ret (Some t, set_end (zlen text) e).
Proof.
  intros Ht Hd Hzone. unfold nx_date_to_rfc5424. rewrite (proj2 (Z.leb_le 33 dstsize)) by lia.
  cbn [mbind outcome_bind ASSERT]. destruct gmt.
  - destruct (exp_gmt_law t ltac:(unfold DAY in *; lia)) as (x & Hx & Hok & Hg & Hget). rewrite Hx.
    change (lit "T") with ["T"%byte]. rewrite (iso_text_chars "T" x Hok). rewrite printf_d_dec by (destruct Hok; lia).
    set (rest := lit "." ++ _). set (text := iso_chars _ _ _ _ _ _ _).
    assert (no_nul rest) as Hnr by (subst rest; no_nuls).
    assert (no_nul (text ++ rest)) as Hn by (apply no_nul_app; [by apply iso_chars_no_nul|done]).
    destruct (snprintf_text dst 30 (text ++ rest) Hn) as [Hw Hc]; [reflexivity|lia|]. rewrite Hw.
    exists (text ++ rest ++ x00 :: drop (S (length (text ++ rest))) dst), (text ++ rest). rewrite <- (app_assoc text) in Hw |- *.
    split_and!; [done|by apply (mem_write_length _ _ _ _ Hw)|by eexists|done|done|apply Forall_app; split; [apply iso_chars_no_space|subst rest; no_spaces]|apply iso_chars_no_space|].
    intros tail e Htail. rewrite <- (app_assoc text).
    apply (rfc5424_parse x (x_usec x) (rest ++ tail) 0 27); [done|by apply no_nul_app|done|reflexivity|lia|].
    exact (iso_tail_fraction text (x_usec x) "Z" tail eq_refl (ok_usec _ Hok) eq_refl).
  - destruct (exp_lt_law t Ht) as (x & Hx & Hok & H60 & Hr & Hget). rewrite Hx. specialize (Hzone eq_refl x Hx).
    change (lit "T") with ["T"%byte]. rewrite (iso_text_chars "T" x Hok). rewrite (printf_d_dec 6) by (destruct Hok; lia).
    destruct (zone_chars_shape (x_gmtoff x) H60 Hr Hzone) as (sign & hh & mm & Ez & Hsign & Hh & Hm & Eoff).
    unfold zone_chars in Ez. rewrite Ez. set (rest := lit "." ++ _). set (text := iso_chars _ _ _ _ _ _ _).
    assert (no_nul rest) as Hnr by (subst rest; destruct Hsign as [-> | ->]; no_nuls).
    assert (no_nul (text ++ rest)) as Hn by (apply no_nul_app; [by apply iso_chars_no_nul|done]).
    destruct (snprintf_text dst 33 (text ++ rest) Hn) as [Hw Hc]; [reflexivity|lia|]. rewrite Hw.
    exists (text ++ rest ++ x00 :: drop (S (length (text ++ rest))) dst), (text ++ rest). rewrite <- (app_assoc text) in Hw |- *.
    split_and!; [done|by apply (mem_write_length _ _ _ _ Hw)|by eexists|done|done|apply Forall_app; split; [apply iso_chars_no_space|subst rest; destruct Hsign as [-> | ->]; no_spaces]|apply iso_chars_no_space|].
    intros tail e Htail. rewrite <- (app_assoc text).
    eapply (rfc5424_parse x _ (rest ++ tail) _ 32); [done|by apply no_nul_app|done|reflexivity|exact Eoff|].
    etransitivity; [apply (iso_tail_fraction text (x_usec x) sign (dec 2 hh ++ ":"%byte :: dec 2 mm ++ tail) eq_refl (ok_usec _ Hok)); by destruct Hsign as [-> | ->]|].
    replace ((sign =c "+") || (sign =c "-")) with true by (by destruct Hsign as [-> | ->]).
    pose proof (tz_offset_eval (text ++ "."%byte :: dec 6 (x_usec x)) sign hh mm tail Hsign Hh Hm) as Htz.
    rewrite <- app_assoc in Htz. change (zlen (text ++ _)) with 26 in Htz.
    change (("."%byte :: dec 6 (x_usec x)) ++ ?r) with ("."%byte :: dec 6 (x_usec x) ++ r) in Htz. by rewrite Htz.
Qed.

(** C36: What [nx_date_to_rfc5424] prints is read back by [nx_date_parse] to the
    microsecond and up to the end of the text, in UTC and in a local zone, except
    in the zones less than an hour west of UTC. *)
Theorem date_rfc5424_roundtrip `{T : TimeEnv} {TL : TimeLaws T} dst dstsize gmt t e :
  DAY <= t < TIME_MAX - DAY -> 33 <= dstsize <= zlen dst ->
  (gmt = false -> forall x, apr_time_exp_lt t = Some x -> 0 <= x_gmtoff x \/ x_gmtoff x <= - 3600) ->
  exists b, nx_date_to_rfc5424 dst dstsize gmt t = Ret (Some b) /\ length b = length dst /\
    nx_date_parse (cstr b) e = Ret (Some t, set_end (if gmt then 27 else 32) e).
Proof.
  intros Ht Hd Hzone. destruct (rfc5424_reads dst dstsize gmt t Ht Hd Hzone) as (b & text & Hw & Hl & (r & Hb) & Hn & Hlen & _ & _ & Hp).
  exists b. split_and!; [done|done|]. rewrite Hb, cstr_app_nul, <- Hlen by done. rewrite <- (app_nil_r text) at 1. apply Hp. apply not_elem_of_nil.
Qed.


(** The text of [nx_date_to_iso] as [nx_date_parse] reads it. *)
Lemma date_iso_reads `{T : TimeEnv} {TL : TimeLaws T} dst dstsize t e :
  DAY <= t < TIME_MAX - DAY -> shown_once t -> 20 <= dstsize <= zlen dst ->
  exists b, nx_date_to_iso dst dstsize t = Ret (Some b) /\ length b = length dst /\
    nx_date_parse (cstr b) e = Ret (Some (t / 1000000 * 1000000), set_end 19 e).
Proof.
  intros Ht Honce Hd. destruct (exp_lt_law t Ht) as (x & Hx & Hok & _). unfold nx_date_to_iso.
  rewrite (proj2 (Z.leb_le 20 dstsize)) by lia. cbn [mbind outcome_bind ASSERT]. rewrite Hx.
  change (lit " ") with [" "%byte]. rewrite (iso_text_chars " " x Hok). set (text := iso_chars _ _ _ _ _ _ _).
  assert (no_nul text) as Hn by (by apply iso_chars_no_nul).
  destruct (snprintf_text dst 20 text Hn) as [Hw Hc]; [reflexivity|lia|].
  rewrite Hw. eexists. split; [reflexivity|]. split; [by apply (mem_write_length _ _ _ _ Hw)|].
  rewrite Hc, <- (app_nil_r text). apply iso_first; [done|apply not_elem_of_nil|].
  rewrite (iso_eval " " x [] 0 None 19 e); [|by left|done|apply not_elem_of_nil|by apply iso_tail_end].
  rewrite (time_of_seconds x t None) by (done || lia). simpl. by rewrite Z.add_0_r.
Qed.

(** A time that [nx_date_to_iso] prints is read back by [nx_date_parse], to
    the second and up to the end of the text, if the local clock shows it only
    once. *)
Theorem date_iso_roundtrip `{T : TimeEnv} {TL : TimeLaws T} dst dstsize t e :
  DAY <= t < TIME_MAX - DAY -> shown_once t -> 20 <= dstsize <= zlen dst ->
  exists b, nx_date_to_iso dst dstsize t = Ret (Some b) /\ length b = length dst /\
    nx_date_parse (cstr b) e = Ret (Some (t / 1000000 * 1000000), set_end 19 e).
Proof. exact (date_iso_reads dst dstsize t e). Qed.

(** ** RFC 3164 and asctime *)

Definition hms_chars (h mi c : Z) : bytes := dec 2 h ++ ":"%byte :: dec 2 mi ++ ":"%byte :: dec 2 c.

(** The day of the month in two characters. *)
Definition day_chars (pad : byte) (d : Z) : bytes := if 10 <=? d then dec 2 d else [pad; zb (48 + d mod 10)].

Lemma month_name m : 0 <= m <= 11 -> exists a b c, name_at months m = Ret [a; b; c] /\
  isupper a = true /\ islower b = true /\ islower c = true /\
  list_find (fun m => mint a b c = month_code m) months = Some (Z.to_nat m, [a; b; c]).
Proof.
  intros Hm. assert (exists k, (k < 12)%nat /\ m = Z.of_nat k) as (k & Hk & ->) by (exists (Z.to_nat m); lia).
  do 12 (destruct k as [|k]; [do 3 eexists; split; [reflexivity|]; split_and!; vm_compute; reflexivity|]). lia.
Qed.

Lemma wday_name w : 0 <= w <= 6 -> exists a b c, name_at wdays w = Ret [a; b; c] /\
  isupper a = true /\ islower b = true /\ islower c = true /\
  list_find (fun m => mint a b c = month_code m) months = None.
Proof.
  intros Hm. assert (exists k, (k < 7)%nat /\ w = Z.of_nat k) as (k & Hk & ->) by (exists (Z.to_nat w); lia).
  do 7 (destruct k as [|k]; [do 3 eexists; split; [reflexivity|]; split_and!; vm_compute; reflexivity|]). lia.
Qed.

Lemma upper_facts c : isupper c = true -> isdigit c = false /\ isspace c = false /\ c <> x00 /\ c <> " "%byte.
Proof. destruct c; try discriminate; intros _; split_and!; (reflexivity || discriminate). Qed.
Lemma lower_facts c : islower c = true -> c <> x00 /\ c <> " "%byte.
Proof. destruct c; try discriminate; intros _; split_and!; discriminate. Qed.

Lemma chr_digit d : 0 <= d < 10 -> chr d = zb (48 + d mod 10).
Proof. intros Hd. unfold chr. rewrite Z.mod_small by lia. f_equal. lia. Qed.

Lemma day_chars_length pad d : length (day_chars pad d) = 2%nat.
Proof. unfold day_chars. case_match; [apply dec_length|done]. Qed.

(** The fields of the text behind the month. *)
Lemma hms_eval p h mi c rest : 0 <= h < 100 -> 0 <= mi < 100 -> 0 <= c < 100 ->
  timeparse_std (p ++ hms_chars h mi c ++ rest) (zlen p) = Ret (h, mi, c).
Proof.
  intros Hh Hm Hc.
  assert (forall k x, hms_chars h mi c !! k = Some x -> (p ++ hms_chars h mi c ++ rest) !! Z.to_nat (zlen p + Z.of_nat k) = Some x) as Hread.
  { intros k x Hk. replace (Z.to_nat _) with (length p + k)%nat by lia.
    rewrite lookup_app_r by lia. replace (length p + k - length p)%nat with k by lia. by apply lookup_app_l_Some. }
  set (s := p ++ _) in *. clearbody s.
  assert (forall k z, 0 <= z < 100 -> hms_chars h mi c !! k = Some (zb (48 + (z / 10) mod 10)) ->
    hms_chars h mi c !! S k = Some (zb (48 + z mod 10)) -> num2 s (zlen p + Z.of_nat k) = Ret z) as Hnum.
  { intros k z Hz H1 H2. apply num2_at; [lia|done|by apply Hread|].
    rewrite <- (Hread _ _ H2). do 2 f_equal. lia. }
  unfold timeparse_std. pose proof (Hnum 0%nat h Hh eq_refl eq_refl) as E. rewrite Z.add_0_r in E. rewrite E.
  pose proof (Hnum 3%nat mi Hm eq_refl eq_refl) as E3. change (Z.of_nat 3) with 3 in E3.
  pose proof (Hnum 6%nat c Hc eq_refl eq_refl) as E6. change (Z.of_nat 6) with 6 in E6.
  cbn [mbind outcome_bind]. by rewrite E3; cbn [mbind outcome_bind]; rewrite E6.
Qed.

Definition rfc3164_chars (pad a b c : byte) (d h mi sec : Z) : bytes :=
  [a; b; c; " "%byte] ++ day_chars pad d ++ " "%byte :: hms_chars h mi sec.

Lemma rfc3164_chars_no_nul pad a b c d h mi sec : pad <> x00 -> isupper a = true -> islower b = true -> islower c = true ->
  no_nul (rfc3164_chars pad a b c d h mi sec).
Proof.
  intros Hp Ha Hb Hc. unfold rfc3164_chars, hms_chars, day_chars. apply upper_facts in Ha as (_ & _ & Ha & _).
  apply lower_facts in Hb as [Hb _]. apply lower_facts in Hc as [Hc _]. cbn [app].
  do 4 (apply no_nul_cons; [done|]). apply no_nul_app; [|no_nuls]. case_match; [no_nuls|].
  apply no_nul_cons; [done|]. apply (dec_no_nul 1).
Qed.

Section rfc3164.
Variables (a b c : byte) (d h mi sec : Z).
Hypothesis Ha : isupper a = true.
Hypothesis Hb : islower b = true.
Hypothesis Hc : islower c = true.
Hypothesis Hd : 1 <= d <= 31.
Hypothesis Hh : 0 <= h < 100.
Hypothesis Hmi : 0 <= mi < 100.
Hypothesis Hsec : 0 <= sec < 100.

Lemma rfc3164_mask_two : 10 <= d ->
  _date_checkmask (rfc3164_chars " " a b c d h mi sec) (lit "@$$ ## ##:##:##%*") = Ret true.
Proof using Ha Hb Hc.
  intros H. rewrite <- (app_nil_r (rfc3164_chars _ _ _ _ _ _ _ _)).
  apply (mask_percent (lit "@$$ ## ##:##:##")); [|reflexivity|apply (bool_decide_unpack _); reflexivity|by left].
  unfold rfc3164_chars, day_chars. rewrite (proj2 (Z.leb_le 10 d)) by lia. fits.
Qed.

Lemma rfc3164_mask_one : d < 10 ->
  _date_checkmask (rfc3164_chars " " a b c d h mi sec) (lit "@$$ ## ##:##:##%*") = Ret false /\
  _date_checkmask (rfc3164_chars " " a b c d h mi sec) (lit "@$$  # ##:##:##%*") = Ret true.
Proof using Ha Hb Hc.
  intros H. pose proof (rfc3164_chars_no_nul " " a b c d h mi sec ltac:(done) Ha Hb Hc) as Hn. split.
  - apply (mask_refused _ _ 4 "#"%byte " "%byte Hn); [apply (bool_decide_unpack _); reflexivity|reflexivity|reflexivity| |reflexivity].
    unfold rfc3164_chars, day_chars. by rewrite (proj2 (Z.leb_gt 10 d)) by lia.
  - rewrite <- (app_nil_r (rfc3164_chars _ _ _ _ _ _ _ _)).
    apply (mask_percent (lit "@$$  # ##:##:##")); [|reflexivity|apply (bool_decide_unpack _); reflexivity|by left].
    unfold rfc3164_chars, day_chars. rewrite (proj2 (Z.leb_gt 10 d)) by lia. fits.
Qed.

Lemma rfc3164_time rest pad : timeparse_std (rfc3164_chars pad a b c d h mi sec ++ rest) 7 = Ret (h, mi, sec).
Proof using Hh Hmi Hsec.
  pose proof (hms_eval ([a; b; c; " "%byte] ++ day_chars pad d ++ [" "%byte]) h mi sec rest Hh Hmi Hsec) as Ht.
  replace (zlen _) with 7 in Ht by (rewrite !length_app, day_chars_length; reflexivity).
  rewrite <- Ht. f_equal. unfold rfc3164_chars. by rewrite <- !app_assoc.
Qed.

Lemma rfc3164_day rest : 10 <= d -> num2 (rfc3164_chars " " a b c d h mi sec ++ rest) 4 = Ret d.
Proof using Hd. intros H. unfold rfc3164_chars, day_chars. rewrite (proj2 (Z.leb_le 10 d)) by lia. apply num2_at; [lia|lia|reflexivity|reflexivity]. Qed.

Lemma rfc3164_day_one rest pad : d < 10 ->
  cchar (rfc3164_chars pad a b c d h mi sec ++ rest) 5 = Ret (zb (48 + d mod 10)).
Proof using Hd. intros H. unfold rfc3164_chars, day_chars. rewrite (proj2 (Z.leb_gt 10 d)) by lia. by apply cchar_lookup. Qed.

Lemma rfc3164_fields_eval : rfc3164_fields (rfc3164_chars " " a b c d h mi sec) = Ret (Some (d, (h, mi, sec))).
Proof using Ha Hb Hc Hd Hh Hmi Hsec.
  pose proof (rfc3164_time [] " ") as Ht. rewrite app_nil_r in Ht. unfold rfc3164_fields. destruct (Z.leb_spec 10 d).
  - pose proof (rfc3164_day [] ltac:(done)) as Hday. rewrite app_nil_r in Hday.
    eapply bind_is; [by apply rfc3164_mask_two|]. eapply bind_is; [exact Hday|]. eapply bind_is; [exact Ht|]. reflexivity.
  - destruct rfc3164_mask_one as [E1 E2]; [done|].
    pose proof (rfc3164_day_one [] " " ltac:(done)) as Hday. rewrite app_nil_r in Hday.
    eapply bind_is; [exact E1|]. eapply bind_is; [exact E2|]. eapply bind_is; [exact Hday|].
    eapply bind_is; [exact Ht|]. by rewrite digit_mod, Z.mod_small by lia.
Qed.

End rfc3164.

(** A month or weekday name at the front of a date. *)
Lemma find_month_front a b c r i : list_find (fun m => mint a b c = month_code m) months = i ->
  find_month (a :: b :: c :: r) 0 = Ret (match i with Some (k, _) => Z.of_nat k | None => 12 end).
Proof. intros <-. unfold find_month. do 3 (eapply bind_is; [apply cchar_lookup; [lia|reflexivity]|]). reflexivity. Qed.

Section names.
Context `{T : TimeEnv} {TL : TimeLaws T}.

Lemma bad_fields x : exp_ok x ->
  bad_mday (x_mday x) || bad_time (x_hour x, x_min x, x_sec x) = false /\
  bad_mday (x_mday x) || bad_time (x_hour x, x_min x, x_sec x) || bad_31 (x_mday x) (x_mon x) = false.
Proof using.
  intros []. unfold bad_mday, bad_time. rewrite ok_32.
  repeat rewrite (proj2 (Z.leb_gt _ _)) by lia. by repeat rewrite (proj2 (Z.ltb_ge _ _)) by lia.
Qed.

(** The text with the name of a month at its front, read by the first format. *)
Lemma rfc3164_parse x n t e a b c : exp_ok x -> DAY <= t -> shown_once t -> apr_time_exp_lt t = Some x ->
  apr_time_exp_gmt apr_time_now = Some n -> x_year n = x_year x ->
  isupper a = true -> islower b = true -> islower c = true ->
  list_find (fun m => mint a b c = month_code m) months = Some (Z.to_nat (x_mon x), [a; b; c]) ->
  nx_date_parse_rfc3164 (rfc3164_chars " " a b c (x_mday x) (x_hour x) (x_min x) (x_sec x)) e =
  Ret (Some (t / 1000000 * 1000000), set_end 15 e).
Proof using TL.
  intros Hok Ht Honce Hx Hn Hy Ha Hb Hc Hfind. destruct (upper_facts a Ha) as (Hda & Hsa & _).
  destruct (bad_fields x Hok) as [_ Hbad]. pose proof Hok as []. unfold nx_date_parse_rfc3164.
  pose proof (rfc3164_fields_eval a b c (x_mday x) (x_hour x) (x_min x) (x_sec x) Ha Hb Hc ltac:(lia) ltac:(lia) ltac:(lia) ltac:(lia)) as Hf.
  set (s := rfc3164_chars _ _ _ _ _ _ _ _) in *. assert (s = a :: b :: c :: drop 3 s) as Es by reflexivity.
  eapply bind_is; [apply cchar_lookup; [lia|reflexivity]|]. rewrite Hda. cbv zeta.
  assert (skip_space s = s) as -> by (rewrite Es; cbn [skip_space]; by rewrite Hsa). rewrite Z.sub_diag.
  assert (forall A (u v : A), match s with [] => u | _ => v end = v) as -> by (intros; by rewrite Es).
  eapply bind_is; [apply cchar_lookup; [lia|reflexivity]|]. rewrite (proj2 (beq_false b _)) by (by apply lower_facts in Hb as []).
  eapply bind_is; [apply cchar_lookup; [lia|reflexivity]|]. rewrite (proj2 (beq_false c _)) by (by apply lower_facts in Hc as []).
  eapply bind_is; [rewrite Es; by apply find_month_front|]. cbv beta iota. rewrite Z2Nat.id, (proj2 (Z.eqb_neq _ _)) by lia.
  eapply bind_is; [exact Hf|]. cbv beta iota. rewrite Hbad.
  eapply bind_is; [unfold _get_curr_year; by rewrite Hn|]. rewrite Hy, (time_of_seconds x t (Some 0)) by done. reflexivity.
Qed.

End names.

(** What [nx_date_to_rfc3164] prints for a time of the current year is read
    back by [nx_date_parse], to the second and up to the end of the text. *)
Theorem date_rfc3164_roundtrip `{T : TimeEnv} {TL : TimeLaws T} dst dstsize t e x n :
  DAY <= t < TIME_MAX - DAY -> shown_once t -> 16 <= dstsize <= zlen dst ->
  apr_time_exp_lt t = Some x -> apr_time_exp_gmt apr_time_now = Some n -> x_year n = x_year x ->
  exists b, nx_date_to_rfc3164 dst dstsize t = Ret (Some b) /\ length b = length dst /\
    nx_date_parse (cstr b) e = Ret (Some (t / 1000000 * 1000000), set_end 15 e).
Proof.
  intros Ht Honce Hd Hx Hn Hy. destruct (exp_lt_law t Ht) as (x' & Hx' & Hok & _). rewrite Hx in Hx'. injection Hx' as <-.
  pose proof Hok as []. destruct (month_name (x_mon x) ok_mon0) as (a & b & c & Hname & Ha & Hb & Hc & Hfind).
  unfold nx_date_to_rfc3164. rewrite (proj2 (Z.leb_le 16 dstsize)), Hx by lia. cbn [mbind outcome_bind ASSERT].
  rewrite (proj2 (Z.ltb_lt _ 12)) by lia. cbn [mbind outcome_bind ASSERT]. rewrite Hname. cbn [mbind outcome_bind].
  set (text := rfc3164_chars " " a b c (x_mday x) (x_hour x) (x_min x) (x_sec x)).
  match goal with |- context [mem_write dst 0 ?w] => assert (w = text ++ [x00]) as -> end.
  { subst text. unfold rfc3164_chars, hms_chars, day_chars. rewrite !(two_dec (x_hour x)), (two_dec (x_min x)), (two_dec (x_sec x)) by lia.
    destruct (Z.leb_spec 10 (x_mday x)); [rewrite (two_dec (x_mday x)) by lia; reflexivity|].
    rewrite chr_digit by lia. reflexivity. }
  assert (no_nul text) as Hnn by (by apply rfc3164_chars_no_nul).
  assert (length text = 15%nat) as Hl.
  { subst text. unfold rfc3164_chars. rewrite !length_app, day_chars_length. reflexivity. }
  destruct (snprintf_text dst 16 text Hnn) as [Hw Hcs]; [lia|lia|]. unfold snprintf in Hw. rewrite take_ge in Hw by lia.
  rewrite Hw. eexists. split; [reflexivity|]. split; [by apply (mem_write_length _ _ _ _ Hw)|]. rewrite Hcs.
  apply try_parsers_hit. apply (rfc3164_parse x n); (done || lia).
Qed.

(** *** asctime *)

Lemma year_chars y : 1000 <= y < 10000 ->
  let y3 := y - Z.quot y 1000 * 1000 in let y2 := y3 - Z.quot y3 100 * 100 in
  [chr (Z.quot y 1000); chr (Z.quot y3 100)] ++ two y2 = dec 4 y.
Proof.
  intros Hy y3 y2. subst y2 y3. rewrite two_dec by dlia. cbn [dec app]. rewrite !chr_digit by dlia.
  do 3 (f_equal; [f_equal; dlia|]). do 2 f_equal. dlia.
Qed.

Lemma year4_at s k y : 0 <= k -> 1900 <= y < 10000 ->
  (forall j x, dec 4 y !! j = Some x -> s !! Z.to_nat (k + Z.of_nat j) = Some x) -> year4 s k = Ret (Some (y - 1900)).
Proof.
  intros Hk Hy Hread. unfold year4.
  assert (num2 s k = Ret (y / 100)) as ->.
  { apply num2_at; [lia|dlia| |].
    - rewrite <- (Z.add_0_r k). apply (Hread 0%nat). cbn [dec app lookup list_lookup]. do 3 f_equal. dlia.
    - apply (Hread 1%nat). cbn [dec app lookup list_lookup]. do 3 f_equal. dlia. }
  cbn [mbind outcome_bind]. rewrite (proj2 (Z.ltb_ge _ 0)) by dlia.
  assert (num2 s (k + 2) = Ret (y mod 100)) as ->.
  { apply num2_at; [lia|dlia| |].
    - apply (Hread 2%nat). cbn [dec app lookup list_lookup]. do 3 f_equal. dlia.
    - rewrite <- Z.add_assoc. apply (Hread 3%nat). cbn [dec app lookup list_lookup]. do 3 f_equal. dlia. }
  cbn [mbind outcome_bind]. do 2 f_equal. dlia.
Qed.

Lemma first_format_skip s mask f fs : _date_checkmask s mask = Ret false -> first_format s ((mask, f) :: fs) = first_format s fs.
Proof. intros H. cbn [first_format]. by rewrite H. Qed.

Lemma first_format_hit s mask f fs : _date_checkmask s mask = Ret true -> first_format s ((mask, f) :: fs) = f.
Proof. intros H. cbn [first_format]. by rewrite H. Qed.

Section asctime.
Variables (a b c : byte) (d h mi sec y : Z) (pad : byte).
Hypothesis Ha : isupper a = true.
Hypothesis Hb : islower b = true.
Hypothesis Hc : islower c = true.
Hypothesis Hd : 1 <= d <= 31.
Hypothesis Hh : 0 <= h < 100.
Hypothesis Hmi : 0 <= mi < 100.
Hypothesis Hsec : 0 <= sec < 100.
Hypothesis Hy : 1900 <= y < 10000.
Hypothesis Hpad : pad = " "%byte \/ pad = "0"%byte.

(** The text behind the weekday. *)
Definition asctime_chars : bytes := rfc3164_chars pad a b c d h mi sec ++ " "%byte :: dec 4 y.

Lemma asctime_no_nul : no_nul asctime_chars.
Proof using Ha Hb Hc Hpad.
  unfold asctime_chars. apply no_nul_app; [|no_nuls]. apply rfc3164_chars_no_nul; try done. by destruct Hpad as [-> | ->].
Qed.

Lemma asctime_day : space_day asctime_chars 4 = Ret d.
Proof using Hd Hh Hmi Hsec Hy Hpad.
  unfold space_day. destruct (Z.leb_spec 10 d).
  - unfold asctime_chars, rfc3164_chars, day_chars. rewrite (proj2 (Z.leb_le 10 d)) by lia.
    do 2 (eapply bind_is; [apply cchar_lookup; [lia|reflexivity]|]). cbv beta.
    rewrite (proj2 (beq_false _ _)), !digit_mod by (intros E; pose proof (isdigit_zb (d / 10)) as E'; by rewrite E in E').
    f_equal. dlia.
  - eapply bind_is with (a := pad); [|eapply bind_is; [apply (rfc3164_day_one a b c d h mi sec Hd (" "%byte :: dec 4 y) pad); lia|]].
    + apply cchar_lookup; [lia|]. unfold asctime_chars, rfc3164_chars, day_chars. by rewrite (proj2 (Z.leb_gt 10 d)) by lia.
    + rewrite digit_mod, Z.mod_small by lia. f_equal. by destruct Hpad as [-> | ->].
Qed.

Lemma asctime_mask : _date_checkmask asctime_chars (lit "@$$ ~# ##:##:## ####%*") = Ret true.
Proof using Ha Hb Hc Hpad.
  rewrite <- (app_nil_r asctime_chars).
  apply (mask_percent (lit "@$$ ~# ##:##:## ####")); [|reflexivity|apply (bool_decide_unpack _); reflexivity|by left].
  assert (forall z, mask_class "~" (zb (48 + z mod 10)) = true) as Hz.
  { intros z. change (mask_class "~" ?q) with ((q =c " ") || isdigit q). by rewrite isdigit_zb, orb_true_r. }
  assert (mask_class "~" pad = true) as Hp by (by destruct Hpad as [-> | ->]).
  unfold asctime_chars, rfc3164_chars, day_chars. destruct (10 <=? d);
    repeat (constructor; [first [exact (isdigit_zb _) | assumption | apply Hz | reflexivity]|]); constructor.
Qed.

Lemma asctime_fields :
  first_format asctime_chars (rfc1123_formats asctime_chars) = Ret (Some (Parts (y - 1900) d 0 (h, mi, sec) None (Some 20))).
Proof using Ha Hb Hc Hd Hh Hmi Hsec Hy Hpad.
  pose proof asctime_no_nul as Hn. assert (mask_class "#" a = false) as Hcls by (by apply upper_facts in Ha as (? & _)).
  unfold rfc1123_formats. do 2 (etransitivity; [apply first_format_skip; refused 0%nat|]).
  etransitivity; [apply first_format_hit, asctime_mask|]. unfold fields.
  eapply bind_is; [apply (year4_at _ 16 y); [lia|done|]|eapply bind_is; [exact asctime_day|eapply bind_is; [by apply rfc3164_time|reflexivity]]].
  intros j x Hj. unfold asctime_chars.
  assert (length (rfc3164_chars pad a b c d h mi sec) = 15%nat) as Hl.
  { unfold rfc3164_chars. rewrite !length_app, day_chars_length. reflexivity. }
  rewrite lookup_app_r by lia. rewrite Hl. by replace (Z.to_nat (16 + Z.of_nat j) - 15)%nat with (S j) by lia.
Qed.

End asctime.

Section asctime_parse.
Context `{T : TimeEnv} {TL : TimeLaws T}.
Variables (x : time_exp) (t : Z) (wa wb wc a b c pad : byte).
Hypothesis Hok : exp_ok x.
Hypothesis Ht : DAY <= t.
Hypothesis Honce : shown_once t.
Hypothesis Hx : apr_time_exp_lt t = Some x.
Hypothesis Hwa : isupper wa = true.
Hypothesis Hwb : islower wb = true.
Hypothesis Hwc : islower wc = true.
Hypothesis Hwfind : list_find (fun m => mint wa wb wc = month_code m) months = None.
Hypothesis Ha : isupper a = true.
Hypothesis Hb : islower b = true.
Hypothesis Hc : islower c = true.
Hypothesis Hfind : list_find (fun m => mint a b c = month_code m) months = Some (Z.to_nat (x_mon x), [a; b; c]).
Hypothesis Hpad : pad = " "%byte \/ pad = "0"%byte.

Definition asctime_text : bytes :=
  [wa; wb; wc; " "%byte] ++ asctime_chars a b c (x_mday x) (x_hour x) (x_min x) (x_sec x) (x_year x + 1900) pad.

Lemma asctime_not_rfc3164 e : nx_date_parse_rfc3164 asctime_text e = Ret (None, e).
Proof using Hwa Hwb Hwc Hwfind.
  destruct (upper_facts wa Hwa) as (Hda & Hsa & _). unfold nx_date_parse_rfc3164.
  assert (asctime_text = wa :: wb :: wc :: drop 3 asctime_text) as Es by reflexivity.
  set (s := asctime_text) in *. clearbody s. rewrite Es. generalize (drop 3 s). clear Es s. intros r.
  eapply bind_is; [apply cchar_lookup; [lia|reflexivity]|]. rewrite Hda. cbv zeta. cbn [skip_space]. rewrite Hsa. cbv iota.
  eapply bind_is; [apply cchar_lookup; [lia|reflexivity]|]. rewrite (proj2 (beq_false wb _)) by (by apply lower_facts in Hwb as []).
  eapply bind_is; [apply cchar_lookup; [lia|reflexivity]|]. rewrite (proj2 (beq_false wc _)) by (by apply lower_facts in Hwc as []).
  eapply bind_is; [by apply find_month_front|]. reflexivity.
Qed.

Lemma asctime_rfc1123 e : nx_date_parse_rfc1123 asctime_text e = Ret (Some (t / 1000000 * 1000000), set_end 24 e).
Proof using All.
  destruct (upper_facts wa Hwa) as (Hda & Hsa & _ & Hwa'). apply lower_facts in Hwb as [_ Hwb']. apply lower_facts in Hwc as [_ Hwc'].
  destruct (bad_fields x Hok) as [Hbad _]. pose proof Hok as [].
  pose proof (asctime_fields a b c (x_mday x) (x_hour x) (x_min x) (x_sec x) (x_year x + 1900) pad Ha Hb Hc
    ltac:(lia) ltac:(lia) ltac:(lia) ltac:(lia) ltac:(lia) Hpad) as Hf.
  unfold asctime_text. set (s := asctime_chars _ _ _ _ _ _ _ _ _) in *.
  assert (find_month s 0 = Ret (x_mon x)) as Hmon.
  { assert (s = a :: b :: c :: drop 3 s) as -> by reflexivity. rewrite (find_month_front _ _ _ _ _ Hfind). by rewrite Z2Nat.id by lia. }
  clearbody s. unfold nx_date_parse_rfc1123. eapply bind_is; [apply cchar_lookup; [lia|reflexivity]|]. rewrite Hda.
  cbn [app skip_space]. rewrite Hsa. cbn [after_space].
  rewrite (proj2 (beq_false wa _)), (proj2 (beq_false wb _)), (proj2 (beq_false wc _)), beq_refl by done.
  cbv beta iota zeta. eapply bind_is; [exact Hf|]. unfold rfc1123_finish. cbn [p_end p_mday p_time p_monstr p_tzstr p_year]. rewrite Hbad.
  eapply bind_is; [exact Hmon|]. rewrite (proj2 (Z.eqb_neq _ 12)) by lia.
  replace (x_year x + 1900 - 1900) with (x_year x) by lia. rewrite ok_32, ok_feb0. cbn [orb].
  eapply bind_is; [reflexivity|]. cbv beta iota. rewrite (time_of_seconds x t _ Ht Honce Hx).
  rewrite bool_decide_eq_false_2 by apply set_end_pointed. cbn [negb ASSERT mbind outcome_bind].
  do 3 f_equal. cbn [length]. lia.
Qed.

Lemma asctime_parse e : nx_date_parse asctime_text e = Ret (Some (t / 1000000 * 1000000), set_end 24 e).
Proof using All.
  unfold nx_date_parse. rewrite try_parsers_skip by apply asctime_not_rfc3164. apply try_parsers_hit, asctime_rfc1123.
Qed.

End asctime_parse.

(** What [nx_date_to_rfc3164_wday_year] prints (the format of [asctime], the
    day padded with a space or a zero) is read back by [nx_date_parse], to the
    second and up to the end of the text. *)
Theorem date_asctime_roundtrip `{T : TimeEnv} {TL : TimeLaws T} dst dstsize t spaceday e :
  DAY <= t < TIME_MAX - DAY -> shown_once t -> 25 <= dstsize <= zlen dst ->
  exists b, nx_date_to_rfc3164_wday_year dst dstsize t spaceday = Ret (Some b) /\ length b = length dst /\
    nx_date_parse (cstr b) e = Ret (Some (t / 1000000 * 1000000), set_end 24 e).
Proof.
  intros Ht Honce Hd. destruct (exp_lt_law t Ht) as (x & Hx & Hok & _). pose proof Hok as [].
  destruct (month_name (x_mon x) ok_mon0) as (a & b & c & Hname & Ha & Hb & Hc & Hfind).
  destruct ok_wday0 as (w & Hw & Hwr). destruct (wday_name w Hwr) as (wa & wb & wc & Hwname & Hwa & Hwb & Hwc & Hwfind).
  unfold nx_date_to_rfc3164_wday_year. rewrite (proj2 (Z.leb_le 25 dstsize)), Hx by lia. cbn [mbind outcome_bind ASSERT].
  rewrite (proj2 (Z.ltb_lt _ 12)), Hw by lia. cbn [mbind outcome_bind ASSERT deref].
  rewrite (proj2 (Z.leb_le 0 w)), (proj2 (Z.leb_le w 6)) by lia. cbn [andb mbind outcome_bind ASSERT].
  rewrite Hwname, Hname. cbn [mbind outcome_bind].
  set (pad := if spaceday then " "%byte else "0"%byte).
  set (s := asctime_chars a b c (x_mday x) (x_hour x) (x_min x) (x_sec x) (x_year x + 1900) pad).
  assert (pad = " "%byte \/ pad = "0"%byte) as Hpad by (subst pad; destruct spaceday; auto).
  set (text := [wa; wb; wc; " "%byte] ++ s).
  match goal with |- context [mem_write dst 0 ?w] => assert (w = text ++ [x00]) as -> end.
  { rewrite (proj2 (Z.ltb_lt (x_year x) 1900)) by lia.
    subst text s. unfold asctime_chars, rfc3164_chars, hms_chars, day_chars.
    rewrite <- (year_chars (x_year x + 1900)), (two_dec (x_hour x)), (two_dec (x_min x)), (two_dec (x_sec x)) by lia.
    destruct (Z.leb_spec 10 (x_mday x)); [rewrite (two_dec (x_mday x)) by lia; reflexivity|].
    rewrite chr_digit by lia. reflexivity. }
  assert (no_nul text) as Hnn.
  { apply upper_facts in Hwa as (_ & _ & ? & _). apply lower_facts in Hwb as [? _]. apply lower_facts in Hwc as [? _].
    subst text. cbn [app]. do 4 (apply no_nul_cons; [done|]). by apply asctime_no_nul. }
  assert (length text = 24%nat) as Hl.
  { subst text s. unfold asctime_chars, rfc3164_chars. rewrite !length_app, day_chars_length. reflexivity. }
  destruct (snprintf_text dst 25 text Hnn) as [Hwr' Hcs]; [lia|lia|]. unfold snprintf in Hwr'. rewrite take_ge in Hwr' by lia.
  rewrite Hwr'. eexists. split; [reflexivity|]. split; [by apply (mem_write_length _ _ _ _ Hwr')|]. rewrite Hcs.
  by apply (asctime_parse x); (done || lia).
Qed.

(** ** Witnesses *)

Lemma date_iso_roundtrip_witness : exists b,
  nx_date_to_iso (T := utc_env 0) (replicate 20 x00) 20 1700000000123456 = Ret (Some b) /\
  length b = 20%nat /\ nx_date_parse (T := utc_env 0) (cstr b) (Some (Some 0)) = Ret (Some 1700000000000000, Some (Some 19)).
Proof.
  apply (date_iso_roundtrip (T := utc_env 0) (replicate 20 x00) 20 1700000000123456 (Some (Some 0))).
  - unfold TIME_MAX, DAY. lia.
  - apply utc_shown_once. unfold TIME_MAX, DAY. lia.
  - simpl. lia.
Defined.

Lemma date_rfc5424_roundtrip_witness : exists b,
  nx_date_to_rfc5424 (T := utc_env 0) (replicate 33 x00) 33 false 1700000000123456 = Ret (Some b) /\
  length b = 33%nat /\ nx_date_parse (T := utc_env 0) (cstr b) (Some (Some 0)) = Ret (Some 1700000000123456, Some (Some 32)).
Proof.
  apply (date_rfc5424_roundtrip (T := utc_env 0) (replicate 33 x00) 33 false 1700000000123456 (Some (Some 0))).
  - unfold TIME_MAX, DAY. lia.
  - simpl. lia.
  - intros _ x Hx. vm_compute in Hx. injection Hx as <-. simpl. lia.
Defined.

Lemma date_rfc3164_roundtrip_witness : exists b,
  nx_date_to_rfc3164 (T := utc_env 1690000000000000) (replicate 16 x00) 16 1700000000123456 = Ret (Some b) /\
  length b = 16%nat /\
  nx_date_parse (T := utc_env 1690000000000000) (cstr b) (Some (Some 0)) = Ret (Some 1700000000000000, Some (Some 15)).
Proof.
  eapply (date_rfc3164_roundtrip (T := utc_env 1690000000000000) (replicate 16 x00) 16 1700000000123456 (Some (Some 0))).
  - unfold TIME_MAX, DAY. lia.
  - apply utc_shown_once. unfold TIME_MAX, DAY. lia.
  - simpl. lia.
  - vm_compute. reflexivity.
  - vm_compute. reflexivity.
  - reflexivity.
Defined.

Lemma date_asctime_roundtrip_witness : exists b,
  nx_date_to_rfc3164_wday_year (T := utc_env 0) (replicate 25 x00) 25 1700000000123456 true = Ret (Some b) /\
  length b = 25%nat /\ nx_date_parse (T := utc_env 0) (cstr b) (Some (Some 0)) = Ret (Some 1700000000000000, Some (Some 24)).
Proof.
  apply (date_asctime_roundtrip (T := utc_env 0) (replicate 25 x00) 25 1700000000123456 true (Some (Some 0))).
  - unfold TIME_MAX, DAY. lia.
  - apply utc_shown_once. unfold TIME_MAX, DAY. lia.
  - simpl. lia.
Defined.


(** The zone of a place half an hour west of UTC is printed like that of a place
    half an hour east of it. *)
Lemma rfc5424_sign_lost : zone_chars (- 1800) = lit "+00:30" /\ zone_chars 1800 = lit "+00:30".
Proof. by vm_compute. Qed.

(** A text that is no date is a timestamp of value 0. *)
Lemma timestamp_accepts_blank `{T : TimeEnv} :
  nx_date_parse_timestamp [] (Some (Some 0)) = Ret (Some 0, Some (Some 0)) /\
  nx_date_parse_timestamp (lit " foo") (Some (Some 0)) = Ret (Some 0, Some (Some 0)).
Proof. by vm_compute. Qed.

(** Nineteen digits overflow the seconds of a timestamp. *)
Lemma timestamp_overflow :
  nx_date_parse_timestamp (T := utc_env 0) (lit "9999999999999999999") None = Undef "signed overflow".
Proof. by vm_compute. Qed.

(** The RFC 1123 format with a zone moves [*dateend] and asserts that it is not
    NULL: a caller that passes a pointer to NULL stops the process. *)
Lemma rfc1123_null_end :
  (nx_date_parse_rfc1123 (T := utc_env 0) (lit "06 Nov 1994 08:49:37 x") (Some None) = Panic "*dateend != NULL") /\
  (nx_date_parse_rfc1123 (T := utc_env 0) (lit "06 Nov 1994 08:49:37 GMT") (Some None) = Undef "arithmetic on a null pointer").
Proof. by vm_compute. Qed.

(** The position behind a one-digit day separated by one space is one character
    behind the terminator of the text. *)
Lemma rfc3164_end_outside :
  nx_date_parse_rfc3164 (T := utc_env 0) (lit "Jan 2 03:04:05") (Some (Some 0)) = Ret (Some 97445000000, Some (Some 15)) /\
  zlen (lit "Jan 2 03:04:05") = 14.
Proof. by vm_compute. Qed.

End DateFormat.
