(* ===== verification/Schedule.v ===== *)
(** * Schedules (common/schedule.h, common/schedule.c)

    A schedule is an interval or a crontab line.  A crontab is five tables of flags,
    one per field; the parser sets the flags, and [nx_schedule_entry_next_run] looks
    at every minute of the following year for one whose fields are all set.  A text is
    given by its bytes before the terminator.  The calendar is the class [TimeEnv] of
    [Date]. *)

From S2P Require Import Prelude Str CLib Date DateFormat.
Import Str CLib Date DateFormat.

Module Schedule.

(** ** Data *)

Record crontab := Cron { c_min : list bool; c_hour : list bool; c_day : list bool; c_month : list bool; c_wday : list bool }.

(** [nx_schedule_entry_t]: the union holds the one or the other. *)
Inductive entry := EVERY (every first : Z) | CRONTAB (c : crontab).

(** The arrays of an entry that was allocated with zeros. *)
Definition no_flags : crontab :=
  Cron (replicate 60 false) (replicate 24 false) (replicate 31 false) (replicate 12 false) (replicate 8 false).

(** ** The parser *)

Definition INT_MAX : Z := 2 ^ 31 - 1.

(** The digits of [parse_int]: signed overflow is undefined. *)
Fixpoint int_digits (p : bytes) (n : Z) : outcome (bytes * Z) :=
  match p with
  | c :: p' =>
      if isdigit c then
        if n * 10 + digit c <=? INT_MAX then int_digits p' (n * 10 + digit c) else Undef "signed overflow"
      else Ret (p, n)
  | [] => Ret ([], n)
  end.

Definition parse_int (p : bytes) : outcome (bytes * Z) :=
  match p with
  | c :: _ => if isdigit c then int_digits p 0 else Throw "integer expected, found [%s]"
  | [] => Throw "integer expected, found [%s]"
  end.

(** [dst[i] = 1] *)
Definition mark (i : Z) (dst : list bool) : outcome (list bool) :=
  if (0 <=? i) && (i <? zlen dst) then Ret (<[Z.to_nat i := true]> dst) else Undef "write outside the array".

(** [x % n == 0] *)
Definition multiple (x n : Z) : outcome bool := if n =? 0 then Undef "division by zero" else Ret (Z.rem x n =? 0).

(** [for ( ; i < i + n; i++ ) if ( p(i) ) dst[i] = 1;] *)
Fixpoint mark_where (p : Z -> outcome bool) (i : Z) (n : nat) (dst : list bool) : outcome (list bool) :=
  match n with
  | O => Ret dst
  | S n => b ← p i; dst ← (if (b : bool) then mark i dst else Ret dst); mark_where p (i + 1) n dst
  end.

Section field.
Variables first last : Z.

Definition in_range (n : Z) : outcome unit :=
  if (last <? n) || (n <? first) then Throw "invalid crontab format, value out of range for %s: %d" else Ret tt.

(** The part of an element behind its first number [num1], which is set already. *)
Definition parse_range (p : bytes) (num1 : Z) (dst : list bool) : outcome (bytes * list bool) :=
  match p with
  | c :: p' =>
      if c =c "-" then
        '(p, num2) ← parse_int p';
        _ ← in_range num2;
        let num2 := num2 - first in
        match p with
        | c :: p' =>
            if c =c "/" then
              '(p, num3) ← parse_int p';
              dst ← mark_where (fun i => multiple (i + first) num3) num1 (Z.to_nat (num2 - num1)) dst;
              Ret (p, dst)
            else dst ← mark_where (fun _ => Ret true) num1 (Z.to_nat (num2 - num1 + 1)) dst; Ret (p, dst)
        | [] => dst ← mark_where (fun _ => Ret true) num1 (Z.to_nat (num2 - num1 + 1)) dst; Ret (p, dst)
        end
      else Ret (p, dst)
  | [] => Ret (p, dst)
  end.

(** One turn of the [while] loop. *)
Definition parse_element (p : bytes) (dst : list bool) : outcome (bytes * list bool) :=
  '(p, num1) ← parse_int p;
  _ ← in_range num1;
  let num1 := num1 - first in
  _ ← ASSERT (num1 <? zlen dst) "num1 < dstsize";
  dst ← mark num1 dst;
  '(p, dst) ← parse_range p num1 dst;
  match p with
  | c :: p' => if c =c "," then Ret (p', dst) else Ret (p, dst)
  | [] => Ret (p, dst)
  end.

(** [fuel] bounds the turns. *)
Fixpoint parse_elements (fuel : nat) (p : bytes) (dst : list bool) : outcome (bytes * list bool) :=
  match p with
  | [] => Ret (p, dst)
  | c :: _ =>
      if isspace c then Ret (p, dst)
      else match fuel with
        | O => Undef "out of fuel"
        | S fuel => '(p, dst) ← parse_element p dst; parse_elements fuel p dst
        end
  end.

Definition parse_field (p : bytes) (dst : list bool) : outcome (bytes * list bool) :=
  match p with
  | c :: p' =>
      if c =c "*" then
        match p' with
        | d :: p'' =>
            if d =c "/" then
              '(p, num2) ← parse_int p'';
              dst ← mark_where (fun i => multiple (i + first) num2) 0 (length dst) dst;
              Ret (p, dst)
            else dst ← mark_where (fun _ => Ret true) 0 (length dst) dst; Ret (p', dst)
        | [] => dst ← mark_where (fun _ => Ret true) 0 (length dst) dst; Ret (p', dst)
        end
      else if isdigit c then parse_elements (length p) p dst
      else Throw "invalid crontab format, char not valid in field %s: [%s]"
  | [] => Throw "invalid crontab format, char not valid in field %s: [%s]"
  end.

End field.

(** The macro [skip_space]. *)
Fixpoint skip_blanks (p : bytes) : bytes :=
  match p with
  | c :: p' => if (c =c " ") || (c =c x09) then skip_blanks p' else p
  | [] => []
  end.

(** The names after [@]. *)
Definition set_first (l : list bool) : list bool := <[O := true]> l.
Definition set_all (l : list bool) : list bool := (fun _ => true) <$> l.

Definition parse_macro (e : crontab) (str : bytes) : outcome crontab :=
  let name n := strcasecmp_eq (lit n) str in
  if name "reboot"%string then Throw "@reboot not supported"
  else if name "yearly"%string || name "annually"%string then
    Ret (Cron (set_first (c_min e)) (set_first (c_hour e)) (set_first (c_day e)) (set_first (c_month e)) (set_all (c_wday e)))
  else if name "monthly"%string then
    Ret (Cron (set_first (c_min e)) (set_first (c_hour e)) (set_first (c_day e)) (set_all (c_month e)) (set_all (c_wday e)))
  else if name "weekly"%string then
    Ret (Cron (set_first (c_min e)) (set_first (c_hour e)) (set_all (c_day e)) (set_all (c_month e)) (set_first (c_wday e)))
  else if name "daily"%string || name "midnight"%string then
    Ret (Cron (set_first (c_min e)) (set_first (c_hour e)) (set_all (c_day e)) (set_all (c_month e)) (set_all (c_wday e)))
  else if name "hourly"%string then
    Ret (Cron (set_first (c_min e)) (set_all (c_hour e)) (set_all (c_day e)) (set_all (c_month e)) (set_all (c_wday e)))
  else Throw "invalid crontab macro: @%s".

(** Sunday is 0 or 7. *)
Definition sunday (l : list bool) : list bool := if bool_decide (l !! 7%nat = Some true) then set_first l else l.

Definition nx_schedule_entry_parse_crontab (e : crontab) (str : bytes) : outcome crontab :=
  let fields :=
    '(p, mi) ← parse_field 0 59 (skip_blanks str) (c_min e);
    '(p, ho) ← parse_field 0 23 (skip_blanks p) (c_hour e);
    '(p, da) ← parse_field 1 31 (skip_blanks p) (c_day e);
    '(p, mo) ← parse_field 1 12 (skip_blanks p) (c_month e);
    '(p, wd) ← parse_field 0 7 (skip_blanks p) (c_wday e);
    Ret (Cron mi ho da mo (sunday wd)) in
  match str with
  | c :: p => if c =c "@" then parse_macro e p else fields
  | [] => fields
  end.

(** [nx_schedule_entry_parse_every]: signed 64-bit arithmetic. *)
Definition i64 (z : Z) : outcome Z := if (- 2 ^ 63 <=? z) && (z <? 2 ^ 63) then Ret z else Undef "signed overflow".

Fixpoint every_digits (p : bytes) (n : Z) : outcome (bytes * Z) :=
  match p with
  | c :: p' => if isdigit c then n ← i64 (n * 10 + digit c); every_digits p' n else Ret (p, n)
  | [] => Ret ([], n)
  end.

Definition nx_schedule_entry_parse_every (str : bytes) : outcome Z :=
  '(p, val) ← every_digits str 0;
  let p := skip_blanks p in
  match p with
  | [] => Ret val
  | _ =>
      if strcasecmp_eq p (lit "sec") then Ret val
      else if strcasecmp_eq p (lit "min") then i64 (val * 60)
      else if strcasecmp_eq p (lit "hour") then i64 (val * (60 * 60))
      else if strcasecmp_eq p (lit "day") then i64 (val * (60 * 60 * 24))
      else if strcasecmp_eq p (lit "week") then i64 (val * (60 * 60 * 24 * 7))
      else Throw "invalid time specifier: %s"
  end.

(** ** The next run *)

Section next_run.
Context {T : TimeEnv}.

Definition flag (l : list bool) (i : Z) : outcome bool :=
  if 0 <=? i then deref (l !! Z.to_nat i) "flag" else Undef "negative index".

Definition check_timeval (e : crontab) (t : Z) : outcome bool :=
  x ← throw_none (apr_time_exp_lt t) "APR error";
  wday ← deref (x_wday x) "tm_wday";
  _ ← ASSERT (x_min x <? 60) "exp.tm_min < NX_SCHEDULE_MIN_COUNT";
  _ ← ASSERT (x_hour x <? 24) "exp.tm_hour < NX_SCHEDULE_HOUR_COUNT";
  _ ← ASSERT (x_mday x <=? 31) "exp.tm_mday <= NX_SCHEDULE_DAY_COUNT";
  _ ← ASSERT (0 <? x_mday x) "exp.tm_mday > 0";
  _ ← ASSERT (x_mon x <? 12) "exp.tm_mon < NX_SCHEDULE_MONTH_COUNT";
  _ ← ASSERT (wday <? 7) "exp.tm_wday < 7";
  b1 ← flag (c_min e) (x_min x);
  if negb b1 then Ret false else
  b2 ← flag (c_hour e) (x_hour x);
  if negb b2 then Ret false else
  b3 ← flag (c_day e) (x_mday x - 1);
  if negb b3 then Ret false else
  b4 ← flag (c_month e) (x_mon x);
  if negb b4 then Ret false else
  flag (c_wday e) wday.

Definition MINUTE : Z := 60 * 1000000.
Definition YEAR : Z := 1000000 * 60 * 60 * 24 * 365.

(** The loop over the minutes before [limit]; [fuel] bounds it. *)
Fixpoint crontab_loop (fuel : nat) (e : crontab) (tmpval limit : Z) : outcome Z :=
  if tmpval <? limit then
    match fuel with
    | O => Undef "out of fuel"
    | S fuel => b ← check_timeval e tmpval; if (b : bool) then Ret tmpval else crontab_loop fuel e (tmpval + MINUTE) limit
    end
  else Panic "should not reach".

(** The loop that adds intervals to [first]. *)
Fixpoint every_loop (fuel : nat) (every first now : Z) : outcome Z :=
  if first <=? now then
    match fuel with
    | O => Undef "out of fuel"
    | S fuel => step ← i64 (every * 1000000); first ← i64 (first + step); every_loop fuel every first now
    end
  else Ret first.

Definition every_fuel (every first now : Z) : nat := Z.to_nat ((now - first) / (every * 1000000) + 1).
Definition crontab_fuel : nat := Z.to_nat (365 * 24 * 60).

(** The entry is changed too: [first] is the time returned. *)
Definition nx_schedule_entry_next_run (e : entry) (now : Z) : outcome (entry * Z) :=
  match e with
  | EVERY every first =>
      _ ← ASSERT (0 <? every) "entry->every > 0";
      first ← (if negb (first =? 0) then every_loop (every_fuel every first now) every first now else Ret now);
      Ret (EVERY every first, first)
  | CRONTAB c =>
      t ← crontab_loop crontab_fuel c ((now ÷ MINUTE + 1) * MINUTE) (now + YEAR);
      Ret (e, t)
  end.

End next_run.

(** ** What a crontab text denotes *)

(** A number is a non-empty list of digits. *)
Definition dec_from (n : Z) (ds : bytes) : Z := fold_left (fun n c => n * 10 + digit c) ds n.
Definition dec (ds : bytes) : Z := dec_from 0 ds.
Definition is_number (ds : bytes) : Prop := ds <> [] /\ Forall (fun c => isdigit c = true) ds /\ dec ds <= INT_MAX.

Inductive item := One (a : bytes) | Range (a b : bytes) | Step (a b n : bytes).
Inductive field := Star | StarStep (n : bytes) | Items (i : item) (l : list item).

(** An item is a first number and what follows it. *)
Definition item_start (it : item) : bytes := match it with One a | Range a _ | Step a _ _ => a end.
Definition item_tail (it : item) : bytes :=
  match it with
  | One _ => []
  | Range _ b => "-"%byte :: b
  | Step _ b n => "-"%byte :: b ++ "/"%byte :: n
  end.
Definition item_text (it : item) : bytes := item_start it ++ item_tail it.

Definition field_text (f : field) : bytes :=
  match f with
  | Star => ["*"%byte]
  | StarStep n => "*"%byte :: "/"%byte :: n
  | Items i l => item_text i ++ concat ((fun i => ","%byte :: item_text i) <$> l)
  end.

(** The values an item denotes: the end of a range with a step is not one of them, its
    start always is. *)
Definition range_has (it : item) (v : Z) : bool :=
  match it with
  | One _ => false
  | Range a b => (dec a <=? v) && (v <=? dec b)
  | Step a b n => (dec a <=? v) && (v <? dec b) && (v mod dec n =? 0)
  end.
Definition item_has (it : item) (v : Z) : bool := (v =? dec (item_start it)) || range_has it v.

Definition field_has (f : field) (v : Z) : bool :=
  match f with
  | Star => true
  | StarStep n => v mod dec n =? 0
  | Items i l => item_has i v || existsb (fun i => item_has i v) l
  end.

Section wf.
Variables first last : Z.

Definition number_ok (a : bytes) : Prop := is_number a /\ first <= dec a <= last.
Definition item_ok (it : item) : Prop :=
  number_ok (item_start it) /\
  match it with
  | One a => True
  | Range a b => number_ok b
  | Step a b n => number_ok b /\ is_number n /\ dec n <> 0
  end.
Definition field_ok (f : field) : Prop :=
  match f with
  | Star => True
  | StarStep n => is_number n /\ dec n <> 0
  | Items i l => item_ok i /\ Forall item_ok l
  end.
End wf.

(** What follows a number, and what follows a field. *)
Definition blank (c : byte) : bool := (c =c " ") || (c =c x09).
Definition stops (p : byte -> bool) (rest : bytes) : Prop := match rest with c :: _ => p c = true | [] => True end.

Lemma digit_bounds c : isdigit c = true -> 0 <= digit c <= 9.
Proof. unfold isdigit, digit. intros H. apply andb_true_iff in H as [H1 H2]. tests. lia. Qed.

Lemma dec_from_ge ds : Forall (fun c => isdigit c = true) ds -> forall n, 0 <= n -> n <= dec_from n ds.
Proof.
  induction 1 as [|c ds Hc _ IH]; intros n Hn; [simpl; lia|]. pose proof (digit_bounds c Hc). specialize (IH (n * 10 + digit c) ltac:(lia)).
  unfold dec_from in *. simpl. lia.
Qed.

Lemma dec_nonneg ds : is_number ds -> 0 <= dec ds.
Proof. intros (_ & H & _). by apply dec_from_ge. Qed.

Lemma int_digits_ok ds rest : Forall (fun c => isdigit c = true) ds -> stops (fun c => negb (isdigit c)) rest ->
  forall n, 0 <= n -> dec_from n ds <= INT_MAX -> int_digits (ds ++ rest) n = Ret (rest, dec_from n ds).
Proof.
  intros Hd Hr. induction Hd as [|c ds Hc Hd IH]; intros n Hn Hm; simpl.
  - destruct rest as [|c rest]; [done|]. simpl in *. by rewrite (proj1 (negb_true_iff _) Hr).
  - rewrite Hc. pose proof (digit_bounds c Hc). pose proof (dec_from_ge ds Hd (n * 10 + digit c) ltac:(lia)). unfold dec_from in *. simpl in Hm.
    rewrite (proj2 (Z.leb_le _ _)) by lia. apply IH; lia.
Qed.

Lemma parse_int_ok ds rest : is_number ds -> stops (fun c => negb (isdigit c)) rest -> parse_int (ds ++ rest) = Ret (rest, dec ds).
Proof.
  intros (Hne & Hd & Hm) Hr. destruct ds as [|c ds]; [done|]. unfold parse_int. simpl app at 1. cbv iota.
  rewrite (Forall_inv Hd). apply int_digits_ok; [done|done|lia|done].
Qed.

(** ** Setting flags *)

(** The flags [d] were added. *)
Definition marks (l l' : list bool) (d : Z -> bool) : Prop :=
  length l' = length l /\ forall k b, l !! k = Some b -> l' !! k = Some (b || d (Z.of_nat k)).

Lemma marks_refl l : marks l l (fun _ => false).
Proof. split; [done|]. intros k b Hk. by rewrite orb_false_r. Qed.

Lemma marks_trans l1 l2 l3 d1 d2 : marks l1 l2 d1 -> marks l2 l3 d2 -> marks l1 l3 (fun k => d1 k || d2 k).
Proof. intros [E1 H1] [E2 H2]. split; [congruence|]. intros k b Hk. rewrite (H2 _ _ (H1 _ _ Hk)). by rewrite orb_assoc. Qed.

Lemma marks_ext l l' d1 d2 : marks l l' d1 -> (forall k, 0 <= k < zlen l -> d1 k = d2 k) -> marks l l' d2.
Proof. intros [E H] Hd. split; [done|]. intros k b Hk. rewrite (H _ _ Hk), Hd; [done|]. apply lookup_lt_Some in Hk. lia. Qed.

Lemma mark_ok i l : 0 <= i < zlen l -> exists l', mark i l = Ret l' /\ marks l l' (fun k => k =? i).
Proof.
  intros Hi. unfold mark. rewrite (proj2 (Z.leb_le _ _)), (proj2 (Z.ltb_lt _ _)) by lia. eexists. split; [done|]. split; [by rewrite length_insert|].
  intros k b Hk. pose proof (lookup_lt_Some _ _ _ Hk). destruct (Z.eqb_spec (Z.of_nat k) i) as [<- |Hne].
  - rewrite Nat2Z.id, list_lookup_insert_eq by done. by rewrite orb_true_r.
  - rewrite list_lookup_insert_ne by lia. by rewrite orb_false_r.
Qed.

Lemma mark_where_ok p d n : forall i l, 0 <= i -> i + Z.of_nat n <= zlen l -> (forall j, i <= j < i + Z.of_nat n -> p j = Ret (d j)) ->
  exists l', mark_where p i n l = Ret l' /\ marks l l' (fun k => (i <=? k) && (k <? i + Z.of_nat n) && d k).
Proof.
  induction n as [|n IH]; intros i l Hi Hn Hp; cbn [mark_where].
  - exists l. split; [done|]. eapply marks_ext; [apply marks_refl|]. intros k Hk. symmetry. rewrite <- andb_assoc. apply andb_false_iff.
    destruct (Z.leb_spec i k); [|by left]. right. apply andb_false_iff. left. apply Z.ltb_ge. lia.
  - rewrite Hp by lia. cbn [mbind outcome_bind]. assert (exists l1, (if d i then mark i l else Ret l) = Ret l1 /\ marks l l1 (fun k => (k =? i) && d i)) as (l1 & -> & Hm1).
    { destruct (d i).
      - destruct (mark_ok i l) as (l1 & E & H); [lia|]. exists l1. split; [done|]. eapply marks_ext; [done|]. intros. by rewrite andb_true_r.
      - exists l. split; [done|]. eapply marks_ext; [apply marks_refl|]. intros. by rewrite andb_false_r. }
    cbn [mbind outcome_bind]. destruct (IH (i + 1) l1) as (l2 & -> & Hm2); [lia|destruct Hm1; lia|intros; apply Hp; lia|]. exists l2. split; [done|].
    eapply marks_ext; [eapply marks_trans; eassumption|]. intros k Hk. cbv beta.
    destruct (Z.eqb_spec k i) as [-> |Hne].
    + rewrite (proj2 (Z.leb_gt (i + 1) i)), (proj2 (Z.leb_le i i)), (proj2 (Z.ltb_lt i (i + Z.of_nat (S n)))) by lia. simpl. by rewrite orb_false_r.
    + simpl. f_equal. f_equal; [destruct (Z.leb_spec (i + 1) k), (Z.leb_spec i k); lia|f_equal; lia].
Qed.

Lemma multiple_ok x n : 0 <= x -> 0 < n -> multiple x n = Ret (x mod n =? 0).
Proof. intros Hx Hn. unfold multiple. rewrite (proj2 (Z.eqb_neq n 0)) by lia. by rewrite Z.rem_mod_nonneg. Qed.

(** ** The fields of a crontab *)

Definition delim (c : byte) : bool := blank c || (c =c ",").

Lemma delim_cases c : delim c = true -> c = " "%byte \/ c = x09 \/ c = ","%byte.
Proof. unfold delim, blank. intros H. apply orb_true_iff in H as [H|H]; [apply orb_true_iff in H as [H|H]|]; apply beq_true in H; tauto. Qed.

Lemma delim_not_digit rest : stops delim rest -> stops (fun c => negb (isdigit c)) rest.
Proof. destruct rest as [|c rest]; [done|]. simpl. intros H. by destruct (delim_cases c H) as [-> |[-> | ->]]. Qed.

Lemma blank_delim rest : stops blank rest -> stops delim rest.
Proof. destruct rest as [|c rest]; [done|]. unfold stops, delim. by intros ->. Qed.

(** [rest] after a comma. *)
Definition skip_comma (rest : bytes) : bytes := match rest with c :: r => if c =c "," then r else rest | [] => [] end.

Section fields.
Variables first last : Z.
Hypothesis Hfirst : 0 <= first.

Abbreviation table l := (zlen l = last - first + 1).

Lemma in_range_ok n : first <= n <= last -> in_range first last n = Ret tt.
Proof. intros H. unfold in_range. by rewrite (proj2 (Z.ltb_ge last n)), (proj2 (Z.ltb_ge n first)) by lia. Qed.

Lemma parse_range_ok it rest dst : item_ok first last it -> stops delim rest -> table dst ->
  exists l, parse_range first last (item_tail it ++ rest) (dec (item_start it) - first) dst = Ret (rest, l) /\
    marks dst l (fun k => range_has it (k + first)).
Proof.
  intros [[Ha Har] Hok] Hr Ht. pose proof (delim_not_digit _ Hr) as Hnd. destruct it as [a|a b|a b n]; cbn [item_tail item_start range_has app] in *.
  - exists dst. split; [|apply marks_refl]. destruct rest as [|c rest]; [done|]. by destruct (delim_cases c Hr) as [-> |[-> | ->]].
  - destruct Hok as [Hb Hbr]. cbn [parse_range]. rewrite beq_refl, parse_int_ok by done. cbn [mbind outcome_bind]. rewrite in_range_ok by done. cbn [mbind outcome_bind].
    assert (dec a <= dec b + 1 \/ dec b + 1 < dec a) as [Hle|Hlt] by lia; cycle 1.
    { replace (Z.to_nat _) with O by lia. exists dst. split; [destruct rest as [|c rest]; [done|]; by destruct (delim_cases c Hr) as [-> |[-> | ->]]|].
      eapply marks_ext; [apply marks_refl|]. intros k Hk. symmetry. apply andb_false_iff. destruct (Z.leb_spec (dec a) (k + first)); [right; apply Z.leb_gt; lia|by left]. }
    destruct (mark_where_ok (fun _ => Ret true) (fun _ => true) (Z.to_nat (dec b - first - (dec a - first) + 1)) (dec a - first) dst) as (l & El & Hm); [lia|lia|done|].
    exists l. split; [destruct rest as [|c rest]; [by rewrite El|]; destruct (delim_cases c Hr) as [-> |[-> | ->]]; by rewrite El|].
    eapply marks_ext; [done|]. intros k Hk. cbv beta. rewrite Z2Nat.id, andb_true_r by lia. f_equal; apply eq_true_iff_eq; rewrite ?Z.leb_le, ?Z.ltb_lt; lia.
  - destruct Hok as ([Hb Hbr] & Hn & Hnz). pose proof (dec_nonneg _ Hn). rewrite <- app_assoc. cbn [parse_range app]. rewrite beq_refl, parse_int_ok by done.
    cbn [mbind outcome_bind]. rewrite in_range_ok by done. cbn [mbind outcome_bind]. rewrite beq_refl, parse_int_ok by done. cbn [mbind outcome_bind].
    assert (dec a <= dec b \/ dec b < dec a) as [Hle|Hlt] by lia; cycle 1.
    { replace (Z.to_nat _) with O by lia. exists dst. split; [done|].
      eapply marks_ext; [apply marks_refl|]. intros k Hk. symmetry. apply andb_false_iff. left. apply andb_false_iff.
      destruct (Z.leb_spec (dec a) (k + first)); [right; apply Z.ltb_ge; lia|by left]. }
    destruct (mark_where_ok (fun i => multiple (i + first) (dec n)) (fun i => (i + first) mod dec n =? 0) (Z.to_nat (dec b - first - (dec a - first))) (dec a - first) dst)
      as (l & El & Hm); [lia|lia|intros; apply multiple_ok; lia|]. exists l. rewrite El. split; [done|].
    eapply marks_ext; [done|]. intros k Hk. cbv beta. rewrite Z2Nat.id by lia. f_equal. f_equal; apply eq_true_iff_eq; rewrite ?Z.leb_le, ?Z.ltb_lt; lia.
Qed.

Lemma parse_element_ok it rest dst : item_ok first last it -> stops delim rest -> table dst ->
  exists l, parse_element first last (item_text it ++ rest) dst = Ret (skip_comma rest, l) /\ marks dst l (fun k => item_has it (k + first)).
Proof.
  intros Hok Hr Ht. pose proof Hok as [[Ha Har] _]. unfold parse_element, item_text. rewrite <- app_assoc, parse_int_ok; [|done|].
  2:{ destruct it; [by apply delim_not_digit|done|done]. }
  cbn [mbind outcome_bind]. rewrite in_range_ok by done. cbn [mbind outcome_bind]. rewrite (proj2 (Z.ltb_lt _ _)) by lia. cbn [ASSERT mbind outcome_bind].
  destruct (mark_ok (dec (item_start it) - first) dst) as (l1 & -> & Hm1); [lia|]. cbn [mbind outcome_bind].
  destruct (parse_range_ok it rest l1 Hok Hr) as (l2 & -> & Hm2); [destruct Hm1; lia|]. cbn [mbind outcome_bind]. exists l2. split.
  - unfold skip_comma. destruct rest as [|c rest]; [done|]. by case_test.
  - eapply marks_ext; [eapply marks_trans; eassumption|]. intros k Hk. unfold item_has. f_equal. apply eq_true_iff_eq. rewrite !Z.eqb_eq. lia.
Qed.

Definition items_text (l : list item) : bytes := concat ((fun i => ","%byte :: item_text i) <$> l).

Lemma items_stop l rest : stops blank rest -> stops delim (items_text l ++ rest).
Proof. intros Hr. destruct l; [by apply blank_delim|done]. Qed.

Lemma item_text_digit it p : item_ok first last it -> exists c q, item_text it ++ p = c :: q /\ isdigit c = true.
Proof.
  intros [[(Hne & Hd & _) _] _]. unfold item_text. destruct (item_start it) as [|c ds]; [done|]. exists c, ((ds ++ item_tail it) ++ p). split; [done|]. by apply Forall_inv in Hd.
Qed.

Lemma digit_not_space c : isdigit c = true -> isspace c = false.
Proof. unfold isdigit, isspace. intros H. apply andb_true_iff in H as [H1 H2]. tests. apply orb_false_iff. split; [apply Z.eqb_neq; lia|]. apply andb_false_iff. right. apply Z.leb_gt. lia. Qed.

Lemma parse_elements_stop fuel rest dst : stops blank rest -> parse_elements first last fuel rest dst = Ret (rest, dst).
Proof.
  intros Hr. destruct rest as [|c rest]; [by destruct fuel|]. simpl in Hr. assert (isspace c = true) as Hc.
  { unfold blank in Hr. apply orb_true_iff in Hr as [Hr|Hr]; tests; by subst. }
  by destruct fuel; simpl; rewrite Hc.
Qed.

Lemma parse_elements_ok l : Forall (item_ok first last) l -> forall it fuel rest dst, item_ok first last it -> (S (length l) <= fuel)%nat -> stops blank rest -> table dst ->
  exists l', parse_elements first last fuel (item_text it ++ items_text l ++ rest) dst = Ret (rest, l') /\
    marks dst l' (fun k => item_has it (k + first) || existsb (fun i => item_has i (k + first)) l).
Proof.
  induction 1 as [|i2 l Hi2 Hl IH]; intros it fuel rest dst Hit Hf Hr Ht; (destruct fuel as [|fuel]; [simpl in Hf; lia|]).
  - destruct (parse_element_ok it rest dst Hit (blank_delim _ Hr) Ht) as (l' & E & Hm). destruct (item_text_digit it rest Hit) as (c & q & Et & Hc).
    unfold items_text. simpl concat. rewrite app_nil_l. rewrite Et in *. cbn [parse_elements]. rewrite (digit_not_space c Hc), E. cbn [mbind outcome_bind].
    exists l'. split; [|eapply marks_ext; [done|]; intros; simpl; by rewrite orb_false_r].
    replace (skip_comma rest) with rest; [by apply parse_elements_stop|]. destruct rest as [|d rest]; [done|]. simpl in Hr |- *. by destruct (beq_false d ","%byte) as [_ ->]; [|intros ->].
  - destruct (parse_element_ok it (items_text (i2 :: l) ++ rest) dst Hit (items_stop _ _ Hr) Ht) as (l1 & E & Hm1).
    destruct (item_text_digit it (items_text (i2 :: l) ++ rest) Hit) as (c & q & Et & Hc). rewrite Et in *. cbn [parse_elements]. rewrite (digit_not_space c Hc), E. cbn [mbind outcome_bind].
    destruct (IH i2 fuel rest l1 Hi2 ltac:(simpl in Hf; lia) Hr ltac:(destruct Hm1; lia)) as (l2 & E2 & Hm2). exists l2.
    replace (skip_comma (items_text (i2 :: l) ++ rest)) with (item_text i2 ++ items_text l ++ rest) by (unfold items_text; simpl; by rewrite <- app_assoc).
    split; [done|]. eapply marks_ext; [eapply marks_trans; eassumption|]. done.
Qed.

Lemma items_length l : (length l <= length (items_text l))%nat.
Proof.
  induction l as [|i l IH]; [simpl; lia|]. change (items_text (i :: l)) with (","%byte :: item_text i ++ items_text l). cbn [length]. rewrite length_app. lia.
Qed.

Lemma parse_field_ok f rest dst : field_ok first last f -> stops blank rest -> table dst ->
  exists l, parse_field first last (field_text f ++ rest) dst = Ret (rest, l) /\ marks dst l (fun k => field_has f (k + first)).
Proof.
  intros Hok Hr Ht. destruct f as [|n|it l]; simpl in Hok.
  - destruct (mark_where_ok (fun _ => Ret true) (fun _ => true) (length dst) 0 dst) as (l & El & Hm); [lia|lia|done|]. exists l. split.
    + simpl. destruct rest as [|c rest]; [by rewrite El|]. destruct (delim_cases c (blank_delim (c :: rest) Hr)) as [-> |[-> | ->]]; simpl; by rewrite El.
    + eapply marks_ext; [done|]. intros k Hk. simpl. rewrite andb_true_r. apply andb_true_iff. split; [apply Z.leb_le; lia|apply Z.ltb_lt; lia].
  - destruct Hok as [Hn Hz]. pose proof (dec_nonneg _ Hn).
    destruct (mark_where_ok (fun i => multiple (i + first) (dec n)) (fun i => (i + first) mod dec n =? 0) (length dst) 0 dst) as (l & El & Hm); [lia|lia|intros; apply multiple_ok; lia|].
    exists l. split.
    + cbn [field_text app parse_field]. rewrite !beq_refl, parse_int_ok; [|done|by apply delim_not_digit, blank_delim]. cbn [mbind outcome_bind]. by rewrite El.
    + eapply marks_ext; [done|]. intros k Hk. cbn [field_has]. rewrite (proj2 (Z.leb_le 0 k)), (proj2 (Z.ltb_lt _ _)) by lia. done.
  - destruct Hok as [Hit Hl]. cbn [field_text]. fold (items_text l). rewrite <- app_assoc.
    destruct (item_text_digit it (items_text l ++ rest) Hit) as (c & q & Et & Hc). destruct (parse_elements_ok l Hl it (length (c :: q)) rest dst Hit) as (l' & E & Hm); [|done|done|].
    { rewrite <- Et, !length_app. pose proof (items_length l). destruct (item_text_digit it [] Hit) as (? & ? & E & _). rewrite app_nil_r in E. rewrite E. simpl. lia. }
    exists l'. split; [|done]. rewrite Et in *. unfold parse_field. rewrite Hc. assert (c =c "*" = false) as -> by (apply beq_false; by intros ->). done.
Qed.

End fields.

(** ** The five fields *)

Record line := Line { l_min : field; l_hour : field; l_day : field; l_month : field; l_wday : field }.

Record line_ok (l : line) : Prop := {
  lk_min : field_ok 0 59 (l_min l); lk_hour : field_ok 0 23 (l_hour l); lk_day : field_ok 1 31 (l_day l);
  lk_month : field_ok 1 12 (l_month l); lk_wday : field_ok 0 7 (l_wday l)
}.

Definition line_text (l : line) : bytes :=
  field_text (l_min l) ++ " "%byte :: field_text (l_hour l) ++ " "%byte :: field_text (l_day l) ++ " "%byte ::
  field_text (l_month l) ++ " "%byte :: field_text (l_wday l).

Lemma field_start first last f p : field_ok first last f -> exists c q, field_text f ++ p = c :: q /\ blank c = false /\ (c =c "@") = false.
Proof.
  destruct f as [|n|it l]; intros Hok; [by eexists _, _..|]. destruct Hok as [Hit _]. cbn [field_text]. rewrite <- app_assoc.
  destruct (item_text_digit first last it (concat ((fun i => ","%byte :: item_text i) <$> l) ++ p) Hit) as (c & q & -> & Hc). exists c, q. split; [done|].
  unfold blank. assert (forall d, isdigit d = false -> (c =c d) = false) as Hd by (intros d Hd; apply beq_false; intros ->; congruence).
  rewrite !Hd by reflexivity. done.
Qed.

Lemma skip_field first last f p : field_ok first last f -> skip_blanks (field_text f ++ p) = field_text f ++ p.
Proof. intros Hok. destruct (field_start first last f p Hok) as (c & q & -> & Hb & _). unfold blank in Hb. cbn [skip_blanks]. by rewrite Hb. Qed.

Lemma skip_blank_field first last f p : field_ok first last f -> skip_blanks (" "%byte :: field_text f ++ p) = field_text f ++ p.
Proof. intros Hok. cbn [skip_blanks]. rewrite beq_refl. simpl orb. cbv iota. by apply (skip_field first last). Qed.

Lemma marks_flag n l d i : marks (replicate n false) l d -> 0 <= i < Z.of_nat n -> flag l i = Ret (d i).
Proof.
  intros [El Hl] Hi. unfold flag. rewrite (proj2 (Z.leb_le 0 i)) by lia. rewrite (Hl (Z.to_nat i) false); [|apply lookup_replicate; split; [done|lia]].
  simpl. by rewrite Z2Nat.id by lia.
Qed.

Lemma marks_length n l d : marks (replicate n false) l d -> length l = n.
Proof. intros [-> _]. by rewrite length_replicate. Qed.

(** ** The tables *)

Record cron_ok (c : crontab) : Prop := {
  ck_min : length (c_min c) = 60%nat; ck_hour : length (c_hour c) = 24%nat; ck_day : length (c_day c) = 31%nat;
  ck_month : length (c_month c) = 12%nat; ck_wday : length (c_wday c) = 8%nat
}.

Lemma no_flags_ok : cron_ok no_flags.
Proof. by split. Qed.

Lemma flag_ok l i : 0 <= i < zlen l -> exists b, flag l i = Ret b.
Proof.
  intros Hi. unfold flag. rewrite (proj2 (Z.leb_le 0 i)) by lia. destruct (lookup_lt_is_Some_2 l (Z.to_nat i)) as [b ->]; [lia|]. by exists b.
Qed.

Section times.
Context {T : TimeEnv} {L : TimeLaws T}.

(** The conjunction of the flags of a time. *)
Lemma check_ok c t : cron_ok c -> DAY <= t < TIME_MAX - DAY ->
  exists x w b1 b2 b3 b4 b5, apr_time_exp_lt t = Some x /\ exp_ok x /\ x_wday x = Some w /\
    flag (c_min c) (x_min x) = Ret b1 /\ flag (c_hour c) (x_hour x) = Ret b2 /\ flag (c_day c) (x_mday x - 1) = Ret b3 /\
    flag (c_month c) (x_mon x) = Ret b4 /\ flag (c_wday c) w = Ret b5 /\
    check_timeval c t = Ret (b1 && b2 && b3 && b4 && b5).
Proof.
  intros [] Ht. destruct (exp_lt_law t Ht) as (x & Hx & Hok & _). pose proof Hok as []. destruct ok_wday0 as (w & Hw & Hwr).
  destruct (flag_ok (c_min c) (x_min x)) as [b1 H1]; [lia|]. destruct (flag_ok (c_hour c) (x_hour x)) as [b2 H2]; [lia|].
  destruct (flag_ok (c_day c) (x_mday x - 1)) as [b3 H3]; [lia|]. destruct (flag_ok (c_month c) (x_mon x)) as [b4 H4]; [lia|].
  destruct (flag_ok (c_wday c) w) as [b5 H5]; [lia|]. exists x, w, b1, b2, b3, b4, b5. split_and!; try done.
  unfold check_timeval. rewrite Hx. cbn [throw_none mbind outcome_bind]. rewrite Hw. cbn [deref mbind outcome_bind].
  rewrite !(proj2 (Z.ltb_lt _ _)), (proj2 (Z.leb_le _ _)) by lia. cbn [ASSERT mbind outcome_bind]. rewrite H1. cbn [mbind outcome_bind].
  destruct b1; [|done]. cbn [negb andb]. rewrite H2. cbn [mbind outcome_bind]. destruct b2; [|done]. cbn [negb andb]. rewrite H3. cbn [mbind outcome_bind].
  destruct b3; [|done]. cbn [negb andb]. rewrite H4. cbn [mbind outcome_bind]. destruct b4; [|done]. by rewrite H5.
Qed.

Lemma check_total c t : cron_ok c -> DAY <= t < TIME_MAX - DAY -> exists b, check_timeval c t = Ret b.
Proof. intros Hc Ht. destruct (check_ok c t Hc Ht) as (x & w & b1 & b2 & b3 & b4 & b5 & H). eexists. apply H. Qed.

Lemma sunday_flag l d w : marks (replicate 8 false) l d -> 0 <= w < 7 -> flag (sunday l) w = Ret (d w || (w =? 0) && d 7).
Proof.
  intros Hm Hw. assert (forall k : nat, (k < 8)%nat -> l !! k = Some (d (Z.of_nat k))) as Hl by (intros k Hk; destruct Hm as [_ Hm]; rewrite (Hm k false); [done|by apply lookup_replicate]).
  unfold sunday. rewrite Hl by lia. change (Z.of_nat 7) with 7. destruct (d 7) eqn:E7.
  - rewrite bool_decide_eq_true_2 by done. unfold flag. rewrite (proj2 (Z.leb_le 0 w)) by lia. unfold set_first. destruct (Z.eqb_spec w 0) as [-> |Hne].
    + rewrite list_lookup_insert_eq by (rewrite (marks_length _ _ _ Hm); lia). simpl. by rewrite orb_true_r.
    + rewrite list_lookup_insert_ne, Hl by lia. simpl. by rewrite Z2Nat.id, orb_false_r by lia.
  - rewrite bool_decide_eq_false_2 by done. rewrite (marks_flag 8 l d w Hm ltac:(lia)). by rewrite andb_false_r, orb_false_r.
Qed.

(** The time [x] is one the line denotes. *)
Definition line_has (l : line) (x : time_exp) (wday : Z) : bool :=
  field_has (l_min l) (x_min x) && field_has (l_hour l) (x_hour x) && field_has (l_day l) (x_mday x) && field_has (l_month l) (x_mon x + 1) &&
  (field_has (l_wday l) wday || (wday =? 0) && field_has (l_wday l) 7).

(** C18: A crontab line of five well-formed fields, that is, [*], [*/Z] or a list of
    numbers and ranges [X], [X-Y], [X-Y/Z] with decimal numbers within the field's
    bounds and steps other than 0, separated by single spaces, is parsed to tables that
    [check_timeval] reads as follows.  A time matches iff its minute, hour, day of
    month, month AND weekday (7 is Sunday, like 0) are each denoted by the field; [*/Z]
    denotes the multiples of [Z]; [X-Y] denotes both ends; and
    [X-Y/Z] denotes [X] and the multiples of [Z] from [X] up to, but not including, [Y].
    This is what the code does, not what crontab(5), to which the manual
    refers, says: there a day of month and a weekday that are both given are alternatives, and
    a range with a step counts from [X] and includes [Y].  The times are those for which
    [TimeLaws] describes the local time of APR: from the second day of 1970 to one day
    before [TIME_MAX]. *)
Theorem crontab_denotes l : line_ok l -> exists c, nx_schedule_entry_parse_crontab no_flags (line_text l) = Ret c /\ cron_ok c /\
  forall t, DAY <= t < TIME_MAX - DAY -> exists x w, apr_time_exp_lt t = Some x /\ x_wday x = Some w /\ check_timeval c t = Ret (line_has l x w).
Proof.
  intros [H1 H2 H3 H4 H5]. set (r4 := " "%byte :: field_text (l_wday l) ++ []). set (r3 := " "%byte :: field_text (l_month l) ++ r4).
  set (r2 := " "%byte :: field_text (l_day l) ++ r3). set (r1 := " "%byte :: field_text (l_hour l) ++ r2).
  assert (line_text l = field_text (l_min l) ++ r1) as -> by (subst r1 r2 r3 r4; unfold line_text; by rewrite app_nil_r).
  destruct (parse_field_ok 0 59 ltac:(lia) (l_min l) r1 (c_min no_flags)) as (t1 & E1 & M1); [done..|].
  destruct (parse_field_ok 0 23 ltac:(lia) (l_hour l) r2 (c_hour no_flags)) as (t2 & E2 & M2); [done..|].
  destruct (parse_field_ok 1 31 ltac:(lia) (l_day l) r3 (c_day no_flags)) as (t3 & E3 & M3); [done..|].
  destruct (parse_field_ok 1 12 ltac:(lia) (l_month l) r4 (c_month no_flags)) as (t4 & E4 & M4); [done..|].
  destruct (parse_field_ok 0 7 ltac:(lia) (l_wday l) [] (c_wday no_flags)) as (t5 & E5 & M5); [done..|].
  assert (cron_ok (Cron t1 t2 t3 t4 (sunday t5))) as Hck.
  { split; simpl; [by apply marks_length in M1|by apply marks_length in M2|by apply marks_length in M3|by apply marks_length in M4|].
    apply marks_length in M5. unfold sunday. case_bool_decide; [unfold set_first; by rewrite length_insert|done]. }
  exists (Cron t1 t2 t3 t4 (sunday t5)). split; [|split; [exact Hck|]].
  - unfold nx_schedule_entry_parse_crontab. destruct (field_start 0 59 (l_min l) r1 H1) as (c & q & Ec & _ & Hat).
    rewrite (skip_field 0 59), E1 by done. cbn [mbind outcome_bind]. rewrite Ec, Hat.
    subst r1. rewrite (skip_blank_field 0 23), E2 by done. cbn [mbind outcome_bind]. subst r2. rewrite (skip_blank_field 1 31), E3 by done. cbn [mbind outcome_bind].
    subst r3. rewrite (skip_blank_field 1 12), E4 by done. cbn [mbind outcome_bind]. subst r4. rewrite (skip_blank_field 0 7), E5 by done. done.
  - intros t Ht. destruct (check_ok _ t Hck Ht) as (x & w & b1 & b2 & b3 & b4 & b5 & Hx & Hok & Hw & F1 & F2 & F3 & F4 & F5 & Hc). exists x, w. split_and!; [done|done|].
    rewrite Hc. cbn [c_min c_hour c_day c_month c_wday] in *. pose proof Hok as []. destruct ok_wday0 as (w' & Hw' & Hwr). assert (w' = w) as -> by congruence. assert (0 <= w < 7) by lia.
    rewrite (marks_flag 60 _ _ _ M1) in F1 by lia. rewrite (marks_flag 24 _ _ _ M2) in F2 by lia. rewrite (marks_flag 31 _ _ _ M3) in F3 by lia.
    rewrite (marks_flag 12 _ _ _ M4) in F4 by lia. rewrite (sunday_flag _ _ w M5) in F5 by lia. unfold line_has. cbv beta in *. rewrite !Z.add_0_r in F1, F2, F5.
    replace (x_mday x - 1 + 1) with (x_mday x) in F3 by lia. change (7 + 0) with 7 in F5. congruence.
Qed.

(** The loop from [t], a whole minute. *)
Lemma crontab_loop_ok c limit : cron_ok c -> limit < TIME_MAX - DAY -> forall fuel t, DAY <= t -> limit <= t + Z.of_nat fuel * MINUTE -> t mod MINUTE = 0 ->
  (exists t', crontab_loop fuel c t limit = Ret t' /\ t <= t' < limit /\ t' mod MINUTE = 0 /\ check_timeval c t' = Ret true /\
     forall u, u mod MINUTE = 0 -> t <= u < t' -> check_timeval c u = Ret false) \/
  (crontab_loop fuel c t limit = Panic "should not reach" /\ forall u, u mod MINUTE = 0 -> t <= u < limit -> check_timeval c u = Ret false).
Proof.
  intros Hc Hlim. induction fuel as [|fuel IH]; intros t Ht Hf Hm; cbn [crontab_loop].
  - rewrite (proj2 (Z.ltb_ge t limit)) by lia. right. split; [done|]. intros u _ Hu. lia.
  - destruct (t <? limit) eqn:El; tests; [|right; split; [done|]; intros u _ Hu; lia].
    destruct (check_total c t Hc ltac:(lia)) as [b Hb]. rewrite Hb. cbn [mbind outcome_bind]. destruct b.
    + left. exists t. split_and!; try done; lia.
    + assert (forall u, u mod MINUTE = 0 -> t <= u -> u = t \/ t + MINUTE <= u) as Hnext by (unfold MINUTE in *; intros u Hu Htu; dlia).
      destruct (IH (t + MINUTE)) as [(t' & H1 & H2 & H3 & H4 & H5)|[H1 H2]]; [unfold MINUTE; lia|lia|unfold MINUTE in *; dlia| |].
      * left. exists t'. split_and!; [done|unfold MINUTE in *; lia|lia|done|done|]. intros u Hu Hut. destruct (Hnext u Hu ltac:(lia)) as [-> |]; [done|]. apply H5; [done|lia].
      * right. split; [done|]. intros u Hu Hut. destruct (Hnext u Hu ltac:(lia)) as [-> |]; [done|]. apply H2; [done|lia].
Qed.

(** C17: [nx_schedule_entry_next_run] of a crontab returns the first whole minute after
    [now] and within 365 days whose minute, hour, day, month and weekday are all set;
    if there is none, it stops the process with a panic. *)
Theorem crontab_next_run c now : cron_ok c -> DAY <= now -> now + YEAR < TIME_MAX - DAY ->
  (exists t, nx_schedule_entry_next_run (CRONTAB c) now = Ret (CRONTAB c, t) /\ now < t < now + YEAR /\ t mod MINUTE = 0 /\
     check_timeval c t = Ret true /\ forall u, u mod MINUTE = 0 -> now < u < t -> check_timeval c u = Ret false) \/
  (nx_schedule_entry_next_run (CRONTAB c) now = Panic "should not reach" /\
     forall u, u mod MINUTE = 0 -> now < u < now + YEAR -> check_timeval c u = Ret false).
Proof.
  intros Hc Hlo Hhi. cbn [nx_schedule_entry_next_run]. rewrite Z.quot_div_nonneg by (unfold DAY, MINUTE in *; lia). set (t0 := (now / MINUTE + 1) * MINUTE).
  assert (now < t0 /\ t0 mod MINUTE = 0 /\ forall u, u mod MINUTE = 0 -> now < u -> t0 <= u) as (H0 & Hm0 & Hmin) by (subst t0; unfold MINUTE; split_and!; [dlia|dlia|intros; dlia]).
  destruct (crontab_loop_ok c (now + YEAR) Hc Hhi crontab_fuel t0) as [(t & H1 & H2 & H3 & H4 & H5)|[H1 H2]]; [lia| |done| |].
  - unfold crontab_fuel. rewrite Z2Nat.id by done. unfold YEAR, MINUTE. lia.
  - left. exists t. rewrite H1. cbn [mbind outcome_bind]. split_and!; [done|lia|lia|done|done|]. intros u Hu Hut. apply H5; [done|]. specialize (Hmin u Hu ltac:(lia)). lia.
  - right. rewrite H1. split; [done|]. intros u Hu Hut. apply H2; [done|]. specialize (Hmin u Hu ltac:(lia)). lia.
Qed.

(** ** Intervals *)

Lemma every_loop_ok every now : 0 < every -> every * 1000000 < 2 ^ 63 -> forall fuel first, - 2 ^ 63 <= first ->
  (now - first) / (every * 1000000) < Z.of_nat fuel -> now + every * 1000000 < 2 ^ 63 ->
  every_loop fuel every first now = Ret (first + every * 1000000 * Z.max 0 ((now - first) / (every * 1000000) + 1)).
Proof.
  intros He Hp. set (p := every * 1000000) in *. assert (0 < p) as Hp0 by lia.
  assert (i64 p = Ret p) as Hi by (unfold i64; rewrite (proj2 (Z.leb_le _ _)), (proj2 (Z.ltb_lt _ _)) by lia; done).
  induction fuel as [|fuel IH]; intros first Hlo Hf Hhi; cbn [every_loop].
  - destruct (first <=? now) eqn:El; tests.
    + assert (0 <= (now - first) / p) by (apply Z.div_pos; lia). lia.
    + rewrite Z.max_l; [f_equal; lia|]. assert ((now - first) / p < 0) by (apply Z.div_lt_upper_bound; lia). lia.
  - destruct (first <=? now) eqn:El; tests.
    + fold p. rewrite Hi. cbn [mbind outcome_bind].
      assert (i64 (first + p) = Ret (first + p)) as -> by (unfold i64; rewrite (proj2 (Z.leb_le _ _)), (proj2 (Z.ltb_lt _ _)) by lia; done).
      cbn [mbind outcome_bind]. assert ((now - (first + p)) / p = (now - first) / p - 1) as Ed.
      { replace (now - (first + p)) with (now - first + (-1) * p) by lia. rewrite Z.div_add by lia. lia. }
      assert (0 <= (now - first) / p) by (apply Z.div_pos; lia). rewrite IH by lia. rewrite Ed. f_equal. rewrite !Z.max_r by lia. lia.
    + rewrite Z.max_l; [f_equal; lia|]. assert ((now - first) / p < 0) by (apply Z.div_lt_upper_bound; lia). lia.
Qed.

(** [nx_schedule_entry_next_run] of an interval ends and returns the first of the
    times [first], [first + every], [first + 2 * every], ... (in seconds) that is
    after [now], as the closed formula says it; the first run without a given time is
    at once. *)
Theorem every_next_run every first now : 0 < every -> 0 <= first -> 0 <= now -> now + every * 1000000 < 2 ^ 63 ->
  let p := every * 1000000 in
  let t := if first =? 0 then now else first + p * Z.max 0 ((now - first) / p + 1) in
  nx_schedule_entry_next_run (EVERY every first) now = Ret (EVERY every t, t) /\
  (first <> 0 -> now < t /\ (t = first \/ t - p <= now) /\ (t - first) mod p = 0).
Proof.
  intros He Hf Hnow Hhi p t. cbn [nx_schedule_entry_next_run]. rewrite (proj2 (Z.ltb_lt 0 every) He). cbn [ASSERT mbind outcome_bind].
  assert (0 < p) as Hp by (subst p; lia). subst t. destruct (Z.eqb_spec first 0) as [-> |Hne]; cbn [negb]; [done|].
  rewrite every_loop_ok; [|done|lia|lia| |done].
  - fold p. cbn [mbind outcome_bind]. split; [done|]. intros _. pose proof (Z.div_mod (now - first) p ltac:(lia)) as Hd. pose proof (Z.mod_pos_bound (now - first) p Hp) as Hm.
    set (q := (now - first) / p) in *. replace (first + p * Z.max 0 (q + 1) - first) with (Z.max 0 (q + 1) * p) by lia. rewrite Z.mod_mul by lia.
    destruct (Z.max_spec 0 (q + 1)) as [[Hq ->]|[Hq ->]]; (split_and!; [nia|nia|done]).
  - unfold every_fuel. fold p. destruct (decide (0 <= (now - first) / p)); [rewrite Z2Nat.id by lia; lia|lia].
Qed.

End times.

(** ** The year with 366 days *)

Definition yearly : crontab := Cron (set_first (c_min no_flags)) (set_first (c_hour no_flags)) (set_first (c_day no_flags)) (set_first (c_month no_flags)) (set_all (c_wday no_flags)).

Lemma first_flag n b i : (0 < n)%nat -> flag (set_first (replicate n false)) i = Ret b -> b = true -> i = 0.
Proof.
  intros Hn. unfold flag, set_first. destruct (0 <=? i) eqn:E; [|done]. tests. destruct n as [|n]; [lia|]. simpl. destruct (Z.to_nat i) as [|k] eqn:Ek; [lia|]. simpl.
  destruct (replicate n false !! k) as [b'|] eqn:El; [|done]. apply lookup_replicate in El as [-> _]. intros [= <-]. done.
Qed.

Lemma yearly_is : parse_macro no_flags (lit "yearly") = Ret yearly.
Proof. vm_compute. reflexivity. Qed.

(** On the first of January of a leap year the next run of [@yearly] is 366 days
    away, outside of the 365 days that are searched: computing it stops the process.
    Since the next run is computed after each run, every [@yearly] schedule that runs in
    a leap year does so. *)
Theorem yearly_leap_panics y now0 now : 1971 <= y < 3790 -> year_len y = 366 ->
  days_to y * DAY <= now < days_to y * DAY + DAY ->
  nx_schedule_entry_next_run (T := utc_env now0) (CRONTAB yearly) now = Panic "should not reach".
Proof.
  intros Hy Hleap Hnow. assert (365 <= days_to y /\ days_to y + 366 <= 668029) as [Hd1 Hd2].
  { pose proof (days_to_mono 1971 (y - 1971) ltac:(lia)) as H1. pose proof (days_to_mono (y + 1) (3799 - (y + 1)) ltac:(lia)) as H2.
    replace (1971 + (y - 1971)) with y in H1 by lia. replace (y + 1 + (3799 - (y + 1))) with 3799 in H2 by lia.
    change (days_to 1971) with 365 in H1. change (days_to 3799) with 668029 in H2. unfold year_len in Hleap. lia. }
  destruct (crontab_next_run (T := utc_env now0) yearly now) as [(t & _ & Ht & Hm & Hck & _)|[H _]]; [by split|unfold DAY in *; lia|unfold TIME_MAX, DAY, YEAR in *; lia| |done].
  exfalso. assert (DAY <= t < TIME_MAX - DAY) as Htr by (unfold TIME_MAX, DAY, YEAR in *; lia).
  destruct (check_ok (T := utc_env now0) yearly t ltac:(by split) Htr) as (x & w & b1 & b2 & b3 & b4 & b5 & Hx & Hok & Hw & F1 & F2 & F3 & F4 & _ & Hc).
  rewrite Hc in Hck. injection Hck as Hb. apply andb_true_iff in Hb as [Hb _]. apply andb_true_iff in Hb as [Hb Hb4]. apply andb_true_iff in Hb as [Hb Hb3]. apply andb_true_iff in Hb as [Hb1 Hb2].
  apply first_flag in F1; [|lia|done]. apply first_flag in F2; [|lia|done]. apply first_flag in F3; [|lia|done]. apply first_flag in F4; [|lia|done].
  destruct (explode_spec t ltac:(unfold TIME_MAX, DAY in *; lia)) as (x' & Hx' & Hok' & [_ Hsec] & Hs). simpl in Hx. rewrite Hx in Hx'. injection Hx' as <-.
  unfold seconds in Hs. rewrite F1, F2, F4 in Hs. replace (x_mday x) with 1 in Hs by lia. simpl (take _ _) in Hs. cbn [sum] in Hs.
  destruct Hok. set (yy := x_year x + 1900) in *.
  assert (days_to yy * DAY <= t < days_to yy * DAY + MINUTE) as Hyy by (unfold DAY, MINUTE; lia).
  assert (t = days_to yy * DAY) as Ht2 by (revert Hm Hyy; unfold DAY, MINUTE; generalize (days_to yy); intros; dlia).
  destruct (decide (yy <= y)) as [Hle|Hgt].
  - pose proof (days_to_mono yy (y - yy) ltac:(lia)) as Hmono. replace (yy + (y - yy)) with y in Hmono by lia. unfold DAY in *. lia.
  - pose proof (days_to_mono (y + 1) (yy - (y + 1)) ltac:(lia)) as Hmono. replace (y + 1 + (yy - (y + 1))) with yy in Hmono by lia. unfold year_len in Hleap. unfold DAY, YEAR in *. lia.
Qed.

(** ** Instances *)

Lemma crontab_next_run_witness : cron_ok no_flags /\
  ((exists t, nx_schedule_entry_next_run (T := utc_env 0) (CRONTAB no_flags) (2 * DAY) = Ret (CRONTAB no_flags, t) /\ 2 * DAY < t < 2 * DAY + YEAR /\ t mod MINUTE = 0 /\
     check_timeval (T := utc_env 0) no_flags t = Ret true /\
     forall u, u mod MINUTE = 0 -> 2 * DAY < u < t -> check_timeval (T := utc_env 0) no_flags u = Ret false) \/
   (nx_schedule_entry_next_run (T := utc_env 0) (CRONTAB no_flags) (2 * DAY) = Panic "should not reach" /\
     forall u, u mod MINUTE = 0 -> 2 * DAY < u < 2 * DAY + YEAR -> check_timeval (T := utc_env 0) no_flags u = Ret false)).
Proof.
  split; [exact no_flags_ok|]. apply (crontab_next_run (T := utc_env 0) no_flags (2 * DAY)); [exact no_flags_ok|unfold DAY; lia|unfold TIME_MAX, DAY, YEAR; lia].
Defined.

Lemma every_next_run_witness :
  nx_schedule_entry_next_run (T := utc_env 0) (EVERY 60 1000000) 100000000 = Ret (EVERY 60 121000000, 121000000) /\
  (1000000 <> 0 -> 100000000 < 121000000 /\ (121000000 = 1000000 \/ 121000000 - 60 * 1000000 <= 100000000) /\ (121000000 - 1000000) mod (60 * 1000000) = 0).
Proof. apply (every_next_run (T := utc_env 0) 60 1000000 100000000); lia. Defined.

Lemma yearly_leap_panics_witness : year_len 2016 = 366 /\
  nx_schedule_entry_next_run (T := utc_env 0) (CRONTAB yearly) (days_to 2016 * DAY) = Panic "should not reach".
Proof.
  split; [reflexivity|]. apply (yearly_leap_panics 2016 0 (days_to 2016 * DAY)); [lia|reflexivity|unfold DAY; lia].
Defined.

(** [30 4-6,22-23 1-15/5 * 7] *)
Definition line_ex : line :=
  Line (Items (One (lit "30")) []) (Items (Range (lit "4") (lit "6")) [Range (lit "22") (lit "23")])
       (Items (Step (lit "1") (lit "15") (lit "5")) []) Star (Items (One (lit "7")) []).

Lemma line_ex_ok : line_ok line_ex.
Proof.
  assert (forall first last ds, ds <> [] -> Forall (fun c => isdigit c = true) ds -> dec ds <= INT_MAX -> first <= dec ds <= last -> number_ok first last ds) as H by (unfold number_ok, is_number; tauto).
  split; cbn [line_ex l_min l_hour l_day l_month l_wday field_ok item_ok item_start]; rewrite ?Forall_cons, ?Forall_nil; cbn [item_ok item_start]; unfold item_ok, is_number; cbn [item_start];
    split_and?; try apply H; try done; try (repeat constructor; fail); cbv; lia.
Qed.

Lemma crontab_denotes_witness : line_text line_ex = lit "30 4-6,22-23 1-15/5 * 7" /\ line_ok line_ex /\
  exists c, nx_schedule_entry_parse_crontab no_flags (line_text line_ex) = Ret c /\ cron_ok c /\
    forall t, DAY <= t < TIME_MAX - DAY -> exists x w, apr_time_exp_lt (TimeEnv := utc_env 0) t = Some x /\ x_wday x = Some w /\
      check_timeval (T := utc_env 0) c t = Ret (line_has line_ex x w).
Proof. split; [reflexivity|]. split; [exact line_ex_ok|]. apply (crontab_denotes (T := utc_env 0) line_ex). exact line_ex_ok. Defined.

End Schedule.
