(* ===== verification/Event.v ===== *)
(** * Events and jobs (common/event.h, common/event.c, core/job.h, core/ctx.c)

    The threads of the program communicate by events.  A delayed event waits in
    [ctx->events] until its time has come; any other event is in the queue of the
    job of its module.  The state has the events by address with the links of
    their list nodes, the jobs, the job groups and what is needed of the modules;
    [X] is the rest of a module, which this file does not look at.  The lists of
    events are the linked lists of [Dlist], on one heap of links; the lists of
    jobs and of job groups, which are only built at start-up, are sequences.

    All operations are called with the global mutex held, so that each is one
    step. *)

From stdpp Require Import functions.
From S2P Require Import Prelude Dlist.

Module Event.

(** ** Data *)

Inductive nx_event_type :=
| NX_EVENT_NONE | NX_EVENT_POLL | NX_EVENT_ACCEPT | NX_EVENT_READ | NX_EVENT_WRITE
| NX_EVENT_RECONNECT | NX_EVENT_DISCONNECT | NX_EVENT_DATA_AVAILABLE | NX_EVENT_TIMEOUT
| NX_EVENT_SCHEDULE | NX_EVENT_VAR_EXPIRY | NX_EVENT_STAT_EXPIRY | NX_EVENT_MODULE_SPECIFIC
| NX_EVENT_MODULE_START | NX_EVENT_MODULE_STOP | NX_EVENT_MODULE_PAUSE | NX_EVENT_MODULE_RESUME
| NX_EVENT_MODULE_SHUTDOWN.

#[export] Instance event_type_dec : EqDecision nx_event_type.
Proof. solve_decision. Defined.

(** [nx_event_t] without its link. *)
Record nx_event := Ev {
  e_module : option loc; e_type : nx_event_type; e_delayed : bool; e_time : Z;
  e_data : option loc; e_priority : Z; e_job : option loc
}.

Definition set_job (j : option loc) (e : nx_event) : nx_event :=
  Ev (e_module e) (e_type e) (e_delayed e) (e_time e) (e_data e) (e_priority e) j.

(** [nx_job_t]: [events] is the head of a list. *)
Record nx_job := Job { j_busy : bool; j_first : option loc; j_last : option loc; j_cnt : Z }.

(** [nx_jobgroup_t] *)
Record nx_jobgroup := Group { g_last : option loc; g_priority : Z; g_jobs : list loc }.

Inductive nx_module_status :=
| NX_MODULE_STATUS_UNINITIALIZED | NX_MODULE_STATUS_STOPPED | NX_MODULE_STATUS_PAUSED | NX_MODULE_STATUS_RUNNING.

#[export] Instance module_status_dec : EqDecision nx_module_status.
Proof. solve_decision. Defined.

Record nx_module (X : Type) := Mod { m_job : option loc; m_priority : Z; m_status : nx_module_status; m_ext : X }.
Arguments Mod {X}. Arguments m_job {X}. Arguments m_priority {X}. Arguments m_status {X}. Arguments m_ext {X}.

Record sys (X : Type) := Sys {
  s_links : gmap loc Dlist.link;
  s_events : gmap loc nx_event;
  s_jobs : gmap loc nx_job;
  s_first : option loc;                 (* ctx->events *)
  s_last : option loc;
  s_groups : list nx_jobgroup;          (* ctx->jobgroups *)
  s_modules : gmap loc (nx_module X);
  s_terminating : bool;
  s_worker_signals : nat;               (* signals sent to worker_cond *)
  s_event_signals : nat                 (* and to event_cond *)
}.
Arguments Sys {X}. Arguments s_links {X}. Arguments s_events {X}. Arguments s_jobs {X}. Arguments s_first {X}.
Arguments s_last {X}. Arguments s_groups {X}. Arguments s_modules {X}. Arguments s_terminating {X}.
Arguments s_worker_signals {X}. Arguments s_event_signals {X}.

(** The lists of events: [ctx->events] and [job->events]. *)
Inductive lref := CtxEvents | JobEvents (j : loc).

#[export] Instance lref_dec : EqDecision lref.
Proof. solve_decision. Defined.

Section operations.
Context {X : Type}.
Abbreviation sys := (sys X).
Abbreviation prog A := (cmd sys A).

Definition with_links l (s : sys) : sys := Sys l (s_events s) (s_jobs s) (s_first s) (s_last s) (s_groups s) (s_modules s) (s_terminating s) (s_worker_signals s) (s_event_signals s).
Definition with_events e (s : sys) : sys := Sys (s_links s) e (s_jobs s) (s_first s) (s_last s) (s_groups s) (s_modules s) (s_terminating s) (s_worker_signals s) (s_event_signals s).
Definition with_jobs j (s : sys) : sys := Sys (s_links s) (s_events s) j (s_first s) (s_last s) (s_groups s) (s_modules s) (s_terminating s) (s_worker_signals s) (s_event_signals s).
Definition with_ctx f l (s : sys) : sys := Sys (s_links s) (s_events s) (s_jobs s) f l (s_groups s) (s_modules s) (s_terminating s) (s_worker_signals s) (s_event_signals s).
Definition with_groups g (s : sys) : sys := Sys (s_links s) (s_events s) (s_jobs s) (s_first s) (s_last s) g (s_modules s) (s_terminating s) (s_worker_signals s) (s_event_signals s).
Definition with_modules m (s : sys) : sys := Sys (s_links s) (s_events s) (s_jobs s) (s_first s) (s_last s) (s_groups s) m (s_terminating s) (s_worker_signals s) (s_event_signals s).
Definition signal_worker : prog unit := fun s => (Sys (s_links s) (s_events s) (s_jobs s) (s_first s) (s_last s) (s_groups s) (s_modules s) (s_terminating s) (S (s_worker_signals s)) (s_event_signals s), Ret tt).
Definition signal_event : prog unit := fun s => (Sys (s_links s) (s_events s) (s_jobs s) (s_first s) (s_last s) (s_groups s) (s_modules s) (s_terminating s) (s_worker_signals s) (S (s_event_signals s)), Ret tt).

(** Access through pointers. *)
Definition get_event (e : loc) : prog nx_event := fun s => (s, deref (s_events s !! e) "event").
Definition get_job (j : loc) : prog nx_job := fun s => (s, deref (s_jobs s !! j) "job").
Definition get_module (m : loc) : prog (nx_module X) := fun s => (s, deref (s_modules s !! m) "module").
Definition put_event (e : loc) (v : nx_event) : prog unit := fun s => (with_events (<[e := v]> (s_events s)) s, Ret tt).
Definition put_job (j : loc) (v : nx_job) : prog unit := fun s => (with_jobs (<[j := v]> (s_jobs s)) s, Ret tt).

Definition list_of (r : lref) (s : sys) : outcome Dlist.dlist :=
  match r with
  | CtxEvents => Ret (Dlist.DL (s_first s) (s_last s) (s_links s))
  | JobEvents j => job ← deref (s_jobs s !! j) "job"; Ret (Dlist.DL (j_first job) (j_last job) (s_links s))
  end.

Definition set_list (r : lref) (d : Dlist.dlist) (s : sys) : sys :=
  let s := with_links (Dlist.links d) s in
  match r with
  | CtxEvents => with_ctx (Dlist.first d) (Dlist.last d) s
  | JobEvents j =>
      match s_jobs s !! j with
      | Some job => with_jobs (<[j := Job (j_busy job) (Dlist.first d) (Dlist.last d) (j_cnt job)]> (s_jobs s)) s
      | None => s
      end
  end.

(** A macro that changes a list, and the pointers read from a list. *)
Definition on_list (r : lref) (f : Dlist.dlist -> outcome Dlist.dlist) : prog unit := fun s =>
  match list_of r s ≫= f with
  | Ret d => (set_list r d s, Ret tt)
  | Throw m => (s, Throw m) | Panic m => (s, Panic m) | Undef m => (s, Undef m)
  end.
Definition NX_DLIST_FIRST (r : lref) : prog (option loc) := fun s => (s, Dlist.first <$> list_of r s).
Definition NX_DLIST_LAST (r : lref) : prog (option loc) := fun s => (s, Dlist.last <$> list_of r s).
Definition NX_DLIST_NEXT (e : loc) : prog (option loc) := fun s => (s, Dlist.load_next (Some e) (Dlist.DL None None (s_links s))).
Definition NX_DLIST_PREV (e : loc) : prog (option loc) := fun s => (s, Dlist.load_prev (Some e) (Dlist.DL None None (s_links s))).

Definition u32 (z : Z) : Z := z mod 2 ^ 32.
Definition nx_atomic_add_cnt (j : loc) (n : Z) : prog unit :=
  job ← get_job j; put_job j (Job (j_busy job) (j_first job) (j_last job) (u32 (j_cnt job + n))).

(** ** event.c *)

Definition nx_event_type_to_string (t : nx_event_type) : outcome string :=
  match t with
  | NX_EVENT_POLL => Ret "POLL"
  | NX_EVENT_ACCEPT => Ret "ACCEPT"
  | NX_EVENT_READ => Ret "READ"
  | NX_EVENT_WRITE => Ret "WRITE"
  | NX_EVENT_RECONNECT => Ret "RECONNECT"
  | NX_EVENT_DISCONNECT => Ret "DISCONNECT"
  | NX_EVENT_DATA_AVAILABLE => Ret "DATA_AVAILABLE"
  | NX_EVENT_TIMEOUT => Ret "TIMEOUT"
  | NX_EVENT_SCHEDULE => Ret "SCHEDULE"
  | NX_EVENT_VAR_EXPIRY => Ret "VAR_EXPIRY"
  | NX_EVENT_STAT_EXPIRY => Ret "STAT_EXPIRY"
  | NX_EVENT_MODULE_SPECIFIC => Ret "MODULE_SPECIFIC"
  | NX_EVENT_MODULE_START => Ret "MODULE_START"
  | NX_EVENT_MODULE_STOP => Ret "MODULE_STOP"
  | NX_EVENT_MODULE_PAUSE => Ret "MODULE_PAUSE"
  | NX_EVENT_MODULE_RESUME => Ret "MODULE_RESUME"
  | NX_EVENT_MODULE_SHUTDOWN => Ret "MODULE_SHUTDOWN"
  | NX_EVENT_NONE => Panic "invalid type: %d"
  end.

(** [malloc] and [memset]: a fresh event, all zero. *)
Definition nx_event_new : prog loc := fun s =>
  let e := fresh (dom (s_links s) ∪ dom (s_events s)) in
  (with_links (<[e := Dlist.null_link]> (s_links s))
     (with_events (<[e := Ev None NX_EVENT_NONE false 0 None 0 None]> (s_events s)) s), Ret e).

Definition assert_unlinked (e : loc) : prog unit :=
  n ← NX_DLIST_NEXT e;
  _ ← lift (ASSERT (bool_decide (n = None)) "NX_DLIST_NEXT(event, link) == NULL");
  p ← NX_DLIST_PREV e;
  lift (ASSERT (bool_decide (p = None)) "NX_DLIST_PREV(event, link) == NULL").

(** [free(event)] *)
Definition free_event (e : loc) : prog unit := fun s =>
  match s_events s !! e with
  | Some _ => (with_links (delete e (s_links s)) (with_events (delete e (s_events s)) s), Ret tt)
  | None => (s, Undef "free of an event that is not allocated")
  end.

Definition nx_event_free (e : loc) : prog unit := _ ← assert_unlinked e; free_event e.

(** The pairs of types that may alternate at the end of a queue, the last one
    first. *)
Definition alternating : list (nx_event_type * nx_event_type) :=
  [(NX_EVENT_MODULE_RESUME, NX_EVENT_MODULE_PAUSE);
   (NX_EVENT_MODULE_PAUSE, NX_EVENT_MODULE_RESUME);
   (NX_EVENT_MODULE_RESUME, NX_EVENT_DATA_AVAILABLE);
   (NX_EVENT_POLL, NX_EVENT_MODULE_RESUME);
   (NX_EVENT_MODULE_RESUME, NX_EVENT_POLL);
   (NX_EVENT_POLL, NX_EVENT_DATA_AVAILABLE);
   (NX_EVENT_DATA_AVAILABLE, NX_EVENT_POLL)].

(** [e1] and [e2], if they have the types of [e3] and [e4]. *)
Definition same_pair (e3 : loc) (t4 t3 : nx_event_type) : prog (option loc) :=
  if bool_decide ((t4, t3) ∈ alternating) then
    e2 ← NX_DLIST_PREV e3;
    match e2 with
    | None => mret None
    | Some e2 =>
        v2 ← get_event e2;
        if bool_decide (e_type v2 = t4) then
          e1 ← NX_DLIST_PREV e2;
          match e1 with
          | None => mret None
          | Some e1 => v1 ← get_event e1; mret (if bool_decide (e_type v1 = t3) then Some e2 else None)
          end
        else mret None
    end
  else mret None.

(** One iteration of the loop of [_event_dedupe] at [curr]: the next [curr] if
    something was found. *)
Definition dedupe_step (j e4 : loc) : prog (option loc) :=
  e3 ← NX_DLIST_PREV e4;
  match e3 with
  | None => mret None
  | Some e3 =>
      v4 ← get_event e4;
      v3 ← get_event e3;
      _ ← lift (ASSERT (bool_decide (e_module v4 = e_module v3)) "e4->module == e3->module");
      if bool_decide (e_type v4 = e_type v3) && bool_decide (e_data v4 = e_data v3) && (e_priority v4 =? e_priority v3) then
        _ ← on_list (JobEvents j) (Dlist.NX_DLIST_REMOVE e4);
        _ ← nx_event_free e4;
        _ ← nx_atomic_add_cnt j (-1);
        mret (Some e3)
      else
        e2 ← same_pair e3 (e_type v4) (e_type v3);
        match e2 with
        | None => mret None
        | Some e2 =>
            _ ← on_list (JobEvents j) (Dlist.NX_DLIST_REMOVE e3);
            _ ← nx_event_free e3;
            _ ← on_list (JobEvents j) (Dlist.NX_DLIST_REMOVE e4);
            _ ← nx_event_free e4;
            _ ← nx_atomic_add_cnt j (-2);
            mret (Some e2)
        end
  end.

(** [fuel] bounds the iterations of the loop. *)
Fixpoint dedupe_loop (fuel : nat) (j : loc) (curr : option loc) : prog unit :=
  match curr with
  | None => mret tt
  | Some e4 =>
      match fuel with
      | O => lift (Undef "out of fuel")
      | S fuel =>
          next ← dedupe_step j e4;
          match next with Some e => dedupe_loop fuel j (Some e) | None => mret tt end
      end
  end.

Definition _event_dedupe (fuel : nat) (j : loc) : prog unit :=
  curr ← NX_DLIST_LAST (JobEvents j);
  dedupe_loop fuel j curr.

(** The number of events bounds the loops over lists of events. *)
Definition list_fuel (s : sys) : nat := size (s_events s).

(** An event behind the queue of a job. *)
Definition enqueue (j event : loc) (v : nx_event) : prog unit :=
  _ ← put_event event (set_job (Some j) v);
  _ ← on_list (JobEvents j) (Dlist.NX_DLIST_INSERT_TAIL event);
  nx_atomic_add_cnt j 1.

Definition nx_event_to_jobqueue (event : loc) : prog unit :=
  v ← get_event event;
  _ ← lift (ASSERT (negb (e_priority v =? 0)) "event->priority != 0");
  _ ← assert_unlinked event;
  _ ← lift (nx_event_type_to_string (e_type v));
  match e_module v with
  | None => lift (Panic "event->module != NULL")
  | Some m =>
      md ← get_module m;
      match m_job md with
      | None => s ← get; lift (ASSERT (s_terminating s) "nxlog->terminating == TRUE")
      | Some j =>
          _ ← enqueue j event v;
          s ← get;
          _ ← _event_dedupe (list_fuel s) j;
          l ← NX_DLIST_LAST (JobEvents j);
          if bool_decide (l = Some event) then signal_worker else mret tt
      end
  end.

(** [threads] tells whether [nxlog->event_cond] exists. *)
Definition nx_event_add (threads : bool) (event : loc) : prog unit :=
  v ← get_event event;
  _ ← lift (ASSERT (negb (bool_decide (e_type v = NX_EVENT_NONE))) "event->type != 0");
  _ ← lift (ASSERT (bool_decide (is_Some (e_module v))) "event->module != NULL");
  _ ← assert_unlinked event;
  if negb (e_delayed v) then nx_event_to_jobqueue event
  else
    _ ← on_list CtxEvents (Dlist.NX_DLIST_INSERT_TAIL event);
    if threads then signal_event else mret tt.

Definition nx_event_remove (event : loc) : prog unit :=
  v ← get_event event;
  match e_job v with
  | Some j => _ ← on_list (JobEvents j) (Dlist.NX_DLIST_REMOVE event); nx_atomic_add_cnt j (-1)
  | None => on_list CtxEvents (Dlist.NX_DLIST_REMOVE event)
  end.

Definition nx_event_next (event : option loc) : prog (option loc) :=
  match event with
  | None => NX_DLIST_FIRST CtxEvents
  | Some e => NX_DLIST_NEXT e
  end.

End operations.

(** ** The lists behind the links

    A view gives the elements of every list.  [linked] says that the heads and
    links of a state hold the lists of the view: the lists are disjoint, their
    elements are allocated, and the links of any other event are NULL. *)

Section views.
Context {X : Type}.
Abbreviation sys := (sys X).
Abbreviation view := (lref -> list loc).
Implicit Types (s : sys) (v : view).

Record linked s v : Prop := {
  lk_dom : dom (s_links s) = dom (s_events s);
  lk_rep r d : list_of r s = Ret d -> Dlist.rep d (v r);
  lk_none r : (forall d, list_of r s <> Ret d) -> v r = [];
  lk_disj e r1 r2 : e ∈ v r1 -> e ∈ v r2 -> r1 = r2;
  lk_alloc e r : e ∈ v r -> is_Some (s_events s !! e);
  lk_null e k : s_links s !! e = Some k -> (forall r, e ∉ v r) -> k = Dlist.null_link
}.

(** What a change of the lists and events leaves alone. *)
Record same_rest s s' : Prop := {
  sr_groups : s_groups s' = s_groups s;
  sr_modules : s_modules s' = s_modules s;
  sr_term : s_terminating s' = s_terminating s;
  sr_jobs j : match s_jobs s !! j, s_jobs s' !! j with
    | Some a, Some b => j_busy b = j_busy a /\ j_cnt b = j_cnt a | None, None => True | _, _ => False end
}.

#[export] Instance same_rest_preorder : PreOrder same_rest.
Proof.
  split; [intros s; split; try done; intros j; by case_match|]. intros s1 s2 s3 [] []. split; try congruence.
  intros j. specialize (sr_jobs0 j). specialize (sr_jobs1 j). destruct (s_jobs s1 !! j), (s_jobs s2 !! j), (s_jobs s3 !! j); naive_solver congruence.
Qed.

Lemma set_list_events r d s : s_events (set_list r d s) = s_events s.
Proof. destruct r as [|j]; simpl; [done|by case_match]. Qed.

Lemma list_of_set_list r d s : (exists d0, list_of r s = Ret d0) -> list_of r (set_list r d s) = Ret d.
Proof.
  intros [d0 H]. destruct r as [|j]; simpl in *; [by destruct d|]. destruct (s_jobs s !! j) as [job|]; [|done].
  simpl. rewrite lookup_insert_eq. simpl. by destruct d.
Qed.

Lemma list_of_set_list_ne r r' d s : r <> r' ->
  list_of r' (set_list r d s) = (d' ← list_of r' s; Ret (Dlist.DL (Dlist.first d') (Dlist.last d') (Dlist.links d))).
Proof.
  intros Hne. destruct r as [|j], r' as [|j']; simpl; try done.
  - by destruct (s_jobs s !! j').
  - by destruct (s_jobs s !! j).
  - destruct (s_jobs s !! j) as [job|]; simpl; [rewrite lookup_insert_ne by congruence|]; by destruct (s_jobs s !! j').
Qed.

Lemma set_list_same_rest r d s : same_rest s (set_list r d s).
Proof.
  split; try (destruct r as [|j]; simpl; [done|by case_match]).
  intros j'. destruct r as [|j]; simpl; [by case_match|]. destruct (s_jobs s !! j) as [job|] eqn:E; simpl; [|by case_match].
  destruct (decide (j = j')) as [-> |]; [rewrite lookup_insert_eq, E; done|rewrite lookup_insert_ne by done; by case_match].
Qed.

Lemma list_of_links r s d : list_of r s = Ret d -> Dlist.links d = s_links s.
Proof. destruct r as [|j]; simpl; [by intros [= <-]|]. destruct (s_jobs s !! j); [by intros [= <-]|done]. Qed.

Lemma list_of_cases r s : (exists d, list_of r s = Ret d) \/ (forall d, list_of r s <> Ret d).
Proof. destruct (list_of r s) as [d| | |]; [left; eauto|right; done..]. Qed.

(** The view after a change of one list, given what the macro did to the links. *)
Lemma linked_change s v r d d' l : linked s v -> list_of r s = Ret d ->
  Dlist.rep d' l -> dom (Dlist.links d') = dom (s_links s) ->
  (forall y, y ∉ v r -> y ∉ l -> Dlist.links d' !! y = s_links s !! y) ->
  (forall y, y ∈ v r -> y ∉ l -> Dlist.links d' !! y = Some Dlist.null_link) ->
  (forall y r', y ∈ l -> y ∈ v r' -> r' = r) -> (forall y, y ∈ l -> is_Some (s_events s !! y)) ->
  linked (set_list r d' s) (<[r := l]> v).
Proof.
  intros [] Hd Hrep Hdom Hframe Hout Hdisj Halloc. pose proof (set_list_events r d' s) as Hev.
  assert (forall s', s_links (set_list r d' s') = Dlist.links d') as Hlk.
  { intros s'. destruct r; simpl; [done|]. by case_match. }
  split.
  - by rewrite Hlk, Hdom, Hev.
  - intros r' d0 H0. destruct (decide (r = r')) as [<- |Hne].
    + rewrite list_of_set_list in H0 by eauto. injection H0 as <-. by rewrite fn_lookup_insert.
    + rewrite list_of_set_list_ne in H0 by done. apply bind_Ret in H0 as (d1 & H1 & [= <-]). rewrite fn_lookup_insert_ne by done.
      destruct (lk_rep0 _ _ H1) as (Hn & Hf & Hl & Hs). split_and!; [done|done|done|]. simpl.
      eapply Dlist.seg_frame; [|exact Hs]. intros y Hy. rewrite (list_of_links _ _ _ H1). apply Hframe.
      * intros Hy'. exact (Hne (lk_disj0 _ _ _ Hy' Hy)).
      * intros Hy'. by apply Hne, eq_sym, (Hdisj y).
  - intros r' Hno. destruct (decide (r = r')) as [<- |Hne].
    + exfalso. apply (Hno d'). apply list_of_set_list. eauto.
    + rewrite fn_lookup_insert_ne by done. apply lk_none0. intros d0 H0. rewrite list_of_set_list_ne, H0 in Hno by done. by eapply Hno.
  - intros e r1 r2. destruct (decide (r = r1)) as [<- |], (decide (r = r2)) as [<- |];
      rewrite ?fn_lookup_insert, ?fn_lookup_insert_ne by done; intros H1 H2; [done|symmetry; by eapply Hdisj|by eapply Hdisj|by eapply lk_disj0].
  - intros e r'. rewrite Hev. destruct (decide (r = r')) as [<- |]; rewrite ?fn_lookup_insert, ?fn_lookup_insert_ne by done; eauto.
  - intros e k. rewrite Hlk. intros Hk Hno. pose proof (Hno r) as Hr. rewrite fn_lookup_insert in Hr.
    destruct (decide (e ∈ v r)) as [Hin|Hin]; [rewrite Hout in Hk by done; by injection Hk as <-|].
    rewrite Hframe in Hk by done. apply (lk_null0 _ _ Hk). intros r'. destruct (decide (r = r')) as [<- |]; [done|].
    specialize (Hno r'). by rewrite fn_lookup_insert_ne in Hno.
Qed.

Definition absent (e : loc) v : Prop := forall r, e ∉ v r.

Lemma on_list_insert s v r d e : linked s v -> list_of r s = Ret d -> absent e v -> is_Some (s_events s !! e) ->
  exists s', on_list r (Dlist.NX_DLIST_INSERT_TAIL e) s = (s', Ret tt) /\ linked s' (<[r := v r ++ [e]]> v) /\ same_rest s s' /\
    s_events s' = s_events s.
Proof.
  intros L Hd He Ha. pose proof (list_of_links _ _ _ Hd) as Hlk. pose proof (lk_rep _ _ L r d Hd) as Hrep.
  assert (is_Some (Dlist.links d !! e)) as Hle by (rewrite Hlk; apply elem_of_dom; rewrite (lk_dom _ _ L); by apply elem_of_dom).
  destruct (Dlist.insert_tail_rep d (v r) e Hrep (He r) Hle) as (d' & Hop & Hrep' & Hframe).
  exists (set_list r d' s). unfold on_list. rewrite Hd. cbn [mbind outcome_bind]. rewrite Hop. split; [done|].
  split_and!; [|apply set_list_same_rest|apply set_list_events].
  apply (linked_change s v r d); try done.
  - rewrite <- Hlk. exact (Dlist.run_op_dom (Dlist.OpTail e) d d' Hop).
  - intros y Hy Hy'. rewrite <- Hlk. apply Hframe; [done|]. intros ->. apply Hy', elem_of_app. right. by left.
  - intros y Hy Hy'. exfalso. apply Hy', elem_of_app. by left.
  - intros y r' Hy Hr'. apply elem_of_app in Hy as [Hy|Hy]; [by eapply (lk_disj _ _ L)|].
    apply list_elem_of_singleton in Hy as ->. by apply He in Hr'.
  - intros y Hy. apply elem_of_app in Hy as [Hy|Hy]; [by eapply (lk_alloc _ _ L)|]. by apply list_elem_of_singleton in Hy as ->.
Qed.

Lemma on_list_remove s v r l1 e l2 : linked s v -> v r = l1 ++ e :: l2 ->
  exists s', on_list r (Dlist.NX_DLIST_REMOVE e) s = (s', Ret tt) /\ linked s' (<[r := l1 ++ l2]> v) /\ same_rest s s' /\
    s_events s' = s_events s /\ absent e (<[r := l1 ++ l2]> v).
Proof.
  intros L Hv. destruct (list_of_cases r s) as [[d Hd]|Hno]; [|rewrite (lk_none _ _ L r Hno) in Hv; by destruct l1].
  pose proof (list_of_links _ _ _ Hd) as Hlk. pose proof (lk_rep _ _ L r d Hd) as Hrep. rewrite Hv in Hrep.
  destruct (Dlist.remove_rep d l1 e l2 Hrep) as (d' & Hop & Hrep' & Hnull & Hframe).
  destruct Hrep as (Hnd & _). apply Dlist.NoDup_mid in Hnd as (Hn1 & Hn2 & _).
  exists (set_list r d' s). unfold on_list. rewrite Hd. cbn [mbind outcome_bind]. rewrite Hop. split; [done|]. split_and!.
  - apply (linked_change s v r d); try done; rewrite ?Hv.
    + rewrite <- Hlk. exact (Dlist.run_op_dom (Dlist.OpRemove e) d d' Hop).
    + intros y Hy _. rewrite <- Hlk. by apply Hframe.
    + intros y Hy Hy'. assert (y = e) as ->; [|done]. set_solver.
    + intros y r' Hy Hr'. eapply (lk_disj _ _ L); [exact Hr'|]. rewrite Hv. set_solver.
    + intros y Hy. apply (lk_alloc _ _ L y r). rewrite Hv. set_solver.
  - apply set_list_same_rest.
  - apply set_list_events.
  - intros r'. destruct (decide (r = r')) as [<- |Hne]; [rewrite fn_lookup_insert; set_solver|].
    rewrite fn_lookup_insert_ne by done. intros Hin. apply Hne. eapply (lk_disj _ _ L); [|exact Hin]. rewrite Hv. set_solver.
Qed.

Lemma unlinked_ok s v e : linked s v -> absent e v -> is_Some (s_events s !! e) -> assert_unlinked e s = (s, Ret tt).
Proof.
  intros L He Ha. assert (s_links s !! e = Some Dlist.null_link) as Hk.
  { destruct (s_links s !! e) as [k|] eqn:E; [by rewrite (lk_null _ _ L _ _ E He)|].
    apply not_elem_of_dom in E. rewrite (lk_dom _ _ L) in E. by apply not_elem_of_dom in E; rewrite E in Ha; destruct Ha. }
  unfold assert_unlinked, mbind, cmd_bind, NX_DLIST_NEXT, NX_DLIST_PREV. simpl. unfold Dlist.load_next, Dlist.load_prev. simpl. by rewrite Hk.
Qed.

(** The state after [free]. *)
Definition freed (e : loc) s : sys := with_links (delete e (s_links s)) (with_events (delete e (s_events s)) s).

Lemma event_free_ok s v e : linked s v -> absent e v -> is_Some (s_events s !! e) ->
  nx_event_free e s = (freed e s, Ret tt) /\ linked (freed e s) v /\ same_rest s (freed e s).
Proof.
  intros L He Ha. unfold nx_event_free. rewrite (cmd_bind_Ret _ _ _ _ _ (unlinked_ok s v e L He Ha)).
  unfold free_event. destruct Ha as [ev Hev]. rewrite Hev. split; [done|]. split; [|split; try done; intros j; simpl; by case_match].
  assert (forall r, list_of r (freed e s) = (d ← list_of r s; Ret (Dlist.DL (Dlist.first d) (Dlist.last d) (delete e (s_links s))))) as Hlist.
  { intros [|j]; simpl; [done|]. by destruct (s_jobs s !! j). }
  destruct L. split.
  - simpl. rewrite !dom_delete_L. by rewrite lk_dom0.
  - intros r d Hd. rewrite Hlist in Hd. apply bind_Ret in Hd as (d0 & H0 & [= <-]).
    destruct (lk_rep0 r d0 H0) as (Hn & Hf & Hl & Hs). split_and!; [done|done|done|]. simpl.
    eapply Dlist.seg_frame; [|exact Hs]. intros y Hy. rewrite (list_of_links _ _ _ H0), lookup_delete_ne; [done|].
    intros <-. by apply (He r).
  - intros r Hno. apply lk_none0. intros d Hd. rewrite Hlist, Hd in Hno. by eapply Hno.
  - done.
  - intros y r Hy. simpl. rewrite lookup_delete_ne; [by eapply lk_alloc0|]. intros <-. by apply (He r).
  - intros y k. simpl. destruct (decide (e = y)) as [<- |]; [by rewrite lookup_delete_eq|]. rewrite lookup_delete_ne by done. apply lk_null0.
Qed.

(** Reading the links of an element of a list. *)
Lemma next_prev_ok s v r l1 e l2 : linked s v -> v r = l1 ++ e :: l2 ->
  NX_DLIST_NEXT e s = (s, Ret (Dlist.fst_or l2 None)) /\ NX_DLIST_PREV e s = (s, Ret (Dlist.lst_or l1 None)).
Proof.
  intros L Hv. destruct (list_of_cases r s) as [[d Hd]|Hno]; [|rewrite (lk_none _ _ L r Hno) in Hv; by destruct l1].
  pose proof (lk_rep _ _ L r d Hd) as (_ & _ & _ & Hs). rewrite Hv in Hs. apply Dlist.seg_lookup in Hs.
  rewrite (list_of_links _ _ _ Hd) in Hs. unfold NX_DLIST_NEXT, NX_DLIST_PREV, Dlist.load_next, Dlist.load_prev. simpl. by rewrite Hs.
Qed.

Lemma first_last_ok s v r d : linked s v -> list_of r s = Ret d ->
  NX_DLIST_FIRST r s = (s, Ret (Dlist.fst_or (v r) None)) /\ NX_DLIST_LAST r s = (s, Ret (Dlist.lst_or (v r) None)).
Proof.
  intros L Hd. destruct (lk_rep _ _ L r d Hd) as (_ & Hf & Hl & _). unfold NX_DLIST_FIRST, NX_DLIST_LAST. rewrite Hd. simpl. by rewrite Hf, Hl.
Qed.

(** [NX_DLIST_REMOVE] and [nx_event_free]. *)
Lemma remove_free_ok s v r l1 e l2 : linked s v -> v r = l1 ++ e :: l2 ->
  exists s1 s', on_list r (Dlist.NX_DLIST_REMOVE e) s = (s1, Ret tt) /\ nx_event_free e s1 = (s', Ret tt) /\
    linked s' (<[r := l1 ++ l2]> v) /\ same_rest s s' /\ s_events s' = delete e (s_events s).
Proof.
  intros L Hv. destruct (on_list_remove s v r l1 e l2 L Hv) as (s1 & H1 & L1 & R1 & E1 & A1).
  assert (is_Some (s_events s1 !! e)) as Ha by (rewrite E1; apply (lk_alloc _ _ L e r); rewrite Hv; set_solver).
  destruct (event_free_ok s1 _ e L1 A1 Ha) as (H2 & L2 & R2). exists s1, (freed e s1). split_and!; try done.
  - by transitivity s1.
  - simpl. by rewrite E1.
Qed.

(** ** The invariant *)

(** An event of a list: its module exists; in the queue of a job it belongs to
    the module of the job; otherwise it is delayed. *)
Definition event_in (s : sys) (r : lref) (ev : nx_event) : Prop :=
  e_priority ev <> 0 /\ e_type ev <> NX_EVENT_NONE /\
  exists m md, e_module ev = Some m /\ s_modules s !! m = Some md /\
  match r with
  | CtxEvents => e_delayed ev = true /\ e_job ev = None
  | JobEvents j => e_job ev = Some j /\ m_job md = Some j
  end.

Definition counted s v : Prop := forall j job, s_jobs s !! j = Some job -> j_cnt job = zlen (v (JobEvents j)).

(** Every module has a job of its own, unless the program terminates. *)
Definition modules_ok s : Prop :=
  (forall m md, s_modules s !! m = Some md ->
    match m_job md with Some j => is_Some (s_jobs s !! j) | None => s_terminating s = true end) /\
  (forall m1 m2 md1 md2 j, s_modules s !! m1 = Some md1 -> s_modules s !! m2 = Some md2 ->
    m_job md1 = Some j -> m_job md2 = Some j -> m1 = m2).

Record sched_ok s v : Prop := {
  so_linked : linked s v;
  so_counted : counted s v;
  so_modules : modules_ok s;
  so_events r e ev : e ∈ v r -> s_events s !! e = Some ev -> event_in s r ev;
  so_size : Z.of_nat (size (s_events s)) < 2 ^ 32
}.

Lemma same_rest_modules s s' : same_rest s s' -> modules_ok s -> modules_ok s'.
Proof.
  intros [] [H1 H2]. split.
  - intros m md. rewrite sr_modules0. intros Hm. specialize (H1 m md Hm). destruct (m_job md) as [j|]; [|by rewrite sr_term0].
    specialize (sr_jobs0 j). by destruct (s_jobs s !! j), (s_jobs s' !! j); try done; destruct H1.
  - by rewrite sr_modules0.
Qed.

Lemma same_rest_event s s' r ev : same_rest s s' -> event_in s r ev -> event_in s' r ev.
Proof. intros [] (Hp & Ht & m & md & Hm & Hmd & H). unfold event_in. rewrite sr_modules0. eauto 10. Qed.

(** The number of elements of a list is at most the number of events. *)
Lemma list_size s v r : linked s v -> (length (v r) <= size (s_events s))%nat.
Proof.
  intros L. destruct (list_of_cases r s) as [[d Hd]|Hno]; [|rewrite (lk_none _ _ L r Hno); simpl; lia].
  destruct (lk_rep _ _ L r d Hd) as (Hnd & _).
  rewrite <- size_dom, <- (size_list_to_set (C := gset loc) (v r)) by done. apply subseteq_size.
  intros e He%elem_of_list_to_set. apply elem_of_dom. by eapply (lk_alloc _ _ L).
Qed.

(** ** Removing duplicates *)

Definition same_event (a b : nx_event) : bool :=
  bool_decide (e_type a = e_type b) && bool_decide (e_data a = e_data b) && (e_priority a =? e_priority b).

(** A queue with its last event first, after one iteration. *)
Definition dedupe_next (f : loc -> option nx_event) (rl : list loc) : option (list loc) :=
  match rl with
  | e4 :: e3 :: r =>
      v4 ← f e4; v3 ← f e3;
      if same_event v4 v3 then Some (e3 :: r)
      else match r with
        | e2 :: e1 :: _ =>
            v2 ← f e2; v1 ← f e1;
            if bool_decide ((e_type v4, e_type v3) ∈ alternating) && bool_decide (e_type v2 = e_type v4) &&
               bool_decide (e_type v1 = e_type v3)
            then Some r else None
        | _ => None
        end
  | _ => None
  end.

Fixpoint dedupe_rev (fuel : nat) (f : loc -> option nx_event) (rl : list loc) : list loc :=
  match fuel with
  | O => rl
  | S fuel => match dedupe_next f rl with Some rl' => dedupe_rev fuel f rl' | None => rl end
  end.

Lemma add_cnt_ok s v j job n : s_jobs s !! j = Some job -> linked s v ->
  exists s', nx_atomic_add_cnt j n s = (s', Ret tt) /\ linked s' v /\ s_events s' = s_events s /\ s_groups s' = s_groups s /\
    s_modules s' = s_modules s /\ s_terminating s' = s_terminating s /\
    s_jobs s' = <[j := Job (j_busy job) (j_first job) (j_last job) (u32 (j_cnt job + n))]> (s_jobs s).
Proof.
  intros Hj L. eexists. unfold nx_atomic_add_cnt, get_job, put_job. unfold mbind at 1, cmd_bind. rewrite Hj. simpl.
  split; [done|]. split_and!; try done. set (s' := with_jobs _ s).
  assert (forall r, list_of r s' = list_of r s) as Hl.
  { intros [|j']; [done|]. subst s'. simpl. destruct (decide (j = j')) as [<- |]; [by rewrite lookup_insert_eq, Hj|by rewrite lookup_insert_ne]. }
  destruct L. split; try done; intros r; rewrite ?Hl; eauto.
Qed.

(** A queue after some of its events were removed and freed and its counter
    adjusted. *)
Lemma sched_shrink s s1 s' v j job l n : sched_ok s v -> same_rest s s1 -> s_jobs s !! j = Some job ->
  linked s1 (<[JobEvents j := l]> v) -> zlen (v (JobEvents j)) = zlen l + n -> 0 <= n ->
  l ⊆ v (JobEvents j) -> (forall e ev, s_events s1 !! e = Some ev -> s_events s !! e = Some ev) ->
  (size (s_events s1) <= size (s_events s))%nat ->
  nx_atomic_add_cnt j (- n) s1 = (s', Ret tt) ->
  sched_ok s' (<[JobEvents j := l]> v) /\ s_events s' = s_events s1.
Proof.
  intros [] Hrest Hj L1 Hlen Hn Hsub Hev Hsize Hadd. pose proof Hrest as [].
  pose proof (sr_jobs0 j) as Hj1. rewrite Hj in Hj1. destruct (s_jobs s1 !! j) as [job1|] eqn:E1; [|done]. destruct Hj1 as [Hb Hc].
  destruct (add_cnt_ok s1 _ j job1 (- n) E1 L1) as (s2 & Hadd2 & L2 & Ev2 & G2 & M2 & T2 & J2). rewrite Hadd in Hadd2. injection Hadd2 as <-.
  split; [|done]. split.
  - done.
  - intros j' job'. rewrite J2. destruct (decide (j = j')) as [<- |Hne].
    + rewrite lookup_insert_eq. intros [= <-]. rewrite fn_lookup_insert. simpl. rewrite Hc, (so_counted0 j job Hj), Hlen.
      unfold u32. rewrite Z.mod_small; [lia|]. pose proof (list_size s v (JobEvents j) so_linked0). lia.
    + rewrite lookup_insert_ne by done. intros Hj'. rewrite fn_lookup_insert_ne by congruence.
      specialize (sr_jobs0 j'). rewrite Hj' in sr_jobs0. destruct (s_jobs s !! j') as [job0|] eqn:E0; [|done].
      destruct sr_jobs0 as [_ ->]. by apply so_counted0.
  - pose proof (same_rest_modules s s1 Hrest so_modules0) as [H1 H2]. split.
    + intros m md. rewrite M2, T2, J2. intros Hm. specialize (H1 m md Hm). destruct (m_job md) as [j'|]; [|done].
      destruct (decide (j = j')) as [<- |]; [rewrite lookup_insert_eq; eauto|by rewrite lookup_insert_ne].
    + by rewrite M2.
  - intros r e ev Hin He. rewrite Ev2 in He. assert (event_in s r ev) as (Hp & Ht & m & md & Hm & Hmd & H).
    { eapply so_events0; [|by apply Hev]. destruct (decide (JobEvents j = r)) as [<- |];
        [rewrite fn_lookup_insert in Hin; by apply Hsub|by rewrite fn_lookup_insert_ne in Hin]. }
    unfold event_in. rewrite M2, sr_modules0. eauto 10.
  - rewrite Ev2. lia.
Qed.

Lemma linked_ext s v v' : (forall r, v r = v' r) -> linked s v -> linked s v'.
Proof.
  intros E []. split; try done; intros; rewrite <- ?E in *; eauto.
  eapply lk_null0; [done|]. intros r. rewrite E. auto.
Qed.

Lemma sched_ext s v v' : (forall r, v r = v' r) -> sched_ok s v -> sched_ok s v'.
Proof.
  intros E []. split; try done.
  - by eapply linked_ext.
  - intros j job Hj. rewrite <- E. auto.
  - intros r e ev. rewrite <- E. eauto.
Qed.

Lemma lst_or_snoc l (x : loc) n : Dlist.lst_or (l ++ [x]) n = Some x.
Proof. by rewrite Dlist.lst_or_app. Qed.

Lemma get_event_ok s e ev : s_events s !! e = Some ev -> get_event e s = (s, Ret ev).
Proof. unfold get_event. by intros ->. Qed.

(** Two events of a queue have the same module. *)
Lemma queue_module s v j e1 e2 (v1 v2 : nx_event) : sched_ok s v -> e1 ∈ v (JobEvents j) -> e2 ∈ v (JobEvents j) ->
  s_events s !! e1 = Some v1 -> s_events s !! e2 = Some v2 -> e_module v1 = e_module v2.
Proof.
  intros [] H1 H2 E1 E2. destruct (so_events0 _ _ _ H1 E1) as (_ & _ & m1 & md1 & -> & Hm1 & _ & Hj1).
  destruct (so_events0 _ _ _ H2 E2) as (_ & _ & m2 & md2 & -> & Hm2 & _ & Hj2).
  destruct so_modules0 as [_ Hinj]. by rewrite (Hinj _ _ _ _ _ Hm1 Hm2 Hj1 Hj2).
Qed.

(** The search for the pair before the last two events. *)
Lemma same_pair_ok s v j r e3 e4 (v3 v4 : nx_event) : sched_ok s v -> v (JobEvents j) = reverse (e4 :: e3 :: r) ->
  s_events s !! e3 = Some v3 -> s_events s !! e4 = Some v4 -> same_event v4 v3 = false ->
  exists o, same_pair e3 (e_type v4) (e_type v3) s = (s, Ret o) /\
    match dedupe_next (fun e => s_events s !! e) (e4 :: e3 :: r), o with
    | Some rl, Some e2 => rl = r /\ exists r', r = e2 :: r'
    | None, None => True
    | _, _ => False
    end.
Proof.
  intros Hok Hv E3 E4 Hne. pose proof (so_linked _ _ Hok) as L. unfold dedupe_next, mbind, option_bind. rewrite E3, E4, Hne.
  rewrite !reverse_cons, <- !app_assoc in Hv. simpl in Hv. unfold same_pair.
  assert (forall e, e ∈ r -> is_Some (s_events s !! e)) as Ha.
  { intros e He. apply (lk_alloc _ _ L e (JobEvents j)). rewrite Hv. apply elem_of_app. left. by apply elem_of_reverse. }
  destruct (bool_decide ((_, _) ∈ alternating)) eqn:Ealt.
  2:{ exists None. split; [done|]. destruct r as [|e2 [|e1 r]]; try done.
      destruct (Ha e2) as [v2 ->]; [set_solver|]. destruct (Ha e1) as [v1 ->]; [set_solver|]. done. }
  destruct (next_prev_ok s v (JobEvents j) (reverse r) e3 [e4] L Hv) as [_ Hp3].
  rewrite (cmd_bind_Ret _ _ _ _ _ Hp3). destruct r as [|e2 r]; [by exists None|].
  rewrite reverse_cons, lst_or_snoc. destruct (Ha e2) as [v2 E2]; [set_solver|]. rewrite (cmd_bind_Ret _ _ _ _ _ (get_event_ok _ _ _ E2)).
  destruct (decide (e_type v2 = e_type v4)) as [Ht2|Ht2]; cycle 1.
  { exists None. rewrite bool_decide_eq_false_2 by done. split; [done|]. destruct r as [|e1 r]; [done|]. rewrite E2.
    destruct (Ha e1) as [v1 ->]; [set_solver|]. simpl. by rewrite (bool_decide_eq_false_2 (e_type v2 = _)). }
  rewrite bool_decide_eq_true_2 by done.
  rewrite reverse_cons, <- app_assoc in Hv. destruct (next_prev_ok s v (JobEvents j) (reverse r) e2 [e3; e4] L Hv) as [_ Hp2].
  rewrite (cmd_bind_Ret _ _ _ _ _ Hp2). destruct r as [|e1 r]; [by exists None|]. rewrite reverse_cons, lst_or_snoc.
  destruct (Ha e1) as [v1 E1]; [set_solver|]. rewrite (cmd_bind_Ret _ _ _ _ _ (get_event_ok _ _ _ E1)).
  eexists. split; [reflexivity|]. rewrite E2, E1. simpl. rewrite (bool_decide_eq_true_2 (e_type v2 = _)) by done. simpl.
  destruct (bool_decide (e_type v1 = e_type v3)); [split; eauto|done].
Qed.

Lemma same_rest_job s s' j job : same_rest s s' -> s_jobs s !! j = Some job -> exists job', s_jobs s' !! j = Some job'.
Proof. intros [] Hj. specialize (sr_jobs0 j). rewrite Hj in sr_jobs0. destruct (s_jobs s' !! j); [eauto|done]. Qed.

Lemma map_size_delete_le {A} (m : gmap loc A) i : (size (delete i m) <= size m)%nat.
Proof. rewrite <- !size_dom. apply subseteq_size, subseteq_dom, delete_subseteq. Qed.

(** What the operations on events leave alone. *)
Definition same_static s s' : Prop :=
  s_groups s' = s_groups s /\ s_modules s' = s_modules s /\ s_terminating s' = s_terminating s /\
  (forall j, j_busy <$> s_jobs s' !! j = j_busy <$> s_jobs s !! j).

#[export] Instance same_static_preorder : PreOrder same_static.
Proof. split; [by intros s|]. unfold same_static. intros s1 s2 s3 (? & ? & ? & ?) (? & ? & ? & ?). split_and!; congruence. Qed.

Lemma same_rest_static s s' : same_rest s s' -> same_static s s'.
Proof.
  intros []. split_and!; try done. intros j. specialize (sr_jobs0 j). destruct (s_jobs s !! j), (s_jobs s' !! j); try done.
  simpl. by destruct sr_jobs0 as [-> _].
Qed.

(** The state of a counter, as a change of the jobs. *)
Lemma cnt_static s s1 s2 j job1 n : same_rest s s1 -> s_jobs s1 !! j = Some job1 -> s_groups s2 = s_groups s1 -> s_modules s2 = s_modules s1 ->
  s_terminating s2 = s_terminating s1 ->
  s_jobs s2 = <[j := Job (j_busy job1) (j_first job1) (j_last job1) n]> (s_jobs s1) -> same_static s s2.
Proof.
  intros R Hj1 HG HM HT HJ. transitivity s1; [by apply same_rest_static|]. split_and!; try done. intros j'. rewrite HJ.
  destruct (decide (j = j')) as [<- |]; [by rewrite lookup_insert_eq, Hj1|by rewrite lookup_insert_ne].
Qed.

(** One iteration refines [dedupe_next]. *)
Lemma dedupe_step_ok s v j job e4 rl : sched_ok s v -> s_jobs s !! j = Some job -> v (JobEvents j) = reverse (e4 :: rl) ->
  match dedupe_next (fun e => s_events s !! e) (e4 :: rl) with
  | None => dedupe_step j e4 s = (s, Ret None)
  | Some rl2 => exists s' e r, dedupe_step j e4 s = (s', Ret (Some e)) /\ rl2 = e :: r /\
      sched_ok s' (<[JobEvents j := reverse rl2]> v) /\ is_Some (s_jobs s' !! j) /\ same_static s s' /\
      (forall x, x ∈ rl2 \/ x ∉ e4 :: rl -> s_events s' !! x = s_events s !! x) /\ s_events s' ⊆ s_events s
  end.
Proof.
  intros Hok Hj Hv. pose proof (so_linked _ _ Hok) as L. unfold dedupe_step.
  pose proof Hv as Hv4. rewrite reverse_cons in Hv4. destruct (next_prev_ok s v (JobEvents j) (reverse rl) e4 [] L Hv4) as [_ Hp4].
  rewrite (cmd_bind_Ret _ _ _ _ _ Hp4). destruct rl as [|e3 r]; [done|]. rewrite reverse_cons, lst_or_snoc.
  assert (forall e, e ∈ e4 :: e3 :: r -> is_Some (s_events s !! e)) as Ha.
  { intros e He. apply (lk_alloc _ _ L e (JobEvents j)). rewrite Hv. by apply elem_of_reverse. }
  destruct (Ha e4) as [v4 E4]; [set_solver|]. destruct (Ha e3) as [v3 E3]; [set_solver|].
  rewrite (cmd_bind_Ret _ _ _ _ _ (get_event_ok _ _ _ E4)), (cmd_bind_Ret _ _ _ _ _ (get_event_ok _ _ _ E3)).
  assert (e_module v4 = e_module v3) as Hm.
  { eapply queue_module; [done| | |exact E4|exact E3]; rewrite Hv; apply elem_of_reverse; set_solver. }
  rewrite (bool_decide_eq_true_2 (e_module v4 = e_module v3)) by done.
  rewrite (cmd_bind_Ret _ _ s s tt) by done. fold (same_event v4 v3).
  assert (NoDup (v (JobEvents j))) as Hnd.
  { destruct (list_of_cases (JobEvents j) s) as [[d Hd]|Hno]; [apply (lk_rep _ _ L _ d Hd)|]. rewrite (lk_none _ _ L _ Hno). constructor. }
  rewrite Hv, reverse_Permutation in Hnd.
  destruct (same_event v4 v3) eqn:Esame.
  - assert (dedupe_next (fun e => s_events s !! e) (e4 :: e3 :: r) = Some (e3 :: r)) as ->.
    { unfold dedupe_next. rewrite E4, E3. simpl. by rewrite Esame. }
    destruct (remove_free_ok s v (JobEvents j) (reverse (e3 :: r)) e4 [] L Hv4) as (s1 & s2 & H1 & H2 & L2 & R2 & Ev2). rewrite app_nil_r in L2.
    rewrite (cmd_bind_Ret _ _ _ _ _ H1), (cmd_bind_Ret _ _ _ _ _ H2).
    destruct (same_rest_job s s2 j job R2 Hj) as [job2 Hj2].
    destruct (add_cnt_ok s2 _ j job2 (-1) Hj2 L2) as (s3 & H3 & _ & Ev3 & G3 & M3 & T3 & J3). rewrite (cmd_bind_Ret _ _ _ _ _ H3).
    destruct (sched_shrink s s2 s3 v j job (reverse (e3 :: r)) 1 Hok R2 Hj L2) as [Hok3 _]; try done.
    { rewrite Hv4, length_app. simpl. lia. }
    { rewrite Hv4. intros x Hx. apply elem_of_app. by left. }
    { rewrite Ev2. intros e ev. by apply lookup_delete_Some. }
    { rewrite Ev2. apply map_size_delete_le. }
    assert (same_static s s3) as St by (by eapply cnt_static).
    exists s3, e3, r. rewrite J3, lookup_insert_eq, Ev3, Ev2. split_and!; eauto.
    + intros x Hx. apply lookup_delete_ne. intros <-. apply NoDup_cons in Hnd as [Hnd _]. set_solver.
    + apply delete_subseteq.
  - destruct (same_pair_ok s v j r e3 e4 v3 v4 Hok Hv E3 E4 Esame) as (o & Ho & Hmatch).
    rewrite (cmd_bind_Ret _ _ _ _ _ Ho). destruct (dedupe_next _ _) as [rl2|], o as [e2|]; try done.
    destruct Hmatch as [-> [r' ->]].
    pose proof Hv as Hv3. rewrite !reverse_cons, <- !app_assoc in Hv3. rewrite app_assoc in Hv3. rewrite <- reverse_cons in Hv3. simpl in Hv3.
    destruct (remove_free_ok s v (JobEvents j) (reverse (e2 :: r')) e3 [e4] L Hv3) as (s1 & s2 & H1 & H2 & L2 & R2 & Ev2).
    rewrite (cmd_bind_Ret _ _ _ _ _ H1), (cmd_bind_Ret _ _ _ _ _ H2).
    destruct (remove_free_ok s2 _ (JobEvents j) (reverse (e2 :: r')) e4 [] L2 (fn_lookup_insert _ _ _)) as (s3 & s4 & H3 & H4 & L4 & R4 & Ev4).
    rewrite (cmd_bind_Ret _ _ _ _ _ H3), (cmd_bind_Ret _ _ _ _ _ H4). rewrite app_nil_r in L4.
    assert (same_rest s s4) as R by (by transitivity s2).
    assert (linked s4 (<[JobEvents j := reverse (e2 :: r')]> v)) as L4'.
    { eapply linked_ext; [|exact L4]. intros x. destruct (decide (JobEvents j = x)) as [<- |];
        [by rewrite !fn_lookup_insert|by rewrite !fn_lookup_insert_ne]. }
    destruct (same_rest_job s s4 j job R Hj) as [job4 Hj4].
    destruct (add_cnt_ok s4 _ j job4 (-2) Hj4 L4') as (s5 & H5 & _ & Ev5 & G5 & M5 & T5 & J5). rewrite (cmd_bind_Ret _ _ _ _ _ H5).
    destruct (sched_shrink s s4 s5 v j job (reverse (e2 :: r')) 2 Hok R Hj L4') as [Hok5 _]; try done.
    { rewrite Hv3, length_app. simpl. lia. }
    { rewrite Hv3. intros x Hx. apply elem_of_app. by left. }
    { rewrite Ev4, Ev2. intros e ev (_ & H)%lookup_delete_Some. by apply lookup_delete_Some in H as [_ ?]. }
    { rewrite Ev4, Ev2. etransitivity; apply map_size_delete_le. }
    assert (same_static s s5) as St by (by eapply cnt_static).
    exists s5, e2, r'. rewrite J5, lookup_insert_eq, Ev5, Ev4, Ev2. split_and!; eauto.
    + intros x Hx. apply NoDup_cons in Hnd as [Hn4 Hnd]. apply NoDup_cons in Hnd as [Hn3 Hnd].
      rewrite !lookup_delete_ne; [done| |]; intros <-; set_solver.
    + etransitivity; apply delete_subseteq.
Qed.

Lemma dedupe_next_ext f g rl : (forall x, x ∈ rl -> f x = g x) -> dedupe_next f rl = dedupe_next g rl.
Proof.
  intros E. destruct rl as [|e4 [|e3 r]]; try done. unfold dedupe_next. rewrite !E by set_solver.
  destruct r as [|e2 [|e1 r]]; try done. by rewrite !E by set_solver.
Qed.

Lemma dedupe_next_suffix f rl rl' : dedupe_next f rl = Some rl' -> exists x, x <> [] /\ rl = x ++ rl'.
Proof.
  destruct rl as [|e4 [|e3 r]]; try done. unfold dedupe_next. destruct (f e4); [|done]. destruct (f e3); [|done]. simpl.
  case_match; [intros [= <-]; by exists [e4]|]. destruct r as [|e2 [|e1 r]]; try done. destruct (f e2); [|done]. destruct (f e1); [|done].
  simpl. case_match; [|done]. intros [= <-]. by exists [e4; e3].
Qed.

Lemma dedupe_rev_ext fuel f g rl : (forall x, x ∈ rl -> f x = g x) -> dedupe_rev fuel f rl = dedupe_rev fuel g rl.
Proof.
  revert rl. induction fuel as [|fuel IH]; intros rl E; [done|]. simpl. rewrite (dedupe_next_ext f g rl E).
  destruct (dedupe_next g rl) as [rl'|] eqn:En; [|done]. apply IH. intros x Hx. apply E.
  apply dedupe_next_suffix in En as (y & _ & ->). set_solver.
Qed.

Lemma dedupe_rev_suffix fuel f rl : exists x, rl = x ++ dedupe_rev fuel f rl.
Proof.
  revert rl. induction fuel as [|fuel IH]; intros rl; [by exists []|]. simpl.
  destruct (dedupe_next f rl) as [rl'|] eqn:En; [|by exists []]. apply dedupe_next_suffix in En as (y & _ & ->).
  destruct (IH rl') as [z Hz]. exists (y ++ z). rewrite <- app_assoc. by f_equal.
Qed.

Lemma dedupe_loop_ok fuel s v j rl : sched_ok s v -> is_Some (s_jobs s !! j) -> v (JobEvents j) = reverse rl ->
  (length rl <= fuel)%nat ->
  exists s', dedupe_loop fuel j (head rl) s = (s', Ret tt) /\
    let rl' := dedupe_rev fuel (fun e => s_events s !! e) rl in
    sched_ok s' (<[JobEvents j := reverse rl']> v) /\ is_Some (s_jobs s' !! j) /\ same_static s s' /\
    (forall x, x ∈ rl' \/ x ∉ rl -> s_events s' !! x = s_events s !! x) /\ s_events s' ⊆ s_events s.
Proof.
  revert s v rl. induction fuel as [|fuel IH]; intros s v rl Hok [job Hj] Hv Hf.
  { destruct rl; [|simpl in Hf; lia]. exists s. split; [done|]. simpl. split_and!; try done. eapply sched_ext; [|exact Hok].
    intros r. destruct (decide (JobEvents j = r)) as [<- |]; [by rewrite fn_lookup_insert|by rewrite fn_lookup_insert_ne]. }
  assert (sched_ok s (<[JobEvents j := reverse rl]> v)) as Hsame.
  { eapply sched_ext; [|exact Hok]. intros r. destruct (decide (JobEvents j = r)) as [<- |]; [by rewrite fn_lookup_insert|by rewrite fn_lookup_insert_ne]. }
  destruct rl as [|e4 rl]; [exists s; split; [done|]; simpl; split_and!; try done|]. cbn [head dedupe_loop].
  pose proof (dedupe_step_ok s v j job e4 rl Hok Hj Hv) as Hstep. cbn [dedupe_rev].
  destruct (dedupe_next _ (e4 :: rl)) as [rl2|] eqn:En.
  - destruct Hstep as (s1 & e & r & Hs & -> & Hok1 & Hj1 & St1 & Hlook & Hsub). rewrite (cmd_bind_Ret _ _ _ _ _ Hs).
    apply dedupe_next_suffix in En as (x & Hx & Erl).
    destruct (IH s1 _ (e :: r) Hok1 Hj1 (fn_lookup_insert _ _ _)) as (s2 & H2 & Hok2 & Hj2 & St2 & Hlook2 & Hsub2).
    { apply (f_equal length) in Erl. rewrite length_app in Erl. simpl in *. destruct x; [done|]. simpl in *. lia. }
    exists s2. split; [exact H2|]. cbn zeta.
    rewrite (dedupe_rev_ext fuel (fun x => s_events s !! x) (fun x => s_events s1 !! x)) by (intros y Hy; rewrite Hlook by (by left); done).
    split_and!; try congruence.
    + eapply sched_ext; [|exact Hok2]. intros y. destruct (decide (JobEvents j = y)) as [<- |];
        [by rewrite !fn_lookup_insert|by rewrite !fn_lookup_insert_ne].
    + by transitivity s1.
    + destruct (dedupe_rev_suffix fuel (fun x => s_events s1 !! x) (e :: r)) as [z Ez]. intros y [Hy|Hy].
      * rewrite Hlook2 by (by left). apply Hlook. left. rewrite Ez. set_solver.
      * rewrite Erl in Hy. rewrite Hlook2, Hlook; [done|right; by rewrite Erl|right; set_solver].
    + by transitivity (s_events s1).
  - rewrite (cmd_bind_Ret _ _ _ _ _ Hstep). exists s. split; [done|]. cbn zeta. split_and!; try done.
Qed.

(** ** Adding and removing events *)

(** An event that may be added: it is in no list and its fields are set. *)
Record addable s v (e : loc) (ev : nx_event) : Prop := {
  ad_event : s_events s !! e = Some ev;
  ad_absent : absent e v;
  ad_priority : e_priority ev <> 0;
  ad_type : e_type ev <> NX_EVENT_NONE;
  ad_module : exists m md, e_module ev = Some m /\ s_modules s !! m = Some md
}.

(** The job of the module of an event. *)
Definition job_of s (ev : nx_event) : option loc := m ← e_module ev; md ← s_modules s !! m; m_job md.

Lemma type_to_string_ok t : t <> NX_EVENT_NONE -> exists x, nx_event_type_to_string t = Ret x.
Proof. destruct t; try done; intros _; eexists; reflexivity. Qed.

Lemma linked_events s s' v : s_links s' = s_links s -> (forall r, list_of r s' = list_of r s) ->
  dom (s_events s') = dom (s_events s) -> linked s v -> linked s' v.
Proof.
  intros Hl Hr Hd []. split.
  - congruence.
  - intros r d. rewrite Hr. auto.
  - intros r H. apply lk_none0. intros d. rewrite <- Hr. apply H.
  - done.
  - intros e r He. apply elem_of_dom. rewrite Hd. apply elem_of_dom. by eapply lk_alloc0.
  - intros e k. rewrite Hl. apply lk_null0.
Qed.

(** An event behind the queue of a job, with the counter adjusted. *)
Lemma enqueue_ok s v e ev m md j : sched_ok s v -> addable s v e ev -> e_module ev = Some m -> s_modules s !! m = Some md ->
  m_job md = Some j ->
  exists s', enqueue j e ev s = (s', Ret tt) /\
    sched_ok s' (<[JobEvents j := v (JobEvents j) ++ [e]]> v) /\ is_Some (s_jobs s' !! j) /\ same_static s s' /\
    s_events s' = <[e := set_job (Some j) ev]> (s_events s).
Proof.
  intros Hok [] Hm Hmd Hj. pose proof Hok as []. pose proof (proj1 so_modules0 m md Hmd) as Hjob. rewrite Hj in Hjob.
  destruct Hjob as [job Hjob]. set (s1 := with_events (<[e := set_job (Some j) ev]> (s_events s)) s).
  assert (linked s1 v) as L1.
  { eapply linked_events; [| | |exact so_linked0]; try done. subst s1. simpl. apply dom_insert_lookup_L. eauto. }
  unfold enqueue. rewrite (cmd_bind_Ret _ _ s s1 tt) by done.
  destruct (on_list_insert s1 v (JobEvents j) (Dlist.DL (j_first job) (j_last job) (s_links s)) e L1) as (s2 & H2 & L2 & R2 & Ev2).
  { subst s1. simpl. by rewrite Hjob. }
  { done. }
  { subst s1. simpl. rewrite lookup_insert_eq. eauto. }
  rewrite (cmd_bind_Ret _ _ _ _ _ H2). destruct (same_rest_job s1 s2 j job R2 Hjob) as [job2 Hj2].
  destruct (add_cnt_ok s2 _ j job2 1 Hj2 L2) as (s3 & H3 & L3 & Ev3 & G3 & M3 & T3 & J3). exists s3. split; [exact H3|].
  assert (same_static s s3) as Hst by (by apply (cnt_static s1 s2 s3 j job2 (u32 (j_cnt job2 + 1)))). pose proof Hst as (_ & HM & HT & _).
  assert (s_events s3 = <[e := set_job (Some j) ev]> (s_events s)) as HE by (by rewrite Ev3, Ev2).
  split_and!; [|rewrite J3, lookup_insert_eq; eauto|done..|done]. split.
  - done.
  - intros j' job'. rewrite J3. pose proof (sr_jobs _ _ R2) as Hr. destruct (decide (j = j')) as [<- |Hne].
    + rewrite lookup_insert_eq. intros [= <-]. simpl. rewrite fn_lookup_insert, length_app. simpl.
      specialize (Hr j). subst s1. simpl in Hr. rewrite Hjob, Hj2 in Hr. destruct Hr as [_ ->]. rewrite (so_counted0 j job Hjob).
      unfold u32. rewrite Z.mod_small; [lia|]. pose proof (list_size s3 _ (JobEvents j) L3) as Hl. rewrite fn_lookup_insert, length_app, HE in Hl.
      rewrite map_size_insert_Some in Hl by eauto. simpl in Hl. lia.
    + rewrite lookup_insert_ne by done. intros Hj'. rewrite fn_lookup_insert_ne by congruence. specialize (Hr j'). subst s1. simpl in Hr.
      rewrite Hj' in Hr. destruct (s_jobs s !! j') as [job0|] eqn:E0; [|done]. destruct Hr as [_ ->]. by apply so_counted0.
  - split; [|rewrite HM; apply so_modules0]. intros m' md'. rewrite HM, HT, J3. intros Hm'. pose proof (proj1 so_modules0 m' md' Hm') as Hmj.
    destruct (m_job md') as [j'|]; [|done]. destruct (decide (j = j')) as [<- |]; [rewrite lookup_insert_eq; eauto|]. rewrite lookup_insert_ne by done.
    destruct Hmj as [job' Hmj]. by apply (same_rest_job s1 s2 j' job' R2).
  - intros r e' ev'. rewrite HE. destruct (decide (e = e')) as [<- |Hne].
    + rewrite lookup_insert_eq. intros Hin [= <-]. assert (r = JobEvents j) as ->.
      { destruct (decide (JobEvents j = r)); [done|]. rewrite fn_lookup_insert_ne in Hin by done. by apply ad_absent0 in Hin. }
      unfold event_in. rewrite HM. simpl. eauto 10.
    + rewrite lookup_insert_ne by done. intros Hin He'. assert (e' ∈ v r) as Hin'.
      { destruct (decide (JobEvents j = r)) as [<- |]; [rewrite fn_lookup_insert in Hin; set_solver|by rewrite fn_lookup_insert_ne in Hin]. }
      destruct (so_events0 r e' ev' Hin' He') as (Hp & Ht & m' & md' & H1 & H2' & H3'). unfold event_in. rewrite HM. eauto 10.
  - rewrite HE, map_size_insert_Some by eauto. done.
Qed.

Lemma dedupe_rev_fuel fuel f rl : (length rl <= fuel)%nat -> dedupe_rev fuel f rl = dedupe_rev (length rl) f rl.
Proof.
  revert rl. induction fuel as [fuel IH] using (well_founded_induction Nat.lt_wf_0). intros rl Hl.
  destruct fuel as [|fuel]; [by replace (length rl) with 0%nat by lia|]. destruct rl as [|x rl]; [done|]. cbn [length dedupe_rev].
  destruct (dedupe_next f (x :: rl)) as [rl'|] eqn:E; [|done]. apply dedupe_next_suffix in E as (y & Hy & E).
  apply (f_equal length) in E. rewrite length_app in E. destruct y; [done|]. simpl in *.
  rewrite (IH fuel), (IH (length rl)); [done|lia|lia|lia|lia].
Qed.

(** A queue [l] after [e] was added and duplicates were removed. *)
Definition queue_add (f : loc -> option nx_event) (l : list loc) (e : loc) : list loc :=
  reverse (dedupe_rev (S (length l)) f (e :: reverse l)).

Lemma queue_add_prefix f l e : exists x, l ++ [e] = queue_add f l e ++ x.
Proof.
  unfold queue_add. destruct (dedupe_rev_suffix (S (length l)) f (e :: reverse l)) as [x Hx]. exists (reverse x).
  rewrite <- reverse_app, <- Hx, reverse_cons, reverse_involutive. done.
Qed.

Lemma signal_worker_ok s v : sched_ok s v ->
  exists s', signal_worker s = (s', Ret tt) /\ sched_ok s' v /\ same_static s s' /\ s_events s' = s_events s /\ s_jobs s' = s_jobs s.
Proof. intros [[] ? ? ? ?]. eexists. split; [reflexivity|]. split_and!; try done. Qed.

(** Adding an event to the queue of its module: the assertions hold, nothing but
    the queue changes, and the invariant is kept. *)
Lemma to_jobqueue_ok s v e ev : sched_ok s v -> addable s v e ev ->
  match job_of s ev with
  | None => s_terminating s = true /\ nx_event_to_jobqueue e s = (s, Ret tt)
  | Some j => exists s', nx_event_to_jobqueue e s = (s', Ret tt) /\
      let l := queue_add (<[e := Some (set_job (Some j) ev)]> (fun x => s_events s !! x)) (v (JobEvents j)) e in
      sched_ok s' (<[JobEvents j := l]> v) /\ same_static s s' /\
      (forall x, x ∉ v (JobEvents j) ++ [e] \/ x ∈ l -> s_events s' !! x = (<[e := set_job (Some j) ev]> (s_events s)) !! x) /\
      (size (s_events s') <= size (s_events s))%nat
  end.
Proof.
  intros Hok Had. pose proof Had as []. destruct ad_module0 as (m & md & Hm & Hmd). unfold job_of, nx_event_to_jobqueue.
  rewrite Hm. cbn [mbind option_bind]. rewrite Hmd. cbn [mbind option_bind].
  rewrite !(cmd_bind_Ret _ _ _ _ _ (get_event_ok _ _ _ ad_event0)). rewrite (proj2 (Z.eqb_neq (e_priority ev) 0)) by done.
  rewrite (cmd_bind_Ret _ _ s s tt) by done. rewrite (cmd_bind_Ret _ _ _ _ _ (unlinked_ok s v e (so_linked _ _ Hok) ad_absent0 ltac:(eauto))).
  destruct (type_to_string_ok (e_type ev) ad_type0) as [str Hstr]. rewrite (cmd_bind_Ret _ _ s s str) by (unfold lift; by rewrite Hstr).
  rewrite Hm. rewrite (cmd_bind_Ret _ _ s s md) by (unfold get_module; by rewrite Hmd). destruct (m_job md) as [j|] eqn:Hj.
  2:{ pose proof (proj1 (so_modules _ _ Hok) m md Hmd) as Hterm. rewrite Hj in Hterm. split; [done|].
      rewrite (cmd_bind_Ret _ _ s s s) by done. by rewrite Hterm. }
  destruct (enqueue_ok s v e ev m md j Hok Had Hm Hmd Hj) as (s1 & H1 & Hok1 & Hj1 & St1 & Ev1).
  rewrite (cmd_bind_Ret _ _ _ _ _ H1), (cmd_bind_Ret _ _ s1 s1 s1) by done.
  set (l1 := v (JobEvents j) ++ [e]) in *. set (v1 := <[JobEvents j := l1]> v) in *.
  assert (v1 (JobEvents j) = reverse (e :: reverse (v (JobEvents j)))) as Hv1.
  { subst v1. rewrite fn_lookup_insert, reverse_cons, reverse_involutive. done. }
  destruct Hj1 as [job1 Hj1].
  assert (list_of (JobEvents j) s1 = Ret (Dlist.DL (j_first job1) (j_last job1) (s_links s1))) as Hlist by (simpl; by rewrite Hj1).
  destruct (first_last_ok s1 v1 (JobEvents j) _ (so_linked _ _ Hok1) Hlist) as [_ Hlast].
  assert (Dlist.lst_or (v1 (JobEvents j)) None = Some e) as Hle by (subst v1 l1; rewrite fn_lookup_insert; apply lst_or_snoc). rewrite Hle in Hlast.
  unfold _event_dedupe. pose proof (list_size s1 v1 (JobEvents j) (so_linked _ _ Hok1)) as Hsz. rewrite Hv1, length_reverse in Hsz.
  destruct (dedupe_loop_ok (list_fuel s1) s1 v1 j (e :: reverse (v (JobEvents j))) Hok1 ltac:(eauto) Hv1 Hsz) as (s2 & H2 & Hok2 & Hj2 & St2 & Hlook & Hsub).
  cbn [head] in H2.
  assert ((curr ← NX_DLIST_LAST (JobEvents j); dedupe_loop (list_fuel s1) j curr) s1 = (s2, Ret tt)) as H12.
  { by rewrite (cmd_bind_Ret _ _ _ _ _ Hlast). }
  rewrite (cmd_bind_Ret _ _ _ _ _ H12). cbn zeta in Hok2, Hlook. unfold list_fuel in Hok2, Hlook.
  rewrite (dedupe_rev_fuel _ _ _ Hsz) in Hok2, Hlook. simpl length in Hok2, Hlook. rewrite length_reverse in Hok2, Hlook.
  set (f := <[e := Some (set_job (Some j) ev)]> (fun x => s_events s !! x)).
  assert (forall x, s_events s1 !! x = f x) as Hf.
  { intros x. rewrite Ev1. subst f. destruct (decide (e = x)) as [<- |];
      [by rewrite lookup_insert_eq, fn_lookup_insert|by rewrite lookup_insert_ne, fn_lookup_insert_ne]. }
  rewrite (dedupe_rev_ext _ _ f) in Hok2, Hlook by (intros; apply Hf). set (l := queue_add f (v (JobEvents j)) e).
  assert (sched_ok s2 (<[JobEvents j := l]> v)) as Hok2'.
  { eapply sched_ext; [|exact Hok2]. intros r. subst v1. destruct (decide (JobEvents j = r)) as [<- |];
      [by rewrite !fn_lookup_insert|by rewrite !fn_lookup_insert_ne]. }
  assert (forall x, x ∉ v (JobEvents j) ++ [e] \/ x ∈ l -> s_events s2 !! x = (<[e := set_job (Some j) ev]> (s_events s)) !! x) as Hsame.
  { intros x Hx. rewrite Hlook; [by rewrite Ev1|]. destruct Hx as [Hx|Hx].
    - right. rewrite elem_of_cons, elem_of_reverse. rewrite elem_of_app, list_elem_of_singleton in Hx. tauto.
    - left. subst l. unfold queue_add in Hx. by rewrite elem_of_reverse in Hx. }
  assert (size (s_events s2) <= size (s_events s))%nat as Hsize.
  { assert (size (s_events s1) = size (s_events s)) as <- by (rewrite Ev1; apply map_size_insert_Some; eauto). rewrite <- !size_dom. by apply subseteq_size, subseteq_dom. }
  destruct Hj2 as [job2 Hj2].
  assert (list_of (JobEvents j) s2 = Ret (Dlist.DL (j_first job2) (j_last job2) (s_links s2))) as Hlist2 by (simpl; by rewrite Hj2).
  destruct (first_last_ok s2 _ (JobEvents j) _ (so_linked _ _ Hok2') Hlist2) as [_ Hlast2].
  rewrite (cmd_bind_Ret _ _ _ _ _ Hlast2).
  assert (same_static s s2) as St by (by transitivity s1).
  destruct (bool_decide _).
  - destruct (signal_worker_ok s2 _ Hok2') as (s3 & H3 & Hok3 & St3 & Ev3 & _). exists s3. split; [exact H3|]. cbn zeta. split_and!.
    + done.
    + by transitivity s2.
    + intros x Hx. rewrite Ev3. by apply Hsame.
    + by rewrite Ev3.
  - exists s2. split; [done|]. cbn zeta. by split_and!.
Qed.

Lemma event_new_ok s v : sched_ok s v -> Z.of_nat (size (s_events s)) + 1 < 2 ^ 32 ->
  exists s' e, nx_event_new s = (s', Ret e) /\ sched_ok s' v /\ same_static s s' /\ s_jobs s' = s_jobs s /\
    s_events s !! e = None /\ absent e v /\ s_events s' = <[e := Ev None NX_EVENT_NONE false 0 None 0 None]> (s_events s).
Proof.
  intros Hok Hsz. pose proof Hok as [[] ? ? ? ?]. unfold nx_event_new. set (e := fresh _). do 2 eexists. split; [reflexivity|].
  assert (e ∉ dom (s_links s) ∪ dom (s_events s)) as Hfresh by apply is_fresh.
  assert (s_events s !! e = None) as Hne by (apply not_elem_of_dom; set_solver).
  assert (absent e v) as Habs by (intros r Hr; apply lk_alloc0 in Hr; rewrite Hne in Hr; by destruct Hr).
  set (s' := with_links _ _).
  assert (forall r, list_of r s' = (d ← list_of r s; Ret (Dlist.DL (Dlist.first d) (Dlist.last d) (<[e := Dlist.null_link]> (s_links s))))) as Hlist.
  { intros [|j]; simpl; [done|]. by destruct (s_jobs s !! j). }
  split_and!; try done. split; [split|done|done| |].
  - simpl. rewrite !dom_insert_L. by rewrite lk_dom0.
  - intros r d Hd. rewrite Hlist in Hd. apply bind_Ret in Hd as (d0 & H0 & [= <-]).
    destruct (lk_rep0 r d0 H0) as (Hn & Hf & Hl & Hs). split_and!; [done|done|done|]. simpl.
    rewrite (list_of_links _ _ _ H0) in Hs. by apply Dlist.seg_insert.
  - intros r Hno. apply lk_none0. intros d Hd. rewrite Hlist, Hd in Hno. by eapply Hno.
  - done.
  - intros y r Hy. simpl. destruct (decide (e = y)) as [<- |]; [rewrite lookup_insert_eq; eauto|]. rewrite lookup_insert_ne by done. by eapply lk_alloc0.
  - intros y k. simpl. destruct (decide (e = y)) as [<- |]; [by rewrite lookup_insert_eq; intros [= <-]|]. rewrite lookup_insert_ne by done. apply lk_null0.
  - intros r y ev Hy. simpl. rewrite lookup_insert_ne; [by apply so_events0|]. intros <-. by apply (Habs r).
  - simpl. rewrite map_size_insert_None by done. lia.
Qed.

(** Setting the fields of an event that is in no list. *)
Lemma put_event_ok s v e ev : sched_ok s v -> absent e v -> is_Some (s_events s !! e) ->
  exists s', put_event e ev s = (s', Ret tt) /\ sched_ok s' v /\ same_static s s' /\ s_jobs s' = s_jobs s /\ s_events s' = <[e := ev]> (s_events s).
Proof.
  intros Hok Habs Ha. pose proof Hok as []. eexists. split; [reflexivity|]. split_and!; try done. split; try done.
  - eapply linked_events; [| | |exact so_linked0]; try done. simpl. by apply dom_insert_lookup_L.
  - intros r y w Hy. simpl. rewrite lookup_insert_ne; [by apply so_events0|]. intros <-. by apply (Habs r).
  - simpl. by rewrite map_size_insert_Some.
Qed.

(** A delayed event behind [ctx->events]. *)
Lemma ctx_insert_ok s v e ev : sched_ok s v -> addable s v e ev -> e_delayed ev = true -> e_job ev = None ->
  exists s', on_list CtxEvents (Dlist.NX_DLIST_INSERT_TAIL e) s = (s', Ret tt) /\
    sched_ok s' (<[CtxEvents := v CtxEvents ++ [e]]> v) /\ same_rest s s' /\ s_events s' = s_events s.
Proof.
  intros Hok [] Hdel Hjob. pose proof Hok as [].
  destruct (on_list_insert s v CtxEvents _ e so_linked0 eq_refl ad_absent0 ltac:(eauto)) as (s' & H & L & R & Ev).
  exists s'. split_and!; try done. pose proof R as []. split.
  - done.
  - intros j job' Hj'. rewrite fn_lookup_insert_ne by done. specialize (sr_jobs0 j). rewrite Hj' in sr_jobs0.
    destruct (s_jobs s !! j) as [job|] eqn:E; [|done]. destruct sr_jobs0 as [_ ->]. by apply so_counted0.
  - by eapply same_rest_modules.
  - intros r y w. rewrite Ev. destruct (decide (CtxEvents = r)) as [<- |];
      [rewrite fn_lookup_insert|rewrite fn_lookup_insert_ne by done; intros; by eapply same_rest_event, so_events0].
    rewrite elem_of_app, list_elem_of_singleton. intros [Hy|Hy] Hw; [by eapply same_rest_event, so_events0|]. subst y.
    rewrite ad_event0 in Hw. injection Hw as <-. destruct ad_module0 as (m & md & Hm & Hmd). unfold event_in. rewrite sr_modules0. eauto 10.
  - by rewrite Ev.
Qed.

(** [NX_DLIST_REMOVE] on [ctx->events]. *)
Lemma ctx_remove_ok s v l1 e l2 : sched_ok s v -> v CtxEvents = l1 ++ e :: l2 ->
  exists s', on_list CtxEvents (Dlist.NX_DLIST_REMOVE e) s = (s', Ret tt) /\
    sched_ok s' (<[CtxEvents := l1 ++ l2]> v) /\ same_rest s s' /\ s_events s' = s_events s /\ absent e (<[CtxEvents := l1 ++ l2]> v).
Proof.
  intros Hok Hv. pose proof Hok as []. destruct (on_list_remove s v CtxEvents l1 e l2 so_linked0 Hv) as (s' & H & L & R & Ev & A).
  exists s'. split_and!; try done. pose proof R as []. split.
  - done.
  - intros j job' Hj'. rewrite fn_lookup_insert_ne by done. specialize (sr_jobs0 j). rewrite Hj' in sr_jobs0.
    destruct (s_jobs s !! j) as [job|] eqn:E; [|done]. destruct sr_jobs0 as [_ ->]. by apply so_counted0.
  - by eapply same_rest_modules.
  - intros r y w Hy. rewrite Ev. intros Hw. eapply same_rest_event; [done|]. eapply so_events0; [|done].
    destruct (decide (CtxEvents = r)) as [<- |]; [rewrite fn_lookup_insert in Hy; rewrite Hv; set_solver|by rewrite fn_lookup_insert_ne in Hy].
  - by rewrite Ev.
Qed.

(** [NX_DLIST_REMOVE] on a queue, with the counter adjusted. *)
Lemma job_remove_ok s v j l1 e l2 : sched_ok s v -> v (JobEvents j) = l1 ++ e :: l2 ->
  exists s', (_ ← on_list (JobEvents j) (Dlist.NX_DLIST_REMOVE e); nx_atomic_add_cnt j (-1)) s = (s', Ret tt) /\
    sched_ok s' (<[JobEvents j := l1 ++ l2]> v) /\ same_static s s' /\ s_events s' = s_events s /\
    absent e (<[JobEvents j := l1 ++ l2]> v).
Proof.
  intros Hok Hv. pose proof (so_linked _ _ Hok) as L. destruct (on_list_remove s v (JobEvents j) l1 e l2 L Hv) as (s1 & H1 & L1 & R1 & Ev1 & A1).
  destruct (s_jobs s !! j) as [job|] eqn:Hj.
  2:{ rewrite (lk_none _ _ L) in Hv; [by destruct l1|]. intros d. simpl. by rewrite Hj. }
  rewrite (cmd_bind_Ret _ _ _ _ _ H1). destruct (same_rest_job s s1 j job R1 Hj) as [job1 Hj1].
  destruct (add_cnt_ok s1 _ j job1 (-1) Hj1 L1) as (s2 & H2 & _ & Ev2 & G2 & M2 & T2 & J2). exists s2. split; [exact H2|].
  destruct (sched_shrink s s1 s2 v j job (l1 ++ l2) 1 Hok R1 Hj L1) as [Hok2 Ev2']; try done.
  - rewrite Hv, !length_app. simpl. lia.
  - rewrite Hv. set_solver.
  - by rewrite Ev1.
  - by rewrite Ev1.
  - split_and!; try done; [by eapply cnt_static|by rewrite Ev2, Ev1].
Qed.

(** ** What removing duplicates keeps *)

Definition type_of (f : loc -> option nx_event) (e : loc) : option nx_event_type := e_type <$> f e.

(** The last event keeps its type, and no type disappears. *)
Definition types_kept (f : loc -> option nx_event) (rl rl' : list loc) : Prop :=
  (head rl' ≫= type_of f) = (head rl ≫= type_of f) /\
  forall x, x ∈ rl -> exists y, y ∈ rl' /\ type_of f y = type_of f x.

#[export] Instance types_kept_preorder f : PreOrder (types_kept f).
Proof.
  split; [split; eauto|]. intros a b c [H1 H2] [H3 H4]. split; [congruence|]. intros x Hx.
  destruct (H2 x Hx) as (y & Hy & Ey). destruct (H4 y Hy) as (z & Hz & Ez). exists z. split; congruence.
Qed.

Lemma dedupe_next_types f rl rl' : dedupe_next f rl = Some rl' -> types_kept f rl rl'.
Proof.
  destruct rl as [|e4 [|e3 r]]; try done. unfold dedupe_next, types_kept, type_of.
  destruct (f e4) as [v4|] eqn:E4; [|done]. destruct (f e3) as [v3|] eqn:E3; [|done]. simpl. case_match eqn:Esame.
  - intros [= <-]. unfold same_event in Esame. tests. simpl. rewrite E4, E3. simpl. split; [congruence|].
    intros x. rewrite elem_of_cons. intros [->|Hx]; [|by eauto]. exists e3. rewrite E4, E3. simpl. split; [by left|congruence].
  - destruct r as [|e2 [|e1 r]]; try done. destruct (f e2) as [v2|] eqn:E2; [|done]. destruct (f e1) as [v1|] eqn:E1; [|done].
    simpl. case_match eqn:Ep; [|done]. intros [= <-]. tests. simpl. rewrite E2, E4. simpl. split; [congruence|].
    intros x. rewrite !elem_of_cons. intros [->|[->|Hx]].
    + exists e2. rewrite E4, E2. simpl. split; [by left|congruence].
    + exists e1. rewrite E3, E1. simpl. split; [by right; left|congruence].
    + exists x. by rewrite !elem_of_cons.
Qed.

Lemma dedupe_rev_types fuel f rl : types_kept f rl (dedupe_rev fuel f rl).
Proof.
  revert rl. induction fuel as [|fuel IH]; intros rl; [done|]. simpl. destruct (dedupe_next f rl) as [rl'|] eqn:E; [|done].
  transitivity rl'; [by apply dedupe_next_types|apply IH].
Qed.

Lemma head_reverse {A} (l : list A) : head (reverse l) = last l.
Proof. induction l as [|x l IH] using rev_ind; [done|]. by rewrite reverse_app, last_snoc. Qed.

Lemma queue_add_types f l e : (last (queue_add f l e) ≫= type_of f) = type_of f e /\
  forall x, x ∈ l -> exists y, y ∈ queue_add f l e /\ type_of f y = type_of f x.
Proof.
  unfold queue_add. destruct (dedupe_rev_types (S (length l)) f (e :: reverse l)) as [H1 H2].
  rewrite <- head_reverse, reverse_involutive, H1. split; [done|]. intros x Hx. destruct (H2 x) as (y & Hy & Ey); [set_solver|].
  exists y. by rewrite elem_of_reverse.
Qed.

(** Nothing is left to remove. *)
Lemma dedupe_rev_stuck fuel f rl : (length rl <= fuel)%nat -> dedupe_next f (dedupe_rev fuel f rl) = None.
Proof.
  revert rl. induction fuel as [|fuel IH]; intros rl Hl; [by destruct rl; simpl in Hl; [|lia]|]. simpl.
  destruct (dedupe_next f rl) as [rl'|] eqn:E; [|done]. apply IH. apply dedupe_next_suffix in E as (x & Hx & ->).
  rewrite length_app in Hl. destruct x; [done|]. simpl in Hl. lia.
Qed.

(** ** [nx_event_add] and [nx_event_remove] *)

(** What happens to the events that are in no list, the ones of [new] excepted. *)
Definition framed (new : list loc) s v s' (v' : view) : Prop :=
  forall x, absent x v -> x ∉ new -> s_events s' !! x = s_events s !! x /\ absent x v'.

Lemma framed_trans new1 new2 s1 s2 s3 (v1 v2 v3 : view) : framed new1 s1 v1 s2 v2 -> framed new2 s2 v2 s3 v3 ->
  (forall x, x ∈ new2 -> ~ absent x v1 \/ x ∈ new1) -> framed new1 s1 v1 s3 v3.
Proof.
  intros H1 H2 Hn x Hx Hx1. destruct (H1 x Hx Hx1) as [E1 A1]. destruct (H2 x A1) as [E2 A2]; [intros Hx2; by destruct (Hn x Hx2)|].
  split; [congruence|done].
Qed.

Lemma absent_insert x v r l : absent x v -> x ∉ l -> absent x (<[r := l]> v).
Proof. intros H Hl r'. destruct (decide (r = r')) as [<- |]; [by rewrite fn_lookup_insert|by rewrite fn_lookup_insert_ne]. Qed.

Lemma to_jobqueue_frame s v s' j l e ev' : (forall x, x ∉ v (JobEvents j) ++ [e] \/ x ∈ l -> s_events s' !! x = (<[e := ev']> (s_events s)) !! x) ->
  l `prefix_of` v (JobEvents j) ++ [e] -> framed [e] s v s' (<[JobEvents j := l]> v).
Proof.
  intros Hev [k Hk] x Hx Hne. assert (x ∉ v (JobEvents j) ++ [e]) as Hno by (rewrite elem_of_app; intros [H|H]; [by apply (Hx (JobEvents j))|done]).
  split; [rewrite Hev by (by left); apply lookup_insert_ne; set_solver|]. apply absent_insert; [done|]. rewrite Hk in Hno. set_solver.
Qed.

(** The same with the types of the events instead of the computed queue. *)
Lemma to_jobqueue_types s v e ev j : sched_ok s v -> addable s v e ev -> job_of s ev = Some j ->
  exists s' l, nx_event_to_jobqueue e s = (s', Ret tt) /\ sched_ok s' (<[JobEvents j := l]> v) /\ same_static s s' /\
    framed [e] s v s' (<[JobEvents j := l]> v) /\
    (forall x, x ∉ v (JobEvents j) ++ [e] -> s_events s' !! x = s_events s !! x) /\
    l `prefix_of` v (JobEvents j) ++ [e] /\
    (exists x vx, last l = Some x /\ s_events s' !! x = Some vx /\ e_type vx = e_type ev) /\
    (forall y vy, y ∈ v (JobEvents j) -> s_events s !! y = Some vy ->
      exists x vx, x ∈ l /\ s_events s' !! x = Some vx /\ e_type vx = e_type vy).
Proof.
  intros Hok Had Hj. pose proof (to_jobqueue_ok s v e ev Hok Had) as H. rewrite Hj in H. destruct H as (s' & H & Hok' & St & Hev & _).
  set (f := <[e := Some (set_job (Some j) ev)]> (fun x => s_events s !! x)) in *.
  assert (forall x, (<[e := set_job (Some j) ev]> (s_events s)) !! x = f x) as Hf.
  { intros x. subst f. destruct (decide (e = x)) as [<- |]; [by rewrite lookup_insert_eq, fn_lookup_insert|by rewrite lookup_insert_ne, fn_lookup_insert_ne]. }
  set (l := queue_add f (v (JobEvents j)) e) in *. destruct (queue_add_types f (v (JobEvents j)) e) as [Hlast Htypes].
  assert (forall x t, x ∈ l -> type_of f x = Some t -> exists vx, s_events s' !! x = Some vx /\ e_type vx = t) as Hx.
  { intros x t Hin Ht. unfold type_of in Ht. rewrite <- Hf, <- Hev in Ht by (by right). apply fmap_Some in Ht as (vx & ? & ->). eauto. }
  exists s', l. split_and!; [done|done|done|eapply to_jobqueue_frame; [exact Hev|]; by apply queue_add_prefix| | | |].
  - intros x Hno. rewrite Hev, lookup_insert_ne; [done| |by left]. intros <-. apply Hno, elem_of_app. right. by left.
  - destruct (queue_add_prefix f (v (JobEvents j)) e) as [k Hk]. by exists k.
  - assert (type_of f e = Some (e_type ev)) as He by (unfold type_of; subst f; by rewrite fn_lookup_insert).
    rewrite He in Hlast. fold l in Hlast. destruct (last l) as [x|] eqn:El; [|done]. exists x.
    destruct (Hx x (e_type ev)) as (vx & ? & ?); [by apply last_Some_elem_of|done|eauto].
  - intros y vy Hy Hvy. destruct (Htypes y Hy) as (x & Hin & Ht). destruct (Hx x (e_type vy)) as (vx & ? & ?); [done| |eauto].
    rewrite Ht. unfold type_of. rewrite <- Hf, lookup_insert_ne; [by rewrite Hvy|]. intros <-. by apply (ad_absent _ _ _ _ Had (JobEvents j)).
Qed.

Lemma event_add_ok threads s v e ev : sched_ok s v -> addable s v e ev -> (e_delayed ev = true -> e_job ev = None) ->
  exists s' v', nx_event_add threads e s = (s', Ret tt) /\ sched_ok s' v' /\ same_static s s' /\
    (if e_delayed ev then v' = <[CtxEvents := v CtxEvents ++ [e]]> v
     else match job_of s ev with
       | None => v' = v
       | Some j => v' = <[JobEvents j := queue_add (<[e := Some (set_job (Some j) ev)]> (fun x => s_events s !! x)) (v (JobEvents j)) e]> v
       end) /\
    framed [e] s v s' v' /\ (size (s_events s') <= size (s_events s))%nat.
Proof.
  intros Hok Had Hdel. pose proof Had as []. unfold nx_event_add. rewrite (cmd_bind_Ret _ _ _ _ _ (get_event_ok _ _ _ ad_event0)).
  rewrite (bool_decide_eq_false_2 (e_type ev = _)) by done. rewrite (cmd_bind_Ret _ _ s s tt) by done.
  destruct ad_module0 as (m & md & Hm & Hmd). rewrite (bool_decide_eq_true_2 (is_Some (e_module ev))) by (rewrite Hm; eauto).
  rewrite (cmd_bind_Ret _ _ s s tt) by done.
  rewrite (cmd_bind_Ret _ _ _ _ _ (unlinked_ok s v e (so_linked _ _ Hok) ad_absent0 ltac:(eauto))).
  destruct (e_delayed ev) eqn:Ed; cbn [negb].
  - destruct (ctx_insert_ok s v e ev Hok Had Ed (Hdel eq_refl)) as (s1 & H1 & Hok1 & R1 & Ev1). rewrite (cmd_bind_Ret _ _ _ _ _ H1).
    assert (framed [e] s v s1 (<[CtxEvents := v CtxEvents ++ [e]]> v)) as Hfr.
    { intros x Hx Hne. rewrite Ev1. split; [done|]. apply absent_insert; [done|]. specialize (Hx CtxEvents). set_solver. }
    apply same_rest_static in R1. assert (size (s_events s1) <= size (s_events s))%nat by (by rewrite Ev1).
    destruct threads; do 2 eexists; (split; [reflexivity|]); split_and!; try done.
    destruct Hok1 as [[] ? ? ? ?]. by split.
  - pose proof (to_jobqueue_ok s v e ev Hok Had) as H. destruct (job_of s ev) as [j|].
    + destruct H as (s' & H & Hok' & St & Hev & Hsz). do 2 eexists. split_and!; [exact H|exact Hok'|done|done| |done].
      eapply to_jobqueue_frame; [exact Hev|]. by apply queue_add_prefix.
    + destruct H as [_ H]. exists s, v. by split_and!.
Qed.

Lemma event_remove_ok s v r l1 e l2 : sched_ok s v -> v r = l1 ++ e :: l2 ->
  exists s', nx_event_remove e s = (s', Ret tt) /\ sched_ok s' (<[r := l1 ++ l2]> v) /\ same_static s s' /\ s_events s' = s_events s.
Proof.
  intros Hok Hv. assert (e ∈ v r) as Hin by (rewrite Hv; set_solver). destruct (lk_alloc _ _ (so_linked _ _ Hok) e r Hin) as [ev He].
  destruct (so_events _ _ Hok r e ev Hin He) as (_ & _ & m & md & _ & _ & Hr). unfold nx_event_remove.
  rewrite (cmd_bind_Ret _ _ _ _ _ (get_event_ok _ _ _ He)). destruct r as [|j]; destruct Hr as [Hr1 Hr2].
  - rewrite Hr2. destruct (ctx_remove_ok s v l1 e l2 Hok Hv) as (s' & H & Hok' & R & Ev & _). apply same_rest_static in R. eauto 10.
  - rewrite Hr1. destruct (job_remove_ok s v j l1 e l2 Hok Hv) as (s' & H & Hok' & St & Ev & _). eauto 10.
Qed.

End views.

(** ** Properties *)

Section properties.
Context {X : Type}.
Implicit Types (s : sys X) (v : lref -> list loc).

(** [nx_event_to_jobqueue] puts an event behind the queue of its module's job
    and removes duplicates from the end of the queue without a failed assertion.
    The new queue is a prefix of the old queue with the event behind it; its last
    event has the type of the added event; every type that was in the queue still
    is; and the lists, counters and pointers are consistent again. *)
Theorem jobqueue_add s v e ev j : sched_ok s v -> addable s v e ev -> job_of s ev = Some j ->
  exists s' l, nx_event_to_jobqueue e s = (s', Ret tt) /\ sched_ok s' (<[JobEvents j := l]> v) /\
    l `prefix_of` v (JobEvents j) ++ [e] /\
    (exists x vx, last l = Some x /\ s_events s' !! x = Some vx /\ e_type vx = e_type ev) /\
    (forall y vy, y ∈ v (JobEvents j) -> s_events s !! y = Some vy ->
      exists x vx, x ∈ l /\ s_events s' !! x = Some vx /\ e_type vx = e_type vy).
Proof.
  intros Hok Had Hj. destruct (to_jobqueue_types s v e ev j Hok Had Hj) as (s' & l & H & Hok' & _ & _ & _ & Hl). by exists s', l.
Qed.

(** [_event_dedupe] ends: as many iterations as the queue has events are
    enough, whatever the events are, and afterwards no further iteration would
    remove anything. *)
Theorem event_dedupe_ends s v j fuel : sched_ok s v -> is_Some (s_jobs s !! j) -> (length (v (JobEvents j)) <= fuel)%nat ->
  exists s' l, _event_dedupe fuel j s = (s', Ret tt) /\ sched_ok s' (<[JobEvents j := l]> v) /\
    dedupe_next (fun e => s_events s' !! e) (reverse l) = None.
Proof.
  intros Hok [job Hj] Hf. unfold _event_dedupe.
  assert (list_of (JobEvents j) s = Ret (Dlist.DL (j_first job) (j_last job) (s_links s))) as Hlist by (simpl; by rewrite Hj).
  destruct (first_last_ok s v (JobEvents j) _ (so_linked _ _ Hok) Hlist) as [_ Hlast]. rewrite (cmd_bind_Ret _ _ _ _ _ Hlast).
  set (rl := reverse (v (JobEvents j))). assert (v (JobEvents j) = reverse rl) as Hv by (subst rl; by rewrite reverse_involutive).
  assert (Dlist.lst_or (v (JobEvents j)) None = head rl) as ->.
  { subst rl. rewrite head_reverse. destruct (v (JobEvents j)) as [|x l] using rev_ind; [done|]. by rewrite last_snoc, lst_or_snoc. }
  assert (length rl <= fuel)%nat as Hl by (subst rl; by rewrite length_reverse).
  destruct (dedupe_loop_ok fuel s v j rl Hok ltac:(eauto) Hv Hl) as (s' & H & Hok' & _ & _ & Hev & _).
  exists s'. eexists. split; [exact H|]. split; [exact Hok'|]. rewrite reverse_involutive.
  rewrite (dedupe_next_ext _ (fun e => s_events s !! e)); [by apply dedupe_rev_stuck|]. intros x Hx. apply Hev. by left.
Qed.

End properties.

End Event.
