(* ===== verification/Scheduler.v ===== *)
(** * The scheduler (core/ctx.c, core/nxlog.c, the event functions of common/module.c)

    The jobs of the modules are in job groups, in order of priority.  A worker
    thread takes the first event of a job that no other worker has
    ([nx_ctx_next_job]), processes it and frees it.  The event thread moves delayed
    events whose time has come to the queues of their jobs.  The code of a module
    adds and removes events while a worker processes an event.

    The steps of the threads are the critical sections of the code: what it does
    with the global mutex held, and the end of a worker's turn, where the event is
    freed and the job released.  [Run] has the reachable configurations. *)

From stdpp Require Import functions sorting.
From S2P Require Import Prelude Dlist Event.

Import Event.

Module Scheduler.

(** ** Job groups (core/ctx.c) *)

Section groups.
Context {X : Type}.
Abbreviation sys := (sys X).
Abbreviation prog A := (cmd sys A).

(** The group with the given priority and its position; a new group goes before
    the first one that is not of lower number. *)
Fixpoint find_group (p : Z) (gs : list nx_jobgroup) : option nat :=
  match gs with
  | [] => None
  | g :: gs => if g_priority g =? p then Some O else S <$> find_group p gs
  end.

Fixpoint group_place (p : Z) (gs : list nx_jobgroup) : nat :=
  match gs with
  | [] => O
  | g :: gs => if g_priority g <? p then S (group_place p gs) else O
  end.

Definition nx_ctx_get_jobgroup (p : Z) (gs : list nx_jobgroup) : outcome (list nx_jobgroup * nat) :=
  _ ← ASSERT (0 <? p) "priority > 0";
  match find_group p gs with
  | Some i => Ret (gs, i)
  | None => let i := group_place p gs in Ret (take i gs ++ Group None p [] :: drop i gs, i)
  end.

(** [NX_DLIST_INSERT_TAIL(&(jobgroup->jobs), job, link)] *)
Definition group_add (i : nat) (j : loc) (gs : list nx_jobgroup) : list nx_jobgroup :=
  alter (fun g => Group (g_last g) (g_priority g) (g_jobs g ++ [j])) i gs.

(** A job of a module: allocated, put in a group and stored in [module->job]. *)
Definition new_job (m : loc) (i : nat) : prog unit := fun s =>
  match s_modules s !! m with
  | None => (s, Undef "module")
  | Some md =>
      let j := fresh (dom (s_jobs s)) in
      (with_modules (<[m := Mod (Some j) (m_priority md) (m_status md) (m_ext md)]> (s_modules s))
        (with_groups (group_add i j (s_groups s)) (with_jobs (<[j := Job false None None 0]> (s_jobs s)) s)), Ret tt)
  end.

Definition put_groups (gs : list nx_jobgroup) : prog unit := fun s => (with_groups gs s, Ret tt).

(** The loop of [nx_ctx_init_jobs] over [ctx->modules]; the position of the group of
    the last module is its result. *)
Fixpoint init_jobs_loop (ms : list loc) (jobgroup : option nat) : prog (option nat) :=
  match ms with
  | [] => mret jobgroup
  | m :: ms =>
      md ← get_module m;
      s ← get;
      r ← lift (nx_ctx_get_jobgroup (m_priority md) (s_groups s));
      _ ← put_groups r.1;
      _ ← new_job m r.2;
      init_jobs_loop ms (Some r.2)
  end.

Definition nx_ctx_init_jobs (ms : list loc) (coremodule : loc) : prog unit :=
  _ ← put_groups [];
  g ← init_jobs_loop ms None;
  match g with Some i => new_job coremodule i | None => mret tt end.

(** [NX_DLIST_NEXT(job, link)] in the list of a group. *)
Fixpoint job_next (j : loc) (js : list loc) : option loc :=
  match js with
  | [] => None
  | a :: js => if bool_decide (a = j) then head js else job_next j js
  end.

(** The job after [j], the first one after the last one. *)
Definition job_after (j : loc) (js : list loc) : option loc :=
  if bool_decide (last js = Some j) then head js else job_next j js.

Definition group_start (g : nx_jobgroup) : option loc :=
  match g_last g with None => head (g_jobs g) | Some l => job_after l (g_jobs g) end.

Definition runnable (jb : nx_job) : bool := negb (j_busy jb) && negb (bool_decide (j_first jb = None)).

(** The [do] loop over the jobs of a group; [start] is [jobgroup->last]. *)
Fixpoint scan_group (fuel : nat) (js : list loc) (start job : option loc) : prog (option loc) :=
  match fuel with
  | O => lift (Undef "out of fuel")
  | S fuel =>
      match job with
      | None => lift (Panic "job != NULL")
      | Some j =>
          jb ← get_job j;
          if runnable jb then mret (Some j)
          else let job' := job_after j js in
            if bool_decide (job' = start) then mret None else scan_group fuel js start job'
      end
  end.

(** The loop over the groups: the groups with their new [last], and the job. *)
Fixpoint scan_groups (gs : list nx_jobgroup) : prog (list nx_jobgroup * option loc) :=
  match gs with
  | [] => mret ([], None)
  | g :: gs =>
      let start := group_start g in
      r ← scan_group (length (g_jobs g)) (g_jobs g) start start;
      let g' := Group start (g_priority g) (g_jobs g) in
      match r with
      | Some j => mret (g' :: gs, Some j)
      | None => r ← scan_groups gs; mret (g' :: r.1, r.2)
      end
  end.

Definition take_event (j : loc) : prog loc :=
  e ← NX_DLIST_FIRST (JobEvents j);
  e ← lift (deref e "event");
  _ ← on_list (JobEvents j) (Dlist.NX_DLIST_REMOVE e);
  _ ← nx_atomic_add_cnt j (-1);
  mret e.

Definition nx_ctx_next_job : prog (option (loc * loc)) :=
  s ← get;
  r ← scan_groups (s_groups s);
  _ ← put_groups r.1;
  match r.2 with
  | None => mret None
  | Some j => e ← take_event j; mret (Some (j, e))
  end.

Fixpoint has_jobs_in (js : list loc) : prog bool :=
  match js with
  | [] => mret false
  | j :: js => jb ← get_job j; if runnable jb then mret true else has_jobs_in js
  end.

Fixpoint has_jobs_groups (gs : list nx_jobgroup) : prog bool :=
  match gs with
  | [] => mret false
  | g :: gs => b ← has_jobs_in (g_jobs g); if (b : bool) then mret true else has_jobs_groups gs
  end.

Definition nx_ctx_has_jobs : prog bool := s ← get; has_jobs_groups (s_groups s).

(** ** Removing events (common/module.c) *)

(** The loop that removes from a list the events that satisfy [p]; [act] is what is
    done with a removed event. *)
Fixpoint sweep (fuel : nat) (r : lref) (p : nx_event -> bool) (act : loc -> prog unit) (event : option loc) : prog unit :=
  match event with
  | None => mret tt
  | Some e =>
      match fuel with
      | O => lift (Undef "out of fuel")
      | S fuel =>
          v ← get_event e;
          next ← NX_DLIST_NEXT e;
          if p v then
            _ ← on_list r (Dlist.NX_DLIST_REMOVE e);
            _ ← match r with JobEvents j => nx_atomic_add_cnt j (-1) | CtxEvents => mret tt end;
            _ ← act e;
            sweep fuel r p act next
          else sweep fuel r p act next
      end
  end.

Definition sweep_list (r : lref) (p : nx_event -> bool) (act : loc -> prog unit) : prog unit :=
  s ← get;
  e ← NX_DLIST_FIRST r;
  sweep (list_fuel s) r p act e.

(** [tmpevent->job = NULL] *)
Definition clear_job (e : loc) : prog unit := v ← get_event e; put_event e (set_job None v).

Definition of_module (m : loc) (v : nx_event) : bool := bool_decide (e_module v = Some m).
Definition of_type (t : nx_event_type) (v : nx_event) : bool := bool_decide (e_type v = t).
Definition of_data (d : option loc) (v : nx_event) : bool := bool_decide (e_data v = d).

Definition nx_module_remove_events (m : loc) : prog unit :=
  _ ← sweep_list CtxEvents (of_module m) clear_job;
  md ← get_module m;
  match m_job md with Some j => sweep_list (JobEvents j) (of_module m) clear_job | None => mret tt end.

Definition nx_module_remove_scheduled_events (m : loc) : prog unit :=
  sweep_list CtxEvents (fun v => of_module m v && of_type NX_EVENT_SCHEDULE v) clear_job.

Definition nx_module_remove_events_by_data (m : loc) (d : option loc) : prog unit :=
  _ ← sweep_list CtxEvents (of_data d) nx_event_free;
  md ← get_module m;
  match m_job md with Some j => sweep_list (JobEvents j) (of_data d) nx_event_free | None => mret tt end.

Definition nx_module_remove_events_by_type (m : loc) (t : nx_event_type) : prog unit :=
  _ ← sweep_list CtxEvents (fun v => of_module m v && of_type t v) nx_event_free;
  md ← get_module m;
  match m_job md with Some j => sweep_list (JobEvents j) (of_type t) nx_event_free | None => mret tt end.

(** ** The threads (core/nxlog.c) *)

(** The loop of [nxlog_event_thread] over [ctx->events]: its result is [next_run]. *)
Fixpoint event_loop (fuel : nat) (now next_run : Z) (event : option loc) : prog Z :=
  match event with
  | None => mret next_run
  | Some e =>
      match fuel with
      | O => lift (Undef "out of fuel")
      | S fuel =>
          v ← get_event e;
          _ ← lift (nx_event_type_to_string (e_type v));
          _ ← lift (ASSERT (e_delayed v) "event->delayed == TRUE");
          next ← nx_event_next (Some e);
          if e_time v <=? now then
            _ ← on_list CtxEvents (Dlist.NX_DLIST_REMOVE e);
            _ ← nx_event_to_jobqueue e;
            event_loop fuel now next_run next
          else event_loop fuel now (if (e_time v <? next_run) || (next_run =? 0) then e_time v else next_run) next
      end
  end.

Definition event_thread_pass (now : Z) : prog Z :=
  s ← get;
  e ← nx_event_next None;
  event_loop (list_fuel s) now 0 e.

(** How long the event thread then waits; [None]: it does not. *)
Definition NX_POLL_TIMEOUT : Z := 50000.
Definition event_thread_wait (now next_run : Z) : option Z :=
  if 0 <? next_run then (if 0 <? next_run - now then Some (next_run - now) else None)
  else Some NX_POLL_TIMEOUT.

(** A worker takes a job: [nx_ctx_next_job], and the job is marked busy. *)
Definition set_busy (j : loc) (b : bool) : prog unit :=
  jb ← get_job j; put_job j (Job b (j_first jb) (j_last jb) (j_cnt jb)).

Definition worker_take : prog (option (loc * loc)) :=
  r ← nx_ctx_next_job;
  match r with
  | None => mret None
  | Some (j, e) =>
      jb ← get_job j;
      _ ← lift (ASSERT (negb (j_busy jb)) "nx_atomic_read32(&(job->busy)) == FALSE");
      _ ← set_busy j true;
      mret (Some (j, e))
  end.

(** The end of its turn. *)
Definition worker_done (j e : loc) : prog unit :=
  _ ← nx_event_free e;
  set_busy j false.

End groups.
(** ** The round robin of a group *)

Lemma job_next_lookup j js i : NoDup js -> js !! i = Some j -> job_next j js = js !! S i.
Proof.
  revert i. induction js as [|a js IH]; intros i Hnd Hi; [done|]. apply NoDup_cons in Hnd as [Ha Hnd]. simpl. destruct i as [|i].
  - injection Hi as ->. rewrite bool_decide_eq_true_2 by done. by rewrite head_lookup.
  - simpl in Hi. rewrite bool_decide_eq_false_2; [by apply IH|]. intros ->. by apply Ha, list_elem_of_lookup_2 with i.
Qed.

Lemma job_after_lookup j js i : NoDup js -> js !! i = Some j -> job_after j js = js !! (S i mod length js)%nat.
Proof.
  intros Hnd Hi. pose proof (lookup_lt_Some _ _ _ Hi) as Hlt. unfold job_after. rewrite last_lookup.
  destruct (decide (S i = length js)) as [E|E].
  - rewrite bool_decide_eq_true_2 by (by rewrite <- E). rewrite E, Nat.Div0.mod_same. by rewrite head_lookup.
  - rewrite Nat.mod_small by lia. rewrite bool_decide_eq_false_2; [by apply job_next_lookup|]. intros Hl.
    apply E. pose proof (NoDup_lookup _ _ _ _ Hnd Hi Hl). lia.
Qed.

Lemma mod_step i k n : (0 < n)%nat -> (S ((i + k) mod n) mod n = (i + S k) mod n)%nat.
Proof. intros Hn. rewrite <- Nat.add_1_l, Nat.Div0.add_mod_idemp_r. f_equal. lia. Qed.

(** The positions [i], ..., [i + n - 1] modulo [n] are different. *)
Lemma mod_ne i k n : (i < n)%nat -> (0 < k < n)%nat -> ((i + k) mod n)%nat <> i.
Proof.
  intros Hi Hk. destruct (decide (i + k < n)%nat); [rewrite Nat.mod_small by lia; lia|].
  replace (i + k)%nat with ((i + k - n) + 1 * n)%nat by lia. rewrite Nat.Div0.mod_add, Nat.mod_small by lia. lia.
Qed.

Lemma mod_hit i m n : (i < n)%nat -> (m < n)%nat -> exists k, (k < n)%nat /\ ((i + k) mod n = m)%nat.
Proof.
  intros Hi Hm. destruct (decide (i <= m)%nat).
  - exists (m - i)%nat. split; [lia|]. rewrite Nat.mod_small; lia.
  - exists (n + m - i)%nat. split; [lia|]. replace (i + (n + m - i))%nat with (m + 1 * n)%nat by lia.
    rewrite Nat.Div0.mod_add, Nat.mod_small; lia.
Qed.

Section round_robin.
Context {X : Type}.
Implicit Types (s : sys X) (v : lref -> list loc).

Definition jobs_exist s (js : list loc) : Prop := forall j, j ∈ js -> is_Some (s_jobs s !! j).

(** The job [j] may be taken. *)
Definition ready s (j : loc) : Prop := exists jb, s_jobs s !! j = Some jb /\ runnable jb = true.

Lemma scan_group_from s js i k : NoDup js -> (i < length js)%nat -> jobs_exist s js -> (k < length js)%nat ->
  (forall m, (m < k)%nat -> forall j, js !! ((i + m) mod length js)%nat = Some j -> ~ ready s j) ->
  exists o, scan_group (length js - k) js (js !! i) (js !! ((i + k) mod length js)%nat) s = (s, Ret o) /\
    match o with Some j => j ∈ js /\ ready s j | None => forall j, j ∈ js -> ~ ready s j end.
Proof.
  intros Hnd Hi Hex. remember (length js - k)%nat as fuel eqn:Ef. revert k Ef.
  induction fuel as [|fuel IH]; intros k Ef Hk Hno; [lia|].
  assert ((i + k) mod length js < length js)%nat as Hlt by (apply Nat.mod_upper_bound; lia).
  destruct (lookup_lt_is_Some_2 js _ Hlt) as [j Hj]. rewrite Hj. cbn [scan_group].
  destruct (Hex j) as [jb Hjb]; [by eapply list_elem_of_lookup_2|]. rewrite (cmd_bind_Ret _ _ s s jb) by (unfold get_job; by rewrite Hjb).
  destruct (runnable jb) eqn:Er.
  { exists (Some j). split; [done|]. split; [by eapply list_elem_of_lookup_2|by exists jb]. }
  rewrite (job_after_lookup j js _ Hnd Hj), mod_step by lia.
  assert (forall m, (m < S k)%nat -> forall j, js !! ((i + m) mod length js)%nat = Some j -> ~ ready s j) as Hno'.
  { intros m Hm j' Hj'. destruct (decide (m = k)) as [-> |]; [|apply (Hno m); [lia|done]]. rewrite Hj in Hj'. injection Hj' as <-.
    intros (jb' & H1 & H2). congruence. }
  destruct (decide (S k = length js)) as [E|E].
  - rewrite E. replace (i + length js)%nat with (i + 1 * length js)%nat by lia. rewrite Nat.Div0.mod_add, Nat.mod_small by lia.
    rewrite bool_decide_eq_true_2 by done. exists None. split; [done|]. intros j' Hj'. apply list_elem_of_lookup in Hj' as [m Hm].
    destruct (mod_hit i m (length js) Hi) as (k' & Hk' & Hm'); [by apply lookup_lt_Some in Hm|]. apply (Hno' k'); [lia|by rewrite Hm'].
  - assert ((i + S k) mod length js < length js)%nat as Hlt' by (apply Nat.mod_upper_bound; lia).
    rewrite bool_decide_eq_false_2; [apply IH; [lia|lia|done]|]. intros H.
    destruct (lookup_lt_is_Some_2 js _ Hlt') as [j1 H1]. destruct (lookup_lt_is_Some_2 js _ Hi) as [j2 H2].
    rewrite H1, H2 in H. injection H as ->. exact (mod_ne i (S k) (length js) Hi ltac:(lia) (NoDup_lookup _ _ _ _ Hnd H1 H2)).
Qed.

Lemma scan_group_ok s js i : NoDup js -> (i < length js)%nat -> jobs_exist s js ->
  exists o, scan_group (length js) js (js !! i) (js !! i) s = (s, Ret o) /\
    match o with Some j => j ∈ js /\ ready s j | None => forall j, j ∈ js -> ~ ready s j end.
Proof.
  intros Hnd Hi Hex. destruct (scan_group_from s js i 0 Hnd Hi Hex) as (o & Ho & H); [lia|lia|].
  rewrite Nat.add_0_r, Nat.mod_small, Nat.sub_0_r in Ho by done. eauto.
Qed.

(** The job at which the scan starts is taken if it is ready. *)
Lemma scan_group_start s js j fuel : (0 < fuel)%nat -> ready s j -> scan_group fuel js (Some j) (Some j) s = (s, Ret (Some j)).
Proof.
  intros Hf (jb & Hj & Hr). destruct fuel; [lia|]. cbn [scan_group]. rewrite (cmd_bind_Ret _ _ s s jb) by (unfold get_job; by rewrite Hj).
  by rewrite Hr.
Qed.

(** A group is well formed. *)
Record group_ok s (g : nx_jobgroup) : Prop := {
  go_jobs : g_jobs g <> [];
  go_nodup : NoDup (g_jobs g);
  go_exist : jobs_exist s (g_jobs g);
  go_last l : g_last g = Some l -> l ∈ g_jobs g
}.

Lemma group_start_ok s g : group_ok s g -> exists i, (i < length (g_jobs g))%nat /\ group_start g = g_jobs g !! i.
Proof.
  intros []. unfold group_start. assert (0 < length (g_jobs g))%nat as Hl by (destruct (g_jobs g); [done|simpl; lia]).
  destruct (g_last g) as [l|]; [|exists 0%nat; by rewrite head_lookup].
  destruct (list_elem_of_lookup_1 _ _ (go_last0 l eq_refl)) as [i Hi]. exists (S i mod length (g_jobs g))%nat.
  split; [apply Nat.mod_upper_bound; lia|by apply job_after_lookup].
Qed.

(** A group after it was visited. *)
Definition visited (g : nx_jobgroup) : nx_jobgroup := Group (group_start g) (g_priority g) (g_jobs g).

Lemma visited_ok s g : group_ok s g -> group_ok s (visited g).
Proof.
  intros Hg. destruct (group_start_ok s g Hg) as (i & Hi & Hs). destruct Hg. split; try done. simpl. intros l Hl.
  rewrite Hs in Hl. by eapply list_elem_of_lookup_2.
Qed.

(** The groups are visited up to the first one with a ready job. *)
Lemma scan_groups_ok s gs : Forall (group_ok s) gs ->
  exists n o, scan_groups gs s = (s, Ret ((visited <$> take n gs) ++ drop n gs, o)) /\
    match o with
    | Some j => exists m g, n = S m /\ gs !! m = Some g /\ j ∈ g_jobs g /\ ready s j
    | None => n = length gs /\ forall g j, g ∈ gs -> j ∈ g_jobs g -> ~ ready s j
    end.
Proof.
  induction 1 as [|g gs Hg Hgs IH]; [exists 0%nat, None; split; [done|]; split; [done|]; intros; set_solver|].
  destruct (group_start_ok s g Hg) as (i & Hi & Hs). pose proof Hg as []. cbn [scan_groups].
  destruct (scan_group_ok s (g_jobs g) i go_nodup0 Hi go_exist0) as (o & Ho & H). rewrite <- Hs in Ho. rewrite (cmd_bind_Ret _ _ _ _ _ Ho).
  destruct o as [j|].
  - exists 1%nat, (Some j). split; [done|]. exists 0%nat, g. by destruct H.
  - destruct IH as (n & o & Hn & Hmatch). rewrite (cmd_bind_Ret _ _ _ _ _ Hn). exists (S n), o. split; [done|]. destruct o as [j|].
    + destruct Hmatch as (m & g' & -> & Hm & Hj). by exists (S m), g'.
    + destruct Hmatch as [-> Hall]. split; [done|]. intros g' j Hg' Hj. apply elem_of_cons in Hg' as [-> |Hg']; [by apply H|by eapply Hall].
Qed.

(** If no earlier group has a ready job, the job at which a group starts is taken
    as soon as it is ready. *)
Lemma scan_groups_start s gs m g j : Forall (group_ok s) gs -> gs !! m = Some g -> group_start g = Some j -> ready s j ->
  (forall k g' j', (k < m)%nat -> gs !! k = Some g' -> j' ∈ g_jobs g' -> ~ ready s j') ->
  exists gs', scan_groups gs s = (s, Ret (gs', Some j)).
Proof.
  intros Hall. revert m. induction Hall as [|g0 gs Hg Hgs IH]; intros m Hm Hs Hr Hno; [done|].
  destruct (group_start_ok s g0 Hg) as (i & Hi & Hi0). pose proof Hg as []. cbn [scan_groups]. destruct m as [|m].
  - injection Hm as ->. rewrite Hs, (cmd_bind_Ret _ _ _ _ _ (scan_group_start s (g_jobs g) j (length (g_jobs g)) ltac:(lia) Hr)). eauto.
  - destruct (scan_group_ok s (g_jobs g0) i go_nodup0 Hi go_exist0) as (o & Ho & H). rewrite <- Hi0 in Ho. rewrite (cmd_bind_Ret _ _ _ _ _ Ho).
    destruct o as [j'|]; [destruct H as [H1 H2]; by destruct (Hno 0%nat g0 j' ltac:(lia) eq_refl H1)|].
    destruct (IH m Hm Hs Hr) as [gs' Hgs']; [intros k g' j' Hk; apply (Hno (S k)); lia|].
    rewrite (cmd_bind_Ret _ _ _ _ _ Hgs'). eauto.
Qed.

(** ** [nx_ctx_next_job] *)

Definition groups_ok s : Prop := Forall (group_ok s) (s_groups s).

Lemma sched_groups s v gs : sched_ok s v -> sched_ok (with_groups gs s) v.
Proof. intros [[] ? ? ? ?]. by split. Qed.

Lemma groups_exist s s' : (forall j, is_Some (s_jobs s !! j) -> is_Some (s_jobs s' !! j)) -> forall gs, Forall (group_ok s) gs -> Forall (group_ok s') gs.
Proof. intros H gs Hgs. eapply Forall_impl; [exact Hgs|]. intros g []. split; try done. intros j Hj. auto. Qed.

Lemma static_exist s s' j : same_static s s' -> is_Some (s_jobs s !! j) -> is_Some (s_jobs s' !! j).
Proof. intros (_ & _ & _ & H) Hj. specialize (H j). destruct (s_jobs s' !! j), (s_jobs s !! j); try done. Qed.

Lemma static_groups s s' : same_static s s' -> groups_ok s -> groups_ok s'.
Proof.
  intros St. unfold groups_ok. rewrite (proj1 St). apply groups_exist. intros j. by apply static_exist.
Qed.

Lemma groups_visited s n gs : Forall (group_ok s) gs -> Forall (group_ok s) ((visited <$> take n gs) ++ drop n gs).
Proof.
  intros H. apply Forall_app. split; [|by apply Forall_drop]. apply Forall_fmap. eapply Forall_impl; [by apply Forall_take|].
  intros g. apply visited_ok.
Qed.

(** A job with an event in its queue. *)
Lemma first_queue s v j jb : linked s v -> s_jobs s !! j = Some jb -> j_first jb = head (v (JobEvents j)).
Proof.
  intros L Hj. assert (list_of (JobEvents j) s = Ret (Dlist.DL (j_first jb) (j_last jb) (s_links s))) as Hl by (simpl; by rewrite Hj).
  destruct (lk_rep _ _ L _ _ Hl) as (_ & Hf & _). simpl in Hf. rewrite Hf. by destruct (v (JobEvents j)).
Qed.

Lemma ready_queue s v j : linked s v -> ready s j ->
  exists jb e l, s_jobs s !! j = Some jb /\ j_busy jb = false /\ v (JobEvents j) = e :: l.
Proof.
  intros L (jb & Hj & Hr). pose proof (first_queue s v j jb L Hj) as Hf. unfold runnable in Hr. tests.
  destruct (v (JobEvents j)) as [|e l]; [done|]. by exists jb, e, l.
Qed.

Lemma take_event_ok s v j e l : sched_ok s v -> v (JobEvents j) = e :: l ->
  exists s', take_event j s = (s', Ret e) /\ sched_ok s' (<[JobEvents j := l]> v) /\ same_static s s' /\ s_events s' = s_events s /\
    absent e (<[JobEvents j := l]> v).
Proof.
  intros Hok Hv. pose proof (so_linked _ _ Hok) as L. destruct (list_of_cases (JobEvents j) s) as [[d Hd]|Hno];
    [|by rewrite (lk_none _ _ L _ Hno) in Hv].
  destruct (first_last_ok s v _ d L Hd) as [Hf _]. rewrite Hv in Hf. unfold take_event. rewrite (cmd_bind_Ret _ _ _ _ _ Hf).
  rewrite (cmd_bind_Ret _ _ s s e) by done.
  destruct (job_remove_ok s v j [] e l Hok Hv) as (s' & H & Hok' & St & Ev & A). exists s'. split_and!; try done.
  unfold mbind, cmd_bind in H |- *. destruct (on_list _ _ s) as [s1 [[]| | |]]; try done. by rewrite H.
Qed.

Lemma next_job_ok s v : sched_ok s v -> groups_ok s ->
  exists s' n r, let gs := (visited <$> take n (s_groups s)) ++ drop n (s_groups s) in
    nx_ctx_next_job s = (s', Ret r) /\ same_static (with_groups gs s) s' /\ groups_ok s' /\ s_events s' = s_events s /\
    match r with
    | Some (j, e) => exists l m g, n = S m /\ s_groups s !! m = Some g /\ j ∈ g_jobs g /\ ready s j /\ v (JobEvents j) = e :: l /\ sched_ok s' (<[JobEvents j := l]> v) /\
        absent e (<[JobEvents j := l]> v)
    | None => sched_ok s' v /\ forall g j, g ∈ s_groups s -> j ∈ g_jobs g -> ~ ready s j
    end.
Proof.
  intros Hok Hgs. unfold nx_ctx_next_job. rewrite (cmd_bind_Ret _ _ s s s) by done.
  destruct (scan_groups_ok s (s_groups s) Hgs) as (n & o & Hn & H). rewrite (cmd_bind_Ret _ _ _ _ _ Hn). cbn [fst snd].
  set (gs := (visited <$> take n (s_groups s)) ++ drop n (s_groups s)). set (s1 := with_groups gs s).
  rewrite (cmd_bind_Ret _ _ s s1 tt) by done. pose proof (sched_groups s v gs Hok) as Hok1. fold s1 in Hok1.
  assert (groups_ok s1) as Hg1 by (unfold groups_ok; apply (groups_exist s); [done|by apply groups_visited]).
  destruct o as [j|].
  - destruct H as (m & g & Hn' & Hm & Hj & Hr). destruct (ready_queue s v j (so_linked _ _ Hok) Hr) as (jb & e & l & Hjb & Hb & Hv).
    destruct (take_event_ok s1 v j e l Hok1 Hv) as (s2 & H2 & Hok2 & St2 & Ev2 & A2). rewrite (cmd_bind_Ret _ _ _ _ _ H2).
    exists s2, n, (Some (j, e)). split_and!; try done; [by eapply static_groups|]. by exists l, m, g.
  - exists s1, n, None. split_and!; try done. by destruct H.
Qed.

(** The job at which a group starts is taken as soon as it is ready, if no earlier
    group has a ready job. *)
Lemma next_job_start s v m g j : sched_ok s v -> groups_ok s -> s_groups s !! m = Some g -> group_start g = Some j -> ready s j ->
  (forall i g' j', (i < m)%nat -> s_groups s !! i = Some g' -> j' ∈ g_jobs g' -> ~ ready s j') ->
  exists s' e, nx_ctx_next_job s = (s', Ret (Some (j, e))).
Proof.
  intros Hok Hgs Hm Hs Hr Hno. unfold nx_ctx_next_job. rewrite (cmd_bind_Ret _ _ s s s) by done.
  destruct (scan_groups_start s (s_groups s) m g j Hgs Hm Hs Hr Hno) as [gs' H]. rewrite (cmd_bind_Ret _ _ _ _ _ H). cbn [fst snd].
  rewrite (cmd_bind_Ret _ _ s (with_groups gs' s) tt) by done.
  destruct (ready_queue s v j (so_linked _ _ Hok) Hr) as (jb & e & l & _ & _ & Hv).
  destruct (take_event_ok _ v j e l (sched_groups s v gs' Hok) Hv) as (s2 & H2 & _). rewrite (cmd_bind_Ret _ _ _ _ _ H2). by exists s2, e.
Qed.

(** A group with a ready job is visited, if no earlier group has one. *)
Lemma next_job_visits s v m g j s' r : sched_ok s v -> groups_ok s -> s_groups s !! m = Some g -> j ∈ g_jobs g -> ready s j ->
  (forall i g' j', (i < m)%nat -> s_groups s !! i = Some g' -> j' ∈ g_jobs g' -> ~ ready s j') ->
  nx_ctx_next_job s = (s', Ret r) -> s_groups s' !! m = Some (visited g).
Proof.
  intros Hok Hgs Hm Hj Hr Hno H. destruct (next_job_ok s v Hok Hgs) as (s1 & n & r1 & H1 & (HG & _) & _ & _ & Hmatch).
  rewrite H in H1. injection H1 as <- <-. rewrite HG. simpl. pose proof (lookup_lt_Some _ _ _ Hm) as Hlt. destruct r as [[j' e]|].
  - destruct Hmatch as (l & m' & g' & -> & Hm' & Hj' & Hr' & _). pose proof (lookup_lt_Some _ _ _ Hm') as Hlt'.
    assert (m <= m')%nat by (destruct (decide (m' < m)%nat) as [Hl|]; [by destruct (Hno m' g' j' Hl Hm' Hj')|lia]).
    rewrite lookup_app_l; [|rewrite length_fmap, length_take; lia]. rewrite list_lookup_fmap, lookup_take_lt by lia. by rewrite Hm.
  - destruct Hmatch as [_ Hnone]. destruct (Hnone g j); try done. by eapply list_elem_of_lookup_2.
Qed.

(** C8: A job that is ready is not starved: if a group is the first one with ready
    jobs, then each of its jobs that stays ready is taken within as many calls of
    [nx_ctx_next_job] as the group has jobs, whatever happens to the queues between
    the calls. *)
Theorem next_job_fair (st : nat -> sys X) (v : nat -> lref -> list loc) m g j :
  (forall k, sched_ok (st k) (v k) /\ groups_ok (st k)) ->
  (forall k s' r, nx_ctx_next_job (st k) = (s', Ret r) -> s_groups (st (S k)) = s_groups s') ->
  s_groups (st O) !! m = Some g -> j ∈ g_jobs g ->
  (forall k, (k < length (g_jobs g))%nat -> ready (st k) j) ->
  (forall k i g' j', (k < length (g_jobs g))%nat -> (i < m)%nat -> s_groups (st k) !! i = Some g' -> j' ∈ g_jobs g' -> ~ ready (st k) j') ->
  exists k s' e, (k < length (g_jobs g))%nat /\ nx_ctx_next_job (st k) = (s', Ret (Some (j, e))).
Proof.
  intros Hok Hst Hm Hj Hr Hno. set (n := length (g_jobs g)) in *. destruct (Hok O) as [_ Hg0].
  assert (group_ok (st O) g) as Hg by (eapply Forall_lookup_1; [exact Hg0|exact Hm]). destruct (group_start_ok _ g Hg) as (i & Hi & Hs).
  destruct (list_elem_of_lookup_1 _ _ Hj) as [a Ha]. destruct (mod_hit i a n Hi) as (k & Hk & Hka); [by apply lookup_lt_Some in Ha|].
  assert (forall k, (k < n)%nat -> exists gk, s_groups (st k) !! m = Some gk /\ g_jobs gk = g_jobs g /\ group_start gk = g_jobs g !! ((i + k) mod n)%nat) as Hrot.
  { clear k Hk Hka. induction k as [|k IH]; intros Hk; [exists g; rewrite Nat.add_0_r, Nat.mod_small by done; done|].
    destruct IH as (gk & Hgk & Ejobs & Estart); [lia|]. destruct (Hok k) as [Hsk Hgsk]. exists (visited gk).
    destruct (next_job_ok _ _ Hsk Hgsk) as (s' & _ & r & H & _). rewrite (Hst k s' r H).
    split; [|split; [done|]].
    - eapply next_job_visits; [exact Hsk|exact Hgsk|exact Hgk|by rewrite Ejobs|apply Hr; lia|intros i' g' j'; apply Hno; lia|exact H].
    - unfold group_start, visited. simpl. rewrite Ejobs, Estart. assert ((i + k) mod n < n)%nat as Hlt by (apply Nat.mod_upper_bound; lia).
      destruct (lookup_lt_is_Some_2 (g_jobs g) _ Hlt) as [x Hx]. rewrite Hx, (job_after_lookup x (g_jobs g) _ (go_nodup _ _ Hg) Hx).
      by rewrite mod_step by lia. }
  destruct (Hrot k Hk) as (gk & Hgk & Ejobs & Estart). rewrite Hka, Ha in Estart. destruct (Hok k) as [Hsk Hgsk].
  destruct (next_job_start (st k) (v k) m gk j Hsk Hgsk Hgk Estart (Hr k Hk)) as (s' & e & H); [intros i' g' j'; by apply Hno|]. by exists k, s', e.
Qed.

(** [nx_ctx_has_jobs] tells whether [nx_ctx_next_job] would find a job, without
    changing anything. *)
Theorem has_jobs_next s v : sched_ok s v -> groups_ok s ->
  exists b s' r, nx_ctx_has_jobs s = (s, Ret b) /\ nx_ctx_next_job s = (s', Ret r) /\ (b = true <-> r <> None).
Proof.
  intros Hok Hgs. destruct (next_job_ok s v Hok Hgs) as (s' & n & r & H & _ & _ & _ & Hmatch).
  assert (forall js, jobs_exist s js -> exists b, has_jobs_in js s = (s, Ret b) /\ (b = true <-> exists j, j ∈ js /\ ready s j)) as Hin.
  { induction js as [|j js IH]; intros Hex; [exists false; split; [done|]; split; [done|intros (j & Hj & _); set_solver]|].
    destruct (Hex j) as [jb Hj]; [by left|]. cbn [has_jobs_in]. rewrite (cmd_bind_Ret _ _ s s jb) by (unfold get_job; by rewrite Hj).
    destruct (runnable jb) eqn:Er; [exists true; split; [done|]; split; [|done]; intros _; exists j; split; [by left|by exists jb]|].
    destruct IH as (b & Hb & Hiff); [intros k Hk; apply Hex; by right|]. exists b. split; [done|]. rewrite Hiff. split.
    - intros (k & Hk & Hr). exists k. split; [by right|done].
    - intros (k & [-> |Hk]%elem_of_cons & Hr); [destruct Hr as (jb' & ? & ?); congruence|eauto]. }
  assert (exists b, nx_ctx_has_jobs s = (s, Ret b) /\ (b = true <-> exists g j, g ∈ s_groups s /\ j ∈ g_jobs g /\ ready s j)) as (b & Hb & Hiff).
  { unfold nx_ctx_has_jobs. rewrite (cmd_bind_Ret _ _ s s s) by done. unfold groups_ok in Hgs. clear Hmatch.
    induction Hgs as [|g gs Hg Hgs IH]; [exists false; split; [done|]; split; [done|intros (g & j & Hg & _); set_solver]|].
    cbn [has_jobs_groups]. destruct (Hin (g_jobs g) (go_exist _ _ Hg)) as (b & Hb & Hiff). rewrite (cmd_bind_Ret _ _ _ _ _ Hb). destruct b.
    - exists true. split; [done|]. split; [|done]. intros _. destruct (proj1 Hiff eq_refl) as (j & Hj & Hr). exists g, j. set_solver.
    - destruct IH as (b & Hb' & Hiff'). exists b. split; [done|]. rewrite Hiff'. split; [intros (g' & j & Hg' & H'); exists g', j; set_solver|].
      intros (g' & j & [-> |Hg']%elem_of_cons & Hj & Hr); [by pose proof (proj2 Hiff (ex_intro _ j (conj Hj Hr)))|by exists g', j]. }
  exists b, s', r. split_and!; [done|done|]. rewrite Hiff. destruct r as [[j e]|].
  - destruct Hmatch as (l & m & g & _ & Hm & Hj & Hr & _). split; [done|]. intros _. exists g, j. split; [by eapply list_elem_of_lookup_2|done].
  - destruct Hmatch as [_ Hnone]. split; [|done]. intros (g & j & Hg & Hj & Hr). by destruct (Hnone g j).
Qed.

End round_robin.

(** ** Sweeping a list *)

Section sweeping.
Context {X : Type}.
Implicit Types (s : sys X) (v : lref -> list loc).

(** What is done with a removed event keeps the invariant. *)
Definition act_ok (act : loc -> cmd (sys X) unit) : Prop := forall s v e,
  sched_ok s v -> absent e v -> is_Some (s_events s !! e) ->
  exists s', act e s = (s', Ret tt) /\ sched_ok s' v /\ same_static s s' /\ (forall x, x <> e -> s_events s' !! x = s_events s !! x).

Lemma clear_job_ok : act_ok clear_job.
Proof.
  intros s v e Hok He [ev Hev]. unfold clear_job. rewrite (cmd_bind_Ret _ _ _ _ _ (get_event_ok _ _ _ Hev)).
  destruct (put_event_ok s v e (set_job None ev) Hok He ltac:(eauto)) as (s' & H & Hok' & St & _ & Ev). exists s'. split_and!; try done.
  intros x Hx. rewrite Ev. by apply lookup_insert_ne.
Qed.

Lemma free_ok : act_ok nx_event_free.
Proof.
  intros s v e Hok He Hev. destruct (event_free_ok s v e (so_linked _ _ Hok) He Hev) as (H & L & R). exists (freed e s). split; [done|].
  destruct Hok as [? Hc Hm Hi Hs]. split_and!; [|by apply same_rest_static|intros x Hx; simpl; by apply lookup_delete_ne].
  split; try done; simpl.
  - intros r x ev Hx. rewrite lookup_delete_ne; [|intros <-; by apply (He r)]. by apply Hi.
  - pose proof (map_size_delete_le (s_events s) e). lia.
Qed.

Lemma list_remove_ok s v r l1 e l2 : sched_ok s v -> v r = l1 ++ e :: l2 ->
  exists s', (_ ← on_list r (Dlist.NX_DLIST_REMOVE e);
              match r with JobEvents j => nx_atomic_add_cnt j (-1) | CtxEvents => mret tt end) s = (s', Ret tt) /\
    sched_ok s' (<[r := l1 ++ l2]> v) /\ same_static s s' /\ s_events s' = s_events s /\ absent e (<[r := l1 ++ l2]> v).
Proof.
  intros Hok Hv. destruct r as [|j]; [|by apply job_remove_ok].
  destruct (ctx_remove_ok s v l1 e l2 Hok Hv) as (s' & H & Hok' & R & Ev & A). rewrite (cmd_bind_Ret _ _ _ _ _ H).
  exists s'. split_and!; try done. by apply same_rest_static.
Qed.

(** The events of a list that stay. *)
Definition stays s (p : nx_event -> bool) (e : loc) : bool :=
  match s_events s !! e with Some ev => negb (p ev) | None => false end.

Lemma filter_in (f : loc -> bool) l x : x ∈ List.filter f l -> x ∈ l.
Proof. rewrite !list_elem_of_In, List.filter_In. tauto. Qed.

Lemma list_nodup s v r : linked s v -> NoDup (v r).
Proof.
  intros L. destruct (list_of_cases r s) as [[d Hd]|Hno]; [apply (lk_rep _ _ L _ d Hd)|]. rewrite (lk_none _ _ L _ Hno). constructor.
Qed.

Lemma insert_twice v r l1 l2 x : (<[r := l2]> (<[r := l1]> v)) x = (<[r := l2]> v) x.
Proof. destruct (decide (r = x)) as [<- |]; [by rewrite !fn_lookup_insert|by rewrite !fn_lookup_insert_ne]. Qed.

Lemma insert_same v r x : (<[r := v r]> v) x = v x.
Proof. destruct (decide (r = x)) as [<- |]; [by rewrite fn_lookup_insert|by rewrite fn_lookup_insert_ne]. Qed.

Lemma sweep_ok act r p fuel s v l1 l2 : act_ok act -> sched_ok s v -> v r = l1 ++ l2 -> (length l2 <= fuel)%nat ->
  exists s', sweep fuel r p act (Dlist.fst_or l2 None) s = (s', Ret tt) /\
    sched_ok s' (<[r := l1 ++ List.filter (stays s p) l2]> v) /\ same_static s s' /\
    (forall x, x ∉ l2 \/ x ∈ List.filter (stays s p) l2 -> s_events s' !! x = s_events s !! x).
Proof.
  intros Hact. revert s v l1 l2. induction fuel as [|fuel IH]; intros s v l1 l2 Hok Hv Hl.
  { destruct l2; [|simpl in Hl; lia]. exists s. cbn [List.filter]. rewrite <- Hv. split_and!; try done. eapply sched_ext; [|exact Hok]. intros x. by rewrite insert_same. }
  destruct l2 as [|e l2].
  { exists s. cbn [List.filter]. rewrite <- Hv. split_and!; try done. eapply sched_ext; [|exact Hok]. intros x. by rewrite insert_same. }
  cbn [Dlist.fst_or sweep]. pose proof (so_linked _ _ Hok) as L.
  destruct (lk_alloc _ _ L e r) as [ev Hev]; [rewrite Hv; set_solver|]. rewrite (cmd_bind_Ret _ _ _ _ _ (get_event_ok _ _ _ Hev)).
  destruct (next_prev_ok s v r l1 e l2 L Hv) as [Hn _]. rewrite (cmd_bind_Ret _ _ _ _ _ Hn).
  assert (stays s p e = negb (p ev)) as Es by (unfold stays; by rewrite Hev). cbn [List.filter]. rewrite Es. simpl in Hl. destruct (p ev) eqn:Ep; cbn [negb].
  - destruct (list_remove_ok s v r l1 e l2 Hok Hv) as (s1 & H1 & Hok1 & St1 & Ev1 & A1). rewrite cmd_bind_assoc.
    rewrite (cmd_bind_Ret _ _ _ _ _ H1). destruct (Hact s1 _ e Hok1 A1) as (s2 & H2 & Hok2 & St2 & Ev2); [rewrite Ev1; eauto|].
    rewrite (cmd_bind_Ret _ _ _ _ _ H2).
    assert (e ∉ l2) as Hne. { pose proof (list_nodup s v r L) as Hnd. rewrite Hv in Hnd. apply Dlist.NoDup_mid in Hnd. tauto. }
    destruct (IH s2 _ l1 l2 Hok2 (fn_lookup_insert _ _ _)) as (s3 & H3 & Hok3 & St3 & Ev3); [lia|]. exists s3.
    assert (List.filter (stays s2 p) l2 = List.filter (stays s p) l2) as Ef.
    { apply filter_ext_in. intros x Hx. unfold stays. rewrite Ev2, Ev1; [done|]. intros ->. by apply Hne, list_elem_of_In. }
    rewrite Ef in Hok3, Ev3. split_and!; [done|eapply sched_ext; [|exact Hok3]; intros x; by rewrite insert_twice|by do 2 (etransitivity; [eassumption|])|].
    intros x Hx. rewrite Ev3, Ev2, Ev1; [done| |]; [intros ->; destruct Hx as [Hx|Hx%filter_in]; set_solver|set_solver].
  - assert (v r = (l1 ++ [e]) ++ l2) as Hv' by (by rewrite <- app_assoc). destruct (IH s v (l1 ++ [e]) l2 Hok Hv') as (s3 & H3 & Hok3 & St3 & Ev3); [lia|].
    exists s3. rewrite <- app_assoc in Hok3. split_and!; try done. intros x Hx. destruct (decide (x = e)) as [-> |]; [|apply Ev3; set_solver].
    apply Ev3. left. pose proof (list_nodup s v r L) as Hnd. rewrite Hv in Hnd. apply Dlist.NoDup_mid in Hnd. tauto.
Qed.

Lemma sweep_list_ok act r p s v : act_ok act -> sched_ok s v -> (forall j, r = JobEvents j -> is_Some (s_jobs s !! j)) ->
  exists s', sweep_list r p act s = (s', Ret tt) /\
    sched_ok s' (<[r := List.filter (stays s p) (v r)]> v) /\ same_static s s' /\
    (forall x, x ∉ v r \/ x ∈ List.filter (stays s p) (v r) -> s_events s' !! x = s_events s !! x).
Proof.
  intros Hact Hok Hex. unfold sweep_list. rewrite (cmd_bind_Ret _ _ s s s) by done.
  assert (exists d, list_of r s = Ret d) as [d Hd]. { destruct r as [|j]; [by eexists|]. destruct (Hex j eq_refl) as [jb Hj]. simpl. rewrite Hj. by eexists. }
  destruct (first_last_ok s v r d (so_linked _ _ Hok) Hd) as [Hf _]. rewrite (cmd_bind_Ret _ _ _ _ _ Hf).
  apply (sweep_ok act r p (list_fuel s) s v [] (v r)); try done. apply list_size, Hok.
Qed.

End sweeping.

(** ** The functions that remove events *)

Section removing.
Context {X : Type}.
Implicit Types (s : sys X) (v : lref -> list loc).

(** The lists after a sweep of [ctx->events] and of the queue of job [j]. *)
Definition swept s (p1 p2 : nx_event -> bool) (j : option loc) v : lref -> list loc := fun r =>
  match r with
  | CtxEvents => List.filter (stays s p1) (v r)
  | JobEvents j' => if bool_decide (j = Some j') then List.filter (stays s p2) (v r) else v r
  end.

Lemma sweep_both_ok act s v m md p1 p2 : act_ok act -> sched_ok s v -> s_modules s !! m = Some md ->
  exists s', (_ ← sweep_list CtxEvents p1 act;
              md ← get_module m;
              match m_job md with Some j => sweep_list (JobEvents j) p2 act | None => mret tt end) s = (s', Ret tt) /\
    sched_ok s' (swept s p1 p2 (m_job md) v) /\ same_static s s' /\ framed [] s v s' (swept s p1 p2 (m_job md) v).
Proof.
  intros Hact Hok Hm. destruct (sweep_list_ok act CtxEvents p1 s v Hact Hok ltac:(done)) as (s1 & H1 & Hok1 & St1 & Ev1).
  assert (forall x, absent x v -> absent x (swept s p1 p2 (m_job md) v)) as Hsub.
  { intros x Hx [|j']; cbn [swept]; [intros H%filter_in; by apply Hx in H|]. case_bool_decide; [intros Hin%filter_in|intros Hin]; by apply Hx in Hin. }
  rewrite (cmd_bind_Ret _ _ _ _ _ H1). pose proof St1 as (_ & HM & _).
  rewrite (cmd_bind_Ret _ _ s1 s1 md) by (unfold get_module; by rewrite HM, Hm). destruct (m_job md) as [j|] eqn:Hj.
  - destruct (sweep_list_ok act (JobEvents j) p2 s1 _ Hact Hok1) as (s2 & H2 & Hok2 & St2 & Ev2).
    { intros j' [= <-]. pose proof (proj1 (so_modules _ _ Hok) m md Hm) as H. rewrite Hj in H. by eapply static_exist. }
    exists s2. split_and!; [done| |by transitivity s1|].
    2:{ intros x Hx _. split; [|by apply Hsub]. rewrite Ev2, Ev1; [done|left; apply Hx|left]. rewrite fn_lookup_insert_ne by done. apply Hx. }
    eapply sched_ext; [|exact Hok2]. rewrite fn_lookup_insert_ne by done. intros [|j']; cbn [swept].
    + by rewrite fn_lookup_insert_ne, fn_lookup_insert by done.
    + destruct (decide (j = j')) as [<- |].
      * rewrite bool_decide_eq_true_2, fn_lookup_insert by done. apply filter_ext_in. intros x Hx%list_elem_of_In. unfold stays. rewrite Ev1; [done|].
        left. intros Hx'. by pose proof (lk_disj _ _ (so_linked _ _ Hok) x _ _ Hx Hx').
      * rewrite bool_decide_eq_false_2, !fn_lookup_insert_ne by congruence. done.
  - exists s1. split_and!; try done; [|intros x Hx _; split; [apply Ev1; left; apply Hx|by apply Hsub]].
    eapply sched_ext; [|exact Hok1]. intros [|j']; cbn [swept]; [by rewrite fn_lookup_insert|].
    by rewrite fn_lookup_insert_ne.
Qed.

(** An event in a queue belongs to the module of the job. *)
Lemma queue_of_module s v m md j e ev : sched_ok s v -> s_modules s !! m = Some md -> e ∈ v (JobEvents j) -> s_events s !! e = Some ev ->
  of_module m ev = bool_decide (m_job md = Some j).
Proof.
  intros Hok Hm He Hev. destruct (so_events _ _ Hok _ _ _ He Hev) as (_ & _ & m' & md' & Em & Hm' & _ & Hj'). unfold of_module.
  apply bool_decide_ext. rewrite Em. split; [intros [= ->]; congruence|]. intros Hj. f_equal.
  exact (proj2 (so_modules _ _ Hok) _ _ _ _ _ Hm' Hm Hj' Hj).
Qed.

Lemma filter_all (f : loc -> bool) l : (forall x, x ∈ l -> f x = true) -> List.filter f l = l.
Proof.
  induction l as [|x l IH]; intros H; [done|]. simpl. rewrite H by (by left). f_equal. apply IH. intros y Hy. apply H. by right.
Qed.

(** [nx_module_remove_events] takes every event of the module, and only those,
    out of the event list and out of all queues, keeps the order of the others, and
    leaves the lists and counters consistent. *)
Theorem module_remove_events s v m md : sched_ok s v -> s_modules s !! m = Some md ->
  exists s', nx_module_remove_events m s = (s', Ret tt) /\ same_static s s' /\
    sched_ok s' (fun r => List.filter (stays s (of_module m)) (v r)).
Proof.
  intros Hok Hm. destruct (sweep_both_ok clear_job s v m md (of_module m) (of_module m) clear_job_ok Hok Hm) as (s' & H & Hok' & St & _).
  exists s'. split_and!; [done|done|]. eapply sched_ext; [|exact Hok']. intros [|j]; cbn [swept]; [done|].
  case_bool_decide as Hj; [done|]. symmetry. apply filter_all. intros x Hx. unfold stays.
  destruct (lk_alloc _ _ (so_linked _ _ Hok) x _ Hx) as [ev Hev]. rewrite Hev, (queue_of_module s v m md j x ev Hok Hm Hx Hev).
  by rewrite bool_decide_eq_false_2.
Qed.

End removing.

(** ** The event thread *)

Section event_thread.
Context {X : Type}.
Implicit Types (s : sys X) (v : lref -> list loc).

(** An event of type [t] is in the queue of [j]. *)
Definition queued s v (j : loc) (t : nx_event_type) : Prop :=
  exists x ev, x ∈ v (JobEvents j) /\ s_events s !! x = Some ev /\ e_type ev = t.

Definition due (now : Z) (ev : nx_event) : bool := e_time ev <=? now.

(** The value of [next_run] after events at the given times. *)
Definition next_run_of (times : list Z) (next_run : Z) : Z :=
  foldl (fun n t => if (t <? n) || (n =? 0) then t else n) next_run times.

Lemma next_run_min times n : Forall (fun t => 0 < t) times -> 0 <= n ->
  let r := next_run_of times n in
  (r = n \/ r ∈ times) /\ (0 < n -> 0 < r <= n) /\ Forall (fun t => 0 < r <= t) times /\ (n = 0 -> r = 0 -> times = []).
Proof.
  revert n. induction times as [|t times IH]; intros n Hpos Hn; [simpl; split_and!; auto; lia|].
  apply Forall_cons in Hpos as [Ht Hpos]. cbn [next_run_of foldl]. set (n' := if (t <? n) || (n =? 0) then t else n).
  assert (n' = t /\ (n = 0 \/ t < n) \/ n' = n /\ n <= t /\ 0 < n) as Hn'.
  { subst n'. destruct (t <? n) eqn:E1, (n =? 0) eqn:E2; simpl; tests; lia. }
  fold (next_run_of times n'). destruct (IH n' Hpos ltac:(lia)) as (H1 & H2 & H3 & H4). clearbody n'.
  set (r := next_run_of times n') in *. cbn zeta. split_and!.
  - destruct H1 as [H1|H1]; [|by right; right]. rewrite H1. destruct Hn' as [[-> _]|[-> _]]; [right; by left|by left].
  - intros Hn0. specialize (H2 ltac:(lia)). lia.
  - constructor; [specialize (H2 ltac:(lia)); lia|done].
  - intros -> Hr. specialize (H2 ltac:(lia)). lia.
Qed.

Definition time_of s (e : loc) : Z := match s_events s !! e with Some ev => e_time ev | None => 0 end.

Lemma queued_insert s s' v j t l : (forall y vy, y ∈ v (JobEvents j) -> s_events s !! y = Some vy ->
      exists x vx, x ∈ l /\ s_events s' !! x = Some vx /\ e_type vx = e_type vy) -> queued s v j t -> queued s' (<[JobEvents j := l]> v) j t.
Proof.
  intros H (y & vy & Hy & Hvy & <-). destruct (H y vy Hy Hvy) as (x & vx & Hx & Hvx & E). exists x, vx. by rewrite fn_lookup_insert.
Qed.

(** A due event leaves [ctx->events] and goes to the queue of its job. *)
Lemma dispatch_ok s v l1 e l2 ev : sched_ok s v -> v CtxEvents = l1 ++ e :: l2 -> s_events s !! e = Some ev ->
  exists s' v', (_ ← on_list CtxEvents (Dlist.NX_DLIST_REMOVE e); nx_event_to_jobqueue e) s = (s', Ret tt) /\
    sched_ok s' v' /\ same_static s s' /\ v' CtxEvents = l1 ++ l2 /\
    (forall x, x ∈ l1 ++ l2 -> s_events s' !! x = s_events s !! x) /\
    (forall j t, queued s v j t -> queued s' v' j t) /\
    (forall j, job_of s ev = Some j -> queued s' v' j (e_type ev)) /\ framed [] s v s' v'.
Proof.
  intros Hok Hv Hev. assert (e ∈ v CtxEvents) as Hin by (rewrite Hv; set_solver).
  destruct (so_events _ _ Hok _ _ _ Hin Hev) as (Hp & Ht & m & md & Em & Hm & Hdel & Hjob).
  destruct (ctx_remove_ok s v l1 e l2 Hok Hv) as (s1 & H1 & Hok1 & R1 & Ev1 & A1). rewrite (cmd_bind_Ret _ _ _ _ _ H1).
  set (v1 := <[CtxEvents := l1 ++ l2]> v) in *. apply same_rest_static in R1. pose proof R1 as (_ & HM & _).
  assert (addable s1 v1 e ev) as Had. { split; [by rewrite Ev1|done|done|done|]. exists m, md. by rewrite HM. }
  assert (job_of s1 ev = job_of s ev) as Hjo by (unfold job_of; by rewrite HM).
  assert (framed [] s v s1 v1) as Fr1.
  { intros y Hy _. rewrite Ev1. split; [done|]. apply absent_insert; [done|]. specialize (Hy CtxEvents). rewrite Hv in Hy. set_solver. }
  assert (forall j t, queued s v j t -> queued s1 v1 j t) as Hq1.
  { intros j t (x & vx & Hx & Hvx & E). exists x, vx. subst v1. by rewrite fn_lookup_insert_ne, Ev1. }
  destruct (job_of s ev) as [j|] eqn:Hj.
  - destruct (to_jobqueue_types s1 v1 e ev j Hok1 Had Hjo) as (s2 & l & H2 & Hok2 & St2 & Fr2 & Ev2 & _ & (x & vx & Hx & Hvx & Etx) & Htypes).
    exists s2, (<[JobEvents j := l]> v1). split_and!; [done|done|by transitivity s1| | | | |].
    + subst v1. by rewrite fn_lookup_insert_ne, fn_lookup_insert by done.
    + intros y Hy. rewrite Ev2, Ev1; [done|]. rewrite elem_of_app, list_elem_of_singleton. subst v1. rewrite fn_lookup_insert_ne by done. intros [Hy'| ->].
      * pose proof (lk_disj _ _ (so_linked _ _ Hok) y (JobEvents j) CtxEvents Hy') as Hd. rewrite Hv in Hd. set_solver.
      * specialize (A1 CtxEvents). rewrite fn_lookup_insert in A1. done.
    + intros j' t Hq%Hq1. destruct (decide (j' = j)) as [-> |Hne]; [by eapply queued_insert|]. destruct Hq as (y & vy & Hy & Hvy & E).
      exists y, vy. rewrite fn_lookup_insert_ne by congruence. split_and!; [done| |done]. rewrite Ev2; [done|].
      rewrite elem_of_app, list_elem_of_singleton. intros [Hy'| ->]; [|by apply (A1 (JobEvents j'))].
      apply Hne. pose proof (lk_disj _ _ (so_linked _ _ Hok1) _ _ _ Hy Hy') as E'. by injection E'.
    + intros j' [= <-]. exists x, vx. rewrite fn_lookup_insert. split_and!; try done. by apply last_Some_elem_of.
    + intros y Hy _. destruct (Fr1 y Hy) as [E1 B1]; [set_solver|]. destruct (Fr2 y B1) as [E2 B2]; [|split; [congruence|done]].
      intros ->%list_elem_of_singleton. by apply (Hy CtxEvents).
  - pose proof (to_jobqueue_ok s1 v1 e ev Hok1 Had) as H. rewrite Hjo in H. destruct H as [_ H]. exists s1, v1. split_and!; try done.
    intros y _. by rewrite Ev1.
Qed.

Lemma event_loop_ok now fuel n s v l1 l2 : sched_ok s v -> v CtxEvents = l1 ++ l2 -> (length l2 <= fuel)%nat ->
  let rest := List.filter (stays s (due now)) l2 in
  exists s' v', event_loop fuel now n (Dlist.fst_or l2 None) s = (s', Ret (next_run_of (time_of s <$> rest) n)) /\
    sched_ok s' v' /\ same_static s s' /\ v' CtxEvents = l1 ++ rest /\
    (forall x, x ∈ l1 ++ rest -> s_events s' !! x = s_events s !! x) /\
    (forall j t, queued s v j t -> queued s' v' j t) /\
    (forall e ev j, e ∈ l2 -> s_events s !! e = Some ev -> due now ev = true -> job_of s ev = Some j -> queued s' v' j (e_type ev)) /\
    framed [] s v s' v'.
Proof.
  revert n s v l1 l2. induction fuel as [|fuel IH]; intros n s v l1 l2 Hok Hv Hl.
  { destruct l2; [|simpl in Hl; lia]. exists s, v. split_and!; try done. intros; set_solver. }
  destruct l2 as [|e l2]. { exists s, v. split_and!; try done. intros; set_solver. }
  cbn [Dlist.fst_or event_loop]. pose proof (so_linked _ _ Hok) as L. assert (e ∈ v CtxEvents) as Hin by (rewrite Hv; set_solver).
  destruct (lk_alloc _ _ L e CtxEvents Hin) as [ev Hev]. rewrite (cmd_bind_Ret _ _ _ _ _ (get_event_ok _ _ _ Hev)).
  destruct (so_events _ _ Hok _ _ _ Hin Hev) as (_ & Ht & m & md & Em & Hm & Hdel & Hjob).
  destruct (type_to_string_ok (e_type ev) Ht) as [str Hstr]. rewrite (cmd_bind_Ret _ _ s s str) by (unfold lift; by rewrite Hstr).
  rewrite Hdel, (cmd_bind_Ret _ _ s s tt) by done.
  destruct (next_prev_ok s v CtxEvents l1 e l2 L Hv) as [Hn _]. cbn [nx_event_next]. rewrite (cmd_bind_Ret _ _ _ _ _ Hn).
  assert (e ∉ l1 ++ l2) as Hne. { pose proof (list_nodup s v CtxEvents L) as Hnd. rewrite Hv in Hnd. apply Dlist.NoDup_mid in Hnd. set_solver. }
  assert (stays s (due now) e = negb (due now ev)) as Es by (unfold stays; by rewrite Hev).
  cbn zeta. cbn [List.filter]. rewrite Es. fold (due now ev). simpl in Hl. destruct (due now ev) eqn:Ed; cbn [negb].
  - destruct (dispatch_ok s v l1 e l2 ev Hok Hv Hev) as (s1 & v1 & H1 & Hok1 & St1 & Hv1 & Ev1 & Hq1 & Hqe & Fr1). rewrite cmd_bind_assoc, (cmd_bind_Ret _ _ _ _ _ H1).
    destruct (IH n s1 v1 l1 l2 Hok1 Hv1) as (s2 & v2 & H2 & Hok2 & St2 & Hv2 & Ev2 & Hq2 & Hqr & Fr2); [lia|].
    assert (List.filter (stays s1 (due now)) l2 = List.filter (stays s (due now)) l2) as Ef.
    { apply filter_ext_in. intros x Hx%list_elem_of_In. unfold stays. rewrite Ev1; [done|set_solver]. }
    rewrite Ef in H2, Hv2, Ev2. exists s2, v2. split_and!; [|done|by transitivity s1|done| |eauto| |eapply framed_trans; [exact Fr1|exact Fr2|set_solver]].
    + rewrite H2. do 3 f_equal. apply list_fmap_ext. intros i x Hx%list_elem_of_lookup_2. unfold time_of. rewrite Ev1; [done|]. apply filter_in in Hx. set_solver.
    + intros x Hx. rewrite Ev2, Ev1; [done| |done]. apply elem_of_app in Hx as [Hx|Hx%filter_in]; set_solver.
    + intros e' ev' j He' Hev' Hdue Hj. apply elem_of_cons in He' as [-> |He']; [rewrite Hev in Hev'; injection Hev' as <-; eauto|].
      eapply Hqr; [exact He'|rewrite Ev1; [done|set_solver]|done|]. unfold job_of in *. by destruct St1 as (_ & -> & _).
  - assert (v CtxEvents = (l1 ++ [e]) ++ l2) as Hv' by (by rewrite <- app_assoc).
    destruct (IH (if (e_time ev <? n) || (n =? 0) then e_time ev else n) s v (l1 ++ [e]) l2 Hok Hv') as (s2 & v2 & H2 & Hok2 & St2 & Hv2 & Ev2 & Hq2 & Hqr & Fr2); [lia|].
    rewrite <- app_assoc in Hv2, Ev2. exists s2, v2. split_and!; try done.
    + assert (time_of s e = e_time ev) as Et by (unfold time_of; by rewrite Hev). rewrite fmap_cons, Et. exact H2.
    + intros e' ev' j He' Hev' Hdue Hj. apply elem_of_cons in He' as [-> |He']; [congruence|eauto].
Qed.

(** C9: A pass of the event thread over [ctx->events] at time [now], which is not before
    1970, in a state that satisfies the invariant of the scheduler: the events
    whose time has come leave the list and are in the queues of their jobs (at least
    one event of their type is, and no type leaves a queue), the others stay in
    their order; the pass ends and no assertion fails.  The computed [next_run] is 0
    if no event is left, and otherwise the earliest time of the events left, which is
    in the future, so that the thread waits exactly until then. *)
Theorem event_pass s v now : sched_ok s v -> 0 <= now ->
  exists s' v' n, event_thread_pass now s = (s', Ret n) /\ sched_ok s' v' /\ same_static s s' /\
    v' CtxEvents = List.filter (stays s (due now)) (v CtxEvents) /\
    (forall j t, queued s v j t -> queued s' v' j t) /\
    (forall e ev j, e ∈ v CtxEvents -> s_events s !! e = Some ev -> e_time ev <= now -> job_of s ev = Some j -> queued s' v' j (e_type ev)) /\
    match v' CtxEvents with
    | [] => n = 0 /\ event_thread_wait now n = Some NX_POLL_TIMEOUT
    | _ => now < n /\ event_thread_wait now n = Some (n - now) /\ n ∈ (time_of s' <$> v' CtxEvents) /\ Forall (fun e => n <= time_of s' e) (v' CtxEvents)
    end.
Proof.
  intros Hok Hnow. unfold event_thread_pass. rewrite (cmd_bind_Ret _ _ s s s) by done.
  destruct (first_last_ok s v CtxEvents _ (so_linked _ _ Hok) eq_refl) as [Hf _]. cbn [nx_event_next]. rewrite (cmd_bind_Ret _ _ _ _ _ Hf).
  destruct (event_loop_ok now (list_fuel s) 0 s v [] (v CtxEvents) Hok eq_refl (list_size s v CtxEvents (so_linked _ _ Hok)))
    as (s' & v' & H & Hok' & St & Hv' & Ev & Hq & Hd & _). cbn [app] in Hv', Ev. set (rest := List.filter _ _) in *.
  exists s', v', (next_run_of (time_of s <$> rest) 0). split_and!; try done.
  { intros e ev j He Hev Ht. eapply Hd; [done..|]. by apply Z.leb_le. }
  assert (Forall (fun t => now < t) (time_of s <$> rest)) as Hlater.
  { apply Forall_fmap, Forall_forall. intros x Hx. unfold time_of. apply list_elem_of_In, List.filter_In in Hx as [_ Hx]. unfold stays in Hx.
    cbn [compose]. destruct (s_events s !! x) as [ev|]; [|done]. unfold due in Hx. tests. done. }
  assert (time_of s' <$> rest = time_of s <$> rest) as Et.
  { apply list_fmap_ext. intros i x Hx%list_elem_of_lookup_2. unfold time_of. by rewrite Ev. }
  destruct (next_run_min (time_of s <$> rest) 0) as (H1 & _ & H3 & H4); [eapply Forall_impl; [exact Hlater|]; simpl; lia|done|].
  set (n := next_run_of (time_of s <$> rest) 0) in *. rewrite Hv'. clearbody n. clearbody rest. clear H Hok' Hd Hf.
  destruct rest as [|x rest'] eqn:Erest; [destruct H1 as [-> |H1]; [done|by apply elem_of_nil in H1]|]. rewrite <- Erest in *. rewrite Et.
  assert (0 < n) as Hn. { rewrite Erest in H3. simpl in H3. apply Forall_cons in H3. lia. }
  assert (n ∈ (time_of s <$> rest)) as Hin by (destruct H1; [lia|done]). pose proof (proj1 (Forall_forall _ _) Hlater n Hin) as Hfut.
  simpl in Hfut. split_and!; [done| |done|].
  - unfold event_thread_wait. rewrite (proj2 (Z.ltb_lt 0 n)), (proj2 (Z.ltb_lt 0 (n - now))) by lia. done.
  - rewrite <- Et, Forall_forall in H3. apply Forall_forall. intros y Hy. apply (H3 (time_of s' y)). by apply list_elem_of_fmap_2.
Qed.

End event_thread.

(** ** Building the groups *)

Section init.
Context {X : Type}.
Implicit Types (s : sys X) (v : lref -> list loc).

Definition lower (a b : nx_jobgroup) : Prop := g_priority a < g_priority b.

(** The groups with job [j] at priority [p], for groups in order. *)
Fixpoint place (p : Z) (j : loc) (gs : list nx_jobgroup) : list nx_jobgroup :=
  match gs with
  | [] => [Group None p [j]]
  | g :: gs =>
      if g_priority g =? p then Group (g_last g) (g_priority g) (g_jobs g ++ [j]) :: gs
      else if p <? g_priority g then Group None p [j] :: g :: gs
      else g :: place p j gs
  end.

Lemma find_group_above p gs : Forall (fun g => p < g_priority g) gs -> find_group p gs = None.
Proof. induction 1 as [|g gs Hg _ IH]; [done|]. simpl. rewrite (proj2 (Z.eqb_neq _ _)), IH by lia. done. Qed.

Lemma find_group_priority p gs i : find_group p gs = Some i -> g_priority <$> gs !! i = Some p.
Proof.
  revert i. induction gs as [|g gs IH]; intros i; [done|]. simpl. destruct (g_priority g =? p) eqn:E.
  - intros [= <-]. tests. simpl. by f_equal.
  - destruct (find_group p gs) as [k|]; [|done]. intros [= <-]. by apply IH.
Qed.

Lemma get_jobgroup_place p j gs : StronglySorted lower gs -> 0 < p ->
  exists gs' i, nx_ctx_get_jobgroup p gs = Ret (gs', i) /\ group_add i j gs' = place p j gs /\
    g_priority <$> gs' !! i = Some p.
Proof.
  intros Hs Hp. unfold nx_ctx_get_jobgroup. rewrite (proj2 (Z.ltb_lt 0 p) Hp). cbn [ASSERT mbind outcome_bind].
  assert (match find_group p gs with Some i => group_add i j gs = place p j gs
    | None => group_add (group_place p gs) j (take (group_place p gs) gs ++ Group None p [] :: drop (group_place p gs) gs) = place p j gs /\
       (group_place p gs <= length gs)%nat end) as H.
  { induction Hs as [|g gs Hs IH Hg]; [done|]. cbn [find_group place group_place]. destruct (g_priority g =? p) eqn:E; [done|]. tests.
    destruct (decide (p < g_priority g)) as [Hlt|Hge].
    - rewrite find_group_above; [|eapply Forall_impl; [exact Hg|]; unfold lower; simpl; lia].
      rewrite (proj2 (Z.ltb_ge (g_priority g) p)), (proj2 (Z.ltb_lt p (g_priority g))) by lia. split; [done|lia].
    - rewrite (proj2 (Z.ltb_lt (g_priority g) p)), (proj2 (Z.ltb_ge p (g_priority g))) by lia.
      destruct (find_group p gs); cbn [fmap option_fmap option_map]; [unfold group_add in *; simpl; by f_equal|].
      destruct IH as [IH1 IH2]. split; [unfold group_add in *; simpl; by f_equal|simpl; lia]. }
  destruct (find_group p gs) as [i|] eqn:Ef.
  - exists gs, i. split_and!; [done|done|by apply find_group_priority].
  - destruct H as [H Hl]. do 2 eexists. split; [done|]. split; [done|].
    rewrite lookup_app_r; rewrite length_take; [|lia]. by replace (_ - _)%nat with 0%nat by lia.
Qed.

(** The group of a job. *)
Definition in_group (gs : list nx_jobgroup) (j : loc) (p : Z) : Prop := exists g, g ∈ gs /\ g_priority g = p /\ j ∈ g_jobs g.

Lemma place_group p j gs k q : in_group (place p j gs) k q <-> in_group gs k q \/ (k = j /\ q = p).
Proof.
  unfold in_group. induction gs as [|g gs IH]; cbn [place].
  - split; [intros (g & ->%list_elem_of_singleton & <- & Hk); right; set_solver|]. intros [(g & Hg & _)|[-> ->]]; [set_solver|].
    exists (Group None p [j]). set_solver.
  - destruct (g_priority g =? p) eqn:E; [tests|destruct (p <? g_priority g)].
    + split.
      * intros (g' & [-> |Hg']%elem_of_cons & <- & Hk); [|left; exists g'; set_solver]. simpl in Hk. apply elem_of_app in Hk as [Hk|Hk].
        -- left. exists g. set_solver.
        -- right. simpl. set_solver.
      * intros [(g' & [-> |Hg']%elem_of_cons & <- & Hk)|[-> ->]].
        -- eexists. split; [by left|]. simpl. split; [done|]. set_solver.
        -- exists g'. set_solver.
        -- eexists. split; [by left|]. simpl. split; [done|]. set_solver.
    + split.
      * intros (g' & [-> |Hg']%elem_of_cons & <- & Hk); [right; simpl in *; set_solver|left; eauto].
      * intros [(g' & Hg' & H)|[-> ->]]; [exists g'; split; [by right|done]|]. eexists. split; [by left|]. simpl. set_solver.
    + split.
      * intros (g' & [-> |Hg']%elem_of_cons & <- & Hk); [left; exists g; set_solver|].
        destruct (proj1 IH) as [(g2 & H2)|H2]; [by exists g'|left; exists g2; set_solver|by right].
      * intros [(g' & [-> |Hg']%elem_of_cons & <- & Hk)|H].
        -- exists g. set_solver.
        -- destruct (proj2 IH) as (g2 & H2); [left; by exists g'|]. exists g2. set_solver.
        -- destruct (proj2 IH) as (g2 & H2); [by right|]. exists g2. set_solver.
Qed.

Lemma place_forall (P : nx_jobgroup -> Prop) p j gs : Forall P gs -> P (Group None p [j]) ->
  (forall g, g ∈ gs -> g_priority g = p -> P g -> P (Group (g_last g) (g_priority g) (g_jobs g ++ [j]))) -> Forall P (place p j gs).
Proof.
  intros H Hnew Hadd. induction H as [|g gs Hg Hgs IH]; cbn [place]; [by repeat constructor|].
  destruct (g_priority g =? p) eqn:E; [tests|destruct (p <? g_priority g)].
  - constructor; [apply Hadd; [by left|done|done]|done].
  - by repeat constructor.
  - constructor; [done|]. apply IH. intros g' Hg'. apply Hadd. by right.
Qed.

Lemma place_sorted p j gs : StronglySorted lower gs -> StronglySorted lower (place p j gs).
Proof.
  induction 1 as [|g gs Hs IH Hg]; cbn [place]; [by repeat constructor|].
  destruct (g_priority g =? p) eqn:E1; [tests|destruct (p <? g_priority g) eqn:E2; tests].
  - by constructor.
  - constructor; [by constructor|]. constructor; [done|]. eapply Forall_impl; [exact Hg|]. unfold lower. simpl. lia.
  - constructor; [done|]. apply place_forall; [done|unfold lower; simpl; lia|]. intros g' _ _ H. exact H.
Qed.

(** The state while jobs are created: nothing is queued, and [done] has the modules
    with a job and the priorities of their groups. *)
Record init_ok s (dn : list (loc * Z)) : Prop := {
  io_empty : s_links s = ∅ /\ s_events s = ∅ /\ s_first s = None /\ s_last s = None;
  io_jobs j jb : s_jobs s !! j = Some jb -> jb = Job false None None 0;
  io_sorted : StronglySorted lower (s_groups s);
  io_groups : Forall (fun g => group_ok s g /\ g_last g = None) (s_groups s);
  io_group j p : in_group (s_groups s) j p -> exists m md, (m, p) ∈ dn /\ s_modules s !! m = Some md /\ m_job md = Some j;
  io_module m md j : s_modules s !! m = Some md -> m_job md = Some j ->
    exists p, (m, p) ∈ dn /\ is_Some (s_jobs s !! j) /\ in_group (s_groups s) j p;
  io_done m p : (m, p) ∈ dn -> exists md j, s_modules s !! m = Some md /\ m_job md = Some j /\ in_group (s_groups s) j p;
  io_inj m1 m2 md1 md2 j : s_modules s !! m1 = Some md1 -> s_modules s !! m2 = Some md2 -> m_job md1 = Some j -> m_job md2 = Some j -> m1 = m2
}.

Definition with_job (j : loc) (md : nx_module X) : nx_module X := Mod (Some j) (m_priority md) (m_status md) (m_ext md).

(** A job is created and put in its group. *)
Lemma new_job_ok s dn m md gs' i p : init_ok s dn -> s_modules s !! m = Some md -> m_job md = None ->
  (forall j, group_add i j gs' = place p j (s_groups s)) ->
  exists s' j, new_job m i (with_groups gs' s) = (s', Ret tt) /\ init_ok s' (dn ++ [(m, p)]) /\
    s_modules s' = <[m := with_job j md]> (s_modules s) /\ s_terminating s' = s_terminating s /\
    s_groups s' = place p j (s_groups s).
Proof.
  intros [] Hm Hnone Hadd. unfold new_job. simpl s_modules. rewrite Hm.
  set (j := fresh _). do 2 eexists. split; [reflexivity|]. rewrite Hadd. split_and!; try done.
  assert (s_jobs s !! j = None) as Hfresh by (apply not_elem_of_dom; apply is_fresh).
  assert (forall g, g ∈ s_groups s -> j ∉ g_jobs g) as Hnot.
  { intros g Hg Hj. rewrite Forall_forall in io_groups0. destruct (io_groups0 g Hg) as [[] _]. destruct (go_exist0 j Hj) as [jb Hjb]. simpl in Hjb. congruence. }
  split; simpl.
  - done.
  - intros k jb. destruct (decide (j = k)) as [<- |]; [rewrite lookup_insert_eq; by intros [= <-]|rewrite lookup_insert_ne by done; apply io_jobs0].
  - by apply place_sorted.
  - apply place_forall.
    + eapply Forall_impl; [exact io_groups0|]. intros g [[] Hl]. split; [|done]. split; try done. intros k Hk. simpl.
      destruct (decide (j = k)) as [<- |]; [rewrite lookup_insert_eq; eauto|]. rewrite lookup_insert_ne by done. by apply go_exist0.
    + split; [|done]. split; simpl; [done|apply NoDup_singleton| |done]. intros k ->%list_elem_of_singleton. simpl. rewrite lookup_insert_eq. eauto.
    + intros g Hg Hp [[] Hl]. split; [|done]. split; simpl.
      * by destruct (g_jobs g).
      * apply NoDup_app. split_and!; [done| |apply NoDup_singleton]. intros k Hk ->%list_elem_of_singleton. by apply (Hnot g).
      * intros k Hk. simpl. apply elem_of_app in Hk as [Hk| ->%list_elem_of_singleton]; [by apply go_exist0|rewrite lookup_insert_eq; eauto].
      * intros l Hl'. congruence.
  - intros k q [H|[-> ->]]%place_group.
    + destruct (io_group0 k q H) as (m' & md' & H1 & H2 & H3). exists m', md'. rewrite lookup_insert_ne by congruence. set_solver.
    + exists m, (with_job j md). rewrite lookup_insert_eq. set_solver.
  - intros m' md' k. destruct (decide (m = m')) as [<- |].
    + rewrite lookup_insert_eq. intros [= <-] [= <-]. exists p. rewrite lookup_insert_eq. split; [set_solver|]. split; [eauto|]. apply place_group. by right.
    + rewrite lookup_insert_ne by done. intros H1 H2. destruct (io_module0 m' md' k H1 H2) as (q & Hq & Hk & Hg). exists q. split; [set_solver|].
      split; [|apply place_group; by left]. destruct (decide (j = k)) as [<- |]; [rewrite lookup_insert_eq; eauto|by rewrite lookup_insert_ne].
  - intros m' q [Hq|Hq]%elem_of_app.
    + destruct (io_done0 m' q Hq) as (md' & k & H1 & H2 & H3). exists md', k. rewrite lookup_insert_ne by congruence. split_and!; try done. apply place_group. by left.
    + apply list_elem_of_singleton in Hq as [= -> ->]. exists (with_job j md), j. rewrite lookup_insert_eq. split_and!; try done. apply place_group. by right.
  - assert (forall m' md', s_modules s !! m' = Some md' -> m_job md' <> Some j) as Hno.
    { intros m' md' H1 H2. destruct (io_module0 m' md' j H1 H2) as (_ & _ & [jb Hjb] & _). congruence. }
    intros m1 m2 md1 md2 k. destruct (decide (m = m1)) as [<- |], (decide (m = m2)) as [<- |]; rewrite ?lookup_insert_eq, ?lookup_insert_ne by done; try done.
    + intros [= <-] H2 [= <-] H3. by destruct (Hno _ _ H2).
    + intros H1 [= <-] H3 [= <-]. by destruct (Hno _ _ H1).
    + apply io_inj0.
Qed.

Lemma find_group_sorted p gs i : StronglySorted lower gs -> g_priority <$> gs !! i = Some p -> find_group p gs = Some i.
Proof.
  intros Hs. revert i. induction Hs as [|g gs Hs IH Hg]; intros i Hi; [done|]. simpl. destruct i as [|i].
  - injection Hi as ->. by rewrite Z.eqb_refl.
  - simpl in Hi. rewrite (IH i Hi). apply fmap_Some in Hi as (g' & Hi & ->). rewrite Forall_forall in Hg.
    pose proof (Hg g' (list_elem_of_lookup_2 _ _ _ Hi)) as Hlt. unfold lower in Hlt. by rewrite (proj2 (Z.eqb_neq _ _)) by lia.
Qed.

Lemma group_add_priority i j gs k : g_priority <$> group_add i j gs !! k = g_priority <$> gs !! k.
Proof.
  unfold group_add. destruct (decide (i = k)) as [<- |]; [|by rewrite list_lookup_alter_ne].
  rewrite list_lookup_alter_eq. by destruct (gs !! i).
Qed.

(** Every module of the list has a job at its priority; the last one's group is
    known. *)
Definition with_priority s (m : loc) : loc * Z := (m, match s_modules s !! m with Some md => m_priority md | None => 0 end).

Definition last_group s (dn : list (loc * Z)) (o : option nat) : Prop :=
  match o, last dn with
  | Some i, Some (_, p) => find_group p (s_groups s) = Some i
  | None, None => True
  | _, _ => False
  end.

Lemma init_jobs_loop_ok ms : forall s dn o, init_ok s dn -> last_group s dn o -> NoDup ms ->
  (forall m, m ∈ ms -> exists md, s_modules s !! m = Some md /\ m_job md = None /\ 0 < m_priority md) ->
  exists s' o', init_jobs_loop ms o s = (s', Ret o') /\ init_ok s' (dn ++ (with_priority s <$> ms)) /\
    last_group s' (dn ++ (with_priority s <$> ms)) o' /\
    s_terminating s' = s_terminating s /\ dom (s_modules s') = dom (s_modules s) /\
    (forall m, m ∉ ms -> s_modules s' !! m = s_modules s !! m).
Proof.
  induction ms as [|m ms IH]; intros s dn o Hok Hlast Hnd Hms.
  { exists s, o. rewrite app_nil_r. by split_and!. }
  destruct (Hms m) as (md & Hm & Hnone & Hp); [by left|]. apply NoDup_cons in Hnd as [Hnot Hnd]. cbn [init_jobs_loop].
  rewrite (cmd_bind_Ret _ _ s s md) by (unfold get_module; by rewrite Hm). rewrite (cmd_bind_Ret _ _ s s s) by done.
  destruct (get_jobgroup_place (m_priority md) m (s_groups s) (io_sorted _ _ Hok) Hp) as (gs' & i & Hget & _ & Hi).
  assert (forall j, group_add i j gs' = place (m_priority md) j (s_groups s)) as Hadd.
  { intros j. destruct (get_jobgroup_place (m_priority md) j (s_groups s) (io_sorted _ _ Hok) Hp) as (gs2 & i2 & Hget2 & H2 & _). congruence. }
  rewrite (cmd_bind_Ret _ _ s s (gs', i)) by (unfold lift; by rewrite Hget). cbn [fst snd].
  rewrite (cmd_bind_Ret _ _ s (with_groups gs' s) tt) by done.
  destruct (new_job_ok s dn m md gs' i (m_priority md) Hok Hm Hnone Hadd) as (s1 & j & H1 & Hok1 & HM & HT & HG).
  rewrite (cmd_bind_Ret _ _ _ _ _ H1).
  assert (forall m', m' ∈ ms -> s_modules s1 !! m' = s_modules s !! m') as Hsame.
  { intros m' Hm'. rewrite HM. apply lookup_insert_ne. by intros <-. }
  destruct (IH s1 (dn ++ [(m, m_priority md)]) (Some i) Hok1) as (s2 & o2 & H2 & Hok2 & Hl2 & HT2 & HD2 & HM2).
  - unfold last_group. rewrite last_snoc. apply find_group_sorted; [apply Hok1|]. by rewrite HG, <- Hadd, group_add_priority.
  - done.
  - intros m' Hm'. rewrite Hsame by done. apply Hms. by right.
  - assert (dn ++ (with_priority s <$> m :: ms) = (dn ++ [(m, m_priority md)]) ++ (with_priority s1 <$> ms)) as ->.
    { rewrite fmap_cons, <- app_assoc. f_equal. unfold with_priority at 1. rewrite Hm. cbn [app]. f_equal. apply list_fmap_ext.
      intros k x Hx%list_elem_of_lookup_2. unfold with_priority. by rewrite Hsame. }
    exists s2, o2. split_and!; try done; [congruence|rewrite HD2, HM; by apply dom_insert_lookup_L|].
    intros m' [Hne Hm']%not_elem_of_cons. rewrite HM2, HM by done. by apply lookup_insert_ne.
Qed.

(** No event is queued yet. *)
Lemma init_sched_ok s dn : init_ok s dn -> (forall m md, s_modules s !! m = Some md -> exists j, m_job md = Some j) -> sched_ok s (fun _ => []).
Proof.
  intros [(Hlk & Hev & Hf & Hl) Hj _ _ _ Hm _ Hinj] Hall. split.
  - split.
    + by rewrite Hlk, Hev, !dom_empty_L.
    + intros [|j] d; simpl.
      * rewrite Hf, Hl. intros [= <-]. split_and!; try done. constructor.
      * destruct (s_jobs s !! j) as [jb|] eqn:E; [|done]. rewrite (Hj j jb E). intros [= <-]. split_and!; try done. constructor.
    + done.
    + intros e r1 r2 Hin. set_solver.
    + intros e r Hin. set_solver.
    + intros e k. by rewrite Hlk.
  - intros j jb E. by rewrite (Hj j jb E).
  - split; [|done]. intros m md Hmd. destruct (Hall m md Hmd) as [j E]. rewrite E. by destruct (Hm m md j Hmd E) as (_ & _ & H & _).
  - intros r e ev Hin. set_solver.
  - by rewrite Hev.
Qed.

(** The state before [nx_ctx_init_jobs]: no jobs and events, and the modules with
    their priorities. *)
Record startup (ms : list loc) (core : loc) s : Prop := {
  st_links : s_links s = ∅; st_events : s_events s = ∅; st_first : s_first s = None; st_last : s_last s = None; st_jobs : s_jobs s = ∅;
  st_nodup : NoDup (ms ++ [core]); st_some : ms <> []; st_dom : dom (s_modules s) = list_to_set (ms ++ [core]);
  st_modules m md : s_modules s !! m = Some md -> m_job md = None /\ 0 < m_priority md
}.

Lemma init_jobs_ok ms core s : startup ms core s ->
  exists s', nx_ctx_init_jobs ms core s = (s', Ret tt) /\ sched_ok s' (fun _ => []) /\ groups_ok s' /\
    StronglySorted lower (s_groups s') /\ dom (s_modules s') = dom (s_modules s) /\
    (forall j jb, s_jobs s' !! j = Some jb -> j_busy jb = false) /\
    (forall m, m ∈ ms -> exists md j, s_modules s' !! m = Some md /\ m_job md = Some j /\ in_group (s_groups s') j (with_priority s m).2) /\
    (exists md j m, s_modules s' !! core = Some md /\ m_job md = Some j /\ last ms = Some m /\ in_group (s_groups s') j (with_priority s m).2).
Proof.
  intros [Hlk Hev Hf Hl Hj Hnd Hne Hdom Hmods]. apply NoDup_app in Hnd as (Hnd & Hcore & _).
  assert (forall m, m ∈ ms ++ [core] -> exists md, s_modules s !! m = Some md /\ m_job md = None /\ 0 < m_priority md) as Hall.
  { intros m Hm. assert (m ∈ dom (s_modules s)) as [md Hmd]%elem_of_dom by (rewrite Hdom; by apply elem_of_list_to_set). exists md. split; [done|eauto]. }
  unfold nx_ctx_init_jobs. rewrite (cmd_bind_Ret _ _ s (with_groups [] s) tt) by done. set (s0 := with_groups [] s).
  assert (init_ok s0 []) as Hok0.
  { split; simpl.
    - done.
    - intros j jb. by rewrite Hj.
    - constructor.
    - constructor.
    - intros j p (g & Hg & _). set_solver.
    - intros m md j Hm Hjob. destruct (Hmods m md Hm). congruence.
    - intros m p Hin. set_solver.
    - intros m1 m2 md1 md2 j Hm _ Hjob _. destruct (Hmods m1 md1 Hm). congruence. }
  destruct (init_jobs_loop_ok ms s0 [] None Hok0 I Hnd) as (s1 & o & H1 & Hok1 & Hl1 & HT1 & HD1 & HM1); [intros m Hm; apply Hall; set_solver|].
  rewrite (cmd_bind_Ret _ _ _ _ _ H1). cbn [app] in Hok1, Hl1. set (dn := with_priority s0 <$> ms) in *.
  destruct (last ms) as [ml|] eqn:Elast; [|by apply last_None in Elast].
  unfold last_group in Hl1. subst dn. rewrite fmap_last, Elast in Hl1. cbn [fmap option_fmap option_map] in Hl1.
  change (with_priority s0) with (with_priority s) in *. destruct o as [i|]; [|done].
  destruct (with_priority s ml) as [ml' p] eqn:Ep.
  destruct (Hall core) as (md & Hmd & Hnone & _); [set_solver|].
  assert (s_modules s1 !! core = Some md) as Hmd1 by (rewrite HM1; [done|]; intros H; by apply (Hcore core H), list_elem_of_singleton).
  assert (0 < p) as Hp.
  { assert (ml ∈ ms ++ [core]) as Hin by (apply elem_of_app; left; by apply last_Some_elem_of). destruct (Hall ml Hin) as (mdl & Hml & _ & Hpl).
    unfold with_priority in Ep. rewrite Hml in Ep. congruence. }
  assert (forall j, group_add i j (s_groups s1) = place p j (s_groups s1)) as Hadd.
  { intros j. destruct (get_jobgroup_place p j (s_groups s1) (io_sorted _ _ Hok1) Hp) as (gs2 & i2 & Hget2 & H2 & _).
    unfold nx_ctx_get_jobgroup in Hget2. rewrite (proj2 (Z.ltb_lt 0 p) Hp), Hl1 in Hget2. by injection Hget2 as <- <-. }
  destruct (new_job_ok s1 _ core md (s_groups s1) i p Hok1 Hmd1 Hnone Hadd) as (s2 & j & H2 & Hok2 & HM2 & HT2 & HG2).
  assert (with_groups (s_groups s1) s1 = s1) as Hs1 by (by destruct s1). rewrite Hs1 in H2. exists s2.
  assert (forall m md', s_modules s2 !! m = Some md' -> exists j', m_job md' = Some j') as Hevery.
  { intros m md' Hm'. assert (exists q, (m, q) ∈ (with_priority s <$> ms) ++ [(core, p)]) as [q Hq].
    { assert (m ∈ dom (s_modules s2)) as Hin by (apply elem_of_dom; eauto). rewrite HM2, dom_insert_lookup_L, HD1 in Hin by eauto. simpl in Hin.
      rewrite Hdom in Hin. apply elem_of_list_to_set in Hin. apply elem_of_app in Hin as [Hin| ->%list_elem_of_singleton]; [|exists p; set_solver].
      exists (with_priority s m).2. apply elem_of_app. left. by apply (list_elem_of_fmap_2 (with_priority s) ms m) in Hin. }
    destruct (io_done _ _ Hok2 m q Hq) as (md2 & j' & Hm2 & Hj' & _). exists j'. congruence. }
  split_and!.
  - done.
  - by apply (init_sched_ok s2 ((with_priority s <$> ms) ++ [(core, p)])).
  - unfold groups_ok. eapply Forall_impl; [apply Hok2|]. by intros g [H _].
  - apply Hok2.
  - rewrite HM2, dom_insert_lookup_L, HD1 by eauto. done.
  - intros k jb Hk. by rewrite (io_jobs _ _ Hok2 k jb Hk).
  - intros m Hm. destruct (io_done _ _ Hok2 m (with_priority s m).2) as (md' & j' & H); [|by exists md', j'].
    apply elem_of_app. left. by apply (list_elem_of_fmap_2 (with_priority s) ms m) in Hm.
  - destruct (io_done _ _ Hok2 core p) as (md' & j' & H3 & H4 & H5); [set_solver|]. exists md', j', ml. rewrite Ep. done.
Qed.

(** [nx_ctx_init_jobs] gives every module a job of its own with an empty queue,
    in the group of the module's priority; the groups are in strictly increasing
    order of priority; the core module's job goes to the group of the last module,
    whatever the priority of the core module is.  The invariants of the queues and
    of the groups hold afterwards. *)
Theorem init_jobs ms core s : startup ms core s ->
  exists s', nx_ctx_init_jobs ms core s = (s', Ret tt) /\ sched_ok s' (fun _ => []) /\ groups_ok s' /\
    StronglySorted lower (s_groups s') /\
    (forall m, m ∈ ms -> exists md j, s_modules s' !! m = Some md /\ m_job md = Some j /\ in_group (s_groups s') j (with_priority s m).2) /\
    (exists md j m, s_modules s' !! core = Some md /\ m_job md = Some j /\ last ms = Some m /\ in_group (s_groups s') j (with_priority s m).2).
Proof. intros H. destruct (init_jobs_ok ms core s H) as (s' & ? & ? & ? & ? & _ & _ & ?). by exists s'. Qed.

End init.

(** ** The threads together *)

Section run.
Context {X : Type}.
Implicit Types (s : sys X) (v : lref -> list loc).

(** A worker thread: about to call [nx_ctx_next_job], waiting for [worker_cond],
    or processing an event of a job. *)
Inductive worker := WIdle | WWaiting | WBusy (j e : loc).

Record conf := Conf { c_sys : sys X; c_workers : list worker }.

(** What the code of the modules does to the queues. *)
Inductive call :=
| CallAdd (threads : bool) (ev : nx_event)            (* a new event is filled in and added *)
| CallRemove (e : loc)                                (* nx_event_remove and nx_event_free *)
| CallRemoveEvents (m : loc)
| CallRemoveScheduled (m : loc)
| CallRemoveByData (m : loc) (d : option loc)
| CallRemoveByType (m : loc) (t : nx_event_type).

Definition run_call (c : call) : cmd (sys X) unit :=
  match c with
  | CallAdd threads ev => e ← nx_event_new; _ ← put_event e ev; nx_event_add threads e
  | CallRemove e => _ ← nx_event_remove e; nx_event_free e
  | CallRemoveEvents m => nx_module_remove_events m
  | CallRemoveScheduled m => nx_module_remove_scheduled_events m
  | CallRemoveByData m d => nx_module_remove_events_by_data m d
  | CallRemoveByType m t => nx_module_remove_events_by_type m t
  end.

(** What the callers take care of: an added event has its fields set and memory is
    left for it; a removed event is in a list; modules exist. *)
Definition call_ok (c : call) s : Prop :=
  match c with
  | CallAdd _ ev => e_priority ev <> 0 /\ e_type ev <> NX_EVENT_NONE /\ e_job ev = None /\
      (exists m, e_module ev = Some m /\ is_Some (s_modules s !! m)) /\ Z.of_nat (size (s_events s)) + 1 < 2 ^ 32
  | CallRemove e => forall v, linked s v -> exists r, e ∈ v r
  | CallRemoveEvents m | CallRemoveScheduled m | CallRemoveByData m _ | CallRemoveByType m _ => is_Some (s_modules s !! m)
  end.

(** The steps of the threads. *)
Inductive action :=
| Take (i : nat)             (* worker [i] calls [nx_ctx_next_job] *)
| Done (i : nat)             (* worker [i] has processed its event *)
| Call (c : call)            (* a module changes the queues *)
| Pass (now : Z)             (* a pass of the event thread *)
| Terminate.                 (* [nxlog->terminating] is set *)

Definition enabled (a : action) (c : conf) : Prop :=
  match a with
  | Take i => c_workers c !! i = Some WIdle \/ c_workers c !! i = Some WWaiting
  | Done i => exists j e, c_workers c !! i = Some (WBusy j e)
  | Call k => call_ok k (c_sys c)
  | Pass now => True
  | Terminate => True
  end.

Definition with_terminating (b : bool) s : sys X :=
  Sys (s_links s) (s_events s) (s_jobs s) (s_first s) (s_last s) (s_groups s) (s_modules s) b (s_worker_signals s) (s_event_signals s).

(** An operation of a thread and the workers afterwards. *)
Definition act_with {A} (m : cmd (sys X) A) (ws : A -> list worker) (c : conf) : conf * outcome unit :=
  match m (c_sys c) with
  | (s', Ret a) => (Conf s' (ws a), Ret tt)
  | (s', Throw e) => (Conf s' (c_workers c), Throw e)
  | (s', Panic e) => (Conf s' (c_workers c), Panic e)
  | (s', Undef e) => (Conf s' (c_workers c), Undef e)
  end.

(** A worker without a job waits for a signal; after the signal it tries once more
    and then starts again. *)
Definition after_take (w : worker) (r : option (loc * loc)) : worker :=
  match r, w with
  | Some (j, e), _ => WBusy j e
  | None, WIdle => WWaiting
  | None, _ => WIdle
  end.

Definition act (a : action) (c : conf) : conf * outcome unit :=
  match a with
  | Take i => act_with worker_take (fun r => alter (fun w => after_take w r) i (c_workers c)) c
  | Done i =>
      match c_workers c !! i with
      | Some (WBusy j e) => act_with (worker_done j e) (fun _ => <[i := WIdle]> (c_workers c)) c
      | _ => (c, Ret tt)
      end
  | Call k => act_with (run_call k) (fun _ => c_workers c) c
  | Pass now => act_with (event_thread_pass now) (fun _ => c_workers c) c
  | Terminate => (Conf (with_terminating true (c_sys c)) (c_workers c), Ret tt)
  end.

(** The configurations that are reached from the start of the program. *)
Inductive reachable (ms : list loc) (core : loc) : conf -> Prop :=
| reach_start s s' n : startup ms core s -> nx_ctx_init_jobs ms core s = (s', Ret tt) ->
    reachable ms core (Conf s' (replicate n WIdle))
| reach_step c a c' : reachable ms core c -> enabled a c -> act a c = (c', Ret tt) -> reachable ms core c'.

(** The invariant: the queues and groups are well formed; what a worker holds is a
    busy job and an allocated event that is in no list; two workers never hold the
    same job or event; a busy job is held. *)
Record run_ok (c : conf) v : Prop := {
  ro_sched : sched_ok (c_sys c) v;
  ro_groups : groups_ok (c_sys c);
  ro_held i j e : c_workers c !! i = Some (WBusy j e) ->
    is_Some (s_events (c_sys c) !! e) /\ absent e v /\ j_busy <$> s_jobs (c_sys c) !! j = Some true;
  ro_excl i k j1 j2 e1 e2 : i <> k -> c_workers c !! i = Some (WBusy j1 e1) -> c_workers c !! k = Some (WBusy j2 e2) -> j1 <> j2 /\ e1 <> e2;
  ro_busy j : j_busy <$> s_jobs (c_sys c) !! j = Some true -> exists i e, c_workers c !! i = Some (WBusy j e)
}.

(** Allocated events that are in no list stay as they are. *)
Definition held_kept s v s' (v' : lref -> list loc) : Prop :=
  forall x, absent x v -> is_Some (s_events s !! x) -> s_events s' !! x = s_events s !! x /\ absent x v'.

Lemma framed_kept new s v s' v' : framed new s v s' v' -> (forall x, x ∈ new -> s_events s !! x = None \/ ~ absent x v) -> held_kept s v s' v'.
Proof. intros Fr Hn x Hx Ha. apply Fr; [done|]. intros Hin. destruct (Hn x Hin) as [E|E]; [rewrite E in Ha; by destruct Ha|done]. Qed.

(** Steps that leave the workers alone. *)
Lemma run_frame c s' v v' : run_ok c v -> sched_ok s' v' -> same_static (c_sys c) s' -> held_kept (c_sys c) v s' v' ->
  run_ok (Conf s' (c_workers c)) v'.
Proof.
  intros [] Hok St Fr. split; simpl; [done|by eapply static_groups| |done|].
  - intros i j e Hi. destruct (ro_held0 i j e Hi) as (He & Ha & Hb). destruct (Fr e Ha He) as [E1 A1]. rewrite E1.
    destruct St as (_ & _ & _ & ->). done.
  - intros j. destruct St as (_ & _ & _ & ->). apply ro_busy0.
Qed.

(** A new event is filled in and added. *)
Lemma new_event_ok threads s v ev : sched_ok s v -> call_ok (CallAdd threads ev) s ->
  exists s' v', run_call (CallAdd threads ev) s = (s', Ret tt) /\ sched_ok s' v' /\ same_static s s' /\ held_kept s v s' v' /\
    (size (s_events s') <= S (size (s_events s)))%nat.
Proof.
  intros Hok (Hp & Ht & Hj & (m & Hm & [md Hmd]) & Hsz). cbn [run_call].
  destruct (event_new_ok s v Hok Hsz) as (s1 & e & H1 & Hok1 & St1 & _ & Hnew & Ha & Ev1). rewrite (cmd_bind_Ret _ _ _ _ _ H1).
  destruct (put_event_ok s1 v e ev Hok1 Ha) as (s2 & H2 & Hok2 & St2 & _ & Ev2); [rewrite Ev1, lookup_insert_eq; eauto|].
  rewrite (cmd_bind_Ret _ _ _ _ _ H2). assert (same_static s s2) as St by (by transitivity s1). pose proof St as (_ & HM & _).
  assert (addable s2 v e ev) as Had. { split; [by rewrite Ev2, lookup_insert_eq|done|done|done|]. exists m, md. by rewrite HM. }
  destruct (event_add_ok threads s2 v e ev Hok2 Had ltac:(done)) as (s3 & v3 & H3 & Hok3 & St3 & _ & Fr3 & Hsz3).
  exists s3, v3. split_and!; [done|done|by transitivity s2| |].
  2:{ rewrite Ev2, Ev1, insert_insert_eq, map_size_insert_None in Hsz3 by done. done. }
  intros x Hx Hal. assert (x <> e) as Hne by (intros ->; rewrite Hnew in Hal; by destruct Hal).
  destruct (Fr3 x Hx) as [E A]; [by rewrite list_elem_of_singleton|]. rewrite E, Ev2, Ev1, !lookup_insert_ne by done. done.
Qed.

Lemma call_add_ok threads s v ev : sched_ok s v -> call_ok (CallAdd threads ev) s ->
  exists s' v', run_call (CallAdd threads ev) s = (s', Ret tt) /\ sched_ok s' v' /\ same_static s s' /\ held_kept s v s' v'.
Proof. intros Hok Hc. destruct (new_event_ok threads s v ev Hok Hc) as (s' & v' & ? & ? & ? & ? & _). eauto 10. Qed.

Lemma call_remove_ok s v e : sched_ok s v -> call_ok (CallRemove e) s ->
  exists s' v', run_call (CallRemove e) s = (s', Ret tt) /\ sched_ok s' v' /\ same_static s s' /\ held_kept s v s' v'.
Proof.
  intros Hok Hc. destruct (Hc v (so_linked _ _ Hok)) as [r Hr]. apply list_elem_of_split in Hr as (l1 & l2 & Hv). cbn [run_call].
  destruct (event_remove_ok s v r l1 e l2 Hok Hv) as (s1 & H1 & Hok1 & St1 & Ev1). rewrite (cmd_bind_Ret _ _ _ _ _ H1).
  pose proof (list_nodup s v r (so_linked _ _ Hok)) as Hnd. rewrite Hv in Hnd. apply Dlist.NoDup_mid in Hnd as (Hn1 & Hn2 & _).
  assert (absent e (<[r := l1 ++ l2]> v)) as Ha.
  { intros r'. destruct (decide (r = r')) as [<- |Hne]; [rewrite fn_lookup_insert; set_solver|]. rewrite fn_lookup_insert_ne by done.
    intros Hin. apply Hne. eapply (lk_disj _ _ (so_linked _ _ Hok)); [|exact Hin]. rewrite Hv. set_solver. }
  destruct (free_ok s1 _ e Hok1 Ha) as (s2 & H2 & Hok2 & St2 & Ev2).
  { rewrite Ev1. apply (lk_alloc _ _ (so_linked _ _ Hok) e r). rewrite Hv. set_solver. }
  do 2 eexists. split_and!; [exact H2|exact Hok2|by transitivity s1|]. intros x Hx _. pose proof (Hx r) as Hxr. rewrite Hv in Hxr.
  rewrite Ev2, Ev1 by set_solver. split; [done|]. apply absent_insert; [done|set_solver].
Qed.

Lemma call_sweep_ok act s v m p1 p2 : act_ok act -> sched_ok s v -> is_Some (s_modules s !! m) ->
  exists s' v', (_ ← sweep_list CtxEvents p1 act;
              md ← get_module m;
              match m_job md with Some j => sweep_list (JobEvents j) p2 act | None => mret tt end) s = (s', Ret tt) /\
    sched_ok s' v' /\ same_static s s' /\ held_kept s v s' v'.
Proof.
  intros Ha Hok [md Hm]. destruct (sweep_both_ok act s v m md p1 p2 Ha Hok Hm) as (s' & H & Hok' & St & Fr).
  do 2 eexists. split_and!; [exact H|exact Hok'|done|]. eapply framed_kept; [exact Fr|]. intros x Hx. set_solver.
Qed.

Lemma run_call_ok k s v : sched_ok s v -> call_ok k s ->
  exists s' v', run_call k s = (s', Ret tt) /\ sched_ok s' v' /\ same_static s s' /\ held_kept s v s' v'.
Proof.
  intros Hok Hc. destruct k; [by apply call_add_ok|by apply call_remove_ok|by apply call_sweep_ok; [apply clear_job_ok| |]| |
    by apply call_sweep_ok; [apply free_ok| |]|by apply call_sweep_ok; [apply free_ok| |]].
  cbn [run_call]. unfold nx_module_remove_scheduled_events.
  destruct (sweep_list_ok clear_job CtxEvents (fun ev => of_module m ev && of_type NX_EVENT_SCHEDULE ev) s v clear_job_ok Hok ltac:(done)) as (s' & H & Hok' & St & Ev).
  do 2 eexists. split_and!; [exact H|exact Hok'|done|]. intros x Hx _. split; [apply Ev; left; apply Hx|]. apply absent_insert; [done|].
  intros Hin%filter_in. by apply (Hx CtxEvents).
Qed.

Lemma pass_ok now s v : sched_ok s v ->
  exists s' v' n, event_thread_pass now s = (s', Ret n) /\ sched_ok s' v' /\ same_static s s' /\ held_kept s v s' v'.
Proof.
  intros Hok. unfold event_thread_pass. rewrite (cmd_bind_Ret _ _ s s s) by done.
  destruct (first_last_ok s v CtxEvents _ (so_linked _ _ Hok) eq_refl) as [Hf _]. cbn [nx_event_next]. rewrite (cmd_bind_Ret _ _ _ _ _ Hf).
  destruct (event_loop_ok now (list_fuel s) 0 s v [] (v CtxEvents) Hok eq_refl (list_size s v CtxEvents (so_linked _ _ Hok)))
    as (s' & v' & H & Hok' & St & _ & _ & _ & _ & Fr). do 3 eexists. split_and!; [exact H|exact Hok'|done|].
  eapply framed_kept; [exact Fr|]. intros x Hx. set_solver.
Qed.

(** ** Workers *)

Lemma set_busy_ok s v j b : sched_ok s v -> is_Some (s_jobs s !! j) ->
  exists s', set_busy j b s = (s', Ret tt) /\ sched_ok s' v /\ s_events s' = s_events s /\ s_groups s' = s_groups s /\
    (forall k, is_Some (s_jobs s' !! k) <-> is_Some (s_jobs s !! k)) /\
    (forall k, j_busy <$> s_jobs s' !! k = if decide (k = j) then Some b else j_busy <$> s_jobs s !! k).
Proof.
  intros [[] Hc Hm He Hs] [jb Hj]. unfold set_busy. rewrite (cmd_bind_Ret _ _ s s jb) by (unfold get_job; by rewrite Hj).
  eexists. split; [reflexivity|]. set (s' := with_jobs _ s). assert (forall r, list_of r s' = list_of r s) as Hl.
  { intros [|k]; [done|]. subst s'. simpl. destruct (decide (j = k)) as [<- |]; [by rewrite lookup_insert_eq, Hj|by rewrite lookup_insert_ne]. }
  assert (forall k, is_Some (s_jobs s' !! k) <-> is_Some (s_jobs s !! k)) as Hiff.
  { intros k. subst s'. simpl. destruct (decide (j = k)) as [<- |]; [rewrite lookup_insert_eq, Hj; split; eauto|by rewrite lookup_insert_ne]. }
  split_and!; try done.
  - split; try done.
    + split; try done; intros r; rewrite Hl; auto.
    + intros k job. subst s'. simpl. destruct (decide (j = k)) as [<- |]; [|rewrite lookup_insert_ne by done; apply Hc].
      rewrite lookup_insert_eq. intros [= <-]. simpl. by apply Hc.
    + split; [|apply Hm]. intros m md Hmd. pose proof (proj1 Hm m md Hmd) as H. destruct (m_job md); [by apply Hiff|done].
  - intros k. subst s'. simpl. destruct (decide (k = j)) as [-> |]; [by rewrite lookup_insert_eq|by rewrite lookup_insert_ne].
Qed.

Lemma alter_busy f i k (ws : list worker) j e : alter f i ws !! k = Some (WBusy j e) ->
  (k <> i /\ ws !! k = Some (WBusy j e)) \/ (k = i /\ exists w, ws !! i = Some w /\ f w = WBusy j e).
Proof.
  destruct (decide (i = k)) as [<- |Hne]; [|rewrite list_lookup_alter_ne by done; auto].
  rewrite list_lookup_alter_eq. intros (w & Hw & Hf)%fmap_Some. right. eauto.
Qed.

Lemma take_ok c v i : run_ok c v -> enabled (Take i) c -> exists c' v', act (Take i) c = (c', Ret tt) /\ run_ok c' v'.
Proof.
  intros Hro Hen. pose proof Hro as []. cbn [act]. unfold act_with, worker_take.
  destruct (next_job_ok (c_sys c) v ro_sched0 ro_groups0) as (s1 & n & r & H1 & St1 & Hg1 & Ev1 & Hr).
  rewrite (cmd_bind_Ret _ _ _ _ _ H1). pose proof St1 as (HG & HM & HT & HB). simpl in HB.
  assert (forall w, c_workers c !! i = Some w -> w = WIdle \/ w = WWaiting) as Hw by (intros w Hwi; destruct Hen as [Hen|Hen]; simplify_eq; auto).
  destruct r as [[j e]|].
  - destruct Hr as (l & _ & _ & _ & _ & _ & (jb & Hj & Hrun) & Hv & Hok1 & Ha1). unfold runnable in Hrun. tests.
    pose proof (HB j) as Hbj. rewrite Hj in Hbj. destruct (s_jobs s1 !! j) as [jb1|] eqn:Hj1; [|done]. injection Hbj as Hbj.
    rewrite (cmd_bind_Ret _ _ s1 s1 jb1) by (unfold get_job; by rewrite Hj1). rewrite (cmd_bind_Ret _ _ s1 s1 tt) by (unfold lift; by rewrite Hbj, H).
    destruct (set_busy_ok s1 _ j true Hok1) as (s2 & H2 & Hok2 & Ev2 & HG2 & Hex & Hbusy); [eauto|]. rewrite (cmd_bind_Ret _ _ _ _ _ H2).
    assert (e ∈ v (JobEvents j)) as Hin by (rewrite Hv; by left).
    assert (forall k j' e', c_workers c !! k = Some (WBusy j' e') -> j' <> j /\ e' <> e) as Hother.
    { intros k j' e' Hk. destruct (ro_held0 k j' e' Hk) as (_ & Ha & Hb). split; [intros ->; rewrite Hj in Hb; simpl in Hb; congruence|].
      intros ->. by apply (Ha (JobEvents j)). }
    eexists _, (<[JobEvents j := l]> v). split; [reflexivity|]. split; simpl.
    + done.
    + unfold groups_ok. rewrite HG2. eapply groups_exist; [|exact Hg1]. intros k. by apply Hex.
    + intros k j' e' [[Hne Hk]|[-> (w & Hw1 & Hf)]]%alter_busy.
      * destruct (ro_held0 k j' e' Hk) as (He & Ha & Hb). destruct (Hother k j' e' Hk). rewrite Ev2, Ev1, Hbusy, decide_False, HB by done. split_and!; try done.
        apply absent_insert; [done|]. specialize (Ha (JobEvents j)). rewrite Hv in Ha. set_solver.
      * assert (j' = j /\ e' = e) as [-> ->] by (destruct (Hw w Hw1) as [-> | ->]; by simplify_eq/=). rewrite Ev2, Ev1, Hbusy, decide_True by done.
        split_and!; try done. by apply (lk_alloc _ _ (so_linked _ _ ro_sched0) e (JobEvents j)).
    + intros a b j1 j2 e1 e2 Hab [[Ha Hka]|[-> (w & Hw1 & Hf)]]%alter_busy [[Hb Hkb]|[-> (w' & Hw1' & Hf')]]%alter_busy; try done.
      * by apply (ro_excl0 a b).
      * assert (j2 = j /\ e2 = e) as [-> ->] by (destruct (Hw w' Hw1') as [-> | ->]; by simplify_eq/=). by apply (Hother a).
      * assert (j1 = j /\ e1 = e) as [-> ->] by (destruct (Hw w Hw1) as [-> | ->]; by simplify_eq/=). destruct (Hother b j2 e2 Hkb). split; congruence.
    + intros k. rewrite Hbusy. destruct (decide (k = j)) as [-> |]; intros Hk.
      * exists i, e. rewrite list_lookup_alter_eq. destruct Hen as [-> | ->]; done.
      * rewrite HB in Hk. destruct (ro_busy0 k Hk) as (a & e' & Ha). exists a, e'. rewrite list_lookup_alter_ne; [done|]. intros ->. by destruct (Hw _ Ha).
  - destruct Hr as [Hok1 _]. eexists _, v. split; [reflexivity|].
    assert (forall k j e, alter (fun w => after_take w None) i (c_workers c) !! k = Some (WBusy j e) -> c_workers c !! k = Some (WBusy j e)) as Hback.
    { intros k j e [[_ Hk]|[_ (w & Hw1 & Hf)]]%alter_busy; [done|]. by destruct (Hw w Hw1) as [-> | ->]. }
    split; simpl; [done|done| | |].
    + intros k j e Hk%Hback. rewrite Ev1, HB. by apply (ro_held0 k).
    + intros a b j1 j2 e1 e2 Hab Ha%Hback Hb%Hback. by apply (ro_excl0 a b).
    + intros j Hj. rewrite HB in Hj. destruct (ro_busy0 j Hj) as (k & e & Hk). exists k, e. rewrite list_lookup_alter_ne; [done|].
      intros ->. by destruct (Hw _ Hk).
Qed.

Lemma done_ok c v i : run_ok c v -> enabled (Done i) c -> exists c' v', act (Done i) c = (c', Ret tt) /\ run_ok c' v'.
Proof.
  intros Hro (j & e & Hi). pose proof Hro as []. destruct (ro_held0 i j e Hi) as (He & Ha & Hb). cbn [act]. rewrite Hi. unfold act_with, worker_done.
  destruct (free_ok (c_sys c) v e ro_sched0 Ha He) as (s1 & H1 & Hok1 & St1 & Ev1). rewrite (cmd_bind_Ret _ _ _ _ _ H1). pose proof St1 as (_ & _ & _ & HB).
  destruct (set_busy_ok s1 v j false Hok1) as (s2 & H2 & Hok2 & Ev2 & HG2 & Hex & Hbusy).
  { eapply static_exist; [exact St1|]. destruct (s_jobs (c_sys c) !! j); [eauto|done]. }
  rewrite H2. eexists _, v. split; [reflexivity|].
  assert (forall k j' e', <[i := WIdle]> (c_workers c) !! k = Some (WBusy j' e') -> k <> i /\ c_workers c !! k = Some (WBusy j' e')) as Hback.
  { intros k j' e'. destruct (decide (i = k)) as [<- |]; [|rewrite list_lookup_insert_ne by done; auto].
    rewrite list_lookup_insert_eq; [done|]. by apply lookup_lt_Some in Hi. }
  split; simpl; [done| | | |].
  - unfold groups_ok. rewrite HG2. eapply groups_exist; [|exact (static_groups _ _ St1 ro_groups0)]. intros k. by apply Hex.
  - intros k j' e' [Hne Hk]%Hback. destruct (ro_held0 k j' e' Hk) as (He' & Ha' & Hb'). destruct (ro_excl0 k i j' j e' e Hne Hk Hi).
    rewrite Ev2, Ev1, Hbusy, decide_False, HB by done. done.
  - intros a b j1 j2 e1 e2 Hab [_ H1']%Hback [_ H2']%Hback. by apply (ro_excl0 a b).
  - intros k. rewrite Hbusy. destruct (decide (k = j)) as [-> |Hne]; [done|]. rewrite HB. intros Hk. destruct (ro_busy0 k Hk) as (a & e' & Hka). exists a, e'.
    rewrite list_lookup_insert_ne; [done|]. intros <-. congruence.
Qed.

(** Every enabled step succeeds and keeps the invariant. *)
Lemma act_run_ok a c v : run_ok c v -> enabled a c -> exists c' v', act a c = (c', Ret tt) /\ run_ok c' v'.
Proof.
  intros Hro Hen. destruct a as [i|i|k|now| ]; [by eapply take_ok|by eapply done_ok| | |].
  - destruct (run_call_ok k (c_sys c) v (ro_sched _ _ Hro) Hen) as (s' & v' & H & Hok & St & Hk). cbn [act]. unfold act_with. rewrite H.
    eexists _, v'. split; [reflexivity|]. by eapply run_frame.
  - destruct (pass_ok now (c_sys c) v (ro_sched _ _ Hro)) as (s' & v' & n & H & Hok & St & Hk). cbn [act]. unfold act_with. rewrite H.
    eexists _, v'. split; [reflexivity|]. by eapply run_frame.
  - eexists _, v. split; [reflexivity|]. destruct Hro as [[[] Hc [Hm1 Hm2] He Hs] Hg Hh Hx Hb]. split; try done.
    + split; try done. split; [|done]. intros m md Hmd. specialize (Hm1 m md Hmd). by destruct (m_job md).
    + unfold groups_ok in *. simpl. eapply groups_exist; [|exact Hg]. done.
Qed.

Lemma reachable_ok ms core c : reachable ms core c -> exists v, run_ok c v.
Proof.
  induction 1 as [s s' n Hst H|c a c' _ [v Hro] Hen H].
  - destruct (init_jobs_ok ms core s Hst) as (s1 & H1 & Hok & Hg & _ & _ & Hb & _). rewrite H in H1. injection H1 as <-. exists (fun _ => []).
    assert (forall i j e, replicate n WIdle !! i <> Some (WBusy j e)) as Hno by (intros i j e [? _]%lookup_replicate; done).
    split; simpl; [done|done|intros i j e Hi; by destruct (Hno i j e)|intros i k j1 j2 e1 e2 _ Hi; by destruct (Hno i j1 e1)|].
    intros j (jb & Hj & E)%fmap_Some. rewrite (Hb j jb Hj) in E. done.
  - destruct (act_run_ok a c v Hro Hen) as (c1 & v1 & H1 & Hro1). rewrite H in H1. injection H1 as <-. eauto.
Qed.

(** C6: From the start of the program ([nx_ctx_init_jobs] for modules of positive
    priority), however the steps of the worker threads, of the event thread and of the
    modules' calls are interleaved, no step fails: no assertion of the queues or of the
    workers is violated and the scheduler itself uses no event after it was freed.
    The modules are trusted to respect the interface: an event that a module adds has a
    type, a priority other than 0, a module that exists and no job yet, and fewer than
    2^32 events are allocated; a sweep ([nx_module_remove_events] and its variants) is
    for a module that exists; and a module hands to [nx_event_remove] and
    [nx_event_free] only an event that still is in one of the lists.  The last is not
    proved of any module here: a module that keeps the pointer of an event that was freed
    breaks it, as [pm_evcorr] does in the cases listed in [EvcorrSafe]. *)
Theorem threads_safe ms core c a : reachable ms core c -> enabled a c -> exists c', act a c = (c', Ret tt).
Proof.
  intros Hr Hen. destruct (reachable_ok ms core c Hr) as [v Hro]. destruct (act_run_ok a c v Hro Hen) as (c' & _ & H & _). eauto.
Qed.

(** C7: At any time two workers process events of different jobs; what a worker has
    is an allocated event that is in no list any more, and its job is marked busy; a
    job is marked busy only while a worker has it. *)
Theorem workers_exclusive ms core c : reachable ms core c ->
  (forall i k j1 j2 e1 e2, i <> k -> c_workers c !! i = Some (WBusy j1 e1) -> c_workers c !! k = Some (WBusy j2 e2) -> j1 <> j2 /\ e1 <> e2) /\
  (forall i j e, c_workers c !! i = Some (WBusy j e) -> j_busy <$> s_jobs (c_sys c) !! j = Some true /\ is_Some (s_events (c_sys c) !! e)) /\
  (forall j jb, s_jobs (c_sys c) !! j = Some jb -> j_busy jb = true -> exists i e, c_workers c !! i = Some (WBusy j e)) /\
  exists v, sched_ok (c_sys c) v /\ forall i j e, c_workers c !! i = Some (WBusy j e) -> absent e v.
Proof.
  intros Hr. destruct (reachable_ok ms core c Hr) as [v []]. split_and!.
  - done.
  - intros i j e Hi. destruct (ro_held0 i j e Hi) as (? & _ & ?). done.
  - intros j jb Hj Hb. apply ro_busy0. by rewrite Hj, <- Hb.
  - exists v. split; [done|]. intros i j e Hi. by apply (ro_held0 i j e Hi).
Qed.

End run.

(** ** A small system

    Two modules with priorities 11 and 99 and the core module; two workers. *)

Definition small : sys unit :=
  Sys ∅ ∅ ∅ None None []
    (<[1%positive := Mod None 11 NX_MODULE_STATUS_UNINITIALIZED tt]> (<[2%positive := Mod None 99 NX_MODULE_STATUS_UNINITIALIZED tt]>
      (<[3%positive := Mod None 1 NX_MODULE_STATUS_UNINITIALIZED tt]> ∅))) false 0 0.

Definition small_modules : list loc := [1%positive; 2%positive].

Lemma small_startup : startup small_modules 3%positive small.
Proof.
  split; try done; [by apply (bool_decide_unpack _)|].
  assert (map_Forall (fun _ md => m_job md = None /\ 0 < m_priority md) (s_modules small)) as H by (by apply (bool_decide_unpack _)).
  exact H.
Qed.

(** The events of the module at [m]: to be read, and to be read at a time. *)
Definition read_event (m : loc) : nx_event := Ev (Some m) NX_EVENT_READ false 0 None 11 None.
Definition read_at (m : loc) (t : Z) : nx_event := Ev (Some m) NX_EVENT_READ true t None 11 None.

Definition conf0 : conf := Conf (nx_ctx_init_jobs small_modules 3%positive small).1 (replicate 2 WIdle).
Definition conf1 : conf := (act (Call (CallAdd true (read_event 1%positive))) conf0).1.
Definition conf2 : conf := (act (Call (CallAdd true (read_at 2%positive 50))) conf1).1.
Definition conf3 : conf := (act (Call (CallAdd true (read_at 2%positive 200))) conf2).1.

Lemma small_add (ev : nx_event) (c c' : conf (X := unit)) : reachable small_modules 3%positive c ->
  bool_decide (e_priority ev <> 0 /\ e_type ev <> NX_EVENT_NONE /\ e_job ev = None) &&
    match e_module ev with Some m => bool_decide (is_Some (s_modules (c_sys c) !! m)) | None => false end &&
    (Z.of_nat (size (s_events (c_sys c))) + 1 <? 2 ^ 32) = true ->
  act (Call (CallAdd true ev)) c = (c', Ret tt) -> reachable small_modules 3%positive c'.
Proof.
  intros Hc Hb Ha. apply (reach_step _ _ c (Call (CallAdd true ev))); [done| |done]. tests. simpl.
  destruct (e_module ev) as [m|] eqn:E; [|done]. tests. split_and!; try tauto. by exists m.
Qed.

Lemma small_reachable : reachable small_modules 3%positive conf0 /\ reachable small_modules 3%positive conf1 /\
  reachable small_modules 3%positive conf3.
Proof.
  assert (reachable small_modules 3%positive conf0) as H0 by (apply (reach_start _ _ small); [apply small_startup|vm_compute; reflexivity]).
  assert (reachable small_modules 3%positive conf1) as H1 by (apply (small_add (read_event 1%positive) conf0); [done|vm_compute; reflexivity..]).
  split_and!; [done|done|]. apply (small_add (read_at 2%positive 200) conf2); [|vm_compute; reflexivity..].
  apply (small_add (read_at 2%positive 50) conf1); [done|vm_compute; reflexivity..].
Qed.

Definition conf4 : conf := (act (Take 0) conf1).1.

Lemma small_held : reachable small_modules 3%positive conf4.
Proof. apply (reach_step _ _ conf1 (Take 0)); [apply small_reachable|left; vm_compute; reflexivity|vm_compute; reflexivity]. Qed.

Lemma small_ok (c : conf (X := unit)) : reachable small_modules 3%positive c -> exists v, sched_ok (c_sys c) v /\ groups_ok (c_sys c).
Proof. intros [v Hro]%reachable_ok. exists v. split; [apply Hro|apply Hro]. Qed.

Lemma init_jobs_witness : exists s', nx_ctx_init_jobs small_modules 3%positive small = (s', Ret tt) /\ groups_ok s' /\
  (g_priority <$> s_groups s') = [11; 99].
Proof.
  destruct (init_jobs small_modules 3%positive small small_startup) as (s' & H & _ & Hg & _). exists s'. split_and!; [done|done|].
  assert (s' = (nx_ctx_init_jobs small_modules 3%positive small).1) as -> by (by rewrite H). vm_compute. reflexivity.
Defined.

Lemma threads_safe_witness : exists c', act (Take 0) conf1 = (c', Ret tt) /\ c_workers conf1 !! 0%nat = Some WIdle.
Proof.
  destruct (threads_safe small_modules 3%positive conf1 (Take 0)) as [c' H]; [apply small_reachable|left; vm_compute; reflexivity|].
  exists c'. split; [exact H|vm_compute; reflexivity].
Defined.

Lemma workers_exclusive_witness : c_workers conf4 = [WBusy 1%positive 1%positive; WIdle] /\
  j_busy <$> s_jobs (c_sys conf4) !! 1%positive = Some true /\ is_Some (s_events (c_sys conf4) !! 1%positive).
Proof.
  split; [vm_compute; reflexivity|]. destruct (workers_exclusive small_modules 3%positive conf4 small_held) as (_ & H & _).
  apply (H 0%nat). vm_compute. reflexivity.
Defined.

Lemma has_jobs_next_witness : exists b s' r, nx_ctx_has_jobs (c_sys conf1) = (c_sys conf1, Ret b) /\
  nx_ctx_next_job (c_sys conf1) = (s', Ret r) /\ (b = true <-> r <> None).
Proof.
  destruct (small_ok conf1 ltac:(apply small_reachable)) as (v & Hok & Hg). apply (has_jobs_next (c_sys conf1) v Hok Hg).
Defined.

Lemma module_remove_events_witness : exists s' v', nx_module_remove_events 2%positive (c_sys conf3) = (s', Ret tt) /\ sched_ok s' v'.
Proof.
  destruct (small_ok conf3 ltac:(apply small_reachable)) as (v & Hok & _). destruct (s_modules (c_sys conf3) !! 2%positive) as [md|] eqn:E;
    [|vm_compute in E; discriminate]. destruct (module_remove_events (c_sys conf3) v 2%positive md Hok E) as (s' & H & _ & Hok'). eauto.
Defined.

Lemma event_pass_witness : exists s' v' n, event_thread_pass 100 (c_sys conf3) = (s', Ret n) /\ sched_ok s' v' /\ n = 200.
Proof.
  destruct (small_ok conf3 ltac:(apply small_reachable)) as (v & Hok & _).
  destruct (event_pass (c_sys conf3) v 100 Hok ltac:(lia)) as (s' & v' & n & H & Hok' & _). exists s', v', n. split_and!; [done|done|].
  assert (Ret n = (event_thread_pass 100 (c_sys conf3)).2) as E by (by rewrite H). vm_compute in E. by injection E.
Defined.

Lemma event_dedupe_ends_witness : exists fuel s' l, _event_dedupe fuel 1%positive (c_sys conf1) = (s', Ret tt) /\
  dedupe_next (fun e => s_events s' !! e) (reverse l) = None.
Proof.
  destruct (small_ok conf1 ltac:(apply small_reachable)) as (v & Hok & _).
  destruct (event_dedupe_ends (c_sys conf1) v 1%positive (length (v (JobEvents 1%positive))) Hok) as (s' & l & H & _ & Hn);
    [vm_compute; eauto|lia|eauto].
Defined.

Lemma jobqueue_add_witness : exists (s s' : sys unit) v e l, nx_event_to_jobqueue e s = (s', Ret tt) /\
  sched_ok s' (<[JobEvents 1%positive := l]> v) /\ l `prefix_of` v (JobEvents 1%positive) ++ [e].
Proof.
  destruct (small_ok conf1 ltac:(apply small_reachable)) as (v & Hok & _).
  destruct (event_new_ok (c_sys conf1) v Hok ltac:(vm_compute; done)) as (s1 & e & _ & Hok1 & St1 & _ & _ & Ha & Ev1).
  destruct (put_event_ok s1 v e (read_event 1%positive) Hok1 Ha) as (s2 & _ & Hok2 & St2 & _ & Ev2); [rewrite Ev1, lookup_insert_eq; eauto|].
  destruct (s_modules (c_sys conf1) !! 1%positive) as [md|] eqn:E; [|vm_compute in E; discriminate].
  assert (s_modules s2 = s_modules (c_sys conf1)) as HM by (destruct St1 as (_ & H1 & _), St2 as (_ & H2 & _); congruence).
  destruct (jobqueue_add s2 v e (read_event 1%positive) 1%positive Hok2) as (s' & l & H & Hok' & Hp & _).
  - split; [by rewrite Ev2, lookup_insert_eq|done|done|done|]. exists 1%positive, md. split; [reflexivity|]. rewrite HM. exact E.
  - unfold job_of. simpl. rewrite HM. vm_compute. reflexivity.
  - exists s2, s', v, e, l. split; [exact H|]. split; [exact Hok'|exact Hp].
Defined.

(** The calls of [next_job_fair]: after every call the queues are as before it. *)
Fixpoint calls (k : nat) : sys unit :=
  match k with
  | O => c_sys conf1
  | S k => with_groups (s_groups (nx_ctx_next_job (calls k)).1) (calls k)
  end.

Lemma calls_ok v : sched_ok (c_sys conf1) v -> groups_ok (c_sys conf1) -> forall k, sched_ok (calls k) v /\ groups_ok (calls k).
Proof.
  intros Hok Hg. induction k as [|k [IH1 IH2]]; [done|]. split; [by apply sched_groups|].
  destruct (next_job_ok (calls k) v IH1 IH2) as (s' & n & r & H & (HG & _) & _). cbn [calls]. rewrite H. unfold groups_ok. simpl. rewrite HG. simpl.
  eapply groups_exist; [|by apply groups_visited]. done.
Qed.

Lemma calls_jobs k : s_jobs (calls k) = s_jobs (c_sys conf1).
Proof. induction k as [|k IH]; [done|]. exact IH. Qed.

Lemma next_job_fair_witness : exists k s' e, (k < 1)%nat /\ nx_ctx_next_job (calls k) = (s', Ret (Some (1%positive, e))).
Proof.
  destruct (small_ok conf1 ltac:(apply small_reachable)) as (v & Hok & Hg).
  destruct (next_job_fair calls (fun _ => v) 0 (Group None 11 [1%positive]) 1%positive) as (k & s' & e & Hk & H).
  - intros k. by apply calls_ok.
  - intros k s' r H. cbn [calls]. rewrite H. done.
  - vm_compute. reflexivity.
  - by left.
  - intros k _. unfold ready. rewrite calls_jobs. eexists. split; vm_compute; reflexivity.
  - intros k i g' j' _ Hi. lia.
  - by exists k, s', e.
Defined.

End Scheduler.
