(* ===== verification/Value.v ===== *)
(** * Values (common/value.h, common/value.c)

    A field of a log record holds an [nx_value_t]: a type tag, a [defined] flag
    and a union.  The union is an inductive type with one constructor per
    member; reading a member that was not written last is undefined, except
    that memory cleared with [memset] reads as zero.

    The type is parametric in the representation [P] of a string pointer: the
    operations of this file work on values that own their strings ([P] is the
    byte string); the record component instantiates [P] with addresses. *)

From S2P Require Import Prelude Str CLib Date DateFormat.
Import Str.

Module Value.

Export CLib.

(** [nx_value_type_t]; an out-of-range code comes from a cast of a byte. *)
Inductive nx_value_type :=
| NX_VALUE_TYPE_INTEGER
| NX_VALUE_TYPE_STRING
| NX_VALUE_TYPE_DATETIME
| NX_VALUE_TYPE_REGEXP
| NX_VALUE_TYPE_BOOLEAN
| NX_VALUE_TYPE_IP4ADDR
| NX_VALUE_TYPE_IP6ADDR
| NX_VALUE_TYPE_BINARY
| NX_VALUE_TYPE_UNKNOWN
| NX_VALUE_TYPE_OTHER (code : Z).

#[export] Instance nx_value_type_eq_dec : EqDecision nx_value_type.
Proof. solve_decision. Defined.

Definition type_code (t : nx_value_type) : Z :=
  match t with
  | NX_VALUE_TYPE_INTEGER => 1
  | NX_VALUE_TYPE_STRING => 2
  | NX_VALUE_TYPE_DATETIME => 3
  | NX_VALUE_TYPE_REGEXP => 4
  | NX_VALUE_TYPE_BOOLEAN => 5
  | NX_VALUE_TYPE_IP4ADDR => 6
  | NX_VALUE_TYPE_IP6ADDR => 7
  | NX_VALUE_TYPE_BINARY => 8
  | NX_VALUE_TYPE_UNKNOWN => 9
  | NX_VALUE_TYPE_OTHER c => c
  end.

Definition type_of_code (c : Z) : nx_value_type :=
  if c =? 1 then NX_VALUE_TYPE_INTEGER
  else if c =? 2 then NX_VALUE_TYPE_STRING
  else if c =? 3 then NX_VALUE_TYPE_DATETIME
  else if c =? 4 then NX_VALUE_TYPE_REGEXP
  else if c =? 5 then NX_VALUE_TYPE_BOOLEAN
  else if c =? 6 then NX_VALUE_TYPE_IP4ADDR
  else if c =? 7 then NX_VALUE_TYPE_IP6ADDR
  else if c =? 8 then NX_VALUE_TYPE_BINARY
  else if c =? 9 then NX_VALUE_TYPE_UNKNOWN
  else NX_VALUE_TYPE_OTHER c.

(** The C enumeration [boolean] as the integer it is stored as. *)
Definition TRUE : Z := 1.
Definition FALSE : Z := 0.

(** The union.  [DRegexp] records the address of the pattern, because the
    [boolean] member overlays it; its replacement and modifiers are [None] if they
    were not initialised. *)
Inductive nx_data (P : Type) :=
| DZero
| DUninit
| DInteger (z : Z)
| DString (s : P)
| DDatetime (t : Z)
| DRegexp (addr : Z) (str : bytes) (more : option (option bytes * Z))
| DBoolean (b : Z)
| DIp4addr (a : bytes)
| DIp6addr (a : bytes)
| DBinary (value : bytes) (len : Z).
Arguments DZero {P}.
Arguments DUninit {P}.
Arguments DInteger {P}.
Arguments DString {P}.
Arguments DDatetime {P}.
Arguments DRegexp {P}.
Arguments DBoolean {P}.
Arguments DIp4addr {P}.
Arguments DIp6addr {P}.
Arguments DBinary {P}.

Record nx_value (P : Type) := NxValue {
  v_type : nx_value_type;
  v_defined : Z;
  v_data : nx_data P
}.
Arguments NxValue {P}.
Arguments v_type {P}.
Arguments v_defined {P}.
Arguments v_data {P}.

(** A value that owns its string. *)
Abbreviation value := (nx_value bytes).

#[export] Instance nx_data_eq_dec `{EqDecision P} : EqDecision (nx_data P).
Proof. solve_decision. Defined.
#[export] Instance nx_value_eq_dec `{EqDecision P} : EqDecision (nx_value P).
Proof. solve_decision. Defined.

(** Reads of the union members. *)
Section readers.
Context {P : Type}.
Implicit Types d : nx_data P.

Definition as_integer d : outcome Z :=
  match d with DInteger z => Ret z | DZero => Ret 0 | _ => Undef "union member integer" end.
Definition as_datetime d : outcome Z :=
  match d with DDatetime z => Ret z | DZero => Ret 0 | _ => Undef "union member datetime" end.
Definition as_boolean d : outcome Z :=
  match d with
  | DBoolean z => Ret z
  | DZero => Ret 0
  | DRegexp addr _ _ => Ret (u32 addr)
  | _ => Undef "union member boolean"
  end.
(** A NULL string or pattern is dereferenced by every use. *)
Definition as_string d : outcome P :=
  match d with DString s => Ret s | _ => Undef "union member string" end.
Definition as_regexp d : outcome bytes :=
  match d with DRegexp _ s _ => Ret s | _ => Undef "union member regexp.str" end.
Definition as_ip4addr d : outcome bytes :=
  match d with DIp4addr a => Ret a | DZero => Ret (replicate 4 x00) | _ => Undef "union member ip4addr" end.
Definition as_ip6addr d : outcome bytes :=
  match d with DIp6addr a => Ret a | DZero => Ret (replicate 16 x00) | _ => Undef "union member ip6addr" end.
Definition as_binary d : outcome (bytes * Z) :=
  match d with DBinary v n => Ret (v, n) | DZero => Ret ([], 0) | _ => Undef "union member binary" end.

(** [nx_value_new]: cleared and defined. *)
Definition nx_value_new (t : nx_value_type) : nx_value P := NxValue t TRUE DZero.
Definition nx_value_new_integer (z : Z) : nx_value P := NxValue NX_VALUE_TYPE_INTEGER TRUE (DInteger z).
Definition nx_value_new_datetime (t : Z) : nx_value P := NxValue NX_VALUE_TYPE_DATETIME TRUE (DDatetime t).
Definition nx_value_new_boolean (b : Z) : nx_value P := NxValue NX_VALUE_TYPE_BOOLEAN TRUE (DBoolean b).
Definition nx_value_new_binary (v : bytes) (n : Z) : outcome (nx_value P) :=
  _ ← ASSERT (0 <? n) "len > 0";
  d ← mem_read v 0 n;
  Ret (NxValue NX_VALUE_TYPE_BINARY TRUE (DBinary d n)).

(** Well-formed values: a defined value holds the union member of its type. *)
Definition int64 (z : Z) : Prop := - 2 ^ 63 <= z < 2 ^ 63.

Definition data_ok (str_ok : P -> Prop) (t : nx_value_type) d : Prop :=
  match t, d with
  | NX_VALUE_TYPE_INTEGER, DInteger z => int64 z
  | NX_VALUE_TYPE_STRING, DString s => str_ok s
  | NX_VALUE_TYPE_DATETIME, DDatetime z => int64 z
  | NX_VALUE_TYPE_REGEXP, DRegexp _ s m => no_nul s /\ zlen s < 2 ^ 31 /\ m <> None
  | NX_VALUE_TYPE_BOOLEAN, DBoolean b => b = TRUE \/ b = FALSE
  | NX_VALUE_TYPE_IP4ADDR, DIp4addr a => length a = 4%nat
  | NX_VALUE_TYPE_IP6ADDR, DIp6addr a => length a = 16%nat
  | NX_VALUE_TYPE_BINARY, DBinary v n => zlen v = n /\ 0 < n < 2 ^ 32
  | _, _ => False
  end.

Definition value_ok (str_ok : P -> Prop) (v : nx_value P) : Prop :=
  (v_defined v = TRUE /\ data_ok str_ok (v_type v) (v_data v)) \/ v_defined v = FALSE.

Lemma value_ok_weaken (Q1 Q2 : P -> Prop) v : (forall s, Q1 s -> Q2 s) -> value_ok Q1 v -> value_ok Q2 v.
Proof.
  destruct v as [t df d]. intros HQ [[Hd Hok]|Hd]; [left|by right]. split; [done|]. simpl in *.
  destruct t, d; simpl in *; auto.
Qed.

End readers.

(** ** Type names *)

Definition value_types : list (nx_value_type * bytes) :=
  [ (NX_VALUE_TYPE_INTEGER, lit "integer");
    (NX_VALUE_TYPE_STRING, lit "string");
    (NX_VALUE_TYPE_DATETIME, lit "datetime");
    (NX_VALUE_TYPE_REGEXP, lit "regexp");
    (NX_VALUE_TYPE_BOOLEAN, lit "boolean");
    (NX_VALUE_TYPE_IP4ADDR, lit "ip4addr");
    (NX_VALUE_TYPE_IP6ADDR, lit "ip6addr");
    (NX_VALUE_TYPE_BINARY, lit "binary");
    (NX_VALUE_TYPE_UNKNOWN, lit "unknown") ].

Definition nx_value_type_to_string (t : nx_value_type) : outcome bytes :=
  match list_find (fun kv => fst kv = t) value_types with
  | Some (_, kv) => Ret (snd kv)
  | None => Panic "invalid value type: %d"
  end.

Definition nx_value_type_from_string (s : bytes) : outcome nx_value_type :=
  match list_find (fun kv => strcasecmp_eq (snd kv) s = true) value_types with
  | Some (_, kv) => Ret (fst kv)
  | None => Throw "invalid type: %s"
  end.

(** ** Hexadecimal encoding of binary values *)

Definition hex : bytes := lit "0123456789abcdef".

(** [nx_bin2ascii]: the string written to [dst], without its NUL.  [src] must
    have [srclen] readable bytes. *)
Fixpoint bin2ascii_bytes (src : bytes) : bytes :=
  match src with
  | [] => []
  | c :: src =>
      default x00 (hex !! Z.to_nat (Z.shiftr (bz c) 4))
      :: default x00 (hex !! Z.to_nat (Z.land (bz c) 0x0f)) :: bin2ascii_bytes src
  end.

Definition nx_bin2ascii (src : bytes) (srclen : Z) : outcome bytes :=
  d ← mem_read src 0 srclen; Ret (bin2ascii_bytes d).

(** One digit of [nx_ascii2bin]. *)
Definition hexdigit (c : byte) : option Z :=
  if (48 <=? bz c) && (bz c <=? 57) then Some (bz c - 48)
  else if (97 <=? bz c) && (bz c <=? 102) then Some (bz c - 97 + 10)
  else None.

(** The loop of [nx_ascii2bin] over pairs of characters: an invalid first
    character throws, an invalid second one counts as zero. *)
Fixpoint ascii2bin_bytes (src : bytes) : outcome bytes :=
  match src with
  | a :: b :: src =>
      match hexdigit a with
      | None => Throw "invalid character '%c' in encoded binary"
      | Some h =>
          r ← ascii2bin_bytes src;
          Ret (zb (Z.shiftl h 4 + default 0 (hexdigit b)) :: r)
      end
  | _ => Ret []
  end.

Definition nx_ascii2bin (src : bytes) (srclen : Z) : outcome bytes :=
  if negb (srclen mod 2 =? 0) then Throw "binary has odd encoding length"
  else d ← mem_read src 0 srclen; ascii2bin_bytes d.

(** ** Integers *)

Definition nx_value_parse_int (string : bytes) : outcome Z :=
  let len := s32 (zlen string) in
  _ ← ASSERT (0 <? len) "len > 0";
  c0 ← cchar string 0;
  let '(i, len, sign) := if c0 =c "-" then (1, len - 1, -1) else (0, len, 1) in
  let '(i, len, base) :=
    if strcasecmp_eq (take 2 (drop (Z.to_nat i) string)) (lit "0X")
    then (i + 2, len - 2, 16) else (i, len, 10) in
  l ← cchar string (i + len - 1);
  '(mul, len) ← (if isxdigit l then Ret (1, len)
    else
      let u := toupper l in
      if u =c "K" then Ret (1024, len - 1)
      else if u =c "M" then Ret (1024 * 1024, len - 1)
      else if u =c "G" then Ret (1024 * 1024 * 1024, len - 1)
      else if u =c x0d then Throw "cannot parse integer, invalid modifier: '\r'"
      else if u =c x0a then Throw "cannot parse integer, invalid modifier: '\n'"
      else Throw "cannot parse integer, invalid modifier: '%c'");
  let len := if 128 <? len then 127 else len in
  (* apr_cpystrn(tmp, string + i, len + 1) writes len characters and a NUL *)
  let tmp := take (Z.to_nat len) (drop (Z.to_nat i) string) in
  _ ← (if zlen tmp <? 128 then Ret tt else Undef "tmp[128] overflow");
  val ← throw_none (if base =? 16 then scanf_lx tmp else scanf_ld tmp) "couldn't parse integer: %s";
  v ← mul_long val mul; mul_long v sign.

(** ** IPv4 addresses *)

(** The loop of [nx_value_parse_ip4addr]: [i] is the current component, [got]
    whether it has a digit. *)
Fixpoint ip4_loop (s : bytes) (i : nat) (ip : list Z) (got : bool) : outcome (list Z * bool) :=
  match s with
  | [] => Ret (ip, got)
  | c :: s =>
      if (3 <? i)%nat then Throw "invalid ipv4 address: %s"
      else if isdigit c then
        let v := default 0 (ip !! i) * 10 + (bz c - 48) in
        if 255 <? v then Throw "invalid ipv4 address: %s"
        else ip4_loop s i (<[i := v]> ip) true
      else if c =c "." then
        if negb got then Throw "invalid ipv4 address: %s"
        else ip4_loop s (i + 1) ip false
      else Throw "invalid character '%c' in ipv4 address '%s'"
  end.

(** The four bytes stored in the value. *)
Definition nx_value_parse_ip4addr (s : bytes) : outcome bytes :=
  r ← ip4_loop s 0 [0; 0; 0; 0] false;
  if negb (snd r) then Throw "invalid ipv4 address: %s"
  else Ret (map zb (fst r)).

(** ["%d.%d.%d.%d"] *)
Definition print_ip4 (a : bytes) : bytes :=
  let d k := print_nat (bz (default x00 (a !! k))) in
  d 0%nat ++ "."%byte :: d 1%nat ++ "."%byte :: d 2%nat ++ "."%byte :: d 3%nat.

(** ** Conversions to and from strings

    What value.c calls outside the program: the calendar the date functions use,
    the IPv6 functions of APR and the regular expression compiler. *)
Class ValueEnv := {
  #[global] value_time :: TimeEnv;
  ip6_to_string : bytes -> outcome bytes;
  ip6_parse : bytes -> option bytes;
  regexp_compiles : bytes -> bool;
  regexp_addr : bytes -> Z
}.

Section conversions.
Context `{M : Malloc} `{E : ValueEnv}.

(** [None] is NULL: the value is undefined. *)
Definition nx_value_to_string (v : value) : outcome (option bytes) :=
  if v_defined v =? FALSE then Ret None
  else
    Some <$>
    match v_type v with
    | NX_VALUE_TYPE_INTEGER => z ← as_integer (v_data v); Ret (print_int z)
    | NX_VALUE_TYPE_STRING => s ← as_string (v_data v); Ret (cstr s)
    | NX_VALUE_TYPE_DATETIME => 
        t ← as_datetime (v_data v);
        r ← Date.nx_date_to_iso (malloc 20) 20 t;
        cstr <$> throw_none r "failed to convert time value to string"
    | NX_VALUE_TYPE_REGEXP => as_regexp (v_data v)
    | NX_VALUE_TYPE_BOOLEAN =>
        b ← as_boolean (v_data v); Ret (if b =? TRUE then lit "TRUE" else lit "FALSE")
    | NX_VALUE_TYPE_IP4ADDR => a ← as_ip4addr (v_data v); Ret (print_ip4 a)
    | NX_VALUE_TYPE_IP6ADDR => a ← as_ip6addr (v_data v); ip6_to_string a
    | NX_VALUE_TYPE_BINARY => b ← as_binary (v_data v); nx_bin2ascii (fst b) (snd b)
    | _ => Panic "invalid value type: %d"
    end.

(** [nx_value_new_string] of a C string. *)
Definition nx_value_new_string (s : bytes) : outcome value :=
  r ← nx_string_create (s ++ [x00]) (-1);
  Ret (NxValue NX_VALUE_TYPE_STRING TRUE (DString (content r))).

(** The replacement and the modifiers are left as [malloc] returned them. *)
Definition nx_value_new_regexp (s : bytes) : outcome value :=
  if regexp_compiles s
  then Ret (NxValue NX_VALUE_TYPE_REGEXP TRUE (DRegexp (regexp_addr s) s None))
  else Throw "failed to compile regular expression '%s', error at position %d: %s".

Definition nx_value_from_string (s : bytes) (t : nx_value_type) : outcome value :=
  match t with
  | NX_VALUE_TYPE_INTEGER => z ← nx_value_parse_int s; Ret (NxValue t TRUE (DInteger z))
  | NX_VALUE_TYPE_STRING => nx_value_new_string s
  | NX_VALUE_TYPE_DATETIME =>
      r ← Date.nx_date_parse s None;
      d ← throw_none (fst r) "Couldn't parse datetime value: '%s'";
      Ret (NxValue t TRUE (DDatetime d))
  | NX_VALUE_TYPE_BOOLEAN =>
      if strcasecmp_eq s (lit "true") then Ret (NxValue t TRUE (DBoolean TRUE))
      else if strcasecmp_eq s (lit "false") then Ret (NxValue t TRUE (DBoolean FALSE))
      else Throw "Invalid boolean: %s"
  | NX_VALUE_TYPE_REGEXP => nx_value_new_regexp s
  | NX_VALUE_TYPE_IP4ADDR => a ← nx_value_parse_ip4addr s; Ret (NxValue t TRUE (DIp4addr a))
  | NX_VALUE_TYPE_IP6ADDR =>
      a ← throw_none (ip6_parse s) "couldn't parse IPv6 address: %s";
      Ret (NxValue t TRUE (DIp6addr a))
  | NX_VALUE_TYPE_BINARY =>
      let len := zlen s in
      b ← nx_ascii2bin s len;
      Ret (NxValue t TRUE (DBinary b (u32 len)))
  | _ => Panic "invalid value type: %d"
  end.

(** The union of the copy made by [nx_value_clone] of a defined value that is
    not a string. *)
Definition clone_plain {P} (v : nx_value P) : outcome (nx_data P) :=
  match v_type v with
  | NX_VALUE_TYPE_INTEGER => z ← as_integer (v_data v); Ret (DInteger z)
  | NX_VALUE_TYPE_DATETIME => t ← as_datetime (v_data v); Ret (DDatetime t)
  | NX_VALUE_TYPE_BOOLEAN => b ← as_boolean (v_data v); Ret (DBoolean b)
  | NX_VALUE_TYPE_IP4ADDR => a ← as_ip4addr (v_data v); Ret (DIp4addr a)
  | NX_VALUE_TYPE_IP6ADDR => a ← as_ip6addr (v_data v); Ret (DIp6addr a)
  | NX_VALUE_TYPE_BINARY =>
      _ ← ASSERT (match v_data v with DBinary _ _ => true | _ => false end) "value->binary.value != NULL";
      b ← as_binary (v_data v);
      d ← mem_read (fst b) 0 (snd b);
      Ret (DBinary d (snd b))
  | NX_VALUE_TYPE_REGEXP =>
      match v_data v with
      | DRegexp _ s (Some m) => Ret (DRegexp (regexp_addr s) s (Some m))
      | _ => Undef "union member regexp"
      end
  | _ => Panic "invalid value type: %d"
  end.

(** [nx_value_clone(NULL, value)]; the union of the copy of an undefined value is
    not initialised. *)
Definition nx_value_clone (v : value) : outcome value :=
  d ← (if v_defined v =? TRUE then
         match v_type v with
         | NX_VALUE_TYPE_STRING =>
             s ← as_string (v_data v);
             c ← nx_string_clone (exact s);
             Ret (DString (content c))
         | _ => clone_plain v
         end
       else Ret DUninit);
  Ret (NxValue (v_type v) (v_defined v) d).

End conversions.

(** ** Equality *)

Definition nx_value_eq (v1 v2 : value) : outcome bool :=
  if negb (type_code (v_type v1) =? type_code (v_type v2)) then Ret false
  else if negb (v_defined v1 =? v_defined v2) then Ret false
  else
    match v_type v1 with
    | NX_VALUE_TYPE_INTEGER =>
        a ← as_integer (v_data v1); b ← as_integer (v_data v2); Ret (a =? b)
    | NX_VALUE_TYPE_STRING =>
        a ← as_string (v_data v1); b ← as_string (v_data v2); Ret (strcmp_eq (cstr a) (cstr b))
    | NX_VALUE_TYPE_DATETIME =>
        a ← as_datetime (v_data v1); b ← as_datetime (v_data v2); Ret (a =? b)
    | NX_VALUE_TYPE_REGEXP =>
        a ← as_regexp (v_data v1); b ← as_regexp (v_data v2); Ret (strcmp_eq a b)
    | NX_VALUE_TYPE_BOOLEAN =>
        a ← as_boolean (v_data v1); b ← as_boolean (v_data v2); Ret (a =? b)
    | NX_VALUE_TYPE_IP4ADDR =>
        a ← as_ip4addr (v_data v1); b ← as_ip4addr (v_data v2); Ret (bool_decide (a = b))
    | NX_VALUE_TYPE_IP6ADDR =>
        a ← as_ip6addr (v_data v1); b ← as_ip6addr (v_data v2); Ret (bool_decide (a = b))
    | NX_VALUE_TYPE_BINARY =>
        a ← as_binary (v_data v1); b ← as_binary (v_data v2);
        if negb (snd a =? snd b) then Ret false
        else x ← mem_read (fst a) 0 (snd a); y ← mem_read (fst b) 0 (snd a);
             Ret (bool_decide (x = y))
    | _ => Panic "cannot compare"
    end.

(** ** Hexadecimal round trip *)

Lemma hex_byte_roundtrip c src :
  ascii2bin_bytes (bin2ascii_bytes (c :: src)) = r ← ascii2bin_bytes (bin2ascii_bytes src); Ret (c :: r).
Proof. destruct c; reflexivity. Qed.

Lemma hex_roundtrip src : ascii2bin_bytes (bin2ascii_bytes src) = Ret src.
Proof. induction src as [|c src IH]; [done|]. by rewrite hex_byte_roundtrip, IH. Qed.

Lemma bin2ascii_length src : length (bin2ascii_bytes src) = (2 * length src)%nat.
Proof. induction src; simpl; lia. Qed.

(** ** Decimal numbers *)

(** Parsing a numeral behind an optional minus sign. *)
Lemma parse_int_numeral (neg : bool) ds n :
  numeral ds n -> (length ds <= 20)%nat -> 0 <= n <= LONG_MAX ->
  nx_value_parse_int ((if neg then ["-"%byte] else []) ++ ds) = Ret (if neg then - n else n).
Proof.
  intros Hnum Hlen Hn. set (p := if neg then ["-"%byte] else []).
  assert (zlen p = if neg then 1 else 0) as Hp by (by unfold p; destruct neg).
  unfold nx_value_parse_int. rewrite s32_small by (rewrite length_app; destruct neg; lia).
  destruct (numeral_head _ _ Hnum) as (c & t & Hds & Hc). destruct (isdigit_facts c Hc) as (_ & _ & Hm & _).
  rewrite (proj2 (Z.ltb_lt 0 _)) by (rewrite length_app, Hds; simpl; lia). cbn [mbind outcome_bind ASSERT].
  replace (cchar (p ++ ds) 0) with (@Ret byte (if neg then "-"%byte else c)).
  2:{ unfold p. destruct neg; symmetry; [apply (cchar_at [])|]. rewrite Hds. apply (cchar_at []). }
  cbn [mbind outcome_bind].
  assert (((if neg then "-"%byte else c) =c "-") = neg) as ->.
  { destruct neg; [apply beq_refl|by apply beq_false]. }
  replace (if neg then (1, zlen (p ++ ds) - 1, -1) else (0, zlen (p ++ ds), 1))
    with (zlen p, zlen ds, if neg then -1 else 1) by (rewrite length_app; destruct neg; repeat f_equal; lia).
  rewrite Nat2Z.id, (numeral_no_0x p ds n Hnum).
  destruct (numeral_last _ _ Hnum) as (u & d & Hu & Hd). destruct (isdigit_facts d Hd) as (_ & Hx & _).
  replace (cchar (p ++ ds) (zlen p + zlen ds - 1)) with (@Ret byte d).
  2:{ symmetry. replace (zlen p + zlen ds - 1) with (zlen (p ++ u)) by (rewrite Hu; lens).
      rewrite Hu, app_assoc. apply cchar_at. }
  cbn [mbind outcome_bind]. rewrite Hx. cbn [mbind outcome_bind].
  rewrite (proj2 (Z.ltb_ge 128 _)) by lia.
  rewrite !Nat2Z.id, drop_app_length, firstn_all, (proj2 (Z.ltb_lt _ _)) by lia. cbn [mbind outcome_bind].
  simpl (10 =? 16). rewrite (scanf_ld_numeral _ _ Hnum), Z.min_r by lia. cbn [mbind outcome_bind throw_none].
  unfold mul_long, LONG_MAX in *. rewrite Z.mul_1_r.
  rewrite (proj2 (Z.leb_le _ n)), (proj2 (Z.ltb_lt n _)) by lia. cbn [mbind outcome_bind andb].
  destruct neg; rewrite (proj2 (Z.leb_le _ _)), (proj2 (Z.ltb_lt _ _)) by lia; simpl; f_equal; lia.
Qed.

Lemma parse_print_int z : int64 z -> z <> - 2 ^ 63 -> nx_value_parse_int (print_int z) = Ret z.
Proof.
  unfold int64. intros Hz Hmin. unfold print_int, LONG_MAX.
  destruct (z <? 0) eqn:E; tests.
  - destruct (print_nat_numeral (- z)) as [H Hl]; [lia|].
    replace z with (- - z) at 2 by lia.
    apply (parse_int_numeral true _ _ H Hl). unfold LONG_MAX; lia.
  - destruct (print_nat_numeral z) as [H Hl]; [lia|].
    apply (parse_int_numeral false _ _ H Hl). unfold LONG_MAX; lia.
Qed.

(** ** IPv4 round trip *)

(** The digits of one component. *)
Lemma ip4_component0 b rest :
  ip4_loop (print_nat (bz b) ++ rest) 0 [0; 0; 0; 0] false = ip4_loop rest 0 [bz b; 0; 0; 0] true.
Proof. destruct b; reflexivity. Qed.
Lemma ip4_component1 b x rest :
  ip4_loop (print_nat (bz b) ++ rest) 1 [x; 0; 0; 0] false = ip4_loop rest 1 [x; bz b; 0; 0] true.
Proof. destruct b; reflexivity. Qed.
Lemma ip4_component2 b x y rest :
  ip4_loop (print_nat (bz b) ++ rest) 2 [x; y; 0; 0] false = ip4_loop rest 2 [x; y; bz b; 0] true.
Proof. destruct b; reflexivity. Qed.
Lemma ip4_component3 b x y z rest :
  ip4_loop (print_nat (bz b) ++ rest) 3 [x; y; z; 0] false = ip4_loop rest 3 [x; y; z; bz b] true.
Proof. destruct b; reflexivity. Qed.

Lemma ip4_dot i ip rest : (i <= 3)%nat -> ip4_loop ("."%byte :: rest) i ip true = ip4_loop rest (i + 1) ip false.
Proof. intros H. cbn [ip4_loop]. by rewrite (proj2 (Nat.ltb_ge 3 i)). Qed.

Lemma ip4_roundtrip a : length a = 4%nat -> nx_value_parse_ip4addr (print_ip4 a) = Ret a.
Proof.
  destruct a as [|b0 [|b1 [|b2 [|b3 [|]]]]]; try discriminate. intros _.
  unfold nx_value_parse_ip4addr. change (print_ip4 _) with
    (print_nat (bz b0) ++ "."%byte :: print_nat (bz b1) ++ "."%byte :: print_nat (bz b2) ++ "."%byte :: print_nat (bz b3)).
  pose proof (ip4_component3 b3 (bz b0) (bz b1) (bz b2) []) as H3. rewrite app_nil_r in H3.
  rewrite ip4_component0, ip4_dot, ip4_component1, ip4_dot, ip4_component2, ip4_dot by lia.
  simpl (_ + _)%nat. rewrite H3. simpl. by rewrite !zb_bz.
Qed.

(** ** Strings *)

Lemma nx_string_create_cstr `{M : Malloc} s :
  no_nul s -> zlen s <= string_limit ->
  exists r, nx_string_create (s ++ [x00]) (-1) = Ret r /\ str_rep r s.
Proof.
  intros Hn Hl. assert (nx_string_create (s ++ [x00]) (-1) = nx_string_create (s ++ [x00]) (zlen s)) as ->.
  { unfold nx_string_create. simpl (-1 <? 0). rewrite (proj2 (Z.ltb_ge (zlen s) 0)), strlen_lit by (lia || done).
    cbn [fmap outcome_fmap mbind outcome_bind]. rewrite s32_small; [done|unfold string_limit in *; lia]. }
  destruct (nx_string_create_rep (s ++ [x00]) (zlen s)) as (r & E & R & _); [lens|done|].
  rewrite Nat2Z.id, take_app_length in R. eauto.
Qed.

(** Well-formedness of values that own their strings. *)
Definition owned (s : bytes) : Prop := zlen s < string_limit.

Lemma clone_plain_ok `{E : ValueEnv} {P} (Q : P -> Prop) (v : nx_value P) :
  data_ok Q (v_type v) (v_data v) ->
  v_type v <> NX_VALUE_TYPE_STRING -> v_type v <> NX_VALUE_TYPE_REGEXP ->
  clone_plain v = Ret (v_data v).
Proof.
  destruct v as [t df d]. unfold clone_plain. simpl. intros Hok Hs Hr.
  destruct t, d; simpl in Hok; try contradiction; try done. simpl.
  destruct Hok as [<- _]. by rewrite (mem_read_at value 0 _ [] value), Nat2Z.id, firstn_all by (simpl; auto; lia).
Qed.

(** The values whose string form determines them. *)
Definition printable `{T : TimeEnv} (v : value) : Prop :=
  match v_data v with
  | DDatetime t =>
      DateFormat.DAY <= t < DateFormat.TIME_MAX - DateFormat.DAY /\ t mod 1000000 = 0 /\ DateFormat.shown_once t
  | DInteger z => z <> - 2 ^ 63
  | DString s => no_nul s
  | DBoolean _ | DIp4addr _ => True
  | _ => False
  end.

(** ** Properties *)

(** A defined integer (other than the smallest), string, boolean, IPv4
    value or date in whole seconds is recovered from its string form by
    [nx_value_from_string]. *)
Theorem value_string_roundtrip `{M : Malloc} `{E : ValueEnv} {TL : DateFormat.TimeLaws value_time} v :
  v_defined v = TRUE -> data_ok owned (v_type v) (v_data v) -> printable v ->
  exists s, nx_value_to_string v = Ret (Some s) /\ nx_value_from_string s (v_type v) = Ret v.
Proof.
  destruct v as [t df d]. simpl. intros -> Hok Hp.
  destruct t, d; simpl in Hok; try contradiction; simpl in Hp; try contradiction.
  - exists (print_int z). split; [done|]. simpl. by rewrite parse_print_int.
  - exists s. split; [unfold nx_value_to_string; simpl; by rewrite cstr_no_nul|]. simpl.
    unfold nx_value_new_string, owned in *.
    destruct (nx_string_create_cstr s Hp) as (r & -> & R); [lia|]. simpl. by rewrite (str_rep_content _ _ R).
  - destruct Hp as (Ht & Hs & Honce). pose proof (malloc_length 20 ltac:(lia)) as Hl.
    destruct (DateFormat.date_iso_reads (malloc 20) 20 t None Ht Honce) as (b & Hb & _ & Hparse); [lia|].
    exists (cstr b). unfold nx_value_to_string, nx_value_from_string. simpl. rewrite Hb. split; [done|].
    rewrite Hparse. simpl. do 3 f_equal. Z.to_euclidean_division_equations. lia.
  - destruct Hok as [-> | ->]; [exists (lit "TRUE")|exists (lit "FALSE")]; done.
  - exists (print_ip4 a). split; [done|]. simpl. by rewrite ip4_roundtrip.
Qed.

(** A concrete environment: the calendar in UTC, no IPv6, no regexps. *)
Definition plain_env : ValueEnv := {|
  value_time := DateFormat.utc_env 0;
  ip6_to_string _ := Throw "cannot convert IPv6 value to string, no IPv6 support";
  ip6_parse _ := None;
  regexp_compiles _ := false;
  regexp_addr _ := 0
|}.

Lemma value_string_roundtrip_witness :
  exists s, nx_value_to_string (M := poison_malloc) (E := plain_env) (nx_value_new_datetime 1700000000000000) = Ret (Some s) /\
    nx_value_from_string (M := poison_malloc) (E := plain_env) s NX_VALUE_TYPE_DATETIME =
      Ret (nx_value_new_datetime 1700000000000000).
Proof.
  apply (value_string_roundtrip (M := poison_malloc) (E := plain_env) (TL := DateFormat.utc_laws 0)
    (nx_value_new_datetime 1700000000000000)).
  - reflexivity.
  - split; [discriminate|reflexivity].
  - split_and!; [discriminate|reflexivity|reflexivity|]. apply DateFormat.utc_shown_once. split; [discriminate|reflexivity].
Defined.

(** Binary values are decoded from their hexadecimal form exactly. *)
Theorem binary_hex_roundtrip src :
  exists s, nx_bin2ascii src (zlen src) = Ret s /\ zlen s = 2 * zlen src /\
    nx_ascii2bin s (zlen s) = Ret src.
Proof.
  exists (bin2ascii_bytes src). unfold nx_bin2ascii, nx_ascii2bin.
  rewrite (mem_read_at src 0 (zlen src) [] src), Nat2Z.id, firstn_all by (simpl; auto; lia).
  pose proof (bin2ascii_length src) as L. split_and!; [done|lia|].
  rewrite L. replace (Z.of_nat (2 * length src) mod 2 =? 0) with true.
  - rewrite (mem_read_at (bin2ascii_bytes src) 0 _ [] (bin2ascii_bytes src)), Nat2Z.id by (simpl; auto; lia).
    cbn [negb mbind outcome_bind]. rewrite <- L, firstn_all. apply hex_roundtrip.
  - symmetry. apply Z.eqb_eq. rewrite Nat2Z.inj_mul, Z.mul_comm. apply Z.mod_mul. lia.
Qed.

(** [nx_value_from_string] stores the length of the hexadecimal text, not of
    the decoded bytes, in a binary value; printing such a value reads past the
    end of its block. *)
Theorem binary_from_string_length `{M : Malloc} `{E : ValueEnv} b :
  0 < zlen b < 2 ^ 31 ->
  exists s v, nx_value_to_string (NxValue NX_VALUE_TYPE_BINARY TRUE (DBinary b (zlen b))) = Ret (Some s) /\
    nx_value_from_string s NX_VALUE_TYPE_BINARY = Ret v /\
    v_data v = DBinary b (2 * zlen b) /\
    nx_value_to_string v = Undef "read outside the block".
Proof.
  intros Hb. exists (bin2ascii_bytes b), (NxValue NX_VALUE_TYPE_BINARY TRUE (DBinary b (2 * zlen b))).
  pose proof (bin2ascii_length b) as L.
  split_and!; [| |done|].
  - unfold nx_value_to_string; simpl. unfold nx_bin2ascii. by rewrite (mem_read_at b 0 (zlen b) [] b), Nat2Z.id, firstn_all by (simpl; auto; lia).
  - simpl. unfold nx_ascii2bin. rewrite L. replace (Z.of_nat (2 * length b) mod 2 =? 0) with true.
    + rewrite (mem_read_at (bin2ascii_bytes b) 0 _ [] (bin2ascii_bytes b)), Nat2Z.id by (simpl; auto; lia).
      cbn [negb mbind outcome_bind]. rewrite <- L, firstn_all, hex_roundtrip. cbn [mbind outcome_bind].
      rewrite L. unfold u32. rewrite Z.mod_small by lia. do 3 f_equal. lia.
    + symmetry. apply Z.eqb_eq. rewrite Nat2Z.inj_mul, Z.mul_comm. apply Z.mod_mul. lia.
  - unfold nx_value_to_string; simpl. unfold nx_bin2ascii, mem_read. rewrite (proj2 (Z.leb_gt (0 + _) _)) by lia. by rewrite andb_false_r.
Qed.

Lemma binary_from_string_length_witness :
  exists s v, nx_value_to_string (M := poison_malloc) (E := plain_env) (NxValue NX_VALUE_TYPE_BINARY TRUE (DBinary [x0a; xff] 2)) = Ret (Some s) /\
    nx_value_from_string (M := poison_malloc) (E := plain_env) s NX_VALUE_TYPE_BINARY = Ret v /\
    v_data v = DBinary [x0a; xff] 4 /\
    nx_value_to_string (M := poison_malloc) (E := plain_env) v = Undef "read outside the block".
Proof.
  apply (binary_from_string_length (M := poison_malloc) (E := plain_env) [x0a; xff]).
  vm_compute. split; reflexivity.
Defined.

(** [nx_value_eq] decides equality of defined values without regexps: it
    returns TRUE exactly on equal values. *)
Theorem value_eq_decides v1 v2 :
  v_defined v1 = TRUE -> v_defined v2 = TRUE ->
  data_ok no_nul (v_type v1) (v_data v1) -> data_ok no_nul (v_type v2) (v_data v2) ->
  v_type v1 <> NX_VALUE_TYPE_REGEXP ->
  nx_value_eq v1 v2 = Ret (bool_decide (v1 = v2)).
Proof.
  destruct v1 as [t1 f1 d1], v2 as [t2 f2 d2]. simpl. intros -> -> H1 H2 Hr. unfold nx_value_eq. simpl.
  assert (forall (a b : Z) (x y : value), (a = b <-> x = y) -> Ret (a =? b) = Ret (bool_decide (x = y))) as HZ.
  { intros a b x y Hi. f_equal. destruct (Z.eqb_spec a b); case_bool_decide; tauto. }
  assert (forall (a b : bytes) (x y : value), (a = b <-> x = y) -> Ret (bool_decide (a = b)) = Ret (bool_decide (x = y))) as HB.
  { intros a b x y Hi. f_equal. by apply bool_decide_ext. }
  destruct t1, d1; simpl in H1; try contradiction; destruct t2, d2; simpl in H2; try contradiction; simpl;
    try reflexivity; try (exfalso; apply Hr; reflexivity).
  - apply HZ. split; congruence.
  - rewrite !cstr_no_nul by done. apply HB. split; congruence.
  - apply HZ. split; congruence.
  - apply HZ. split; congruence.
  - apply HB. split; congruence.
  - apply HB. split; congruence.
  - rename value into a, value0 into b. destruct H1 as [<- _], H2 as [<- _].
    destruct (Z.eqb_spec (zlen a) (zlen b)) as [El|El]; simpl.
    + rewrite (mem_read_at a 0 _ [] a), (mem_read_at b 0 _ [] b) by (simpl; auto; lia).
      simpl. rewrite !take_ge by lia. apply HB. split; congruence.
    + rewrite bool_decide_false; [done|]. intros [= ? ?]. congruence.
Qed.

Lemma value_eq_decides_witness :
  nx_value_eq (NxValue NX_VALUE_TYPE_STRING TRUE (DString (lit "a"))) (nx_value_new_integer 1) =
    Ret (bool_decide (NxValue NX_VALUE_TYPE_STRING TRUE (DString (lit "a")) = nx_value_new_integer 1)).
Proof.
  apply value_eq_decides;
    [reflexivity|reflexivity|apply (bool_decide_unpack _); reflexivity
    |split; [discriminate|reflexivity]|discriminate].
Defined.

(** The clone of a well-formed defined value is equal to it. *)
Theorem value_clone_equal `{M : Malloc} `{E : ValueEnv} v :
  v_defined v = TRUE -> data_ok owned (v_type v) (v_data v) -> v_type v <> NX_VALUE_TYPE_REGEXP ->
  nx_value_clone v = Ret v.
Proof.
  destruct v as [t df d]. simpl. intros -> Hok Hr. unfold nx_value_clone. simpl.
  destruct (decide (t = NX_VALUE_TYPE_STRING)) as [->|Hs].
  - destruct d; try contradiction. unfold owned in Hok. simpl in *.
    destruct (nx_string_clone_rep (exact s) s) as (c & -> & R);
      [apply exact_rep; unfold string_limit in *; lia|done|]. simpl. by rewrite (str_rep_content _ _ R).
  - pose proof (clone_plain_ok owned (NxValue t TRUE d) Hok Hs Hr) as ->. by destruct t.
Qed.

Lemma value_clone_equal_witness :
  nx_value_clone (M := poison_malloc) (E := plain_env) (NxValue NX_VALUE_TYPE_STRING TRUE (DString (lit "event"))) =
    Ret (NxValue NX_VALUE_TYPE_STRING TRUE (DString (lit "event"))).
Proof.
  apply value_clone_equal; [reflexivity|vm_compute; reflexivity|discriminate].
Defined.

(** Two inputs [nx_value_parse_int] does not handle: the smallest 64-bit
    integer, as printed, parses to its successor, and 128 digits overflow the
    128-byte buffer [tmp] by one. *)
Theorem parse_int_gaps :
  nx_value_parse_int (print_int (- 2 ^ 63)) = Ret (- 2 ^ 63 + 1) /\
  nx_value_parse_int (replicate 128 "1"%byte) = Undef "tmp[128] overflow".
Proof. split; vm_compute; reflexivity. Qed.

End Value.
