(* ===== verification/Serialize.v ===== *)
(** * Binary serialization of integers and values
      (common/serialize.h, common/value-serialize.c)

    The wire format of integers is little-endian on every host: the macros of
    serialize.h copy or swap the bytes of the host representation, and
    [APR_IS_BIGENDIAN] selects which.  On top of them [nx_value_to_membuf] and
    [nx_value_from_membuf] write and read one value of a checked buffer.

    [encode_value] is the reference encoding; the writer is proved to produce
    it and the reader to invert it. *)

From S2P Require Import Prelude Str Value.
Import Str Value.

(** The byte order of the host. *)
Class Host := { APR_IS_BIGENDIAN : bool }.

Module Serialize.

(** ** Integers as bytes *)

(** The [n] low bytes of [z], least significant first, and the unsigned
    integer they denote. *)
Fixpoint le (n : nat) (z : Z) : bytes :=
  match n with
  | O => []
  | S n => zb z :: le n (z / 256)
  end.

Fixpoint unle (b : bytes) : Z :=
  match b with
  | [] => 0
  | c :: b => bz c + 256 * unle b
  end.

Section serialize_h.
Context `{H : Host}.

(** The representation of an [n]-byte integer in the memory of the host. *)
Definition host_bytes (n : nat) (z : Z) : bytes :=
  if APR_IS_BIGENDIAN then rev (le n z) else le n z.
Definition host_int (b : bytes) : Z :=
  unle (if APR_IS_BIGENDIAN then rev b else b).

Definition NX_SWAP16 (num : bytes) : Z := host_int [num !!! 1%nat; num !!! 0%nat].
Definition NX_SWAP32 (num : bytes) : Z :=
  host_int [num !!! 3%nat; num !!! 2%nat; num !!! 1%nat; num !!! 0%nat].
Definition NX_SWAP64 (num : bytes) : Z :=
  host_int [num !!! 7%nat; num !!! 6%nat; num !!! 5%nat; num !!! 4%nat;
            num !!! 3%nat; num !!! 2%nat; num !!! 1%nat; num !!! 0%nat].

Definition NX_COPY16 (src : bytes) : bytes := [src !!! 0%nat; src !!! 1%nat].
Definition NX_COPY32 (src : bytes) : bytes :=
  [src !!! 0%nat; src !!! 1%nat; src !!! 2%nat; src !!! 3%nat].
Definition NX_COPY64 (src : bytes) : bytes :=
  [src !!! 0%nat; src !!! 1%nat; src !!! 2%nat; src !!! 3%nat;
   src !!! 4%nat; src !!! 5%nat; src !!! 6%nat; src !!! 7%nat].

Definition NX_GET16 (num : bytes) : Z := host_int (NX_COPY16 num).
Definition NX_GET32 (num : bytes) : Z := host_int (NX_COPY32 num).
Definition NX_GET64 (num : bytes) : Z := host_int (NX_COPY64 num).

(** The bytes stored at the destination for the integer [z]. *)
Definition nx_int16_to_le (z : Z) : bytes :=
  let src := host_bytes 2 z in
  if APR_IS_BIGENDIAN then [src !!! 1%nat; src !!! 0%nat] else NX_COPY16 src.
Definition nx_int32_to_le (z : Z) : bytes :=
  let src := host_bytes 4 z in
  if APR_IS_BIGENDIAN then [src !!! 3%nat; src !!! 2%nat; src !!! 1%nat; src !!! 0%nat]
  else NX_COPY32 src.
Definition nx_int64_to_le (z : Z) : bytes :=
  let src := host_bytes 8 z in
  if APR_IS_BIGENDIAN then
    [src !!! 7%nat; src !!! 6%nat; src !!! 5%nat; src !!! 4%nat;
     src !!! 3%nat; src !!! 2%nat; src !!! 1%nat; src !!! 0%nat]
  else NX_COPY64 src.

Definition nx_int16_from_le (num : bytes) : Z := if APR_IS_BIGENDIAN then NX_SWAP16 num else NX_GET16 num.
Definition nx_int32_from_le (num : bytes) : Z := if APR_IS_BIGENDIAN then NX_SWAP32 num else NX_GET32 num.
Definition nx_int64_from_le (num : bytes) : Z := if APR_IS_BIGENDIAN then NX_SWAP64 num else NX_GET64 num.
Definition nx_int16_from_be (num : bytes) : Z := if APR_IS_BIGENDIAN then NX_GET16 num else NX_SWAP16 num.
Definition nx_int32_from_be (num : bytes) : Z := if APR_IS_BIGENDIAN then NX_GET32 num else NX_SWAP32 num.
Definition nx_int64_from_be (num : bytes) : Z := if APR_IS_BIGENDIAN then NX_GET64 num else NX_SWAP64 num.

End serialize_h.

Definition u16 (z : Z) : Z := z mod 2 ^ 16.
Definition s16 (z : Z) : Z := (z + 2 ^ 15) mod 2 ^ 16 - 2 ^ 15.

(** ** Values *)

Definition NX_VALUE_HEADER_LEN : Z := 2.

Definition nx_value_serialized_size (v : value) : outcome Z :=
  if v_defined v =? TRUE then
    n ← match v_type v with
        | NX_VALUE_TYPE_INTEGER => Ret 8
        | NX_VALUE_TYPE_STRING => s ← as_string (v_data v); Ret (4 + zlen s)
        | NX_VALUE_TYPE_DATETIME => Ret 8
        | NX_VALUE_TYPE_REGEXP =>
            (* falls through to the boolean case *)
            s ← as_regexp (v_data v); Ret (4 + zlen s + 1)
        | NX_VALUE_TYPE_BOOLEAN => Ret 1
        | NX_VALUE_TYPE_IP4ADDR => Ret 4
        | NX_VALUE_TYPE_IP6ADDR => Ret 16
        | NX_VALUE_TYPE_BINARY => b ← as_binary (v_data v); Ret (4 + snd b)
        | NX_VALUE_TYPE_UNKNOWN => Panic "cannot serialize UNKNOWN type"
        | NX_VALUE_TYPE_OTHER _ => Panic "invalid type: %d"
        end;
    Ret (2 + n)
  else Ret 2.

Section values.
Context `{H : Host} `{M : Malloc}.

(** The boolean case of [nx_value_to_membuf], entered with [ptr] after the
    header, or after the pattern of a regexp. *)
Definition boolean_to_membuf (v : value) (b : bytes) (buf ptr bufsize : Z) : outcome (bytes * Z) :=
  if bufsize <? NX_VALUE_HEADER_LEN + 1 then Ret (b, 0)
  else
    z ← as_boolean (v_data v);
    b ← mem_write b ptr [zb z];
    Ret (b, ptr + 1 - buf).

(** A length and that many bytes; [k] continues at the new [ptr]. *)
Definition counted_to_membuf (data : bytes) (n : Z) (b : bytes) (ptr bufsize : Z)
    (k : bytes -> Z -> outcome (bytes * Z)) : outcome (bytes * Z) :=
  let len32 := u32 n in
  if bufsize <? NX_VALUE_HEADER_LEN + n + 4 then Ret (b, 0)
  else
    b ← mem_write b ptr (nx_int32_to_le len32);
    let ptr := ptr + 4 in
    data ← mem_read data 0 n;
    b ← mem_write b ptr data;
    k b (ptr + n).

(** [nx_value_to_membuf(value, b + buf, bufsize)]: the block and the returned
    size, zero when there is not enough space. *)
Definition nx_value_to_membuf (v : value) (b : bytes) (buf bufsize : Z) : outcome (bytes * Z) :=
  if bufsize <? NX_VALUE_HEADER_LEN then Ret (b, 0)
  else
    b ← mem_write b buf [zb (type_code (v_type v))];
    let ptr := buf + 1 in
    b ← mem_write b ptr [zb (v_defined v)];
    let ptr := ptr + 1 in
    if v_defined v =? TRUE then
      match v_type v with
      | NX_VALUE_TYPE_INTEGER =>
          if bufsize <? NX_VALUE_HEADER_LEN + 8 then Ret (b, 0)
          else
            z ← as_integer (v_data v);
            b ← mem_write b ptr (nx_int64_to_le z);
            Ret (b, ptr + 8 - buf)
      | NX_VALUE_TYPE_STRING =>
          s ← as_string (v_data v);
          counted_to_membuf s (zlen s) b ptr bufsize (fun b ptr => Ret (b, ptr - buf))
      | NX_VALUE_TYPE_DATETIME =>
          if bufsize <? NX_VALUE_HEADER_LEN + 8 then Ret (b, 0)
          else
            datetime ← as_datetime (v_data v);
            b ← mem_write b ptr (nx_int64_to_le datetime);
            Ret (b, ptr + 8 - buf)
      | NX_VALUE_TYPE_REGEXP =>
          s ← as_regexp (v_data v);
          counted_to_membuf s (zlen s) b ptr bufsize
            (fun b ptr => boolean_to_membuf v b buf ptr bufsize)
      | NX_VALUE_TYPE_BOOLEAN => boolean_to_membuf v b buf ptr bufsize
      | NX_VALUE_TYPE_IP4ADDR =>
          if bufsize <? NX_VALUE_HEADER_LEN + 4 then Ret (b, 0)
          else
            a ← as_ip4addr (v_data v);
            b ← mem_write b ptr a;
            Ret (b, ptr + 4 - buf)
      | NX_VALUE_TYPE_IP6ADDR =>
          if bufsize <? NX_VALUE_HEADER_LEN + 16 then Ret (b, 0)
          else
            a ← as_ip6addr (v_data v);
            b ← mem_write b ptr a;
            Ret (b, ptr + 16 - buf)
      | NX_VALUE_TYPE_BINARY =>
          d ← as_binary (v_data v);
          counted_to_membuf (fst d) (snd d) b ptr bufsize (fun b ptr => Ret (b, ptr - buf))
      | NX_VALUE_TYPE_UNKNOWN => Panic "cannot serialize UNKNOWN type"
      | NX_VALUE_TYPE_OTHER _ => Panic "invalid type: %d"
      end
    else Ret (b, ptr - buf).

(** The signed reading of eight bytes. *)
Definition int64_from_le (num : bytes) : Z := s64 (nx_int64_from_le num).

(** The length of a counted item, and the check that its bytes are there. *)
Definition counted_from_membuf (b : bytes) (offs bufsize : Z) (nolen nobuf : string) : outcome (Z * Z) :=
  if offs + 4 <=? bufsize then
    l ← mem_read b offs 4;
    let len := nx_int32_from_le l in
    let offs := offs + 4 in
    if offs + len <=? bufsize then Ret (len, offs) else Throw nobuf
  else Throw nolen.

(** [nx_value_from_membuf(b, bufsize, &bytes)]: the value and [bytes].  A value
    that is not [TRUE] keeps its cleared union. *)
Definition nx_value_from_membuf (b : bytes) (bufsize : Z) : outcome (value * Z) :=
  _ ← ASSERT (0 <? bufsize) "bufsize > 0";
  if bufsize <? 2 then Throw "not enough data to decode serialized value (2 > bufsize)"
  else
    type ← load b 0;
    defined ← load b 1;
    let offs := 2 in
    let t := type_of_code (bz type) in
    '(d, offs) ←
      (if bz defined =? TRUE then
        match t with
        | NX_VALUE_TYPE_INTEGER =>
            if offs + 8 <=? bufsize then
              n ← mem_read b offs 8; Ret (DInteger (int64_from_le n), offs + 8)
            else Throw "not enough data to decode serialized integer"
        | NX_VALUE_TYPE_STRING =>
            '(len, offs) ← counted_from_membuf b offs bufsize
              "not enough data to decode serialized string length"
              "not enough data to decode serialized string buffer (required: %d, available: %d)";
            s ← nx_string_create (drop (Z.to_nat offs) b) (s32 len);
            Ret (DString (content s), offs + len)
        | NX_VALUE_TYPE_DATETIME =>
            if offs + 8 <=? bufsize then
              n ← mem_read b offs 8; Ret (DDatetime (int64_from_le n), offs + 8)
            else Throw "not enough data to decode serialized datetime"
        | NX_VALUE_TYPE_REGEXP => Throw "regexp should not need to be serialized"
        | NX_VALUE_TYPE_BOOLEAN =>
            if offs + 1 <=? bufsize then
              c ← load b offs; Ret (DBoolean (bz c), offs + 1)
            else Throw "not enough data to decode serialized boolean value"
        | NX_VALUE_TYPE_IP4ADDR =>
            if offs + 4 <=? bufsize then
              a ← mem_read b offs 4; Ret (DIp4addr a, offs + 4)
            else Throw "not enough data to decode serialized ip4addr value"
        | NX_VALUE_TYPE_IP6ADDR =>
            if offs + 16 <=? bufsize then
              a ← mem_read b offs 16; Ret (DIp6addr a, offs + 16)
            else Throw "not enough data to decode serialized ip6addr value"
        | NX_VALUE_TYPE_BINARY =>
            '(len, offs) ← counted_from_membuf b offs bufsize
              "not enough data to decode serialized binary length"
              "not enough data to decode serialized binary buffer (required: %d, available: %d)";
            (* binary.len is not assigned: it keeps the zero of nx_value_new *)
            d ← mem_read b offs len;
            Ret (DBinary d 0, offs + len)
        | NX_VALUE_TYPE_UNKNOWN => Throw "UNKNOWN type not allowed in serialized binary format"
        | NX_VALUE_TYPE_OTHER _ => Throw "invalid type in serialized binary format: %d"
        end
      else Ret (DZero, offs));
    Ret (NxValue t (bz defined) d, offs).

End values.

(** ** The wire format *)

Lemma le_length n z : length (le n z) = n.
Proof. revert z. induction n as [|n IH]; intros z; simpl; auto. Qed.

Lemma unle_le n z : unle (le n z) = z mod 256 ^ Z.of_nat n.
Proof.
  revert z. induction n as [|n IH]; intros z; [by rewrite Z.mod_1_r|].
  simpl unle. rewrite bz_zb, IH, Nat2Z.inj_succ, Z.pow_succ_r by lia.
  rewrite Z.rem_mul_r by lia. lia.
Qed.

Lemma list_length_2 {A} (l : list A) : length l = 2%nat -> exists a b, l = [a; b].
Proof. destruct l as [|a [|b [|]]]; try discriminate; eauto. Qed.
Lemma list_length_4 {A} (l : list A) : length l = 4%nat -> exists a b c d, l = [a; b; c; d].
Proof. destruct l as [|a [|b [|c [|d [|]]]]]; try discriminate; eauto. Qed.
Lemma list_length_8 {A} (l : list A) : length l = 8%nat ->
  exists a b c d e f g h, l = [a; b; c; d; e; f; g; h].
Proof.
  destruct l as [|a [|b [|c [|d [|e [|f [|g [|h [|]]]]]]]]]; try discriminate. intros _. by do 8 eexists.
Qed.

Section wire.
Context `{H : Host}.

Lemma nx_int16_to_le_wire z : nx_int16_to_le z = le 2 z.
Proof. unfold nx_int16_to_le, host_bytes. by destruct APR_IS_BIGENDIAN. Qed.
Lemma nx_int32_to_le_wire z : nx_int32_to_le z = le 4 z.
Proof. unfold nx_int32_to_le, host_bytes. by destruct APR_IS_BIGENDIAN. Qed.
Lemma nx_int64_to_le_wire z : nx_int64_to_le z = le 8 z.
Proof. unfold nx_int64_to_le, host_bytes. by destruct APR_IS_BIGENDIAN. Qed.

Lemma nx_int16_from_le_wire b : length b = 2%nat -> nx_int16_from_le b = unle b.
Proof.
  intros (? & ? & ->)%list_length_2. unfold nx_int16_from_le, NX_SWAP16, NX_GET16, host_int.
  by destruct APR_IS_BIGENDIAN.
Qed.
Lemma nx_int32_from_le_wire b : length b = 4%nat -> nx_int32_from_le b = unle b.
Proof.
  intros (? & ? & ? & ? & ->)%list_length_4. unfold nx_int32_from_le, NX_SWAP32, NX_GET32, host_int.
  by destruct APR_IS_BIGENDIAN.
Qed.
Lemma nx_int64_from_le_wire b : length b = 8%nat -> nx_int64_from_le b = unle b.
Proof.
  intros (? & ? & ? & ? & ? & ? & ? & ? & ->)%list_length_8.
  unfold nx_int64_from_le, NX_SWAP64, NX_GET64, host_int. by destruct APR_IS_BIGENDIAN.
Qed.

Lemma int64_from_to_le z : int64 z -> int64_from_le (le 8 z) = z.
Proof.
  unfold int64, int64_from_le. intros Hz. rewrite nx_int64_from_le_wire by apply le_length.
  rewrite unle_le. unfold s64. change (256 ^ Z.of_nat 8) with (2 ^ 64).
  rewrite Z.add_mod_idemp_l, Z.mod_small by lia. lia.
Qed.

Lemma unle_range b : 0 <= unle b < 256 ^ zlen b.
Proof.
  induction b as [|c b IH]; simpl unle; [simpl; lia|].
  rewrite length_cons, Nat2Z.inj_succ, Z.pow_succ_r by lia. pose proof (bz_range c). lia.
Qed.

(** The reference encoding of a value. *)
Definition encode_data (d : nx_data bytes) : bytes :=
  match d with
  | DInteger z => le 8 z
  | DDatetime t => le 8 t
  | DString s => le 4 (zlen s) ++ s
  | DBinary b n => le 4 n ++ b
  | DBoolean b => [zb b]
  | DRegexp addr s _ => le 4 (zlen s) ++ s ++ [zb addr]
  | DIp4addr a | DIp6addr a => a
  | DZero | DUninit => []
  end.

Definition encode_value (v : value) : bytes :=
  zb (type_code (v_type v)) :: zb (v_defined v) ::
  (if v_defined v =? TRUE then encode_data (v_data v) else []).

(** Strings whose length fits the 32-bit field of the format. *)
Definition len32 (s : bytes) : Prop := zlen s < 2 ^ 32.

Lemma serialized_size_encode v : value_ok len32 v -> nx_value_serialized_size v = Ret (zlen (encode_value v)).
Proof.
  destruct v as [t df d]. intros [[Hd Hok]|Hd]; simpl in Hd; subst df; [|done].
  unfold nx_value_serialized_size, encode_value. simpl in *.
  destruct t, d; simpl in Hok; try contradiction; simpl; try (do 2 f_equal; lens);
    try (destruct Hok; do 2 f_equal; lens).
Qed.

(** Writing at a cursor: [w] has been written at [a], [d] follows. *)
Lemma write_next a w b d :
  (length w + length d <= length b)%nat ->
  mem_write (a ++ w ++ drop (length w) b) (zlen a + zlen w) d =
    Ret (a ++ (w ++ d) ++ drop (length (w ++ d)) b).
Proof.
  intros Hl. rewrite (mem_write_at' _ _ (a ++ w) (drop (length w) b)).
  - by rewrite <- !app_assoc, drop_drop, length_app.
  - by rewrite app_assoc.
  - lens.
  - rewrite length_drop. lia.
Qed.

Lemma write_at_ptr w D d : (length w + length d <= length D)%nat ->
  mem_write (w ++ drop (length w) D) (zlen w) d = Ret ((w ++ d) ++ drop (length (w ++ d)) D).
Proof. exact (write_next [] w D d). Qed.

End wire.

(** ** The writer *)

Section writer.
Context `{H : Host}.

Lemma write_header (v : value) a b :
  (2 <= length b)%nat ->
  exists w, w = [zb (type_code (v_type v)); zb (v_defined v)] /\
  (b1 ← mem_write (a ++ b) (zlen a) [zb (type_code (v_type v))];
   mem_write b1 (zlen a + 1) [zb (v_defined v)]) = Ret (a ++ w ++ drop (length w) b).
Proof.
  intros Hl. eexists; split; [done|].
  rewrite (mem_write_at' _ _ a b) by (simpl; auto; lia). cbn [mbind outcome_bind].
  apply (write_next a [zb (type_code (v_type v))] b [zb (v_defined v)]). simpl. lia.
Qed.

(** The buffer after [w] has been written at [a]. *)
Abbreviation written a w b := (a ++ w ++ drop (length w) b).

Lemma counted_fits data n a w b ptr bufsize k :
  zlen data = n -> n < 2 ^ 32 -> ptr = zlen a + zlen w -> 2 + n + 4 <= bufsize ->
  (length w + 4 + length data <= length b)%nat ->
  counted_to_membuf data n (written a w b) ptr bufsize k =
    k (written a (w ++ le 4 n ++ data) b) (ptr + 4 + n).
Proof.
  intros Hn H32 -> Hb Hl. unfold counted_to_membuf, NX_VALUE_HEADER_LEN.
  rewrite (proj2 (Z.ltb_ge _ _)) by lia.
  unfold u32. rewrite Z.mod_small, nx_int32_to_le_wire by lia.
  rewrite (write_next a w b) by (rewrite le_length; lia). cbn [mbind outcome_bind].
  rewrite (mem_read_at data 0 n [] data) by (simpl; auto; lia). cbn [mbind outcome_bind].
  rewrite take_ge by lia.
  replace (zlen a + zlen w + 4) with (zlen a + zlen (w ++ le 4 n)) by (rewrite length_app, le_length; lia).
  rewrite write_next by (rewrite length_app, le_length; lia). cbn [mbind outcome_bind].
  by rewrite <- !(app_assoc w).
Qed.

Local Ltac finish :=
  cbn [mbind outcome_bind]; do 2 f_equal; rewrite ?length_app, ?le_length; simpl (length [_]); lia.

Lemma to_membuf_fits v a b bufsize :
  value_ok len32 v -> zlen (encode_value v) <= bufsize <= zlen b ->
  nx_value_to_membuf v (a ++ b) (zlen a) bufsize =
    Ret (written a (encode_value v) b, zlen (encode_value v)).
Proof.
  intros Hok Hb. unfold nx_value_to_membuf, NX_VALUE_HEADER_LEN.
  assert (2 <= zlen (encode_value v)) by (unfold encode_value; lens).
  rewrite (proj2 (Z.ltb_ge _ _)) by lia.
  destruct (write_header v a b) as (w & Hw & E); [lia|].
  rewrite (mem_write_at' _ _ a b) in E |- * by (simpl; auto; lia). cbn [mbind outcome_bind] in E |- *.
  rewrite E. cbn [mbind outcome_bind]. clear E.
  assert (encode_value v = w ++ (if v_defined v =? TRUE then encode_data (v_data v) else [])) as Henc
    by (by rewrite Hw).
  rewrite Henc in *. clear Henc. assert (zlen w = 2) as Hw2 by (by rewrite Hw).
  replace (zlen a + 1 + 1) with (zlen a + zlen w) by lia. clear Hw.
  destruct v as [t df d]. destruct Hok as [[Hd Hok]|Hd]; simpl in Hd; subst df.
  2:{ simpl. rewrite app_nil_r. finish. }
  simpl in Hb, Hok |- *. rewrite length_app in Hb.
  destruct t, d; simpl in Hok; try contradiction; cbn [encode_data as_integer as_string as_datetime as_regexp
    as_ip4addr as_ip6addr as_binary mbind outcome_bind fst snd] in Hb |- *.
  - rewrite le_length in Hb. rewrite (proj2 (Z.ltb_ge _ _)), nx_int64_to_le_wire, write_next by (rewrite ?le_length; lia).
    finish.
  - rewrite length_app, le_length in Hb. unfold len32 in Hok. rewrite counted_fits by lia. finish.
  - rewrite le_length in Hb. rewrite (proj2 (Z.ltb_ge _ _)), nx_int64_to_le_wire, write_next by (rewrite ?le_length; lia).
    finish.
  - rewrite !length_app, le_length in Hb. simpl (length [_]) in Hb. destruct Hok as [_ Hs].
    rewrite counted_fits by lia. unfold boolean_to_membuf, NX_VALUE_HEADER_LEN.
    rewrite (proj2 (Z.ltb_ge _ _)) by lia. simpl (as_boolean _). cbn [mbind outcome_bind].
    replace (zlen a + zlen w + 4 + zlen str) with (zlen a + zlen (w ++ le 4 (zlen str) ++ str))
      by (rewrite !length_app, le_length; lia).
    rewrite write_next by (rewrite !length_app, le_length; simpl; lia). cbn [mbind outcome_bind].
    replace (zb (u32 addr)) with (zb addr).
    2:{ apply bz_inj. rewrite !bz_zb. unfold u32. symmetry. apply (Z.mod_mod_divide). by exists (2 ^ 24). }
    rewrite <- !app_assoc. finish.
  - unfold boolean_to_membuf, NX_VALUE_HEADER_LEN. simpl (length [_]) in Hb.
    rewrite (proj2 (Z.ltb_ge _ _)) by lia. simpl (as_boolean _). cbn [mbind outcome_bind].
    rewrite write_next by (simpl; lia). simpl. finish.
  - rewrite (proj2 (Z.ltb_ge _ _)), write_next by lia. finish.
  - rewrite (proj2 (Z.ltb_ge _ _)), write_next by lia. finish.
  - destruct Hok as [Hv Hn]. rewrite length_app, le_length in Hb. rewrite counted_fits by lia. finish.
Qed.

Lemma to_membuf_short v a b c :
  value_ok len32 v -> v_type v <> NX_VALUE_TYPE_REGEXP -> zlen b < zlen (encode_value v) ->
  exists b', nx_value_to_membuf v (a ++ b ++ c) (zlen a) (zlen b) = Ret (a ++ b' ++ c, 0) /\ length b' = length b.
Proof.
  intros Hok Hr Hs. unfold nx_value_to_membuf, NX_VALUE_HEADER_LEN.
  destruct (Z.ltb_spec (zlen b) 2); [by exists b|].
  destruct (write_header v a (b ++ c)) as (w & Hw & E); [lens|].
  rewrite (mem_write_at' _ _ a (b ++ c)) in E |- * by (simpl; auto; rewrite length_app; lia).
  cbn [mbind outcome_bind] in E |- *.
  rewrite E. cbn [mbind outcome_bind]. clear E. exists (w ++ drop (length w) b).
  split; [|rewrite length_app, length_drop, Hw; simpl; lia].
  rewrite drop_app_le, <- app_assoc by (rewrite Hw; simpl; lia). clear Hw.
  destruct v as [t df d]. unfold encode_value in Hs.
  destruct Hok as [[Hd Hok]|Hd]; simpl in Hd, Hs, Hr; subst df; simpl in Hs; [|lia].
  destruct t, d; simpl in Hok; try contradiction; try done; simpl in Hs |- *;
    unfold counted_to_membuf, boolean_to_membuf, NX_VALUE_HEADER_LEN; rewrite ?length_app in Hs; simpl in Hs;
    try (by rewrite (proj2 (Z.ltb_lt _ _)) by lia).
Qed.

End writer.

(** ** The reader *)

(** What a value is after it was written and read back: an undefined value
    has a cleared union, a binary value has lost its length. *)
Definition restored (v : value) : value :=
  NxValue (v_type v) (v_defined v)
    (if v_defined v =? TRUE
     then match v_data v with DBinary b _ => DBinary b 0 | d => d end
     else DZero).

(** The values that can be read back: no regexp, strings within the limit. *)
Definition readable (v : value) : Prop :=
  value_ok (fun s => zlen s <= string_limit) v /\ v_type v <> NX_VALUE_TYPE_REGEXP /\
  match v_type v with NX_VALUE_TYPE_OTHER _ => False | _ => True end.

Lemma type_of_code_byte t : match t with NX_VALUE_TYPE_OTHER _ => False | _ => True end ->
  type_of_code (bz (zb (type_code t))) = t.
Proof. by destruct t. Qed.

Section reader.
Context `{H : Host} `{M : Malloc}.

Lemma readable_len32 v : readable v -> value_ok len32 v.
Proof.
  intros (Hok & _ & _). eapply value_ok_weaken; [|exact Hok]. unfold len32, string_limit. simpl. lia.
Qed.

Lemma read_after w d rest n :
  zlen d = n -> mem_read (w ++ d ++ rest) (zlen w) n = Ret d.
Proof.
  intros <-. rewrite (mem_read_at _ _ _ w (d ++ rest)); [|done|done|lens].
  by rewrite Nat2Z.id, take_app_length.
Qed.

Lemma counted_after w d rest bufsize e1 e2 :
  zlen d < 2 ^ 32 -> zlen w + 4 + zlen d <= bufsize ->
  counted_from_membuf (w ++ (le 4 (zlen d) ++ d) ++ rest) (zlen w) bufsize e1 e2 = Ret (zlen d, zlen w + 4).
Proof.
  intros Hd Hb. unfold counted_from_membuf. rewrite (proj2 (Z.leb_le _ _)) by lia.
  rewrite <- app_assoc, read_after by (by rewrite le_length). cbn [mbind outcome_bind].
  rewrite nx_int32_from_le_wire, unle_le by apply le_length. rewrite Z.mod_small by (simpl; lia).
  by rewrite (proj2 (Z.leb_le _ _)) by lia.
Qed.

Lemma from_membuf_encode v rest bufsize :
  readable v -> zlen (encode_value v) <= bufsize <= zlen (encode_value v ++ rest) ->
  nx_value_from_membuf (encode_value v ++ rest) bufsize = Ret (restored v, zlen (encode_value v)).
Proof.
  intros (Hok & Hr & Ht) Hb. unfold nx_value_from_membuf.
  set (w := [zb (type_code (v_type v)); zb (v_defined v)]).
  set (p := if v_defined v =? TRUE then encode_data (v_data v) else []).
  change (encode_value v) with (w ++ p) in *. rewrite <- app_assoc. rewrite length_app in Hb.
  assert (zlen w = 2) as Hw by done. rewrite (proj2 (Z.ltb_lt 0 bufsize)) by lia. cbn [mbind outcome_bind ASSERT].
  rewrite (proj2 (Z.ltb_ge bufsize 2)) by lia.
  rewrite (load_at _ 0 [] (zb (type_code (v_type v))) ([zb (v_defined v)] ++ p ++ rest)) by done.
  cbn [mbind outcome_bind].
  rewrite (load_at _ 1 [zb (type_code (v_type v))] (zb (v_defined v)) (p ++ rest)) by done.
  cbn [mbind outcome_bind]. rewrite (type_of_code_byte _ Ht). clear Ht.
  change 2 with (zlen w). clearbody w. subst p. unfold restored.
  destruct v as [t df d]. destruct Hok as [[Hd Hok]|Hd]; simpl in Hd; subst df.
  2:{ simpl. rewrite app_nil_r. done. }
  simpl (bz _ =? _). cbn [v_type v_data v_defined] in *. rewrite Z.eqb_refl in *.
  destruct t, d; simpl in Hok; try contradiction; try done; cbn [encode_data] in *.
  - rewrite le_length in Hb. rewrite (proj2 (Z.leb_le _ _)), read_after by (rewrite ?le_length; lia).
    cbn [mbind outcome_bind]. rewrite int64_from_to_le by done. do 2 f_equal. rewrite length_app, le_length. lia.
  - rewrite length_app, le_length in Hb. rewrite counted_after by (unfold string_limit in *; lia).
    cbn [mbind outcome_bind]. rewrite s32_small by (unfold string_limit in *; lia).
    replace (drop _ _) with (s ++ rest).
    2:{ rewrite <- app_assoc, app_assoc, drop_app_length'; [done|]. rewrite length_app, le_length. lia. }
    destruct (nx_string_create_rep (s ++ rest) (zlen s)) as (r & -> & R & _); [lens|done|].
    rewrite Nat2Z.id, take_app_length in R. cbn [mbind outcome_bind]. rewrite (str_rep_content _ _ R).
    do 2 f_equal. rewrite !length_app, le_length. lia.
  - rewrite le_length in Hb. rewrite (proj2 (Z.leb_le _ _)), read_after by (rewrite ?le_length; lia).
    cbn [mbind outcome_bind]. rewrite int64_from_to_le by done. do 2 f_equal. rewrite length_app, le_length. lia.
  - simpl (length [_]) in Hb. rewrite (proj2 (Z.leb_le _ _)) by lia.
    rewrite (load_at _ _ w (zb b) rest) by done. cbn [mbind outcome_bind].
    destruct Hok as [-> | ->]; simpl (bz _); do 2 f_equal; rewrite length_app; simpl; lia.
  - rewrite (proj2 (Z.leb_le _ _)), read_after by lia. cbn [mbind outcome_bind]. do 2 f_equal. lens.
  - rewrite (proj2 (Z.leb_le _ _)), read_after by lia. cbn [mbind outcome_bind]. do 2 f_equal. lens.
  - destruct Hok as [<- Hn]. rewrite length_app, le_length in Hb.
    rewrite counted_after by lia. cbn [mbind outcome_bind].
    replace (w ++ (le 4 (zlen value) ++ value) ++ rest) with ((w ++ le 4 (zlen value)) ++ value ++ rest)
      by (by rewrite <- !app_assoc).
    replace (zlen w + 4) with (zlen (w ++ le 4 (zlen value))) by (rewrite length_app, le_length; lia).
    rewrite read_after by done. cbn [mbind outcome_bind]. do 2 f_equal. rewrite !length_app, le_length. lia.
Qed.

Lemma restored_id v : value_ok (fun _ => True) v -> v_type v <> NX_VALUE_TYPE_BINARY ->
  (v_defined v = FALSE -> v_data v = DZero) -> restored v = v.
Proof.
  destruct v as [t df d]. unfold restored. simpl. intros [[Hd Hok]|Hd] Hb Hz; simpl in Hd; subst df.
  - simpl. destruct t, d; simpl in Hok; try contradiction; done.
  - simpl. by rewrite Hz.
Qed.

(** *** Arbitrary input *)

Definition ok_result {A} (o : outcome A) (P : A -> Prop) : Prop :=
  match o with Ret a => P a | Throw _ => True | Panic _ | Undef _ => False end.

Lemma ok_result_bind {A B} (m : outcome A) (f : A -> outcome B) P Q :
  ok_result m P -> (forall a, P a -> ok_result (f a) Q) -> ok_result (m ≫= f) Q.
Proof. destruct m; simpl; auto. Qed.

Lemma ok_result_mono {A} (m : outcome A) (P Q : A -> Prop) :
  (forall a, P a -> Q a) -> ok_result m P -> ok_result m Q.
Proof. destruct m; simpl; auto. Qed.

Lemma mem_read_ok b o n : 0 <= o -> 0 <= n -> o + n <= zlen b ->
  ok_result (mem_read b o n) (fun d => zlen d = n).
Proof.
  intros Ho Hn Hl. unfold mem_read.
  rewrite (proj2 (Z.leb_le 0 o)), (proj2 (Z.leb_le 0 n)), (proj2 (Z.leb_le _ _)) by lia. simpl. lens.
Qed.

Lemma mem_write_ok b o d : 0 <= o -> o + zlen d <= zlen b ->
  ok_result (mem_write b o d) (fun b' => length b' = length b).
Proof.
  intros H0 H1. destruct (mem_write b o d) as [b'|e|e|e] eqn:Ew; simpl; [by apply mem_write_length in Ew| | |];
    unfold mem_write in Ew; rewrite (proj2 (Z.leb_le 0 o)), (proj2 (Z.leb_le _ _)) in Ew by lia; discriminate.
Qed.

Lemma load_ok b o : 0 <= o < zlen b -> ok_result (load b o) (fun _ => True).
Proof.
  intros Ho. eapply ok_result_bind; [apply (mem_read_ok b o 1); lia|].
  intros [|c l] Hc; done.
Qed.

Lemma counted_from_membuf_ok b bufsize o e1 e2 : 0 <= o -> bufsize <= zlen b ->
  ok_result (counted_from_membuf b o bufsize e1 e2)
    (fun r => 0 <= r.1 /\ o + 4 = r.2 /\ r.2 + r.1 <= bufsize).
Proof.
  intros Ho Hl. unfold counted_from_membuf. case_test; [|done].
  eapply ok_result_bind; [apply (mem_read_ok b o 4); lia|]. intros l Hlen. simpl in Hlen |- *.
  rewrite nx_int32_from_le_wire by lia. pose proof (unle_range l). case_test; simpl; [lia|done].
Qed.

Lemma nx_string_create_ok b n : 0 <= n <= zlen b -> ok_result (nx_string_create b n) (fun _ => True).
Proof.
  intros Hn. destruct (Z.le_gt_cases n string_limit) as [Hl|Hl].
  - by destruct (nx_string_create_rep b n Hn Hl) as (r & -> & _).
  - by rewrite nx_string_create_too_long.
Qed.

(** The shape of a value read from a buffer. *)
Definition decoded_data (t : nx_value_type) (d : nx_data bytes) : Prop :=
  match t, d with
  | NX_VALUE_TYPE_STRING, DString c => True
  | NX_VALUE_TYPE_STRING, _ | NX_VALUE_TYPE_REGEXP, _ | NX_VALUE_TYPE_UNKNOWN, _ | NX_VALUE_TYPE_OTHER _, _ => False
  | _, DString _ => False
  | _, _ => True
  end.
Definition decoded (v : value) : Prop :=
  if v_defined v =? TRUE then decoded_data (v_type v) (v_data v) else v_data v = DZero.

Lemma from_membuf_safe b n : 0 < n <= zlen b -> n < 2 ^ 31 ->
  ok_result (nx_value_from_membuf b n) (fun r => 2 <= r.2 <= n /\ decoded r.1).
Proof.
  intros Hb Hn31. unfold nx_value_from_membuf. rewrite (proj2 (Z.ltb_lt 0 n)) by lia. cbn [mbind outcome_bind ASSERT].
  case_test; [done|].
  eapply ok_result_bind; [apply load_ok; lia|]. intros t _.
  eapply ok_result_bind; [apply load_ok; lia|]. intros df _.
  apply ok_result_bind with (P := fun r : nx_data bytes * Z => 2 <= r.2 <= n /\
    if bz df =? TRUE then decoded_data (type_of_code (bz t)) r.1 else r.1 = DZero); [|by intros [d o]].
  destruct (bz df =? TRUE) eqn:Edf; [|simpl; auto with lia]. destruct (type_of_code (bz t)); try done;
    try (case_test; [|done]; eapply ok_result_bind;
         [first [apply mem_read_ok|apply load_ok]; lia|by intros; simpl; split; [lia|]]).
  - eapply ok_result_bind; [apply counted_from_membuf_ok; lia|]. intros [k o] (Hn & Eo & Ho). cbn [fst snd] in *.
    eapply ok_result_bind; [apply nx_string_create_ok|by intros; simpl; split; [lia|]]. rewrite s32_small, length_drop; lia.
  - eapply ok_result_bind; [apply counted_from_membuf_ok; lia|]. intros [k o] (Hn & Eo & Ho). cbn [fst snd] in *.
    eapply ok_result_bind; [apply mem_read_ok; lia|by intros; simpl; split; [lia|]].
Qed.

End reader.

(** [nx_value_to_file]: the bytes appended to the file by
    [apr_file_write_full]. *)
Definition nx_value_to_file `{H : Host} `{M : Malloc} (v : value) (file : bytes) : outcome bytes :=
  size ← nx_value_serialized_size v;
  '(b, n) ← nx_value_to_membuf v (malloc size) 0 size;
  _ ← ASSERT (size =? n) "size == nx_value_to_membuf(value, buf, size)";
  Ret (file ++ b).

(** ** Properties *)

Definition little : Host := {| APR_IS_BIGENDIAN := false |}.
Definition big : Host := {| APR_IS_BIGENDIAN := true |}.

(** The integer macros agree between hosts: what a host of either byte
    order writes with [nx_intN_to_le] is the little-endian representation, and
    any other host reads the same integer (modulo the width) back. *)
Theorem endian_portable (W R : Host) z :
  nx_int16_to_le (H := W) z = le 2 z /\ nx_int16_from_le (H := R) (nx_int16_to_le (H := W) z) = z mod 2 ^ 16 /\
  nx_int32_to_le (H := W) z = le 4 z /\ nx_int32_from_le (H := R) (nx_int32_to_le (H := W) z) = z mod 2 ^ 32 /\
  nx_int64_to_le (H := W) z = le 8 z /\ nx_int64_from_le (H := R) (nx_int64_to_le (H := W) z) = z mod 2 ^ 64 /\
  nx_int64_from_be (H := R) (rev (nx_int64_to_le (H := W) z)) = z mod 2 ^ 64.
Proof.
  rewrite nx_int16_to_le_wire, nx_int32_to_le_wire, nx_int64_to_le_wire.
  rewrite nx_int16_from_le_wire, nx_int32_from_le_wire, nx_int64_from_le_wire, !unle_le by apply le_length.
  split_and!; try done.
  transitivity (unle (le 8 z)); [|by rewrite unle_le].
  destruct (list_length_8 _ (le_length 8 z)) as (? & ? & ? & ? & ? & ? & ? & ? & ->).
  unfold nx_int64_from_be, NX_SWAP64, NX_GET64, host_int. by destruct (@APR_IS_BIGENDIAN R).
Qed.

(** [nx_value_to_membuf] on a well-formed value other than a regexp: it
    returns exactly [nx_value_serialized_size] and stores the reference encoding
    at the buffer when it fits, returns 0 when it does not, and in both cases
    leaves the bytes outside [bufsize] alone. *)
Theorem value_to_membuf_spec `{H : Host} v a b c :
  value_ok len32 v -> v_type v <> NX_VALUE_TYPE_REGEXP ->
  exists n, nx_value_serialized_size v = Ret n /\
    exists b', length b' = length b /\
      nx_value_to_membuf v (a ++ b ++ c) (zlen a) (zlen b) = Ret (a ++ b' ++ c, if n <=? zlen b then n else 0) /\
      (n <= zlen b -> b' = encode_value v ++ drop (Z.to_nat n) b).
Proof.
  intros Hok Hr. exists (zlen (encode_value v)). split; [by apply serialized_size_encode|].
  destruct (Z.leb_spec (zlen (encode_value v)) (zlen b)) as [Hl|Hl].
  - exists (encode_value v ++ drop (length (encode_value v)) b). split_and!; [lens| |by rewrite Nat2Z.id].
    rewrite (to_membuf_fits v a (b ++ c) (zlen b)) by (try done; lens).
    rewrite drop_app_le by lia. by rewrite <- !app_assoc.
  - destruct (to_membuf_short v a b c) as (b' & E & L); try done. exists b'. split_and!; try done. lia.
Qed.

Lemma value_to_membuf_spec_witness :
  exists n, nx_value_serialized_size (nx_value_new_integer 258) = Ret n /\
    exists b', length b' = length (replicate 10 x00) /\
      nx_value_to_membuf (H := big) (nx_value_new_integer 258) ([x2a] ++ replicate 10 x00 ++ [x2b]) (zlen [x2a])
        (zlen (replicate 10 x00)) = Ret ([x2a] ++ b' ++ [x2b], if n <=? zlen (replicate 10 x00) then n else 0) /\
      (n <= zlen (replicate 10 x00) ->
       b' = encode_value (nx_value_new_integer 258) ++ drop (Z.to_nat n) (replicate 10 x00)).
Proof.
  apply (value_to_membuf_spec (H := big) (nx_value_new_integer 258) [x2a] (replicate 10 x00) [x2b]);
    [left; split; [reflexivity|split; [discriminate|reflexivity]]|discriminate].
Defined.

(** Round trip: a well-formed value (no regexp, strings within the limit)
    written with [nx_value_to_membuf] into a buffer of its serialized size is
    read back by [nx_value_from_membuf] on a host of any byte order, which
    consumes exactly the bytes written; the value is the same except that a
    binary value has length zero and the union of an undefined value is
    cleared. *)
Theorem value_membuf_roundtrip (W R : Host) `{M : Malloc} v rest :
  readable v ->
  exists n b, nx_value_serialized_size v = Ret n /\
    nx_value_to_membuf (H := W) v (malloc n) 0 n = Ret (b, n) /\
    nx_value_from_membuf (H := R) (b ++ rest) (zlen (b ++ rest)) = Ret (restored v, n) /\
    (v_type v <> NX_VALUE_TYPE_BINARY -> v_defined v = TRUE -> restored v = v).
Proof.
  intros Hv. pose proof (readable_len32 v Hv) as Hok. exists (zlen (encode_value v)), (encode_value v).
  pose proof (malloc_length (zlen (encode_value v)) ltac:(lia)) as L.
  split_and!; [by apply serialized_size_encode| |apply from_membuf_encode; [done|lens]|].
  - etransitivity; [apply (to_membuf_fits (H := W) v [] (malloc (zlen (encode_value v)))); [done|lia]|].
    cbn [app]. by rewrite drop_ge, app_nil_r by lia.
  - intros Hb Hd. apply restored_id; [|done|rewrite Hd; discriminate]. by eapply value_ok_weaken; [|exact Hok].
Qed.

Lemma value_membuf_roundtrip_witness :
  exists n b, nx_value_serialized_size (NxValue NX_VALUE_TYPE_STRING TRUE (DString (lit "event"))) = Ret n /\
    nx_value_to_membuf (H := big) (NxValue NX_VALUE_TYPE_STRING TRUE (DString (lit "event")))
      (malloc (Malloc := poison_malloc) n) 0 n = Ret (b, n) /\
    nx_value_from_membuf (H := little) (M := poison_malloc) (b ++ [x00]) (zlen (b ++ [x00])) =
      Ret (restored (NxValue NX_VALUE_TYPE_STRING TRUE (DString (lit "event"))), n) /\
    (v_type (NxValue NX_VALUE_TYPE_STRING TRUE (DString (lit "event"))) <> NX_VALUE_TYPE_BINARY ->
     v_defined (NxValue NX_VALUE_TYPE_STRING TRUE (DString (lit "event"))) = TRUE ->
     restored (NxValue NX_VALUE_TYPE_STRING TRUE (DString (lit "event"))) =
       NxValue NX_VALUE_TYPE_STRING TRUE (DString (lit "event"))).
Proof.
  apply (value_membuf_roundtrip big little (M := poison_malloc)
    (NxValue NX_VALUE_TYPE_STRING TRUE (DString (lit "event"))) [x00]).
  split; [left; split; [reflexivity|vm_compute; discriminate]|split; [discriminate|exact I]].
Defined.

(** On arbitrary input shorter than 2 GB [nx_value_from_membuf] either
    throws or returns, having consumed at most the buffer: no read is outside
    the buffer and no assertion fails. *)
Theorem value_from_membuf_safe `{H : Host} `{M : Malloc} b :
  0 < zlen b < 2 ^ 31 ->
  (exists v n, nx_value_from_membuf b (zlen b) = Ret (v, n) /\ 2 <= n <= zlen b) \/
  (exists e, nx_value_from_membuf b (zlen b) = Throw e).
Proof.
  intros Hb. pose proof (from_membuf_safe b (zlen b) ltac:(lia) ltac:(lia)) as S.
  destruct (nx_value_from_membuf b (zlen b)) as [[v n]|e| |]; simpl in S; [destruct S; eauto 6|eauto|done|done].
Qed.

Lemma value_from_membuf_safe_witness :
  (exists v n, nx_value_from_membuf (H := little) (M := poison_malloc) [x02; x01; xff; xff; xff; xff] 6 = Ret (v, n) /\
     2 <= n <= 6) \/
  (exists e, nx_value_from_membuf (H := little) (M := poison_malloc) [x02; x01; xff; xff; xff; xff] 6 = Throw e).
Proof.
  apply (value_from_membuf_safe (H := little) (M := poison_malloc) [x02; x01; xff; xff; xff; xff]).
  vm_compute. split; reflexivity.
Defined.

(** The case of a regexp falls through to the boolean case, whose space
    check does not count the pattern: with room for the pattern but not for the
    extra byte, [nx_value_to_membuf] writes one byte past the buffer. *)
Theorem regexp_to_membuf_overflow `{H : Host} addr s r b :
  no_nul s -> zlen s < 2 ^ 31 -> zlen b = 6 + zlen s ->
  nx_value_to_membuf (NxValue NX_VALUE_TYPE_REGEXP TRUE (DRegexp addr s r)) b 0 (zlen b) =
    Undef "write outside the block".
Proof.
  intros Hn Hs Hb. unfold nx_value_to_membuf, NX_VALUE_HEADER_LEN.
  rewrite (proj2 (Z.ltb_ge (zlen b) 2)) by lia.
  destruct (write_header (NxValue NX_VALUE_TYPE_REGEXP TRUE (DRegexp addr s r)) [] b) as (w & Hw & E); [lia|].
  rewrite (mem_write_at' b 0 [] b) by (simpl; auto; lia). cbn [mbind outcome_bind].
  rewrite (mem_write_at' ([] ++ b) _ [] b) in E by (simpl; auto; lia). cbn [mbind outcome_bind] in E.
  rewrite Z.add_0_l in *. rewrite E. cbn [mbind outcome_bind]. simpl (_ =? _). cbn [v_type v_data as_regexp].
  cbn [mbind outcome_bind]. assert (zlen w = 2) as Hw2 by (by rewrite Hw).
  rewrite (counted_fits s (zlen s) [] w b) by (simpl; lia).
  unfold boolean_to_membuf, NX_VALUE_HEADER_LEN. rewrite (proj2 (Z.ltb_ge (zlen b) _)) by lia.
  cbn [v_data as_boolean mbind outcome_bind]. rewrite mem_write_oob; [done|].
  rewrite !length_app, length_drop, le_length. simpl. lia.
Qed.

Lemma regexp_to_membuf_overflow_witness :
  nx_value_to_membuf (H := little) (NxValue NX_VALUE_TYPE_REGEXP TRUE (DRegexp 7 (lit "a+") None)) (replicate 8 x00) 0
    (zlen (replicate 8 x00)) = Undef "write outside the block".
Proof.
  apply (regexp_to_membuf_overflow (H := little) 7 (lit "a+") None (replicate 8 x00));
    [apply (bool_decide_unpack _); reflexivity|reflexivity|reflexivity].
Defined.

End Serialize.
