(* ===== verification/Logdata.v ===== *)
(** * Log records (common/logdata.h, common/logdata.c)

    A record has a list of named values and the pointer [raw_event], an alias
    of the string of one of its fields.  Strings live in a heap of
    [nx_string_t] indexed by address; freeing removes the entry, so that a use
    or a second free of a dangling pointer is undefined.  The list of fields is
    the list that the [NX_DLIST] chain represents (component [Dlist]): the
    operations used here are [INSERT_TAIL], [REMOVE] and iteration.

    The specification is an association list from names, compared without
    case, to values that own their strings. *)

From S2P Require Import Prelude Dlist Str Value.
Import Str Value.

Module Logdata.

(** ** The heap of strings *)

Record heap := Heap { strs : gmap loc nx_string; fresh_loc : loc }.

Definition alloc (s : nx_string) : cmd heap loc := fun h =>
  (Heap (<[fresh_loc h := s]> (strs h)) (Pos.succ (fresh_loc h)), Ret (fresh_loc h)).
Definition load_str (l : loc) : cmd heap nx_string := fun h =>
  (h, deref (strs h !! l) "string used after it was freed").
Definition set_strs (f : gmap loc nx_string -> gmap loc nx_string) : cmd heap unit := fun h =>
  (Heap (f (strs h)) (fresh_loc h), Ret tt).
Definition store_str (l : loc) (s : nx_string) : cmd heap unit := set_strs (insert l s).

(** [nx_string_free] *)
Definition nx_string_free (l : loc) : cmd heap unit :=
  _ ← load_str l; set_strs (delete l).

(** A string operation on the string at [l]. *)
Definition update_str (l : loc) (f : nx_string -> outcome nx_string) : cmd heap unit :=
  s ← load_str l; s ← lift (f s); store_str l s.

(** ** Fields *)

Abbreviation hvalue := (nx_value loc).
Abbreviation field := (bytes * nx_value loc)%type.

Record logdata := Ld { raw_event : option loc; fields : list field }.

Definition set_raw (p : option loc) (d : logdata) : logdata := Ld p (fields d).
Definition set_fields (fs : list field) (d : logdata) : logdata := Ld (raw_event d) fs.

(** [value->string], possibly NULL. *)
Definition string_ptr (v : hvalue) : outcome (option loc) :=
  match v_data v with
  | DString l => Ret (Some l)
  | DZero => Ret None
  | _ => Undef "union member string"
  end.

(** [nx_value_kill] and [nx_value_free]; only strings are part of the heap. *)
Definition nx_value_kill (v : hvalue) : cmd heap hvalue :=
  if v_defined v =? TRUE then
    d ← match v_type v with
        | NX_VALUE_TYPE_STRING =>
            p ← lift (string_ptr v);
            match p with
            | Some l => _ ← nx_string_free l; mret DZero
            | None => mret (v_data v)
            end
        | NX_VALUE_TYPE_INTEGER | NX_VALUE_TYPE_DATETIME | NX_VALUE_TYPE_BOOLEAN
        | NX_VALUE_TYPE_IP4ADDR | NX_VALUE_TYPE_IP6ADDR | NX_VALUE_TYPE_BINARY => mret (v_data v)
        | NX_VALUE_TYPE_REGEXP =>
            match v_data v with
            | DRegexp _ _ None => lift (Undef "free of an uninitialised pointer")
            | _ => mret (v_data v)
            end
        | _ => lift (Panic "invalid value type: %d")
        end;
    mret (NxValue (v_type v) FALSE d)
  else mret v.

Definition nx_value_free (v : hvalue) : cmd heap unit :=
  _ ← nx_value_kill v; mret tt.

(** A new string value. *)
Definition string_value (l : loc) : hvalue := NxValue NX_VALUE_TYPE_STRING TRUE (DString l).

(** The key of the field [raw_event] is an alias of. *)
Definition raw_key : bytes := lit "raw_event".
Definition NX_LOGDATA_DEFAULT_BUFSIZE : Z := 150.

(** A computation on a record and the heap; [on_heap] leaves the record. *)
Abbreviation state := (heap * logdata)%type.
Definition on_heap {A} (c : cmd heap A) : cmd state A := fun s =>
  let '(h, r) := c (fst s) in ((h, snd s), r).
Definition modify (f : logdata -> logdata) : cmd state unit := fun s =>
  ((fst s, f (snd s)), Ret tt).
Definition record : cmd state logdata := fun s => (s, Ret (snd s)).

(** The first field whose key satisfies a comparison. *)
Definition find_field {V} (cmp : bytes -> bytes -> bool) (key : bytes) (fs : list (bytes * V))
    : option (nat * (bytes * V)) :=
  list_find (fun f => cmp (fst f) key = true) fs.

Section ops.
Context `{M : Malloc} `{E : ValueEnv}.

Definition nx_logdata_append_field_value (key : bytes) (v : hvalue) (d : logdata) : logdata :=
  set_fields (fields d ++ [(key, v)]) d.

(** [nx_logdata_new_logline(ptr, len)] *)
Definition nx_logdata_new_logline (ptr : bytes) (len : Z) : cmd heap logdata :=
  s ← lift (if len =? 0 then nx_string_new else nx_string_create ptr len);
  l ← alloc s;
  mret (nx_logdata_append_field_value raw_key (string_value l) (Ld (Some l) [])).

Definition nx_logdata_new : cmd heap logdata :=
  s ← lift (nx_string_new_size NX_LOGDATA_DEFAULT_BUFSIZE);
  l ← alloc s;
  mret (nx_logdata_append_field_value raw_key (string_value l) (Ld (Some l) [])).

(** [nx_logdata_free]; [link] is the member that chains the record in a queue. *)
Fixpoint free_fields (fs : list field) : cmd heap unit :=
  match fs with
  | [] => mret tt
  | (_, v) :: fs => _ ← nx_value_free v; free_fields fs
  end.
Definition nx_logdata_free (link : Dlist.link) (d : logdata) : cmd heap unit :=
  _ ← lift (ASSERT (bool_decide (Dlist.next link = None)) "logdata->link.next == NULL");
  _ ← lift (ASSERT (bool_decide (Dlist.prev link = None)) "logdata->link.prev == NULL");
  free_fields (fields d).

Definition nx_logdata_append_logline (ptr : bytes) (len : Z) : cmd state unit :=
  d ← record;
  _ ← lift (ASSERT (bool_decide (is_Some (raw_event d))) "logdata->raw_event != NULL");
  l ← lift (deref (raw_event d) "raw_event");
  on_heap (update_str l (fun s => nx_string_append s ptr len)).

(** [nx_value_clone(NULL, value)] in the heap. *)
Definition nx_value_clone (v : hvalue) : cmd heap hvalue :=
  d ← (if v_defined v =? TRUE then
         match v_type v with
         | NX_VALUE_TYPE_STRING =>
             l ← lift (as_string (v_data v));
             s ← load_str l;
             c ← lift (nx_string_clone s);
             l ← alloc c;
             mret (DString l)
         | _ => lift (clone_plain v)
         end
       else mret DUninit);
  mret (NxValue (v_type v) (v_defined v) d).

(** The copy of the string [raw] points to becomes the alias of the copy. *)
Definition redirect_raw (raw : option loc) (v value : hvalue) (new : logdata) : cmd heap logdata :=
  if bool_decide (v_type v = NX_VALUE_TYPE_STRING) && (v_defined v =? TRUE) then
    p ← lift (string_ptr v);
    if bool_decide (p = raw) then q ← lift (string_ptr value); mret (set_raw q new)
    else mret new
  else mret new.

Fixpoint clone_fields (raw : option loc) (fs : list field) (new : logdata) : cmd heap logdata :=
  match fs with
  | [] => mret new
  | (key, v) :: fs =>
      value ← nx_value_clone v;
      let new := nx_logdata_append_field_value key value new in
      new ← redirect_raw raw v value new;
      clone_fields raw fs new
  end.
Definition nx_logdata_clone (d : logdata) : cmd heap logdata :=
  new ← clone_fields (raw_event d) (fields d) (Ld None []);
  _ ← lift (ASSERT (bool_decide (is_Some (raw_event new))) "new->raw_event != NULL");
  mret new.

(** The part of [nx_logdata_set_field_value] for the name [raw_event]: the
    alias is redirected to the new string, or the value is refused and freed. *)
Definition set_raw_event (key : bytes) (v : hvalue) : cmd state unit :=
  if strcmp_eq key raw_key then
    if (v_defined v =? TRUE) && bool_decide (v_type v = NX_VALUE_TYPE_STRING) then
      p ← lift (string_ptr v); modify (set_raw p)
    else
      _ ← on_heap (nx_value_free v);
      if negb (bool_decide (v_type v = NX_VALUE_TYPE_STRING))
      then _ ← lift (nx_value_type_to_string (v_type v));
           lift (Throw "'raw_event' cannot be set to %s type.")
      else lift (Throw "'raw_event' cannot be set to an undefined value.")
  else mret tt.

Definition nx_logdata_set_field_value (key : bytes) (v : hvalue) : cmd state unit :=
  d ← record;
  match find_field strcasecmp_eq key (fields d) with
  | Some (i, (fkey, fval)) =>
      _ ← set_raw_event key v;
      _ ← on_heap (nx_value_free fval);
      modify (fun d => set_fields (<[i := (fkey, v)]> (fields d)) d)
  | None => modify (nx_logdata_append_field_value key v)
  end.

(** [nx_logdata_set_field(logdata, setfield)]: the field is consumed. *)
Definition nx_logdata_set_field (setfield : field) : cmd state unit :=
  d ← record;
  let '(key, v) := setfield in
  match find_field strcasecmp_eq key (fields d) with
  | Some (i, (fkey, fval)) =>
      _ ← on_heap (nx_value_free fval);
      _ ← modify (fun d => set_fields (<[i := (fkey, v)]> (fields d)) d);
      if strcmp_eq fkey raw_key then
        if (v_defined v =? TRUE) && bool_decide (v_type v = NX_VALUE_TYPE_STRING) then
          p ← lift (string_ptr v); modify (set_raw p)
        else
          s ← lift (nx_string_new_size 10);
          l ← on_heap (alloc s);
          modify (set_raw (Some l))
      else mret tt
  | None => modify (fun d => set_fields (fields d ++ [setfield]) d)
  end.

Definition nx_logdata_rename_field (old new : bytes) : cmd state unit :=
  if strcmp_eq old raw_key then lift (Throw "cannot rename field 'raw_event'")
  else
    d ← record;
    let exists_ := if strcasecmp_eq old new then None else find_field strcasecmp_eq new (fields d) in
    match find_field strcasecmp_eq old (fields d) with
    | Some (i, (_, fval)) =>
        _ ← (match exists_ with
             | Some _ =>
                 if strcmp_eq new raw_key then
                   if negb (bool_decide (v_type fval = NX_VALUE_TYPE_STRING))
                   then lift (Throw "string type required for 'raw_event'")
                   else p ← lift (string_ptr fval); modify (set_raw p)
                 else mret tt
             | None => mret tt
             end);
        (* the key of field i is replaced and the field j unlinked; i <> j *)
        modify (fun d =>
          let fs := <[i := (new, fval)]> (fields d) in
          set_fields (match exists_ with Some (j, _) => delete j fs | None => fs end) d)
    | None => mret tt
    end.

(** The result and the value stored through the pointer. *)
Definition nx_logdata_get_field_value (key : bytes) (d : logdata) : bool * hvalue :=
  match find_field strcasecmp_eq key (fields d) with
  | Some (_, (_, v)) => (true, v)
  | None => (false, NxValue NX_VALUE_TYPE_UNKNOWN FALSE DUninit)
  end.

Definition nx_logdata_get_field (key : bytes) (d : logdata) : option field :=
  snd <$> find_field strcasecmp_eq key (fields d).

Definition nx_logdata_delete_field (key : bytes) : cmd state bool :=
  d ← record;
  match find_field strcmp_eq key (fields d) with
  | Some (i, (fkey, fval)) =>
      if strcmp_eq fkey raw_key then
        _ ← lift (ASSERT ((v_defined fval =? TRUE) && bool_decide (v_type fval = NX_VALUE_TYPE_STRING))
                    "field->value->defined == TRUE && type == NX_VALUE_TYPE_STRING");
        _ ← lift (ASSERT (bool_decide (is_Some (raw_event d))) "logdata->raw_event != NULL");
        l ← lift (deref (raw_event d) "raw_event");
        s ← on_heap (load_str l);
        if len s =? 0 then mret false
        else
          _ ← on_heap (update_str l (fun s => nx_string_set s [x00] 0));
          mret true
      else
        _ ← modify (fun d => set_fields (delete i (fields d)) d);
        _ ← on_heap (nx_value_free fval);
        mret true
  | None => mret false
  end.

(** *** Typed setters *)

Definition nx_logdata_set_datetime (key : bytes) (t : Z) : cmd state unit :=
  nx_logdata_set_field_value key (nx_value_new_datetime t).
Definition nx_logdata_set_integer (key : bytes) (z : Z) : cmd state unit :=
  nx_logdata_set_field_value key (nx_value_new_integer z).
Definition nx_logdata_set_boolean (key : bytes) (b : Z) : cmd state unit :=
  nx_logdata_set_field_value key (nx_value_new_boolean b).
Definition nx_logdata_set_binary (key v : bytes) (n : Z) : cmd state unit :=
  v ← lift (nx_value_new_binary v n); nx_logdata_set_field_value key v.
(** [value] is a C string. *)
Definition nx_logdata_set_string (key value : bytes) : cmd state unit :=
  s ← lift (nx_string_create (value ++ [x00]) (-1));
  l ← on_heap (alloc s);
  nx_logdata_set_field_value key (string_value l).

End ops.

(** ** Specification: association lists *)

Abbreviation alist := (list (bytes * value)).

Definition alist_get (key : bytes) (al : alist) : option value :=
  (fun r => snd (snd r)) <$> find_field strcasecmp_eq key al.

Definition alist_set (key : bytes) (v : value) (al : alist) : alist :=
  match find_field strcasecmp_eq key al with
  | Some (i, (k, _)) => <[i := (k, v)]> al
  | None => al ++ [(key, v)]
  end.

(** The string of the [raw_event] field. *)
Definition str_value (c : bytes) : value := NxValue NX_VALUE_TYPE_STRING TRUE (DString c).

Definition alist_delete (key : bytes) (al : alist) : alist * bool :=
  match find_field strcmp_eq key al with
  | Some (i, (k, v)) =>
      if bool_decide (k = raw_key)
      then match v_data v with
           | DString [] => (al, false)
           | _ => (<[i := (k, str_value [])]> al, true)
           end
      else (delete i al, true)
  | None => (al, false)
  end.

Definition alist_rename (old new : bytes) (al : alist) : alist :=
  match find_field strcasecmp_eq old al with
  | Some (i, (_, v)) =>
      let al' := <[i := (new, v)]> al in
      if strcasecmp_eq old new then al'
      else match find_field strcasecmp_eq new al with
           | Some (j, _) => delete j al'
           | None => al'
           end
  | None => al
  end.

(** ** Representation *)

Definition data_cast {P Q} (d : nx_data P) : nx_data Q :=
  match d with
  | DZero => DZero
  | DUninit => DUninit
  | DInteger z => DInteger z
  | DString _ => DUninit
  | DDatetime t => DDatetime t
  | DRegexp a s r => DRegexp a s r
  | DBoolean b => DBoolean b
  | DIp4addr a => DIp4addr a
  | DIp6addr a => DIp6addr a
  | DBinary v n => DBinary v n
  end.

Definition data_rep (h : heap) (d : nx_data loc) (a : nx_data bytes) : Prop :=
  match d with
  | DString l => exists s c, strs h !! l = Some s /\ str_rep s c /\ a = DString c
  | _ => a = data_cast d
  end.

(** The value [v] denotes [a]: a well-formed defined value whose string, if
    any, is allocated, or an undefined value. *)
Definition val_rep (h : heap) (v : hvalue) (a : value) : Prop :=
  v_type v = v_type a /\ v_defined v = v_defined a /\ value_ok (fun _ => True) a /\
  (v_defined a = TRUE -> data_rep h (v_data v) (v_data a)).

Definition field_rep (h : heap) (f : field) (a : bytes * value) : Prop :=
  fst f = fst a /\ val_rep h (snd f) (snd a).

(** The string a value owns. *)
Definition value_loc (v : hvalue) : option loc :=
  if v_defined v =? TRUE then match v_data v with DString l => Some l | _ => None end else None.

Definition field_locs (fs : list field) : list loc := omap (fun f => value_loc (snd f)) fs.

Definition lower_keys {V} (fs : list (bytes * V)) : list bytes := map (fun f => map tolower (fst f)) fs.

Definition heap_ok (h : heap) : Prop := forall l, is_Some (strs h !! l) -> (l < fresh_loc h)%positive.

(** The invariant of a record: it denotes an association list, every string has
    one owner, no two names are equal up to case, and [raw_event] points to the
    string of the field of that name. *)
Record inv (h : heap) (d : logdata) (al : alist) : Prop := {
  inv_heap : heap_ok h;
  inv_fields : Forall2 (field_rep h) (fields d) al;
  inv_locs : NoDup (field_locs (fields d));
  inv_keys : NoDup (lower_keys (fields d));
  inv_raw : exists l, raw_event d = Some l /\ (raw_key, string_value l) ∈ fields d
}.

(** What an operation on [d] leaves alone: strings of other records. *)
Definition frame (h h' : heap) (d : logdata) : Prop :=
  (fresh_loc h <= fresh_loc h')%positive /\
  forall l, (l < fresh_loc h)%positive -> l ∉ field_locs (fields d) -> strs h' !! l = strs h !! l.

(** *** Lists of fields *)

Lemma find_field_Some {V} cmp key (fs : list (bytes * V)) i f :
  find_field cmp key fs = Some (i, f) ->
  exists fs1 fs2, fs = fs1 ++ f :: fs2 /\ i = length fs1 /\ cmp (fst f) key = true /\
    Forall (fun g => cmp (fst g) key = false) fs1.
Proof.
  unfold find_field. rewrite list_find_Some. intros (Hi & Hc & Hlt).
  exists (take i fs), (drop (S i) fs). pose proof (lookup_lt_Some _ _ _ Hi). split_and!; auto.
  - by rewrite take_drop_middle.
  - rewrite length_take. lia.
  - apply Forall_lookup. intros j g Hj. destruct (cmp (fst g) key) eqn:E; [|done].
    apply lookup_take_Some in Hj as [Hj Hji]. by destruct (Hlt _ _ Hj Hji).
Qed.

Lemma find_field_None {V} cmp key (fs : list (bytes * V)) :
  find_field cmp key fs = None <-> Forall (fun g => cmp (fst g) key = false) fs.
Proof.
  unfold find_field. rewrite list_find_None. split; intros H; (eapply Forall_impl; [exact H|]); intros f; simpl.
  - by destruct (cmp _ _).
  - intros ->. done.
Qed.

Lemma find_field_rep h cmp key fs al :
  Forall2 (field_rep h) fs al ->
  match find_field cmp key fs with
  | Some (i, f) => exists a, find_field cmp key al = Some (i, a) /\ field_rep h f a
  | None => find_field cmp key al = None
  end.
Proof.
  unfold find_field. induction 1 as [|f a fs al Hf Hfs IH]; simpl; [done|].
  pose proof Hf as [Hk _]. rewrite Hk. case_decide; [eauto|].
  destruct (list_find _ fs) as [[i g]|]; simpl.
  - destruct IH as (b & -> & Hb). simpl. eauto.
  - by rewrite IH.
Qed.

Lemma insert_mid {A} (l1 l2 : list A) x y : <[length l1 := y]> (l1 ++ x :: l2) = l1 ++ y :: l2.
Proof. replace (length l1) with (length l1 + 0)%nat by lia. by rewrite insert_app_r. Qed.

Lemma field_locs_app fs1 fs2 : field_locs (fs1 ++ fs2) = field_locs fs1 ++ field_locs fs2.
Proof. unfold field_locs. by rewrite omap_app. Qed.
Lemma field_locs_cons f fs : field_locs (f :: fs) =
  match value_loc (snd f) with Some l => l :: field_locs fs | None => field_locs fs end.
Proof. done. Qed.

Lemma elem_of_field_locs fs l : l ∈ field_locs fs <-> exists f, f ∈ fs /\ value_loc (snd f) = Some l.
Proof. unfold field_locs. by rewrite list_elem_of_omap. Qed.

Lemma unique_key {V} (fs : list (bytes * V)) f g :
  NoDup (lower_keys fs) -> f ∈ fs -> g ∈ fs -> map tolower (fst f) = map tolower (fst g) -> f = g.
Proof.
  unfold lower_keys. induction fs as [|x fs IH]; simpl; [set_solver|].
  rewrite NoDup_cons, !elem_of_cons. intros [Hx Hn] [->|Hf] [->|Hg] E; auto.
  - destruct Hx. rewrite E. apply (list_elem_of_fmap_2 (fun f => map tolower (fst f)) _ _ Hg).
  - destruct Hx. rewrite <- E. apply (list_elem_of_fmap_2 (fun f => map tolower (fst f)) _ _ Hf).
Qed.

(** *** Values and the heap *)

Lemma val_rep_frame h h' v a :
  (forall l, value_loc v = Some l -> strs h' !! l = strs h !! l) -> val_rep h v a -> val_rep h' v a.
Proof.
  intros Hl (Ht & Hd & Hok & Hr). split_and!; auto. intros Hdef. specialize (Hr Hdef).
  unfold data_rep, value_loc in *. rewrite Hd, Hdef in Hl. destruct (v_data v); auto.
  destruct Hr as (s' & c & Hs & Hc & Ha). exists s', c. rewrite Hl; auto.
Qed.

Lemma fields_rep_frame h h' fs al :
  (forall l, l ∈ field_locs fs -> strs h' !! l = strs h !! l) ->
  Forall2 (field_rep h) fs al -> Forall2 (field_rep h') fs al.
Proof.
  intros Hl H. revert Hl. induction H as [|f a fs al [Hk Hv] Hfs IH]; intros Hl; constructor.
  - split; [done|]. eapply val_rep_frame; [|exact Hv]. intros l E. apply Hl, elem_of_field_locs. set_solver.
  - apply IH. intros l Hin. apply Hl. rewrite elem_of_field_locs in *. set_solver.
Qed.

Lemma val_rep_live h v a l : val_rep h v a -> value_loc v = Some l -> is_Some (strs h !! l).
Proof.
  intros (Ht & Hd & _ & Hr). unfold value_loc. rewrite Hd. destruct (v_defined a =? TRUE) eqn:E; [|done].
  tests. specialize (Hr E). unfold data_rep in Hr. destruct (v_data v); try done. intros [= ->].
  destruct Hr as (? & ? & -> & _). eauto.
Qed.

Lemma fields_rep_live h fs al l :
  Forall2 (field_rep h) fs al -> l ∈ field_locs fs -> is_Some (strs h !! l).
Proof.
  intros H Hl. apply elem_of_field_locs in Hl as (f & Hf & E).
  apply list_elem_of_lookup in Hf as [i Hi]. destruct (Forall2_lookup_l _ _ _ _ _ H Hi) as (a & _ & [_ Hv]).
  by eapply val_rep_live.
Qed.

(** [heap_without h o]: the heap after the string [o] was freed. *)
Definition heap_without (o : option loc) (h : heap) : heap :=
  Heap (match o with Some l => delete l (strs h) | None => strs h end) (fresh_loc h).

Lemma load_str_run h l s : strs h !! l = Some s -> load_str l h = (h, Ret s).
Proof. unfold load_str. by intros ->. Qed.

Lemma nx_string_free_run h l s :
  strs h !! l = Some s -> nx_string_free l h = (heap_without (Some l) h, Ret tt).
Proof. intros Hs. unfold nx_string_free. by erewrite cmd_bind_Ret by (by apply load_str_run). Qed.

Lemma update_str_run h l s f s' :
  strs h !! l = Some s -> f s = Ret s' ->
  update_str l f h = (Heap (<[l := s']> (strs h)) (fresh_loc h), Ret tt).
Proof.
  intros Hs Hf. unfold update_str. erewrite cmd_bind_Ret by (by apply load_str_run). by rewrite Hf.
Qed.

Lemma on_heap_run {A} (c : cmd heap A) h d h' r : c h = (h', r) -> on_heap c (h, d) = ((h', d), r).
Proof. unfold on_heap. simpl. by intros ->. Qed.

Lemma value_free_rep h v a : val_rep h v a -> nx_value_free v h = (heap_without (value_loc v) h, Ret tt).
Proof.
  intros (Ht & Hd & Hok & Hr). unfold nx_value_free, nx_value_kill, value_loc, heap_without. rewrite Hd.
  destruct Hok as [[Hdef Hok]|Hdef]; rewrite Hdef in *; [|by destruct h].
  specialize (Hr eq_refl). simpl. rewrite Ht. unfold data_rep in Hr.
  destruct v as [t df d], a as [t' df' a]. simpl in *. subst.
  destruct d; try subst a; destruct t'; simpl in Hok; try contradiction; try (by destruct h);
    try (destruct Hok as (_ & _ & Hm); destruct more; [by destruct h|done]).
  all: destruct Hr as (s' & c & Hs & Hc & ->); simpl in Hok; try contradiction.
  unfold mbind, cmd_bind, lift, string_ptr. simpl. by rewrite (nx_string_free_run _ _ _ Hs).
Qed.

(** ** The operations refine the specification *)

Lemma heap_without_lookup o h l : o <> Some l -> strs (heap_without o h) !! l = strs h !! l.
Proof. destruct o as [k|]; [|done]. simpl. intros Hk. rewrite lookup_delete_ne; congruence. Qed.

Lemma heap_without_ok o h : heap_ok h -> heap_ok (heap_without o h).
Proof.
  intros Hh l [s Hs]. apply Hh. exists s. destruct o as [k|]; [|done]. simpl in Hs.
  by apply lookup_delete_Some in Hs as [_ Hs].
Qed.

(** The record without the field that was replaced or removed. *)
Lemma without_rep h fs1 k v fs2 al :
  Forall2 (field_rep h) (fs1 ++ (k, v) :: fs2) al -> NoDup (field_locs (fs1 ++ (k, v) :: fs2)) ->
  exists al1 a al2, al = al1 ++ (k, a) :: al2 /\ length al1 = length fs1 /\ val_rep h v a /\
    Forall2 (field_rep (heap_without (value_loc v) h)) fs1 al1 /\
    Forall2 (field_rep (heap_without (value_loc v) h)) fs2 al2 /\
    NoDup (field_locs (fs1 ++ fs2)) /\ (forall l, value_loc v = Some l -> l ∉ field_locs (fs1 ++ fs2)).
Proof.
  intros HF HN. apply Forall2_app_inv_l in HF as (al1 & al2' & H1 & H2 & ->).
  apply Forall2_cons_inv_l in H2 as ([k' a] & al2 & [Hk Hv] & H2 & ->). simpl in Hk. subst k'.
  rewrite field_locs_app, field_locs_cons in HN. simpl in HN.
  assert (NoDup (field_locs (fs1 ++ fs2)) /\ (forall l, value_loc v = Some l -> l ∉ field_locs (fs1 ++ fs2))) as [Hn Hl].
  { rewrite field_locs_app. destruct (value_loc v) as [l|]; [|done].
    rewrite NoDup_app, NoDup_cons in HN. destruct HN as (Hn1 & Hd & Hl2 & Hn2). split.
    - apply NoDup_app. split_and!; auto. set_solver.
    - intros l' [= <-]. set_solver. }
  rewrite field_locs_app in Hl.
  exists al1, a, al2. split_and!; auto.
  - symmetry. by eapply Forall2_length.
  - eapply fields_rep_frame; [|exact H1]. intros l Hin. apply heap_without_lookup. intros E. apply (Hl l E). set_solver.
  - eapply fields_rep_frame; [|exact H2]. intros l Hin. apply heap_without_lookup. intros E. apply (Hl l E). set_solver.
  - by rewrite field_locs_app.
Qed.

Lemma lower_keys_app {V} (fs1 fs2 : list (bytes * V)) : lower_keys (fs1 ++ fs2) = lower_keys fs1 ++ lower_keys fs2.
Proof. apply map_app. Qed.

(** Replacing the value of a field. *)
Lemma replace_inv h raw raw' fs1 k old fs2 al v a :
  inv h (Ld raw (fs1 ++ (k, old) :: fs2)) al -> val_rep h v a ->
  (forall l, value_loc v = Some l -> l ∉ field_locs (fs1 ++ (k, old) :: fs2)) ->
  (exists l, raw' = Some l /\ (raw_key, string_value l) ∈ fs1 ++ (k, v) :: fs2) ->
  inv (heap_without (value_loc old) h) (Ld raw' (fs1 ++ (k, v) :: fs2)) (<[length fs1 := (k, a)]> al).
Proof.
  intros [Hh HF HN HK _] Hv Hl Hraw. simpl in *.
  destruct (without_rep _ _ _ _ _ _ HF HN) as (al1 & aold & al2 & -> & L & Hold & H1 & H2 & Hn & Hlo).
  rewrite <- L, insert_mid. rewrite field_locs_app, field_locs_cons in Hl. simpl in Hl.
  rewrite field_locs_app in Hn, Hlo. constructor; simpl; auto.
  - by apply heap_without_ok.
  - apply Forall2_app; [done|]. constructor; [|done]. split; [done|]. eapply val_rep_frame; [|exact Hv].
    intros l E. apply heap_without_lookup. intros E'. apply (Hl l E). rewrite E'. set_solver.
  - rewrite field_locs_app, field_locs_cons. simpl. destruct (value_loc v) as [l|]; [|done].
    specialize (Hl l eq_refl). apply NoDup_app in Hn as (Hn1 & Hd & Hn2).
    assert (l ∉ field_locs fs1 /\ l ∉ field_locs fs2) as [? ?] by (destruct (value_loc old); set_solver).
    apply NoDup_app. split_and!; [done|set_solver|by apply NoDup_cons].
  - by rewrite lower_keys_app in *.
Qed.

(** Adding a field. *)
Lemma append_inv h d al key v a :
  inv h d al -> val_rep h v a -> (forall l, value_loc v = Some l -> l ∉ field_locs (fields d)) ->
  find_field strcasecmp_eq key (fields d) = None ->
  inv h (nx_logdata_append_field_value key v d) (al ++ [(key, a)]).
Proof.
  intros [Hh HF HN HK (l & Hr & Hin)] Hv Hl Hnone. constructor; simpl; auto.
  - apply Forall2_app; [done|]. constructor; [by split|constructor].
  - rewrite field_locs_app, field_locs_cons. simpl. destruct (value_loc v) as [l'|]; [|by rewrite app_nil_r].
    apply NoDup_app. split_and!; [done|set_solver|apply NoDup_singleton].
  - rewrite lower_keys_app. apply NoDup_app. split_and!; [done| |apply NoDup_singleton].
    intros x Hx. simpl. rewrite list_elem_of_singleton. intros ->.
    apply list_elem_of_fmap_1 in Hx as (f & E & Hf). apply find_field_None in Hnone.
    rewrite Forall_forall in Hnone. specialize (Hnone f Hf). apply strcasecmp_eq_false in Hnone. by symmetry in E.
  - exists l. split; [done|]. set_solver.
Qed.

(** A key that is not the name of [raw_event] in another case, and a value that
    may be stored under it. *)
Definition settable (key : bytes) (a : value) : Prop :=
  strcasecmp_eq key raw_key = true ->
  key = raw_key /\ v_defined a = TRUE /\ v_type a = NX_VALUE_TYPE_STRING.

Lemma frame_without h d v : (forall l, value_loc v = Some l -> l ∈ field_locs (fields d)) ->
  frame h (heap_without (value_loc v) h) d.
Proof.
  intros Hl. split; [simpl; lia|]. intros l _ Hn. apply heap_without_lookup. intros E. by apply Hn, Hl.
Qed.

Lemma raw_field_key h d al k v :
  inv h d al -> (k, v) ∈ fields d -> map tolower k = map tolower raw_key -> k = raw_key /\
    exists l, raw_event d = Some l /\ v = string_value l.
Proof.
  intros [_ _ _ HK (l & Hr & Hin)] Hk E.
  pose proof (unique_key _ _ _ HK Hk Hin E) as [= -> ->]. eauto.
Qed.

Section refinement.
Context `{M : Malloc} `{E : ValueEnv}.

Lemma set_raw_event_rep h raw fs1 k old fs2 al key v a :
  inv h (Ld raw (fs1 ++ (k, old) :: fs2)) al -> val_rep h v a -> settable key a ->
  map tolower k = map tolower key ->
  exists raw', set_raw_event key v (h, Ld raw (fs1 ++ (k, old) :: fs2)) =
      ((h, Ld raw' (fs1 ++ (k, old) :: fs2)), Ret tt) /\
    (exists l, raw' = Some l /\ (raw_key, string_value l) ∈ fs1 ++ (k, v) :: fs2).
Proof.
  intros Hinv Hv Hset Hc. unfold settable in Hset. unfold set_raw_event.
  destruct (strcmp_eq key raw_key) eqn:Er; tests.
  - subst key. destruct Hset as (_ & Hd & Ht); [by apply strcasecmp_eq_true|].
    destruct Hv as (Ht' & Hd' & Hok & Hr). specialize (Hr Hd). rewrite Hd', Ht', Hd, Ht. simpl.
    destruct Hok as [[_ Hok]|Hok]; [|rewrite Hd in Hok; discriminate]. rewrite Ht in Hok.
    destruct v as [t df dv], a as [ta dfa da]. simpl in *. subst. unfold data_rep in Hr.
    destruct dv; try (subst da; contradiction). exists (Some s). split; [done|]. exists s. split; [done|].
    destruct (raw_field_key _ _ _ k old Hinv) as [-> _]; [simpl; set_solver|done|].
    unfold string_value. set_solver.
  - exists raw. split; [done|]. destruct (inv_raw _ _ _ Hinv) as (l & Hr & Hin). simpl in *. exists l. split; [done|].
    apply elem_of_app in Hin as [Hin|[Hin|Hin]%elem_of_cons]; [set_solver| |set_solver].
    injection Hin as <- _. destruct Hset; [by apply strcasecmp_eq_true|done].
Qed.

Lemma set_field_value_rep h d al key v a :
  inv h d al -> val_rep h v a -> (forall l, value_loc v = Some l -> l ∉ field_locs (fields d)) -> settable key a ->
  exists h' d', nx_logdata_set_field_value key v (h, d) = ((h', d'), Ret tt) /\
    inv h' d' (alist_set key a al) /\ frame h h' d /\ fresh_loc h' = fresh_loc h /\
    (forall l, l ∈ field_locs (fields d') -> l ∈ field_locs (fields d) \/ value_loc v = Some l).
Proof.
  intros Hinv Hv Hl Hset. pose proof (inv_fields _ _ _ Hinv) as HF.
  unfold nx_logdata_set_field_value, alist_set. erewrite cmd_bind_Ret by reflexivity. simpl.
  pose proof (find_field_rep h strcasecmp_eq key _ _ HF) as Hfind.
  destruct (find_field strcasecmp_eq key (fields d)) as [[i [k old]]|] eqn:Ef.
  - destruct Hfind as ([k' aold] & -> & [Hk Hold]). simpl in Hk. subst k'.
    apply find_field_Some in Ef as (fs1 & fs2 & Hfs & -> & Hc & _). simpl in Hc.
    apply strcasecmp_eq_true in Hc. destruct d as [raw fs]. simpl in *. subst fs.
    destruct (set_raw_event_rep h raw fs1 k old fs2 al key v a) as (raw' & Hrun & Hraw'); auto.
    erewrite cmd_bind_Ret by exact Hrun. do 2 eexists. split.
    { erewrite cmd_bind_Ret by (eapply on_heap_run, value_free_rep, Hold). unfold modify. simpl.
      rewrite insert_mid. unfold set_fields. simpl. reflexivity. }
    split_and!; [by eapply replace_inv| |done|].
    + apply (frame_without h (Ld raw (fs1 ++ (k, old) :: fs2))). intros l El. simpl.
      rewrite field_locs_app, field_locs_cons. simpl. rewrite El. set_solver.
    + simpl. intros l. rewrite !field_locs_app, !field_locs_cons. simpl.
      destruct (value_loc v), (value_loc old); set_solver.
  - rewrite Hfind. do 2 eexists. split; [reflexivity|]. split_and!; [by apply append_inv|split; [simpl; reflexivity|done]|done|].
    simpl. intros l. rewrite field_locs_app, field_locs_cons. simpl. destruct (value_loc v); set_solver.
Qed.

End refinement.

(** *** The alias [raw_event] *)

Lemma find_unique {V} (cmp : bytes -> bytes -> bool) k (fs1 fs2 : list (bytes * V)) v :
  (forall x, cmp x k = true -> map tolower x = map tolower k) -> cmp k k = true ->
  NoDup (lower_keys (fs1 ++ (k, v) :: fs2)) ->
  find_field cmp k (fs1 ++ (k, v) :: fs2) = Some (length fs1, (k, v)).
Proof.
  intros Hc Hr HN. apply list_find_Some. split_and!; [by rewrite list_lookup_middle|done|].
  intros j f Hj Hlt Hf. apply Hc in Hf. rewrite lookup_app_l in Hj by done.
  unfold lower_keys in HN. rewrite map_app in HN. simpl in HN. apply NoDup_app in HN as (_ & Hd & _).
  apply (Hd (map tolower (fst f))); [|rewrite Hf; set_solver].
  apply (list_elem_of_fmap_2 (fun f => map tolower (fst f))). by eapply list_elem_of_lookup_2.
Qed.

Lemma strcasecmp_refl k : strcasecmp_eq k k = true.
Proof. by apply strcasecmp_eq_true. Qed.
Lemma strcmp_refl k : strcmp_eq k k = true.
Proof. by apply strcmp_eq_true. Qed.
Lemma strcmp_lower x k : strcmp_eq x k = true -> map tolower x = map tolower k.
Proof. intros H. tests. by subst. Qed.
Lemma strcasecmp_lower x k : strcasecmp_eq x k = true -> map tolower x = map tolower k.
Proof. apply strcasecmp_eq_true. Qed.

Lemma lower_keys_rep h fs al : Forall2 (field_rep h) fs al -> lower_keys al = lower_keys fs.
Proof. unfold lower_keys. induction 1 as [|f a fs al [Hk _] _ IH]; simpl; congruence. Qed.

Lemma str_rep_is_string h l c : data_rep h (DString l) (DString c) -> exists s, strs h !! l = Some s /\ str_rep s c.
Proof. intros (s & c' & Hs & Hc & [= <-]). eauto. Qed.

(** The field [raw_event] is an alias of, and the effect on the record of
    replacing its string. *)
Lemma raw_alias h d al :
  inv h d al ->
  exists l s c al1 al2, raw_event d = Some l /\ strs h !! l = Some s /\ str_rep s c /\
    l ∈ field_locs (fields d) /\
    al = al1 ++ (raw_key, str_value c) :: al2 /\ NoDup (lower_keys al) /\
    (forall s' c', str_rep s' c' ->
       inv (Heap (<[l := s']> (strs h)) (fresh_loc h)) d (al1 ++ (raw_key, str_value c') :: al2)).
Proof.
  intros [Hh HF HN HK (l & Hr & Hin)]. apply list_elem_of_split in Hin as (fs1 & fs2 & Hfs).
  rewrite Hfs in *. pose proof (lower_keys_rep _ _ _ HF) as HKal.
  destruct (without_rep _ _ _ _ _ _ HF HN) as (al1 & a & al2 & -> & L & Hv & _ & _ & _ & Hlo).
  specialize (Hlo l eq_refl). rewrite field_locs_app in Hlo.
  destruct Hv as (Ht & Hd & Hok & Hdat). destruct a as [ta dfa da]. simpl in *. subst. specialize (Hdat eq_refl).
  destruct Hdat as (s & c & Hs & Hc & ->).
  exists l, s, c, al1, al2. split_and!; auto.
  - rewrite field_locs_app, field_locs_cons. simpl. set_solver.
  - by rewrite HKal.
  - intros s' c' Hc'. apply Forall2_app_inv_l in HF as (a1 & a2 & H1 & H2 & E).
    apply Forall2_cons_inv_l in H2 as (a & a2' & _ & H2 & ->).
    apply app_inj_1 in E as [-> [= <- ->]]; [|by rewrite L; eapply Forall2_length].
    constructor; simpl; rewrite ?Hfs; auto.
    + intros l' [s'' Hl']. simpl in *. apply lookup_insert_Some in Hl' as [[<- _]|[_ Hl']]; apply Hh; eauto.
    + apply Forall2_app; [eapply fields_rep_frame; [|exact H1]|constructor; [|eapply fields_rep_frame; [|exact H2]]].
      * intros l' Hl'. simpl. rewrite lookup_insert_ne; [done|]. set_solver.
      * split; [done|]. split_and!; simpl; auto. intros _. exists s', c'. by simplify_map_eq.
      * intros l' Hl'. simpl. rewrite lookup_insert_ne; [done|]. set_solver.
    + exists l. split; [done|]. set_solver.
Qed.

Lemma frame_refl h d : frame h h d.
Proof. by split. Qed.

Lemma frame_update h d l s : l ∈ field_locs (fields d) ->
  frame h (Heap (<[l := s]> (strs h)) (fresh_loc h)) d.
Proof. intros Hl. split; [simpl; reflexivity|]. intros l' _ Hn. simpl. rewrite lookup_insert_ne; [done|set_solver]. Qed.

Lemma alist_get_mid al1 k a al2 : NoDup (lower_keys (al1 ++ (k, a) :: al2)) ->
  alist_get k (al1 ++ (k, a) :: al2) = Some a.
Proof.
  intros HN. unfold alist_get. by rewrite (find_unique strcasecmp_eq) by (auto using strcasecmp_lower, strcasecmp_refl).
Qed.
Lemma alist_set_mid al1 k a al2 b : NoDup (lower_keys (al1 ++ (k, a) :: al2)) ->
  alist_set k b (al1 ++ (k, a) :: al2) = al1 ++ (k, b) :: al2.
Proof.
  intros HN. unfold alist_set. rewrite (find_unique strcasecmp_eq) by (auto using strcasecmp_lower, strcasecmp_refl).
  by rewrite insert_mid.
Qed.

Section refinement2.
Context `{M : Malloc} `{E : ValueEnv}.

Lemma append_logline_rep h d al ptr n :
  inv h d al -> 0 <= n <= zlen ptr ->
  exists h' c, nx_logdata_append_logline ptr n (h, d) = ((h', d), Ret tt) /\
    alist_get raw_key al = Some (str_value c) /\
    inv h' d (alist_set raw_key (str_value (spec_append c (take (Z.to_nat n) ptr))) al) /\ frame h h' d /\
    fresh_loc h' = fresh_loc h.
Proof.
  intros Hinv Hn. destruct (raw_alias _ _ _ Hinv) as (l & s & c & al1 & al2 & Hr & Hs & Hc & Hin & -> & HK & Hup).
  destruct (nx_string_append_rep s c ptr n Hc Hn) as (s' & Hrun & Hs').
  exists (Heap (<[l := s']> (strs h)) (fresh_loc h)), c. split_and!.
  - unfold nx_logdata_append_logline. erewrite cmd_bind_Ret by reflexivity. simpl. rewrite Hr.
    do 2 (erewrite cmd_bind_Ret by reflexivity). by apply on_heap_run, (update_str_run _ _ s).
  - by rewrite alist_get_mid.
  - rewrite alist_set_mid by done. by apply Hup.
  - by apply frame_update.
  - done.
Qed.

Lemma delete_field_rep h d al key :
  inv h d al ->
  exists h' d', nx_logdata_delete_field key (h, d) = ((h', d'), Ret (snd (alist_delete key al))) /\
    inv h' d' (fst (alist_delete key al)) /\ frame h h' d /\ fresh_loc h' = fresh_loc h.
Proof.
  intros Hinv. pose proof (inv_fields _ _ _ Hinv) as HF. unfold nx_logdata_delete_field, alist_delete.
  erewrite cmd_bind_Ret by reflexivity. simpl. pose proof (find_field_rep h strcmp_eq key _ _ HF) as Hfind.
  destruct (find_field strcmp_eq key (fields d)) as [[i [k v]]|] eqn:Ef.
  2:{ rewrite Hfind. exists h, d. split_and!; auto using frame_refl. }
  destruct Hfind as ([k' a] & Hfal & [Hk Hv]). simpl in Hk. subst k'. rewrite Hfal.
  apply find_field_Some in Ef as (fs1 & fs2 & Hfs & -> & Hc & _). simpl in Hc. tests. subst k.
  destruct (decide (key = raw_key)) as [->|Hne].
  - rewrite strcmp_refl, (bool_decide_true (raw_key = raw_key)) by done.
    destruct (raw_field_key _ _ _ raw_key v Hinv) as (_ & l & Hr & ->); [rewrite Hfs; set_solver|done|].
    destruct (raw_alias _ _ _ Hinv) as (l' & s & c & al1 & al2 & Hr' & Hs & Hcr & Hin & -> & HK & Hup).
    assert (l' = l) as -> by congruence. erewrite cmd_bind_Ret by reflexivity. rewrite Hr.
    do 2 (erewrite cmd_bind_Ret by reflexivity). erewrite cmd_bind_Ret by (by apply on_heap_run, load_str_run).
    rewrite (find_unique strcmp_eq) in Hfal by (auto using strcmp_lower, strcmp_refl).
    injection Hfal as HL <-. simpl. pose proof Hcr as (_ & _ & _ & Hlen & _). rewrite Hlen.
    destruct c as [|x c]; [exists h, d; split_and!; auto using frame_refl|].
    destruct (nx_string_set_rep s (x :: c) [x00] 0 Hcr) as (s' & Hrun & Hs'); [simpl; lia|unfold string_limit; lia|].
    exists (Heap (<[l := s']> (strs h)) (fresh_loc h)), d. rewrite <- HL, insert_mid. split_and!; auto.
    + simpl. by erewrite cmd_bind_Ret by (by apply on_heap_run, (update_str_run _ _ s)).
    + by apply (Hup s' []).
    + by apply frame_update.
  - rewrite (proj2 (strcmp_eq_false _ _)), (bool_decide_false (key = raw_key)) by done. simpl. destruct d as [raw fs]. simpl in *. subst fs.
    destruct Hinv as [Hh _ HN HK (l & Hr & Hin)]. simpl in *.
    destruct (without_rep _ _ _ _ _ _ HF HN) as (al1 & a' & al2 & -> & L & Hv' & H1 & H2 & Hn & Hlo).
    do 2 eexists. split_and!.
    + erewrite cmd_bind_Ret by reflexivity. simpl.
      erewrite cmd_bind_Ret by (by eapply on_heap_run, value_free_rep). reflexivity.
    + unfold set_fields. simpl. rewrite delete_middle, <- L, delete_middle. constructor; simpl; auto.
      * by apply heap_without_ok.
      * by apply Forall2_app.
      * rewrite lower_keys_app in *. apply NoDup_app in HK as (K1 & Kd & K2). apply NoDup_cons in K2 as [_ K2].
        apply NoDup_app. set_solver.
      * exists l. split; [done|]. set_solver.
    + apply (frame_without h (Ld raw (fs1 ++ (key, v) :: fs2))). intros l' E'. simpl.
      rewrite field_locs_app, field_locs_cons. simpl. rewrite E'. set_solver.
    + done.
Qed.

End refinement2.

Lemma defined_string_rep h v a :
  val_rep h v a -> v_defined a = TRUE -> v_type a = NX_VALUE_TYPE_STRING -> exists l, v = string_value l.
Proof.
  intros (Ht & Hd & Hok & Hr) Hdef Hty. specialize (Hr Hdef). destruct v as [t df d], a as [ta dfa da]. simpl in *. subst.
  destruct Hok as [[_ Hok]|Hok]; [|discriminate]. simpl in Hok. destruct d; simpl in Hr; try (subst da; contradiction).
  eauto.
Qed.

Section refinement3.
Context `{M : Malloc} `{E : ValueEnv}.

(** Refused values of [raw_event]: the record is unchanged, the value freed. *)
Lemma set_raw_refused h d al v a :
  inv h d al -> val_rep h v a -> nx_value_type_to_string (v_type a) <> Panic "invalid value type: %d" ->
  ~ (v_defined a = TRUE /\ v_type a = NX_VALUE_TYPE_STRING) ->
  exists e, nx_logdata_set_field_value raw_key v (h, d) = ((heap_without (value_loc v) h, d), Throw e).
Proof.
  intros Hinv Hv Hty Hno. unfold nx_logdata_set_field_value. erewrite cmd_bind_Ret by reflexivity. simpl.
  destruct (inv_raw _ _ _ Hinv) as (l & Hr & Hin). apply list_elem_of_split in Hin as (fs1 & fs2 & Hfs).
  pose proof (inv_keys _ _ _ Hinv) as HK. rewrite Hfs in *.
  rewrite (find_unique strcasecmp_eq) by (auto using strcasecmp_lower, strcasecmp_refl).
  unfold set_raw_event. rewrite strcmp_refl. pose proof Hv as (Ht & Hd & _). rewrite Ht, Hd.
  destruct ((v_defined a =? TRUE) && bool_decide (v_type a = NX_VALUE_TYPE_STRING)) eqn:Eq; [tests; by destruct Hno|].
  destruct (bool_decide (v_type a = NX_VALUE_TYPE_STRING)) eqn:Es; simpl; eexists; eapply cmd_bind_Throw;
    (erewrite cmd_bind_Ret by (by eapply on_heap_run, value_free_rep)); [reflexivity|].
  destruct (nx_value_type_to_string (v_type a)) eqn:En; [reflexivity| | |];
    unfold nx_value_type_to_string in *; destruct (list_find _ _) as [[??]|]; congruence.
Qed.

Lemma set_field_rep h d al key v a :
  inv h d al -> val_rep h v a -> (forall l, value_loc v = Some l -> l ∉ field_locs (fields d)) ->
  (strcasecmp_eq key raw_key = true -> v_defined a = TRUE /\ v_type a = NX_VALUE_TYPE_STRING) ->
  exists h' d', nx_logdata_set_field (key, v) (h, d) = ((h', d'), Ret tt) /\
    inv h' d' (alist_set key a al) /\ frame h h' d.
Proof.
  intros Hinv Hv Hl Hset. pose proof (inv_fields _ _ _ Hinv) as HF.
  unfold nx_logdata_set_field, alist_set. erewrite cmd_bind_Ret by reflexivity. simpl.
  pose proof (find_field_rep h strcasecmp_eq key _ _ HF) as Hfind.
  destruct (find_field strcasecmp_eq key (fields d)) as [[i [k old]]|] eqn:Ef.
  2:{ rewrite Hfind. do 2 eexists. split; [reflexivity|]. split; [by apply append_inv|apply frame_refl]. }
  destruct Hfind as ([k' aold] & -> & [Hk Hold]). simpl in Hk. subst k'.
  apply find_field_Some in Ef as (fs1 & fs2 & Hfs & -> & Hc & _). simpl in Hc. apply strcasecmp_eq_true in Hc.
  destruct d as [raw fs]. simpl in *. subst fs.
  erewrite cmd_bind_Ret by (by eapply on_heap_run, value_free_rep). erewrite cmd_bind_Ret by reflexivity.
  unfold set_fields. simpl. rewrite insert_mid.
  assert (frame h (heap_without (value_loc old) h) (Ld raw (fs1 ++ (k, old) :: fs2))) as Hframe.
  { apply frame_without. intros l El. simpl. rewrite field_locs_app, field_locs_cons. simpl. rewrite El. set_solver. }
  destruct (strcmp_eq k raw_key) eqn:Ek; tests.
  - subst k. destruct Hset as [Hd Ht]; [by apply strcasecmp_eq_true|].
    destruct (defined_string_rep _ _ _ Hv Hd Ht) as [l ->]. do 2 eexists. split; [reflexivity|]. split; [|done].
    eapply replace_inv; [exact Hinv|done|done|]. exists l. split; [done|]. set_solver.
  - do 2 eexists. split; [reflexivity|]. split; [|done]. eapply replace_inv; [exact Hinv|done|done|].
    destruct (inv_raw _ _ _ Hinv) as (l & Hr & Hin). simpl in *. exists l. split; [done|]. set_solver.
Qed.

Lemma get_field_value_rep h d al key :
  inv h d al ->
  match alist_get key al with
  | Some a => exists v, nx_logdata_get_field_value key d = (true, v) /\ val_rep h v a
  | None => nx_logdata_get_field_value key d = (false, NxValue NX_VALUE_TYPE_UNKNOWN FALSE DUninit)
  end.
Proof.
  intros [_ HF _ _ _]. unfold alist_get, nx_logdata_get_field_value.
  pose proof (find_field_rep h strcasecmp_eq key _ _ HF) as Hfind.
  destruct (find_field strcasecmp_eq key (fields d)) as [[i [k v]]|]; [|by rewrite Hfind].
  destruct Hfind as ([k' a] & -> & [_ Hv]). simpl. eauto.
Qed.

(** *** Renaming *)

Lemma NoDup_replace {A} (l : list A) i x : NoDup l -> x ∉ l -> NoDup (<[i := x]> l).
Proof.
  rewrite !NoDup_alt. intros HN Hx j k y Hj Hk.
  apply list_lookup_insert_Some in Hj as [(-> & <- & _)|[Hj1 Hj]], Hk as [(-> & Ek & _)|[Hk1 Hk]]; auto.
  - by apply list_elem_of_lookup_2 in Hk.
  - subst. by apply list_elem_of_lookup_2 in Hj.
  - by eapply HN.
Qed.

Lemma NoDup_move {A} (l : list A) i j x : NoDup l -> l !! j = Some x -> i <> j -> NoDup (delete j (<[i := x]> l)).
Proof.
  intros HN Hj Hij. apply list_elem_of_split_length in Hj as (l1 & l2 & -> & ->).
  rewrite <- Permutation_middle, NoDup_cons in HN. destruct HN as (Hx & HN).
  destruct (decide (i < length l1)%nat).
  - rewrite insert_app_l by done. rewrite <- (length_insert l1 i x), delete_middle, <- insert_app_l by done.
    apply NoDup_replace; set_solver.
  - destruct (i - length l1)%nat as [|i'] eqn:Ei; [lia|]. replace i with (length l1 + S i')%nat by lia.
    rewrite insert_app_r. simpl. rewrite delete_middle, <- insert_app_r. apply NoDup_replace; set_solver.
Qed.

Lemma lower_keys_insert {V} (fs : list (bytes * V)) i k v :
  lower_keys (<[i := (k, v)]> fs) = <[i := map tolower k]> (lower_keys fs).
Proof. unfold lower_keys. apply (list_fmap_insert (fun f => map tolower (fst f))). Qed.

Lemma lower_keys_delete {V} (fs : list (bytes * V)) i : lower_keys (delete i fs) = delete i (lower_keys fs).
Proof. unfold lower_keys. apply (list_fmap_delete (fun f => map tolower (fst f))). Qed.

Lemma lower_keys_lookup {V} (fs : list (bytes * V)) i k v :
  fs !! i = Some (k, v) -> lower_keys fs !! i = Some (map tolower k).
Proof. intros H. unfold lower_keys. change (map ?f ?l) with (f <$> l). rewrite list_lookup_fmap, H. done. Qed.

Lemma field_locs_rename fs i k k' v : fs !! i = Some (k, v) -> field_locs (<[i := (k', v)]> fs) = field_locs fs.
Proof.
  intros H. apply list_elem_of_split_length in H as (l1 & l2 & -> & ->). rewrite insert_mid.
  by rewrite !field_locs_app, !field_locs_cons.
Qed.

Lemma field_locs_delete fs i : sublist (field_locs (delete i fs)) (field_locs fs).
Proof.
  revert i. induction fs as [|f fs IH]; intros [|i]; try done.
  - change (delete 0%nat (f :: fs)) with fs. rewrite field_locs_cons.
    destruct (value_loc _); [by apply sublist_cons|done].
  - change (delete (S i) (f :: fs)) with (f :: delete i fs). rewrite !field_locs_cons.
    destruct (value_loc _); [by apply sublist_skip|done].
Qed.

End refinement3.

Section refinement4.
Context `{M : Malloc} `{E : ValueEnv}.

(** The side conditions under which renaming keeps [raw_event] consistent. *)
Definition renamable (old new : bytes) (al : alist) : Prop :=
  strcasecmp_eq old raw_key = false /\
  (strcasecmp_eq new raw_key = true -> new = raw_key /\
     forall a, alist_get old al = Some a -> v_defined a = TRUE /\ v_type a = NX_VALUE_TYPE_STRING).

(** Renaming in the list of fields. *)
Definition renamed {V} (ex : option nat) (i : nat) (new : bytes) (w : V) (l : list (bytes * V)) : list (bytes * V) :=
  match ex with Some j => delete j (<[i := (new, w)]> l) | None => <[i := (new, w)]> l end.

Lemma rename_fields_inv h raw fs al i k v (a : value) new (ex : option nat) raw' :
  inv h (Ld raw fs) al -> fs !! i = Some (k, v) -> al !! i = Some (k, a) ->
  match ex with
  | Some j => j <> i /\ exists k' w, fs !! j = Some (k', w) /\ map tolower k' = map tolower new
  | None => map tolower new = map tolower k \/ map tolower new ∉ lower_keys fs
  end ->
  (exists l, raw' = Some l /\ (raw_key, string_value l) ∈ renamed ex i new v fs) ->
  inv h (Ld raw' (renamed ex i new v fs)) (renamed ex i new a al).
Proof.
  intros [Hh HF HN HK _] Hi Ha Hex Hraw. simpl in *.
  assert (field_rep h (new, v) (new, a)) as Hf.
  { destruct (Forall2_lookup_l _ _ _ _ _ HF Hi) as (a' & Ha' & [_ Hv]). rewrite Ha in Ha'. by injection Ha' as <-. }
  constructor; simpl; auto; unfold renamed; destruct ex as [j|].
  - by apply Forall2_delete, Forall2_insert.
  - by apply Forall2_insert.
  - eapply sublist_NoDup; [|apply field_locs_delete]. by erewrite field_locs_rename.
  - by erewrite field_locs_rename.
  - destruct Hex as (Hne & k' & w & Hj & Hk). rewrite lower_keys_delete, lower_keys_insert.
    apply NoDup_move; auto. rewrite <- Hk. by eapply lower_keys_lookup.
  - rewrite lower_keys_insert. destruct Hex as [Hk|Hk]; [|by apply NoDup_replace].
    rewrite list_insert_id; [done|]. rewrite Hk. by eapply lower_keys_lookup.
Qed.

Lemma find_field_lookup {V} cmp key (fs : list (bytes * V)) i f :
  find_field cmp key fs = Some (i, f) -> fs !! i = Some f /\ cmp (fst f) key = true.
Proof. unfold find_field. rewrite list_find_Some. naive_solver. Qed.

Lemma find_none_keys {V} key (fs : list (bytes * V)) :
  find_field strcasecmp_eq key fs = None -> map tolower key ∉ lower_keys fs.
Proof.
  rewrite find_field_None, Forall_forall. intros Hall Hin.
  apply list_elem_of_fmap_1 in Hin as (f & Ek & Hf). specialize (Hall f Hf). by apply strcasecmp_eq_false in Hall.
Qed.

Lemma raw_in_insert (fs : list field) (i : nat) k v new (l : loc) :
  fs !! i = Some (k, v) -> k <> raw_key -> (raw_key, string_value l) ∈ fs ->
  (raw_key, string_value l) ∈ <[i := (new, v)]> fs.
Proof.
  intros Hi Hk Hin. apply list_elem_of_split_length in Hi as (l1 & l2 & -> & ->). rewrite insert_mid. set_solver.
Qed.

Lemma rename_field_rep h d al old new :
  inv h d al -> renamable old new al ->
  exists d', nx_logdata_rename_field old new (h, d) = ((h, d'), Ret tt) /\ inv h d' (alist_rename old new al).
Proof.
  intros Hinv [Hold Hnew]. pose proof (inv_fields _ _ _ Hinv) as HF. destruct d as [raw fs]. simpl in *.
  unfold nx_logdata_rename_field, alist_rename. rewrite (proj2 (strcmp_eq_false old raw_key)).
  2:{ intros ->. by rewrite strcasecmp_refl in Hold. }
  erewrite cmd_bind_Ret by reflexivity. simpl.
  pose proof (find_field_rep h strcasecmp_eq old _ _ HF) as Hfo.
  pose proof (find_field_rep h strcasecmp_eq new _ _ HF) as Hfn.
  destruct (find_field strcasecmp_eq old fs) as [[i [k v]]|] eqn:Eo; [|rewrite Hfo; eauto].
  destruct Hfo as ([k' a] & Eoa & [Hk Hv]). simpl in Hk, Hv. subst k'.
  assert (alist_get old al = Some a) as Hget by (unfold alist_get; by rewrite Eoa).
  rewrite Eoa. apply find_field_lookup in Eo as [Hi Hc], Eoa as [Hia _].
  apply strcasecmp_eq_true in Hc. simpl in Hc. apply strcasecmp_eq_false in Hold.
  assert (k <> raw_key) as Hkr by (intros ->; by rewrite Hc in Hold).
  destruct (inv_raw _ _ _ Hinv) as (l & Hr & Hin). simpl in Hr, Hin.
  destruct (strcasecmp_eq old new) eqn:Eon.
  - apply strcasecmp_eq_true in Eon. eexists. split; [reflexivity|].
    apply (rename_fields_inv h raw fs al i k v a new None raw); auto; [left; congruence|].
    exists l. split; [done|]. by eapply raw_in_insert.
  - apply strcasecmp_eq_false in Eon.
    destruct (find_field strcasecmp_eq new fs) as [[j [k2 w]]|] eqn:En.
    + destruct Hfn as ([k2' a2] & -> & [Hk2 _]). simpl in Hk2. subst k2'.
      apply find_field_lookup in En as [Hj Hc2]. apply strcasecmp_eq_true in Hc2. simpl in Hc2.
      assert (j <> i) as Hji by (intros ->; congruence).
      destruct (strcmp_eq new raw_key) eqn:Er; tests.
      * subst new. destruct Hnew as [_ Hstr]; [by apply strcasecmp_eq_true|]. destruct (Hstr _ Hget) as [Hd Ht].
        destruct (defined_string_rep _ _ _ Hv Hd Ht) as [lv ->]. eexists. split; [reflexivity|].
        apply (rename_fields_inv h raw fs al i k _ a raw_key (Some j) (Some lv)); auto; [split; eauto|].
        exists lv. split; [done|]. unfold renamed. apply (list_elem_of_lookup_2 _ (if decide (i < j)%nat then i else (i - 1)%nat)).
        pose proof (lookup_lt_Some _ _ _ Hi). case_decide.
        -- by rewrite list_lookup_delete_lt, list_lookup_insert_eq.
        -- rewrite list_lookup_delete_ge by lia. replace (S (i - 1)) with i by lia. by rewrite list_lookup_insert_eq.
      * eexists. split; [reflexivity|].
        apply (rename_fields_inv h raw fs al i k v a new (Some j) raw); auto; [split; eauto|].
        exists l. split; [done|]. pose proof (raw_in_insert fs i k v new l Hi Hkr Hin) as Hin'.
        apply list_elem_of_lookup in Hin' as [m Hm].
        assert (m <> j) as Hmj.
        { intros ->. rewrite list_lookup_insert_ne, Hj in Hm by done. injection Hm as -> _.
          destruct Hnew as [-> _]; [|done]. by apply strcasecmp_eq_true. }
        unfold renamed. apply (list_elem_of_lookup_2 _ (if decide (m < j)%nat then m else (m - 1)%nat)). case_decide.
        -- by rewrite list_lookup_delete_lt.
        -- rewrite list_lookup_delete_ge by lia. by replace (S (m - 1)) with m by lia.
    + rewrite Hfn. eexists. split; [reflexivity|].
      apply (rename_fields_inv h raw fs al i k v a new None raw); auto; [right; by apply find_none_keys|].
      exists l. split; [done|]. by eapply raw_in_insert.
Qed.

End refinement4.

(** *** Creation, copying and destruction *)

(** Values [nx_value_clone] copies faithfully. *)
Definition clonable (a : value) : Prop :=
  (v_defined a = TRUE -> v_type a <> NX_VALUE_TYPE_REGEXP) /\
  match v_data a with DString c => zlen c < string_limit | _ => True end.

(** [h'] has the strings of [h] and possibly newer ones. *)
Definition extends (h h' : heap) : Prop :=
  (fresh_loc h <= fresh_loc h')%positive /\
  forall l, (l < fresh_loc h)%positive -> strs h' !! l = strs h !! l.

Lemma extends_refl h : extends h h.
Proof. by split. Qed.
Lemma extends_trans h1 h2 h3 : extends h1 h2 -> extends h2 h3 -> extends h1 h3.
Proof. intros [H1 E1] [H2 E2]. split; [lia|]. intros l Hl. rewrite E2, E1; [done|done|lia]. Qed.

Lemma heap_ok_lt h fs al l :
  heap_ok h -> Forall2 (field_rep h) fs al -> l ∈ field_locs fs -> (l < fresh_loc h)%positive.
Proof. intros Hh HF Hl. apply Hh. by eapply fields_rep_live. Qed.

Lemma extends_fields h h' fs al :
  heap_ok h -> extends h h' -> Forall2 (field_rep h) fs al -> Forall2 (field_rep h') fs al.
Proof. intros Hh [_ He] HF. eapply fields_rep_frame; [|exact HF]. intros l Hl. apply He. by eapply heap_ok_lt. Qed.

Lemma alloc_run h s : heap_ok h ->
  exists h', alloc s h = (h', Ret (fresh_loc h)) /\ extends h h' /\ heap_ok h' /\
    strs h' !! fresh_loc h = Some s /\ fresh_loc h' = Pos.succ (fresh_loc h).
Proof.
  intros Hh. eexists. split; [reflexivity|]. split_and!; simpl; [split; simpl; [lia|]| | |done].
  - intros l Hl. rewrite lookup_insert_ne; [done|lia].
  - intros l [s' Hl]. simpl in *. apply lookup_insert_Some in Hl as [[<- _]|[_ Hl]]; [lia|].
    assert (l < fresh_loc h)%positive by (apply Hh; eauto). lia.
  - by rewrite lookup_insert_eq.
Qed.

Section lifecycle.
Context `{M : Malloc} `{E : ValueEnv}.

Lemma value_clone_rep h v a :
  heap_ok h -> val_rep h v a -> clonable a ->
  exists h' v', nx_value_clone v h = (h', Ret v') /\ extends h h' /\ heap_ok h' /\ val_rep h' v' a /\
    v_type v' = v_type v /\
    (forall l, value_loc v' = Some l -> (fresh_loc h <= l < fresh_loc h')%positive) /\
    (forall l, v = string_value l -> exists l', v' = string_value l').
Proof.
  intros Hh Hv [Hre Hlen]. pose proof Hv as (Ht & Hd & Hok & Hr). unfold nx_value_clone. rewrite Hd.
  destruct Hok as [[Hdef Hok]|Hdef]; rewrite Hdef in *.
  2:{ simpl. exists h, (NxValue (v_type v) FALSE DUninit). split; [done|].
      split_and!; auto using extends_refl.
      - split_and!; simpl; auto; [by right|]. rewrite Hdef. discriminate.
      - done.
      - intros l ->. discriminate. }
  specialize (Hr eq_refl). specialize (Hre eq_refl). rewrite Z.eqb_refl, Ht.
  destruct (decide (v_type a = NX_VALUE_TYPE_STRING)) as [Hs|Hs].
  - destruct (defined_string_rep _ _ _ Hv Hdef Hs) as [l ->]. rewrite Hs. cbn [v_data string_value] in *.
    destruct Hr as (s & c & Hl & Hc & Ha). rewrite Ha in Hlen.
    destruct (nx_string_clone_rep s c Hc Hlen) as (s' & Hrun & Hs').
    destruct (alloc_run h s' Hh) as (h' & Hal & Hext & Hh' & Hnew & Hfr).
    exists h', (string_value (fresh_loc h)). split.
    { erewrite cmd_bind_Ret; [reflexivity|]. erewrite cmd_bind_Ret by reflexivity.
      erewrite cmd_bind_Ret by (by apply load_str_run). rewrite Hrun. erewrite cmd_bind_Ret by reflexivity.
      by erewrite cmd_bind_Ret by exact Hal. }
    split_and!; auto; [| |eauto].
    + split_and!; simpl; auto; [by left|]. intros _. exists s', c. auto.
    + unfold value_loc. simpl. intros ? [= <-]. lia.
  - assert (clone_plain v = Ret (v_data v)) as Hplain.
    { apply (clone_plain_ok (fun _ => True)); rewrite ?Ht; auto.
      destruct v as [t df d], a as [ta dfa da]. simpl in *. subst. unfold data_rep in Hr.
      destruct d; try subst da; destruct ta; try contradiction; auto.
      all: destruct Hr as (? & ? & _ & _ & ->); contradiction. }
    exists h, v. split_and!; auto using extends_refl.
    + rewrite Hplain. destruct v as [t df d]. simpl in *. subst. by destruct (v_type a).
    + intros l. unfold value_loc. rewrite Hd. simpl. unfold data_rep in Hr.
      destruct (v_data v) eqn:Ed; try done. destruct Hr as (? & ? & _ & _ & Ha). rewrite Ha in Hok.
      destruct (v_type a); contradiction.
    + eauto.
Qed.


Lemma redirect_raw_rep h raw v a v' new :
  val_rep h v a -> (forall l, v = string_value l -> exists l', v' = string_value l') ->
  exists r, redirect_raw (Some raw) v v' new h = (h, Ret (Ld r (fields new))) /\
    (value_loc v <> Some raw -> r = raw_event new) /\
    (v = string_value raw -> exists l', v' = string_value l' /\ r = Some l').
Proof.
  intros Hv Hstr. unfold redirect_raw. destruct new as [r0 f0].
  destruct (bool_decide (v_type v = NX_VALUE_TYPE_STRING) && (v_defined v =? TRUE)) eqn:Eq.
  - tests. pose proof Hv as (Ht & Hd & _). destruct (defined_string_rep _ _ _ Hv) as [l ->]; [congruence|congruence|].
    destruct (Hstr l eq_refl) as [l' ->]. erewrite cmd_bind_Ret by reflexivity. case_bool_decide as El.
    + exists (Some l'). split; [done|]. split; [|eauto]. unfold value_loc. simpl. congruence.
    + exists r0. split; [done|]. split; [done|]. intros [= ->]. done.
  - exists r0. split; [done|]. split; [done|]. intros ->. done.
Qed.

Lemma clone_fields_rep raw fs al new h :
  heap_ok h -> Forall2 (field_rep h) fs al -> Forall (fun f => clonable (snd f)) al -> NoDup (field_locs fs) ->
  exists h' fs' r, clone_fields (Some raw) fs new h = (h', Ret (Ld r (fields new ++ fs'))) /\
    extends h h' /\ heap_ok h' /\ Forall2 (field_rep h') fs' al /\
    NoDup (field_locs fs') /\ (forall l, l ∈ field_locs fs' -> (fresh_loc h <= l < fresh_loc h')%positive) /\
    (raw ∉ field_locs fs -> r = raw_event new) /\
    (forall k, (k, string_value raw) ∈ fs -> exists l', r = Some l' /\ (k, string_value l') ∈ fs').
Proof.
  revert al new h. induction fs as [|[k v] fs IH]; intros al new h Hh HF Hcl HN.
  - apply Forall2_nil_inv_l in HF as ->. exists h, [], (raw_event new). destruct new as [r f].
    split_and!; simpl; auto using extends_refl, NoDup_nil_2; try set_solver. by rewrite app_nil_r.
  - apply Forall2_cons_inv_l in HF as ([k' a] & al' & [Hk Hv] & HF & ->). simpl in Hk, Hv. subst k'.
    apply Forall_cons in Hcl as [Hc Hcl]. simpl in Hc. rewrite field_locs_cons in HN. simpl in HN.
    destruct (value_clone_rep h v a Hh Hv Hc) as (h1 & v' & Hrun & Hext & Hh1 & Hv' & Hty & Hloc & Hstr).
    assert (val_rep h1 v a) as Hv1.
    { eapply val_rep_frame; [|exact Hv]. intros l Hl. apply Hext, Hh. by eapply val_rep_live. }
    destruct (redirect_raw_rep h1 raw v a v' (nx_logdata_append_field_value k v' new) Hv1 Hstr) as (r1 & Hred & Hno & Hyes).
    assert (NoDup (field_locs fs)) as HNfs by (destruct (value_loc v); [by apply NoDup_cons in HN as [_ HN]|done]).
    destruct (IH al' (Ld r1 (fields new ++ [(k, v')])) h1 Hh1 (extends_fields _ _ _ _ Hh Hext HF) Hcl HNfs)
      as (h2 & fs' & r & Hrun2 & Hext2 & Hh2 & HF2 & HN2 & Hloc2 & Hmiss & Hhit).
    exists h2, ((k, v') :: fs'), r. pose proof Hext as [Hle _]. pose proof Hext2 as [Hle2 Hsame2]. split_and!; auto.
    + simpl. erewrite cmd_bind_Ret by exact Hrun. erewrite cmd_bind_Ret by exact Hred.
      etransitivity; [exact Hrun2|]. simpl.
      by rewrite <- app_assoc.
    + by eapply extends_trans.
    + constructor; [|done]. split; [done|]. eapply val_rep_frame; [|exact Hv']. simpl. intros l Hl.
      apply Hsame2. destruct (Hloc l Hl). lia.
    + rewrite field_locs_cons. simpl. destruct (value_loc v') as [l|]; [|done]. apply NoDup_cons. split; [|done].
      intros Hin. destruct (Hloc2 l Hin), (Hloc l eq_refl). lia.
    + intros l. rewrite field_locs_cons. simpl. destruct (value_loc v') as [l1|]; [|intros Hin; destruct (Hloc2 l Hin); lia].
      intros [->|Hin]%elem_of_cons; [destruct (Hloc l1 eq_refl); lia|destruct (Hloc2 l Hin); lia].
    + rewrite field_locs_cons. simpl. intros Hn. rewrite Hmiss by (destruct (value_loc v); set_solver). simpl.
      apply Hno. intros Ev. rewrite Ev in Hn. set_solver.
    + intros k0 [Heq|Hin]%elem_of_cons.
      * injection Heq as -> <-. simpl in HN. apply NoDup_cons in HN as [Hn _].
        destruct (Hyes eq_refl) as (l' & -> & ->). exists l'. split; [by apply Hmiss|set_solver].
      * destruct (Hhit k0 Hin) as (l' & -> & Hin'). exists l'. split; [done|set_solver].
Qed.

Lemma logdata_clone_rep h d al :
  inv h d al -> Forall (fun f => clonable (snd f)) al ->
  exists h' d', nx_logdata_clone d h = (h', Ret d') /\ inv h' d' al /\ inv h' d al /\ extends h h' /\
    (forall l, l ∈ field_locs (fields d') -> (fresh_loc h <= l)%positive).
Proof.
  intros [Hh HF HN HK (l & Hr & Hin)] Hcl. unfold nx_logdata_clone. rewrite Hr.
  destruct (clone_fields_rep l (fields d) al (Ld None []) h Hh HF Hcl HN)
    as (h' & fs' & r & Hrun & Hext & Hh' & HF' & HN' & Hloc & _ & Hhit).
  destruct (Hhit _ Hin) as (l' & -> & Hin'). exists h', (Ld (Some l') fs'). split_and!; auto.
  - by erewrite cmd_bind_Ret by exact Hrun.
  - constructor; simpl; eauto. by rewrite <- (lower_keys_rep _ _ _ HF'), (lower_keys_rep _ _ _ HF).
  - constructor; eauto using extends_fields.
  - intros l0 Hl0. destruct (Hloc l0 Hl0). lia.
Qed.

Lemma free_fields_rep h fs al :
  Forall2 (field_rep h) fs al -> NoDup (field_locs fs) ->
  exists h', free_fields fs h = (h', Ret tt) /\ fresh_loc h' = fresh_loc h /\
    forall l, strs h' !! l = if decide (l ∈ field_locs fs) then None else strs h !! l.
Proof.
  revert h al. induction fs as [|[k v] fs IH]; intros h al HF HN; [by exists h|].
  apply Forall2_cons_inv_l in HF as ([k' a] & al' & [_ Hv] & HF & ->). simpl in Hv.
  rewrite field_locs_cons in HN |- *. simpl in *.
  destruct (IH (heap_without (value_loc v) h) al') as (h' & Hrun & Hf & Hl).
  - eapply fields_rep_frame; [|exact HF]. intros l Hl. apply heap_without_lookup. intros Ev. rewrite Ev in HN.
    by apply NoDup_cons in HN as [? _].
  - destruct (value_loc v); [by apply NoDup_cons in HN as [_ ?]|done].
  - exists h'. split_and!; [by erewrite cmd_bind_Ret by (by eapply value_free_rep)|done|].
    intros l. rewrite Hl. destruct (value_loc v) as [l1|]; [|done]. simpl.
    destruct (decide (l = l1)) as [->|Hne].
    + rewrite lookup_delete_eq, (decide_True (P := l1 ∈ l1 :: field_locs fs)) by set_solver. by case_decide.
    + rewrite lookup_delete_ne by done. repeat case_decide; try done; set_solver.
Qed.

Lemma new_record_inv h l s c :
  heap_ok h -> strs h !! l = Some s -> str_rep s c ->
  inv h (Ld (Some l) [(raw_key, string_value l)]) [(raw_key, str_value c)].
Proof.
  intros Hh Hs Hc. constructor; simpl; auto using NoDup_singleton.
  - constructor; [|constructor]. split; [done|]. split_and!; simpl; auto; [by left|]. intros _. exists s, c. auto.
  - exists l. split; [done|set_solver].
Qed.

Lemma new_logline_rep h ptr n :
  heap_ok h -> 0 <= n <= zlen ptr -> n <= string_limit ->
  exists h' d, nx_logdata_new_logline ptr n h = (h', Ret d) /\ extends h h' /\
    inv h' d [(raw_key, str_value (take (Z.to_nat n) ptr))] /\
    (forall l, l ∈ field_locs (fields d) -> (fresh_loc h <= l)%positive).
Proof.
  intros Hh Hn Hl. unfold nx_logdata_new_logline.
  assert (exists s, (if n =? 0 then nx_string_new else nx_string_create ptr n) = Ret s /\
    str_rep s (take (Z.to_nat n) ptr)) as (s & -> & Hs).
  { case_test; [subst n; apply nx_string_new_rep|].
    destruct (nx_string_create_rep ptr n Hn Hl) as (s & Hrun & Hs & _). eauto. }
  destruct (alloc_run h s Hh) as (h' & Hal & Hext & Hh' & Hnew & Hfr).
  erewrite cmd_bind_Ret by reflexivity. erewrite cmd_bind_Ret by exact Hal.
  do 2 eexists. split; [reflexivity|]. split_and!; [done|by eapply new_record_inv|].
  intros l. unfold field_locs. simpl. rewrite list_elem_of_singleton. intros ->. lia.
Qed.

Lemma set_string_rep h d al key value :
  inv h d al -> settable key (str_value value) -> no_nul value -> zlen value <= string_limit ->
  exists h' d', nx_logdata_set_string key value (h, d) = ((h', d'), Ret tt) /\ inv h' d' (alist_set key (str_value value) al).
Proof.
  intros Hinv Hset Hn Hl. unfold nx_logdata_set_string.
  destruct (nx_string_create_cstr value Hn Hl) as (s & -> & Hs). pose proof Hinv as [Hh HF HN HK Hraw].
  destruct (alloc_run h s Hh) as (h1 & Hal & Hext & Hh1 & Hnew & Hfr).
  erewrite cmd_bind_Ret by reflexivity. erewrite cmd_bind_Ret by (by apply on_heap_run).
  destruct (set_field_value_rep h1 d al key (string_value (fresh_loc h)) (str_value value)) as (h' & d' & Hrun & Hinv' & _);
    [constructor; eauto using extends_fields| | |done|eauto].
  - split_and!; simpl; auto; [by left|]. intros _. exists s, value. auto.
  - unfold value_loc. simpl. intros l [= <-] Hin. assert (fresh_loc h < fresh_loc h)%positive by (by eapply heap_ok_lt). lia.
Qed.

End lifecycle.

(** ** Sequences of operations *)

Inductive op :=
| SetString (key value : bytes)
| SetInteger (key : bytes) (z : Z)
| SetDatetime (key : bytes) (t : Z)
| SetBoolean (key : bytes) (b : Z)
| AppendLine (line : bytes)
| Delete (key : bytes)
| Rename (old new : bytes).

Section sequences.
Context `{M : Malloc} `{E : ValueEnv}.

Definition run_op (o : op) : cmd state unit :=
  match o with
  | SetString k s => nx_logdata_set_string k s
  | SetInteger k z => nx_logdata_set_integer k z
  | SetDatetime k t => nx_logdata_set_datetime k t
  | SetBoolean k b => nx_logdata_set_boolean k b
  | AppendLine p => nx_logdata_append_logline p (zlen p)
  | Delete k => _ ← nx_logdata_delete_field k; mret tt
  | Rename o n => nx_logdata_rename_field o n
  end.

Fixpoint run_ops (os : list op) : cmd state unit :=
  match os with [] => mret tt | o :: os => _ ← run_op o; run_ops os end.

Definition spec_op (o : op) (al : alist) : alist :=
  match o with
  | SetString k s => alist_set k (str_value s) al
  | SetInteger k z => alist_set k (nx_value_new_integer z) al
  | SetDatetime k t => alist_set k (nx_value_new_datetime t) al
  | SetBoolean k b => alist_set k (nx_value_new_boolean b) al
  | AppendLine p =>
      match alist_get raw_key al with
      | Some (NxValue _ _ (DString c)) => alist_set raw_key (str_value (spec_append c p)) al
      | _ => al
      end
  | Delete k => fst (alist_delete k al)
  | Rename o n => alist_rename o n al
  end.

Definition spec_ops (os : list op) (al : alist) : alist := foldl (fun al o => spec_op o al) al os.

(** The operations that keep the alias [raw_event] consistent: the name is
    spelled as it is, is set to strings only and is not renamed. *)
Definition allowed (o : op) (al : alist) : Prop :=
  match o with
  | SetString k s => (strcasecmp_eq k raw_key = true -> k = raw_key) /\ no_nul s /\ zlen s <= string_limit
  | SetInteger k z => strcasecmp_eq k raw_key = false /\ int64 z
  | SetDatetime k t => strcasecmp_eq k raw_key = false /\ int64 t
  | SetBoolean k b => strcasecmp_eq k raw_key = false /\ (b = TRUE \/ b = FALSE)
  | AppendLine _ | Delete _ => True
  | Rename o n => renamable o n al
  end.

Fixpoint all_allowed (os : list op) (al : alist) : Prop :=
  match os with [] => True | o :: os => allowed o al /\ all_allowed os (spec_op o al) end.

Lemma set_scalar_rep h d al key (v : hvalue) (a : value) :
  inv h d al -> strcasecmp_eq key raw_key = false -> val_rep h v a -> value_loc v = None ->
  exists h' d', nx_logdata_set_field_value key v (h, d) = ((h', d'), Ret tt) /\ inv h' d' (alist_set key a al).
Proof.
  intros Hinv Hk Hv Hnone.
  destruct (set_field_value_rep h d al key v a) as (h' & d' & Hrun & Hinv' & _); eauto.
  - rewrite Hnone. discriminate.
  - intros Hr. rewrite Hk in Hr. discriminate.
Qed.

Lemma run_op_rep o h d al :
  inv h d al -> allowed o al -> exists h' d', run_op o (h, d) = ((h', d'), Ret tt) /\ inv h' d' (spec_op o al).
Proof.
  intros Hinv Ha. destruct o as [k s|k z|k t|k b|p|k|o n]; simpl in *.
  - destruct Ha as (Hk & Hn & Hl). apply set_string_rep; auto. intros Hr. auto.
  - destruct Ha as [Hk Hz]. apply set_scalar_rep; auto. split_and!; simpl; auto. by left.
  - destruct Ha as [Hk Hz]. apply set_scalar_rep; auto. split_and!; simpl; auto. by left.
  - destruct Ha as [Hk Hz]. apply set_scalar_rep; auto. split_and!; simpl; auto. by left.
  - destruct (append_logline_rep h d al p (zlen p) Hinv) as (h' & c & Hrun & Hget & Hinv' & _); [lia|].
    exists h', d. rewrite Hget. simpl. rewrite Nat2Z.id, firstn_all in Hinv'. auto.
  - destruct (delete_field_rep h d al k Hinv) as (h' & d' & Hrun & Hinv' & _). exists h', d'. split; [|done].
    by erewrite cmd_bind_Ret by exact Hrun.
  - destruct (rename_field_rep h d al o n Hinv Ha) as (d' & Hrun & Hinv'). eauto.
Qed.

Lemma run_ops_rep os h d al :
  inv h d al -> all_allowed os al ->
  exists h' d', run_ops os (h, d) = ((h', d'), Ret tt) /\ inv h' d' (spec_ops os al).
Proof.
  revert h d al. induction os as [|o os IH]; intros h d al Hinv Ha; [by exists h, d|].
  destruct Ha as [Ho Ha]. destruct (run_op_rep o h d al Hinv Ho) as (h1 & d1 & Hrun & Hinv1).
  destruct (IH h1 d1 _ Hinv1 Ha) as (h' & d' & Hrun' & Hinv'). exists h', d'. split; [|done]. simpl.
  by erewrite cmd_bind_Ret by exact Hrun.
Qed.

End sequences.

(** *** Laws of the specification *)

Lemma strcasecmp_congr a b c : strcasecmp_eq b c = true -> strcasecmp_eq a b = strcasecmp_eq a c.
Proof. intros H. apply strcasecmp_eq_true in H. unfold strcasecmp_eq. by rewrite H. Qed.

Lemma alist_get_app key al1 al2 :
  alist_get key (al1 ++ al2) = match alist_get key al1 with Some v => Some v | None => alist_get key al2 end.
Proof.
  unfold alist_get, find_field. induction al1 as [|f al1 IH]; simpl; [done|].
  case_decide; [done|]. destruct (list_find _ (al1 ++ al2)) as [[??]|], (list_find _ al1) as [[??]|]; simpl in *; auto.
Qed.

Lemma alist_get_cons key k v al :
  alist_get key ((k, v) :: al) = if strcasecmp_eq k key then Some v else alist_get key al.
Proof.
  unfold alist_get, find_field. simpl. destruct (strcasecmp_eq k key) eqn:Ek; simpl; [done|].
  by destruct (list_find _ al) as [[??]|].
Qed.

Lemma alist_get_set key key' v al :
  alist_get key' (alist_set key v al) = if strcasecmp_eq key key' then Some v else alist_get key' al.
Proof.
  unfold alist_set. destruct (find_field strcasecmp_eq key al) as [[i [k w]]|] eqn:Ef.
  - apply find_field_Some in Ef as (al1 & al2 & -> & -> & Hc & Hno). simpl in Hc.
    rewrite insert_mid, !alist_get_app, !alist_get_cons.
    assert (strcasecmp_eq k key' = strcasecmp_eq key key') as ->.
    { apply strcasecmp_eq_true in Hc. unfold strcasecmp_eq. by rewrite Hc. }
    destruct (strcasecmp_eq key key') eqn:Ek; [|done].
    assert (alist_get key' al1 = None) as ->; [|done].
    unfold alist_get. rewrite (proj2 (find_field_None _ _ _)); [done|].
    eapply Forall_impl; [exact Hno|]. intros f. simpl. by rewrite (strcasecmp_congr (fst f) _ _ Ek).
  - rewrite alist_get_app, alist_get_cons. destruct (strcasecmp_eq key key') eqn:Ek.
    + assert (alist_get key' al = None) as ->; [|done].
      apply find_field_None in Ef. unfold alist_get. rewrite (proj2 (find_field_None _ _ _)); [done|].
      eapply Forall_impl; [exact Ef|]. intros f. simpl. by rewrite (strcasecmp_congr (fst f) _ _ Ek).
    + by destruct (alist_get key' al).
Qed.

(** ** Properties *)

Definition empty_heap : heap := Heap ∅ 1.
Lemma empty_heap_ok : heap_ok empty_heap.
Proof. intros l [s Hs]. simpl in Hs. by rewrite lookup_empty in Hs. Qed.

(** C1: refinement: a record created from a line and then changed by any
    sequence of allowed operations never fails, keeps its invariant (one owner
    per string, names unique up to case, [raw_event] aliasing the string of the
    field of that name) and denotes what the same operations compute on a
    case-insensitive association list. *)
Theorem record_ops_refine `{M : Malloc} `{E : ValueEnv} h line os :
  heap_ok h -> zlen line <= string_limit -> all_allowed os [(raw_key, str_value line)] ->
  exists h1 d1 h2 d2, nx_logdata_new_logline line (zlen line) h = (h1, Ret d1) /\
    run_ops os (h1, d1) = ((h2, d2), Ret tt) /\
    inv h2 d2 (spec_ops os [(raw_key, str_value line)]).
Proof.
  intros Hh Hl Ha. destruct (new_logline_rep h line (zlen line) Hh) as (h1 & d1 & Hnew & _ & Hinv & _); [lia|done|].
  rewrite Nat2Z.id, firstn_all in Hinv. destruct (run_ops_rep os h1 d1 _ Hinv Ha) as (h2 & d2 & Hrun & Hinv2).
  exists h1, d1, h2, d2. auto.
Qed.

Lemma record_ops_refine_witness :
  exists h1 d1 h2 d2, nx_logdata_new_logline (M := poison_malloc) (lit "line") (zlen (lit "line")) empty_heap = (h1, Ret d1) /\
    run_ops (M := poison_malloc)
      [SetString (lit "Host") (lit "a"); SetInteger (lit "HOST") 7; AppendLine (lit "!");
       Rename (lit "host") (lit "Src"); Delete (lit "raw_event")] (h1, d1) = ((h2, d2), Ret tt) /\
    inv h2 d2 (spec_ops [SetString (lit "Host") (lit "a"); SetInteger (lit "HOST") 7; AppendLine (lit "!");
       Rename (lit "host") (lit "Src"); Delete (lit "raw_event")] [(raw_key, str_value (lit "line"))]).
Proof.
  apply (record_ops_refine (M := poison_malloc) (E := plain_env)); [exact empty_heap_ok|vm_compute; discriminate|].
  cbn [all_allowed allowed]. split_and!; try exact I; try reflexivity.
  - intros H. vm_compute in H. discriminate.
  - apply (bool_decide_unpack _). reflexivity.
  - vm_compute. discriminate.
  - split; [discriminate|reflexivity].
  - split; [reflexivity|]. intros H. vm_compute in H. discriminate.
Defined.

(** The field read after a write: [nx_logdata_set_field_value] followed by
    [nx_logdata_get_field_value] gives the value written for every spelling of
    the name, and the old result for every other name. *)
Theorem record_get_after_set `{M : Malloc} `{E : ValueEnv} h d al key v a key' :
  inv h d al -> val_rep h v a -> (forall l, value_loc v = Some l -> l ∉ field_locs (fields d)) -> settable key a ->
  exists h' d', nx_logdata_set_field_value key v (h, d) = ((h', d'), Ret tt) /\
    match (if strcasecmp_eq key key' then Some a else alist_get key' al) with
    | Some b => exists w, nx_logdata_get_field_value key' d' = (true, w) /\ val_rep h' w b
    | None => fst (nx_logdata_get_field_value key' d') = false
    end.
Proof.
  intros Hinv Hv Hl Hset. destruct (set_field_value_rep h d al key v a Hinv Hv Hl Hset) as (h' & d' & Hrun & Hinv' & _).
  exists h', d'. split; [done|]. rewrite <- alist_get_set. pose proof (get_field_value_rep h' d' _ key' Hinv') as Hget.
  destruct (alist_get key' _); [done|]. by rewrite Hget.
Qed.

Definition one_line_heap : heap := Heap {[1%positive := exact (lit "line")]} 2.
Definition one_line : logdata := Ld (Some 1%positive) [(raw_key, string_value 1)].
Lemma one_line_inv : inv one_line_heap one_line [(raw_key, str_value (lit "line"))].
Proof.
  apply (new_record_inv one_line_heap 1 (exact (lit "line"))); [|done|by apply exact_rep].
  intros l [s Hs]. simpl in *. apply lookup_singleton_Some in Hs as [<- _]. lia.
Qed.

Lemma record_get_after_set_witness :
  exists h' d', nx_logdata_set_field_value (lit "Severity") (nx_value_new_integer 3) (one_line_heap, one_line) = ((h', d'), Ret tt) /\
    match (if strcasecmp_eq (lit "Severity") (lit "SEVERITY") then Some (nx_value_new_integer 3)
           else alist_get (lit "SEVERITY") [(raw_key, str_value (lit "line"))]) with
    | Some b => exists w, nx_logdata_get_field_value (lit "SEVERITY") d' = (true, w) /\ val_rep h' w b
    | None => fst (nx_logdata_get_field_value (lit "SEVERITY") d') = false
    end.
Proof.
  apply (record_get_after_set (M := poison_malloc) (E := plain_env) one_line_heap one_line
    [(raw_key, str_value (lit "line"))] (lit "Severity") (nx_value_new_integer 3) (nx_value_new_integer 3));
    [exact one_line_inv| |discriminate|intros H; vm_compute in H; discriminate].
  split_and!; try reflexivity. left. split; [reflexivity|]. split; [discriminate|reflexivity].
Defined.

(** C38: A copy is independent: for a record that satisfies the invariant (it has a field
    [raw_event], a string, which [logdata->raw_event] points to) and has strings below the
    string limit and no regexp, [nx_logdata_clone] gives a record with the same
    fields and its own strings, and setting an integer field of the copy, under any name but
    [raw_event], leaves the original denoting what it did. *)
Theorem record_clone_independent `{M : Malloc} `{E : ValueEnv} h d al key z :
  inv h d al -> Forall (fun f => clonable (snd f)) al -> strcasecmp_eq key raw_key = false -> int64 z ->
  exists h1 d1 h2 d2, nx_logdata_clone d h = (h1, Ret d1) /\ inv h1 d1 al /\ inv h1 d al /\
    nx_logdata_set_integer key z (h1, d1) = ((h2, d2), Ret tt) /\
    inv h2 d2 (alist_set key (nx_value_new_integer z) al) /\ inv h2 d al.
Proof.
  intros Hinv Hcl Hk Hz.
  destruct (logdata_clone_rep h d al Hinv Hcl) as (h1 & d1 & Hrun & Hinv1 & Hinvd & Hext & Hloc).
  destruct (set_field_value_rep h1 d1 al key (nx_value_new_integer z) (nx_value_new_integer z))
    as (h2 & d2 & Hset & Hinv2 & Hframe & Hfresh & _); auto.
  - split_and!; simpl; auto. by left.
  - intros l Hl. discriminate.
  - intros Hr. rewrite Hk in Hr. discriminate.
  - exists h1, d1, h2, d2. split_and!; auto. pose proof Hinv as [Hh HF _ _ _].
    destruct Hinvd as [Hh1 HFd HNd HKd Hrd]. constructor; auto; [by destruct Hinv2|].
    eapply fields_rep_frame; [|exact HFd]. intros l Hl. destruct Hframe as [_ Hsame].
    assert (l < fresh_loc h)%positive by (by eapply heap_ok_lt). destruct Hext as [Hle _].
    apply Hsame; [lia|]. intros Hin. specialize (Hloc l Hin). lia.
Qed.

Lemma record_clone_independent_witness :
  exists h1 d1 h2 d2, nx_logdata_clone (M := poison_malloc) (E := plain_env) one_line one_line_heap = (h1, Ret d1) /\
    inv h1 d1 [(raw_key, str_value (lit "line"))] /\ inv h1 one_line [(raw_key, str_value (lit "line"))] /\
    nx_logdata_set_integer (lit "n") 1 (h1, d1) = ((h2, d2), Ret tt) /\
    inv h2 d2 (alist_set (lit "n") (nx_value_new_integer 1) [(raw_key, str_value (lit "line"))]) /\
    inv h2 one_line [(raw_key, str_value (lit "line"))].
Proof.
  apply (record_clone_independent (M := poison_malloc) (E := plain_env) one_line_heap);
    [exact one_line_inv| |reflexivity|split; [discriminate|reflexivity]].
  repeat constructor. intros _ H. discriminate.
Defined.

(** C37: [nx_logdata_free] of an unlinked record frees each of its strings once
    and no other string. *)
Theorem record_free_exact h d al :
  inv h d al ->
  exists h', nx_logdata_free Dlist.null_link d h = (h', Ret tt) /\
    forall l, strs h' !! l = if decide (l ∈ field_locs (fields d)) then None else strs h !! l.
Proof.
  intros [_ HF HN _ _]. destruct (free_fields_rep h (fields d) al HF HN) as (h' & Hrun & _ & Hl). eauto.
Qed.

Lemma record_free_exact_witness :
  exists h', nx_logdata_free Dlist.null_link one_line one_line_heap = (h', Ret tt) /\
    forall l, strs h' !! l = if decide (l ∈ field_locs (fields one_line)) then None else strs one_line_heap !! l.
Proof. exact (record_free_exact one_line_heap one_line _ one_line_inv). Defined.

(** Error path: setting [raw_event] to a value that is not a defined string
    throws; the record is unchanged and only the refused value is freed. *)
Theorem raw_event_refused `{M : Malloc} `{E : ValueEnv} h d al v a :
  inv h d al -> val_rep h v a -> ~ (v_defined a = TRUE /\ v_type a = NX_VALUE_TYPE_STRING) ->
  match v_type a with NX_VALUE_TYPE_OTHER _ => False | _ => True end ->
  exists e, nx_logdata_set_field_value raw_key v (h, d) = ((heap_without (value_loc v) h, d), Throw e).
Proof.
  intros Hinv Hv Hno Ht. eapply set_raw_refused; eauto. by destruct (v_type a).
Qed.

Lemma raw_event_refused_witness :
  exists e, nx_logdata_set_field_value raw_key (nx_value_new_integer 1) (one_line_heap, one_line) =
    ((heap_without (value_loc (nx_value_new_integer 1)) one_line_heap, one_line), Throw e).
Proof.
  apply (raw_event_refused (M := poison_malloc) (E := plain_env) one_line_heap one_line _ (nx_value_new_integer 1) (nx_value_new_integer 1) one_line_inv).
  - split_and!; try reflexivity. left. split; [reflexivity|]. split; [discriminate|reflexivity].
  - intros [_ H]. discriminate.
  - exact I.
Defined.

(** Names are matched without case but the alias is redirected only for the
    exact name: setting the field under another spelling frees the string
    [raw_event] still points to, and the next use of [raw_event] is a use after
    free. *)
Theorem raw_event_case_dangling `{M : Malloc} `{E : ValueEnv} h d al key v a line :
  inv h d al -> val_rep h v a -> (forall l, value_loc v = Some l -> l ∉ field_locs (fields d)) ->
  strcasecmp_eq key raw_key = true -> key <> raw_key ->
  exists h' d', nx_logdata_set_field_value key v (h, d) = ((h', d'), Ret tt) /\
    snd (nx_logdata_append_logline line (zlen line) (h', d')) = Undef "string used after it was freed".
Proof.
  intros Hinv Hv Hl Hk Hne. destruct (inv_raw _ _ _ Hinv) as (l & Hr & Hin).
  apply list_elem_of_split in Hin as (fs1 & fs2 & Hfs). pose proof (inv_keys _ _ _ Hinv) as HK. rewrite Hfs in HK.
  assert (find_field strcasecmp_eq key (fields d) = Some (length fs1, (raw_key, string_value l))) as Hfind.
  { rewrite Hfs. rewrite <- (find_unique strcasecmp_eq raw_key fs1 fs2 (string_value l)) by
      (auto using strcasecmp_lower, strcasecmp_refl).
    unfold find_field. apply list_find_ext. intros f. by rewrite (strcasecmp_congr (fst f) _ _ Hk). }
  pose proof (inv_fields _ _ _ Hinv) as HF. rewrite Hfs in HF.
  apply Forall2_app_inv_l in HF as (al1 & al2 & _ & HF & _).
  apply Forall2_cons_inv_l in HF as ([k0 a0] & al2' & [_ Hold] & _ & _). simpl in Hold.
  exists (heap_without (Some l) h), (Ld (raw_event d) (fs1 ++ (raw_key, v) :: fs2)). split.
  - unfold nx_logdata_set_field_value. erewrite cmd_bind_Ret by reflexivity. simpl. rewrite Hfind.
    unfold set_raw_event. rewrite (proj2 (strcmp_eq_false _ _)) by done. erewrite cmd_bind_Ret by reflexivity.
    erewrite cmd_bind_Ret by (eapply on_heap_run, value_free_rep, Hold). unfold modify, set_fields. simpl.
    by rewrite Hfs, insert_mid.
  - unfold nx_logdata_append_logline. erewrite cmd_bind_Ret by reflexivity. simpl. rewrite Hr.
    do 2 (erewrite cmd_bind_Ret by reflexivity). unfold on_heap, update_str. simpl.
    unfold mbind, cmd_bind, load_str. simpl. by rewrite lookup_delete_eq.
Qed.

Lemma raw_event_case_dangling_witness :
  exists h' d', nx_logdata_set_field_value (lit "Raw_Event") (nx_value_new_integer 1) (one_line_heap, one_line) = ((h', d'), Ret tt) /\
    snd (nx_logdata_append_logline (M := poison_malloc) (lit "x") (zlen (lit "x")) (h', d')) = Undef "string used after it was freed".
Proof.
  apply (raw_event_case_dangling (M := poison_malloc) (E := plain_env) one_line_heap one_line _ (lit "Raw_Event")
    (nx_value_new_integer 1) (nx_value_new_integer 1) (lit "x") one_line_inv);
    [|discriminate|reflexivity|discriminate].
  split_and!; try reflexivity. left. split; [reflexivity|]. split; [discriminate|reflexivity].
Defined.

End Logdata.
