(* ===== verification/LogdataSerialize.v ===== *)
(** * Serialization of log records (common/logdata-serialize.c)

    A record is written as a 16-bit number of fields followed, for each field,
    by a 16-bit key length, the key and the value.  [encode_record] is the
    reference encoding of the association list a record denotes; the writer
    produces it and the reader rebuilds, in any heap and on a host of any byte
    order, a record that denotes the same list. *)

From S2P Require Import Prelude Dlist Str Value Serialize Logdata.
Import Str Value Serialize Logdata.

Module LogdataSerialize.

(** A value of the heap as a value that owns its string; the string is read
    only where the serializer reads it. *)
Definition resolve (h : heap) (v : hvalue) : outcome value :=
  if (v_defined v =? TRUE) && bool_decide (v_type v = NX_VALUE_TYPE_STRING) then
    l ← as_string (v_data v);
    s ← deref (strs h !! l) "string used after it was freed";
    Ret (NxValue (v_type v) (v_defined v) (DString (content s)))
  else Ret (NxValue (v_type v) (v_defined v) (data_cast (v_data v))).

Fixpoint fields_serialized_size (h : heap) (fs : list field) : outcome Z :=
  match fs with
  | [] => Ret 0
  | (key, v) :: fs =>
      v ← resolve h v;
      n ← nx_value_serialized_size v;
      m ← fields_serialized_size h fs;
      Ret (2 + zlen key + n + m)
  end.

Definition nx_logdata_serialized_size (h : heap) (d : logdata) : outcome Z :=
  n ← fields_serialized_size h (fields d); Ret (2 + n).

Section with_host.
Context `{H : Host} `{M : Malloc} `{E : ValueEnv}.

(** The loop of [nx_logdata_to_membuf]; [None] is the early [return ( 0 )],
    otherwise the final [ptr] and [num_field]. *)
Fixpoint fields_to_membuf (h : heap) (fs : list field) (b : bytes) (buf ptr bufsize num : Z)
    : outcome (bytes * option (Z * Z)) :=
  match fs with
  | [] => Ret (b, Some (ptr, num))
  | (key, v) :: fs =>
      let keylen := s16 (zlen key) in
      b ← mem_write b ptr (nx_int16_to_le keylen);
      let ptr := ptr + 2 in
      data ← mem_read key 0 (u64 keylen);
      b ← mem_write b ptr data;
      let ptr := ptr + keylen in
      v ← resolve h v;
      '(b, valsize) ← nx_value_to_membuf v b ptr (u64 (bufsize - (ptr - buf)));
      if valsize =? 0 then Ret (b, None)
      else fields_to_membuf h fs b buf (ptr + valsize) bufsize (u16 (num + 1))
  end.

(** [nx_logdata_to_membuf(d, b + buf, bufsize)] *)
Definition nx_logdata_to_membuf (h : heap) (d : logdata) (b : bytes) (buf bufsize : Z)
    : outcome (bytes * Z) :=
  '(b, r) ← fields_to_membuf h (fields d) b buf (buf + 2) bufsize 0;
  match r with
  | None => Ret (b, 0)
  | Some (ptr, num) =>
      b ← mem_write b buf (nx_int16_to_le num);
      Ret (b, ptr - buf)
  end.

(** The string of a decoded value is allocated by [nx_string_create]. *)
Definition intern (v : value) : cmd heap hvalue :=
  match v_data v with
  | DString c => l ← alloc (exact c); mret (NxValue (v_type v) (v_defined v) (DString l))
  | d => mret (NxValue (v_type v) (v_defined v) (data_cast d))
  end.

(** The loop of [nx_logdata_from_membuf], to the final [offs].  [i] is a 16-bit
    signed counter, [fields] a 16-bit unsigned number. *)
Fixpoint fields_from_membuf (fuel : nat) (b : bytes) (bufsize i nfields offs : Z) : cmd state Z :=
  if i <? nfields then
    match fuel with
    | O => lift (Undef "out of fuel")
    | S fuel =>
        if bufsize <=? offs then lift (Throw "not enough data to decode serialized logdata field")
        else
          kl ← lift (mem_read b offs 2);
          let keylen := nx_int16_from_le kl in
          if keylen <=? 0 then lift (Throw "serialized logdata field name length is <= 0")
          else
            let offs := offs + 2 in
            if bufsize <=? offs + keylen
            then lift (Throw "not enough data to decode serialized field name (got %d, need %d)")
            else
              key ← lift (mem_read b offs keylen);
              let key := cstr key in
              let offs := offs + keylen in
              '(val, vlen) ← lift (nx_value_from_membuf (drop (Z.to_nat offs) b) (bufsize - offs));
              let offs := offs + vlen in
              v ← on_heap (intern val);
              _ ← (if strcmp_eq key raw_key && bool_decide (v_type v = NX_VALUE_TYPE_STRING)
                   then p ← lift (string_ptr v); modify (set_raw p)
                   else mret tt);
              _ ← modify (nx_logdata_append_field_value key v);
              fields_from_membuf fuel b bufsize (s16 (i + 1)) nfields offs
    end
  else mret offs.

(** [nx_logdata_from_membuf(b, bufsize, &bytes)]: the record and [bytes]; on an
    exception the partial record is freed. *)
Definition nx_logdata_from_membuf (b : bytes) (bufsize : Z) : cmd heap (logdata * Z) := fun h =>
  if bufsize <=? 1 then (h, Throw "not enough data to decode serialized logdata")
  else
    match mem_read b 0 2 with
    | Ret n =>
        match fields_from_membuf (length b) b bufsize 0 (nx_int16_from_le n) 2 (h, Ld None []) with
        | ((h, d), Ret offs) =>
            match raw_event d with
            | Some _ => (h, Ret (d, offs))
            | None =>
                (s ← lift nx_string_new; l ← alloc s; mret (set_raw (Some l) d, offs)) h
            end
        | ((h, d), Throw e) =>
            (_ ← nx_logdata_free Dlist.null_link d; lift (Throw e)) h
        | ((h, d), Panic e) => (h, Panic e)
        | ((h, d), Undef e) => (h, Undef e)
        end
    | Throw e => (h, Throw e)
    | Panic e => (h, Panic e)
    | Undef e => (h, Undef e)
    end.

End with_host.

(** ** Reference encoding *)

Definition encode_field (f : bytes * value) : bytes :=
  le 2 (zlen (fst f)) ++ fst f ++ encode_value (snd f).

Definition encode_record (al : alist) : bytes := le 2 (zlen al) ++ (al ≫= encode_field).

(** The fields that can be written and read back: a C string of at most 32767
    bytes as the name, and a value that survives. *)
Definition portable_field (f : bytes * value) : Prop :=
  no_nul (fst f) /\ 0 < zlen (fst f) < 2 ^ 15 /\ readable (snd f) /\ v_type (snd f) <> NX_VALUE_TYPE_BINARY.

Definition portable (al : alist) : Prop := Forall portable_field al /\ zlen al < 2 ^ 15.

(** ** The writer *)

Lemma resolve_rep h v a :
  val_rep h v a ->
  exists a', resolve h v = Ret a' /\ v_type a' = v_type a /\ v_defined a' = v_defined a /\
    (v_defined a = TRUE -> a' = a).
Proof.
  intros (Ht & Hd & Hok & Hr). unfold resolve. rewrite Hd, Ht.
  destruct (v_defined a =? TRUE) eqn:Ed; simpl.
  - apply Z.eqb_eq in Ed. specialize (Hr Ed). destruct Hok as [[_ Hok]|Hok]; [|rewrite Hok in Ed; discriminate].
    destruct v as [t df d], a as [ta dfa da]. simpl in *. subst. unfold data_rep in Hr. case_bool_decide.
    + subst. destruct d; try (subst da; contradiction). destruct Hr as (s' & c & Hs & Hc & ->). simpl. rewrite Hs. simpl.
      rewrite (str_rep_content _ _ Hc). eauto.
    + exists (NxValue ta TRUE (data_cast d)). split_and!; auto. intros _. f_equal.
      destruct d; auto. destruct Hr as (? & ? & _ & _ & ->). destruct ta; contradiction.
  - apply Z.eqb_neq in Ed. eexists. split; [reflexivity|]. split_and!; auto. congruence.
Qed.

Lemma encode_undefined a a' : v_type a' = v_type a -> v_defined a' = v_defined a ->
  (v_defined a = TRUE -> a' = a) -> encode_value a' = encode_value a.
Proof.
  intros Ht Hd Ha. unfold encode_value. rewrite Ht, Hd. destruct (v_defined a =? TRUE) eqn:Ed; [|done].
  apply Z.eqb_eq in Ed. by rewrite Ha.
Qed.

Lemma value_ok_undefined (Q : bytes -> Prop) (a a' : value) : v_defined a' = v_defined a ->
  (v_defined a = TRUE -> a' = a) -> value_ok Q a -> value_ok Q a'.
Proof. intros Hd Ha [[Hdef Hok]|Hdef]; [rewrite Ha by done; by left|right; congruence]. Qed.

Lemma resolve_portable h v a :
  val_rep h v a -> readable a ->
  exists a', resolve h v = Ret a' /\ encode_value a' = encode_value a /\ value_ok len32 a'.
Proof.
  intros Hv Hr. destruct (resolve_rep h v a Hv) as (a' & Hres & Ht & Hd & Ha). exists a'. split_and!; auto.
  - by apply encode_undefined.
  - eapply value_ok_undefined; eauto. by apply readable_len32.
Qed.

Lemma fields_size h fs al :
  Forall2 (field_rep h) fs al -> Forall portable_field al ->
  fields_serialized_size h fs = Ret (zlen (al ≫= encode_field)).
Proof.
  induction 1 as [|[k v] [k' a] fs al [Hk Hv] HF IH]; intros Hp; [done|].
  simpl in Hk, Hv. subst k'. apply Forall_cons in Hp as [(_ & _ & Hr & _) Hp]. simpl in Hr.
  destruct (resolve_portable h v a Hv Hr) as (a' & Hres & Henc & Hok). cbn [fields_serialized_size].
  rewrite Hres. cbn [mbind outcome_bind]. rewrite serialized_size_encode, IH by done. cbn [mbind outcome_bind].
  rewrite Henc, bind_cons, !length_app. unfold encode_field. rewrite !length_app, le_length. simpl fst. simpl snd. f_equal. lia.
Qed.

Abbreviation written a w b := (a ++ w ++ drop (length w) b).

Section writer.
Context `{H : Host}.

Lemma fields_to_membuf_rep h fs al a w b bufsize num :
  Forall2 (field_rep h) fs al -> Forall portable_field al ->
  zlen w + zlen (al ≫= encode_field) <= bufsize <= zlen b -> bufsize < 2 ^ 64 ->
  0 <= num -> num + zlen al < 2 ^ 16 ->
  fields_to_membuf h fs (written a w b) (zlen a) (zlen a + zlen w) bufsize num =
    Ret (written a (w ++ (al ≫= encode_field)) b,
         Some (zlen a + zlen w + zlen (al ≫= encode_field), num + zlen al)).
Proof.
  intros HF. revert w num. induction HF as [|[k v] [k' v'] fs al [Hk Hv] HF IH]; intros w num Hp Hb H64 Hn Hnum.
  - simpl. rewrite app_nil_r, !Z.add_0_r. done.
  - simpl in Hk, Hv. subst k'. apply Forall_cons in Hp as [(Hnn & Hkl & Hr & _) Hp]. simpl in Hnn, Hkl, Hr.
    destruct (resolve_portable h v v' Hv Hr) as (a' & Hres & Henc & Hok).
    rewrite bind_cons in *. rewrite length_app in Hb. rewrite length_cons in Hnum. cbn [fields_to_membuf].
    assert (zlen (encode_field (k, v')) = 2 + zlen k + zlen (encode_value v')) as Hlen.
    { unfold encode_field. rewrite !length_app, le_length. simpl fst. simpl snd. lia. }
    assert (2 <= zlen (encode_value v')) by (unfold encode_value; rewrite !length_cons; lia).
    unfold s16. rewrite (Z.mod_small (zlen k + 2 ^ 15)) by lia.
    replace (zlen k + 2 ^ 15 - 2 ^ 15) with (zlen k) by lia.
    rewrite nx_int16_to_le_wire, write_next by (rewrite le_length; lia). cbn [mbind outcome_bind].
    replace (u64 (zlen k)) with (zlen k) by (unfold u64; rewrite Z.mod_small; lia).
    rewrite (mem_read_at k 0 (zlen k) [] k), Nat2Z.id, firstn_all by (simpl; auto; lia). cbn [mbind outcome_bind].
    replace (zlen a + zlen w + 2) with (zlen a + zlen (w ++ le 2 (zlen k))) by (rewrite length_app, le_length; lia).
    rewrite write_next by (rewrite length_app, le_length; lia). cbn [mbind outcome_bind].
    rewrite Hres. cbn [mbind outcome_bind]. set (w2 := (w ++ le 2 (zlen k)) ++ k).
    assert (zlen w2 = zlen w + 2 + zlen k) as Hw2 by (unfold w2; rewrite !length_app, le_length; lia).
    replace (zlen a + zlen (w ++ le 2 (zlen k)) + zlen k) with (zlen (a ++ w2))
      by (rewrite length_app, (length_app w), le_length; lia).
    replace (u64 (bufsize - (zlen (a ++ w2) - zlen a))) with (bufsize - zlen w2)
      by (rewrite length_app; unfold u64; rewrite Z.mod_small; lia).
    rewrite (app_assoc a w2).
    rewrite (to_membuf_fits a' (a ++ w2) (drop (length w2) b)).
    2:{ done. }
    2:{ rewrite Henc, length_drop. lia. }
    cbn [mbind outcome_bind]. rewrite Henc. rewrite (proj2 (Z.eqb_neq _ _)) by lia.
    replace (written (a ++ w2) (encode_value v') (drop (length w2) b)) with (written a (w ++ encode_field (k, v')) b).
    2:{ unfold encode_field, w2. simpl fst. simpl snd. rewrite drop_drop, <- !app_assoc.
        do 6 f_equal. rewrite !length_app. lia. }
    replace (zlen (a ++ w2) + zlen (encode_value v')) with (zlen a + zlen (w ++ encode_field (k, v')))
      by (rewrite !length_app in *; lia).
    unfold u16. rewrite Z.mod_small by lia.
    rewrite IH by (try done; rewrite ?length_app; lia).
    rewrite <- !(app_assoc w). do 4 f_equal; rewrite ?length_app, ?length_cons; lia.
Qed.

Lemma logdata_to_membuf_rep h d al a b bufsize :
  inv h d al -> portable al -> zlen (encode_record al) <= bufsize <= zlen b -> bufsize < 2 ^ 64 ->
  nx_logdata_to_membuf h d (a ++ b) (zlen a) bufsize =
    Ret (written a (encode_record al) b, zlen (encode_record al)).
Proof.
  intros [_ HF _ _ _] [Hp Hnum] Hb H64. unfold nx_logdata_to_membuf, encode_record in *.
  rewrite length_app, le_length in Hb. set (w := take 2 b).
  assert (zlen w = 2) as Hw by (unfold w; rewrite length_take; lia).
  replace (a ++ b) with (written a w b).
  2:{ unfold w. rewrite length_take, Nat.min_l by lia. by rewrite take_drop. }
  replace (zlen a + 2) with (zlen a + zlen w) by lia.
  rewrite (fields_to_membuf_rep h (fields d) al) by (try done; lia). cbn [mbind outcome_bind].
  rewrite (mem_write_at' _ _ a ((w ++ (al ≫= encode_field)) ++ drop (length (w ++ (al ≫= encode_field))) b)).
  2:{ done. } 2:{ done. }
  2:{ rewrite nx_int16_to_le_wire, le_length, !length_app. lia. }
  cbn [mbind outcome_bind]. rewrite nx_int16_to_le_wire, Z.add_0_l, le_length.
  rewrite <- (app_assoc w), drop_app_le, (drop_ge w) by lia. simpl app.
  rewrite length_app. replace (length w) with 2%nat by lia. do 2 f_equal. rewrite !length_cons. lia.
Qed.

End writer.

(** ** The reader *)

(** The string built by [nx_string_create] has no slack: [intern] allocates it. *)
Lemma nx_string_create_exact `{M : Malloc} src n : 0 <= n <= zlen src -> n <= string_limit ->
  nx_string_create src n = Ret (exact (take (Z.to_nat n) src)).
Proof.
  intros Hn Hl. unfold nx_string_create, exact. rewrite (proj2 (Z.ltb_ge n 0)) by lia. cbn [mbind outcome_bind].
  rewrite (proj2 (Z.ltb_ge string_limit n)) by lia.
  rewrite (mem_read_at src 0 _ [] src) by (simpl; auto; lia). cbn [mbind outcome_bind].
  pose proof (malloc_length (n + 1) ltac:(lia)) as L. set (c := take (Z.to_nat n) src).
  assert (zlen c = n) as Hc by (unfold c; rewrite length_take; lia).
  rewrite (mem_write_at' _ _ [] (malloc (n + 1))) by (simpl; auto; lia). cbn [mbind outcome_bind app].
  rewrite (mem_write_at' _ _ c (drop (length c) (malloc (n + 1)))); [|done|done|rewrite length_drop; simpl; lia].
  cbn [mbind outcome_bind]. rewrite drop_drop, drop_ge by (simpl; lia).
  unfold u32, string_limit in *. rewrite !Z.mod_small by (rewrite ?Z.mod_small; lia). by rewrite Hc.
Qed.

Section reader.
Context `{H : Host} `{M : Malloc} `{E : ValueEnv}.

Lemma intern_rep h a :
  heap_ok h -> value_ok (fun s => zlen s <= string_limit) a -> (v_defined a = FALSE -> v_data a = DZero) ->
  exists h' v, intern a h = (h', Ret v) /\ extends h h' /\ heap_ok h' /\ val_rep h' v a /\ v_type v = v_type a /\
    (forall l, value_loc v = Some l -> (fresh_loc h <= l < fresh_loc h')%positive) /\
    (v_type a = NX_VALUE_TYPE_STRING -> exists p, string_ptr v = Ret p) /\
    (forall c, a = str_value c -> exists l, v = string_value l).
Proof.
  intros Hh Hok Hz. unfold intern.
  assert (value_ok (fun _ => True) a) as Hok'.
  { by eapply value_ok_weaken; [|exact Hok]. }
  destruct (v_data a) as [| | |c| | | | | |] eqn:Ed.
  4:{ destruct Hok as [[Hd Hok]|Hd]; [|by specialize (Hz Hd)]. rewrite Ed in Hok.
      assert (v_type a = NX_VALUE_TYPE_STRING /\ zlen c <= string_limit) as [Ht Hc]
        by (clear -Hok; destruct (v_type a); simpl in Hok; auto; contradiction).
      destruct (alloc_run h (exact c) Hh) as (h' & Hal & Hext & Hh' & Hnew & Hfr).
      exists h', (NxValue (v_type a) (v_defined a) (DString (fresh_loc h))).
      split; [by erewrite cmd_bind_Ret by exact Hal|]. rewrite Ht, Hd. split_and!; auto; [| |eauto|eauto].
      - split_and!; simpl; auto. intros _. rewrite Ed. exists (exact c), c.
        split_and!; auto. apply exact_rep. unfold string_limit in *. lia.
      - unfold value_loc. simpl. intros ? [= <-]. lia. }
  all: eexists h, _; split; [reflexivity|]; split_and!; auto using extends_refl; simpl.
  all: try (unfold val_rep, data_rep; rewrite Ed; simpl; by auto).
  all: try (unfold value_loc; simpl; destruct (v_defined a =? TRUE); discriminate).
  all: try (intros c ->; discriminate).
  all: try (intros _; eexists; reflexivity).
  all: intros Ht; destruct Hok as [[Hd Hok]|Hd]; [rewrite Ht, Ed in Hok; contradiction|by specialize (Hz Hd)].
Qed.

Definition raw_step (key : bytes) (v : hvalue) : cmd state unit :=
  if strcmp_eq key raw_key && bool_decide (v_type v = NX_VALUE_TYPE_STRING)
  then p ← lift (string_ptr v); modify (set_raw p)
  else mret tt.

Lemma raw_step_run key v h d :
  (v_type v = NX_VALUE_TYPE_STRING -> exists p, string_ptr v = Ret p) ->
  exists r, raw_step key v (h, d) = ((h, set_raw r d), Ret tt) /\
    (key <> raw_key -> r = raw_event d) /\
    (forall l, key = raw_key -> v = string_value l -> r = Some l).
Proof.
  intros Hs. unfold raw_step. destruct d as [r0 fs].
  destruct (strcmp_eq key raw_key && bool_decide (v_type v = NX_VALUE_TYPE_STRING)) eqn:Eq.
  - tests. destruct (Hs ltac:(done)) as [p Hp]. rewrite Hp. exists p. split; [done|]. split; [done|].
    intros l _ ->. by injection Hp as <-.
  - exists r0. split; [done|]. split; [done|]. intros l -> ->. by rewrite strcmp_refl in Eq.
Qed.

Lemma readable_restored a : readable a -> v_type a <> NX_VALUE_TYPE_BINARY ->
  value_ok (fun s => zlen s <= string_limit) (restored a) /\
  (v_defined (restored a) = FALSE -> v_data (restored a) = DZero) /\
  (v_defined a = TRUE -> restored a = a).
Proof.
  intros (Hok & Hr & Ht) Hb. destruct a as [t df d]. unfold restored. destruct Hok as [[Hd Hok]|Hd]; simpl in *; subst df.
  - simpl. destruct t, d; simpl in Hok; try contradiction; try done; split_and!; auto; try (by left); discriminate.
  - simpl. split_and!; auto; [by right|discriminate].
Qed.

Lemma val_rep_restored h v a : (v_defined a = TRUE -> restored a = a) -> value_ok (fun _ => True) a ->
  val_rep h v (restored a) -> val_rep h v a.
Proof.
  intros Ha Hok (Ht & Hd & _ & Hr). split_and!; auto. intros Hdef. rewrite (Ha Hdef) in Hr. auto.
Qed.

(** One iteration on an encoded field. *)
Lemma read_field pre k a rest fuel i nfields n h d :
  portable_field (k, a) -> heap_ok h -> i < nfields -> zlen (pre ++ encode_field (k, a)) <= n <= zlen (pre ++ encode_field (k, a) ++ rest) ->
  exists h1 v r, extends h h1 /\ heap_ok h1 /\ val_rep h1 v a /\
    (forall l, value_loc v = Some l -> (fresh_loc h <= l < fresh_loc h1)%positive) /\
    (k <> raw_key -> r = raw_event d) /\
    (forall c, k = raw_key -> a = str_value c -> exists l, v = string_value l /\ r = Some l) /\
    let b := pre ++ encode_field (k, a) ++ rest in
    fields_from_membuf (S fuel) b n i nfields (zlen pre) (h, d) =
      fields_from_membuf fuel b n (s16 (i + 1)) nfields (zlen (pre ++ encode_field (k, a)))
        (h1, Ld r (fields d ++ [(k, v)])).
Proof.
  intros (Hn & Hk & Hrd & Hb) Hh Hi Hsz. simpl in Hn, Hk, Hrd, Hb. rewrite !length_app in Hsz.
  destruct (readable_restored a Hrd Hb) as (Hok & Hz & Hsame).
  destruct (intern_rep h (restored a) Hh Hok Hz) as (h1 & v & Hint & Hext & Hh1 & Hv & Hvt & Hloc & Hptr & Hstr).
  destruct (raw_step_run k v h1 d ltac:(rewrite Hvt; exact Hptr)) as (r & Hraw & Hr1 & Hr2).
  exists h1, v, r. split_and!; auto.
  { apply val_rep_restored; auto. destruct Hrd as (Ho & _). by eapply value_ok_weaken; [|exact Ho]. }
  { intros c -> ->. destruct (Hstr c eq_refl) as [l ->]. exists l. split; [done|]. by apply Hr2. }
  set (b := pre ++ encode_field (k, a) ++ rest). cbn [fields_from_membuf].
  assert (2 <= zlen (encode_value a)) by (unfold encode_value; rewrite !length_cons; lia).
  assert (zlen (encode_field (k, a)) = 2 + zlen k + zlen (encode_value a)) as Hlen.
  { unfold encode_field. rewrite !length_app, le_length. simpl fst. simpl snd. lia. }
  assert (zlen b = zlen pre + (2 + zlen k + zlen (encode_value a)) + zlen rest) as Hbl.
  { unfold b. rewrite !length_app. lia. }
  assert (b = pre ++ le 2 (zlen k) ++ (k ++ encode_value a ++ rest)) as Hb1.
  { unfold b, encode_field. simpl fst. simpl snd. by rewrite <- !app_assoc. }
  assert (b = (pre ++ le 2 (zlen k)) ++ k ++ (encode_value a ++ rest)) as Hb2 by (rewrite Hb1; by rewrite <- !app_assoc).
  rewrite (proj2 (Z.ltb_lt i nfields)), (proj2 (Z.leb_gt n (zlen pre))) by lia.
  assert (mem_read b (zlen pre) 2 = Ret (le 2 (zlen k))) as ->.
  { rewrite Hb1. by apply read_after. }
  erewrite cmd_bind_Ret by reflexivity. rewrite nx_int16_from_le_wire, unle_le by apply le_length.
  rewrite Z.mod_small by (simpl; lia). rewrite (proj2 (Z.leb_gt (zlen k) 0)), (proj2 (Z.leb_gt n _)) by lia.
  assert (mem_read b (zlen pre + 2) (zlen k) = Ret k) as ->.
  { rewrite Hb2. replace (zlen pre + 2) with (zlen (pre ++ le 2 (zlen k))) by (rewrite length_app, le_length; lia).
    by apply read_after. }
  erewrite cmd_bind_Ret by reflexivity. rewrite (cstr_no_nul k Hn).
  replace (drop (Z.to_nat (zlen pre + 2 + zlen k)) b) with (encode_value a ++ rest).
  2:{ rewrite Hb2, app_assoc, drop_app_length'; [done|]. rewrite !length_app, le_length. lia. }
  rewrite from_membuf_encode; [|done|rewrite length_app; lia].
  erewrite cmd_bind_Ret by reflexivity. cbv beta iota zeta.
  erewrite cmd_bind_Ret by (by apply on_heap_run). erewrite cmd_bind_Ret by exact Hraw.
  erewrite cmd_bind_Ret by reflexivity. cbn [fst snd]. f_equal. rewrite length_app. lia.
Qed.

Lemma fields_from_membuf_rep al pre rest fuel i n h d :
  Forall portable_field al -> heap_ok h -> 0 <= i -> i + zlen al < 2 ^ 15 -> (length al <= fuel)%nat ->
  zlen (pre ++ (al ≫= encode_field)) <= n <= zlen (pre ++ (al ≫= encode_field) ++ rest) ->
  let b := pre ++ (al ≫= encode_field) ++ rest in
  exists h' fs' r,
    fields_from_membuf fuel b n i (i + zlen al) (zlen pre) (h, d) =
      ((h', Ld r (fields d ++ fs')), Ret (zlen (pre ++ (al ≫= encode_field)))) /\
    extends h h' /\ heap_ok h' /\ Forall2 (field_rep h') fs' al /\ NoDup (field_locs fs') /\
    (forall l, l ∈ field_locs fs' -> (fresh_loc h <= l < fresh_loc h')%positive) /\
    ((forall a, (raw_key, a) ∉ al) -> r = raw_event d) /\
    (forall c, NoDup (lower_keys al) -> (raw_key, str_value c) ∈ al ->
       exists l, r = Some l /\ (raw_key, string_value l) ∈ fs').
Proof.
  revert pre fuel i h d. induction al as [|[k a] al IH]; intros pre fuel i h d Hp Hh Hi Hn Hf Hsz b.
  - exists h, [], (raw_event d). subst b. simpl.
    split_and!; auto using extends_refl, NoDup_nil_2; try set_solver.
    destruct fuel; simpl; rewrite Z.add_0_r, (proj2 (Z.ltb_ge i i)), !app_nil_r by lia; by destruct d.
  - apply Forall_cons in Hp as [Hpf Hp]. destruct fuel as [|fuel]; [simpl in Hf; lia|].
    rewrite length_cons in Hn, Hf. subst b. rewrite bind_cons, <- app_assoc. rewrite bind_cons, <- !app_assoc in Hsz.
    destruct (read_field pre k a ((al ≫= encode_field) ++ rest) fuel i (i + zlen ((k, a) :: al)) n h d Hpf Hh)
      as (h1 & v & r1 & Hext & Hh1 & Hv & Hloc & Hr1 & Hr2 & Hstep); [rewrite length_cons; lia|rewrite !length_app in *; lia|].
    cbv zeta in Hstep. unfold s16 in Hstep. rewrite (Z.mod_small (i + 1 + _)) in Hstep by lia.
    replace (i + 1 + 2 ^ 15 - 2 ^ 15) with (i + 1) in Hstep by lia.
    destruct (IH (pre ++ encode_field (k, a)) fuel (i + 1) h1 (Ld r1 (fields d ++ [(k, v)])))
      as (h2 & fs' & r & Hrun & Hext2 & Hh2 & HF2 & HN2 & Hloc2 & Hmiss & Hhit); auto; [lia|lia|lia|by rewrite <- !app_assoc|].
    exists h2, ((k, v) :: fs'), r. pose proof Hext as [Hle _]. pose proof Hext2 as [Hle2 Hsame2]. split_and!; auto.
    + etransitivity; [exact Hstep|]. rewrite <- app_assoc in Hrun. rewrite length_cons.
      replace (i + Z.of_nat (S (length al))) with (i + 1 + zlen al) by lia.
      etransitivity; [exact Hrun|]. cbn [fields]. by rewrite <- !app_assoc.
    + by eapply extends_trans.
    + constructor; [|done]. split; [done|]. eapply val_rep_frame; [|exact Hv]. simpl. intros l Hl.
      apply Hsame2. destruct (Hloc l Hl). lia.
    + rewrite field_locs_cons. simpl. destruct (value_loc v) as [l|]; [|done]. apply NoDup_cons. split; [|done].
      intros Hin. destruct (Hloc2 l Hin), (Hloc l eq_refl). lia.
    + intros l. rewrite field_locs_cons. simpl. destruct (value_loc v) as [l1|]; [|intros Hin; destruct (Hloc2 l Hin); lia].
      intros [->|Hin]%elem_of_cons; [destruct (Hloc l1 eq_refl); lia|destruct (Hloc2 l Hin); lia].
    + intros Hno. rewrite Hmiss by set_solver. simpl. apply Hr1. intros ->. apply (Hno a). set_solver.
    + intros c HN [Heq|Hin]%elem_of_cons.
      * injection Heq as <- <-. apply NoDup_cons in HN as [Hnin _]. destruct (Hr2 c eq_refl eq_refl) as (l & -> & ->).
        exists l. split; [|set_solver]. apply Hmiss. intros a Ha. apply Hnin.
        apply (list_elem_of_fmap_2 (fun f => map tolower (fst f)) _ _ Ha).
      * apply NoDup_cons in HN as [_ HN]. destruct (Hhit c HN Hin) as (l & -> & Hin'). exists l. split; [done|set_solver].
Qed.

Lemma logdata_from_membuf_rep h al rest n :
  heap_ok h -> portable al -> NoDup (lower_keys al) -> (exists c, (raw_key, str_value c) ∈ al) -> zlen (encode_record al) <= n <= zlen (encode_record al ++ rest) ->
  exists h' d, nx_logdata_from_membuf (encode_record al ++ rest) n h =
      (h', Ret (d, zlen (encode_record al))) /\
    inv h' d al /\ extends h h' /\ (forall l, l ∈ field_locs (fields d) -> (fresh_loc h <= l)%positive).
Proof.
  intros Hh [Hp Hn] HK [c Hc] Hsz. unfold nx_logdata_from_membuf. unfold encode_record in *.
  set (pre := le 2 (zlen al)). assert (zlen pre = 2) as Hpre by (by unfold pre; rewrite le_length).
  rewrite <- app_assoc. set (b := pre ++ (al ≫= encode_field) ++ rest).
  assert (2 <= n) by (rewrite length_app in Hsz; fold pre in Hsz; lia).
  rewrite (proj2 (Z.leb_gt n 1)) by lia.
  assert (mem_read b 0 2 = Ret pre) as -> by exact (read_after [] pre _ 2 Hpre).
  assert (nx_int16_from_le pre = zlen al) as ->.
  { unfold pre. rewrite nx_int16_from_le_wire, unle_le by apply le_length. apply Z.mod_small. simpl. lia. }
  destruct (fields_from_membuf_rep al pre rest (length b) 0 n h (Ld None [])) as
    (h' & fs' & r & Hrun & Hext & Hh' & HF & HN & Hloc & _ & Hhit); auto; [lia| |].
  { assert (forall l : alist, (length l <= length (l ≫= encode_field))%nat) as Hg; [|specialize (Hg al); unfold b; rewrite !length_app; lia].
    induction l as [|f l IHl]; [simpl; lia|]. rewrite bind_cons, length_app, length_cons. simpl. lia. }
  destruct (Hhit c HK Hc) as (l & -> & Hin). fold b in Hrun. rewrite Z.add_0_l, Hpre in Hrun. rewrite Hrun.
  exists h', (Ld (Some l) fs'). split_and!; auto.
  - constructor; simpl; eauto. by rewrite <- (lower_keys_rep _ _ _ HF).
  - intros l0 Hl0. destruct (Hloc l0 Hl0). lia.
Qed.

End reader.

(** ** Arbitrary input *)

(** What [nx_value_free] needs of a value. *)
Definition freeable (h : heap) (v : hvalue) : Prop :=
  v_defined v = TRUE ->
  match v_type v, v_data v with
  | NX_VALUE_TYPE_STRING, DString l => is_Some (strs h !! l)
  | NX_VALUE_TYPE_STRING, d => d = DZero
  | NX_VALUE_TYPE_UNKNOWN, _ | NX_VALUE_TYPE_OTHER _, _ | _, DString _ | NX_VALUE_TYPE_REGEXP, DRegexp _ _ None => False
  | _, _ => True
  end.

Definition disposable (h : heap) (fs : list field) : Prop :=
  heap_ok h /\ NoDup (field_locs fs) /\ Forall (fun f => freeable h (snd f)) fs.

Lemma value_free_weak h v : freeable h v -> nx_value_free v h = (heap_without (value_loc v) h, Ret tt).
Proof.
  destruct v as [t df d]. unfold freeable, nx_value_free, nx_value_kill, value_loc. simpl. intros Hf.
  destruct (df =? TRUE) eqn:Ed; [|by destruct h]. apply Z.eqb_eq in Ed. specialize (Hf Ed). subst df.
  assert (forall d0 : nx_data loc, (forall l, d0 <> DString l) ->
    heap_without (match d0 with DString l => Some l | _ => None end) h = h) as Hnone.
  { intros d0 Hd0. destruct d0, h; try done. by destruct (Hd0 s). }
  destruct t; try contradiction.
  2:{ destruct d; try discriminate; [by destruct h|]. destruct Hf as [s' Hs].
      unfold mbind, cmd_bind, lift, string_ptr. simpl. by rewrite (nx_string_free_run _ _ _ Hs). }
  all: by destruct d as [| | | | |? ? [?|]| | | |]; try contradiction; destruct h.
Qed.

Lemma freeable_frame h h' v : (forall l, value_loc v = Some l -> strs h' !! l = strs h !! l) ->
  freeable h v -> freeable h' v.
Proof.
  intros Hl Hf Hd. specialize (Hf Hd). unfold value_loc in Hl. rewrite Hd in Hl.
  destruct (v_type v); try done. destruct (v_data v); try done. by rewrite (Hl s).
Qed.

Lemma freeable_live h fs l :
  Forall (fun f => freeable h (snd f)) fs -> l ∈ field_locs fs -> is_Some (strs h !! l).
Proof.
  intros HF Hl. apply elem_of_field_locs in Hl as ([k v] & Hin & Hv). rewrite Forall_forall in HF.
  specialize (HF _ Hin). unfold freeable, value_loc in *. simpl in *.
  destruct (v_defined v =? TRUE) eqn:Ed; [|done]. apply Z.eqb_eq in Ed. specialize (HF Ed).
  destruct (v_data v); try done. injection Hv as ->. by destruct (v_type v).
Qed.

Lemma free_fields_weak h fs : disposable h fs -> exists h', free_fields fs h = (h', Ret tt).
Proof.
  intros (Hh & HN & HF). revert h Hh HN HF. induction fs as [|[k v] fs IH]; intros h Hh HN HF; [eauto|].
  apply Forall_cons in HF as [Hv HF]. simpl in Hv. rewrite field_locs_cons in HN. simpl in HN.
  destruct (IH (heap_without (value_loc v) h)) as [h' Hrun].
  - by apply heap_without_ok.
  - destruct (value_loc v); [by apply NoDup_cons in HN as [_ ?]|done].
  - apply Forall_forall. intros f Hf. rewrite Forall_forall in HF. eapply freeable_frame; [|exact (HF f Hf)].
    intros l Hl. apply heap_without_lookup. intros Ev. rewrite Ev in HN. apply NoDup_cons in HN as [Hn _].
    apply Hn, elem_of_field_locs. eauto.
  - exists h'. simpl. by erewrite cmd_bind_Ret by (by apply value_free_weak).
Qed.

Section arbitrary.
Context `{H : Host} `{M : Malloc} `{E : ValueEnv}.

Lemma intern_weak h a : heap_ok h -> decoded a ->
  exists h' v, intern a h = (h', Ret v) /\ extends h h' /\ heap_ok h' /\ freeable h' v /\
    (forall l, value_loc v = Some l -> (fresh_loc h <= l)%positive) /\
    (v_type v = NX_VALUE_TYPE_STRING -> exists p, string_ptr v = Ret p).
Proof.
  intros Hh Hdec. destruct a as [t df d]. unfold intern, decoded in *. simpl in *.
  destruct (df =? TRUE) eqn:Ed.
  - apply Z.eqb_eq in Ed. subst df. destruct d as [| | |c| | | | | |].
    4:{ destruct (alloc_run h (exact c) Hh) as (h' & Hal & Hext & Hh' & Hnew & Hfr). exists h', (NxValue t TRUE (DString (fresh_loc h))).
        split; [by erewrite cmd_bind_Ret by exact Hal|]. split_and!; auto; [| |eauto].
        - intros _. simpl. destruct t; try contradiction. eauto.
        - unfold value_loc. simpl. intros l [= <-]. reflexivity. }
    all: eexists h, _; split; [reflexivity|]; split_and!; auto using extends_refl.
    all: try (intros _; simpl; destruct t; done).
    all: try (unfold value_loc; simpl; discriminate).
    all: simpl; intros ->; contradiction.
  - subst d. eexists h, _. split; [reflexivity|]. split_and!; auto using extends_refl.
    + intros Hd. simpl in Hd. rewrite Hd in Ed. discriminate.
    + unfold value_loc. simpl. rewrite Ed. discriminate.
    + simpl. eauto.
Qed.

Lemma disposable_app h h' fs k v :
  disposable h fs -> extends h h' -> heap_ok h' -> freeable h' v ->
  (forall l, value_loc v = Some l -> (fresh_loc h <= l)%positive) -> disposable h' (fs ++ [(k, v)]).
Proof.
  intros (Hh & HN & HF) [Hle Hsame] Hh' Hv Hloc.
  assert (forall l, l ∈ field_locs fs -> (l < fresh_loc h)%positive) as Hlt
    by (intros l Hl; apply Hh; by eapply freeable_live).
  split_and!; [done| |].
  - rewrite field_locs_app, field_locs_cons. simpl. destruct (value_loc v) as [l|]; [|by rewrite app_nil_r].
    apply NoDup_app. split_and!; [done| |apply NoDup_singleton]. intros l' Hl' ->%list_elem_of_singleton.
    specialize (Hlt l Hl'). specialize (Hloc l eq_refl). lia.
  - apply Forall_app. split; [|by constructor]. apply Forall_forall. intros f Hf. rewrite Forall_forall in HF.
    eapply freeable_frame; [|exact (HF f Hf)]. intros l Hl. apply Hsame, Hlt, elem_of_field_locs. eauto.
Qed.

Lemma fields_from_membuf_safe data x nfields fuel i offs h d :
  zlen data < 2 ^ 31 -> 0 <= offs <= zlen data -> zlen data - offs < Z.of_nat fuel -> disposable h (fields d) ->
  exists h' d' o, fields_from_membuf fuel (data ++ [x]) (zlen data) i nfields offs (h, d) = ((h', d'), o) /\
    disposable h' (fields d') /\ ok_result o (fun n => offs <= n <= zlen data).
Proof.
  intros H31. revert i offs h d. induction fuel as [|fuel IH]; intros i offs h d Ho Hf Hd; [lia|].
  cbn [fields_from_membuf]. case_test; [|exists h, d, (Ret offs); split_and!; simpl; auto; lia].
  case_test; [by eexists h, d, _|].
  assert (length (data ++ [x]) = S (length data)) as Hl1 by (rewrite length_app; simpl; lia).
  pose proof (mem_read_ok (data ++ [x]) offs 2 ltac:(lia) ltac:(lia) ltac:(rewrite Hl1; lia)) as Hkl.
  destruct (mem_read (data ++ [x]) offs 2) as [kl|e| |] eqn:Ekl; simpl in Hkl; try contradiction.
  2:{ by eexists h, d, _. }
  erewrite cmd_bind_Ret by reflexivity. rewrite nx_int16_from_le_wire by lia.
  case_test; [by eexists h, d, _|]. case_test; [by eexists h, d, _|].
  pose proof (mem_read_ok (data ++ [x]) (offs + 2) (unle kl) ltac:(lia) ltac:(lia) ltac:(rewrite Hl1; lia)) as Hk.
  destruct (mem_read (data ++ [x]) (offs + 2) (unle kl)) as [key|e| |] eqn:Ek; simpl in Hk; try contradiction.
  2:{ by eexists h, d, _. }
  erewrite cmd_bind_Ret by reflexivity.
  set (o2 := offs + 2 + unle kl) in *.
  assert (zlen data - o2 <= zlen (drop (Z.to_nat o2) (data ++ [x]))) as Hdr by (rewrite length_drop, Hl1; lia).
  pose proof (from_membuf_safe (drop (Z.to_nat o2) (data ++ [x])) (zlen data - o2) ltac:(lia) ltac:(lia)) as Hval.
  destruct (nx_value_from_membuf _ (zlen data - o2)) as [[val vlen]|e| |]; simpl in Hval; try contradiction.
  2:{ by eexists h, d, _. }
  destruct Hval as [Hvl Hdec]. erewrite cmd_bind_Ret by reflexivity.
  destruct (intern_weak h val ltac:(by destruct Hd) Hdec) as (h1 & v & Hint & Hext & Hh1 & Hfv & Hloc & Hptr).
  erewrite cmd_bind_Ret by (by apply on_heap_run).
  destruct (raw_step_run (cstr key) v h1 d Hptr) as (r & Hraw & _).
  erewrite cmd_bind_Ret by exact Hraw. erewrite cmd_bind_Ret by reflexivity.
  destruct (IH (s16 (i + 1)) (o2 + vlen) h1 (Ld r (fields d ++ [(cstr key, v)]))) as (h' & d' & o & Hrun & Hdisp & Hok);
    [lia|lia|by eapply disposable_app|].
  exists h', d', o. split_and!; [exact Hrun|done|]. eapply ok_result_mono; [|exact Hok]. simpl. lia.
Qed.

Lemma logdata_from_membuf_safe data x h :
  zlen data < 2 ^ 31 -> heap_ok h ->
  exists h' o, nx_logdata_from_membuf (data ++ [x]) (zlen data) h = (h', o) /\
    ok_result o (fun r => 2 <= snd r <= zlen data).
Proof.
  intros H31 Hh. unfold nx_logdata_from_membuf. case_test; [by eexists h, _|].
  assert (length (data ++ [x]) = S (length data)) as Hl1 by (rewrite length_app; simpl; lia).
  pose proof (mem_read_ok (data ++ [x]) 0 2 ltac:(lia) ltac:(lia) ltac:(rewrite Hl1; lia)) as Hn.
  destruct (mem_read (data ++ [x]) 0 2) as [n|e| |]; simpl in Hn; try contradiction; [|by eexists h, _].
  destruct (fields_from_membuf_safe data x (nx_int16_from_le n) (length (data ++ [x])) 0 2 h (Ld None []))
    as (h' & d' & o & Hrun & Hdisp & Hok); [done|lia|rewrite Hl1; lia|by repeat constructor|].
  rewrite Hrun. destruct o as [offs|e| |]; simpl in Hok; try contradiction.
  - destruct (raw_event d'); [exists h', (Ret (d', offs)); split; [done|simpl; lia]|].
    destruct nx_string_new_rep as (s & Hs & _). rewrite Hs. destruct (alloc_run h' s) as (h2 & Hal & _); [by destruct Hdisp|].
    eexists h2, _. split; [erewrite cmd_bind_Ret by reflexivity; by erewrite cmd_bind_Ret by exact Hal|simpl; lia].
  - destruct (free_fields_weak h' (fields d') Hdisp) as [h2 Hfree]. exists h2, (Throw e). split; [|done].
    erewrite cmd_bind_Ret; [reflexivity|]. unfold nx_logdata_free. by do 2 (erewrite cmd_bind_Ret by reflexivity).
Qed.

End arbitrary.

(** ** Properties *)

(** C3: round trip: a record is serialized into a buffer of
    [nx_logdata_serialized_size] bytes on one host and rebuilt by
    [nx_logdata_from_membuf] in the heap of another process, on a host of any
    byte order: the whole buffer is consumed and the new record satisfies the
    invariant (its [raw_event] included) for the same association list.  This is
    for a record with
    - fewer than 32768 fields: the writer counts them in an unsigned number of 16
      bits, which the reader compares with a signed counter [i];
    - names of 1 to 32767 bytes without a NUL;
    - values of the known types with the data of their type, strings within the
      string limit, no regexp (which cannot be read back) and no binary value (which
      comes back with length 0); undefined values are admitted;
    - an encoding of fewer than 2^64 bytes. *)
Theorem record_membuf_roundtrip (W R : Host) `{M : Malloc} `{E : ValueEnv} h d al h2 :
  inv h d al -> portable al -> zlen (encode_record al) < 2 ^ 64 -> heap_ok h2 ->
  exists n b h2' d2, nx_logdata_serialized_size h d = Ret n /\
    nx_logdata_to_membuf (H := W) h d (malloc n) 0 n = Ret (b, n) /\
    nx_logdata_from_membuf (H := R) b (zlen b) h2 = (h2', Ret (d2, n)) /\ zlen b = n /\
    inv h2' d2 al /\ extends h2 h2'.
Proof.
  intros Hinv Hp H64 Hh2. pose proof Hinv as [_ HF _ HK (l & Hr & Hin)].
  exists (zlen (encode_record al)), (encode_record al).
  pose proof (malloc_length (zlen (encode_record al)) ltac:(lia)) as L.
  destruct (logdata_from_membuf_rep (H := R) h2 al [] (zlen (encode_record al)) Hh2 Hp) as (h2' & d2 & Hrun & Hinv2 & Hext & _).
  { by rewrite (lower_keys_rep _ _ _ HF). }
  { destruct (raw_alias _ _ _ Hinv) as (_ & _ & c & al1 & al2 & _ & _ & _ & _ & -> & _). exists c. set_solver. }
  { rewrite app_nil_r. lia. }
  rewrite app_nil_r in Hrun. exists h2', d2. split_and!; auto.
  - unfold nx_logdata_serialized_size. rewrite (fields_size _ _ _ HF) by (by destruct Hp). cbn [mbind outcome_bind].
    unfold encode_record. rewrite length_app, le_length. f_equal. lia.
  - etransitivity; [apply (logdata_to_membuf_rep (H := W) h d al [] (malloc (zlen (encode_record al)))); auto; lia|].
    cbn [app]. by rewrite drop_ge, app_nil_r by lia.
Qed.

Lemma record_membuf_roundtrip_witness :
  exists n b h2' d2, nx_logdata_serialized_size one_line_heap one_line = Ret n /\
    nx_logdata_to_membuf (H := big) one_line_heap one_line (malloc (Malloc := poison_malloc) n) 0 n = Ret (b, n) /\
    nx_logdata_from_membuf (H := little) (M := poison_malloc) b (zlen b) empty_heap = (h2', Ret (d2, n)) /\ zlen b = n /\
    inv h2' d2 [(raw_key, str_value (lit "line"))] /\ extends empty_heap h2'.
Proof.
  apply (record_membuf_roundtrip big little (M := poison_malloc) (E := plain_env)); [exact one_line_inv| | |exact empty_heap_ok].
  - split; [|reflexivity]. constructor; [|constructor]. split_and!; try (vm_compute; reflexivity); try discriminate.
    + apply (bool_decide_unpack _). reflexivity.
    + split_and!; [left; split; [reflexivity|vm_compute; discriminate]|discriminate|exact I].
  - vm_compute. reflexivity.
Defined.

(** C34: arbitrary input: on any bytes of less than 2 GB followed by one more
    readable byte, [nx_logdata_from_membuf] terminates, returns or throws, never
    reads elsewhere, and in the error case frees the partial record without a
    double free. *)
Theorem record_from_membuf_safe `{H : Host} `{M : Malloc} `{E : ValueEnv} data x h :
  zlen data < 2 ^ 31 -> heap_ok h ->
  exists h', (exists d n, nx_logdata_from_membuf (data ++ [x]) (zlen data) h = (h', Ret (d, n)) /\ 2 <= n <= zlen data) \/
    (exists e, nx_logdata_from_membuf (data ++ [x]) (zlen data) h = (h', Throw e)).
Proof.
  intros H31 Hh. destruct (logdata_from_membuf_safe data x h H31 Hh) as (h' & o & Hrun & Hok). exists h'.
  destruct o as [[d n]|e| |]; simpl in Hok; eauto 6; contradiction.
Qed.

Lemma record_from_membuf_safe_witness :
  exists h', (exists d n, nx_logdata_from_membuf (H := little) (M := poison_malloc) ([x01; x00; x05] ++ [x00])
                (zlen [x01; x00; x05]) empty_heap = (h', Ret (d, n)) /\ 2 <= n <= zlen [x01; x00; x05]) \/
    (exists e, nx_logdata_from_membuf (H := little) (M := poison_malloc) ([x01; x00; x05] ++ [x00])
                (zlen [x01; x00; x05]) empty_heap = (h', Throw e)).
Proof.
  apply (record_from_membuf_safe (H := little) (M := poison_malloc) (E := plain_env) [x01; x00; x05] x00 empty_heap);
    [vm_compute; reflexivity|exact empty_heap_ok].
Defined.

(** Two inputs [nx_logdata_from_membuf] does not handle: the length of the
    next key is read when only one byte is left, which reads past the buffer;
    and a record without a [raw_event] field gets a string that belongs to no
    field, which [nx_logdata_clone] then refuses with a failed assertion. *)
Theorem record_from_membuf_gaps `{M : Malloc} `{E : ValueEnv} :
  snd (nx_logdata_from_membuf (H := little) [x01; x00; x05] 3 empty_heap) = Undef "read outside the block" /\
  exists h d n, nx_logdata_from_membuf (H := little) [x00; x00] 2 empty_heap = (h, Ret (d, n)) /\
    snd (nx_logdata_clone d h) = Panic "new->raw_event != NULL".
Proof.
  split; [vm_compute; reflexivity|]. unfold nx_logdata_from_membuf. simpl.
  destruct nx_string_new_rep as (s & -> & _). unfold mbind, cmd_bind, lift, alloc. simpl. eauto 6.
Qed.

End LogdataSerialize.
