(* ===== verification/Logqueue.v ===== *)
(** * The queue between modules (common/logqueue.h, common/logqueue.c)

    A queue is a doubly linked list of records with a counter and a flag
    [needpop] that is set by [nx_logqueue_peek] and required by
    [nx_logqueue_pop].  Every operation holds the mutex of the queue for its
    whole body, so concurrent use is an interleaving of the operations and a
    run is a sequence of them.

    A queue is saved to a file at exit and reloaded at start: the file is a
    sequence of records, each preceded by its 32-bit size. *)

From S2P Require Import Prelude Dlist Str Value Serialize Logdata LogdataSerialize.
Import Str Value Serialize Logdata LogdataSerialize.

Module Logqueue.

Record logqueue := Lq { lq_list : Dlist.dlist; lq_size : Z; lq_needpop : bool }.

Definition INT_MAX : Z := 2 ^ 31 - 1.

(** ** Operations *)

(** The result of [apr_pcalloc]: an empty list and zero. *)
Definition nx_logqueue_new (links : gmap loc Dlist.link) : logqueue := Lq (Dlist.DL None None links) 0 false.

Definition nx_logqueue_push (ld : loc) (q : logqueue) : outcome (logqueue * Z) :=
  k ← deref (Dlist.links (lq_list q) !! ld) "logdata";
  _ ← ASSERT (bool_decide (Dlist.prev k = None)) "logdata->link.prev == NULL";
  _ ← ASSERT (bool_decide (Dlist.next k = None)) "logdata->link.next == NULL";
  _ ← ASSERT (0 <=? lq_size q) "logqueue->size >= 0";
  l ← Dlist.NX_DLIST_INSERT_TAIL ld (lq_list q);
  if lq_size q <? INT_MAX
  then Ret (Lq l (lq_size q + 1) (lq_needpop q), lq_size q + 1)
  else Undef "signed overflow of logqueue->size".

(** The element stored through the pointer and the returned size. *)
Definition nx_logqueue_peek (q : logqueue) : outcome (logqueue * (option loc * Z)) :=
  _ ← ASSERT (0 <=? lq_size q) "logqueue->size >= 0";
  if 0 <? lq_size q then
    let ld := Dlist.first (lq_list q) in
    _ ← ASSERT (bool_decide (is_Some ld)) "ld != NULL";
    Ret (Lq (lq_list q) (lq_size q) true, (ld, lq_size q - 1))
  else
    _ ← ASSERT (Dlist.NX_DLIST_EMPTY (lq_list q)) "NX_DLIST_EMPTY(logqueue->list) == TRUE";
    Ret (q, (None, 0)).

Definition nx_logqueue_pop (logdata : loc) (q : logqueue) : outcome (logqueue * Z) :=
  _ ← ASSERT (lq_needpop q) "logqueue->needpop == TRUE";
  _ ← ASSERT (0 <=? lq_size q) "logqueue->size >= 0";
  match Dlist.first (lq_list q) with
  | None => Panic "ld != NULL"
  | Some ld =>
      _ ← ASSERT (bool_decide (ld = logdata)) "ld == logdata";
      l ← Dlist.NX_DLIST_REMOVE ld (lq_list q);
      Ret (Lq l (lq_size q - 1) false, lq_size q - 1)
  end.

Definition nx_logqueue_size (q : logqueue) : Z := lq_size q.

(** ** Persistence *)

(** Records by address, the strings of their fields, and the queue. *)
Record world := World {
  w_heap : heap;
  w_recs : gmap loc logdata;
  w_queue : logqueue;
  w_file : option bytes
}.

Section persistence.
Context `{H : Host} `{M : Malloc} `{E : ValueEnv}.

(** One record as it is written by [nx_logqueue_to_file]. *)
Definition record_to_file (h : heap) (d : logdata) : outcome bytes :=
  memsize ← nx_logdata_serialized_size h d;
  b ← mem_write (malloc (memsize + 4)) 0 (nx_int32_to_le (u32 memsize));
  '(b, n) ← nx_logdata_to_membuf h d b 4 memsize;
  _ ← ASSERT (n =? memsize) "nx_logdata_to_membuf(logdata, buf + 4, memsize) == memsize";
  Ret b.

(** The loop over the queue: the contents of the file. *)
Fixpoint records_to_file (w : world) (lds : list loc) : outcome bytes :=
  match lds with
  | [] => Ret []
  | ld :: lds =>
      d ← deref (w_recs w !! ld) "logdata";
      b ← record_to_file (w_heap w) d;
      r ← records_to_file w lds;
      Ret (b ++ r)
  end.

(** [nx_logqueue_to_file]: opening the file truncates it; the result is the
    number of bytes written.  [fuel] bounds the length of the list. *)
Definition nx_logqueue_to_file (fuel : nat) (w : world) : outcome (world * Z) :=
  if lq_size (w_queue w) =? 0 then Ret (w, 0)
  else
    lds ← Dlist.walk fuel (Dlist.first (lq_list (w_queue w))) (lq_list (w_queue w));
    f ← records_to_file w lds;
    Ret (World (w_heap w) (w_recs w) (w_queue w) (Some f), zlen f).

(** [apr_file_read]: at the end of the file [None] (APR_EOF and no bytes),
    otherwise as many of the [n] bytes as there are. *)
Definition apr_file_read (f : bytes) (n : Z) : option (bytes * bytes) :=
  if n =? 0 then Some ([], f)
  else match f with [] => None | _ => Some (take (Z.to_nat n) f, drop (Z.to_nat n) f) end.

(** A new record from [malloc], with its links cleared. *)
Definition new_record (d : logdata) : cmd world loc := fun w =>
  let q := w_queue w in
  let l := fresh (dom (w_recs w) ∪ dom (Dlist.links (lq_list q))) in
  let dl := lq_list q in
  (World (w_heap w) (<[l := d]> (w_recs w))
     (Lq (Dlist.DL (Dlist.first dl) (Dlist.last dl) (<[l := Dlist.null_link]> (Dlist.links dl)))
         (lq_size q) (lq_needpop q)) (w_file w), Ret l).

Definition on_wheap {A} (c : cmd heap A) : cmd world A := fun w =>
  let '(h, r) := c (w_heap w) in (World h (w_recs w) (w_queue w) (w_file w), r).

Definition on_queue {A} (f : logqueue -> outcome (logqueue * A)) : cmd world A := fun w =>
  match f (w_queue w) with
  | Ret (q, a) => (World (w_heap w) (w_recs w) q (w_file w), Ret a)
  | Throw e => (w, Throw e)
  | Panic e => (w, Panic e)
  | Undef e => (w, Undef e)
  end.

(** The loop of [nx_logqueue_from_file]: [f] is the rest of the file. *)
Fixpoint records_from_file (fuel : nat) (f : bytes) (totalread : Z) : cmd world Z :=
  match fuel with
  | O => lift (Undef "out of fuel")
  | S fuel =>
      match apr_file_read f 4 with
      | None => mret totalread
      | Some (sizebuf, f) =>
          _ ← lift (ASSERT (zlen sizebuf =? 4) "bytes == bytesread");
          let bytes := nx_int32_from_le sizebuf in
          match apr_file_read f bytes with
          | None => lift (Throw "failed to read %d bytes from file, cannot fill logqueue")
          | Some (buf, f) =>
              _ ← lift (ASSERT (zlen buf =? bytes) "bytes == bytesread");
              '(logdata, bytesread) ← on_wheap (nx_logdata_from_membuf buf bytes);
              _ ← lift (ASSERT (bytes =? bytesread) "bytes == bytesread");
              ld ← new_record logdata;
              _ ← on_queue (nx_logqueue_push ld);
              records_from_file fuel f (totalread + bytesread + 4)
          end
      end
  end.

(** [nx_logqueue_from_file]: nothing to do when the file does not exist; the
    file is removed once it was read to its end. *)
Definition nx_logqueue_from_file : cmd world Z := fun w =>
  match w_file w with
  | None => (w, Ret 0)
  | Some f =>
      match records_from_file (S (length f)) f 0 w with
      | (w, Ret n) => (World (w_heap w) (w_recs w) (w_queue w) None, Ret n)
      | r => r
      end
  end.

End persistence.

(** ** Specification: a FIFO queue *)

(** The queue [q] holds the elements [l]; records outside it are unlinked. *)
Definition qrep (q : logqueue) (l : list loc) : Prop :=
  Dlist.rep (lq_list q) l /\ lq_size q = zlen l /\ zlen l <= INT_MAX /\
  (forall x k, x ∉ l -> Dlist.links (lq_list q) !! x = Some k -> k = Dlist.null_link).

Lemma push_rep q l x :
  qrep q l -> x ∉ l -> is_Some (Dlist.links (lq_list q) !! x) -> zlen l < INT_MAX ->
  exists q', nx_logqueue_push x q = Ret (q', zlen l + 1) /\ qrep q' (l ++ [x]) /\ lq_needpop q' = lq_needpop q /\
    (forall y, is_Some (Dlist.links (lq_list q) !! y) -> is_Some (Dlist.links (lq_list q') !! y)).
Proof.
  intros (Hr & Hs & Hmax & Hnull) Hx [k Hk] Hlt. unfold nx_logqueue_push. rewrite Hk.
  rewrite (Hnull x k Hx Hk) in *. simpl. rewrite Hs, (proj2 (Z.leb_le 0 _)) by lia. cbn [mbind outcome_bind ASSERT].
  destruct (Dlist.insert_tail_rep _ l x Hr Hx) as (d' & Hins & Hr' & Hfr); [eauto|].
  rewrite Hins. cbn [mbind outcome_bind]. rewrite (proj2 (Z.ltb_lt _ _)) by done.
  eexists. split; [reflexivity|]. pose proof (Dlist.run_op_dom (Dlist.OpTail x) _ _ Hins) as Hdom.
  split_and!; simpl; auto.
  - split_and!; simpl; auto; [rewrite length_app; simpl; lia|rewrite length_app; simpl; lia|].
    intros y k' Hy Hk'. rewrite Hfr in Hk' by set_solver. apply (Hnull y); [set_solver|done].
  - intros y Hy. apply elem_of_dom. rewrite Hdom. by apply elem_of_dom.
Qed.

Lemma pop_rep q x l :
  qrep q (x :: l) -> lq_needpop q = true ->
  exists q', nx_logqueue_pop x q = Ret (q', zlen l) /\ qrep q' l /\ lq_needpop q' = false /\
    Dlist.links (lq_list q') !! x = Some Dlist.null_link /\
    (forall y, is_Some (Dlist.links (lq_list q) !! y) -> is_Some (Dlist.links (lq_list q') !! y)).
Proof.
  intros (Hr & Hs & Hmax & Hnull) Hnp. unfold nx_logqueue_pop. rewrite Hnp, Hs.
  rewrite (proj2 (Z.leb_le 0 _)) by lia. cbn [mbind outcome_bind ASSERT].
  pose proof Hr as (HN & Hf & _). rewrite Hf. simpl. rewrite bool_decide_true by done. cbn [mbind outcome_bind ASSERT].
  destruct (Dlist.remove_rep _ [] x l Hr) as (d' & Hrm & Hr' & Hx & Hfr). rewrite Hrm. cbn [mbind outcome_bind].
  replace (Z.of_nat (S (length l)) - 1) with (zlen l) by lia. eexists. split; [reflexivity|].
  pose proof (Dlist.run_op_dom (Dlist.OpRemove x) _ _ Hrm) as Hdom. rewrite length_cons in *.
  split_and!; simpl; auto.
  - split_and!; simpl; auto; [lia|]. intros y k Hy Hk. destruct (decide (y = x)) as [->|Hne]; [congruence|].
    rewrite Hfr in Hk by set_solver. apply (Hnull y); [set_solver|done].
  - intros y Hy. apply elem_of_dom. rewrite Hdom. by apply elem_of_dom.
Qed.

Lemma peek_rep q l :
  qrep q l ->
  exists q', nx_logqueue_peek q = Ret (q', (head l, zlen (tail l))) /\ qrep q' l /\
    lq_needpop q' = (match l with [] => lq_needpop q | _ => true end) /\ lq_list q' = lq_list q.
Proof.
  intros (Hr & Hs & Hmax & Hnull). unfold nx_logqueue_peek. rewrite Hs, (proj2 (Z.leb_le 0 _)) by lia.
  cbn [mbind outcome_bind ASSERT]. destruct l as [|x l].
  - simpl. rewrite (Dlist.rep_empty _ _ Hr), bool_decide_true by done. simpl. exists q. by split_and!.
  - rewrite (proj2 (Z.ltb_lt 0 _)) by (rewrite length_cons; lia). pose proof Hr as (_ & -> & _).
    replace (zlen (x :: l) - 1) with (zlen l) by (rewrite length_cons; lia). eexists. split; [reflexivity|].
    by split_and!.
Qed.

(** *** Sequences *)

Inductive qop := Push (x : loc) | Peek | Pop (x : loc) | Size.
Inductive qres := RSize (n : Z) | RPeek (x : option loc) (n : Z).

Definition run_qop (o : qop) (q : logqueue) : outcome (logqueue * qres) :=
  match o with
  | Push x => '(q, n) ← nx_logqueue_push x q; Ret (q, RSize n)
  | Peek => '(q, (x, n)) ← nx_logqueue_peek q; Ret (q, RPeek x n)
  | Pop x => '(q, n) ← nx_logqueue_pop x q; Ret (q, RSize n)
  | Size => Ret (q, RSize (nx_logqueue_size q))
  end.

Fixpoint run_qops (os : list qop) (q : logqueue) : outcome (logqueue * list qres) :=
  match os with
  | [] => Ret (q, [])
  | o :: os =>
      '(q, r) ← run_qop o q;
      '(q, rs) ← run_qops os q;
      Ret (q, r :: rs)
  end.

(** The specification: a list, and whether its head has been peeked; [pool] are
    the existing records. *)
Definition spec_qop (pool : gset loc) (o : qop) (s : list loc * bool) : option ((list loc * bool) * qres) :=
  let '(l, np) := s in
  match o with
  | Push x =>
      if decide (x ∈ pool /\ x ∉ l /\ zlen l < INT_MAX)
      then Some ((l ++ [x], np), RSize (zlen l + 1)) else None
  | Peek => Some ((l, match l with [] => np | _ => true end), RPeek (head l) (zlen (tail l)))
  | Pop x =>
      match l with
      | y :: l' => if np && bool_decide (y = x) then Some ((l', false), RSize (zlen l')) else None
      | [] => None
      end
  | Size => Some ((l, np), RSize (zlen l))
  end.

Fixpoint spec_qops (pool : gset loc) (os : list qop) (s : list loc * bool) : option ((list loc * bool) * list qres) :=
  match os with
  | [] => Some (s, [])
  | o :: os =>
      '(s, r) ← spec_qop pool o s;
      '(s, rs) ← spec_qops pool os s;
      Some (s, r :: rs)
  end.

Definition qstate (pool : gset loc) (q : logqueue) (s : list loc * bool) : Prop :=
  qrep q (fst s) /\ lq_needpop q = snd s /\ (forall x, x ∈ pool -> is_Some (Dlist.links (lq_list q) !! x)).

Lemma run_qop_rep pool o q s s' r :
  qstate pool q s -> spec_qop pool o s = Some (s', r) ->
  exists q', run_qop o q = Ret (q', r) /\ qstate pool q' s'.
Proof.
  destruct s as [l np]. intros (Hq & Hnp & Hpool). simpl in *. destruct o as [x| |x|]; simpl.
  - case_decide as Hd; [|done]. destruct Hd as (Hin & Hx & Hlt). intros [= <- <-].
    destruct (push_rep q l x Hq Hx (Hpool x Hin) Hlt) as (q' & -> & Hq' & Hn' & Hl). simpl. exists q'.
    split; [done|]. split_and!; simpl; auto; congruence.
  - intros [= <- <-]. destruct (peek_rep q l Hq) as (q' & -> & Hq' & Hn' & Hl). simpl. exists q'.
    split; [done|]. split_and!; simpl; auto; [by destruct l; congruence|by rewrite Hl].
  - destruct l as [|y l]; [done|]. destruct (np && bool_decide (y = x)) eqn:Eq; [|done]. tests. subst.
    intros [= <- <-]. destruct (pop_rep q x l Hq) as (q' & -> & Hq' & Hn' & _ & Hl); [done|]. simpl. exists q'.
    split; [done|]. by split_and!; simpl; auto.
  - intros [= <- <-]. exists q. unfold nx_logqueue_size. pose proof Hq as (_ & -> & _). split; [done|]. by split_and!.
Qed.

(** ** Persistence *)

Definition encode_queue_record (al : alist) : bytes := le 4 (zlen (encode_record al)) ++ encode_record al.

(** The records that can be saved: portable fields, a size that fits 32 bits. *)
Definition savable (al : alist) : Prop :=
  portable al /\ zlen (encode_record al) < 2 ^ 31 /\ NoDup (lower_keys al) /\ exists c, (raw_key, str_value c) ∈ al.

Definition rec_rep (w : world) (x : loc) (al : alist) : Prop :=
  exists d, w_recs w !! x = Some d /\ inv (w_heap w) d al.

Lemma inv_extends h h' d al : inv h d al -> extends h h' -> heap_ok h' -> inv h' d al.
Proof. intros [Hh HF HN HK Hr] He Hh'. constructor; eauto using extends_fields. Qed.

Section persistence_rep.
Context `{H : Host} `{M : Malloc} `{E : ValueEnv}.

Lemma record_to_file_rep h d al :
  inv h d al -> savable al -> record_to_file h d = Ret (encode_queue_record al).
Proof.
  intros Hinv (Hp & H31 & _). pose proof Hinv as [_ HF _ _ _]. unfold record_to_file, encode_queue_record.
  set (n := zlen (encode_record al)) in *.
  assert (nx_logdata_serialized_size h d = Ret n) as ->.
  { unfold nx_logdata_serialized_size. rewrite (fields_size _ _ _ HF) by (by destruct Hp). cbn [mbind outcome_bind].
    unfold n, encode_record. rewrite length_app, le_length. f_equal. lia. }
  cbn [mbind outcome_bind]. pose proof (malloc_length (n + 4) ltac:(lia)) as L.
  unfold u32. rewrite Z.mod_small, nx_int32_to_le_wire by lia.
  rewrite (mem_write_at' _ _ [] (malloc (n + 4))) by (simpl; auto; rewrite ?le_length; lia). cbn [mbind outcome_bind app].
  rewrite le_length. change 4 with (zlen (le 4 n)) at 2.
  rewrite (logdata_to_membuf_rep h d al (le 4 n) (drop 4 (malloc (n + 4))) n Hinv Hp);
    [|rewrite length_drop; fold n; lia|lia].
  fold n. cbn [mbind outcome_bind]. rewrite Z.eqb_refl. cbn [mbind outcome_bind ASSERT].
  rewrite drop_drop, drop_ge, app_nil_r by (unfold n in *; lia). done.
Qed.

Lemma records_to_file_rep w lds als :
  Forall2 (rec_rep w) lds als -> Forall savable als ->
  records_to_file w lds = Ret (als ≫= encode_queue_record).
Proof.
  induction 1 as [|x al lds als (d & Hd & Hinv) HF IH]; intros Hs; [done|].
  apply Forall_cons in Hs as [Hal Hs]. cbn [records_to_file]. rewrite Hd. cbn [mbind outcome_bind deref].
  rewrite (record_to_file_rep _ _ _ Hinv Hal). cbn [mbind outcome_bind]. by rewrite IH.
Qed.

Lemma rep_linked d l x : Dlist.rep d l -> x ∈ l -> is_Some (Dlist.links d !! x).
Proof.
  intros (_ & _ & _ & Hs) (l1 & l2 & ->)%list_elem_of_split. apply Dlist.seg_lookup in Hs. eauto.
Qed.

Lemma new_record_rep w l d :
  qrep (w_queue w) l ->
  exists w' x, new_record d w = (w', Ret x) /\ x ∉ l /\ qrep (w_queue w') l /\
    w_heap w' = w_heap w /\ w_recs w' = <[x := d]> (w_recs w) /\ w_recs w !! x = None /\
    Dlist.links (lq_list (w_queue w')) !! x = Some Dlist.null_link /\ w_file w' = w_file w.
Proof.
  intros (Hr & Hs & Hmax & Hnull). unfold new_record. set (x := fresh _).
  assert (x ∉ dom (w_recs w) ∪ dom (Dlist.links (lq_list (w_queue w)))) as Hx by apply is_fresh.
  assert (x ∉ l) as Hxl.
  { intros Hin. apply Hx, elem_of_union_r, elem_of_dom. by eapply rep_linked. }
  eexists _, x. split; [reflexivity|]. split_and!; simpl; auto.
  - destruct Hr as (HN & Hf & Hl & Hseg). split_and!; simpl; auto.
    + split_and!; simpl; auto. by apply Dlist.seg_insert.
    + intros y k Hy Hk. apply lookup_insert_Some in Hk as [[<- <-]|[_ Hk]]; [done|by eapply Hnull].
  - apply not_elem_of_dom. set_solver.
  - by rewrite lookup_insert_eq.
Qed.

Lemma apr_file_read_app d f n : zlen d = n -> 0 < n -> apr_file_read (d ++ f) n = Some (d, f).
Proof.
  intros <- Hn. unfold apr_file_read. rewrite (proj2 (Z.eqb_neq _ _)) by lia.
  destruct d as [|c d]; [simpl in Hn; lia|]. cbn [app].
  rewrite Nat2Z.id. change (c :: d ++ f) with ((c :: d) ++ f). by rewrite take_app_length, drop_app_length.
Qed.

Lemma records_from_file_rep als fuel total w l als0 :
  Forall savable als -> heap_ok (w_heap w) -> qrep (w_queue w) l -> Forall2 (rec_rep w) l als0 ->
  zlen l + zlen als <= INT_MAX -> (length als < fuel)%nat ->
  exists w' l', records_from_file fuel (als ≫= encode_queue_record) total w =
      (w', Ret (total + zlen (als ≫= encode_queue_record))) /\
    qrep (w_queue w') (l ++ l') /\ Forall2 (rec_rep w') (l ++ l') (als0 ++ als).
Proof.
  revert fuel total w l als0. induction als as [|al als IH]; intros fuel total w l als0 Hs Hh Hq HF Hmax Hfuel;
    (destruct fuel as [|fuel]; [simpl in Hfuel; lia|]).
  - exists w, []. simpl. by rewrite Z.add_0_r, !app_nil_r.
  - apply Forall_cons in Hs as [(Hp & H31 & HK & Hraw) Hs]. rewrite length_cons in Hmax, Hfuel.
    rewrite bind_cons. unfold encode_queue_record at 1. rewrite <- app_assoc. cbn [records_from_file].
    set (n := zlen (encode_record al)) in *.
    assert (2 <= n) by (unfold n, encode_record; rewrite length_app, le_length; lia).
    rewrite (apr_file_read_app (le 4 n)) by (rewrite ?le_length; lia). rewrite le_length.
    erewrite cmd_bind_Ret by reflexivity. rewrite nx_int32_from_le_wire, unle_le by apply le_length.
    rewrite Z.mod_small by (simpl; lia). rewrite apr_file_read_app by (unfold n in *; lia).
    fold n. rewrite Z.eqb_refl. erewrite cmd_bind_Ret by reflexivity.
    destruct (logdata_from_membuf_rep (w_heap w) al [] n Hh Hp HK Hraw) as (h' & d & Hrun & Hinv & Hext & _); [rewrite app_nil_r; unfold n; lia|].
    rewrite app_nil_r in Hrun. fold n in Hrun.
    erewrite cmd_bind_Ret by (unfold on_wheap; rewrite Hrun; reflexivity). cbv beta iota.
    rewrite Z.eqb_refl. erewrite cmd_bind_Ret by reflexivity.
    set (w1 := World h' (w_recs w) (w_queue w) (w_file w)).
    destruct (new_record_rep w1 l d Hq) as (w2 & x & Hnew & Hxl & Hq2 & Hheap & Hrecs & Hxn & Hlink & Hfile).
    erewrite cmd_bind_Ret by exact Hnew.
    destruct (push_rep (w_queue w2) l x Hq2 Hxl) as (q3 & Hpush & Hq3 & _); [eauto|lia|].
    erewrite cmd_bind_Ret by (unfold on_queue; rewrite Hpush; reflexivity).
    set (w3 := World (w_heap w2) (w_recs w2) q3 (w_file w2)).
    destruct (IH fuel (total + n + 4) w3 (l ++ [x]) (als0 ++ [al])) as (w' & l' & Hrun' & Hq' & HF').
    + done.
    + simpl. rewrite Hheap. by destruct Hinv.
    + done.
    + apply Forall2_app.
      * eapply Forall2_impl; [exact HF|]. intros y al' (d' & Hd' & Hi'). exists d'. simpl. rewrite Hheap, Hrecs. split.
        -- rewrite lookup_insert_ne; [done|]. intros ->. simpl in Hxn. congruence.
        -- eapply inv_extends; eauto. by destruct Hinv.
      * constructor; [|constructor]. exists d. simpl. rewrite Hheap, Hrecs. split; [by rewrite lookup_insert_eq|done].
    + rewrite length_app. simpl. lia.
    + lia.
    + exists w', (x :: l'). rewrite <- !app_assoc in *. split_and!; auto. rewrite Hrun'.
      do 2 f_equal. rewrite (length_app (encode_queue_record al)). unfold encode_queue_record at 2.
      rewrite length_app, le_length. unfold n. lia.
Qed.

End persistence_rep.

(** ** Properties *)

(** C4: refinement: any interleaving of [push], [peek], [pop] and [size] that the
    FIFO specification accepts (a pushed record exists and is not queued, a
    popped record is the one that was peeked) runs without a failed assertion,
    returns the sizes and records the specification does and leaves the queue
    holding the specified records in order. *)
Theorem queue_refines_fifo pool os q s s' rs :
  qstate pool q s -> spec_qops pool os s = Some (s', rs) ->
  exists q', run_qops os q = Ret (q', rs) /\ qstate pool q' s'.
Proof.
  revert q s rs. induction os as [|o os IH]; intros q s rs Hq; simpl.
  - intros [= <- <-]. eauto.
  - destruct (spec_qop pool o s) as [[s1 r]|] eqn:Eo; simpl; [|done].
    destruct (spec_qops pool os s1) as [[s2 rs']|] eqn:Eos; simpl; [|done]. intros [= <- <-].
    destruct (run_qop_rep pool o q s s1 r Hq Eo) as (q1 & -> & Hq1).
    destruct (IH q1 s1 rs' Hq1 Eos) as (q2 & Hrun & Hq2). simpl. rewrite Hrun. simpl. eauto.
Qed.

Definition two_records : gmap loc Dlist.link := {[1%positive := Dlist.null_link; 2%positive := Dlist.null_link]}.

Lemma queue_refines_fifo_witness :
  exists q', run_qops [Push 1; Push 2; Peek; Pop 1; Size; Peek; Pop 2; Peek] (nx_logqueue_new two_records) =
      Ret (q', [RSize 1; RSize 2; RPeek (Some 1%positive) 1; RSize 1; RSize 1; RPeek (Some 2%positive) 0; RSize 0; RPeek None 0]) /\
    qstate {[1%positive; 2%positive]} q' ([], false).
Proof.
  apply (queue_refines_fifo {[1%positive; 2%positive]} _ (nx_logqueue_new two_records) ([], false)); [|vm_compute; reflexivity].
  split_and!; [|reflexivity|].
  - split_and!; [split_and!; [constructor|reflexivity|reflexivity|exact I]|reflexivity|vm_compute; discriminate|].
    intros x k _ Hk. simpl in Hk. unfold two_records in Hk.
    apply lookup_insert_Some in Hk as [[_ <-]|[_ Hk]]; [reflexivity|].
    apply lookup_singleton_Some in Hk as [_ <-]. reflexivity.
  - intros x Hx. apply elem_of_union in Hx as [Hx|Hx]; apply elem_of_singleton in Hx; subst; vm_compute; eauto.
Defined.

(** Error path: [nx_logqueue_pop] on a well-formed queue either removes
    exactly the head, when that record was peeked, or stops on a failed
    assertion; it never corrupts the list. *)
Theorem pop_checks_protocol q l x :
  qrep q l ->
  match l with
  | y :: l' =>
      if lq_needpop q && bool_decide (y = x)
      then exists q', nx_logqueue_pop x q = Ret (q', zlen l') /\ qrep q' l'
      else exists e, nx_logqueue_pop x q = Panic e
  | [] => exists e, nx_logqueue_pop x q = Panic e
  end.
Proof.
  intros Hq. pose proof Hq as ((_ & Hf & _) & Hs & _). destruct l as [|y l].
  - unfold nx_logqueue_pop. rewrite Hf, Hs. destruct (lq_needpop q); simpl; eauto.
  - destruct (lq_needpop q && bool_decide (y = x)) eqn:Eq.
    + tests. subst. destruct (pop_rep q x l Hq) as (q' & Hrun & Hq' & _); eauto.
    + unfold nx_logqueue_pop. rewrite Hf, Hs, (proj2 (Z.leb_le 0 _)) by lia.
      destruct (lq_needpop q); simpl in *; [|eauto]. rewrite Eq. simpl. eauto.
Qed.

Lemma pop_checks_protocol_witness :
  exists e, nx_logqueue_pop 1 (nx_logqueue_new two_records) = Panic e.
Proof.
  apply (pop_checks_protocol (nx_logqueue_new two_records) [] 1).
  split_and!; [split_and!; [constructor|reflexivity|reflexivity|exact I]|reflexivity|vm_compute; discriminate|].
  intros x k _ Hk. simpl in Hk. unfold two_records in Hk.
  apply lookup_insert_Some in Hk as [[_ <-]|[_ Hk]]; [reflexivity|].
  apply lookup_singleton_Some in Hk as [_ <-]. reflexivity.
Defined.

(** C5: round trip: a queue of savable records written by [nx_logqueue_to_file]
    and read by [nx_logqueue_from_file] in a new process, on a host of any byte
    order, into a queue that may already hold records, appends the same records
    in the same order; both functions report the size of the file, and the file
    is removed. *)
Theorem queue_file_roundtrip (W R : Host) `{M : Malloc} `{E : ValueEnv} w lds als fuel w2 l2 als2 :
  qrep (w_queue w) lds -> Forall2 (rec_rep w) lds als -> Forall savable als -> lds <> [] -> (length lds <= fuel)%nat ->
  heap_ok (w_heap w2) -> qrep (w_queue w2) l2 -> Forall2 (rec_rep w2) l2 als2 -> zlen l2 + zlen lds <= INT_MAX ->
  exists f w2' l', nx_logqueue_to_file (H := W) fuel w = Ret (World (w_heap w) (w_recs w) (w_queue w) (Some f), zlen f) /\
    nx_logqueue_from_file (H := R) (World (w_heap w2) (w_recs w2) (w_queue w2) (Some f)) = (w2', Ret (zlen f)) /\
    w_file w2' = None /\ qrep (w_queue w2') (l2 ++ l') /\ Forall2 (rec_rep w2') (l2 ++ l') (als2 ++ als).
Proof.
  intros Hq HF Hs Hne Hfuel Hh2 Hq2 HF2 Hmax. exists (als ≫= encode_queue_record).
  pose proof (Forall2_length _ _ _ HF) as Hlen.
  destruct (records_from_file_rep (H := R) als (S (length (als ≫= encode_queue_record))) 0
    (World (w_heap w2) (w_recs w2) (w_queue w2) (Some (als ≫= encode_queue_record))) l2 als2)
    as (w' & l' & Hrun & Hq' & HF'); auto.
  { lia. }
  { clear. induction als as [|al als IH]; [simpl; lia|]. rewrite bind_cons, length_app. unfold encode_queue_record at 1.
    rewrite length_app, le_length, length_cons. lia. }
  exists (World (w_heap w') (w_recs w') (w_queue w') None), l'. split_and!; auto.
  - unfold nx_logqueue_to_file. pose proof Hq as (Hr & Hsz & _). rewrite Hsz, (proj2 (Z.eqb_neq _ _)).
    2:{ destruct lds; [done|]. rewrite length_cons. lia. }
    rewrite (proj1 (Dlist.rep_walk _ _ _ Hr Hfuel)). cbn [mbind outcome_bind].
    by rewrite (records_to_file_rep (H := W) _ _ _ HF Hs).
  - unfold nx_logqueue_from_file. cbn [w_file]. by rewrite Hrun.
Qed.

(** A queue with one record. *)
Definition one_queued : world :=
  World one_line_heap {[1%positive := one_line]}
    (Lq (Dlist.DL (Some 1%positive) (Some 1%positive) {[1%positive := Dlist.null_link]}) 1 false) None.
Definition empty_world : world := World empty_heap ∅ (nx_logqueue_new ∅) None.

Lemma queue_file_roundtrip_witness :
  exists f w2' l', nx_logqueue_to_file (H := big) (M := poison_malloc) 1 one_queued =
      Ret (World (w_heap one_queued) (w_recs one_queued) (w_queue one_queued) (Some f), zlen f) /\
    nx_logqueue_from_file (H := little) (M := poison_malloc)
      (World (w_heap empty_world) (w_recs empty_world) (w_queue empty_world) (Some f)) = (w2', Ret (zlen f)) /\
    w_file w2' = None /\ qrep (w_queue w2') ([] ++ l') /\
    Forall2 (rec_rep w2') ([] ++ l') ([] ++ [[(raw_key, str_value (lit "line"))]]).
Proof.
  apply (queue_file_roundtrip big little (M := poison_malloc) (E := plain_env) one_queued [1%positive]
    [[(raw_key, str_value (lit "line"))]] 1 empty_world [] []).
  - split_and!; [split_and!|reflexivity|vm_compute; discriminate|].
    + apply NoDup_singleton.
    + reflexivity.
    + reflexivity.
    + split; [reflexivity|exact I].
    + intros x k _ Hk. cbn [one_queued w_queue lq_list Dlist.links] in Hk. apply lookup_singleton_Some in Hk as [_ <-]. reflexivity.
  - constructor; [|constructor]. exists one_line. split; [reflexivity|exact one_line_inv].
  - constructor; [|constructor]. split_and!.
    + split; [|reflexivity]. constructor; [|constructor]. split_and!; try (vm_compute; reflexivity); try discriminate.
      * apply (bool_decide_unpack _). reflexivity.
      * split_and!; [left; split; [reflexivity|vm_compute; discriminate]|discriminate|exact I].
    + vm_compute. reflexivity.
    + apply NoDup_singleton.
    + exists (lit "line"). apply list_elem_of_singleton. reflexivity.
  - discriminate.
  - reflexivity.
  - exact empty_heap_ok.
  - split_and!; [split_and!; [constructor|reflexivity|reflexivity|exact I]|reflexivity|vm_compute; discriminate|].
    intros x k _ Hk. simpl in Hk. rewrite lookup_empty in Hk. discriminate.
  - constructor.
  - vm_compute. discriminate.
Defined.

End Logqueue.
