(* ===== verification/RecordIface.v ===== *)
(** * The record interface of the parsers

    The parsers and writers of the extension modules (CSV, key-value pairs)
    use a log record through two functions of logdata.c: they set a field to a
    freshly built value and they read a field.  The class [RecordOps] is that
    interface, and [RecordLaws] is its contract: the record denotes a
    case-insensitive association list, setting and reading are the operations
    of the list.  The clients are verified against the contract; the two
    instances discharge it for the list itself and for the heap records of
    [Logdata].

    A parser may be given the buffer of the record's own [raw_event] as its text.  Setting
    that field frees the buffer, so the interface also says whether the text is still
    allocated, and [with_text] adds the text to a record. *)

From S2P Require Import Prelude Dlist Str Value Serialize Logdata LogdataSerialize.
Import Str Value Serialize Logdata LogdataSerialize.

(** The values the clients store: well formed, with strings within the limit. *)
Definition storable (v : value) : Prop :=
  value_ok (fun s => zlen s <= string_limit) v /\ (v_defined v = FALSE -> v_data v = DZero).

Lemma undefined_storable t : storable (NxValue t FALSE DZero).
Proof. split; [by right|done]. Qed.
Lemma string_storable s : zlen s <= string_limit -> storable (str_value s).
Proof. split; [by left|discriminate]. Qed.

(** Equal values; the union of an undefined value does not matter. *)
Definition same_value (a b : value) : Prop :=
  v_type a = v_type b /\ v_defined a = v_defined b /\ (v_defined b = TRUE -> a = b).

Class RecordOps (R : Type) := {
  rec_set : bytes -> value -> cmd R unit;
  rec_get : bytes -> R -> outcome (option value);
  rec_text : R -> bool                 (* is the text that is parsed allocated? *)
}.

Definition freed_text : string := "text used after it was freed".

(** Before the text is read. *)
Definition live `{RecordOps R} : cmd R unit := fun r => (r, if rec_text r then Ret tt else Undef freed_text).

Class RecordLaws (R : Type) `{RecordOps R} := {
  denotes : R -> alist -> Prop;
  rec_set_ok r al k v : denotes r al -> settable k v -> storable v ->
    exists r', rec_set k v r = (r', Ret tt) /\ denotes r' (alist_set k v al);
  rec_get_ok r al k : denotes r al ->
    exists o, rec_get k r = Ret o /\
      match alist_get k al with
      | Some a => exists b, o = Some b /\ same_value b a
      | None => o = None
      end;
  rec_text_ok r al : denotes r al -> rec_text r = true
}.

Lemma live_ok `{L : RecordLaws R} r al : denotes r al -> live r = (r, Ret tt).
Proof. intros Hr. unfold live. by rewrite (rec_text_ok r al Hr). Qed.

(** ** Association lists *)

#[export] Instance alist_ops : RecordOps alist := {
  rec_set k v := fun al => (alist_set k v al, Ret tt);
  rec_get k al := Ret (alist_get k al);
  rec_text _ := true
}.

Lemma same_value_refl a : same_value a a.
Proof. by split_and!. Qed.

Lemma alist_set_ok (r al : alist) k v : r = al -> settable k v -> storable v ->
  exists r', rec_set k v r = (r', Ret tt) /\ r' = alist_set k v al.
Proof. intros -> _ _. by eexists. Qed.

Lemma alist_get_ok (r al : alist) k : r = al ->
  exists o, rec_get k r = Ret o /\
    match alist_get k al with Some a => exists b, o = Some b /\ same_value b a | None => o = None end.
Proof.
  intros ->. eexists. split; [reflexivity|]. destruct (alist_get k al) as [a|]; [|done].
  exists a. split; [done|apply same_value_refl].
Qed.

#[export] Instance alist_laws : RecordLaws alist := {
  denotes r al := r = al;
  rec_set_ok := alist_set_ok;
  rec_get_ok := alist_get_ok;
  rec_text_ok _ _ _ := eq_refl
}.

(** ** Heap records *)

Section heap_records.
Context `{M : Malloc} `{E : ValueEnv}.

#[export] Instance logdata_ops : RecordOps state := {
  rec_set k v := w ← on_heap (intern v); nx_logdata_set_field_value k w;
  rec_get k s :=
    match nx_logdata_get_field_value k (snd s) with
    | (true, v) => a ← resolve (fst s) v; Ret (Some a)
    | (false, _) => Ret None
    end;
  rec_text _ := true
}.

Lemma logdata_set_ok (s : state) al k v :
  inv (fst s) (snd s) al -> settable k v -> storable v ->
  exists s', rec_set k v s = (s', Ret tt) /\ inv (fst s') (snd s') (alist_set k v al).
Proof.
  destruct s as [h d]. simpl. intros Hinv Hset [Hok Hz]. pose proof Hinv as [Hh HF _ _ _].
  destruct (intern_rep h v Hh Hok Hz) as (h1 & w & Hint & Hext & Hh1 & Hw & _ & Hloc & _).
  assert (inv h1 d al) as Hinv1.
  { destruct Hinv as [_ _ HN HK Hr]. constructor; eauto using extends_fields. }
  destruct (set_field_value_rep h1 d al k w v Hinv1 Hw) as (h2 & d2 & Hrun & Hinv2 & _); [|done|].
  { intros l Hl Hin. destruct (Hloc l Hl). assert (l < fresh_loc h)%positive by (by eapply heap_ok_lt). lia. }
  exists (h2, d2). split; [|done]. cbn [rec_set logdata_ops]. by erewrite cmd_bind_Ret by (by apply on_heap_run).
Qed.

Lemma logdata_get_ok (s : state) al k :
  inv (fst s) (snd s) al ->
  exists o, rec_get k s = Ret o /\
    match alist_get k al with Some a => exists b, o = Some b /\ same_value b a | None => o = None end.
Proof.
  destruct s as [h d]. simpl. intros Hinv. pose proof (get_field_value_rep h d al k Hinv) as Hget. cbn [rec_get logdata_ops fst snd].
  destruct (alist_get k al) as [a|]; [|rewrite Hget; eauto].
  destruct Hget as (v & -> & Hv). destruct (resolve_rep h v a Hv) as (b & -> & Ht & Hd & Hsame).
  eexists. split; [reflexivity|]. exists b. split; [done|]. by split_and!.
Qed.

#[export] Instance logdata_laws : RecordLaws state := {
  denotes s al := inv (fst s) (snd s) al;
  rec_set_ok := logdata_set_ok;
  rec_get_ok := logdata_get_ok;
  rec_text_ok _ _ _ := eq_refl
}.

End heap_records.

(** ** A record and the text that is parsed

    [text_raw]: the text is the buffer of the record's [raw_event].  Setting a field of
    that name, in any case, frees the old string. *)
Record with_text (R : Type) := WithText { text_rec : R; text_raw : bool; text_alive : bool }.
Arguments WithText {R} _ _ _.
Arguments text_rec {R} _.
Arguments text_raw {R} _.
Arguments text_alive {R} _.

#[export] Instance with_text_ops {R} `{RecordOps R} : RecordOps (with_text R) := {
  rec_set k v := fun w =>
    match rec_set k v (text_rec w) with
    | (r, Ret _) => (WithText r (text_raw w) (text_alive w && negb (text_raw w && strcasecmp_eq k raw_key)), Ret tt)
    | (r, o) => (WithText r (text_raw w) (text_alive w), o)
    end;
  rec_get k w := rec_get k (text_rec w);
  rec_text w := text_alive w
}.
