(* ===== verification/Expr.v ===== *)
(** * The expression language (common/expr.h, common/expr.c)

    Expressions and statements of the Exec directive: how they are evaluated, and what
    the constructors the parser calls check of their types.

    [nx_expr_evaluate] writes its result to memory of the caller, the local variable
    [retval]; the model passes its content as a state, because what an evaluation that
    fails leaves there is released by some callers.  The record that is processed is
    the association list that [Logdata] refines to, a string value the bytes it holds;
    releasing a value is checked ([kill]), leaks are not.  PCRE is the class [Pcre];
    functions and procedures are arguments of the nodes, as the callback pointers are.
    The message of an exception is the one of its origin. *)

From S2P Require Import Prelude Dlist Str Date Value Logdata.
Import Str Value Logdata.

Module Expr.

(** PCRE, for a pattern that is compiled with modifiers: whether it compiles, its number
    of groups, and the return code and pairs of offsets of [pcre_exec] on a subject. *)
Class Pcre := {
  pcre_compiles : bytes -> Z -> bool;
  pcre_captures : bytes -> Z -> Z;
  pcre_exec : bytes -> Z -> bytes -> Z * list (Z * Z)
}.

(** What uninitialised memory holds: an arbitrary type and flag. *)
Class Stale := { stale_type : nx_value_type; stale_defined : Z }.

Inductive binop :=
  REGMATCH | NOTREGMATCH | EQUAL | NOTEQUAL | LESS | LE | GREATER | GE | AND | OR | PLUS | MINUS | MUL | DIV | MOD.
Inductive unop := NEG | NOT | DEFINED.

#[export] Instance binop_dec : EqDecision binop.
Proof. solve_decision. Defined.

Definition NX_EXPR_MAX_CAPTURED_FIELDS : Z := 100.
Definition MATCH_GLOBAL : Z := 2.
Definition MATCH_DOTALL : Z := 4.
Definition MATCH_MULTILINE : Z := 8.
Definition MATCH_CASELESS : Z := 16.

Inductive nx_expr_funcproc_type := NX_EXPR_FUNCPROC_TYPE_GLOBAL | NX_EXPR_FUNCPROC_TYPE_PRIVATE | NX_EXPR_FUNCPROC_TYPE_PUBLIC.

#[export] Instance funcproc_dec : EqDecision nx_expr_funcproc_type.
Proof. solve_decision. Defined.

(** [NX_EXPR_VALUE_TYPE_VARARGS] *)
Definition VARARGS : nx_value_type := NX_VALUE_TYPE_OTHER (-1).

(** What [nx_expr_func_t] and [nx_expr_proc_t] have in common. *)
Record sig := Sig { sg_module : option loc; sg_name : bytes; sg_type : nx_expr_funcproc_type; sg_args : list nx_value_type }.

Section expr.
Context `{M : Malloc} `{E : ValueEnv} {PC : Pcre} {ST : Stale} {X : Type}.

(** [nx_expr_eval_ctx_t]; [x_env] is what functions and procedures use besides. *)
Record ectx := Ectx { x_logdata : option alist; x_captured : list bytes; x_dropped : bool; x_env : X }.

(** The context and the value that is computed. *)
Abbreviation prog A := (cmd (ectx * value) A).

Inductive expr :=
| EValue (v : value)
| EField (field : bytes)
| ECaptured (captured : Z)
| EUnop (o : unop) (op : expr)
| EBinop (o : binop) (left right : expr)
| EInop (e : expr) (es : list expr)
| EFunction (cb : list value -> prog unit) (ret : nx_value_type) (args : option (list expr)).

(** ** Memory *)

Definition fresh_value : value := NxValue stale_type stale_defined DUninit.
Definition zero_value : value := NxValue (NX_VALUE_TYPE_OTHER 0) FALSE DZero.

Definition set_type (t : nx_value_type) : prog unit := fun '(x, r) => ((x, NxValue t (v_defined r) (v_data r)), Ret tt).
Definition set_defined (d : Z) : prog unit := fun '(x, r) => ((x, NxValue (v_type r) d (v_data r)), Ret tt).
Definition set_data (d : nx_data bytes) : prog unit := fun '(x, r) => ((x, NxValue (v_type r) (v_defined r) d), Ret tt).
Definition set_value (v : value) : prog unit := fun '(x, r) => ((x, v), Ret tt).
Definition get_ret : prog value := fun '(x, r) => ((x, r), Ret r).
Definition get_ctx : prog ectx := fun '(x, r) => ((x, r), Ret x).
Definition put_ctx (x : ectx) : prog unit := fun '(_, r) => ((x, r), Ret tt).

Definition set_boolean (b : bool) : prog unit := set_data (DBoolean (if b then TRUE else FALSE)).

(** The evaluation [c] with another memory for its result. *)
Definition into (init : value) (c : prog unit) : prog value := fun '(x, r) =>
  let '((x', r'), o) := c (x, init) in ((x', r), (fun _ => r') <$> o).

(** [nx_value_kill] *)
Definition kill (v : value) : outcome unit :=
  if v_defined v =? TRUE then
    match v_type v, v_data v with
    | NX_VALUE_TYPE_STRING, (DString _ | DZero) => Ret tt
    | NX_VALUE_TYPE_BINARY, (DBinary _ _ | DZero) => Ret tt
    | NX_VALUE_TYPE_REGEXP, (DRegexp _ _ (Some _) | DZero) => Ret tt
    | (NX_VALUE_TYPE_STRING | NX_VALUE_TYPE_BINARY | NX_VALUE_TYPE_REGEXP), _ => Undef "free of an uninitialised pointer"
    | (NX_VALUE_TYPE_UNKNOWN | NX_VALUE_TYPE_OTHER _), _ => Panic "invalid value type: %d"
    | _, _ => Ret tt
    end
  else Ret tt.

Definition free_value (v : value) : prog unit := lift (kill v).

(** [throw_msg] with the names of types. *)
Definition throw_types (l r : nx_value_type) (msg : string) : prog unit :=
  lift (_ ← nx_value_type_to_string l; _ ← nx_value_type_to_string r; Throw msg).
Definition throw_type (t : nx_value_type) (msg : string) : prog unit := lift (_ ← nx_value_type_to_string t; Throw msg).

Definition same_type (a b : value) : bool := type_code (v_type a) =? type_code (v_type b).
Definition has_type (t : nx_value_type) (v : value) : bool := bool_decide (v_type v = t).
Definition undefined (v : value) : bool := v_defined v =? FALSE.
Definition defined (v : value) : bool := v_defined v =? TRUE.

(** Signed 64-bit arithmetic: overflow is undefined. *)
Definition long (z : Z) : outcome Z := if (- 2 ^ 63 <=? z) && (z <? 2 ^ 63) then Ret z else Undef "signed overflow".

(** ** Comparison *)

(** The result of [_equal] for two defined values of the same type, [None] if the type
    cannot be compared. *)
Definition equal_data (l r : value) : outcome (option bool) :=
  match v_type l with
  | NX_VALUE_TYPE_STRING => a ← as_string (v_data l); b ← as_string (v_data r); Ret (Some (strcmp_eq (cstr a) (cstr b)))
  | NX_VALUE_TYPE_INTEGER => a ← as_integer (v_data l); b ← as_integer (v_data r); Ret (Some (a =? b))
  | NX_VALUE_TYPE_BOOLEAN => a ← as_boolean (v_data l); b ← as_boolean (v_data r); Ret (Some (a =? b))
  | NX_VALUE_TYPE_DATETIME => a ← as_datetime (v_data l); b ← as_datetime (v_data r); Ret (Some (a =? b))
  | NX_VALUE_TYPE_IP4ADDR => a ← as_ip4addr (v_data l); b ← as_ip4addr (v_data r); Ret (Some (bool_decide (a = b)))
  | _ => Ret None
  end.

(** [_equal] and [_notequal] differ in the result for two undefined values and in the
    comparison. *)
Definition equality (same : bool) (msg : string) (left right : prog value) : prog unit :=
  _ ← set_type NX_VALUE_TYPE_BOOLEAN;
  l ← left;
  r ← right;
  if undefined l then
    if undefined r then _ ← set_defined TRUE; set_boolean same
    else _ ← set_defined FALSE; free_value r
  else if undefined r then _ ← set_defined FALSE; free_value l
  else if negb (same_type l r) then _ ← free_value r; _ ← free_value l; throw_types (v_type l) (v_type r) msg
  else
    _ ← set_defined TRUE;
    b ← lift (equal_data l r);
    match b with
    | Some b => _ ← set_boolean (Bool.eqb b same); _ ← free_value l; free_value r
    | None => _ ← free_value r; _ ← free_value l; throw_types (v_type l) (v_type r) msg
    end.

Definition _equal := equality true "invalid types in operation: %s == %s".
Definition _notequal := equality false "invalid types in operation: %s != %s".

(** The operands of the operators that are undefined if one of them is: the right one is
    not evaluated if the left one is undefined. *)
Definition both (left right : prog value) (f : value -> value -> prog unit) : prog unit :=
  l ← left;
  if undefined l then set_defined FALSE
  else
    r ← right;
    if undefined r then _ ← set_defined FALSE; free_value l else f l r.

Definition ordering (op : Z -> Z -> bool) (msg : string) (left right : prog value) : prog unit :=
  _ ← set_type NX_VALUE_TYPE_BOOLEAN;
  both left right (fun l r =>
    let bad := _ ← free_value r; _ ← free_value l; throw_types (v_type l) (v_type r) msg in
    if negb (same_type l r) then bad
    else
      _ ← set_defined TRUE;
      match v_type l with
      | NX_VALUE_TYPE_INTEGER => a ← lift (as_integer (v_data l)); b ← lift (as_integer (v_data r)); set_boolean (op a b)
      | NX_VALUE_TYPE_DATETIME => a ← lift (as_datetime (v_data l)); b ← lift (as_datetime (v_data r)); set_boolean (op a b)
      | _ => bad
      end).

Definition _less := ordering Z.ltb "invalid types in operation: %s < %s".
Definition _le := ordering Z.leb "invalid types in operation: %s <= %s".
Definition _greater := ordering Z.gtb "invalid types in operation: %s > %s".
Definition _greater_equal := ordering Z.geb "invalid types in operation: %s >= %s".

(** ** Logic *)

Definition _and (left right : prog value) : prog unit :=
  _ ← set_type NX_VALUE_TYPE_BOOLEAN;
  l ← left;
  if undefined l then set_defined FALSE
  else
    lb ← lift (if has_type NX_VALUE_TYPE_BOOLEAN l then as_boolean (v_data l) else Ret TRUE);
    if has_type NX_VALUE_TYPE_BOOLEAN l && (lb =? FALSE) then _ ← set_defined TRUE; set_boolean false
    else
      r ← right;
      if undefined r then _ ← set_defined FALSE; free_value l
      else if negb (has_type NX_VALUE_TYPE_BOOLEAN l && has_type NX_VALUE_TYPE_BOOLEAN r) then
        _ ← free_value r; _ ← free_value l; throw_types (v_type l) (v_type r) "invalid types in operation: %s and %s"
      else
        _ ← set_defined TRUE;
        rb ← lift (as_boolean (v_data r));
        set_boolean (negb (lb =? 0) && negb (rb =? 0)).

Definition _or (left right : prog value) : prog unit :=
  _ ← set_type NX_VALUE_TYPE_BOOLEAN;
  l ← left;
  if negb (has_type NX_VALUE_TYPE_BOOLEAN l) then
    _ ← free_value l; throw_type (v_type l) "boolean type expected for left value in and operation, found %s"
  else
    lb ← lift (if defined l then as_boolean (v_data l) else Ret FALSE);
    if defined l && (lb =? TRUE) then _ ← set_defined TRUE; set_boolean true
    else
      r ← right;
      if negb (has_type NX_VALUE_TYPE_BOOLEAN r) then
        _ ← free_value r; _ ← free_value l; throw_types (v_type l) (v_type r) "invalid types in operation: %s or %s"
      else if defined r then
        rb ← lift (as_boolean (v_data r)); _ ← set_defined TRUE; set_data (DBoolean rb)
      else set_defined FALSE.

Definition _not (op : prog value) : prog unit :=
  _ ← set_type NX_VALUE_TYPE_BOOLEAN;
  v ← op;
  if undefined v then set_defined FALSE
  else if negb (has_type NX_VALUE_TYPE_BOOLEAN v) then _ ← free_value v; lift (Throw "boolean value required for 'not'")
  else
    _ ← set_defined TRUE;
    b ← lift (as_boolean (v_data v));
    _ ← set_boolean (b =? 0);
    free_value v.

Definition _defined (op : prog value) : prog unit :=
  _ ← set_type NX_VALUE_TYPE_BOOLEAN;
  _ ← set_defined TRUE;
  v ← op;
  _ ← set_boolean (defined v);
  free_value v.

(** The result is the operand itself. *)
Definition _neg (op : prog value) : prog unit :=
  _ ← set_type NX_VALUE_TYPE_INTEGER;
  v ← op;
  if negb (has_type NX_VALUE_TYPE_INTEGER v) then
    _ ← free_value v; throw_type (v_type v) "integer type expected for unary negation operation, found %s"
  else if defined v then
    _ ← set_defined TRUE; z ← lift (as_integer (v_data v)); set_data (DInteger z)
  else set_defined FALSE.

(** ** Arithmetic *)

Definition set_integer (z : outcome Z) : prog unit :=
  z ← lift z; _ ← set_data (DInteger z); _ ← set_type NX_VALUE_TYPE_INTEGER; set_defined TRUE.
Definition set_datetime (z : outcome Z) : prog unit :=
  z ← lift z; _ ← set_data (DDatetime z); _ ← set_type NX_VALUE_TYPE_DATETIME; set_defined TRUE.

(** [nx_value_init_string] *)
Definition nx_value_init_string (s : bytes) : prog unit :=
  _ ← set_type NX_VALUE_TYPE_STRING;
  r ← lift (nx_string_create (s ++ [x00]) (-1));
  _ ← set_data (DString (content r));
  set_defined TRUE.

(** [nx_string_sprintf(NULL, "%s%s", l, r)] *)
Definition sprintf_ss (l r : bytes) : outcome bytes :=
  s ← nx_string_new_size (zlen l + zlen r + 1);
  b ← mem_write (buf s) 0 (l ++ r ++ [x00]);
  Ret (take (Z.to_nat (zlen l + zlen r)) b).

(** The text of an operand of a concatenation. *)
Definition operand_text (v : value) : outcome bytes :=
  if has_type NX_VALUE_TYPE_STRING v then s ← as_string (v_data v); Ret (cstr s)
  else s ← nx_value_to_string v; deref s "NULL string".

Definition APR_USEC_PER_SEC : Z := 1000000.

(** [t + z * APR_USEC_PER_SEC] *)
Definition add_seconds (t z : Z) : outcome Z := d ← long (z * APR_USEC_PER_SEC); long (t + d).

Definition _plus (left right : prog value) : prog unit :=
  l ← left;
  r ← right;
  if undefined l || undefined r then
    if defined l && undefined r && has_type NX_VALUE_TYPE_STRING l then
      s ← lift (as_string (v_data l)); _ ← nx_value_init_string (cstr s); free_value l
    else if defined r && undefined l && has_type NX_VALUE_TYPE_STRING r then
      s ← lift (as_string (v_data r)); _ ← nx_value_init_string (cstr s); free_value r
    else
      _ ← set_defined FALSE; _ ← set_type NX_VALUE_TYPE_UNKNOWN; _ ← free_value r; free_value l
  else if has_type NX_VALUE_TYPE_STRING l || has_type NX_VALUE_TYPE_STRING r then
    _ ← set_defined TRUE;
    _ ← set_type NX_VALUE_TYPE_STRING;
    b ← lift (operand_text r);
    a ← lift (operand_text l);
    s ← lift (sprintf_ss a b);
    _ ← set_data (DString s);
    _ ← free_value l;
    free_value r
  else
    match v_type l, v_type r with
    | NX_VALUE_TYPE_INTEGER, NX_VALUE_TYPE_INTEGER =>
        a ← lift (as_integer (v_data l)); b ← lift (as_integer (v_data r)); set_integer (long (a + b))
    | NX_VALUE_TYPE_DATETIME, NX_VALUE_TYPE_INTEGER =>
        a ← lift (as_datetime (v_data l)); b ← lift (as_integer (v_data r)); set_datetime (add_seconds a b)
    | NX_VALUE_TYPE_INTEGER, NX_VALUE_TYPE_DATETIME =>
        a ← lift (as_integer (v_data l)); b ← lift (as_datetime (v_data r)); set_datetime (add_seconds b a)
    | _, _ => _ ← free_value l; _ ← free_value r; throw_types (v_type l) (v_type r) "invalid operation: %s + %s"
    end.

(** [t - z * APR_USEC_PER_SEC] *)
Definition sub_seconds (t z : Z) : outcome Z := d ← long (z * APR_USEC_PER_SEC); long (t - d).

Definition _minus (left right : prog value) : prog unit :=
  both left right (fun l r =>
    match v_type l, v_type r with
    | NX_VALUE_TYPE_INTEGER, NX_VALUE_TYPE_INTEGER =>
        a ← lift (as_integer (v_data l)); b ← lift (as_integer (v_data r)); set_integer (long (a - b))
    | NX_VALUE_TYPE_DATETIME, NX_VALUE_TYPE_DATETIME =>
        a ← lift (as_datetime (v_data l)); b ← lift (as_datetime (v_data r)); set_integer (long (a - b))
    | NX_VALUE_TYPE_DATETIME, NX_VALUE_TYPE_INTEGER =>
        a ← lift (as_datetime (v_data l)); b ← lift (as_integer (v_data r)); set_datetime (sub_seconds a b)
    | _, _ => _ ← free_value r; _ ← free_value l; throw_types (v_type l) (v_type r) "invalid operation: %s - %s"
    end).

(** The operators on two integers. *)
Definition arith (op : Z -> Z -> outcome Z) (msg : string) (left right : prog value) : prog unit :=
  both left right (fun l r =>
    match v_type l, v_type r with
    | NX_VALUE_TYPE_INTEGER, NX_VALUE_TYPE_INTEGER =>
        a ← lift (as_integer (v_data l)); b ← lift (as_integer (v_data r)); set_integer (op a b)
    | _, _ => _ ← free_value l; _ ← free_value r; throw_types (v_type l) (v_type r) msg
    end).

(** C division truncates; a zero divisor and the one overflow are undefined. *)
Definition quotient (a b : Z) : outcome Z := if b =? 0 then Undef "division by zero" else long (Z.quot a b).
Definition remainder (a b : Z) : outcome Z :=
  if b =? 0 then Undef "division by zero" else _ ← long (Z.quot a b); Ret (Z.rem a b).

Definition _mul := arith (fun a b => long (a * b)) "invalid operation: %s * %s".
Definition _div := arith quotient "invalid operation: %s / %s".
Definition _mod := arith remainder "invalid operation: %s %% %s".

(** ** Regular expressions *)

Definition clear_captured (x : ectx) : ectx := Ectx (x_logdata x) [] (x_dropped x) (x_env x).
Definition with_captured (l : list bytes) (x : ectx) : ectx := Ectx (x_logdata x) l (x_dropped x) (x_env x).
Definition with_logdata (r : option alist) (x : ectx) : ectx := Ectx r (x_captured x) (x_dropped x) (x_env x).

(** [nx_string_create(subject + a, b - a)]; a group that did not match has the offsets
    -1 and -1. *)
Definition capture (subject : bytes) (p : Z * Z) : outcome bytes :=
  let '(a, b) := p in
  if b - a =? 0 then Ret []
  else d ← mem_read subject a (b - a); s ← nx_string_create d (b - a); Ret (content s).

Fixpoint capture_all (subject : bytes) (ov : list (Z * Z)) : outcome (list bytes) :=
  match ov with
  | [] => Ret []
  | p :: ov => c ← capture subject p; l ← capture_all subject ov; Ret (c :: l)
  end.

(** The negative return codes of [pcre_exec] that stop the process. *)
Definition pcre_error (code : Z) : outcome unit :=
  if code =? -2 then Panic "invalid arguments (code, ovector or ovecsize are invalid)"
  else if code =? -3 then Panic "invalid option in options parameter"
  else if code =? -4 then Panic "invalid pcre magic value"
  else if (code =? -5) || (code =? -14) then Panic "pcre bug or buffer overflow error"
  else if code =? -6 then Panic "pcre_malloc() failed"
  else if code =? -13 then Panic "PCRE_ERROR_BADPARTIAL"
  else if code =? -15 then Panic "negative ovecsize"
  else Ret tt.

(** The replacement of the bytes from [a] to [b] in the buffer of a string, which is as
    large as the string needs. *)
Definition substitute (s : bytes) (a b : Z) (repl : bytes) : outcome bytes :=
  _ ← ASSERT (a <=? b) "ovector[1] >= ovector[0]";
  f ← nx_string_ensure_size (exact s) (zlen s + (b - a) + zlen repl);
  m ← memmove (buf f) (a + zlen repl) b (zlen s - b + 1);
  m ← mem_write m a repl;
  _ ← ASSERT (b - a <=? zlen s) "fieldval.string->len >= ovector[1] - ovector[0]";
  Ret (take (Z.to_nat (zlen s + zlen repl - (b - a))) m).

(** The string of the field that is changed. *)
Definition field_string (field : bytes) (x : ectx) : outcome (alist * bytes) :=
  match x_logdata x with
  | None => Throw "missing logdata, no field available in this context at line %d, character %d in %s. operation possibly after drop()"
  | Some al =>
      v ← deref (alist_get field al) "fieldval";
      _ ← ASSERT (has_type NX_VALUE_TYPE_STRING v) "fieldval.type == NX_VALUE_TYPE_STRING";
      _ ← ASSERT (defined v) "fieldval.defined == TRUE";
      s ← as_string (v_data v);
      Ret (al, s)
  end.

(** One call of [pcre_exec] and what follows it; the result is whether it matched with
    captures. *)
Definition match_once (pattern : bytes) (modifiers : Z) (subject : bytes) : prog (option (Z * Z)) :=
  let '(result, ov) := pcre_exec pattern modifiers subject in
  _ ← (if 0 <=? result then set_boolean true else mret tt);
  if result <? 0 then _ ← lift (pcre_error result); mret None
  else if result =? 0 then mret None
  else
    _ ← lift (ASSERT (result <? NX_EXPR_MAX_CAPTURED_FIELDS) "result < NX_EXPR_MAX_CAPTURED_FIELDS");
    x ← get_ctx;
    _ ← put_ctx (clear_captured x);
    l ← lift (capture_all subject (take (Z.to_nat result) ov));
    _ ← put_ctx (with_captured l x);
    p ← lift (deref (head ov) "ovector");
    mret (Some p).

(** One match and its replacement; the result is whether there was one. *)
Definition substitute_once (pattern : bytes) (modifiers : Z) (repl field : bytes) : prog bool :=
  x ← get_ctx;
  s ← lift (field_string field x);
  p ← match_once pattern modifiers (cstr (snd s));
  match p with
  | None => mret false
  | Some (a, b) =>
      s' ← lift (substitute (snd s) a b repl);
      x ← get_ctx;
      _ ← put_ctx (with_logdata (Some (alist_set field (str_value s') (fst s))) x);
      mret true
  end.

(** The loop of a substitution; [cnt] is [global_match_recursion_cnt]. *)
Fixpoint substitute_loop (fuel : nat) (pattern : bytes) (modifiers : Z) (repl field : bytes) (cnt : Z) : prog unit :=
  b ← substitute_once pattern modifiers repl field;
  if (b : bool) && negb (Z.land modifiers MATCH_GLOBAL =? 0) then
    if 10000 <? cnt + 1 then lift (Throw "likely infinite loop detected in regexp substitution")
    else match fuel with
      | O => lift (Undef "out of fuel")
      | S fuel => substitute_loop fuel pattern modifiers repl field (cnt + 1)
      end
  else mret tt.

Definition global_fuel : nat := Z.to_nat 10000.

(** The pattern, its replacement and modifiers. *)
Definition regexp_of (v : value) : outcome (bytes * option bytes * Z) :=
  match v_data v with DRegexp _ s (Some (repl, m)) => Ret (s, repl, m) | _ => Undef "union member regexp" end.

(** The match of a subject, or the substitution in the field [left_field] that is the left
    operand. *)
Definition apply_regexp (left_field : option bytes) (right_type : nx_value_type) (re : bytes * option bytes * Z) (subject : bytes) : prog unit :=
  let '(pattern, replacement, modifiers) := re in
  match replacement with
  | Some repl =>
      _ ← lift (ASSERT (bool_decide (right_type = NX_VALUE_TYPE_REGEXP)) "right->rettype == NX_VALUE_TYPE_REGEXP");
      _ ← lift (ASSERT (bool_decide (left_field <> None)) "left->type == NX_EXPR_TYPE_FIELD");
      field ← lift (deref left_field "field");
      x ← get_ctx;
      _ ← lift (field_string field x);
      _ ← set_boolean false;
      _ ← set_defined TRUE;
      substitute_loop global_fuel pattern modifiers (cstr repl) field 0
  | None =>
      _ ← set_boolean false;
      _ ← set_defined TRUE;
      _ ← match_once pattern modifiers (cstr subject);
      mret tt
  end.

(** [left_field] is the field if the left operand is one, [right_type] the static type
    of the right operand. *)
Definition _regmatch (left_field : option bytes) (right_type : nx_value_type) (left right : prog value) : prog unit :=
  _ ← set_type NX_VALUE_TYPE_BOOLEAN;
  x ← get_ctx;
  _ ← put_ctx (clear_captured x);
  both left right (fun l r =>
    if has_type NX_VALUE_TYPE_STRING l || has_type NX_VALUE_TYPE_STRING r then
      let '(sv, rv) := if has_type NX_VALUE_TYPE_STRING l then (l, r) else (r, l) in
      _ ← lift (ASSERT (has_type NX_VALUE_TYPE_REGEXP rv)
            (if has_type NX_VALUE_TYPE_STRING l then "rval.type == NX_VALUE_TYPE_REGEXP" else "lval.type == NX_VALUE_TYPE_REGEXP"));
      re ← lift (regexp_of rv);
      subject ← lift (as_string (v_data sv));
      _ ← apply_regexp left_field right_type re subject;
      _ ← free_value l; free_value r
    else
      _ ← free_value r; _ ← free_value l; throw_types (v_type l) (v_type r) "invalid types in operation: %s =~ %s").

Definition _notregmatch (left_field : option bytes) (right_type : nx_value_type) (left right : prog value) : prog unit :=
  _ ← _regmatch left_field right_type left right;
  r ← get_ret;
  if defined r then b ← lift (as_boolean (v_data r)); set_boolean (b =? 0) else mret tt.

(** ** Static types

    The member [rettype] that the constructors set. *)

Definition plus_type (l r : nx_value_type) : option nx_value_type :=
  match l, r with
  | NX_VALUE_TYPE_UNKNOWN, _ | _, NX_VALUE_TYPE_UNKNOWN => Some NX_VALUE_TYPE_UNKNOWN
  | NX_VALUE_TYPE_INTEGER, NX_VALUE_TYPE_INTEGER => Some NX_VALUE_TYPE_INTEGER
  | NX_VALUE_TYPE_DATETIME, NX_VALUE_TYPE_INTEGER => Some NX_VALUE_TYPE_DATETIME
  | NX_VALUE_TYPE_DATETIME, NX_VALUE_TYPE_DATETIME => Some NX_VALUE_TYPE_INTEGER
  | NX_VALUE_TYPE_STRING, _ | _, NX_VALUE_TYPE_STRING => Some NX_VALUE_TYPE_STRING
  | _, _ => None
  end.

Definition minus_type (l r : nx_value_type) : option nx_value_type :=
  match l, r with
  | NX_VALUE_TYPE_UNKNOWN, _ | _, NX_VALUE_TYPE_UNKNOWN => Some NX_VALUE_TYPE_UNKNOWN
  | NX_VALUE_TYPE_INTEGER, NX_VALUE_TYPE_INTEGER => Some NX_VALUE_TYPE_INTEGER
  | NX_VALUE_TYPE_DATETIME, NX_VALUE_TYPE_INTEGER => Some NX_VALUE_TYPE_DATETIME
  | NX_VALUE_TYPE_DATETIME, NX_VALUE_TYPE_DATETIME => Some NX_VALUE_TYPE_INTEGER
  | _, _ => None
  end.

Definition arith_type (l r : nx_value_type) : option nx_value_type :=
  match l, r with
  | NX_VALUE_TYPE_UNKNOWN, _ | _, NX_VALUE_TYPE_UNKNOWN => Some NX_VALUE_TYPE_UNKNOWN
  | NX_VALUE_TYPE_INTEGER, NX_VALUE_TYPE_INTEGER => Some NX_VALUE_TYPE_INTEGER
  | _, _ => None
  end.

(** The types of operators whose result is a boolean; [ok] is the condition on known
    types. *)
Definition boolean_type (ok : nx_value_type -> nx_value_type -> bool) (l r : nx_value_type) : option nx_value_type :=
  if bool_decide (l = NX_VALUE_TYPE_UNKNOWN) || bool_decide (r = NX_VALUE_TYPE_UNKNOWN) || ok l r
  then Some NX_VALUE_TYPE_BOOLEAN else None.

Definition is_type (a b : nx_value_type) : bool := bool_decide (a = b).
Definition regmatch_types (l r : nx_value_type) : bool :=
  is_type l NX_VALUE_TYPE_REGEXP && is_type r NX_VALUE_TYPE_STRING || is_type r NX_VALUE_TYPE_REGEXP && is_type l NX_VALUE_TYPE_STRING.
Definition ordered_types (l r : nx_value_type) : bool :=
  is_type l NX_VALUE_TYPE_INTEGER && is_type r NX_VALUE_TYPE_INTEGER || is_type l NX_VALUE_TYPE_DATETIME && is_type r NX_VALUE_TYPE_DATETIME.
Definition boolean_types (l r : nx_value_type) : bool := is_type l NX_VALUE_TYPE_BOOLEAN && is_type r NX_VALUE_TYPE_BOOLEAN.

Definition binop_type (o : binop) (l r : nx_value_type) : option nx_value_type :=
  match o with
  | REGMATCH | NOTREGMATCH => boolean_type regmatch_types l r
  | EQUAL | NOTEQUAL => boolean_type is_type l r
  | LESS | LE | GREATER | GE => boolean_type ordered_types l r
  | AND | OR => boolean_type boolean_types l r
  | PLUS => plus_type l r
  | MINUS => minus_type l r
  | MUL | DIV | MOD => arith_type l r
  end.

Fixpoint rettype (e : expr) : nx_value_type :=
  match e with
  | EValue v => v_type v
  | EField _ => NX_VALUE_TYPE_UNKNOWN
  | ECaptured _ => NX_VALUE_TYPE_STRING
  | EUnop _ _ => NX_VALUE_TYPE_BOOLEAN
  | EBinop o l r => default NX_VALUE_TYPE_UNKNOWN (binop_type o (rettype l) (rettype r))
  | EInop _ _ => NX_VALUE_TYPE_BOOLEAN
  | EFunction _ ret _ => ret
  end.

(** ** Evaluation *)

(** An array of results in memory that was cleared; [eval_next] computes the next one. *)
Abbreviation array_prog A := (cmd (ectx * list value) A).

Definition eval_next (c : prog unit) : array_prog value := fun '(x, vs) =>
  let '((x', r), o) := c (x, zero_value) in ((x', vs ++ [r]), (fun _ => r) <$> o).

Fixpoint eval_all (cs : list (prog unit)) : array_prog unit :=
  match cs with
  | [] => mret tt
  | c :: cs => _ ← eval_next c; eval_all cs
  end.

Fixpoint kill_all (vs : list value) : outcome unit :=
  match vs with
  | [] => Ret tt
  | v :: vs => _ ← kill v; kill_all vs
  end.

(** [try] with a [catch] block that releases values. *)
Definition try_kill {A} (vs : list value) (o : outcome A) : outcome A :=
  match o with Throw e => _ ← kill_all vs; Throw e | _ => o end.

Definition nx_expr_eval_func (cb : list value -> prog unit) (args : option (list (prog unit))) : prog unit :=
  match args with
  | None => cb []
  | Some cs => fun '(x, r) =>
      let '((x1, vs), o) := eval_all cs (x, []) in
      match o with
      | Ret _ =>
          let '(s2, o2) := cb vs (x1, r) in
          (s2, _ ← try_kill vs o2; kill_all vs)
      | _ => ((x1, r), try_kill vs o)
      end
  end.

(** The search of [_inop]. *)
Fixpoint in_loop (v : value) (cs : list (prog unit)) : array_prog bool :=
  match cs with
  | [] => mret false
  | c :: cs =>
      w ← eval_next c;
      b ← lift (nx_value_eq v w);
      if (b : bool) then mret true else in_loop v cs
  end.

Definition _inop (e : prog value) (es : list (prog unit)) : prog unit :=
  _ ← set_type NX_VALUE_TYPE_BOOLEAN;
  _ ← set_defined TRUE;
  _ ← set_boolean false;
  v ← e;
  if undefined v then set_defined FALSE
  else fun '(x, r) =>
    let '((x1, vs), o) := in_loop v es (x, []) in
    match o with
    | Ret b => (_ ← (if (b : bool) then set_boolean true else mret tt); lift (_ ← kill_all vs; kill v)) (x1, r)
    | _ => ((x1, r), _ ← try_kill (vs ++ [v]) o; Ret tt)
    end.

(** The field of an expression, if it is one. *)
Definition field_of (e : expr) : option bytes := match e with EField f => Some f | _ => None end.

Definition binop_cb (o : binop) (lf : option bytes) (rt : nx_value_type) : prog value -> prog value -> prog unit :=
  match o with
  | REGMATCH => _regmatch lf rt
  | NOTREGMATCH => _notregmatch lf rt
  | EQUAL => _equal
  | NOTEQUAL => _notequal
  | LESS => _less
  | LE => _le
  | GREATER => _greater
  | GE => _greater_equal
  | AND => _and
  | OR => _or
  | PLUS => _plus
  | MINUS => _minus
  | MUL => _mul
  | DIV => _div
  | MOD => _mod
  end.

Definition unop_cb (o : unop) : prog value -> prog unit :=
  match o with NEG => _neg | NOT => _not | DEFINED => _defined end.

(** A field that the record does not have is undefined and of unknown type. *)
Definition field_value (field : bytes) (al : alist) : value :=
  default (NxValue NX_VALUE_TYPE_UNKNOWN FALSE DUninit) (alist_get field al).

Fixpoint nx_expr_evaluate (e : expr) : prog unit :=
  _ ← set_defined FALSE;
  match e with
  | EValue v => w ← lift (Value.nx_value_clone v); set_value w
  | EField field =>
      x ← get_ctx;
      match x_logdata x with
      | None => lift (Throw "missing logdata, no field available in this context at line %d, character %d in %s. operation possibly after drop()")
      | Some al => w ← lift (Value.nx_value_clone (field_value field al)); set_value w
      end
  | ECaptured n =>
      _ ← lift (ASSERT (0 <=? n) "expr->captured >= 0");
      x ← get_ctx;
      if zlen (x_captured x) <=? n then _ ← set_defined FALSE; set_type NX_VALUE_TYPE_STRING
      else
        _ ← set_defined TRUE;
        _ ← set_type NX_VALUE_TYPE_STRING;
        c ← lift (deref (x_captured x !! Z.to_nat n) "captured");
        s ← lift (nx_string_clone (exact c));
        set_data (DString (content s))
  | EUnop o op => unop_cb o (into fresh_value (nx_expr_evaluate op))
  | EBinop o l r => binop_cb o (field_of l) (rettype r) (into fresh_value (nx_expr_evaluate l)) (into fresh_value (nx_expr_evaluate r))
  | EInop e es => _inop (into fresh_value (nx_expr_evaluate e)) (map (fun e => nx_expr_evaluate e) es)
  | EFunction cb _ args => nx_expr_eval_func cb (option_map (map (fun e => nx_expr_evaluate e)) args)
  end.

(** ** Statements *)

Abbreviation action A := (cmd ectx A).

Inductive stmt :=
| SProcedure (cb : option (list expr) -> action unit) (args : option (list expr))
| SIfElse (cond : expr) (cond_true cond_false : option stmt)
| SAssignment (lval rval : expr)
| SBlock (statements : option (list stmt))
| SRegexpReplace (lval rval : expr)
| SRegexp (lval rval : expr).

(** [c] with memory for its result. *)
Definition on_value (init : value) (c : prog unit) : action value := fun x =>
  let '((x', r), o) := c (x, init) in (x', (fun _ => r) <$> o).

(** [nx_logdata_set_field_value] *)
Definition set_field_value (key : bytes) (v : value) (al : alist) : outcome alist :=
  match alist_get key al with
  | Some _ =>
      if strcmp_eq key raw_key && negb (defined v && has_type NX_VALUE_TYPE_STRING v) then
        _ ← kill v;
        if negb (has_type NX_VALUE_TYPE_STRING v)
        then _ ← nx_value_type_to_string (v_type v); Throw "'raw_event' cannot be set to %s type."
        else Throw "'raw_event' cannot be set to an undefined value."
      else Ret (alist_set key v al)
  | None => Ret (alist_set key v al)
  end.

(** What the evaluation left in the memory of the value is released if it throws. *)
Definition evaluate_assigned (rval : expr) : action value := fun x =>
  let '((x', r), o) := nx_expr_evaluate rval (x, fresh_value) in
  (x', match o with Throw e => _ ← kill r; Throw e | _ => (fun _ => r) <$> o end).

Definition nx_expr_statement_assignment_execute (lval rval : expr) : action unit :=
  _ ← lift (ASSERT (bool_decide (field_of lval <> None)) "stmnt->assignment.lval->type == NX_EXPR_TYPE_FIELD");
  field ← lift (deref (field_of lval) "field");
  x ← get;
  match x_logdata x with
  | None => lift (Throw "missing logdata, assignment possibly after drop()")
  | Some _ =>
      v ← evaluate_assigned rval;
      x ← get;
      match x_logdata x with
      | None => lift (Panic "logdata != NULL")
      | Some al => al ← lift (set_field_value field v al); put (with_logdata (Some al) x)
      end
  end.

(** The condition of [if]. *)
Definition falsy (v : value) : outcome bool :=
  if undefined v then Ret true
  else match v_type v with
    | NX_VALUE_TYPE_BOOLEAN => b ← as_boolean (v_data v); Ret (b =? FALSE)
    | NX_VALUE_TYPE_INTEGER => z ← as_integer (v_data v); Ret (z =? 0)
    | _ => Ret false
    end.

Definition nx_expr_statement_ifelse_execute (cond : expr) (cond_true cond_false : action unit) : action unit :=
  v ← on_value fresh_value (nx_expr_evaluate cond);
  b ← lift (falsy v);
  _ ← (if (b : bool) then cond_false else cond_true);
  lift (kill v).

(** [nx_expr_statement_list_execute], for the function that executes a statement. *)
Definition execute_all (exec : stmt -> action unit) (l : list stmt) : action unit := foldr (fun s k => _ ← exec s; k) (mret tt) l.

Definition regmatch_statement (l r : expr) : action unit :=
  v ← on_value fresh_value (_regmatch (field_of l) (rettype r) (into fresh_value (nx_expr_evaluate l)) (into fresh_value (nx_expr_evaluate r)));
  lift (kill v).

Fixpoint nx_expr_statement_execute (s : stmt) : action unit :=
  x ← get;
  if x_dropped x then mret tt
  else
    match s with
    | SProcedure cb args => cb args
    | SIfElse cond t f =>
        nx_expr_statement_ifelse_execute cond
          (match t with Some s => nx_expr_statement_execute s | None => mret tt end)
          (match f with Some s => nx_expr_statement_execute s | None => mret tt end)
    | SAssignment l r => nx_expr_statement_assignment_execute l r
    | SBlock (Some l) => execute_all nx_expr_statement_execute l
    | SBlock None => mret tt
    | SRegexpReplace l r => regmatch_statement l r
    | SRegexp l r => regmatch_statement l r
    end.

Definition nx_expr_statement_list_execute (l : list stmt) : action unit := execute_all nx_expr_statement_execute l.

(** ** Construction

    The functions the parser calls.  [nx_expr_parser_error_fmt] throws. *)

(** [e->value.regexp.replacement != NULL] *)
Definition has_replacement (e : expr) : outcome bool :=
  match e with
  | EValue v => re ← regexp_of v; Ret (bool_decide (re.1.2 <> None))
  | _ => Undef "union member value"
  end.

(** The conditions on a substitution. *)
Definition check_replacement (l r : expr) : outcome unit :=
  _ ← (if is_type (rettype r) NX_VALUE_TYPE_REGEXP then
         b ← has_replacement r;
         if b && bool_decide (field_of l = None) then Throw "field required for left operand of regexp substitution" else Ret tt
       else Ret tt);
  if is_type (rettype l) NX_VALUE_TYPE_REGEXP then
    b ← has_replacement l;
    if (b : bool) then Throw "regexp substitution operand must be the right in regexp substitution" else Ret tt
  else Ret tt.

Definition nx_expr_new_binop (o : binop) (l r : expr) : outcome expr :=
  _ ← throw_none (binop_type o (rettype l) (rettype r)) "invalid binary operation: %s %s %s";
  _ ← (match o with REGMATCH | NOTREGMATCH => check_replacement l r | _ => Ret tt end);
  Ret (EBinop o l r).

Definition nx_expr_new_unop (o : unop) (op : expr) : outcome expr :=
  match o with
  | NEG | NOT =>
      if is_type (rettype op) NX_VALUE_TYPE_BOOLEAN || is_type (rettype op) NX_VALUE_TYPE_UNKNOWN then Ret (EUnop o op)
      else Throw "invalid unary operation: %s"
  | DEFINED => Ret (EUnop o op)
  end.

Definition nx_expr_new_inop (e : expr) (es : list expr) : outcome expr := Ret (EInop e es).

(** [None] is NULL. *)
Definition nx_expr_new_string (str : option bytes) : outcome expr :=
  s ← (match str with None => nx_string_new | Some c => nx_string_create (c ++ [x00]) (-1) end);
  Ret (EValue (NxValue NX_VALUE_TYPE_STRING TRUE (DString (content s)))).

Definition nx_expr_new_undef : expr := EValue (NxValue NX_VALUE_TYPE_UNKNOWN FALSE DZero).
Definition nx_expr_new_field (str : bytes) : expr := EField str.
Definition nx_expr_new_boolean (b : bool) : expr := EValue (NxValue NX_VALUE_TYPE_BOOLEAN TRUE (DBoolean (if b then TRUE else FALSE))).
Definition nx_expr_new_integer (str : bytes) : outcome expr :=
  z ← nx_value_parse_int str; Ret (EValue (NxValue NX_VALUE_TYPE_INTEGER TRUE (DInteger z))).
Definition nx_expr_new_datetime (str : bytes) : outcome expr :=
  r ← Date.nx_date_parse_iso str None;
  t ← throw_none (fst r) "couldn't parse date: %s";
  Ret (EValue (NxValue NX_VALUE_TYPE_DATETIME TRUE (DDatetime t))).
Definition nx_expr_new_ip4addr (str : bytes) : outcome expr :=
  a ← nx_value_parse_ip4addr str; Ret (EValue (NxValue NX_VALUE_TYPE_IP4ADDR TRUE (DIp4addr a))).

(** [sscanf(str, "%d", &val)]: the value of a number that does not fit is converted to
    [int]. *)
Definition nx_expr_new_captured (str : bytes) : outcome expr :=
  _ ← ASSERT (0 <? zlen str) "strlen(str) > 0";
  v ← throw_none (scanf_ld str) "couldn't parse integer: %s";
  Ret (ECaptured (s32 v)).

Fixpoint regexp_modifiers (l : bytes) (m : Z) : outcome Z :=
  match l with
  | [] => Ret m
  | c :: l =>
      if c =c "g" then regexp_modifiers l (Z.lor m MATCH_GLOBAL)
      else if c =c "s" then regexp_modifiers l (Z.lor m MATCH_DOTALL)
      else if c =c "m" then regexp_modifiers l (Z.lor m MATCH_MULTILINE)
      else if c =c "i" then regexp_modifiers l (Z.lor m MATCH_CASELESS)
      else Throw "regular expression modifier is invalid: %c"
  end.

Definition nx_expr_new_regexp (str : bytes) (replacement : option bytes) (modifiers : option bytes) : outcome expr :=
  m ← regexp_modifiers (default [] modifiers) 0;
  if negb (pcre_compiles str m) then Throw "failed to compile regular expression '%s', error at position %d: %s"
  else if NX_EXPR_MAX_CAPTURED_FIELDS <=? pcre_captures str m then Throw "maximum number of captured substrings is limited to %d"
  else Ret (EValue (NxValue NX_VALUE_TYPE_REGEXP TRUE (DRegexp (regexp_addr str) str (Some (replacement, m))))).

(** ** Functions and procedures *)

Record func := Func { fn_sig : sig; fn_cb : list value -> prog unit; fn_ret : nx_value_type }.
Record proc := Proc { pr_sig : sig; pr_cb : option (list expr) -> action unit }.

Fixpoint match_args (args : list expr) (types : list nx_value_type) : bool :=
  match args, types with
  | [], _ => true
  | _ :: _, [] => false
  | a :: args, t :: types =>
      if bool_decide (types = []) && bool_decide (t = VARARGS) then true
      else if negb (is_type (rettype a) NX_VALUE_TYPE_UNKNOWN) && negb (is_type t (rettype a)) && negb (is_type t NX_VALUE_TYPE_UNKNOWN) then false
      else match_args args types
  end.

Definition nx_expr_list_elem_match (args : option (list expr)) (types : list nx_value_type) : bool :=
  match args with
  | None | Some [] => bool_decide (types = [])
  | Some args => match_args args types
  end.

(** [strstr(fname, "->")] *)
Fixpoint find_arrow (s : bytes) : option (bytes * bytes) :=
  match s with
  | [] => None
  | c :: s' =>
      match s' with
      | d :: s'' => if (c =c "-") && (d =c ">") then Some ([], s'') else (fun p => (c :: p.1, p.2)) <$> find_arrow s'
      | [] => None
      end
  end.

(** The module and the name of a qualified name; the module's name is cut to the size of
    [modname]. *)
Definition split_name (modules : list (bytes * loc)) (name : bytes) : outcome (option loc * bytes) :=
  match find_arrow name with
  | None => Ret (None, name)
  | Some (m, name) =>
      match list_find (fun p => strcmp_eq p.1 (take 255 m) = true) modules with
      | Some (_, (_, l)) => Ret (Some l, name)
      | None => Throw "module %s not found"
      end
  end.

(** A function called in the namespace [module], if any. *)
Definition callable (module : option loc) (s : sig) : outcome bool :=
  match sg_type s with
  | NX_EXPR_FUNCPROC_TYPE_GLOBAL => Ret (bool_decide (module = None))
  | NX_EXPR_FUNCPROC_TYPE_PUBLIC =>
      _ ← ASSERT (bool_decide (sg_module s <> None)) "func->module != NULL";
      Ret (bool_decide (module <> None) && bool_decide (sg_module s = module))
  | NX_EXPR_FUNCPROC_TYPE_PRIVATE =>
      _ ← ASSERT (bool_decide (sg_module s <> None)) "func->module != NULL";
      Ret (bool_decide (module = sg_module s))
  end.

Section table.
Context {F : Type} (sg : F -> sig).

Definition matches (name : bytes) (args : option (list expr)) (f : F) : bool :=
  strcmp_eq (sg_name (sg f)) name && nx_expr_list_elem_match args (sg_args (sg f)).

Fixpoint find_callable (module : option loc) (name : bytes) (args : option (list expr)) (l : list F) : outcome (option F) :=
  match l with
  | [] => Ret None
  | f :: l =>
      if matches name args f then b ← callable module (sg f); if (b : bool) then Ret (Some f) else find_callable module name args l
      else find_callable module name args l
  end.

(** A private function of the module of the caller comes first. *)
Definition is_private (caller : option loc) (name : bytes) (args : option (list expr)) (f : F) : bool :=
  bool_decide (sg_type (sg f) = NX_EXPR_FUNCPROC_TYPE_PRIVATE) && bool_decide (caller = sg_module (sg f)) && matches name args f.

Definition find_private (caller : option loc) (name : bytes) (args : option (list expr)) (l : list F) : outcome (option F) :=
  match list_find (fun f => is_private caller name args f = true) l with
  | Some (_, f) => _ ← ASSERT (bool_decide (sg_module (sg f) <> None)) "func->module != NULL"; Ret (Some f)
  | None => Ret None
  end.

Definition resolve (caller : option loc) (modules : list (bytes * loc)) (name : bytes) (args : option (list expr)) (l : list F) : outcome (option F) :=
  '(module, name) ← split_name modules name;
  p ← (if bool_decide (module = None) then find_private caller name args l else Ret None);
  match p with Some f => Ret (Some f) | None => find_callable module name args l end.

(** The signature that [nx_expr_func_lookup] searches. *)
Definition same_sig (a b : sig) : bool :=
  strcasecmp_eq (sg_name a) (sg_name b) && bool_decide (sg_type a = sg_type b) && bool_decide (sg_module a = sg_module b) && bool_decide (sg_args a = sg_args b).

End table.

Definition nx_expr_new_function (caller : option loc) (modules : list (bytes * loc)) (funcs : list func) (fname : bytes) (args : option (list expr)) : outcome expr :=
  f ← resolve fn_sig caller modules fname args funcs;
  f ← throw_none f "function '%s()' does not exist or takes different arguments";
  Ret (EFunction (fn_cb f) (fn_ret f) args).

Definition nx_expr_statement_new_procedure (caller : option loc) (modules : list (bytes * loc)) (procs : list proc) (name : bytes) (args : option (list expr)) : outcome stmt :=
  p ← resolve pr_sig caller modules name args procs;
  p ← throw_none p "procedure '%s()' does not exist or takes different arguments";
  Ret (SProcedure (pr_cb p) args).

Definition nx_expr_func_lookup (funcs : list func) (s : sig) (ret : nx_value_type) : option func :=
  snd <$> list_find (fun f => same_sig s (fn_sig f) && is_type ret (fn_ret f) = true) funcs.

Definition nx_expr_func_register (funcs : list func) (f : func) : outcome (list func) :=
  match nx_expr_func_lookup funcs (fn_sig f) (fn_ret f) with
  | Some _ => Throw "function '%s' is already registered"
  | None => Ret (funcs ++ [f])
  end.

Definition nx_expr_proc_lookup (procs : list proc) (s : sig) : option proc :=
  snd <$> list_find (fun p => same_sig s (pr_sig p) = true) procs.

Definition nx_expr_proc_register (procs : list proc) (p : proc) : outcome (list proc) :=
  match nx_expr_proc_lookup procs (pr_sig p) with
  | Some _ => Throw "procedure '%s' is already registered"
  | None => Ret (procs ++ [p])
  end.

End expr.
End Expr.
