(* ===== verification/ExprTypes.v ===== *)
(** * Types of expressions

    The member [rettype] of an expression is computed when it is built, and operators and
    functions rely on it.  Soundness of these types: the value of an expression that the
    constructors accept has the static type, if it is known, is well-formed, and its
    evaluation neither stops the process nor reads memory that was not written; what the
    constructors accept besides ([well_typed] excludes it) does, with the expressions
    that show it. *)

From S2P Require Import Prelude Dlist Str Date Value Logdata Expr.
Import Str Value Logdata Expr.

Module ExprTypes.

(** ** Weakest preconditions *)

(** Arithmetic of integer operands is not checked. *)
Definition arithmetic (m : string) : Prop := m = "signed overflow" \/ m = "division by zero".

(** [c] returns with [Q], throws with [T], or overflows. *)
Definition wp {S A} (c : cmd S A) (Q : A -> S -> Prop) (T : S -> Prop) (s : S) : Prop :=
  match c s with
  | (s', Ret a) => Q a s'
  | (s', Throw _) => T s'
  | (_, Panic _) => False
  | (_, Undef m) => arithmetic m
  end.

Definition tame {A} (P : A -> Prop) (o : outcome A) : Prop :=
  match o with Ret a => P a | Throw _ => True | Panic _ => False | Undef m => arithmetic m end.

Section wp.
Context {S : Type}.

Lemma wp_bind {A B} (c : cmd S A) (f : A -> cmd S B) Q T s :
  wp c (fun a => wp (f a) Q T) T s -> wp (c ≫= f) Q T s.
Proof. unfold wp, mbind, cmd_bind. by destruct (c s) as [s' []]. Qed.

Lemma wp_ret {A} (a : A) Q T (s : S) : Q a s -> wp (mret a) Q T s.
Proof. done. Qed.

Lemma wp_lift {A} (P : A -> Prop) (o : outcome A) Q T (s : S) :
  tame P o -> T s -> (forall a, P a -> Q a s) -> wp (lift o) Q T s.
Proof. unfold wp, lift, tame. destruct o; auto. Qed.

Lemma wp_is {A} (c : cmd S A) a s' Q T s : c s = (s', Ret a) -> Q a s' -> wp c Q T s.
Proof. unfold wp. by intros ->. Qed.

Lemma wp_mono {A} (c : cmd S A) (Q Q' : A -> S -> Prop) (T T' : S -> Prop) s :
  wp c Q T s -> (forall a s', Q a s' -> Q' a s') -> (forall s', T s' -> T' s') -> wp c Q' T' s.
Proof. unfold wp. destruct (c s) as [s' []]; auto. Qed.

End wp.

Lemma tame_bind {A B} (P : A -> Prop) (P' : B -> Prop) (o : outcome A) (f : A -> outcome B) :
  tame P o -> (forall a, P a -> tame P' (f a)) -> tame P' (o ≫= f).
Proof. destruct o; simpl; auto. Qed.

Lemma tame_fmap {A B} (P : B -> Prop) (o : outcome A) (f : A -> B) : tame (fun a => P (f a)) o -> tame P (f <$> o).
Proof. by destruct o. Qed.

Lemma tame_mono {A} (P P' : A -> Prop) (o : outcome A) : tame P o -> (forall a, P a -> P' a) -> tame P' o.
Proof. destruct o; simpl; auto. Qed.

Lemma tame_long z : tame int64 (long z).
Proof. unfold long. case_test; [split; lia|by left]. Qed.

(** ** Well-formed values *)

Definition fits (s : bytes) : Prop := zlen s <= string_limit.

Definition named (t : nx_value_type) : Prop := match t with NX_VALUE_TYPE_OTHER _ => False | _ => True end.

(** A value of the static type [t]; the type of an undefined value has a name if [nm]. *)
Definition typed (nm : bool) (t : nx_value_type) (v : value) : Prop :=
  (v_defined v = TRUE /\ data_ok fits (v_type v) (v_data v) /\ (t = NX_VALUE_TYPE_UNKNOWN \/ v_type v = t)) \/
  (v_defined v = FALSE /\ (nm = true -> named (v_type v))).

Lemma data_ok_named {P} (Q : P -> Prop) t d : data_ok Q t d -> named t.
Proof. by destruct t, d. Qed.

Lemma kill_ok v : data_ok fits (v_type v) (v_data v) -> kill v = Ret tt.
Proof.
  unfold kill. case_test; [|done].
  destruct v as [t df d]; simpl. destruct t, d as [| | | | |addr s [m|]| | | |]; simpl; try done. by intros (_ & _ & []).
Qed.

Lemma typed_kill nm t v : typed nm t v -> kill v = Ret tt.
Proof. intros [(_ & H & _)|[H _]]; [by apply kill_ok|]. unfold kill. by rewrite H. Qed.

Lemma typed_defined nm t v : typed nm t v -> undefined v = false ->
  defined v = true /\ data_ok fits (v_type v) (v_data v) /\ (t = NX_VALUE_TYPE_UNKNOWN \/ v_type v = t).
Proof. intros [(H & Hd & Ht)|[H _]]; unfold undefined, defined; rewrite H; [done|discriminate]. Qed.

Lemma typed_undefined nm t v : typed nm t v -> undefined v = true -> defined v = false /\ (nm = true -> named (v_type v)).
Proof. intros [(H & _)|[H Hn]]; unfold undefined, defined; rewrite H; [discriminate|done]. Qed.

Lemma named_string t : named t -> exists s, nx_value_type_to_string t = Ret s.
Proof. destruct t; simpl; try contradiction; eexists; reflexivity. Qed.

Lemma same_type_eq l r : named (v_type l) -> named (v_type r) -> same_type l r = true -> v_type l = v_type r.
Proof. unfold same_type. intros Hl Hr H. tests. by destruct (v_type l), (v_type r). Qed.

(** The data of defined values by their types. *)
Ltac by_type v :=
  let t := fresh "t" in let df := fresh "df" in let d := fresh "d" in
  destruct v as [t df d]; simpl in *; destruct t, d; simpl in *; try contradiction; try done.

(** What pcreapi(3) says of [pcre_exec]: no internal errors for a compiled pattern and a
    vector of offsets that is large enough; a positive return code is one more than the
    number of the highest group that matched, and the offsets of groups that did not are
    -1. *)
Definition offsets_ok (subject : bytes) (p : Z * Z) : Prop := p = (-1, -1) \/ (0 <= fst p <= snd p /\ snd p <= zlen subject).

Class PcreLaws (PC : Pcre) : Prop := {
  pcre_code p m s : pcre_compiles p m = true -> fst (pcre_exec p m s) ∉ [-2; -3; -4; -5; -6; -13; -14; -15];
  pcre_groups p m s : pcre_compiles p m = true -> fst (pcre_exec p m s) <= pcre_captures p m + 1;
  pcre_offsets p m s : pcre_compiles p m = true -> 0 < fst (pcre_exec p m s) ->
    exists a b ov, snd (pcre_exec p m s) = (a, b) :: ov /\ 0 <= a <= b /\ b <= zlen s /\ Forall (offsets_ok s) ov
}.

Section sound.
Context `{M : Malloc} `{E : ValueEnv} {PC : Pcre} {ST : Stale} {X : Type}.
Abbreviation ectx := (@ectx X).
Abbreviation prog A := (cmd (ectx * value) A).
Abbreviation expr := (@expr X).

(** A field of the record. *)
Definition stored (v : value) : Prop := value_ok fits v /\ named (v_type v).

Definition ctx_ok (x : ectx) : Prop :=
  (forall al, x_logdata x = Some al -> Forall (fun f => stored (snd f)) al) /\ Forall fits (x_captured x).

(** An operand leaves the memory of the result of the operator as it is. *)
Definition operand (nm : bool) (t : nx_value_type) (c : prog value) : Prop := forall x r, ctx_ok x ->
  wp c (fun v s => snd s = r /\ ctx_ok (fst s) /\ typed nm t v) (fun s => snd s = r /\ ctx_ok (fst s)) (x, r).

(** A computation of a value; if it throws and the memory [r] was cleared, what it left
    there can be released. *)
Definition result (nm : bool) (t : nx_value_type) : unit -> ectx * value -> Prop := fun _ s => ctx_ok (fst s) /\ typed nm t (snd s).
Definition thrown (r : value) : ectx * value -> Prop := fun s => ctx_ok (fst s) /\ (v_data r = DZero -> kill (snd s) = Ret tt).

Definition computes (nm : bool) (t : nx_value_type) (c : prog unit) : Prop := forall x r, ctx_ok x -> v_defined r = FALSE ->
  wp c (result nm t) (thrown r) (x, r).

Lemma into_operand init nm t c : v_defined init = FALSE \/ (forall x r, c (x, r) = c (x, NxValue (v_type r) FALSE (v_data r))) ->
  computes nm t c -> operand nm t (into init c).
Proof.
  intros Hi Hc x r Hx.
  assert (exists init', v_defined init' = FALSE /\ c (x, init) = c (x, init')) as (init' & Hd & Hi').
  { destruct Hi as [Hi|Hi]; [by exists init|]. by exists (NxValue (v_type init) FALSE (v_data init)). }
  specialize (Hc x init' Hx Hd). unfold wp, into in *. rewrite Hi'.
  unfold result, thrown in Hc. destruct (c (x, init')) as [[x' r'] [u|e|e|e]]; simpl in *; intuition.
Qed.

Lemma wp_free v nm t Q T (s : ectx * value) : typed nm t v -> Q tt s -> wp (free_value v) Q T s.
Proof. intros H HQ. unfold wp, free_value, lift. by rewrite (typed_kill _ _ _ H). Qed.

Lemma wp_throw_types l r msg Q (T : ectx * value -> Prop) s : named l -> named r -> T s -> wp (throw_types l r msg) Q T s.
Proof.
  intros Hl Hr HT. unfold wp, throw_types, lift. destruct (named_string l Hl) as [a ->], (named_string r Hr) as [b ->]. done.
Qed.

Lemma wp_throw_type t msg Q (T : ectx * value -> Prop) s : named t -> T s -> wp (throw_type t msg) Q T s.
Proof. intros Ht HT. unfold wp, throw_type, lift. destruct (named_string t Ht) as [a ->]. done. Qed.

(** *** Operators *)

Lemma wp_operand nm t (c : prog value) (Q : value -> ectx * value -> Prop) T x r :
  operand nm t c -> ctx_ok x ->
  (forall v x', ctx_ok x' -> typed nm t v -> Q v (x', r)) -> (forall x', ctx_ok x' -> T (x', r)) ->
  wp c Q T (x, r).
Proof.
  intros Hc Hx HQ HT. eapply wp_mono; [by apply Hc| |].
  - intros v [x' r'] (Hr & ? & ?). simpl in *. subst. auto.
  - intros [x' r'] (Hr & ?). simpl in *. subst. auto.
Qed.

(** Throwing before the result is of a type that owns memory. *)
Lemma thrown_boolean x r d da : ctx_ok x -> thrown r (x, NxValue NX_VALUE_TYPE_BOOLEAN d da).
Proof. intros Hx. split; [done|]. intros _. unfold kill. simpl. by case_test. Qed.

Lemma thrown_undefined x r t da : ctx_ok x -> thrown r (x, NxValue t FALSE da).
Proof. by intros Hx. Qed.

Lemma result_boolean nm x b : ctx_ok x -> result nm NX_VALUE_TYPE_BOOLEAN tt (x, NxValue NX_VALUE_TYPE_BOOLEAN TRUE (DBoolean (if b : bool then TRUE else FALSE))).
Proof. intros Hx. split; [done|]. left. split_and!; [done|destruct b; [by left|by right]|by right]. Qed.

Lemma result_boolean_data nm x d : ctx_ok x -> d = TRUE \/ d = FALSE -> result nm NX_VALUE_TYPE_BOOLEAN tt (x, NxValue NX_VALUE_TYPE_BOOLEAN TRUE (DBoolean d)).
Proof. intros Hx Hd. split; [done|]. left. split_and!; [done|done|by right]. Qed.

Lemma result_undefined nm t x t' d : ctx_ok x -> (nm = true -> named t') -> result nm t tt (x, NxValue t' FALSE d).
Proof. intros Hx Hn. split; [done|]. by right. Qed.

Lemma undefined_defined v nm t : typed nm t v -> undefined v = negb (defined v).
Proof. by intros [(H & _)|(H & _)]; unfold undefined, defined; rewrite H. Qed.

Lemma wp_set_type t (Q : unit -> ectx * value -> Prop) T x r : Q tt (x, NxValue t (v_defined r) (v_data r)) -> wp (set_type t) Q T (x, r).
Proof. done. Qed.
Lemma wp_set_defined d (Q : unit -> ectx * value -> Prop) T x r : Q tt (x, NxValue (v_type r) d (v_data r)) -> wp (set_defined d) Q T (x, r).
Proof. done. Qed.
Lemma wp_set_data d (Q : unit -> ectx * value -> Prop) T x r : Q tt (x, NxValue (v_type r) (v_defined r) d) -> wp (set_data d) Q T (x, r).
Proof. done. Qed.
Lemma wp_set_boolean b (Q : unit -> ectx * value -> Prop) T x r : Q tt (x, NxValue (v_type r) (v_defined r) (DBoolean (if b : bool then TRUE else FALSE))) -> wp (set_boolean b) Q T (x, r).
Proof. done. Qed.

#[local] Hint Resolve thrown_boolean thrown_undefined result_boolean result_boolean_data data_ok_named : core.

(** One statement of an operator. *)
Ltac step :=
  match goal with
  | |- wp (_ ≫= _) _ _ _ => apply wp_bind
  | |- wp (mret _) _ _ _ => apply wp_ret
  | |- wp (set_type _) _ _ _ => apply wp_set_type; cbn [v_type v_defined v_data]
  | |- wp (set_defined _) _ _ _ => apply wp_set_defined; cbn [v_type v_defined v_data]
  | |- wp (set_data _) _ _ _ => apply wp_set_data; cbn [v_type v_defined v_data]
  | |- wp (set_boolean _) _ _ _ => apply wp_set_boolean; cbn [v_type v_defined v_data]
  | H : typed _ _ ?v |- wp (free_value ?v) _ _ _ => apply (wp_free _ _ _ _ _ _ H)
  | H : operand _ _ ?c |- wp ?c _ _ (?x, _) => apply (wp_operand _ _ _ _ _ _ _ H); [assumption| |]; [intros ? ? ? ?|intros ? ?]
  | H : typed _ _ ?v |- wp (if undefined ?v then _ else _) _ _ _ =>
      let U := fresh "U" in
      destruct (undefined v) eqn:U;
      [ pose proof (typed_undefined _ _ _ H U) as []|pose proof (typed_defined _ _ _ H U) as (? & ? & ?)]
  end.

(** Two defined values of the same type. *)
Lemma equal_data_tame l r :
  data_ok fits (v_type l) (v_data l) -> data_ok fits (v_type r) (v_data r) -> v_type l = v_type r ->
  tame (fun _ => True) (equal_data l r).
Proof. intros Hl Hr Ht. unfold equal_data. by_type l; by_type r. Qed.

Lemma equality_computes same msg nl tl nr tr left right : operand nl tl left -> operand nr tr right ->
  computes true NX_VALUE_TYPE_BOOLEAN (equality same msg left right).
Proof.
  intros Hl Hr x r Hx Hd.
  unfold equality. repeat step; rewrite ?Hd; auto; try (apply result_undefined; [done|by intros _]).
  destruct (same_type v v0) eqn:Es; simpl.
  - repeat step. eapply (wp_lift (fun _ => True)); [|auto|].
    + apply equal_data_tame; auto. apply same_type_eq; eauto.
    + intros [b|] _; repeat step; auto. apply wp_throw_types; eauto.
  - repeat step. apply wp_throw_types; eauto.
Qed.


(** The operators that need both operands. *)
Lemma wp_both nm t r0 nl tl nr tr left right f x r :
  operand nl tl left -> operand nr tr right -> ctx_ok x -> v_defined r = FALSE -> (nm = true -> named (v_type r)) ->
  (forall x' v w, ctx_ok x' -> typed nl tl v -> typed nr tr w ->
     data_ok fits (v_type v) (v_data v) -> data_ok fits (v_type w) (v_data w) ->
     (tl = NX_VALUE_TYPE_UNKNOWN \/ v_type v = tl) -> (tr = NX_VALUE_TYPE_UNKNOWN \/ v_type w = tr) ->
     wp (f v w) (result nm t) (thrown r0) (x', r)) ->
  wp (both left right f) (result nm t) (thrown r0) (x, r).
Proof.
  intros Hl Hr Hx Hd Hn Hf. unfold both.
  assert (forall x', ctx_ok x' -> thrown r0 (x', r)) as HT.
  { intros x' Hx'. split; [done|]. intros _. unfold kill. simpl. by rewrite Hd. }
  repeat step; auto; apply result_undefined; done.
Qed.

Lemma ordering_computes op msg nl tl nr tr left right : operand nl tl left -> operand nr tr right ->
  computes true NX_VALUE_TYPE_BOOLEAN (ordering op msg left right).
Proof.
  intros Hl Hr x r Hx Hd. unfold ordering. repeat step. eapply wp_both; eauto; [done|]. cbv zeta.
  intros x' v w Hx' Hv Hw Hdv Hdw _ _.
  assert (forall d, wp (_ ← free_value w; _ ← free_value v; throw_types (v_type v) (v_type w) msg)
    (result true NX_VALUE_TYPE_BOOLEAN) (thrown r) (x', NxValue NX_VALUE_TYPE_BOOLEAN d (v_data r))) as Hbad.
  { intros d. repeat step. apply wp_throw_types; eauto. }
  destruct (same_type v w) eqn:Es; cbn [negb]; [|auto]. repeat step. apply same_type_eq in Es; [|eauto..].
  specialize (Hbad TRUE). clear Hv Hw. by_type v; by_type w; repeat step; apply result_boolean; done.
Qed.

Lemma and_computes nl tl nr tr left right : operand nl tl left -> operand nr tr right ->
  computes true NX_VALUE_TYPE_BOOLEAN (_and left right).
Proof.
  intros Hl Hr x r Hx Hd. unfold _and. repeat step; rewrite ?Hd; auto; try (apply result_undefined; [done|by intros _]).
  unfold has_type. destruct (bool_decide_reflect (v_type v = NX_VALUE_TYPE_BOOLEAN)) as [Et|Et]; cbn [andb].
  - destruct (v_data v) eqn:Ed; rewrite Et in *; try done.
    eapply (wp_lift (eq b)); [done|auto|]. intros ? <-. case_test; repeat step; auto; rewrite ?Hd; auto.
    + apply result_undefined; [done|by intros _].
    + case_bool_decide as Ew; cbn [negb]; repeat step.
      * destruct (v_data v0) eqn:Ed0; rewrite Ew in *; try done. eapply (wp_lift (eq b0)); [done|auto|]. intros ? <-.
        repeat step. auto.
      * apply wp_throw_types; eauto.
  - eapply (wp_lift (eq TRUE)); [done|auto|]. intros ? <-. repeat step; auto; rewrite ?Hd; auto.
    + apply result_undefined; [done|by intros _].
    + cbn [negb]. repeat step. apply wp_throw_types; eauto.
Qed.

Lemma or_computes tl tr left right : operand true tl left -> operand true tr right ->
  computes true NX_VALUE_TYPE_BOOLEAN (_or left right).
Proof.
  assert (forall t v, typed true t v -> named (v_type v)) as Hn.
  { intros t v [(_ & H & _)|[_ H]]; eauto. }
  intros Hl Hr x r Hx Hd. unfold _or. repeat step; rewrite ?Hd; auto.
  unfold has_type. case_bool_decide as Et; cbn [negb]; [|repeat step; apply wp_throw_type; eauto].
  step. eapply (wp_lift (fun _ => True)); [|auto|].
  { unfold defined. case_test; [|done]. destruct H0 as [(_ & Hok & _)|[U _]]; [|by rewrite U in *].
    rewrite Et in Hok. by destruct (v_data v). }
  intros lb _. case_test; repeat step; auto.
  case_bool_decide as Ew; cbn [negb]; [|repeat step; apply wp_throw_types; eauto].
  unfold defined. case_test; [|step; apply result_undefined; [done|by intros _]].
  destruct H2 as [(_ & Hok & _)|[U _]]; [|by rewrite U in *].
  rewrite Ew in Hok. destruct (v_data v0); try done. step. eapply (wp_lift (eq b)); [done|auto|]. intros ? <-.
  repeat step. auto.
Qed.

Lemma not_computes nm t op : operand nm t op -> computes true NX_VALUE_TYPE_BOOLEAN (_not op).
Proof.
  intros Ho x r Hx Hd. unfold _not. repeat step; rewrite ?Hd; auto; [by apply result_undefined|].
  unfold has_type. case_bool_decide as Et; cbn [negb]; repeat step; [|by apply (wp_lift (fun _ => False)); auto].
  rewrite Et in *. destruct (v_data v); try done. apply (wp_lift (eq b)); [done|auto|]. intros ? <-. repeat step; auto.
Qed.

Lemma defined_computes nm t op : operand nm t op -> computes true NX_VALUE_TYPE_BOOLEAN (_defined op).
Proof. intros Ho x r Hx Hd. unfold _defined. repeat step; auto. Qed.

(** *** Arithmetic *)

Lemma thrown_kept r x d : ctx_ok x -> v_defined r = FALSE -> thrown r (x, NxValue (v_type r) (v_defined r) d).
Proof. intros Hx Hd. split; [done|]. intros _. unfold kill. simpl. by rewrite Hd. Qed.

Lemma thrown_same r0 r x : ctx_ok x -> v_defined r = FALSE -> thrown r0 (x, r).
Proof. intros Hx Hd. split; [done|]. intros _. unfold kill. simpl. by rewrite Hd. Qed.

Lemma wp_set_integer nm t r0 o x r : ctx_ok x -> v_defined r = FALSE -> t = NX_VALUE_TYPE_UNKNOWN \/ t = NX_VALUE_TYPE_INTEGER ->
  tame int64 o -> wp (set_integer o) (result nm t) (thrown r0) (x, r).
Proof.
  intros Hx Hd Ht Ho. unfold set_integer. step. apply (wp_lift int64); [done|by apply thrown_same|]. intros z Hz. repeat step.
  split; [done|]. left. split_and!; [done..|]. destruct Ht as [-> | ->]; auto.
Qed.

Lemma wp_set_datetime nm t r0 o x r : ctx_ok x -> v_defined r = FALSE -> t = NX_VALUE_TYPE_UNKNOWN \/ t = NX_VALUE_TYPE_DATETIME ->
  tame int64 o -> wp (set_datetime o) (result nm t) (thrown r0) (x, r).
Proof.
  intros Hx Hd Ht Ho. unfold set_datetime. step. apply (wp_lift int64); [done|by apply thrown_same|]. intros z Hz. repeat step.
  split; [done|]. left. split_and!; [done..|]. destruct Ht as [-> | ->]; auto.
Qed.

Lemma add_seconds_tame t z : tame int64 (add_seconds t z).
Proof. eapply tame_bind; [apply tame_long|]. intros d _. apply tame_long. Qed.
Lemma sub_seconds_tame t z : tame int64 (sub_seconds t z).
Proof. eapply tame_bind; [apply tame_long|]. intros d _. apply tame_long. Qed.

Lemma quotient_tame a b : tame int64 (quotient a b).
Proof. unfold quotient. case_test; [by right|apply tame_long]. Qed.
Lemma remainder_tame a b : int64 a -> int64 b -> tame int64 (remainder a b).
Proof.
  intros Ha Hb. unfold remainder. case_test; [by right|]. eapply tame_bind; [apply tame_long|]. intros q _. simpl.
  pose proof (Z.rem_bound_abs a b ltac:(done)). unfold int64 in *. lia.
Qed.

(** Two defined values of types that an operator does not accept. *)
Lemma wp_refused l r msg Q r0 nl tl nr tr x r1 : typed nl tl l -> typed nr tr r ->
  data_ok fits (v_type l) (v_data l) -> data_ok fits (v_type r) (v_data r) -> ctx_ok x -> v_defined r1 = FALSE ->
  wp (_ ← free_value l; _ ← free_value r; throw_types (v_type l) (v_type r) msg) Q (thrown r0) (x, r1) /\
  wp (_ ← free_value r; _ ← free_value l; throw_types (v_type l) (v_type r) msg) Q (thrown r0) (x, r1).
Proof. intros. split; repeat step; (apply wp_throw_types; [by eauto..|by apply thrown_same]). Qed.

Ltac arithmetic_case v w :=
  destruct (v_type v) eqn:?; try done; destruct (v_type w) eqn:?; try done;
  destruct (v_data v); try done; destruct (v_data w); try done; cbn [as_integer as_datetime];
  repeat (step; apply (wp_lift (eq _)); [reflexivity|by apply thrown_same|intros ? <-]).


(** The static types of operators, and the types of the values they compute. *)
Definition agrees (t t' : nx_value_type) : Prop := t = NX_VALUE_TYPE_UNKNOWN \/ t' = t.

Definition monotone (f : nx_value_type -> nx_value_type -> option nx_value_type) : Prop := forall tl tr t a b c,
  f tl tr = Some t -> agrees tl a -> agrees tr b -> f a b = Some c -> agrees t c.

Lemma monotone_unknown f : (forall t, f NX_VALUE_TYPE_UNKNOWN t = Some NX_VALUE_TYPE_UNKNOWN) -> (forall t, f t NX_VALUE_TYPE_UNKNOWN = Some NX_VALUE_TYPE_UNKNOWN) ->
  monotone f.
Proof.
  intros H1 H2 tl tr t a b c Ht [->|<-] [->|<-] Hc; try rewrite H1 in Ht; try rewrite H2 in Ht; try (injection Ht as <-; by left).
  right. congruence.
Qed.

Lemma minus_monotone : monotone minus_type.
Proof. apply monotone_unknown; by intros []. Qed.
Lemma plus_monotone : monotone plus_type.
Proof. apply monotone_unknown; by intros []. Qed.
Lemma arith_monotone : monotone arith_type.
Proof. apply monotone_unknown; by intros []. Qed.

Lemma agrees_of f tl tr t (v w : value) c : monotone f -> f tl tr = Some t -> agrees tl (v_type v) -> agrees tr (v_type w) ->
  f (v_type v) (v_type w) = Some c -> t = NX_VALUE_TYPE_UNKNOWN \/ t = c.
Proof. intros Hm Ht Hv Hw Hc. destruct (Hm _ _ _ _ _ _ Ht Hv Hw Hc); auto. Qed.

Lemma minus_computes nl tl nr tr t left right : operand nl tl left -> operand nr tr right ->
  minus_type tl tr = Some t -> computes false t (_minus left right).
Proof.
  intros Hl Hr Ht x r Hx Hd. unfold _minus. apply (wp_both _ _ _ nl tl nr tr); [done..|].
  intros x' v w Hx' Hv Hw Hdv Hdw Etl Etr.
  pose proof (wp_refused v w "invalid operation: %s - %s" (result false t) r _ _ _ _ x' r Hv Hw Hdv Hdw Hx' Hd) as [_ Hbad].
  pose proof (fun c => agrees_of minus_type tl tr t v w c minus_monotone Ht Etl Etr) as Hc.
  arithmetic_case v w.
  - apply wp_set_integer; auto using tame_long.
  - apply wp_set_datetime; auto using sub_seconds_tame.
  - apply wp_set_integer; auto using tame_long.
Qed.

Lemma arith_computes op msg nl tl nr tr t left right : operand nl tl left -> operand nr tr right ->
  (forall a b, int64 a -> int64 b -> tame int64 (op a b)) ->
  arith_type tl tr = Some t -> computes false t (arith op msg left right).
Proof.
  intros Hl Hr Hop Ht x r Hx Hd. unfold arith. apply (wp_both _ _ _ nl tl nr tr); [done..|].
  intros x' v w Hx' Hv Hw Hdv Hdw Etl Etr.
  pose proof (wp_refused v w msg (result false t) r _ _ _ _ x' r Hv Hw Hdv Hdw Hx' Hd) as [Hbad _].
  pose proof (fun c => agrees_of arith_type tl tr t v w c arith_monotone Ht Etl Etr) as Hc.
  arithmetic_case v w. apply wp_set_integer; auto.
Qed.

(** *** Concatenation *)

Lemma fits_cstr s : fits s -> fits (cstr s).
Proof. unfold fits. pose proof (cstr_length s). lia. Qed.

Lemma wp_init_string nm t r0 s x r : ctx_ok x -> v_defined r = FALSE -> fits s -> agrees t NX_VALUE_TYPE_STRING ->
  wp (nx_value_init_string (cstr s)) (result nm t) (thrown r0) (x, r).
Proof.
  intros Hx Hd Hs Ht. unfold nx_value_init_string. repeat step.
  destruct (nx_string_create_cstr (cstr s)) as (c & -> & Hc); [apply no_nul_cstr|by apply fits_cstr|].
  apply (wp_is _ c (x, NxValue NX_VALUE_TYPE_STRING (v_defined r) (v_data r))); [done|]. repeat step.
  rewrite (str_rep_content _ _ Hc). split; [done|]. left. split_and!; [done|by apply fits_cstr|done].
Qed.

Lemma sprintf_ss_tame l r : tame fits (sprintf_ss l r).
Proof.
  unfold sprintf_ss. destruct (Z.ltb_spec string_limit (zlen l + zlen r + 1)) as [H|H].
  { unfold nx_string_new_size. case_test; [lia|]. by rewrite (proj2 (Z.ltb_lt _ _)). }
  destruct (nx_string_new_size_rep (zlen l + zlen r + 1)) as (s & -> & (_ & _ & Hz & _) & Hb); [lia|].
  specialize (Hb ltac:(lia)). cbn [mbind outcome_bind].
  rewrite (mem_write_at' _ _ [] (buf s)) by (rewrite ?length_app; simpl; auto; lia).
  simpl. unfold fits. rewrite length_take. lia.
Qed.

(** *** Regular expressions *)

(** The replacement of the bytes from [a] to [b]. *)
Definition splice (s : bytes) (a b : Z) (repl : bytes) : bytes := take (Z.to_nat a) s ++ repl ++ drop (Z.to_nat b) s.

(** The tail [t] of a buffer is moved behind a gap of the size of [repl], which is then
    written into the gap. *)
Lemma refill_gap p g t r repl : (length repl <= length g + length r)%nat ->
  exists rest, (m ← memmove (p ++ g ++ t ++ r) (zlen p + zlen repl) (zlen p + zlen g) (zlen t); mem_write m (zlen p) repl) =
    Ret (p ++ repl ++ t ++ rest).
Proof.
  intros Hr. set (b := p ++ g ++ t ++ r). set (k := (length p + length repl)%nat).
  assert (length b = (length p + length g + length t + length r)%nat) as Lb by (unfold b; rewrite !length_app; lia).
  unfold memmove. rewrite (mem_read_at _ _ _ (p ++ g) (t ++ r)) by (unfold b; rewrite ?length_app; lia || by rewrite !app_assoc).
  rewrite Nat2Z.id, take_app_length. cbn [mbind outcome_bind].
  rewrite (mem_write_at' b _ (take k b) (drop k b)) by (rewrite ?take_drop, ?length_take, ?length_drop; lia || done).
  cbn [mbind outcome_bind]. set (rest := drop (length t) (drop k b)). exists rest.
  assert (exists q, take k b = p ++ q /\ length q = length repl) as (q & -> & Lq).
  { exists (take (length repl) (g ++ t ++ r)). unfold k, b. rewrite take_app_add. split; [done|].
    rewrite length_take, !length_app. lia. }
  rewrite (mem_write_at' _ _ p (q ++ t ++ rest)) by (rewrite ?length_app, ?app_assoc; lia || done).
  by rewrite drop_app_length' by done.
Qed.

Lemma split_at3 (s : bytes) a b : 0 <= a <= b -> b <= zlen s ->
  exists p g t, s = p ++ g ++ t /\ zlen p = a /\ zlen g = b - a /\ p = take (Z.to_nat a) s /\ t = drop (Z.to_nat b) s.
Proof.
  intros Ha Hb. exists (take (Z.to_nat a) s), (take (Z.to_nat (b - a)) (drop (Z.to_nat a) s)), (drop (Z.to_nat b) s).
  rewrite !length_take, length_drop. split_and!; [|lia|lia|done..].
  replace (drop (Z.to_nat b) s) with (drop (Z.to_nat (b - a)) (drop (Z.to_nat a) s)) by (rewrite drop_drop; f_equal; lia).
  by rewrite !take_drop.
Qed.

Lemma substitute_splices s a b repl : fits s -> 0 <= a <= b -> b <= zlen s ->
  0 < zlen s + (b - a) + zlen repl <= string_limit -> substitute s a b repl = Ret (splice s a b repl).
Proof.
  intros Hs Hab Hb Hn. unfold substitute, fits in *. rewrite (proj2 (Z.leb_le a b)) by lia. cbn [ASSERT mbind outcome_bind].
  unfold nx_string_ensure_size. rewrite (proj2 (Z.ltb_lt 0 _)) by lia. cbn [ASSERT mbind outcome_bind].
  destruct (ensure_size_rep (exact s) s (zlen s + (b - a) + zlen repl)) as (f & -> & (_ & (r & Hbuf) & Hz & _) & Hsz & _);
    [apply exact_rep; unfold string_limit in *; lia|lia|]. cbn [mbind outcome_bind].
  destruct (split_at3 s a b Hab Hb) as (p & g & t & Es & Lp & Lg & Ep & Et). unfold splice. rewrite <- Ep, <- Et. clear Ep Et.
  assert (zlen s = zlen p + zlen g + zlen t) as Ls by (rewrite Es, !length_app; lia).
  assert (zlen (buf f) = zlen s + 1 + zlen r) as Lb by (rewrite Hbuf, length_app; simpl; lia).
  destruct (refill_gap p g (t ++ [x00]) r repl) as (rest & Em); [lia|].
  replace (buf f) with (p ++ g ++ (t ++ [x00]) ++ r) by (rewrite Hbuf, Es; by rewrite <- !app_assoc).
  replace (zlen s - b + 1) with (zlen (t ++ [x00])) by (rewrite length_app; simpl; lia).
  replace b with (zlen p + zlen g) at 1 by lia. rewrite <- Lp. apply bind_Ret in Em as (m & -> & Em). cbn [mbind outcome_bind].
  rewrite Em. cbn [mbind outcome_bind]. rewrite (proj2 (Z.leb_le _ _)) by lia. cbn [ASSERT mbind outcome_bind]. f_equal.
  replace (p ++ repl ++ (t ++ [x00]) ++ rest) with ((p ++ repl ++ t) ++ x00 :: rest) by (by rewrite <- !app_assoc).
  apply take_app_length'. rewrite !length_app. lia.
Qed.

Lemma substitute_tame s a b repl : fits s -> 0 <= a <= b -> b <= zlen s -> 0 < zlen s + (b - a) + zlen repl ->
  tame fits (substitute s a b repl).
Proof.
  intros Hs Hab Hb Hn. destruct (Z.leb_spec (zlen s + (b - a) + zlen repl) string_limit) as [Hl|Hl].
  - rewrite substitute_splices by (done || lia). simpl. unfold splice, fits in *. rewrite !length_app, length_take, length_drop. lia.
  - unfold substitute, fits in *. rewrite (proj2 (Z.leb_le a b)) by lia. cbn [ASSERT mbind outcome_bind].
    unfold nx_string_ensure_size. rewrite (proj2 (Z.ltb_lt 0 _)) by lia. cbn [ASSERT mbind outcome_bind].
    unfold ensure_size. simpl bufsize. case_test; [lia|]. by rewrite (proj2 (Z.ltb_lt _ _)).
Qed.

Context {PL : PcreLaws PC}.

(** The pattern of a literal, with a group less than the constructor admits. *)
Definition pattern_ok (p : bytes) (m : Z) : Prop := pcre_compiles p m = true /\ pcre_captures p m < NX_EXPR_MAX_CAPTURED_FIELDS - 1.

Lemma capture_ok subject p : fits subject -> offsets_ok subject p -> exists c, capture subject p = Ret c /\ fits c.
Proof.
  intros Hs [->|[Ha Hb]]; [by exists []|]. destruct p as [a b]; simpl in *. case_test; [by exists []|].
  destruct (split_at3 subject a b Ha Hb) as (pre & g & t & -> & Lp & Lg & _). unfold fits in *. rewrite !length_app in Hs.
  rewrite (mem_read_at _ _ _ pre (g ++ t)) by (rewrite ?length_app; auto; lia). cbn [mbind outcome_bind].
  rewrite take_app_length' by lia.
  destruct (nx_string_create_rep g (b - a)) as (c & -> & Hc & _); [lia..|]. exists (content c). split; [done|].
  rewrite (str_rep_content _ _ Hc), length_take. lia.
Qed.

Lemma capture_all_ok subject ov : fits subject -> Forall (offsets_ok subject) ov ->
  exists l, capture_all subject ov = Ret l /\ Forall fits l.
Proof.
  intros Hs. induction 1 as [|p ov Hp _ (l & E1 & Hl)]; [by exists []|].
  destruct (capture_ok _ _ Hs Hp) as (c & E2 & Hc). exists (c :: l). simpl. rewrite E2, E1. split; [done|by constructor].
Qed.

Lemma pcre_error_ok code : code ∉ [-2; -3; -4; -5; -6; -13; -14; -15] -> pcre_error code = Ret tt.
Proof.
  intros H. repeat (rewrite not_elem_of_cons in H; destruct H as [? H]). unfold pcre_error.
  repeat match goal with |- context [code =? ?k] => rewrite (proj2 (Z.eqb_neq code k)) by done end. done.
Qed.

(** [pcre_exec] finds the bytes from [a] to [b]. *)
Definition finds (p : bytes) (m : Z) (s : bytes) (a b : Z) : Prop :=
  0 < fst (pcre_exec p m s) /\ head (snd (pcre_exec p m s)) = Some (a, b).

(** The memory of the result of a match: whether there was one. *)
Definition matched (r r' : value) : Prop := v_type r' = v_type r /\ v_defined r' = v_defined r /\
  (v_data r' = v_data r \/ v_data r' = DBoolean TRUE).

Lemma wp_match_once pattern m subject (Q : option (Z * Z) -> ectx * value -> Prop) T x r :
  ctx_ok x -> fits subject -> pattern_ok pattern m ->
  (forall p x' r', ctx_ok x' -> x_logdata x' = x_logdata x -> matched r r' ->
     match p with
     | Some (a, b) => 0 <= a <= b /\ b <= zlen subject /\ finds pattern m subject a b /\ v_data r' = DBoolean TRUE
     | None => fst (pcre_exec pattern m subject) <= 0
     end -> Q p (x', r')) ->
  wp (match_once pattern m subject) Q T (x, r).
Proof.
  intros Hx Hs [Hc Hg] HQ. unfold match_once.
  pose proof (pcre_code pattern m subject Hc) as Hcode. pose proof (pcre_groups pattern m subject Hc) as Hgr.
  pose proof (pcre_offsets pattern m subject Hc) as Hoff.
  unfold finds in HQ. destruct (pcre_exec pattern m subject) as [result ov]. simpl in *.
  assert (matched r r) as Hm by (split_and!; auto).
  assert (matched r (NxValue (v_type r) (v_defined r) (DBoolean TRUE))) as Hm' by (split_and!; auto).
  destruct (Z.ltb_spec result 0) as [H0|H0].
  { rewrite (proj2 (Z.leb_gt 0 result)) by lia. repeat step. unfold wp, lift. rewrite pcre_error_ok by done. by apply HQ; [..|simpl; lia]. }
  rewrite (proj2 (Z.leb_le 0 result)) by lia. do 2 step. destruct (Z.eqb_spec result 0) as [->|Hne].
  { step. by apply HQ; [..|simpl; lia]. }
  destruct Hoff as (a & b & ov' & -> & Ha & Hb & Hov); [lia|].
  step. eapply (wp_is _ tt); [unfold lift; rewrite (proj2 (Z.ltb_lt _ _)) by (unfold NX_EXPR_MAX_CAPTURED_FIELDS in *; lia); done|].
  step. eapply wp_is; [done|]. step. eapply wp_is; [done|]. step.
  destruct (capture_all_ok subject (take (Z.to_nat result) ((a, b) :: ov'))) as (l & E1 & Hl); [done| |].
  { apply Forall_take. constructor; [by right|done]. }
  eapply wp_is; [unfold lift; by rewrite E1|]. step. eapply wp_is; [done|]. step. eapply wp_is; [done|]. step.
  apply HQ; [|done|done|].
  - destruct Hx as [Hx1 Hx2]. by split.
  - split_and!; (done || lia).
Qed.

(** A substitution that leaves the empty string as it is is refused when the buffer is
    extended. *)
Definition replacement_ok (p : bytes) (m : Z) (repl : bytes) : Prop := cstr repl <> [] \/ (forall s a b, finds p m s a b -> a < b).

Lemma stored_set al field v : Forall (fun f => stored (snd f)) al -> stored v -> Forall (fun f => stored (snd f)) (alist_set field v al).
Proof.
  intros Hal Hv. unfold alist_set. destruct (find_field _ _ _) as [[i [k w]]|].
  - by apply Forall_insert.
  - apply Forall_app. split; [done|]. by constructor.
Qed.

Lemma stored_string s : fits s -> stored (str_value s).
Proof. intros Hs. split; [by left|done]. Qed.

(** The field of the record of [x] is a string. *)
Definition string_field (field : bytes) (x : ectx) (s : bytes) : Prop :=
  exists al v, x_logdata x = Some al /\ alist_get field al = Some v /\ v_type v = NX_VALUE_TYPE_STRING /\ v_defined v = TRUE /\ v_data v = DString s.

Lemma alist_get_elem key al v : alist_get key al = Some v -> exists k, (k, v) ∈ al.
Proof.
  unfold alist_get. destruct (find_field _ _ _) as [[i [k w]]|] eqn:Ef; [|done]. intros [= <-].
  apply find_field_Some in Ef as (al1 & al2 & -> & _). exists k. set_solver.
Qed.

Lemma string_field_fits field x s : ctx_ok x -> string_field field x s -> fits s.
Proof.
  intros [Hx _] (al & v & El & Eg & Et & Ed & Es). apply alist_get_elem in Eg as (k & Hin).
  specialize (Hx al El). rewrite Forall_forall in Hx. destruct (Hx _ Hin) as [[[_ Hok]|Hu] _]; simpl in *; [|by rewrite Ed in Hu].
  by rewrite Et, Es in Hok.
Qed.

Lemma string_field_reads field x s : string_field field x s -> exists al, field_string field x = Ret (al, s) /\ x_logdata x = Some al.
Proof.
  intros (al & v & El & Eg & Et & Ed & Es). exists al. unfold field_string, has_type, defined. rewrite El, Eg. simpl.
  rewrite bool_decide_eq_true_2, Ed, Es by done. done.
Qed.

Lemma string_field_set field x al s : string_field field (with_logdata (Some (alist_set field (str_value s) al)) x) s.
Proof. eexists _, _. split_and!; [done|by rewrite alist_get_set, strcasecmp_refl|done..]. Qed.

(** The memory of the result during a substitution. *)
Definition flag (r : value) : Prop := v_type r = NX_VALUE_TYPE_BOOLEAN /\ v_defined r = TRUE /\ (v_data r = DBoolean TRUE \/ v_data r = DBoolean FALSE).

Lemma flag_matched r r' : flag r -> matched r r' -> flag r'.
Proof. intros (Et & Ed & Eb) (H1 & H2 & H3). unfold flag. rewrite H1, H2. split_and!; [done..|]. destruct H3 as [-> | ->]; auto. Qed.

Lemma flag_result x r : ctx_ok x -> flag r -> result true NX_VALUE_TYPE_BOOLEAN tt (x, r).
Proof. destruct r as [t d da]. intros Hx (Et & Ed & Eb). simpl in *. subst. destruct Eb as [-> | ->]; auto. Qed.

Lemma flag_thrown r0 x r : ctx_ok x -> flag r -> thrown r0 (x, r).
Proof. destruct r as [t d da]. intros Hx (Et & _). simpl in *. subst. auto. Qed.

Lemma with_string_ok x al field s : ctx_ok x -> x_logdata x = Some al -> fits s ->
  ctx_ok (with_logdata (Some (alist_set field (str_value s) al)) x).
Proof. intros [H1 H2] El Hs. split; [|done]. intros ? [= <-]. apply stored_set; auto using stored_string. Qed.

(** One replacement, and what remains when there is none. *)
Definition rewrites (p : bytes) (m : Z) (repl s s' : bytes) : Prop := exists a b, finds p m (cstr s) a b /\ s' = splice s a b repl.
Definition no_match (p : bytes) (m : Z) (s : bytes) : Prop := fst (pcre_exec p m (cstr s)) <= 0.

Lemma wp_substitute_once pattern m repl field (Q : bool -> ectx * value -> Prop) (T : ectx * value -> Prop) x r s :
  pattern_ok pattern m -> replacement_ok pattern m repl -> ctx_ok x -> string_field field x s -> flag r ->
  (forall x' r', ctx_ok x' -> string_field field x' s -> flag r' -> matched r r' -> no_match pattern m s -> Q false (x', r')) ->
  (forall x' r' s', ctx_ok x' -> string_field field x' s' -> flag r' -> v_data r' = DBoolean TRUE ->
     rewrites pattern m (cstr repl) s s' -> Q true (x', r')) ->
  (forall x' r' s', ctx_ok x' -> string_field field x' s -> flag r' -> rewrites pattern m (cstr repl) s s' ->
     string_limit < 2 * zlen s + zlen s' -> T (x', r')) ->
  wp (substitute_once pattern m (cstr repl) field) Q T (x, r).
Proof.
  intros Hp Hrep Hx Hf Hr HQf HQt HT. unfold substitute_once. step. eapply wp_is; [done|].
  destruct (string_field_reads _ _ _ Hf) as (al & Er & El). step. eapply wp_is; [unfold lift; by rewrite Er|]. cbn [fst snd].
  pose proof (string_field_fits _ _ _ Hx Hf) as Hs. step. apply wp_match_once; [done|by apply fits_cstr|done|].
  intros [[a b]|] x' r' Hx' El' Hm Hab; pose proof (flag_matched _ _ Hr Hm) as Hr';
    assert (string_field field x' s) as Hf' by (unfold string_field; by rewrite El').
  - destruct Hab as (Ha & Hb & Hfind & Hd). pose proof (cstr_length s). step.
    assert (0 < zlen s + (b - a) + zlen (cstr repl)).
    { destruct Hrep as [Hrep|Hrep]; [destruct (cstr repl); [done|rewrite length_cons; lia]|specialize (Hrep _ _ _ Hfind); lia]. }
    assert (zlen (splice s a b (cstr repl)) = zlen s - (b - a) + zlen (cstr repl)) as Hlen.
    { unfold splice. rewrite !length_app, length_take, length_drop. lia. }
    pose proof (substitute_tame s a b (cstr repl) Hs ltac:(lia) ltac:(lia) ltac:(lia)) as Htame.
    destruct (Z.leb_spec (zlen s + (b - a) + zlen (cstr repl)) string_limit).
    + rewrite substitute_splices in * by (done || lia). simpl in Htame. eapply wp_is; [done|].
      step. eapply wp_is; [done|]. step. eapply wp_is; [done|]. step.
      apply (HQt _ _ (splice s a b (cstr repl))); [apply with_string_ok; congruence|apply string_field_set|done..|by exists a, b].
    + apply (wp_lift (fun _ => False)); [|apply (HT _ _ (splice s a b (cstr repl))); [done..|by exists a, b|unfold fits in *; lia]|done].
      unfold substitute. rewrite (proj2 (Z.leb_le a b)) by lia. cbn [ASSERT mbind outcome_bind].
      unfold nx_string_ensure_size. rewrite (proj2 (Z.ltb_lt 0 _)) by lia. cbn [ASSERT mbind outcome_bind].
      unfold ensure_size, fits in *. simpl bufsize. case_test; [lia|]. by rewrite (proj2 (Z.ltb_lt _ _)).
  - step. by apply HQf.
Qed.

Lemma wp_substitute_loop pattern m repl field r0 fuel cnt x r s :
  pattern_ok pattern m -> replacement_ok pattern m repl -> ctx_ok x -> string_field field x s -> flag r ->
  Z.of_nat fuel + cnt = 10000 ->
  wp (substitute_loop fuel pattern m (cstr repl) field cnt) (result true NX_VALUE_TYPE_BOOLEAN) (thrown r0) (x, r).
Proof.
  intros Hp Hrep. revert cnt x r s. induction fuel as [|fuel IH]; intros cnt x r s Hx Hf Hr Hn; cbn [substitute_loop]; step;
    eapply wp_substitute_once; eauto using flag_thrown; try (intros; cbn [andb]; step; by apply flag_result);
    intros x' r' s' Hx' Hf' Hr' _ _; (destruct (_ && _); [|step; by apply flag_result]).
  - rewrite (proj2 (Z.ltb_lt _ _)) by lia. apply (wp_lift (fun _ => False)); [done|by apply flag_thrown|done].
  - case_test; [apply (wp_lift (fun _ => False)); [done|by apply flag_thrown|done]|]. apply (IH _ _ _ s'); auto. lia.
Qed.

(** A regexp literal, evaluated. *)
Definition regexp_value (p : bytes) (repl : option bytes) (m : Z) : value :=
  NxValue NX_VALUE_TYPE_REGEXP TRUE (DRegexp (regexp_addr p) p (Some (repl, m))).
Definition literal (v : value) (c : prog value) : Prop := forall x r, c (x, r) = ((x, r), Ret v).

(** Operands of [=~]: a left operand that is the field [lf] is read from the record. *)
Definition reads (lf : option bytes) (c : prog value) : Prop := forall x r x' r' v f s,
  c (x, r) = ((x', r'), Ret v) -> lf = Some f -> v_defined v = TRUE -> v_type v = NX_VALUE_TYPE_STRING -> v_data v = DString s ->
  exists s', string_field f x' s'.

Lemma wp_apply_regexp lf rt p repl m s r0 x r : pattern_ok p m -> fits s -> ctx_ok x -> v_type r = NX_VALUE_TYPE_BOOLEAN ->
  (forall rp, repl = Some rp -> replacement_ok p m rp /\ rt = NX_VALUE_TYPE_REGEXP /\ exists f s', lf = Some f /\ string_field f x s') ->
  wp (apply_regexp lf rt (p, repl, m) s) (result true NX_VALUE_TYPE_BOOLEAN) (thrown r0) (x, r).
Proof.
  intros Hp Hs Hx Et Hr. unfold apply_regexp.
  assert (flag (NxValue (v_type r) TRUE (DBoolean FALSE))) as Hflag by (split_and!; auto).
  destruct repl as [rp|].
  - destruct (Hr rp eq_refl) as (Hrp & -> & f & s' & -> & Hf). destruct (string_field_reads _ _ _ Hf) as (al & Er & _).
    do 3 (step; eapply wp_is; [done|]). step. eapply wp_is; [done|]. step. eapply wp_is; [unfold lift; by rewrite Er|].
    repeat step. by eapply wp_substitute_loop.
  - repeat step. apply wp_match_once; [done|by apply fits_cstr|done|]. intros p' x' r' Hx' _ Hm _. step.
    apply flag_result; [done|]. by eapply flag_matched.
Qed.

Lemma clear_ok x : ctx_ok x -> ctx_ok (clear_captured x).
Proof. intros [H1 _]. by split. Qed.

(** A regexp literal on the right. *)
Lemma regmatch_right lf p repl m nl tl left right : operand nl tl left -> reads lf left -> literal (regexp_value p repl m) right ->
  pattern_ok p m -> no_nul p -> zlen p < 2 ^ 31 ->
  (forall rp, repl = Some rp -> replacement_ok p m rp /\ lf <> None) ->
  computes true NX_VALUE_TYPE_BOOLEAN (_regmatch lf NX_VALUE_TYPE_REGEXP left right).
Proof.
  intros Hl Hreads Hr Hp Hn Hz Hrp x r Hx Hd. unfold _regmatch. do 2 step. step. eapply wp_is; [done|]. step. eapply wp_is; [done|].
  unfold both. step.
  assert (typed true NX_VALUE_TYPE_REGEXP (regexp_value p repl m)) as Hlit by (left; split_and!; [done|by split_and!|by right]).
  specialize (Hl (clear_captured x) (NxValue NX_VALUE_TYPE_BOOLEAN (v_defined r) (v_data r)) (clear_ok x Hx)).
  unfold wp at 1. unfold wp in Hl. destruct (left _) as [[x' r'] [v|e|e|e]] eqn:El; [|destruct Hl as [Er Hx']; simpl in Er, Hx'; subst r'; auto|done..].
  destruct Hl as (Er & Hx' & Hv). simpl in Er, Hx'. subst r'.
  step; [step; by apply result_undefined|]. step. eapply wp_is; [apply Hr|]. change (undefined (regexp_value p repl m)) with false. cbv iota.
  unfold has_type. cbn [v_type regexp_value]. rewrite (bool_decide_eq_false_2 (NX_VALUE_TYPE_REGEXP = NX_VALUE_TYPE_STRING)) by done.
  rewrite orb_false_r. case_bool_decide as Es.
  - destruct (v_data v) eqn:Ed; rewrite Es in *; try done.
    step. eapply wp_is; [done|]. step. eapply wp_is; [done|]. step. eapply wp_is; [done|]. step.
    eapply wp_mono; [apply wp_apply_regexp; [done|done|done|done|]| |done].
    + intros rp ->. destruct (Hrp rp eq_refl) as [Hok1 Hok2]. split_and!; [done|done|]. destruct lf as [f|]; [|done].
      destruct (Hreads _ _ _ _ _ f s El) as (s' & Hs'); [done| |done|done|by eauto]. unfold defined in *. tests. done.
    + intros [] s' Hs'. repeat step. done.
  - repeat step. apply wp_throw_types; [by eauto|done|auto].
Qed.

(** A regexp literal on the left, which has no replacement. *)
Lemma regmatch_left lf rt p m nr tr left right : operand nr tr right -> literal (regexp_value p None m) left ->
  pattern_ok p m -> no_nul p -> zlen p < 2 ^ 31 ->
  computes true NX_VALUE_TYPE_BOOLEAN (_regmatch lf rt left right).
Proof.
  intros Hr Hl Hp Hn Hz x r Hx Hd. unfold _regmatch. do 2 step. step. eapply wp_is; [done|]. step. eapply wp_is; [done|].
  unfold both. step. eapply wp_is; [apply Hl|]. change (undefined (regexp_value p None m)) with false. cbv iota.
  assert (typed true NX_VALUE_TYPE_REGEXP (regexp_value p None m)) as Hlit by (left; split_and!; [done|by split_and!|by right]).
  pose proof (clear_ok x Hx) as Hc. repeat step; [by apply result_undefined| |by rewrite Hd; auto].
  unfold has_type. cbn [v_type regexp_value]. rewrite (bool_decide_eq_false_2 (NX_VALUE_TYPE_REGEXP = NX_VALUE_TYPE_STRING)) by done.
  cbn [orb]. case_bool_decide as Es.
  - destruct (v_data v) eqn:Ed; rewrite Es in *; try done.
    step. eapply wp_is; [done|]. step. eapply wp_is; [done|]. step. eapply wp_is; [done|]. step.
    eapply wp_mono; [apply wp_apply_regexp; done| |done]. intros [] s' Hs'. repeat step. done.
  - repeat step. apply wp_throw_types; [done|by eauto|auto].
Qed.

Lemma notregmatch_computes lf rt left right : computes true NX_VALUE_TYPE_BOOLEAN (_regmatch lf rt left right) ->
  computes true NX_VALUE_TYPE_BOOLEAN (_notregmatch lf rt left right).
Proof.
  intros H x r Hx Hd. unfold _notregmatch. step. eapply wp_mono; [by apply H| |done]. intros [] [x' r'] [Hx' Hr'].
  simpl in *. step. eapply wp_is; [done|]. destruct (defined r') eqn:D; [|step; by split].
  destruct (typed_defined _ _ _ Hr') as (_ & Hok & [Et|Et]); [by rewrite (undefined_defined _ _ _ Hr'), D|done|].
  rewrite Et in Hok. destruct (v_data r') eqn:Ed; try done. step. eapply wp_is; [done|]. step.
  rewrite Et. unfold defined in D. tests. rewrite D. by apply result_boolean.
Qed.

(** *** Text of values *)

Context (ip6_tame : forall a, tame (fun _ => True) (ip6_to_string a)).

Lemma iso_tame t : tame (fun _ => True) (Date.nx_date_to_iso (malloc 20) 20 t).
Proof.
  unfold Date.nx_date_to_iso. simpl. destruct (apr_time_exp_lt t) as [e|]; [|done]. apply tame_fmap.
  unfold Date.snprintf. pose proof (malloc_length 20 ltac:(lia)).
  by rewrite (mem_write_at' _ _ [] (malloc 20)) by (rewrite ?length_app, ?length_take, ?length_cons, ?length_nil; auto; lia).
Qed.

Lemma to_string_tame v : v_defined v = TRUE -> data_ok fits (v_type v) (v_data v) ->
  tame (fun o => o <> None) (nx_value_to_string v).
Proof.
  intros Hd Hv. unfold nx_value_to_string. rewrite Hd. simpl. apply tame_fmap. apply (tame_mono (fun _ => True)); [|done].
  by_type v.
  - eapply tame_bind; [apply iso_tame|]. intros [b|] _; done.
  - destruct Hv as [<- _]. unfold nx_bin2ascii. by rewrite (mem_read_at value 0 _ [] value), Nat2Z.id, firstn_all by (simpl; auto; lia).
Qed.

Lemma operand_text_tame v : v_defined v = TRUE -> data_ok fits (v_type v) (v_data v) -> tame (fun _ => True) (operand_text v).
Proof.
  intros Hd Hv. unfold operand_text, has_type. case_bool_decide as Et.
  - rewrite Et in Hv. by destruct (v_data v).
  - eapply tame_bind; [by apply to_string_tame|]. by intros [].
Qed.

(** Concatenation of two defined values, one of them a string. *)
Lemma wp_concat nm t r0 nl tl nr tr v w x r : ctx_ok x -> typed nl tl v -> typed nr tr w -> v_data r = v_data r0 ->
  v_defined v = TRUE -> data_ok fits (v_type v) (v_data v) -> v_defined w = TRUE -> data_ok fits (v_type w) (v_data w) ->
  agrees t NX_VALUE_TYPE_STRING ->
  wp (_ ← set_defined TRUE; _ ← set_type NX_VALUE_TYPE_STRING; b ← lift (operand_text w); a ← lift (operand_text v);
      s ← lift (sprintf_ss a b); _ ← set_data (DString s); _ ← free_value v; free_value w)
    (result nm t) (thrown r0) (x, r).
Proof.
  intros Hx Hv Hw Hr Dv Hdv Dw Hdw Ht.
  assert (thrown r0 (x, NxValue NX_VALUE_TYPE_STRING TRUE (v_data r))) as HT.
  { split; [done|]. intros HZ. simpl. by rewrite Hr, HZ. }
  repeat step. apply (wp_lift (fun _ => True)); [by apply operand_text_tame|done|]. intros b _.
  step. apply (wp_lift (fun _ => True)); [by apply operand_text_tame|done|]. intros a _.
  step. apply (wp_lift fits); [apply sprintf_ss_tame|done|]. intros s Hs. repeat step.
  split; [done|]. left. done.
Qed.

Lemma wp_copy_string nm t r0 n' t' v x r : ctx_ok x -> v_defined r = FALSE -> typed n' t' v ->
  data_ok fits (v_type v) (v_data v) -> v_type v = NX_VALUE_TYPE_STRING -> agrees t NX_VALUE_TYPE_STRING ->
  wp (s ← lift (as_string (v_data v)); _ ← nx_value_init_string (cstr s); free_value v) (result nm t) (thrown r0) (x, r).
Proof.
  intros Hx Hd Hv Hok Es Ht. rewrite Es in Hok. destruct (v_data v); try done. step.
  apply (wp_lift (eq s)); [done|by apply thrown_same|]. intros ? <-. step.
  eapply wp_mono; [by apply wp_init_string| |done]. intros [] s' Hs'. by step.
Qed.

Lemma plus_string_l tl tr t : plus_type tl tr = Some t -> agrees tl NX_VALUE_TYPE_STRING -> agrees t NX_VALUE_TYPE_STRING.
Proof. intros Ht [->|<-]; destruct tr; injection Ht as <-; (by left) || by right. Qed.
Lemma plus_string_r tl tr t : plus_type tl tr = Some t -> agrees tr NX_VALUE_TYPE_STRING -> agrees t NX_VALUE_TYPE_STRING.
Proof. intros Ht [->|<-]; destruct tl; injection Ht as <-; (by left) || by right. Qed.

(** A defined string and an undefined value, in either order. *)
Lemma wp_plus_undefined nl tl nr tr t r0 v w x r : typed nl tl v -> typed nr tr w -> plus_type tl tr = Some t ->
  ctx_ok x -> v_defined r = FALSE -> undefined v || undefined w = true ->
  wp (if defined v && undefined w && has_type NX_VALUE_TYPE_STRING v then
        s ← lift (as_string (v_data v)); _ ← nx_value_init_string (cstr s); free_value v
      else if defined w && undefined v && has_type NX_VALUE_TYPE_STRING w then
        s ← lift (as_string (v_data w)); _ ← nx_value_init_string (cstr s); free_value w
      else _ ← set_defined FALSE; _ ← set_type NX_VALUE_TYPE_UNKNOWN; _ ← free_value w; free_value v)
    (result true t) (thrown r0) (x, r).
Proof.
  intros Hv Hw Ht Hx Hd Hu. unfold has_type. rewrite (undefined_defined v _ _ Hv), (undefined_defined w _ _ Hw) in *.
  destruct (defined v) eqn:Dv, (defined w) eqn:Dw; try done; cbn [negb andb].
  - destruct (typed_defined _ _ _ Hv) as (_ & Hok & Ha); [by rewrite (undefined_defined v _ _ Hv), Dv|].
    case_bool_decide as Es; [|repeat step; by apply result_undefined].
    eapply wp_copy_string; [done..|]. eapply plus_string_l; [done|]. by rewrite <- Es.
  - destruct (typed_defined _ _ _ Hw) as (_ & Hok & Ha); [by rewrite (undefined_defined w _ _ Hw), Dw|].
    case_bool_decide as Es; [|repeat step; by apply result_undefined].
    eapply wp_copy_string; [done..|]. eapply plus_string_r; [done|]. by rewrite <- Es.
  - repeat step. by apply result_undefined.
Qed.

Lemma plus_computes nl tl nr tr t left right : operand nl tl left -> operand nr tr right ->
  plus_type tl tr = Some t -> computes true t (_plus left right).
Proof.
  intros Hl Hr Ht x r Hx Hd. unfold _plus. repeat step; auto using thrown_same. rename v0 into w, H0 into Hv, H2 into Hw, x'0 into x'', H1 into Hx''.
  destruct (undefined v || undefined w) eqn:Eu; [by eapply wp_plus_undefined|]. tests.
  destruct (typed_defined _ _ _ Hv) as (Dv & Hdv & Etl); [done|]. destruct (typed_defined _ _ _ Hw) as (Dw & Hdw & Etr); [done|].
  unfold defined in *. tests. unfold has_type. case_bool_decide as Ev; cbn [orb].
  { eapply wp_concat; [done..|]. eapply plus_string_l; [done|]. by rewrite <- Ev. }
  case_bool_decide as Ew.
  { eapply wp_concat; [done..|]. eapply plus_string_r; [done|]. by rewrite <- Ew. }
  pose proof (wp_refused v w "invalid operation: %s + %s" (result true t) r _ _ _ _ x'' r Hv Hw Hdv Hdw Hx'' Hd) as [Hbad _].
  pose proof (fun c => agrees_of plus_type tl tr t v w c plus_monotone Ht Etl Etr) as Hc.
  arithmetic_case v w.
  - apply wp_set_integer; auto using tame_long.
  - apply wp_set_datetime; auto using add_seconds_tame. left.
    destruct Etl as [->|<-], Etr as [->|<-]; simpl in Ht; congruence.
  - apply wp_set_datetime; auto using add_seconds_tame.
Qed.

(** *** Leaves, lists and functions *)

Lemma clone_typed nm v : value_ok fits v -> (nm = true -> named (v_type v)) -> tame (typed nm (v_type v)) (Value.nx_value_clone v).
Proof.
  intros [[Hd Hok]|Hd] Hn; unfold Value.nx_value_clone; rewrite Hd; cbn; [|by right].
  assert (forall d, data_ok fits (v_type v) d -> typed nm (v_type v) (NxValue (v_type v) TRUE d)) as Hres.
  { intros d Hd'. left. split_and!; [done..|by right]. }
  destruct (decide (v_type v = NX_VALUE_TYPE_STRING)) as [Es|Es].
  - rewrite Es in *. destruct (v_data v) eqn:Ed; try done. cbn. unfold fits in Hok. simpl in Hok.
    destruct (decide (zlen s < string_limit)) as [Hl|Hl].
    + destruct (nx_string_clone_rep (exact s) s) as (c & -> & Hc); [apply exact_rep; unfold string_limit in *; lia|done|].
      cbn. apply Hres. cbn. rewrite (str_rep_content _ _ Hc). done.
    + unfold nx_string_clone. simpl len. rewrite (proj2 (Z.ltb_ge _ _)) by lia. unfold nx_string_new_size.
      assert (u32 (zlen s + 1) = zlen s + 1) as -> by (apply Z.mod_small; unfold string_limit in *; lia).
      case_test; [lia|]. by rewrite (proj2 (Z.ltb_lt _ _)) by lia.
  - destruct (decide (v_type v = NX_VALUE_TYPE_REGEXP)) as [Er|Er].
    + unfold clone_plain. rewrite Er in *. destruct (v_data v) as [| | | | |addr p0 [m|]| | | |] eqn:Ed; try done; [|by destruct Hok as (_ & _ & [])].
      cbn. apply Hres. by destruct Hok as (H1 & H2 & _).
    + rewrite (clone_plain_ok fits v) by done. destruct (v_type v) eqn:Et; try done; apply Hres; done.
Qed.

Lemma value_eq_tame nm t v w : v_defined v = TRUE -> data_ok fits (v_type v) (v_data v) -> typed nm t w ->
  tame (fun _ => True) (nx_value_eq v w).
Proof.
  intros Hd Hok Hw. unfold nx_value_eq. case_test; [done|]. rewrite Hd. case_test; [done|].
  destruct Hw as [(Hdw & Hokw & _)|[Hdw _]]; [|by rewrite Hdw in *].
  pose proof (data_ok_named _ _ _ Hok). pose proof (data_ok_named _ _ _ Hokw).
  assert (v_type v = v_type w) as Et by (by apply same_type_eq; [..|by apply Z.eqb_eq]).
  by_type v; by_type w. case_test; [done|]. destruct Hok as [<- Hok], Hokw as [<- Hokw].
  rewrite (mem_read_at value 0 _ [] value) by (simpl; auto; lia). cbn [mbind outcome_bind].
  by rewrite (mem_read_at value0 0 _ [] value0) by (simpl; auto; lia).
Qed.

(** An array of results; the memory of the failing one was cleared. *)
Definition killable (vs : list value) : Prop := Forall (fun v => kill v = Ret tt) vs.

Lemma kill_all_ok vs : killable vs -> kill_all vs = Ret tt.
Proof. induction 1 as [|v vs Hv _ IH]; simpl; [done|]. by rewrite Hv. Qed.

Lemma wp_eval_next nm t c (Q : value -> ectx * list value -> Prop) (T : ectx * list value -> Prop) x vs : computes nm t c -> ctx_ok x ->
  (forall v x', ctx_ok x' -> typed nm t v -> Q v (x', vs ++ [v])) ->
  (forall v x', ctx_ok x' -> kill v = Ret tt -> T (x', vs ++ [v])) ->
  wp (eval_next c) Q T (x, vs).
Proof.
  intros Hc Hx HQ HT. specialize (Hc x zero_value Hx eq_refl). unfold wp, eval_next in *.
  destruct (c (x, zero_value)) as [[x' r] [u|e|e|e]]; simpl in *; [..|done|done].
  - destruct Hc as [H1 H2]. by apply HQ.
  - destruct Hc as [H1 H2]. by apply HT, H2.
Qed.

Definition typed_by (a : bool * nx_value_type) (v : value) : Prop := typed (fst a) (snd a) v.
Definition computes_by (a : bool * nx_value_type) (c : prog unit) : Prop := computes (fst a) (snd a) c.

Lemma typed_killable ts vs : Forall2 typed_by ts vs -> killable vs.
Proof. induction 1; constructor; [by eapply typed_kill|done]. Qed.

Lemma wp_eval_all ts cs done_ts x vs : Forall2 computes_by ts cs -> ctx_ok x -> Forall2 typed_by done_ts vs ->
  wp (eval_all cs) (fun _ s => ctx_ok (fst s) /\ Forall2 typed_by (done_ts ++ ts) (snd s)) (fun s => ctx_ok (fst s) /\ killable (snd s)) (x, vs).
Proof.
  intros Hcs. revert done_ts x vs. induction Hcs as [|t c ts cs Hc _ IH]; intros done_ts x vs Hx Hvs; cbn [eval_all].
  - step. by rewrite app_nil_r.
  - step. eapply wp_eval_next; [exact Hc|done|..].
    + intros v x' Hx' Hv. rewrite (cons_middle t done_ts ts), app_assoc. apply IH; [done|].
      apply Forall2_app; [done|by constructor].
    + intros v x' Hx' Hv. split; [done|]. apply Forall_app. split; [by eapply typed_killable|by constructor].
Qed.

Lemma wp_in_loop v ts cs done_ts x vs : v_defined v = TRUE -> data_ok fits (v_type v) (v_data v) ->
  Forall2 computes_by ts cs -> ctx_ok x -> Forall2 typed_by done_ts vs ->
  wp (in_loop v cs) (fun _ s => ctx_ok (fst s) /\ killable (snd s)) (fun s => ctx_ok (fst s) /\ killable (snd s)) (x, vs).
Proof.
  intros Hd Hok Hcs. revert done_ts x vs. induction Hcs as [|t c ts cs Hc _ IH]; intros done_ts x vs Hx Hvs; cbn [in_loop].
  - step. split; [done|by eapply typed_killable].
  - step. eapply wp_eval_next; [exact Hc|done|..].
    + intros w x' Hx' Hw. assert (Forall2 typed_by (done_ts ++ [t]) (vs ++ [w])) as Hvs' by (apply Forall2_app; [done|by constructor]).
      step. apply (wp_lift (fun _ => True)); [by eapply value_eq_tame| |].
      * split; [done|by eapply typed_killable].
      * intros [] _; [step; split; [done|by eapply typed_killable]|by eapply IH].
    + intros w x' Hx' Hw. split; [done|]. apply Forall_app. split; [by eapply typed_killable|by constructor].
Qed.

Lemma inop_computes nm t c ts cs : operand nm t c -> Forall2 computes_by ts cs -> computes true NX_VALUE_TYPE_BOOLEAN (_inop c cs).
Proof.
  intros Hc Hcs x r Hx Hd. unfold _inop. repeat step; auto; [by apply result_undefined|].
  unfold defined in *. tests. pose proof (wp_in_loop v ts cs [] x' [] ltac:(done) ltac:(done) Hcs ltac:(done) ltac:(constructor)) as Hloop.
  unfold wp in Hloop |- *. destruct (in_loop v cs (x', [])) as [[x1 vs] o]. destruct o as [b|e|e|e]; [..|done|done].
  - destruct Hloop as [Hx1 Hvs]. simpl in *.
    assert ((_ ← kill_all vs; kill v) = Ret tt) as Hk by (rewrite (kill_all_ok _ Hvs); cbn; by eapply typed_kill).
    destruct b; cbn; rewrite Hk; apply result_boolean_data; auto.
  - destruct Hloop as [Hx1 Hvs]. unfold try_kill. rewrite kill_all_ok; [cbn; auto|].
    apply Forall_app. split; [done|]. constructor; [by eapply typed_kill|done].
Qed.

Lemma func_computes cb ret ts cs : Forall2 computes_by ts cs ->
  (forall vs, Forall2 typed_by ts vs -> computes true ret (cb vs)) -> computes true ret (nx_expr_eval_func cb (Some cs)).
Proof.
  intros Hcs Hcb x r Hx Hd. unfold nx_expr_eval_func.
  pose proof (wp_eval_all ts cs [] x [] Hcs Hx ltac:(constructor)) as Hall. unfold wp in Hall |- *.
  destruct (eval_all cs (x, [])) as [[x1 vs] o]. destruct o as [u|e|e|e]; [..|done|done]; destruct Hall as [Hx1 Hvs]; simpl in *.
  - pose proof (typed_killable _ _ Hvs) as Hk. specialize (Hcb vs Hvs x1 r Hx1 Hd). unfold wp in Hcb.
    destruct (cb vs (x1, r)) as [[x2 r2] [u2|e|e|e]]; cbn; rewrite ?(kill_all_ok _ Hk); done.
  - rewrite (kill_all_ok _ Hvs). cbn. by apply thrown_same.
Qed.

Lemma field_typed field al nm : Forall (fun f => stored (snd f)) al ->
  tame (typed nm NX_VALUE_TYPE_UNKNOWN) (Value.nx_value_clone (field_value field al)).
Proof.
  intros Hal. assert (stored (field_value field al)) as [Hv Hn].
  { unfold field_value. destruct (alist_get field al) as [v|] eqn:Eg; simpl; [|by split; [right|]].
    apply alist_get_elem in Eg as (k & Hin). rewrite Forall_forall in Hal. apply (Hal _ Hin). }
  eapply tame_mono; [by apply (clone_typed nm)|]. intros w [(H1 & H2 & _)|Hw]; [left; auto|by right].
Qed.

(** ** Well-typed expressions

    What the constructors check, and more: no unary minus; a regexp literal as an operand
    of every match, with a replacement only if the left operand is a field; operands of
    [or] that set the type of an undefined result. *)

(** Whether an undefined value has a type: the memory of the result of these operators is
    not written if an operand is undefined. *)
Definition naming (e : expr) : bool :=
  match e with EBinop (MINUS | MUL | DIV | MOD) _ _ => false | _ => true end.

Definition literal_of (e : expr) : option (bytes * option bytes * Z) :=
  match e with
  | EValue v =>
      if has_type NX_VALUE_TYPE_REGEXP v && defined v
      then match v_data v with DRegexp _ p (Some (repl, m)) => Some (p, repl, m) | _ => None end else None
  | _ => None
  end.

Definition match_ok (l r : expr) : Prop :=
  match literal_of r, literal_of l with
  | Some (p, Some rp, m), _ => pattern_ok p m /\ replacement_ok p m rp /\ field_of l <> None
  | Some (p, None, m), _ => pattern_ok p m
  | None, Some (p, None, m) => pattern_ok p m
  | None, _ => False
  end.

(** A function computes a value of its declared type from well-formed arguments. *)
Definition callback_ok (cb : list value -> prog unit) (ret : nx_value_type) (args : list expr) : Prop :=
  forall vs, Forall2 typed_by (map (fun a => (naming a, rettype a)) args) vs -> computes true ret (cb vs).

Fixpoint well_typed (e : expr) : Prop :=
  match e with
  | EValue v => stored v
  | EField _ => True
  | ECaptured n => 0 <= n
  | EUnop o op => o <> NEG /\ well_typed op
  | EBinop o l r => well_typed l /\ well_typed r /\ is_Some (binop_type o (rettype l) (rettype r)) /\
      match o with REGMATCH | NOTREGMATCH => match_ok l r | OR => naming l = true /\ naming r = true | _ => True end
  | EInop e es => well_typed e /\ foldr (fun e P => well_typed e /\ P) True es
  | EFunction cb ret args =>
      match args with None => True | Some es => foldr (fun e P => well_typed e /\ P) True es end /\ callback_ok cb ret (default [] args)
  end.

Section induction.
Context (P : expr -> Prop).
Context (HV : forall v, P (EValue v)) (HF : forall f, P (EField f)) (HC : forall n, P (ECaptured n))
  (HU : forall o op, P op -> P (EUnop o op)) (HB : forall o l r, P l -> P r -> P (EBinop o l r))
  (HI : forall e es, P e -> Forall P es -> P (EInop e es))
  (HFn : forall cb ret args, Forall P (default [] args) -> P (EFunction cb ret args)).

Fixpoint expr_nested_ind (e : expr) : P e :=
  let all := fix all (es : list expr) : Forall P es :=
    match es with [] => @List.Forall_nil _ P | e :: es => @List.Forall_cons _ P e es (expr_nested_ind e) (all es) end in
  match e with
  | EValue v => HV v
  | EField f => HF f
  | ECaptured n => HC n
  | EUnop o op => HU o op (expr_nested_ind op)
  | EBinop o l r => HB o l r (expr_nested_ind l) (expr_nested_ind r)
  | EInop e es => HI e es (expr_nested_ind e) (all es)
  | EFunction cb ret (Some es) => HFn cb ret (Some es) (all es)
  | EFunction cb ret None => HFn cb ret None (@List.Forall_nil _ P)
  end.
End induction.

(** The first statement of [nx_expr_evaluate]. *)
Lemma evaluate_clears (e : expr) x r : nx_expr_evaluate e (x, r) = nx_expr_evaluate e (x, NxValue (v_type r) FALSE (v_data r)).
Proof. by destruct e. Qed.

Definition sound (e : expr) : Prop := computes (naming e) (rettype e) (nx_expr_evaluate e).

Lemma sound_operand e : sound e -> operand (naming e) (rettype e) (into fresh_value (nx_expr_evaluate e)).
Proof. intros H. apply into_operand; [|done]. right. apply evaluate_clears. Qed.

Lemma value_sound v : stored v -> sound (EValue v).
Proof.
  intros [Hv Hn] x r Hx Hd. cbn [nx_expr_evaluate]. repeat step.
  apply (wp_lift (typed true (v_type v))); [by apply clone_typed|by apply thrown_same|]. intros w Hw. by apply (wp_is _ tt (x, w)).
Qed.

Lemma field_sound f : sound (EField f).
Proof.
  intros x r Hx Hd. cbn [nx_expr_evaluate]. repeat step. eapply wp_is; [done|]. destruct (x_logdata x) as [al|] eqn:El.
  - step. apply (wp_lift (typed true NX_VALUE_TYPE_UNKNOWN)); [apply field_typed; by apply Hx|by apply thrown_same|].
    intros w Hw. by apply (wp_is _ tt (x, w)).
  - apply (wp_lift (fun _ => False)); [done|by apply thrown_same|done].
Qed.

Lemma captured_sound n : 0 <= n -> sound (ECaptured n).
Proof.
  intros Hn x r Hx Hd. cbn [nx_expr_evaluate]. repeat step. rewrite (proj2 (Z.leb_le 0 n)) by lia. eapply wp_is; [done|].
  step. eapply wp_is; [done|]. case_test; [repeat step; by apply result_undefined|]. repeat step.
  destruct (lookup_lt_is_Some_2 (x_captured x) (Z.to_nat n)) as [c Ec]; [lia|]. rewrite Ec. eapply wp_is; [done|]. step.
  assert (fits c) as Hc by (destruct Hx as [_ H]; rewrite Forall_forall in H; apply H; by eapply list_elem_of_lookup_2).
  pose proof (clone_typed true (str_value c) ltac:(by left) ltac:(done)) as Ht. unfold Value.nx_value_clone in Ht. cbn in Ht.
  apply (wp_lift (fun s => fits (content s))).
  - destruct (nx_string_clone (exact c)) as [s|e|e|e]; simpl in *; try done.
    destruct Ht as [(_ & H & _)|[H _]]; [done|discriminate H].
  - split; [done|]. intros HZ. cbn. by rewrite HZ.
  - intros s Hs. step. split; [done|]. left. split_and!; [done..|by right].
Qed.

(** *** Matches *)

Lemma literal_of_inv (e : expr) p repl m : literal_of e = Some (p, repl, m) ->
  exists addr, e = EValue (NxValue NX_VALUE_TYPE_REGEXP TRUE (DRegexp addr p (Some (repl, m)))).
Proof.
  destruct e as [[t d da]| | | | | |]; try done. cbn. unfold has_type, defined. cbn.
  destruct (_ && _) eqn:Eb; [|done]. tests. subst t d. destruct da as [| | | | |addr ? [[? ?]|]| | | |]; try done.
  intros [= -> -> ->]. by exists addr.
Qed.

Lemma match_ok_cases (l r : expr) : match_ok l r ->
  (exists addr p repl m, r = EValue (NxValue NX_VALUE_TYPE_REGEXP TRUE (DRegexp addr p (Some (repl, m)))) /\ pattern_ok p m /\
     (forall rp, repl = Some rp -> replacement_ok p m rp /\ field_of l <> None)) \/
  (exists addr p m, l = EValue (NxValue NX_VALUE_TYPE_REGEXP TRUE (DRegexp addr p (Some (None, m)))) /\ pattern_ok p m).
Proof.
  unfold match_ok. destruct (literal_of r) as [[[p repl] m]|] eqn:Er.
  - apply literal_of_inv in Er as [addr ->]. intros H. left. exists addr, p, repl, m. split; [done|].
    destruct repl as [rp|]; [|done]. destruct H as (H1 & H2 & H3). split; [done|]. by intros ? [= <-].
  - destruct (literal_of l) as [[[p [rp|]] m]|] eqn:El; try done. apply literal_of_inv in El as [addr ->]. intros H. right. by eexists _, _, _.
Qed.

Lemma regexp_literal addr p repl m : literal (regexp_value p repl m)
  (into fresh_value (nx_expr_evaluate (EValue (NxValue NX_VALUE_TYPE_REGEXP TRUE (DRegexp addr p (Some (repl, m))))))).
Proof. by intros x r. Qed.

Lemma stored_pattern t d addr p more : stored (NxValue t d (DRegexp addr p more)) -> d = TRUE -> t = NX_VALUE_TYPE_REGEXP -> no_nul p /\ zlen p < 2 ^ 31.
Proof. intros [[[_ H]|H] _] -> ->; [|discriminate H]. by destruct H as (? & ? & _). Qed.

Lemma clone_string_inv v w : Value.nx_value_clone v = Ret w -> v_defined w = TRUE -> v_type w = NX_VALUE_TYPE_STRING ->
  v_defined v = TRUE /\ v_type v = NX_VALUE_TYPE_STRING /\ exists s, v_data v = DString s.
Proof.
  intros Hw Hd Ht. unfold Value.nx_value_clone in Hw. inv_ret. subst w. simpl in *. rewrite Hd, Ht in *. cbn in *.
  inv_ret. split_and!; [done..|]. destruct (v_data v); try done. by eexists.
Qed.

Lemma field_reads (e : expr) : reads (field_of e) (into fresh_value (nx_expr_evaluate e)).
Proof.
  intros x r x' r' v f s He Hf Hd Ht Hs. destruct e; try discriminate Hf. injection Hf as ->.
  cbv beta iota zeta delta [into nx_expr_evaluate mbind cmd_bind set_defined get_ctx] in He. destruct (x_logdata x) as [al|] eqn:El; [|done].
  assert (exists w, Value.nx_value_clone (field_value f al) = Ret w /\ x' = x /\ v = w) as (w & Hw & -> & ->).
  { unfold lift, set_value in He. destruct (Value.nx_value_clone (field_value f al)) as [w|e|e|e]; try done.
    injection He as <- <- <-. eauto. }
  destruct (clone_string_inv _ _ Hw Hd Ht) as (H1 & H2 & s' & H3). exists s', al.
  unfold field_value in *. destruct (alist_get f al) as [w'|]; simpl in *; [|discriminate H1]. by exists w'.
Qed.

Lemma regmatch_sound (l r : expr) : well_typed l -> well_typed r -> sound l -> sound r -> match_ok l r ->
  computes true NX_VALUE_TYPE_BOOLEAN (_regmatch (field_of l) (rettype r)
    (into fresh_value (nx_expr_evaluate l)) (into fresh_value (nx_expr_evaluate r))).
Proof.
  intros Wl Wr Hl Hr Hm. destruct (match_ok_cases l r Hm) as [(addr & p & repl & m & -> & Hp & Hrp)|(addr & p & m & -> & Hp)].
  - destruct (stored_pattern _ _ _ _ _ Wr eq_refl eq_refl) as [Hn Hz].
    eapply (regmatch_right _ p repl m); [by apply sound_operand|apply field_reads|apply regexp_literal|done..].
  - destruct (stored_pattern _ _ _ _ _ Wl eq_refl eq_refl) as [Hn Hz].
    eapply (regmatch_left _ _ p m); [by apply sound_operand|apply regexp_literal|done..].
Qed.

Lemma binop_sound o (l r : expr) : well_typed (EBinop o l r) -> sound l -> sound r -> sound (EBinop o l r).
Proof.
  intros (Wl & Wr & [t Ht] & Hm) Hl Hr. pose proof (sound_operand l Hl) as Ol. pose proof (sound_operand r Hr) as Or.
  assert (computes (naming (EBinop o l r)) t (binop_cb o (field_of l) (rettype r) (into fresh_value (nx_expr_evaluate l)) (into fresh_value (nx_expr_evaluate r)))) as H.
  { assert (match o with PLUS | MINUS | MUL | DIV | MOD => True | _ => t = NX_VALUE_TYPE_BOOLEAN end) as Hb.
    { destruct o; try done; simpl in Ht; unfold boolean_type in Ht; destruct (_ || _) in Ht; congruence. }
    destruct o; simpl in Ht, Hm; try subst t.
    - by apply regmatch_sound.
    - by apply notregmatch_computes, regmatch_sound.
    - by eapply equality_computes.
    - by eapply equality_computes.
    - by eapply ordering_computes.
    - by eapply ordering_computes.
    - by eapply ordering_computes.
    - by eapply ordering_computes.
    - by eapply and_computes.
    - destruct Hm as [Nl Nr]. rewrite Nl in Ol. rewrite Nr in Or. by eapply or_computes.
    - by eapply plus_computes.
    - by eapply minus_computes.
    - eapply arith_computes; [done..| |done]. auto using tame_long.
    - eapply arith_computes; [done..| |done]. auto using quotient_tame.
    - eapply arith_computes; [done..| |done]. auto using remainder_tame. }
  intros x r0 Hx Hd. cbn [nx_expr_evaluate rettype]. rewrite Ht. step. step. by apply (H x (NxValue (v_type r0) FALSE (v_data r0))).
Qed.

Lemma all_sound (es : list expr) : Forall (fun e => well_typed e -> sound e) es -> foldr (fun e P => well_typed e /\ P) True es ->
  Forall2 computes_by (map (fun a => (naming a, rettype a)) es) (map (fun e => nx_expr_evaluate e) es).
Proof. induction 1 as [|e es He _ IH]; simpl; [constructor|]. intros [H1 H2]. constructor; [by apply He|by apply IH]. Qed.

Lemma evaluate_sound (e : expr) : well_typed e -> sound e.
Proof.
  induction e as [v|f|n|o op IH|o l r IHl IHr|e es IHe IHes|cb ret args IH] using expr_nested_ind; intros Hw.
  - by apply value_sound.
  - apply field_sound.
  - by apply captured_sound.
  - destruct Hw as [Ho Hop]. intros x r Hx Hd. cbn [nx_expr_evaluate rettype naming]. do 2 step. set (r' := NxValue (v_type r) FALSE (v_data r)).
    pose proof (sound_operand op (IH Hop)) as O. destruct o; [done|..]; [exact (not_computes _ _ _ O x r' Hx eq_refl)|exact (defined_computes _ _ _ O x r' Hx eq_refl)].
  - pose proof Hw as (Wl & Wr & _). apply binop_sound; auto.
  - destruct Hw as [H1 H2]. intros x r Hx Hd. cbn [nx_expr_evaluate rettype naming]. do 2 step. set (r' := NxValue (v_type r) FALSE (v_data r)).
    exact (inop_computes _ _ _ _ _ (sound_operand e (IHe H1)) (all_sound es IHes H2) x r' Hx eq_refl).
  - destruct Hw as [H1 H2]. intros x r Hx Hd. cbn [nx_expr_evaluate rettype naming]. do 2 step. set (r' := NxValue (v_type r) FALSE (v_data r)). destruct args as [es|]; simpl in *.
    + exact (func_computes _ _ _ _ (all_sound es IH H1) H2 x r' Hx eq_refl).
    + exact (H2 [] ltac:(constructor) x r' Hx eq_refl).
Qed.

End sound.

(** ** Properties *)

(** C13: the value of a well-typed expression is undefined or a well-formed value of the
    static type, if that is known; the evaluation keeps the record and the captured strings
    well-formed, throws at most, and performs no undefined operation but integer overflow
    and division by zero. *)
Theorem expr_type_sound `{M : Malloc} `{E : ValueEnv} {PC : Pcre} {ST : Stale} {X : Type} {PL : PcreLaws PC}
    (ip6_tame : forall a, tame (fun _ => True) (ip6_to_string a)) (e : @expr X) x r :
  well_typed e -> ctx_ok x ->
  match nx_expr_evaluate e (x, r) with
  | ((x', v), Ret _) => ctx_ok x' /\ typed (naming e) (rettype e) v
  | ((x', _), Throw _) => ctx_ok x'
  | (_, Panic _) => False
  | (_, Undef m) => arithmetic m
  end.
Proof.
  intros Hw Hx. pose proof (evaluate_sound ip6_tame e Hw x (NxValue (v_type r) FALSE (v_data r)) Hx eq_refl) as H.
  rewrite evaluate_clears. unfold wp in H. destruct (nx_expr_evaluate e _) as [[x' v] [u|m|m|m]]; try done. by destruct H.
Qed.

(** PCRE for patterns without special characters: the first occurrence of the pattern. *)
Fixpoint find_from (i : Z) (p s : bytes) : option Z :=
  if bool_decide (take (length p) s = p) then Some i
  else match s with [] => None | _ :: s => find_from (i + 1) p s end.

Definition plain_pcre : Pcre := {|
  pcre_compiles _ _ := true;
  pcre_captures _ _ := 0;
  pcre_exec p _ s := match find_from 0 p s with Some i => (1, [(i, i + zlen p)]) | None => (-1, []) end
|}.

Lemma find_from_bounds i p s k : find_from i p s = Some k -> i <= k /\ k + zlen p <= i + zlen s.
Proof.
  revert i. induction s as [|c s IH]; intros i; cbn [find_from]; case_bool_decide as Ep; try done.
  - intros [= <-]. rewrite <- Ep, length_take. simpl. lia.
  - intros [= <-]. rewrite <- Ep at 1. rewrite length_take. lia.
  - intros H%IH. rewrite length_cons. lia.
Qed.

#[export] Instance plain_pcre_laws : PcreLaws plain_pcre.
Proof.
  split; intros p m s _; cbn; destruct (find_from 0 p s) as [k|] eqn:Ek; cbn; try lia; try set_solver.
  apply find_from_bounds in Ek. intros _. eexists _, _, _. split_and!; [done|lia..|constructor].
Qed.

Definition plain_stale : Stale := {| stale_type := NX_VALUE_TYPE_OTHER 77; stale_defined := 0 |}.

(** Literals for the examples. *)
Definition e_str {X} (s : string) : @expr X := EValue (str_value (lit s)).
Definition e_int {X} (z : Z) : @expr X := EValue (nx_value_new_integer z).
Definition e_regexp {X} (p : string) (repl : option string) (m : Z) : @expr X :=
  EValue (NxValue NX_VALUE_TYPE_REGEXP TRUE (DRegexp 0 (lit p) (Some (option_map lit repl, m)))).
Definition e_field {X} (f : string) : @expr X := EField (lit f).

(** [$Message =~ s/cat/dog/ and $Count + 1 < 10] on a record. *)
Definition example_expr : @expr unit :=
  EBinop AND (EBinop REGMATCH (e_field "Message") (e_regexp "cat" (Some "dog") 0))
    (EBinop LESS (EBinop PLUS (e_field "Count") (e_int 1)) (e_int 10)).
Definition example_ctx : @ectx unit :=
  Ectx (Some [(lit "Message", str_value (lit "a cat")); (lit "Count", nx_value_new_integer 3)]) [] false tt.

Lemma expr_type_sound_witness :
  let '((x, v), o) := nx_expr_evaluate (M := poison_malloc) (E := plain_env) (PC := plain_pcre) (ST := plain_stale) example_expr (example_ctx, zero_value) in
  o = Ret tt /\ ctx_ok x /\ typed true NX_VALUE_TYPE_BOOLEAN v /\
  v = NxValue NX_VALUE_TYPE_BOOLEAN TRUE (DBoolean TRUE) /\
  x_logdata x = Some [(lit "Message", str_value (lit "a dog")); (lit "Count", nx_value_new_integer 3)].
Proof.
  assert (well_typed (PC := plain_pcre) example_expr) as Hw.
  { cbn. split_and!; try done; try (by eexists); try (by split; [left|]).
    - split; [left|done]. split; [done|]. split_and!; [apply (bool_decide_unpack (no_nul (lit "cat"))); vm_compute; exact I|done|done].
    - change (pattern_ok (PC := plain_pcre) (lit "cat") 0 /\ replacement_ok (PC := plain_pcre) (lit "cat") 0 (lit "dog") /\ Some (lit "Message") <> None).
      split_and!; [by split|by left|done]. }
  assert (ctx_ok example_ctx) as Hx.
  { split; [|constructor]. intros al [= <-]. repeat (apply List.Forall_cons; [by split; [left|]|]). constructor. }
  pose proof (expr_type_sound (M := poison_malloc) (E := plain_env) (PC := plain_pcre) (ST := plain_stale)
    ltac:(done) example_expr example_ctx zero_value Hw Hx) as H.
  destruct (nx_expr_evaluate example_expr (example_ctx, zero_value)) as [[x v] o] eqn:Eo. vm_compute in Eo.
  injection Eo as <- <- <-. destruct H as [H1 H2]. split_and!; [reflexivity|exact H1|exact H2|reflexivity|reflexivity].
Defined.

End ExprTypes.
