(* ===== verification/ExprEval.v ===== *)
(** * Evaluation of expressions and statements

    What operators and statements compute: substitution with regular expressions, the
    order of evaluation of [and] and [or], comparison, and statements after [drop]. *)

From S2P Require Import Prelude Dlist Str Date Value Logdata Expr ExprTypes.
Import Str Value Logdata Expr ExprTypes.

Module ExprEval.

Section eval.
Context `{M : Malloc} `{E : ValueEnv} {PC : Pcre} {ST : Stale} {X : Type}.
Abbreviation ectx := (@ectx X).
Abbreviation prog A := (cmd (ectx * value) A).
Abbreviation expr := (@expr X).

(** ** Substitution *)

Definition is_global (m : Z) : bool := negb (Z.land m MATCH_GLOBAL =? 0).

(** Where a substitution of [s] ends: at [t], after [n] replacements. *)
Definition replaced (p : bytes) (m : Z) (repl : bytes) (n : nat) (s t : bytes) : Prop := nsteps (rewrites p m repl) n s t.

Section regexp.
Context {PL : PcreLaws PC} (p : bytes) (m : Z) (repl field : bytes).
Context (Hp : pattern_ok p m) (Hrep : replacement_ok p m repl).

(** A substitution that ends; [cnt] replacements were made before. *)
Definition settled (cnt : Z) (s : bytes) (r : value) : unit -> ectx * value -> Prop := fun _ st => exists n t,
  replaced p m (cstr repl) n s t /\ string_field field (fst st) t /\
  (if is_global m then no_match p m t /\ Z.of_nat n + cnt <= 10000 else n = 1%nat \/ n = 0%nat /\ no_match p m t) /\
  (n <> 0%nat \/ v_data r = DBoolean TRUE -> v_data (snd st) = DBoolean TRUE).

(** One that is given up: too many replacements, or a string that is too long. *)
Definition abandoned (cnt : Z) (s : bytes) : ectx * value -> Prop := fun st => exists n t,
  replaced p m (cstr repl) n s t /\ string_field field (fst st) t /\
  (is_global m = true /\ Z.of_nat n + cnt = 10001 \/ exists t', rewrites p m (cstr repl) t t' /\ string_limit < 2 * zlen t + zlen t').

Lemma settled_step cnt s s' r r' u st : is_global m = true -> rewrites p m (cstr repl) s s' -> v_data r' = DBoolean TRUE ->
  settled (cnt + 1) s' r' u st -> settled cnt s r u st.
Proof.
  intros Hg Hrw Hd (n & t & H1 & H2 & H3 & H4). rewrite Hg in H3. exists (S n), t. split_and!; [by eapply nsteps_l|done| |by auto].
  rewrite Hg. split; [tauto|lia].
Qed.

Lemma abandoned_step cnt s s' st : rewrites p m (cstr repl) s s' -> abandoned (cnt + 1) s' st -> abandoned cnt s st.
Proof.
  intros Hrw (n & t & H1 & H2 & H3). exists (S n), t. split_and!; [by eapply nsteps_l|done|].
  destruct H3 as [[Hg Hn]|H3]; [left; split; [done|lia]|by right].
Qed.

Lemma substitute_loop_spec fuel cnt x r s : ctx_ok x -> string_field field x s -> flag r -> Z.of_nat fuel + cnt = 10000 ->
  wp (substitute_loop fuel p m (cstr repl) field cnt) (settled cnt s r) (abandoned cnt s) (x, r).
Proof.
  revert cnt x r s. induction fuel as [|fuel IH]; intros cnt x r s Hx Hf Hr Hn; cbn [substitute_loop]; apply wp_bind;
    (apply (wp_substitute_once _ _ _ _ _ _ _ _ s); [done..| | |]); fold (is_global m).
  1, 4: intros x' r' _ Hf' _ Hm Hno; cbn [andb]; apply wp_ret; exists 0%nat, s;
    (split_and!; [apply nsteps_O|done|destruct (is_global m); [split; [done|lia]|by right]|]);
    cbn [snd]; destruct Hm as (_ & _ & [-> | ->]); tauto.
  2, 4: intros x' r' s' _ Hf' _ Hrw Hlen; exists 0%nat, s; split_and!; [apply nsteps_O|done|right; by exists s'].
  all: intros x' r' s' Hx' Hf' Hr' Hd Hrw; cbn [andb]; destruct (is_global m) eqn:Hg;
    [|apply wp_ret; exists 1%nat, s'; split_and!; [by apply nsteps_once|done|rewrite Hg; by left|done]].
  - rewrite (proj2 (Z.ltb_lt _ _)) by lia. apply (wp_lift (fun _ => False)); [done| |done].
    exists 1%nat, s'. split_and!; [by apply nsteps_once|done|left; split; [done|lia]].
  - rewrite (proj2 (Z.ltb_ge _ _)) by lia. eapply wp_mono; [apply (IH (cnt + 1) x' r' s'); [done..|lia]| |].
    + intros u st. by apply settled_step.
    + intros st. by apply abandoned_step.
Qed.

(** The operands of a substitution. *)
Lemma field_operand x r s : string_field field x s -> zlen s < string_limit ->
  into fresh_value (nx_expr_evaluate (EField field : expr)) (x, r) = ((x, r), Ret (str_value s)).
Proof.
  intros (al & v & El & Eg & Et & Ed & Es) Hl. cbv beta iota zeta delta [into nx_expr_evaluate mbind cmd_bind set_defined get_ctx lift set_value].
  rewrite El. assert (Value.nx_value_clone (field_value field al) = Ret (str_value s)) as ->; [|done].
  assert (field_value field al = v) as -> by (unfold field_value; by rewrite Eg). unfold Value.nx_value_clone. rewrite Ed, Et, Es. cbn.
  destruct (nx_string_clone_rep (exact s) s) as (c & -> & Hc); [apply exact_rep; unfold string_limit in *; lia|done|].
  cbn. by rewrite (str_rep_content _ _ Hc).
Qed.

Definition substitution (addr : Z) : expr :=
  EBinop REGMATCH (EField field) (EValue (NxValue NX_VALUE_TYPE_REGEXP TRUE (DRegexp addr p (Some (Some repl, m))))).

Lemma evaluate_substitution addr x r s : ctx_ok x -> string_field field x s -> zlen s < string_limit ->
  wp (nx_expr_evaluate (substitution addr)) (settled 0 s zero_value) (abandoned 0 s) (x, r).
Proof.
  intros Hx Hf Hl. cbn [nx_expr_evaluate substitution]. apply wp_bind. eapply wp_is; [done|].
  cbn [binop_cb field_of rettype v_type]. unfold _regmatch. do 3 (apply wp_bind; eapply wp_is; [done|]).
  assert (string_field field (clear_captured x) s) as Hf' by done. unfold both.
  apply wp_bind. eapply wp_is; [by apply field_operand|]. cbn [undefined v_defined str_value]. change (TRUE =? FALSE) with false. cbv iota.
  apply wp_bind. eapply wp_is; [apply regexp_literal|]. change (undefined (regexp_value p (Some repl) m)) with false. cbv iota.
  change (has_type NX_VALUE_TYPE_STRING (str_value s)) with true. cbn [orb]. cbv iota.
  do 3 (apply wp_bind; eapply wp_is; [done|]). apply wp_bind.
  destruct (string_field_reads _ _ _ Hf') as (al & Er & _). unfold apply_regexp.
  do 4 (apply wp_bind; eapply wp_is; [done|]). apply wp_bind. eapply wp_is; [unfold lift; by rewrite Er|].
  do 2 (apply wp_bind; eapply wp_is; [done|]).
  eapply wp_mono; [apply substitute_loop_spec; [by apply clear_ok|done|by split_and!; [..|right]|done]| |done].
  intros [] st (n & t & H1 & H2 & H3 & H4). apply wp_bind. eapply (wp_is _ tt); [done|]. eapply (wp_is _ tt); [done|].
  exists n, t. split_and!; [done..|]. intros [Hn|Hn]; [by apply H4; left|discriminate Hn].
Qed.

End regexp.
End eval.

(** ** Properties *)

(** C15: [$field =~ s/p/repl/] on a defined string field replaces the first match, if there is
    one, and with the modifier g replaces until the pattern does not match the field any
    more; the result is TRUE if anything was replaced.  It throws only if the string gets
    too long (twice the old string and the new one exceed the string limit) or 10001 replacements were made, and leaves what was replaced in the record; no
    assertion fails, and the only undefined behaviour left is integer arithmetic.  This is
    for a pattern that compiles and has fewer groups than
    [NX_EXPR_MAX_CAPTURED_FIELDS - 1] (with that many the constructor accepts it, but a match
    stops the process); a replacement that is not empty, or a pattern that never
    matches the empty string (s/x*// fails the assertion [len > 0] when it extends the
    string by nothing); a field shorter than the string limit in a record of well-formed
    values, the captured strings within the limit; and a [pcre_exec] with the documented
    result codes, number of groups and offsets ([PcreLaws]). *)
Theorem substitution_rewrites `{M : Malloc} `{E : ValueEnv} {PC : Pcre} {ST : Stale} {X : Type} {PL : PcreLaws PC}
    p m repl field addr (x : @ectx X) r s :
  pattern_ok p m -> replacement_ok p m repl -> ctx_ok x -> string_field field x s -> zlen s < string_limit ->
  match nx_expr_evaluate (substitution p m repl field addr) (x, r) with
  | ((x', v), Ret _) => exists n t, replaced p m (cstr repl) n s t /\ string_field field x' t /\
      (if is_global m then no_match p m t /\ Z.of_nat n <= 10000 else n = 1%nat \/ n = 0%nat /\ no_match p m t) /\
      (n <> 0%nat -> v_data v = DBoolean TRUE)
  | ((x', v), Throw _) => exists n t, replaced p m (cstr repl) n s t /\ string_field field x' t /\
      (is_global m = true /\ Z.of_nat n = 10001 \/ exists t', rewrites p m (cstr repl) t t' /\ string_limit < 2 * zlen t + zlen t')
  | (_, Panic _) => False
  | (_, Undef m) => arithmetic m
  end.
Proof.
  intros Hp Hrep Hx Hf Hl. pose proof (evaluate_substitution p m repl field Hp Hrep addr x r s Hx Hf Hl) as H. unfold wp in H.
  destruct (nx_expr_evaluate _ _) as [[x' v] [u|e|e|e]]; [..|done|done].
  - destruct H as (n & t & H1 & H2 & H3 & H4). exists n, t. split_and!; [done|done| |by auto].
    destruct (is_global m); [split; [tauto|lia]|done].
  - destruct H as (n & t & H1 & H2 & H3). exists n, t. split_and!; [done|done|].
    destruct H3 as [[Hg Hn]|H3]; [left; split; [done|lia]|by right].
Qed.

(** [$Message =~ s/cat/dog/g] *)
Lemma substitution_rewrites_witness :
  let e := substitution (X := unit) (lit "cat") MATCH_GLOBAL (lit "dog") (lit "Message") 0 in
  let x := Ectx (Some [(lit "Message", str_value (lit "cat and cat"))]) [] false tt in
  exists x' v, nx_expr_evaluate (M := poison_malloc) (E := plain_env) (PC := plain_pcre) (ST := plain_stale) e (x, zero_value) = ((x', v), Ret tt) /\
  string_field (lit "Message") x' (lit "dog and dog") /\
  exists n t, replaced (PC := plain_pcre) (lit "cat") MATCH_GLOBAL (lit "dog") n (lit "cat and cat") t /\ string_field (lit "Message") x' t /\
    no_match (PC := plain_pcre) (lit "cat") MATCH_GLOBAL t.
Proof.
  intros e x.
  pose proof (substitution_rewrites (M := poison_malloc) (E := plain_env) (PC := plain_pcre) (ST := plain_stale)
    (lit "cat") MATCH_GLOBAL (lit "dog") (lit "Message") 0 x zero_value (lit "cat and cat")
    ltac:(by split) ltac:(by left)
    ltac:(split; [intros al [= <-]; constructor; [by split; [left|]|constructor]|constructor])
    ltac:(by exists [(lit "Message", str_value (lit "cat and cat"))], (str_value (lit "cat and cat")))
    ltac:(done)) as H. fold e in H.
  destruct (nx_expr_evaluate e (x, zero_value)) as [[x' v] o] eqn:Eo. vm_compute in Eo. injection Eo as <- <- <-.
  eexists _, _. split; [reflexivity|]. split.
  - by exists [(lit "Message", str_value (lit "dog and dog"))], (str_value (lit "dog and dog")).
  - destruct H as (n & t & H1 & H2 & H3 & _). exists n, t. split_and!; [exact H1|exact H2|]. exact (proj1 H3).
Defined.

(** ** Comparison *)

(** The result of [!=] for a result of [==]. *)
Definition opposite (v w : value) : Prop :=
  v_type w = v_type v /\ v_defined w = v_defined v /\
  (v_defined v = TRUE -> exists b : bool, v_data v = DBoolean (if b then TRUE else FALSE) /\ v_data w = DBoolean (if b then FALSE else TRUE)).

(** [a != b] evaluates its operands as [a == b] does and throws when that does, with
    the other result where it is defined; two undefined values are equal. *)
Theorem notequal_negates `{M : Malloc} `{E : ValueEnv} {PC : Pcre} {ST : Stale} {X : Type} (l r : @expr X) x v :
  let '((x1, v1), o1) := nx_expr_evaluate (EBinop EQUAL l r) (x, v) in
  let '((x2, v2), o2) := nx_expr_evaluate (EBinop NOTEQUAL l r) (x, v) in
  x1 = x2 /\
  match o1, o2 with
  | Ret _, Ret _ => opposite v1 v2
  | Throw _, Throw _ => True
  | Panic m1, Panic m2 | Undef m1, Undef m2 => m1 = m2
  | _, _ => False
  end.
Proof.
  cbn [nx_expr_evaluate binop_cb]. unfold _equal, _notequal, equality, opposite.
  generalize (into fresh_value (nx_expr_evaluate l)), (into fresh_value (nx_expr_evaluate r)). intros cl cr.
  cbv beta iota zeta delta [mbind cmd_bind set_defined set_type lift free_value set_boolean set_data].
  destruct (cl _) as [[x1 r1] [a|e|e|e]]; try done. destruct (cr _) as [[x2 r2] [b|e|e|e]]; try done.
  destruct (undefined a), (undefined b); cbn.
  - split_and!; [done..|]. by exists true.
  - by destruct (kill b) as [[]|e|e|e].
  - by destruct (kill a) as [[]|e|e|e].
  - destruct (same_type a b); cbn.
    + destruct (equal_data a b) as [[d|]|e|e|e]; try done; cbn.
      * destruct (kill a) as [[]|e|e|e], (kill b) as [[]|e'|e'|e']; try done. cbn. split_and!; [done..|]. exists d. by destruct d.
      * destruct (kill b) as [[]|e|e|e], (kill a) as [[]|e'|e'|e']; try done. unfold throw_types, lift.
        destruct (nx_value_type_to_string (v_type a)), (nx_value_type_to_string (v_type b)); done.
    + destruct (kill b) as [[]|e|e|e], (kill a) as [[]|e'|e'|e']; try done. unfold throw_types, lift.
      destruct (nx_value_type_to_string (v_type a)), (nx_value_type_to_string (v_type b)); done.
Qed.

(** ** Statements *)

Lemma execute_app {X} (exec : @stmt X -> cmd (@ectx X) unit) l1 l2 x :
  execute_all exec (l1 ++ l2) x = (_ ← execute_all exec l1; execute_all exec l2) x.
Proof.
  revert x. induction l1 as [|s l1 IH]; intros x; [done|].
  change ((_ ← exec s; execute_all exec (l1 ++ l2)) x = ((_ ← exec s; execute_all exec l1) ≫= fun _ => execute_all exec l2) x).
  rewrite <- cmd_bind_assoc. destruct (exec s x) as [x' [u|e|e|e]] eqn:Es; [|unfold mbind, cmd_bind; by rewrite Es..].
  rewrite !(cmd_bind_Ret _ _ _ _ _ Es). apply IH.
Qed.

Lemma dropped_noop `{M : Malloc} `{E : ValueEnv} {PC : Pcre} {ST : Stale} {X : Type} (l : list (@stmt X)) x :
  x_dropped x = true -> nx_expr_statement_list_execute l x = (x, Ret tt).
Proof.
  intros Hd. unfold nx_expr_statement_list_execute. induction l as [|s l IH]; [done|]. cbn [execute_all foldr].
  rewrite (cmd_bind_Ret _ _ x x tt); [exact IH|]. destruct s; cbn; unfold mbind, cmd_bind, get; by rewrite Hd.
Qed.

(** Statements after the record was dropped have no effect. *)
Theorem drop_stops_statements `{M : Malloc} `{E : ValueEnv} {PC : Pcre} {ST : Stale} {X : Type} (l1 l2 : list (@stmt X)) x x' :
  nx_expr_statement_list_execute l1 x = (x', Ret tt) -> x_dropped x' = true ->
  nx_expr_statement_list_execute (l1 ++ l2) x = (x', Ret tt).
Proof.
  intros H1 Hd. unfold nx_expr_statement_list_execute in *. rewrite execute_app, (cmd_bind_Ret _ _ _ _ _ H1). by apply dropped_noop.
Qed.

(** Assignment of a value to another field than [raw_event]. *)
Lemma assign_value `{M : Malloc} `{E : ValueEnv} {PC : Pcre} {ST : Stale} {X : Type} f (e : @expr X) x al x' al' v :
  x_logdata x = Some al -> nx_expr_evaluate e (x, fresh_value) = ((x', v), Ret tt) -> x_logdata x' = Some al' -> f <> raw_key ->
  nx_expr_statement_assignment_execute (EField f) e x = (with_logdata (Some (alist_set f v al')) x', Ret tt).
Proof.
  intros Hx He Hx' Hf. unfold nx_expr_statement_assignment_execute.
  do 3 (erewrite cmd_bind_Ret by reflexivity). rewrite Hx. rewrite (cmd_bind_Ret _ _ _ x' v) by (unfold evaluate_assigned; by rewrite He).
  erewrite cmd_bind_Ret by reflexivity. rewrite Hx'. assert (set_field_value f v al' = Ret (alist_set f v al')) as ->; [|done].
  unfold set_field_value. destruct (alist_get f al'); [|done].
  by assert (strcmp_eq f raw_key = false) as -> by (by apply strcmp_eq_false).
Qed.

(** After an assignment the field has the value of the expression and the other fields
    are as the evaluation left them. *)
Theorem assignment_sets_field `{M : Malloc} `{E : ValueEnv} {PC : Pcre} {ST : Stale} {X : Type} f (e : @expr X) x al x' al' v :
  x_dropped x = false -> x_logdata x = Some al -> nx_expr_evaluate e (x, fresh_value) = ((x', v), Ret tt) ->
  x_logdata x' = Some al' -> f <> raw_key ->
  exists x2 al2, nx_expr_statement_execute (SAssignment (EField f) e) x = (x2, Ret tt) /\ x_logdata x2 = Some al2 /\
    (forall g, alist_get g al2 = if strcasecmp_eq f g then Some v else alist_get g al') /\ x_captured x2 = x_captured x'.
Proof.
  intros Hd Hx He Hx' Hf. exists (with_logdata (Some (alist_set f v al')) x'), (alist_set f v al'). split_and!; [|done| |done].
  - cbn [nx_expr_statement_execute]. rewrite (cmd_bind_Ret _ _ x x x) by done. rewrite Hd. by eapply assign_value.
  - intros g. apply alist_get_set.
Qed.

(** [$Sum = $Count + 1] *)
Lemma assignment_sets_field_witness :
  exists x2 al2, nx_expr_statement_execute (M := poison_malloc) (E := plain_env) (PC := plain_pcre) (ST := plain_stale)
      (SAssignment (e_field "Sum") (EBinop PLUS (e_field "Count") (e_int 1))) example_ctx = (x2, Ret tt) /\ x_logdata x2 = Some al2 /\
    alist_get (lit "sum") al2 = Some (nx_value_new_integer 4) /\ alist_get (lit "Count") al2 = Some (nx_value_new_integer 3).
Proof.
  destruct (assignment_sets_field (M := poison_malloc) (E := plain_env) (PC := plain_pcre) (ST := plain_stale) (lit "Sum")
    (EBinop PLUS (e_field "Count") (e_int 1)) example_ctx
    [(lit "Message", str_value (lit "a cat")); (lit "Count", nx_value_new_integer 3)] example_ctx
    [(lit "Message", str_value (lit "a cat")); (lit "Count", nx_value_new_integer 3)] (nx_value_new_integer 4)
    eq_refl eq_refl ltac:(vm_compute; reflexivity) eq_refl ltac:(intros Hf; discriminate Hf)) as (x2 & al2 & H1 & H2 & H3 & _).
  exists x2, al2. split_and!; [exact H1|exact H2| |].
  - rewrite (H3 (lit "sum")). reflexivity.
  - rewrite (H3 (lit "Count")). reflexivity.
Defined.

(** A statement list with a procedure that drops the record. *)
Definition drop_stmt {X} : @stmt X := SProcedure (fun _ x => (Ectx None [] true (x_env x), Ret tt)) None.

Lemma drop_stops_statements_witness :
  nx_expr_statement_list_execute (M := poison_malloc) (E := plain_env) (PC := plain_pcre) (ST := plain_stale)
    ([drop_stmt] ++ [SAssignment (e_field "Sum") (e_int 1)]) example_ctx = (Ectx None [] true tt, Ret tt).
Proof.
  apply (drop_stops_statements (M := poison_malloc) (E := plain_env) (PC := plain_pcre) (ST := plain_stale) [drop_stmt]); reflexivity.
Defined.

(** ** Defects *)

Lemma evaluate_binop `{M : Malloc} `{E : ValueEnv} {PC : Pcre} {ST : Stale} {X : Type} o (l r : @expr X) :
  nx_expr_evaluate (EBinop o l r) =
  (_ ← set_defined FALSE; binop_cb o (field_of l) (rettype r) (into fresh_value (nx_expr_evaluate l)) (into fresh_value (nx_expr_evaluate r))).
Proof. done. Qed.

(** [$f = $a + $b] with strings whose concatenation exceeds the limit: the type and the
    flag of the new value are set before the concatenation throws, and releasing the value
    frees a pointer that was never written. *)
Theorem concat_limit_frees_garbage `{M : Malloc} `{E : ValueEnv} {PC : Pcre} {ST : Stale} {X : Type} f a b (x : @ectx X) s t :
  string_field a x s -> string_field b x t -> no_nul s -> no_nul t ->
  zlen s < string_limit -> zlen t < string_limit -> string_limit <= zlen s + zlen t ->
  nx_expr_statement_assignment_execute (EField f) (EBinop PLUS (EField a) (EField b)) x =
    (x, Undef "free of an uninitialised pointer").
Proof.
  intros Ha Hb Hs Ht Ls Lt Hlen. unfold nx_expr_statement_assignment_execute.
  do 3 (erewrite cmd_bind_Ret by reflexivity). pose proof Ha as (al & v & El & _). rewrite El.
  assert (nx_expr_evaluate (EBinop PLUS (EField a) (EField b)) (x, fresh_value) =
    ((x, NxValue NX_VALUE_TYPE_STRING TRUE DUninit), Throw "oversized string, limit is %d bytes")) as He.
  { rewrite evaluate_binop. cbn [binop_cb]. rewrite (cmd_bind_Ret _ _ _ (x, NxValue stale_type FALSE DUninit) tt) by reflexivity. unfold _plus.
   
    rewrite (cmd_bind_Ret _ _ _ _ _ (field_operand a x (NxValue stale_type FALSE DUninit) s Ha Ls)), (cmd_bind_Ret _ _ _ _ _ (field_operand b x (NxValue stale_type FALSE DUninit) t Hb Lt)).
    change (undefined (str_value s) || undefined (str_value t)) with false.
    change (has_type NX_VALUE_TYPE_STRING (str_value s) || has_type NX_VALUE_TYPE_STRING (str_value t)) with true. cbv iota.
    do 4 (erewrite cmd_bind_Ret by reflexivity). rewrite !cstr_no_nul by done.
    erewrite cmd_bind_Throw; [reflexivity|]. unfold lift, sprintf_ss, nx_string_new_size. unfold string_limit in *.
    rewrite (proj2 (Z.eqb_neq _ _)), (proj2 (Z.ltb_lt _ _)) by lia. reflexivity. }
  erewrite cmd_bind_Undef; [reflexivity|]. unfold evaluate_assigned. by rewrite He.
Qed.

Lemma concat_limit_frees_garbage_witness :
  let s := replicate (Z.to_nat 524288) "a"%byte in
  let x := Ectx (Some [(lit "a", str_value s)]) [] false tt in
  nx_expr_statement_assignment_execute (M := poison_malloc) (E := plain_env) (PC := plain_pcre) (ST := plain_stale)
    (EField (lit "b")) (EBinop PLUS (EField (lit "a")) (EField (lit "a"))) x = (x, Undef "free of an uninitialised pointer").
Proof.
  intros s x. assert (zlen s = 524288) as Hl by (unfold s; rewrite length_replicate, Z2Nat.id; lia).
  assert (no_nul s) as Hn by (unfold s, no_nul; intros [H _]%elem_of_replicate; discriminate H).
  assert (string_field (lit "a") x s) as Hf by (exists [(lit "a", str_value s)], (str_value s); repeat split).
  apply (concat_limit_frees_garbage (M := poison_malloc) (E := plain_env) (PC := plain_pcre) (ST := plain_stale) (lit "b") (lit "a") (lit "a") x s s Hf Hf Hn Hn);
    rewrite Hl; unfold string_limit; lia.
Defined.

(** The outcome of an expression for a record with these fields. *)
Definition eval_in (al : alist) (e : @expr unit) : outcome value :=
  let '((_, v), o) := nx_expr_evaluate (M := poison_malloc) (E := plain_env) (PC := plain_pcre) (ST := plain_stale) e
    (Ectx (Some al) [] false tt, fresh_value (ST := plain_stale)) in
  (fun _ => v) <$> o.

(** The binary operation of two operands, if the constructor accepts it. *)
Definition eval_binop (al : alist) (o : binop) (l r : @expr unit) : outcome value := e ← nx_expr_new_binop o l r; eval_in al e.

(** Expressions that the constructors accept and that stop the process or do not what
    the operator says: a match of two strings; an empty match of an empty string with an
    empty replacement; [or] after a subtraction from an undefined field; a captured string
    whose number does not fit; division by zero; unary minus, which returns its operand; a
    sum of two dates, typed as an integer, throws; too few arguments match the declaration
    of a function. *)
Theorem expr_constructor_gaps :
  let fields := [(lit "s", str_value (lit "text")); (lit "empty", str_value []); (lit "n", nx_value_new_integer 3)] in
  let date := EValue (nx_value_new_datetime 0) in
  eval_binop fields REGMATCH (e_field "s") (e_field "s") = Panic "rval.type == NX_VALUE_TYPE_REGEXP" /\
  eval_binop fields REGMATCH (e_field "empty") (e_regexp "" (Some "") 0) = Panic "len > 0" /\
  eval_binop fields OR (EBinop MINUS (e_field "missing") (e_int 1)) (nx_expr_new_boolean true) = Panic "invalid value type: %d" /\
  (e ← nx_expr_new_captured (lit "4294967295"); eval_in fields e) = Panic "expr->captured >= 0" /\
  eval_binop fields DIV (e_int 1) (e_int 0) = Undef "division by zero" /\
  (e ← nx_expr_new_unop NEG (e_field "n"); eval_in fields e) = Ret (nx_value_new_integer 3) /\
  (e ← nx_expr_new_unop NEG (e_int 3); eval_in fields e) = Throw "invalid unary operation: %s" /\
  rettype (EBinop PLUS date date : @expr unit) = NX_VALUE_TYPE_INTEGER /\
  eval_binop fields PLUS date date = Throw "invalid operation: %s + %s" /\
  nx_expr_list_elem_match (Some [e_int 1 : @expr unit]) [NX_VALUE_TYPE_INTEGER; NX_VALUE_TYPE_INTEGER] = true.
Proof. vm_compute. repeat split. Qed.

End ExprEval.
