(* ===== verification/Statvar.v ===== *)
(** * Module variables and statistical counters (common/statvar.h, common/statvar.c)

    A module has two hash tables, of variables and of statistical counters, which the
    procedures of the expression language change.  Both kinds of object may have a
    lifetime: creation then schedules an expiry event that points to the object.

    The tables are finite maps (NULL is [None]); the pending expiry events are a list.
    An object is identified by the number of its allocation, so that an event that points
    to an object that was released is told from one whose object is live. *)

From S2P Require Import Prelude Dlist Str Date DateFormat Value Logdata Expr ExprTypes.
Import Str Value Expr ExprTypes.

Module Statvar.

(** ** Counters *)

Inductive nx_module_stat_type :=
| NX_MODULE_STAT_TYPE_COUNT | NX_MODULE_STAT_TYPE_COUNTMIN | NX_MODULE_STAT_TYPE_COUNTMAX
| NX_MODULE_STAT_TYPE_AVG | NX_MODULE_STAT_TYPE_AVGMIN | NX_MODULE_STAT_TYPE_AVGMAX
| NX_MODULE_STAT_TYPE_RATE | NX_MODULE_STAT_TYPE_RATEMIN | NX_MODULE_STAT_TYPE_RATEMAX
| NX_MODULE_STAT_TYPE_GRAD | NX_MODULE_STAT_TYPE_GRADMIN | NX_MODULE_STAT_TYPE_GRADMAX.

#[export] Instance stat_type_dec : EqDecision nx_module_stat_type.
Proof. solve_decision. Defined.

Definition stat_types : list (nx_module_stat_type * bytes) :=
  [ (NX_MODULE_STAT_TYPE_COUNT, lit "count");
    (NX_MODULE_STAT_TYPE_COUNTMIN, lit "countmin");
    (NX_MODULE_STAT_TYPE_COUNTMAX, lit "countmax");
    (NX_MODULE_STAT_TYPE_AVG, lit "avg");
    (NX_MODULE_STAT_TYPE_AVGMIN, lit "avgmin");
    (NX_MODULE_STAT_TYPE_AVGMAX, lit "avgmax");
    (NX_MODULE_STAT_TYPE_RATE, lit "rate");
    (NX_MODULE_STAT_TYPE_RATEMIN, lit "ratemin");
    (NX_MODULE_STAT_TYPE_RATEMAX, lit "ratemax");
    (NX_MODULE_STAT_TYPE_GRAD, lit "grad");
    (NX_MODULE_STAT_TYPE_GRADMIN, lit "gradmin");
    (NX_MODULE_STAT_TYPE_GRADMAX, lit "gradmax") ].

(** [None] is 0. *)
Definition nx_module_stat_type_from_string (str : bytes) : option nx_module_stat_type :=
  (fun r => fst (snd r)) <$> list_find (fun kv => strcasecmp_eq (snd kv) str = true) stat_types.

Definition nx_module_stat_type_to_string (t : nx_module_stat_type) : outcome bytes :=
  match list_find (fun kv => fst kv = t) stat_types with
  | Some (_, kv) => Ret (snd kv)
  | None => Panic "invalid stat type: %d"
  end.

(** The counter; [s_count] and [s_lastrate] are the members of the union that its type
    uses, [s_defined] and [s_integer] the value, whose type is integer. *)
Record nx_module_stat := Stat {
  s_type : nx_module_stat_type;
  s_count : Z;
  s_lastrate : Z;
  s_defined : bool;
  s_integer : Z;
  s_interval : Z;
  s_last_update : Z;
  s_expiry : Z;
  s_id : nat
}.

Definition set_value (z : Z) (s : nx_module_stat) : nx_module_stat :=
  Stat (s_type s) (s_count s) (s_lastrate s) true z (s_interval s) (s_last_update s) (s_expiry s) (s_id s).
Definition set_count (n : Z) (s : nx_module_stat) : nx_module_stat :=
  Stat (s_type s) n (s_lastrate s) (s_defined s) (s_integer s) (s_interval s) (s_last_update s) (s_expiry s) (s_id s).
Definition set_lastrate (r : Z) (s : nx_module_stat) : nx_module_stat :=
  Stat (s_type s) (s_count s) r (s_defined s) (s_integer s) (s_interval s) (s_last_update s) (s_expiry s) (s_id s).
Definition set_last_update (t : Z) (s : nx_module_stat) : nx_module_stat :=
  Stat (s_type s) (s_count s) (s_lastrate s) (s_defined s) (s_integer s) (s_interval s) t (s_expiry s) (s_id s).

(** The types that keep the smallest and the largest value. *)
Definition keep_min (z : Z) (s : nx_module_stat) : nx_module_stat :=
  if s_defined s && negb (z <? s_integer s) then s else set_value z s.
Definition keep_max (z : Z) (s : nx_module_stat) : nx_module_stat :=
  if s_defined s && negb (s_integer s <? z) then s else set_value z s.

(** [(count * interval * APR_USEC_PER_SEC) / length] *)
Definition per_interval (s : nx_module_stat) (length : Z) : outcome Z :=
  a ← long (s_count s * s_interval s); b ← long (a * APR_USEC_PER_SEC); quotient b length.

(** What happens at the end of an interval. *)
Definition interval_end (s : nx_module_stat) (length : Z) : outcome nx_module_stat :=
  match s_type s with
  | NX_MODULE_STAT_TYPE_COUNT => Ret s
  | NX_MODULE_STAT_TYPE_COUNTMIN => Ret (keep_min (s_count s) s)
  | NX_MODULE_STAT_TYPE_COUNTMAX => Ret (keep_max (s_count s) s)
  | NX_MODULE_STAT_TYPE_AVG => r ← per_interval s length; Ret (set_count 0 (set_value (Z.quot r 2) s))
  | NX_MODULE_STAT_TYPE_AVGMIN => r ← per_interval s length; Ret (set_count 0 (keep_min (Z.quot r 2) s))
  | NX_MODULE_STAT_TYPE_AVGMAX => r ← per_interval s length; Ret (set_count 0 (keep_max (Z.quot r 2) s))
  | NX_MODULE_STAT_TYPE_RATE => r ← per_interval s length; Ret (set_count 0 (set_value r s))
  | NX_MODULE_STAT_TYPE_RATEMIN => r ← per_interval s length; Ret (set_count 0 (keep_min r s))
  | NX_MODULE_STAT_TYPE_RATEMAX => r ← per_interval s length; Ret (set_count 0 (keep_max r s))
  | NX_MODULE_STAT_TYPE_GRAD =>
      r ← per_interval s length; d ← long (r - s_lastrate s); Ret (set_lastrate r (set_count 0 (set_value d s)))
  | NX_MODULE_STAT_TYPE_GRADMIN =>
      r ← per_interval s length; d ← long (r - s_lastrate s); Ret (set_lastrate r (set_count 0 (keep_min d s)))
  | NX_MODULE_STAT_TYPE_GRADMAX =>
      r ← per_interval s length; d ← long (r - s_lastrate s); Ret (set_lastrate r (set_count 0 (keep_max d s)))
  end.

Definition nx_module_stat_update (s : nx_module_stat) (timeval : Z) : outcome nx_module_stat :=
  _ ← ASSERT (0 <? s_last_update s) "stat->last_update > 0";
  length ← long (timeval - s_last_update s);
  if bool_decide (s_type s = NX_MODULE_STAT_TYPE_COUNT) then Ret (set_value (s_count s) s)
  else
    _ ← ASSERT (0 <? s_interval s) "stat->interval > 0";
    limit ← long (s_interval s * APR_USEC_PER_SEC);
    if limit <=? length then s ← interval_end s length; Ret (set_last_update timeval s) else Ret s.

Definition nx_module_stat_add (s : nx_module_stat) (value timeval : Z) : outcome nx_module_stat :=
  s ← nx_module_stat_update s timeval;
  n ← long (s_count s + value);
  Ret (set_count n s).

(** ** Variables *)

Record nx_module_var := Var { va_value : value; va_expiry : Z; va_id : nat }.

(** ** The tables of a module *)

Inductive kind := VAR | STAT.
#[export] Instance kind_dec : EqDecision kind.
Proof. solve_decision. Defined.

(** An expiry event: the object it points to, with the name that the object has. *)
Record expiry := Expiry { ee_kind : kind; ee_time : Z; ee_name : bytes; ee_id : nat }.
#[export] Instance expiry_dec : EqDecision expiry.
Proof. solve_decision. Defined.

Record mstate := Mstate {
  m_vars : option (gmap bytes nx_module_var);
  m_stats : option (gmap bytes nx_module_stat);
  m_events : list expiry;
  m_next : nat
}.

Definition vars_of (m : mstate) : gmap bytes nx_module_var := default ∅ (m_vars m).
Definition stats_of (m : mstate) : gmap bytes nx_module_stat := default ∅ (m_stats m).

Definition set_vars (v : gmap bytes nx_module_var) (m : mstate) : mstate := Mstate (Some v) (m_stats m) (m_events m) (m_next m).
Definition set_stats (v : gmap bytes nx_module_stat) (m : mstate) : mstate := Mstate (m_vars m) (Some v) (m_events m) (m_next m).
Definition set_events (l : list expiry) (m : mstate) : mstate := Mstate (m_vars m) (m_stats m) l (m_next m).
Definition set_next (n : nat) (m : mstate) : mstate := Mstate (m_vars m) (m_stats m) (m_events m) n.

(** [nx_event_add] of the expiry event, if there is one. *)
Definition add_expiry (k : kind) (expiry : Z) (name : bytes) (id : nat) (m : mstate) : mstate :=
  if 0 <? expiry then set_events (m_events m ++ [Expiry k expiry name id]) m else m.

(** [nx_event_remove] of the event of an object. *)
Definition remove_expiry (k : kind) (id : nat) (m : mstate) : mstate :=
  set_events (filter (fun e => ~ (ee_kind e = k /\ ee_id e = id)) (m_events m)) m.

Section tables.
Context `{T : TimeEnv}.

(** The value of a new variable is undefined, of a type that was not initialised. *)
Context {ST : Stale}.

Definition nx_module_var_create (name : bytes) (expiry : Z) (m : mstate) : outcome (nx_module_var * mstate) :=
  _ ← ASSERT (0 <? zlen name) "namelen > 0";
  match vars_of m !! name with
  | Some v => Ret (v, set_vars (vars_of m) m)
  | None =>
      let v := Var (NxValue stale_type FALSE DUninit) expiry (m_next m) in
      Ret (v, add_expiry VAR expiry name (m_next m) (set_next (S (m_next m)) (set_vars (<[name := v]> (vars_of m)) m)))
  end.

Definition nx_module_var_delete (name : bytes) (m : mstate) : outcome mstate :=
  _ ← ASSERT (0 <? zlen name) "namelen > 0";
  match m_vars m with
  | None => Ret m
  | Some vs =>
      match vs !! name with
      | None => Ret m
      | Some v =>
          _ ← kill (va_value v);
          Ret (remove_expiry VAR (va_id v) (set_vars (delete name vs) m))
      end
  end.

(** The handlers of expiry events; the event itself was removed from the queue. *)
Definition nx_module_var_expiry (e : expiry) (m : mstate) : outcome mstate :=
  match m_vars m with
  | None => Panic "module->vars != NULL"
  | Some vs =>
      match vs !! ee_name e with
      | Some v =>
          if bool_decide (va_id v = ee_id e) then _ ← kill (va_value v); Ret (set_vars (delete (ee_name e) vs) m)
          else Undef "use after free"
      | None => Undef "use after free"
      end
  end.

Definition nx_module_stat_create (t : nx_module_stat_type) (name : bytes) (interval timeval expiry : Z) (m : mstate) : outcome (nx_module_stat * mstate) :=
  _ ← ASSERT (0 <? zlen name) "namelen > 0";
  match stats_of m !! name with
  | Some s => Ret (s, set_stats (stats_of m) m)
  | None =>
      let s := Stat t 0 0 false 0 interval (if timeval =? 0 then apr_time_now else timeval) expiry (m_next m) in
      Ret (s, add_expiry STAT expiry name (m_next m) (set_next (S (m_next m)) (set_stats (<[name := s]> (stats_of m)) m)))
  end.

Definition nx_module_stat_delete (name : bytes) (m : mstate) : outcome mstate :=
  _ ← ASSERT (0 <? zlen name) "namelen > 0";
  match m_stats m with
  | None => Ret m
  | Some ss =>
      match ss !! name with
      | None => Ret m
      | Some s => Ret (remove_expiry STAT (s_id s) (set_stats (delete name ss) m))
      end
  end.

Definition nx_module_stat_expiry (e : expiry) (m : mstate) : outcome mstate :=
  match m_stats m with
  | None => Panic "module->stats != NULL"
  | Some ss =>
      match ss !! ee_name e with
      | Some s => if bool_decide (s_id s = ee_id e) then Ret (set_stats (delete (ee_name e) ss) m) else Undef "use after free"
      | None => Undef "use after free"
      end
  end.

(** The event that is due is taken from the queue and handled. *)
Definition expire (i : nat) (m : mstate) : outcome mstate :=
  match m_events m !! i with
  | None => Ret m
  | Some e =>
      let m := set_events (delete i (m_events m)) m in
      match ee_kind e with VAR => nx_module_var_expiry e m | STAT => nx_module_stat_expiry e m end
  end.

(** The variable [v] is assigned ([var->value = tmpval]). *)
Definition var_assign (name : bytes) (id : nat) (w : value) (m : mstate) : outcome mstate :=
  match vars_of m !! name with
  | Some v =>
      if bool_decide (va_id v = id) then
        _ ← kill (va_value v); Ret (set_vars (<[name := Var w (va_expiry v) id]> (vars_of m)) m)
      else Undef "use after free"
  | None => Undef "use after free"
  end.

Definition stat_store (name : bytes) (s : nx_module_stat) (m : mstate) : mstate := set_stats (<[name := s]> (stats_of m)) m.

End tables.
(** ** Counters over time *)

Lemma long_ok z : int64 z -> long z = Ret z.
Proof.
  intros [H1 H2]. unfold long. rewrite (proj2 (Z.leb_le _ _)), (proj2 (Z.ltb_lt _ _)) by lia. done.
Qed.

Lemma long_inv z z' : long z = Ret z' -> z' = z /\ int64 z.
Proof. unfold long. case_test; [intros [= <-]; split; [done|split; lia]|done]. Qed.

(** Values added at points in time. *)
Fixpoint run_adds (s : nx_module_stat) (l : list (Z * Z)) : outcome nx_module_stat :=
  match l with
  | [] => Ret s
  | (v, t) :: l => s ← nx_module_stat_add s v t; run_adds s l
  end.

Definition sum (l : list (Z * Z)) : Z := foldr (fun vt n => fst vt + n) 0 l.

(** A counter for which the assertions of [nx_module_stat_update] hold. *)
Definition stat_ok (s : nx_module_stat) : Prop := 0 < s_last_update s /\ (s_type s = NX_MODULE_STAT_TYPE_COUNT \/ 0 < s_interval s).

(** A point in time inside the interval of [s]. *)
Definition inside (s : nx_module_stat) (t : Z) : Prop :=
  s_last_update s <= t < s_last_update s + s_interval s * APR_USEC_PER_SEC /\ int64 t.

Definition interval_type (s : nx_module_stat) : Prop := s_type s <> NX_MODULE_STAT_TYPE_COUNT.

Lemma update_inside s t : stat_ok s -> interval_type s -> int64 (s_interval s * APR_USEC_PER_SEC) -> inside s t ->
  nx_module_stat_update s t = Ret s.
Proof.
  intros [Hl [Hc|Hi]] Ht Hlim [[H1 H2] H3]; [done|]. unfold nx_module_stat_update. rewrite (proj2 (Z.ltb_lt 0 (s_last_update s))) by lia.
  cbn. rewrite bool_decide_eq_false_2 by done. eapply bind_is; [apply long_ok; unfold int64 in *; lia|].
  rewrite (proj2 (Z.ltb_lt 0 (s_interval s))) by lia. eapply bind_is; [done|]. eapply bind_is; [by apply long_ok|].
  by rewrite (proj2 (Z.leb_gt _ _)) by lia.
Qed.

(** What was added during an interval is summed. *)
Lemma adds_inside s l : stat_ok s -> interval_type s -> int64 (s_interval s * APR_USEC_PER_SEC) -> Forall (fun vt => inside s (snd vt)) l ->
  (forall k, int64 (s_count s + sum (take k l))) -> run_adds s l = Ret (set_count (s_count s + sum l) s).
Proof.
  intros Hok Ht Hlim Hl. revert s Hok Ht Hlim Hl. induction l as [|[v t] l IH]; intros s Hok Ht Hlim Hl Hsum; cbn [run_adds].
  - cbn. rewrite Z.add_0_r. by destruct s.
  - inversion Hl as [|? ? Hin Hl']; subst. unfold nx_module_stat_add. rewrite update_inside by done. cbn.
    assert (int64 (s_count s + v)) as Hv by (specialize (Hsum 1%nat); cbn in Hsum; by rewrite Z.add_0_r in Hsum).
    rewrite long_ok by done. cbn. rewrite IH; [|done..|].
    + cbn. by rewrite Z.add_assoc.
    + intros k. specialize (Hsum (S k)). cbn in *. by rewrite <- Z.add_assoc.
Qed.

(** The counter at the end of an interval: [r] is the sum scaled to the interval. *)
Definition ended (s : nx_module_stat) (r : Z) : nx_module_stat :=
  match s_type s with
  | NX_MODULE_STAT_TYPE_COUNT => s
  | NX_MODULE_STAT_TYPE_COUNTMIN => keep_min (s_count s) s
  | NX_MODULE_STAT_TYPE_COUNTMAX => keep_max (s_count s) s
  | NX_MODULE_STAT_TYPE_AVG => set_count 0 (set_value (Z.quot r 2) s)
  | NX_MODULE_STAT_TYPE_AVGMIN => set_count 0 (keep_min (Z.quot r 2) s)
  | NX_MODULE_STAT_TYPE_AVGMAX => set_count 0 (keep_max (Z.quot r 2) s)
  | NX_MODULE_STAT_TYPE_RATE => set_count 0 (set_value r s)
  | NX_MODULE_STAT_TYPE_RATEMIN => set_count 0 (keep_min r s)
  | NX_MODULE_STAT_TYPE_RATEMAX => set_count 0 (keep_max r s)
  | NX_MODULE_STAT_TYPE_GRAD => set_lastrate r (set_count 0 (set_value (r - s_lastrate s) s))
  | NX_MODULE_STAT_TYPE_GRADMIN => set_lastrate r (set_count 0 (keep_min (r - s_lastrate s) s))
  | NX_MODULE_STAT_TYPE_GRADMAX => set_lastrate r (set_count 0 (keep_max (r - s_lastrate s) s))
  end.

(** No overflow at the end of the interval. *)
Definition in_range (s : nx_module_stat) : Prop :=
  Z.abs (s_count s) * s_interval s * APR_USEC_PER_SEC < 2 ^ 62 /\ Z.abs (s_lastrate s) < 2 ^ 62.

Lemma interval_end_spec s len : 0 < s_interval s -> in_range s -> s_interval s * APR_USEC_PER_SEC <= len -> len < 2 ^ 63 ->
  interval_end s len = Ret (ended s (Z.quot (s_count s * s_interval s * APR_USEC_PER_SEC) len)).
Proof.
  intros Hi [Hc Hr] Hlen Hmax. assert (0 < len) by (unfold APR_USEC_PER_SEC in *; lia).
  set (n := s_count s * s_interval s * APR_USEC_PER_SEC).
  assert (Z.abs n < 2 ^ 62) as Hn.
  { unfold n. rewrite !Z.abs_mul, (Z.abs_eq (s_interval s)), (Z.abs_eq APR_USEC_PER_SEC) by (unfold APR_USEC_PER_SEC; lia). done. }
  assert (Z.abs (Z.quot n len) <= Z.abs n) as Hq.
  { rewrite <- Z.quot_abs by lia. rewrite Z.quot_div_nonneg by lia. apply Z.div_le_upper_bound; nia. }
  assert (per_interval s len = Ret (Z.quot n len)) as Hp.
  { unfold per_interval. rewrite long_ok by (unfold int64, n, APR_USEC_PER_SEC in *; nia). cbn.
    rewrite long_ok by (unfold int64, n in *; lia). cbn. unfold quotient. rewrite (proj2 (Z.eqb_neq len 0)) by lia.
    rewrite long_ok; [done|]. fold n. unfold int64. lia. }
  assert (long (Z.quot n len - s_lastrate s) = Ret (Z.quot n len - s_lastrate s)) as Hd by (apply long_ok; unfold int64; lia).
  unfold interval_end, ended. destruct (s_type s); rewrite ?Hp; cbn; rewrite ?Hd; done.
Qed.

Lemma update_end s t : stat_ok s -> interval_type s -> int64 (s_interval s * APR_USEC_PER_SEC) -> in_range s ->
  s_last_update s + s_interval s * APR_USEC_PER_SEC <= t < 2 ^ 63 ->
  nx_module_stat_update s t =
    Ret (set_last_update t (ended s (Z.quot (s_count s * s_interval s * APR_USEC_PER_SEC) (t - s_last_update s)))).
Proof.
  intros [Hl [Hc|Hi]] Ht Hlim Hr Hend; [done|]. unfold nx_module_stat_update. rewrite (proj2 (Z.ltb_lt 0 (s_last_update s))) by lia.
  cbn. rewrite bool_decide_eq_false_2 by done.
  eapply bind_is; [apply long_ok; unfold int64, APR_USEC_PER_SEC in *; lia|].
  rewrite (proj2 (Z.ltb_lt 0 (s_interval s))) by lia. eapply bind_is; [done|]. eapply bind_is; [by apply long_ok|].
  rewrite (proj2 (Z.leb_le _ _)) by lia. rewrite interval_end_spec by (done || lia). done.
Qed.

(** ** Properties of counters *)

(** A counter with an interval, at the first update after its interval: the values
    added during the interval are summed; an average is half of the sum scaled to the
    interval, a rate the scaled sum, a gradient the difference to the rate before, and the
    MIN and MAX types keep the smallest and the largest value; then a new interval begins. *)
Theorem stat_interval_value s l t :
  stat_ok s -> interval_type s -> int64 (s_interval s * APR_USEC_PER_SEC) ->
  Forall (fun vt => inside s (snd vt)) l -> (forall k, int64 (s_count s + sum (take k l))) ->
  in_range (set_count (s_count s + sum l) s) -> s_last_update s + s_interval s * APR_USEC_PER_SEC <= t < 2 ^ 63 ->
  (s' ← run_adds s l; nx_module_stat_update s' t) =
    Ret (set_last_update t (ended (set_count (s_count s + sum l) s)
      (Z.quot ((s_count s + sum l) * s_interval s * APR_USEC_PER_SEC) (t - s_last_update s)))).
Proof. intros Hok Ht Hlim Hl Hsum Hr Hend. rewrite adds_inside by done. cbn. by apply (update_end (set_count (s_count s + sum l) s)). Qed.

(** Three values in a minute: their average is 2, the counter has half of their sum. *)
Lemma stat_interval_value_witness :
  (s ← run_adds (Stat NX_MODULE_STAT_TYPE_AVG 0 0 false 0 60 1000000000000 0 0)
    [(1, 1000001000000); (2, 1000002000000); (3, 1000003000000)];
   nx_module_stat_update s 1000060000000) =
  Ret (Stat NX_MODULE_STAT_TYPE_AVG 0 0 true 3 60 1000060000000 0 0).
Proof.
  rewrite (stat_interval_value (Stat NX_MODULE_STAT_TYPE_AVG 0 0 false 0 60 1000000000000 0 0)
    [(1, 1000001000000); (2, 1000002000000); (3, 1000003000000)] 1000060000000).
  - reflexivity.
  - split; [reflexivity|right; reflexivity].
  - intros H. discriminate H.
  - split; [discriminate|reflexivity].
  - repeat constructor; discriminate.
  - intros [|[|[|[|k]]]]; split; vm_compute; (discriminate || reflexivity).
  - split; reflexivity.
  - split; [discriminate|reflexivity].
Defined.

Lemma count_adds s l : s_type s = NX_MODULE_STAT_TYPE_COUNT -> 0 < s_last_update s < 2 ^ 63 -> Forall (fun vt => 0 <= snd vt < 2 ^ 63) l ->
  (forall k, int64 (s_count s + sum (take k l))) ->
  exists s', run_adds s l = Ret s' /\ s_type s' = NX_MODULE_STAT_TYPE_COUNT /\ s_last_update s' = s_last_update s /\ s_count s' = s_count s + sum l.
Proof.
  intros Ht Hu Hl. revert s Ht Hu. induction Hl as [|[v t] l Hvt Hl IH]; intros s Ht Hu Hsum; cbn [run_adds].
  - exists s. split_and!; [done..|]. cbn. lia.
  - unfold nx_module_stat_add, nx_module_stat_update. rewrite (proj2 (Z.ltb_lt 0 (s_last_update s))) by lia. cbn [ASSERT mbind outcome_bind].
    rewrite bool_decide_eq_true_2, long_ok by (done || (unfold int64; simpl in Hvt; lia)).
    cbn [mbind outcome_bind set_value s_count].
    assert (int64 (s_count s + v)) as Hv by (specialize (Hsum 1%nat); cbn in Hsum; by rewrite Z.add_0_r in Hsum).
    rewrite long_ok by done. cbn [mbind outcome_bind].
    destruct (IH (set_count (s_count s + v) (set_value (s_count s) s))) as (s' & H1 & H2 & H3 & H4); [done..| |].
    + intros k. specialize (Hsum (S k)). cbn in *. by rewrite <- Z.add_assoc.
    + exists s'. split_and!; [done|done|done|]. rewrite H4. change (sum ((v, t) :: l)) with (v + sum l). cbn [s_count set_count]. lia.
Qed.

(** The value of a COUNT counter is the sum of all values that were added, whenever it
    is read. *)
Theorem count_is_sum s l t : s_type s = NX_MODULE_STAT_TYPE_COUNT -> 0 < s_last_update s < 2 ^ 63 ->
  Forall (fun vt => 0 <= snd vt < 2 ^ 63) l -> (forall k, int64 (s_count s + sum (take k l))) -> 0 <= t < 2 ^ 63 ->
  exists s', (s ← run_adds s l; nx_module_stat_update s t) = Ret s' /\ s_defined s' = true /\ s_integer s' = s_count s + sum l.
Proof.
  intros Ht Hu Hl Hsum Hr. destruct (count_adds s l Ht Hu Hl Hsum) as (s' & -> & H2 & H3 & H4). cbn [mbind outcome_bind].
  unfold nx_module_stat_update. rewrite H3, (proj2 (Z.ltb_lt 0 (s_last_update s))) by lia. cbn [ASSERT mbind outcome_bind].
  rewrite bool_decide_eq_true_2, long_ok by (done || (unfold int64; lia)). cbn [mbind outcome_bind]. by eexists.
Qed.

Lemma count_is_sum_witness :
  exists s', (s ← run_adds (Stat NX_MODULE_STAT_TYPE_COUNT 0 0 false 0 0 1 0 0) [(5, 2); (-2, 1)]; nx_module_stat_update s 7) = Ret s' /\
    s_defined s' = true /\ s_integer s' = 3.
Proof.
  apply (count_is_sum (Stat NX_MODULE_STAT_TYPE_COUNT 0 0 false 0 0 1 0 0) [(5, 2); (-2, 1)] 7).
  - reflexivity.
  - split; reflexivity.
  - repeat constructor; discriminate.
  - intros [|[|[|k]]]; split; vm_compute; (discriminate || reflexivity).
  - split; [discriminate|reflexivity].
Defined.

(** ** The tables and the pending events *)

(** The objects of a module by kind and name, with their number and expiry. *)
Definition objects (m : mstate) (k : kind) (name : bytes) : option (nat * Z) :=
  match k with
  | VAR => (fun v => (va_id v, va_expiry v)) <$> vars_of m !! name
  | STAT => (fun s => (s_id s, s_expiry s)) <$> stats_of m !! name
  end.

Definition update (f : kind -> bytes -> option (nat * Z)) (k : kind) (n : bytes) (o : option (nat * Z)) : kind -> bytes -> option (nat * Z) :=
  fun k' n' => if decide (k' = k /\ n' = n) then o else f k' n'.

(** Numbers are unique, and the pending events are those of the objects that expire. *)
Record consistent (f : kind -> bytes -> option (nat * Z)) (ev : list expiry) (next : nat) : Prop := {
  c_old k n i x : f k n = Some (i, x) -> (i < next)%nat;
  c_unique k k' n n' i x x' : f k n = Some (i, x) -> f k' n' = Some (i, x') -> k = k' /\ n = n';
  c_events e : e ∈ ev <-> f (ee_kind e) (ee_name e) = Some (ee_id e, ee_time e) /\ 0 < ee_time e;
  c_once : NoDup ev
}.

Lemma consistent_ext f g ev next : (forall k n, f k n = g k n) -> consistent f ev next -> consistent g ev next.
Proof.
  intros H [C1 C2 C3 C4]. split; [..|done].
  - intros k n i x. rewrite <- H. eauto.
  - intros k k' n n' i x x'. rewrite <- !H. eauto.
  - intros e. rewrite <- H. auto.
Qed.

Lemma consistent_add f ev next k n x : f k n = None -> consistent f ev next ->
  consistent (update f k n (Some (next, x))) (if 0 <? x then ev ++ [Expiry k x n next] else ev) (S next).
Proof.
  intros Hn [C1 C2 C3 C4]. unfold update. split.
  - intros k' n' i x'. case_decide; [intros [= <- <-]; lia|]. intros Hf%C1. lia.
  - intros k1 k2 n1 n2 i x1 x2. case_decide as H1; case_decide as H2.
    + intros _ _. destruct H1 as [-> ->], H2 as [-> ->]. done.
    + intros [= <- <-] H%C1. lia.
    + intros H%C1 [= <- <-]. lia.
    + apply C2.
  - intros e. assert (e ∈ (if 0 <? x then ev ++ [Expiry k x n next] else ev) <-> e ∈ ev \/ (e = Expiry k x n next /\ 0 < x)) as ->.
    { case_test; [rewrite elem_of_app, list_elem_of_singleton|]; intuition lia. }
    rewrite C3. case_decide as H; [|intuition; subst; simpl in *; tauto].
    destruct e as [k' x' n' i']; simpl in *. destruct H as [-> ->]. rewrite Hn. split.
    + intros [[? _]|[[= -> ->] ?]]; [done|auto].
    + intros [[= -> ->] ?]. by right.
  - case_test; [|done]. apply NoDup_app. split_and!; [done| |apply NoDup_singleton].
    intros e He ->%list_elem_of_singleton. apply C3 in He as [He _]. simpl in He. congruence.
Qed.

Lemma consistent_del f ev next k n i x : f k n = Some (i, x) -> consistent f ev next ->
  consistent (update f k n None) (filter (fun e => ~ (ee_kind e = k /\ ee_id e = i)) ev) next.
Proof.
  intros Hn [C1 C2 C3 C4]. unfold update. split; [| | |by apply NoDup_filter].
  - intros k' n' i' x'. case_decide; [done|]. apply C1.
  - intros k1 k2 n1 n2 i' x1 x2. case_decide; [done|]. case_decide; [done|]. apply C2.
  - intros e. rewrite list_elem_of_filter, C3. case_decide as H.
    + destruct H as [-> ->]. split; [|by intros [? _]]. intros [Hne [He _]]. destruct Hne. rewrite Hn in He. by injection He as -> _.
    + split; [tauto|]. intros [He Ht]. split; [|done]. intros [Hk Hi]. apply H. rewrite Hi in He. by apply (C2 _ _ _ _ _ _ _ He Hn).
Qed.

Lemma consistent_take f ev next j e : ev !! j = Some e -> consistent f ev next ->
  consistent (update f (ee_kind e) (ee_name e) None) (delete j ev) next.
Proof.
  intros Hj [C1 C2 C3 C4]. assert (e ∈ ev) as He by (by eapply list_elem_of_lookup_2). pose proof (proj1 (C3 e) He) as [Hf Hx].
  unfold update. split.
  - intros k' n' i' x'. case_decide; [done|]. apply C1.
  - intros k1 k2 n1 n2 i' x1 x2. case_decide; [done|]. case_decide; [done|]. apply C2.
  - intros e'. rewrite delete_take_drop. pose proof (take_drop_middle ev j e Hj) as Ev. rewrite <- Ev in C3, C4.
    apply NoDup_app in C4 as (N1 & N2 & N3). apply NoDup_cons in N3 as [N3 _].
    assert (e' ∈ take j ev ++ drop (S j) ev <-> e' ∈ take j ev ++ e :: drop (S j) ev /\ e' <> e) as ->.
    { rewrite !elem_of_app, elem_of_cons. split; [|tauto]. intros [H|H]; (split; [tauto|]); intros ->; [|done].
      apply (N2 e H). by apply elem_of_cons; left. }
    rewrite C3. case_decide as H; [|split; [tauto|]; intros ?; split; [done|]; intros ->; tauto].
    split; [|by intros [? _]]. intros [[H1 H2] Hne]. destruct Hne. destruct H as [Hk Hn]. rewrite Hk, Hn, Hf in H1.
    destruct e, e'; simpl in *. congruence.
  - rewrite delete_take_drop. rewrite <- (take_drop_middle ev j e Hj) in C4.
    apply NoDup_app in C4 as (N1 & N2 & N3). apply NoDup_cons in N3 as [_ N3]. apply NoDup_app. split_and!; [done| |done].
    intros e' H1 H2. apply (N2 e' H1). by apply elem_of_cons; right.
Qed.

Definition tables_ok (m : mstate) : Prop :=
  consistent (objects m) (m_events m) (m_next m) /\
  (forall n v, vars_of m !! n = Some v -> kill (va_value v) = Ret tt) /\
  (forall n s, stats_of m !! n = Some s -> stat_ok s).

(** The operations of procedures and of the event loop on the tables. *)
Inductive top :=
| OVarCreate (name : bytes) (expiry : Z)
| OVarDelete (name : bytes)
| OVarSet (name : bytes) (w : value)
| OStatCreate (t : nx_module_stat_type) (name : bytes) (interval timeval expiry : Z)
| OStatAdd (name : bytes) (v timeval : Z)
| OStatGet (name : bytes) (timeval : Z)
| OStatDelete (name : bytes)
| OExpire (i : nat).

Section invariant.
Context `{T : TimeEnv} {ST : Stale}.

(** An update of the counter [name], if it exists. *)
Definition on_stat (name : bytes) (f : nx_module_stat -> outcome nx_module_stat) (m : mstate) : outcome mstate :=
  match stats_of m !! name with
  | None => Ret m
  | Some s => s' ← f s; Ret (stat_store name s' m)
  end.

Definition run_top (o : top) (m : mstate) : outcome mstate :=
  match o with
  | OVarCreate name x => snd <$> nx_module_var_create name x m
  | OVarDelete name => nx_module_var_delete name m
  | OVarSet name w => '(v, m) ← nx_module_var_create name 0 m; var_assign name (va_id v) w m
  | OStatCreate t name i tv x => snd <$> nx_module_stat_create t name i tv x m
  | OStatAdd name v t => on_stat name (fun s => nx_module_stat_add s v t) m
  | OStatGet name t => on_stat name (fun s => nx_module_stat_update s t) m
  | OStatDelete name => nx_module_stat_delete name m
  | OExpire i => expire i m
  end.

(** What the callers check, and more: [set_var] and [delete_var] admit an empty name, and
    [create_stat] a time before 1970. *)
Definition valid (o : top) : Prop :=
  match o with
  | OVarCreate name _ | OVarDelete name | OStatDelete name => name <> []
  | OVarSet name w => name <> [] /\ kill w = Ret tt
  | OStatCreate t name i tv _ => name <> [] /\ 0 <= tv /\ (t = NX_MODULE_STAT_TYPE_COUNT \/ 0 < i)
  | OStatAdd _ _ t | OStatGet _ t => 0 < t
  | OExpire _ => True
  end.

Fixpoint run_tops (os : list top) (m : mstate) : outcome mstate :=
  match os with
  | [] => Ret m
  | o :: os => m ← run_top o m; run_tops os m
  end.

Lemma name_ok (name : bytes) : name <> [] -> ASSERT (0 <? zlen name) "namelen > 0" = Ret tt.
Proof. destruct name; [done|]. intros _. by rewrite (proj2 (Z.ltb_lt _ _)) by (rewrite length_cons; lia). Qed.

(** A table whose objects are known. *)
Lemma tables_ext m m' : (forall k n, objects m k n = objects m' k n) -> m_events m = m_events m' -> m_next m = m_next m' ->
  consistent (objects m) (m_events m) (m_next m) -> consistent (objects m') (m_events m') (m_next m').
Proof. intros H <- <-. by apply consistent_ext. Qed.

(** A new object and its event. *)
Lemma created_ok k name x m m1 : objects m k name = None -> consistent (objects m) (m_events m) (m_next m) ->
  (forall k' n, objects m1 k' n = update (objects m) k name (Some (m_next m, x)) k' n) -> m_events m1 = m_events m -> m_next m1 = S (m_next m) ->
  let m' := add_expiry k x name (m_next m) m1 in
  consistent (objects m') (m_events m') (m_next m') /\ vars_of m' = vars_of m1 /\ stats_of m' = stats_of m1.
Proof.
  intros Hno C Hobj Hev Hnx m'. pose proof (consistent_add _ _ _ k name x Hno C) as C'.
  assert (vars_of m' = vars_of m1) as Hv by (unfold m', add_expiry; by case_test).
  assert (stats_of m' = stats_of m1) as Hs by (unfold m', add_expiry; by case_test). split; [|done].
  assert (m_events m' = if 0 <? x then m_events m ++ [Expiry k x name (m_next m)] else m_events m) as ->
    by (unfold m', add_expiry; case_test; cbn; by rewrite Hev).
  assert (m_next m' = S (m_next m)) as -> by (unfold m', add_expiry; by case_test).
  revert C'. apply consistent_ext. intros k' n. rewrite <- Hobj. unfold objects. by rewrite Hv, Hs.
Qed.

Lemma var_create_ok name x m : name <> [] -> tables_ok m ->
  exists v m', nx_module_var_create name x m = Ret (v, m') /\ tables_ok m' /\ vars_of m' !! name = Some v.
Proof.
  intros Hn (C & Hv & Hs). unfold nx_module_var_create. rewrite name_ok by done. cbn [mbind outcome_bind].
  destruct (vars_of m !! name) as [v|] eqn:E1.
  - eexists _, _. split; [done|]. split; [|done]. split_and!; [|exact Hv|exact Hs]. revert C. by apply tables_ext.
  - eexists _, _. split; [done|]. set (m1 := set_next _ _).
    destruct (created_ok VAR name x m m1) as (C' & Hvars & Hstats); [cbn; by rewrite E1|done| |done..|].
    { intros k n. unfold update, objects. cbn. case_decide as H.
      - destruct H as [-> ->]. by rewrite lookup_insert_eq.
      - destruct k; [|done]. rewrite lookup_insert_ne; [done|]. intros ->. by apply H. }
    split; [|rewrite Hvars; apply lookup_insert_eq]. split_and!; [exact C'| |rewrite Hstats; exact Hs].
    intros n w. rewrite Hvars. change (vars_of m1) with (<[name := Var (NxValue stale_type FALSE DUninit) x (m_next m)]> (vars_of m)).
    intros [[<- <-]|[_ H]]%lookup_insert_Some; [done|by eapply Hv].
Qed.

Context (now_pos : 0 < apr_time_now).

Lemma stat_create_ok t name i tv x m : valid (OStatCreate t name i tv x) -> tables_ok m ->
  exists s m', nx_module_stat_create t name i tv x m = Ret (s, m') /\ tables_ok m' /\ stats_of m' !! name = Some s.
Proof.
  intros (Hn & Htv & Hi) (C & Hv & Hs). unfold nx_module_stat_create. rewrite name_ok by done. cbn [mbind outcome_bind].
  destruct (stats_of m !! name) as [s|] eqn:E1.
  - eexists _, _. split; [done|]. split; [|done]. split_and!; [|exact Hv|exact Hs]. revert C. by apply tables_ext.
  - eexists _, _. split; [done|]. set (m1 := set_next _ _).
    destruct (created_ok STAT name x m m1) as (C' & Hvars & Hstats); [cbn; by rewrite E1|done| |done..|].
    { intros k n. unfold update, objects. cbn. case_decide as H.
      - destruct H as [-> ->]. by rewrite lookup_insert_eq.
      - destruct k; [done|]. rewrite lookup_insert_ne; [done|]. intros ->. by apply H. }
    split; [|rewrite Hstats; apply lookup_insert_eq]. split_and!; [exact C'|rewrite Hvars; exact Hv|].
    intros n w. rewrite Hstats. change (stats_of m1) with (<[name := Stat t 0 0 false 0 i (if tv =? 0 then apr_time_now else tv) x (m_next m)]> (stats_of m)).
    intros [[<- <-]|[_ H]]%lookup_insert_Some; [|by eapply Hs].
    split; cbn; [case_test; lia|done].
Qed.

(** An object that is removed, with its event. *)
Lemma objects_delete_var m vs name k n : m_vars m = Some vs ->
  objects (set_vars (delete name vs) m) k n = update (objects m) VAR name None k n.
Proof.
  intros E1. unfold update, objects, vars_of. rewrite E1. cbn. case_decide as H.
  - destruct H as [-> ->]. by rewrite lookup_delete_eq.
  - destruct k; [|done]. rewrite lookup_delete_ne; [done|]. intros ->. by apply H.
Qed.

Lemma objects_delete_stat m ss name k n : m_stats m = Some ss ->
  objects (set_stats (delete name ss) m) k n = update (objects m) STAT name None k n.
Proof.
  intros E1. unfold update, objects, stats_of. rewrite E1. cbn. case_decide as H.
  - destruct H as [-> ->]. by rewrite lookup_delete_eq.
  - destruct k; [done|]. rewrite lookup_delete_ne; [done|]. intros ->. by apply H.
Qed.

Lemma var_delete_ok name m : name <> [] -> tables_ok m -> exists m', nx_module_var_delete name m = Ret m' /\ tables_ok m'.
Proof.
  intros Hn Hok. pose proof Hok as (C & Hv & Hs). unfold nx_module_var_delete. rewrite name_ok by done. cbn [mbind outcome_bind].
  destruct (m_vars m) as [vs|] eqn:E1; [|by exists m]. destruct (vs !! name) as [v|] eqn:E2; [|by exists m].
  assert (vars_of m = vs) as Hvs by (unfold vars_of; by rewrite E1).
  rewrite (Hv name v) by (by rewrite Hvs). cbn [mbind outcome_bind]. eexists. split; [done|]. split_and!; [| |exact Hs].
  - eapply consistent_ext; [|eapply (consistent_del (objects m) _ _ VAR name)]; [|unfold objects; rewrite Hvs, E2; reflexivity|exact C].
    intros k n. symmetry. exact (objects_delete_var m vs name k n E1).
  - cbn. intros n w [_ H]%lookup_delete_Some. apply (Hv n). by rewrite Hvs.
Qed.

Lemma stat_delete_ok name m : name <> [] -> tables_ok m -> exists m', nx_module_stat_delete name m = Ret m' /\ tables_ok m'.
Proof.
  intros Hn Hok. pose proof Hok as (C & Hv & Hs). unfold nx_module_stat_delete. rewrite name_ok by done. cbn [mbind outcome_bind].
  destruct (m_stats m) as [ss|] eqn:E1; [|by exists m]. destruct (ss !! name) as [s|] eqn:E2; [|by exists m].
  assert (stats_of m = ss) as Hss by (unfold stats_of; by rewrite E1).
  eexists. split; [done|]. split_and!; [|exact Hv|].
  - eapply consistent_ext; [|eapply (consistent_del (objects m) _ _ STAT name)]; [|unfold objects; rewrite Hss, E2; reflexivity|exact C].
    intros k n. symmetry. exact (objects_delete_stat m ss name k n E1).
  - cbn. intros n w [_ H]%lookup_delete_Some. apply (Hs n). by rewrite Hss.
Qed.

(** The event that fires is that of a live object. *)
Lemma expire_ok i m : tables_ok m -> exists m', expire i m = Ret m' /\ tables_ok m'.
Proof.
  intros (C & Hv & Hs). unfold expire. destruct (m_events m !! i) as [e|] eqn:Ei; [|by exists m; split_and!].
  assert (e ∈ m_events m) as He by (by eapply list_elem_of_lookup_2).
  pose proof (proj1 (c_events _ _ _ C e) He) as [Hobj _]. pose proof (consistent_take _ _ _ i e Ei C) as C'.
  destruct (ee_kind e) eqn:Ek; unfold objects in Hobj.
  - destruct (m_vars m) as [vs|] eqn:E1; [|assert (vars_of m = ∅) as Hno by (unfold vars_of; by rewrite E1); by rewrite Hno, lookup_empty in Hobj].
    assert (vars_of m = vs) as Hvs by (unfold vars_of; by rewrite E1). rewrite Hvs in Hobj.
    destruct (vs !! ee_name e) as [v|] eqn:E2; [|done]. injection Hobj as Hid Hx.
    unfold nx_module_var_expiry. cbn [m_vars set_events]. rewrite E1, E2, bool_decide_eq_true_2 by done.
    rewrite (Hv (ee_name e) v) by (by rewrite Hvs). cbn [mbind outcome_bind]. eexists. split; [done|]. split_and!; [| |exact Hs].
    + eapply consistent_ext; [|exact C']. intros k n. symmetry. exact (objects_delete_var m vs (ee_name e) k n E1).
    + cbn. intros n w [_ H]%lookup_delete_Some. apply (Hv n). by rewrite Hvs.
  - destruct (m_stats m) as [ss|] eqn:E1; [|assert (stats_of m = ∅) as Hno by (unfold stats_of; by rewrite E1); by rewrite Hno, lookup_empty in Hobj].
    assert (stats_of m = ss) as Hss by (unfold stats_of; by rewrite E1). rewrite Hss in Hobj.
    destruct (ss !! ee_name e) as [s|] eqn:E2; [|done]. injection Hobj as Hid Hx.
    unfold nx_module_stat_expiry. cbn [m_stats set_events]. rewrite E1, E2, bool_decide_eq_true_2 by done.
    eexists. split; [done|]. split_and!; [|exact Hv|].
    + eapply consistent_ext; [|exact C']. intros k n. symmetry. exact (objects_delete_stat m ss (ee_name e) k n E1).
    + cbn. intros n w [_ H]%lookup_delete_Some. apply (Hs n). by rewrite Hss.
Qed.
Lemma var_assign_ok name v w m : vars_of m !! name = Some v -> kill w = Ret tt -> tables_ok m ->
  exists m', var_assign name (va_id v) w m = Ret m' /\ tables_ok m'.
Proof.
  intros E1 Hw (C & Hv & Hs). unfold var_assign. rewrite E1, bool_decide_eq_true_2, (Hv name v E1) by done. eexists. split; [done|].
  split_and!; [| |exact Hs].
  - revert C. apply consistent_ext. intros [] n; [|done]. unfold objects. cbn.
    destruct (decide (n = name)) as [->|Hn]; [by rewrite E1, lookup_insert_eq|by rewrite lookup_insert_ne].
  - cbn. intros n u [[<- <-]|[_ H]]%lookup_insert_Some; [done|by eapply Hv].
Qed.

(** Updates keep the identity of a counter. *)
Definition same_stat (s s' : nx_module_stat) : Prop := s_id s' = s_id s /\ s_expiry s' = s_expiry s /\ stat_ok s'.

Lemma per_interval_tame s len : tame (fun _ => True) (per_interval s len).
Proof.
  eapply tame_bind; [apply tame_long|]. intros a _. eapply tame_bind; [apply tame_long|]. intros b _.
  eapply tame_mono; [apply quotient_tame|done].
Qed.

Lemma interval_end_tame s len : stat_ok s -> tame (same_stat s) (interval_end s len).
Proof.
  intros Hok. assert (forall z, same_stat s (keep_min z s)) as Hmin by (intros z; unfold keep_min; case_test; by split_and!).
  assert (forall z, same_stat s (keep_max z s)) as Hmax by (intros z; unfold keep_max; case_test; by split_and!).
  unfold interval_end. destruct (s_type s); try exact (Hmin _); try exact (Hmax _); try by split_and!.
  all: eapply tame_bind; [apply per_interval_tame|]; intros r _; try (eapply tame_bind; [apply tame_long|]; intros d _); cbn; try by split_and!.
  all: first [exact (Hmin _)|exact (Hmax _)].
Qed.

Lemma update_tame s t : stat_ok s -> 0 < t -> tame (same_stat s) (nx_module_stat_update s t).
Proof.
  intros Hok Ht. pose proof Hok as [Hl Hi]. unfold nx_module_stat_update. rewrite (proj2 (Z.ltb_lt 0 (s_last_update s))) by lia.
  cbn [ASSERT mbind outcome_bind]. eapply tame_bind; [apply tame_long|]. intros len _.
  case_bool_decide as Et; [by split_and!|]. destruct Hi as [Hi|Hi]; [done|]. rewrite (proj2 (Z.ltb_lt 0 (s_interval s))) by lia.
  cbn [ASSERT mbind outcome_bind]. eapply tame_bind; [apply tame_long|]. intros lim _. case_test; [|by split_and!].
  eapply tame_bind; [by apply interval_end_tame|]. intros s' (H1 & H2 & H3 & H4). by split_and!.
Qed.

Lemma add_tame s v t : stat_ok s -> 0 < t -> tame (same_stat s) (nx_module_stat_add s v t).
Proof.
  intros Hok Ht. eapply tame_bind; [by apply update_tame|]. intros s' Hs'. eapply tame_bind; [apply tame_long|]. intros n _. done.
Qed.

Lemma on_stat_ok name f m : tables_ok m -> (forall s, stat_ok s -> tame (same_stat s) (f s)) -> tame tables_ok (on_stat name f m).
Proof.
  intros Hok Hf. pose proof Hok as (C & Hv & Hs). unfold on_stat. destruct (stats_of m !! name) as [s|] eqn:E1; [|done].
  eapply tame_bind; [apply Hf; by eapply Hs|]. intros s' (H1 & H2 & H3). split_and!; [|exact Hv|].
  - revert C. apply consistent_ext. intros [] n; [done|]. unfold objects. cbn.
    destruct (decide (n = name)) as [->|Hn]; [|by rewrite lookup_insert_ne]. rewrite E1, lookup_insert_eq. cbn. by rewrite H1, H2.
  - cbn. intros n u [[<- <-]|[_ H]]%lookup_insert_Some; [done|by eapply Hs].
Qed.

Lemma run_top_ok o m : valid o -> tables_ok m -> tame tables_ok (run_top o m).
Proof.
  intros Hva Hok. destruct o; cbn [run_top valid] in *.
  - destruct (var_create_ok name expiry0 m Hva Hok) as (v & m' & -> & Hm' & _). exact Hm'.
  - destruct (var_delete_ok name m Hva Hok) as (m' & -> & Hm'). exact Hm'.
  - destruct Hva as [Hn Hw]. destruct (var_create_ok name 0 m Hn Hok) as (v & m' & -> & Hm' & Hl). cbn [mbind outcome_bind].
    destruct (var_assign_ok name v w m' Hl Hw Hm') as (m2 & -> & Hm2). exact Hm2.
  - destruct (stat_create_ok t name interval timeval expiry0 m Hva Hok) as (v & m' & -> & Hm' & _). exact Hm'.
  - apply on_stat_ok; [done|]. intros s Hs. by apply add_tame.
  - apply on_stat_ok; [done|]. intros s Hs. by apply update_tame.
  - destruct (stat_delete_ok name m Hva Hok) as (m' & -> & Hm'). exact Hm'.
  - destruct (expire_ok i m Hok) as (m' & -> & Hm'). exact Hm'.
Qed.

Lemma run_tops_ok os m : Forall valid os -> tables_ok m -> tame tables_ok (run_tops os m).
Proof.
  intros Hos. revert m. induction Hos as [|o os Ho _ IH]; intros m Hm; cbn [run_tops]; [done|].
  eapply tame_bind; [by apply run_top_ok|]. exact IH.
Qed.

End invariant.

Definition empty_tables : mstate := Mstate None None [] 0.

Lemma empty_tables_ok : tables_ok empty_tables.
Proof.
  split_and!; cbn; try (intros ? ?; by rewrite lookup_empty). split.
  - intros [] n i x; cbn; by rewrite lookup_empty.
  - intros [] [] n n' i x x'; cbn; by rewrite lookup_empty.
  - intros e. split; [set_solver|]. intros [H _]. destruct (ee_kind e); cbn in H; by rewrite lookup_empty in H.
  - constructor.
Qed.

(** C16: a sequence of operations on the variables and counters of a module (create, set or
    add, read, delete, expiry of an object), from empty tables, keeps them
    consistent with the pending expiry events: there is exactly one for every object with a
    lifetime and none for another, so that an event that fires deletes a live object; and
    it reaches no assertion and performs no undefined operation but integer arithmetic; it
    may end with an exception.  The operations are [valid]: names are not empty (the empty
    name, which [set_var] and [delete_var] let through, stops the process: see
    [empty_name_panics]); a counter is created of type COUNT or with a positive interval, and
    not with a time before 1970; the times of later additions and reads are after 1970;
    a value that is stored in a variable can be released; and the clock is after 1970. *)
Theorem tables_consistent `{T : TimeEnv} {ST : Stale} os : 0 < apr_time_now -> Forall valid os ->
  match run_tops os empty_tables with
  | Ret m => consistent (objects m) (m_events m) (m_next m)
  | Throw _ => True
  | Panic _ => False
  | Undef msg => msg = "signed overflow" \/ msg = "division by zero"
  end.
Proof.
  intros Hnow Hos. pose proof (run_tops_ok Hnow os empty_tables Hos empty_tables_ok) as H. unfold tame in H.
  destruct (run_tops os empty_tables); [exact (proj1 H)|exact H..].
Qed.


(** A variable and a counter with lifetimes; the variable expires, then the counter is
    deleted. *)
Definition example_tops : list top :=
  [ OVarCreate (lit "v") 50; OVarSet (lit "v") (nx_value_new_integer 1); OStatCreate NX_MODULE_STAT_TYPE_RATE (lit "r") 60 7 100;
    OStatAdd (lit "r") 5 8; OExpire 0; OVarDelete (lit "w"); OStatDelete (lit "r") ].

Lemma tables_consistent_witness :
  exists m, run_tops (T := DateFormat.utc_env 1) (ST := plain_stale) example_tops empty_tables = Ret m /\ m_events m = [] /\
    consistent (objects m) (m_events m) (m_next m).
Proof.
  pose proof (tables_consistent (T := DateFormat.utc_env 1) (ST := plain_stale) example_tops) as H.
  destruct (run_tops (T := DateFormat.utc_env 1) (ST := plain_stale) example_tops empty_tables) as [m|e|e|e] eqn:Em;
    [|vm_compute in Em; discriminate Em..].
  exists m. split; [reflexivity|]. split; [vm_compute in Em; injection Em as <-; reflexivity|]. apply H.
  - reflexivity.
  - repeat constructor; intros Hn; discriminate Hn.
Defined.

(** [set_var] and [delete_var] do not check the name: an empty one stops the process. *)
Theorem empty_name_panics `{T : TimeEnv} {ST : Stale} w m :
  run_top (OVarSet [] w) m = Panic "namelen > 0" /\ run_top (OVarDelete []) m = Panic "namelen > 0".
Proof. done. Qed.

End Statvar.
