(* ===== verification/ExprCore.v ===== *)
(** * The core functions and procedures (common/expr-core-funcproc-cb.c)

    The callbacks of the functions and procedures that every module may call.  A function
    gets its evaluated arguments and computes a value; a procedure gets the expressions of
    its arguments.  [menv] is what they use besides the context: the variables and counters
    of the module ([Statvar]), the log and the records sent to routes.  What the code calls
    outside the program is the class [CoreEnv].

    A deleted [raw_event] stays in the record as the empty string; the pointer
    [logdata->raw_event], which is then NULL, is not part of the association list. *)

From S2P Require Import Prelude Dlist Str Date DateFormat Value Logdata Expr ExprTypes Statvar.
Import Str Value Logdata Expr ExprTypes Statvar.

Module ExprCore.

(** APR, the C library and the configuration: the day of the year of a local time,
    formatting and parsing of times, the names of the host and its addresses (an address
    that is not IPv4 is [None]), and the names of the routes. *)
Class CoreEnv := {
  exp_yday : Z -> Z;
  apr_strftime : bytes -> Z -> time_exp -> option bytes;
  strptime : bytes -> bytes -> option tm;
  hostname : bytes;
  hostname_fqdn : bytes;
  host_addrs : option (list (option Z));
  route_names : list bytes
}.

Inductive nx_loglevel := NX_LOGLEVEL_DEBUG | NX_LOGLEVEL_INFO | NX_LOGLEVEL_WARNING | NX_LOGLEVEL_ERROR | NX_LOGLEVEL_CRITICAL.

Record menv := Menv { e_module : mstate; e_log : list (nx_loglevel * bytes); e_routed : list (bytes * alist); e_fwd : Z }.

Section core.
Context `{M : Malloc} `{E : ValueEnv} {PC : Pcre} {ST : Stale} {CE : CoreEnv}.
Abbreviation ectx := (@ectx menv).
Abbreviation prog A := (cmd (ectx * value) A).
Abbreviation action A := (cmd ectx A).
Abbreviation expr := (@expr menv).

(** ** Arguments of functions *)

Definition num_arg (n : Z) (args : list value) (msg : string) : prog unit := lift (ASSERT (zlen args =? n) msg).
Definition arg (i : nat) (args : list value) : prog value := lift (deref (args !! i) "args").

Definition invalid_type (v : value) : prog unit := throw_type (v_type v) "'%s' type argument is invalid".

(** A function of one argument of type [t]: undefined if the argument is. *)
Definition unary (t ret : nx_value_type) (f : value -> prog unit) (args : list value) : prog unit :=
  _ ← num_arg 1 args "num_arg == 1";
  a ← arg 0 args;
  if negb (has_type t a) then invalid_type a
  else
    _ ← set_type ret;
    if undefined a then set_defined FALSE else f a.

(** The string [s] is assigned and the result defined. *)
Definition return_string (s : outcome bytes) : prog unit :=
  s ← lift s; _ ← set_data (DString s); set_defined TRUE.

(** *** Strings *)

(** The loop of [lc] and [uc] over the C string, on a copy. *)
Definition map_chars (f : byte -> byte) (s : bytes) : outcome bytes :=
  c ← nx_string_clone (exact s);
  b ← mem_write (buf c) 0 (map f (cstr s));
  Ret (take (Z.to_nat (len c)) b).

Definition nx_expr_func__lc : list value -> prog unit :=
  unary NX_VALUE_TYPE_STRING NX_VALUE_TYPE_STRING (fun a => s ← lift (as_string (v_data a)); return_string (map_chars tolower s)).
Definition nx_expr_func__uc : list value -> prog unit :=
  unary NX_VALUE_TYPE_STRING NX_VALUE_TYPE_STRING (fun a => s ← lift (as_string (v_data a)); return_string (map_chars toupper s)).

Definition nx_expr_func__str_size (args : list value) : prog unit :=
  _ ← num_arg 1 args "num_arg == 1";
  a ← arg 0 args;
  if negb (has_type NX_VALUE_TYPE_STRING a) then throw_type (v_type a) "'%s' type argument is invalid for first argument, string required"
  else
    _ ← set_type NX_VALUE_TYPE_INTEGER;
    if undefined a then mret tt
    else s ← lift (as_string (v_data a)); _ ← set_data (DInteger (zlen s)); set_defined TRUE.

(** The end of the substring: [None] if the result is undefined. *)
Definition substr_to (args : list value) (from n : Z) : prog (option Z) :=
  if zlen args =? 3 then
    c ← arg 2 args;
    if negb (has_type NX_VALUE_TYPE_INTEGER c) then
      _ ← throw_type (v_type c) "'%s' type argument is invalid for third argument, integer required"; mret None
    else if defined c then
      to ← lift (as_integer (v_data c));
      if to <? 0 then lift (Throw "negative integer invalid for third argument")
      else if to <? from then mret None
      else mret (Some (if n <? to then n else to))
    else mret (Some 0)
  else mret (Some n).

Definition nx_expr_func__substr (args : list value) : prog unit :=
  _ ← lift (ASSERT ((zlen args =? 2) || (zlen args =? 3)) "(num_arg == 2) || (num_arg == 3)");
  a ← arg 0 args;
  if negb (has_type NX_VALUE_TYPE_STRING a) then throw_type (v_type a) "'%s' type argument is invalid for first argument, string required"
  else
    _ ← set_type NX_VALUE_TYPE_STRING;
    if undefined a then mret tt
    else
      b ← arg 1 args;
      if negb (has_type NX_VALUE_TYPE_INTEGER b) then throw_type (v_type b) "'%s' type argument is invalid for second argument, integer required"
      else if undefined b then mret tt
      else
        from ← lift (as_integer (v_data b));
        s ← lift (as_string (v_data a));
        if from <? 0 then lift (Throw "negative integer invalid for second argument")
        else if zlen s <? from then mret tt
        else
          to ← substr_to args from (zlen s);
          match to with
          | None => mret tt
          | Some to =>
              _ ← lift (ASSERT (from <=? to) "to >= from");
              _ ← lift (ASSERT (from <=? zlen s) "from <= args[0].string->len");
              return_string (c ← nx_string_create (drop (Z.to_nat from) (s ++ [x00])) (to - from); Ret (content c))
          end.

(** [strstr]: the bytes before the first occurrence. *)
Fixpoint strstr (s needle : bytes) : option nat :=
  if bool_decide (take (length needle) s = needle) then Some 0%nat
  else match s with [] => None | _ :: s => S <$> strstr s needle end.

(** [result] is created when it is needed first. *)
Definition result_of (result : option nx_string) (n : Z) : outcome nx_string :=
  match result with Some r => Ret r | None => nx_string_new_size n end.

(** The loop of [replace]: [str] is what remains of the subject of [n] bytes. *)
Fixpoint replace_loop (fuel : nat) (count i : Z) (src dst str : bytes) (n : Z) (result : option nx_string) : outcome (option nx_string * bytes) :=
  if (0 <? count) && (count <=? i) then Ret (result, str)
  else
    match strstr (cstr str) (cstr src) with
    | None => Ret (result, str)
    | Some k =>
        r ← result_of result n;
        r ← nx_string_append r (str ++ [x00]) (Z.of_nat k);
        r ← nx_string_append r (dst ++ [x00]) (zlen dst);
        match fuel with
        | O => Undef "out of fuel"
        | S fuel => replace_loop fuel count (i + 1) src dst (drop (k + length src) str) n (Some r)
        end
    end.

Definition replace_string (subject src dst : bytes) (count : Z) : outcome (option bytes) :=
  p ← replace_loop (length subject) count 0 src dst subject (zlen subject) None;
  result ← (if bool_decide (snd p = []) then Ret (fst p)
            else r ← result_of (fst p) (zlen subject); Some <$> nx_string_append r (snd p ++ [x00]) (-1));
  Ret (content <$> (result : option nx_string)).

(** The text of the third argument of [replace]. *)
Definition replace_dst (args : list value) : prog bytes :=
  c ← arg 2 args;
  if negb (defined c) then mret []
  else if negb (has_type NX_VALUE_TYPE_STRING c) then
    _ ← throw_type (v_type c) "'%s' type argument is invalid for argument 'dst', string required"; mret []
  else lift (as_string (v_data c)).

Definition replace_count (args : list value) : prog Z :=
  if zlen args =? 4 then
    d ← arg 3 args;
    if negb (has_type NX_VALUE_TYPE_INTEGER d) then
      _ ← throw_type (v_type d) "'%s' type argument is invalid for argument 'count', integer required"; mret 0
    else if defined d then
      n ← lift (as_integer (v_data d));
      if n <? 0 then lift (Throw "'positive integer required for argument 'count'") else mret n
    else mret 0
  else mret 0.

Definition nx_expr_func__replace (args : list value) : prog unit :=
  _ ← lift (ASSERT ((zlen args =? 3) || (zlen args =? 4)) "(num_arg == 3) || (num_arg == 4)");
  _ ← set_type NX_VALUE_TYPE_STRING;
  a ← arg 0 args;
  if undefined a then mret tt
  else if negb (has_type NX_VALUE_TYPE_STRING a) then throw_type (v_type a) "'%s' type argument is invalid for argument 'subject', string required"
  else
    subject ← lift (as_string (v_data a));
    b ← arg 1 args;
    if negb (defined b) then return_string (c ← nx_string_clone (exact subject); Ret (content c))
    else if negb (has_type NX_VALUE_TYPE_STRING b) then throw_type (v_type b) "'%s' type argument is invalid for argument 'src', string required"
    else
      src ← lift (as_string (v_data b));
      dst ← replace_dst args;
      count ← replace_count args;
      if bool_decide (subject = []) then mret tt
      else if bool_decide (src = []) then mret tt
      else
        r ← lift (replace_string subject src dst count);
        match r with
        | None => mret tt
        | Some s => _ ← set_defined TRUE; set_data (DString s)
        end.

(** *** Types and conversions *)

Definition nx_expr_func__type (args : list value) : prog unit :=
  _ ← num_arg 1 args "num_arg == 1";
  a ← arg 0 args;
  _ ← set_type NX_VALUE_TYPE_STRING;
  if undefined a then set_defined FALSE
  else return_string (n ← nx_value_type_to_string (v_type a); c ← nx_string_create (n ++ [x00]) (-1); Ret (content c)).

Definition nx_expr_func__to_string (args : list value) : prog unit :=
  _ ← num_arg 1 args "num_arg == 1";
  a ← arg 0 args;
  _ ← set_type NX_VALUE_TYPE_STRING;
  if undefined a then set_defined FALSE
  else
    s ← lift (nx_value_to_string a);
    match s with
    | Some s => return_string (c ← nx_string_create_owned (s ++ [x00]) (-1); Ret (content c))
    | None => set_defined FALSE
    end.

Definition nx_expr_func__to_integer (args : list value) : prog unit :=
  _ ← num_arg 1 args "num_arg == 1";
  a ← arg 0 args;
  _ ← set_type NX_VALUE_TYPE_INTEGER;
  _ ← set_defined FALSE;
  if undefined a then mret tt
  else if has_type NX_VALUE_TYPE_STRING a then
    s ← lift (as_string (v_data a)); z ← lift (nx_value_parse_int (cstr s)); _ ← set_data (DInteger z); set_defined TRUE
  else if has_type NX_VALUE_TYPE_DATETIME a then
    t ← lift (as_datetime (v_data a)); _ ← set_data (DInteger t); set_defined TRUE
  else invalid_type a.

Definition nx_expr_func__to_datetime (args : list value) : prog unit :=
  _ ← num_arg 1 args "num_arg == 1";
  a ← arg 0 args;
  _ ← set_type NX_VALUE_TYPE_DATETIME;
  _ ← set_defined FALSE;
  if undefined a then mret tt
  else if negb (has_type NX_VALUE_TYPE_INTEGER a) then invalid_type a
  else
    _ ← set_defined TRUE; z ← lift (as_integer (v_data a)); set_data (DDatetime z).

(** The bytes of an address, by C division and conversion to [uint8_t]. *)
Definition ip4_bytes (z : Z) (ntoa : bool) : bytes :=
  let a := [zb (Z.rem (Z.quot z 16777216) 256); zb (Z.rem (Z.quot z 65536) 256); zb (Z.rem (Z.quot z 256) 256); zb (Z.rem z 256)] in
  if ntoa then rev a else a.

Definition nx_expr_func__to_ip4addr (args : list value) : prog unit :=
  _ ← lift (ASSERT ((zlen args =? 1) || (zlen args =? 2)) "(num_arg == 1) || (num_arg == 2)");
  a ← arg 0 args;
  if negb (has_type NX_VALUE_TYPE_INTEGER a) then invalid_type a
  else
    _ ← set_type NX_VALUE_TYPE_IP4ADDR;
    if undefined a then set_defined FALSE
    else
      ntoa ← (if zlen args =? 2 then
                b ← arg 1 args;
                if negb (has_type NX_VALUE_TYPE_BOOLEAN b) then _ ← invalid_type a; mret FALSE
                else if defined b then lift (as_boolean (v_data b)) else mret FALSE
              else mret FALSE);
      z ← lift (as_integer (v_data a));
      _ ← set_data (DIp4addr (ip4_bytes z (negb (ntoa =? FALSE))));
      set_defined TRUE.

(** *** Dates *)

Definition nx_expr_func__now (args : list value) : prog unit :=
  _ ← num_arg 0 args "num_arg == 0";
  _ ← set_type NX_VALUE_TYPE_DATETIME; _ ← set_data (DDatetime apr_time_now); set_defined TRUE.

(** A component of the local time. *)
Definition date_part (f : Z -> time_exp -> outcome Z) : list value -> prog unit :=
  unary NX_VALUE_TYPE_DATETIME NX_VALUE_TYPE_INTEGER (fun a =>
    t ← lift (as_datetime (v_data a));
    ds ← lift (throw_none (apr_time_exp_lt t) "couldn't convert datetime");
    z ← lift (f t ds);
    _ ← set_data (DInteger z);
    set_defined TRUE).

Definition nx_expr_func__microsecond := date_part (fun _ ds => Ret (x_usec ds)).
Definition nx_expr_func__second := date_part (fun _ ds => Ret (x_sec ds)).
Definition nx_expr_func__minute := date_part (fun _ ds => Ret (x_min ds)).
Definition nx_expr_func__hour := date_part (fun _ ds => Ret (x_hour ds)).
Definition nx_expr_func__day := date_part (fun _ ds => Ret (x_mday ds)).
Definition nx_expr_func__month := date_part (fun _ ds => Ret (x_mon ds + 1)).
Definition nx_expr_func__year := date_part (fun _ ds => Ret (if x_year ds <? 1900 then x_year ds + 1900 else x_year ds)).
Definition nx_expr_func__dayofyear := date_part (fun t _ => Ret (exp_yday t + 1)).
Definition nx_expr_func__dayofweek := date_part (fun _ ds => w ← deref (x_wday ds) "tm_wday"; Ret (w + 1)).

(** The result of [nx_date_fix_year] is not checked. *)
Definition nx_expr_func__fix_year : list value -> prog unit :=
  unary NX_VALUE_TYPE_DATETIME NX_VALUE_TYPE_DATETIME (fun a =>
    t ← lift (as_datetime (v_data a));
    r ← lift (Date.nx_date_fix_year t);
    _ ← set_data (DDatetime (default t r));
    set_defined TRUE).

Definition nx_expr_func__parsedate : list value -> prog unit :=
  unary NX_VALUE_TYPE_STRING NX_VALUE_TYPE_DATETIME (fun a =>
    s ← lift (as_string (v_data a));
    r ← lift (Date.nx_date_parse (cstr s) None);
    match fst r with
    | Some t => _ ← set_data (DDatetime t); set_defined TRUE
    | None => set_defined FALSE
    end).

(** Without a format the size of the buffer is taken from the length of the new string,
    which is 0. *)
Definition nx_expr_func__strftime (args : list value) : prog unit :=
  _ ← num_arg 2 args "num_arg == 2";
  a ← arg 0 args;
  b ← arg 1 args;
  if negb (has_type NX_VALUE_TYPE_DATETIME a) then throw_type (v_type a) "got '%s' for first argument of function 'strftime(datetime, string)'"
  else if negb (has_type NX_VALUE_TYPE_STRING b) then throw_type (v_type b) "got '%s' for second argument of function 'strftime(datetime, string)'"
  else
    _ ← set_type NX_VALUE_TYPE_STRING;
    if undefined a then set_defined FALSE
    else
      s ← lift nx_string_new;
      _ ← set_data (DString (content s));
      _ ← set_defined TRUE;
      t ← lift (as_datetime (v_data a));
      if undefined b then
        r ← lift (Date.nx_date_to_iso (buf s) (len s) t);
        set_data (DString (take 20 (default (buf s) r)))
      else
        fmt ← lift (as_string (v_data b));
        tm ← lift (throw_none (apr_time_exp_lt t) "apr_time_exp_lt");
        r ← lift (throw_none (apr_strftime (cstr fmt) (bufsize s) tm) "strftime() couldn't convert datetime to string");
        set_data (DString r).

Definition nx_expr_func__strptime (args : list value) : prog unit :=
  _ ← num_arg 2 args "num_arg == 2";
  a ← arg 0 args;
  b ← arg 1 args;
  if negb (has_type NX_VALUE_TYPE_STRING a) then throw_type (v_type a) "string required for first argument of function 'strptime(string, string)', got %s"
  else if negb (has_type NX_VALUE_TYPE_STRING b) then throw_type (v_type b) "string required for second argument of function 'strptime(datetime, string)', got %s"
  else
    _ ← set_type NX_VALUE_TYPE_DATETIME;
    _ ← set_defined FALSE;
    if undefined a || undefined b then mret tt
    else
      s ← lift (as_string (v_data a));
      fmt ← lift (as_string (v_data b));
      match strptime (cstr s) (cstr fmt) with
      | None => mret tt
      | Some t =>
          let tval := mktime (Tm (tm_year t) (tm_mon t) (tm_mday t) (tm_hour t) (tm_min t) (tm_sec t) (-1) (tm_gmtoff t)) in
          if tval =? -1 then lift (Throw "mktime failed")
          else
            t ← lift (throw_none (apr_time_ansi_put tval) "apr_time_ansi_put");
            _ ← set_defined TRUE;
            set_data (DDatetime t)
      end.

(** *** The host *)

(** [apr_cpystrn] into a new string of 255 bytes. *)
Definition host_string (name : bytes) (args : list value) : prog unit :=
  _ ← num_arg 0 args "num_arg == 0";
  _ ← set_type NX_VALUE_TYPE_STRING;
  s ← lift (nx_string_new_size 255);
  b ← lift (mem_write (buf s) 0 (take 254 (cstr name) ++ [x00]));
  _ ← set_defined TRUE;
  set_data (DString (cstr b)).

Definition nx_expr_func__hostname := host_string hostname.
Definition nx_expr_func__hostname_fqdn := host_string hostname_fqdn.

(** The [nth] address that is not a loopback address; [i] counts from 1. *)
Fixpoint nth_ip (nth i : Z) (l : list (option Z)) : option bytes :=
  match l with
  | [] => None
  | Some ip :: l =>
      let a := ip4_bytes ip false in
      if bool_decide (head a = Some (zb 127)) then nth_ip nth i l
      else if i =? nth then Some a else nth_ip nth (i + 1) l
  | None :: l => nth_ip nth i l
  end.

Definition find_ip (nth : Z) : prog unit :=
  _ ← set_type NX_VALUE_TYPE_IP4ADDR;
  _ ← set_defined FALSE;
  l ← lift (throw_none host_addrs "cannot resolve hostname to ip address");
  match nth_ip nth 1 l with
  | Some a => _ ← set_data (DIp4addr a); set_defined TRUE
  | None => mret tt
  end.

Definition nx_expr_func__host_ip (args : list value) : prog unit :=
  if zlen args =? 1 then
    a ← arg 0 args;
    if negb (has_type NX_VALUE_TYPE_INTEGER a) then throw_type (v_type a) "got '%s' for first argument of function 'host_ip(integer)'"
    else if undefined a then set_defined FALSE
    else
      nth ← lift (as_integer (v_data a));
      if nth <=? 0 then lift (Throw "Positive non-zero number required for argument nth in function 'host_ip(integer)', got %d")
      else find_ip nth
  else _ ← num_arg 0 args "num_arg == 0"; find_ip 1.

(** *** The record and the module *)

Definition nx_expr_func__dropped (args : list value) : prog unit :=
  _ ← num_arg 0 args "num_arg == 0";
  _ ← set_type NX_VALUE_TYPE_BOOLEAN;
  _ ← set_defined TRUE;
  x ← get_ctx;
  set_boolean (bool_decide (x_logdata x = None)).

Definition with_env (f : menv -> menv) (x : ectx) : ectx := Ectx (x_logdata x) (x_captured x) (x_dropped x) (f (x_env x)).
Definition with_module (m : mstate) (x : ectx) : ectx := with_env (fun e => Menv m (e_log e) (e_routed e) (e_fwd e)) x.
Definition module_of (x : ectx) : mstate := e_module (x_env x).

Definition undefined_result : prog unit := _ ← set_defined FALSE; set_type NX_VALUE_TYPE_UNKNOWN.

Definition nx_expr_func__get_var (args : list value) : prog unit :=
  _ ← num_arg 1 args "num_arg == 1";
  a ← arg 0 args;
  if negb (has_type NX_VALUE_TYPE_STRING a) then invalid_type a
  else
    name ← lift (as_string (v_data a));
    x ← get_ctx;
    match vars_of (module_of x) !! name with
    | None => undefined_result
    | Some v => w ← lift (Value.nx_value_clone (va_value v)); Expr.set_value w
    end.

(** The value of a counter as [nx_value_clone] copies it. *)
Definition stat_value (s : nx_module_stat) : value :=
  if s_defined s then nx_value_new_integer (s_integer s) else NxValue NX_VALUE_TYPE_INTEGER FALSE DUninit.

Definition get_stat_time (args : list value) : prog Z :=
  if zlen args =? 2 then
    b ← arg 1 args;
    if undefined b then mret 0
    else if negb (has_type NX_VALUE_TYPE_DATETIME b) then
      _ ← throw_type (v_type b) "got '%s' argument, but datetime is required for function 'get_stat(string, datetime)'"; mret 0
    else lift (as_datetime (v_data b))
  else mret 0.

Definition nx_expr_func__get_stat (args : list value) : prog unit :=
  _ ← lift (ASSERT (1 <=? zlen args) "num_arg >= 1");
  a ← arg 0 args;
  if negb (defined a && has_type NX_VALUE_TYPE_STRING a) then invalid_type a
  else
    timeval ← get_stat_time args;
    name ← lift (as_string (v_data a));
    x ← get_ctx;
    match stats_of (module_of x) !! name with
    | None => undefined_result
    | Some s =>
        s ← lift (nx_module_stat_update s (if timeval =? 0 then apr_time_now else timeval));
        _ ← put_ctx (with_module (stat_store name s (module_of x)) x);
        Expr.set_value (stat_value s)
    end.

(** ** Procedures *)

(** [nx_expr_evaluate] into a local variable. *)
Definition eval_arg (e : expr) : action value := on_value fresh_value (nx_expr_evaluate e).

(** The argument [i]; a missing one is a NULL pointer that is asserted not to be. *)
Definition proc_args (args : option (list expr)) : action (list expr) := lift (match args with Some l => Ret l | None => Panic "args != NULL" end).
Definition proc_arg (i : nat) (args : list expr) : action expr := lift (match args !! i with Some e => Ret e | None => Panic "arg != NULL" end).

(** [nx_value_kill] of several values, then [throw_msg]. *)
Definition kill_throw {A} (vs : list value) (msg : string) : action A := _ ← lift (kill_all vs); lift (Throw msg).

(** *** Logging *)

Fixpoint log_text (args : list expr) : action bytes :=
  match args with
  | [] => mret []
  | e :: args =>
      v ← eval_arg e;
      s ← lift (nx_value_to_string v);
      _ ← lift (kill v);
      rest ← log_text args;
      mret (default [] s ++ rest)
  end.

Definition nx_expr_proc__log (level : nx_loglevel) (args : option (list expr)) : action unit :=
  l ← proc_args args;
  text ← log_text l;
  x ← get;
  put (with_env (fun e => Menv (e_module e) (e_log e ++ [(level, text)]) (e_routed e) (e_fwd e)) x).

Definition nx_expr_proc__log_debug := nx_expr_proc__log NX_LOGLEVEL_DEBUG.
Definition nx_expr_proc__debug := nx_expr_proc__log NX_LOGLEVEL_DEBUG.
Definition nx_expr_proc__log_info := nx_expr_proc__log NX_LOGLEVEL_INFO.
Definition nx_expr_proc__log_warning := nx_expr_proc__log NX_LOGLEVEL_WARNING.
Definition nx_expr_proc__log_error := nx_expr_proc__log NX_LOGLEVEL_ERROR.

(** *** The record *)

Definition nx_expr_proc__drop (args : option (list expr)) : action unit :=
  x ← get;
  match x_logdata x with
  | None => lift (Throw "no logdata available to drop(), already dropped?")
  | Some _ => put (Ectx None (x_captured x) true (x_env x))
  end.

(** [while ( nx_logdata_delete_field(...) == TRUE )] *)
Fixpoint delete_loop (fuel : nat) (key : bytes) (al : alist) : outcome alist :=
  let '(al, b) := alist_delete key al in
  if b then match fuel with O => Undef "out of fuel" | S fuel => delete_loop fuel key al end else Ret al.

Definition nx_expr_proc__delete (args : option (list expr)) : action unit :=
  l ← proc_args args;
  x ← get;
  match x_logdata x with
  | None => lift (Throw "no logdata to delete() from, possibly dropped")
  | Some al =>
      e ← proc_arg 0 l;
      match field_of e with
      | None => lift (Throw "field type required as argument for delete($field)")
      | Some field => al ← lift (delete_loop (length al + 1) field al); put (with_logdata (Some al) x)
      end
  end.

(** [nx_logdata_rename_field] *)
Definition rename_field (old new : bytes) (al : alist) : outcome alist :=
  if strcmp_eq old raw_key then Throw "cannot rename field 'raw_event'"
  else
    match alist_get old al with
    | None => Ret al
    | Some v =>
        if strcmp_eq new raw_key && negb (strcasecmp_eq old new) && bool_decide (alist_get new al <> None) && negb (has_type NX_VALUE_TYPE_STRING v)
        then Throw "string type required for 'raw_event'"
        else Ret (alist_rename old new al)
    end.

(** A defined string that is not empty; the values of [vs] are released otherwise. *)
Definition is_string (v : value) : bool := defined v && has_type NX_VALUE_TYPE_STRING v.

Definition nx_expr_proc__rename_field (args : option (list expr)) : action unit :=
  x ← get;
  if bool_decide (x_logdata x = None) then lift (Throw "no logdata available to rename_field(), already dropped?")
  else
    l ← proc_args args;
    e1 ← proc_arg 0 l;
    v1 ← eval_arg e1;
    if negb (is_string v1) then kill_throw [v1] "string required for first argument of rename_field()"
    else
      old ← lift (as_string (v_data v1));
      if bool_decide (old = []) then kill_throw [v1] "zero sized string invalid for first arg of rename_field()"
      else
        e2 ← proc_arg 1 l;
        v2 ← eval_arg e2;
        if negb (is_string v2) then kill_throw [v1; v2] "string required for second argument of rename_field()"
        else
          new ← lift (as_string (v_data v2));
          if bool_decide (new = []) then kill_throw [v1; v2] "zero sized string is invalid for second arg of rename_field()"
          else
            x ← get;
            match x_logdata x with
            | None => lift (Panic "logdata != NULL")
            | Some al =>
                al ← lift (try_kill [v1; v2] (rename_field (cstr old) (cstr new) al));
                _ ← put (with_logdata (Some al) x);
                lift (kill_all [v1; v2])
            end.

(** *** Routes *)

(** The name of a route, checked. *)
Definition route_arg (args : option (list expr)) (no_record no_string no_route : string) : action (bytes * alist) :=
  l ← proc_args args;
  x ← get;
  match x_logdata x with
  | None => lift (Throw no_record)
  | Some _ =>
      e ← proc_arg 0 l;
      v ← eval_arg e;
      if negb (is_string v) then kill_throw [v] no_string
      else
        name ← lift (as_string (v_data v));
        if bool_decide (cstr name ∈ route_names) then
          _ ← lift (kill v); x ← get; al ← lift (deref (x_logdata x) "logdata"); mret (cstr name, al)
        else kill_throw [v] no_route
  end.

(** [nx_module_add_logdata_to_route] *)
Definition send (r : bytes * alist) (fwd : Z) : action unit :=
  x ← get; put (with_env (fun e => Menv (e_module e) (e_log e) (e_routed e ++ [r]) (e_fwd e + fwd)) x).

Definition nx_expr_proc__reroute (args : option (list expr)) : action unit :=
  r ← route_arg args "no logdata available to reroute(), already dropped?" "string argument required for reroute(routename)"
    "invalid route name specified for reroute(): '%s'";
  _ ← send r 0;
  x ← get;
  put (with_logdata None x).

Definition nx_expr_proc__add_to_route (args : option (list expr)) : action unit :=
  r ← route_arg args "no logdata available to add_to_route(), already dropped?" "string argument required for add_to_route(routename)"
    "invalid route name specified for add_to_route(): '%s'";
  send r 1.

(** *** Variables *)

(** The expiry of a new object: a lifetime in seconds or a point in time; one that is in
    the past is 0. *)
Definition expiry_of (v : value) : outcome Z :=
  if has_type NX_VALUE_TYPE_INTEGER v then z ← as_integer (v_data v); add_seconds apr_time_now z
  else t ← as_datetime (v_data v); Ret (if t <? apr_time_now then 0 else t).

Definition is_expiry (v : value) : bool := defined v && (has_type NX_VALUE_TYPE_INTEGER v || has_type NX_VALUE_TYPE_DATETIME v).

Definition on_module {A} (f : mstate -> outcome (A * mstate)) : action A :=
  x ← get; r ← lift (f (module_of x)); _ ← put (with_module (snd r) x); mret (fst r).

Definition nx_expr_proc__create_var (args : option (list expr)) : action unit :=
  l ← proc_args args;
  e1 ← proc_arg 0 l;
  v1 ← eval_arg e1;
  if negb (is_string v1) then kill_throw [v1] "string argument required for create_var(varname)"
  else
    name ← lift (as_string (v_data v1));
    if bool_decide (name = []) then kill_throw [v1] "zero sized string argument is invalid for create_var(varname)"
    else
      expiry ← (match l !! 1%nat with
                | None => mret 0
                | Some e2 =>
                    v2 ← eval_arg e2;
                    if negb (is_expiry v2) then kill_throw [v1] "integer or datetime argument required for create_var(varname)"
                    else lift (expiry_of v2)
                end);
      _ ← on_module (nx_module_var_create name expiry);
      lift (kill v1).

(** The argument is not released. *)
Definition nx_expr_proc__delete_var (args : option (list expr)) : action unit :=
  l ← proc_args args;
  e ← proc_arg 0 l;
  v ← eval_arg e;
  if negb (is_string v) then kill_throw [v] "string argument required for delete_var(varname)"
  else
    name ← lift (as_string (v_data v));
    on_module (fun m => m ← nx_module_var_delete name m; Ret (tt, m)).

(** The variable is created or found before its new value is evaluated. *)
Definition nx_expr_proc__set_var (args : option (list expr)) : action unit :=
  l ← proc_args args;
  e1 ← proc_arg 0 l;
  e2 ← proc_arg 1 l;
  v1 ← eval_arg e1;
  if negb (is_string v1) then kill_throw [v1] "string argument required for set_var(varname, value)"
  else
    name ← lift (as_string (v_data v1));
    var ← on_module (nx_module_var_create name 0);
    _ ← lift (kill v1);
    w ← eval_arg e2;
    on_module (fun m => m ← var_assign name (va_id var) w m; Ret (tt, m)).

(** *** Counters *)

(** The name and the type of a new counter. *)
Definition stat_head (l : list expr) : action (value * value * bytes * nx_module_stat_type) :=
  e1 ← proc_arg 0 l;
  v1 ← eval_arg e1;
  if negb (is_string v1) then kill_throw [v1] "string required for the first argument of create_stat()"
  else
    name ← lift (as_string (v_data v1));
    if bool_decide (name = []) then kill_throw [v1] "zero sized string statname argument is invalid for create_stat()"
    else
      e2 ← proc_arg 1 l;
      v2 ← eval_arg e2;
      if negb (is_string v2) then kill_throw [v1; v2] "string required for second argument of create_stat()"
      else
        t ← lift (as_string (v_data v2));
        match nx_module_stat_type_from_string (cstr t) with
        | None => kill_throw [v1; v2] "invalid stat type given for second argument of create_stat()"
        | Some t => mret (v1, v2, name, t)
        end.

(** The interval; without one the type has to be COUNT. *)
Definition stat_interval (l : list expr) (vs : list value) (t : nx_module_stat_type) : action Z :=
  match l !! 2%nat with
  | None =>
      if bool_decide (t = NX_MODULE_STAT_TYPE_COUNT) then mret 0
      else kill_throw vs "create_stat(name, type) can only be used with COUNT, for other types the interval parameter is required"
  | Some e3 =>
      v3 ← eval_arg e3;
      if negb (defined v3 && has_type NX_VALUE_TYPE_INTEGER v3) then kill_throw (vs ++ [v3]) "integer type required for third argument of create_stat()"
      else
        interval ← lift (as_integer (v_data v3));
        if interval <=? 0 then kill_throw vs "interval passed to create_stat() must be greater than zero" else mret interval
  end.

(** The start: the member [datetime] is read also if the value is undefined. *)
Definition stat_time (l : list expr) (vs : list value) : action Z :=
  match l !! 3%nat with
  | None => mret 0
  | Some e4 =>
      v4 ← eval_arg e4;
      if defined v4 && negb (has_type NX_VALUE_TYPE_DATETIME v4) then kill_throw (vs ++ [v4]) "datetime type required for time argument of create_stat()"
      else lift (as_datetime (v_data v4))
  end.

Definition stat_expiry (l : list expr) (vs : list value) : action Z :=
  match l !! 4%nat with
  | None => mret 0
  | Some e5 =>
      v5 ← eval_arg e5;
      if negb (is_expiry v5) then kill_throw (vs ++ [v5]) "integer or datetime required for lifetime/expiry argument of create_stat()"
      else lift (expiry_of v5)
  end.

Definition nx_expr_proc__create_stat (args : option (list expr)) : action unit :=
  l ← proc_args args;
  '(v1, v2, name, t) ← stat_head l;
  interval ← stat_interval l [v1; v2] t;
  timeval ← stat_time l [v1; v2];
  expiry ← stat_expiry l [v1; v2];
  _ ← on_module (nx_module_stat_create t name interval timeval expiry);
  lift (kill_all [v1; v2]).

Definition add_stat_time (l : list expr) : action Z :=
  match l !! 2%nat with
  | None => mret 0
  | Some e3 =>
      v3 ← eval_arg e3;
      if negb (defined v3 && has_type NX_VALUE_TYPE_DATETIME v3) then kill_throw [v3] "datetime required for third argument of add_stat()"
      else lift (as_datetime (v_data v3))
  end.

Definition nx_expr_proc__add_stat (args : option (list expr)) : action unit :=
  l ← proc_args args;
  e1 ← proc_arg 0 l;
  e2 ← proc_arg 1 l;
  v1 ← eval_arg e1;
  if negb (is_string v1) then kill_throw [v1] "string argument required for add_stat(statname, value)"
  else
    name ← lift (as_string (v_data v1));
    x ← get;
    match m_stats (module_of x) with
    | None => kill_throw [v1] "no stats exist, cannot call add_stat() on nonexistent stat"
    | Some ss =>
        if bool_decide (ss !! name = None) then kill_throw [v1] "cannot call add_stat() on nonexistent stat"
        else
          _ ← lift (kill v1);
          v2 ← eval_arg e2;
          if negb (defined v2 && has_type NX_VALUE_TYPE_INTEGER v2) then kill_throw [v2] "integer required for second argument of add_stat()"
          else
            val ← lift (as_integer (v_data v2));
            timeval ← add_stat_time l;
            on_module (fun m => m ← on_stat name (fun s => nx_module_stat_add s val (if timeval =? 0 then apr_time_now else timeval)) m; Ret (tt, m))
    end.

(** The delay itself is not modelled. *)
Definition nx_expr_proc__sleep (args : option (list expr)) : action unit :=
  l ← proc_args args;
  e ← proc_arg 0 l;
  v ← eval_arg e;
  if negb (defined v && has_type NX_VALUE_TYPE_INTEGER v) then kill_throw [v] "integer argument required for sleep(interval)"
  else _ ← lift (as_integer (v_data v)); mret tt.

(** ** Declarations (common/expr-core-funcproc.c) *)

Definition global_func (name : string) (cb : list value -> prog unit) (ret : nx_value_type) (args : list nx_value_type) : @func menv :=
  Func (Sig None (lit name) NX_EXPR_FUNCPROC_TYPE_GLOBAL args) cb ret.

Definition nx_api_declarations_core_funcs : list (@func menv) :=
  [ global_func "lc" nx_expr_func__lc NX_VALUE_TYPE_STRING [NX_VALUE_TYPE_STRING];
    global_func "uc" nx_expr_func__uc NX_VALUE_TYPE_STRING [NX_VALUE_TYPE_STRING];
    global_func "now" nx_expr_func__now NX_VALUE_TYPE_DATETIME [];
    global_func "type" nx_expr_func__type NX_VALUE_TYPE_STRING [NX_VALUE_TYPE_UNKNOWN];
    global_func "microsecond" nx_expr_func__microsecond NX_VALUE_TYPE_INTEGER [NX_VALUE_TYPE_DATETIME];
    global_func "second" nx_expr_func__second NX_VALUE_TYPE_INTEGER [NX_VALUE_TYPE_DATETIME];
    global_func "minute" nx_expr_func__minute NX_VALUE_TYPE_INTEGER [NX_VALUE_TYPE_DATETIME];
    global_func "hour" nx_expr_func__hour NX_VALUE_TYPE_INTEGER [NX_VALUE_TYPE_DATETIME];
    global_func "day" nx_expr_func__day NX_VALUE_TYPE_INTEGER [NX_VALUE_TYPE_DATETIME];
    global_func "month" nx_expr_func__month NX_VALUE_TYPE_INTEGER [NX_VALUE_TYPE_DATETIME];
    global_func "year" nx_expr_func__year NX_VALUE_TYPE_INTEGER [NX_VALUE_TYPE_DATETIME];
    global_func "fix_year" nx_expr_func__fix_year NX_VALUE_TYPE_DATETIME [NX_VALUE_TYPE_DATETIME];
    global_func "dayofweek" nx_expr_func__dayofweek NX_VALUE_TYPE_INTEGER [NX_VALUE_TYPE_DATETIME];
    global_func "dayofyear" nx_expr_func__dayofyear NX_VALUE_TYPE_INTEGER [NX_VALUE_TYPE_DATETIME];
    global_func "string" nx_expr_func__to_string NX_VALUE_TYPE_STRING [NX_VALUE_TYPE_UNKNOWN];
    global_func "integer" nx_expr_func__to_integer NX_VALUE_TYPE_INTEGER [NX_VALUE_TYPE_UNKNOWN];
    global_func "datetime" nx_expr_func__to_datetime NX_VALUE_TYPE_DATETIME [NX_VALUE_TYPE_INTEGER];
    global_func "parsedate" nx_expr_func__parsedate NX_VALUE_TYPE_DATETIME [NX_VALUE_TYPE_STRING];
    global_func "strftime" nx_expr_func__strftime NX_VALUE_TYPE_STRING [NX_VALUE_TYPE_DATETIME; NX_VALUE_TYPE_STRING];
    global_func "strptime" nx_expr_func__strptime NX_VALUE_TYPE_DATETIME [NX_VALUE_TYPE_STRING; NX_VALUE_TYPE_STRING];
    global_func "hostname" nx_expr_func__hostname NX_VALUE_TYPE_STRING [];
    global_func "hostname_fqdn" nx_expr_func__hostname_fqdn NX_VALUE_TYPE_STRING [];
    global_func "host_ip" nx_expr_func__host_ip NX_VALUE_TYPE_IP4ADDR [];
    global_func "host_ip" nx_expr_func__host_ip NX_VALUE_TYPE_IP4ADDR [NX_VALUE_TYPE_INTEGER];
    global_func "get_var" nx_expr_func__get_var NX_VALUE_TYPE_UNKNOWN [NX_VALUE_TYPE_STRING];
    global_func "get_stat" nx_expr_func__get_stat NX_VALUE_TYPE_INTEGER [NX_VALUE_TYPE_STRING];
    global_func "get_stat" nx_expr_func__get_stat NX_VALUE_TYPE_INTEGER [NX_VALUE_TYPE_STRING; NX_VALUE_TYPE_DATETIME];
    global_func "ip4addr" nx_expr_func__to_ip4addr NX_VALUE_TYPE_IP4ADDR [NX_VALUE_TYPE_INTEGER];
    global_func "ip4addr" nx_expr_func__to_ip4addr NX_VALUE_TYPE_IP4ADDR [NX_VALUE_TYPE_INTEGER; NX_VALUE_TYPE_BOOLEAN];
    global_func "substr" nx_expr_func__substr NX_VALUE_TYPE_STRING [NX_VALUE_TYPE_STRING; NX_VALUE_TYPE_INTEGER];
    global_func "substr" nx_expr_func__substr NX_VALUE_TYPE_STRING [NX_VALUE_TYPE_STRING; NX_VALUE_TYPE_INTEGER; NX_VALUE_TYPE_INTEGER];
    global_func "replace" nx_expr_func__replace NX_VALUE_TYPE_STRING [NX_VALUE_TYPE_STRING; NX_VALUE_TYPE_STRING; NX_VALUE_TYPE_STRING];
    global_func "replace" nx_expr_func__replace NX_VALUE_TYPE_STRING [NX_VALUE_TYPE_STRING; NX_VALUE_TYPE_STRING; NX_VALUE_TYPE_STRING; NX_VALUE_TYPE_INTEGER];
    global_func "size" nx_expr_func__str_size NX_VALUE_TYPE_INTEGER [NX_VALUE_TYPE_STRING];
    global_func "dropped" nx_expr_func__dropped NX_VALUE_TYPE_BOOLEAN [] ].

End core.
End ExprCore.
