(* ===== verification/ExprCoreSpec.v ===== *)
(** * What the core functions and procedures compute

    Text replacement against a declarative specification, substrings, variables, and the
    types of the functions' results, as far as the soundness theorem of [ExprTypes] needs
    them of a callback. *)

From S2P Require Import Prelude Dlist Str Date DateFormat Value Logdata Expr ExprTypes Statvar ExprCore.
Import Str Value Logdata Expr ExprTypes Statvar ExprCore.

Module ExprCoreSpec.

(** ** Replacement *)

Definition occurs_at (src s : bytes) (i : nat) : Prop := take (length src) (drop i s) = src.

Lemma strstr_Some s src k : strstr s src = Some k -> occurs_at src s k /\ (k + length src <= length s)%nat /\ forall i, (i < k)%nat -> ~ occurs_at src s i.
Proof.
  revert k. induction s as [|c s IH]; intros k; cbn [strstr]; case_bool_decide as Ep.
  - intros [= <-]. split_and!; [done|rewrite <- Ep, length_take; simpl; lia|lia].
  - done.
  - intros [= <-]. split_and!; [done|rewrite <- Ep, length_take; simpl; lia|lia].
  - destruct (strstr s src) as [j|] eqn:Ej; [|done]. intros [= <-]. destruct (IH j eq_refl) as (H1 & H2 & H3).
    split_and!; [done|simpl; lia|]. intros [|i] Hi; [done|]. apply H3. lia.
Qed.

Lemma strstr_None s src i : src <> [] -> strstr s src = None -> ~ occurs_at src s i.
Proof.
  intros Hs. revert i. induction s as [|c s IH]; intros i; cbn [strstr]; case_bool_decide as Ep; try done.
  - intros _ H. unfold occurs_at in H. rewrite drop_nil, take_nil in H. by subst src.
  - destruct (strstr s src) as [j|]; [done|]. intros _. destruct i as [|i]; [done|]. by apply IH.
Qed.

(** Pieces, each followed by [sep]. *)
Definition joined (sep : bytes) (ps : list bytes) : bytes := concat (map (fun p => p ++ sep) ps).

(** [src] begins first where the piece [p] ends. *)
Definition leftmost (src p : bytes) : Prop := forall i, (i < length p)%nat -> ~ occurs_at src (p ++ src) i.

Lemma leftmost_take src s k : occurs_at src s k -> (k + length src <= length s)%nat -> (forall i, (i < k)%nat -> ~ occurs_at src s i) ->
  leftmost src (take k s) /\ s = take k s ++ src ++ drop (k + length src) s.
Proof.
  intros Hk Hl Hi. assert (s = take k s ++ src ++ drop (k + length src) s) as Es.
  { rewrite <- Hk at 1. rewrite <- drop_drop, take_drop. by rewrite take_drop. }
  split; [|done]. intros i Hlt H. rewrite length_take in Hlt. apply (Hi i); [lia|]. unfold occurs_at in *.
  rewrite Es, app_assoc, drop_app_le, take_app_le; [done|..]; rewrite ?length_drop, ?length_app, ?length_take; lia.
Qed.

Section replace.
Context `{M : Malloc} (src dst : bytes) (count n : Z).
Context (Hsrc : src <> []) (Nsrc : no_nul src) (Hn : 0 <= n <= string_limit).

(** The string that is built. *)
Definition built (result : option nx_string) (c : bytes) : Prop :=
  match result with Some r => str_rep r c | None => c = [] end.

Lemma result_of_rep result c : built result c -> exists r, result_of result n = Ret r /\ str_rep r c.
Proof.
  destruct result as [r|]; simpl; [by exists r|]. intros ->. destruct (nx_string_new_size_rep n Hn) as (r & -> & Hr & _). by exists r.
Qed.

Lemma append_rep r c t k rest : str_rep r c -> k = zlen t ->
  exists r', nx_string_append r (t ++ rest) k = Ret r' /\ str_rep r' (spec_append c t).
Proof.
  intros Hr ->. destruct (nx_string_append_rep r c (t ++ rest) (zlen t) Hr) as (r' & Er & Hr'); [rewrite length_app; lia|].
  exists r'. split; [done|]. by rewrite Nat2Z.id, take_app_length in Hr'.
Qed.

Lemma replace_loop_spec fuel i str result c : (length str <= fuel)%nat -> no_nul str -> built result c ->
  exists ps last, str = joined src ps ++ last /\ Forall (leftmost src) ps /\
    (0 < count -> Z.of_nat (length ps) + i <= Z.max count i) /\
    ((count <= 0 \/ Z.of_nat (length ps) + i < count) -> forall j, ~ occurs_at src last j) /\
    (zlen (c ++ joined dst ps) + 1 <= string_limit ->
     exists result', replace_loop fuel count i src dst str n result = Ret (result', last) /\ built result' (c ++ joined dst ps) /\
       (result <> None \/ ps <> [] -> result' <> None)).
Proof.
  revert i str result c. induction fuel as [|fuel IH]; intros i str result c Hf Hstr Hb; cbn [replace_loop].
  all: destruct ((0 <? count) && (count <=? i)) eqn:Ec;
    [tests; exists [], str; cbn; split_and!; [done|constructor|lia|lia|intros _; exists result; rewrite app_nil_r; tauto]|].
  all: rewrite (cstr_no_nul str), (cstr_no_nul src) by done; destruct (strstr str src) as [k|] eqn:Ek;
    [|exists [], str; cbn; split_and!; [done|constructor|lia|intros _ j; by apply strstr_None|intros _; exists result; rewrite app_nil_r; tauto]].
  - destruct (strstr_Some _ _ _ Ek) as (_ & H2 & _). destruct src, str; simpl in *; (done || lia).
  - destruct (strstr_Some _ _ _ Ek) as (H1 & H2 & H3). destruct (leftmost_take _ _ _ H1 H2 H3) as [Hlm Es].
    set (str' := drop (k + length src) str) in *. set (p := take k str) in *.
    assert (length p = k) as Lp by (unfold p; rewrite length_take; lia).
    assert (no_nul str') as Hstr'.
    { unfold no_nul in *. intros H. apply Hstr. rewrite Es, !elem_of_app. auto. }
    assert (length str' <= fuel)%nat as Hf'.
    { unfold str'. rewrite length_drop. destruct src; [done|simpl; lia]. }
    assert (0 < count -> i < count) as Hic by (apply andb_false_iff in Ec as [Ec|Ec]; tests; lia).
    destruct (result_of_rep result c Hb) as (r & -> & Hr). cbn [mbind outcome_bind].
    destruct (append_rep r c p (Z.of_nat k) (src ++ str' ++ [x00]) Hr) as (r1 & E1 & Hr1); [lia|].
    assert (str ++ [x00] = p ++ src ++ str' ++ [x00]) as -> by (rewrite Es at 1; by rewrite <- !app_assoc). rewrite E1. cbn [mbind outcome_bind].
    destruct (append_rep r1 _ dst (zlen dst) [x00] Hr1 eq_refl) as (r2 & E2 & Hr2). rewrite E2. cbn [mbind outcome_bind].
    destruct (IH (i + 1) str' (Some r2) _ Hf' Hstr' Hr2) as (ps & last & Hd & Hps & Hcnt & Hlast & Hrun).
    exists (p :: ps), last. split_and!.
    + rewrite Es, Hd. unfold joined. cbn. by rewrite <- !app_assoc.
    + by constructor.
    + rewrite length_cons. lia.
    + rewrite length_cons. intros Hc. apply Hlast. lia.
    + intros Hfit. assert (joined dst (p :: ps) = (p ++ dst) ++ joined dst ps) as Ej by done. rewrite Ej in *.
      assert (spec_append (spec_append c p) dst = c ++ p ++ dst) as Ea.
      { rewrite !length_app in Hfit. rewrite spec_append_fits by (rewrite spec_append_fits, ?length_app by lia; lia).
        rewrite spec_append_fits by lia. by rewrite app_assoc. }
      rewrite Ea in Hrun. destruct Hrun as (result' & Hr' & Hb' & Hne); [by rewrite <- app_assoc|].
      exists result'. split_and!; [done|by rewrite app_assoc|]. intros _. apply Hne. by left.
Qed.

Lemma replace_string_spec subject : n = zlen subject -> subject <> [] -> no_nul subject ->
  exists ps last, subject = joined src ps ++ last /\ Forall (leftmost src) ps /\
    (0 < count -> Z.of_nat (length ps) <= count) /\
    ((count <= 0 \/ Z.of_nat (length ps) < count) -> forall j, ~ occurs_at src last j) /\
    (zlen (joined dst ps ++ last) + 1 <= string_limit -> replace_string subject src dst count = Ret (Some (joined dst ps ++ last))).
Proof.
  intros En Hs Nsub. destruct (replace_loop_spec (length subject) 0 subject None [] ltac:(lia) Nsub eq_refl) as (ps & last & Hd & Hps & Hc & Hl & Hrun).
  exists ps, last. split_and!; [done|done|lia|intros H; apply Hl; lia|]. intros Hfit. cbn [app] in Hrun.
  destruct Hrun as (result & Hloop & Hb & Hne); [rewrite length_app in Hfit; lia|].
  unfold replace_string. rewrite <- En, Hloop. cbn [mbind outcome_bind fst snd]. case_bool_decide as El.
  - subst last. rewrite app_nil_r in *. destruct result as [r|].
    + cbn. by rewrite (str_rep_content _ _ Hb).
    + destruct Hne; [|done]. right. intros ->. by apply Hs.
  - destruct (result_of_rep result _ Hb) as (r & -> & Hr). cbn [mbind outcome_bind].
    assert (no_nul last) as Nl by (unfold no_nul in *; intros H; apply Nsub; rewrite Hd; apply elem_of_app; auto).
    destruct (nx_string_append_cstr r (joined dst ps) last [] (-1) Hr Nl) as (r' & Ea & Hr'); [|done|].
    { rewrite Hd, length_app in En. unfold string_limit in *. lia. }
    rewrite Ea. cbn. rewrite (str_rep_content _ _ Hr'), spec_append_fits by (rewrite length_app in Hfit; lia). done.
Qed.
End replace.

(** ** Properties *)

(** C39: replace(subject, src, dst, count) with defined arguments, where subject and src are not
    empty and have no NUL, subject is within the string limit and count is not
    negative, cuts the subject at the leftmost occurrences of src that do not overlap, at
    most count of them if count is not 0; what remains of the subject has no occurrence
    unless count stopped the search; and if the subject with dst in their places,
    and its terminator, are within the string limit, the function gives that string. *)
Theorem replace_spec `{M : Malloc} subject src dst count (x : @ectx menv) r :
  subject <> [] -> src <> [] -> no_nul subject -> no_nul src -> zlen subject <= string_limit -> 0 <= count ->
  exists ps last, subject = joined src ps ++ last /\ Forall (leftmost src) ps /\
    (0 < count -> Z.of_nat (length ps) <= count) /\
    ((count = 0 \/ Z.of_nat (length ps) < count) -> forall j, ~ occurs_at src last j) /\
    (zlen (joined dst ps ++ last) + 1 <= string_limit ->
     nx_expr_func__replace [str_value subject; str_value src; str_value dst; nx_value_new_integer count] (x, r) =
       ((x, str_value (joined dst ps ++ last)), Ret tt)).
Proof.
  intros Hs Hsrc Ns Nsrc Hl Hc.
  destruct (replace_string_spec src dst count (zlen subject) Hsrc Nsrc ltac:(lia) subject eq_refl Hs Ns) as (ps & last & H1 & H2 & H3 & H4 & H5).
  exists ps, last. split_and!; [done|done|done|intros H; apply H4; lia|]. intros Hfit. specialize (H5 Hfit).
  unfold nx_expr_func__replace. do 3 (erewrite cmd_bind_Ret by reflexivity).
  change (undefined (str_value subject)) with false. change (has_type NX_VALUE_TYPE_STRING (str_value subject)) with true.
  cbn [negb]. cbv iota. do 2 (erewrite cmd_bind_Ret by reflexivity).
  change (defined (str_value src)) with true. change (has_type NX_VALUE_TYPE_STRING (str_value src)) with true.
  cbn [negb]. cbv iota. do 2 (erewrite cmd_bind_Ret by reflexivity).
  rewrite (cmd_bind_Ret _ _ _ (x, NxValue NX_VALUE_TYPE_STRING (v_defined r) (v_data r)) count); cycle 1.
  { unfold replace_count. change (zlen _ =? 4) with true. cbv iota. erewrite cmd_bind_Ret by reflexivity.
    change (has_type _ _) with true. change (defined _) with true. cbn [negb]. cbv iota. erewrite cmd_bind_Ret by reflexivity.
    by rewrite (proj2 (Z.ltb_ge count 0)) by lia. }
  rewrite (bool_decide_eq_false_2 (subject = [])), (bool_decide_eq_false_2 (src = [])) by done.
  rewrite H5. erewrite cmd_bind_Ret by reflexivity. done.
Qed.

(** replace("a-b-c", "-", "+", 1) *)
Definition no_ctx : @ectx menv := Ectx None [] false (Menv empty_tables [] [] 0).

Lemma replace_spec_witness :
  exists ps last, lit "a-b-c" = joined (lit "-") ps ++ last /\ Forall (leftmost (lit "-")) ps /\ (length ps <= 1)%nat /\
    nx_expr_func__replace (M := poison_malloc) [str_value (lit "a-b-c"); str_value (lit "-"); str_value (lit "+"); nx_value_new_integer 1]
      (no_ctx, zero_value) = ((no_ctx, str_value (joined (lit "+") ps ++ last)), Ret tt) /\
    joined (lit "+") ps ++ last = lit "a+b-c".
Proof.
  destruct (replace_spec (M := poison_malloc) (lit "a-b-c") (lit "-") (lit "+") 1 no_ctx zero_value) as (ps & last & H1 & H2 & H3 & _ & H5).
  - intros H. discriminate H.
  - intros H. discriminate H.
  - apply (bool_decide_unpack _). vm_compute. exact I.
  - apply (bool_decide_unpack _). vm_compute. exact I.
  - vm_compute. discriminate.
  - discriminate.
  - assert (length (joined (lit "+") ps) = length (joined (lit "-") ps)) as Hlen.
    { clear. induction ps as [|p ps IH]; [reflexivity|]. unfold joined in *. cbn [map concat]. rewrite !length_app, IH. reflexivity. }
    assert (zlen (joined (lit "+") ps ++ last) = 5) as Hz.
    { rewrite length_app, Hlen, <- length_app, <- H1. reflexivity. }
    specialize (H5 ltac:(rewrite Hz; unfold string_limit; lia)).
    exists ps, last. split_and!; [exact H1|exact H2|lia|exact H5|].
    assert (((no_ctx, str_value (joined (lit "+") ps ++ last)), Ret tt) = ((no_ctx, str_value (lit "a+b-c")), Ret tt)) as He.
    { rewrite <- H5. vm_compute. reflexivity. }
    injection He as ->. reflexivity.
Defined.

(** The bytes from [from] to [to], as far as they exist. *)
Definition slice (s : bytes) (from to : Z) : bytes := take (Z.to_nat (Z.min to (zlen s) - from)) (drop (Z.to_nat from) s).

(** Unfolding of a function whose tests are decided. *)
Ltac run := repeat first
  [ erewrite cmd_bind_Ret by reflexivity
  | match goal with |- context [has_type ?t ?v] => first [change (has_type t v) with true|change (has_type t v) with false] end
  | match goal with |- context [undefined ?v] => first [change (undefined v) with true|change (undefined v) with false] end
  | match goal with |- context [defined ?v] => first [change (defined v) with true|change (defined v) with false] end
  | progress cbn [negb andb orb] | progress cbv iota ].

(** Substr(s, from, to) is the part of s from the offset from to the offset to or the
    end, undefined if from is after the end or after to; if to is undefined and from is an
    offset inside the string but the first, an assertion stops the process. *)
Theorem substr_spec `{M : Malloc} s from to (x : @ectx menv) t d : zlen s <= string_limit -> 0 <= from -> 0 <= to ->
  nx_expr_func__substr [str_value s; nx_value_new_integer from; nx_value_new_integer to] (x, NxValue t FALSE d) =
    ((x, if (zlen s <? from) || (to <? from) then NxValue NX_VALUE_TYPE_STRING FALSE d else str_value (slice s from to)), Ret tt) /\
  (0 < from <= zlen s ->
   snd (nx_expr_func__substr [str_value s; nx_value_new_integer from; NxValue NX_VALUE_TYPE_INTEGER FALSE DUninit] (x, NxValue t FALSE d)) =
     Panic "to >= from").
Proof.
  intros Hs Hf Ht. split.
  - unfold nx_expr_func__substr. run. rewrite (proj2 (Z.ltb_ge from 0)) by lia. destruct (Z.ltb_spec (zlen s) from) as [Hl|Hl]; [done|].
    cbn [orb]. rewrite (cmd_bind_Ret _ _ _ (x, NxValue NX_VALUE_TYPE_STRING FALSE d) (if to <? from then None else Some (Z.min to (zlen s)))); cycle 1.
    { unfold substr_to. change (zlen _ =? 3) with true. run. rewrite (proj2 (Z.ltb_ge to 0)) by lia.
      destruct (to <? from); [done|]. destruct (Z.ltb_spec (zlen s) to); [rewrite Z.min_r by lia|rewrite Z.min_l by lia]; done. }
    destruct (Z.ltb_spec to from) as [H|H]; [done|]. rewrite (proj2 (Z.leb_le from (Z.min to (zlen s)))) by lia.
    rewrite (proj2 (Z.leb_le from (zlen s))) by lia. run. unfold return_string.
    destruct (nx_string_create_rep (drop (Z.to_nat from) (s ++ [x00])) (Z.min to (zlen s) - from)) as (c & -> & Hc & _);
      [rewrite length_drop, length_app; simpl; lia|lia|].
    run. rewrite (str_rep_content _ _ Hc), drop_app_le, take_app_le by (rewrite ?length_drop; lia). done.
  - intros Hl. unfold nx_expr_func__substr. run. rewrite (proj2 (Z.ltb_ge from 0)), (proj2 (Z.ltb_ge (zlen s) from)) by lia.
    rewrite (cmd_bind_Ret _ _ _ (x, NxValue NX_VALUE_TYPE_STRING FALSE d) (Some 0)) by reflexivity.
    by rewrite (proj2 (Z.leb_gt from 0)) by lia.
Qed.

Lemma substr_spec_witness :
  nx_expr_func__substr (M := poison_malloc) [str_value (lit "message"); nx_value_new_integer 2; nx_value_new_integer 40] (no_ctx, zero_value) =
    ((no_ctx, str_value (lit "ssage")), Ret tt).
Proof.
  exact (proj1 (substr_spec (M := poison_malloc) (lit "message") 2 40 no_ctx (NX_VALUE_TYPE_OTHER 0) DZero
    ltac:(vm_compute; discriminate) ltac:(discriminate) ltac:(discriminate))).
Defined.

(** ** Variables *)

Section vars.
Context `{M : Malloc} `{E : ValueEnv} {PC : Pcre} {ST : Stale} {CE : CoreEnv}.

(** The argument [e] of a procedure evaluates to [v]. *)
Definition yields (e : @expr menv) (x : @ectx menv) (v : value) (x' : ectx) : Prop :=
  nx_expr_evaluate e (x, fresh_value) = ((x', v), Ret tt).

Lemma eval_arg_yields e x v x' : yields e x v x' -> eval_arg e x = (x', Ret v).
Proof. unfold eval_arg, on_value, yields. by intros ->. Qed.

End vars.

(** After set_var(name, e) the function get_var(name) returns the value of e. *)
Theorem set_get_var `{M : Malloc} `{E : ValueEnv} {PC : Pcre} {ST : Stale} e1 e2 x x1 x2 name w r :
  tables_ok (module_of x1) -> name <> [] -> yields e1 x (str_value name) x1 ->
  (forall v m, nx_module_var_create name 0 (module_of x1) = Ret (v, m) -> yields e2 (with_module m x1) w x2 /\ module_of x2 = m) ->
  v_defined w = TRUE -> data_ok owned (v_type w) (v_data w) -> v_type w <> NX_VALUE_TYPE_REGEXP ->
  exists x3, nx_expr_proc__set_var (Some [e1; e2]) x = (x3, Ret tt) /\ nx_expr_func__get_var [str_value name] (x3, r) = ((x3, w), Ret tt).
Proof.
  intros Hok Hn He1 He2 Hd Hdata Hre. destruct (var_create_ok name 0 (module_of x1) Hn Hok) as (v & m & Hc & Hm & Hl).
  destruct (He2 v m Hc) as [Hy Hm2].
  set (m' := set_vars (<[name := Var w (va_expiry v) (va_id v)]> (vars_of m)) m).
  assert (var_assign name (va_id v) w m = Ret m') as Ha.
  { destruct Hm as (_ & Hk & _). unfold var_assign. by rewrite Hl, bool_decide_eq_true_2, (Hk _ _ Hl) by done. }
  exists (with_module m' x2). split.
  - unfold nx_expr_proc__set_var. run. rewrite (cmd_bind_Ret _ _ _ _ _ (eval_arg_yields _ _ _ _ He1)).
    change (is_string (str_value name)) with true. run.
    rewrite (cmd_bind_Ret _ _ _ (with_module m x1) v) by (unfold on_module, mbind, cmd_bind, get, lift; by rewrite Hc). run.
    rewrite (cmd_bind_Ret _ _ _ _ _ (eval_arg_yields _ _ _ _ Hy)). unfold on_module. run. by rewrite Hm2, Ha.
  - unfold nx_expr_func__get_var. run. change (vars_of (module_of (with_module m' x2))) with (<[name := Var w (va_expiry v) (va_id v)]> (vars_of m)).
    rewrite lookup_insert_eq. cbn [va_value]. by rewrite value_clone_equal.
Qed.

(** The tables after create_var("n"). *)
Definition one_var : mstate :=
  match nx_module_var_create (ST := plain_stale) (lit "n") 0 empty_tables with Ret (_, m) => m | _ => empty_tables end.

Lemma set_get_var_witness :
  exists x3, nx_expr_proc__set_var (M := poison_malloc) (E := plain_env) (PC := plain_pcre) (ST := plain_stale) (Some [e_str "n"; e_int 5]) no_ctx = (x3, Ret tt) /\
    nx_expr_func__get_var (M := poison_malloc) (E := plain_env) [str_value (lit "n")] (x3, zero_value) = ((x3, nx_value_new_integer 5), Ret tt).
Proof.
  apply (set_get_var (M := poison_malloc) (E := plain_env) (PC := plain_pcre) (ST := plain_stale) (e_str "n") (e_int 5) no_ctx no_ctx
    (with_module one_var no_ctx) (lit "n") (nx_value_new_integer 5) zero_value).
  - exact empty_tables_ok.
  - intros H. discriminate H.
  - vm_compute. reflexivity.
  - intros v m Hc. assert (m = one_var) as -> by (unfold one_var; change (module_of no_ctx) with empty_tables in Hc; rewrite Hc; reflexivity).
    split; [vm_compute; reflexivity|reflexivity].
  - reflexivity.
  - split; [discriminate|reflexivity].
  - discriminate.
Defined.

End ExprCoreSpec.
