(* ===== verification/ExprCoreTypes.v ===== *)
(** * Types of the core functions

    The callbacks of functions compute values of their declared types from well-formed
    arguments, which is what soundness ([ExprTypes]) requires of a function node. *)

From S2P Require Import Prelude Dlist Str Date DateFormat Value Logdata Expr ExprTypes Statvar ExprCore ExprCoreSpec.
Import Str Value Logdata Expr ExprTypes Statvar ExprCore ExprCoreSpec.

Module ExprCoreTypes.

(** The clock and the calendar fit their machine types. *)
Class CoreLaws (E : ValueEnv) (CE : CoreEnv) : Prop := {
  now_range : int64 apr_time_now;
  exp_range t e : apr_time_exp_lt t = Some e ->
    Forall int64 [x_usec e; x_sec e; x_min e; x_hour e; x_mday e; x_mon e + 1; x_year e; x_year e + 1900];
  yday_range t : int64 (exp_yday t + 1);
  strptime_range s f m t : strptime s f = Some m ->
    apr_time_ansi_put (mktime (Tm (tm_year m) (tm_mon m) (tm_mday m) (tm_hour m) (tm_min m) (tm_sec m) (-1) (tm_gmtoff m))) = Some t -> int64 t
}.

Section typing.
Context `{M : Malloc} `{E : ValueEnv} {PC : Pcre} {ST : Stale} {CE : CoreEnv} {CL : CoreLaws E CE}.
Abbreviation ectx := (@ectx menv).
Abbreviation prog A := (cmd (ectx * value) A).

(** A function that can be called with arguments of any type: it checks them. *)
Definition honours (f : @func menv) : Prop := forall vs,
  length vs = length (sg_args (fn_sig f)) -> Forall (typed true NX_VALUE_TYPE_UNKNOWN) vs -> computes true (fn_ret f) (fn_cb f vs).

Lemma typed_weaken nm t v : typed nm t v -> typed nm NX_VALUE_TYPE_UNKNOWN v.
Proof. intros [(H1 & H2 & _)|H]; [left; auto|by right]. Qed.

(** Such a function may be called with any number of declared arguments. *)
Lemma honours_callback f args : honours f -> length args = length (sg_args (fn_sig f)) -> Forall (fun a => naming a = true) args ->
  callback_ok (fn_cb f) (fn_ret f) args.
Proof.
  intros Hf Hlen Hn vs Hvs. apply Hf.
  - apply Forall2_length in Hvs. rewrite length_map in Hvs. congruence.
  - clear Hlen. revert vs Hvs. induction Hn as [|a args Ha _ IH]; intros vs Hvs; inversion Hvs as [|? v ? vs' Hv Hvs']; subst; constructor.
    + unfold typed_by in Hv. simpl in Hv. rewrite Ha in Hv. by eapply typed_weaken.
    + by apply IH.
Qed.

(** ** Steps *)

Lemma typed_named t v : typed true t v -> named (v_type v).
Proof. intros [(_ & H & _)|[_ H]]; [by eapply data_ok_named|auto]. Qed.

(** A defined argument of type [t]. *)
Lemma typed_data t v : typed true NX_VALUE_TYPE_UNKNOWN v -> undefined v = false -> has_type t v = true -> data_ok fits t (v_data v).
Proof.
  intros Hv Hu Ht. unfold has_type in Ht. apply bool_decide_eq_true in Ht. subst t. by destruct (typed_defined _ _ _ Hv Hu) as (_ & H & _).
Qed.

Lemma thrown_typed r0 t (x : ectx) r : ctx_ok x -> v_defined r = FALSE -> thrown r0 (x, NxValue t (v_defined r) (v_data r)).
Proof. intros Hx Hd. rewrite Hd. by apply thrown_undefined. Qed.

Lemma wp_invalid v msg r0 (x : ectx) r (Q : unit -> ectx * value -> Prop) : typed true NX_VALUE_TYPE_UNKNOWN v -> ctx_ok x -> v_defined r = FALSE ->
  wp (throw_type (v_type v) msg) Q (thrown r0) (x, r).
Proof. intros Hv Hx Hd. apply wp_throw_type; [by eapply typed_named|by apply thrown_same]. Qed.

(** The result is assigned before it is defined. *)
Lemma wp_return t d (x : ectx) r0 r : ctx_ok x -> named t -> data_ok fits t d ->
  wp (_ ← set_data d; set_defined TRUE) (result true t) (thrown r0) (x, NxValue t (v_defined r) (v_data r)).
Proof. intros Hx Hn Hd. split; [done|]. left. split_and!; [done|done|by right]. Qed.

Lemma wp_return_string s (x : ectx) r0 r : ctx_ok x -> v_defined r = FALSE -> tame fits s ->
  wp (return_string s) (result true NX_VALUE_TYPE_STRING) (thrown r0) (x, NxValue NX_VALUE_TYPE_STRING (v_defined r) (v_data r)).
Proof.
  intros Hx Hd Hs. unfold return_string. apply wp_bind. apply (wp_lift fits); [done|by apply thrown_typed|]. intros c Hc.
  by apply (wp_return NX_VALUE_TYPE_STRING (DString c)).
Qed.

Lemma unary_computes t ret f vs : named ret -> length vs = 1%nat -> Forall (typed true NX_VALUE_TYPE_UNKNOWN) vs ->
  (forall a x r r0, data_ok fits t (v_data a) -> ctx_ok x -> v_defined r = FALSE ->
     wp (f a) (result true ret) (thrown r0) (x, NxValue ret (v_defined r) (v_data r))) ->
  computes true ret (unary t ret f vs).
Proof.
  intros Hn Hl Hvs Hf x r Hx Hd. destruct vs as [|a [|]]; try done. inversion Hvs; subst. unfold unary.
  apply wp_bind. eapply wp_is; [done|]. apply wp_bind. eapply wp_is; [done|]. destruct (has_type t a) eqn:Et; cbn [negb]; [|by apply wp_invalid].
  apply wp_bind. eapply wp_is; [done|]. destruct (undefined a) eqn:Eu; [by apply result_undefined|].
  apply Hf; [by apply typed_data|done|done].
Qed.

(** ** Strings *)

Lemma map_chars_tame f s : fits s -> tame fits (map_chars f s).
Proof.
  intros Hs. unfold map_chars. destruct (decide (zlen s < string_limit)) as [Hl|Hl].
  - destruct (nx_string_clone_rep (exact s) s) as (c & -> & (_ & (rest & Hb) & _ & Hlen & _)); [apply exact_rep; unfold string_limit in *; lia|done|].
    cbn [mbind outcome_bind]. pose proof (cstr_length s).
    rewrite (mem_write_at' _ _ [] (buf c)) by (rewrite ?length_map, ?Hb, ?length_app; simpl; auto; lia).
    cbn. unfold fits. rewrite length_take. lia.
  - unfold nx_string_clone. simpl len. rewrite (proj2 (Z.ltb_ge _ _)) by (unfold fits in *; lia). unfold nx_string_new_size.
    assert (u32 (zlen s + 1) = zlen s + 1) as -> by (apply Z.mod_small; unfold fits, string_limit in *; lia).
    case_test; [lia|]. by rewrite (proj2 (Z.ltb_lt _ _)) by lia.
Qed.

Lemma case_honours f vs : length vs = 1%nat -> Forall (typed true NX_VALUE_TYPE_UNKNOWN) vs ->
  computes true NX_VALUE_TYPE_STRING (unary NX_VALUE_TYPE_STRING NX_VALUE_TYPE_STRING (fun a => s ← lift (as_string (v_data a)); return_string (map_chars f s)) vs).
Proof.
  intros Hl Hvs. apply unary_computes; [done..|]. intros a x r r0 Hok Hx Hd. destruct (v_data a); try done.
  apply wp_bind. eapply wp_is; [done|]. apply wp_return_string; [done|done|by apply map_chars_tame].
Qed.

Lemma date_part_honours f vs : length vs = 1%nat -> Forall (typed true NX_VALUE_TYPE_UNKNOWN) vs ->
  (forall t e, apr_time_exp_lt t = Some e -> exists z, f t e = Ret z /\ int64 z) ->
  computes true NX_VALUE_TYPE_INTEGER (date_part f vs).
Proof.
  intros Hl Hvs Hf. apply unary_computes; [done..|]. intros a x r r0 Hok Hx Hd. destruct (v_data a); try done.
  apply wp_bind. eapply wp_is; [done|]. apply wp_bind. destruct (apr_time_exp_lt t) as [e|] eqn:Ee.
  - eapply wp_is; [unfold lift; cbn; done|]. destruct (Hf t e Ee) as (z & Ez & Hz). apply wp_bind. eapply wp_is; [unfold lift; by rewrite Ez|].
    by apply (wp_return NX_VALUE_TYPE_INTEGER (DInteger z)).
  - apply (wp_lift (fun _ => False)); [done|by apply thrown_typed|done].
Qed.

(** The statements whose outcome does not depend on the arguments. *)
Ltac next := apply wp_bind; eapply wp_is; [done|]; cbn [v_type v_defined v_data].

Lemma now_honours : computes true NX_VALUE_TYPE_DATETIME (nx_expr_func__now []).
Proof. intros x r Hx Hd. do 2 next. apply (wp_return NX_VALUE_TYPE_DATETIME (DDatetime apr_time_now)); [done|done|apply now_range]. Qed.

Lemma type_name_ok t : named t -> exists n, nx_value_type_to_string t = Ret n /\ no_nul n /\ zlen n <= string_limit.
Proof.
  destruct t; simpl; try contradiction; intros _; eexists; (split_and!; [reflexivity|apply (bool_decide_unpack (no_nul _)); vm_compute; exact I|vm_compute; discriminate]).
Qed.

Lemma type_honours a : typed true NX_VALUE_TYPE_UNKNOWN a -> computes true NX_VALUE_TYPE_STRING (nx_expr_func__type [a]).
Proof.
  intros Ha x r Hx Hd. do 3 next. destruct (undefined a); [by apply result_undefined|].
  apply wp_return_string; [done|done|]. destruct (type_name_ok _ (typed_named _ _ Ha)) as (n & -> & Hn & Hl). cbn [mbind outcome_bind].
  destruct (nx_string_create_cstr n Hn Hl) as (c & -> & Hc). cbn. by rewrite (str_rep_content _ _ Hc).
Qed.

Lemma size_honours a : typed true NX_VALUE_TYPE_UNKNOWN a -> computes true NX_VALUE_TYPE_INTEGER (nx_expr_func__str_size [a]).
Proof.
  intros Ha x r Hx Hd. do 2 next. destruct (has_type NX_VALUE_TYPE_STRING a) eqn:Et; cbn [negb]; [|by apply wp_invalid].
  next. destruct (undefined a) eqn:Eu; [by rewrite Hd; apply result_undefined|]. pose proof (typed_data _ _ Ha Eu Et) as Hok.
  destruct (v_data a); try done. next. apply (wp_return NX_VALUE_TYPE_INTEGER (DInteger (zlen s))); [done|done|].
  simpl in *. unfold fits, int64, string_limit in *. lia.
Qed.

Lemma to_datetime_honours a : typed true NX_VALUE_TYPE_UNKNOWN a -> computes true NX_VALUE_TYPE_DATETIME (nx_expr_func__to_datetime [a]).
Proof.
  intros Ha x r Hx Hd. do 4 next. destruct (undefined a) eqn:Eu; [by apply result_undefined|].
  destruct (has_type NX_VALUE_TYPE_INTEGER a) eqn:Et; cbn [negb]; [|by apply wp_invalid]. pose proof (typed_data _ _ Ha Eu Et) as Hok.
  destruct (v_data a); try done. do 2 next. split; [done|]. left. split_and!; [done|done|by right].
Qed.

Lemma strptime_honours a b : typed true NX_VALUE_TYPE_UNKNOWN a -> typed true NX_VALUE_TYPE_UNKNOWN b ->
  computes true NX_VALUE_TYPE_DATETIME (nx_expr_func__strptime [a; b]).
Proof.
  intros Ha Hb x r Hx Hd. do 3 next. destruct (has_type NX_VALUE_TYPE_STRING a) eqn:Et; cbn [negb]; [|by apply wp_invalid].
  destruct (has_type NX_VALUE_TYPE_STRING b) eqn:Et'; cbn [negb]; [|by apply wp_invalid]. do 2 next.
  destruct (undefined a) eqn:Eu; [by apply result_undefined|]. destruct (undefined b) eqn:Eu'; [by apply result_undefined|]. cbn [orb].
  pose proof (typed_data _ _ Ha Eu Et) as Hok. pose proof (typed_data _ _ Hb Eu' Et') as Hok'.
  destruct (v_data a); try done. destruct (v_data b); try done. do 2 next.
  destruct (strptime (cstr s) (cstr s0)) as [t|] eqn:Es; [|by apply result_undefined].
  destruct (_ =? -1); [apply (wp_lift (fun _ => False)); [done|by apply thrown_same|done]|].
  apply wp_bind. destruct (apr_time_ansi_put _) as [t'|] eqn:Ep; [|apply (wp_lift (fun _ => False)); [done|by apply thrown_same|done]].
  eapply wp_is; [done|]. next. split; [done|]. left. split_and!; [done|exact (strptime_range _ _ _ _ Es Ep)|by right].
Qed.

Lemma host_string_honours name : computes true NX_VALUE_TYPE_STRING (host_string name []).
Proof.
  intros x r Hx Hd. do 2 next. apply wp_bind. destruct (nx_string_new_size_rep 255) as (s & Es & (_ & _ & Hz & _) & Hb); [unfold string_limit; lia|].
  specialize (Hb ltac:(lia)). eapply wp_is; [unfold lift; by rewrite Es|]. apply wp_bind.
  rewrite (mem_write_at' _ _ [] (buf s)) by (rewrite ?length_app, ?length_take; auto; cbn [length]; lia). eapply wp_is; [done|]. cbn [app].
  next. split; [done|]. left. split_and!; [done| |by right]. cbn. unfold fits.
  eapply Z.le_trans; [apply cstr_length|]. rewrite !length_app, length_drop, !length_take. cbn [length]. unfold string_limit. lia.
Qed.

Lemma ip4_bytes_length z b : length (ip4_bytes z b) = 4%nat.
Proof. by destruct b. Qed.

Lemma nth_ip_length nth i l a : nth_ip nth i l = Some a -> length a = 4%nat.
Proof.
  revert i. induction l as [|[ip|] l IH]; intros i; cbn [nth_ip]; [done| |apply IH].
  case_bool_decide; [apply IH|]. case_test; [|apply IH]. by intros [= <-].
Qed.

Lemma host_ip_honours : computes true NX_VALUE_TYPE_IP4ADDR (nx_expr_func__host_ip []).
Proof.
  intros x r Hx Hd. unfold nx_expr_func__host_ip. change (zlen [] =? 1) with false. cbv iota. next. unfold find_ip. do 2 next.
  apply wp_bind. destruct host_addrs as [l|]; [|apply (wp_lift (fun _ => False)); [done|by apply thrown_undefined|done]].
  eapply wp_is; [done|]. destruct (nth_ip 1 1 l) as [a|] eqn:Ea; [|by apply result_undefined].
  next. split; [done|]. left. split_and!; [done|by eapply nth_ip_length|by right].
Qed.

Lemma dropped_honours : computes true NX_VALUE_TYPE_BOOLEAN (nx_expr_func__dropped []).
Proof. intros x r Hx Hd. do 4 next. by apply result_boolean. Qed.

Lemma to_ip4addr_honours a rest : typed true NX_VALUE_TYPE_UNKNOWN a -> Forall (typed true NX_VALUE_TYPE_UNKNOWN) rest -> (length rest <= 1)%nat ->
  computes true NX_VALUE_TYPE_IP4ADDR (nx_expr_func__to_ip4addr (a :: rest)).
Proof.
  intros Ha Hrest Hlen x r Hx Hd. unfold nx_expr_func__to_ip4addr.
  apply wp_bind. eapply wp_is; [by destruct rest as [|? [|]]; [..|simpl in Hlen; lia]|]. next.
  destruct (has_type NX_VALUE_TYPE_INTEGER a) eqn:Et; cbn [negb]; [|by apply wp_invalid]. next.
  destruct (undefined a) eqn:Eu; [by apply result_undefined|]. pose proof (typed_data _ _ Ha Eu Et) as Hok.
  apply wp_bind. apply (wp_mono _ (fun _ s => s = (x, NxValue NX_VALUE_TYPE_IP4ADDR (v_defined r) (v_data r))) _ (thrown r) _).
  - destruct Hrest as [|b rest Hb Hrest]; [done|]. destruct rest; [|simpl in Hlen; lia]. cbn -[arg]. next.
    destruct (has_type NX_VALUE_TYPE_BOOLEAN b) eqn:Eb; cbn [negb];
      [|apply wp_bind; apply wp_throw_type; [by eapply typed_named|by apply thrown_typed]].
    rewrite <- (negb_involutive (defined b)), <- (undefined_defined _ _ _ Hb). destruct (undefined b) eqn:Eub; cbn [negb]; [done|]. pose proof (typed_data _ _ Hb Eub Eb).
    by destruct (v_data b).
  - intros n s ->. destruct (v_data a); try done. next. apply (wp_return NX_VALUE_TYPE_IP4ADDR (DIp4addr _)); [done|done|].
    apply ip4_bytes_length.
  - done.
Qed.

Lemma substr2_honours a b : typed true NX_VALUE_TYPE_UNKNOWN a -> typed true NX_VALUE_TYPE_UNKNOWN b ->
  computes true NX_VALUE_TYPE_STRING (nx_expr_func__substr [a; b]).
Proof.
  intros Ha Hb x r Hx Hd. do 2 next. destruct (has_type NX_VALUE_TYPE_STRING a) eqn:Et; cbn [negb]; [|by apply wp_invalid].
  next. destruct (undefined a) eqn:Eu; [by rewrite Hd; apply result_undefined|]. next.
  destruct (has_type NX_VALUE_TYPE_INTEGER b) eqn:Eb; cbn [negb]; [|apply wp_throw_type; [by eapply typed_named|by apply thrown_typed]].
  destruct (undefined b) eqn:Eu'; [by rewrite Hd; apply result_undefined|].
  pose proof (typed_data _ _ Ha Eu Et) as Hok. pose proof (typed_data _ _ Hb Eu' Eb) as Hok'.
  destruct (v_data a); try done. destruct (v_data b); try done. simpl in Hok. do 2 next.
  destruct (Z.ltb_spec z 0); [apply (wp_lift (fun _ => False)); [done|by apply thrown_typed|done]|].
  destruct (Z.ltb_spec (zlen s) z); [rewrite Hd; by apply result_undefined|]. next.
  do 2 (apply wp_bind; eapply wp_is; [by rewrite (proj2 (Z.leb_le _ _)) by lia|]).
  apply wp_return_string; [done|done|]. unfold fits in *.
  destruct (nx_string_create_rep (drop (Z.to_nat z) (s ++ [x00])) (zlen s - z)) as (c & -> & Hc & _);
    [rewrite length_drop, length_app; simpl; lia|lia|]. cbn. rewrite (str_rep_content _ _ Hc), length_take. unfold fits. lia.
Qed.

(** The functions of the table shown to honour their types.  The others: [string] and
    [integer] convert any value, an empty string included, on which [integer] panics;
    [parsedate] and [fix_year] add microseconds without a bound; [dayofweek] reads a field
    APR need not set; [strftime] and [substr] with three arguments panic on an undefined
    last argument; [host_ip] with an undefined argument leaves the type unset; [get_var] and
    [get_stat] read the state of the module; [replace] is specified by [replace_spec]. *)
Definition sound_functions : list nat := [0; 1; 2; 3; 4; 5; 6; 7; 8; 9; 10; 13; 16; 19; 20; 21; 22; 27; 28; 29; 33; 34]%nat.

Lemma date_parts_honour vs : length vs = 1%nat -> Forall (typed true NX_VALUE_TYPE_UNKNOWN) vs ->
  Forall (fun f => computes true NX_VALUE_TYPE_INTEGER (f vs))
    [nx_expr_func__microsecond; nx_expr_func__second; nx_expr_func__minute; nx_expr_func__hour; nx_expr_func__day;
     nx_expr_func__month; nx_expr_func__year; nx_expr_func__dayofyear].
Proof.
  intros Hl Hvs. repeat constructor; apply date_part_honours; try done; intros t e He; pose proof (exp_range t e He) as Hr;
    rewrite !Forall_cons in Hr; destruct_and? Hr; eexists; (split; [reflexivity|]); try done; [by case_test|apply yday_range].
Qed.

Lemma core_functions_honour :
  Forall (fun i => exists f, nx_api_declarations_core_funcs !! i = Some f /\ honours f) sound_functions.
Proof.
  assert (forall i f, nx_api_declarations_core_funcs !! i = Some f -> honours f ->
    exists f, nx_api_declarations_core_funcs !! i = Some f /\ honours f) as use by eauto.
  unfold sound_functions. repeat (apply List.Forall_cons; [eapply use; [reflexivity|]; intros vs Hl Hvs; simpl in Hl|]); [..|constructor];
    try (pose proof (date_parts_honour vs Hl Hvs) as H; rewrite !Forall_cons in H; destruct_and? H; done);
    try (by apply case_honours); destruct vs as [|a [|b [|]]]; try discriminate Hl; rewrite ?Forall_cons in Hvs; destruct_and? Hvs;
    try apply host_string_honours; try (by apply to_ip4addr_honours; auto);
    eauto using now_honours, type_honours, size_honours, to_datetime_honours, strptime_honours, host_ip_honours, dropped_honours, substr2_honours.
Qed.
End typing.

(** C14: a call of one of the core functions in [sound_functions] (22 of them; the others are
    left out for the reasons given there), with as many arguments as it declares, is well
    typed, if every argument is well typed and is not itself a subtraction, multiplication,
    division or remainder: its callback checks the types of its arguments, so it never reads
    the wrong member of a value or fails an assertion, and gives a defined value of the
    declared type, an undefined value or an exception.  The condition on the
    arguments is needed: if an operand of such an operator is undefined, the type of the
    result is not set, and [lc($missing - 1)] stops the process when the type is
    printed for the error message.  Of the clock, of APR's broken-down times and of
    [strptime] it assumes ([CoreLaws]) that their numbers fit in 64 bits; as in the typing of
    expressions, undefined behaviour of integer arithmetic is not excluded. *)
Theorem core_functions_sound `{M : Malloc} `{E : ValueEnv} {PC : Pcre} {ST : Stale} {CE : CoreEnv} {CL : CoreLaws E CE} i f args :
  i ∈ sound_functions -> nx_api_declarations_core_funcs !! i = Some f -> length (default [] args) = length (sg_args (fn_sig f)) ->
  Forall (fun a => well_typed a /\ naming a = true) (default [] args) ->
  well_typed (EFunction (fn_cb f) (fn_ret f) args).
Proof.
  intros Hi Hf Hlen Hargs. assert (honours f) as Hh.
  { pose proof (proj1 (Forall_forall _ _) core_functions_honour i Hi) as (f' & Hf' & Hh). rewrite Hf in Hf'. by injection Hf' as <-. }
  apply Forall_and in Hargs as [Hw Hn]. split; [|by apply honours_callback].
  destruct args as [args|]; [|done]. clear - Hw. simpl in Hw. induction Hw; simpl; auto.
Qed.

(** A host with a name and one address. *)
Definition plain_core : CoreEnv := {|
  exp_yday t := t / (86400 * 1000000) mod 365;
  apr_strftime _ _ _ := None;
  strptime _ _ := None;
  hostname := lit "host";
  hostname_fqdn := lit "host.example.org";
  host_addrs := Some [None; Some 167772161];
  route_names := []
|}.

Lemma plain_core_laws : CoreLaws plain_env plain_core.
Proof.
  split.
  - change (int64 0). unfold int64. lia.
  - intros t e He. change (DateFormat.explode t = Some e) in He. destruct (decide (0 <= t < DateFormat.TIME_MAX)) as [Ht|Ht].
    + destruct (DateFormat.explode_spec t Ht) as (e' & He' & [] & _). rewrite He in He'. injection He' as <-. unfold int64. repeat constructor; lia.
    + unfold DateFormat.explode in He. destruct (Z.leb_spec 0 t), (Z.ltb_spec t DateFormat.TIME_MAX); try discriminate He; lia.
  - intros t. pose proof (Z.mod_pos_bound (t / (86400 * 1000000)) 365). change (exp_yday t) with (t / (86400 * 1000000) mod 365). unfold int64. lia.
  - done.
Qed.

(** The call lc("ABC"). *)
Definition lower : @expr menv :=
  EFunction (nx_expr_func__lc (M := poison_malloc)) NX_VALUE_TYPE_STRING (Some [e_str "ABC"]).

Lemma core_functions_sound_witness :
  well_typed (PC := plain_pcre) lower /\
  nx_expr_evaluate (M := poison_malloc) (E := plain_env) (PC := plain_pcre) (ST := plain_stale) lower (no_ctx, zero_value) =
    ((no_ctx, str_value (lit "abc")), Ret tt).
Proof.
  split; [|vm_compute; reflexivity].
  apply (core_functions_sound (M := poison_malloc) (E := plain_env) (PC := plain_pcre) (ST := plain_stale) (CE := plain_core) (CL := plain_core_laws)
    0 (global_func "lc" (nx_expr_func__lc (M := poison_malloc)) NX_VALUE_TYPE_STRING [NX_VALUE_TYPE_STRING]) (Some [e_str "ABC"]));
    [by left|reflexivity|reflexivity|].
  constructor; [|constructor]. split; [|reflexivity]. split; [left|done]. split; [done|]. vm_compute. discriminate.
Defined.

End ExprCoreTypes.
