(* ===== verification/Route.v ===== *)
(** * Records between modules (common/module.c, core/router.c)

    An input module hands every record it reads to the processors or outputs of its
    routes ([nx_module_add_logdata_input]), a processor to what follows it
    ([nx_module_progress_logdata]); outputs and processors take records from their
    queues ([nx_module_logqueue_peek], [_pop], [_drop]).  A queue has a limit: with
    flow control a full queue makes the sender pause, without it the record is
    dropped.

    The state has the events, jobs and modules of [Event], the routes, and the
    allocated records.  A record is the association list that [Logdata] refines to;
    a queue is the sequence that [Logqueue] refines to, and pushing a record that is
    in a queue already is undefined, since its links are in use.  A record with several
    destinations is copied by [nx_logdata_clone], here on the association list: the copy
    throws for a string at the limit, and panics for a record without a [raw_event].  The Exec block of a
    module is a function on records, an argument of the model; [None] is a record
    that the block dropped. *)

From stdpp Require Import functions.
From S2P Require Import Prelude Dlist Str Value Logdata Event Scheduler.

Import Str Value Logdata Event Scheduler.

Module Route.

(** ** Data *)

Inductive nx_module_type := NX_MODULE_TYPE_INPUT | NX_MODULE_TYPE_PROCESSOR | NX_MODULE_TYPE_OUTPUT | NX_MODULE_TYPE_EXTENSION.

#[export] Instance module_type_dec : EqDecision nx_module_type.
Proof. solve_decision. Defined.

(** [nx_logqueue_t] *)
Record queue := Queue { q_items : list loc; q_limit : Z; q_needpop : bool }.

(** The fields of [nx_module_t] that [Event] does not look at. *)
Record fields := Fields {
  x_type : nx_module_type; x_flowcontrol : bool; x_routes : list loc; x_queue : option queue;
  x_recvd : Z; x_fwd : Z; x_name : bytes; x_dsoname : bytes; x_exec : option (alist -> option alist)
}.

Abbreviation module := (nx_module fields).

Record world := World {
  w_sys : sys fields;
  w_routes : gmap loc (list loc);       (* route->modules *)
  w_recs : gmap loc alist               (* the allocated records *)
}.

Abbreviation prog A := (cmd world A).

(** ** Access *)

Definition on_sys {A} (c : cmd (sys fields) A) : prog A := fun w =>
  let '(s, r) := c (w_sys w) in (World s (w_routes w) (w_recs w), r).

Definition get_mod (m : loc) : prog module := on_sys (get_module m).
Definition get_route (r : loc) : prog (list loc) := fun w => (w, deref (w_routes w !! r) "route").
Definition get_rec (ld : loc) : prog alist := fun w => (w, deref (w_recs w !! ld) "logdata").
Definition put_rec (ld : loc) (r : alist) : prog unit := fun w => (World (w_sys w) (w_routes w) (<[ld := r]> (w_recs w)), Ret tt).

Definition set_ext (x : fields) (md : module) : module := Mod (m_job md) (m_priority md) (m_status md) x.

Definition put_mod (m : loc) (md : module) : prog unit := fun w =>
  (World (with_modules (<[m := md]> (s_modules (w_sys w))) (w_sys w)) (w_routes w) (w_recs w), Ret tt).

Definition with_queue (q : queue) (x : fields) : fields :=
  Fields (x_type x) (x_flowcontrol x) (x_routes x) (Some q) (x_recvd x) (x_fwd x) (x_name x) (x_dsoname x) (x_exec x).
Definition with_recvd (n : Z) (x : fields) : fields :=
  Fields (x_type x) (x_flowcontrol x) (x_routes x) (x_queue x) n (x_fwd x) (x_name x) (x_dsoname x) (x_exec x).
Definition with_fwd (n : Z) (x : fields) : fields :=
  Fields (x_type x) (x_flowcontrol x) (x_routes x) (x_queue x) (x_recvd x) n (x_name x) (x_dsoname x) (x_exec x).

Definition put_ext (m : loc) (f : fields -> fields) : prog unit := md ← get_mod m; put_mod m (set_ext (f (m_ext md)) md).

(** [(module->evt_recvd)++] and [(module->evt_fwd)++]: unsigned 64-bit counters. *)
Definition u64 (z : Z) : Z := z mod 2 ^ 64.
Definition count_recvd (m : loc) : prog unit := put_ext m (fun x => with_recvd (u64 (x_recvd x + 1)) x).
Definition count_fwd (m : loc) (n : Z) : prog unit := put_ext m (fun x => with_fwd (u64 (x_fwd x + n)) x).

(** ** Records *)

(** The field that [logdata->raw_event] is an alias of ([Logdata.inv]): a defined
    string with exactly the name [raw_event]. *)
Definition is_raw (f : bytes * value) : bool :=
  strcmp_eq f.1 raw_key && bool_decide (v_type f.2 = NX_VALUE_TYPE_STRING) && (v_defined f.2 =? TRUE).

Section handing_on.
Context `{MA : Malloc} `{VE : ValueEnv}.

Fixpoint clone_values (r : alist) : outcome alist :=
  match r with
  | [] => Ret []
  | (key, v) :: r => value ← Value.nx_value_clone v; rest ← clone_values r; Ret ((key, value) :: rest)
  end.

(** [nx_logdata_clone]: every value is copied, which throws for a string at the
    string limit, and a record without [raw_event] fails the assertion at the end. *)
Definition nx_logdata_clone (r : alist) : outcome alist :=
  new ← clone_values r;
  _ ← ASSERT (existsb is_raw r) "new->raw_event != NULL";
  Ret new.

(** The copy gets a place of its own. *)
Definition new_rec (r : alist) : prog loc := fun w =>
  let l := fresh (dom (w_recs w)) in (World (w_sys w) (w_routes w) (<[l := r]> (w_recs w)), Ret l).
Definition clone_rec (ld : loc) : prog loc := r ← get_rec ld; c ← lift (nx_logdata_clone r); new_rec c.

(** [nx_logdata_free]. *)

Definition free_rec (ld : loc) : prog unit := fun w =>
  match w_recs w !! ld with
  | Some r => (World (w_sys w) (w_routes w) (delete ld (w_recs w)), Ret tt)
  | None => (w, Undef "free of a record that is not allocated")
  end.

(** ** Queues *)

Definition items_of (md : module) : list loc := match x_queue (m_ext md) with Some q => q_items q | None => [] end.

(** Is the record in the queue of a module? *)
Definition in_queue (ld : loc) (w : world) : bool :=
  bool_decide (map_Exists (fun _ md => ld ∈ items_of md) (s_modules (w_sys w))).

Definition get_queue (m : loc) : prog queue := md ← get_mod m; lift (deref (x_queue (m_ext md)) "queue").

Definition INT_MAX : Z := 2 ^ 31 - 1.

Definition nx_logqueue_size (m : loc) : prog Z := q ← get_queue m; mret (zlen (q_items q)).

Definition nx_logqueue_push (m ld : loc) : prog Z :=
  q ← get_queue m;
  w ← get;
  if in_queue ld w then lift (Undef "a record that is in a queue")
  else if zlen (q_items q) <? INT_MAX then
    _ ← put_ext m (with_queue (Queue (q_items q ++ [ld]) (q_limit q) (q_needpop q)));
    mret (zlen (q_items q) + 1)
  else lift (Undef "signed overflow of logqueue->size").

Definition nx_logqueue_peek (m : loc) : prog (option loc) :=
  q ← get_queue m;
  match q_items q with
  | [] => mret None
  | ld :: _ => _ ← put_ext m (with_queue (Queue (q_items q) (q_limit q) true)); mret (Some ld)
  end.

Definition nx_logqueue_pop (m ld : loc) : prog unit :=
  q ← get_queue m;
  _ ← lift (ASSERT (q_needpop q) "logqueue->needpop == TRUE");
  match q_items q with
  | [] => lift (Panic "ld != NULL")
  | l :: items =>
      _ ← lift (ASSERT (bool_decide (l = ld)) "ld == logdata");
      put_ext m (with_queue (Queue items (q_limit q) false))
  end.

(** ** Events of modules *)

Definition module_event (m : loc) (t : nx_event_type) : prog unit :=
  md ← get_mod m;
  on_sys (e ← nx_event_new;
          _ ← put_event e (Ev (Some m) t false 0 None (m_priority md) None);
          nx_event_add true e).

(** The pollset of a module is woken up too, which changes nothing here. *)
Definition nx_module_data_available (m : loc) : prog unit := module_event m NX_EVENT_DATA_AVAILABLE.
Definition nx_module_start (m : loc) : prog unit := module_event m NX_EVENT_MODULE_START.
Definition nx_module_stop (m : loc) : prog unit := module_event m NX_EVENT_MODULE_STOP.
Definition nx_module_pause (m : loc) : prog unit := module_event m NX_EVENT_MODULE_PAUSE.
Definition nx_module_resume (m : loc) : prog unit := module_event m NX_EVENT_MODULE_RESUME.
Definition nx_module_shutdown (m : loc) : prog unit := module_event m NX_EVENT_MODULE_SHUTDOWN.

Definition nx_module_get_status (m : loc) : prog nx_module_status := md ← get_mod m; mret (m_status md).

(** ** Flow control *)

(** [size >= limit * multiplier]; the multipliers 1.0 and 0.7 are [num / den]. *)
Record mult := Mult { num : Z; den : Z }.
Definition full : mult := Mult 1 1.
Definition seventy : mult := Mult 7 10.

Definition above (x : mult) (m : loc) : prog bool := q ← get_queue m; mret (q_limit q * num x <=? zlen (q_items q) * den x).

Definition type_of (m : loc) : prog nx_module_type := md ← get_mod m; mret (x_type (m_ext md)).

(** The search for the module behind [m] in a route: what follows it, that module
    first.  If [m] is the last one or not in the route, [curr] is the last module and
    nothing follows. *)
Fixpoint find_next (m : loc) (curr : option loc) (mods : list loc) : option loc * list loc :=
  match mods with
  | [] => (curr, [])
  | a :: rest => if bool_decide (curr = Some m) then (Some a, mods) else find_next m (Some a) rest
  end.

(** No queue of the outputs [mods] is above the mark. *)
Fixpoint outputs_below (x : mult) (mods : list loc) : prog bool :=
  match mods with
  | [] => mret true
  | a :: rest =>
      t ← type_of a;
      _ ← lift (ASSERT (bool_decide (t = NX_MODULE_TYPE_OUTPUT)) "curr->type == NX_MODULE_TYPE_OUTPUT");
      b ← above x a;
      if (b : bool) then mret false else outputs_below x rest
  end.

(** No queue of a processor or output of [mods] is above the mark. *)
Fixpoint queues_below (x : mult) (mods : list loc) : prog bool :=
  match mods with
  | [] => mret true
  | a :: rest =>
      t ← type_of a;
      match t with
      | NX_MODULE_TYPE_OUTPUT | NX_MODULE_TYPE_PROCESSOR => b ← above x a; if (b : bool) then mret false else queues_below x rest
      | _ => queues_below x rest
      end
  end.

Fixpoint routes_below (x : mult) (rs : list loc) : prog bool :=
  match rs with
  | [] => mret true
  | r :: rs => mods ← get_route r; b ← queues_below x mods; if (b : bool) then routes_below x rs else mret false
  end.

Definition nx_module_can_send (m : loc) (x : mult) : prog bool :=
  md ← get_mod m;
  match x_type (m_ext md) with
  | NX_MODULE_TYPE_OUTPUT => b ← above x m; mret (negb b)
  | NX_MODULE_TYPE_PROCESSOR =>
      r ← lift (deref (head (x_routes (m_ext md))) "routes");
      mods ← get_route r;
      let '(curr, rest) := find_next m None mods in
      curr ← lift (deref curr "curr");
      t ← type_of curr;
      match t with
      | NX_MODULE_TYPE_PROCESSOR => b ← above x curr; mret (negb b)
      | _ => outputs_below x rest
      end
  | NX_MODULE_TYPE_INPUT => routes_below x (x_routes (m_ext md))
  | NX_MODULE_TYPE_EXTENSION => lift (Panic "invalid type: %d")
  end.

(** ** Handing on a record *)

(** The copy for a queue that is not full. *)
Definition route_copy (curr ld : loc) : prog unit :=
  b ← above full curr;
  if (b : bool) then mret tt
  else tmp ← clone_rec ld; _ ← nx_logqueue_push curr tmp; nx_module_data_available curr.

Fixpoint nx_module_add_logdata_to_route (mods : list loc) (ld : loc) : prog unit :=
  match mods with
  | [] => mret tt
  | curr :: rest =>
      t ← type_of curr;
      match t with
      | NX_MODULE_TYPE_PROCESSOR => route_copy curr ld
      | NX_MODULE_TYPE_OUTPUT => _ ← route_copy curr ld; nx_module_add_logdata_to_route rest ld
      | _ => nx_module_add_logdata_to_route rest ld
      end
  end.

(** Without flow control: the record is dropped if the queue is full. *)
Definition push_or_drop (curr tmp : loc) : prog bool :=
  b ← above full curr;
  sent ← (if (b : bool) then _ ← free_rec tmp; mret false else _ ← nx_logqueue_push curr tmp; mret true);
  _ ← nx_module_data_available curr;
  mret sent.

(** With flow control: the record is pushed, and the sender is paused if the queue is
    full now. *)
Definition limit_of (m : loc) : prog Z := q ← get_queue m; mret (q_limit q).

Definition push_and_pause (m curr tmp : loc) : prog bool :=
  size ← nx_logqueue_push curr tmp;
  limit ← limit_of curr;
  if limit <=? size then
    st ← nx_module_get_status m;
    if bool_decide (st = NX_MODULE_STATUS_RUNNING) then _ ← nx_module_pause m; mret true else mret false
  else mret false.

Definition send_processor (m curr tmp : loc) : prog bool :=
  md ← get_mod m;
  if negb (x_flowcontrol (m_ext md)) then push_or_drop curr tmp
  else
    paused ← push_and_pause m curr tmp;
    _ ← (if (paused : bool) then mret tt else nx_module_data_available curr);
    mret true.

Definition send_output (m curr tmp : loc) : prog bool :=
  md ← get_mod m;
  if negb (x_flowcontrol (m_ext md)) then push_or_drop curr tmp
  else
    _ ← push_and_pause m curr tmp;
    b ← nx_module_can_send curr full;
    _ ← (if (b : bool) then nx_module_data_available curr else mret tt);
    mret true.

(** The last destination gets the record itself, the others copies of it. *)
Definition copy_for (cnt : Z) (ld : loc) : prog loc := if 1 <? cnt then clone_rec ld else mret ld.

Fixpoint send_route (m ld : loc) (mods : list loc) (cnt : Z) (sent : bool) : prog (Z * bool) :=
  match mods with
  | [] => mret (cnt, sent)
  | curr :: rest =>
      t ← type_of curr;
      match t with
      | NX_MODULE_TYPE_PROCESSOR =>
          tmp ← copy_for cnt ld; b ← send_processor m curr tmp; mret (cnt - 1, sent || b)
      | NX_MODULE_TYPE_OUTPUT =>
          tmp ← copy_for cnt ld; b ← send_output m curr tmp; send_route m ld rest (cnt - 1) (sent || b)
      | _ => send_route m ld rest cnt sent
      end
  end.

Fixpoint send_routes (m ld : loc) (rs : list loc) (cnt : Z) (sent : bool) : prog bool :=
  match rs with
  | [] => mret sent
  | r :: rs => mods ← get_route r; x ← send_route m ld mods cnt sent; send_routes m ld rs x.1 x.2
  end.

(** The loop that counts the destinations. *)
Fixpoint count_route (mods : list loc) (cnt : Z) : prog Z :=
  match mods with
  | [] => mret cnt
  | curr :: rest =>
      t ← type_of curr;
      match t with
      | NX_MODULE_TYPE_PROCESSOR => mret (cnt + 1)
      | NX_MODULE_TYPE_OUTPUT => count_route rest (cnt + 1)
      | _ => count_route rest cnt
      end
  end.

Fixpoint count_routes (rs : list loc) (cnt : Z) : prog Z :=
  match rs with
  | [] => mret cnt
  | r :: rs => mods ← get_route r; cnt ← count_route mods cnt; count_routes rs cnt
  end.

(** The fields every record gets, if it does not have them. *)
Definition default_field (k : bytes) (v : value) (al : alist) : alist :=
  match alist_get k al with None => alist_set k v al | Some _ => al end.

Definition with_source (now : Z) (x : fields) (al : alist) : alist :=
  default_field (lit "SourceModuleType") (str_value (x_dsoname x))
    (default_field (lit "SourceModuleName") (str_value (x_name x))
      (default_field (lit "EventReceivedTime") (nx_value_new_datetime now) al)).

(** The Exec block: [false] if it dropped the record. *)
Definition run_exec (m ld : loc) : prog bool :=
  md ← get_mod m;
  match x_exec (m_ext md) with
  | None => mret true
  | Some f => r ← get_rec ld; match f r with Some r' => _ ← put_rec ld r'; mret true | None => mret false end
  end.

Definition nx_module_add_logdata_input (now : Z) (m ld : loc) : prog unit :=
  md ← get_mod m;
  _ ← lift (ASSERT (bool_decide (x_type (m_ext md) = NX_MODULE_TYPE_INPUT)) "module->type == NX_MODULE_TYPE_INPUT");
  r ← get_rec ld;
  _ ← put_rec ld (with_source now (m_ext md) r);
  _ ← count_recvd m;
  kept ← run_exec m ld;
  if negb kept then free_rec ld
  else
    cnt ← count_routes (x_routes (m_ext md)) 0;
    if cnt =? 0 then mret tt
    else
      sent ← send_routes m ld (x_routes (m_ext md)) cnt false;
      if (sent : bool) then count_fwd m 1 else mret tt.

(** A processor hands on a record. *)
Definition push_or_pause (m curr tmp : loc) : prog bool :=
  md ← get_mod m;
  if negb (x_flowcontrol (m_ext md)) then push_or_drop curr tmp
  else
    size ← nx_logqueue_push curr tmp;
    limit ← limit_of curr;
    _ ← (if limit <=? size then nx_module_pause m else nx_module_data_available curr);
    mret true.

Fixpoint progress_outputs (m ld : loc) (mods : list loc) (sent : bool) : prog bool :=
  match mods with
  | [] => mret sent
  | curr :: rest =>
      t ← type_of curr;
      _ ← lift (ASSERT (bool_decide (t = NX_MODULE_TYPE_OUTPUT)) "curr->type == NX_MODULE_TYPE_OUTPUT");
      tmp ← (if bool_decide (rest = []) then mret ld else clone_rec ld);
      b ← push_or_pause m curr tmp;
      progress_outputs m ld rest (sent || b)
  end.

Definition nx_module_logqueue_pop (m ld : loc) : prog unit :=
  t ← type_of m;
  _ ← lift (ASSERT (negb (bool_decide (t = NX_MODULE_TYPE_INPUT))) "module->type != NX_MODULE_TYPE_INPUT");
  nx_logqueue_pop m ld.

Definition nx_module_progress_logdata (m ld : loc) : prog unit :=
  md ← get_mod m;
  _ ← lift (ASSERT (bool_decide (x_type (m_ext md) = NX_MODULE_TYPE_PROCESSOR)) "module->type == NX_MODULE_TYPE_PROCESSOR");
  q ← get_queue m;
  _ ← (if q_needpop q then nx_module_logqueue_pop m ld else mret tt);
  r ← lift (deref (head (x_routes (m_ext md))) "routes");
  mods ← get_route r;
  let '(curr, rest) := find_next m None mods in
  curr ← lift (deref curr "curr");
  t ← type_of curr;
  sent ← (match t with
          | NX_MODULE_TYPE_PROCESSOR => push_or_pause m curr ld
          | _ => progress_outputs m ld rest false
          end);
  if (sent : bool) then count_fwd m 1 else mret tt.

Definition nx_module_logqueue_drop (m ld : loc) : prog unit :=
  t ← type_of m;
  _ ← lift (ASSERT (negb (bool_decide (t = NX_MODULE_TYPE_INPUT))) "module->type != NX_MODULE_TYPE_INPUT");
  _ ← count_fwd m (-1);
  _ ← nx_logqueue_pop m ld;
  free_rec ld.

End handing_on.

(** ** Resuming the senders *)

(** The modules before [m] in a route, the nearest one first. *)
Fixpoint before (m : loc) (mods acc : list loc) : option (list loc) :=
  match mods with
  | [] => None
  | a :: rest => if bool_decide (a = m) then Some acc else before m rest (a :: acc)
  end.

Definition resume_processor (curr : loc) : prog unit :=
  b ← nx_module_can_send curr seventy;
  if (b : bool) then
    _ ← nx_module_resume curr;
    st ← nx_module_get_status curr;
    if bool_decide (st = NX_MODULE_STATUS_RUNNING) then nx_module_data_available curr else mret tt
  else mret tt.

Fixpoint resume_inputs (mods : list loc) : prog unit :=
  match mods with
  | [] => mret tt
  | curr :: rest =>
      t ← type_of curr;
      _ ← lift (ASSERT (bool_decide (t = NX_MODULE_TYPE_INPUT)) "curr->type == NX_MODULE_TYPE_INPUT");
      b ← nx_module_can_send curr seventy;
      _ ← (if (b : bool) then nx_module_resume curr else mret tt);
      resume_inputs rest
  end.

(** The outputs before an output are skipped; reading before the start of the array
    is undefined. *)
Fixpoint skip_outputs (mods : list loc) : prog (list loc) :=
  match mods with
  | [] => lift (Undef "read before the array")
  | a :: rest => t ← type_of a; if bool_decide (t = NX_MODULE_TYPE_OUTPUT) then skip_outputs rest else mret mods
  end.

Definition resume_route (m : loc) (t : nx_module_type) (mods : list loc) : prog unit :=
  match before m mods [] with
  | None => mret tt
  | Some prev =>
      _ ← lift (ASSERT (negb (bool_decide (prev = []))) "j > 0");
      prev ← (if bool_decide (t = NX_MODULE_TYPE_PROCESSOR) then mret prev
              else if bool_decide (t = NX_MODULE_TYPE_OUTPUT) then skip_outputs prev
              else mret (m :: prev));
      curr ← lift (deref (head prev) "curr");
      tc ← type_of curr;
      match tc with
      | NX_MODULE_TYPE_PROCESSOR => resume_processor curr
      | _ => resume_inputs prev
      end
  end.

Fixpoint resume_routes (m : loc) (t : nx_module_type) (rs : list loc) : prog unit :=
  match rs with
  | [] => mret tt
  | r :: rs => mods ← get_route r; _ ← resume_route m t mods; resume_routes m t rs
  end.

Definition resume_senders (m : loc) : prog unit :=
  md ← get_mod m; resume_routes m (x_type (m_ext md)) (x_routes (m_ext md)).

Definition nx_module_logqueue_peek (m : loc) : prog (option loc) :=
  md ← get_mod m;
  _ ← lift (ASSERT (negb (bool_decide (x_type (m_ext md) = NX_MODULE_TYPE_INPUT))) "module->type != NX_MODULE_TYPE_INPUT");
  ld ← nx_logqueue_peek m;
  size ← nx_logqueue_size m;
  _ ← (if 0 <? size then nx_module_data_available m else mret tt);
  _ ← resume_senders m;
  ld ← (match ld with
        | None => mret None
        | Some ld =>
            _ ← count_recvd m;
            kept ← run_exec m ld;
            if (kept : bool) then mret (Some ld)
            else _ ← nx_logqueue_pop m ld; _ ← free_rec ld; mret None
        end);
  _ ← (if bool_decide (ld <> None) && bool_decide (x_type (m_ext md) = NX_MODULE_TYPE_OUTPUT) then count_fwd m 1 else mret tt);
  mret ld.

(** ** The shape of a configuration

    What handing on records does not change. *)

Definition items (w : world) (m : loc) : list loc := match s_modules (w_sys w) !! m with Some md => items_of md | None => [] end.

Definition shape (md : module) : fields * option Z * (option loc * Z * nx_module_status) :=
  let x := m_ext md in
  (Fields (x_type x) (x_flowcontrol x) (x_routes x) None 0 0 (x_name x) (x_dsoname x) (x_exec x), q_limit <$> x_queue x,
   (m_job md, m_priority md, m_status md)).

Definition same_shape (w w' : world) : Prop :=
  w_routes w' = w_routes w /\ forall m, shape <$> s_modules (w_sys w') !! m = shape <$> s_modules (w_sys w) !! m.

#[export] Instance same_shape_preorder : PreOrder same_shape.
Proof. split; [by intros w|]. intros w1 w2 w3 [H1 H2] [H3 H4]. split; [congruence|]. intros m. by rewrite H4. Qed.

Lemma shape_Some (a b : module) : shape <$> Some a = shape <$> Some b -> shape a = shape b.
Proof. intros H. exact (f_equal (default (shape a)) H). Qed.

Lemma same_shape_lookup w w' m md : same_shape w w' -> s_modules (w_sys w) !! m = Some md ->
  exists md', s_modules (w_sys w') !! m = Some md' /\ shape md' = shape md.
Proof.
  intros [_ H] Hm. specialize (H m). rewrite Hm in H. destruct (s_modules (w_sys w') !! m) as [md'|]; [|done]. exists md'. split; [done|]. by apply shape_Some.
Qed.

(** Types and limits. *)
Definition mtype (w : world) (m : loc) : option nx_module_type := x_type ∘ m_ext <$> s_modules (w_sys w) !! m.
Definition limit (w : world) (m : loc) : Z := default 0 (md ← s_modules (w_sys w) !! m; q ← x_queue (m_ext md); Some (q_limit q)).

Lemma mtype_shape w w' m : same_shape w w' -> mtype w' m = mtype w m.
Proof.
  intros [_ H]. specialize (H m). unfold mtype. destruct (s_modules (w_sys w) !! m) as [md|], (s_modules (w_sys w') !! m) as [md'|]; try done.
  unfold shape in H. simpl in *. injection H as H _. by rewrite H.
Qed.

Lemma limit_shape w w' m : same_shape w w' -> limit w' m = limit w m.
Proof.
  intros [_ H]. specialize (H m). unfold limit. destruct (s_modules (w_sys w) !! m) as [md|], (s_modules (w_sys w') !! m) as [md'|]; try done.
  simpl in *. injection H as _ _ _ _ _ _ Hq _ _ _. by destruct (x_queue (m_ext md)), (x_queue (m_ext md')); simpl in *; congruence.
Qed.

Definition has_queue (t : nx_module_type) : bool :=
  match t with NX_MODULE_TYPE_PROCESSOR | NX_MODULE_TYPE_OUTPUT => true | _ => false end.

(** A configuration whose modules are complete: their events can be scheduled, the
    modules of routes exist, processors and outputs have queues. *)
Record world_ok (w : world) : Prop := {
  wo_sched : exists v, sched_ok (w_sys w) v;
  wo_priority m md : s_modules (w_sys w) !! m = Some md -> m_priority md <> 0;
  wo_queue m md : s_modules (w_sys w) !! m = Some md -> has_queue (x_type (m_ext md)) = true -> is_Some (x_queue (m_ext md));
  wo_routes m md r : s_modules (w_sys w) !! m = Some md -> r ∈ x_routes (m_ext md) -> is_Some (w_routes w !! r);
  wo_modules r mods a : w_routes w !! r = Some mods -> a ∈ mods -> is_Some (s_modules (w_sys w) !! a)
}.

Lemma world_ok_shape w w' : world_ok w -> same_shape w w' -> (exists v, sched_ok (w_sys w') v) -> world_ok w'.
Proof.
  intros [] Hs Hv. assert (forall m md', s_modules (w_sys w') !! m = Some md' -> exists md, s_modules (w_sys w) !! m = Some md /\ shape md' = shape md) as Hback.
  { intros m md' Hm. destruct Hs as [_ H]. specialize (H m). rewrite Hm in H. destruct (s_modules (w_sys w) !! m) as [md|]; [|done]. exists md. split; [done|].
    by apply shape_Some. }
  split; [done| | | |].
  - intros m md' Hm. destruct (Hback m md' Hm) as (md & Hmd & E). injection E as _ _ _ _ _ _ _ _ -> _. eauto.
  - intros m md' Hm Ht. destruct (Hback m md' Hm) as (md & Hmd & E). injection E as E1 _ _ _ _ _ Eq _ _ _. rewrite E1 in Ht.
    specialize (wo_queue0 m md Hmd Ht). destruct (x_queue (m_ext md)), (x_queue (m_ext md')); try done.
  - intros m md' r Hm. destruct (Hback m md' Hm) as (md & Hmd & E). injection E as _ _ -> _ _ _ _ _ _ _. destruct Hs as [-> _]. eauto.
  - intros r mods a. destruct Hs as [-> Hs]. intros Hr Ha. specialize (Hs a). destruct (wo_modules0 r mods a Hr Ha) as [md Hmd]. rewrite Hmd in Hs.
    destruct (s_modules (w_sys w') !! a); [eauto|done].
Qed.

(** Every allocated record is in exactly one place: one queue, or in the hands of the
    caller. *)
Record recs_ok (w : world) (held : list loc) : Prop := {
  rc_alloc x : is_Some (w_recs w !! x) <-> (exists m, x ∈ items w m) \/ x ∈ held;
  rc_nodup m : NoDup (items w m);
  rc_disj x m1 m2 : x ∈ items w m1 -> x ∈ items w m2 -> m1 = m2;
  rc_held x m : x ∈ held -> x ∉ items w m;
  rc_once : NoDup held
}.

(** Room for [n] more records in every queue, and for their events. *)
Definition room (w : world) (n : nat) : Prop :=
  Z.of_nat (size (s_events (w_sys w))) + 2 * Z.of_nat n < 2 ^ 32 /\ forall m, zlen (items w m) + Z.of_nat n <= INT_MAX.

(** ** Copies of records *)

(** The values that [nx_value_clone] copies: those that are well-formed, are not
    regular expressions, and whose string is below the string limit. *)
Definition copyable_value (v : value) : Prop :=
  v_defined v = TRUE -> data_ok (fun c => zlen c < string_limit) (v_type v) (v_data v) /\ v_type v <> NX_VALUE_TYPE_REGEXP.

(** The records that [nx_logdata_clone] copies. *)
Definition copyable (r : alist) : Prop := existsb is_raw r = true /\ Forall (fun f => copyable_value f.2) r.

(** The same record, up to the unused union member of undefined values. *)
Definition same_value (a b : value) : Prop :=
  v_type b = v_type a /\ v_defined b = v_defined a /\ (v_defined a = TRUE -> v_data b = v_data a).
Definition same_record (r c : alist) : Prop := Forall2 (fun f g => g.1 = f.1 /\ same_value f.2 g.2) r c.

#[export] Instance same_record_refl : Reflexive same_record.
Proof. intros r. induction r; by constructor. Qed.

(** The record at [y] is [r] or a copy of it. *)
Definition holds (w : world) (r : alist) (y : loc) : Prop := exists c, w_recs w !! y = Some c /\ same_record r c.

Lemma holds_refl w r y : w_recs w !! y = Some r -> holds w r y.
Proof. exists r. done. Qed.

Lemma holds_same w w' r y : w_recs w' !! y = w_recs w !! y -> holds w r y -> holds w' r y.
Proof. unfold holds. by intros ->. Qed.

(** ** The basic operations *)

Section delivery.
Context `{MA : Malloc} `{VE : ValueEnv}.

Lemma value_clone_same v : copyable_value v -> exists v', Value.nx_value_clone v = Ret v' /\ same_value v v'.
Proof.
  intros Hv. unfold Value.nx_value_clone. destruct (v_defined v =? TRUE) eqn:Ed; [|eexists; split; [reflexivity|]; split_and!; try done; intros; tests; congruence].
  tests. destruct (Hv Ed) as [Hd Hr]. destruct (decide (v_type v = NX_VALUE_TYPE_STRING)) as [Et|Et].
  - rewrite Et in *. destruct (v_data v) as [| | |c| | | | | |] eqn:Edat; try done. simpl.
    destruct (nx_string_clone_rep (exact c) c) as (s & -> & Hs); [apply exact_rep; simpl in Hd; unfold string_limit in *; lia|done|]. simpl. eexists. split; [reflexivity|]. split_and!; try done. intros _. simpl. by rewrite (str_rep_content _ _ Hs).
  - rewrite (clone_plain_ok _ v Hd Et Hr). destruct (v_type v) eqn:Et'; try done; eexists; (split; [reflexivity|]); split_and!; simpl; congruence.
Qed.

Lemma logdata_clone_same r : copyable r -> exists c, nx_logdata_clone r = Ret c /\ same_record r c.
Proof.
  intros [Hraw Hr]. unfold nx_logdata_clone. rewrite Hraw.
  assert (exists c, clone_values r = Ret c /\ same_record r c) as (c & -> & Hc); [|by exists c].
  clear Hraw. induction Hr as [|[k v] r Hv Hr (c & IH & Hc)]; [by exists []|]. destruct (value_clone_same v Hv) as (v' & Hv' & Hs).
  exists ((k, v') :: c). simpl. rewrite Hv'. simpl. rewrite IH. split; [done|]. by constructor.
Qed.

(** A record without [raw_event] cannot be copied: the assertion stops the process. *)
Lemma clone_without_raw r : existsb is_raw r = false -> Forall (fun f => copyable_value f.2) r -> nx_logdata_clone r = Panic "new->raw_event != NULL".
Proof.
  intros Hraw Hr. unfold nx_logdata_clone. rewrite Hraw. assert (exists c, clone_values r = Ret c) as [c ->]; [|done].
  clear Hraw. induction Hr as [|[k v] r Hv Hr (c & IH)]; [by exists []|]. destruct (value_clone_same v Hv) as (v' & Hv' & _).
  exists ((k, v') :: c). simpl. rewrite Hv'. simpl. by rewrite IH.
Qed.

Lemma get_mod_ok w m md : s_modules (w_sys w) !! m = Some md -> get_mod m w = (w, Ret md).
Proof. intros Hm. unfold get_mod, on_sys, get_module. rewrite Hm. by destruct w. Qed.

Lemma get_queue_ok w m md q : s_modules (w_sys w) !! m = Some md -> x_queue (m_ext md) = Some q -> get_queue m w = (w, Ret q).
Proof. intros Hm Hq. unfold get_queue. rewrite (cmd_bind_Ret _ _ _ _ _ (get_mod_ok w m md Hm)). unfold lift. by rewrite Hq. Qed.

Lemma type_of_ok w m t : mtype w m = Some t -> type_of m w = (w, Ret t).
Proof. intros (md & Hm & ->)%fmap_Some. unfold type_of. by rewrite (cmd_bind_Ret _ _ _ _ _ (get_mod_ok w m md Hm)). Qed.

(** A module that has a queue. *)
Lemma queue_of w m t : world_ok w -> mtype w m = Some t -> has_queue t = true ->
  exists md q, s_modules (w_sys w) !! m = Some md /\ x_queue (m_ext md) = Some q /\ items w m = q_items q /\ limit w m = q_limit q.
Proof.
  intros Hok (md & Hm & ->)%fmap_Some Hq. destruct (wo_queue w Hok m md Hm Hq) as [q Eq]. exists md, q. unfold items, items_of, limit. rewrite Hm. simpl.
  rewrite Eq. done.
Qed.

(** Changing the fields of a module leaves the scheduler's invariant alone. *)
Lemma sched_ext_fields (s : sys fields) v m md x : sched_ok s v -> s_modules s !! m = Some md ->
  sched_ok (with_modules (<[m := set_ext x md]> (s_modules s)) s) v.
Proof.
  intros [[] Hc [Hm1 Hm2] He Hs] Hm.
  assert (forall a md', (<[m := set_ext x md]> (s_modules s)) !! a = Some md' -> exists md0, s_modules s !! a = Some md0 /\ m_job md' = m_job md0) as Hback.
  { intros a md'. destruct (decide (m = a)) as [<- |]; [rewrite lookup_insert_eq; intros [= <-]; eauto|rewrite lookup_insert_ne by done; eauto]. }
  split; [by split|done| | |done].
  - split; simpl.
    + intros a md' Ha. destruct (Hback a md' Ha) as (md0 & H0 & ->). by apply (Hm1 a).
    + intros a b mda mdb j Ha Hb. destruct (Hback a mda Ha) as (? & ? & ->). destruct (Hback b mdb Hb) as (? & ? & ->). eauto.
  - intros r e ev Hr Hev. destruct (He r e ev Hr Hev) as (Hp & Ht & a & mda & Ea & Ha & H). split_and!; try done. simpl.
    destruct (decide (m = a)) as [<- |].
    + exists m, (set_ext x md). rewrite lookup_insert_eq. rewrite Hm in Ha. injection Ha as <-. split_and!; try done.
    + exists a, mda. rewrite lookup_insert_ne by done. done.
Qed.

(** [put_ext] with a change that keeps the shape. *)
Lemma put_ext_ok w m md f : world_ok w -> s_modules (w_sys w) !! m = Some md -> shape (set_ext (f (m_ext md)) md) = shape md ->
  exists w', put_ext m f w = (w', Ret tt) /\ world_ok w' /\ same_shape w w' /\ w_recs w' = w_recs w /\
    s_events (w_sys w') = s_events (w_sys w) /\
    (forall x, items w' x = if decide (x = m) then items_of (set_ext (f (m_ext md)) md) else items w x).
Proof.
  intros Hok Hm Hsh. unfold put_ext. rewrite (cmd_bind_Ret _ _ _ _ _ (get_mod_ok w m md Hm)). eexists. split; [reflexivity|].
  set (w' := World _ _ _). assert (same_shape w w') as Hs.
  { split; [done|]. intros a. subst w'. simpl. destruct (decide (m = a)) as [<- |]; [by rewrite lookup_insert_eq, Hm; simpl; rewrite Hsh|by rewrite lookup_insert_ne]. }
  split_and!; try done.
  - apply (world_ok_shape w); [done|done|]. destruct (wo_sched w Hok) as [v Hv]. exists v. by apply sched_ext_fields.
  - intros x. unfold items at 1. subst w'. simpl. destruct (decide (x = m)) as [-> |]; [by rewrite lookup_insert_eq|by rewrite lookup_insert_ne].
Qed.

Lemma count_ok w m md f : world_ok w -> s_modules (w_sys w) !! m = Some md ->
  (forall x, shape (set_ext (f x) md) = shape (set_ext x md)) -> (forall x, x_queue (f x) = x_queue x) ->
  exists w', put_ext m f w = (w', Ret tt) /\ world_ok w' /\ same_shape w w' /\ w_recs w' = w_recs w /\
    s_events (w_sys w') = s_events (w_sys w) /\ (forall x, items w' x = items w x).
Proof.
  intros Hok Hm Hsh Hq. destruct (put_ext_ok w m md f Hok Hm) as (w' & H & Hok' & Hs & Hr & He & Hi); [rewrite Hsh; by destruct md|].
  exists w'. split_and!; try done. intros x. rewrite Hi. case_decide as E; [subst|done]. unfold items, items_of. rewrite Hm. simpl. by rewrite Hq.
Qed.

(** An event for a module. *)
Lemma module_event_ok w m t : world_ok w -> is_Some (s_modules (w_sys w) !! m) -> t <> NX_EVENT_NONE ->
  Z.of_nat (size (s_events (w_sys w))) + 1 < 2 ^ 32 ->
  exists w', module_event m t w = (w', Ret tt) /\ world_ok w' /\ same_shape w w' /\ w_recs w' = w_recs w /\
    (forall x, items w' x = items w x) /\ (size (s_events (w_sys w')) <= S (size (s_events (w_sys w))))%nat.
Proof.
  intros Hok [md Hm] Ht Hsz. unfold module_event. rewrite (cmd_bind_Ret _ _ _ _ _ (get_mod_ok w m md Hm)).
  destruct (wo_sched w Hok) as [v Hv]. set (ev := Ev (Some m) t false 0 None (m_priority md) None).
  destruct (new_event_ok true (w_sys w) v ev Hv) as (s' & v' & H & Hok' & (_ & HM & _) & _ & Hsize).
  { split_and!; [by apply (wo_priority w Hok m)|done|done|exists m; split; [done|eauto]|done]. }
  cbn [run_call] in H. unfold on_sys. rewrite H. eexists. split; [reflexivity|].
  assert (same_shape w (World s' (w_routes w) (w_recs w))) as Hs by (split; [done|]; intros a; simpl; by rewrite HM).
  split_and!; try done; [apply (world_ok_shape w); [done|done|by exists v']|]. intros x. unfold items. simpl. by rewrite HM.
Qed.

Lemma recs_ok_same w w' held : recs_ok w held -> w_recs w' = w_recs w -> (forall x, items w' x = items w x) -> recs_ok w' held.
Proof.
  intros [] Hr Hi. split; try done.
  - intros x. rewrite Hr, rc_alloc0. split; (intros [[m Hm]|H]; [left; exists m; by rewrite Hi in * |by right]).
  - intros m. by rewrite Hi.
  - intros x m1 m2. rewrite !Hi. eauto.
  - intros x m. rewrite Hi. eauto.
Qed.

Lemma sched_recs w rs : world_ok w -> world_ok (World (w_sys w) (w_routes w) rs).
Proof. intros H. apply (world_ok_shape w); [done|done|apply H]. Qed.

Lemma clone_ok w ld r held : world_ok w -> recs_ok w held -> w_recs w !! ld = Some r -> copyable r ->
  exists w' l c, clone_rec ld w = (w', Ret l) /\ world_ok w' /\ same_shape w w' /\ recs_ok w' (l :: held) /\
    w_sys w' = w_sys w /\ w_recs w' = <[l := c]> (w_recs w) /\ w_recs w !! l = None /\ same_record r c.
Proof.
  intros Hok [] Hr Hc. destruct (logdata_clone_same r Hc) as (c & Hcl & Hsame). unfold clone_rec. rewrite (cmd_bind_Ret _ _ w w r) by (unfold get_rec; by rewrite Hr).
  rewrite (cmd_bind_Ret _ _ w w c) by (unfold lift; by rewrite Hcl). unfold new_rec. set (l := fresh _). do 3 eexists. split; [reflexivity|].
  assert (w_recs w !! l = None) as Hl by (apply not_elem_of_dom; apply is_fresh).
  assert (forall m, l ∉ items w m) as Hno by (intros m Hm; assert (is_Some (w_recs w !! l)) as [? ?] by (apply rc_alloc0; eauto); congruence).
  assert (l ∉ held) as Hnh by (intros Hm; assert (is_Some (w_recs w !! l)) as [? ?] by (apply rc_alloc0; eauto); congruence).
  split_and!; try done; [by apply sched_recs|]. split; simpl.
  - intros x. unfold items in *. simpl. destruct (decide (l = x)) as [<- |Hne].
    + rewrite lookup_insert_eq. split; [intros _; right; by left|eauto].
    + rewrite lookup_insert_ne by done. rewrite rc_alloc0, elem_of_cons. split; [intros [H|H]; auto|intros [H|[H|H]]; auto; congruence].
  - done.
  - done.
  - intros x m [-> |Hx]%elem_of_cons; [apply Hno|by apply rc_held0].
  - by apply NoDup_cons.
Qed.

Lemma free_rec_ok w ld held : world_ok w -> recs_ok w (ld :: held) ->
  exists w', free_rec ld w = (w', Ret tt) /\ world_ok w' /\ same_shape w w' /\ recs_ok w' held /\ w_sys w' = w_sys w /\ w_recs w' = delete ld (w_recs w).
Proof.
  intros Hok []. assert (is_Some (w_recs w !! ld)) as [r Hr] by (apply rc_alloc0; right; by left).
  unfold free_rec. rewrite Hr. eexists. split; [reflexivity|]. apply NoDup_cons in rc_once0 as [Hnot Honce].
  split_and!; try done; [by apply sched_recs|]. split; simpl.
  - intros x. unfold items in *. simpl. destruct (decide (ld = x)) as [<- |Hne].
    + rewrite lookup_delete_eq. split; [intros [? H]; done|]. intros [[m Hm]|H]; [|done]. by destruct (rc_held0 ld m); [left|].
    + rewrite lookup_delete_ne by done. rewrite rc_alloc0, elem_of_cons. split; [intros [H|[H|H]]; auto; congruence|intros [H|H]; auto].
  - done.
  - done.
  - intros x m Hx. apply rc_held0. by right.
  - done.
Qed.

Lemma in_queue_false w ld held : recs_ok w held -> ld ∈ held -> in_queue ld w = false.
Proof.
  intros [] Hin. apply bool_decide_eq_false. intros (m & md & Hm & Hx). apply (rc_held0 ld m Hin). unfold items. by rewrite Hm.
Qed.

Lemma push_ok w m t ld held : world_ok w -> recs_ok w (ld :: held) -> mtype w m = Some t -> has_queue t = true -> zlen (items w m) < INT_MAX ->
  exists w', nx_logqueue_push m ld w = (w', Ret (zlen (items w m) + 1)) /\ world_ok w' /\ same_shape w w' /\ recs_ok w' held /\
    w_recs w' = w_recs w /\ s_events (w_sys w') = s_events (w_sys w) /\
    (forall x, items w' x = if decide (x = m) then items w m ++ [ld] else items w x).
Proof.
  intros Hok Hrec Ht Hq Hlen. destruct (queue_of w m t Hok Ht Hq) as (md & q & Hm & Eq & Ei & _). unfold nx_logqueue_push.
  rewrite (cmd_bind_Ret _ _ _ _ _ (get_queue_ok w m md q Hm Eq)), (cmd_bind_Ret _ _ w w w) by done.
  rewrite (in_queue_false w ld (ld :: held) Hrec) by (by left). rewrite <- Ei. rewrite (proj2 (Z.ltb_lt _ _) Hlen).
  destruct (put_ext_ok w m md (with_queue (Queue (items w m ++ [ld]) (q_limit q) (q_needpop q))) Hok Hm) as (w' & H & Hok' & Hs & Hr & He & Hi).
  { unfold shape. simpl. by rewrite Eq. }
  rewrite (cmd_bind_Ret _ _ _ _ _ H). exists w'. split_and!; try done. pose proof Hrec as []. apply NoDup_cons in rc_once0 as [Hnot Honce].
  assert (forall x a, x ∈ items w' a <-> x ∈ items w a \/ (x = ld /\ a = m)) as Hin.
  { intros x a. rewrite Hi. case_decide as E; [subst|].
    - unfold items_of. simpl. rewrite elem_of_app, list_elem_of_singleton. naive_solver.
    - naive_solver. }
  split.
  - intros x. rewrite Hr, rc_alloc0, elem_of_cons. split.
    + intros [[a Ha]|[-> |H']]; [left; exists a; apply Hin; by left|left; exists m; apply Hin; by right|by right].
    + intros [[a Ha]|H']; [apply Hin in Ha as [Ha|[-> ->]]; [left; eauto|by right; left]|by right; right].
  - intros a. rewrite Hi. case_decide as E; [|done]. subst. unfold items_of. simpl. apply NoDup_app. split_and!; [apply rc_nodup0| |apply NoDup_singleton].
    intros x Hx ->%list_elem_of_singleton. by apply (rc_held0 ld m); [left|].
  - intros x a b [Ha|[-> ->]]%Hin [Hb|[Ex ->]]%Hin; [by eapply rc_disj0| | |done].
    + subst. by destruct (rc_held0 ld a); [left|].
    + by destruct (rc_held0 ld b); [left|].
  - intros x a Hx [Ha|[-> ->]]%Hin; [by apply (rc_held0 x a); [right|]|done].
  - done.
Qed.

Lemma above_ok w m t x : world_ok w -> mtype w m = Some t -> has_queue t = true ->
  above x m w = (w, Ret (limit w m * num x <=? zlen (items w m) * den x)).
Proof.
  intros Hok Ht Hq. destruct (queue_of w m t Hok Ht Hq) as (md & q & Hm & Eq & -> & ->). unfold above.
  by rewrite (cmd_bind_Ret _ _ _ _ _ (get_queue_ok w m md q Hm Eq)).
Qed.

Lemma limit_of_ok w m t : world_ok w -> mtype w m = Some t -> has_queue t = true -> limit_of m w = (w, Ret (limit w m)).
Proof.
  intros Hok Ht Hq. destruct (queue_of w m t Hok Ht Hq) as (md & q & Hm & Eq & _ & ->). unfold limit_of.
  by rewrite (cmd_bind_Ret _ _ _ _ _ (get_queue_ok w m md q Hm Eq)).
Qed.

Lemma mtype_Some w m t : mtype w m = Some t -> is_Some (s_modules (w_sys w) !! m).
Proof. intros (md & Hm & _)%fmap_Some. eauto. Qed.

(** The effect of handing [tmp] to [curr]: it is pushed ([b]) or freed. *)
Record sent_to (w w' : world) (curr tmp : loc) (held : list loc) (b : bool) : Prop := {
  se_ok : world_ok w'; se_shape : same_shape w w'; se_recs : recs_ok w' held;
  se_room : (size (s_events (w_sys w')) <= 2 + size (s_events (w_sys w)))%nat;
  se_items x : items w' x = if decide (x = curr) then (if b then items w curr ++ [tmp] else items w curr) else items w x;
  se_rec x : w_recs w' !! x = if b then w_recs w !! x else (delete tmp (w_recs w)) !! x
}.

(** Events after a step do not change the effect. *)
Lemma sent_event w w1 w' curr tmp held b n : sent_to w w1 curr tmp held b -> (size (s_events (w_sys w1)) + n <= 2 + size (s_events (w_sys w)))%nat ->
  world_ok w' -> same_shape w1 w' -> w_recs w' = w_recs w1 -> (forall x, items w' x = items w1 x) ->
  (size (s_events (w_sys w')) <= n + size (s_events (w_sys w1)))%nat -> sent_to w w' curr tmp held b.
Proof.
  intros [] Hn Hok Hs Hr Hi Hsz. split; try done.
  - by transitivity w1.
  - by eapply recs_ok_same.
  - lia.
  - intros x. by rewrite Hi.
  - intros x. by rewrite Hr.
Qed.

Lemma push_or_drop_ok w curr t tmp held : world_ok w -> recs_ok w (tmp :: held) -> mtype w curr = Some t -> has_queue t = true -> room w 1 ->
  exists w' b, push_or_drop curr tmp w = (w', Ret b) /\ sent_to w w' curr tmp held b /\ b = (zlen (items w curr) <? limit w curr).
Proof.
  intros Hok Hrec Ht Hq [He Hlen]. unfold push_or_drop. rewrite (cmd_bind_Ret _ _ _ _ _ (above_ok w curr t full Hok Ht Hq)).
  cbn [num den full]. rewrite !Z.mul_1_r, Z.leb_antisym. specialize (Hlen curr). destruct (zlen (items w curr) <? limit w curr) eqn:El; cbn [negb].
  - destruct (push_ok w curr t tmp held Hok Hrec Ht Hq) as (w1 & H1 & Hok1 & Hs1 & Hrec1 & Hr1 & He1 & Hi1); [lia|].
    assert (sent_to w w1 curr tmp held true) as Hsent by (split; try done; [rewrite He1; lia|intros x; by rewrite Hr1]).
    rewrite (cmd_bind_Ret _ _ w w1 true) by (by rewrite (cmd_bind_Ret _ _ _ _ _ H1)).
    destruct (module_event_ok w1 curr NX_EVENT_DATA_AVAILABLE Hok1) as (w2 & H2 & Hok2 & Hs2 & Hr2 & Hi2 & Hsz2); [| done|rewrite He1; lia|].
    { eapply mtype_Some. by rewrite (mtype_shape w w1 curr Hs1). }
    unfold nx_module_data_available. rewrite (cmd_bind_Ret _ _ _ _ _ H2). exists w2, true. split_and!; try done. eapply (sent_event _ _ _ _ _ _ _ 1); try done. rewrite He1. lia.
  - destruct (free_rec_ok w tmp held Hok Hrec) as (w1 & H1 & Hok1 & Hs1 & Hrec1 & Es1 & Hr1).
    assert (forall x, items w1 x = items w x) as Hi1 by (intros x; unfold items; by rewrite Es1).
    assert (sent_to w w1 curr tmp held false) as Hsent.
    { split; try done; [rewrite Es1; lia|intros x; rewrite Hi1; by case_decide as E; [subst|]|intros x; by rewrite Hr1]. }
    rewrite (cmd_bind_Ret _ _ w w1 false) by (by rewrite (cmd_bind_Ret _ _ _ _ _ H1)).
    destruct (module_event_ok w1 curr NX_EVENT_DATA_AVAILABLE Hok1) as (w2 & H2 & Hok2 & Hs2 & Hr2 & Hi2 & Hsz2); [|done|rewrite Es1; lia|].
    { rewrite Es1. by eapply mtype_Some. }
    unfold nx_module_data_available. rewrite (cmd_bind_Ret _ _ _ _ _ H2). exists w2, false. split_and!; try done. eapply (sent_event _ _ _ _ _ _ _ 1); try done. rewrite Es1. lia.
Qed.

(** An event after a record was handed over. *)
Lemma sent_then_event w w1 curr tmp held b m t : sent_to w w1 curr tmp held b -> is_Some (s_modules (w_sys w) !! m) -> t <> NX_EVENT_NONE ->
  (S (size (s_events (w_sys w1))) <= 2 + size (s_events (w_sys w)))%nat -> Z.of_nat (size (s_events (w_sys w))) + 2 < 2 ^ 32 ->
  exists w', module_event m t w1 = (w', Ret tt) /\ sent_to w w' curr tmp held b /\
    (size (s_events (w_sys w')) <= S (size (s_events (w_sys w1))))%nat.
Proof.
  intros Hsent [md Hm] Ht Hsz Hroom. pose proof Hsent as []. destruct (same_shape_lookup w w1 m md se_shape0 Hm) as (md1 & Hm1 & _).
  destruct (module_event_ok w1 m t se_ok0) as (w2 & H2 & Hok2 & Hs2 & Hr2 & Hi2 & Hsz2); [eauto|done|lia|].
  exists w2. split_and!; [done| |done]. eapply (sent_event _ _ _ _ _ _ _ 1); try done. lia.
Qed.

Lemma push_sent w curr t tmp held : world_ok w -> recs_ok w (tmp :: held) -> mtype w curr = Some t -> has_queue t = true -> room w 1 ->
  exists w', nx_logqueue_push curr tmp w = (w', Ret (zlen (items w curr) + 1)) /\ sent_to w w' curr tmp held true /\
    s_events (w_sys w') = s_events (w_sys w).
Proof.
  intros Hok Hrec Ht Hq [He Hlen]. specialize (Hlen curr).
  destruct (push_ok w curr t tmp held Hok Hrec Ht Hq) as (w1 & H1 & Hok1 & Hs1 & Hrec1 & Hr1 & He1 & Hi1); [lia|].
  exists w1. split_and!; try done. split; try done; [rewrite He1; lia|intros x; by rewrite Hr1].
Qed.

Lemma get_status_ok w m md : s_modules (w_sys w) !! m = Some md -> nx_module_get_status m w = (w, Ret (m_status md)).
Proof. intros Hm. unfold nx_module_get_status. by rewrite (cmd_bind_Ret _ _ _ _ _ (get_mod_ok w m md Hm)). Qed.

Lemma push_and_pause_ok w m md curr t tmp held : world_ok w -> recs_ok w (tmp :: held) -> s_modules (w_sys w) !! m = Some md ->
  mtype w curr = Some t -> has_queue t = true -> room w 1 ->
  exists w' p, push_and_pause m curr tmp w = (w', Ret p) /\ sent_to w w' curr tmp held true /\
    (size (s_events (w_sys w')) <= S (size (s_events (w_sys w))))%nat.
Proof.
  intros Hok Hrec Hm Ht Hq Hroom. destruct (push_sent w curr t tmp held Hok Hrec Ht Hq Hroom) as (w1 & H1 & Hs1 & He1). unfold push_and_pause.
  rewrite (cmd_bind_Ret _ _ _ _ _ H1). pose proof Hs1 as [].
  rewrite (cmd_bind_Ret _ _ _ _ _ (limit_of_ok w1 curr t se_ok0 ltac:(by rewrite (mtype_shape w w1 curr se_shape0)) Hq)).
  destruct (_ <=? _); [|exists w1, false; split_and!; try done; rewrite He1; lia].
  destruct (same_shape_lookup w w1 m md se_shape0 Hm) as (md1 & Hm1 & _). rewrite (cmd_bind_Ret _ _ _ _ _ (get_status_ok w1 m md1 Hm1)).
  case_bool_decide; [|exists w1, false; split_and!; try done; rewrite He1; lia]. destruct Hroom as [Hev _].
  destruct (sent_then_event w w1 curr tmp held true m NX_EVENT_MODULE_PAUSE Hs1) as (w2 & H2 & Hs2 & Hsz2); [eauto|done|rewrite He1; lia|lia|].
  unfold nx_module_pause. rewrite (cmd_bind_Ret _ _ _ _ _ H2). exists w2, true. split_and!; try done. by rewrite <- He1.
Qed.

(** What a record handed over by [m] needs. *)
Definition accepts (w : world) (m curr : loc) : bool :=
  match s_modules (w_sys w) !! m with
  | Some md => x_flowcontrol (m_ext md) || (zlen (items w curr) <? limit w curr)
  | None => false
  end.

Lemma send_processor_ok w m md curr t tmp held : world_ok w -> recs_ok w (tmp :: held) -> s_modules (w_sys w) !! m = Some md ->
  mtype w curr = Some t -> has_queue t = true -> room w 1 ->
  exists w', send_processor m curr tmp w = (w', Ret (accepts w m curr)) /\ sent_to w w' curr tmp held (accepts w m curr).
Proof.
  intros Hok Hrec Hm Ht Hq Hroom. unfold send_processor, accepts. rewrite (cmd_bind_Ret _ _ _ _ _ (get_mod_ok w m md Hm)), Hm.
  destruct (x_flowcontrol (m_ext md)); cbn [negb orb].
  - destruct (push_and_pause_ok w m md curr t tmp held Hok Hrec Hm Ht Hq Hroom) as (w1 & p & H1 & Hs1 & Hsz1). rewrite (cmd_bind_Ret _ _ _ _ _ H1).
    destruct p; [exists w1; split; [done|done]|]. destruct Hroom as [Hev _].
    destruct (sent_then_event w w1 curr tmp held true curr NX_EVENT_DATA_AVAILABLE Hs1) as (w2 & H2 & Hs2 & _); [by eapply mtype_Some|done|lia|lia|].
    unfold nx_module_data_available. rewrite (cmd_bind_Ret _ _ _ _ _ H2). by exists w2.
  - destruct (push_or_drop_ok w curr t tmp held Hok Hrec Ht Hq Hroom) as (w' & b & H & Hs & ->). by exists w'.
Qed.

Lemma send_output_ok w m md curr tmp held : world_ok w -> recs_ok w (tmp :: held) -> s_modules (w_sys w) !! m = Some md ->
  mtype w curr = Some NX_MODULE_TYPE_OUTPUT -> room w 1 ->
  exists w', send_output m curr tmp w = (w', Ret (accepts w m curr)) /\ sent_to w w' curr tmp held (accepts w m curr).
Proof.
  intros Hok Hrec Hm Ht Hroom. unfold send_output, accepts. rewrite (cmd_bind_Ret _ _ _ _ _ (get_mod_ok w m md Hm)), Hm.
  destruct (x_flowcontrol (m_ext md)); cbn [negb orb].
  - destruct (push_and_pause_ok w m md curr _ tmp held Hok Hrec Hm Ht eq_refl Hroom) as (w1 & p & H1 & Hs1 & Hsz1). rewrite (cmd_bind_Ret _ _ _ _ _ H1).
    pose proof Hs1 as []. pose proof (mtype_shape w w1 curr se_shape0) as Ht1. rewrite Ht in Ht1. pose proof Ht1 as (mdc & Hmc & Etc)%fmap_Some.
    unfold nx_module_can_send at 1. rewrite <- cmd_bind_assoc, (cmd_bind_Ret _ _ _ _ _ (get_mod_ok w1 curr mdc Hmc)). simpl in Etc. rewrite <- Etc.
    rewrite <- cmd_bind_assoc, (cmd_bind_Ret _ _ _ _ _ (above_ok w1 curr _ full se_ok0 Ht1 eq_refl)).
    rewrite (cmd_bind_Ret (mret _) _ w1 w1 _) by reflexivity.
    destruct (negb _); [|exists w1; split; [done|done]]. destruct Hroom as [Hev _].
    destruct (sent_then_event w w1 curr tmp held true curr NX_EVENT_DATA_AVAILABLE Hs1) as (w2 & H2 & Hs2 & _); [by eapply mtype_Some|done|lia|lia|].
    unfold nx_module_data_available. rewrite (cmd_bind_Ret _ _ _ _ _ H2). by exists w2.
  - destruct (push_or_drop_ok w curr _ tmp held Hok Hrec Ht eq_refl Hroom) as (w' & b & H & Hs & ->). by exists w'.
Qed.

Lemma push_or_pause_ok w m md curr t tmp held : world_ok w -> recs_ok w (tmp :: held) -> s_modules (w_sys w) !! m = Some md ->
  mtype w curr = Some t -> has_queue t = true -> room w 1 ->
  exists w', push_or_pause m curr tmp w = (w', Ret (accepts w m curr)) /\ sent_to w w' curr tmp held (accepts w m curr).
Proof.
  intros Hok Hrec Hm Ht Hq Hroom. unfold push_or_pause, accepts. rewrite (cmd_bind_Ret _ _ _ _ _ (get_mod_ok w m md Hm)), Hm.
  destruct (x_flowcontrol (m_ext md)); cbn [negb orb].
  - destruct (push_sent w curr t tmp held Hok Hrec Ht Hq Hroom) as (w1 & H1 & Hs1 & He1). rewrite (cmd_bind_Ret _ _ _ _ _ H1). pose proof Hs1 as [].
    rewrite (cmd_bind_Ret _ _ _ _ _ (limit_of_ok w1 curr t se_ok0 ltac:(by rewrite (mtype_shape w w1 curr se_shape0)) Hq)). destruct Hroom as [Hev _].
    destruct (_ <=? _).
    + destruct (sent_then_event w w1 curr tmp held true m NX_EVENT_MODULE_PAUSE Hs1) as (w2 & H2 & Hs2 & _); [eauto|done|rewrite He1; lia|lia|].
      unfold nx_module_pause. rewrite (cmd_bind_Ret _ _ _ _ _ H2). by exists w2.
    + destruct (sent_then_event w w1 curr tmp held true curr NX_EVENT_DATA_AVAILABLE Hs1) as (w2 & H2 & Hs2 & _); [by eapply mtype_Some|done|rewrite He1; lia|lia|].
      unfold nx_module_data_available. rewrite (cmd_bind_Ret _ _ _ _ _ H2). by exists w2.
  - destruct (push_or_drop_ok w curr t tmp held Hok Hrec Ht Hq Hroom) as (w' & b & H & Hs & ->). by exists w'.
Qed.

(** ** Several destinations *)

(** How often [x] is in a list of destinations. *)
Fixpoint times (x : loc) (ds : list loc) : Z :=
  match ds with [] => 0 | d :: ds => (if bool_decide (x = d) then 1 else 0) + times x ds end.

Lemma times_app x d1 d2 : times x (d1 ++ d2) = times x d1 + times x d2.
Proof. induction d1; simpl; lia. Qed.
Lemma times_nonneg x ds : 0 <= times x ds.
Proof. induction ds; simpl; [lia|]. case_bool_decide; lia. Qed.
Lemma times_length x ds : times x ds <= zlen ds.
Proof. induction ds; simpl; [lia|]. case_bool_decide; lia. Qed.

(** How many of [c] records a queue of length [len] takes: all of them with flow
    control, otherwise as many as there is room for. *)
Definition accepted (fc : bool) (c len lim : Z) : Z := if fc then c else Z.max 0 (Z.min c (lim - len)).

(** The state after the record [ld] with contents [r] was handed to the
    destinations [ds] of module [m], with [k] destinations still to come: every queue
    has got its copies at its end and nothing else changed; [ld] is still in hand if
    there are destinations left, and otherwise it is in a queue or was freed. *)
Record delivered (m ld : loc) (r : alist) (fc : bool) (w0 w : world) (ds : list loc) (k : nat) : Prop := {
  de_ok : world_ok w; de_shape : same_shape w0 w;
  de_events : (size (s_events (w_sys w)) <= 2 * length ds + size (s_events (w_sys w0)))%nat;
  de_recs : recs_ok w (if (0 <? k)%nat then [ld] else []);
  de_rec : (0 < k)%nat -> w_recs w !! ld = Some r;
  de_other x : is_Some (w_recs w0 !! x) -> x <> ld -> w_recs w !! x = w_recs w0 !! x;
  de_items x : exists new, items w x = items w0 x ++ new /\ Forall (holds w r) new /\
    zlen new = accepted fc (times x ds) (zlen (items w0 x)) (limit w0 x)
}.

Lemma delivered_nil m ld r fc w k : world_ok w -> recs_ok w [ld] -> w_recs w !! ld = Some r -> (0 < k)%nat -> delivered m ld r fc w w [] k.
Proof.
  intros Hok Hrec Hr Hk. split; try done.
  - by destruct k; [lia|].
  - intros x. exists []. rewrite app_nil_r. split_and!; try done. unfold accepted. simpl. destruct fc; lia.
Qed.

(** The sender's flow control is a part of the shape. *)
Definition flow (w : world) (m : loc) (fc : bool) : Prop := exists md, s_modules (w_sys w) !! m = Some md /\ x_flowcontrol (m_ext md) = fc.

Lemma flow_shape w w' m fc : same_shape w w' -> flow w m fc -> flow w' m fc.
Proof.
  intros Hs (md & Hm & <-). destruct (same_shape_lookup w w' m md Hs Hm) as (md' & Hm' & E). exists md'. split; [done|]. unfold shape in E. by injection E.
Qed.

Lemma accepts_flow w m fc curr : flow w m fc -> accepts w m curr = fc || (zlen (items w curr) <? limit w curr).
Proof. intros (md & Hm & <-). unfold accepts. by rewrite Hm. Qed.

(** The copy for a destination, before it is handed over. *)
Record copied (ld : loc) (r : alist) (w0 w w1 : world) (tmp : loc) (k : nat) : Prop := {
  co_ok : world_ok w1; co_shape : same_shape w0 w1; co_sys : w_sys w1 = w_sys w;
  co_recs : recs_ok w1 (tmp :: (if (0 <? k)%nat then [ld] else [])); co_tmp : holds w1 r tmp;
  co_other x : x <> tmp -> w_recs w1 !! x = w_recs w !! x;
  co_new x : is_Some (w_recs w !! x) -> x <> ld -> x <> tmp;
  co_ld : (0 < k)%nat -> tmp <> ld
}.

Lemma copied_ok m ld r fc w0 w ds k : ((0 < k)%nat -> copyable r) -> delivered m ld r fc w0 w ds (S k) ->
  exists w1 tmp, (if (0 <? k)%nat then clone_rec ld else mret ld) w = (w1, Ret tmp) /\ copied ld r w0 w w1 tmp k.
Proof.
  intros Hcop []. specialize (de_rec0 ltac:(lia)). simpl in de_recs0. destruct (0 <? k)%nat eqn:Ek.
  - destruct (clone_ok w ld r [ld] de_ok0 de_recs0 de_rec0) as (w1 & l & c & H1 & Hok1 & Hs1 & Hrec1 & Es1 & Hr1 & Hnew & Hsame); [apply Hcop; by apply Nat.ltb_lt|].
    exists w1, l. split; [done|].
    split; try done; [by transitivity w|by rewrite Ek|exists c; by rewrite Hr1, lookup_insert_eq|intros x Hx; by rewrite Hr1, lookup_insert_ne| |congruence].
    intros x [? Hx] _ ->. congruence.
  - exists w, ld. split; [done|]. split; try done; [by rewrite Ek|by apply holds_refl|]. apply Nat.ltb_ge in Ek. lia.
Qed.

Lemma delivered_length m ld r fc w0 w ds k x : delivered m ld r fc w0 w ds k -> zlen (items w x) <= zlen (items w0 x) + zlen ds.
Proof.
  intros []. destruct (de_items0 x) as (new & -> & _ & Hn). rewrite length_app. pose proof (times_length x ds). pose proof (times_nonneg x ds).
  unfold accepted in Hn. destruct fc; lia.
Qed.

Lemma delivered_sent m ld r fc w0 w w1 w2 ds k0 k curr tmp b : delivered m ld r fc w0 w ds (S k0) -> copied ld r w0 w w1 tmp k ->
  sent_to w1 w2 curr tmp (if (0 <? k)%nat then [ld] else []) b -> b = fc || (zlen (items w curr) <? limit w0 curr) ->
  delivered m ld r fc w0 w2 (ds ++ [curr]) k.
Proof.
  intros [] [] [] Hb. specialize (de_rec0 ltac:(lia)). simpl in de_recs0. assert (forall x, items w1 x = items w x) as Hi1 by (intros x; unfold items; by rewrite co_sys0).
  assert (forall x, x <> tmp -> w_recs w2 !! x = w_recs w1 !! x) as Hx2 by (intros x Hx; rewrite se_rec0; destruct b; [done|by rewrite lookup_delete_ne]).
  split; try done.
  - by transitivity w1.
  - rewrite length_app. simpl. rewrite co_sys0 in se_room0. lia.
  - intros Hk. rewrite Hx2, co_other0 by (by apply not_eq_sym, co_ld0). done.
  - intros x Hx Hl. specialize (de_other0 x Hx Hl). rewrite <- de_other0 in Hx. assert (x <> tmp) by (by apply co_new0). rewrite Hx2, co_other0 by done. done.
  - intros x. destruct (de_items0 x) as (new & Hnew & Hall & Hn). rewrite se_items0, !Hi1.
    assert (Forall (holds w2 r) new) as Hall2.
    { apply Forall_forall. intros y Hy. rewrite Forall_forall in Hall. assert (is_Some (w_recs w !! y)) as Hal by (destruct (Hall y Hy) as (? & -> & _); eauto).
      assert (y <> ld) as Hyl. { intros ->. apply (rc_held _ _ de_recs0 ld x); [by left|]. rewrite Hnew. apply elem_of_app. by right. }
      assert (y <> tmp) by (by apply co_new0). apply (holds_same w); [by rewrite Hx2, co_other0|by apply Hall]. }
    rewrite times_app. simpl. rewrite Z.add_0_r. pose proof (times_nonneg x ds) as Hpos.
    destruct (decide (x = curr)) as [-> |Hxc].
    + rewrite bool_decide_eq_true_2 by done. destruct b.
      * exists (new ++ [tmp]). rewrite Hnew, <- app_assoc. split_and!; [done| |].
        -- apply Forall_app. split; [done|]. apply Forall_singleton. apply (holds_same w1); [by rewrite se_rec0|done].
        -- rewrite length_app. simpl. unfold accepted in *. destruct fc; [lia|]. simpl in Hb. symmetry in Hb. tests. rewrite Hnew, length_app in Hb. lia.
      * exists new. split_and!; [by rewrite Hnew|done|]. unfold accepted in *. destruct fc; [done|]. simpl in Hb. symmetry in Hb. tests. rewrite Hnew, length_app in Hb. lia.
    + rewrite bool_decide_eq_false_2 by done. exists new. rewrite Z.add_0_r. by rewrite Hnew.
Qed.

(** One more destination. *)
Lemma delivered_step m ld r fc w0 w ds k curr (send : loc -> prog bool) : flow w0 m fc -> ((0 < k)%nat -> copyable r) -> room w0 (S (length ds)) ->
  (forall w1 tmp held, same_shape w0 w1 -> world_ok w1 -> recs_ok w1 (tmp :: held) -> room w1 1 ->
    exists w', send tmp w1 = (w', Ret (accepts w1 m curr)) /\ sent_to w1 w' curr tmp held (accepts w1 m curr)) ->
  delivered m ld r fc w0 w ds (S k) ->
  exists w' b, (tmp ← (if (0 <? k)%nat then clone_rec ld else mret ld); send tmp) w = (w', Ret b) /\ delivered m ld r fc w0 w' (ds ++ [curr]) k.
Proof.
  intros Hflow Hcop [Hev Hlen] Hsend Hd. destruct (copied_ok m ld r fc w0 w ds k Hcop Hd) as (w1 & tmp & H1 & Hco). pose proof Hco as []. rewrite (cmd_bind_Ret _ _ _ _ _ H1).
  assert (forall x, items w1 x = items w x) as Hi1 by (intros x; unfold items; by rewrite co_sys0).
  destruct (Hsend w1 tmp _ co_shape0 co_ok0 co_recs0) as (w2 & H2 & Hs2).
  { pose proof (de_events _ _ _ _ _ _ _ _ Hd). split; [rewrite co_sys0; lia|]. intros x. rewrite Hi1. pose proof (delivered_length _ _ _ _ _ _ _ _ x Hd). specialize (Hlen x). lia. }
  exists w2, (accepts w1 m curr). split; [done|]. eapply delivered_sent; [exact Hd|exact Hco|exact Hs2|].
  rewrite (accepts_flow w1 m fc curr (flow_shape w0 w1 m fc co_shape0 Hflow)). by rewrite Hi1, (limit_shape w0 w1 curr co_shape0).
Qed.

(** The destinations of a record on a route: the outputs up to the first processor,
    and that processor. *)
Fixpoint dests (w : world) (mods : list loc) : list loc :=
  match mods with
  | [] => []
  | a :: rest =>
      match mtype w a with
      | Some NX_MODULE_TYPE_PROCESSOR => [a]
      | Some NX_MODULE_TYPE_OUTPUT => a :: dests w rest
      | _ => dests w rest
      end
  end.

Definition route_dests (w : world) (r : loc) : list loc := match w_routes w !! r with Some mods => dests w mods | None => [] end.

Lemma dests_shape w w' mods : same_shape w w' -> dests w' mods = dests w mods.
Proof. intros Hs. induction mods as [|a mods IH]; [done|]. simpl. by rewrite (mtype_shape w w' a Hs), IH. Qed.

Lemma copy_for_nat k ld : copy_for (Z.of_nat (S k)) ld = if (0 <? k)%nat then clone_rec ld else mret ld.
Proof. unfold copy_for. destruct k; [done|]. by rewrite (proj2 (Z.ltb_lt _ _)), (proj2 (Nat.ltb_lt _ _)) by lia. Qed.

Definition all_exist (w : world) (mods : list loc) : Prop := forall a, a ∈ mods -> is_Some (s_modules (w_sys w) !! a).

Lemma exist_type w mods a : all_exist w mods -> a ∈ mods -> exists t, mtype w a = Some t.
Proof. intros H Ha. destruct (H a Ha) as [md Hm]. unfold mtype. rewrite Hm. eauto. Qed.

Lemma send_route_ok m ld r fc w0 mods : flow w0 m fc -> all_exist w0 mods -> forall w ds k sent,
  room w0 (length ds + length (dests w0 mods)) -> ((1 < length (dests w0 mods) + k)%nat -> copyable r) ->
  delivered m ld r fc w0 w ds (length (dests w0 mods) + k) ->
  exists w' sent', send_route m ld mods (Z.of_nat (length (dests w0 mods) + k)) sent w = (w', Ret (Z.of_nat k, sent')) /\
    delivered m ld r fc w0 w' (ds ++ dests w0 mods) k.
Proof.
  intros Hflow. pose proof Hflow as (md & Hm & _).
  induction mods as [|curr mods IH]; intros Hex w ds k sent Hroom Hcop Hd; [exists w, sent; by rewrite app_nil_r|].
  destruct (exist_type w0 _ curr Hex) as [t Ht]; [by left|]. cbn [send_route].
  pose proof (mtype_shape w0 w curr (de_shape _ _ _ _ _ _ _ _ Hd)) as Hty. rewrite Ht in Hty. rewrite (cmd_bind_Ret _ _ _ _ _ (type_of_ok w curr t Hty)).
  assert (all_exist w0 mods) as Hex' by (intros a Ha; apply Hex; by right). cbn [dests] in Hroom, Hcop, Hd |- *. rewrite Ht in Hroom, Hcop, Hd |- *.
  assert (forall w1 tmp held, has_queue t = true -> same_shape w0 w1 -> world_ok w1 -> recs_ok w1 (tmp :: held) -> room w1 1 ->
    exists w', match t with NX_MODULE_TYPE_PROCESSOR => send_processor m curr tmp | _ => send_output m curr tmp end w1 = (w', Ret (accepts w1 m curr)) /\
      sent_to w1 w' curr tmp held (accepts w1 m curr)) as Hsend.
  { intros w1 tmp held Hq Hs1 Hok1 Hrec1 Hroom1. destruct (same_shape_lookup w0 w1 m md Hs1 Hm) as (md1 & Hm1 & _).
    assert (mtype w1 curr = Some t) as Ht1 by (by rewrite (mtype_shape w0 w1 curr Hs1)).
    destruct t; try done; [by eapply send_processor_ok|by eapply send_output_ok]. }
  destruct t; [by apply IH| | |by apply IH].
  - cbn [length Nat.add] in Hroom, Hcop, Hd |- *. rewrite copy_for_nat.
    destruct (delivered_step m ld r fc w0 w ds k curr (send_processor m curr) Hflow) as (w' & b & H & Hd'); [intros; apply Hcop; lia|by rewrite Nat.add_1_r in Hroom|by intros; apply Hsend|done|].
    rewrite cmd_bind_assoc, (cmd_bind_Ret _ _ _ _ _ H). exists w', (sent || b). split; [|done]. unfold mret, cmd_ret. do 3 f_equal. lia.
  - cbn [length Nat.add] in Hroom, Hcop, Hd |- *. rewrite copy_for_nat.
    destruct (delivered_step m ld r fc w0 w ds (length (dests w0 mods) + k) curr (send_output m curr) Hflow) as (w' & b & H & Hd').
    { intros. apply Hcop. lia. }
    { destruct Hroom as [H1 H2]. split; [lia|]. intros x. specialize (H2 x). lia. }
    { by intros; apply Hsend. }
    { done. }
    rewrite cmd_bind_assoc, (cmd_bind_Ret _ _ _ _ _ H).
    destruct (IH Hex' w' (ds ++ [curr]) k (sent || b)) as (w2 & s2 & H2 & Hd2); [|intros; apply Hcop; lia|done|].
    { rewrite length_app. simpl. destruct Hroom as [H1 H2]. split; [lia|]. intros x. specialize (H2 x). lia. }
    exists w2, s2. rewrite <- app_assoc in Hd2. split; [|done]. rewrite <- H2. f_equal. lia.
Qed.

Lemma get_route_ok w r mods : w_routes w !! r = Some mods -> get_route r w = (w, Ret mods).
Proof. intros Hr. unfold get_route. by rewrite Hr. Qed.

(** The destinations on all routes of a module. *)
Definition all_dests (w : world) (rs : list loc) : list loc := concat (route_dests w <$> rs).

Definition routes_exist (w : world) (rs : list loc) : Prop := forall r, r ∈ rs -> exists mods, w_routes w !! r = Some mods /\ all_exist w mods.

Lemma routes_exist_ok w m md : world_ok w -> s_modules (w_sys w) !! m = Some md -> routes_exist w (x_routes (m_ext md)).
Proof.
  intros Hok Hm r Hr. destruct (wo_routes w Hok m md r Hm Hr) as [mods Hmods]. exists mods. split; [done|]. intros a. by apply (wo_modules w Hok r).
Qed.

Lemma send_routes_ok m ld r fc w0 rs : flow w0 m fc -> routes_exist w0 rs -> forall w ds sent,
  room w0 (length ds + length (all_dests w0 rs)) -> ((1 < length (all_dests w0 rs))%nat -> copyable r) ->
  delivered m ld r fc w0 w ds (length (all_dests w0 rs)) ->
  exists w' sent', send_routes m ld rs (Z.of_nat (length (all_dests w0 rs))) sent w = (w', Ret sent') /\
    delivered m ld r fc w0 w' (ds ++ all_dests w0 rs) 0.
Proof.
  intros Hflow. induction rs as [|rt rs IH]; intros Hex w ds sent Hroom Hcop Hd; [exists w, sent; by rewrite app_nil_r|].
  destruct (Hex rt) as (mods & Hrt & Hmods); [by left|]. cbn [send_routes].
  rewrite (cmd_bind_Ret _ _ w w mods). 2:{ apply get_route_ok. by destruct (de_shape _ _ _ _ _ _ _ _ Hd) as [-> _]. }
  assert (all_dests w0 (rt :: rs) = dests w0 mods ++ all_dests w0 rs) as Ed by (unfold all_dests, route_dests; simpl; by rewrite Hrt).
  rewrite Ed, length_app in *. destruct (send_route_ok m ld r fc w0 mods Hflow Hmods w ds (length (all_dests w0 rs)) sent) as (w1 & s1 & H1 & Hd1); [|intros; apply Hcop; lia|done|].
  { destruct Hroom as [H1 H2]. split; [lia|]. intros x. specialize (H2 x). lia. }
  rewrite (cmd_bind_Ret _ _ _ _ _ H1). cbn [fst snd].
  destruct (IH ltac:(intros x Hx; apply Hex; by right) w1 (ds ++ dests w0 mods) s1) as (w2 & s2 & H2 & Hd2); [by rewrite length_app, <- Nat.add_assoc|intros; apply Hcop; lia|done|].
  exists w2, s2. by rewrite <- app_assoc in Hd2.
Qed.

Lemma count_route_ok w mods cnt : all_exist w mods -> count_route mods cnt w = (w, Ret (cnt + zlen (dests w mods))).
Proof.
  revert cnt. induction mods as [|a mods IH]; intros cnt Hex; [simpl; by rewrite Z.add_0_r|]. destruct (exist_type w _ a Hex) as [t Ht]; [by left|].
  cbn [count_route dests]. rewrite (cmd_bind_Ret _ _ _ _ _ (type_of_ok w a t Ht)), Ht.
  assert (all_exist w mods) as Hex' by (intros x Hx; apply Hex; by right). destruct t; rewrite ?IH by done; [done|done| |done]. simpl. do 2 f_equal. lia.
Qed.

Lemma count_routes_ok w rs cnt : routes_exist w rs -> count_routes rs cnt w = (w, Ret (cnt + zlen (all_dests w rs))).
Proof.
  revert cnt. induction rs as [|rt rs IH]; intros cnt Hex; [simpl; by rewrite Z.add_0_r|]. destruct (Hex rt) as (mods & Hrt & Hmods); [by left|].
  cbn [count_routes]. rewrite (cmd_bind_Ret _ _ _ _ _ (get_route_ok w rt mods Hrt)), (cmd_bind_Ret _ _ _ _ _ (count_route_ok w mods cnt Hmods)).
  rewrite IH by (intros x Hx; apply Hex; by right).
  assert (all_dests w (rt :: rs) = dests w mods ++ all_dests w rs) as -> by (unfold all_dests, route_dests; simpl; by rewrite Hrt).
  rewrite length_app. do 2 f_equal. lia.
Qed.

(** ** Input *)

Lemma put_rec_ok w ld r held : world_ok w -> recs_ok w held -> is_Some (w_recs w !! ld) ->
  exists w', put_rec ld r w = (w', Ret tt) /\ world_ok w' /\ same_shape w w' /\ recs_ok w' held /\ w_sys w' = w_sys w /\ w_recs w' = <[ld := r]> (w_recs w).
Proof.
  intros Hok [] Ha. eexists. split; [reflexivity|]. split_and!; try done; [by apply sched_recs|]. split; simpl; try done.
  intros x. unfold items in *. simpl. rewrite <- rc_alloc0. destruct (decide (ld = x)) as [<- |]; [rewrite lookup_insert_eq; naive_solver|by rewrite lookup_insert_ne].
Qed.

(** The record after the Exec block. *)
Definition exec_on (x : fields) (r : alist) : option alist := match x_exec x with None => Some r | Some f => f r end.

Lemma run_exec_ok w m md ld r held : world_ok w -> recs_ok w held -> s_modules (w_sys w) !! m = Some md -> w_recs w !! ld = Some r ->
  exists w', run_exec m ld w = (w', Ret (bool_decide (is_Some (exec_on (m_ext md) r)))) /\ world_ok w' /\ same_shape w w' /\ recs_ok w' held /\
    w_sys w' = w_sys w /\ w_recs w' = match exec_on (m_ext md) r with Some r' => <[ld := r']> (w_recs w) | None => w_recs w end.
Proof.
  intros Hok Hrec Hm Hr. unfold run_exec, exec_on. rewrite (cmd_bind_Ret _ _ _ _ _ (get_mod_ok w m md Hm)). destruct (x_exec (m_ext md)) as [f|].
  - rewrite (cmd_bind_Ret _ _ w w r) by (unfold get_rec; by rewrite Hr). destruct (f r) as [r'|].
    + destruct (put_rec_ok w ld r' held Hok Hrec) as (w' & H & Hok' & Hs & Hrec' & Es & Er); [eauto|]. rewrite (cmd_bind_Ret _ _ _ _ _ H). by exists w'.
    + by exists w.
  - exists w. split_and!; try done. by rewrite insert_id.
Qed.

(** The same queues, records aside. *)
Lemma room_same w w' n : room w n -> (size (s_events (w_sys w')) <= size (s_events (w_sys w)))%nat -> (forall x, items w' x = items w x) -> room w' n.
Proof. intros [H1 H2] He Hi. split; [lia|]. intros x. rewrite Hi. apply H2. Qed.

Lemma all_dests_shape w w' rs : same_shape w w' -> all_dests w' rs = all_dests w rs.
Proof.
  intros Hs. unfold all_dests. f_equal. apply list_fmap_ext. intros i rt _. unfold route_dests. rewrite (proj1 Hs). case_match; [|done]. by apply dests_shape.
Qed.

Lemma fwd_ok w m md n held : world_ok w -> recs_ok w held -> s_modules (w_sys w) !! m = Some md ->
  exists w', count_fwd m n w = (w', Ret tt) /\ world_ok w' /\ same_shape w w' /\ recs_ok w' held /\ w_recs w' = w_recs w /\
    s_events (w_sys w') = s_events (w_sys w) /\ (forall x, items w' x = items w x).
Proof.
  intros Hok Hrec Hm. destruct (count_ok w m md (fun x => with_fwd (u64 (x_fwd x + n)) x) Hok Hm) as (w' & H & Hok' & Hs & Hr & He & Hi); [done|done|].
  exists w'. split_and!; try done. by eapply recs_ok_same.
Qed.

Lemma recvd_ok w m md held : world_ok w -> recs_ok w held -> s_modules (w_sys w) !! m = Some md ->
  exists w', count_recvd m w = (w', Ret tt) /\ world_ok w' /\ same_shape w w' /\ recs_ok w' held /\ w_recs w' = w_recs w /\
    s_events (w_sys w') = s_events (w_sys w) /\ (forall x, items w' x = items w x).
Proof.
  intros Hok Hrec Hm. destruct (count_ok w m md (fun x => with_recvd (u64 (x_recvd x + 1)) x) Hok Hm) as (w' & H & Hok' & Hs & Hr & He & Hi); [done|done|].
  exists w'. split_and!; try done. by eapply recs_ok_same.
Qed.

(** What the queues have got: copies of [r] at their ends, one for every destination
    that takes it; other records are as before. *)
Definition got (w w' : world) (fc : bool) (r : alist) (ds : list loc) (ld : loc) : Prop :=
  (forall x, exists new, items w' x = items w x ++ new /\ Forall (holds w' r) new /\
    zlen new = accepted fc (times x ds) (zlen (items w x)) (limit w x)) /\
  (forall x y, y ∈ items w x -> w_recs w' !! y = w_recs w !! y).

Lemma delivered_got m ld r fc w0 w ds : recs_ok w0 [ld] -> delivered m ld r fc w0 w ds 0 -> got w0 w fc r ds ld.
Proof.
  intros Hrec []. split; [done|]. intros x y Hy. apply de_other0; [apply Hrec; eauto|]. intros ->. by apply (rc_held _ _ Hrec ld x); [left|].
Qed.

(** C10: [nx_module_add_logdata_input] hands a record to every destination on the
    routes of an input module: the record gets the source fields, the Exec block
    changes it, and then every processor or output that comes first on a route gets
    exactly one record at the end of its queue for every time it is a destination
    (without flow control, as long as its queue is below the limit): the record itself
    or a copy with the same fields, types and defined values.  No record is lost,
    shared or leaked: afterwards every allocated record is in exactly one queue, and a
    record dropped by the Exec block is freed.  Only if the routes have no destination
    the record is neither handed on nor freed.  Conditions: the configuration is
    complete, the queues and the event table have room (below 2^31 records and 2^32
    events), and if there are several destinations, the record that the Exec block
    leaves can be copied: it has a [raw_event] string (without one the assertion of
    [nx_logdata_clone] stops the process), every string is shorter than the string
    limit (a string at the limit makes the copy throw), and its defined values are
    well-formed and not regular expressions. *)
Theorem input_delivers w now m md ld r : world_ok w -> recs_ok w [ld] -> s_modules (w_sys w) !! m = Some md ->
  x_type (m_ext md) = NX_MODULE_TYPE_INPUT -> w_recs w !! ld = Some r ->
  let ds := all_dests w (x_routes (m_ext md)) in
  room w (length ds) ->
  (forall r', exec_on (m_ext md) (with_source now (m_ext md) r) = Some r' -> (1 < length ds)%nat -> copyable r') ->
  exists w', nx_module_add_logdata_input now m ld w = (w', Ret tt) /\ world_ok w' /\ same_shape w w' /\
    match exec_on (m_ext md) (with_source now (m_ext md) r) with
    | None => recs_ok w' [] /\ forall x, items w' x = items w x
    | Some r' =>
        if bool_decide (ds = []) then recs_ok w' [ld] /\ forall x, items w' x = items w x
        else recs_ok w' [] /\ got w w' (x_flowcontrol (m_ext md)) r' ds ld
    end.
Proof.
  intros Hok Hrec Hm Ht Hr ds Hroom Hcop. unfold nx_module_add_logdata_input. rewrite (cmd_bind_Ret _ _ _ _ _ (get_mod_ok w m md Hm)).
  rewrite bool_decide_eq_true_2, (cmd_bind_Ret _ _ w w tt) by done. rewrite (cmd_bind_Ret _ _ w w r) by (unfold get_rec; by rewrite Hr).
  set (r1 := with_source now (m_ext md) r). destruct (put_rec_ok w ld r1 [ld] Hok Hrec) as (w1 & H1 & Hok1 & Hs1 & Hrec1 & Es1 & Er1); [eauto|].
  rewrite (cmd_bind_Ret _ _ _ _ _ H1). destruct (recvd_ok w1 m md [ld] Hok1 Hrec1) as (w2 & H2 & Hok2 & Hs2 & Hrec2 & Er2 & Ee2 & Ei2); [by rewrite Es1|].
  rewrite (cmd_bind_Ret _ _ _ _ _ H2). assert (same_shape w w2) as Hs by (by transitivity w1).
  destruct (same_shape_lookup w w2 m md Hs Hm) as (md2 & Hm2 & Esh).
  assert (x_exec (m_ext md2) = x_exec (m_ext md) /\ x_flowcontrol (m_ext md2) = x_flowcontrol (m_ext md)) as [Eexec Efc] by (unfold shape in Esh; by injection Esh).
  destruct (run_exec_ok w2 m md2 ld r1 [ld] Hok2 Hrec2 Hm2) as (w3 & H3 & Hok3 & Hs3 & Hrec3 & Es3 & Er3); [by rewrite Er2, Er1, lookup_insert_eq|].
  rewrite (cmd_bind_Ret _ _ _ _ _ H3). unfold exec_on in *. rewrite Eexec in *. fold (exec_on (m_ext md) r1) in *.
  assert (forall x, items w3 x = items w x) as Ei3. { intros x. transitivity (items w2 x); [unfold items; by rewrite Es3|]. rewrite Ei2. unfold items. by rewrite Es1. }
  assert (same_shape w w3) as Hsh3 by (by transitivity w2).
  destruct (exec_on (m_ext md) r1) as [r'|] eqn:Ex; cbn [negb]; cycle 1.
  { rewrite bool_decide_eq_false_2 by (by intros []). cbn [negb].
    destruct (free_rec_ok w3 ld [] Hok3 Hrec3) as (w4 & H4 & Hok4 & Hs4 & Hrec4 & Es4 & _). exists w4. split_and!; try done; [by transitivity w3|].
    intros x. rewrite <- Ei3. unfold items. by rewrite Es4. }
  rewrite (bool_decide_eq_true_2 (is_Some (Some r'))) by eauto. cbn [negb].
  assert (routes_exist w3 (x_routes (m_ext md))) as Hrt.
  { destruct (same_shape_lookup w w3 m md Hsh3 Hm) as (md3 & Hm3 & Esh3). assert (x_routes (m_ext md) = x_routes (m_ext md3)) as ->
      by (unfold shape in Esh3; by injection Esh3). by eapply routes_exist_ok. }
  rewrite (cmd_bind_Ret _ _ _ _ _ (count_routes_ok w3 _ 0 Hrt)). rewrite (all_dests_shape w w3 _ Hsh3). fold ds. rewrite Z.add_0_l.
  destruct (decide (ds = [])) as [Ed|Ed].
  { rewrite bool_decide_eq_true_2 by done. exists w3. rewrite Ed. by split_and!. }
  rewrite (bool_decide_eq_false_2 (ds = [])) by done. assert (0 < length ds)%nat as Hpos by (destruct ds; [done|simpl; lia]).
  rewrite (proj2 (Z.eqb_neq _ _)) by lia.
  assert (w_recs w3 !! ld = Some r') as Hr3 by (rewrite Er3, lookup_insert_eq; done).
  assert (flow w3 m (x_flowcontrol (m_ext md))) as Hfl by (exists md2; rewrite Es3; done).
  destruct (send_routes_ok m ld r' (x_flowcontrol (m_ext md)) w3 (x_routes (m_ext md)) Hfl Hrt w3 [] false) as (w4 & sent & H4 & Hd4).
  { rewrite (all_dests_shape w w3 _ Hsh3). fold ds. apply (room_same w); [done|rewrite Es3, Ee2, Es1; lia|done]. }
  { rewrite (all_dests_shape w w3 _ Hsh3). apply Hcop. by rewrite <- Ex. }
  { apply delivered_nil; try done. by rewrite (all_dests_shape w w3 _ Hsh3). }
  rewrite (all_dests_shape w w3 _ Hsh3) in H4, Hd4. fold ds in H4, Hd4. rewrite (cmd_bind_Ret _ _ _ _ _ H4). cbn [app] in Hd4.
  pose proof (delivered_got _ _ _ _ _ _ _ Hrec3 Hd4) as [Hg1 Hg2]. pose proof Hd4 as []. simpl in de_recs0.
  assert (got w w4 (x_flowcontrol (m_ext md)) r' ds ld) as Hgot.
  { split.
    - intros x. destruct (Hg1 x) as (new & Hnew & Hall & Hlen). exists new. rewrite Ei3, (limit_shape w w3 x Hsh3) in *. done.
    - intros x y Hy. rewrite (Hg2 x) by (by rewrite Ei3). assert (y <> ld) as Hne by (intros ->; by apply (rc_held _ _ Hrec ld x); [left|]).
      by rewrite Er3, lookup_insert_ne, Er2, Er1, lookup_insert_ne by done. }
  assert (same_shape w w4) as Hs4 by (by transitivity w3).
  destruct sent; [|exists w4; by split_and!].
  destruct (same_shape_lookup w w4 m md Hs4 Hm) as (md4 & Hm4 & _).
  destruct (fwd_ok w4 m md4 1 [] de_ok0 de_recs0 Hm4) as (w5 & H5 & Hok5 & Hs5 & Hrec5 & Er5 & _ & Ei5).
  exists w5. split_and!; try done; [by transitivity w4|]. destruct Hgot as [G1 G2]. split; [|intros x y Hy; rewrite Er5; by apply (G2 x)].
  intros x. destruct (G1 x) as (new & Hx1 & Hx2 & Hx3). exists new. rewrite Ei5. split_and!; try done. eapply Forall_impl; [exact Hx2|]. intros y. apply holds_same. by rewrite Er5.
Qed.

(** ** Processors *)

(** The flag [needpop] of the queue of a module. *)
Definition needpop (w : world) (m : loc) : bool := default false (md ← s_modules (w_sys w) !! m; q ← x_queue (m_ext md); Some (q_needpop q)).

Lemma pop_ok w m t ld l held : world_ok w -> recs_ok w held -> mtype w m = Some t -> has_queue t = true -> items w m = ld :: l -> needpop w m = true ->
  exists w', nx_logqueue_pop m ld w = (w', Ret tt) /\ world_ok w' /\ same_shape w w' /\ recs_ok w' (ld :: held) /\ w_recs w' = w_recs w /\
    s_events (w_sys w') = s_events (w_sys w) /\ (forall x, items w' x = if decide (x = m) then l else items w x).
Proof.
  intros Hok Hrec Ht Hq Hi Hn. destruct (queue_of w m t Hok Ht Hq) as (md & q & Hm & Eq & Ei & _). unfold nx_logqueue_pop.
  rewrite (cmd_bind_Ret _ _ _ _ _ (get_queue_ok w m md q Hm Eq)). unfold needpop in Hn. rewrite Hm in Hn. simpl in Hn. rewrite Eq in Hn. simpl in Hn. rewrite Hn.
  rewrite (cmd_bind_Ret _ _ w w tt) by done. rewrite <- Ei, Hi, bool_decide_eq_true_2 by done. rewrite (cmd_bind_Ret _ _ w w tt) by done.
  destruct (put_ext_ok w m md (with_queue (Queue l (q_limit q) false)) Hok Hm) as (w' & H & Hok' & Hs & Hr & He & Hi'); [unfold shape; simpl; by rewrite Eq|].
  exists w'. split_and!; try done. destruct Hrec. pose proof (rc_nodup0 m) as Hnd. rewrite Hi in Hnd. apply NoDup_cons in Hnd as [Hnot Hnd].
  assert (forall x a, x ∈ items w' a <-> x ∈ items w a /\ x <> ld) as Hin.
  { intros x a. rewrite Hi'. unfold items_of. simpl. case_decide as E; [subst; rewrite Hi; set_solver|]. split; [|tauto]. intros Hx. split; [done|]. intros ->.
    apply E, (rc_disj0 ld); [done|]. rewrite Hi. by left. }
  assert (ld ∈ items w m) as Hld by (rewrite Hi; by left).
  split.
  - intros x. rewrite Hr, rc_alloc0, elem_of_cons. setoid_rewrite Hin. destruct (decide (x = ld)) as [-> |]; [naive_solver|naive_solver].
  - intros a. rewrite Hi'. case_decide; [done|done].
  - intros x a b [Ha _]%Hin [Hb _]%Hin. by eapply rc_disj0.
  - intros x a [-> |Hx]%elem_of_cons [Ha Hne]%Hin; [done|]. by apply (rc_held0 x a).
  - apply NoDup_cons. split; [|done]. intros Hh. by apply (rc_held0 ld m).
Qed.

Lemma progress_outputs_ok m ld r fc w0 mods : flow w0 m fc -> (forall a, a ∈ mods -> mtype w0 a = Some NX_MODULE_TYPE_OUTPUT) -> forall w ds sent,
  room w0 (length ds + length mods) -> ((1 < length mods)%nat -> copyable r) -> delivered m ld r fc w0 w ds (length mods) ->
  exists w' sent', progress_outputs m ld mods sent w = (w', Ret sent') /\ delivered m ld r fc w0 w' (ds ++ mods) 0.
Proof.
  intros Hflow. pose proof Hflow as (md & Hm & _).
  induction mods as [|curr mods IH]; intros Hty w ds sent Hroom Hcop Hd; [exists w, sent; by rewrite app_nil_r|].
  assert (mtype w0 curr = Some NX_MODULE_TYPE_OUTPUT) as Ht by (apply Hty; by left). cbn [progress_outputs].
  pose proof (mtype_shape w0 w curr (de_shape _ _ _ _ _ _ _ _ Hd)) as Htw. rewrite Ht in Htw. rewrite (cmd_bind_Ret _ _ _ _ _ (type_of_ok w curr _ Htw)).
  rewrite (bool_decide_eq_true_2 (NX_MODULE_TYPE_OUTPUT = NX_MODULE_TYPE_OUTPUT)), (cmd_bind_Ret _ _ w w tt) by done. cbn [length] in Hroom, Hcop, Hd.
  assert ((if bool_decide (mods = []) then mret ld else clone_rec ld) = if (0 <? length mods)%nat then clone_rec ld else mret ld) as ->.
  { by destruct mods. }
  destruct (delivered_step m ld r fc w0 w ds (length mods) curr (push_or_pause m curr) Hflow) as (w' & b & H & Hd').
  { intros. apply Hcop. lia. }
  { destruct Hroom as [H1 H2]. split; [lia|]. intros x. specialize (H2 x). lia. }
  { intros w1 tmp held Hs1 Hok1 Hrec1 Hroom1. destruct (same_shape_lookup w0 w1 m md Hs1 Hm) as (md1 & Hm1 & _).
    apply (push_or_pause_ok w1 m md1 curr NX_MODULE_TYPE_OUTPUT); try done. by rewrite (mtype_shape w0 w1 curr Hs1). }
  { done. }
  rewrite cmd_bind_assoc, (cmd_bind_Ret _ _ _ _ _ H).
  destruct (IH ltac:(intros a Ha; apply Hty; by right) w' (ds ++ [curr]) (sent || b)) as (w2 & s2 & H2 & Hd2); [|intros; apply Hcop; lia|done|].
  { rewrite length_app. simpl. destruct Hroom as [H1 H2]. split; [lia|]. intros x. specialize (H2 x). lia. }
  exists w2, s2. by rewrite <- app_assoc in Hd2.
Qed.

(** What follows a processor: another processor, or outputs. *)
Definition followers (w : world) (m : loc) (mods ds : list loc) : Prop :=
  exists curr rest, find_next m None mods = (Some curr, rest) /\
    ((mtype w curr = Some NX_MODULE_TYPE_PROCESSOR /\ ds = [curr]) \/
     (mtype w curr = Some NX_MODULE_TYPE_OUTPUT /\ ds = rest /\ rest <> [] /\ forall a, a ∈ rest -> mtype w a = Some NX_MODULE_TYPE_OUTPUT)).

Lemma progress_send_ok m ld r fc w mods ds : flow w m fc -> followers w m mods ds -> room w (length ds) -> ((1 < length ds)%nat -> copyable r) -> world_ok w -> recs_ok w [ld] ->
  w_recs w !! ld = Some r ->
  exists w' sent, (let '(curr, rest) := find_next m None mods in
    curr ← lift (deref curr "curr");
    t ← type_of curr;
    match t with NX_MODULE_TYPE_PROCESSOR => push_or_pause m curr ld | _ => progress_outputs m ld rest false end) w = (w', Ret sent) /\
    delivered m ld r fc w w' ds 0.
Proof.
  intros Hflow (curr & rest & Hf & Hcase) Hroom Hcop Hok Hrec Hr. pose proof Hflow as (md & Hm & _). rewrite Hf. rewrite (cmd_bind_Ret _ _ w w curr) by done.
  destruct Hcase as [[Ht ->]|(Ht & -> & Hne & Hout)]; rewrite (cmd_bind_Ret _ _ _ _ _ (type_of_ok w curr _ Ht)).
  - destruct (delivered_step m ld r fc w w [] 0 curr (push_or_pause m curr) Hflow) as (w' & b & H & Hd); [lia|done| |by apply delivered_nil; try done; lia|eauto].
    intros w1 tmp held Hs1 Hok1 Hrec1 Hroom1. destruct (same_shape_lookup w w1 m md Hs1 Hm) as (md1 & Hm1 & _).
    apply (push_or_pause_ok w1 m md1 curr NX_MODULE_TYPE_PROCESSOR); try done. by rewrite (mtype_shape w w1 curr Hs1).
  - destruct (progress_outputs_ok m ld r fc w rest Hflow Hout w [] false) as (w' & b & H & Hd); [done|done| |eauto].
    apply delivered_nil; try done. destruct rest; [done|simpl; lia].
Qed.

(** C11: [nx_module_progress_logdata] takes the record at the head of a processor's
    queue, which was peeked before, and hands it to what follows the processor on its
    first route, the next processor or all the outputs: every follower gets exactly
    one record, the record itself or a copy with the same fields, types and defined
    values (without flow control, if its queue is below the limit), the processor's
    queue loses the record, no other queue changes, and no record is lost, shared or
    leaked.  Conditions: the configuration is complete and something follows the
    processor, the queues and the event table have room, and if several outputs
    follow, the record can be copied: it has a [raw_event] string (without one the
    assertion of [nx_logdata_clone] stops the process), every string is shorter than
    the string limit (a string at the limit makes the copy throw), and its defined
    values are well-formed and not regular expressions. *)
Theorem progress_delivers w m md ld l r rt rts mods ds : world_ok w -> recs_ok w [] -> s_modules (w_sys w) !! m = Some md ->
  x_type (m_ext md) = NX_MODULE_TYPE_PROCESSOR -> items w m = ld :: l -> needpop w m = true -> w_recs w !! ld = Some r ->
  x_routes (m_ext md) = rt :: rts -> w_routes w !! rt = Some mods -> followers w m mods ds -> room w (length ds) ->
  ((1 < length ds)%nat -> copyable r) ->
  exists w', nx_module_progress_logdata m ld w = (w', Ret tt) /\ world_ok w' /\ same_shape w w' /\ recs_ok w' [] /\
    forall x, let old := if decide (x = m) then l else items w x in
      exists new, items w' x = old ++ new /\ Forall (holds w' r) new /\
        zlen new = accepted (x_flowcontrol (m_ext md)) (times x ds) (zlen old) (limit w x).
Proof.
  intros Hok Hrec Hm Ht Hi Hn Hr Hrts Hrt Hfol Hroom Hcop. assert (mtype w m = Some NX_MODULE_TYPE_PROCESSOR) as Hty by (unfold mtype; rewrite Hm; simpl; by rewrite Ht).
  unfold nx_module_progress_logdata. rewrite (cmd_bind_Ret _ _ _ _ _ (get_mod_ok w m md Hm)), bool_decide_eq_true_2, (cmd_bind_Ret _ _ w w tt) by done.
  destruct (queue_of w m _ Hok Hty eq_refl) as (md' & q & Hm' & Eq & _ & _). rewrite Hm in Hm'. injection Hm' as <-.
  rewrite (cmd_bind_Ret _ _ _ _ _ (get_queue_ok w m md q Hm Eq)). assert (q_needpop q = true) as -> by (unfold needpop in Hn; rewrite Hm in Hn; simpl in Hn; by rewrite Eq in Hn).
  destruct (pop_ok w m _ ld l [] Hok Hrec Hty eq_refl Hi Hn) as (w1 & H1 & Hok1 & Hs1 & Hrec1 & Er1 & Ee1 & Ei1).
  assert (nx_module_logqueue_pop m ld w = (w1, Ret tt)) as Hpop.
  { unfold nx_module_logqueue_pop. rewrite (cmd_bind_Ret _ _ _ _ _ (type_of_ok w m _ Hty)). rewrite bool_decide_eq_false_2, (cmd_bind_Ret _ _ w w tt) by done. done. }
  rewrite (cmd_bind_Ret _ _ _ _ _ Hpop), Hrts. rewrite (cmd_bind_Ret _ _ w1 w1 rt) by done.
  rewrite (cmd_bind_Ret _ _ w1 w1 mods) by (apply get_route_ok; by rewrite (proj1 Hs1)).
  assert (flow w1 m (x_flowcontrol (m_ext md))) as Hfl by (eapply flow_shape; [exact Hs1|by exists md]).
  destruct (progress_send_ok m ld r (x_flowcontrol (m_ext md)) w1 mods ds Hfl) as (w2 & sent & H2 & Hd2); [| |done|done|done|by rewrite Er1|].
  { destruct Hfol as (curr & rest & Hf & Hc). exists curr, rest. split; [done|]. rewrite !(mtype_shape w w1 curr Hs1).
    destruct Hc as [Hc|(H2 & H3 & H4 & H5)]; [by left|right; split_and!; try done]. intros a Ha. rewrite (mtype_shape w w1 a Hs1). auto. }
  { destruct Hroom as [Ha Hb]. split; [by rewrite Ee1|]. intros x. rewrite Ei1. specialize (Hb x). case_decide as E; [subst; rewrite Hi in Hb; simpl in Hb; lia|done]. }
  destruct (find_next m None mods) as [curr rest]. pose proof Hd2 as []. simpl in de_recs0.
  assert (forall x, let old := if decide (x = m) then l else items w x in exists new, items w2 x = old ++ new /\
     Forall (holds w2 r) new /\ zlen new = accepted (x_flowcontrol (m_ext md)) (times x ds) (zlen old) (limit w x)) as Hnew.
  { intros x. destruct (de_items0 x) as (new & Hx1 & Hx2 & Hx3). exists new. rewrite Ei1, (limit_shape w w1 x Hs1) in *. done. }
  assert (same_shape w w2) as Hs2 by (by transitivity w1). destruct (same_shape_lookup w w2 m md Hs2 Hm) as (md2 & Hm2 & _).
  destruct (fwd_ok w2 m md2 1 [] de_ok0 de_recs0 Hm2) as (w3 & H3 & Hok3 & Hs3 & Hrec3 & Er3 & _ & Ei3).
  exists (if sent then w3 else w2). split.
  - unfold mbind, cmd_bind in H2 |- *. destruct (lift (deref curr "curr") w1) as [w1' [c| | |]]; try done. destruct (type_of c w1') as [w1'' [t| | |]]; try done.
    rewrite H2. by destruct sent.
  - destruct sent; [|by split_and!]. split_and!; try done; [by transitivity w2|]. intros x. destruct (Hnew x) as (new & Hx1 & Hx2 & Hx3). exists new. rewrite Ei3. split_and!; try done. eapply Forall_impl; [exact Hx2|]. intros y. apply holds_same. by rewrite Er3.
Qed.

(** ** Copies for a route *)

Lemma route_copy_ok ld r w0 w ds k curr t : copyable r -> room w0 (S (length ds)) -> mtype w0 curr = Some t -> has_queue t = true ->
  delivered curr ld r false w0 w ds (S k) ->
  exists w', route_copy curr ld w = (w', Ret tt) /\ delivered curr ld r false w0 w' (ds ++ [curr]) (S k).
Proof.
  intros Hcop [Hev Hlen] Ht Hq Hd. pose proof Hd as []. assert (mtype w curr = Some t) as Htw by (by rewrite (mtype_shape w0 w curr de_shape0)).
  unfold route_copy. rewrite (cmd_bind_Ret _ _ _ _ _ (above_ok w curr t full de_ok0 Htw Hq)). cbn [num den full]. rewrite !Z.mul_1_r, Z.leb_antisym.
  pose proof (delivered_length _ _ _ _ _ _ _ _ curr Hd) as Hlc. rewrite (limit_shape w0 w curr de_shape0).
  destruct (zlen (items w curr) <? limit w0 curr) eqn:El; cbn [negb].
  - destruct (copied_ok curr ld r false w0 w ds (S k)) as (w1 & tmp & H1 & Hco); [done|split; try done; intros _; apply de_rec0; lia|]. cbn [Nat.ltb Nat.leb] in H1. rewrite (cmd_bind_Ret _ _ _ _ _ H1).
    pose proof Hco as []. assert (items w1 curr = items w curr) as Hi1 by (unfold items; by rewrite co_sys0).
    assert (mtype w1 curr = Some t) as Ht1 by (by rewrite (mtype_shape w0 w1 curr co_shape0)).
    destruct (push_sent w1 curr t tmp _ co_ok0 co_recs0 Ht1 Hq) as (w2 & H2 & Hs2 & He2).
    { split; [rewrite co_sys0; lia|]. intros x. pose proof (delivered_length _ _ _ _ _ _ _ _ x Hd). unfold items. rewrite co_sys0. fold (items w x). specialize (Hlen x). lia. }
    rewrite (cmd_bind_Ret _ _ _ _ _ H2).
    destruct (sent_then_event w1 w2 curr tmp _ true curr NX_EVENT_DATA_AVAILABLE Hs2) as (w3 & H3 & Hs3 & _); [by eapply mtype_Some|done|rewrite He2; lia|rewrite co_sys0; lia|].
    exists w3. split; [done|]. eapply delivered_sent; [exact Hd|exact Hco|exact Hs3|]. by rewrite El.
  - exists w. split; [done|]. split; try done; [rewrite length_app; simpl; lia|]. intros x. destruct (de_items0 x) as (new & Hnew & Hall & Hn). exists new.
    split_and!; [done|done|]. rewrite times_app. simpl. pose proof (times_nonneg x ds). case_bool_decide as Ex; [subst|by rewrite !Z.add_0_r].
    unfold accepted in *. tests. rewrite Hnew, length_app in El. lia.
Qed.

Lemma add_to_route_ok ld r w0 mods : copyable r -> all_exist w0 mods -> forall w ds m,
  room w0 (length ds + length (dests w0 mods)) -> delivered m ld r false w0 w ds 1 ->
  exists w', nx_module_add_logdata_to_route mods ld w = (w', Ret tt) /\ delivered m ld r false w0 w' (ds ++ dests w0 mods) 1.
Proof.
  intros Hcop. induction mods as [|curr mods IH]; intros Hex w ds m Hroom Hd; [exists w; by rewrite app_nil_r|].
  destruct (exist_type w0 _ curr Hex) as [t Ht]; [by left|]. cbn [nx_module_add_logdata_to_route].
  pose proof (mtype_shape w0 w curr (de_shape _ _ _ _ _ _ _ _ Hd)) as Hty. rewrite Ht in Hty. rewrite (cmd_bind_Ret _ _ _ _ _ (type_of_ok w curr t Hty)).
  assert (all_exist w0 mods) as Hex' by (intros a Ha; apply Hex; by right). cbn [dests] in Hroom |- *. rewrite Ht in Hroom |- *.
  assert (has_queue t = true -> exists w', route_copy curr ld w = (w', Ret tt) /\ delivered m ld r false w0 w' (ds ++ [curr]) 1) as Hcopy.
  { intros Hq. destruct (route_copy_ok ld r w0 w ds 0 curr t) as (w' & H & Hd'); [done| |done|done|by destruct Hd|exists w'; split; [done|by destruct Hd']].
    destruct Hroom as [H1 H2]. destruct t; try done; simpl in *; (split; [lia|intros x; specialize (H2 x); lia]). }
  destruct t; [by apply IH|by apply Hcopy| |by apply IH].
  destruct Hcopy as (w1 & H1 & Hd1); [done|]. rewrite (cmd_bind_Ret _ _ _ _ _ H1).
  destruct (IH Hex' w1 (ds ++ [curr]) m) as (w2 & H2 & Hd2); [|done|exists w2; by rewrite <- app_assoc in Hd2].
  rewrite length_app. simpl in *. destruct Hroom as [Ha Hb]. split; [lia|]. intros x. specialize (Hb x). lia.
Qed.

(** [nx_module_add_logdata_to_route] puts exactly one copy of the record into the
    queue of every destination of the route whose queue is below its limit, and drops
    it for the others; the record itself stays with the caller.  The record must be
    [copyable]. *)
Theorem add_to_route_copies w ld r mods : copyable r -> world_ok w -> recs_ok w [ld] -> w_recs w !! ld = Some r -> all_exist w mods -> room w (length (dests w mods)) ->
  exists w', nx_module_add_logdata_to_route mods ld w = (w', Ret tt) /\ world_ok w' /\ recs_ok w' [ld] /\ w_recs w' !! ld = Some r /\
    got w w' false r (dests w mods) ld.
Proof.
  intros Hcop Hok Hrec Hr Hex Hroom. destruct (add_to_route_ok ld r w mods Hcop Hex w [] ld Hroom) as (w' & H & Hd); [by apply delivered_nil; try done; lia|].
  exists w'. pose proof Hd as []. split_and!; try done; [apply de_rec0; lia|]. split; [done|]. intros x y Hy. apply de_other0; [apply Hrec; eauto|].
  intros ->. by apply (rc_held _ _ Hrec ld x); [left|].
Qed.

(** ** Routes in order *)

(** Inputs, then processors, then outputs. *)
Definition all_of (w : world) (t : nx_module_type) (mods : list loc) : Prop := forall a, a ∈ mods -> mtype w a = Some t.

Definition ordered (w : world) (mods : list loc) : Prop :=
  NoDup mods /\ exists ins procs outs, mods = ins ++ procs ++ outs /\ ins <> [] /\ outs <> [] /\
    all_of w NX_MODULE_TYPE_INPUT ins /\ all_of w NX_MODULE_TYPE_PROCESSOR procs /\ all_of w NX_MODULE_TYPE_OUTPUT outs.

(** All routes are in order, and a processor is on the first route it has. *)
Record routes_ok (w : world) : Prop := {
  rk_order r mods : w_routes w !! r = Some mods -> ordered w mods;
  rk_processor m md : s_modules (w_sys w) !! m = Some md -> x_type (m_ext md) = NX_MODULE_TYPE_PROCESSOR ->
    exists r rs mods, x_routes (m_ext md) = r :: rs /\ w_routes w !! r = Some mods /\ m ∈ mods;
  rk_extension r mods a : w_routes w !! r = Some mods -> a ∈ mods -> mtype w a <> Some NX_MODULE_TYPE_EXTENSION
}.

Lemma all_of_shape w w' t mods : same_shape w w' -> all_of w t mods -> all_of w' t mods.
Proof. intros Hs H a Ha. rewrite (mtype_shape w w' a Hs). by apply H. Qed.

Lemma routes_ok_shape w w' : same_shape w w' -> routes_ok w -> routes_ok w'.
Proof.
  intros Hs []. pose proof Hs as [Er Hm]. split.
  - intros r mods. rewrite Er. intros Hr. destruct (rk_order0 r mods Hr) as (Hnd & ins & procs & outs & -> & ? & ? & ? & ? & ?). split; [done|].
    exists ins, procs, outs. split_and!; try done; by eapply all_of_shape.
  - intros m md' Hm' Ht. specialize (Hm m). rewrite Hm' in Hm. destruct (s_modules (w_sys w) !! m) as [md|] eqn:E; [|done]. apply shape_Some in Hm.
    assert (x_type (m_ext md') = x_type (m_ext md) /\ x_routes (m_ext md') = x_routes (m_ext md)) as [Et Ert] by (unfold shape in Hm; by injection Hm).
    rewrite Er, Ert. apply (rk_processor0 m md); [done|congruence].
  - intros r mods a. rewrite Er, (mtype_shape w w' a Hs). eauto.
Qed.

Lemma find_next_mid m c pre post : c <> Some m -> m ∉ pre ->
  find_next m c (pre ++ m :: post) = match post with [] => (Some m, []) | a :: _ => (Some a, post) end.
Proof.
  revert c. induction pre as [|x pre IH]; intros c Hc Hm; simpl.
  - rewrite bool_decide_eq_false_2 by done. destruct post as [|a post]; [done|]. simpl. by rewrite bool_decide_eq_true_2.
  - rewrite bool_decide_eq_false_2 by done. apply not_elem_of_cons in Hm as [Hne Hm]. apply IH; [congruence|done].
Qed.

(** What follows a processor of a route in order. *)
Lemma ordered_followers w m mods : ordered w mods -> m ∈ mods -> mtype w m = Some NX_MODULE_TYPE_PROCESSOR -> exists ds, followers w m mods ds /\ ds ⊆ mods.
Proof.
  intros (Hnd & ins & procs & outs & -> & _ & Hout & Hins & Hprocs & Houts) Hin Ht.
  assert (m ∈ procs) as Hp.
  { rewrite !elem_of_app in Hin. destruct Hin as [H|[H|H]]; [apply Hins in H; congruence|done|apply Houts in H; congruence]. }
  apply list_elem_of_split in Hp as (p1 & p2 & ->).
  rewrite <- app_assoc, app_assoc in Hnd. simpl in Hnd. assert (m ∉ ins ++ p1) as Hnot by (apply NoDup_app in Hnd as (_ & Hd & _); intros H; apply (Hd m H); by left).
  assert (ins ++ (p1 ++ m :: p2) ++ outs = (ins ++ p1) ++ m :: (p2 ++ outs)) as E by (by rewrite <- !app_assoc).
  unfold followers. rewrite E, find_next_mid by done. destruct p2 as [|a p2].
  - destruct outs as [|o outs]; [done|]. exists (o :: outs). split; [|set_solver]. exists o, (o :: outs). split; [done|]. right. split_and!; try done. apply Houts. by left.
  - exists [a]. split; [|set_solver]. exists a, ((a :: p2) ++ outs). split; [done|]. left. split; [|done]. apply Hprocs. set_solver.
Qed.

(** ** [nx_module_can_send] *)

Lemma queues_below_ok w x mods : world_ok w -> all_exist w mods -> exists b, queues_below x mods w = (w, Ret b) /\
  (b = true -> forall a t, a ∈ mods -> mtype w a = Some t -> has_queue t = true -> zlen (items w a) * den x < limit w a * num x).
Proof.
  intros Hok. induction mods as [|a mods IH]; intros Hex; [exists true; split; [done|]; intros; set_solver|].
  destruct (exist_type w _ a Hex) as [t Ht]; [by left|]. cbn [queues_below]. rewrite (cmd_bind_Ret _ _ _ _ _ (type_of_ok w a t Ht)).
  destruct IH as (b & Hb & Hall); [intros y Hy; apply Hex; by right|].
  assert (exists b', (if has_queue t then b' ← above x a; if (b' : bool) then mret false else queues_below x mods else queues_below x mods) w = (w, Ret b') /\
    (b' = true -> b = true /\ (has_queue t = true -> zlen (items w a) * den x < limit w a * num x))) as (b' & Hb' & Himp).
  { destruct (has_queue t) eqn:Hq; [|exists b; split; [done|]; by split].
    rewrite (cmd_bind_Ret _ _ _ _ _ (above_ok w a t x Hok Ht Hq)). destruct (_ <=? _) eqn:E; [by exists false|]. tests. exists b. by split. }
  exists b'. split; [by destruct t|]. intros Hbt y ty Hy Hty Hq. destruct (Himp Hbt) as [-> Hi]. apply elem_of_cons in Hy as [-> |Hy]; [|by eapply Hall].
  rewrite Ht in Hty. injection Hty as <-. auto.
Qed.

Lemma routes_below_ok w x rs : world_ok w -> routes_exist w rs -> exists b, routes_below x rs w = (w, Ret b) /\
  (b = true -> forall r mods a t, r ∈ rs -> w_routes w !! r = Some mods -> a ∈ mods -> mtype w a = Some t -> has_queue t = true ->
    zlen (items w a) * den x < limit w a * num x).
Proof.
  intros Hok. induction rs as [|r rs IH]; intros Hex; [exists true; split; [done|]; intros; set_solver|].
  destruct (Hex r) as (mods & Hr & Hm); [by left|]. cbn [routes_below]. rewrite (cmd_bind_Ret _ _ _ _ _ (get_route_ok w r mods Hr)).
  destruct (queues_below_ok w x mods Hok Hm) as (b & Hb & Hall). rewrite (cmd_bind_Ret _ _ _ _ _ Hb). destruct b; [|by exists false].
  destruct IH as (b & Hb' & Hall'); [intros y Hy; apply Hex; by right|]. exists b. split; [done|]. intros Hbt r' mods' a t Hr' Hm' Ha Ht Hq.
  apply elem_of_cons in Hr' as [-> |Hr']; [|by eapply Hall']. rewrite Hr in Hm'. injection Hm' as <-. by eapply Hall.
Qed.

Lemma outputs_below_ok w x mods : world_ok w -> all_of w NX_MODULE_TYPE_OUTPUT mods -> exists b, outputs_below x mods w = (w, Ret b) /\
  (b = true -> forall a, a ∈ mods -> zlen (items w a) * den x < limit w a * num x).
Proof.
  intros Hok. induction mods as [|a mods IH]; intros Ht; [exists true; split; [done|]; intros; set_solver|]. cbn [outputs_below].
  rewrite (cmd_bind_Ret _ _ _ _ _ (type_of_ok w a _ (Ht a ltac:(by left)))), bool_decide_eq_true_2, (cmd_bind_Ret _ _ w w tt) by done.
  rewrite (cmd_bind_Ret _ _ _ _ _ (above_ok w a _ x Hok (Ht a ltac:(by left)) eq_refl)). destruct (_ <=? _) eqn:E; [by exists false|]. tests.
  destruct IH as (b & Hb & Hall); [intros y Hy; apply Ht; by right|]. exists b. split; [done|]. intros Hbt y [-> |Hy]%elem_of_cons; [done|by apply Hall].
Qed.

(** The destinations whose queues a module looks at. *)
Definition looked_at (w : world) (m a : loc) : Prop :=
  exists md, s_modules (w_sys w) !! m = Some md /\
    match x_type (m_ext md) with
    | NX_MODULE_TYPE_OUTPUT => a = m
    | NX_MODULE_TYPE_PROCESSOR => exists r rs mods ds, x_routes (m_ext md) = r :: rs /\ w_routes w !! r = Some mods /\ followers w m mods ds /\ a ∈ ds
    | NX_MODULE_TYPE_INPUT => exists r mods t, r ∈ x_routes (m_ext md) /\ w_routes w !! r = Some mods /\ a ∈ mods /\ mtype w a = Some t /\ has_queue t = true
    | NX_MODULE_TYPE_EXTENSION => False
    end.

Lemma can_send_ok w m x t : world_ok w -> routes_ok w -> mtype w m = Some t -> t <> NX_MODULE_TYPE_EXTENSION ->
  exists b, nx_module_can_send m x w = (w, Ret b) /\ (b = true -> forall a, looked_at w m a -> zlen (items w a) * den x < limit w a * num x).
Proof.
  intros Hok Hrk Ht Hne. pose proof Ht as (md & Hm & Et)%fmap_Some. simpl in Et. unfold nx_module_can_send. rewrite (cmd_bind_Ret _ _ _ _ _ (get_mod_ok w m md Hm)).
  unfold looked_at. rewrite <- Et. destruct t; [| | |done].
  - destruct (routes_below_ok w x (x_routes (m_ext md)) Hok (routes_exist_ok w m md Hok Hm)) as (b & Hb & Hall). exists b. split; [done|].
    intros Hbt a (md' & Hm' & Hl). rewrite Hm in Hm'. injection Hm' as <-. rewrite <- Et in Hl. destruct Hl as (r & mods & t & ? & ? & ? & ? & ?). by eapply Hall.
  - destruct (rk_processor w Hrk m md Hm (eq_sym Et)) as (r & rs & mods & Hrs & Hr & Hin).
    destruct (ordered_followers w m mods (rk_order w Hrk r mods Hr) Hin Ht) as (ds & Hfol & _). rewrite Hrs. rewrite (cmd_bind_Ret _ _ w w r) by done.
    rewrite (cmd_bind_Ret _ _ _ _ _ (get_route_ok w r mods Hr)). destruct Hfol as (curr & rest & Hf & Hcase). rewrite Hf. rewrite (cmd_bind_Ret _ _ w w curr) by done.
    destruct Hcase as [[Htc ->]|(Htc & -> & Hnr & Hout)]; rewrite (cmd_bind_Ret _ _ _ _ _ (type_of_ok w curr _ Htc)).
    + rewrite (cmd_bind_Ret _ _ _ _ _ (above_ok w curr _ x Hok Htc eq_refl)). eexists. split; [reflexivity|]. intros Hb a (md' & Hm' & Hl). tests.
      rewrite Hm in Hm'. injection Hm' as <-. rewrite <- Et in Hl. destruct Hl as (r' & rs' & mods' & ds' & Er & Hr' & (c' & rest' & Hf' & Hc') & Ha).
      rewrite Hrs in Er. injection Er as <- <-. rewrite Hr in Hr'. injection Hr' as <-. rewrite Hf in Hf'. injection Hf' as <- <-.
      destruct Hc' as [[_ ->]|(Hx & _)]; [|congruence]. apply list_elem_of_singleton in Ha as ->. done.
    + destruct (outputs_below_ok w x rest Hok Hout) as (b & Hb & Hall). exists b. split; [done|]. intros Hbt a (md' & Hm' & Hl).
      rewrite Hm in Hm'. injection Hm' as <-. rewrite <- Et in Hl. destruct Hl as (r' & rs' & mods' & ds' & Er & Hr' & (c' & rest' & Hf' & Hc') & Ha).
      rewrite Hrs in Er. injection Er as <- <-. rewrite Hr in Hr'. injection Hr' as <-. rewrite Hf in Hf'. injection Hf' as <- <-.
      destruct Hc' as [[Hx _]|(_ & -> & _)]; [congruence|]. by apply Hall.
  - rewrite (cmd_bind_Ret _ _ _ _ _ (above_ok w m _ x Hok Ht eq_refl)). eexists. split; [reflexivity|]. intros Hb a (md' & Hm' & Hl). tests.
    rewrite Hm in Hm'. injection Hm' as <-. rewrite <- Et in Hl. by subst a.
Qed.

(** ** Resuming the senders *)

(** Steps that only add at most [n] events. *)
Record notified (w w' : world) (n : nat) : Prop := {
  no_ok : world_ok w'; no_shape : same_shape w w'; no_recs : w_recs w' = w_recs w; no_items x : items w' x = items w x;
  no_events : (size (s_events (w_sys w')) <= n + size (s_events (w_sys w)))%nat;
  no_needpop x : needpop w' x = needpop w x
}.

Lemma notified_refl w n : world_ok w -> notified w w n.
Proof. intros. split; try done. lia. Qed.

Lemma notified_trans w1 w2 w3 n1 n2 : notified w1 w2 n1 -> notified w2 w3 n2 -> notified w1 w3 (n1 + n2).
Proof.
  intros [] []. split; try done; [by transitivity w2|congruence|intros x; by rewrite no_items1|lia|intros x; by rewrite no_needpop1].
Qed.

Lemma notified_le w w' n n' : notified w w' n -> (n <= n')%nat -> notified w w' n'.
Proof. intros [] Hn. split; try done. lia. Qed.

Definition event_room (w : world) (n : nat) : Prop := Z.of_nat (size (s_events (w_sys w))) + Z.of_nat n < 2 ^ 32.

Lemma notify_ok w m t : world_ok w -> is_Some (s_modules (w_sys w) !! m) -> t <> NX_EVENT_NONE -> event_room w 1 ->
  exists w', module_event m t w = (w', Ret tt) /\ notified w w' 1.
Proof.
  intros Hok Hm Ht Hr. unfold module_event. destruct Hm as [md Hm]. rewrite (cmd_bind_Ret _ _ _ _ _ (get_mod_ok w m md Hm)).
  destruct (wo_sched w Hok) as [v Hv]. set (ev := Ev (Some m) t false 0 None (m_priority md) None).
  destruct (new_event_ok true (w_sys w) v ev Hv) as (s' & v' & H & Hok' & (_ & HM & _) & _ & Hsize).
  { split_and!; [by apply (wo_priority w Hok m)|done|done|exists m; split; [done|eauto]|]. unfold event_room in Hr. lia. }
  cbn [run_call] in H. unfold on_sys. rewrite H. eexists. split; [reflexivity|].
  assert (same_shape w (World s' (w_routes w) (w_recs w))) as Hs by (split; [done|]; intros a; simpl; by rewrite HM).
  split; try done; [apply (world_ok_shape w); [done|done|by exists v']|intros x; unfold items; simpl; by rewrite HM|].
  intros x. unfold needpop. simpl. by rewrite HM.
Qed.

Lemma notified_room w w' n k : notified w w' n -> event_room w (n + k) -> event_room w' k.
Proof. intros [] H. unfold event_room in *. lia. Qed.

Lemma notified_routes w w' n : notified w w' n -> routes_ok w -> routes_ok w'.
Proof. intros [] H. by eapply routes_ok_shape. Qed.

Lemma resume_processor_ok w m : world_ok w -> routes_ok w -> mtype w m = Some NX_MODULE_TYPE_PROCESSOR -> event_room w 2 ->
  exists w', resume_processor m w = (w', Ret tt) /\ notified w w' 2.
Proof.
  intros Hok Hrk Ht Hr. destruct (can_send_ok w m seventy _ Hok Hrk Ht ltac:(done)) as (b & Hb & _). unfold resume_processor. rewrite (cmd_bind_Ret _ _ _ _ _ Hb).
  destruct b; [|exists w; split; [done|by apply notified_refl]].
  destruct (notify_ok w m NX_EVENT_MODULE_RESUME Hok) as (w1 & H1 & Hn1); [by eapply mtype_Some|done|unfold event_room in *; lia|].
  unfold nx_module_resume. rewrite (cmd_bind_Ret _ _ _ _ _ H1). pose proof Ht as (md & Hm & _)%fmap_Some.
  destruct (same_shape_lookup w w1 m md (no_shape _ _ _ Hn1) Hm) as (md1 & Hm1 & _). rewrite (cmd_bind_Ret _ _ _ _ _ (get_status_ok w1 m md1 Hm1)).
  case_bool_decide; [|exists w1; split; [done|by eapply notified_le; [exact Hn1|lia]]].
  destruct (notify_ok w1 m NX_EVENT_DATA_AVAILABLE (no_ok _ _ _ Hn1)) as (w2 & H2 & Hn2); [eauto|done|by eapply notified_room|].
  exists w2. split; [done|]. by eapply (notified_trans _ _ _ 1 1).
Qed.

Lemma resume_inputs_ok mods : forall w, world_ok w -> routes_ok w -> all_of w NX_MODULE_TYPE_INPUT mods -> event_room w (length mods) ->
  exists w', resume_inputs mods w = (w', Ret tt) /\ notified w w' (length mods).
Proof.
  induction mods as [|a mods IH]; intros w Hok Hrk Ht Hr; [exists w; split; [done|by apply notified_refl]|]. cbn [resume_inputs].
  assert (mtype w a = Some NX_MODULE_TYPE_INPUT) as Hta by (apply Ht; by left).
  rewrite (cmd_bind_Ret _ _ _ _ _ (type_of_ok w a _ Hta)), bool_decide_eq_true_2, (cmd_bind_Ret _ _ w w tt) by done.
  destruct (can_send_ok w a seventy _ Hok Hrk Hta ltac:(done)) as (b & Hb & _). rewrite (cmd_bind_Ret _ _ _ _ _ Hb).
  assert (exists w1, (if b then nx_module_resume a else mret tt) w = (w1, Ret tt) /\ notified w w1 1) as (w1 & H1 & Hn1).
  { destruct b; [|exists w; split; [done|by apply notified_refl]]. apply notify_ok; [done|by eapply mtype_Some|done|unfold event_room in *; simpl in Hr; lia]. }
  rewrite (cmd_bind_Ret _ _ _ _ _ H1). destruct (IH w1 (no_ok _ _ _ Hn1)) as (w2 & H2 & Hn2).
  - by eapply notified_routes.
  - eapply all_of_shape; [apply Hn1|]. intros y Hy. apply Ht. by right.
  - by eapply notified_room.
  - exists w2. split; [done|]. by eapply (notified_trans _ _ _ 1).
Qed.

Lemma before_mid m pre post acc : m ∉ pre -> before m (pre ++ m :: post) acc = Some (reverse pre ++ acc).
Proof.
  revert acc. induction pre as [|x pre IH]; intros acc Hm; simpl; [by rewrite bool_decide_eq_true_2|].
  apply not_elem_of_cons in Hm as [Hne Hm]. rewrite bool_decide_eq_false_2 by congruence. rewrite IH by done. by rewrite reverse_cons, <- app_assoc.
Qed.

Lemma before_none m mods acc : m ∉ mods -> before m mods acc = None.
Proof.
  revert acc. induction mods as [|x mods IH]; intros acc Hm; [done|]. simpl. apply not_elem_of_cons in Hm as [Hne Hm].
  rewrite bool_decide_eq_false_2 by congruence. by apply IH.
Qed.

Lemma skip_outputs_ok w mods rest : all_of w NX_MODULE_TYPE_OUTPUT mods -> (exists a t l, rest = a :: l /\ mtype w a = Some t /\ t <> NX_MODULE_TYPE_OUTPUT) ->
  skip_outputs (mods ++ rest) w = (w, Ret rest).
Proof.
  intros H Hrest. induction mods as [|a mods IH]; simpl.
  - destruct Hrest as (a & t & l & -> & Ht & Hne). simpl. rewrite (cmd_bind_Ret _ _ _ _ _ (type_of_ok w a t Ht)). by rewrite bool_decide_eq_false_2.
  - rewrite (cmd_bind_Ret _ _ _ _ _ (type_of_ok w a _ (H a ltac:(by left)))), bool_decide_eq_true_2 by done. apply IH. intros y Hy. apply H. by right.
Qed.

(** The senders before the processors [procs], given as they are looked at: the
    nearest processor, or all inputs. *)
Lemma resume_before_ok w procs ins : world_ok w -> routes_ok w -> all_of w NX_MODULE_TYPE_PROCESSOR procs -> all_of w NX_MODULE_TYPE_INPUT ins -> ins <> [] ->
  event_room w (2 + length ins) ->
  exists w', (curr ← lift (deref (head (procs ++ ins)) "curr"); tc ← type_of curr;
    match tc with NX_MODULE_TYPE_PROCESSOR => resume_processor curr | _ => resume_inputs (procs ++ ins) end) w = (w', Ret tt) /\ notified w w' (2 + length ins).
Proof.
  intros Hok Hrk Hp Hi Hne Hr. destruct procs as [|a procs].
  - destruct ins as [|a ins]; [done|]. rewrite (cmd_bind_Ret _ _ w w a) by done. rewrite (cmd_bind_Ret _ _ _ _ _ (type_of_ok w a _ (Hi a ltac:(by left)))).
    destruct (resume_inputs_ok (a :: ins) w Hok Hrk Hi) as (w' & H & Hn); [unfold event_room in *; lia|]. exists w'. split; [done|]. eapply notified_le; [exact Hn|lia].
  - rewrite (cmd_bind_Ret _ _ w w a) by done. rewrite (cmd_bind_Ret _ _ _ _ _ (type_of_ok w a _ (Hp a ltac:(by left)))).
    destruct (resume_processor_ok w a Hok Hrk (Hp a ltac:(by left))) as (w' & H & Hn); [unfold event_room in *; lia|]. exists w'. split; [done|]. eapply notified_le; [exact Hn|lia].
Qed.

Lemma resume_route_ok w m t mods : world_ok w -> routes_ok w -> ordered w mods -> mtype w m = Some t -> has_queue t = true -> event_room w (2 + length mods) ->
  exists w', resume_route m t mods w = (w', Ret tt) /\ notified w w' (2 + length mods).
Proof.
  intros Hok Hrk (Hnd & ins & procs & outs & -> & Hni & Hno & Hins & Hprocs & Houts) Ht Hq Hr. unfold resume_route.
  destruct (decide (m ∈ ins ++ procs ++ outs)) as [Hin|Hin]; [|rewrite before_none by done; exists w; split; [done|by apply notified_refl]].
  assert (reverse ins <> []) as Hri by (intros E; apply Hni; by rewrite <- (reverse_involutive ins), E).
  assert (all_of w NX_MODULE_TYPE_INPUT (reverse ins)) as Hrins by (intros a; rewrite elem_of_reverse; apply Hins).
  destruct t; try done.
  - assert (m ∈ procs) as Hp by (rewrite !elem_of_app in Hin; destruct Hin as [H|[H|H]]; [apply Hins in H; congruence|done|apply Houts in H; congruence]).
    apply list_elem_of_split in Hp as (p1 & p2 & ->).
    assert (ins ++ (p1 ++ m :: p2) ++ outs = (ins ++ p1) ++ m :: (p2 ++ outs)) as E by (by rewrite <- !app_assoc). rewrite E in *.
    assert (m ∉ ins ++ p1) as Hnot by (apply NoDup_app in Hnd as (_ & Hd & _); intros H; apply (Hd m H); by left).
    rewrite before_mid, app_nil_r, reverse_app by done. rewrite (bool_decide_eq_false_2 (reverse p1 ++ reverse ins = [])) by (by destruct (reverse p1)).
    rewrite (cmd_bind_Ret _ _ w w tt) by done. rewrite (bool_decide_eq_true_2 (_ = NX_MODULE_TYPE_PROCESSOR)), (cmd_bind_Ret _ _ w w (reverse p1 ++ reverse ins)) by done.
    destruct (resume_before_ok w (reverse p1) (reverse ins) Hok Hrk) as (w' & H & Hn); [intros a; rewrite elem_of_reverse; intros Ha; apply Hprocs; set_solver|done|done| |].
    { rewrite length_reverse. rewrite !length_app in Hr. unfold event_room in *. lia. }
    exists w'. split; [exact H|]. eapply notified_le; [exact Hn|]. rewrite length_reverse, !length_app. lia.
  - assert (m ∈ outs) as Hp by (rewrite !elem_of_app in Hin; destruct Hin as [H|[H|H]]; [apply Hins in H; congruence|apply Hprocs in H; congruence|done]).
    apply list_elem_of_split in Hp as (o1 & o2 & ->).
    assert (ins ++ procs ++ o1 ++ m :: o2 = (ins ++ procs ++ o1) ++ m :: o2) as E by (by rewrite <- !app_assoc). rewrite E in *.
    assert (m ∉ ins ++ procs ++ o1) as Hnot by (apply NoDup_app in Hnd as (_ & Hd & _); intros H; apply (Hd m H); by left).
    rewrite before_mid, app_nil_r, !reverse_app by done. rewrite <- app_assoc.
    rewrite (bool_decide_eq_false_2 (_ = [])) by (by destruct (reverse o1), (reverse procs)). rewrite (cmd_bind_Ret _ _ w w tt) by done.
    rewrite (bool_decide_eq_false_2 (_ = NX_MODULE_TYPE_PROCESSOR)), (bool_decide_eq_true_2 (_ = NX_MODULE_TYPE_OUTPUT)) by done.
    assert (all_of w NX_MODULE_TYPE_PROCESSOR (reverse procs)) as Hrp by (intros a; rewrite elem_of_reverse; apply Hprocs).
    rewrite (cmd_bind_Ret _ _ w w (reverse procs ++ reverse ins)).
    2:{ apply skip_outputs_ok; [intros a; rewrite elem_of_reverse; intros Ha; apply Houts; set_solver|].
        destruct (reverse procs) as [|a l].
        - destruct (reverse ins) as [|a l]; [done|]. exists a, NX_MODULE_TYPE_INPUT, l. split_and!; [done|apply Hrins; by left|done].
        - exists a, NX_MODULE_TYPE_PROCESSOR, (l ++ reverse ins). split_and!; [done|apply Hrp; by left|done]. }
    destruct (resume_before_ok w (reverse procs) (reverse ins) Hok Hrk Hrp Hrins Hri) as (w' & H & Hn).
    { rewrite length_reverse. rewrite !length_app in Hr. unfold event_room in *. lia. }
    exists w'. split; [exact H|]. eapply notified_le; [exact Hn|]. rewrite length_reverse, !length_app. lia.
Qed.

(** The number of events that are enough for the routes [rs]. *)
Definition route_events (w : world) (rs : list loc) : nat := sum_list ((fun r => 2 + length (default [] (w_routes w !! r)))%nat <$> rs).

Lemma resume_routes_ok rs : forall w m t, world_ok w -> routes_ok w -> routes_exist w rs -> mtype w m = Some t -> has_queue t = true ->
  event_room w (route_events w rs) -> exists w', resume_routes m t rs w = (w', Ret tt) /\ notified w w' (route_events w rs).
Proof.
  induction rs as [|r rs IH]; intros w m t Hok Hrk Hex Ht Hq Hr; [exists w; split; [done|by apply notified_refl]|].
  destruct (Hex r) as (mods & Hmods & Hall); [by left|]. cbn [resume_routes]. rewrite (cmd_bind_Ret _ _ _ _ _ (get_route_ok w r mods Hmods)).
  unfold route_events in *. rewrite fmap_cons in *. cbn [sum_list] in *. rewrite Hmods in *. cbn [default] in *.
  destruct (resume_route_ok w m t mods Hok Hrk (rk_order w Hrk r mods Hmods) Ht Hq) as (w1 & H1 & Hn1); [unfold event_room in *; simpl in Hr; lia|].
  rewrite (cmd_bind_Ret _ _ _ _ _ H1). pose proof (no_shape _ _ _ Hn1) as Hs.
  destruct (IH w1 m t (no_ok _ _ _ Hn1)) as (w2 & H2 & Hn2).
  - by eapply notified_routes.
  - intros r' Hr'. destruct (Hex r') as (mods' & Hm' & Ha'); [by right|]. exists mods'. rewrite (proj1 Hs). split; [done|]. intros a Ha.
    destruct (Ha' a Ha) as [md Hmd]. destruct (same_shape_lookup w w1 a md Hs Hmd) as (md' & ? & _). eauto.
  - by rewrite (mtype_shape w w1 m Hs).
  - done.
  - rewrite (proj1 Hs). by eapply notified_room.
  - rewrite (proj1 Hs) in Hn2. exists w2. split; [done|]. by eapply notified_trans.
Qed.

(** ** Taking records *)

Lemma peek_queue_ok w m t : world_ok w -> mtype w m = Some t -> has_queue t = true ->
  exists w', nx_logqueue_peek m w = (w', Ret (head (items w m))) /\ world_ok w' /\ same_shape w w' /\ w_recs w' = w_recs w /\
    s_events (w_sys w') = s_events (w_sys w) /\ (forall x, items w' x = items w x) /\ (items w m <> [] -> needpop w' m = true).
Proof.
  intros Hok Ht Hq. destruct (queue_of w m t Hok Ht Hq) as (md & q & Hm & Eq & Ei & _). unfold nx_logqueue_peek.
  rewrite (cmd_bind_Ret _ _ _ _ _ (get_queue_ok w m md q Hm Eq)). rewrite <- Ei. destruct (items w m) as [|ld l] eqn:Hi; [by exists w|].
  destruct (put_ext_ok w m md (with_queue (Queue (ld :: l) (q_limit q) true)) Hok Hm) as (w' & H & Hok' & Hs & Hr & He & Hi'); [unfold shape; simpl; by rewrite Eq|].
  rewrite (cmd_bind_Ret _ _ _ _ _ H). exists w'. split_and!; try done.
  - intros x. rewrite Hi'. case_decide; [subst; by rewrite Hi|done].
  - intros _. unfold put_ext in H. rewrite (cmd_bind_Ret _ _ _ _ _ (get_mod_ok w m md Hm)) in H. injection H as <-. unfold needpop. simpl. by rewrite lookup_insert_eq.
Qed.

Lemma size_ok w m t : world_ok w -> mtype w m = Some t -> has_queue t = true -> nx_logqueue_size m w = (w, Ret (zlen (items w m))).
Proof.
  intros Hok Ht Hq. destruct (queue_of w m t Hok Ht Hq) as (md & q & Hm & Eq & -> & _). unfold nx_logqueue_size.
  by rewrite (cmd_bind_Ret _ _ _ _ _ (get_queue_ok w m md q Hm Eq)).
Qed.

(** The counters do not touch [needpop]. *)
Lemma put_ext_needpop w m f w' x : (forall y, x_queue (f y) = x_queue y) -> put_ext m f w = (w', Ret tt) -> needpop w' x = needpop w x.
Proof.
  intros Hf H. unfold put_ext in H. destruct (s_modules (w_sys w) !! m) as [md|] eqn:Hm.
  - rewrite (cmd_bind_Ret _ _ _ _ _ (get_mod_ok w m md Hm)) in H. injection H as <-. unfold needpop. simpl.
    destruct (decide (m = x)) as [<- |]; [rewrite lookup_insert_eq, Hm; simpl; by rewrite Hf|by rewrite lookup_insert_ne].
  - unfold get_mod, on_sys, get_module in H. unfold mbind at 1, cmd_bind in H. rewrite Hm in H. done.
Qed.

(** What [nx_module_logqueue_peek] returns and leaves: the first record after the
    Exec block, still at the head of the queue and ready to be popped; or nothing, and
    the record is gone if the block dropped it. *)
Definition peeked (w w' : world) (m : loc) (md : module) (res : option loc) : Prop :=
  match items w m with
  | [] => res = None /\ (forall x, items w' x = items w x) /\ w_recs w' = w_recs w
  | ld :: l =>
      exists r, w_recs w !! ld = Some r /\
      match exec_on (m_ext md) r with
      | Some r' => res = Some ld /\ (forall x, items w' x = items w x) /\ w_recs w' = <[ld := r']> (w_recs w) /\ needpop w' m = true
      | None => res = None /\ (forall x, items w' x = if decide (x = m) then l else items w x) /\ w_recs w' = delete ld (w_recs w)
      end
  end.

Lemma peek_record_ok w m md t ld l : world_ok w -> recs_ok w [] -> s_modules (w_sys w) !! m = Some md -> mtype w m = Some t -> has_queue t = true ->
  items w m = ld :: l -> needpop w m = true ->
  exists w' res, (_ ← count_recvd m; kept ← run_exec m ld;
     if (kept : bool) then mret (Some ld) else _ ← nx_logqueue_pop m ld; _ ← free_rec ld; mret None) w = (w', Ret res) /\
    world_ok w' /\ same_shape w w' /\ recs_ok w' [] /\ peeked w w' m md res.
Proof.
  intros Hok Hrec Hm Ht Hq Hi Hn. destruct (recvd_ok w m md [] Hok Hrec Hm) as (w1 & H1 & Hok1 & Hs1 & Hrec1 & Er1 & _ & Ei1).
  rewrite (cmd_bind_Ret _ _ _ _ _ H1). assert (is_Some (w_recs w !! ld)) as [r Hr] by (apply Hrec; left; exists m; rewrite Hi; by left).
  destruct (same_shape_lookup w w1 m md Hs1 Hm) as (md1 & Hm1 & Esh). assert (x_exec (m_ext md1) = x_exec (m_ext md)) as Eexec by (unfold shape in Esh; by injection Esh).
  assert (needpop w1 m = true) as Hn1 by (erewrite put_ext_needpop; [exact Hn| |exact H1]; done).
  destruct (run_exec_ok w1 m md1 ld r [] Hok1 Hrec1 Hm1) as (w2 & H2 & Hok2 & Hs2 & Hrec2 & Es2 & Er2); [by rewrite Er1|].
  rewrite (cmd_bind_Ret _ _ _ _ _ H2). unfold exec_on in *. rewrite Eexec in *. fold (exec_on (m_ext md) r) in *.
  assert (forall x, items w2 x = items w x) as Ei2 by (intros x; unfold items; rewrite Es2; apply Ei1).
  assert (needpop w2 m = true) as Hn2 by (unfold needpop; by rewrite Es2).
  assert (same_shape w w2) as Hsh by (by transitivity w1). unfold peeked. rewrite Hi.
  destruct (exec_on (m_ext md) r) as [r'|] eqn:Eex.
  - rewrite bool_decide_eq_true_2 by eauto. exists w2, (Some ld). split_and!; try done. exists r. rewrite Eex. split_and!; try done. by rewrite Er2, Er1.
  - rewrite bool_decide_eq_false_2 by (by intros []).
    destruct (pop_ok w2 m t ld l [] Hok2 Hrec2) as (w3 & H3 & Hok3 & Hs3 & Hrec3 & Er3 & _ & Ei3); [by rewrite (mtype_shape w w2 m Hsh)|done|by rewrite Ei2|done|].
    rewrite (cmd_bind_Ret _ _ _ _ _ H3). destruct (free_rec_ok w3 ld [] Hok3 Hrec3) as (w4 & H4 & Hok4 & Hs4 & Hrec4 & Es4 & Er4).
    rewrite (cmd_bind_Ret _ _ _ _ _ H4). exists w4, None. split_and!; try done; [by transitivity w2; [|transitivity w3]|].
    exists r. rewrite Eex. split_and!; try done; [|by rewrite Er4, Er3, Er2, Er1]. intros x. unfold items at 1. rewrite Es4. fold (items w3 x). rewrite Ei3.
    case_decide; [done|apply Ei2].
Qed.

(** C12: If the routes are in order (inputs, processors, outputs),
    [nx_module_logqueue_peek] of a processor or output never fails, whichever senders
    it resumes; it returns the first record of the queue as the Exec block leaves it,
    ready to be popped, or frees it if the block drops it; and it keeps the
    configuration well formed and every record in exactly one queue. *)
Theorem peek_takes_first w m md t : world_ok w -> routes_ok w -> recs_ok w [] -> s_modules (w_sys w) !! m = Some md -> x_type (m_ext md) = t ->
  has_queue t = true -> event_room w (S (route_events w (x_routes (m_ext md)))) ->
  exists w' res, nx_module_logqueue_peek m w = (w', Ret res) /\ world_ok w' /\ same_shape w w' /\ recs_ok w' [] /\ peeked w w' m md res.
Proof.
  intros Hok Hrk Hrec Hm Et Hq Hroom. assert (mtype w m = Some t) as Ht by (unfold mtype; rewrite Hm; simpl; by rewrite Et).
  unfold nx_module_logqueue_peek. rewrite (cmd_bind_Ret _ _ _ _ _ (get_mod_ok w m md Hm)).
  rewrite (bool_decide_eq_false_2 (x_type (m_ext md) = NX_MODULE_TYPE_INPUT)) by (intros E; rewrite <- Et, E in Hq; done). rewrite (cmd_bind_Ret _ _ w w tt) by done.
  destruct (peek_queue_ok w m t Hok Ht Hq) as (w1 & H1 & Hok1 & Hs1 & Er1 & Ee1 & Ei1 & Hn1). rewrite (cmd_bind_Ret _ _ _ _ _ H1).
  rewrite (cmd_bind_Ret _ _ _ _ _ (size_ok w1 m t Hok1 ltac:(by rewrite (mtype_shape w w1 m Hs1)) Hq)).
  destruct (same_shape_lookup w w1 m md Hs1 Hm) as (md1 & Hm1 & Esh1).
  assert (exists w2, (if 0 <? zlen (items w1 m) then nx_module_data_available m else mret tt) w1 = (w2, Ret tt) /\ notified w1 w2 1) as (w2 & H2 & Hn2).
  { destruct (0 <? _); [|exists w1; split; [done|by apply notified_refl]]. apply notify_ok; [done|eauto|done|]. unfold event_room in *. rewrite Ee1. lia. }
  rewrite (cmd_bind_Ret _ _ _ _ _ H2). pose proof Hn2 as []. assert (same_shape w w2) as Hs2 by (by transitivity w1).
  destruct (same_shape_lookup w w2 m md Hs2 Hm) as (md2 & Hm2 & Esh2).
  assert (x_type (m_ext md2) = t /\ x_routes (m_ext md2) = x_routes (m_ext md)) as [Et2 Erts] by (unfold shape in Esh2; rewrite <- Et; by injection Esh2).
  unfold resume_senders at 1. rewrite <- cmd_bind_assoc, (cmd_bind_Ret _ _ _ _ _ (get_mod_ok w2 m md2 Hm2)), Et2, Erts.
  destruct (resume_routes_ok (x_routes (m_ext md)) w2 m t no_ok0) as (w3 & H3 & Hn3).
  - by eapply routes_ok_shape.
  - rewrite <- Erts. by eapply routes_exist_ok.
  - by rewrite (mtype_shape w w2 m Hs2).
  - done.
  - unfold route_events. rewrite (proj1 Hs2). eapply notified_room; [exact Hn2|]. unfold event_room in *. rewrite Ee1. exact Hroom.
  - rewrite (cmd_bind_Ret _ _ _ _ _ H3). pose proof Hn3 as [Hok3 Hs3' Er3 Ei3 _ Hnp3].
    assert (same_shape w w3) as Hs3 by (by transitivity w2). assert (forall x, items w3 x = items w x) as Hi3 by (intros x; by rewrite Ei3, no_items0, Ei1).
    assert (w_recs w3 = w_recs w) as Hr3 by congruence. assert (recs_ok w3 []) as Hrec3 by (by eapply recs_ok_same).
    destruct (same_shape_lookup w w3 m md Hs3 Hm) as (md3 & Hm3 & Esh3).
    assert (exists w4 res, (match head (items w m) with
        | None => mret None
        | Some ld => _ ← count_recvd m; kept ← run_exec m ld; if (kept : bool) then mret (Some ld) else _ ← nx_logqueue_pop m ld; _ ← free_rec ld; mret None
        end) w3 = (w4, Ret res) /\ world_ok w4 /\ same_shape w w4 /\ recs_ok w4 [] /\ peeked w w4 m md res) as (w4 & res & H4 & Hok4 & Hs4 & Hrec4 & Hp4).
    { destruct (items w m) as [|ld l] eqn:Hi.
      - exists w3, None. split_and!; try done. unfold peeked. by rewrite Hi.
      - cbn [head]. destruct (peek_record_ok w3 m md3 t ld l Hok3 Hrec3 Hm3) as (w4 & res & H4 & Hok4 & Hs4 & Hrec4 & Hp4);
          [by rewrite (mtype_shape w w3 m Hs3)|done|by rewrite Hi3|rewrite Hnp3, no_needpop0; by apply Hn1|].
        exists w4, res. split_and!; try done; [by transitivity w3|]. unfold peeked in *. rewrite Hi3, Hi in Hp4. rewrite Hi.
        destruct Hp4 as (r & Hr & Hp4). exists r. rewrite Hr3 in *. split; [done|].
        assert (exec_on (m_ext md3) r = exec_on (m_ext md) r) as Eexec.
        { unfold exec_on. assert (x_exec (m_ext md3) = x_exec (m_ext md)) as -> by (unfold shape in Esh3; by injection Esh3). done. }
        rewrite Eexec in Hp4. destruct (exec_on (m_ext md) r); destruct Hp4 as (? & Hit & ?); (split_and!; try tauto); intros x; rewrite Hit; try (case_decide; [done|]); apply Hi3. }
    rewrite (cmd_bind_Ret _ _ _ _ _ H4). destruct (same_shape_lookup w w4 m md Hs4 Hm) as (md4 & Hm4 & _).
    destruct (bool_decide (res <> None) && bool_decide (x_type (m_ext md) = NX_MODULE_TYPE_OUTPUT)) eqn:Eout; [|exists w4, res; by split_and!].
    destruct (fwd_ok w4 m md4 1 [] Hok4 Hrec4 Hm4) as (w5 & H5 & Hok5 & Hs5 & Hrec5 & Er5 & _ & Ei5). rewrite (cmd_bind_Ret _ _ _ _ _ H5).
    exists w5, res. split_and!; try done; [by transitivity w4|]. assert (needpop w5 m = needpop w4 m) as Hnp5 by (eapply put_ext_needpop; [|exact H5]; done).
    unfold peeked in *. destruct (items w m) as [|ld l]; [destruct Hp4 as (? & Hit & ?); split_and!; try congruence; intros x; by rewrite Ei5|].
    destruct Hp4 as (r & Hr & Hp4). exists r. split; [done|]. destruct (exec_on (m_ext md) r); destruct Hp4 as (? & Hit & Hre);
      (split_and!; [congruence|intros x; by rewrite Ei5|..]); intuition congruence.
Qed.

End delivery.

(** ** A small configuration

    An input, a processor with the queue [q], two outputs and the core module; the
    input and the outputs use flow control or not. *)

Definition start_mod (x : fields) : module := Mod None 10 NX_MODULE_STATUS_RUNNING x.
Definition ex_fields (t : nx_module_type) (rs : list loc) (q : option queue) : fields :=
  Fields t false rs q 0 0 (lit "m") (lit "x") None.

Definition ex_start (q : queue) : sys fields :=
  Sys ∅ ∅ ∅ None None []
    (<[1%positive := start_mod (ex_fields NX_MODULE_TYPE_INPUT [1%positive] None)]>
     (<[2%positive := start_mod (ex_fields NX_MODULE_TYPE_PROCESSOR [1%positive] (Some q))]>
      (<[3%positive := start_mod (ex_fields NX_MODULE_TYPE_OUTPUT [1%positive] (Some (Queue [] 100 false)))]>
       (<[4%positive := start_mod (ex_fields NX_MODULE_TYPE_OUTPUT [1%positive] (Some (Queue [] 100 false)))]>
        (<[5%positive := start_mod (ex_fields NX_MODULE_TYPE_EXTENSION [] None)]> ∅))))) false 0 0.

Definition ex_modules : list loc := [1%positive; 2%positive; 3%positive; 4%positive].
Definition ex_sys (q : queue) : sys fields := (nx_ctx_init_jobs ex_modules 5%positive (ex_start q)).1.
Definition ex_route : gmap loc (list loc) := <[1%positive := ex_modules]> ∅.
Definition ex_rec : alist := [(raw_key, str_value (lit "hello")); (lit "Message", str_value (lit "hello"))].
Definition ex_world (q : queue) : world := World (ex_sys q) ex_route (<[1%positive := ex_rec]> ∅).

Definition q_empty : queue := Queue [] 100 false.
Definition q_one : queue := Queue [1%positive] 100 true.

Lemma ex_startup q : startup ex_modules 5%positive (ex_start q).
Proof.
  split; try done; [by apply (bool_decide_unpack _)|]. intros m md Hm. unfold ex_start in Hm. simpl in Hm.
  repeat (rewrite lookup_insert_Some in Hm; destruct Hm as [[_ <-]|[_ Hm]]; [done|]). done.
Qed.

Lemma ex_sched q : exists v, sched_ok (ex_sys q) v.
Proof. destruct (init_jobs_ok _ _ _ (ex_startup q)) as (s & H & Hok & _). unfold ex_sys. rewrite H. eauto. Qed.

(** What can be computed of [world_ok]. *)
Definition world_checked (w : world) : bool :=
  bool_decide (map_Forall (fun _ md => m_priority md <> 0 /\ (has_queue (x_type (m_ext md)) = true -> is_Some (x_queue (m_ext md))) /\
    Forall (fun r => is_Some (w_routes w !! r)) (x_routes (m_ext md))) (s_modules (w_sys w))) &&
  bool_decide (map_Forall (fun _ mods => Forall (fun a => is_Some (s_modules (w_sys w) !! a)) mods) (w_routes w)).

Lemma world_checked_ok w : world_checked w = true -> (exists v, sched_ok (w_sys w) v) -> world_ok w.
Proof.
  unfold world_checked. intros [H1 H2]%andb_true_iff Hs. apply bool_decide_eq_true in H1. apply bool_decide_eq_true in H2.
  split; [done|intros m md Hm; apply (H1 m md Hm)|intros m md Hm; apply (H1 m md Hm)| |].
  - intros m md r Hm Hr. destruct (H1 m md Hm) as (_ & _ & HF). rewrite Forall_forall in HF. by apply HF.
  - intros r mods a Hr Ha. specialize (H2 r mods Hr). rewrite Forall_forall in H2. by apply H2.
Qed.

Lemma ex_world_ok : world_ok (ex_world q_empty) /\ world_ok (ex_world q_one).
Proof. split; (apply world_checked_ok; [vm_compute; reflexivity|apply ex_sched]). Qed.

Definition ex_queue (q : queue) : Prop := q = q_empty \/ q = q_one.

Lemma ex_items q m : ex_queue q -> items (ex_world q) m = if decide (m = 2%positive) then q_items q else [].
Proof.
  intros Hq. unfold items. assert (map_Forall (fun m md => items_of md = if decide (m = 2%positive) then q_items q else []) (s_modules (w_sys (ex_world q)))) as H.
  { destruct Hq as [-> | ->]; apply (bool_decide_unpack _); vm_compute; exact I. }
  destruct (s_modules (w_sys (ex_world q)) !! m) as [md|] eqn:E; [by apply H|]. case_decide; [|done]. subst. destruct Hq as [-> | ->]; vm_compute in E; discriminate.
Qed.

Lemma ex_items_empty m : items (ex_world q_empty) m = [].
Proof. rewrite ex_items by (by left). by case_decide. Qed.

Lemma ex_items_one m x : x ∈ items (ex_world q_one) m <-> m = 2%positive /\ x = 1%positive.
Proof. rewrite ex_items by (by right). case_decide; simpl; [rewrite list_elem_of_singleton|rewrite elem_of_nil]; tauto. Qed.

Lemma ex_recs : recs_ok (ex_world q_empty) [1%positive] /\ recs_ok (ex_world q_one) [].
Proof.
  split; split; intros; rewrite ?ex_items_empty in *.
  - setoid_rewrite ex_items_empty. simpl. rewrite lookup_insert_is_Some, lookup_empty, list_elem_of_singleton. split.
    + intros [<- |[_ [? H]]]; [by right|done].
    + intros [[m Hm]| ->]; [by apply not_elem_of_nil in Hm|by left].
  - constructor.
  - by apply not_elem_of_nil in H.
  - apply not_elem_of_nil.
  - apply NoDup_singleton.
  - setoid_rewrite ex_items_one. simpl. rewrite lookup_insert_is_Some, lookup_empty. split.
    + intros [<- |[_ [? H]]]; [left; exists 2%positive; tauto|done].
    + intros [(m & _ & ->)|Hx]; [by left|by apply not_elem_of_nil in Hx].
  - rewrite ex_items by (by right). case_decide; simpl; [apply NoDup_singleton|constructor].
  - apply ex_items_one in H as [-> _]. by apply ex_items_one in H0 as [-> _].
  - by apply not_elem_of_nil in H.
  - constructor.
Qed.

Lemma ex_room q n : ex_queue q -> (n < 100)%nat -> room (ex_world q) n.
Proof.
  intros Hq Hn. assert (size (s_events (ex_sys q)) = 0%nat) as Es by (destruct Hq as [-> | ->]; vm_compute; reflexivity).
  split; [cbn [ex_world w_sys]; rewrite Es; lia|]. intros m. rewrite ex_items by done. unfold INT_MAX. destruct Hq as [-> | ->]; case_decide; simpl; lia.
Qed.

Lemma ex_ordered q : ex_queue q -> routes_ok (ex_world q).
Proof.
  intros Hq. split.
  - intros r mods Hr. change (ex_route !! r = Some mods) in Hr. unfold ex_route in Hr. apply lookup_insert_Some in Hr as [[_ <-]|[_ Hr]]; [|discriminate Hr]. split; [by apply (bool_decide_unpack _)|].
    exists [1%positive], [2%positive], [3%positive; 4%positive]. assert (forall t l, forallb (fun a => bool_decide (mtype (ex_world q) a = Some t)) l = true -> all_of (ex_world q) t l) as H.
    { intros t l Hl a Ha. rewrite forallb_forall in Hl. apply list_elem_of_In in Ha. specialize (Hl a Ha). by apply bool_decide_eq_true in Hl. }
    split_and!; try done; apply H; destruct Hq as [-> | ->]; vm_compute; reflexivity.
  - intros m md Hm Ht. assert (m = 2%positive) as ->.
    { assert (map_Forall (fun m md => x_type (m_ext md) = NX_MODULE_TYPE_PROCESSOR -> m = 2%positive) (s_modules (w_sys (ex_world q)))) as HF by (destruct Hq as [-> | ->]; apply (bool_decide_unpack _); vm_compute; exact I).
      by apply (HF m md). }
    exists 1%positive, [], ex_modules. split_and!; [|done|by apply (bool_decide_unpack _)].
    destruct Hq as [-> | ->]; vm_compute in Hm; injection Hm as <-; reflexivity.
  - intros r mods a Hr Ha. change (ex_route !! r = Some mods) in Hr. unfold ex_route in Hr. apply lookup_insert_Some in Hr as [[_ <-]|[_ Hr]]; [|discriminate Hr]. 
    assert (Forall (fun a => mtype (ex_world q) a <> Some NX_MODULE_TYPE_EXTENSION) ex_modules) as HF by (destruct Hq as [-> | ->]; apply (bool_decide_unpack _); vm_compute; exact I).
    rewrite Forall_forall in HF. by apply HF.
Qed.

Lemma ex_copyable : copyable ex_rec.
Proof. split; [reflexivity|]. unfold ex_rec. do 2 (apply List.Forall_cons; [intros _; done|]). apply List.Forall_nil. Qed.

Lemma input_delivers_witness : exists w', nx_module_add_logdata_input (MA := poison_malloc) (VE := plain_env) 7 1%positive 1%positive (ex_world q_empty) = (w', Ret tt) /\ world_ok w' /\ recs_ok w' [].
Proof.
  destruct (s_modules (w_sys (ex_world q_empty)) !! 1%positive) as [md|] eqn:E; [|vm_compute in E; discriminate].
  destruct (input_delivers (MA := poison_malloc) (VE := plain_env) (ex_world q_empty) 7 1%positive md 1%positive ex_rec) as (w' & H & Hok & _ & Hd).
  - apply ex_world_ok.
  - apply ex_recs.
  - exact E.
  - vm_compute in E. injection E as <-. reflexivity.
  - reflexivity.
  - apply ex_room; [left; reflexivity|]. vm_compute in E. injection E as <-. simpl x_routes. apply (bool_decide_unpack _). vm_compute. exact I.
  - intros r' _ Hlen. vm_compute in E. injection E as <-. vm_compute in Hlen. exfalso. by apply (Nat.lt_irrefl 1).
  - exists w'. split; [exact H|]. split; [exact Hok|]. vm_compute in E. injection E as <-. simpl in Hd.
    match type of Hd with if ?b then _ else _ => assert (b = false) as Eb by (vm_compute; reflexivity) end. rewrite Eb in Hd. apply Hd.
Defined.

Lemma progress_delivers_witness : exists w', nx_module_progress_logdata (MA := poison_malloc) (VE := plain_env) 2%positive 1%positive (ex_world q_one) = (w', Ret tt) /\ world_ok w' /\ recs_ok w' [].
Proof.
  destruct (s_modules (w_sys (ex_world q_one)) !! 2%positive) as [md|] eqn:E; [|vm_compute in E; discriminate].
  destruct (progress_delivers (MA := poison_malloc) (VE := plain_env) (ex_world q_one) 2%positive md 1%positive [] ex_rec 1%positive [] ex_modules [3%positive; 4%positive]) as (w' & H & Hok & _ & Hrec & _).
  - apply ex_world_ok.
  - apply ex_recs.
  - exact E.
  - vm_compute in E. injection E as <-. reflexivity.
  - vm_compute. reflexivity.
  - vm_compute. reflexivity.
  - reflexivity.
  - vm_compute in E. injection E as <-. reflexivity.
  - reflexivity.
  - exists 3%positive, [3%positive; 4%positive]. split; [reflexivity|]. right. split; [vm_compute; reflexivity|]. split; [reflexivity|]. split; [discriminate|].
    intros a Ha. apply list_elem_of_In in Ha as [<- |[<- |[]]]; vm_compute; reflexivity.
  - apply ex_room; [right; reflexivity|simpl; lia].
  - intros _. apply ex_copyable.
  - exists w'. split; [exact H|]. split; [exact Hok|exact Hrec].
Defined.

Lemma add_to_route_copies_witness : exists w', nx_module_add_logdata_to_route (MA := poison_malloc) (VE := plain_env) ex_modules 1%positive (ex_world q_empty) = (w', Ret tt) /\ world_ok w' /\ recs_ok w' [1%positive].
Proof.
  destruct (add_to_route_copies (MA := poison_malloc) (VE := plain_env) (ex_world q_empty) 1%positive ex_rec ex_modules) as (w' & H & Hok & Hrec & _).
  - apply ex_copyable.
  - apply ex_world_ok.
  - apply ex_recs.
  - reflexivity.
  - intros a Ha. apply (wo_modules _ (proj1 ex_world_ok) 1%positive ex_modules); [reflexivity|exact Ha].
  - apply ex_room; [left; reflexivity|apply (bool_decide_unpack _); vm_compute; exact I].
  - exists w'. split; [exact H|]. split; [exact Hok|exact Hrec].
Defined.

Lemma peek_takes_first_witness : exists w', nx_module_logqueue_peek 2%positive (ex_world q_one) = (w', Ret (Some 1%positive)) /\ world_ok w' /\ recs_ok w' [].
Proof.
  destruct (s_modules (w_sys (ex_world q_one)) !! 2%positive) as [md|] eqn:E; [|vm_compute in E; discriminate].
  destruct (peek_takes_first (ex_world q_one) 2%positive md NX_MODULE_TYPE_PROCESSOR) as (w' & res & H & Hok & _ & Hrec & Hp).
  - apply ex_world_ok.
  - apply ex_ordered. right. reflexivity.
  - apply ex_recs.
  - exact E.
  - vm_compute in E. injection E as <-. reflexivity.
  - reflexivity.
  - vm_compute in E. injection E as <-. vm_compute. reflexivity.
  - exists w'. unfold peeked in Hp. rewrite ex_items in Hp by (right; reflexivity). simpl in Hp. destruct Hp as (r & _ & Hp).
    assert (x_exec (m_ext md) = None) as Ex by (vm_compute in E; injection E as <-; reflexivity). unfold exec_on in Hp. rewrite Ex in Hp. destruct Hp as [-> _].
    split; [exact H|]. split; [exact Hok|exact Hrec].
Defined.

End Route.
