(* ===== verification/Csv.v ===== *)
(** * Comma separated values (modules/extension/csv/csv.c)

    The parser is a state machine over the characters of a line.  It collects a
    field in the block [dst] of [len + 1] bytes and hands it to the record at
    each delimiter; every store into [dst] is checked.  The record is any
    implementation of the interface [RecordIface], and keeps the fields that
    were set before an exception.

    The writer appends quoted and escaped field values to a growable string.
    Its cleanup code frees two temporaries, whose state is modelled. *)

From S2P Require Import Prelude Str Value Serialize Logdata RecordIface.
Import Str Value Serialize.

Module Csv.

Inductive nx_csv_quote_method :=
| NX_CSV_QUOTE_METHOD_STRING
| NX_CSV_QUOTE_METHOD_ALL
| NX_CSV_QUOTE_METHOD_NONE.

#[export] Instance quote_method_eq_dec : EqDecision nx_csv_quote_method.
Proof. solve_decision. Defined.

(** [fields] and [types] are the first [num_field] entries of the arrays; a type
    that was not configured is [None] (the value 0). *)
Record nx_csv_ctx := CsvCtx {
  delimiter : byte;
  quotechar : byte;
  escapechar : byte;
  quote_method : nx_csv_quote_method;
  escape_control : bool;
  fields : list bytes;
  types : list (option nx_value_type);
  undefvalue : option bytes
}.

Definition num_field (ctx : nx_csv_ctx) : Z := zlen (fields ctx).

Definition nx_csv_ctx_set_quotechar (c : byte) (x : nx_csv_ctx) : nx_csv_ctx :=
  CsvCtx (delimiter x) c (escapechar x) (quote_method x) (escape_control x) (fields x) (types x) (undefvalue x).
Definition nx_csv_ctx_set_delimiter (c : byte) (x : nx_csv_ctx) : nx_csv_ctx :=
  CsvCtx c (quotechar x) (escapechar x) (quote_method x) (escape_control x) (fields x) (types x) (undefvalue x).
Definition nx_csv_ctx_set_escapechar (c : byte) (x : nx_csv_ctx) : nx_csv_ctx :=
  CsvCtx (delimiter x) (quotechar x) c (quote_method x) (escape_control x) (fields x) (types x) (undefvalue x).
Definition nx_csv_ctx_init (x : nx_csv_ctx) : nx_csv_ctx :=
  CsvCtx "," x22 "\" NX_CSV_QUOTE_METHOD_STRING true (fields x) (types x) None.

(** A character of the configuration: quoted, an escape, the character itself,
    or a hexadecimal code; NUL when it is none of these. *)
Definition nx_csv_get_config_char (str : bytes) : outcome byte :=
  match str with
  | [a; c; b] =>
      Ret (if (a =c x22) && (b =c x22) then c
           else if (a =c "'") && (b =c "'") then c
           else x00)
  | [a; c] =>
      Ret (if a =c "\" then
             if c =c "a" then x07
             else if c =c "b" then x08
             else if c =c "t" then x09
             else if c =c "n" then x0a
             else if c =c "v" then x0b
             else if c =c "f" then x0c
             else if c =c "r" then x0d
             else x00
           else x00)
  | [c] => Ret c
  | _ =>
      if strcasecmp_eq (take 2 str) (lit "0X")
      then val ← throw_none (scanf_lx str) "couldn't parse integer: %s"; Ret (zb val)
      else Ret x00
  end.

(** ** The parser *)

Inductive nx_csv_state :=
| NX_CSV_STATE_START
| NX_CSV_STATE_INSIDE_FIELD
| NX_CSV_STATE_QUOTE.

(** The local variables of [parse_fields]; [ptr] is an offset in [dst]. *)
Record locals := Locals {
  st : nx_csv_state;
  dst : bytes;
  ptr : Z;
  currfield : Z;
  unescape : bool
}.

Section csv.
Context `{M : Malloc} `{E : ValueEnv} {R : Type} `{O : RecordOps R}.
Variable ctx : nx_csv_ctx.

Definition add_logdata_field (key strval : bytes) (type : option nx_value_type) : cmd R unit :=
  let type := default NX_VALUE_TYPE_STRING type in
  value ← lift (if bool_decide (undefvalue ctx = Some strval)
                then Ret (NxValue type FALSE DZero)
                else nx_value_from_string strval type);
  rec_set key value.

(** [*ptr = c; ptr++] *)
Definition put_char (c : byte) (x : locals) : outcome locals :=
  d ← mem_write (dst x) (ptr x) [c];
  Ret (Locals (st x) d (ptr x + 1) (currfield x) (unescape x)).

Definition set_st (s : nx_csv_state) (x : locals) : locals :=
  Locals s (dst x) (ptr x) (currfield x) (unescape x).
Definition set_unescape (u : bool) (x : locals) : locals :=
  Locals (st x) (dst x) (ptr x) (currfield x) u.

Definition keep_escape (chr : byte) (x : locals) : outcome locals :=
  x ← (if negb ((chr =c escapechar ctx) || (chr =c quotechar ctx)) then put_char (escapechar ctx) x else Ret x);
  put_char chr x.

Definition unescape_string (chr : byte) (x : locals) : outcome locals :=
  if escape_control ctx then
    if chr =c "n" then put_char x0a x
    else if chr =c "r" then put_char x0d x
    else if chr =c "t" then put_char x09 x
    else if chr =c "b" then put_char x08 x
    else keep_escape chr x
  else keep_escape chr x.

Definition too_many : string := "Too many fields in CSV input, expected %d, got %d in input '%s'".

(** Terminate the field in [dst], add it to the record and start the next. *)
Definition end_field (x : locals) : cmd R locals :=
  if num_field ctx <=? currfield x then lift (Throw too_many)
  else
    d ← lift (mem_write (dst x) (ptr x) [x00]);
    key ← lift (deref (fields ctx !! Z.to_nat (currfield x)) "ctx->fields[currfield]");
    type ← lift (deref (types ctx !! Z.to_nat (currfield x)) "ctx->types[currfield]");
    _ ← add_logdata_field key (cstr d) type;
    mret (Locals (st x) d 0 (currfield x + 1) (unescape x)).

(** One iteration of the loop. *)
Definition parse_char (c : byte) (x : locals) : cmd R locals :=
  if unescape x then
    x ← lift (unescape_string c x);
    mret (set_unescape false x)
  else
    match st x with
    | NX_CSV_STATE_INSIDE_FIELD =>
        if c =c quotechar ctx then mret (set_st NX_CSV_STATE_QUOTE x)
        else if c =c escapechar ctx then mret (set_unescape true x)
        else lift (put_char c x)
    | NX_CSV_STATE_QUOTE =>
        if c =c quotechar ctx then lift (put_char c (set_st NX_CSV_STATE_INSIDE_FIELD x))
        else if c =c delimiter ctx then end_field (set_st NX_CSV_STATE_START x)
        else if c =c escapechar ctx then mret (set_unescape true x)
        else if c =c " " then mret x
        else lift (Throw "Invalid CSV input: '%s'")
    | NX_CSV_STATE_START =>
        if c =c escapechar ctx then mret (set_unescape true x)
        else if ptr x =? 0 then
          if c =c " " then mret x
          else if c =c quotechar ctx then mret (set_st NX_CSV_STATE_INSIDE_FIELD x)
          else if c =c delimiter ctx then
            if num_field ctx <=? currfield x then lift (Throw too_many)
            else mret (Locals (st x) (dst x) (ptr x) (currfield x + 1) (unescape x))
          else lift (put_char c x)
        else
          if c =c delimiter ctx then end_field x
          else lift (put_char c x)
    end.

Fixpoint parse_chars (src : bytes) (x : locals) : cmd R locals :=
  match src with
  | [] => mret x
  | c :: src => x ← parse_char c x; parse_chars src x
  end.

(** After the last character. *)
Definition parse_end (x : locals) : cmd R locals :=
  match st x with
  | NX_CSV_STATE_QUOTE => end_field x
  | NX_CSV_STATE_START => if 0 <? ptr x then end_field x else mret x
  | NX_CSV_STATE_INSIDE_FIELD => lift (Throw "Invalid CSV input: '%s'")
  end.

(** [src] is the block the characters are read from; the counter is an [int]. *)
Definition parse_fields (dst src : bytes) (len : Z) : cmd R unit :=
  src ← lift (mem_read src 0 (Z.max 0 (s32 len)));
  x ← parse_chars src (Locals NX_CSV_STATE_START dst 0 0 false);
  x ← parse_end x;
  if currfield x =? num_field ctx - 1 then mret tt
  else if negb (currfield x =? num_field ctx)
  then lift (Throw "Not enough fields in CSV input, expected %d, got %d in input '%s'")
  else mret tt.

Definition nx_csv_parse (src : bytes) (len : Z) : cmd R unit :=
  len ← lift (if len =? 0 then strlen src else Ret len);
  if num_field ctx =? 0
  then lift (Throw "Cannot parse CSV input, csv parser was not properly initialized (config error?)")
  else parse_fields (malloc (len + 1)) src len.

(** ** The writer *)

(** What [escape_string] does to a character below 0x80. *)
Definition csv_escape_class (c : byte) : escaping :=
  if (c =c escapechar ctx) || ((c =c quotechar ctx) && negb (quotechar ctx =c x00)) || (c =c delimiter ctx)
  then Keep (escapechar ctx)
  else if escape_control ctx then
    if c =c x0a then Letter (escapechar ctx) "n"
    else if c =c x0d then Letter (escapechar ctx) "r"
    else if c =c x09 then Letter (escapechar ctx) "t"
    else if c =c x08 then Letter (escapechar ctx) "b"
    else NoEscape
  else NoEscape.

Definition escape_string (s : nx_string) : outcome nx_string :=
  if escapechar ctx =c x00 then Ret s
  else escape_loop csv_escape_class (Z.to_nat (len s)) 0 s.

(** The pointers [tmp] and [string] of the cleanup code. *)
Inductive pointer := Null | Live | Freed.
Record wlocals := WLocals { retval : nx_string; tmp : pointer; str : pointer }.

Definition append_ret (src : bytes) (n : Z) : cmd wlocals unit := fun x =>
  match nx_string_append (retval x) src n with
  | Ret r => (WLocals r (tmp x) (str x), Ret tt)
  | Throw e => (x, Throw e)
  | Panic e => (x, Panic e)
  | Undef e => (x, Undef e)
  end.
Definition set_tmp (p : pointer) : cmd wlocals unit := fun x => (WLocals (retval x) p (str x), Ret tt).
Definition set_str (p : pointer) : cmd wlocals unit := fun x => (WLocals (retval x) (tmp x) p, Ret tt).

(** Append the escaped copy [t], which becomes [tmp]. *)
Definition append_escaped (t : outcome nx_string) : cmd wlocals unit :=
  t ← lift t;
  _ ← set_tmp Live;
  t ← lift (escape_string t);
  _ ← append_ret (buf t) (s32 (len t));
  set_tmp Freed.

Definition append_quote : cmd wlocals unit := append_ret [quotechar ctx] 1.

Definition write_value (v : value) : cmd wlocals unit :=
  match v_type v with
  | NX_VALUE_TYPE_STRING =>
      s ← lift (as_string (v_data v));
      if 0 <? zlen s then
        _ ← (if bool_decide (quote_method ctx = NX_CSV_QUOTE_METHOD_NONE) then mret tt else append_quote);
        _ ← append_escaped (nx_string_clone (exact s));
        if bool_decide (quote_method ctx = NX_CSV_QUOTE_METHOD_NONE) then mret tt else append_quote
      else mret tt
  | _ =>
      string ← lift (nx_value_to_string v);
      match string with
      | None => mret tt
      | Some string =>
          _ ← set_str Live;
          _ ← (if bool_decide (quote_method ctx = NX_CSV_QUOTE_METHOD_ALL) then
                 _ ← append_quote;
                 _ ← append_escaped (nx_string_create (string ++ [x00]) (-1));
                 append_quote
               else append_escaped (nx_string_create (string ++ [x00]) (-1)));
          set_str Freed
      end
  end.

(** The loop over the configured fields; [first] is [currfield == 0]. *)
Fixpoint write_fields (keys : list bytes) (first : bool) (r : R) : cmd wlocals unit :=
  match keys with
  | [] => mret tt
  | key :: keys =>
      _ ← (if first then mret tt else append_ret [delimiter ctx] 1);
      value ← lift (rec_get key r);
      _ ← match value with
          | None => mret tt
          | Some v => if v_defined v =? FALSE then mret tt else write_value v
          end;
      write_fields keys false r
  end.

Definition nx_logdata_to_csv (r : R) : outcome nx_string :=
  _ ← ASSERT (0 <? num_field ctx) "ctx->num_field > 0";
  s ← nx_string_new_size 150;
  match write_fields (fields ctx) true r (WLocals s Null Null) with
  | (x, Ret _) => Ret (retval x)
  | (x, Throw e) =>
      (* free(string) and nx_string_free(tmp) when they are not NULL *)
      match str x, tmp x with
      | Freed, _ => Undef "double free of string"
      | _, Freed => Undef "double free of tmp"
      | _, _ => Throw e
      end
  | (_, Panic e) => Panic e
  | (_, Undef e) => Undef e
  end.

End csv.

(** ** Safety of the parser *)

(** A computation that returns or throws and leaves a record that denotes some
    association list. *)
Definition safe `{L : RecordLaws R} {A} (m : cmd R A) (r : R) (P : A -> Prop) : Prop :=
  exists r' o, m r = (r', o) /\ (exists al, denotes r' al) /\ ok_result o P.

Section safety.
Context `{M : Malloc} `{E : ValueEnv} {R : Type} `{L : RecordLaws R}.

Lemma safe_ret {A} (a : A) r al (P : A -> Prop) : denotes r al -> P a -> safe (mret a) r P.
Proof. intros Hr Ha. exists r, (Ret a). eauto. Qed.

Lemma safe_throw {A} e r al (P : A -> Prop) : denotes r al -> safe (lift (Throw e)) r P.
Proof. intros Hr. exists r, (Throw e). split_and!; simpl; eauto. Qed.

Lemma safe_lift {A} (o : outcome A) r al (P : A -> Prop) : denotes r al -> ok_result o P -> safe (lift o) r P.
Proof. intros Hr Ho. exists r, o. eauto. Qed.

Lemma safe_bind {A B} (m : cmd R A) (f : A -> cmd R B) r P Q :
  safe m r P -> (forall a r' al, P a -> denotes r' al -> safe (f a) r' Q) -> safe (m ≫= f) r Q.
Proof.
  intros (r' & o & Hm & (al & Hr) & Ho) Hf. destruct o as [a|e| |]; simpl in Ho; try contradiction.
  - destruct (Hf a r' al Ho Hr) as (r'' & o' & Hf' & Hr'' & Ho'). exists r'', o'. split_and!; auto.
    by erewrite cmd_bind_Ret by exact Hm.
  - exists r', (Throw e). split; [by apply cmd_bind_Throw|]. split; [eauto|done].
Qed.

Variable ctx : nx_csv_ctx.
Hypothesis keys_ok : Forall (fun k => strcasecmp_eq k Logdata.raw_key = false) (fields ctx).
Hypothesis types_ok : Forall (fun t => default NX_VALUE_TYPE_STRING t = NX_VALUE_TYPE_STRING) (types ctx).
Hypothesis types_len : length (types ctx) = length (fields ctx).

Lemma new_string_safe s : no_nul s -> zlen s < 2 ^ 31 ->
  ok_result (nx_value_new_string s) (fun v => v = Logdata.str_value s /\ zlen s <= string_limit).
Proof.
  intros Hn Hl. unfold nx_value_new_string. destruct (Z.le_gt_cases (zlen s) string_limit) as [Hs|Hs].
  - destruct (nx_string_create_cstr s Hn Hs) as (x & -> & Hx). simpl. by rewrite (str_rep_content _ _ Hx).
  - unfold nx_string_create. simpl (-1 <? 0). rewrite strlen_lit by done. cbn [fmap outcome_fmap mbind outcome_bind].
    rewrite s32_small, (proj2 (Z.ltb_lt (-1) 0)) by lia. cbn [mbind outcome_bind].
    by rewrite (proj2 (Z.ltb_lt string_limit _)).
Qed.

Lemma add_field_safe key s t r al :
  denotes r al -> strcasecmp_eq key Logdata.raw_key = false -> default NX_VALUE_TYPE_STRING t = NX_VALUE_TYPE_STRING ->
  no_nul s -> zlen s < 2 ^ 31 -> safe (add_logdata_field ctx key s t) r (fun _ => True).
Proof.
  intros Hr Hk Ht Hn Hl. unfold add_logdata_field. rewrite Ht.
  apply safe_bind with (P := fun v => storable v).
  - eapply safe_lift; [exact Hr|]. case_bool_decide; [apply undefined_storable|].
    eapply ok_result_mono; [|exact (new_string_safe s Hn Hl)]. intros v [-> Hs]. by apply string_storable.
  - intros v r' al' Hv Hr'. assert (Logdata.settable key v) as Hset by (intros Hraw; rewrite Hk in Hraw; discriminate).
    destruct (rec_set_ok r' al' key v Hr' Hset Hv) as (r2 & Hrun & Hr2).
    exists r2, (Ret tt). split_and!; simpl; eauto.
Qed.

(** The invariant of the loop after [k] of [n] characters: the field collected
    so far, and a pending escape character, are not longer than the input. *)
Definition linv (n k : Z) (x : locals) : Prop :=
  zlen (dst x) = n + 1 /\ 0 <= ptr x /\ ptr x + (if unescape x then 1 else 0) <= k /\ 0 <= currfield x.

Lemma linv_ptr n k x : linv n k x -> ptr x <= k.
Proof. destruct x as [? ? p ? u]. unfold linv. simpl. destruct u; lia. Qed.

Lemma put_char_ok c x : 0 <= ptr x < zlen (dst x) ->
  ok_result (put_char c x) (fun y => zlen (dst y) = zlen (dst x) /\ ptr y = ptr x + 1 /\
    currfield y = currfield x /\ unescape y = unescape x).
Proof.
  intros Hp. unfold put_char. destruct (mem_write (dst x) (ptr x) [c]) as [d|e|e|e] eqn:Ew.
  - simpl. by rewrite (mem_write_length _ _ _ _ Ew).
  - unfold mem_write in Ew. by destruct (_ && _).
  - unfold mem_write in Ew. by destruct (_ && _).
  - unfold mem_write in Ew. destruct (_ && _) eqn:Eb; [done|]. apply andb_false_iff in Eb as [Eb|Eb]; tests; simpl in *; lia.
Qed.

Lemma unescape_string_ok c x : 0 <= ptr x -> ptr x + 1 < zlen (dst x) ->
  ok_result (unescape_string ctx c x) (fun y => zlen (dst y) = zlen (dst x) /\ ptr x <= ptr y <= ptr x + 2 /\
    currfield y = currfield x).
Proof.
  intros H0 H1.
  assert (forall c, ok_result (put_char c x) (fun y => zlen (dst y) = zlen (dst x) /\ ptr x <= ptr y <= ptr x + 2 /\
    currfield y = currfield x)) as Hput.
  { intros c'. eapply ok_result_mono; [|apply put_char_ok; lia]. simpl. intros y (-> & -> & -> & _). lia. }
  assert (ok_result (keep_escape ctx c x) (fun y => zlen (dst y) = zlen (dst x) /\ ptr x <= ptr y <= ptr x + 2 /\
    currfield y = currfield x)) as Hkeep.
  { unfold keep_escape. eapply ok_result_bind with (P := fun y => zlen (dst y) = zlen (dst x) /\
      ptr x <= ptr y <= ptr x + 1 /\ currfield y = currfield x).
    - case_test; [|simpl; auto with lia]. eapply ok_result_mono; [|apply put_char_ok; lia].
      simpl. intros y (-> & -> & -> & _). lia.
    - intros y (Hd & Hp & Hc). eapply ok_result_mono; [|apply put_char_ok; lia].
      simpl. intros z (-> & -> & -> & _). lia. }
  unfold unescape_string. repeat case_test; auto.
Qed.

Lemma end_field_ok n k x r al :
  linv n k x -> k <= n -> n + 1 < 2 ^ 31 -> denotes r al ->
  safe (end_field ctx x) r (fun y => zlen (dst y) = n + 1 /\ ptr y = 0 /\ 0 <= currfield y /\ unescape y = unescape x).
Proof.
  intros Hx Hn H31 Hr. pose proof (linv_ptr _ _ _ Hx) as Hpk. destruct Hx as (Hd & Hp & _ & Hc). unfold end_field. case_test; [by eapply safe_throw|].
  unfold num_field in *. destruct (lookup_lt_is_Some_2 (fields ctx) (Z.to_nat (currfield x))) as [key Hkey]; [lia|].
  destruct (lookup_lt_is_Some_2 (types ctx) (Z.to_nat (currfield x))) as [t Ht]; [lia|]. rewrite Hkey, Ht.
  apply safe_bind with (P := fun d => length d = length (dst x)).
  { eapply safe_lift; [exact Hr|]. apply mem_write_ok; simpl; lia. }
  intros d r1 al1 Hd1 Hr1. apply safe_bind with (P := eq key); [by eapply safe_ret|]. intros ? r2 al2 <- Hr2.
  apply safe_bind with (P := eq t); [by eapply safe_ret|]. intros ? r3 al3 <- Hr3.
  apply safe_bind with (P := fun _ => True).
  { pose proof (cstr_length d). eapply add_field_safe; [exact Hr3| | |apply no_nul_cstr|lia].
    - eapply Forall_lookup_1 in Hkey; [|exact keys_ok]. done.
    - eapply Forall_lookup_1 in Ht; [|exact types_ok]. done. }
  intros _ r4 al4 _ Hr4. eapply safe_ret; [exact Hr4|]. simpl. split_and!; auto; lia.
Qed.

Lemma parse_char_ok n k c x r al :
  linv n k x -> k < n -> n + 1 < 2 ^ 31 -> denotes r al -> safe (parse_char ctx c x) r (linv n (k + 1)).
Proof.
  intros Hx Hk H31 Hr. pose proof (linv_ptr _ _ _ Hx). pose proof Hx as (Hd & Hp & Hpk & Hc). unfold parse_char.
  assert (unescape x = false -> forall s, safe (lift (put_char c (set_st s x))) r (linv n (k + 1))) as Hput.
  { intros Hu s. rewrite Hu in Hpk. eapply safe_lift; [exact Hr|].
    eapply ok_result_mono; [|apply (put_char_ok c (set_st s x)); simpl; lia].
    simpl. intros y (Hy1 & Hy2 & Hy3 & Hy4). unfold linv. rewrite Hy4, Hu. lia. }
  assert (forall s, safe (mret (set_st s x)) r (linv n (k + 1))) as Hst.
  { intros s. eapply safe_ret; [exact Hr|]. pose proof (linv_ptr _ _ _ Hx). unfold linv. simpl. destruct (unescape x); lia. }
  assert (unescape x = false -> forall s, safe (end_field ctx (set_st s x)) r (linv n (k + 1))) as Hend.
  { intros Hu s. assert (linv n k (set_st s x)) as Hx' by done.
    destruct (end_field_ok n k (set_st s x) r al Hx') as (r' & o & Hrun & Hr' & Ho); [lia|done|done|].
    exists r', o. split_and!; auto. eapply ok_result_mono; [|exact Ho].
    simpl. intros y (Hy1 & Hy2 & Hy3 & Hy4). unfold linv. rewrite Hy4, Hu. lia. }
  assert (x = set_st (st x) x) as Heta by (by destruct x).
  destruct (unescape x) eqn:Hu.
  { eapply safe_bind; [eapply safe_lift; [exact Hr|apply unescape_string_ok; lia]|].
    intros y r' al' (Hy1 & Hy2 & Hy3) Hr'. eapply safe_ret; [exact Hr'|]. unfold linv. simpl. lia. }
  assert (safe (mret (set_unescape true x)) r (linv n (k + 1))) as Hesc.
  { eapply safe_ret; [exact Hr|]. unfold linv. simpl. lia. }
  assert (safe (mret x) r (linv n (k + 1))) as Hsame by (rewrite Heta; apply Hst).
  assert (safe (lift (put_char c x)) r (linv n (k + 1))) as Hput' by (rewrite Heta; by apply Hput).
  assert (safe (end_field ctx x) r (linv n (k + 1))) as Hend' by (rewrite Heta; by apply Hend).
  destruct (st x); repeat case_test; auto; try (by eapply safe_throw).
  eapply safe_ret; [exact Hr|]. unfold linv. simpl. destruct (unescape x); lia.
Qed.

Lemma parse_chars_ok n k src x r al :
  linv n k x -> k + zlen src <= n -> n + 1 < 2 ^ 31 -> denotes r al ->
  safe (parse_chars ctx src x) r (linv n (k + zlen src)).
Proof.
  revert k x r al. induction src as [|c src IH]; intros k x r al Hx Hk H31 Hr.
  - eapply safe_ret; [exact Hr|]. simpl. by rewrite Z.add_0_r.
  - rewrite length_cons in Hk. cbn [parse_chars]. eapply safe_bind; [eapply parse_char_ok; eauto; lia|].
    intros y r' al' Hy Hr'. rewrite length_cons. replace (k + Z.of_nat (S (length src))) with (k + 1 + zlen src) by lia.
    eapply IH; eauto. lia.
Qed.

Lemma parse_fields_ok d src n r al :
  zlen d = n + 1 -> n = zlen src -> n + 1 < 2 ^ 31 -> denotes r al ->
  safe (parse_fields ctx d src n) r (fun _ => True).
Proof.
  intros Hd Hn H31 Hr. unfold parse_fields. rewrite s32_small, Z.max_r by lia.
  eapply safe_bind; [eapply safe_lift; [exact Hr|apply mem_read_ok; lia]|]. intros s r1 al1 Hs Hr1. simpl in Hs.
  eapply safe_bind; [eapply (parse_chars_ok n 0); eauto; [unfold linv; simpl; lia|lia]|]. intros x r2 al2 Hx Hr2.
  rewrite Z.add_0_l, Hs in Hx. eapply safe_bind with (P := fun _ => True).
  - assert (safe (end_field ctx x) r2 (fun _ => True)) as Hend.
    { destruct (end_field_ok n n x r2 al2 Hx) as (r' & o & Hrun & Hr' & Ho); [lia|done|done|].
      exists r', o. split_and!; auto. eapply ok_result_mono; [|exact Ho]. done. }
    unfold parse_end. destruct (st x); [|by eapply safe_throw|done]. case_test; [done|by eapply safe_ret].
  - intros y r3 al3 _ Hr3. repeat case_test; (by eapply safe_ret) || (by eapply safe_throw).
Qed.

End safety.

(** ** Round trip *)

(** The characters of a context that make quoting unambiguous. *)
Definition good_ctx (ctx : nx_csv_ctx) : Prop :=
  escapechar ctx <> x00 /\ escapechar ctx <> quotechar ctx /\ quotechar ctx <> delimiter ctx /\
  quotechar ctx <> " "%byte /\ bz (escapechar ctx) < 128 /\ bz (quotechar ctx) < 128 /\
  escapechar ctx ∉ lit "nrtb" /\ quotechar ctx ∉ lit "nrtb".

(** A quoted value, and the line of several values. *)
Definition quoted (ctx : nx_csv_ctx) (c : bytes) : bytes :=
  quotechar ctx :: (c ≫= escape_char (csv_escape_class ctx)) ++ [quotechar ctx].

Fixpoint csv_line (ctx : nx_csv_ctx) (first : bool) (cs : list bytes) : bytes :=
  match cs with
  | [] => []
  | c :: cs => (if first then [] else [delimiter ctx]) ++ quoted ctx c ++ csv_line ctx false cs
  end.

(** The list after setting the fields. *)
Definition set_strings (keys cs : list bytes) (al : Logdata.alist) : Logdata.alist :=
  foldl (fun al kc => Logdata.alist_set (fst kc) (Logdata.str_value (snd kc)) al) al (zip keys cs).

(** A string that survives: not empty, no NUL, no delimiter. *)
Definition plain_string (ctx : nx_csv_ctx) (c : bytes) : Prop :=
  c <> [] /\ no_nul c /\ delimiter ctx ∉ c /\ undefvalue ctx <> Some c /\ zlen c < string_limit.

Section roundtrip.
Context `{M : Malloc} `{E : ValueEnv} {R : Type} `{L : RecordLaws R}.
Variable ctx : nx_csv_ctx.
Hypothesis good : good_ctx ctx.

Lemma put_at s w D k u c : zlen w < zlen D ->
  put_char c (Locals s (w ++ drop (length w) D) (zlen w) k u) =
    Ret (Locals s ((w ++ [c]) ++ drop (length (w ++ [c])) D) (zlen (w ++ [c])) k u).
Proof.
  intros Hw. unfold put_char. cbn [dst ptr st currfield unescape].
  rewrite write_at_ptr by (simpl; lia). cbn [mbind outcome_bind]. do 2 f_equal. rewrite (length_app w). simpl. lia.
Qed.

Lemma inside_char c w D k rest r :
  c <> x00 -> c <> delimiter ctx -> zlen w < zlen D ->
  parse_chars ctx (escape_char (csv_escape_class ctx) c ++ rest)
    (Locals NX_CSV_STATE_INSIDE_FIELD (w ++ drop (length w) D) (zlen w) k false) r =
  parse_chars ctx rest
    (Locals NX_CSV_STATE_INSIDE_FIELD ((w ++ [c]) ++ drop (length (w ++ [c])) D) (zlen (w ++ [c])) k false) r.
Proof.
  intros H0 Hdel Hw. destruct good as (Hesc & Heq & Hqd & _ & He128 & Hq128 & Hel & Hql).
  assert (forall c', zlen w < zlen D -> lift (put_char c' (Locals NX_CSV_STATE_INSIDE_FIELD (w ++ drop (length w) D) (zlen w) k false)) r =
    (r, Ret (Locals NX_CSV_STATE_INSIDE_FIELD ((w ++ [c']) ++ drop (length (w ++ [c'])) D) (zlen (w ++ [c'])) k false))) as Hput.
  { intros c' Hc'. unfold lift. by rewrite put_at. }
  assert (c <> quotechar ctx -> c <> escapechar ctx -> forall rest',
    parse_chars ctx ([c] ++ rest') (Locals NX_CSV_STATE_INSIDE_FIELD (w ++ drop (length w) D) (zlen w) k false) r =
    parse_chars ctx rest' (Locals NX_CSV_STATE_INSIDE_FIELD ((w ++ [c]) ++ drop (length (w ++ [c])) D) (zlen (w ++ [c])) k false) r) as Hlit.
  { intros Hq He rest'. cbn [app parse_chars]. unfold parse_char. cbn [unescape st].
    rewrite (proj2 (beq_false c _)), (proj2 (beq_false c _)) by done. by erewrite cmd_bind_Ret by (by apply Hput). }
  assert (forall l c', unescape_string ctx l (Locals NX_CSV_STATE_INSIDE_FIELD (w ++ drop (length w) D) (zlen w) k true) =
      put_char c' (Locals NX_CSV_STATE_INSIDE_FIELD (w ++ drop (length w) D) (zlen w) k true) ->
    parse_chars ctx ([escapechar ctx; l] ++ rest) (Locals NX_CSV_STATE_INSIDE_FIELD (w ++ drop (length w) D) (zlen w) k false) r =
    parse_chars ctx rest (Locals NX_CSV_STATE_INSIDE_FIELD ((w ++ [c']) ++ drop (length (w ++ [c'])) D) (zlen (w ++ [c'])) k false) r) as Hun.
  { intros l c' Hl. cbn [app parse_chars].
    assert (forall x, unescape x = false -> st x = NX_CSV_STATE_INSIDE_FIELD ->
      parse_char ctx (escapechar ctx) x r = (r, Ret (set_unescape true x))) as Hpe.
    { intros x Hu Hs. unfold parse_char. rewrite Hu, Hs. by rewrite (proj2 (beq_false (escapechar ctx) _)), beq_refl. }
    erewrite cmd_bind_Ret by (by apply Hpe). unfold set_unescape. cbn [st dst ptr currfield].
    unfold parse_char. cbn [unescape]. rewrite Hl, put_at by done.
    by erewrite cmd_bind_Ret by reflexivity. }
  unfold escape_char. rewrite high_bit. destruct (128 <=? bz c) eqn:E128; tests.
  { apply Hlit; intros ->; lia. }
  unfold csv_escape_class.
  destruct ((c =c escapechar ctx) || (c =c quotechar ctx) && negb (quotechar ctx =c x00) || (c =c delimiter ctx)) eqn:Ek.
  - assert (c = escapechar ctx \/ c = quotechar ctx) as Hc.
    { apply orb_true_iff in Ek as [Ek|Ek]; [|by tests]. apply orb_true_iff in Ek as [Ek|Ek]; tests; auto. }
    apply Hun. unfold unescape_string, keep_escape.
    assert (c ∉ lit "nrtb") as Hcl by (destruct Hc; subst; done).
    assert (negb ((c =c escapechar ctx) || (c =c quotechar ctx)) = false) as ->.
    { apply negb_false_iff, orb_true_iff. destruct Hc; [left|right]; by apply beq_true. }
    destruct (escape_control ctx); [|done].
    rewrite !(proj2 (beq_false c _)); [done|..]; intros ->; apply Hcl; vm_compute; set_solver.
  - assert (c <> escapechar ctx /\ c <> quotechar ctx) as [Hce Hcq].
    { apply orb_false_iff in Ek as [Ek _]. apply orb_false_iff in Ek as [Ek1 Ek2]. tests. split; [done|].
      intros ->. rewrite beq_refl in Ek2. simpl in Ek2. by tests. }
    destruct (escape_control ctx) eqn:Ectl; [|by apply Hlit].
    destruct (c =c x0a) eqn:C1; [tests; subst c; apply (Hun "n"%byte); unfold unescape_string; by rewrite Ectl|].
    destruct (c =c x0d) eqn:C2; [tests; subst c; apply (Hun "r"%byte); unfold unescape_string; by rewrite Ectl|].
    destruct (c =c x09) eqn:C3; [tests; subst c; apply (Hun "t"%byte); unfold unescape_string; by rewrite Ectl|].
    destruct (c =c x08) eqn:C4; [tests; subst c; apply (Hun "b"%byte); unfold unescape_string; by rewrite Ectl|].
    by apply Hlit.
Qed.

Lemma inside_string c w D k rest r :
  no_nul c -> delimiter ctx ∉ c -> zlen w + zlen c <= zlen D ->
  parse_chars ctx ((c ≫= escape_char (csv_escape_class ctx)) ++ rest)
    (Locals NX_CSV_STATE_INSIDE_FIELD (w ++ drop (length w) D) (zlen w) k false) r =
  parse_chars ctx rest
    (Locals NX_CSV_STATE_INSIDE_FIELD ((w ++ c) ++ drop (length (w ++ c)) D) (zlen (w ++ c)) k false) r.
Proof.
  unfold no_nul. revert w. induction c as [|b c IH]; intros w Hn Hd Hw; [by rewrite app_nil_r|].
  rewrite bind_cons, <- app_assoc. rewrite length_cons in Hw.
  rewrite inside_char by (lia || set_solver). rewrite IH by (rewrite ?length_app; simpl; lia || set_solver).
  by rewrite <- (app_assoc w).
Qed.

(** A quoted value read at the start of a field. *)
Lemma parse_quoted c D k rest r :
  no_nul c -> delimiter ctx ∉ c -> zlen c <= zlen D ->
  parse_chars ctx (quoted ctx c ++ rest) (Locals NX_CSV_STATE_START D 0 k false) r =
  parse_chars ctx rest (Locals NX_CSV_STATE_QUOTE (c ++ drop (length c) D) (zlen c) k false) r.
Proof.
  intros Hn Hd Hl. destruct good as (Hesc & Heq & Hqd & Hsp & _). unfold quoted. cbn [app parse_chars].
  assert (parse_char ctx (quotechar ctx) (Locals NX_CSV_STATE_START D 0 k false) r =
    (r, Ret (Locals NX_CSV_STATE_INSIDE_FIELD D 0 k false))) as Hq.
  { unfold parse_char. cbn [unescape st ptr]. rewrite (proj2 (beq_false (quotechar ctx) (escapechar ctx))) by done.
    simpl (0 =? 0). cbv iota. by rewrite (proj2 (beq_false (quotechar ctx) " ")), beq_refl by done. }
  erewrite cmd_bind_Ret by exact Hq. rewrite <- app_assoc.
  etransitivity; [exact (inside_string c [] D k ([quotechar ctx] ++ rest) r Hn Hd ltac:(simpl; lia))|].
  cbn [app parse_chars]. unfold parse_char. cbn [unescape st]. rewrite beq_refl.
  by erewrite cmd_bind_Ret by reflexivity.
Qed.

Lemma end_field_rep c D k s r al key t :
  fields ctx !! Z.to_nat k = Some key -> types ctx !! Z.to_nat k = Some t ->
  default NX_VALUE_TYPE_STRING t = NX_VALUE_TYPE_STRING -> strcasecmp_eq key Logdata.raw_key = false ->
  plain_string ctx c -> zlen c < zlen D -> 0 <= k -> denotes r al ->
  exists r' D', end_field ctx (Locals s (c ++ drop (length c) D) (zlen c) k false) r =
      (r', Ret (Locals s D' 0 (k + 1) false)) /\ length D' = length D /\
    denotes r' (Logdata.alist_set key (Logdata.str_value c) al).
Proof.
  intros Hkey Ht Hty Hraw (Hne & Hn & _ & Hun & Hlim) Hl Hk Hr. unfold end_field. cbn [currfield dst ptr st unescape].
  pose proof (lookup_lt_Some _ _ _ Hkey) as Hlt. unfold num_field. rewrite (proj2 (Z.leb_gt _ _)) by lia.
  rewrite write_at_ptr by (simpl; lia). erewrite cmd_bind_Ret by reflexivity.
  rewrite Hkey, Ht. do 2 (erewrite cmd_bind_Ret by reflexivity). rewrite <- app_assoc. simpl app. rewrite cstr_app_nul by done.
  unfold add_logdata_field. rewrite Hty, bool_decide_false by done.
  destruct (nx_string_create_cstr c Hn) as (x & Hcr & Hx); [lia|].
  assert (nx_value_from_string c NX_VALUE_TYPE_STRING = Ret (Logdata.str_value c)) as ->.
  { unfold nx_value_from_string, nx_value_new_string. rewrite Hcr. simpl. by rewrite (str_rep_content _ _ Hx). }
  destruct (rec_set_ok r al key (Logdata.str_value c) Hr) as (r' & Hset & Hr').
  { intros Hk'. rewrite Hraw in Hk'. discriminate. }
  { apply string_storable. lia. }
  eexists r', _. split.
  { erewrite cmd_bind_Ret; [reflexivity|]. erewrite cmd_bind_Ret by reflexivity. exact Hset. }
  split; [|done]. rewrite length_app, length_cons, length_drop, length_app. simpl. lia.
Qed.

(** The rest of the line after a quoted value. *)
Lemma parse_rest cs keys c D k r al key t :
  drop (Z.to_nat k) (fields ctx) = key :: keys -> length keys = length cs ->
  types ctx !! Z.to_nat k = Some t -> length (types ctx) = length (fields ctx) ->
  Forall (fun t => default NX_VALUE_TYPE_STRING t = NX_VALUE_TYPE_STRING) (types ctx) ->
  Forall (fun k => strcasecmp_eq k Logdata.raw_key = false) (fields ctx) ->
  Forall (plain_string ctx) (c :: cs) -> Forall (fun c => zlen c < zlen D) (c :: cs) -> 0 <= k -> denotes r al ->
  exists r' x, (x ← parse_chars ctx (csv_line ctx false cs)
                    (Locals NX_CSV_STATE_QUOTE (c ++ drop (length c) D) (zlen c) k false);
                parse_end ctx x) r = (r', Ret x) /\ currfield x = k + 1 + zlen cs /\
    denotes r' (set_strings (key :: keys) (c :: cs) al).
Proof.
  destruct good as (Hesc & Heq & Hqd & _).
  revert keys c D k r al key t. induction cs as [|c2 cs IH];
    intros keys c D k r al key t Hdrop Hlen Ht Htl Htys Hraw Hp Hsz Hk Hr.
  all: apply Forall_cons in Hp as [Hpc Hp]; apply Forall_cons in Hsz as [Hsc Hsz].
  all: assert (fields ctx !! Z.to_nat k = Some key) as Hkey
    by (rewrite <- (Nat.add_0_r (Z.to_nat k)), <- lookup_drop, Hdrop; done).
  all: assert (default NX_VALUE_TYPE_STRING t = NX_VALUE_TYPE_STRING) as Hty
    by (eapply (Forall_lookup_1 _ _ _ _ Htys Ht)).
  all: assert (strcasecmp_eq key Logdata.raw_key = false) as Hrk by (eapply (Forall_lookup_1 _ _ _ _ Hraw Hkey)).
  - destruct keys; [|done]. destruct (end_field_rep c D k NX_CSV_STATE_QUOTE r al key t) as (r' & D' & Hend & _ & Hr'); auto.
    exists r', (Locals NX_CSV_STATE_QUOTE D' 0 (k + 1) false). split_and!; [|simpl; lia|done].
    by erewrite cmd_bind_Ret by reflexivity.
  - destruct keys as [|key2 keys]; [done|].
    destruct (end_field_rep c D k NX_CSV_STATE_START r al key t) as (r1 & D1 & Hend & HD1 & Hr1); auto.
    destruct (lookup_lt_is_Some_2 (types ctx) (Z.to_nat (k + 1))) as [t2 Ht2].
    { rewrite Htl. assert (length (drop (Z.to_nat k) (fields ctx)) = S (S (length keys))) as Hl by (by rewrite Hdrop).
      rewrite length_drop in Hl. lia. }
    destruct (IH keys c2 D1 (k + 1) r1 (Logdata.alist_set key (Logdata.str_value c) al) key2 t2) as (r' & x & Hrun & Hcf & Hr');
      auto; try lia; [|by rewrite HD1|].
    { replace (Z.to_nat (k + 1)) with (Z.to_nat k + 1)%nat by lia. by rewrite <- drop_drop, Hdrop. }
    exists r', x. split_and!; [|rewrite length_cons; lia|done]. cbn [csv_line app parse_chars].
    assert (parse_char ctx (delimiter ctx) (Locals NX_CSV_STATE_QUOTE (c ++ drop (length c) D) (zlen c) k false) r =
      (r1, Ret (Locals NX_CSV_STATE_START D1 0 (k + 1) false))) as Hdel.
    { unfold parse_char. cbn [unescape st]. rewrite (proj2 (beq_false (delimiter ctx) (quotechar ctx))), beq_refl by done.
      exact Hend. }
    unfold mbind, cmd_bind in Hrun |- *. rewrite Hdel.
    apply Forall_cons in Hp as [(_ & Hn2 & Hd2 & _) _]. apply Forall_cons in Hsz as [Hsc2 _].
    rewrite parse_quoted by (auto; rewrite ?HD1; lia). exact Hrun.
Qed.

Lemma parse_line cs keys n r al :
  fields ctx = keys -> length keys = length cs -> cs <> [] -> length (types ctx) = length (fields ctx) ->
  Forall (fun t => default NX_VALUE_TYPE_STRING t = NX_VALUE_TYPE_STRING) (types ctx) ->
  Forall (fun k => strcasecmp_eq k Logdata.raw_key = false) (fields ctx) ->
  Forall (plain_string ctx) cs -> n = zlen (csv_line ctx true cs) -> n < 2 ^ 31 -> denotes r al ->
  exists r', nx_csv_parse ctx (csv_line ctx true cs) n r = (r', Ret tt) /\ denotes r' (set_strings keys cs al).
Proof.
  intros Hkeys Hlen Hne Htl Htys Hraw Hp Hn H31 Hr. destruct cs as [|c cs]; [done|]. destruct keys as [|key keys]; [done|].
  assert (forall first l, Forall (fun c => zlen c + 2 <= zlen (csv_line ctx first l)) l) as Hsz.
  { intros first l. revert first. induction l as [|c0 l IHl]; intros first; constructor.
    - cbn [csv_line]. unfold quoted. rewrite !length_app, length_cons, length_app. simpl.
      pose proof (escape_length (csv_escape_class ctx) c0). destruct first; simpl; lia.
    - eapply Forall_impl; [exact (IHl false)|]. intros c1 Hc1. simpl in Hc1. cbn [csv_line].
      rewrite !length_app. lia. }
  specialize (Hsz true (c :: cs)). rewrite <- Hn in Hsz.
  assert (2 < n) as Hn2.
  { apply Forall_cons in Hsz as [Hc _]. apply Forall_cons in Hp as [(Hc0 & _) _]. destruct c; [done|]. rewrite length_cons in Hc. lia. }
  destruct (lookup_lt_is_Some_2 (types ctx) 0) as [t Ht]; [rewrite Htl, Hkeys; simpl; lia|].
  pose proof (malloc_length (n + 1) ltac:(lia)) as Lm.
  destruct (parse_rest cs keys c (malloc (n + 1)) 0 r al key t) as (r' & x & Hrun & Hcf & Hr');
    auto; try (simpl in Hlen; lia); try (eapply Forall_impl; [exact Hsz|]; simpl; lia).
  exists r'. split; [|done]. unfold nx_csv_parse. rewrite (proj2 (Z.eqb_neq n 0)) by lia.
  erewrite cmd_bind_Ret by reflexivity. unfold num_field. rewrite (proj2 (Z.eqb_neq _ 0)) by (rewrite Hkeys, length_cons; lia).
  unfold parse_fields. rewrite s32_small, Z.max_r by lia.
  rewrite (mem_read_at (csv_line ctx true (c :: cs)) 0 n [] (csv_line ctx true (c :: cs))) by (reflexivity || lia).
  erewrite cmd_bind_Ret by reflexivity. rewrite take_ge by lia. cbn [csv_line app].
  apply Forall_cons in Hp as [(_ & Hnn & Hd & _) _]. apply Forall_cons in Hsz as [Hsc _].
  unfold mbind, cmd_bind in Hrun |- *. rewrite parse_quoted by (auto; lia).
  destruct (parse_chars ctx (csv_line ctx false cs) _ r) as [r1 [x1|e|e|e]]; try discriminate. rewrite Hrun.
  rewrite Hcf. unfold num_field. rewrite Hkeys. simpl in Hlen. rewrite (proj2 (Z.eqb_neq _ _)) by (rewrite length_cons; lia).
  rewrite (proj2 (Z.eqb_eq _ _)) by (rewrite length_cons; lia). done.
Qed.

(** *** The writer *)

Lemma append_ret_rep x t src n :
  str_rep (retval x) t -> 0 <= n <= zlen src -> zlen t + n + 1 <= string_limit ->
  exists s', append_ret src n x = (WLocals s' (tmp x) (str x), Ret tt) /\ str_rep s' (t ++ take (Z.to_nat n) src).
Proof.
  intros Ht Hn Hl. unfold append_ret. destruct (nx_string_append_rep (retval x) t src n Ht Hn) as (s' & -> & Hs').
  exists s'. split; [done|]. by rewrite spec_append_fits in Hs' by (rewrite length_take; lia).
Qed.

Lemma escape_string_rep s c :
  str_rep s c -> zlen (c ≫= escape_char (csv_escape_class ctx)) + 1 <= string_limit ->
  exists s', escape_string ctx s = Ret s' /\ str_rep s' (c ≫= escape_char (csv_escape_class ctx)).
Proof.
  intros Hs Hl. destruct good as (Hesc & _). unfold escape_string. rewrite (proj2 (beq_false _ _)) by done.
  pose proof Hs as (_ & _ & _ & Hlen & _). rewrite Hlen, Nat2Z.id. by apply (escape_loop_rep _ s [] c).
Qed.

Lemma write_string_rep c x t :
  quote_method ctx <> NX_CSV_QUOTE_METHOD_NONE -> c <> [] -> zlen c < string_limit ->
  str_rep (retval x) t -> zlen t + zlen (quoted ctx c) + 1 <= string_limit ->
  exists s', write_value ctx (Logdata.str_value c) x = (WLocals s' Freed (str x), Ret tt) /\ str_rep s' (t ++ quoted ctx c).
Proof.
  intros Hq Hne Hc Ht Hl. unfold write_value, quoted in *. cbn [Logdata.str_value v_type v_data].
  rewrite length_cons, length_app in Hl. simpl (length [_]) in Hl. set (e := c ≫= escape_char (csv_escape_class ctx)) in *.
  erewrite cmd_bind_Ret by reflexivity. rewrite (proj2 (Z.ltb_lt 0 (zlen c))) by (destruct c; [done|rewrite length_cons; lia]).
  rewrite bool_decide_false by done. unfold append_quote.
  destruct (append_ret_rep x t [quotechar ctx] 1 Ht) as (s1 & Hr1 & Hs1); [simpl; lia|lia|].
  erewrite cmd_bind_Ret by exact Hr1.
  destruct (nx_string_clone_rep (exact c) c) as (cl & Hcl & Hclr); [apply exact_rep; unfold string_limit in *; lia|done|].
  destruct (escape_string_rep cl c Hclr) as (es & Hes & Hesr); [fold e; lia|]. fold e in Hesr.
  pose proof Hesr as (_ & (rest & Hbuf) & _ & Hlen & _). simpl in Hs1.
  destruct (append_ret_rep (WLocals s1 Live (str x)) (t ++ [quotechar ctx]) (buf es) (s32 (len es)) Hs1) as (s2 & Hr2 & Hs2).
  { rewrite Hlen, s32_small, Hbuf, length_app by (unfold string_limit in *; lia). lia. }
  { rewrite Hlen, s32_small, length_app by (unfold string_limit in *; lia). simpl (length [_]). lia. }
  assert (append_escaped ctx (nx_string_clone (exact c)) (WLocals s1 (tmp x) (str x)) = (WLocals s2 Freed (str x), Ret tt)) as Hae.
  { unfold append_escaped. rewrite Hcl. do 2 (erewrite cmd_bind_Ret by reflexivity). rewrite Hes.
    erewrite cmd_bind_Ret by reflexivity. by erewrite cmd_bind_Ret by exact Hr2. }
  erewrite cmd_bind_Ret by exact Hae.
  rewrite Hlen, s32_small, Nat2Z.id, Hbuf, take_app_length in Hs2 by (unfold string_limit in *; lia).
  destruct (append_ret_rep (WLocals s2 Freed (str x)) _ [quotechar ctx] 1 Hs2) as (s3 & Hr3 & Hs3).
  { simpl. lia. }
  { rewrite !length_app. simpl (length [_]). lia. }
  exists s3. split; [exact Hr3|]. simpl in Hs3. by rewrite <- !app_assoc in Hs3.
Qed.

Lemma write_fields_rep keys cs first r al x t :
  quote_method ctx <> NX_CSV_QUOTE_METHOD_NONE -> denotes r al ->
  Forall2 (fun key c => Logdata.alist_get key al = Some (Logdata.str_value c)) keys cs -> Forall (plain_string ctx) cs ->
  str_rep (retval x) t -> zlen t + zlen (csv_line ctx first cs) + 1 <= string_limit ->
  exists x', write_fields ctx keys first r x = (x', Ret tt) /\ str_rep (retval x') (t ++ csv_line ctx first cs).
Proof.
  intros Hq Hr HF. revert first x t. induction HF as [|key c keys cs Hget HF IH]; intros first x t Hp Ht Hl.
  - exists x. rewrite app_nil_r. done.
  - apply Forall_cons in Hp as [(Hne & _ & _ & _ & Hc) Hp]. cbn [csv_line write_fields] in *. rewrite !length_app in Hl.
    set (dl := if first then [] else [delimiter ctx]) in *.
    assert (exists s1, (if first then mret tt else append_ret [delimiter ctx] 1) x = (WLocals s1 (tmp x) (str x), Ret tt) /\
      str_rep s1 (t ++ dl)) as (s1 & Hr1 & Hs1).
    { destruct first; [exists (retval x); destruct x; split; [done|]; by rewrite app_nil_r|].
      simpl in Hl. apply append_ret_rep; simpl; auto; lia. }
    erewrite cmd_bind_Ret by exact Hr1.
    destruct (rec_get_ok r al key Hr) as (o & Hg & Ho). rewrite Hget in Ho. destruct Ho as (b & -> & (Hbt & Hbd & Hb)).
    simpl in Hb. rewrite (Hb eq_refl) in Hg. rewrite Hg. erewrite cmd_bind_Ret by reflexivity. simpl (v_defined _ =? FALSE). cbv iota.
    destruct (write_string_rep c (WLocals s1 (tmp x) (str x)) (t ++ dl) Hq Hne Hc Hs1) as (s2 & Hr2 & Hs2).
    { rewrite length_app. lia. }
    erewrite cmd_bind_Ret by exact Hr2.
    destruct (IH false (WLocals s2 Freed (str x)) ((t ++ dl) ++ quoted ctx c) Hp Hs2) as (x' & Hrun & Hs').
    { rewrite !length_app. lia. }
    exists x'. split; [exact Hrun|]. by rewrite <- !app_assoc in Hs'.
Qed.

End roundtrip.

(** ** Properties *)

(** The default context with two fields. *)
Definition two_fields : nx_csv_ctx :=
  nx_csv_ctx_init (CsvCtx x00 x00 x00 NX_CSV_QUOTE_METHOD_NONE false [lit "a"; lit "b"] [None; None] None).

(** C32: memory safety and termination of the parser: for string columns whose
    names do not clash with [raw_event], on any line of less than 2 GB,
    [nx_csv_parse] returns or throws; no store is outside the [len + 1] bytes of
    its buffer, no assertion fails, and the record is left well formed, with
    any implementation of the record interface. *)
Theorem csv_parse_safe `{M : Malloc} `{E : ValueEnv} {R : Type} `{L : RecordLaws R} ctx src r al :
  Forall (fun k => strcasecmp_eq k Logdata.raw_key = false) (fields ctx) ->
  Forall (fun t => default NX_VALUE_TYPE_STRING t = NX_VALUE_TYPE_STRING) (types ctx) ->
  length (types ctx) = length (fields ctx) -> zlen src + 1 < 2 ^ 31 -> src <> [] -> denotes r al ->
  exists r' al', denotes r' al' /\
    (nx_csv_parse ctx src (zlen src) r = (r', Ret tt) \/ exists e, nx_csv_parse ctx src (zlen src) r = (r', Throw e)).
Proof.
  intros Hk Ht Htl H31 Hne Hr.
  assert (safe (nx_csv_parse ctx src (zlen src)) r (fun _ => True)) as (r' & o & Hrun & (al' & Hr') & Ho).
  { unfold nx_csv_parse. eapply safe_bind with (P := fun n => n = zlen src).
    - eapply safe_lift; [exact Hr|]. rewrite (proj2 (Z.eqb_neq _ 0)) by (destruct src; [done|rewrite length_cons; lia]). done.
    - intros n r1 al1 -> Hr1. case_test; [by eapply safe_throw|].
      eapply parse_fields_ok; eauto. apply malloc_length. lia. }
  exists r', al'. split; [done|]. rewrite Hrun. destruct o as [[]|e|e|e]; simpl in Ho; eauto; contradiction.
Qed.

Lemma csv_parse_safe_witness :
  exists r' al', denotes r' al' /\
    (nx_csv_parse (M := poison_malloc) (E := plain_env) (R := Logdata.alist) two_fields (lit "x,\") (zlen (lit "x,\")) [] = (r', Ret tt) \/
     exists e, nx_csv_parse (M := poison_malloc) (E := plain_env) two_fields (lit "x,\") (zlen (lit "x,\")) [] = (r', Throw e)).
Proof.
  apply (csv_parse_safe (M := poison_malloc) (E := plain_env) (R := Logdata.alist) two_fields (lit "x,\") [] []);
    [repeat constructor|repeat constructor|reflexivity|vm_compute; reflexivity|discriminate|reflexivity].
Defined.

(** C33: round trip: a record with strings in all the configured fields is written by
    [nx_logdata_to_csv] to a line from which [nx_csv_parse] sets the same fields to the same
    values in any other record; quotes, escape characters, line breaks and tabs in the
    values are restored.  The conditions: QuoteMethod is String or All, not None (without
    quotes spaces at the ends of a value are lost); all columns are of type string, and
    there is at least one; no column is [raw_event] in any case; EscapeChar is configured
    and differs from the quote, the quote differs from the delimiter, quote and escape are ASCII and none of the letters
    n, r, t and b, and the quote is not a space; a value is not empty, has no NUL and no delimiter,
    is not the configured UndefValue (which is read as undefined) and is shorter than the string
    limit, and so is the line. *)
Theorem csv_roundtrip `{M : Malloc} `{E : ValueEnv} {R : Type} `{L : RecordLaws R} ctx cs r al r2 al2 :
  good_ctx ctx -> quote_method ctx <> NX_CSV_QUOTE_METHOD_NONE ->
  length (types ctx) = length (fields ctx) -> cs <> [] ->
  Forall (fun t => default NX_VALUE_TYPE_STRING t = NX_VALUE_TYPE_STRING) (types ctx) ->
  Forall (fun k => strcasecmp_eq k Logdata.raw_key = false) (fields ctx) ->
  denotes r al -> Forall2 (fun key c => Logdata.alist_get key al = Some (Logdata.str_value c)) (fields ctx) cs ->
  Forall (plain_string ctx) cs -> zlen (csv_line ctx true cs) < string_limit -> denotes r2 al2 ->
  exists s line r2', nx_logdata_to_csv ctx r = Ret s /\ str_rep s line /\
    nx_csv_parse ctx line (zlen line) r2 = (r2', Ret tt) /\ denotes r2' (set_strings (fields ctx) cs al2).
Proof.
  intros Hg Hq Htl Hne Hty Hraw Hr HF Hp Hl Hr2. pose proof (Forall2_length _ _ _ HF) as Hlen.
  destruct (nx_string_new_size_rep 150) as (s0 & Hs0 & Hs0r & _); [unfold string_limit; lia|].
  destruct (write_fields_rep ctx Hg (fields ctx) cs true r al (WLocals s0 Null Null) [] Hq Hr HF Hp Hs0r) as (x & Hrun & Hx).
  { simpl (zlen []). lia. }
  destruct (parse_line ctx Hg cs (fields ctx) (zlen (csv_line ctx true cs)) r2 al2) as (r2' & Hparse & Hr2'); auto.
  { unfold string_limit in *. lia. }
  exists (retval x), (csv_line ctx true cs), r2'. split_and!; auto. unfold nx_logdata_to_csv, num_field.
  rewrite (proj2 (Z.ltb_lt 0 _)) by (destruct cs; [done|rewrite Hlen, length_cons; lia]). cbn [mbind outcome_bind ASSERT].
  rewrite Hs0. cbn [mbind outcome_bind]. by rewrite Hrun.
Qed.

Lemma csv_roundtrip_witness :
  exists s line r2', nx_logdata_to_csv (M := poison_malloc) (E := plain_env) two_fields
      ([(lit "a", Logdata.str_value (lit "x\y")); (lit "B", Logdata.str_value (x22 :: lit " z"))] : Logdata.alist) = Ret s /\ str_rep s line /\
    nx_csv_parse (M := poison_malloc) (E := plain_env) two_fields line (zlen line) [] = (r2', Ret tt) /\
    denotes r2' (set_strings (fields two_fields) [lit "x\y"; x22 :: lit " z"] []).
Proof.
  apply (csv_roundtrip (M := poison_malloc) (E := plain_env) (R := Logdata.alist) two_fields [lit "x\y"; x22 :: lit " z"]
    [(lit "a", Logdata.str_value (lit "x\y")); (lit "B", Logdata.str_value (x22 :: lit " z"))]
    [(lit "a", Logdata.str_value (lit "x\y")); (lit "B", Logdata.str_value (x22 :: lit " z"))] [] []);
    try (vm_compute; reflexivity); try discriminate.
  - split_and!; try discriminate; try (vm_compute; reflexivity); apply (bool_decide_unpack _); reflexivity.
  - repeat constructor.
  - repeat constructor.
  - repeat constructor.
  - constructor; [|constructor; [|constructor]];
      (split_and!; [discriminate| | |discriminate|vm_compute; reflexivity]); apply (bool_decide_unpack _); reflexivity.
Defined.

(** A context with an integer column. *)
Definition integer_field : nx_csv_ctx :=
  nx_csv_ctx_init (CsvCtx x00 x00 x00 NX_CSV_QUOTE_METHOD_NONE false [lit "n"; lit "s"]
    [Some NX_VALUE_TYPE_INTEGER; None] None).

(** Two inputs the CSV code does not handle: a quoted empty value in an
    integer column reaches [nx_value_parse_int], whose assertion stops the
    process; and a delimiter inside a value is written with an escape character
    that the parser does not remove. *)
Theorem csv_gaps (r : Logdata.alist) :
  nx_csv_parse (M := poison_malloc) (E := plain_env) integer_field [x22; x22; ","%byte; "x"%byte] 4 r = (r, Panic "len > 0") /\
  exists s, nx_logdata_to_csv (M := poison_malloc) (E := plain_env) two_fields
      ([(lit "a", Logdata.str_value (lit "x,y")); (lit "b", Logdata.str_value (lit "z"))] : Logdata.alist) = Ret s /\
    nx_csv_parse (M := poison_malloc) (E := plain_env) two_fields (content s) (len s) ([] : Logdata.alist) =
      ([(lit "a", Logdata.str_value (lit "x\,y")); (lit "b", Logdata.str_value (lit "z"))], Ret tt).
Proof. split; [vm_compute; reflexivity|]. eexists. split; [vm_compute; reflexivity|]. vm_compute. reflexivity. Qed.

(** The cleanup code of [nx_logdata_to_csv] frees [tmp] again: when the copy
    of a second string throws (a string of exactly the limit), [tmp] still points
    to the copy of the first, which was already freed. *)
Theorem csv_double_free `{M : Malloc} `{E : ValueEnv} {R : Type} `{L : RecordLaws R} ctx r al k1 k2 c1 c2 :
  good_ctx ctx -> quote_method ctx <> NX_CSV_QUOTE_METHOD_NONE -> fields ctx = [k1; k2] -> denotes r al ->
  Logdata.alist_get k1 al = Some (Logdata.str_value c1) -> c1 <> [] -> zlen (quoted ctx c1) + 10 < string_limit ->
  Logdata.alist_get k2 al = Some (Logdata.str_value c2) -> zlen c2 = string_limit ->
  nx_logdata_to_csv ctx r = Undef "double free of tmp".
Proof.
  intros Hg Hq Hf Hr Hg1 Hne Hl Hg2 H2. unfold nx_logdata_to_csv, num_field. rewrite Hf. cbn [mbind outcome_bind ASSERT].
  destruct (nx_string_new_size_rep 150) as (s0 & Hs0 & Hs0r & _); [unfold string_limit; lia|].
  simpl (0 <? _). cbn [mbind outcome_bind ASSERT]. rewrite Hs0. cbn [mbind outcome_bind write_fields].
  erewrite cmd_bind_Ret by reflexivity.
  destruct (rec_get_ok r al k1 Hr) as (o1 & Hr1 & Ho1). rewrite Hg1 in Ho1. destruct Ho1 as (b1 & -> & (_ & _ & Hb1)).
  rewrite (Hb1 eq_refl) in Hr1. rewrite Hr1. erewrite cmd_bind_Ret by reflexivity. simpl (v_defined _ =? FALSE). cbv iota.
  pose proof (escape_length (csv_escape_class ctx) c1) as He. unfold quoted in Hl.
  destruct (write_string_rep ctx Hg c1 (WLocals s0 Null Null) [] Hq Hne) as (s1 & Hw1 & Hs1);
    [rewrite length_cons, length_app in Hl; lia|done|unfold quoted; simpl (zlen []); lia|].
  erewrite cmd_bind_Ret by exact Hw1. simpl app in Hs1.
  destruct (append_ret_rep (WLocals s1 Freed (str (WLocals s0 Null Null))) _ [delimiter ctx] 1 Hs1) as (s2 & Ha2 & Hs2);
    [simpl; lia|unfold quoted; lia|]. erewrite cmd_bind_Ret by exact Ha2.
  destruct (rec_get_ok r al k2 Hr) as (o2 & Hr2 & Ho2). rewrite Hg2 in Ho2. destruct Ho2 as (b2 & -> & (_ & _ & Hb2)).
  rewrite (Hb2 eq_refl) in Hr2. rewrite Hr2. erewrite cmd_bind_Ret by reflexivity. simpl (v_defined _ =? FALSE). cbv iota.
  destruct (append_ret_rep (WLocals s2 Freed Null) _ [quotechar ctx] 1 Hs2) as (s3 & Ha3 & _);
    [simpl; lia|unfold quoted; rewrite length_app; simpl (length (take _ _)); lia|].
  assert (nx_string_clone (exact c2) = Throw "oversized string, limit is %d bytes") as Hcl.
  { unfold nx_string_clone, exact. cbn [len]. rewrite H2. reflexivity. }
  assert (write_value ctx (Logdata.str_value c2) (WLocals s2 Freed Null) =
    (WLocals s3 Freed Null, Throw "oversized string, limit is %d bytes")) as Hw2.
  { unfold write_value. cbn [Logdata.str_value v_type v_data]. erewrite cmd_bind_Ret by reflexivity.
    rewrite (proj2 (Z.ltb_lt 0 (zlen c2))), bool_decide_false by (done || unfold string_limit in *; lia).
    erewrite cmd_bind_Ret by exact Ha3. eapply cmd_bind_Throw. unfold append_escaped. rewrite Hcl. reflexivity. }
  erewrite cmd_bind_Throw by exact Hw2. reflexivity.
Qed.

(** A string of the limit. *)
Definition limit_string : bytes := replicate (Z.to_nat string_limit) "y"%byte.

Lemma csv_double_free_witness :
  nx_logdata_to_csv (M := poison_malloc) (E := plain_env) two_fields
    ([(lit "a", Logdata.str_value (lit "x")); (lit "b", Logdata.str_value limit_string)] : Logdata.alist) =
    Undef "double free of tmp".
Proof.
  apply (csv_double_free (M := poison_malloc) (E := plain_env) (R := Logdata.alist) two_fields _
    [(lit "a", Logdata.str_value (lit "x")); (lit "b", Logdata.str_value limit_string)] (lit "a") (lit "b") (lit "x") limit_string).
  - split_and!; try discriminate; try (vm_compute; reflexivity); apply (bool_decide_unpack _); reflexivity.
  - discriminate.
  - reflexivity.
  - reflexivity.
  - reflexivity.
  - discriminate.
  - vm_compute. reflexivity.
  - rewrite !Logdata.alist_get_cons. reflexivity.
  - unfold limit_string. rewrite length_replicate. unfold string_limit. lia.
Defined.

End Csv.
