(* ===== verification/Kvp.v ===== *)
(** * Key-value pairs (modules/extension/kvp/kvp.c)

    The parser is a state machine that detects quote and delimiter characters
    that were not configured and stores them in its context.  Keys are collected
    in an array of 256 bytes on the stack and values in a growable string.  The
    context and the record keep the changes made before an exception.

    The text may be the buffer of the record's own [raw_event]: the parser then reads
    it through the record, and a pair with that key frees it. *)

From S2P Require Import Prelude Str Value Serialize Logdata RecordIface Csv.
Import Str Value Serialize.

Module Kvp.

(** NUL means that the character is not configured. *)
Record nx_kvp_ctx := KvpCtx {
  kvdelimiter : byte;
  kvpdelimiter : byte;
  keyquotechar : byte;
  valquotechar : byte;
  escapechar : byte;
  escape_control : bool
}.

Definition nx_kvp_ctx_init (x : nx_kvp_ctx) : nx_kvp_ctx := KvpCtx x00 x00 x00 x00 x00 (escape_control x).

Definition nx_kvp_get_config_char (str : bytes) : byte :=
  match str with
  | [a; c; b] =>
      if (a =c x22) && (b =c x22) then c
      else if (a =c "'") && (b =c "'") then c
      else x00
  | [a; c] =>
      if a =c "\" then
        if c =c "a" then x07
        else if c =c "b" then x08
        else if c =c "t" then x09
        else if c =c "n" then x0a
        else if c =c "v" then x0b
        else if c =c "f" then x0c
        else if c =c "r" then x0d
        else x00
      else x00
  | [c] => c
  | _ => x00
  end.

Definition set_kvdelimiter (c : byte) (x : nx_kvp_ctx) : nx_kvp_ctx :=
  KvpCtx c (kvpdelimiter x) (keyquotechar x) (valquotechar x) (escapechar x) (escape_control x).
Definition set_kvpdelimiter (c : byte) (x : nx_kvp_ctx) : nx_kvp_ctx :=
  KvpCtx (kvdelimiter x) c (keyquotechar x) (valquotechar x) (escapechar x) (escape_control x).
Definition set_keyquotechar (c : byte) (x : nx_kvp_ctx) : nx_kvp_ctx :=
  KvpCtx (kvdelimiter x) (kvpdelimiter x) c (valquotechar x) (escapechar x) (escape_control x).
Definition set_valquotechar (c : byte) (x : nx_kvp_ctx) : nx_kvp_ctx :=
  KvpCtx (kvdelimiter x) (kvpdelimiter x) (keyquotechar x) c (escapechar x) (escape_control x).

Definition IS_QUOTECHAR (c : byte) : bool := (c =c "'") || (c =c x22).
Definition IS_KVDELIMITERCHAR (c : byte) : bool := (c =c ":") || (c =c "=").
Definition IS_KVPDELIMITERCHAR (c : byte) : bool := (c =c ",") || (c =c ";") || (c =c " ").

(** ** The parser *)

Inductive nx_kvp_state :=
| NX_KVP_STATE_KEY_START
| NX_KVP_STATE_KEY
| NX_KVP_STATE_KEY_ESCAPE
| NX_KVP_STATE_KV_DELIMITER
| NX_KVP_STATE_VALUE_START
| NX_KVP_STATE_VALUE
| NX_KVP_STATE_VALUE_ESCAPE
| NX_KVP_STATE_KVP_DELIMITER.

(** The local variables of [parse_kvp]. *)
Record locals := Locals {
  st : nx_kvp_state;
  valuestr : option nx_string;
  keyname : bytes;
  keylen : Z;
  got_keyquote : bool;
  got_valquote : bool
}.

Definition set_st (s : nx_kvp_state) (x : locals) : locals :=
  Locals s (valuestr x) (keyname x) (keylen x) (got_keyquote x) (got_valquote x).
Definition set_valuestr (v : option nx_string) (x : locals) : locals :=
  Locals (st x) v (keyname x) (keylen x) (got_keyquote x) (got_valquote x).

Definition SIZEOF_KEYNAME : Z := 256.

(** [keyname[keylen] = c; keylen++] *)
Definition push_key (c : byte) (x : locals) : outcome locals :=
  k ← mem_write (keyname x) (keylen x) [c];
  Ret (Locals (st x) (valuestr x) k (keylen x + 1) (got_keyquote x) (got_valquote x)).

(** The same, if there is room. *)
Definition add_key_char (c : byte) (x : locals) : outcome locals :=
  if keylen x <? SIZEOF_KEYNAME - 1 then push_key c x else Ret x.

Section kvp.
Context `{M : Malloc} {R : Type} `{RO : RecordOps R}.

(** The context and the record. *)
Abbreviation state := (nx_kvp_ctx * R)%type.
Definition get_ctx : cmd state nx_kvp_ctx := fun s => (s, Ret (fst s)).
Definition set_ctx (f : nx_kvp_ctx -> nx_kvp_ctx) : cmd state unit := fun s => ((f (fst s), snd s), Ret tt).
Definition on_record {A} (c : cmd R A) : cmd state A := fun s =>
  let '(r, o) := c (snd s) in ((fst s, r), o).

(** The loop that trims an unquoted key. *)
Fixpoint trim_key (fuel : nat) (key : bytes) (keylen : Z) : outcome Z :=
  if 0 <? keylen then
    match fuel with
    | O => Undef "out of fuel"
    | S fuel =>
        c ← load key (keylen - 1);
        if c =c " " then trim_key fuel key (keylen - 1) else Ret keylen
    end
  else Ret keylen.

(** The new value takes over the string [strval].  The result is the array [key],
    which is terminated in place. *)
Definition add_logdata_field (key : bytes) (keylen : Z) (keyquoted : bool) (strval : option nx_string) : cmd state bytes :=
  strval ← lift (match strval with Some s => Ret s | None => Panic "strval != NULL" end);
  keylen ← lift (if keyquoted then Ret keylen else trim_key (Z.to_nat keylen) key keylen);
  key ← lift (mem_write key keylen [x00]);
  _ ← on_record (rec_set (cstr key) (NxValue NX_VALUE_TYPE_STRING TRUE (DString (content strval))));
  mret key.

Definition unescape_value (ctx : nx_kvp_ctx) (chr : byte) (dst : nx_string) (quoted : bool) : outcome nx_string :=
  if escape_control ctx && (chr =c "n") then nx_string_append dst [x0a] 1
  else if escape_control ctx && (chr =c "r") then nx_string_append dst [x0d] 1
  else if escape_control ctx && (chr =c "t") then nx_string_append dst [x09] 1
  else if escape_control ctx && (chr =c "b") then nx_string_append dst [x08] 1
  else if chr =c escapechar ctx then nx_string_append dst [escapechar ctx] 1
  else if chr =c valquotechar ctx then nx_string_append dst [valquotechar ctx] 1
  else if negb quoted && (chr =c kvpdelimiter ctx) then nx_string_append dst [kvpdelimiter ctx] 1
  else nx_string_append dst [escapechar ctx; chr] 2.

(** Add the current field and start the next pair. *)
Definition end_pair (x : locals) : cmd state locals :=
  key ← add_logdata_field (keyname x) (keylen x) (got_keyquote x) (valuestr x);
  mret (Locals NX_KVP_STATE_KEY_START None key (keylen x) (got_keyquote x) (got_valquote x)).

(** A character in the state [NX_KVP_STATE_VALUE]. *)
Definition value_char (ctx : nx_kvp_ctx) (c : byte) (x : locals) : cmd state locals :=
  if c =c valquotechar ctx then
    v ← lift (deref (valuestr x) "valuestr");
    if negb (got_valquote x) && (0 <? len v)
    then lift (Throw "invalid value quotation in key-value pair: %s")
    else mret (set_st NX_KVP_STATE_KVP_DELIMITER x)
  else if (kvpdelimiter ctx =c x00) && IS_KVPDELIMITERCHAR c && negb (got_valquote x) then
    _ ← set_ctx (set_kvpdelimiter c); end_pair x
  else if (c =c kvpdelimiter ctx) && negb (got_valquote x) then end_pair x
  else if c =c escapechar ctx then mret (set_st NX_KVP_STATE_VALUE_ESCAPE x)
  else
    v ← lift (deref (valuestr x) "valuestr");
    v ← lift (nx_string_append v [c] 1);
    mret (set_valuestr (Some v) x).

(** One iteration of the loop.  In the state [NX_KVP_STATE_VALUE_START] a
    character that is not a quote is handled again ([pos--]) in the state
    [NX_KVP_STATE_VALUE]. *)
Definition parse_char (c : byte) (x : locals) : cmd state locals :=
  ctx ← get_ctx;
  match st x with
  | NX_KVP_STATE_KEY =>
      if c =c keyquotechar ctx then
        if got_keyquote x then mret (set_st NX_KVP_STATE_KV_DELIMITER x)
        else lift (Throw "invalid key quotation in key-value pair")
      else if (kvdelimiter ctx =c x00) && IS_KVDELIMITERCHAR c then
        _ ← set_ctx (set_kvdelimiter c); mret (set_st NX_KVP_STATE_VALUE_START x)
      else if c =c kvdelimiter ctx then mret (set_st NX_KVP_STATE_VALUE_START x)
      else if c =c escapechar ctx then mret (set_st NX_KVP_STATE_KEY_ESCAPE x)
      else lift (add_key_char c x)
  | NX_KVP_STATE_VALUE_START =>
      if c =c " " then mret x
      else
        _ ← lift (ASSERT (bool_decide (valuestr x = None)) "valuestr == NULL");
        v ← lift nx_string_new;
        let y b := Locals NX_KVP_STATE_VALUE (Some v) (keyname x) (keylen x) (got_keyquote x) b in
        if (valquotechar ctx =c x00) && IS_QUOTECHAR c then
          _ ← set_ctx (set_valquotechar c); mret (y true)
        else if c =c valquotechar ctx then mret (y true)
        else value_char ctx c (y false)
  | NX_KVP_STATE_VALUE => value_char ctx c x
  | NX_KVP_STATE_VALUE_ESCAPE =>
      v ← lift (deref (valuestr x) "valuestr");
      v ← lift (unescape_value ctx c v (got_valquote x));
      mret (set_st NX_KVP_STATE_VALUE (set_valuestr (Some v) x))
  | NX_KVP_STATE_KV_DELIMITER =>
      if c =c " " then mret x
      else if (kvdelimiter ctx =c x00) && IS_KVDELIMITERCHAR c then
        _ ← set_ctx (set_kvdelimiter c); mret (set_st NX_KVP_STATE_VALUE_START x)
      else if c =c kvdelimiter ctx then mret (set_st NX_KVP_STATE_VALUE_START x)
      else mret x
  | NX_KVP_STATE_KVP_DELIMITER =>
      if (kvpdelimiter ctx =c x00) && IS_KVPDELIMITERCHAR c then
        _ ← set_ctx (set_kvpdelimiter c); end_pair x
      else if c =c kvpdelimiter ctx then end_pair x
      else mret x
  | NX_KVP_STATE_KEY_START =>
      let y s q := Locals s (valuestr x) (keyname x) 0 q (got_valquote x) in
      if c =c " " then mret (y NX_KVP_STATE_KEY_START false)
      else if (keyquotechar ctx =c x00) && IS_QUOTECHAR c then
        _ ← set_ctx (set_keyquotechar c); mret (y NX_KVP_STATE_KEY true)
      else if c =c keyquotechar ctx then mret (y NX_KVP_STATE_KEY true)
      else if c =c escapechar ctx then mret (y NX_KVP_STATE_KEY_ESCAPE false)
      else if c =c kvpdelimiter ctx then mret (y NX_KVP_STATE_KEY_START false)
      else lift (add_key_char c (y NX_KVP_STATE_KEY false))
  | NX_KVP_STATE_KEY_ESCAPE =>
      let x := set_st NX_KVP_STATE_KEY x in
      if (c =c escapechar ctx) || (c =c keyquotechar ctx) then lift (add_key_char c x)
      else if keylen x <? SIZEOF_KEYNAME - 2 then
        lift (x ← push_key (escapechar ctx) x; push_key c x)
      else mret x
  end.

Fixpoint parse_chars (src : bytes) (x : locals) : cmd state locals :=
  match src with
  | [] => mret x
  | c :: src => _ ← on_record live; x ← parse_char c x; parse_chars src x
  end.

(** After the loop; the message of the exception has the text. *)
Definition parse_end (src : bytes) (x : locals) : cmd state unit :=
  match st x with
  | NX_KVP_STATE_VALUE | NX_KVP_STATE_KVP_DELIMITER =>
      _ ← add_logdata_field (keyname x) (keylen x) (got_keyquote x) (valuestr x); mret tt
  | NX_KVP_STATE_KEY_START => lift (ASSERT (bool_decide (valuestr x = None)) "valuestr == NULL")
  | _ => _ ← on_record live; _ ← lift (strlen src); lift (Throw "invalid KVP input: '%s' [state: %d]")
  end.

Definition parse_kvp (src : bytes) (len : Z) : cmd state unit :=
  data ← lift (mem_read src 0 (Z.max 0 (s32 len)));
  x ← parse_chars data (Locals NX_KVP_STATE_KEY_START None (malloc SIZEOF_KEYNAME) 0 false false);
  parse_end src x.

Definition nx_kvp_parse (src : bytes) (len : Z) : cmd state unit :=
  len ← lift (if len =? 0 then strlen src else Ret len);
  parse_kvp src len.

End kvp.

(** ** The writer *)

(** The characters [escape_value] works with. *)
Definition eff_quotechar (ctx : nx_kvp_ctx) : byte := if valquotechar ctx =c x00 then "'"%byte else valquotechar ctx.
Definition eff_escapechar (ctx : nx_kvp_ctx) : byte := if escapechar ctx =c x00 then "\"%byte else escapechar ctx.

Definition wants_quote (ctx : nx_kvp_ctx) (c : byte) : bool :=
  (bz c <? 128) && negb (c =c eff_escapechar ctx) && negb (c =c eff_quotechar ctx) &&
  ((c =c " ") || (c =c kvpdelimiter ctx)).

Definition kvp_escape_class (ctx : nx_kvp_ctx) (c : byte) : escaping :=
  if c =c eff_escapechar ctx then Keep (eff_escapechar ctx)
  else if c =c eff_quotechar ctx then Letter (eff_escapechar ctx) (eff_quotechar ctx)
  else if (c =c " ") || (c =c kvpdelimiter ctx) then NoEscape
  else if escape_control ctx then
    (* the configured character, not the effective one *)
    if c =c x0a then Letter (escapechar ctx) "n"
    else if c =c x0d then Letter (escapechar ctx) "r"
    else if c =c x09 then Letter (escapechar ctx) "t"
    else if c =c x08 then Letter (escapechar ctx) "b"
    else NoEscape
  else NoEscape.

Section kvp_writer.
Context `{M : Malloc} `{E : ValueEnv}.
Variable ctx : nx_kvp_ctx.

(** The loop visits each character of the string once: [needquote] is set by one
    that wants it. *)
Definition escape_value (s : nx_string) : outcome nx_string :=
  let needquote := existsb (wants_quote ctx) (content s) in
  s ← escape_loop (kvp_escape_class ctx) (Z.to_nat (len s)) 0 s;
  if needquote then
    s ← nx_string_prepend s [eff_quotechar ctx] 1;
    nx_string_append s [eff_quotechar ctx] 1
  else Ret s.

(** [retval], and the state of [tmp]; [string] is reset to NULL. *)
Record wlocals := WLocals { retval : nx_string; tmp : Csv.pointer }.

Definition append_ret (src : bytes) (n : Z) : cmd wlocals unit := fun x =>
  match nx_string_append (retval x) src n with
  | Ret r => (WLocals r (tmp x), Ret tt)
  | Throw e => (x, Throw e)
  | Panic e => (x, Panic e)
  | Undef e => (x, Undef e)
  end.
Definition set_tmp (p : Csv.pointer) : cmd wlocals unit := fun x => (WLocals (retval x) p, Ret tt).

Definition write_value (v : value) : cmd wlocals unit :=
  match v_type v with
  | NX_VALUE_TYPE_STRING =>
      s ← lift (as_string (v_data v));
      if 0 <? zlen s then
        t ← lift (nx_string_clone (exact s));
        _ ← set_tmp Csv.Live;
        t ← lift (escape_value t);
        _ ← append_ret (buf t) (s32 (len t));
        set_tmp Csv.Freed
      else mret tt
  | _ =>
      string ← lift (nx_value_to_string v);
      match string with
      | None => mret tt
      | Some string => append_ret (string ++ [x00]) (-1)
      end
  end.

Definition out_kvdelimiter : byte := if kvdelimiter ctx =c x00 then "="%byte else kvdelimiter ctx.
Definition out_kvpdelimiter : byte := if kvpdelimiter ctx =c x00 then ";"%byte else kvpdelimiter ctx.

(** Fields that are not written. *)
Definition skipped (key : bytes) : bool :=
  strcmp_eq key Logdata.raw_key || match key with c :: _ => (c =c ".") || (c =c "_") | [] => false end.

(** The loop over the fields of the record. *)
Fixpoint write_fields (fs : Logdata.alist) : cmd wlocals unit :=
  match fs with
  | [] => mret tt
  | (key, v) :: fs =>
      _ ← (if skipped key then mret tt
           else
             _ ← append_ret (key ++ [x00]) (-1);
             _ ← append_ret [out_kvdelimiter] 1;
             _ ← (if v_defined v =? FALSE then mret tt else write_value v);
             append_ret [out_kvpdelimiter] 1);
      write_fields fs
  end.

Definition nx_logdata_to_kvp (fs : Logdata.alist) : outcome nx_string :=
  s ← nx_string_new_size 150;
  match write_fields fs (WLocals s Csv.Null) with
  | (x, Ret _) => Ret (retval x)
  | (x, Throw e) => match tmp x with Csv.Freed => Undef "double free of tmp" | _ => Throw e end
  | (_, Panic e) => Panic e
  | (_, Undef e) => Undef e
  end.

End kvp_writer.

(** ** Safety of the parser and its effect on the record *)

(** The sequence of the fields the parser sets, as a record implementation. *)
Record trace := Trace { sets : list (bytes * value) }.

Definition replay (new : list (bytes * value)) (al : Logdata.alist) : Logdata.alist :=
  foldl (fun al kv => Logdata.alist_set (fst kv) (snd kv) al) al new.

#[export] Instance trace_ops : RecordOps trace := {
  rec_set k v := fun tr => (Trace (sets tr ++ [(k, v)]), Ret tt);
  rec_get k tr := Ret (Logdata.alist_get k (replay (sets tr) []));
  rec_text _ := true
}.

Lemma replay_app a b al : replay (a ++ b) al = replay b (replay a al).
Proof. apply foldl_app. Qed.

(** Is a field of the sequence [raw_event], in any case? *)
Definition sets_raw (new : list (bytes * value)) : bool := existsb (fun kv => strcasecmp_eq (fst kv) Logdata.raw_key) new.

(** Records with the text that is parsed; [own]: the text is the buffer of [raw_event].
    [text_denotes r a al]: the record denotes [al], and the text is allocated if [a]. *)
Class TextLaws (own : bool) (T : Type) `{RecordOps T} := {
  text_denotes : T -> bool -> Logdata.alist -> Prop;
  text_set_ok r a al k v : text_denotes r a al -> Logdata.settable k v -> storable v ->
    exists r', rec_set k v r = (r', Ret tt) /\ text_denotes r' (a && negb (own && strcasecmp_eq k Logdata.raw_key)) (Logdata.alist_set k v al);
  text_live_ok r a al : text_denotes r a al -> rec_text r = a
}.

Section text_laws.
Context {R : Type} `{L : RecordLaws R}.

Lemma plain_set_ok (r : R) (a : bool) al k v : a = true /\ denotes r al -> Logdata.settable k v -> storable v ->
  exists r', rec_set k v r = (r', Ret tt) /\ a && negb (false && strcasecmp_eq k Logdata.raw_key) = true /\ denotes r' (Logdata.alist_set k v al).
Proof. intros [-> Hr] Hk Hv. destruct (rec_set_ok r al k v Hr Hk Hv) as (r' & H1 & H2). by exists r'. Qed.

Lemma plain_live_ok (r : R) (a : bool) al : a = true /\ denotes r al -> rec_text r = a.
Proof. intros [-> Hr]. by eapply rec_text_ok. Qed.

(** The text is outside of the record. *)
#[export] Instance plain_text : TextLaws false R := {
  text_denotes r a al := a = true /\ denotes r al;
  text_set_ok := plain_set_ok;
  text_live_ok := plain_live_ok
}.

Lemma own_set_ok own (w : with_text R) (a : bool) al k v : (text_raw w = own /\ text_alive w = a /\ denotes (text_rec w) al) ->
  Logdata.settable k v -> storable v ->
  exists w', rec_set k v w = (w', Ret tt) /\ text_raw w' = own /\ text_alive w' = a && negb (own && strcasecmp_eq k Logdata.raw_key) /\
    denotes (text_rec w') (Logdata.alist_set k v al).
Proof.
  intros (<- & <- & Hr) Hk Hv. destruct (rec_set_ok (text_rec w) al k v Hr Hk Hv) as (r' & H1 & H2).
  eexists. cbn [rec_set with_text_ops]. rewrite H1. by split_and!.
Qed.

Lemma own_live_ok own (w : with_text R) (a : bool) al : (text_raw w = own /\ text_alive w = a /\ denotes (text_rec w) al) -> rec_text w = a.
Proof. by intros (_ & <- & _). Qed.

(** The text may be the buffer of [raw_event]. *)
#[export] Instance own_text own : TextLaws own (with_text R) := {
  text_denotes w a al := text_raw w = own /\ text_alive w = a /\ denotes (text_rec w) al;
  text_set_ok := own_set_ok own;
  text_live_ok := own_live_ok own
}.

End text_laws.

(** Two runs from the context [x], one that collects the fields and one on a
    record: they do the same, neither fails, and the record gets the fields, if
    no key is the name of [raw_event] in another case.  If the text is the buffer of
    [raw_event], the second run may instead end with a use of the text after a field
    of that name was set. *)
Definition sim {own T} `{TL : TextLaws own T} {A} (m1 : cmd (nx_kvp_ctx * trace) A) (m2 : cmd (nx_kvp_ctx * T) A)
    (x : nx_kvp_ctx) (P : A -> Prop) : Prop :=
  exists x' new o, (forall tr, m1 (x, Trace tr) = ((x', Trace (tr ++ new)), o)) /\ ok_result o P /\
    forall r a al, text_denotes r a al -> Forall (fun kv => Logdata.settable (fst kv) (snd kv)) new ->
      (exists r', m2 (x, r) = ((x', r'), o) /\ text_denotes r' (a && negb (own && sets_raw new)) (replay new al)) \/
      (a && negb (own && sets_raw new) = false /\ exists s', m2 (x, r) = (s', Undef freed_text)).

Section safety.
Context `{M : Malloc} {own : bool} {T : Type} `{TL : TextLaws own T}.

Lemma sim_quiet {A} (m1 : cmd (nx_kvp_ctx * trace) A) (m2 : cmd (nx_kvp_ctx * T) A) x x' o (P : A -> Prop) :
  (forall tr, m1 (x, tr) = ((x', tr), o)) -> (forall r, m2 (x, r) = ((x', r), o)) -> ok_result o P -> sim m1 m2 x P.
Proof.
  intros H1 H2 Ho. exists x', [], o. split_and!; [intros tr; by rewrite app_nil_r, H1|done|]. intros r a al Hr _. left. exists r.
  cbn [sets_raw existsb]. by rewrite andb_false_r, andb_true_r, H2.
Qed.

Lemma sim_lift {A} (o : outcome A) x (P : A -> Prop) :
  ok_result o P -> sim (T := T) (lift o) (lift o) x P.
Proof. intros Ho. by apply (sim_quiet _ _ x x o). Qed.

Lemma sim_ret {A} (a : A) x (P : A -> Prop) : P a -> sim (T := T) (mret a) (mret a) x P.
Proof. exact (sim_lift (Ret a) x P). Qed.

Lemma sim_set_ctx f x : sim (T := T) (set_ctx f) (set_ctx f) x (fun _ => True).
Proof. by apply (sim_quiet _ _ x (f x) (Ret tt)). Qed.

Lemma sim_get_ctx x : sim (T := T) get_ctx get_ctx x (fun _ => True).
Proof. by apply (sim_quiet _ _ x x (Ret x)). Qed.

Lemma sim_live x : sim (T := T) (on_record live) (on_record live) x (fun _ => True).
Proof.
  exists x, [], (Ret tt). split_and!; [intros tr; by rewrite app_nil_r|done|]. intros r a al Hr _.
  cbn [sets_raw existsb]. rewrite andb_false_r, andb_true_r. unfold on_record, live. cbn [snd fst]. rewrite (text_live_ok r a al Hr).
  destruct a; [left; by exists r|right; split; [done|by eexists]].
Qed.

Lemma sets_raw_app a b : sets_raw (a ++ b) = sets_raw a || sets_raw b.
Proof. apply existsb_app. Qed.

Lemma alive_app (a : bool) n1 n2 : a && negb (own && sets_raw (n1 ++ n2)) = (a && negb (own && sets_raw n1)) && negb (own && sets_raw n2).
Proof. rewrite sets_raw_app. by destruct a, own, (sets_raw n1), (sets_raw n2). Qed.

Lemma sim_bind {A B} m1 m2 (f1 : A -> cmd _ B) f2 x P Q :
  sim (T := T) m1 m2 x P -> (forall a x', P a -> sim (T := T) (f1 a) (f2 a) x' Q) ->
  sim (T := T) (m1 ≫= f1) (m2 ≫= f2) x Q.
Proof.
  intros (x' & new & o & H1 & Ho & H2) Hf. destruct o as [a|e|e|e]; simpl in Ho; try contradiction.
  - destruct (Hf a x' Ho) as (x'' & new' & o' & H1' & Ho' & H2'). exists x'', (new ++ new'), o'. split_and!; auto.
    + intros tr. erewrite cmd_bind_Ret by apply H1. by rewrite H1', app_assoc.
    + intros r b al Hr HF. apply Forall_app in HF as [HF1 HF2]. rewrite alive_app, replay_app.
      destruct (H2 r b al Hr HF1) as [(r' & Hrun & Hr')|(Hdead & s' & Hrun)].
      * erewrite cmd_bind_Ret by exact Hrun. by apply H2'.
      * right. rewrite Hdead. split; [done|]. exists s'. by eapply cmd_bind_Undef.
  - exists x', new, (Throw e). split_and!; auto.
    + intros tr. by eapply cmd_bind_Throw.
    + intros r b al Hr HF. destruct (H2 r b al Hr HF) as [(r' & Hrun & Hr')|(Hdead & s' & Hrun)].
      * left. exists r'. split; [by eapply cmd_bind_Throw|done].
      * right. split; [done|]. exists s'. by eapply cmd_bind_Undef.
Qed.

Lemma sim_mono {A} m1 m2 x (P Q : A -> Prop) :
  (forall a, P a -> Q a) -> sim (T := T) m1 m2 x P -> sim (T := T) m1 m2 x Q.
Proof. intros HPQ (x' & new & o & H1 & Ho & H2). exists x', new, o. split_and!; auto. by eapply ok_result_mono. Qed.

Lemma sim_rec_set k s x : zlen s <= string_limit ->
  sim (T := T) (on_record (rec_set k (Logdata.str_value s))) (on_record (rec_set k (Logdata.str_value s))) x (fun _ => True).
Proof.
  intros Hs. exists x, [(k, Logdata.str_value s)], (Ret tt). split_and!; [done|done|]. intros r a al Hr HF.
  apply Forall_cons in HF as [HF _]. destruct (text_set_ok r a al k (Logdata.str_value s) Hr HF) as (r' & Hrun & Hr').
  { by apply string_storable. }
  left. exists r'. cbn [sets_raw existsb fst]. rewrite orb_false_r. split; [|done]. unfold on_record. cbn [snd fst]. by rewrite Hrun.
Qed.

(** A value that is being collected. *)
Definition val_ok (v : option nx_string) : Prop :=
  exists s c, v = Some s /\ str_rep s c /\ zlen c < string_limit.

Definition in_value (s : nx_kvp_state) : bool :=
  match s with
  | NX_KVP_STATE_VALUE | NX_KVP_STATE_VALUE_ESCAPE | NX_KVP_STATE_KVP_DELIMITER => true
  | _ => false
  end.

(** The invariant of the loop: the key is within its array with room for the
    terminator, and a value exists in exactly the states that use it. *)
Definition linv (x : locals) : Prop :=
  zlen (keyname x) = SIZEOF_KEYNAME /\ 0 <= keylen x < SIZEOF_KEYNAME /\
  if in_value (st x) then val_ok (valuestr x) else valuestr x = None.

Lemma spec_append_length c src : zlen c < string_limit -> zlen (spec_append c src) < string_limit.
Proof. intros Hc. unfold spec_append. case_test; [lia|]. rewrite length_take. unfold string_limit in *. lia. Qed.

Lemma append_ok s c src n : str_rep s c -> zlen c < string_limit -> 0 <= n <= zlen src ->
  ok_result (nx_string_append s src n) (fun s' => val_ok (Some s')).
Proof.
  intros Hs Hc Hn. destruct (nx_string_append_rep s c src n Hs Hn) as (s' & -> & Hs'). simpl.
  exists s', (spec_append c (take (Z.to_nat n) src)). auto using spec_append_length.
Qed.

Lemma unescape_value_ok ctx c s t q : str_rep s t -> zlen t < string_limit ->
  ok_result (unescape_value ctx c s q) (fun s' => val_ok (Some s')).
Proof. intros Hs Ht. unfold unescape_value. repeat case_test; eapply append_ok; eauto; simpl; lia. Qed.

Lemma trim_key_ok key k fuel : 0 <= k <= zlen key -> k <= Z.of_nat fuel ->
  ok_result (trim_key fuel key k) (fun k' => 0 <= k' <= k).
Proof.
  revert k. induction fuel as [|fuel IH]; intros k Hk Hf; cbn [trim_key]; (case_test; [|simpl; lia]); [lia|].
  eapply ok_result_bind; [apply load_ok; lia|]. intros c _. case_test; [|simpl; lia].
  eapply ok_result_mono; [|apply IH; lia]. simpl. lia.
Qed.

Lemma add_field_sim key k q v x : zlen key = SIZEOF_KEYNAME -> 0 <= k < SIZEOF_KEYNAME -> val_ok v ->
  sim (T := T) (add_logdata_field key k q v) (add_logdata_field key k q v) x (fun key' => zlen key' = SIZEOF_KEYNAME).
Proof.
  intros Hkey Hk (s & c & -> & Hs & Hc). unfold add_logdata_field.
  eapply sim_bind with (P := eq s); [by apply sim_lift|]. intros ? x1 <-.
  eapply sim_bind with (P := fun k' => 0 <= k' <= k).
  { apply sim_lift. case_test; [simpl; lia|]. apply trim_key_ok; lia. }
  intros k' x2 Hk'. eapply sim_bind with (P := fun key' => zlen key' = SIZEOF_KEYNAME).
  { apply sim_lift. eapply ok_result_mono; [|apply mem_write_ok; simpl; lia]. simpl. lia. }
  intros key' x3 Hkey'. rewrite (str_rep_content _ _ Hs).
  eapply sim_bind; [apply sim_rec_set; lia|]. intros _ x4 _. by apply sim_ret.
Qed.

Lemma end_pair_sim y x : linv y -> in_value (st y) = true ->
  sim (T := T) (end_pair y) (end_pair y) x linv.
Proof.
  intros (Hk & Hl & Hv) Hs. rewrite Hs in Hv. unfold end_pair.
  eapply sim_bind; [by apply add_field_sim|]. intros key x' Hkey. by apply sim_ret.
Qed.

Lemma push_key_ok c y : zlen (keyname y) = SIZEOF_KEYNAME -> 0 <= keylen y < SIZEOF_KEYNAME ->
  ok_result (push_key c y) (fun z => zlen (keyname z) = SIZEOF_KEYNAME /\ keylen z = keylen y + 1 /\
    st z = st y /\ valuestr z = valuestr y).
Proof.
  intros Hk Hl. unfold push_key. eapply ok_result_bind; [apply mem_write_ok; simpl; lia|].
  intros k' Hk'. simpl in Hk' |- *. split_and!; auto; lia.
Qed.

Lemma add_key_char_ok c y : linv y -> ok_result (add_key_char c y) linv.
Proof.
  intros (Hk & Hl & Hv). unfold add_key_char. case_test; [|done].
  eapply ok_result_mono; [|by apply push_key_ok]. intros z (Hz1 & Hz2 & Hz3 & Hz4). unfold linv. rewrite Hz3, Hz4.
  split_and!; auto; lia.
Qed.

Lemma value_char_sim ctx c y x : linv y -> st y = NX_KVP_STATE_VALUE ->
  sim (T := T) (value_char ctx c y) (value_char ctx c y) x linv.
Proof.
  intros Hy Hs. pose proof Hy as (Hk & Hl & Hv). rewrite Hs in Hv. destruct Hv as (s & t & Hv & Hst & Ht).
  assert (forall s', in_value s' = true -> linv (set_st s' y)) as Hset.
  { intros s' Hs'. unfold linv. simpl. rewrite Hs', Hv. split_and!; auto; try lia. by exists s, t. }
  unfold value_char. rewrite Hv. repeat case_test.
  - eapply sim_bind with (P := eq s); [by apply sim_lift|]. intros ? x1 <-.
    case_test; [by apply sim_lift|]. apply sim_ret. by apply Hset.
  - eapply sim_bind; [apply sim_set_ctx|]. intros _ x1 _. apply end_pair_sim; [done|by rewrite Hs].
  - apply end_pair_sim; [done|by rewrite Hs].
  - apply sim_ret. by apply Hset.
  - eapply sim_bind with (P := eq s); [by apply sim_lift|]. intros ? x1 <-.
    eapply sim_bind; [apply sim_lift; eapply append_ok; eauto; simpl; lia|]. intros s' x2 Hs'.
    apply sim_ret. unfold linv. simpl. rewrite Hs. simpl. auto.
Qed.

Lemma nx_string_new_ok : ok_result nx_string_new (fun s => val_ok (Some s)).
Proof. destruct nx_string_new_rep as (s & -> & Hs). exists s, []. split_and!; auto. by unfold string_limit. Qed.

(** A state change that keeps the other variables. *)
Lemma set_st_linv s y : linv y -> in_value s = in_value (st y) -> linv (set_st s y).
Proof. unfold linv. simpl. by intros ? ->. Qed.

Lemma detect_sim f s y x : linv y -> in_value s = in_value (st y) ->
  sim (T := T) (_ ← set_ctx f; mret (set_st s y)) (_ ← set_ctx f; mret (set_st s y)) x linv.
Proof.
  intros Hy Hs. eapply sim_bind; [apply sim_set_ctx|]. intros _ x' _. apply sim_ret. by apply set_st_linv.
Qed.

Lemma key_start_linv s q y : linv y -> st y = NX_KVP_STATE_KEY_START -> in_value s = false ->
  linv (Locals s (valuestr y) (keyname y) 0 q (got_valquote y)).
Proof. intros (Hk & Hl & Hv) Hs Hf. rewrite Hs in Hv. unfold linv. simpl. rewrite Hf. unfold SIZEOF_KEYNAME in *. auto with lia. Qed.

Lemma key_escape_sim ctx c y x : linv y -> st y = NX_KVP_STATE_KEY ->
  sim (T := T) (if keylen y <? SIZEOF_KEYNAME - 2 then lift (z ← push_key (escapechar ctx) y; push_key c z) else mret y)
    (if keylen y <? SIZEOF_KEYNAME - 2 then lift (z ← push_key (escapechar ctx) y; push_key c z) else mret y) x linv.
Proof.
  intros Hy Hs. pose proof Hy as (Hk & Hl & Hv). rewrite Hs in Hv. case_test; [|by apply sim_ret].
  apply sim_lift. eapply ok_result_bind; [by apply push_key_ok|]. intros z (Hz1 & Hz2 & Hz3 & Hz4).
  eapply ok_result_mono; [|apply push_key_ok; lia]. intros w (Hw1 & Hw2 & Hw3 & Hw4).
  unfold linv. rewrite Hw3, Hz3, Hs, Hw4, Hz4. split_and!; auto; lia.
Qed.

Lemma value_start_sim ctx c y x : linv y -> st y = NX_KVP_STATE_VALUE_START ->
  let m {S} `{RecordOps S} : cmd (nx_kvp_ctx * S) locals :=
    _ ← lift (ASSERT (bool_decide (valuestr y = None)) "valuestr == NULL");
    v ← lift nx_string_new;
    let z b := Locals NX_KVP_STATE_VALUE (Some v) (keyname y) (keylen y) (got_keyquote y) b in
    if (valquotechar ctx =c x00) && IS_QUOTECHAR c then
      _ ← set_ctx (set_valquotechar c); mret (z true)
    else if c =c valquotechar ctx then mret (z true)
    else value_char ctx c (z false) in
  sim (T := T) m m x linv.
Proof.
  intros (Hk & Hl & Hv) Hs m. rewrite Hs in Hv. unfold m. rewrite bool_decide_true by done.
  eapply sim_bind with (P := fun _ => True); [by apply sim_lift|]. intros _ x1 _.
  eapply sim_bind; [apply sim_lift, nx_string_new_ok|]. intros v x2 Hv2. simpl.
  assert (forall b, linv (Locals NX_KVP_STATE_VALUE (Some v) (keyname y) (keylen y) (got_keyquote y) b)) as Hz by done.
  repeat case_test.
  - eapply sim_bind; [apply sim_set_ctx|]. intros _ x3 _. by apply sim_ret.
  - by apply sim_ret.
  - by apply value_char_sim.
Qed.

Lemma parse_char_sim c y x : linv y -> sim (T := T) (parse_char c y) (parse_char c y) x linv.
Proof.
  intros Hy. unfold parse_char. eapply sim_bind; [apply sim_get_ctx|]. intros ctx x' _. clear x. rename x' into x.
  destruct (st y) eqn:Hs.
  - pose proof (fun s q Hf => key_start_linv s q y Hy Hs Hf) as Hstart.
    repeat case_test; try (by apply sim_ret, Hstart).
    + eapply sim_bind; [apply sim_set_ctx|]. intros _ x1 _. by apply sim_ret, Hstart.
    + apply sim_lift, add_key_char_ok. by apply Hstart.
  - repeat case_test; try (by apply sim_lift); try (apply sim_ret, set_st_linv; [done|by rewrite Hs]).
    + apply detect_sim; [done|by rewrite Hs].
    + by apply sim_lift, add_key_char_ok.
  - assert (linv (set_st NX_KVP_STATE_KEY y)) as Hy' by (apply set_st_linv; [done|by rewrite Hs]).
    case_test; [by apply sim_lift, add_key_char_ok|]. by apply key_escape_sim.
  - repeat case_test; try (by apply sim_ret); try (apply sim_ret, set_st_linv; [done|by rewrite Hs]).
    apply detect_sim; [done|by rewrite Hs].
  - case_test; [by apply sim_ret|]. exact (value_start_sim ctx c y x Hy Hs).
  - by apply value_char_sim.
  - pose proof Hy as (Hk & Hl & Hv). rewrite Hs in Hv. destruct Hv as (s & t & Hv & Hst & Ht). rewrite Hv.
    eapply sim_bind with (P := eq s); [by apply sim_lift|]. intros ? x1 <-.
    eapply sim_bind; [by apply sim_lift; eapply unescape_value_ok|]. intros s' x2 Hs'. by apply sim_ret.
  - repeat case_test; try (by apply sim_ret).
    + eapply sim_bind; [apply sim_set_ctx|]. intros _ x1 _. apply end_pair_sim; [done|by rewrite Hs].
    + apply end_pair_sim; [done|by rewrite Hs].
Qed.

Lemma parse_chars_sim src y x : linv y -> sim (T := T) (parse_chars src y) (parse_chars src y) x linv.
Proof.
  revert y x. induction src as [|c src IH]; intros y x Hy; [by apply sim_ret|]. cbn [parse_chars].
  eapply sim_bind; [apply sim_live|]. intros _ x1 _. eapply sim_bind; [by apply parse_char_sim|]. auto.
Qed.

Lemma parse_end_sim src y x : x00 ∈ src -> linv y -> sim (T := T) (parse_end src y) (parse_end src y) x (fun _ => True).
Proof.
  intros Hnul (Hk & Hl & Hv). unfold parse_end.
  destruct (st y);
    try (eapply sim_bind; [by apply add_field_sim|]; intros; by apply sim_ret);
    try (eapply sim_bind; [apply sim_live|]; intros _ x1 _; unfold strlen; rewrite bool_decide_true by done;
         eapply sim_bind with (P := fun _ => True); [by apply sim_lift|]; intros _ x2 _; by apply sim_lift).
  apply sim_lift. simpl in Hv. by rewrite Hv.
Qed.

Lemma parse_kvp_sim src n x : x00 ∈ src -> 0 <= n <= zlen src -> n < 2 ^ 31 ->
  sim (T := T) (parse_kvp src n) (parse_kvp src n) x (fun _ => True).
Proof.
  intros Hnul Hn H31. unfold parse_kvp. rewrite s32_small, Z.max_r by lia.
  eapply sim_bind with (P := fun _ => True).
  { apply sim_lift. eapply ok_result_mono; [|apply mem_read_ok; lia]. done. }
  intros s x1 _. eapply sim_bind; [apply parse_chars_sim|intros y x2; by apply parse_end_sim].
  unfold linv. simpl. split_and!; auto; [|by unfold SIZEOF_KEYNAME..]. by apply malloc_length.
Qed.

Lemma nx_kvp_parse_sim src n x : x00 ∈ src -> 0 <= n <= zlen src -> n < 2 ^ 31 -> (n = 0 -> zlen src < 2 ^ 31) ->
  sim (T := T) (nx_kvp_parse src n) (nx_kvp_parse src n) x (fun _ => True).
Proof.
  intros Hnul Hn H31 H0. unfold nx_kvp_parse. eapply sim_bind with (P := fun m => 0 <= m <= zlen src /\ m < 2 ^ 31).
  - apply sim_lift. unfold strlen. rewrite bool_decide_true by done. pose proof (cstr_length src). case_test; simpl; lia.
  - intros m x1 [Hm Hm31]. by apply parse_kvp_sim.
Qed.

End safety.

(** ** Round trip *)

(** A fully configured context whose characters are unambiguous. *)
Definition good_ctx (ctx : nx_kvp_ctx) : Prop :=
  kvdelimiter ctx <> keyquotechar ctx /\
  kvdelimiter ctx <> x00 /\ kvpdelimiter ctx <> x00 /\ valquotechar ctx <> x00 /\ escapechar ctx <> x00 /\
  kvpdelimiter ctx <> valquotechar ctx /\ kvpdelimiter ctx <> escapechar ctx /\ valquotechar ctx <> escapechar ctx /\
  kvpdelimiter ctx <> " "%byte /\ valquotechar ctx <> " "%byte /\ escapechar ctx <> " "%byte /\
  bz (kvpdelimiter ctx) < 128 /\ bz (valquotechar ctx) < 128 /\ bz (escapechar ctx) < 128 /\
  valquotechar ctx ∉ lit "nrtb" /\ escapechar ctx ∉ lit "nrtb".

(** A character the parser takes as a part of an unquoted key. *)
Definition key_char (ctx : nx_kvp_ctx) (c : byte) : Prop :=
  c <> x00 /\ c <> keyquotechar ctx /\ c <> kvdelimiter ctx /\ c <> escapechar ctx.

(** A key that is read back without quotes. *)
Definition plain_key (ctx : nx_kvp_ctx) (k : bytes) : Prop :=
  Forall (key_char ctx) k /\ zlen k < SIZEOF_KEYNAME /\ strcasecmp_eq k Logdata.raw_key = false /\ last k <> Some " "%byte /\
  match k with
  | c :: _ => c <> " "%byte /\ c <> kvpdelimiter ctx /\ (keyquotechar ctx = x00 -> IS_QUOTECHAR c = false)
  | [] => False
  end.

(** The text of a value and of the pairs. *)
Definition kvp_value (ctx : nx_kvp_ctx) (c : bytes) : bytes :=
  let e := c ≫= escape_char (kvp_escape_class ctx) in
  if existsb (wants_quote ctx) c then eff_quotechar ctx :: e ++ [eff_quotechar ctx] else e.

Definition kvp_pair (ctx : nx_kvp_ctx) (kc : bytes * bytes) : bytes :=
  fst kc ++ kvdelimiter ctx :: kvp_value ctx (snd kc) ++ [kvpdelimiter ctx].

Section roundtrip.
Context `{M : Malloc}.
Variable ctx : nx_kvp_ctx.
Hypothesis good : good_ctx ctx.

Lemma good_escapechar : eff_escapechar ctx = escapechar ctx.
Proof. destruct good as (? & ? & ? & ? & ? & _). unfold eff_escapechar. by rewrite (proj2 (beq_false _ _)). Qed.
Lemma good_quotechar : eff_quotechar ctx = valquotechar ctx.
Proof. destruct good as (? & ? & ? & ? & ? & _). unfold eff_quotechar. by rewrite (proj2 (beq_false _ _)). Qed.

Lemma step c rest y z (s s' : nx_kvp_ctx * trace) : parse_char c y s = (s', Ret z) ->
  parse_chars (c :: rest) y s = parse_chars rest z s'.
Proof. intros Hc. cbn [parse_chars]. rewrite (cmd_bind_Ret _ _ s s tt) by (by destruct s). by erewrite cmd_bind_Ret by exact Hc. Qed.

Lemma push_key_at c w D s v q g : (length w < length D)%nat ->
  push_key c (Locals s v (w ++ drop (length w) D) (zlen w) q g) =
    Ret (Locals s v ((w ++ [c]) ++ drop (length (w ++ [c])) D) (zlen (w ++ [c])) q g).
Proof.
  intros Hw. unfold push_key. cbn [keyname keylen st valuestr got_keyquote got_valquote].
  rewrite write_at_ptr by (simpl; lia). cbn [mbind outcome_bind].
  do 2 f_equal. rewrite (length_app w). simpl. lia.
Qed.

Lemma read_key ks w D v g rest tr : Forall (key_char ctx) ks -> zlen D = SIZEOF_KEYNAME -> zlen w + zlen ks < SIZEOF_KEYNAME ->
  parse_chars (ks ++ rest) (Locals NX_KVP_STATE_KEY v (w ++ drop (length w) D) (zlen w) false g) (ctx, tr) =
  parse_chars rest (Locals NX_KVP_STATE_KEY v ((w ++ ks) ++ drop (length (w ++ ks)) D) (zlen (w ++ ks)) false g) (ctx, tr).
Proof.
  destruct good as (_ & Hd & _). intros HF HD. revert w. induction HF as [|c ks (H0 & Hq & Hkv & He) HF IH]; intros w Hl; [by rewrite app_nil_r|].
  rewrite length_cons in Hl. cbn [app]. erewrite step.
  - rewrite (IH (w ++ [c])) by (rewrite length_app; simpl; lia). by rewrite <- (app_assoc w).
  - unfold parse_char. erewrite cmd_bind_Ret by reflexivity. cbn [st fst].
    rewrite !(proj2 (beq_false _ _)) by done. simpl (false && _). cbv iota. unfold add_key_char. cbn [keylen].
    rewrite (proj2 (Z.ltb_lt _ _)) by lia. unfold lift. by rewrite push_key_at by lia.
Qed.

(** A key and its delimiter. *)
Lemma read_plain_key k D kl q g rest tr : plain_key ctx k -> zlen D = SIZEOF_KEYNAME ->
  parse_chars (k ++ kvdelimiter ctx :: rest) (Locals NX_KVP_STATE_KEY_START None D kl q g) (ctx, tr) =
  parse_chars rest (Locals NX_KVP_STATE_VALUE_START None (k ++ drop (length k) D) (zlen k) false g) (ctx, tr).
Proof.
  intros (HF & Hl & _ & _ & Hfirst) HD. destruct k as [|c ks]; [done|]. destruct Hfirst as (Hsp & Hkvp & Hquote).
  apply Forall_cons in HF as [(H0 & Hq & Hkv & He) HF]. rewrite length_cons in Hl. cbn [app]. erewrite step.
  - rewrite (read_key ks [c] D None g) by (auto; simpl; lia). erewrite step; [reflexivity|].
    destruct good as (Hdq & Hd & _). unfold parse_char. erewrite cmd_bind_Ret by reflexivity. cbn [st fst].
    rewrite (proj2 (beq_false _ (keyquotechar ctx))), (proj2 (beq_false _ x00)), beq_refl by done. reflexivity.
  - unfold parse_char. erewrite cmd_bind_Ret by reflexivity. cbn [st fst].
    rewrite (proj2 (beq_false c " ")) by done.
    assert ((keyquotechar ctx =c x00) && IS_QUOTECHAR c = false) as ->.
    { destruct (keyquotechar ctx =c x00) eqn:E; [|done]. tests. by apply Hquote. }
    rewrite !(proj2 (beq_false c _)) by done. unfold add_key_char. cbn [keylen].
    rewrite (proj2 (Z.ltb_lt _ _)) by (unfold SIZEOF_KEYNAME; lia). unfold lift.
    f_equal. apply (push_key_at c [] D NX_KVP_STATE_KEY None false g). simpl. unfold SIZEOF_KEYNAME in *. lia.
Qed.

(** *** Values *)

Lemma append_char s t c : str_rep s t -> zlen t + 2 <= string_limit ->
  exists s', nx_string_append s [c] 1 = Ret s' /\ str_rep s' (t ++ [c]).
Proof.
  intros Hs Hl. destruct (nx_string_append_rep s t [c] 1 Hs) as (s' & Happ & Hs'); [simpl; lia|].
  exists s'. split; [done|]. by rewrite spec_append_fits in Hs' by (simpl; lia).
Qed.

Abbreviation at_value v K kl g := (Locals NX_KVP_STATE_VALUE (Some v) K kl false g).

(** A character that is collected as it is. *)
Lemma value_literal c s t K kl g rest tr : str_rep s t -> zlen t + 2 <= string_limit ->
  c <> valquotechar ctx -> c <> escapechar ctx -> (g = true \/ c <> kvpdelimiter ctx) ->
  exists s', parse_chars (c :: rest) (at_value s K kl g) (ctx, tr) = parse_chars rest (at_value s' K kl g) (ctx, tr) /\
    str_rep s' (t ++ [c]).
Proof.
  intros Hs Hl Hq He Hk. destruct (append_char s t c Hs Hl) as (s' & Happ & Hs'). exists s'. split; [|done].
  apply step. destruct good as (_ & _ & Hkvp & _). unfold parse_char. erewrite cmd_bind_Ret by reflexivity. cbn [st fst].
  unfold value_char. cbn [valuestr got_valquote]. rewrite (proj2 (beq_false c (valquotechar ctx))), (proj2 (beq_false _ x00)) by done.
  assert ((c =c kvpdelimiter ctx) && negb g = false) as ->.
  { apply andb_false_iff. destruct Hk as [->|Hk]; [by right|left]. by apply beq_false. }
  rewrite (proj2 (beq_false c (escapechar ctx))) by done. cbn [andb]. erewrite cmd_bind_Ret by reflexivity. rewrite Happ.
  by erewrite cmd_bind_Ret by reflexivity.
Qed.

(** An escape sequence. *)
Lemma value_escape l c s t K kl g rest tr : str_rep s t -> zlen t + 2 <= string_limit ->
  unescape_value ctx l s g = nx_string_append s [c] 1 ->
  exists s', parse_chars (escapechar ctx :: l :: rest) (at_value s K kl g) (ctx, tr) =
      parse_chars rest (at_value s' K kl g) (ctx, tr) /\ str_rep s' (t ++ [c]).
Proof.
  intros Hs Hl Hu. destruct (append_char s t c Hs Hl) as (s' & Happ & Hs'). exists s'. split; [|done].
  destruct good as (_ & _ & Hkvp & _ & _ & _ & Hke & Hqe & _).
  rewrite (step _ (l :: rest) _ (set_st NX_KVP_STATE_VALUE_ESCAPE (at_value s K kl g)) _ (ctx, tr)).
  - apply step. unfold parse_char. erewrite cmd_bind_Ret by reflexivity. cbn [st fst valuestr set_st].
    erewrite cmd_bind_Ret by reflexivity. cbn [got_valquote set_st]. rewrite Hu, Happ. by erewrite cmd_bind_Ret by reflexivity.
  - unfold parse_char. erewrite cmd_bind_Ret by reflexivity. cbn [st fst]. unfold value_char. cbn [valuestr got_valquote].
    rewrite (proj2 (beq_false _ (valquotechar ctx))), (proj2 (beq_false _ x00)), (proj2 (beq_false _ (kvpdelimiter ctx))), beq_refl by done.
    reflexivity.
Qed.

Lemma unescape_special c s g : c = escapechar ctx \/ c = valquotechar ctx ->
  unescape_value ctx c s g = nx_string_append s [c] 1.
Proof.
  intros Hc. destruct good as (_ & _ & _ & _ & _ & _ & _ & _ & _ & _ & _ & _ & _ & _ & Hqn & Hen).
  assert (c ∉ lit "nrtb") as Hn by (destruct Hc; by subst). unfold unescape_value.
  assert (forall d, d ∈ lit "nrtb" -> escape_control ctx && (c =c d) = false) as Hctl.
  { intros d Hd. apply andb_false_iff. right. apply beq_false. intros ->. done. }
  rewrite !Hctl by (vm_compute; set_solver). destruct (c =c escapechar ctx) eqn:E; tests; [by subst|].
  destruct Hc as [| ->]; [done|]. by rewrite beq_refl.
Qed.

Lemma value_one c s t K kl g rest tr : str_rep s t -> zlen t + 2 <= string_limit ->
  (g = true \/ wants_quote ctx c = false) ->
  exists s', parse_chars (escape_char (kvp_escape_class ctx) c ++ rest) (at_value s K kl g) (ctx, tr) =
      parse_chars rest (at_value s' K kl g) (ctx, tr) /\ str_rep s' (t ++ [c]).
Proof.
  intros Hs Hl Hg. pose proof good as (_ & _ & Hkvp & _ & _ & Hkq & Hke & Hqe & _ & _ & _ & Hk8 & Hq8 & He8 & _).
  unfold escape_char. rewrite high_bit. destruct (128 <=? bz c) eqn:E128; tests.
  { apply value_literal; auto; [intros ->; lia..|]. right. intros ->. lia. }
  unfold kvp_escape_class. unfold wants_quote in Hg. rewrite good_escapechar, good_quotechar in *.
  destruct (c =c escapechar ctx) eqn:Ee; tests.
  { subst c. apply value_escape; auto. apply unescape_special. auto. }
  destruct (c =c valquotechar ctx) eqn:Eq; tests.
  { subst c. apply value_escape; auto. apply unescape_special. auto. }
  destruct ((c =c " ") || (c =c kvpdelimiter ctx)) eqn:Eb.
  { apply value_literal; auto. left. destruct Hg as [|Hg]; [done|]. rewrite (proj2 (Z.ltb_lt _ _)) in Hg by lia. discriminate. }
  apply orb_false_iff in Eb as [_ Eb]. tests.
  assert (exists s', parse_chars ([c] ++ rest) (at_value s K kl g) (ctx, tr) = parse_chars rest (at_value s' K kl g) (ctx, tr) /\
    str_rep s' (t ++ [c])) as Hlit by (apply value_literal; auto).
  destruct (escape_control ctx) eqn:Ectl; [|exact Hlit].
  destruct (c =c x0a) eqn:C1; [tests; subst c; apply (value_escape "n"%byte); auto; unfold unescape_value; by rewrite Ectl|].
  destruct (c =c x0d) eqn:C2; [tests; subst c; apply (value_escape "r"%byte); auto; unfold unescape_value; by rewrite Ectl|].
  destruct (c =c x09) eqn:C3; [tests; subst c; apply (value_escape "t"%byte); auto; unfold unescape_value; by rewrite Ectl|].
  destruct (c =c x08) eqn:C4; [tests; subst c; apply (value_escape "b"%byte); auto; unfold unescape_value; by rewrite Ectl|].
  exact Hlit.
Qed.

Lemma value_all c s t K kl g rest tr : str_rep s t -> zlen t + zlen c + 1 <= string_limit ->
  (g = true \/ existsb (wants_quote ctx) c = false) ->
  exists s', parse_chars ((c ≫= escape_char (kvp_escape_class ctx)) ++ rest) (at_value s K kl g) (ctx, tr) =
      parse_chars rest (at_value s' K kl g) (ctx, tr) /\ str_rep s' (t ++ c).
Proof.
  revert s t. induction c as [|b c IH]; intros s t Hs Hl Hg; [exists s; rewrite app_nil_r; done|].
  rewrite length_cons in Hl. rewrite bind_cons, <- app_assoc.
  assert (g = true \/ wants_quote ctx b = false /\ existsb (wants_quote ctx) c = false) as Hg'.
  { destruct Hg as [|Hg]; [by left|]. right. cbn [existsb] in Hg. by apply orb_false_iff in Hg. }
  destruct (value_one b s t K kl g ((c ≫= escape_char (kvp_escape_class ctx)) ++ rest) tr Hs) as (s1 & H1 & Hs1); [lia|tauto|].
  destruct (IH s1 (t ++ [b]) Hs1) as (s2 & H2 & Hs2); [rewrite length_app; simpl; lia|tauto|].
  exists s2. rewrite H1, H2. split; [done|]. by rewrite <- app_assoc in Hs2.
Qed.

Lemma trim_plain k rest fuel : last k <> Some " "%byte -> (0 < length k <= fuel)%nat ->
  trim_key fuel (k ++ rest) (zlen k) = Ret (zlen k).
Proof.
  intros Hlast Hl. destruct k as [|d k' _] using rev_ind; [simpl in Hl; lia|]. rewrite last_snoc in Hlast.
  rewrite length_app in *. simpl in Hl. destruct fuel as [|fuel]; [lia|]. cbn [trim_key].
  rewrite (proj2 (Z.ltb_lt _ _)) by (simpl; lia).
  rewrite (load_at _ _ k' d rest) by (first [by rewrite <- app_assoc | simpl; lia]). cbn [mbind outcome_bind].
  rewrite (proj2 (beq_false d " ")) by congruence. done.
Qed.

Lemma add_field_at k D s t tr : plain_key ctx k -> zlen D = SIZEOF_KEYNAME -> str_rep s t ->
  exists K, add_logdata_field (k ++ drop (length k) D) (zlen k) false (Some s) (ctx, Trace tr) =
      ((ctx, Trace (tr ++ [(k, Logdata.str_value t)])), Ret K) /\ zlen K = SIZEOF_KEYNAME.
Proof.
  intros (HF & Hl & _ & Hlast & Hne) HD Hs. unfold add_logdata_field. erewrite cmd_bind_Ret by reflexivity. cbv iota.
  rewrite trim_plain by (first [done | destruct k; done || simpl; lia]). erewrite cmd_bind_Ret by reflexivity.
  rewrite write_at_ptr by (simpl; lia). erewrite cmd_bind_Ret by reflexivity.
  rewrite <- app_assoc. simpl app. rewrite cstr_app_nul, (str_rep_content _ _ Hs).
  - eexists. split; [reflexivity|]. lens.
  - unfold no_nul. rewrite Forall_forall in HF. intros H0. by destruct (HF _ H0).
Qed.

Abbreviation next_pair K kl g := (Locals NX_KVP_STATE_KEY_START None K kl false g).

(** The end of an unquoted and of a quoted value. *)
Lemma end_unquoted k D s t rest tr : plain_key ctx k -> zlen D = SIZEOF_KEYNAME -> str_rep s t ->
  exists K, parse_chars (kvpdelimiter ctx :: rest) (at_value s (k ++ drop (length k) D) (zlen k) false) (ctx, Trace tr) =
      parse_chars rest (next_pair K (zlen k) false) (ctx, Trace (tr ++ [(k, Logdata.str_value t)])) /\ zlen K = SIZEOF_KEYNAME.
Proof.
  intros Hk HD Hs. destruct (add_field_at k D s t tr Hk HD Hs) as (K & Hadd & HK). exists K. split; [|done].
  apply step. destruct good as (_ & _ & Hkvp & _ & _ & Hkq & _). unfold parse_char. erewrite cmd_bind_Ret by reflexivity. cbn [st fst].
  unfold value_char. cbn [got_valquote]. rewrite (proj2 (beq_false _ (valquotechar ctx))), (proj2 (beq_false _ x00)), beq_refl by done.
  cbn [andb negb]. unfold end_pair. by erewrite cmd_bind_Ret by exact Hadd.
Qed.

Lemma end_quoted k D s t rest tr : plain_key ctx k -> zlen D = SIZEOF_KEYNAME -> str_rep s t ->
  exists K, parse_chars (valquotechar ctx :: kvpdelimiter ctx :: rest)
      (at_value s (k ++ drop (length k) D) (zlen k) true) (ctx, Trace tr) =
      parse_chars rest (next_pair K (zlen k) true) (ctx, Trace (tr ++ [(k, Logdata.str_value t)])) /\ zlen K = SIZEOF_KEYNAME.
Proof.
  intros Hk HD Hs. destruct (add_field_at k D s t tr Hk HD Hs) as (K & Hadd & HK). exists K. split; [|done].
  destruct good as (_ & _ & Hkvp & _).
  rewrite (step _ (kvpdelimiter ctx :: rest) _
    (Locals NX_KVP_STATE_KVP_DELIMITER (Some s) (k ++ drop (length k) D) (zlen k) false true) _ (ctx, Trace tr)).
  - apply step. unfold parse_char. erewrite cmd_bind_Ret by reflexivity. cbn [st fst].
    rewrite (proj2 (beq_false _ x00)), beq_refl by done. cbn [andb]. unfold end_pair. by erewrite cmd_bind_Ret by exact Hadd.
  - unfold parse_char. erewrite cmd_bind_Ret by reflexivity. cbn [st fst]. unfold value_char. by rewrite beq_refl.
Qed.

(** The first character of an unquoted value, or the delimiter after an empty one. *)
Lemma start_unquoted d rest K kl g tr : d <> " "%byte -> d <> valquotechar ctx ->
  exists s, parse_chars (d :: rest) (Locals NX_KVP_STATE_VALUE_START None K kl false g) (ctx, tr) =
    parse_chars (d :: rest) (at_value s K kl false) (ctx, tr) /\ str_rep s [].
Proof.
  intros Hsp Hq. destruct nx_string_new_rep as (s & Hnew & Hs). exists s. split; [|done]. cbn [parse_chars].
  destruct good as (_ & _ & _ & Hvq & _). rewrite !(cmd_bind_Ret (on_record live) _ (ctx, tr) (ctx, tr) tt) by reflexivity. unfold mbind, cmd_bind.
  assert (parse_char d (Locals NX_KVP_STATE_VALUE_START None K kl false g) (ctx, tr) = parse_char d (at_value s K kl false) (ctx, tr)) as ->; [|done].
  unfold parse_char. do 2 (erewrite cmd_bind_Ret by reflexivity). cbn [st fst valuestr keyname keylen got_keyquote].
  rewrite (proj2 (beq_false d " ")) by done. erewrite cmd_bind_Ret by reflexivity. rewrite Hnew.
  erewrite cmd_bind_Ret by reflexivity. by rewrite (proj2 (beq_false _ x00)), (proj2 (beq_false d _)) by done.
Qed.

Lemma start_quoted rest K kl g tr :
  exists s, parse_chars (valquotechar ctx :: rest) (Locals NX_KVP_STATE_VALUE_START None K kl false g) (ctx, tr) =
    parse_chars rest (at_value s K kl true) (ctx, tr) /\ str_rep s [].
Proof.
  destruct nx_string_new_rep as (s & Hnew & Hs). exists s. split; [|done]. apply step.
  destruct good as (_ & _ & _ & Hvq & _ & _ & _ & _ & _ & Hsp & _). unfold parse_char.
  erewrite cmd_bind_Ret by reflexivity. cbn [st fst valuestr keyname keylen got_keyquote].
  rewrite (proj2 (beq_false _ " ")) by done. erewrite cmd_bind_Ret by reflexivity. rewrite Hnew.
  erewrite cmd_bind_Ret by reflexivity. by rewrite (proj2 (beq_false _ x00)), beq_refl by done.
Qed.

Lemma unquoted_head c rest : existsb (wants_quote ctx) c = false ->
  exists d rest', (c ≫= escape_char (kvp_escape_class ctx)) ++ kvpdelimiter ctx :: rest = d :: rest' /\
    d <> " "%byte /\ d <> valquotechar ctx.
Proof.
  pose proof good as (_ & _ & _ & _ & _ & Hkq & _ & Hqe & Hksp & Hqsp & Hesp & _ & Hq8 & _).
  intros Hw. destruct c as [|b c]; [by eexists _, _|]. cbn [existsb] in Hw. apply orb_false_iff in Hw as [Hw _].
  rewrite bind_cons, <- app_assoc. unfold wants_quote in Hw. rewrite good_escapechar, good_quotechar in Hw.
  unfold escape_char. rewrite high_bit. destruct (128 <=? bz b) eqn:E; tests.
  { eexists _, _. split; [reflexivity|]. split; intros ->; [by vm_compute in E|lia]. }
  rewrite (proj2 (Z.ltb_lt _ _)) in Hw by lia. unfold kvp_escape_class. rewrite good_escapechar, good_quotechar.
  destruct (b =c escapechar ctx); [by eexists _, _|]. destruct (b =c valquotechar ctx) eqn:Eq; [by eexists _, _|].
  tests. cbn [andb negb] in Hw. rewrite Hw. apply orb_false_iff in Hw as [Hb _]. tests.
  repeat case_test; by eexists _, _.
Qed.

(** A pair. *)
Lemma read_pair k c D kl q g rest tr : plain_key ctx k -> zlen c < string_limit -> zlen D = SIZEOF_KEYNAME ->
  exists K kl' g', parse_chars (kvp_pair ctx (k, c) ++ rest) (Locals NX_KVP_STATE_KEY_START None D kl q g) (ctx, Trace tr) =
      parse_chars rest (next_pair K kl' g') (ctx, Trace (tr ++ [(k, Logdata.str_value c)])) /\ zlen K = SIZEOF_KEYNAME.
Proof.
  intros Hk Hc HD. unfold kvp_pair, kvp_value. cbn [fst snd]. rewrite <- app_assoc. cbn [app].
  rewrite <- app_assoc, read_plain_key by done. cbn [app]. rewrite good_quotechar.
  destruct (existsb (wants_quote ctx) c) eqn:Ew.
  - cbn [app]. rewrite <- app_assoc. cbn [app].
    destruct (start_quoted ((c ≫= escape_char (kvp_escape_class ctx)) ++ valquotechar ctx :: kvpdelimiter ctx :: rest)
      (k ++ drop (length k) D) (zlen k) g (Trace tr)) as (s & -> & Hs).
    destruct (value_all c s [] (k ++ drop (length k) D) (zlen k) true (valquotechar ctx :: kvpdelimiter ctx :: rest) (Trace tr) Hs)
      as (s' & -> & Hs'); [simpl; lia|by left|].
    destruct (end_quoted k D s' c rest tr Hk HD Hs') as (K & -> & HK). by exists K, (zlen k), true.
  - destruct (unquoted_head c rest Ew) as (d & rest' & Hd & Hsp & Hq). rewrite Hd.
    destruct (start_unquoted d rest' (k ++ drop (length k) D) (zlen k) g (Trace tr) Hsp Hq) as (s & -> & Hs). rewrite <- Hd.
    destruct (value_all c s [] (k ++ drop (length k) D) (zlen k) false (kvpdelimiter ctx :: rest) (Trace tr) Hs)
      as (s' & -> & Hs'); [simpl; lia|by right|].
    destruct (end_unquoted k D s' c rest tr Hk HD Hs') as (K & -> & HK). by exists K, (zlen k), false.
Qed.

Definition as_fields (kcs : list (bytes * bytes)) : list (bytes * value) :=
  map (fun kc => (fst kc, Logdata.str_value (snd kc))) kcs.

Lemma read_pairs kcs D kl q g tr :
  Forall (fun kc => plain_key ctx (fst kc) /\ zlen (snd kc) < string_limit) kcs -> zlen D = SIZEOF_KEYNAME ->
  exists y, parse_chars (kcs ≫= kvp_pair ctx) (Locals NX_KVP_STATE_KEY_START None D kl q g) (ctx, Trace tr) =
      ((ctx, Trace (tr ++ as_fields kcs)), Ret y) /\ st y = NX_KVP_STATE_KEY_START /\ valuestr y = None.
Proof.
  intros HF. revert D kl q g tr. induction HF as [|[k c] kcs [Hk Hc] HF IH]; intros D kl q g tr HD.
  - eexists. split; [simpl; by rewrite app_nil_r|done].
  - rewrite bind_cons. cbn [fst snd] in *.
    destruct (read_pair k c D kl q g (kcs ≫= kvp_pair ctx) tr Hk Hc HD) as (K & kl' & g' & -> & HK).
    destruct (IH K kl' false g' (tr ++ [(k, Logdata.str_value c)]) HK) as (y & -> & Hy). exists y. split; [|done].
    by rewrite <- app_assoc.
Qed.

(** *** The writer *)

Lemma kvp_append_ret_rep x t src n :
  str_rep (retval x) t -> 0 <= n <= zlen src -> zlen t + n + 1 <= string_limit ->
  exists s', append_ret src n x = (WLocals s' (tmp x), Ret tt) /\ str_rep s' (t ++ take (Z.to_nat n) src).
Proof.
  intros Ht Hn Hl. unfold append_ret. destruct (nx_string_append_rep (retval x) t src n Ht Hn) as (s' & -> & Hs').
  exists s'. split; [done|]. by rewrite spec_append_fits in Hs' by (rewrite length_take; lia).
Qed.

Lemma append_key_rep x t k : str_rep (retval x) t -> no_nul k -> zlen t + zlen k + 1 <= string_limit ->
  exists s', append_ret (k ++ [x00]) (-1) x = (WLocals s' (tmp x), Ret tt) /\ str_rep s' (t ++ k).
Proof.
  intros Ht Hn Hl. unfold append_ret.
  destruct (nx_string_append_cstr (retval x) t k [] (-1) Ht Hn) as (s' & -> & Hs'); [unfold string_limit in *; lia|lia|].
  exists s'. split; [done|]. by rewrite spec_append_fits in Hs'.
Qed.

Lemma escape_value_rep s c : str_rep s c -> zlen (kvp_value ctx c) + 1 <= string_limit ->
  exists s', escape_value ctx s = Ret s' /\ str_rep s' (kvp_value ctx c).
Proof.
  intros Hs Hl. unfold escape_value, kvp_value in *. rewrite (str_rep_content _ _ Hs).
  pose proof Hs as (_ & _ & _ & Hlen & _). rewrite Hlen, Nat2Z.id.
  set (e := c ≫= escape_char (kvp_escape_class ctx)) in *.
  assert (zlen e + 1 <= string_limit) as He.
  { destruct (existsb (wants_quote ctx) c); [rewrite length_cons, length_app in Hl|]; lia. }
  destruct (escape_loop_rep (kvp_escape_class ctx) s [] c (length c) Hs) as (s1 & H1 & Hs1); [lia|by simpl; fold e; lia|].
  change (zlen []) with 0 in H1. rewrite H1. simpl app in Hs1. fold e in Hs1. cbn [mbind outcome_bind].
  destruct (existsb (wants_quote ctx) c); [|by exists s1]. rewrite length_cons, length_app in Hl. simpl (length [_]) in Hl.
  destruct (nx_string_prepend_rep s1 e [eff_quotechar ctx] Hs1) as (s2 & H2 & Hs2); [by unfold string_limit|].
  change (zlen [_]) with 1 in H2. rewrite H2. cbn [mbind outcome_bind].
  assert (spec_prepend e [eff_quotechar ctx] = eff_quotechar ctx :: e) as Hp.
  { unfold spec_prepend. change (zlen [_]) with 1. rewrite (proj2 (Z.ltb_ge _ _)) by lia. cbn [andb].
    apply take_ge. simpl. lia. }
  rewrite Hp in Hs2. destruct (append_char s2 (eff_quotechar ctx :: e) (eff_quotechar ctx) Hs2) as (s3 & H3 & Hs3); [rewrite length_cons; lia|].
  exists s3. by split.
Qed.

(** The fields of a record that are written, when they are strings under
    plain keys. *)
Inductive written : Logdata.alist -> list (bytes * bytes) -> Prop :=
| written_nil : written [] []
| written_skip k v fs kcs : skipped k = true -> written fs kcs -> written ((k, v) :: fs) kcs
| written_pair k c fs kcs : skipped k = false -> plain_key ctx k -> zlen c < string_limit -> written fs kcs ->
    written ((k, Logdata.str_value c) :: fs) ((k, c) :: kcs).

Lemma written_plain fs kcs : written fs kcs ->
  Forall (fun kc => plain_key ctx (fst kc) /\ zlen (snd kc) < string_limit) kcs.
Proof. induction 1; auto. Qed.

Context `{E : ValueEnv}.

Lemma kvp_write_string_rep x t c : str_rep (retval x) t -> zlen c < string_limit ->
  zlen t + zlen (kvp_value ctx c) + 1 <= string_limit ->
  exists s' p, write_value ctx (Logdata.str_value c) x = (WLocals s' p, Ret tt) /\ str_rep s' (t ++ kvp_value ctx c).
Proof.
  intros Ht Hc Hl. unfold write_value. cbn [Logdata.str_value v_type v_data]. erewrite cmd_bind_Ret by reflexivity.
  destruct c as [|b c'] eqn:Ec; [exists (retval x), (tmp x); rewrite app_nil_r; split; [by destruct x|done]|]. rewrite <- Ec in *.
  rewrite (proj2 (Z.ltb_lt 0 (zlen c))) by (rewrite Ec, length_cons; lia).
  destruct (nx_string_clone_rep (exact c) c) as (cl & Hcl & Hclr); [apply exact_rep; unfold string_limit in *; lia|done|].
  rewrite Hcl. do 2 (erewrite cmd_bind_Ret by reflexivity).
  destruct (escape_value_rep cl c Hclr) as (es & Hes & Hesr); [lia|]. rewrite Hes. erewrite cmd_bind_Ret by reflexivity.
  pose proof Hesr as (_ & (rest & Hbuf) & _ & Hlen & _). rewrite Hlen, s32_small by (unfold string_limit in *; lia).
  destruct (kvp_append_ret_rep (WLocals (retval x) Csv.Live) t (buf es) (zlen (kvp_value ctx c)) Ht) as (s2 & Hr2 & Hs2);
    [rewrite Hbuf, length_app; lia|lia|].
  exists s2, Csv.Freed. erewrite cmd_bind_Ret by exact Hr2. split; [done|].
  by rewrite Nat2Z.id, Hbuf, take_app_length in Hs2.
Qed.

Lemma write_pair_rep x t k c : str_rep (retval x) t -> plain_key ctx k -> zlen c < string_limit ->
  zlen t + zlen (kvp_pair ctx (k, c)) + 1 <= string_limit ->
  exists s' p, (_ ← append_ret (k ++ [x00]) (-1);
      _ ← append_ret [out_kvdelimiter ctx] 1;
      _ ← (if v_defined (Logdata.str_value c) =? FALSE then mret tt else write_value ctx (Logdata.str_value c));
      append_ret [out_kvpdelimiter ctx] 1) x = (WLocals s' p, Ret tt) /\ str_rep s' (t ++ kvp_pair ctx (k, c)).
Proof.
  intros Ht (HF & _) Hc Hl. unfold kvp_pair in Hl. cbn [fst snd] in Hl. rewrite length_app, length_cons, length_app in Hl.
  change (length [_]) with 1%nat in Hl. destruct good as (_ & Hd & Hp & _).
  assert (out_kvdelimiter ctx = kvdelimiter ctx) as -> by (unfold out_kvdelimiter; by rewrite (proj2 (beq_false _ _))).
  assert (out_kvpdelimiter ctx = kvpdelimiter ctx) as -> by (unfold out_kvpdelimiter; by rewrite (proj2 (beq_false _ _))).
  destruct (append_key_rep x t k Ht) as (s1 & H1 & Hs1); [|lia|].
  { unfold no_nul. rewrite Forall_forall in HF. intros H0. by destruct (HF _ H0). }
  erewrite cmd_bind_Ret by exact H1.
  destruct (kvp_append_ret_rep (WLocals s1 (tmp x)) (t ++ k) [kvdelimiter ctx] 1 Hs1) as (s2 & H2 & Hs2); [simpl; lia|lens|].
  erewrite cmd_bind_Ret by exact H2. change (v_defined _ =? FALSE) with false. cbv iota.
  destruct (kvp_write_string_rep (WLocals s2 (tmp x)) _ c Hs2 Hc) as (s3 & p3 & H3 & Hs3); [simpl take; lens|].
  erewrite cmd_bind_Ret by exact H3.
  destruct (kvp_append_ret_rep (WLocals s3 p3) _ [kvpdelimiter ctx] 1 Hs3) as (s4 & H4 & Hs4); [simpl; lia|simpl take; lens|].
  exists s4, p3. split; [exact H4|]. unfold kvp_pair. cbn [fst snd]. by rewrite <- !app_assoc in Hs4.
Qed.

Lemma kvp_write_fields_rep fs kcs x t : written fs kcs -> str_rep (retval x) t ->
  zlen t + zlen (kcs ≫= kvp_pair ctx) + 1 <= string_limit ->
  exists x', write_fields ctx fs x = (x', Ret tt) /\ str_rep (retval x') (t ++ (kcs ≫= kvp_pair ctx)).
Proof.
  intros Hw. revert x t. induction Hw as [|k v fs kcs Hsk Hw IH|k c fs kcs Hsk Hk Hc Hw IH]; intros x t Ht Hl; cbn [write_fields].
  - exists x. by rewrite app_nil_r.
  - rewrite Hsk. erewrite cmd_bind_Ret by reflexivity. by apply IH.
  - rewrite Hsk. rewrite bind_cons in Hl |- *. rewrite length_app in Hl.
    destruct (write_pair_rep x t k c Ht Hk Hc) as (s1 & p1 & H1 & Hs1); [lia|]. erewrite cmd_bind_Ret by exact H1.
    destruct (IH (WLocals s1 p1) (t ++ kvp_pair ctx (k, c)) Hs1) as (x' & -> & Hx'); [rewrite length_app; lia|].
    exists x'. split; [done|]. by rewrite <- app_assoc in Hx'.
Qed.

End roundtrip.

(** ** Properties *)

(** C30: safety of the parser and its effect: on any terminated text of less than
    2 GB and with any context, [nx_kvp_parse] returns or throws: the key stays
    inside its 256 bytes, the value is never used when it is NULL, no assertion
    fails; and any record gets exactly the fields, in order, that the parser
    collects when the record is a trace.  Two conditions on the keys that the text
    sets: none may be the name of [raw_event] in another case (such a pair leaves the
    record with a dangling [raw_event]), and if the text is the buffer of the record's
    own [raw_event], as in a call of parse_kvp() without argument, a pair with the key
    [raw_event] frees the text: then the only other outcome is that the parser uses
    the text after it was freed.  Without such a pair that call does the same too. *)
Theorem kvp_parse_safe `{M : Malloc} {R : Type} `{L : RecordLaws R} ctx src n :
  x00 ∈ src -> 0 <= n <= zlen src -> zlen src < 2 ^ 31 ->
  exists ctx' new o, (o = Ret tt \/ exists e, o = Throw e) /\
    nx_kvp_parse src n (ctx, Trace []) = ((ctx', Trace new), o) /\
    forall r al, denotes r al -> Forall (fun kv => Logdata.settable (fst kv) (snd kv)) new ->
      (exists r', nx_kvp_parse src n (ctx, r) = ((ctx', r'), o) /\ denotes r' (replay new al)) /\
      ((exists r', nx_kvp_parse src n (ctx, WithText r true true) = ((ctx', WithText r' true (negb (sets_raw new))), o) /\ denotes r' (replay new al)) \/
       (sets_raw new = true /\ exists s', nx_kvp_parse src n (ctx, WithText r true true) = (s', Undef freed_text))).
Proof.
  intros Hnul Hn H31. destruct (nx_kvp_parse_sim (own := false) (T := R) src n ctx) as (ctx' & new & o & H1 & Ho & H2); [done..|lia|done|].
  destruct (nx_kvp_parse_sim (own := true) (T := with_text R) src n ctx) as (c2 & new2 & o2 & H1' & _ & H2'); [done..|lia|done|].
  specialize (H1 []). specialize (H1' []). rewrite H1 in H1'. injection H1' as <- <- <-.
  exists ctx', new, o. split_and!; [destruct o as [[]|e|e|e]; simpl in Ho; eauto; contradiction|exact H1|]. intros r al Hr Hset. split.
  - destruct (H2 r true al (conj eq_refl Hr) Hset) as [(r' & Hrun & _ & Hr')|[Hdead _]]; [by exists r'|discriminate].
  - destruct (H2' (WithText r true true) true al) as [([r' b b'] & Hrun & Hb & Hb' & Hr')|[Hdead Hrun]]; [done|done| |].
    + left. cbn in Hb, Hb', Hr'. subst. by exists r'.
    + right. by destruct (sets_raw new).
Qed.

(** The context of a parser that has seen nothing. *)
Definition empty_ctx : nx_kvp_ctx := nx_kvp_ctx_init (KvpCtx x00 x00 x00 x00 x00 true).

Lemma kvp_parse_safe_witness :
  exists ctx' new o, (o = Ret tt \/ exists e, o = Throw e) /\
    nx_kvp_parse (M := poison_malloc) (lit "a='x y', b=2" ++ [x00]) 12 (empty_ctx, Trace []) = ((ctx', Trace new), o) /\
    forall (r al : Logdata.alist), denotes r al -> Forall (fun kv => Logdata.settable (fst kv) (snd kv)) new ->
      (exists r', nx_kvp_parse (M := poison_malloc) (lit "a='x y', b=2" ++ [x00]) 12 (empty_ctx, r) = ((ctx', r'), o) /\
        denotes r' (replay new al)) /\
      ((exists r', nx_kvp_parse (M := poison_malloc) (lit "a='x y', b=2" ++ [x00]) 12 (empty_ctx, WithText r true true) =
          ((ctx', WithText r' true (negb (sets_raw new))), o) /\ denotes r' (replay new al)) \/
       (sets_raw new = true /\ exists s', nx_kvp_parse (M := poison_malloc) (lit "a='x y', b=2" ++ [x00]) 12 (empty_ctx, WithText r true true) =
          (s', Undef freed_text))).
Proof.
  apply (kvp_parse_safe (M := poison_malloc) (R := Logdata.alist) empty_ctx (lit "a='x y', b=2" ++ [x00]) 12).
  - apply (bool_decide_unpack _). vm_compute. exact I.
  - split; vm_compute; discriminate.
  - vm_compute. reflexivity.
Defined.

(** A call on the buffer of [raw_event] with a pair of that name: the next character is
    read from freed memory. *)
Theorem kvp_raw_event_freed :
  snd (nx_kvp_parse (M := poison_malloc) (lit "raw_event=x, b=y" ++ [x00]) 16
    (empty_ctx, WithText [(Logdata.raw_key, Logdata.str_value (lit "raw_event=x, b=y"))] true true)) = Undef freed_text.
Proof. vm_compute. reflexivity. Qed.

(** The line of that witness sets two fields and finds out three characters. *)
Example parse_quoted_pair :
  nx_kvp_parse (M := poison_malloc) (lit "a='x y', b=2") 12 (empty_ctx, ([] : Logdata.alist)) =
    ((KvpCtx "="%byte ","%byte x00 "'"%byte x00 true,
      [(lit "a", Logdata.str_value (lit "x y")); (lit "b", Logdata.str_value (lit "2"))]), Ret tt).
Proof. vm_compute. reflexivity. Qed.

(** C31: round trip: a record whose written fields are strings under keys that
    need no quotes is written by [nx_logdata_to_kvp] to a line from which [nx_kvp_parse]
    sets the same fields to the same values in any record, whatever bytes the values have;
    the fields that are not written are [raw_event] and those whose names start with a dot or an
    underscore.  The context is fully configured: KVDelimiter, KVPDelimiter, QuoteChar and EscapeChar are
    given; the last three are ASCII, different from each other and none of them a space (with a space as
    the delimiter of pairs an empty value is written so that it swallows the next
    pair); KVDelimiter is not the quote of keys; quote and escape are none of the
    letters n, r, t and b.  A key is not empty, shorter than 256 bytes, not [raw_event] in
    any case, has no NUL, no KVDelimiter, no EscapeChar and no quote of keys in it, does
    not begin or end with a space, and does not begin with the KVPDelimiter or, if no quote
    of keys is configured, with a quote.  At least one field is written, values
    and the line are shorter than the string limit. *)
Theorem kvp_roundtrip `{M : Malloc} `{E : ValueEnv} {R : Type} `{L : RecordLaws R} ctx fs kcs r al :
  good_ctx ctx -> written ctx fs kcs -> kcs <> [] -> zlen (kcs ≫= kvp_pair ctx) < string_limit -> denotes r al ->
  exists s r', nx_logdata_to_kvp ctx fs = Ret s /\
    nx_kvp_parse (buf s) (len s) (ctx, r) = ((ctx, r'), Ret tt) /\ denotes r' (replay (as_fields kcs) al).
Proof.
  intros Hg Hw Hne Hl Hr. destruct (nx_string_new_size_rep 150) as (s0 & Hs0 & Hs0r & _); [unfold string_limit; lia|].
  destruct (kvp_write_fields_rep ctx Hg fs kcs (WLocals s0 Csv.Null) [] Hw Hs0r) as (x & Hrun & Hx); [simpl (zlen []); lia|].
  simpl app in Hx. exists (retval x). pose proof Hx as (_ & (rest & Hbuf) & _ & Hlen & _).
  assert (0 < zlen (kcs ≫= kvp_pair ctx)) as Hpos.
  { destruct kcs as [|[k c] kcs]; [done|]. rewrite bind_cons. unfold kvp_pair. cbn [fst snd]. lens. }
  destruct (nx_kvp_parse_sim (own := false) (T := R) (buf (retval x)) (len (retval x)) ctx) as (ctx' & new & o & H1 & _ & H2);
    [rewrite Hbuf; set_solver|rewrite Hlen, Hbuf, length_app; lia|unfold string_limit in *; lia|lia|].
  destruct (read_pairs ctx Hg kcs (malloc SIZEOF_KEYNAME) 0 false false [] (written_plain _ _ _ Hw)) as (y & Hy & Hst & Hv);
    [by apply malloc_length|].
  assert (nx_kvp_parse (buf (retval x)) (len (retval x)) (ctx, Trace []) = ((ctx, Trace (as_fields kcs)), Ret tt)) as Htr.
  { unfold nx_kvp_parse. rewrite Hlen, (proj2 (Z.eqb_neq _ 0)) by lia. erewrite cmd_bind_Ret by reflexivity.
    unfold parse_kvp. rewrite s32_small, Z.max_r by (unfold string_limit in *; lia).
    rewrite (mem_read_at (buf (retval x)) 0 (zlen (kcs ≫= kvp_pair ctx)) [] (buf (retval x)))
      by (first [done | rewrite Hbuf, length_app; lia]).
    rewrite Nat2Z.id, Hbuf, take_app_length. erewrite cmd_bind_Ret by reflexivity. erewrite cmd_bind_Ret by exact Hy.
    unfold parse_end. by rewrite Hst, Hv. }
  rewrite (H1 []) in Htr. injection Htr as -> -> ->. simpl in H1.
  destruct (H2 r true al (conj eq_refl Hr)) as [(r' & Hrun' & _ & Hr')|[Hdead _]]; [|exists r'; split_and!; auto|discriminate].
  - pose proof (written_plain _ _ _ Hw) as HF. unfold as_fields. apply Forall_map. eapply Forall_impl; [exact HF|].
    intros [k c] ((_ & _ & Hraw & _) & _). simpl in *. intros Hk. by rewrite Hraw in Hk.
  - unfold nx_logdata_to_kvp. rewrite Hs0. cbn [mbind outcome_bind]. by rewrite Hrun.
Qed.

(** A fully configured context. *)
Definition full_ctx : nx_kvp_ctx := KvpCtx "=" ";" x00 "'" "\" true.

Lemma kvp_roundtrip_witness :
  exists s r', nx_logdata_to_kvp (M := poison_malloc) (E := plain_env) full_ctx
      [(Logdata.raw_key, Logdata.str_value (lit "line")); (lit "user name", Logdata.str_value (lit "it's; a\b" ++ [x0a]));
       (lit "b", Logdata.str_value [])] = Ret s /\
    nx_kvp_parse (M := poison_malloc) (buf s) (len s) (full_ctx, ([] : Logdata.alist)) = ((full_ctx, r'), Ret tt) /\
    denotes r' (replay (as_fields [(lit "user name", lit "it's; a\b" ++ [x0a]); (lit "b", [])]) []).
Proof.
  apply (kvp_roundtrip (M := poison_malloc) (E := plain_env) (R := Logdata.alist) full_ctx).
  - split_and!; try discriminate; try (vm_compute; reflexivity); apply (bool_decide_unpack _); reflexivity.
  - apply written_skip; [reflexivity|].
    apply written_pair; [reflexivity| |vm_compute; reflexivity|].
    { split_and!; try discriminate; try (vm_compute; reflexivity).
      2: by (split_and!; [discriminate|discriminate|reflexivity]).
      apply (bool_decide_unpack (Forall (fun c => c <> x00 /\ c <> x00 /\ c <> "="%byte /\ c <> "\"%byte) (lit "user name"))).
      reflexivity. }
    apply written_pair; [reflexivity| |vm_compute; reflexivity|constructor].
    split_and!; try discriminate; try (vm_compute; reflexivity).
    2: by (split_and!; [discriminate|discriminate|reflexivity]).
    apply (bool_decide_unpack (Forall (fun c => c <> x00 /\ c <> x00 /\ c <> "="%byte /\ c <> "\"%byte) (lit "b"))).
    reflexivity.
  - discriminate.
  - vm_compute. reflexivity.
  - reflexivity.
Defined.

(** Two values the writer corrupts when the context is not configured: the
    default delimiter [;] inside a value is not quoted, so that the line does not
    parse; and a line feed is replaced by NUL and [n], because the configured
    escape character, not the default one, is stored. *)
Theorem kvp_writer_gaps :
  (exists s, nx_logdata_to_kvp (M := poison_malloc) (E := plain_env) empty_ctx [(lit "a", Logdata.str_value (lit "x;y"))] = Ret s /\
    content s = lit "a=x;y;" /\
    exists st e, nx_kvp_parse (M := poison_malloc) (buf s) (len s) (empty_ctx, Trace []) = (st, Throw e)) /\
  exists s, nx_logdata_to_kvp (M := poison_malloc) (E := plain_env) empty_ctx [(lit "a", Logdata.str_value [x0a])] = Ret s /\
    content s = lit "a=" ++ [x00; "n"%byte] ++ lit ";".
Proof.
  split; eexists; (split; [vm_compute; reflexivity|]); [split; [reflexivity|eexists _, _; vm_compute; reflexivity]|reflexivity].
Qed.

(** Parsing a pair whose key is [raw_event] in another case leaves the record
    with a dangling [raw_event]: the next use of it is a use after free. *)
Theorem kvp_raw_event_dangling :
  exists st, nx_kvp_parse (M := poison_malloc) (lit "Raw_Event=x;") 12 (empty_ctx, (Logdata.one_line_heap, Logdata.one_line)) = (st, Ret tt) /\
    snd (Logdata.nx_logdata_append_logline (M := poison_malloc) (lit "x") 1 (snd st)) = Undef "string used after it was freed".
Proof. eexists. split; [vm_compute; reflexivity|]. vm_compute. reflexivity. Qed.

End Kvp.
