(* ===== verification/Syslog.v ===== *)
(** * Syslog messages (modules/extension/syslog/syslog.c)

    The parsers of BSD and IETF syslog messages and the writers of both formats and of the
    Snare format.

    The text is a block that ends with the terminator.  A pointer into it is represented by
    what follows it up to the end of the block, so that a pointer behind the terminator is
    the empty list and reading there is undefined; the difference of two pointers is a
    difference of lengths, NULL is [None].

    The parsers set fields of a record through [RecordOps].  The text may be the buffer of
    the record's own [raw_event] ([RecordIface.with_text]), as in a call of parse_syslog()
    without argument and in pm_transformer.c.  The writers read the fields
    from an association list and replace the string that [raw_event] points to, which is
    their state. *)

From S2P Require Import Prelude Dlist CLib Str Date DateFormat Value Serialize Logdata RecordIface.
Import Str Value Logdata.

Module Syslog.

(** ** Facilities, severities and levels *)

Definition NX_SYSLOG_FACILITY_USER : Z := 1.
Definition NX_SYSLOG_FACILITY_LOCAL7 : Z := 23.
Definition NX_SYSLOG_SEVERITY_NOTICE : Z := 5.
Definition NX_SYSLOG_SEVERITY_NOPRI : Z := 8.

Definition syslog_facilities : list (Z * bytes) :=
  [ (1, lit "USER"); (5, lit "SYSLOG"); (3, lit "DAEMON"); (0, lit "KERN"); (2, lit "MAIL"); (4, lit "AUTH"); (6, lit "LPR");
    (7, lit "NEWS"); (8, lit "UCP"); (9, lit "CRON"); (10, lit "AUTHPRIV"); (11, lit "FTP"); (12, lit "NTP"); (13, lit "AUDIT");
    (14, lit "FACALERT"); (15, lit "CRON2"); (16, lit "LOCAL0"); (17, lit "LOCAL1"); (18, lit "LOCAL2"); (19, lit "LOCAL3");
    (20, lit "LOCAL4"); (21, lit "LOCAL5"); (22, lit "LOCAL6"); (23, lit "LOCAL7") ].

Definition syslog_severities : list (Z * bytes) :=
  [ (6, lit "INFO"); (3, lit "ERR"); (3, lit "ERROR"); (5, lit "NOTICE"); (1, lit "ALERT"); (2, lit "CRIT"); (2, lit "CRITICAL");
    (7, lit "DEBUG"); (0, lit "EMERG"); (0, lit "EMERGENT"); (0, lit "PANIC"); (8, lit "NONE"); (4, lit "WARNING"); (4, lit "WARN") ].

(** The levels and their names of common/error_debug.c. *)
Definition loglevels : list (Z * bytes) :=
  [ (1, lit "DEBUG"); (2, lit "INFO"); (3, lit "WARNING"); (4, lit "ERROR"); (5, lit "CRITICAL") ].

Definition key_of (table : list (Z * bytes)) (str : bytes) : option Z :=
  (fun r => fst (snd r)) <$> list_find (fun kv => strcasecmp_eq (snd kv) str = true) table.
Definition name_of (table : list (Z * bytes)) (key : Z) : option bytes :=
  (fun r => snd (snd r)) <$> list_find (fun kv => fst kv = key) table.

(** An unknown name is 0. *)
Definition nx_syslog_facility_from_string (str : bytes) : Z := default 0 (key_of syslog_facilities str).
Definition nx_syslog_facility_to_string (facility : Z) : option bytes := name_of syslog_facilities facility.
Definition nx_syslog_severity_from_string (str : bytes) : Z := default 0 (key_of syslog_severities str).
Definition nx_syslog_severity_to_string (severity : Z) : option bytes := name_of syslog_severities severity.
Definition nx_loglevel_from_string (str : bytes) : Z := default 0 (key_of loglevels str).
Definition nx_loglevel_to_string (level : Z) : bytes := default (lit "UNKNOWN") (name_of loglevels level).

(** The level of a severity. *)
Definition normalize_severity (sev : Z) : Z :=
  if sev =? 6 then 2 else if sev =? 3 then 4 else if sev =? 5 then 2 else if sev =? 1 then 3 else if sev =? 2 then 5
  else if sev =? 7 then 1 else if sev =? 0 then 4 else if sev =? 8 then 2 else if sev =? 4 then 3 else 2.

(** ** Pointers *)

(** [*p] *)
Definition peek (p : bytes) : outcome byte :=
  match p with c :: _ => Ret c | [] => Undef "read behind the text" end.

(** [p + n] *)
Definition advance (n : Z) (p : bytes) : outcome bytes :=
  if (0 <=? n) && (n <=? zlen p) then Ret (drop (Z.to_nat n) p) else Undef "pointer behind the text".

(** [for ( ; f( *p); p++ );] *)
Fixpoint skip (f : byte -> bool) (p : bytes) : outcome bytes :=
  match p with
  | c :: p' => if f c then skip f p' else Ret p
  | [] => Undef "read behind the text"
  end.

Definition is_space (c : byte) : bool := c =c " ".
Definition is_alnum (c : byte) : bool :=
  (48 <=? bz c) && (bz c <=? 57) || (97 <=? bz c) && (bz c <=? 122) || (65 <=? bz c) && (bz c <=? 90).
Definition IS_HOSTCHAR (c : byte) : bool := is_alnum c || (c =c ".") || (c =c "_") || (c =c "-") || (c =c "/").
Definition IS_TAGCHAR (c : byte) : bool := is_alnum c || (c =c "_") || (c =c "-") || (c =c "/") || (c =c ".").
(** A character of a token. *)
Definition in_token (c : byte) : bool := negb (c =c " ") && negb (c =c x00).

(** The length of a range that is not empty. *)
Definition range (start end_ : option bytes) : option (bytes * Z) :=
  match start, end_ with
  | Some s, Some e => if zlen e <? zlen s then Some (s, zlen s - zlen e) else None
  | _, _ => None
  end.

Section parser.
Context `{M : Malloc} `{E : ValueEnv} {R : Type} `{RO : RecordOps R}.
(** [nx_get_hostname] *)
Context (hostname : bytes).

(** ** Setting fields *)

Definition set_text (key : bytes) (start : bytes) (n : Z) : cmd R unit :=
  s ← lift (nx_string_create start n);
  rec_set key (str_value (content s)).

(** A field with the text of a range, if the range is not empty. *)
Definition set_range (key : bytes) (start end_ : option bytes) : cmd R unit :=
  match range start end_ with Some (s, n) => set_text key s n | None => mret tt end.

Definition set_syslog_hostname (hoststart hostend : option bytes) : cmd R unit :=
  match range hoststart hostend with
  | Some (s, n) => set_text (lit "Hostname") s n
  | None =>
      r ← get;
      recv_from ← lift (rec_get (lit "MessageSourceAddress") r);
      match recv_from with
      | None => s ← lift (nx_string_clone (exact hostname)); rec_set (lit "Hostname") (str_value (content s))
      | Some v => v ← lift (Value.nx_value_clone v); rec_set (lit "Hostname") v
      end
  end.

Definition set_syslog_appname := set_range (lit "SourceName").
Definition set_syslog_procid := set_range (lit "ProcessID").
Definition set_syslog_msgid := set_range (lit "MessageID").
Definition set_syslog_timestamp (date : Z) : cmd R unit := rec_set (lit "EventTime") (nx_value_new_datetime date).

(** A line feed at the end is left out. *)
Definition set_syslog_message (start end_ : option bytes) : cmd R unit :=
  match range start end_ with
  | None => mret tt
  | Some (s, n) =>
      c ← lift (load s (n - 1));
      let n := if c =c x0a then n - 1 else n in
      if n =? 0 then mret tt else set_text (lit "Message") s n
  end.

(** ** The priority *)

(** The digits at [p], which is [pos] characters behind the start; [None] if there are too
    many. *)
Fixpoint pri_digits (p : bytes) (pos priority : Z) : outcome (option (bytes * Z)) :=
  match p with
  | [] => Undef "read behind the text"
  | c :: p' =>
      if isdigit c then
        if 6 <? pos then Ret None else pri_digits p' (pos + 1) (priority * 10 + (bz c - 48))
      else Ret (Some (p, priority))
  end.

(** What follows the priority, the priority (-1 if there is none) and [retval]. *)
Definition scan_priority (string : bytes) : outcome (bytes * Z * bool) :=
  c ← peek string;
  if c =c "<" then
    p ← advance 1 string;
    d ← pri_digits p 1 0;
    match d with
    | None => Ret (string, -1, false)
    | Some (p, priority) =>
        c ← peek p;
        if c =c ">" then
          p ← advance 1 p;
          c ← peek p;
          p ← (if c =c " " then advance 1 p else Ret p);
          Ret (p, priority, true)
        else Ret (p, -1, true)
    end
  else Ret (string, -1, false).

(** Facility and severity of a priority. *)
Definition split_priority (priority : Z) : Z * Z :=
  if priority =? -1 then (NX_SYSLOG_FACILITY_USER, NX_SYSLOG_SEVERITY_NOTICE)
  else
    let fac := Z.shiftr priority 3 in
    if NX_SYSLOG_FACILITY_LOCAL7 <? fac then (NX_SYSLOG_FACILITY_USER, NX_SYSLOG_SEVERITY_NOTICE)
    else
      let sev := Z.land priority 7 in
      if NX_SYSLOG_SEVERITY_NOPRI <? sev then (fac, NX_SYSLOG_SEVERITY_NOTICE) else (fac, sev).

(** [nx_value_new_string] of a name; NULL is not accepted. *)
Definition set_name (key : bytes) (name : option bytes) : cmd R unit :=
  name ← lift (deref name "NULL string");
  v ← lift (nx_value_new_string name);
  rec_set key v.

Definition parse_syslog_priority (string : bytes) : cmd R (bytes * bool) :=
  '(ptr, priority, retval) ← lift (scan_priority string);
  let '(fac, sev) := split_priority priority in
  let loglevel := normalize_severity sev in
  _ ← rec_set (lit "SyslogFacilityValue") (nx_value_new_integer fac);
  _ ← set_name (lit "SyslogFacility") (nx_syslog_facility_to_string fac);
  _ ← rec_set (lit "SyslogSeverityValue") (nx_value_new_integer sev);
  _ ← set_name (lit "SyslogSeverity") (nx_syslog_severity_to_string sev);
  _ ← rec_set (lit "SeverityValue") (nx_value_new_integer loglevel);
  _ ← set_name (lit "Severity") (Some (nx_loglevel_to_string loglevel));
  mret (ptr, retval).

(** ** BSD syslog *)

(** The pointers that the parser sets; [ptr] is the current one. *)
Record parts := Parts {
  hoststart : option bytes; hostend : option bytes;
  appstart : option bytes; append : option bytes;
  pidstart : option bytes; pidend : option bytes;
  msgstart : option bytes;
  ptr : bytes
}.

(** The end of a date that was parsed at [p]: the parser got the address of the
    pointer. *)
Definition date_end (e : option (option Z)) (p : bytes) : outcome bytes :=
  match e with Some (Some n) => advance n p | _ => Undef "dateend" end.

(** Without a date the text starts with the tag. *)
Definition parts_no_date (start p : bytes) : outcome parts :=
  q ← skip IS_TAGCHAR p;
  Ret (Parts None None (Some p) (Some q) None None (Some start) q).

(** Behind the date, the host and the start of the tag. *)
Definition parts_date (p : bytes) : outcome parts :=
  p ← skip is_space p;
  q ← skip IS_HOSTCHAR p;
  if zlen p =? zlen q then Ret (Parts None None None None None None (Some p) q)
  else
    c ← peek q;
    if c =c x00 then Ret (Parts (Some p) (Some q) None None None None None q)
    else if c =c "[" then Ret (Parts None None (Some p) None None None (Some p) q)
    else if negb (c =c " ") && negb (c =c ":") then Ret (Parts None None None None None None (Some p) q)
    else if c =c ":" then Ret (Parts None None (Some p) (Some q) None None (Some q) q)
    else
      a ← skip is_space q;
      b ← skip IS_TAGCHAR a;
      Ret (Parts (Some p) (Some q) (Some a) None None None (Some b) b).

(** The character that ends a process number. *)
Definition in_pid (c : byte) : bool := negb (c =c x00) && negb (c =c "]") && negb (c =c " ").

(** [p] or the next character if [*p] is [c]. *)
Definition skip_one (c : byte) (p : bytes) : outcome bytes :=
  d ← peek p; if d =c c then advance 1 p else Ret p.

(** A process number in brackets behind the tag that starts at [app]. *)
Definition parse_pid (app : bytes) (x : parts) : outcome parts :=
  p ← advance 1 (ptr x);
  q ← skip in_pid p;
  c ← peek q;
  r ← skip_one "]" q;
  d ← peek r;
  s ← skip_one ":" r;
  s ← skip_one " " s;
  if (c =c "]") && (d =c ":") then
    Ret (Parts (hoststart x) (hostend x) (Some app) (Some (ptr x)) (Some p) (Some q) (Some s) s)
  else Ret (Parts (hoststart x) (hostend x) None None (Some p) None (Some app) s).

(** The tag.  The condition of the code, [(got_date == TRUE) || (got_pri = TRUE)], holds
    always. *)
Definition parse_tag (x : parts) : outcome parts :=
  match appstart x with
  | None => Ret x
  | Some app =>
      c ← peek app;
      if c =c "[" then Ret (Parts (hoststart x) (hostend x) None (append x) (pidstart x) (pidend x) (msgstart x) (ptr x))
      else
        d ← peek (ptr x);
        if d =c "[" then parse_pid app x
        else if d =c ":" then
          p ← advance 1 (ptr x);
          p ← skip_one " " p;
          Ret (Parts (hoststart x) (hostend x) (Some app) (Some (ptr x)) (pidstart x) (pidend x) (Some p) p)
        else Ret (Parts (hoststart x) (hostend x) None (append x) (pidstart x) (pidend x) (Some app) (ptr x))
  end.

(** The length of the text is computed if it is 0. *)
Definition msg_end (string : bytes) (stringlen : Z) : outcome bytes :=
  n ← (if stringlen <=? 0 then strlen string else Ret stringlen);
  advance n string.

(** The result of [nx_date_fix_year] is not checked. *)
Definition nx_syslog_parse_rfc3164 (string : bytes) (stringlen : Z) : cmd R bool :=
  msgend ← lift (msg_end string stringlen);
  '(p, retval) ← parse_syslog_priority string;
  '(date, e) ← lift (Date.nx_date_parse (cstr p) (Some (Some 0)));
  q ← lift (date_end e p);
  x ← (match date with
       | None =>
           _ ← rec_set (lit "EventTime") (nx_value_new_datetime apr_time_now);
           lift (parts_no_date p q)
       | Some _ => lift (parts_date q)
       end);
  x ← lift (parse_tag x);
  _ ← set_syslog_hostname (hoststart x) (hostend x);
  _ ← (match date with
       | Some t => t' ← lift (Date.nx_date_fix_year t); set_syslog_timestamp (default t t')
       | None => mret tt
       end);
  _ ← set_syslog_appname (appstart x) (append x);
  _ ← set_syslog_procid (pidstart x) (pidend x);
  _ ← set_syslog_message (msgstart x) (Some msgend);
  mret retval.

(** ** IETF syslog *)

Definition SIZEOF_SD_NAME : Z := 40.
Definition SIZEOF_PARAM_NAME : Z := 80.

(** The characters that end the names of structured data. *)
Definition ends_name (c : byte) : bool := (c =c "=") || (c =c " ") || (c =c x22) || (c =c "]").
(** The character that is stored in a name. *)
Definition name_char (c : byte) : byte := if IS_HOSTCHAR c then c else "_"%byte.

(** The loop that copies the name of a parameter to the array [name]. *)
Fixpoint param_name_loop (p : bytes) (i : Z) (name : bytes) : outcome (bytes * Z * bytes) :=
  match p with
  | [] => Undef "read behind the text"
  | c :: p' =>
      if (c =c x00) || (SIZEOF_PARAM_NAME - 1 <=? i) || ends_name c then Ret (p, i, name)
      else name ← mem_write name i [name_char c]; param_name_loop p' (i + 1) name
  end.

(** The loop that unescapes the value of a parameter; [None] beyond 64 KB. *)
Fixpoint param_value_loop (p : bytes) (v : nx_string) : outcome (option (bytes * nx_string)) :=
  match p with
  | [] => Undef "read behind the text"
  | c :: p' =>
      if (c =c x00) || (c =c x22) then Ret (Some (p, v))
      else if c =c "\" then
        match p' with
        | [] => Undef "read behind the text"
        | d :: p'' =>
            if (d =c "\") || (d =c x22) || (d =c "]") then
              v ← nx_string_append v [d] 1;
              if 65536 <=? len v then Ret None else param_value_loop p'' v
            else if 65536 <=? len v then Ret None else param_value_loop p' v
        end
      else
        v ← nx_string_append v [c] 1;
        if 65536 <=? len v then Ret None else param_value_loop p' v
  end.

(** The parameters behind the name of an element, of which [sd_namelen] characters are in
    the array [name]; [None] is NULL.  A parameter is the only field whose name comes from
    the text: if the text is the buffer of [raw_event], a parameter of that name frees it,
    which [live] notices before the next character is read.  Nothing else that the parsers
    set can free the text. *)
Fixpoint sd_params_loop (fuel : nat) (sd_namelen : Z) (name : bytes) (p : bytes) : cmd R (option bytes) :=
  _ ← live;
  c ← lift (peek p);
  if c =c x00 then mret (Some p)
  else
    p ← lift (skip is_space p);
    c ← lift (peek p);
    if c =c "]" then mret (Some p)
    else
      '(p, i, name) ← lift (param_name_loop p sd_namelen name);
      name ← lift (mem_write name i [x00]);
      c ← lift (peek p);
      if negb (c =c "=") then mret None
      else
        p ← lift (advance 1 p);
        c ← lift (peek p);
        if negb (c =c x22) then mret None
        else
          p ← lift (advance 1 p);
          v ← lift (nx_string_new_size 50);
          r ← lift (param_value_loop p v);
          match r with
          | None => mret None
          | Some (p, v) =>
              c ← lift (peek p);
              if negb (c =c x22) then mret None
              else
                _ ← rec_set (cstr name) (str_value (content v));
                p ← lift (advance 1 p);
                match fuel with
                | O => lift (Undef "out of fuel")
                | S fuel => sd_params_loop fuel sd_namelen name p
                end
          end.

Definition syslog_parse_sd_params (sd_name : bytes) (sd_namelen : Z) (string : bytes) : cmd R (option bytes) :=
  '(name, n) ← lift (
    if 0 <? sd_namelen then
      _ ← ASSERT (sd_namelen <? SIZEOF_PARAM_NAME / 2) "sd_namelen < sizeof(param_name) / 2";
      d ← mem_read sd_name 0 sd_namelen;
      name ← mem_write (malloc SIZEOF_PARAM_NAME) 0 d;
      name ← mem_write name sd_namelen ["."%byte];
      Ret (name, sd_namelen + 1)
    else Ret (malloc SIZEOF_PARAM_NAME, 0));
  sd_params_loop (length string) n name string.

(** The loop that copies the name of an element to the array [name]; [sd_namelen] is the
    part before the last at mark. *)
Fixpoint sd_name_loop (p : bytes) (i sd_namelen : Z) (name : bytes) : outcome (bytes * Z * Z * bytes) :=
  match p with
  | [] => Undef "read behind the text"
  | c :: p' =>
      if (c =c x00) || (SIZEOF_SD_NAME - 1 <=? i) then Ret (p, i, sd_namelen, name)
      else if ends_name c then Ret (p, i, (if sd_namelen =? 0 then i else sd_namelen), name)
      else if c =c "@" then name ← mem_write name i [x00]; sd_name_loop p' (i + 1) i name
      else name ← mem_write name i [name_char c]; sd_name_loop p' (i + 1) sd_namelen name
  end.

(** The elements of structured data; [string] is the start of the first one, to which the
    parser returns if an element is invalid. *)
Fixpoint sd_loop (fuel : nat) (string p : bytes) : cmd R bytes :=
  c ← lift (peek p);
  if c =c x00 then mret p
  else
    p ← lift (skip is_space p);
    c ← lift (peek p);
    if negb (c =c "[") then mret p
    else
      p ← lift (advance 1 p);
      p ← lift (skip is_space p);
      '(p, i, sd_namelen, name) ← lift (sd_name_loop p 0 0 (malloc SIZEOF_SD_NAME));
      name ← lift (mem_write name i [x00]);
      c ← lift (peek p);
      if c =c x00 then mret string
      else
        p ← lift (advance 1 p);
        '(name, sd_namelen) ← lift (
          if strcmp_eq (cstr name) (lit "NXLOG") then name ← mem_write name 0 [x00]; Ret (name, 0) else Ret (name, sd_namelen));
        r ← syslog_parse_sd_params name sd_namelen p;
        match r with
        | None => mret string
        | Some p =>
            p ← lift (skip is_space p);
            c ← lift (peek p);
            if negb (c =c "]") then mret string
            else
              p ← lift (advance 1 p);
              match fuel with
              | O => lift (Undef "out of fuel")
              | S fuel => sd_loop fuel string p
              end
        end.

Definition syslog_parse_structured_data (string : bytes) : cmd R bytes := sd_loop (length string) string string.

(** [IS_NILVALUE] *)
Definition is_nilvalue (p : bytes) : outcome bool :=
  c ← peek p;
  if c =c "-" then q ← advance 1 p; d ← peek q; Ret ((d =c " ") || (d =c x00)) else Ret false.

(** A token: [nil] is done for a nil value, [tok] for another, and the spaces behind it are
    skipped. *)
Definition token (nil : cmd R unit) (tok : option bytes -> option bytes -> cmd R unit) (p : bytes) : cmd R bytes :=
  b ← lift (is_nilvalue p);
  p ← (if (b : bool) then q ← lift (advance 1 p); _ ← nil; mret q
       else q ← lift (skip in_token p); _ ← tok (Some p) (Some q); mret q);
  lift (skip is_space p).

(** The byte order mark of UTF-8. *)
Definition skip_bom (p : bytes) : outcome bytes :=
  c ← peek p;
  if c =c xef then
    q ← advance 1 p; d ← peek q;
    if d =c xbb then
      r ← advance 1 q; e ← peek r; if e =c xbf then advance 1 r else Ret p
    else Ret p
  else Ret p.

(** What follows the version. *)
Definition parse_ietf (p msgend : bytes) (retval : bool) : cmd R bool :=
  b ← lift (is_nilvalue p);
  t ← (if (b : bool) then
         _ ← rec_set (lit "EventTime") (nx_value_new_datetime apr_time_now);
         q ← lift (advance 1 p); mret (Some q)
       else
         '(date, e) ← lift (Date.nx_date_parse_iso (cstr p) (Some (Some 0)));
         match date with
         | None => mret None
         | Some t => q ← lift (date_end e p); _ ← set_syslog_timestamp t; mret (Some q)
         end);
  match t with
  | None =>
      _ ← rec_set (lit "EventTime") (nx_value_new_datetime apr_time_now);
      _ ← set_syslog_hostname None None;
      _ ← set_syslog_message (Some p) (Some msgend);
      mret false
  | Some p =>
      p ← lift (skip is_space p);
      p ← token (set_syslog_hostname None None) set_syslog_hostname p;
      p ← token (mret tt) set_syslog_appname p;
      p ← token (mret tt) set_syslog_procid p;
      p ← token (mret tt) set_syslog_msgid p;
      b ← lift (is_nilvalue p);
      p ← (if (b : bool) then lift (advance 1 p) else syslog_parse_structured_data p);
      p ← lift (skip_one " " p);
      p ← lift (skip_bom p);
      _ ← set_syslog_message (Some p) (Some msgend);
      mret retval
  end.

(** Without the version the text is BSD syslog. *)
Definition nx_syslog_parse_rfc5424 (string : bytes) (stringlen : Z) : cmd R bool :=
  stringlen ← lift (if stringlen <=? 0 then strlen string else Ret stringlen);
  msgend ← lift (advance stringlen string);
  '(p, retval) ← parse_syslog_priority string;
  c ← lift (peek p);
  d ← lift (if c =c "1" then q ← advance 1 p; peek q else Ret x00);
  if (c =c "1") && (d =c " ") then p ← lift (advance 2 p); parse_ietf p msgend retval
  else nx_syslog_parse_rfc3164 string stringlen.

End parser.

(** ** Writers

    [fs] are the fields of the record. *)

Section writer.
Context `{M : Malloc} `{E : ValueEnv}.
Context (hostname : bytes).

Abbreviation out A := (cmd nx_string A).

(** The field [key] if it is defined and of type [t]. *)
Definition typed_field (t : nx_value_type) (key : bytes) (fs : alist) : option value :=
  match alist_get key fs with
  | Some v => if bool_decide (v_type v = t) && (v_defined v =? TRUE) then Some v else None
  | None => None
  end.

Definition string_field (key : bytes) (fs : alist) : outcome (option bytes) :=
  match typed_field NX_VALUE_TYPE_STRING key fs with Some v => Some <$> as_string (v_data v) | None => Ret None end.
Definition integer_field (key : bytes) (fs : alist) : outcome (option Z) :=
  match typed_field NX_VALUE_TYPE_INTEGER key fs with Some v => Some <$> as_integer (v_data v) | None => Ret None end.
Definition datetime_field (key : bytes) (fs : alist) : outcome (option Z) :=
  match typed_field NX_VALUE_TYPE_DATETIME key fs with Some v => Some <$> as_datetime (v_data v) | None => Ret None end.

(** *** The priority *)

(** The facility: the first of the two fields that exists counts. *)
Definition facility_of (fs : alist) : outcome Z :=
  match alist_get (lit "SyslogFacilityValue") fs with
  | Some _ => z ← integer_field (lit "SyslogFacilityValue") fs; Ret (default NX_SYSLOG_FACILITY_USER z)
  | None =>
      s ← string_field (lit "SyslogFacility") fs;
      match s with
      | Some s => let fac := nx_syslog_facility_from_string (cstr s) in Ret (if fac =? 0 then NX_SYSLOG_FACILITY_USER else fac)
      | None => Ret NX_SYSLOG_FACILITY_USER
      end
  end.

(** The severity of a level. *)
Definition severity_of_level (level : Z) : Z :=
  if level =? 1 then 7 else if level =? 2 then 6 else if level =? 3 then 4 else if level =? 4 then 3 else if level =? 5 then 2
  else NX_SYSLOG_SEVERITY_NOTICE.

(** The level of a field that is an integer or a name; an enumeration has 32 bits. *)
Definition level_of (v : value) : outcome Z :=
  if (v_defined v =? TRUE) && bool_decide (v_type v = NX_VALUE_TYPE_INTEGER) then u32 <$> as_integer (v_data v)
  else if (v_defined v =? TRUE) && bool_decide (v_type v = NX_VALUE_TYPE_STRING) then
    s ← as_string (v_data v);
    let level := nx_loglevel_from_string (cstr s) in Ret (if level =? 0 then 2 else level)
  else Ret 2.

Definition severity_of (fs : alist) : outcome Z :=
  match alist_get (lit "SyslogSeverityValue") fs with
  | Some _ => z ← integer_field (lit "SyslogSeverityValue") fs; Ret (default NX_SYSLOG_SEVERITY_NOTICE z)
  | None =>
      match alist_get (lit "SyslogSeverity") fs with
      | Some _ =>
          s ← string_field (lit "SyslogSeverity") fs;
          match s with
          | Some s => let sev := nx_syslog_severity_from_string (cstr s) in Ret (if sev =? 0 then NX_SYSLOG_SEVERITY_NOTICE else sev)
          | None => Ret NX_SYSLOG_SEVERITY_NOTICE
          end
      | None =>
          match alist_get (lit "SeverityValue") fs, alist_get (lit "Severity") fs with
          | Some v, _ | None, Some v => level ← level_of v; Ret (severity_of_level level)
          | None, None => Ret NX_SYSLOG_SEVERITY_NOTICE
          end
      end
  end.

(** Signed 32-bit arithmetic: overflow and a shift of a negative number are undefined. *)
Definition int32 (z : Z) : outcome Z := if (- 2 ^ 31 <=? z) && (z <? 2 ^ 31) then Ret z else Undef "signed overflow".

Definition nx_syslog_get_priority (fs : alist) : outcome Z :=
  fac ← facility_of fs;
  sev ← severity_of fs;
  fac ← (if s32 fac <? 0 then Undef "shift of a negative number" else int32 (Z.shiftl (s32 fac) 3));
  int32 (fac + s32 sev).

(** *** The string *)

(** An operation on the string that [raw_event] points to. *)
Definition update (f : nx_string -> outcome nx_string) : out unit := fun s =>
  match f s with
  | Ret s' => (s', Ret tt)
  | Throw e => (s, Throw e)
  | Panic e => (s, Panic e)
  | Undef e => (s, Undef e)
  end.

Definition append_text (b : bytes) : out unit := update (fun s => nx_string_append s b (zlen b)).

(** [nx_string_sprintf(raw_event, ...)] with the formatted text. *)
Definition sprintf (text : bytes) : out unit := update (fun s =>
  s ← set_len s (zlen text + 1);
  b ← mem_write (buf s) 0 (text ++ [x00]);
  Ret (set_slen (zlen text) (set_buf b s))).

(** The characters of the string from [i] on that satisfy [p] become [c]. *)
Definition replace_from (i : Z) (p : byte -> bool) (c : byte) : out unit := update (fun s =>
  d ← mem_read (buf s) i (len s - i);
  b ← mem_write (buf s) i (map (fun x => if p x then c else x) d);
  Ret (set_buf b s)).

Definition string_len : out Z := fun s => (s, Ret (len s)).

(** The text of an array that a date was printed to; it is not initialised if the date
    could not be printed. *)
Definition date_text (size : Z) (r : outcome (option bytes)) : outcome bytes :=
  b ← r;
  let b := default (malloc size) b in
  n ← strlen b;
  Ret (take (Z.to_nat n) b).

(** The time of the event, or the current time. *)
Definition event_time (fs : alist) : outcome Z := t ← datetime_field (lit "EventTime") fs; Ret (default apr_time_now t).

Definition copy_of (s : nx_string) : outcome bytes := c ← nx_string_clone s; Ret (content c).

(** The message: a copy of [raw_event] if there is no other. *)
Definition message_of (fs : alist) : out bytes :=
  m ← lift (string_field (lit "Message") fs);
  match m with
  | Some m => mret m
  | None => fun s => (s, copy_of s)
  end.

Definition host_of (fs : alist) : outcome bytes := h ← string_field (lit "Hostname") fs; Ret (default hostname h).

Definition is_blank (c : byte) : bool := (c =c " ") || (c =c x09).
Definition is_break (c : byte) : bool := (c =c x0a) || (c =c x0d).

(** The name of the application, with its blanks replaced. *)
Definition append_app (app : bytes) : out unit :=
  i ← string_len;
  _ ← append_text app;
  replace_from i is_blank "_".

(** The message behind a space, with its line breaks replaced. *)
Definition append_message (m : bytes) : out unit :=
  i ← string_len;
  _ ← append_text (lit " ");
  _ ← append_text m;
  replace_from i is_break " ".

(** [apr_snprintf] *)
Definition snprintf_text (size : Z) (text : bytes) : bytes := take (Z.to_nat (size - 1)) text.

(** *** BSD syslog *)

Definition append_pid_bsd (fs : alist) : out unit :=
  match alist_get (lit "ProcessID") fs with
  | Some v =>
      if v_defined v =? TRUE then
        if bool_decide (v_type v = NX_VALUE_TYPE_INTEGER) then
          z ← lift (as_integer (v_data v)); append_text (snprintf_text 20 (lit "[" ++ print_int z ++ lit "]"))
        else if bool_decide (v_type v = NX_VALUE_TYPE_STRING) then
          s ← lift (as_string (v_data v)); _ ← append_text (lit "["); _ ← append_text s; append_text (lit "]")
        else mret tt
      else mret tt
  | None => mret tt
  end.

Definition nx_logdata_to_syslog_rfc3164 (fs : alist) : out unit :=
  msg ← message_of fs;
  pri ← lift (nx_syslog_get_priority fs);
  t ← lift (event_time fs);
  tmpstr ← lift (date_text 20 (Date.nx_date_to_rfc3164 (malloc 20) 20 t));
  _ ← sprintf (lit "<" ++ print_int pri ++ lit ">" ++ tmpstr ++ lit " ");
  host ← lift (host_of fs);
  _ ← append_text host;
  app ← lift (string_field (lit "SourceName") fs);
  _ ← (match app with
       | Some app =>
           if 0 <? zlen app then
             _ ← append_text (lit " ");
             _ ← append_app app;
             _ ← append_pid_bsd fs;
             append_text (lit ":")
           else mret tt
       | None => mret tt
       end);
  append_message msg.

(** *** IETF syslog *)

Definition ignorelist : list bytes :=
  map lit [ "raw_event"; "EventTime"; "Hostname"; "SourceName"; "Message"; "MessageID"; "ProcessID"; "Severity"; "SeverityValue";
    "SyslogSeverity"; "SyslogSeverityValue"; "SyslogFacility"; "SyslogFacilityValue" ]%string.

Definition ignored (key : bytes) : bool := existsb (strcasecmp_eq key) ignorelist.

Definition bad_in_name (c : byte) : bool := (c =c " ") || (c =c "]") || (c =c x22).

(** The characters of a value, one by one. *)
Fixpoint append_escaped (v : bytes) : out unit :=
  match v with
  | [] => mret tt
  | c :: v =>
      _ ← (if (c =c "\") || (c =c x22) || (c =c "]") then append_text (lit "\") else mret tt);
      _ ← append_text [c];
      append_escaped v
  end.

(** A field as a parameter; a value that has no text is an error of the model, since the
    code hands NULL to [nx_string_append]. *)
Definition append_param (key : bytes) (v : value) : out unit :=
  sdlen ← string_len;
  _ ← append_text key;
  _ ← replace_from sdlen bad_in_name "_";
  _ ← append_text [("=")%byte; x22];
  _ ← (if bool_decide (v_type v = NX_VALUE_TYPE_STRING) then s ← lift (as_string (v_data v)); append_escaped s
       else
         s ← lift (nx_value_to_string v);
         s ← lift (deref s "src != NULL");
         append_text s);
  append_text [x22].

(** The fields; [cnt] is whether one was written. *)
Fixpoint append_params (fs : alist) (cnt : bool) : out bool :=
  match fs with
  | [] => mret cnt
  | (key, v) :: fs =>
      if negb (ignored key) && (v_defined v =? TRUE) then
        _ ← (if (cnt : bool) then append_text (lit " ") else mret tt);
        _ ← append_param key v;
        append_params fs true
      else append_params fs cnt
  end.

Definition structured_data : outcome nx_string := s ← nx_string_new; nx_string_append s (lit "[NXLOG@14506 " ++ [x00]) (-1).

Definition nx_syslog_add_structured_data (fs : alist) : out unit :=
  sd ← lift structured_data;
  '(sd, cnt) ← lift (
    let '(sd, r) := append_params fs false sd in
    cnt ← r;
    sd ← nx_string_append sd (lit "]") 1;
    Ret (sd, cnt));
  append_text (if (cnt : bool) then content sd else lit "-").

Definition append_pid_ietf (fs : alist) : out unit :=
  match alist_get (lit "ProcessID") fs with
  | Some v =>
      if v_defined v =? TRUE then
        if bool_decide (v_type v = NX_VALUE_TYPE_INTEGER) then
          z ← lift (as_integer (v_data v)); append_text (snprintf_text 33 (print_int z))
        else if bool_decide (v_type v = NX_VALUE_TYPE_STRING) then
          s ← lift (as_string (v_data v)); append_text (if 0 <? zlen s then s else lit "-")
        else append_text (lit "-")
      else append_text (lit "-")
  | None => append_text (lit "-")
  end.

Definition nx_logdata_to_syslog_rfc5424 (gmt : bool) (fs : alist) : out unit :=
  msg ← message_of fs;
  pri ← lift (nx_syslog_get_priority fs);
  t ← lift (event_time fs);
  tmpstr ← lift (date_text 33 (Date.nx_date_to_rfc5424 (malloc 33) 33 gmt t));
  _ ← sprintf (lit "<" ++ print_int pri ++ lit ">1 " ++ tmpstr ++ lit " ");
  host ← lift (host_of fs);
  _ ← append_text host;
  _ ← append_text (lit " ");
  app ← lift (string_field (lit "SourceName") fs);
  _ ← (match app with
       | Some app => if 0 <? zlen app then append_app app else append_text (lit "-")
       | None => append_text (lit "-")
       end);
  _ ← append_text (lit " ");
  _ ← append_pid_ietf fs;
  _ ← append_text (lit " ");
  id ← lift (string_field (lit "MessageID") fs);
  _ ← append_text (default (lit "-") id);
  _ ← append_text (lit " ");
  _ ← nx_syslog_add_structured_data fs;
  append_message msg.

(** *** Snare *)

(** A field and the delimiter behind it. *)
Definition snare_string (delimiter : byte) (keys : list bytes) (fs : alist) : out unit :=
  s ← lift (foldr (fun key k => s ← string_field key fs; match s with Some s => Ret s | None => k end) (Ret (lit "N/A")) keys);
  _ ← append_text s;
  append_text [delimiter].

(** The conversion to [int] and the decrement of the criticality. *)
Definition snare_int (key : bytes) (dec : Z) (none : bytes) (fs : alist) : out unit :=
  z ← lift (integer_field key fs);
  match z with
  | Some z => z ← lift (int32 (s32 z - dec)); append_text (snprintf_text 25 (print_int z))
  | None => append_text none
  end.

Definition event_type (s : bytes) : bytes :=
  if strcmp_eq (cstr s) (lit "AUDIT_SUCCESS") then lit "Success Audit"
  else if strcmp_eq (cstr s) (lit "AUDIT_FAILURE") then lit "Failure Audit"
  else if strcmp_eq (cstr s) (lit "INFO") then lit "Information"
  else if strcmp_eq (cstr s) (lit "CRITICAL") then lit "Critical"
  else if strcmp_eq (cstr s) (lit "ERROR") then lit "Error"
  else if strcmp_eq (cstr s) (lit "WARNING") then lit "Warning"
  else if strcmp_eq (cstr s) (lit "VERBOSE") then lit "Verbose"
  else s.

(** The result is the new value of the field Message, in which the delimiter was replaced
    in place. *)
Definition nx_logdata_to_syslog_snare (evtcnt : Z) (delimiter replacement : byte) (fs : alist) : out (option bytes) :=
  pri ← lift (nx_syslog_get_priority fs);
  eventtime ← lift (event_time fs);
  tmpstr ← lift (date_text 25 (Date.nx_date_to_rfc3164 (malloc 25) 25 eventtime));
  _ ← sprintf (lit "<" ++ print_int pri ++ lit ">" ++ tmpstr ++ lit " ");
  host ← lift (host_of fs);
  _ ← append_text host;
  _ ← append_text (lit " ");
  _ ← append_text (lit "MSWinEventLog");
  _ ← append_text [delimiter];
  _ ← snare_int (lit "SeverityValue") 1 (lit "1") fs;
  _ ← append_text [delimiter];
  _ ← snare_string delimiter [lit "Channel"; lit "FileName"] fs;
  _ ← append_text (snprintf_text 25 (print_int (u64 evtcnt)));
  _ ← append_text [delimiter];
  date ← lift (date_text 25 (Date.nx_date_to_rfc3164_wday_year (malloc 25) 25 eventtime false));
  _ ← append_text date;
  _ ← append_text [delimiter];
  _ ← snare_int (lit "EventID") 0 (lit "N/A") fs;
  _ ← append_text [delimiter];
  _ ← snare_string delimiter [lit "SourceName"] fs;
  _ ← snare_string delimiter [lit "AccountName"] fs;
  _ ← snare_string delimiter [lit "AccountType"] fs;
  et ← lift (string_field (lit "EventType") fs);
  _ ← append_text (match et with Some s => event_type s | None => lit "N/A" end);
  _ ← append_text [delimiter];
  _ ← snare_string delimiter [lit "Hostname"] fs;
  _ ← snare_string delimiter [lit "Category"] fs;
  _ ← append_text [delimiter];
  m ← lift (string_field (lit "Message") fs);
  let m := map (fun c => if c =c delimiter then replacement else c) <$> m in
  _ ← append_text (default (lit "N/A") m);
  _ ← append_text [delimiter];
  _ ← snare_int (lit "RecordNumber") 0 (lit "N/A") fs;
  _ ← replace_from 0 is_break " ";
  mret m.

End writer.
End Syslog.
