(* ===== verification/SyslogWrite.v ===== *)
(** * The syslog writers: what they write

    A small logic for programs that append to a string ([writes]), and with
    it the text [nx_logdata_to_syslog_rfc5424] makes of a record. *)

From S2P Require Import Prelude Dlist CLib Str Date DateFormat Value Serialize Logdata RecordIface Syslog.
Import Str Value Serialize Logdata Syslog.

Module SyslogWrite.

(** ** Writers *)

Section writers.
Context `{M : Malloc} `{E : ValueEnv}.

(** The program appends [b] to the string. *)
Definition writes {A} (c : cmd nx_string A) (a : A) (b : bytes) : Prop :=
  forall s x, str_rep s x -> zlen x + zlen b < string_limit -> exists s', c s = (s', Ret a) /\ str_rep s' (x ++ b).

Lemma writes_bind {A B} (c : cmd nx_string A) (f : A -> cmd nx_string B) a d b b1 b2 :
  b = b1 ++ b2 -> writes c a b1 -> writes (f a) d b2 -> writes (c ≫= f) d b.
Proof.
  intros -> Hc Hf s x Hs Hl. rewrite length_app in Hl. destruct (Hc s x Hs) as (s1 & E1 & Hs1); [lia|].
  destruct (Hf s1 _ Hs1) as (s2 & E2 & Hs2); [rewrite length_app; lia|]. exists s2. rewrite (cmd_bind_Ret _ _ _ _ _ E1), app_assoc. done.
Qed.

Lemma writes_lift {A} (o : outcome A) a : o = Ret a -> writes (lift o) a [].
Proof. intros -> s x Hs _. exists s. by rewrite app_nil_r. Qed.
Lemma writes_ret {A} (a : A) : writes (mret a) a [].
Proof. by apply writes_lift. Qed.

Lemma writes_append b : writes (append_text b) tt b.
Proof.
  intros s x Hs Hl. destruct (nx_string_append_rep s x b (zlen b) Hs) as (s' & E1 & Hs'); [lia|].
  rewrite Nat2Z.id, take_ge, spec_append_fits in Hs' by lia. exists s'. unfold append_text, update. by rewrite E1.
Qed.

Lemma replace_none p c (l : bytes) : Forall (fun x => p x = false) l -> map (fun x => if p x : bool then c else x) l = l.
Proof. induction 1 as [|x l Hx _ IH]; simpl; [done|]. by rewrite Hx, IH. Qed.

(** Replacing characters that do not occur behind [x]. *)
Lemma replace_from_none p c s x y : str_rep s (x ++ y) -> Forall (fun z => p z = false) y ->
  replace_from (zlen x) p c s = (s, Ret tt).
Proof.
  intros Hs Hy. pose proof Hs as (_ & (r & Hb) & _ & Hl & _). unfold replace_from, update.
  rewrite Hb, Hl, (mem_read_at _ _ _ x (y ++ x00 :: r)) by (rewrite <- ?app_assoc; lens || done). cbn [mbind outcome_bind].
  replace (Z.to_nat (zlen (x ++ y) - zlen x)) with (length y) by lens. rewrite take_app_length, replace_none by done.
  rewrite (mem_write_at' _ _ x (y ++ x00 :: r)) by (rewrite <- ?app_assoc; lens || done). cbn [mbind outcome_bind].
  rewrite drop_app_length. unfold set_buf. by rewrite app_assoc, <- Hb; destruct s.
Qed.

(** Appending a text and replacing characters that it does not have. *)
Lemma writes_clean {A} (m : cmd nx_string unit) (k : cmd nx_string A) p c a b b1 b2 :
  b = b1 ++ b2 -> Forall (fun z => p z = false) b1 -> writes m tt b1 -> writes k a b2 ->
  writes (i ← string_len; _ ← m; _ ← replace_from i p c; k) a b.
Proof.
  intros -> Hp Hm Hk s x Hs Hl. rewrite length_app in Hl. erewrite cmd_bind_Ret by reflexivity. destruct (Hm s x Hs) as (s1 & E1 & Hs1); [lia|].
  rewrite (cmd_bind_Ret _ _ _ _ _ E1). pose proof Hs as (_ & _ & _ & -> & _).
  rewrite (cmd_bind_Ret _ _ _ _ _ (replace_from_none p c s1 x b1 Hs1 Hp)).
  destruct (Hk s1 _ Hs1) as (s2 & E2 & Hs2); [rewrite length_app; lia|]. exists s2. by rewrite app_assoc.
Qed.

Lemma writes_clean_end (m : cmd nx_string unit) p c b : Forall (fun z => p z = false) b -> writes m tt b ->
  writes (i ← string_len; _ ← m; replace_from i p c) tt b.
Proof.
  intros Hp Hm s x Hs Hl. erewrite cmd_bind_Ret by reflexivity. destruct (Hm s x Hs Hl) as (s1 & E1 & Hs1).
  rewrite (cmd_bind_Ret _ _ _ _ _ E1). pose proof Hs as (_ & _ & _ & -> & _). exists s1. by rewrite (replace_from_none p c s1 x b).
Qed.

(** A message and the space before it. *)
Lemma writes_message m : Forall (fun c => is_break c = false) m -> writes (append_message m) tt (lit " " ++ m).
Proof.
  intros Hm s x Hs Hl.
  destruct (writes_clean_end (append_text (lit " ") ≫= fun _ => append_text m) is_break " " (lit " " ++ m)) with (s := s) (x := x)
    as (s' & E1 & Hs'); [apply Forall_app; split; [by constructor|done]| |done|done|].
  - eapply writes_bind; [reflexivity|apply writes_append|apply writes_append].
  - exists s'. split; [|done]. rewrite <- E1. unfold append_message, mbind, cmd_bind. destruct (string_len s) as [s1 []]; [|done..].
    by destruct (append_text (lit " ") s1) as [s2 []].
Qed.

Lemma sprintf_rep s x text : str_rep s x -> zlen text < string_limit ->
  exists s', sprintf text s = (s', Ret tt) /\ str_rep s' text.
Proof.
  intros Hs Hl. destruct (set_len_rep s x (zlen text + 1) Hs) as (s1 & E1 & Hc & Hz & Hw); [lia|]. unfold sprintf, update. rewrite E1.
  cbn [mbind outcome_bind]. rewrite (mem_write_at' _ 0 [] (buf s1)) by (rewrite ?length_app; simpl; auto; lia). cbn [mbind outcome_bind app].
  eexists. split; [reflexivity|]. split_and!; simpl; [done| | |done|lia].
  - exists (drop (length (text ++ [x00])) (buf s1)). by rewrite <- app_assoc.
  - rewrite length_app, length_drop, length_app. simpl. lia.
Qed.

(** The date is printed to an array. *)
Lemma date_text_eval size b text r : b = text ++ x00 :: r -> no_nul text -> date_text size (Ret (Some b)) = Ret text.
Proof.
  intros -> Hn. unfold date_text. cbn [mbind outcome_bind]. cbv zeta. change (default ?a (Some ?b)) with b. rewrite (strlen_lit text r Hn). cbn [mbind outcome_bind].
  by rewrite Nat2Z.id, take_app_length.
Qed.

(** *** Structured data *)

Definition special (c : byte) : bool := (c =c "\") || (c =c x22) || (c =c "]").
Definition sd_escape (v : bytes) : bytes := v ≫= (fun c => if special c then ["\"%byte; c] else [c]).
Definition sd_param (kv : bytes * bytes) : bytes := fst kv ++ ["="%byte; x22] ++ sd_escape (snd kv) ++ [x22].
(** The parameters, each with a space before it but the first. *)
Definition sd_text (ps : list (bytes * bytes)) : bytes :=
  match ps with [] => [] | p :: ps => sd_param p ++ (ps ≫= fun p => " "%byte :: sd_param p) end.

Lemma writes_escaped v : writes (append_escaped v) tt (sd_escape v).
Proof.
  induction v as [|c v IH]; [apply writes_ret|]. cbn [append_escaped sd_escape mbind list_bind]. fold (special c).
  eapply (writes_bind _ _ tt tt _ (if special c then ["\"%byte] else []) ([c] ++ sd_escape v)); [by destruct (special c)| |].
  - destruct (special c); [apply writes_append|apply writes_ret].
  - eapply writes_bind; [reflexivity|apply writes_append|exact IH].
Qed.

Definition name_ok (k : bytes) : Prop := Forall (fun c => IS_HOSTCHAR c = true) k.

Lemma name_clean k : name_ok k -> Forall (fun c => bad_in_name c = false) k.
Proof. intros H. eapply Forall_impl; [exact H|]. by intros []. Qed.

Lemma writes_param k v : name_ok k -> writes (append_param k (str_value v)) tt (sd_param (k, v)).
Proof.
  intros Hk. eapply writes_clean; [reflexivity|by apply name_clean|apply writes_append|]. cbn [snd].
  eapply writes_bind; [reflexivity|apply writes_append|].
  eapply writes_bind; [reflexivity| |apply writes_append]. cbn. apply (writes_bind _ _ v _ _ [] (sd_escape v)); [done|by apply writes_lift|apply writes_escaped].
Qed.

(** The fields that become parameters. *)
Definition shown (kv : bytes * value) : bool := negb (ignored (fst kv)) && (v_defined (snd kv) =? TRUE).

Lemma writes_params fs ps cnt : filter (fun kv => shown kv = true) fs = map (fun p => (fst p, str_value (snd p))) ps ->
  Forall (fun p => name_ok (fst p)) ps ->
  writes (append_params fs cnt) (cnt || negb (bool_decide (ps = []))) (if cnt then ps ≫= (fun p => " "%byte :: sd_param p) else sd_text ps).
Proof.
  revert ps cnt. induction fs as [|[k v] fs IH]; intros ps cnt Hf Hn; cbn [append_params].
  - destruct ps; [|discriminate Hf]. rewrite orb_false_r. destruct cnt; apply writes_ret.
  - rewrite filter_cons in Hf. change (negb (ignored k) && (v_defined v =? TRUE)) with (shown (k, v)).
    destruct (shown (k, v)) eqn:Es; [|rewrite decide_False in Hf by done; by apply IH].
    rewrite decide_True in Hf by done. destruct ps as [|[k' v'] ps]; [discriminate Hf|]. injection Hf as -> -> Hf. inversion Hn as [|? ? Hk Hn']; subst.
    specialize (IH ps true Hf Hn'). cbn [orb] in IH. replace (cnt || negb (bool_decide ((k', v') :: ps = []))) with true by (by destruct cnt).
    eapply (writes_bind _ _ tt _ _ (if cnt then lit " " else []) (sd_param (k', v') ++ (ps ≫= fun p => " "%byte :: sd_param p))).
    + by destruct cnt.
    + destruct cnt; [apply writes_append|apply writes_ret].
    + eapply writes_bind; [reflexivity|by apply writes_param|exact IH].
Qed.

Definition sd_element (ps : list (bytes * bytes)) : bytes :=
  match ps with [] => lit "-" | _ => lit "[NXLOG@14506 " ++ sd_text ps ++ lit "]" end.

Lemma writes_structured_data fs ps : filter (fun kv => shown kv = true) fs = map (fun p => (fst p, str_value (snd p))) ps ->
  Forall (fun p => name_ok (fst p)) ps -> zlen (sd_text ps) + 14 < string_limit ->
  writes (nx_syslog_add_structured_data fs) tt (sd_element ps).
Proof.
  intros Hf Hn Hl. unfold nx_syslog_add_structured_data.
  destruct nx_string_new_rep as (s0 & E0 & R0).
  destruct (nx_string_append_cstr s0 [] (lit "[NXLOG@14506 ") [] (-1) R0) as (s1 & E1 & R1); [apply (bool_decide_unpack (no_nul _)); vm_compute; exact I|simpl; lia|lia|].
  rewrite spec_append_fits in R1 by (unfold string_limit; simpl; lia).
  apply (writes_bind _ _ s1 _ _ [] (sd_element ps)); [done|apply writes_lift; unfold structured_data; by rewrite E0|].
  destruct (writes_params fs ps false Hf Hn s1 _ R1) as (s2 & E2 & R2); [simpl app; simpl (zlen (lit _)); lia|].
  destruct (nx_string_append_rep s2 _ (lit "]") 1 R2) as (s3 & E3 & R3); [simpl; lia|]. simpl in R3.
  rewrite spec_append_fits in R3 by (simpl length; lia).
  apply (writes_bind _ _ (s3, negb (bool_decide (ps = []))) _ _ [] (sd_element ps)); [done|apply writes_lift; rewrite E2; cbn [mbind outcome_bind orb]; by rewrite E3|].
  cbn beta iota. destruct ps as [|p ps]; [apply writes_append|]. rewrite (str_rep_content _ _ R3). apply writes_append.
Qed.

(** *** A whole message *)

(** What a record says of an event: its priority, time, names, text and further fields. *)
Record event := Event {
  ev_fac : Z; ev_sev : Z; ev_time : Z;
  ev_host : bytes; ev_app : bytes; ev_pid : bytes; ev_id : bytes; ev_msg : bytes;
  ev_params : list (bytes * bytes)
}.

(** The fields [fs] of a record say [e]. *)
Definition says (fs : alist) (e : event) : Prop :=
  alist_get (lit "SyslogFacilityValue") fs = Some (nx_value_new_integer (ev_fac e)) /\
  alist_get (lit "SyslogSeverityValue") fs = Some (nx_value_new_integer (ev_sev e)) /\
  alist_get (lit "EventTime") fs = Some (nx_value_new_datetime (ev_time e)) /\
  alist_get (lit "Hostname") fs = Some (str_value (ev_host e)) /\
  alist_get (lit "SourceName") fs = Some (str_value (ev_app e)) /\
  alist_get (lit "ProcessID") fs = Some (str_value (ev_pid e)) /\
  alist_get (lit "MessageID") fs = Some (str_value (ev_id e)) /\
  alist_get (lit "Message") fs = Some (str_value (ev_msg e)) /\
  filter (fun kv => shown kv = true) fs = map (fun p => (fst p, str_value (snd p))) (ev_params e).

Definition ietf_text (date : bytes) (e : event) : bytes :=
  lit "<" ++ print_int (ev_fac e * 8 + ev_sev e) ++ lit ">1 " ++ date ++ lit " " ++ ev_host e ++ lit " " ++ ev_app e ++ lit " " ++
  ev_pid e ++ lit " " ++ ev_id e ++ lit " " ++ sd_element (ev_params e) ++ lit " " ++ ev_msg e.

Lemma string_field_eval k fs s : alist_get k fs = Some (str_value s) -> string_field k fs = Ret (Some s).
Proof. intros H. unfold string_field, typed_field. by rewrite H. Qed.

Lemma priority_eval fs fac sev : alist_get (lit "SyslogFacilityValue") fs = Some (nx_value_new_integer fac) ->
  alist_get (lit "SyslogSeverityValue") fs = Some (nx_value_new_integer sev) -> 0 <= fac <= 23 -> 0 <= sev <= 7 ->
  nx_syslog_get_priority fs = Ret (fac * 8 + sev).
Proof.
  intros Hf Hs Hr1 Hr2. unfold nx_syslog_get_priority, facility_of, severity_of, integer_field, typed_field. rewrite Hf, Hs.
  assert (s32 fac = fac /\ s32 sev = sev) as [E1 E2] by (split; apply s32_small; lia).
  change ((if s32 fac <? 0 then Undef "shift of a negative number" else int32 (Z.shiftl (s32 fac) 3)) ≫= (fun fac => int32 (fac + s32 sev)) = Ret (fac * 8 + sev)).
  rewrite E1, E2. rewrite (proj2 (Z.ltb_ge _ _)) by lia. rewrite Z.shiftl_mul_pow2 by lia. change (2 ^ 3) with 8.
  unfold int32. rewrite (proj2 (Z.leb_le _ (fac * 8))), (proj2 (Z.ltb_lt (fac * 8) _)) by lia. cbn [andb mbind outcome_bind].
  by rewrite (proj2 (Z.leb_le _ (fac * 8 + sev))), (proj2 (Z.ltb_lt (fac * 8 + sev) _)) by lia.
Qed.

Lemma writes_conv {A} (c : cmd nx_string A) a b b' : b = b' -> writes c a b -> writes c a b'.
Proof. by intros ->. Qed.

(** A step of a writer that reads and writes nothing. *)
Lemma writes_value {A B} (o : outcome A) (f : A -> cmd nx_string B) a d b : o = Ret a -> writes (f a) d b -> writes (lift o ≫= f) d b.
Proof. intros Ho Hf. by apply (writes_bind _ _ a _ _ [] b); [|apply writes_lift|]. Qed.

Lemma ietf_writes hostname gmt fs e s x b date r : says fs e -> str_rep s x -> 
  0 <= ev_fac e <= 23 -> 0 <= ev_sev e <= 7 ->
  Date.nx_date_to_rfc5424 (malloc 33) 33 gmt (ev_time e) = Ret (Some b) -> b = date ++ x00 :: r -> no_nul date ->
  ev_app e <> [] -> Forall (fun c => is_blank c = false) (ev_app e) -> ev_pid e <> [] -> Forall (fun c => is_break c = false) (ev_msg e) ->
  Forall (fun p => name_ok (fst p)) (ev_params e) ->
  zlen (ietf_text date e) < string_limit ->
  exists s', nx_logdata_to_syslog_rfc5424 hostname gmt fs s = (s', Ret tt) /\ str_rep s' (ietf_text date e).
Proof.
  intros (Hf & Hs & Ht & Hh & Ha & Hp & Hi & Hm & Hps) Hx Hfac Hsev Hb Eb Hd Hna Hblank Hnp Hbreak Hnames Hl.
  assert (0 < zlen (ev_app e) /\ 0 < zlen (ev_pid e)) as [Hla Hlp] by (destruct (ev_app e), (ev_pid e); simpl; try done; lia).
  unfold nx_logdata_to_syslog_rfc5424, message_of. rewrite (string_field_eval _ _ _ Hm). erewrite cmd_bind_Ret by reflexivity.
  rewrite (priority_eval _ _ _ Hf Hs Hfac Hsev). erewrite cmd_bind_Ret by reflexivity.
  unfold event_time, datetime_field, typed_field. rewrite Ht. erewrite cmd_bind_Ret by reflexivity. change (default _ (Some ?t)) with t.
  rewrite Hb, (date_text_eval _ _ _ _ Eb Hd). erewrite cmd_bind_Ret by reflexivity.
  set (front := lit "<" ++ _). destruct (sprintf_rep s x front Hx) as (s1 & E1 & R1).
  { unfold ietf_text in Hl. subst front. rewrite !length_app in *. lia. }
  rewrite (cmd_bind_Ret _ _ _ _ _ E1).
  assert (forall k rest, writes k tt rest -> ietf_text date e = front ++ rest -> exists s', k s1 = (s', Ret tt) /\ str_rep s' (ietf_text date e)) as done_by.
  { intros k rest Hk Hrest. rewrite Hrest in *. apply Hk; [done|]. rewrite length_app in Hl. lia. }
  eapply done_by.
  - unfold host_of. rewrite (string_field_eval _ _ _ Hh), (string_field_eval _ _ _ Ha), (string_field_eval _ _ _ Hi).
    apply writes_value with (a := ev_host e); [done|].
    eapply writes_bind; [reflexivity|apply writes_append|]. eapply writes_bind; [reflexivity|apply writes_append|].
    apply writes_value with (a := Some (ev_app e)); [done|]. rewrite (proj2 (Z.ltb_lt _ _)) by done.
    eapply writes_bind; [reflexivity|by apply writes_clean_end; [|apply writes_append]|]. eapply writes_bind; [reflexivity|apply writes_append|].
    eapply writes_bind; [reflexivity| |].
    { unfold append_pid_ietf. rewrite Hp. cbn -[append_text]. apply writes_value with (a := ev_pid e); [done|].
      rewrite (proj2 (Z.ltb_lt _ _)) by done. apply writes_append. }
    eapply writes_bind; [reflexivity|apply writes_append|].
    apply writes_value with (a := Some (ev_id e)); [done|].
    eapply writes_bind; [reflexivity|apply writes_append|]. eapply writes_bind; [reflexivity|apply writes_append|].
    eapply writes_bind; [reflexivity|apply writes_structured_data; [done|done|]|].
    + unfold ietf_text in Hl. rewrite !length_app in Hl. unfold sd_element in Hl. destruct (ev_params e); [simpl; unfold string_limit; lia|].
      rewrite !length_app in Hl. simpl (length (lit _)) in Hl. lia.
    + by apply writes_message.
  - subst front. unfold ietf_text. by rewrite <- !app_assoc.
Qed.
End writers.
End SyslogWrite.
