(* ===== verification/SyslogParse.v ===== *)
(** * The syslog parser: what it sets

    A small logic for programs that set fields of a record through the
    record interface ([does]), and with it the parts of
    [nx_syslog_parse_rfc5424] on a well-formed text. *)

From S2P Require Import Prelude Dlist CLib Str Date DateFormat Value Serialize Logdata RecordIface Syslog SyslogWrite.
Import Str Value Serialize Logdata Syslog SyslogWrite.

Module SyslogParse.

(** ** Pointers *)

Lemma skip_run f u c rest : Forall (fun x => f x = true) u -> f c = false -> skip f (u ++ c :: rest) = Ret (c :: rest).
Proof. intros Hu Hc. induction Hu as [|x u Hx _ IH]; simpl; [by rewrite Hc|by rewrite Hx]. Qed.

Lemma advance_app a b n : n = zlen a -> advance n (a ++ b) = Ret b.
Proof.
  intros ->. unfold advance. rewrite (proj2 (Z.leb_le _ _)), (proj2 (Z.leb_le _ (zlen (a ++ b)))) by (rewrite ?length_app; lia). cbn [andb].
  by rewrite Nat2Z.id, drop_app_length.
Qed.

Lemma advance_cons c p : advance 1 (c :: p) = Ret p.
Proof. by apply (advance_app [c] p). Qed.

Lemma cstr_app a b : no_nul a -> cstr (a ++ b) = a ++ cstr b.
Proof.
  induction a as [|c a IH]; intros Ha; [done|]. cbn [app cstr]. assert (c <> x00 /\ no_nul a) as [Hc Ha'] by (unfold no_nul in *; set_solver).
  rewrite (proj2 (beq_false _ _) Hc). by rewrite IH.
Qed.

(** ** Parsers *)

Definition set_all (kvs : list (bytes * value)) (al : alist) : alist := foldl (fun al kv => alist_set (fst kv) (snd kv) al) al kvs.

Section parsers.
Context `{M : Malloc} `{E : ValueEnv} {R : Type} `{L : RecordLaws R}.

(** The program returns [a] and sets the fields [kvs]. *)
Definition does {A} (c : cmd R A) (a : A) (kvs : list (bytes * value)) : Prop :=
  forall r al, denotes r al -> exists r', c r = (r', Ret a) /\ denotes r' (set_all kvs al).

Lemma does_bind {A B} (c : cmd R A) (f : A -> cmd R B) a b kvs k1 k2 :
  kvs = k1 ++ k2 -> does c a k1 -> does (f a) b k2 -> does (c ≫= f) b kvs.
Proof.
  intros -> Hc Hf r al Hr. destruct (Hc r al Hr) as (r1 & E1 & H1). destruct (Hf r1 _ H1) as (r2 & E2 & H2).
  exists r2. rewrite (cmd_bind_Ret _ _ _ _ _ E1). split; [done|]. unfold set_all. by rewrite foldl_app.
Qed.

Lemma does_value {A B} (o : outcome A) (f : A -> cmd R B) a b kvs : o = Ret a -> does (f a) b kvs -> does (lift o ≫= f) b kvs.
Proof. intros -> Hf. by apply (does_bind _ _ a _ _ [] kvs); [|intros r al Hr; exists r|]. Qed.

Lemma does_ret {A} (a : A) : does (mret a) a [].
Proof. intros r al Hr. by exists r. Qed.

Lemma does_live {B} (f : unit -> cmd R B) b kvs : does (f tt) b kvs -> does (live ≫= f) b kvs.
Proof. intros Hf r al Hr. rewrite (cmd_bind_Ret _ _ _ _ _ (live_ok r al Hr)). by apply Hf. Qed.

Lemma does_set k v : strcasecmp_eq k raw_key = false -> storable v -> does (rec_set k v) tt [(k, v)].
Proof. intros Hk Hv r al Hr. apply (rec_set_ok r al k v Hr); [|exact Hv]. unfold settable. by rewrite Hk. Qed.

Lemma does_set_text k start n tok rest : strcasecmp_eq k raw_key = false -> start = tok ++ rest -> n = zlen tok -> zlen tok <= string_limit ->
  does (set_text k start n) tt [(k, str_value tok)].
Proof.
  intros Hk -> -> Hl. unfold set_text.
  destruct (nx_string_create_rep (tok ++ rest) (zlen tok)) as (s & E1 & Hs & _); [rewrite length_app; lia|done|].
  rewrite Nat2Z.id, take_app_length in Hs. apply does_value with (a := s); [done|]. rewrite (str_rep_content _ _ Hs).
  apply does_set; [done|by apply string_storable].
Qed.

Lemma range_app tok rest : tok <> [] -> range (Some (tok ++ rest)) (Some rest) = Some (tok ++ rest, zlen tok).
Proof.
  intros Ht. unfold range. rewrite length_app, (proj2 (Z.ltb_lt _ _)) by (destruct tok; simpl; [done|lia]). do 2 f_equal. lia.
Qed.

Lemma does_set_range k tok rest : strcasecmp_eq k raw_key = false -> tok <> [] -> zlen tok <= string_limit ->
  does (set_range k (Some (tok ++ rest)) (Some rest)) tt [(k, str_value tok)].
Proof. intros Hk Ht Hl. unfold set_range. rewrite range_app by done. by eapply does_set_text. Qed.

(** *** Tokens *)

Definition token_ok (tok : bytes) : Prop :=
  tok <> [] /\ tok <> lit "-" /\ Forall (fun c => in_token c = true) tok /\ zlen tok <= string_limit.

Lemma in_token_facts c : in_token c = true -> (c =c " ") = false /\ (c =c x00) = false.
Proof. unfold in_token. by destruct (c =c " "), (c =c x00). Qed.

Lemma token_not_nil tok rest : token_ok tok -> is_nilvalue (tok ++ rest) = Ret false.
Proof.
  intros (Hn & Hd & Hf & _). destruct tok as [|c tok]; [done|]. unfold is_nilvalue. cbn [app peek mbind outcome_bind].
  destruct (c =c "-") eqn:Ec; [|done]. apply beq_true in Ec as ->. rewrite advance_cons. cbn [mbind outcome_bind].
  destruct tok as [|d tok]; [done|]. inversion Hf as [|? ? _ Hf']; subst. inversion Hf' as [|? ? Hd' _]; subst. cbn [app peek mbind outcome_bind].
  by destruct (in_token_facts d Hd') as [-> ->].
Qed.

Lemma does_token nil tok_set tok c rest kvs : token_ok tok -> (c =c " ") = false ->
  does (tok_set (Some (tok ++ " "%byte :: c :: rest)) (Some (" "%byte :: c :: rest))) tt kvs ->
  does (token nil tok_set (tok ++ " "%byte :: c :: rest)) (c :: rest) kvs.
Proof.
  intros Ht Hc Hset. unfold token. apply does_value with (a := false); [by apply token_not_nil|].
  apply (does_bind _ _ (" "%byte :: c :: rest) _ _ kvs []); [by rewrite app_nil_r| |].
  - apply does_value with (a := " "%byte :: c :: rest); [apply skip_run; [apply Ht|done]|].
    apply (does_bind _ _ tt _ _ kvs []); [by rewrite app_nil_r|done|apply does_ret].
  - intros r al Hr. exists r. split; [|done]. unfold lift. cbn [skip]. change (is_space " ") with true. cbv iota. change (is_space c) with (c =c " "). by rewrite Hc.
Qed.

(** *** The priority *)

Lemma pri_digits_eval n q : 0 <= n <= 191 -> pri_digits (print_int n ++ ">"%byte :: q) 1 0 = Ret (Some (">"%byte :: q, n)).
Proof using.
  intros Hn. assert (Forall (fun k => pri_digits (print_int (Z.of_nat k) ++ ">"%byte :: q) 1 0 = Ret (Some (">"%byte :: q, Z.of_nat k))) (seq 0 192)) as HF.
  { repeat (apply List.Forall_cons; [reflexivity|]). constructor. }
  rewrite Forall_forall in HF. specialize (HF (Z.to_nat n)). rewrite Z2Nat.id in HF by lia. apply HF. apply elem_of_seq. lia.
Qed.

Lemma scan_priority_eval n c q : 0 <= n <= 191 -> (c =c " ") = false ->
  scan_priority (lit "<" ++ print_int n ++ ">"%byte :: c :: q) = Ret (c :: q, n, true).
Proof using.
  intros Hn Hc. unfold scan_priority. cbn [peek app mbind outcome_bind]. change (lit "<" ++ ?x) with ("<"%byte :: x). cbn [peek mbind outcome_bind].
  change ("<" =c "<") with true. cbv iota. rewrite advance_cons. cbn [mbind outcome_bind]. rewrite pri_digits_eval by done. cbn [mbind outcome_bind peek].
  change (">" =c ">") with true. cbv iota. rewrite advance_cons. cbn [mbind outcome_bind peek]. by rewrite Hc.
Qed.

Lemma split_priority_eval fac sev : 0 <= fac <= 23 -> 0 <= sev <= 7 -> split_priority (fac * 8 + sev) = (fac, sev).
Proof using.
  intros Hf Hs. unfold split_priority. rewrite (proj2 (Z.eqb_neq _ _)) by lia. rewrite Z.shiftr_div_pow2, (Z.land_ones _ 3) by lia. change (2 ^ 3) with 8.
  replace ((fac * 8 + sev) / 8) with fac by (Z.to_euclidean_division_equations; lia).
  replace ((fac * 8 + sev) mod 8) with sev by (Z.to_euclidean_division_equations; lia).
  unfold NX_SYSLOG_FACILITY_LOCAL7, NX_SYSLOG_SEVERITY_NOPRI. by rewrite (proj2 (Z.ltb_ge _ _)), (proj2 (Z.ltb_ge _ sev)) by lia.
Qed.

(** The fields of a priority. *)
Definition priority_fields (fac sev : Z) : list (bytes * value) :=
  [ (lit "SyslogFacilityValue", nx_value_new_integer fac);
    (lit "SyslogFacility", str_value (default [] (nx_syslog_facility_to_string fac)));
    (lit "SyslogSeverityValue", nx_value_new_integer sev);
    (lit "SyslogSeverity", str_value (default [] (nx_syslog_severity_to_string sev)));
    (lit "SeverityValue", nx_value_new_integer (normalize_severity sev));
    (lit "Severity", str_value (nx_loglevel_to_string (normalize_severity sev))) ].

Lemma does_set_name k n : strcasecmp_eq k raw_key = false -> no_nul n -> zlen n <= string_limit ->
  does (set_name k (Some n)) tt [(k, str_value n)].
Proof.
  intros Hk Hn Hl. unfold set_name. apply does_value with (a := n); [done|]. unfold nx_value_new_string.
  destruct (nx_string_create_cstr n Hn Hl) as (s & E1 & Hs). rewrite E1. apply does_value with (a := str_value n); [by rewrite <- (str_rep_content _ _ Hs)|].
  apply does_set; [done|by apply string_storable].
Qed.

(** The names of the codes that occur. *)
Definition short_name (n : bytes) : bool := bool_decide (no_nul n) && (length n <? 20)%nat.

Lemma facility_name fac : 0 <= fac <= 23 -> exists n, nx_syslog_facility_to_string fac = Some n /\ short_name n = true.
Proof using.
  intros Hf.
  assert (forallb (fun k => match nx_syslog_facility_to_string (Z.of_nat k) with Some n => short_name n | None => false end) (seq 0 24) = true) as HF by (vm_compute; reflexivity).
  rewrite forallb_forall in HF. specialize (HF (Z.to_nat fac) ltac:(apply in_seq; lia)). rewrite Z2Nat.id in HF by lia.
  destruct (nx_syslog_facility_to_string fac); [eauto|done].
Qed.

Lemma severity_name sev : 0 <= sev <= 7 -> exists n, nx_syslog_severity_to_string sev = Some n /\ short_name n = true /\
  short_name (nx_loglevel_to_string (normalize_severity sev)) = true /\ 1 <= normalize_severity sev <= 5.
Proof using.
  intros Hs. assert (sev = 0 \/ sev = 1 \/ sev = 2 \/ sev = 3 \/ sev = 4 \/ sev = 5 \/ sev = 6 \/ sev = 7) as H8 by lia.
  destruct_or! H8; subst sev; (eexists; split_and!; [reflexivity|reflexivity|reflexivity|vm_compute; discriminate|vm_compute; discriminate]).
Qed.

Lemma short_name_facts n : short_name n = true -> no_nul n /\ zlen n <= string_limit.
Proof using.
  unfold short_name. intros H0. apply andb_prop in H0 as [H1 H2]. apply bool_decide_eq_true in H1. apply Nat.ltb_lt in H2.
  split; [done|]. unfold string_limit. lia.
Qed.

Lemma does_priority fac sev c q : 0 <= fac <= 23 -> 0 <= sev <= 7 -> (c =c " ") = false ->
  does (parse_syslog_priority (lit "<" ++ print_int (fac * 8 + sev) ++ ">"%byte :: c :: q)) (c :: q, true) (priority_fields fac sev).
Proof.
  intros Hf Hs Hc. destruct (facility_name fac Hf) as (fn & Ef & Hfn). destruct (severity_name sev Hs) as (sn & Es & Hsn & Hln & Hlr).
  apply short_name_facts in Hfn as [Hfn1 Hfn2], Hsn as [Hsn1 Hsn2], Hln as [Hln1 Hln2].
  unfold parse_syslog_priority. apply does_value with (a := (c :: q, fac * 8 + sev, true)); [apply scan_priority_eval; [lia|done]|].
  cbn beta iota. rewrite split_priority_eval by done. unfold priority_fields. rewrite Ef, Es. change (default [] (Some ?x)) with x.
  assert (forall z, int64 z -> storable (nx_value_new_integer z)) as Hint by (intros z Hz; split; [by left|discriminate]).
  do 6 (eapply (does_bind _ _ tt _ _ [_] _);
    [reflexivity|first [apply does_set; [reflexivity|apply Hint; split; lia]|by apply does_set_name]|]).
  apply does_ret.
Qed.

(** *** Structured data *)

Lemma hostchar_facts c : IS_HOSTCHAR c = true -> (c =c x00) = false /\ ends_name c = false /\ (c =c "@") = false /\ is_space c = false /\ (c =c "]") = false /\ name_char c = c.
Proof using. intros Hc. unfold name_char. rewrite Hc. revert Hc. by destruct c. Qed.

(** A name is copied behind [pre]. *)
Lemma param_name_run k c rest pre post : name_ok k -> ends_name c = true -> zlen pre + zlen k <= SIZEOF_PARAM_NAME - 1 ->
  zlen (pre ++ post) = SIZEOF_PARAM_NAME ->
  param_name_loop (k ++ c :: rest) (zlen pre) (pre ++ post) = Ret (c :: rest, zlen (pre ++ k), pre ++ k ++ drop (length k) post).
Proof using.
  intros Hk Hc. revert pre post. induction Hk as [|x k Hx _ IH]; intros pre post Hl Hn.
  - cbn [app param_name_loop]. rewrite Hc, !orb_true_r. by rewrite app_nil_r, drop_0.
  - cbn [app param_name_loop]. destruct (hostchar_facts x Hx) as (-> & -> & _ & _ & _ & ->). rewrite (proj2 (Z.leb_gt _ _)) by (simpl in Hl; lia). cbn [orb].
    rewrite (mem_write_at' _ _ pre post) by (try done; rewrite length_app in Hn; unfold SIZEOF_PARAM_NAME in *; simpl in *; lia). cbn [mbind outcome_bind].
    replace (zlen pre + 1) with (zlen (pre ++ [x])) by lens. rewrite app_assoc, (IH (pre ++ [x])).
    + cbn [length]. rewrite drop_drop. by rewrite <- !app_assoc.
    + rewrite length_app. simpl in *. lia.
    + rewrite !length_app, length_drop in *. unfold SIZEOF_PARAM_NAME in *. simpl in *. lia.
Qed.

(** A value is unescaped. *)
Lemma param_value_run v rest s x : no_nul v -> str_rep s x -> zlen x + zlen v < 65536 ->
  exists s', param_value_loop (sd_escape v ++ x22 :: rest) s = Ret (Some (x22 :: rest, s')) /\ str_rep s' (x ++ v).
Proof using.
  revert s x. induction v as [|c v IH]; intros s x Hn Hs Hl.
  - exists s. by rewrite app_nil_r.
  - assert (c <> x00 /\ no_nul v) as [Hc Hn'] by (unfold no_nul in *; set_solver). simpl in Hl.
    destruct (nx_string_append_rep s x [c] 1 Hs) as (s1 & E1 & R1); [simpl; lia|]. simpl in R1.
    rewrite spec_append_fits in R1 by (simpl; unfold string_limit; lia).
    assert ((65536 <=? len s1) = false) as Hlen.
    { pose proof R1 as (_ & _ & _ & -> & _). apply Z.leb_gt. rewrite length_app. simpl. lia. }
    destruct (IH s1 (x ++ [c]) Hn' R1) as (s2 & E2 & R2); [rewrite length_app; simpl; lia|].
    exists s2. split; [|by rewrite <- app_assoc in R2]. unfold sd_escape. cbn [mbind list_bind]. fold (sd_escape v).
    destruct (special c) eqn:Ec.
    + cbn [app param_value_loop]. change ("\" =c x00) with false. change ("\" =c x22) with false. change ("\" =c "\") with true. cbn [orb].
      unfold special in Ec. rewrite Ec, E1. cbn [mbind outcome_bind]. by rewrite Hlen.
    + unfold special in Ec. apply orb_false_iff in Ec as [Ec Ec3]. apply orb_false_iff in Ec as [Ec1 Ec2].
      cbn [app param_value_loop]. rewrite (proj2 (beq_false _ _) Hc), Ec1, Ec2. cbn [orb]. rewrite E1. cbn [mbind outcome_bind]. by rewrite Hlen.
Qed.

Definition param_ok (p : bytes * bytes) : Prop :=
  name_ok (fst p) /\ zlen (fst p) <= SIZEOF_PARAM_NAME - 1 /\ no_nul (snd p) /\ zlen (snd p) < 65536 /\ strcasecmp_eq (fst p) raw_key = false.

Lemma name_no_nul k : name_ok k -> no_nul k.
Proof using. unfold no_nul, name_ok. rewrite list_elem_of_In. intros Hk Hin. rewrite List.Forall_forall in Hk. by specialize (Hk _ Hin). Qed.

(** One parameter, with or without a space before it. *)
Lemma does_param fuel name (sp : bool) k v q res kvs : zlen name = SIZEOF_PARAM_NAME -> param_ok (k, v) ->
  (forall name', zlen name' = SIZEOF_PARAM_NAME -> does (sd_params_loop fuel 0 name' q) res kvs) ->
  does (sd_params_loop (S fuel) 0 name ((if sp then lit " " else []) ++ sd_param (k, v) ++ q)) res ((k, str_value v) :: kvs).
Proof.
  intros Hname (Hk & Hkl & Hv & Hvl & Hraw) Hnext. cbn [fst snd] in *.
  set (p := sd_param (k, v) ++ q).
  assert (exists c p', p = c :: p' /\ (c =c x00) = false /\ is_space c = false /\ (c =c "]") = false) as (c & p' & Ep & Hc0 & Hcs & Hcb).
  { destruct k as [|c k]; subst p; [by eexists "="%byte, _|]. eexists c, _. split; [reflexivity|]. inversion Hk; subst.
    by destruct (hostchar_facts c) as (? & _ & _ & ? & ? & _). }
  assert (peek ((if sp then lit " " else []) ++ p) = Ret (if sp then " "%byte else c)) as E1 by (rewrite Ep; by destruct sp).
  assert (skip is_space ((if sp then lit " " else []) ++ p) = Ret p) as E2 by (rewrite Ep; destruct sp; cbn; by rewrite Hcs).
  cbn [sd_params_loop]. apply does_live. eapply does_value; [exact E1|]. replace ((if sp then " "%byte else c) =c x00) with false by (by destruct sp).
  eapply does_value; [exact E2|]. eapply does_value; [by rewrite Ep|]. rewrite Hcb.
  assert (p = k ++ "="%byte :: x22 :: sd_escape v ++ x22 :: q) as Ep' by (subst p; unfold sd_param; cbn [fst snd]; by rewrite <- !app_assoc).
  eapply does_value.
  { rewrite Ep'. apply (param_name_run k "=" _ [] name); [done|reflexivity|simpl; lia|done]. }
  cbn beta iota. rewrite !app_nil_l.
  assert (zlen (k ++ drop (length k) name) = SIZEOF_PARAM_NAME) as Hl1 by (rewrite length_app, length_drop; unfold SIZEOF_PARAM_NAME in *; lia).
  eapply does_value; [apply (mem_write_at' _ _ k (drop (length k) name)); [done|done|simpl; rewrite length_app in Hl1; unfold SIZEOF_PARAM_NAME in *; lia]|].
  set (name' := k ++ [x00] ++ drop (length [x00]) (drop (length k) name)).
  eapply does_value; [reflexivity|]. change ("=" =c "=") with true. cbn [negb]. eapply does_value; [apply advance_cons|].
  eapply does_value; [reflexivity|]. change (x22 =c x22) with true. cbn [negb]. eapply does_value; [apply advance_cons|].
  destruct (nx_string_new_size_rep 50) as (s0 & E0 & R0 & _); [unfold string_limit; lia|]. eapply does_value; [exact E0|].
  destruct (param_value_run v q s0 [] Hv R0) as (s1 & E3 & R1); [simpl; lia|]. eapply does_value; [exact E3|]. cbn beta iota.
  eapply does_value; [reflexivity|]. change (x22 =c x22) with true. cbn [negb].
  rewrite (str_rep_content _ _ R1). assert (cstr name' = k) as -> by (apply cstr_app_nul; by apply name_no_nul).
  eapply (does_bind _ _ tt _ _ [(k, str_value v)] kvs); [done|apply does_set; [done|apply string_storable; unfold string_limit; simpl; lia]|].
  eapply does_value; [apply advance_cons|]. apply Hnext. subst name'. rewrite length_app in *. simpl. rewrite !length_drop in *. unfold SIZEOF_PARAM_NAME in *. lia.
Qed.

Definition param_fields (ps : list (bytes * bytes)) : list (bytes * value) := map (fun p => (fst p, str_value (snd p))) ps.

Lemma does_params_rest ps fuel name q : (length ps <= fuel)%nat -> zlen name = SIZEOF_PARAM_NAME -> Forall param_ok ps ->
  does (sd_params_loop fuel 0 name ((ps ≫= fun p => " "%byte :: sd_param p) ++ "]"%byte :: q)) (Some ("]"%byte :: q)) (param_fields ps).
Proof.
  intros Hf Hn Hps. revert fuel name Hf Hn. induction Hps as [|[k v] ps Hp _ IH]; intros fuel name Hf Hn.
  - destruct fuel; cbn [sd_params_loop mbind list_bind app]; apply does_live; (do 3 (eapply does_value; [reflexivity|]); apply does_ret).
  - destruct fuel as [|fuel]; [simpl in Hf; lia|]. rewrite bind_cons.
    replace ((((" "%byte :: sd_param (k, v)) ++ (ps ≫= fun p => " "%byte :: sd_param p)) ++ "]"%byte :: q))
      with ((if true then lit " " else []) ++ sd_param (k, v) ++ ((ps ≫= fun p => " "%byte :: sd_param p) ++ "]"%byte :: q))
      by (simpl; by rewrite <- !app_assoc).
    apply (does_param fuel name true k v _ _ _ Hn Hp). intros name' Hn'. apply IH; [simpl in Hf; lia|done].
Qed.

Lemma does_params ps fuel name q : ps <> [] -> (length ps <= fuel)%nat -> zlen name = SIZEOF_PARAM_NAME -> Forall param_ok ps ->
  does (sd_params_loop fuel 0 name (sd_text ps ++ "]"%byte :: q)) (Some ("]"%byte :: q)) (param_fields ps).
Proof.
  intros Hne Hf Hn Hps. destruct Hps as [|[k v] ps Hp Hps]; [done|]. destruct fuel as [|fuel]; [simpl in Hf; lia|].
  cbn [sd_text]. rewrite <- app_assoc. apply (does_param fuel name false k v _ _ _ Hn Hp). intros name' Hn'.
  apply does_params_rest; [simpl in Hf; lia|done|done].
Qed.

(** The name of an element is copied to an array. *)
Lemma sd_name_run u rest pre post n : name_ok u -> zlen pre + zlen u <= SIZEOF_SD_NAME - 1 -> zlen (pre ++ post) = SIZEOF_SD_NAME ->
  sd_name_loop (u ++ rest) (zlen pre) n (pre ++ post) = sd_name_loop rest (zlen (pre ++ u)) n (pre ++ u ++ drop (length u) post).
Proof using.
  intros Hu. revert pre post. induction Hu as [|x u Hx _ IH]; intros pre post Hl Hn; [by rewrite app_nil_r, drop_0|].
  cbn [app sd_name_loop]. destruct (hostchar_facts x Hx) as (-> & -> & -> & _ & _ & ->). rewrite (proj2 (Z.leb_gt _ _)) by (simpl in Hl; lia). cbn [orb].
  rewrite (mem_write_at' _ _ pre post) by (try done; rewrite length_app in Hn; unfold SIZEOF_SD_NAME in *; simpl in *; lia). cbn [mbind outcome_bind].
  replace (zlen pre + 1) with (zlen (pre ++ [x])) by lens. rewrite app_assoc, (IH (pre ++ [x])).
  + cbn [length]. rewrite drop_drop. by rewrite <- !app_assoc.
  + rewrite length_app. simpl in *. lia.
  + rewrite !length_app, length_drop in *. unfold SIZEOF_SD_NAME in *. simpl in *. lia.
Qed.

Lemma nxlog_name q : exists post, sd_name_loop (lit "NXLOG@14506 " ++ q) 0 0 (malloc SIZEOF_SD_NAME) =
  Ret (" "%byte :: q, 11, 5, lit "NXLOG" ++ [x00] ++ lit "14506" ++ post) /\ zlen post = 29.
Proof using.
  assert (zlen (malloc SIZEOF_SD_NAME) = SIZEOF_SD_NAME) as Hm by (by apply malloc_length).
  set (b := malloc SIZEOF_SD_NAME) in *. clearbody b.
  exists (drop 5 (drop 1 (drop 5 b))). split; [|rewrite !length_drop; unfold SIZEOF_SD_NAME in *; lia].
  change (lit "NXLOG@14506 " ++ q) with (lit "NXLOG" ++ "@"%byte :: lit "14506" ++ " "%byte :: q).
  rewrite (sd_name_run (lit "NXLOG") _ [] b) by (first [by repeat constructor|done|unfold SIZEOF_SD_NAME; simpl; lia]). cbn [app].
  cbn [sd_name_loop]. change (zlen (lit "NXLOG")) with 5. change (("@" =c x00) || (SIZEOF_SD_NAME - 1 <=? 5)) with false.
  change (ends_name "@") with false. change ("@" =c "@") with true. cbv iota.
  rewrite (mem_write_at' _ 5 (lit "NXLOG") (drop 5 b)) by (first [done|unfold SIZEOF_SD_NAME in *; simpl length; rewrite length_drop; lia]).
  cbn [mbind outcome_bind]. change (5 + 1) with (zlen (lit "NXLOG" ++ [x00])). rewrite app_assoc.
  rewrite (sd_name_run (lit "14506") _ (lit "NXLOG" ++ [x00]) (drop 1 (drop 5 b)))
    by (first [by repeat constructor|unfold SIZEOF_SD_NAME in *; rewrite ?length_app, ?length_drop; simpl length; lia]).
  by rewrite <- app_assoc.
Qed.

(** The parser stops at the text behind the elements. *)
Lemma does_element ps fuel string c q : ps <> [] -> Forall param_ok ps -> (c =c "[") = false -> (c =c " ") = false ->
  does (sd_loop (S fuel) string (lit "[NXLOG@14506 " ++ sd_text ps ++ lit "]" ++ " "%byte :: c :: q)) (c :: q) (param_fields ps).
Proof.
  intros Hne Hps Hc Hcs. change (lit "[NXLOG@14506 " ++ ?x) with ("["%byte :: lit "NXLOG@14506 " ++ x).
  cbn [sd_loop]. eapply does_value; [reflexivity|]. change ("[" =c x00) with false. cbv iota.
  eapply does_value; [reflexivity|]. eapply does_value; [reflexivity|]. change (negb ("[" =c "[")) with false. cbv iota.
  eapply does_value; [apply advance_cons|]. eapply does_value; [reflexivity|].
  set (q' := sd_text ps ++ lit "]" ++ " "%byte :: c :: q). destruct (nxlog_name q') as (post & Hn & Hp).
  eapply does_value; [exact Hn|]. cbn beta iota.
  destruct post as [|x post]; [discriminate Hp|].
  eapply does_value; [apply (mem_write_at' _ 11 (lit "NXLOG" ++ [x00] ++ lit "14506") (x :: post)); [done|done|simpl; lia]|].
  eapply does_value; [reflexivity|]. change (" " =c x00) with false. cbv iota. eapply does_value; [apply advance_cons|].
  set (name := (lit "NXLOG" ++ [x00] ++ lit "14506") ++ [x00] ++ drop (length [x00]) (x :: post)).
  eapply does_value; [change (cstr name) with (lit "NXLOG"); change (strcmp_eq (lit "NXLOG") (lit "NXLOG")) with true; cbv iota;
    rewrite (mem_write_at' name 0 [] name) by (first [done|simpl; lia]); reflexivity|].
  cbn beta iota. apply (does_bind _ _ (Some ("]"%byte :: " "%byte :: c :: q)) _ _ (param_fields ps) []); [by rewrite app_nil_r| |].
  - unfold syslog_parse_sd_params. change (0 <? 0) with false. cbv iota. eapply does_value; [reflexivity|]. cbn beta iota.
    apply does_params; [done| |by apply malloc_length|done]. subst q'. rewrite length_app. clear. 
    enough (length ps <= length (sd_text ps))%nat by lia. destruct ps as [|p ps]; [simpl; lia|]. cbn [sd_text]. rewrite length_app.
    assert (1 <= length (sd_param p))%nat as H1 by (unfold sd_param; rewrite !length_app; simpl; lia).
    enough (length ps <= length (ps ≫= fun p => " "%byte :: sd_param p))%nat by (simpl; lia). clear.
    induction ps as [|p ps IH]; [simpl; lia|]. rewrite bind_cons, length_app. simpl. lia.
  - cbn beta iota. eapply does_value; [reflexivity|]. eapply does_value; [reflexivity|]. change (negb ("]" =c "]")) with false. cbv iota.
    eapply does_value; [apply advance_cons|].
    destruct fuel; cbn [sd_loop]; (eapply does_value; [reflexivity|]; change (" " =c x00) with false; cbv iota;
      eapply does_value; [cbn [skip]; change (is_space " ") with true; change (is_space c) with (c =c " "); by rewrite Hcs|];
      eapply does_value; [reflexivity|]; rewrite Hc; apply does_ret).
Qed.

(** *** A whole message *)

Definition bom : bytes := [xef; xbb; xbf].

Lemma skip_bom_none m q : m <> [] -> no_nul m -> take 3 m <> bom -> skip_bom (m ++ x00 :: q) = Ret (m ++ x00 :: q).
Proof using.
  intros Hm Hn Hb. unfold skip_bom. destruct m as [|a m]; [done|]. cbn [app peek mbind outcome_bind].
  destruct (a =c xef) eqn:Ea; [|done]. apply beq_true in Ea as ->. rewrite advance_cons. cbn [mbind outcome_bind].
  destruct m as [|b m]; [done|]. cbn [app peek mbind outcome_bind]. destruct (b =c xbb) eqn:Eb; [|done]. apply beq_true in Eb as ->. rewrite advance_cons. cbn [mbind outcome_bind].
  destruct m as [|c m]; [done|]. cbn [app peek mbind outcome_bind]. destruct (c =c xbf) eqn:Ec; [|done]. apply beq_true in Ec as ->. by destruct Hb.
Qed.

Lemma does_message m q : m <> [] -> Forall (fun c => is_break c = false) m -> zlen m <= string_limit ->
  does (set_syslog_message (Some (m ++ q)) (Some q)) tt [(lit "Message", str_value m)].
Proof.
  intros Hm Hb Hl. unfold set_syslog_message. rewrite range_app by done. destruct (exists_last Hm) as (m' & c & ->).
  apply Forall_app in Hb as [_ Hb]. inversion Hb as [|? ? Hc _]; subst. unfold is_break in Hc. apply orb_false_iff in Hc as [Hc _].
  eapply does_value; [apply (load_at _ _ m' c q); [by rewrite <- app_assoc|rewrite length_app; simpl; lia]|]. rewrite Hc.
  rewrite (proj2 (Z.eqb_neq _ 0)) by (rewrite length_app; simpl; lia). by eapply does_set_text.
Qed.

End parsers.
End SyslogParse.
