(* ===== verification/SyslogSafe.v ===== *)
(** * The syslog parser is safe

    The parser of RFC 5424 messages on arbitrary bytes: it reads only inside
    the text, its arrays are not overrun and its loops end.  The text may be the buffer of
    the record's own [raw_event], which a message can make the parser free. *)

From S2P Require Import Prelude Dlist CLib Str Date DateFormat Value Serialize Logdata RecordIface Syslog SyslogWrite SyslogParse.
Import Str Date Value Serialize Logdata Syslog SyslogWrite SyslogParse.

Module SyslogSafe.

(** ** Pointers into the text *)

(** [p] points to a character of [s] at or before a terminator. *)
Definition inside (s p : bytes) : Prop := p `suffix_of` s /\ x00 ∈ p.

Lemma inside_length s p : inside s p -> 1 <= zlen p <= zlen s.
Proof. intros [H1 H2]. apply suffix_length in H1. destruct p; [by apply not_elem_of_nil in H2|]. simpl in *. lia. Qed.

Lemma inside_tail s c p : inside s (c :: p) -> (c =c x00) = false -> inside s p.
Proof.
  intros [[k Hk] Hin] Hc. split; [exists (k ++ [c]); by rewrite <- app_assoc|].
  apply elem_of_cons in Hin as [<-|Hin]; [by rewrite beq_refl in Hc|done].
Qed.

Lemma inside_peek s p : inside s p -> exists c p', p = c :: p' /\ peek p = Ret c /\
  ((c =c x00) = false -> advance 1 p = Ret p' /\ inside s p').
Proof.
  intros Hp. destruct p as [|c p']; [by apply inside_length in Hp as [Hp _]|]. exists c, p'. split_and!; [done..|].
  intros Hc. split; [apply advance_cons|by eapply inside_tail].
Qed.

Lemma inside_skip s f p : f x00 = false -> inside s p -> runs (skip f p) (fun q => inside s q /\ zlen q <= zlen p).
Proof.
  intros Hf. induction p as [|c p IH]; intros Hp; [by apply inside_length in Hp as [Hp _]|]. cbn [skip].
  destruct (f c) eqn:Ec; [|apply runs_ret; split; [done|lia]]. eapply runs_mono; [|apply IH; eapply inside_tail; [done|]].
  - intros q [Hq Hl]. split; [done|cbn [length]; lia].
  - apply beq_false. intros ->. congruence.
Qed.

Lemma inside_skip_one s c p : c <> x00 -> inside s p -> runs (skip_one c p) (inside s).
Proof.
  intros Hc Hp. destruct (inside_peek s p Hp) as (d & p' & -> & Ep & Ha). unfold skip_one. rewrite Ep. cbn [mbind outcome_bind].
  destruct (d =c c) eqn:Ed; [|by apply runs_ret]. apply beq_true in Ed as ->. destruct Ha as [-> Hp']; [by apply beq_false|]. by apply runs_ret.
Qed.

Lemma inside_cstr s p : inside s p -> exists r, p = cstr p ++ x00 :: r.
Proof.
  intros [_ Hin]. induction p as [|c p IH]; [by apply not_elem_of_nil in Hin|]. simpl.
  destruct (c =c x00) eqn:Ec; [apply beq_true in Ec as ->; by exists p|].
  apply elem_of_cons in Hin as [<-|Hin]; [by rewrite beq_refl in Ec|]. destruct (IH Hin) as [r Hr]. exists r. simpl. by f_equal.
Qed.

Lemma inside_advance s p n : inside s p -> 0 <= n <= zlen (cstr p) -> runs (advance n p) (inside s).
Proof.
  intros Hp Hn. destruct (inside_cstr s p Hp) as [r Hr]. rewrite Hr. exists (drop (Z.to_nat n) (cstr p) ++ x00 :: r). split.
  - unfold advance. rewrite (proj2 (Z.leb_le _ _)), (proj2 (Z.leb_le n _)) by (rewrite ?length_app; lia). cbn [andb]. by rewrite drop_app_le by lia.
  - split; [|set_solver]. destruct Hp as [[k Hk] _]. exists (k ++ take (Z.to_nat n) (cstr p)). rewrite <- app_assoc, (app_assoc (take _ _)), take_drop. by rewrite <- Hr.
Qed.

(** ** Loops *)

Lemma write_some b i d : 0 <= i -> i + zlen d <= zlen b -> runs (mem_write b i d) (fun b' => zlen b' = zlen b).
Proof.
  intros Hi Hd. assert (exists b', mem_write b i d = Ret b') as [b' Eb].
  { unfold mem_write. rewrite (proj2 (Z.leb_le 0 i)), (proj2 (Z.leb_le _ _)) by lia. by eexists. }
  exists b'. split; [done|]. by rewrite (mem_write_length _ _ _ _ Eb).
Qed.

Lemma write_one b i c : 0 <= i < zlen b -> runs (mem_write b i [c]) (fun b' => zlen b' = zlen b).
Proof. intros Hi. apply write_some; cbn [length]; lia. Qed.

Lemma inside_digits s p pos n : inside s p -> 0 <= n ->
  runs (pri_digits p pos n) (fun r => match r with Some (q, k) => inside s q /\ 0 <= k | None => True end).
Proof.
  revert pos n. induction p as [|c p IH]; intros pos n Hp Hn; [by apply inside_length in Hp as [Hp _]|]. cbn [pri_digits cstr].
  destruct (isdigit c) eqn:Ec; [|by apply runs_ret]. case_match; [by apply runs_ret|].
  apply IH; [eapply inside_tail; [done|]|].
  - apply beq_false. by intros ->.
  - unfold isdigit in Ec. apply andb_prop in Ec as [H1 H2]. lia.
Qed.

Lemma inside_priority s : inside s s -> runs (scan_priority s) (fun r => let '(p, n, _) := r in inside s p /\ -1 <= n).
Proof.
  intros Hs. destruct (inside_peek s s Hs) as (c & p & Es & Ec & Ha). unfold scan_priority. rewrite Ec. cbn [mbind outcome_bind].
  destruct (c =c "<") eqn:Hc; [|by apply runs_ret]. apply beq_true in Hc as ->. destruct Ha as [-> Hp]; [done|]. cbn [mbind outcome_bind].
  eapply runs_bind; [by apply inside_digits|]. intros [[q k]|] Hq; [|by apply runs_ret]. destruct Hq as [Hq Hk].
  destruct (inside_peek s q Hq) as (d & q' & -> & Ed & Hd). rewrite Ed. cbn [mbind outcome_bind].
  destruct (d =c ">") eqn:Hd'; [|by apply runs_ret]. apply beq_true in Hd' as ->. destruct Hd as [-> Hq']; [done|]. cbn [mbind outcome_bind].
  destruct (inside_skip_one s " " q' ltac:(done) Hq') as (r & Er & Hr). unfold skip_one in Er.
  destruct (peek q') as [x|x|x|x]; try done. cbn [mbind outcome_bind] in Er |- *. rewrite Er. cbn [mbind outcome_bind]. apply runs_ret. split; [done|lia].
Qed.

(** The array of a parameter name is not overrun. *)
Lemma inside_param_name s p i name : inside s p -> 0 <= i <= SIZEOF_PARAM_NAME - 1 -> zlen name = SIZEOF_PARAM_NAME ->
  runs (param_name_loop p i name) (fun r => let '(q, j, name') := r in
    inside s q /\ zlen q <= zlen p /\ 0 <= j <= SIZEOF_PARAM_NAME - 1 /\ zlen name' = SIZEOF_PARAM_NAME).
Proof.
  revert i name. induction p as [|c p IH]; intros i name Hp Hi Hn; [by apply inside_length in Hp as [Hp _]|]. cbn [param_name_loop].
  destruct (_ || _) eqn:Eb; [apply runs_ret; split_and!; done || lia|]. apply orb_false_iff in Eb as [Eb _]. apply orb_false_iff in Eb as [Ec Ei].
  apply Z.leb_gt in Ei. eapply runs_bind; [apply write_one; lia|]. cbn beta. intros name' Hn'. eapply runs_mono; [|apply IH; [by eapply inside_tail|lia|lia]].
  intros [[q j] nm]. simpl. intros (H1 & H2 & H3 & H4). split_and!; done || lia.
Qed.

(** The array of the name of an element is not overrun. *)
Lemma inside_sd_name s p i n name : inside s p -> 0 <= n <= i -> i <= SIZEOF_SD_NAME - 1 -> zlen name = SIZEOF_SD_NAME ->
  runs (sd_name_loop p i n name) (fun r => let '(q, j, m, name') := r in
    inside s q /\ zlen q <= zlen p /\ 0 <= m <= j /\ j <= SIZEOF_SD_NAME - 1 /\ zlen name' = SIZEOF_SD_NAME).
Proof.
  revert i n name. induction p as [|c p IH]; intros i n name Hp Hni Hi Hn; [by apply inside_length in Hp as [Hp _]|]. cbn [sd_name_loop].
  destruct (_ || _) eqn:Eb; [apply runs_ret; split_and!; done || lia|]. apply orb_false_iff in Eb as [Ec Ei]. apply Z.leb_gt in Ei.
  assert (forall (q : bytes) (j m : Z) (name' : bytes), inside s q /\ zlen q <= zlen p /\ 0 <= m <= j /\ j <= SIZEOF_SD_NAME - 1 /\ zlen name' = SIZEOF_SD_NAME ->
    inside s q /\ zlen q <= zlen (c :: p) /\ 0 <= m <= j /\ j <= SIZEOF_SD_NAME - 1 /\ zlen name' = SIZEOF_SD_NAME) as Hw
    by (intros q j m nm (? & ? & ? & ? & ?); simpl; split_and!; done || lia).
  destruct (ends_name c); [apply runs_ret; split_and!; try done; repeat case_match; lia|].
  destruct (c =c "@"); (eapply runs_bind; [apply write_one; lia|]; cbn beta; intros name' Hn'; eapply runs_mono; [|apply IH; [by eapply inside_tail|lia..]]);
    intros [[[q j] m] nm]; apply Hw.
Qed.

Lemma inside_param_value `{M : Malloc} s k : forall p v x, (length p <= k)%nat -> inside s p -> str_rep v x ->
  runs (param_value_loop p v) (fun r => match r with Some (q, v') => inside s q /\ zlen q <= zlen p | None => True end).
Proof.
  induction k as [|k IH]; intros p v x Hk Hp Hv; [apply inside_length in Hp; lia|].
  destruct p as [|c p]; [by apply inside_length in Hp as [Hp _]|]. simpl in Hk. cbn [param_value_loop].
  destruct ((c =c x00) || (c =c x22)) eqn:Ec; [apply runs_ret; split; [done|lia]|]. apply orb_false_iff in Ec as [Ec _].
  assert (inside s p) as Hp' by (by eapply inside_tail).
  assert (forall q w y, (length q <= k)%nat -> (length q <= length (c :: p))%nat -> inside s q -> str_rep w y ->
    runs (if 65536 <=? len w then Ret None else param_value_loop q w)
      (fun r => match r with Some (r, _) => inside s r /\ zlen r <= zlen (c :: p) | None => True end)) as Hgo.
  { intros q w y H1 H2 H3 H4. case_match; [by apply runs_ret|]. eapply runs_mono; [|by eapply (IH q w y)]. intros [[r z]|]; [|done]. intros [? ?]. split; [done|]. lia. }
  destruct (c =c "\").
  - destruct (inside_peek s p Hp') as (d & p' & -> & _ & Ha). destruct (_ || _) eqn:Ed.
    + destruct (nx_string_append_rep v x [d] 1 Hv) as (w & Ew & Hw); [simpl; lia|]. rewrite Ew. cbn [mbind outcome_bind].
      eapply Hgo; [simpl in Hk; lia|simpl; lia| |exact Hw]. apply Ha. apply beq_false. by intros ->.
    + eapply Hgo; [simpl in *; lia|simpl; lia|done|done].
  - destruct (nx_string_append_rep v x [c] 1 Hv) as (w & Ew & Hw); [simpl; lia|]. rewrite Ew. cbn [mbind outcome_bind].
    eapply Hgo; [lia|simpl; lia|done|done].
Qed.

Lemma load_inside (b : bytes) i : 0 <= i < zlen b -> runs (load b i) (fun _ => True).
Proof.
  intros Hi. destruct (lookup_lt_is_Some_2 b (Z.to_nat i)) as [c Hc]; [lia|].
  assert (b = take (Z.to_nat i) b ++ c :: drop (S (Z.to_nat i)) b) as Hb by (by rewrite take_drop_middle).
  exists c. split; [|done]. unfold load. rewrite (mem_read_at b i 1 (take (Z.to_nat i) b) (c :: drop (S (Z.to_nat i)) b)); [done|done|lens|cbn [length]; lia].
Qed.

(** A character that is equal to one other than the terminator. *)
Lemma nul_excluded c d : (c =c d) = true -> d <> x00 -> (c =c x00) = false.
Proof. intros Hc%beq_true Hd. apply beq_false. congruence. Qed.

(** ** The parser *)

Section parser.
Context `{M : Malloc} `{E : ValueEnv}.

(** The text is allocated, or it was the buffer of [raw_event]. *)
Definition text_wf (w : with_text alist) : Prop := text_raw w = false -> text_alive w = true.

(** On a record that satisfies [P] the program returns a result that satisfies [Q] and
    leaves a record that satisfies [P'], or it uses the text after it was freed. *)
Definition ok {A} (P : alist -> Prop) (c : cmd (with_text alist) A) (Q : A -> Prop) (P' : alist -> Prop) : Prop :=
  forall w, text_wf w -> P (text_rec w) -> exists w', text_wf w' /\ text_raw w' = text_raw w /\
    ((exists a, c w = (w', Ret a) /\ Q a /\ P' (text_rec w')) \/ (c w = (w', Undef freed_text) /\ text_alive w' = false)).

Lemma ok_bind {A B} (c : cmd (with_text alist) A) (f : A -> cmd (with_text alist) B) P P' P'' Q Q' :
  ok P c Q P' -> (forall a, Q a -> ok P' (f a) Q' P'') -> ok P (c ≫= f) Q' P''.
Proof.
  intros Hc Hf w Hw Hal. destruct (Hc w Hw Hal) as (w1 & Hw1 & Er & [(a & E1 & Ha & Hal')|[E1 Hd]]).
  - rewrite (cmd_bind_Ret _ _ _ _ _ E1). destruct (Hf a Ha w1 Hw1 Hal') as (w2 & Hw2 & Er2 & Hcase). exists w2. split_and!; [done|congruence|done].
  - exists w1. split_and!; [done..|]. right. split; [by apply cmd_bind_Undef|done].
Qed.

Lemma ok_quiet {A} (c : cmd (with_text alist) A) a P (Q : A -> Prop) P' : (forall w, c w = (w, Ret a)) -> Q a -> (forall al, P al -> P' al) -> ok P c Q P'.
Proof. intros Hc Ha HP w Hw Hal. exists w. split_and!; [done..|]. left. exists a. auto. Qed.

Lemma ok_lift {A} (o : outcome A) P Q : runs o Q -> ok P (lift o) Q P.
Proof. intros (a & -> & Ha). by apply (ok_quiet _ a). Qed.

Lemma ok_ret {A} (a : A) P (Q : A -> Prop) : Q a -> ok P (mret a) Q P.
Proof. intros Ha. by apply (ok_quiet _ a). Qed.

Lemma ok_live P : ok P live (fun _ => True) P.
Proof.
  intros w Hw Hal. exists w. split_and!; [done..|]. unfold live. cbn [rec_text with_text_ops].
  destruct (text_alive w) eqn:Ea; [left; by exists tt|by right].
Qed.

Lemma ok_weaken {A} (c : cmd (with_text alist) A) P P' Q (Q' : A -> Prop) : (forall a, Q a -> Q' a) -> ok P c Q P' -> ok P c Q' (fun _ => True).
Proof.
  intros HQ Hc w Hw Hal. destruct (Hc w Hw Hal) as (w' & ? & ? & [(a & ? & ? & ?)|?]); exists w'; (split_and!; [done..|]); [left; exists a; auto|by right].
Qed.

Lemma ok_value {A B} (o : outcome A) (f : A -> cmd (with_text alist) B) P P' Q Q' :
  runs o Q -> (forall a, Q a -> ok P (f a) Q' P') -> ok P (lift o ≫= f) Q' P'.
Proof. intros Ho Hf. eapply ok_bind; [by apply ok_lift|done]. Qed.

(** Where the record is asked for the sender, it has none or one that can be copied. *)
Definition sender (al : alist) : Prop :=
  match alist_get (lit "MessageSourceAddress") al with Some v => runs (Value.nx_value_clone v) (fun _ => True) | None => True end.

Definition keeps (k : bytes) (P : alist -> Prop) : Prop := forall v al, P al -> P (alist_set k v al).

Lemma keeps_true k : keeps k (fun _ => True).
Proof. done. Qed.
Lemma keeps_sender k : strcasecmp_eq k (lit "MessageSourceAddress") = false -> keeps k sender.
Proof. intros Hk v al. unfold sender. by rewrite alist_get_set, Hk. Qed.

Lemma ok_set k v P : keeps k P -> ok P (rec_set k v) (fun _ => True) P.
Proof.
  intros Hk w Hw Hal. eexists. split; [|split; [|left; exists tt; split; [reflexivity|split; [done|by apply Hk]]]]; [|done].
  unfold text_wf in *. cbn. intros Er. rewrite Er in *. rewrite (Hw eq_refl). done.
Qed.

Lemma ok_set_text k s n P : keeps k P -> 0 <= n <= zlen s -> zlen s <= string_limit -> ok P (set_text k s n) (fun _ => True) P.
Proof.
  intros Hk Hn Hl. unfold set_text. destruct (nx_string_create_rep s n Hn) as (v & Ev & _); [lia|].
  eapply ok_value with (Q := fun _ => True); [by exists v|]. intros w _. by apply ok_set.
Qed.

Lemma range_inside s p e r n : inside s p -> range (Some p) (Some e) = Some (r, n) -> r = p /\ 0 < n <= zlen p.
Proof. intros Hp. unfold range. destruct (Z.ltb_spec (zlen e) (zlen p)); [|done]. intros [= <- <-]. split; [done|lia]. Qed.

Lemma ok_set_name k n P : keeps k P -> short_name n = true -> ok P (set_name k (Some n)) (fun _ => True) P.
Proof.
  intros Hk Hn. apply short_name_facts in Hn as [Hn Hl]. unfold set_name. eapply ok_value; [by apply runs_ret with (P := fun m => m = n)|]. intros m ->.
  unfold nx_value_new_string. destruct (nx_string_create_cstr n Hn Hl) as (v & Ev & _). rewrite Ev.
  eapply ok_value; [by apply runs_ret with (P := fun _ => True)|]. intros w _. by apply ok_set.
Qed.

Lemma split_range n : -1 <= n -> 0 <= fst (split_priority n) <= 23 /\ 0 <= snd (split_priority n) <= 7.
Proof.
  intros Hn. unfold split_priority, NX_SYSLOG_FACILITY_LOCAL7, NX_SYSLOG_SEVERITY_NOPRI, NX_SYSLOG_FACILITY_USER, NX_SYSLOG_SEVERITY_NOTICE.
  case_match; [simpl; lia|]. rewrite Z.shiftr_div_pow2, (Z.land_ones _ 3) by lia. change (2 ^ 3) with 8.
  assert (0 <= n / 8) by (apply Z.div_pos; lia). assert (0 <= n mod 8 < 8) by (apply Z.mod_pos_bound; lia). repeat case_match; simpl; lia.
Qed.

Variable s : bytes.
Lemma ok_priority : inside s s ->
  ok sender (parse_syslog_priority s) (fun r => inside s (fst r) /\ exists n b, scan_priority s = Ret (fst r, n, b)) sender.
Proof using.
  intros Hs. unfold parse_syslog_priority. eapply ok_value with (Q := fun r => let '(p, n, b) := r in (inside s p /\ -1 <= n) /\ scan_priority s = Ret (p, n, b)).
  { destruct (inside_priority s Hs) as ([[p n] b] & E1 & Hp). rewrite E1. by apply runs_ret. }
  intros [[p n] b] [[Hp Hn] Hscan].
  pose proof (split_range n Hn) as Hr. destruct (split_priority n) as [fac sev]. destruct Hr as [Hf Hv]. simpl in Hf, Hv.
  destruct (facility_name fac Hf) as (fn & Ef & Hfn). destruct (severity_name sev Hv) as (sn & Es & Hsn & Hln & _). rewrite Ef, Es.
  do 6 (eapply ok_bind; [first [apply ok_set; by apply keeps_sender|apply ok_set_name; [by apply keeps_sender|done]]|intros [] _]).
  apply ok_ret. eauto.
Qed.

Lemma ok_peek {A} p (f : byte -> cmd (with_text alist) A) P Q P' : inside s p ->
  (forall c p', p = c :: p' -> ((c =c x00) = false -> inside s p') -> ok P (f c) Q P') -> ok P (c ← lift (peek p); f c) Q P'.
Proof using.
  intros Hp Hf. destruct (inside_peek s p Hp) as (c & p' & -> & _ & Ha). apply (ok_value (Ret c) f _ _ (fun d => d = c)); [by apply runs_ret|]. intros d ->. apply (Hf c p'); [done|]. intros Hc. by apply Ha.
Qed.

Lemma ok_next {A} c p (f : bytes -> cmd (with_text alist) A) P Q P' : ok P (f p) Q P' -> ok P (p ← lift (advance 1 (c :: p)); f p) Q P'.
Proof using. intros Hf. rewrite advance_cons. exact Hf. Qed.

Lemma ok_params fuel i name p : (length p <= fuel)%nat -> inside s p -> 0 <= i <= SIZEOF_PARAM_NAME - 1 -> zlen name = SIZEOF_PARAM_NAME ->
  ok (fun _ => True) (sd_params_loop fuel i name p) (fun r => match r with Some q => inside s q /\ zlen q <= zlen p | None => True end) (fun _ => True).
Proof using.
  revert i name p. induction fuel as [|fuel IH]; intros i name p Hf Hp Hi Hn; [apply inside_length in Hp; lia|].
  assert (forall x : bytes, zlen x = SIZEOF_PARAM_NAME -> forall q, inside s q -> zlen q < zlen p ->
    ok (fun _ => True) (sd_params_loop fuel i x q) (fun r => match r with Some q => inside s q /\ zlen q <= zlen p | None => True end) (fun _ => True)) as Hgo.
  { intros x Hx q Hq Hl. eapply ok_weaken; [|apply IH; [lia|done..]]. intros [r|]; [|done]. intros [? ?]. split; [done|lia]. }
  cbn [sd_params_loop]. eapply ok_bind; [apply ok_live|]. intros [] _. apply ok_peek; [done|]. intros c0 p0 _ _. destruct (c0 =c x00); [apply ok_ret; split; [done|lia]|].
  eapply ok_value; [by apply inside_skip|]. intros p1 [Hp1 Hl1]. apply ok_peek; [done|]. intros c1 p1' _ _.
  destruct (c1 =c "]"); [by apply ok_ret|]. eapply ok_value; [by apply inside_param_name|]. intros [[p2 j] name2] (Hp2 & Hl2 & Hj & Hn2).
  eapply ok_value; [apply write_one; unfold SIZEOF_PARAM_NAME in *; lia|]. intros name3 Hn3. cbn beta in Hn3.
  apply ok_peek; [done|]. intros c2 p2' -> Hc2. destruct (c2 =c "=") eqn:E2; [|by apply ok_ret]. cbn [negb]. specialize (Hc2 (nul_excluded _ _ E2 ltac:(done))).
  apply ok_next, ok_peek; [done|]. intros c3 p3' -> Hc3. destruct (c3 =c x22) eqn:E3; [|by apply ok_ret]. cbn [negb]. specialize (Hc3 (nul_excluded _ _ E3 ltac:(done))).
  apply ok_next. destruct (nx_string_new_size_rep 50) as (v & Ev & Hv & _); [unfold string_limit; lia|].
  eapply ok_value with (Q := fun w => str_rep w []); [by exists v|]. intros w Hw.
  eapply ok_value; [by eapply inside_param_value|]. intros [[p4 w']|] H4; [|by apply ok_ret]. destruct H4 as [Hp4 Hl4].
  apply ok_peek; [done|]. intros c5 p5 -> Hc5. destruct (c5 =c x22) eqn:E5; [|by apply ok_ret]. cbn [negb]. specialize (Hc5 (nul_excluded _ _ E5 ltac:(done))).
  eapply ok_bind; [by apply ok_set, keeps_true|]. intros [] _. apply ok_next, Hgo; [lia|done|]. cbn [length] in *. lia.
Qed.


Lemma ok_sd_params name n p : zlen name = SIZEOF_SD_NAME -> 0 <= n <= SIZEOF_SD_NAME - 1 -> inside s p ->
  ok (fun _ => True) (syslog_parse_sd_params name n p) (fun r => match r with Some q => inside s q /\ zlen q <= zlen p | None => True end) (fun _ => True).
Proof using.
  intros Hname Hn Hp. unfold syslog_parse_sd_params. unfold SIZEOF_SD_NAME in *.
  eapply ok_value with (Q := fun r => zlen (fst r) = SIZEOF_PARAM_NAME /\ 0 <= snd r <= SIZEOF_PARAM_NAME - 1).
  - unfold SIZEOF_PARAM_NAME. destruct (Z.ltb_spec 0 n); [|apply runs_ret; cbn [fst snd]; split; [by apply malloc_length|lia]].
    change (80 / 2) with 40. rewrite (proj2 (Z.ltb_lt _ _)) by lia. cbn [ASSERT mbind outcome_bind].
    rewrite (mem_read_at name 0 n [] name) by (done || lia). cbn [mbind outcome_bind].
    assert (zlen (take (Z.to_nat n) name) = n) as Hd by (rewrite length_take; lia). set (d := take (Z.to_nat n) name) in *.
    pose proof (malloc_length 80 ltac:(lia)) as Hm. eapply runs_bind; [apply write_some; [lia|rewrite Hm, Hd; lia]|]. cbn beta. intros x Hx.
    eapply runs_bind; [apply write_one; lia|]. cbn beta. intros y Hy. apply runs_ret. cbn [fst snd]. lia.
  - intros [name' m] [H1 H2]. apply ok_params; done.
Qed.

Lemma ok_element fuel str p : (length p <= fuel)%nat -> inside s str -> inside s p ->
  ok (fun _ => True) (sd_loop fuel str p) (inside s) (fun _ => True).
Proof using.
  intros Hf Hs. revert p Hf. induction fuel as [|fuel IH]; intros p Hf Hp; [apply inside_length in Hp; lia|].
  cbn [sd_loop]. apply ok_peek; [done|]. intros c0 p0 _ _. destruct (c0 =c x00); [by apply ok_ret|].
  eapply ok_value; [by apply inside_skip|]. intros p1 [Hp1 Hl1]. apply ok_peek; [done|]. intros c1 p1' -> Hc1.
  destruct (c1 =c "[") eqn:E1; [|by apply ok_ret]. cbn [negb]. specialize (Hc1 (nul_excluded _ _ E1 ltac:(done))).
  apply ok_next. eapply ok_value; [by apply inside_skip|]. intros p2 [Hp2 Hl2].
  eapply ok_value; [apply inside_sd_name; [done|lia|unfold SIZEOF_SD_NAME; lia|by apply malloc_length]|]. intros [[[p3 i] n] name] (Hp3 & Hl3 & Hn & Hi & Hname).
  eapply ok_value; [apply write_one; unfold SIZEOF_SD_NAME in *; lia|]. intros name2 Hname2. cbn beta in Hname2.
  apply ok_peek; [done|]. intros c3 p3' -> Hc3. destruct (c3 =c x00) eqn:E3; [by apply ok_ret|]. specialize (Hc3 eq_refl). apply ok_next.
  eapply ok_value with (Q := fun r => zlen (fst r) = SIZEOF_SD_NAME /\ 0 <= snd r <= SIZEOF_SD_NAME - 1).
  { case_match; [|apply runs_ret; simpl; lia]. eapply runs_bind; [apply write_one; unfold SIZEOF_SD_NAME in *; lia|]. cbn beta. intros x Hx. apply runs_ret.
    unfold SIZEOF_SD_NAME in *. simpl. lia. }
  intros [name3 m] [Hname3 Hm]. cbn [fst snd] in Hname3, Hm. eapply ok_bind; [apply ok_sd_params; done|].
  intros [p4|] H4; [|by apply ok_ret]. destruct H4 as [Hp4 Hl4]. eapply ok_value; [by apply inside_skip|]. intros p5 [Hp5 Hl5].
  apply ok_peek; [done|]. intros c6 p6 -> Hc6. destruct (c6 =c "]") eqn:E6; [|by apply ok_ret]. cbn [negb]. specialize (Hc6 (nul_excluded _ _ E6 ltac:(done))).
  apply ok_next, IH; [cbn [length] in *; lia|done].
Qed.

Lemma inside_nil p : inside s p -> runs (is_nilvalue p) (fun b => b = true -> exists p', p = "-"%byte :: p' /\ inside s p').
Proof using.
  intros Hp. destruct (inside_peek s p Hp) as (c & p' & -> & _ & Ha). unfold is_nilvalue. cbn [peek mbind outcome_bind].
  destruct (c =c "-") eqn:Ec; [|by apply runs_ret]. destruct (Ha (nul_excluded _ _ Ec ltac:(done))) as [-> Hp']. apply beq_true in Ec as ->. cbn [mbind outcome_bind].
  destruct (inside_peek s p' Hp') as (d & p'' & -> & _). cbn [peek mbind outcome_bind]. apply runs_ret. eauto.
Qed.

Lemma ok_token nil tok p P P' : inside s p -> ok P nil (fun _ => True) P' ->
  (forall q, ok P (tok (Some p) (Some q)) (fun _ => True) P') -> ok P (token nil tok p) (inside s) P'.
Proof using.
  intros Hp Hnil Htok. unfold token. eapply ok_value; [by apply inside_nil|]. intros b Hb. eapply ok_bind with (Q := inside s) (P' := P').
  - destruct b.
    + destruct Hb as (p' & -> & Hp'); [done|]. apply ok_next. eapply ok_bind; [exact Hnil|]. intros _ _. by apply ok_ret.
    + eapply ok_value; [by apply inside_skip|]. intros q [Hq _]. eapply ok_bind; [apply Htok|]. intros _ _. by apply ok_ret.
  - intros q Hq. apply ok_lift. eapply runs_mono; [|by apply inside_skip]. by intros r [Hr _].
Qed.

Lemma inside_bom p : inside s p -> runs (skip_bom p) (inside s).
Proof using.
  intros Hp. destruct (inside_peek s p Hp) as (c & p1 & -> & Ec & Ha). unfold skip_bom. rewrite Ec. cbn [mbind outcome_bind].
  destruct (c =c xef) eqn:E1; [|by apply runs_ret]. apply beq_true in E1 as ->. destruct Ha as [-> H1]; [done|]. cbn [mbind outcome_bind].
  destruct (inside_peek s p1 H1) as (d & p2 & -> & Ed & Hb). rewrite Ed. cbn [mbind outcome_bind].
  destruct (d =c xbb) eqn:E2; [|by apply runs_ret]. apply beq_true in E2 as ->. destruct Hb as [-> H2]; [done|]. cbn [mbind outcome_bind].
  destruct (inside_peek s p2 H2) as (e & p3 & -> & Ee & Hc). rewrite Ee. cbn [mbind outcome_bind].
  destruct (e =c xbf) eqn:E3; [|by apply runs_ret]. apply beq_true in E3 as ->. destruct Hc as [-> H3]; [done|]. by apply runs_ret.
Qed.

Hypothesis short : zlen s <= string_limit.

Lemma ok_set_range k p e P : keeps k P -> inside s p -> ok P (set_range k (Some p) (Some e)) (fun _ => True) P.
Proof using short.
  intros Hk Hp. unfold set_range. destruct (range _ _) as [[r n]|] eqn:Er; [|by apply ok_ret].
  apply (range_inside s) in Er as [-> Hn]; [|done]. apply inside_length in Hp. apply ok_set_text; [done|lia|lia].
Qed.

Lemma ok_message p e : inside s p -> ok (fun _ => True) (set_syslog_message (Some p) (Some e)) (fun _ => True) (fun _ => True).
Proof using short.
  intros Hp. unfold set_syslog_message. destruct (range _ _) as [[r n]|] eqn:Er; [|by apply ok_ret].
  apply (range_inside s) in Er as [-> Hn]; [|done]. apply inside_length in Hp.
  eapply ok_value; [apply load_inside; lia|].
  intros c _. destruct (c =c x0a); case_match; first [by apply ok_ret|apply ok_set_text; [done|lia|lia]].
Qed.

Variable hostname : bytes.
Hypothesis hostname_short : zlen hostname < string_limit.

Lemma ok_hostname_none : ok sender (set_syslog_hostname hostname None None) (fun _ => True) (fun _ => True).
Proof using s hostname_short.
  unfold set_syslog_hostname. cbn [range]. intros u Hu Hal. erewrite cmd_bind_Ret by reflexivity.
  erewrite cmd_bind_Ret by reflexivity. unfold sender in Hal. destruct (alist_get _ (text_rec u)) as [v|].
  - apply (ok_value (Value.nx_value_clone v) _ (fun _ => True) (fun _ => True) (fun _ => True)); [exact Hal| |done|done].
    intros w _. by apply ok_set.
  - destruct (nx_string_clone_rep (exact hostname) hostname) as (w & Ew & _); [apply exact_rep; unfold string_limit in *; lia|done|].
    apply (ok_value (nx_string_clone (exact hostname)) _ (fun _ => True) (fun _ => True) (fun _ => True)); [by exists w| |done|done].
    intros x _. by apply ok_set.
Qed.

Lemma ok_hostname p q : inside s p -> ok sender (set_syslog_hostname hostname (Some p) (Some q)) (fun _ => True) (fun _ => True).
Proof using short hostname_short.
  intros Hp. pose proof ok_hostname_none as Hnone. unfold set_syslog_hostname in *. destruct (range (Some p) (Some q)) as [[r n]|] eqn:Er; [|exact Hnone].
  apply (range_inside s) in Er as [-> Hn]; [|done]. apply inside_length in Hp. eapply ok_weaken; [done|]. apply ok_set_text; [by apply keeps_sender|lia|lia].
Qed.

Lemma ok_ietf p e b : is_Some (apr_time_exp_gmt apr_time_now) -> inside s p -> ok sender (parse_ietf hostname p e b) (fun _ => True) (fun _ => True).
Proof using short hostname_short.
  intros Hclock Hp. unfold parse_ietf. eapply ok_value; [by apply inside_nil|]. intros nil Hnil.
  eapply ok_bind with (Q := fun t => match t with Some q => inside s q | None => True end) (P' := sender).
  { destruct nil.
    - destruct Hnil as (p' & -> & Hp'); [done|]. eapply ok_bind; [apply ok_set; by apply keeps_sender|]. intros [] _. apply ok_next. by apply ok_ret.
    - eapply ok_value; [by apply iso_in; [apply no_nul_cstr|..]|]. intros [[t|] d] Hd; [|by apply ok_ret].
      eapply ok_value with (Q := inside s).
      { destruct d as [[n|]|]; [|by destruct Hd|by discriminate Hd]. apply inside_advance; [done|]. by destruct Hd. }
      intros q Hq. eapply ok_bind; [apply ok_set; by apply keeps_sender|]. intros [] _. by apply ok_ret. }
  intros [q|] Hq.
  - eapply ok_value; [by apply inside_skip|]. intros p1 [Hp1 _].
    eapply ok_bind; [apply ok_token; [done|by apply ok_hostname_none|intros x; by apply ok_hostname]|]. intros p2 Hp2.
    do 3 (eapply ok_bind; [apply ok_token; [eassumption|by apply ok_ret|intros x; by apply ok_set_range]|]; intros ? ?).
    eapply ok_value; [by apply inside_nil|]. intros nil' Hnil'. eapply ok_bind with (Q := inside s) (P' := fun _ => True).
    { destruct nil'.
      - destruct Hnil' as (p' & -> & Hp'); [done|]. apply ok_lift. rewrite advance_cons. by apply runs_ret.
      - apply ok_element; [|done..]. lia. }
    intros p6 Hp6. eapply ok_value; [by apply inside_skip_one|]. intros p7 Hp7. eapply ok_value; [by apply inside_bom|]. intros p8 Hp8.
    eapply ok_bind; [by apply ok_message|]. intros _ _. by apply ok_ret.
  - eapply ok_bind; [apply ok_set; by apply keeps_sender|]. intros [] _. eapply ok_bind; [by apply ok_hostname_none|]. intros _ _.
    eapply ok_bind; [by apply ok_message|]. intros _ _. by apply ok_ret.
Qed.

End parser.

(** The text has a priority and the version of RFC 5424. *)
Definition is_ietf (s : bytes) : bool :=
  match scan_priority s with
  | Ret (c :: d :: _, _, _) => (c =c "1") && (d =c " ")
  | _ => false
  end.

(** C20: Whatever bytes an RFC 5424 message of at most 1 MB holds,
    [nx_syslog_parse_rfc5424] reads no character behind the terminator, its arrays for
    the name of an element (40 bytes) and of a parameter (80 bytes) are not overrun, no
    assertion fails, and its loops end.  If the text is not a part of the record, the
    parser returns.  If it is the buffer of the record's own [raw_event], as in a call of
    parse_syslog_ietf() without argument and in pm_transformer.c, the parser returns too
    unless a parameter of the structured data sets [raw_event] (in any case): that frees
    the text, and the only other outcome is that the parser uses it afterwards.  The
    message has the version of RFC 5424 (another text goes to the parser of BSD
    messages), the clock can be broken down, the name of the host is below the string
    limit, and a MessageSourceAddress of the record can be copied. *)
Theorem syslog5424_safe `{M : Malloc} `{E : ValueEnv} hostname s n al own :
  x00 ∈ s -> zlen s <= string_limit -> n <= zlen s -> zlen hostname < string_limit ->
  is_Some (apr_time_exp_gmt apr_time_now) -> sender al -> is_ietf s = true ->
  exists w', (exists b, nx_syslog_parse_rfc5424 hostname s n (WithText al own true) = (w', Ret b)) \/
    (own = true /\ text_alive w' = false /\ nx_syslog_parse_rfc5424 hostname s n (WithText al own true) = (w', Undef freed_text)).
Proof.
  intros Hnul Hl Hn Hh Hclock Hal Hietf. assert (inside s s) as Hs by done.
  cut (ok sender (nx_syslog_parse_rfc5424 hostname s n) (fun _ => True) (fun _ => True)).
  { intros Hok. destruct (Hok (WithText al own true) ltac:(done) Hal) as (w' & Hw' & Er & [(b & ? & _)|[? Ha]]); exists w'; [left; eauto|right].
    split_and!; [|done..]. cbn in Er. destruct own; [done|]. specialize (Hw' Er). congruence. }
  unfold nx_syslog_parse_rfc5424. eapply ok_value with (Q := fun m => 0 <= m <= zlen s).
  { destruct (Z.leb_spec n 0); [|apply runs_ret; lia]. unfold strlen. rewrite (decide_True _ _ Hnul) || rewrite bool_decide_true by done.
    apply runs_ret. pose proof (cstr_length s). lia. }
  intros m Hm. eapply ok_value with (Q := fun _ => True).
  { unfold advance. rewrite (proj2 (Z.leb_le _ _)), (proj2 (Z.leb_le m _)) by lia. by apply runs_ret. }
  intros e _. eapply ok_bind; [by apply (ok_priority s)|]. intros [p b] [Hp (pri & b' & Hscan)]. cbn [fst] in Hp, Hscan.
  unfold is_ietf in Hietf. rewrite Hscan in Hietf. destruct p as [|c [|d p]]; try done. apply andb_prop in Hietf as [Ec Ed].
  apply (ok_peek s); [done|]. intros c' p' [= <- <-] Hp1. specialize (Hp1 (nul_excluded _ _ Ec ltac:(done))). rewrite Ec.
  eapply ok_value with (Q := fun x => x = d); [rewrite advance_cons; by apply runs_ret|]. intros x ->. rewrite Ed. cbn [andb].
  eapply ok_value with (Q := inside s); [|intros q Hq; by apply (ok_ietf s)].
  exists p. split; [by apply (advance_app [c; d] p)|]. eapply inside_tail; [exact Hp1|]. by apply (nul_excluded _ " ").
Qed.

Lemma syslog5424_safe_witness : exists w',
  (exists b, nx_syslog_parse_rfc5424 (M := poison_malloc) (E := plain_env) (lit "me") (lit "<13>1 - h a - - [x y=" ++ [x00]) 0 (WithText [] false true) = (w', Ret b)) \/
  (false = true /\ text_alive w' = false /\
   nx_syslog_parse_rfc5424 (M := poison_malloc) (E := plain_env) (lit "me") (lit "<13>1 - h a - - [x y=" ++ [x00]) 0 (WithText [] false true) = (w', Undef freed_text)).
Proof.
  apply (syslog5424_safe (M := poison_malloc) (E := plain_env) (lit "me") (lit "<13>1 - h a - - [x y=" ++ [x00]) 0 [] false).
  - apply (bool_decide_unpack _). vm_compute. exact I.
  - vm_compute. discriminate.
  - vm_compute. discriminate.
  - reflexivity.
  - vm_compute. eexists. reflexivity.
  - exact I.
  - reflexivity.
Defined.

(** The text of the [raw_event] of a record. *)
Definition own_record (s : bytes) : with_text alist := WithText [(raw_key, str_value s)] true true.

(** A parameter [raw_event] of the element NXLOG frees the text. *)
Theorem syslog_raw_event_freed :
  let s := lit "<13>1 - h a - - [NXLOG@14506 raw_event=" ++ [x22; "x"%byte; x22] ++ lit "]" in
  snd (nx_syslog_parse_rfc5424 (M := poison_malloc) (E := plain_env) (lit "me") (s ++ [x00]) (zlen s) (own_record s)) = Undef freed_text.
Proof. vm_compute. reflexivity. Qed.

End SyslogSafe.
