(* ===== verification/SyslogSpec.v ===== *)
(** * The syslog modules: properties

    The round trip of RFC 5424 messages through writer and parser, and
    messages that the parsers do not treat as intended. *)

From S2P Require Import Prelude Dlist CLib Str Date DateFormat Value Serialize Logdata RecordIface Syslog SyslogWrite SyslogParse.
Import Str Value Serialize Logdata Syslog SyslogWrite SyslogParse.

Module SyslogSpec.

(** ** The round trip *)

Section roundtrip.
Context `{M : Malloc} `{E : ValueEnv} {R : Type} `{L : RecordLaws R}.

(** A message that can be told from the elements and the byte order mark before it. *)
Definition message_ok (e : event) : Prop :=
  ev_msg e <> [] /\ Forall (fun c => is_break c = false) (ev_msg e) /\ no_nul (ev_msg e) /\ take 3 (ev_msg e) <> bom /\
  (ev_params e <> [] -> head (ev_msg e) <> Some "["%byte /\ head (ev_msg e) <> Some " "%byte).

Record event_ok (e : event) : Prop := {
  ok_fac : 0 <= ev_fac e <= 23;
  ok_sev : 0 <= ev_sev e <= 7;
  ok_time : int64 (ev_time e);
  ok_host : token_ok (ev_host e);
  ok_app : token_ok (ev_app e) /\ Forall (fun c => is_blank c = false) (ev_app e);
  ok_pid : token_ok (ev_pid e);
  ok_id : token_ok (ev_id e);
  ok_msg : message_ok e;
  ok_params : Forall param_ok (ev_params e)
}.

(** The fields that are set, in their order. *)
Definition event_fields (e : event) : list (bytes * value) :=
  priority_fields (ev_fac e) (ev_sev e) ++
  [ (lit "EventTime", nx_value_new_datetime (ev_time e));
    (lit "Hostname", str_value (ev_host e));
    (lit "SourceName", str_value (ev_app e));
    (lit "ProcessID", str_value (ev_pid e));
    (lit "MessageID", str_value (ev_id e)) ] ++
  param_fields (ev_params e) ++ [ (lit "Message", str_value (ev_msg e)) ].

Lemma does_sd {A} e q' q (k : bytes -> cmd R A) a kvs : event_ok e -> q = x00 :: q' -> does (k (ev_msg e ++ q)) a kvs ->
  does (b ← lift (is_nilvalue (sd_element (ev_params e) ++ lit " " ++ ev_msg e ++ q));
        p ← (if (b : bool) then lift (advance 1 (sd_element (ev_params e) ++ lit " " ++ ev_msg e ++ q))
             else syslog_parse_structured_data (sd_element (ev_params e) ++ lit " " ++ ev_msg e ++ q));
        p ← lift (skip_one " " p); p ← lift (skip_bom p); k p) a (param_fields (ev_params e) ++ kvs).
Proof.
  intros He Hq Hk. destruct (ok_msg _ He) as (Hm & _ & Hnn & Hbom & Hp). pose proof (skip_bom_none _ q' Hm Hnn Hbom) as Hsk. rewrite <- Hq in Hsk.
  destruct (ev_msg e) as [|c m]; [done|]. cbn [app] in Hsk.
  destruct (ev_params e) as [|kv ps] eqn:Eps.
  - change (sd_element [] ++ lit " " ++ (c :: m) ++ q) with ("-"%byte :: " "%byte :: c :: m ++ q).
    apply does_value with (a := true); [unfold is_nilvalue; cbn [peek mbind outcome_bind]; change ("-" =c "-") with true; cbv iota; by rewrite advance_cons|].
    cbv iota. eapply does_value; [apply advance_cons|]. eapply does_value; [apply (advance_cons " " (c :: m ++ q))|]. eapply does_value; [exact Hsk|exact Hk].
  - destruct (Hp ltac:(discriminate)) as [H1 H2]. simpl in H1, H2.
    assert ((c =c "[") = false /\ (c =c " ") = false) as [Hb Hs] by (split; apply beq_false; intros ->; done).
    apply does_value with (a := false); [done|]. cbv iota.
    set (ps' := kv :: ps). change (sd_element ps') with (lit "[NXLOG@14506 " ++ sd_text ps' ++ lit "]"). rewrite <- !app_assoc.
    change (lit " " ++ ?x) with (" "%byte :: x). change ((c :: m) ++ q) with (c :: m ++ q).
    apply (does_bind _ _ (c :: m ++ q) _ _ (param_fields ps') kvs); [done| |].
    + unfold syslog_parse_structured_data. change (length (lit "[NXLOG@14506 " ++ ?x)) with (S (length (lit "NXLOG@14506 " ++ x))).
      apply does_element; [done| |done|done]. subst ps'. rewrite <- Eps. apply He.
    + eapply does_value; [unfold skip_one; cbn [peek mbind outcome_bind]; by rewrite Hs|].
      eapply does_value; [exact Hsk|exact Hk].
Qed.


(** The text behind the version. *)
Definition ietf_tail (date : bytes) (e : event) : bytes :=
  date ++ lit " " ++ ev_host e ++ lit " " ++ ev_app e ++ lit " " ++ ev_pid e ++ lit " " ++ ev_id e ++ lit " " ++
  sd_element (ev_params e) ++ lit " " ++ ev_msg e.

Lemma token_head tok : token_ok tok -> exists c t, tok = c :: t /\ (c =c " ") = false.
Proof using.
  intros (Hn & _ & Hf & _). destruct tok as [|c t]; [done|]. inversion Hf as [|? ? Hc _]; subst. exists c, t. split; [done|]. by apply in_token_facts.
Qed.

Lemma sd_head ps : exists c t, sd_element ps = c :: t /\ (c =c " ") = false.
Proof using. destruct ps as [|p ps]; [by exists "-"%byte, []|]. eexists "["%byte, _. split; reflexivity. Qed.

Lemma does_token_at nil tok_set tok t rest kvs : t = tok ++ " "%byte :: rest -> token_ok tok ->
  (exists c r, rest = c :: r /\ (c =c " ") = false) -> does (tok_set (Some t) (Some (" "%byte :: rest))) tt kvs ->
  does (token nil tok_set t) rest kvs.
Proof. intros -> Ht (c & r & -> & Hc) Hs. by apply does_token. Qed.

Lemma head_app a b : (exists c t, a = c :: t /\ (c =c " ") = false) -> exists c t, a ++ b = c :: t /\ (c =c " ") = false.
Proof using. intros (c & t & -> & Hc). by exists c, (t ++ b). Qed.

Lemma does_ietf hostname e date q' q retval : event_ok e -> q = x00 :: q' -> zlen (ietf_tail date e) < string_limit ->
  no_nul date -> date <> [] -> head date <> Some "-"%byte ->
  (forall tail, no_nul tail -> Date.nx_date_parse_iso (date ++ tail) (Some (Some 0)) = Ret (Some (ev_time e), Some (Some (zlen date)))) ->
  does (parse_ietf hostname (ietf_tail date e ++ q) q retval) retval
    ((lit "EventTime", nx_value_new_datetime (ev_time e)) :: (lit "Hostname", str_value (ev_host e)) ::
     (lit "SourceName", str_value (ev_app e)) :: (lit "ProcessID", str_value (ev_pid e)) ::
     (lit "MessageID", str_value (ev_id e)) :: param_fields (ev_params e) ++ [(lit "Message", str_value (ev_msg e))]).
Proof.
  intros He Hq Hl Hnul Hne Hd Hparse. pose proof He as [_ _ Ht Hh [Ha _] Hpi Hi (Hm & Hb & _) _].
  assert (zlen (ev_msg e) <= string_limit) as Hml by (unfold ietf_tail in Hl; rewrite !length_app in Hl; lia).
  unfold ietf_tail. rewrite <- !app_assoc. change (lit " " ++ ?x) with (" "%byte :: x).
  set (t5 := sd_element (ev_params e) ++ " "%byte :: ev_msg e ++ q).
  set (t4 := ev_id e ++ " "%byte :: t5). set (t3 := ev_pid e ++ " "%byte :: t4). set (t2 := ev_app e ++ " "%byte :: t3). set (t1 := ev_host e ++ " "%byte :: t2).
  assert (is_nilvalue (date ++ " "%byte :: t1) = Ret false) as Hnil.
  { destruct date as [|d date]; [done|]. unfold is_nilvalue. cbn [app peek mbind outcome_bind]. rewrite (proj2 (beq_false d "-")); [done|].
    intros ->. by apply Hd. }
  unfold parse_ietf. eapply does_value; [exact Hnil|]. cbv iota.
  eapply (does_bind _ _ (Some (" "%byte :: t1)) _ _ [_] (_ :: _ :: _ :: _ :: _)); [done| |].
  { eapply does_value; [rewrite cstr_app by done; apply Hparse, no_nul_cstr|]. cbn beta iota.
    eapply does_value; [apply advance_app; reflexivity|].
    eapply (does_bind _ _ tt _ _ [_] []); [done|apply does_set; [done|split; [by left|discriminate]]|apply does_ret]. }
  cbv iota. apply does_value with (a := t1).
  { destruct (head_app _ (" "%byte :: t2) (token_head _ Hh)) as (c & t & Ec & Hc). subst t1. rewrite Ec.
    apply (skip_run is_space [" "%byte] c t); [by repeat constructor|done]. }
  eapply (does_bind _ _ t2 _ _ [_] (_ :: _ :: _ :: _)); [done| |].
  { apply (does_token_at _ _ (ev_host e)); [done|done|by apply head_app, token_head|]. unfold set_syslog_hostname, t1. rewrite range_app by apply Hh. eapply does_set_text; [done..|apply Hh]. }
  eapply (does_bind _ _ t3 _ _ [_] (_ :: _ :: _)); [done| |].
  { apply (does_token_at _ _ (ev_app e)); [done|done|by apply head_app, token_head|]. apply does_set_range; [done|apply Ha..]. }
  eapply (does_bind _ _ t4 _ _ [_] (_ :: _)); [done| |].
  { apply (does_token_at _ _ (ev_pid e)); [done|done|by apply head_app, token_head|]. apply does_set_range; [done|apply Hpi..]. }
  eapply (does_bind _ _ t5 _ _ [_] _); [done| |].
  { apply (does_token_at _ _ (ev_id e)); [done|done|by apply head_app, sd_head|]. apply does_set_range; [done|apply Hi..]. }
  eapply does_sd; [done|exact Hq|]. eapply (does_bind _ _ tt _ _ [_] []); [done|by apply does_message|apply does_ret].
Qed.

Lemma print_priority n : 0 <= n <= 191 -> exists c t, print_int n = c :: t /\ (c =c " ") = false.
Proof using.
  intros Hn. assert (Forall (fun k => match print_int (Z.of_nat k) with c :: _ => (c =c " ") = false | [] => False end) (seq 0 192)) as HF
    by (repeat (apply List.Forall_cons; [reflexivity|]); constructor).
  rewrite Forall_forall in HF. specialize (HF (Z.to_nat n) ltac:(apply elem_of_seq; lia)). rewrite Z2Nat.id in HF by lia.
  destruct (print_int n) as [|c t]; [done|eauto].
Qed.

Lemma does_parse hostname e date q' q : event_ok e -> q = x00 :: q' -> zlen (ietf_text date e) < string_limit ->
  no_nul date -> date <> [] -> head date <> Some "-"%byte ->
  (forall tail, no_nul tail -> Date.nx_date_parse_iso (date ++ tail) (Some (Some 0)) = Ret (Some (ev_time e), Some (Some (zlen date)))) ->
  does (nx_syslog_parse_rfc5424 hostname (ietf_text date e ++ q) (zlen (ietf_text date e))) true (event_fields e).
Proof.
  intros He Hq Hl Hnul Hne Hd Hparse.
  assert (ietf_text date e = lit "<" ++ print_int (ev_fac e * 8 + ev_sev e) ++ ">"%byte :: "1"%byte :: " "%byte :: ietf_tail date e) as Et by done.
  assert (0 < zlen (ietf_text date e)) as Hpos by (rewrite Et; simpl; lia).
  unfold nx_syslog_parse_rfc5424. rewrite (proj2 (Z.leb_gt _ _)) by done. eapply does_value; [done|].
  eapply does_value; [by apply advance_app|]. rewrite Et, <- !app_assoc. change (("1"%byte :: " "%byte :: ?x) ++ q) with ("1"%byte :: " "%byte :: x ++ q).
  unfold event_fields. eapply does_bind; [reflexivity|apply does_priority; [apply He|apply He|done]|]. cbn beta iota.
  eapply does_value; [reflexivity|]. eapply does_value; [change ("1" =c "1") with true; cbv iota; rewrite advance_cons; reflexivity|].
  change (("1" =c "1") && (" " =c " ")) with true. cbv iota. eapply does_value; [by apply (advance_app (lit "1 ") (ietf_tail date e ++ q))|].
  eapply does_ietf; try done. rewrite Et in Hl. rewrite !length_app in Hl. cbn [length] in Hl. lia.
Qed.

(** C19: A well-formed event that [nx_logdata_to_syslog_rfc5424] writes is read
    back by [nx_syslog_parse_rfc5424]: the string holds the RFC 5424 text of the
    event, and the parser, run on that string, succeeds and sets in any record
    exactly the fields of the event, structured data included.  An event is
    well formed if its names are non-empty tokens, its parameter names are short
    and its message has no line break and does not look like structured data or start
    with a byte order mark. *)
Theorem syslog5424_roundtrip {TL : DateFormat.TimeLaws value_time} hostname gmt fs e s x r al :
  says fs e -> event_ok e -> str_rep s x -> denotes r al ->
  DateFormat.DAY <= ev_time e < DateFormat.TIME_MAX - DateFormat.DAY ->
  (gmt = false -> forall x, Date.apr_time_exp_lt (ev_time e) = Some x -> 0 <= Date.x_gmtoff x \/ Date.x_gmtoff x <= - 3600) ->
  zlen (ietf_text (replicate 32 x00) e) < string_limit ->
  exists s' r', nx_logdata_to_syslog_rfc5424 hostname gmt fs s = (s', Ret tt) /\
    nx_syslog_parse_rfc5424 hostname (buf s') (len s') r = (r', Ret true) /\ denotes r' (set_all (event_fields e) al).
Proof.
  intros Hsays He Hs Hr Ht Hzone Hlim.
  destruct (DateFormat.rfc5424_reads (malloc 33) 33 gmt (ev_time e) Ht) as (b & date & Hw & _ & (z & Hb) & Hn & Hlen & _ & Hd & Hp);
    [rewrite malloc_length; lia|done|].
  assert (zlen (ietf_text date e) < string_limit) as Hl
    by (unfold ietf_text in *; rewrite !length_app in *; rewrite length_replicate in Hlim; destruct gmt; lia).
  pose proof He as [Hf Hv _ _ [Ha Hbl] Hpi _ (Hm & Hbr & _) Hps].
  destruct (ietf_writes hostname gmt fs e s x b date z) as (s' & Ew & Hs'); try done; [apply Ha|apply Hpi| |].
  { eapply Forall_impl; [exact Hps|]. by intros p [Hname _]. }
  destruct Hs' as (_ & (q & Hbuf) & _ & Hlen' & _).
  destruct (does_parse hostname e date q (x00 :: q) He eq_refl Hl Hn) with (r := r) (al := al) as (r' & Ep & Hr'); try done.
  { intros ->. by destruct gmt. }
  { intros tail Htail. by apply Hp. }
  exists s', r'. split; [done|]. by rewrite Hbuf, Hlen'.
Qed.
End roundtrip.

(** An event with structured data. *)
Definition login : event :=
  Event 4 3 1700000000123456 (lit "host") (lit "sshd") (lit "1234") (lit "ID47") (lit "login failed") [(lit "user", lit "a]b"); (lit "port", lit "22")].

Definition login_fields : alist :=
  [ (lit "SyslogFacilityValue", nx_value_new_integer 4); (lit "SyslogSeverityValue", nx_value_new_integer 3);
    (lit "EventTime", nx_value_new_datetime 1700000000123456); (lit "Hostname", str_value (lit "host"));
    (lit "SourceName", str_value (lit "sshd")); (lit "ProcessID", str_value (lit "1234")); (lit "MessageID", str_value (lit "ID47"));
    (lit "Message", str_value (lit "login failed")); (lit "user", str_value (lit "a]b")); (lit "port", str_value (lit "22")) ].

Definition empty_string : nx_string := NxString 0 (replicate 16 x00) 16 0.

Lemma empty_string_rep : str_rep empty_string [].
Proof. split_and!; [reflexivity|by exists (replicate 15 x00)|done|done|done]. Qed.

Lemma login_ok : event_ok login.
Proof.
  assert (forall tok, bool_decide (tok <> [] /\ tok <> lit "-" /\ Forall (fun c => in_token c = true) tok) = true -> zlen tok <= 100 -> token_ok tok) as Htok.
  { intros tok Ht Hl. apply (bool_decide_eq_true _) in Ht as (H1 & H2 & H3). assert (zlen tok <= string_limit) by (unfold string_limit; lia). unfold token_ok. split_and!; [exact H1|exact H2|exact H3|done]. }
  assert (forall c, no_nul c <-> bool_decide (x00 ∉ c) = true) as Hnul by (intros c; by rewrite bool_decide_eq_true).
  constructor; [by vm_compute|by vm_compute|by vm_compute|..];
    try (apply Htok; [reflexivity|vm_compute; discriminate]).
  - split; [apply Htok; [reflexivity|vm_compute; discriminate]|by repeat constructor].
  - split_and!; [discriminate|by repeat constructor|by apply Hnul|discriminate|]. intros _. split; discriminate.
  - constructor; [|constructor; [|constructor]]; (split_and!; [by repeat constructor|vm_compute; discriminate|by apply Hnul|vm_compute; reflexivity|reflexivity]).
Qed.

Lemma syslog5424_roundtrip_witness : exists s' r',
  nx_logdata_to_syslog_rfc5424 (M := poison_malloc) (E := plain_env) (lit "me") true login_fields empty_string = (s', Ret tt) /\
  nx_syslog_parse_rfc5424 (M := poison_malloc) (E := plain_env) (R := alist) (lit "me") (buf s') (len s') [] = (r', Ret true) /\ r' = set_all (event_fields login) [].
Proof.
  apply (syslog5424_roundtrip (M := poison_malloc) (E := plain_env) (R := alist) (L := alist_laws) (TL := DateFormat.utc_laws 0)
    (lit "me") true login_fields login empty_string [] [] []).
  - split_and!; reflexivity.
  - apply login_ok.
  - apply empty_string_rep.
  - reflexivity.
  - split; [discriminate|reflexivity].
  - intros H. discriminate H.
  - reflexivity.
Defined.

(** ** Messages on which the code does not do what it means to *)

Definition parse3164 (t : bytes) : alist * outcome bool :=
  nx_syslog_parse_rfc3164 (M := poison_malloc) (E := plain_env) (R := alist) (lit "me") (t ++ [x00]) 0 [].
Definition parse5424 (t : bytes) : alist * outcome bool :=
  nx_syslog_parse_rfc5424 (M := poison_malloc) (E := plain_env) (R := alist) (lit "me") (t ++ [x00]) 0 [].

(** The result and the data of a field. *)
Definition parsed (k : bytes) (r : alist * outcome bool) : outcome bool * option (nx_data bytes) :=
  (snd r, option_map v_data (alist_get k (fst r))).

(** Messages that the parsers get wrong: a BSD message that ends with a date whose
    day has one digit makes the parser read behind its terminator; an element
    without parameters is not recognized, and neither is the element in front
    of a message that starts with a bracket: the structured data become part of
    the message; and a priority without
    its closing bracket is accepted. *)
Theorem syslog_gaps :
  snd (parse3164 (lit "<30>Jan 2 03:04:05")) = Undef "read behind the text" /\
  parsed (lit "Message") (parse5424 (lit "<13>1 - h a - - [ex@32473] msg")) = (Ret true, Some (DString (lit "[ex@32473] msg"))) /\
  parsed (lit "Message") (parse5424 (lit "<13>1 - h a - - " ++ sd_element [(lit "x", lit "1")] ++ lit " [abc] msg")) =
    (Ret true, Some (DString (sd_element [(lit "x", lit "1")] ++ lit " [abc] msg"))) /\
  parsed (lit "SyslogFacilityValue") (parse3164 (lit "<30 msg")) = (Ret true, Some (DInteger 1)).
Proof. split_and!; vm_compute; reflexivity. Qed.
End SyslogSpec.
