(* ===== verification/Reader.v ===== *)
(** * Readers and writers of the input and output modules (common/readerfuncs.c,
    common/writerfuncs.c)

    An input has a buffer that sockets and files are read into; a reader takes
    the next record from it and keeps an incomplete one in [ctx].  A writer
    puts a record into the buffer of an output. *)

From S2P Require Import Prelude Dlist Str Value Serialize Logdata LogdataSerialize.
Import Str Value Serialize Logdata LogdataSerialize.

Module Reader.

(** ** Inputs *)

(** [nx_module_input_t]; [C] is the type that [ctx] points to. *)
Record nx_module_input (C : Type) := Input {
  ibuf : bytes;
  bufsize : Z;
  bufstart : Z;
  buflen : Z;
  ctx : option C
}.
Arguments Input {C}.
Arguments ibuf {C}.
Arguments bufsize {C}.
Arguments bufstart {C}.
Arguments buflen {C}.
Arguments ctx {C}.

Definition set_pos {C} (start n : Z) (x : nx_module_input C) : nx_module_input C := Input (ibuf x) (bufsize x) start n (ctx x).
Definition set_ibuf {C} (b : bytes) (x : nx_module_input C) : nx_module_input C := Input b (bufsize x) (bufstart x) (buflen x) (ctx x).
Definition set_ctx {C} (c : option C) (x : nx_module_input C) : nx_module_input C := Input (ibuf x) (bufsize x) (bufstart x) (buflen x) c.

Definition NX_MODULE_DEFAULT_INPUT_BUFSIZE : Z := 65000.

(** [bufsize] is the one configured for the module, or 0; [apr_pcalloc] clears the block. *)
Definition nx_module_input_new {C} (size : Z) : nx_module_input C :=
  let bufsize := if size =? 0 then NX_MODULE_DEFAULT_INPUT_BUFSIZE else size in
  Input (replicate (Z.to_nat bufsize) x00) bufsize 0 0 None.

(** [data] is what the socket delivers, at most as many bytes as are asked for. *)
Definition nx_module_input_fill_buffer_from_socket {C} (data : bytes) (x : nx_module_input C) : outcome (nx_module_input C) :=
  let x := if bufstart x =? bufsize x then set_pos 0 0 x else x in
  let x := if buflen x =? 0 then set_pos 0 (buflen x) x else x in
  b ← mem_write (ibuf x) (bufstart x + buflen x) data;
  Ret (set_pos (bufstart x) (buflen x + zlen data) (set_ibuf b x)).

(** [input->buf[input->bufstart + i]] *)
Definition cell {C} (x : nx_module_input C) (i : Z) : outcome byte := load (ibuf x) (bufstart x + i).

(** [input->buf + input->bufstart] *)
Definition from_start {C} (x : nx_module_input C) : bytes := drop (Z.to_nat (bufstart x)) (ibuf x).

(** [i] characters were used. *)
Definition consume {C} (i : Z) (x : nx_module_input C) : outcome (nx_module_input C) :=
  _ ← ASSERT (i <=? buflen x) "i <= input->buflen";
  _ ← ASSERT (bufstart x + i <=? bufsize x) "input->bufstart + i <= input->bufsize";
  Ret (set_pos (bufstart x + i) (buflen x - i) x).

Abbreviation rstate C := (heap * nx_module_input C)%type.

Definition get_input {C} : cmd (rstate C) (nx_module_input C) := fun s => (s, Ret (snd s)).
Definition put_input {C} (x : nx_module_input C) : cmd (rstate C) unit := fun s => ((fst s, x), Ret tt).
Definition in_heap {C A} (c : cmd heap A) : cmd (rstate C) A := fun s => let '(h, r) := c (fst s) in ((h, snd s), r).

(** ** The binary reader *)

Definition NX_LOGDATA_BINARY_HEADER : bytes := [x00; "N"%byte; "X"%byte; x00].

(** [memcmp(input->buf + input->bufstart, NX_LOGDATA_BINARY_HEADER, 4) == 0] *)
Definition at_header {C} (x : nx_module_input C) : outcome bool :=
  d ← mem_read (ibuf x) (bufstart x) 4; Ret (bool_decide (d = NX_LOGDATA_BINARY_HEADER)).

(** Skip to the next header, or to the end. *)
Fixpoint resync {C} (fuel : nat) (x : nx_module_input C) : outcome (nx_module_input C) :=
  if 0 <? buflen x then
    b ← (if 4 <=? buflen x then at_header x else Ret false);
    if (b : bool) then Ret x
    else match fuel with
         | O => Undef "out of fuel"
         | S fuel => resync fuel (set_pos (bufstart x + 1) (buflen x - 1) x)
         end
  else Ret x.

(** [memmove(input->buf, input->buf + input->bufstart, input->buflen)] *)
Definition move_to_front {C} (x : nx_module_input C) : outcome (nx_module_input C) :=
  b ← memmove (ibuf x) 0 (bufstart x) (buflen x);
  Ret (set_pos 0 (buflen x) (set_ibuf b x)).

Section readers.
Context `{H : Host} `{M : Malloc} `{E : ValueEnv}.

(** [bytes + 8] as [apr_uint32_t]. *)
Definition total_size (datalen : Z) : Z := u32 (datalen + 8).

(** A record is read; if it is malformed the exception is logged and the reader skips to
    the next header. *)
Definition read_record {C} (x : nx_module_input C) : cmd (rstate C) (option logdata) := fun s =>
  let x := set_pos (bufstart x + 8) (buflen x - 8) x in
  match nx_logdata_from_membuf (from_start x) (buflen x) (fst s) with
  | (h, Ret (d, n)) =>
      match ASSERT (n <=? buflen x) "len <= input->buflen" with
      | Ret _ => ((h, set_pos (bufstart x + n) (buflen x - n) x), Ret (Some d))
      | _ => ((h, set_pos (bufstart x + n) (buflen x) x), Panic "len <= input->buflen")
      end
  | (h, Throw _) =>
      match resync (Z.to_nat (buflen x)) x with
      | Ret x => ((h, x), Ret None)
      | Throw e => ((h, x), Throw e)
      | Panic e => ((h, x), Panic e)
      | Undef e => ((h, x), Undef e)
      end
  | (h, Panic e) => ((h, x), Panic e)
  | (h, Undef e) => ((h, x), Undef e)
  end.

Definition nx_module_input_func_binaryreader {C} : cmd (rstate C) (option logdata) :=
  x ← get_input;
  _ ← lift (ASSERT (0 <=? buflen x) "input->buflen >= 0");
  _ ← lift (ASSERT (bool_decide (ctx x = None)) "input->ctx == NULL");
  if buflen x <? 8 then
    _ ← (if bufstart x + buflen x =? bufsize x then x ← lift (move_to_front x); put_input x else mret tt);
    mret None
  else
    b ← lift (at_header x);
    x ← (if (b : bool) then mret x else lift (resync (Z.to_nat (buflen x)) x));
    _ ← put_input x;
    if negb b && (buflen x =? 0) then mret None
    else
      d ← lift (mem_read (ibuf x) (bufstart x + 4) 4);
      let datalen := nx_int32_from_le d in
      if u32 (bufsize x) <? total_size datalen then _ ← put_input (set_pos 0 0 x); mret None
      else if total_size datalen <=? u32 (buflen x) then read_record x
      else if 0 <? bufstart x then x ← lift (move_to_front x); _ ← put_input x; mret None
      else mret None.

(** ** The line reader *)

(** The position of the first line feed from [i] on, and whether there is one. *)
Fixpoint find_lf {C} (fuel : nat) (x : nx_module_input C) (i : Z) : outcome (Z * bool) :=
  if i <? buflen x then
    match fuel with
    | O => Undef "out of fuel"
    | S fuel => c ← cell x i; if c =c x0a then Ret (i, true) else find_lf fuel x (i + 1)
    end
  else Ret (i, false).

Definition scan_line {C} (x : nx_module_input C) : outcome (Z * bool) := find_lf (Z.to_nat (buflen x)) x 0.

(** For a line feed at [len], what is used of the buffer and the length of the line
    without its carriage return; the characters 0 are those of UTF-16. *)
Definition line_end {C} (x : nx_module_input C) (len : Z) : outcome (Z * Z) :=
  wide ← (if len <? buflen x then c ← cell x (len + 1); Ret (c =c x00) else Ret false);
  let i := if (wide : bool) then len + 1 else len in
  c ← (if 0 <? len then cell x (len - 1) else Ret x01);
  n ← (if c =c x0d then Ret (len - 1)
       else if (1 <? len) && (c =c x00) then d ← cell x (len - 2); Ret (if d =c x0d then len - 2 else len)
       else Ret len);
  Ret (if i <? buflen x then i + 1 else i, n).

(** The binary header at the start of a record; the tests of the code end at the first
    that fails. *)
Definition starts_binary {C} (x : nx_module_input C) : outcome bool :=
  a ← cell x 0;
  if (a =c x00) && (4 <=? buflen x) then
    b ← cell x 1;
    if b =c "N" then
      c ← cell x 2;
      if c =c "X" then d ← cell x 3; Ret (d =c x00) else Ret false
    else Ret false
  else Ret false.

(** A carriage return at the end of the string is cut off by its length alone. *)
Definition cut_cr (s : nx_string) : outcome nx_string :=
  if 0 <? len s then
    c ← load (buf s) (len s - 1);
    Ret (if c =c x0d then set_slen (len s - 1) s else s)
  else Ret s.

Definition append_line {C} (d : logdata) (b : bytes) (n : Z) : cmd (rstate C) unit := fun s =>
  let '((h, _), r) := nx_logdata_append_logline b n (fst s, d) in ((h, snd s), r).

Definition use {C} (i : Z) : cmd (rstate C) unit := x ← get_input; x ← lift (consume i x); put_input x.

Definition nx_module_input_func_linereader : cmd (rstate logdata) (option logdata) :=
  x ← get_input;
  _ ← lift (ASSERT (0 <=? buflen x) "input->buflen >= 0");
  if buflen x =? 0 then mret None
  else
    match ctx x with
    | None =>
        b ← lift (starts_binary x);
        if (b : bool) then nx_module_input_func_binaryreader
        else
          '(i, foundlf) ← lift (scan_line x);
          if (foundlf : bool) then
            '(i, n) ← lift (line_end x i);
            d ← in_heap (nx_logdata_new_logline (from_start x) n);
            _ ← use i;
            mret (Some d)
          else
            d ← in_heap (nx_logdata_new_logline (from_start x) i);
            _ ← put_input (set_ctx (Some d) x);
            _ ← use i;
            mret None
    | Some incomplete_logdata =>
        '(i, foundlf) ← lift (scan_line x);
        if (foundlf : bool) then
          _ ← put_input (set_ctx None x);
          '(i, n) ← lift (line_end x i);
          _ ← (if n =? 0 then
                 l ← lift (deref (raw_event incomplete_logdata) "raw_event");
                 in_heap (update_str l cut_cr)
               else append_line incomplete_logdata (from_start x) n);
          _ ← use i;
          mret (Some incomplete_logdata)
        else
          _ ← append_line incomplete_logdata (from_start x) i;
          _ ← use i;
          mret None
    end.

(** ** The datagram reader *)

Definition nx_module_input_func_dgramreader {C} : cmd (rstate C) (option logdata) :=
  x ← get_input;
  _ ← lift (ASSERT (0 <=? buflen x) "input->buflen >= 0");
  _ ← lift (ASSERT (bool_decide (ctx x = None)) "input->ctx == NULL");
  _ ← lift (ASSERT (bufstart x =? 0) "input->bufstart == 0");
  if buflen x =? 0 then mret None
  else
    c ← lift (cell x 0);
    if bz c <? 10 then
      r ← nx_module_input_func_binaryreader;
      x ← get_input;
      _ ← put_input (set_pos 0 0 x);
      mret r
    else
      d ← (if buflen x <? bufsize x then
             b ← lift (mem_write (ibuf x) (buflen x) [x00]);
             _ ← put_input (set_ibuf b x);
             n ← lift (strlen b);
             in_heap (nx_logdata_new_logline b n)
           else in_heap (nx_logdata_new_logline (ibuf x) (buflen x)));
      x ← get_input;
      _ ← put_input (set_pos 0 0 x);
      mret (Some d).

(** ** Outputs *)

(** [nx_module_output_t] *)
Record nx_module_output := Output {
  obuf : bytes;
  obufsize : Z;
  obufstart : Z;
  obuflen : Z;
  ologdata : option logdata
}.

Definition NX_LINEFEED : bytes := [x0a].
(** [sizeof(NX_LINEFEED)] *)
Definition SIZEOF_LINEFEED : Z := 2.

Abbreviation wstate := (heap * nx_module_output)%type.

Definition get_output : cmd wstate nx_module_output := fun s => (s, Ret (snd s)).
Definition set_output (b : bytes) (n : Z) : cmd wstate unit := fun s =>
  ((fst s, Output b (obufsize (snd s)) 0 n (ologdata (snd s))), Ret tt).

Definition clear_logdata : cmd wstate unit := fun s =>
  ((fst s, Output (obuf (snd s)) (obufsize (snd s)) (obufstart (snd s)) (obuflen (snd s)) None), Ret tt).

(** A function of the strings of the heap. *)
Definition of_heap {A} (f : heap -> outcome A) : cmd wstate A := fun s => (s, f (fst s)).

Definition nx_module_output_fill_buffer (addlf : bool) : cmd wstate unit :=
  x ← get_output;
  _ ← lift (ASSERT (obuflen x =? 0) "output->buflen == 0");
  d ← lift (deref (ologdata x) "output->logdata != NULL");
  l ← lift (deref (raw_event d) "output->logdata->raw_event != NULL");
  s ← of_heap (fun h => deref (strs h !! l) "string used after it was freed");
  let limit := u64 (obufsize x - SIZEOF_LINEFEED) in
  let n := if limit <? len s then limit else len s in
  data ← lift (mem_read (buf s) 0 n);
  b ← lift (mem_write (obuf x) 0 data);
  if (addlf : bool) then
    b ← lift (mem_write b n NX_LINEFEED);
    set_output b (n + (SIZEOF_LINEFEED - 1))
  else set_output b n.

Definition nx_module_output_func_linewriter : cmd wstate unit := nx_module_output_fill_buffer true.
Definition nx_module_output_func_dgramwriter : cmd wstate unit := nx_module_output_fill_buffer false.

(** [nx_module_logqueue_drop] of the output's module. *)
Context (nx_module_logqueue_drop : logdata -> cmd wstate unit).

Definition nx_module_output_func_binarywriter : cmd wstate unit :=
  x ← get_output;
  _ ← lift (ASSERT (obuflen x =? 0) "output->buflen == 0");
  d ← lift (deref (ologdata x) "output->logdata != NULL");
  memsize ← of_heap (fun h => nx_logdata_serialized_size h d);
  if obufsize x <? memsize + 8 then
    _ ← nx_module_logqueue_drop d;
    clear_logdata
  else
    b ← lift (mem_write (obuf x) 0 NX_LOGDATA_BINARY_HEADER);
    b ← lift (mem_write b 4 (nx_int32_to_le (u32 memsize)));
    '(b, memsize_got) ← of_heap (fun h => nx_logdata_to_membuf h d b 8 memsize);
    _ ← lift (ASSERT (memsize_got =? memsize) "memsize_got == memsize");
    set_output b (memsize + 8).

End readers.
End Reader.
