(* ===== verification/ReaderSpec.v ===== *)
(** * The line reader: properties

    However the bytes of a stream arrive, the line reader delivers the lines
    of the stream. *)

From S2P Require Import Prelude Dlist Str Value Serialize Logdata LogdataSerialize Reader.
Import Str Value Serialize Logdata LogdataSerialize Reader.

Module ReaderSpec.

(** ** The lines of a stream *)

Definition LF : byte := x0a.
Definition CR : byte := x0d.

(** A line without a carriage return at its end. *)
Definition chomp (l : bytes) : bytes := if bool_decide (last l = Some CR) then take (length l - 1) l else l.

(** The complete lines of [p ++ s], if [p] has no line feed, and what follows the last one. *)
Fixpoint feed (p s : bytes) : list bytes * bytes :=
  match s with
  | [] => ([], p)
  | c :: s => if c =c LF then let '(ls, q) := feed [] s in (chomp p :: ls, q) else feed (p ++ [c]) s
  end.

Lemma feed_partial p s : LF ∉ s -> feed p s = ([], p ++ s).
Proof.
  revert p. induction s as [|c s IH]; intros p Hs; simpl; [by rewrite app_nil_r|]. apply not_elem_of_cons in Hs as [Hc Hs].
  rewrite (proj2 (beq_false c LF)) by done. by rewrite IH, <- app_assoc.
Qed.

Lemma feed_line p u v : LF ∉ u -> feed p (u ++ LF :: v) = (chomp (p ++ u) :: fst (feed [] v), snd (feed [] v)).
Proof.
  revert p. induction u as [|c u IH]; intros p Hu; simpl.
  - rewrite app_nil_r. by destruct (feed [] v).
  - apply not_elem_of_cons in Hu as [Hc Hu]. rewrite (proj2 (beq_false c LF)) by done. by rewrite IH, <- app_assoc.
Qed.

Lemma first_line s : LF ∈ s -> exists u v, s = u ++ LF :: v /\ LF ∉ u.
Proof.
  induction s as [|c s IH]; intros Hs; [by apply not_elem_of_nil in Hs|]. destruct (decide (c = LF)) as [->|Hc]; [exists [], s; split; [done|apply not_elem_of_nil]|].
  apply elem_of_cons in Hs as [<-|Hs]; [done|]. destruct (IH Hs) as (u & v & -> & Hu). exists (c :: u), v. split; [done|]. by apply not_elem_of_cons.
Qed.

Lemma feed_app p s1 s2 : feed p (s1 ++ s2) =
  (fst (feed p s1) ++ fst (feed (snd (feed p s1)) s2), snd (feed (snd (feed p s1)) s2)).
Proof.
  revert p. induction s1 as [|c s1 IH]; intros p; simpl; [by destruct (feed p s2)|]. destruct (c =c LF); [|apply IH].
  rewrite IH. by destruct (feed [] s1) as [l q].
Qed.

(** No two carriage returns follow each other. *)
Fixpoint no_crcr (s : bytes) : bool :=
  match s with
  | c :: s' => negb ((c =c CR) && match s' with d :: _ => d =c CR | [] => false end) && no_crcr s'
  | [] => true
  end.

Lemma no_crcr_suffix a b : no_crcr (a ++ b) = true -> no_crcr b = true.
Proof. induction a as [|c a IH]; [done|]. simpl. intros [_ Hs]%andb_prop. auto. Qed.

Lemma no_crcr_use a b : no_crcr (a ++ CR :: CR :: b) = false.
Proof. destruct (no_crcr _) eqn:E; [|done]. by apply no_crcr_suffix in E. Qed.

Lemma no_crcr_prefix a b : no_crcr (a ++ b) = true -> no_crcr a = true.
Proof.
  induction a as [|c a IH]; [done|]. cbn [app no_crcr]. intros [H1 H2]%andb_prop. rewrite IH by done. rewrite andb_true_r.
  destruct a as [|d a]; [by rewrite andb_false_r|done].
Qed.

(** What is left after the lines is the end of the text. *)
Lemma feed_rest p s : exists w, p ++ s = w ++ snd (feed p s).
Proof.
  revert p. induction s as [|c s IH]; intros p; simpl; [exists []; by rewrite app_nil_r|]. destruct (c =c LF).
  - destruct (IH []) as [w Hw]. destruct (feed [] s) as [ls q]. simpl in *. exists (p ++ c :: w). rewrite <- app_assoc. simpl. by rewrite <- Hw.
  - destruct (IH (p ++ [c])) as [w Hw]. exists w. by rewrite <- Hw, <- app_assoc.
Qed.

Lemma feed_rest_length p s : zlen (snd (feed p s)) <= zlen p + zlen s.
Proof. destruct (feed_rest p s) as [w Hw]. apply (f_equal length) in Hw. rewrite !length_app in Hw. lia. Qed.

Lemma feed_rest_crcr p s t : no_crcr (p ++ s ++ t) = true -> no_crcr (snd (feed p s) ++ t) = true.
Proof. intros Hc. destruct (feed_rest p s) as [w Hw]. rewrite app_assoc, Hw, <- app_assoc in Hc. by apply no_crcr_suffix in Hc. Qed.

Lemma chomp_nil : chomp [] = [].
Proof. done. Qed.
Lemma chomp_snoc u c : chomp (u ++ [c]) = if c =c CR then u else u ++ [c].
Proof.
  unfold chomp. rewrite last_snoc, length_app. simpl. replace (length u + 1 - 1)%nat with (length u) by lia. rewrite take_app_length.
  destruct (c =c CR) eqn:E; [apply beq_true in E as ->; by rewrite bool_decide_true|]. apply beq_false in E. rewrite bool_decide_false; [done|]. by intros [= ->].
Qed.
Lemma chomp_app p u : u <> [] -> chomp (p ++ u) = p ++ chomp u.
Proof.
  intros Hu. destruct u as [|c u _] using rev_ind; [done|]. rewrite app_assoc, !chomp_snoc. destruct (c =c CR); [done|]. by rewrite app_assoc.
Qed.
Lemma chomp_take u : take (length (chomp u)) u = chomp u.
Proof.
  destruct u as [|c u _] using rev_ind; [done|]. rewrite chomp_snoc. destruct (c =c CR); [by rewrite take_app_length|]. apply take_ge. lia.
Qed.
Lemma chomp_length u : zlen (chomp u) <= zlen u.
Proof. destruct u as [|c u _] using rev_ind; [done|]. rewrite chomp_snoc, length_app. destruct (c =c CR); rewrite ?length_app; simpl; lia. Qed.

(** ** The buffer *)

(** The data [s] waits in the buffer, and there is at least one byte behind it. *)
Definition holds {C} (x : nx_module_input C) (s : bytes) : Prop :=
  exists pre c post, ibuf x = pre ++ s ++ c :: post /\ bufstart x = zlen pre /\ buflen x = zlen s /\ bufsize x = zlen (ibuf x).

Lemma cell_in {C} (x : nx_module_input C) a c b : holds x (a ++ c :: b) -> cell x (zlen a) = Ret c.
Proof.
  intros (pre & d & post & Hb & Hs & _). unfold cell, load. rewrite (mem_read_at _ _ 1 (pre ++ a) (c :: b ++ d :: post)).
  - done.
  - rewrite Hb, <- !app_assoc. done.
  - rewrite Hs, length_app. lia.
  - simpl. lia.
Qed.

Lemma cell_behind {C} (x : nx_module_input C) s : holds x s -> exists c, cell x (zlen s) = Ret c.
Proof.
  intros (pre & d & post & Hb & Hs & _). exists d. unfold cell, load. rewrite (mem_read_at _ _ 1 (pre ++ s) (d :: post)).
  - done.
  - by rewrite Hb, <- app_assoc.
  - rewrite Hs, length_app. lia.
  - simpl. lia.
Qed.

Lemma holds_len {C} (x : nx_module_input C) s : holds x s -> buflen x = zlen s.
Proof. by intros (? & ? & ? & _ & _ & ? & _). Qed.

Lemma holds_from {C} (x : nx_module_input C) s : holds x s -> exists r, from_start x = s ++ r.
Proof. intros (pre & c & post & Hb & Hs & _). exists (c :: post). unfold from_start. by rewrite Hb, Hs, Nat2Z.id, drop_app_length. Qed.

Lemma holds_ctx {C} (x : nx_module_input C) s c : holds x s -> holds (set_ctx c x) s.
Proof. done. Qed.

Lemma consume_holds {C} (x : nx_module_input C) a b : holds x (a ++ b) ->
  exists x', consume (zlen a) x = Ret x' /\ holds x' b /\ ctx x' = ctx x /\ bufsize x' = bufsize x.
Proof.
  intros (pre & c & post & Hb & Hs & Hl & Hz). rewrite length_app in Hl. unfold consume.
  assert (zlen (ibuf x) = zlen pre + zlen a + zlen b + 1 + zlen post) as Hib by (rewrite Hb, !length_app; cbn [length]; lia).
  rewrite (proj2 (Z.leb_le _ (buflen x))), (proj2 (Z.leb_le _ (bufsize x))) by lia. cbn [ASSERT mbind outcome_bind]. eexists. split; [reflexivity|]. split; [|done].
  exists (pre ++ a), c, post. split_and!; [simpl; by rewrite Hb, <- !app_assoc|simpl; rewrite length_app; lia|simpl; lia|done].
Qed.

(** ** Scanning *)

Lemma find_lf_partial {C} (x : nx_module_input C) s : forall b a fuel, s = a ++ b -> LF ∉ b -> holds x s -> (length b <= fuel)%nat ->
  find_lf fuel x (zlen a) = Ret (zlen s, false).
Proof.
  induction b as [|c b IH]; intros a fuel -> Hlf Hx Hf; pose proof (holds_len _ _ Hx) as Hl.
  - rewrite app_nil_r in *. destruct fuel; simpl; rewrite Hl, (proj2 (Z.ltb_ge _ _)) by lia; done.
  - destruct fuel as [|fuel]; [simpl in Hf; lia|]. cbn [find_lf]. rewrite Hl, (proj2 (Z.ltb_lt _ _)) by (rewrite length_app; simpl; lia).
    rewrite (cell_in _ _ _ _ Hx). cbn [mbind outcome_bind]. apply not_elem_of_cons in Hlf as [Hc Hlf]. rewrite (proj2 (beq_false c x0a)) by done.
    replace (zlen a + 1) with (zlen (a ++ [c])) by (rewrite length_app; simpl; lia). apply IH; [by rewrite <- app_assoc|done|done|simpl in Hf; lia].
Qed.

Lemma find_lf_line {C} (x : nx_module_input C) v : forall u a fuel, LF ∉ u -> holds x (a ++ u ++ LF :: v) -> (length u < fuel)%nat ->
  find_lf fuel x (zlen a) = Ret (zlen (a ++ u), true).
Proof.
  induction u as [|c u IH]; intros a fuel Hlf Hx Hf; pose proof (holds_len _ _ Hx) as Hl; (destruct fuel as [|fuel]; [simpl in Hf; lia|]);
    cbn [find_lf]; rewrite Hl, (proj2 (Z.ltb_lt _ _)) by (rewrite !length_app; simpl; lia); rewrite (cell_in _ _ _ _ Hx); cbn [mbind outcome_bind].
  - rewrite app_nil_r. done.
  - apply not_elem_of_cons in Hlf as [Hc Hlf]. rewrite (proj2 (beq_false c x0a)) by done.
    replace (zlen a + 1) with (zlen (a ++ [c])) by (rewrite length_app; simpl; lia).
    rewrite (IH (a ++ [c]) fuel); [by rewrite <- app_assoc|done|by rewrite <- app_assoc|simpl in Hf; lia].
Qed.

Lemma scan_partial {C} (x : nx_module_input C) s : LF ∉ s -> holds x s -> scan_line x = Ret (zlen s, false).
Proof. intros Hlf Hx. unfold scan_line. rewrite (holds_len _ _ Hx), Nat2Z.id. by apply (find_lf_partial x s s []). Qed.

Lemma scan_first {C} (x : nx_module_input C) u v : LF ∉ u -> holds x (u ++ LF :: v) -> scan_line x = Ret (zlen u, true).
Proof.
  intros Hlf Hx. unfold scan_line. rewrite (holds_len _ _ Hx), Nat2Z.id. apply (find_lf_line x v u []); [done|done|]. rewrite length_app. simpl. lia.
Qed.

Lemma line_end_ok {C} (x : nx_module_input C) u v : no_nul u -> no_nul v -> holds x (u ++ LF :: v) ->
  line_end x (zlen u) = Ret (zlen u + 1, zlen (chomp u)).
Proof.
  intros Hu Hv Hx. pose proof (holds_len _ _ Hx) as Hl. rewrite length_app in Hl. cbn [length] in Hl. unfold line_end.
  rewrite (proj2 (Z.ltb_lt (zlen u) (buflen x))) by lia.
  assert (exists c, cell x (zlen u + 1) = Ret c /\ (v <> [] -> c <> x00)) as (c & Ec & Hc).
  { destruct v as [|c v].
    - destruct (cell_behind x _ Hx) as [c Ec]. rewrite length_app in Ec. simpl in Ec. exists c. split; [|done]. rewrite <- Ec. f_equal. lia.
    - exists c. split; [|intros _ ->; apply Hv; by left]. rewrite <- (cell_in x (u ++ [LF]) c v) by (rewrite <- app_assoc; done). f_equal. rewrite length_app. simpl. lia. }
  rewrite Ec. cbn [mbind outcome_bind].
  assert (exists c, (if 0 <? zlen u then cell x (zlen u - 1) else Ret x01) = Ret c /\ c <> x00 /\
    (if c =c x0d then Ret (zlen u - 1) else Ret (zlen u)) = Ret (zlen (chomp u))) as (d & Ed & Hd & En).
  { destruct u as [|d u _] using rev_ind; [by exists x01|]. exists d. rewrite length_app. simpl. rewrite (proj2 (Z.ltb_lt _ _)) by lia. split_and!.
    - rewrite <- (cell_in x u d (LF :: v)) by (by rewrite <- app_assoc in Hx). f_equal. lia.
    - intros ->. apply Hu. apply elem_of_app. right. by left.
    - rewrite chomp_snoc. change (d =c CR) with (d =c x0d). destruct (d =c x0d); rewrite ?length_app; simpl; f_equal; lia. }
  rewrite Ed. cbn [mbind outcome_bind]. rewrite (proj2 (beq_false d x00)), andb_false_r by done. rewrite En. cbn [mbind outcome_bind]. do 2 f_equal.
  destruct (c =c x00) eqn:Ec0; [|by rewrite (proj2 (Z.ltb_lt _ _)) by lia]. apply beq_true in Ec0 as ->.
  destruct v as [|]; [|exfalso; by apply Hc]. rewrite (proj2 (Z.ltb_ge _ _)) by (simpl in Hl; lia). done.
Qed.

(** ** Records in the heap *)

Section reader.
Context `{H : Host} `{M : Malloc} `{E : ValueEnv}.

Definition pend_loc (c : option logdata) (l : loc) : Prop := match c with Some d => l ∈ field_locs (fields d) | None => False end.

(** The incomplete record holds [p]. *)
Definition pending (h : heap) (c : option logdata) (p : bytes) : Prop :=
  match c with None => p = [] | Some d => p <> [] /\ inv h d [(raw_key, str_value p)] end.

(** The string of [d] is [line]. *)
Definition delivered (h : heap) (d : logdata) (line : bytes) : Prop :=
  exists l s, raw_event d = Some l /\ strs h !! l = Some s /\ content s = line.

(** The string of [d] is [line] and will not be changed any more. *)
Definition settled (h : heap) (c : option logdata) (d : logdata) (line : bytes) : Prop :=
  exists l s, raw_event d = Some l /\ strs h !! l = Some s /\ content s = line /\ (l < fresh_loc h)%positive /\ ~ pend_loc c l.

(** A step keeps all strings but the one of the incomplete record. *)
Record kept (h h' : heap) (c c' : option logdata) : Prop := {
  kept_fresh : (fresh_loc h <= fresh_loc h')%positive;
  kept_strs l : (l < fresh_loc h)%positive -> ~ pend_loc c l -> strs h' !! l = strs h !! l;
  kept_pend l : pend_loc c' l -> pend_loc c l \/ (fresh_loc h <= l)%positive
}.

Lemma settled_kept h h' c c' d line : kept h h' c c' -> settled h c d line -> settled h' c' d line.
Proof using.
  intros [Hf Hs Hp] (l & s & Hr & Hl & Hc & Hlt & Hn). exists l, s. split_and!; [done|by rewrite Hs|done|lia|].
  intros Hl'. destruct (Hp l Hl'); [done|lia].
Qed.

Lemma settled_delivered h c d line : settled h c d line -> delivered h d line.
Proof using. intros (l & s & ? & ? & ? & _). by exists l, s. Qed.

Lemma kept_refl h c : kept h h c c.
Proof using. constructor; [done|done|]. intros l Hl. by left. Qed.
Lemma kept_trans h1 h2 h3 c1 c2 c3 : kept h1 h2 c1 c2 -> kept h2 h3 c2 c3 -> kept h1 h3 c1 c3.
Proof using.
  intros [F1 S1 P1] [F2 S2 P2]. constructor; [lia| |].
  - intros l Hl Hp. rewrite S2; [by apply S1|lia|]. intros Hp2. destruct (P1 l Hp2); [done|lia].
  - intros l Hl. destruct (P2 l Hl) as [H2|H2]; [by apply P1|right; lia].
Qed.

Lemma new_line_ok h (b : bytes) n : heap_ok h -> 0 <= n <= zlen b -> n <= string_limit ->
  exists h' d, nx_logdata_new_logline b n h = (h', Ret d) /\ heap_ok h' /\ inv h' d [(raw_key, str_value (take (Z.to_nat n) b))] /\
    kept h h' None (Some d) /\ settled h' None d (take (Z.to_nat n) b).
Proof using.
  intros Hh Hn Hl. destruct (new_logline_rep h b n Hh Hn Hl) as (h' & d & Hrun & [Hf Hs] & Hinv & Hnew). exists h', d. split_and!; [done|apply Hinv|done| |].
  - constructor; [done|by intros l Hlt _; apply Hs|]. intros l Hp. right. by apply Hnew.
  - destruct (raw_alias _ _ _ Hinv) as (l & s & c & al1 & al2 & Hr & Hs' & Hc & _ & Eal & _ & _).
    destruct al1 as [|? al1]; [|destruct al1; discriminate]. injection Eal as Ec _. exists l, s. split_and!; [done|done|rewrite Ec; by apply str_rep_content| |by intros []].
    apply Hinv. eauto.
Qed.

Lemma append_line_ok {C} h (x : nx_module_input C) d p (b : bytes) n : inv h d [(raw_key, str_value p)] -> 0 <= n <= zlen b -> zlen p + n < string_limit ->
  exists h', append_line d b n (h, x) = ((h', x), Ret tt) /\ inv h' d [(raw_key, str_value (p ++ take (Z.to_nat n) b))] /\ kept h h' (Some d) (Some d).
Proof using.
  intros Hinv Hn Hl. destruct (append_logline_rep h d _ b n Hinv Hn) as (h' & c & Hrun & Hget & Hinv' & [Hf Hfr] & _). exists h'.
  assert (c = p) as -> by (revert Hget; by intros [= ->]).
  split_and!.
  - unfold append_line. simpl. by rewrite Hrun.
  - rewrite spec_append_fits in Hinv' by (rewrite length_take; lia). exact Hinv'.
  - constructor; [done|exact Hfr|]. intros l Hl'. by left.
Qed.

Lemma inv_settled h d p : inv h d [(raw_key, str_value p)] -> settled h None d p.
Proof using.
  intros Hinv. destruct (raw_alias _ _ _ Hinv) as (l & s & c & al1 & al2 & Hr & Hs' & Hc & _ & Eal & _ & _).
  destruct al1 as [|? al1]; [|destruct al1; discriminate]. injection Eal as Ec _. exists l, s. split_and!; [done|done|subst c; by apply str_rep_content| |by intros []].
  apply Hinv. eauto.
Qed.

Lemma cut_cr_ok {C} h (x : nx_module_input C) d p : inv h d [(raw_key, str_value p)] ->
  exists l h', raw_event d = Some l /\ in_heap (update_str l cut_cr) (h, x) = ((h', x), Ret tt) /\ heap_ok h' /\
    settled h' None d (chomp p) /\ kept h h' (Some d) None.
Proof using.
  intros Hinv. destruct (raw_alias _ _ _ Hinv) as (l & s & c & al1 & al2 & Hr & Hs' & Hc & Hin & Eal & _ & _).
  destruct al1 as [|? al1]; [|destruct al1; discriminate]. injection Eal as Ec _. subst c.
  assert (exists s', cut_cr s = Ret s' /\ content s' = chomp p) as (s' & Ecut & Hcont).
  { destruct Hc as (_ & (r & Hb) & _ & Hl & _). unfold cut_cr. rewrite Hl. destruct p as [|e p _] using rev_ind.
    - exists s. split; [done|]. unfold content. by rewrite Hl.
    - rewrite length_app. simpl. rewrite (proj2 (Z.ltb_lt _ _)) by lia. unfold load.
      rewrite (mem_read_at _ _ 1 p (e :: x00 :: r)); [|by rewrite Hb, <- app_assoc|lia|simpl; lia]. cbn [mbind outcome_bind take head].
      eexists. split; [reflexivity|]. rewrite chomp_snoc. change (e =c CR) with (e =c x0d). destruct (e =c x0d); unfold content; simpl.
      + rewrite Hb, <- app_assoc. replace (Z.to_nat (Z.of_nat (length p + 1) - 1)) with (length p) by lia. by rewrite take_app_length.
      + rewrite Hl, Nat2Z.id, Hb. by rewrite take_app_length. }
  pose proof (inv_heap _ _ _ Hinv) as Hh.
  exists l, (Heap (<[l := s']> (strs h)) (fresh_loc h)). split_and!; [done| | | |].
  - unfold in_heap. simpl. by rewrite (update_str_run _ _ s _ s').
  - intros l' [s'' Hl']. simpl in *. apply lookup_insert_Some in Hl' as [[<- _]|[_ Hl']]; apply Hh; eauto.
  - exists l, s'. simpl. rewrite lookup_insert_eq. split_and!; [done..|apply Hh; eauto|by intros []].
  - constructor; simpl; [done| |by intros l' []]. intros l' _ Hn. rewrite lookup_insert_ne; [done|]. by intros ->.
Qed.

(** ** One call *)

Lemma use_ok h (x : nx_module_input logdata) a b i : i = zlen a -> holds x (a ++ b) ->
  exists x', use i (h, x) = ((h, x'), Ret tt) /\ holds x' b /\ ctx x' = ctx x /\ bufsize x' = bufsize x.
Proof using.
  intros -> Hx. destruct (consume_holds x a b Hx) as (x' & Ec & Hx' & H1 & H2). exists x'. split; [|done].
  unfold use. erewrite cmd_bind_Ret by reflexivity. simpl. erewrite cmd_bind_Ret by (unfold lift; by rewrite Ec). done.
Qed.

Lemma run_lift {S A B} (o : outcome A) a (f : A -> cmd S B) s : o = Ret a -> (lift o ≫= f) s = f a s.
Proof using. by intros ->. Qed.

Lemma not_binary {C} (x : nx_module_input C) c s : holds x (c :: s) -> c <> x00 -> starts_binary x = Ret false.
Proof using.
  intros Hx Hc. unfold starts_binary. pose proof (cell_in x [] c s Hx) as E0. change (zlen []) with 0 in E0. rewrite E0. cbn [mbind outcome_bind]. by rewrite (proj2 (beq_false c x00)).
Qed.

Lemma no_nul_app_iff a b : no_nul (a ++ b) <-> no_nul a /\ no_nul b.
Proof using. unfold no_nul. rewrite elem_of_app. tauto. Qed.

(** No line feed: the record becomes or stays incomplete. *)
Lemma read_partial h x p s : heap_ok h -> holds x s -> s <> [] -> no_nul s -> LF ∉ s -> pending h (ctx x) p -> zlen p + zlen s < string_limit ->
  exists h' x', nx_module_input_func_linereader (h, x) = ((h', x'), Ret None) /\ heap_ok h' /\ holds x' [] /\ bufsize x' = bufsize x /\
    pending h' (ctx x') (p ++ s) /\ kept h h' (ctx x) (ctx x').
Proof using.
  intros Hh Hx Hs Hn Hlf Hp Hl. pose proof (holds_len _ _ Hx) as Hlen. unfold nx_module_input_func_linereader.
  erewrite cmd_bind_Ret by reflexivity. cbn [snd]. rewrite (run_lift _ tt) by (by rewrite (proj2 (Z.leb_le _ _)) by lia).
  assert (0 < zlen s) by (destruct s; [done|simpl; lia]). rewrite (proj2 (Z.eqb_neq _ _)) by lia.
  destruct (holds_from _ _ Hx) as [r Hr]. rewrite <- (app_nil_r s) in Hx.
  destruct (ctx x) as [d|] eqn:Ec.
  - destruct Hp as [Hp Hinv]. rewrite app_nil_r in Hx. rewrite (run_lift _ (zlen s, false)) by (by apply scan_partial). cbn beta iota.
    destruct (append_line_ok h x d p (from_start x) (zlen s) Hinv) as (h' & Happ & Hinv' & Hk); [rewrite Hr, length_app; lia|lia|].
    rewrite (cmd_bind_Ret _ _ _ _ _ Happ). rewrite <- (app_nil_r s) in Hx. destruct (use_ok h' x s [] (zlen s) eq_refl Hx) as (x' & Eu & Hx' & Hc & Hz).
    rewrite (cmd_bind_Ret _ _ _ _ _ Eu). exists h', x'. split_and!; [done|apply Hinv'|done|done| |by rewrite Hc, Ec].
    rewrite Hc, Ec, Hr, Nat2Z.id, take_app_length in *. split; [|done]. by destruct p.
  - simpl in Hp. subst p. rewrite app_nil_r in Hx. destruct s as [|c s]; [done|]. rewrite (run_lift _ false) by (eapply not_binary; [done|intros ->; apply Hn; by left]). cbv iota.
    rewrite (run_lift _ (zlen (c :: s), false)) by (by apply scan_partial). cbn beta iota.
    destruct (new_line_ok h (from_start x) (zlen (c :: s)) Hh) as (h' & d & Hnew & Hh' & Hinv & Hk & _); [rewrite Hr, length_app; lia|unfold string_limit in *; lia|].
    rewrite (cmd_bind_Ret _ _ (h, x) (h', x) d) by (unfold in_heap; cbn [fst snd]; by rewrite Hnew). erewrite cmd_bind_Ret by reflexivity. simpl fst.
    apply (holds_ctx _ _ (Some d)) in Hx. rewrite <- (app_nil_r (c :: s)) in Hx. destruct (use_ok h' _ (c :: s) [] _ eq_refl Hx) as (x' & Eu & Hx' & Hc & Hz).
    rewrite (cmd_bind_Ret _ _ _ _ _ Eu). exists h', x'. simpl in Hc, Hz. split_and!; [done|done|done|done| |by rewrite Hc].
    rewrite Hc. rewrite Hr, Nat2Z.id, take_app_length in Hinv. by split.
Qed.

(** A line feed: the record is complete. *)
Lemma read_line h x p u v : heap_ok h -> holds x (u ++ LF :: v) -> no_nul u -> no_nul v -> LF ∉ u -> pending h (ctx x) p ->
  zlen p + zlen u < string_limit -> no_crcr (p ++ u) = true ->
  exists h' x' d, nx_module_input_func_linereader (h, x) = ((h', x'), Ret (Some d)) /\ heap_ok h' /\ holds x' v /\ bufsize x' = bufsize x /\
    ctx x' = None /\ settled h' None d (chomp (p ++ u)) /\ kept h h' (ctx x) None.
Proof using.
  intros Hh Hx Hnu Hnv Hlf Hp Hl Hcr. pose proof (holds_len _ _ Hx) as Hlen. rewrite length_app in Hlen. cbn [length] in Hlen. unfold nx_module_input_func_linereader.
  erewrite cmd_bind_Ret by reflexivity. cbn [snd]. rewrite (run_lift _ tt) by (by rewrite (proj2 (Z.leb_le 0 (buflen x))) by lia).
  rewrite (proj2 (Z.eqb_neq (buflen x) _)) by lia. destruct (holds_from _ _ Hx) as [r Hr]. pose proof (chomp_length u) as Hcl.
  assert (take (Z.to_nat (zlen (chomp u))) (from_start x) = chomp u) as Htake.
  { rewrite Hr, Nat2Z.id, <- app_assoc, take_app_le by lia. apply chomp_take. }
  assert (forall y : nx_module_input logdata, holds y (u ++ LF :: v) -> exists y' : nx_module_input logdata, forall h, use (zlen u + 1) (h, y) = ((h, y'), Ret tt) /\ holds y' v /\ ctx y' = ctx y /\ bufsize y' = bufsize y) as Huse.
  { intros y Hy. change (LF :: v) with ([LF] ++ v) in Hy. rewrite app_assoc in Hy. destruct (consume_holds y (u ++ [LF]) v Hy) as (y' & Ey & Hy').
    exists y'. intros h0. split; [|done]. rewrite length_app in Ey. unfold use. erewrite cmd_bind_Ret by reflexivity. simpl. simpl in Ey.
    rewrite (run_lift _ y') by (rewrite <- Ey; f_equal; lia). done. }
  destruct (ctx x) as [d|] eqn:Ec.
  - destruct Hp as [Hp Hinv]. rewrite (run_lift _ (zlen u, true)) by (by eapply scan_first). cbn beta iota. erewrite cmd_bind_Ret by reflexivity. cbn [fst].
    rewrite (run_lift _ (zlen u + 1, zlen (chomp u))) by (by apply (line_end_ok x u v)). cbn beta iota.
    destruct (Huse (set_ctx None x) Hx) as (y & Hy). destruct (Z.eqb_spec (zlen (chomp u)) 0) as [E0|E0].
    + destruct (cut_cr_ok h (set_ctx None x) d p Hinv) as (l & h' & Hraw & Hcut & Hh' & Hset & Hk). rewrite Hraw.
      rewrite (cmd_bind_Ret _ _ (h, set_ctx None x) (h', set_ctx None x) tt) by exact Hcut. destruct (Hy h') as (Eu & Hy1 & Hy2 & Hy3). rewrite (cmd_bind_Ret _ _ _ _ _ Eu).
      exists h', y, d. split_and!; try done. replace (chomp (p ++ u)) with (chomp p); [done|].
      destruct u as [|c u _] using rev_ind; [by rewrite app_nil_r|]. rewrite chomp_snoc in E0. destruct (c =c CR) eqn:Ecr; [|rewrite length_app in E0; simpl in E0; lia].
      apply beq_true in Ecr as ->. destruct u; [|simpl in E0; lia]. simpl. rewrite chomp_snoc. change (CR =c CR) with true. cbv iota.
      destruct p as [|e p _] using rev_ind; [done|]. rewrite chomp_snoc. destruct (e =c CR) eqn:Ee; [|done]. apply beq_true in Ee as ->.
      rewrite <- app_assoc in Hcr. simpl in Hcr. by rewrite no_crcr_use in Hcr.
    + destruct (append_line_ok h (set_ctx None x) d p (from_start x) (zlen (chomp u)) Hinv) as (h' & Happ & Hinv' & Hk); [rewrite Hr, !length_app; lia|lia|].
      rewrite (cmd_bind_Ret _ _ _ _ _ Happ). destruct (Hy h') as (Eu & Hy1 & Hy2 & Hy3). rewrite (cmd_bind_Ret _ _ _ _ _ Eu).
      exists h', y, d. rewrite Htake in Hinv'. split_and!; [done|apply Hinv'|done|done|done| |].
      * rewrite chomp_app by (by intros ->). by apply inv_settled.
      * destruct Hk as [K1 K2 _]. constructor; [done|done|by intros l []].
  - simpl in Hp. subst p. destruct (Huse x Hx) as (y & Hy).
    assert (starts_binary x = Ret false) as Hb.
    { destruct u as [|c u]; [by eapply (not_binary x LF v)|]. eapply (not_binary x c (u ++ LF :: v)); [done|]. intros ->. apply Hnu. by left. }
    rewrite (run_lift _ false) by done. cbv iota. rewrite (run_lift _ (zlen u, true)) by (by eapply scan_first). cbn beta iota.
    rewrite (run_lift _ (zlen u + 1, zlen (chomp u))) by (by apply (line_end_ok x u v)). cbn beta iota.
    destruct (new_line_ok h (from_start x) (zlen (chomp u)) Hh) as (h' & d & Hnew & Hh' & Hinv & Hk & Hset); [rewrite Hr, !length_app; lia|unfold string_limit in *; lia|].
    rewrite (cmd_bind_Ret _ _ (h, x) (h', x) d) by (unfold in_heap; cbn [fst snd]; by rewrite Hnew). destruct (Hy h') as (Eu & Hy1 & Hy2 & Hy3).
    rewrite (cmd_bind_Ret _ _ _ _ _ Eu). exists h', y, d. rewrite Htake in Hset. split_and!; [done|done|done|done|by rewrite Hy2|done|].
    destruct Hk as [K1 K2 _]. constructor; [done|done|by intros l []].
Qed.

(** ** The stream *)

(** The loop of the input modules: read until there is no further record. *)
Fixpoint read_all (fuel : nat) : cmd (rstate logdata) (list logdata) :=
  r ← nx_module_input_func_linereader;
  match r with
  | None => mret []
  | Some d => match fuel with O => lift (Undef "out of fuel") | S fuel => ds ← read_all fuel; mret (d :: ds) end
  end.

(** The data of the stream arrive in pieces. *)
Fixpoint read_stream (pieces : list bytes) : cmd (rstate logdata) (list logdata) :=
  match pieces with
  | [] => mret []
  | c :: pieces =>
      x ← get_input;
      x ← lift (nx_module_input_fill_buffer_from_socket c x);
      _ ← put_input x;
      ds ← read_all (length c);
      ds' ← read_stream pieces;
      mret (ds ++ ds')
  end.

Lemma read_nothing h x : holds x [] -> nx_module_input_func_linereader (h, x) = ((h, x), Ret None).
Proof using.
  intros Hx. pose proof (holds_len _ _ Hx) as Hl. simpl in Hl. unfold nx_module_input_func_linereader. erewrite cmd_bind_Ret by reflexivity. cbn [snd].
  by rewrite Hl.
Qed.

Lemma read_all_ok fuel : forall h x p s, (length s <= fuel)%nat -> heap_ok h -> holds x s -> no_nul s -> pending h (ctx x) p ->
  zlen p + zlen s < string_limit -> no_crcr (p ++ s) = true ->
  exists h' x' ds, read_all fuel (h, x) = ((h', x'), Ret ds) /\ heap_ok h' /\ holds x' [] /\ bufsize x' = bufsize x /\
    pending h' (ctx x') (snd (feed p s)) /\ Forall2 (settled h' (ctx x')) ds (fst (feed p s)) /\ kept h h' (ctx x) (ctx x').
Proof using.
  induction fuel as [|fuel IH]; intros h x p s Hf Hh Hx Hn Hp Hl Hcr.
  - destruct s; [|simpl in Hf; lia]. simpl. rewrite (cmd_bind_Ret _ _ _ _ _ (read_nothing h x Hx)). exists h, x, []. split_and!; try done; apply kept_refl.
  - destruct (decide (LF ∈ s)) as [Hlf|Hlf].
    + destruct (first_line s Hlf) as (u & v & -> & Hu). apply no_nul_app_iff in Hn as [Hnu Hnv]. rewrite length_app in Hl, Hf. cbn [length] in Hl, Hf.
      assert (no_nul v) as Hnv' by (unfold no_nul in *; set_solver).
      destruct (read_line h x p u v Hh Hx Hnu Hnv' Hu Hp) as (h1 & x1 & d & E1 & Hh1 & Hx1 & Hz1 & Hc1 & Hs1 & Hk1); [lia| |].
      { rewrite app_assoc in Hcr. by apply no_crcr_prefix in Hcr. }
      cbn [read_all]. rewrite (cmd_bind_Ret _ _ _ _ _ E1).
      destruct (IH h1 x1 [] v) as (h2 & x2 & ds & E2 & Hh2 & Hx2 & Hz2 & Hp2 & Hs2 & Hk2); [lia|done|done|done|by rewrite Hc1|simpl; lia| |].
      { rewrite app_assoc in Hcr. apply (no_crcr_suffix ((p ++ u) ++ [LF])). by rewrite <- app_assoc. }
      rewrite (cmd_bind_Ret _ _ _ _ _ E2). exists h2, x2, (d :: ds). rewrite (feed_line p u v Hu). cbn [fst snd]. rewrite Hc1 in Hk2.
      split_and!; [done|done|done|congruence|done| |by eapply kept_trans]. constructor; [by eapply settled_kept|done].
    + rewrite feed_partial by done. destruct s as [|c s].
      * cbn [read_all]. rewrite (cmd_bind_Ret _ _ _ _ _ (read_nothing h x Hx)). exists h, x, []. rewrite app_nil_r. split_and!; try done; apply kept_refl.
      * destruct (read_partial h x p (c :: s) Hh Hx ltac:(done) Hn Hlf Hp Hl) as (h1 & x1 & E1 & Hh1 & Hx1 & Hz1 & Hp1 & Hk1).
        cbn [read_all]. rewrite (cmd_bind_Ret _ _ _ _ _ E1). exists h1, x1, []. split_and!; done.
Qed.

Lemma fill_ok {C} (x : nx_module_input C) c : holds x [] -> zlen c < bufsize x ->
  exists x', nx_module_input_fill_buffer_from_socket c x = Ret x' /\ holds x' c /\ ctx x' = ctx x /\ bufsize x' = bufsize x.
Proof using.
  intros (pre & b & post & Hb & Hs & Hl & Hz) Hc. simpl in Hl. unfold nx_module_input_fill_buffer_from_socket. cbv zeta.
  set (y := if bufstart x =? bufsize x then set_pos 0 0 x else x).
  assert (buflen y = 0 /\ ibuf y = ibuf x /\ ctx y = ctx x /\ bufsize y = bufsize x) as (Hy1 & Hy2 & Hy3 & Hy4) by (subst y; by destruct (_ =? _)).
  rewrite Hy1. change (0 =? 0) with true. cbv iota. cbn [bufstart buflen ibuf set_pos]. rewrite ?Hy1, ?Hy2.
  assert (zlen c < zlen (ibuf x)) as Hlt by lia. clear Hb.
  rewrite (mem_write_at' (ibuf x) (0 + 0) [] (ibuf x) c) by (done || lia). cbn [mbind outcome_bind app].
  eexists. split; [reflexivity|]. destruct (drop (length c) (ibuf x)) as [|e r] eqn:Ed.
  { assert (length (drop (length c) (ibuf x)) = 0%nat) as E0 by (by rewrite Ed). rewrite length_drop in E0. lia. }
  split; [|done]. exists [], e, r. split_and!; [done|done|simpl; lia|]. simpl. rewrite Hy4, Hz, <- Ed, length_app, length_drop. lia.
Qed.

Lemma new_holds {C} size : 0 < size -> holds (@nx_module_input_new C size) [].
Proof using.
  intros Hz. unfold nx_module_input_new. rewrite (proj2 (Z.eqb_neq size 0)) by lia. destruct (Z.to_nat size) as [|n] eqn:En; [lia|].
  exists [], x00, (replicate n x00). simpl. split_and!; [done..|]. rewrite length_replicate. lia.
Qed.

Lemma read_stream_ok pieces : forall h x p, heap_ok h -> holds x [] -> pending h (ctx x) p -> no_nul (concat pieces) ->
  Forall (fun c => zlen c < bufsize x) pieces -> zlen p + zlen (concat pieces) < string_limit -> no_crcr (p ++ concat pieces) = true ->
  exists h' x' ds, read_stream pieces (h, x) = ((h', x'), Ret ds) /\ pending h' (ctx x') (snd (feed p (concat pieces))) /\
    Forall2 (settled h' (ctx x')) ds (fst (feed p (concat pieces))) /\ kept h h' (ctx x) (ctx x').
Proof using.
  induction pieces as [|c pieces IH]; intros h x p Hh Hx Hp Hn Hsz Hl Hcr.
  - exists h, x, []. simpl. split_and!; [done|done|constructor|apply kept_refl].
  - apply Forall_cons in Hsz as [Hc Hsz]. simpl in *. apply no_nul_app_iff in Hn as [Hn1 Hn2]. rewrite length_app in Hl.
    erewrite cmd_bind_Ret by reflexivity. cbn [snd]. destruct (fill_ok x c Hx Hc) as (x1 & E1 & Hx1 & Hc1 & Hz1).
    rewrite (run_lift _ x1) by done. erewrite cmd_bind_Ret by reflexivity. cbn [fst].
    destruct (read_all_ok (length c) h x1 p c) as (h2 & x2 & ds & E2 & Hh2 & Hx2 & Hz2 & Hp2 & Hs2 & Hk2); [done|done|done|done|by rewrite Hc1|lia| |].
    { rewrite app_assoc in Hcr. by apply no_crcr_prefix in Hcr. }
    rewrite (cmd_bind_Ret _ _ _ _ _ E2). rewrite feed_app. cbn [fst snd]. rewrite Hc1 in Hk2.
    assert (zlen (snd (feed p c)) <= zlen p + zlen c) as Hq by apply feed_rest_length.
    destruct (IH h2 x2 (snd (feed p c)) Hh2 Hx2 Hp2 Hn2) as (h3 & x3 & ds' & E3 & Hp3 & Hs3 & Hk3); [by rewrite Hz2, Hz1|lia|by apply feed_rest_crcr|].
    rewrite (cmd_bind_Ret _ _ _ _ _ E3). exists h3, x3, (ds ++ ds'). split_and!; [done|done| |by eapply kept_trans].
    apply Forall2_app; [|done]. eapply Forall2_impl; [exact Hs2|]. intros d l. by apply settled_kept.
Qed.

(** C21: However the bytes of a stream are cut into pieces smaller than the buffer, the
    line reader delivers the lines of the stream, each without its line feed and
    one carriage return before it, and keeps what follows the last line for the
    next piece; no line is lost, joined or changed later.  The stream has no
    NUL, which the reader takes for UTF-16 or a binary record, and no carriage
    returns in a row. *)
Theorem linereader_stream h size pieces :
  heap_ok h -> 0 < size -> no_nul (concat pieces) -> Forall (fun c => zlen c < size) pieces ->
  zlen (concat pieces) < string_limit -> no_crcr (concat pieces) = true ->
  exists h' x' ds, read_stream pieces (h, nx_module_input_new size) = ((h', x'), Ret ds) /\
    Forall2 (delivered h') ds (fst (feed [] (concat pieces))) /\ pending h' (ctx x') (snd (feed [] (concat pieces))).
Proof using.
  intros Hh Hz Hn Hsz Hl Hcr. assert (holds (@nx_module_input_new logdata size) []) as Hx by (by apply new_holds).
  assert (bufsize (@nx_module_input_new logdata size) = size) as Ez by (unfold nx_module_input_new; by rewrite (proj2 (Z.eqb_neq size 0)) by lia).
  destruct (read_stream_ok pieces h (nx_module_input_new size) [] Hh Hx) as (h' & x' & ds & Hrun & Hp & Hs & _); [done|done|by rewrite Ez|done|done|].
  exists h', x', ds. split_and!; [done| |done]. eapply Forall2_impl; [exact Hs|]. intros d l. apply settled_delivered.
Qed.

(** ** Binary records *)

Lemma total_size_small n : 0 <= n -> n + 8 < 2 ^ 32 -> total_size n = n + 8.
Proof using. intros H1 H2. unfold total_size, u32. apply Z.mod_small. lia. Qed.

Definition binary_text (al : alist) : bytes := NX_LOGDATA_BINARY_HEADER ++ le 4 (zlen (encode_record al)) ++ encode_record al.

Lemma binary_text_length al : zlen (binary_text al) = 8 + zlen (encode_record al).
Proof using. unfold binary_text. rewrite !length_app, le_length. simpl. lia. Qed.

Lemma header_at {C} (x : nx_module_input C) s : holds x (NX_LOGDATA_BINARY_HEADER ++ s) -> at_header x = Ret true.
Proof using.
  intros (pre & c & post & Hb & Hs & _). unfold at_header.
  rewrite (mem_read_at _ _ 4 pre (NX_LOGDATA_BINARY_HEADER ++ s ++ c :: post)); [done|by rewrite Hb, <- !app_assoc|done|].
  rewrite length_app. simpl. lia.
Qed.

Lemma header_starts {C} (x : nx_module_input C) s : holds x (NX_LOGDATA_BINARY_HEADER ++ s) -> starts_binary x = Ret true.
Proof using.
  intros Hx. pose proof (holds_len _ _ Hx) as Hl. unfold starts_binary.
  pose proof (cell_in x [] _ _ Hx) as E0. pose proof (cell_in x [x00] "N" ("X"%byte :: x00 :: s) Hx) as E1.
  pose proof (cell_in x [x00; "N"%byte] "X" (x00 :: s) Hx) as E2. pose proof (cell_in x [x00; "N"%byte; "X"%byte] x00 s Hx) as E3.
  change (zlen []) with 0 in E0. change (zlen [x00]) with 1 in E1. change (zlen [x00; "N"%byte]) with 2 in E2.
  change (zlen [x00; "N"%byte; "X"%byte]) with 3 in E3. rewrite E0. cbn [mbind outcome_bind]. change (x00 =c x00) with true.
  rewrite (proj2 (Z.leb_le 4 (buflen x))) by (rewrite Hl; simpl; lia). cbn [andb]. rewrite E1. cbn [mbind outcome_bind]. change ("N" =c "N") with true. cbv iota.
  rewrite E2. cbn [mbind outcome_bind]. change ("X" =c "X") with true. cbv iota. by rewrite E3.
Qed.

(** Part of the data in the buffer. *)
Lemma read_data {C} (x : nx_module_input C) a b s n : holds x (a ++ b ++ s) -> n = zlen b -> mem_read (ibuf x) (bufstart x + zlen a) n = Ret b.
Proof using.
  intros (pre & c & post & Hb & Hs & _) ->. rewrite (mem_read_at _ _ _ (pre ++ a) (b ++ s ++ c :: post)).
  - by rewrite Nat2Z.id, take_app_length.
  - by rewrite Hb, <- !app_assoc.
  - rewrite Hs, length_app. lia.
  - rewrite length_app. lia.
Qed.

(** A record in the buffer is read, and the buffer then holds what follows it. *)
Lemma read_binary h (x : nx_module_input logdata) al rest : heap_ok h -> portable al -> NoDup (lower_keys al) -> (exists c, (raw_key, str_value c) ∈ al) ->
  holds x (binary_text al ++ rest) -> ctx x = None -> bufsize x < 2 ^ 31 ->
  exists h' x' d, nx_module_input_func_linereader (h, x) = ((h', x'), Ret (Some d)) /\ holds x' rest /\ inv h' d al /\ extends h h'.
Proof using.
  intros Hh Hp HK Hraw Hx Hc Hsz. pose proof (holds_len _ _ Hx) as Hl. rewrite length_app in Hl. pose proof (binary_text_length al) as Ht.
  assert (buflen x <= bufsize x) as Hbs by (destruct Hx as (pre & c & post & Hb & _ & Hbl & Hz); rewrite Hz, Hb, !length_app, Hbl, length_app; lia).
  set (n := zlen (encode_record al)) in *. assert (0 <= n) by lia.
  unfold nx_module_input_func_linereader. erewrite cmd_bind_Ret by reflexivity. cbn [snd].
  rewrite (run_lift _ tt) by (by rewrite (proj2 (Z.leb_le 0 (buflen x))) by lia). rewrite (proj2 (Z.eqb_neq (buflen x) _)) by lia. rewrite Hc.
  unfold binary_text in Hx. rewrite <- !app_assoc in Hx. rewrite (run_lift _ true) by (by eapply header_starts). cbv iota.
  unfold nx_module_input_func_binaryreader. erewrite cmd_bind_Ret by reflexivity. cbn [snd].
  rewrite (run_lift _ tt) by (by rewrite (proj2 (Z.leb_le 0 (buflen x))) by lia). rewrite (run_lift _ tt) by (by rewrite Hc).
  rewrite (proj2 (Z.ltb_ge (buflen x) 8)) by lia. rewrite (run_lift _ true) by (by eapply header_at).
  erewrite cmd_bind_Ret by reflexivity. erewrite cmd_bind_Ret by reflexivity. cbn [negb andb fst].
  pose proof (read_data x NX_LOGDATA_BINARY_HEADER (le 4 n) (encode_record al ++ rest) 4 Hx) as Hd. change (zlen NX_LOGDATA_BINARY_HEADER) with 4 in Hd.
  rewrite (run_lift _ (le 4 n)) by (apply Hd; by rewrite le_length). rewrite nx_int32_from_le_wire, unle_le by apply le_length.
  rewrite (Z.mod_small n) by (change (256 ^ Z.of_nat 4) with (2 ^ 32); lia). rewrite total_size_small by lia. unfold u32. rewrite !Z.mod_small by lia.
  rewrite (proj2 (Z.ltb_ge (bufsize x) _)), (proj2 (Z.leb_le (n + 8) _)) by lia.
  assert (holds (set_pos (bufstart x + 8) (buflen x - 8) x) (encode_record al ++ rest)) as Hx1.
  { destruct Hx as (pre & c & post & Hb & Hs & Hbl & Hz). exists (pre ++ NX_LOGDATA_BINARY_HEADER ++ le 4 n), c, post.
    assert (zlen NX_LOGDATA_BINARY_HEADER = 4) as Hh4 by done. rewrite !length_app, le_length in Hbl. unfold set_pos.
    split_and!; cbn [ibuf bufstart buflen bufsize]; [by rewrite Hb, <- !app_assoc|rewrite !length_app, le_length; lia|rewrite length_app; lia|done]. }
  unfold read_record. set (y := set_pos (bufstart x + 8) (buflen x - 8) x) in *. destruct (holds_from y _ Hx1) as [r Hr]. rewrite Hr, <- app_assoc.
  pose proof (holds_len _ _ Hx1) as Hy. rewrite length_app in Hy. fold n in Hy.
  destruct (logdata_from_membuf_rep h al (rest ++ r) (buflen y) Hh Hp HK Hraw) as (h' & d & Hrun & Hinv & Hext & _); [fold n; rewrite !length_app; fold n; lia|].
  cbn [fst]. rewrite Hrun. fold n. rewrite (proj2 (Z.leb_le n (buflen y))) by lia. cbn [ASSERT].
  eexists h', _, d. split; [reflexivity|]. split; [|done]. destruct Hx1 as (pre & c & post & Hb & Hs & Hbl & Hz).
  rewrite length_app in Hbl. fold n in Hbl. exists (pre ++ encode_record al), c, post. change (ibuf (set_pos ?a ?b y)) with (ibuf y). change (bufsize (set_pos ?a ?b y)) with (bufsize y).
  change (bufstart (set_pos ?a ?b y)) with a. change (buflen (set_pos ?a ?b y)) with b. split_and!; [by rewrite Hb, <- !app_assoc|rewrite length_app; fold n; lia|lia|done].
Qed.

Lemma of_heap_run {A B} (f : heap -> outcome A) a (k : A -> cmd (heap * nx_module_output) B) h x : f h = Ret a -> (of_heap f ≫= k) (h, x) = k a (h, x).
Proof using. intros Hf. unfold mbind, cmd_bind, of_heap. cbn [fst]. by rewrite Hf. Qed.

(** The binary writer fills the buffer of an output. *)
Lemma write_binary lqdrop h d al b start : inv h d al -> portable al -> 8 + zlen (encode_record al) <= zlen b < 2 ^ 32 ->
  exists r, nx_module_output_func_binarywriter lqdrop (h, Output b (zlen b) start 0 (Some d)) =
    ((h, Output (binary_text al ++ r) (zlen b) 0 (zlen (binary_text al)) (Some d)), Ret tt).
Proof using.
  intros Hinv Hp Hb. pose proof Hinv as [_ HF _ _ _]. pose proof Hp as [Hpf _]. set (n := zlen (encode_record al)) in *.
  assert (nx_logdata_serialized_size h d = Ret n) as Esz.
  { unfold nx_logdata_serialized_size. rewrite (fields_size _ _ _ HF) by done. cbn [mbind outcome_bind]. f_equal. unfold n, encode_record.
    rewrite length_app, le_length. lia. }
  unfold nx_module_output_func_binarywriter. erewrite cmd_bind_Ret by reflexivity. cbn [snd obuflen ologdata obufsize obuf].
  rewrite (run_lift _ tt) by done. rewrite (run_lift _ d) by done. rewrite (of_heap_run _ n) by done. 
  rewrite (proj2 (Z.ltb_ge (zlen b) _)) by lia.
  assert (zlen NX_LOGDATA_BINARY_HEADER = 4) as H4 by done.
  rewrite (run_lift _ (NX_LOGDATA_BINARY_HEADER ++ drop 4 b)) by (rewrite (mem_write_at' b 0 [] b) by (done || lia); done).
  assert (zlen (le 4 n) = 4) as Hle by (by rewrite le_length).
  rewrite nx_int32_to_le_wire. unfold u32. rewrite (Z.mod_small n) by lia.
  rewrite (run_lift _ (NX_LOGDATA_BINARY_HEADER ++ le 4 n ++ drop 8 b)).
  2:{ rewrite (mem_write_at' _ 4 NX_LOGDATA_BINARY_HEADER (drop 4 b)); [|done|done|rewrite length_drop; lia].
      rewrite drop_drop, le_length. done. }
  assert (zlen (drop 8 b) = zlen b - 8) as Hdl by (rewrite length_drop; lia).
  pose proof (logdata_to_membuf_rep h d al (NX_LOGDATA_BINARY_HEADER ++ le 4 n) (drop 8 b) n Hinv Hp) as Ew.
  rewrite length_app, Nat2Z.inj_add, H4, Hle in Ew. change (4 + 4) with 8 in Ew. rewrite <- app_assoc in Ew. fold n in Ew.
  rewrite (of_heap_run _ _ _ _ _ (Ew ltac:(lia) ltac:(lia))).
  cbn beta iota. rewrite (run_lift _ tt) by (by rewrite Z.eqb_refl). unfold written, set_output. cbn [fst snd obufsize ologdata].
  eexists. rewrite binary_text_length. fold n. unfold binary_text. fold n. replace (n + 8) with (8 + n) by lia.  rewrite <- ?app_assoc. reflexivity.
Qed.

End reader.

(** C22: A record that the binary writer puts into the buffer of an output is read
    from any buffer that holds those bytes, by the line reader
    of a host of any byte order: the reader tells it from a line by its header, the
    new record denotes the same fields, and the bytes behind it stay in the
    buffer.  The record is [portable]: fewer than 32768 fields, names of 1 to 32767
    bytes without a NUL, values of the known types with strings within the limit, and no
    regexp or binary value (a binary value comes back with length 0).  The header and the
    record fit in the buffer of the output, which is smaller than 2^32 bytes; the buffer
    of the input is smaller than 2^31 bytes, and its reader is at the start of a record (no
    [ctx] of a line that was begun). *)
Theorem binary_record_roundtrip (W R : Host) `{M : Malloc} `{E : ValueEnv} lqdrop h d al b start h2 (x : nx_module_input logdata) rest :
  inv h d al -> portable al -> 8 + zlen (encode_record al) <= zlen b < 2 ^ 32 ->
  heap_ok h2 -> ctx x = None -> bufsize x < 2 ^ 31 -> holds x (binary_text al ++ rest) ->
  (exists r, nx_module_output_func_binarywriter (H := W) lqdrop (h, Output b (zlen b) start 0 (Some d)) =
    ((h, Output (binary_text al ++ r) (zlen b) 0 (zlen (binary_text al)) (Some d)), Ret tt)) /\
  exists h' x' d', nx_module_input_func_linereader (H := R) (h2, x) = ((h', x'), Ret (Some d')) /\ holds x' rest /\ inv h' d' al /\ extends h2 h'.
Proof.
  intros Hinv Hp Hb Hh2 Hc Hsz Hx. split; [by apply write_binary|]. pose proof Hinv as [_ HF _ HK _].
  apply (read_binary (H := R) h2 x al rest); [done|done|by rewrite (lower_keys_rep _ _ _ HF)| |done|done|done].
  destruct (raw_alias _ _ _ Hinv) as (_ & _ & c & al1 & al2 & _ & _ & _ & _ & -> & _). exists c. set_solver.
Qed.

(** ** Witnesses *)

Lemma linereader_stream_witness : exists h' x' ds,
  read_stream (H := little) (M := poison_malloc) [lit "a"; [CR]; LF :: lit "bc"; [LF; LF]; lit "d"] (empty_heap, nx_module_input_new 100) = ((h', x'), Ret ds) /\
    Forall2 (delivered h') ds [lit "a"; lit "bc"; []] /\ pending h' (ctx x') (lit "d").
Proof.
  apply (linereader_stream (H := little) (M := poison_malloc) empty_heap 100 [lit "a"; [CR]; LF :: lit "bc"; [LF; LF]; lit "d"]).
  - exact empty_heap_ok.
  - reflexivity.
  - apply (bool_decide_unpack _). vm_compute. exact I.
  - apply (bool_decide_unpack _). vm_compute. exact I.
  - reflexivity.
  - reflexivity.
Defined.

(** A buffer that holds [s]. *)
Definition buffer_of (s : bytes) : nx_module_input logdata := Input (s ++ [x00]) (zlen (s ++ [x00])) 0 (zlen s) None.

Lemma buffer_holds s : holds (buffer_of s) s.
Proof. exists [], x00, []. by split_and!. Qed.

Definition one_field : alist := [(raw_key, str_value (lit "line"))].

Lemma one_field_portable : portable one_field.
Proof.
  split; [|reflexivity]. constructor; [|constructor]. split_and!; try (vm_compute; reflexivity); try discriminate.
  - apply (bool_decide_unpack _). reflexivity.
  - split_and!; [left; split; [reflexivity|vm_compute; discriminate]|discriminate|exact I].
Qed.

Lemma binary_record_roundtrip_witness :
  (exists r, nx_module_output_func_binarywriter (H := little) (fun _ => mret tt)
    (one_line_heap, Output (replicate 100 x00) (zlen (replicate 100 x00)) 0 0 (Some one_line)) =
    ((one_line_heap, Output (binary_text one_field ++ r) (zlen (replicate 100 x00)) 0 (zlen (binary_text one_field)) (Some one_line)), Ret tt)) /\
  exists h' x' d', nx_module_input_func_linereader (H := big) (M := poison_malloc) (empty_heap, buffer_of (binary_text one_field ++ lit "next")) =
    ((h', x'), Ret (Some d')) /\ holds x' (lit "next") /\ inv h' d' one_field /\ extends empty_heap h'.
Proof.
  apply (binary_record_roundtrip little big (M := poison_malloc) (E := plain_env) (fun _ => mret tt) one_line_heap one_line one_field (replicate 100 x00) 0
    empty_heap (buffer_of (binary_text one_field ++ lit "next")) (lit "next")).
  - exact one_line_inv.
  - exact one_field_portable.
  - split; [vm_compute; discriminate|reflexivity].
  - exact empty_heap_ok.
  - reflexivity.
  - reflexivity.
  - apply buffer_holds.
Defined.

(** ** Input that the readers get wrong *)

Definition line_of (d : logdata) (h : heap) : option (bytes * bytes) :=
  l ← raw_event d; s ← strs h !! l; Some (content s, cstr (buf s)).

(** The lines that come out for [pieces], as their length tells and as C strings. *)
Definition lines_of (size : Z) (pieces : list bytes) : outcome (list (option (bytes * bytes))) :=
  let '((h, _), r) := read_stream (H := little) (M := poison_malloc) pieces (empty_heap, nx_module_input_new size) in
  ds ← r; Ret (map (fun d => line_of d h) ds).

Definition datagram (size : Z) (data : bytes) : outcome (option (bytes * bytes)) :=
  x ← nx_module_input_fill_buffer_from_socket data (@nx_module_input_new logdata size);
  let '((h, _), r) := nx_module_input_func_dgramreader (H := little) (M := poison_malloc) (empty_heap, x) in
  d ← r; Ret (d ← d; line_of d h).

(** Input that the readers get wrong: a line feed in the last byte of the buffer
    makes the line reader look behind the block; if a line is cut between its
    carriage return and its line feed, the return is taken from the length of the
    string but stays in its bytes, so that the string is not terminated where it
    ends; a NUL after a line feed is lost; and a datagram that starts with a tab is
    taken for a malformed binary record and discarded. *)
Theorem reader_gaps :
  lines_of 4 [lit "abc" ++ [LF]] = Undef "read outside the block" /\
  lines_of 8 [lit "abc" ++ [CR]; [LF]] = Ret [Some (lit "abc", lit "abc" ++ [CR])] /\
  lines_of 8 [lit "a" ++ [LF; x00] ++ lit "b" ++ [LF]] = Ret [Some (lit "a", lit "a"); Some (lit "b", lit "b")] /\
  datagram 32 (lit "message") = Ret (Some (lit "message", lit "message")) /\
  datagram 32 ([x09] ++ lit "message") = Ret None.
Proof. split_and!; vm_compute; reflexivity. Qed.
End ReaderSpec.
