(* ===== verification/Multiline.v ===== *)
(** * Multi-line messages (modules/extension/multiline/xm_multiline.c)

    The reader of the extension joins lines into messages, by a pattern for
    their first or last line or by a number of lines. *)

From S2P Require Import Prelude Dlist Str Value Serialize Logdata LogdataSerialize Expr Reader.
Import Str Value Serialize Logdata LogdataSerialize Expr Reader.

Module Multiline.

(** [nx_xm_multiline_conf_t]; a pattern is a string or a regular expression. *)
Record nx_xm_multiline_conf := Conf {
  headerline : option value;
  endline : option value;
  fixedlinecount : Z
}.

(** [nx_xm_multiline_ctx_t] *)
Record nx_xm_multiline_ctx := Ctx {
  tmpline : option logdata;
  saved : option logdata;
  linecount : Z
}.

Definition set_tmpline (d : option logdata) (c : nx_xm_multiline_ctx) : nx_xm_multiline_ctx := Ctx d (saved c) (linecount c).
Definition set_saved (d : option logdata) (c : nx_xm_multiline_ctx) : nx_xm_multiline_ctx := Ctx (tmpline c) d (linecount c).
Definition set_linecount (n : Z) (c : nx_xm_multiline_ctx) : nx_xm_multiline_ctx := Ctx (tmpline c) (saved c) n.

(** [strncmp(a, b, n) == 0] *)
Fixpoint strncmp_eq (n : nat) (a b : bytes) : outcome bool :=
  match n with
  | O => Ret true
  | S n =>
      match a, b with
      | x :: a, y :: b => if x =c y then if x =c x00 then Ret true else strncmp_eq n a b else Ret false
      | _, _ => Undef "strncmp behind the block"
      end
  end.

Section multiline.
Context `{H : Host} `{M : Malloc} `{PC : Pcre}.

Definition match_line (pattern : value) (subject : bytes) (n : Z) : outcome bool :=
  if bool_decide (v_type pattern = NX_VALUE_TYPE_STRING) then
    s ← as_string (v_data pattern);
    strncmp_eq (Z.to_nat (Z.max n (zlen s))) subject (s ++ [x00])
  else
    _ ← ASSERT (bool_decide (v_type pattern = NX_VALUE_TYPE_REGEXP)) "pattern->type == NX_VALUE_TYPE_REGEXP";
    match v_data pattern with
    | DRegexp _ str (Some (_, modifiers)) =>
        let '(result, _) := pcre_exec str modifiers (take (Z.to_nat n) subject) in
        if 0 <=? result then Ret true else _ ← pcre_error result; Ret false
    | _ => Undef "union member regexp"
    end.

Definition is_break (c : byte) : bool := (c =c x0a) || (c =c x0d).

(** The loop over the characters: a line ends at the first character behind a carriage
    return or a line feed, which is not used. *)
Fixpoint scan {C} (fuel : nat) (x : nx_module_input C) (i : Z) (foundcr : bool) : outcome (Z * bool) :=
  if i <? buflen x then
    match fuel with
    | O => Undef "out of fuel"
    | S fuel =>
        c ← cell x i;
        if (foundcr : bool) then Ret (i, true) else scan fuel x (i + 1) (is_break c)
    end
  else Ret (i, foundcr).

(** The length of the string without line breaks at its end. *)
Fixpoint trim (fuel : nat) (b : bytes) (n : Z) : outcome Z :=
  match fuel with
  | O => Ret n
  | S fuel => if 0 <? n then c ← load b (n - 1); if is_break c then trim fuel b (n - 1) else Ret n else Ret n
  end.

Definition raw_of (d : logdata) : cmd heap (loc * nx_string) :=
  l ← lift (deref (raw_event d) "logdata->raw_event"); s ← load_str l; mret (l, s).

(** The line is appended to the saved record and freed. *)
Definition join (d tmp : logdata) : cmd heap unit :=
  '(_, t) ← raw_of tmp;
  '(l, _) ← raw_of d;
  _ ← update_str l (fun s => nx_string_append s (buf t) (len t));
  nx_logdata_free Dlist.null_link tmp.

Definition matches (pattern : option value) (subject : bytes) (n : Z) : outcome bool :=
  match pattern with Some p => match_line p subject n | None => Ret false end.

Variable conf : nx_xm_multiline_conf.

(** A complete line [tmp]: the new context, [retval] and [done]. *)
Definition take_line (gotheaderline gotendline : bool) (tmp : logdata) (c : nx_xm_multiline_ctx)
    : cmd heap (nx_xm_multiline_ctx * option logdata * bool) :=
  match saved c with
  | None =>
      if (fixedlinecount conf <=? 0) && negb gotheaderline then mret (Ctx None None 0, Some tmp, true)
      else mret (Ctx None (Some tmp) (linecount c + 1), None, false)
  | Some d =>
      if gotendline then _ ← join d tmp; mret (Ctx None None (linecount c), Some d, true)
      else if gotheaderline then mret (Ctx None (Some tmp) (linecount c + 1), Some d, true)
      else _ ← join d tmp; mret (Ctx None (Some d) (linecount c + 1), None, false)
  end.

(** The check of FixedLineCount. *)
Definition check_count (r : nx_xm_multiline_ctx * option logdata * bool) : nx_xm_multiline_ctx * option logdata * bool :=
  let '(c, retval, done) := r in
  if (0 <? fixedlinecount conf) && (fixedlinecount conf <=? linecount c) then (Ctx (tmpline c) None 0, saved c, true) else r.

Definition complete_line (tmp : logdata) (c : nx_xm_multiline_ctx) : cmd heap (nx_xm_multiline_ctx * option logdata * bool) :=
  '(_, s) ← raw_of tmp;
  n ← lift (trim (Z.to_nat (len s)) (buf s) (len s));
  gotheaderline ← lift (matches (headerline conf) (buf s) n);
  gotendline ← lift (matches (endline conf) (buf s) n);
  r ← take_line gotheaderline gotendline tmp c;
  mret (check_count r).

(** The Exec block of the module: the record, or [None] if it was dropped. *)
Variable exec : option (logdata -> cmd heap (option logdata)).

Definition run_exec (tmp : logdata) : cmd heap (option logdata) :=
  match exec with Some f => f tmp | None => mret (Some tmp) end.

(** The characters up to [i] are added to the line. *)
Definition add_text (i : Z) (tmp : option logdata) : cmd (rstate nx_xm_multiline_ctx) logdata :=
  x ← get_input;
  match tmp with
  | None => in_heap (nx_logdata_new_logline (from_start x) i)
  | Some d => _ ← append_line d (from_start x) i; mret d
  end.

Definition one_line : cmd (rstate nx_xm_multiline_ctx) (option logdata * bool) :=
  x ← get_input;
  let c := default (Ctx None None 0) (ctx x) in
  '(i, foundcr) ← lift (scan (Z.to_nat (buflen x)) x 0 false);
  tmp ← add_text i (tmpline c);
  '(c, retval, done) ← (
    if (foundcr : bool) then
      kept ← in_heap (run_exec tmp);
      match kept with
      | None => mret (set_tmpline None c, None, false)
      | Some tmp => in_heap (complete_line tmp c)
      end
    else mret (set_tmpline (Some tmp) c, None, false));
  x ← get_input;
  let x := set_pos (bufstart x + i) (buflen x - i) (set_ctx (Some c) x) in
  _ ← put_input x;
  mret (retval, done || (buflen x <=? 0)).

Definition strip (retval : option logdata) : cmd heap unit :=
  match retval with
  | Some d => '(l, _) ← raw_of d; update_str l nx_string_strip_crlf
  | None => mret tt
  end.

Fixpoint lines_loop (fuel : nat) : cmd (rstate nx_xm_multiline_ctx) (option logdata) :=
  '(retval, done) ← one_line;
  if (done : bool) then _ ← in_heap (strip retval); mret retval
  else match fuel with O => lift (Undef "out of fuel") | S fuel => lines_loop fuel end.

Definition xm_multiline_input_func : cmd (rstate nx_xm_multiline_ctx) (option logdata) :=
  x ← get_input;
  _ ← lift (ASSERT (0 <=? buflen x) "input->buflen >= 0");
  if buflen x =? 0 then mret None else lines_loop (Z.to_nat (buflen x)).

(** What is buffered, complete or not. *)
Definition xm_multiline_flush_func : cmd (rstate nx_xm_multiline_ctx) (option logdata) :=
  x ← get_input;
  match ctx x with
  | None => mret None
  | Some c =>
      retval ← (match saved c, tmpline c with
        | None, tmp => _ ← put_input (set_ctx (Some (set_tmpline None c)) x); mret tmp
        | Some d, Some tmp => _ ← in_heap (join d tmp); _ ← put_input (set_ctx (Some (Ctx None None (linecount c))) x); mret (Some d)
        | Some d, None => _ ← put_input (set_ctx (Some (set_saved None c)) x); mret (Some d)
        end);
      _ ← in_heap (strip retval);
      mret retval
  end.

End multiline.
End Multiline.
