(* ===== verification/MultilineSpec.v ===== *)
(** * Multi-line messages: properties

    With a pattern for the first line of a message, the reader delivers the
    messages of the stream, however it is cut. *)

From S2P Require Import Prelude Dlist Str Value Serialize Logdata LogdataSerialize Expr ExprTypes Reader ReaderSpec Multiline.
Import Str Value Serialize Logdata LogdataSerialize Expr ExprTypes Reader ReaderSpec Multiline.

Module MultilineSpec.

(** ** The messages of a stream *)

(** A message starts with a line that satisfies [hd] and goes on to the next such line;
    a line that belongs to no message is one of its own.  [p] is the start of the current
    line, [sv] that of the current message.  Every carriage return and every line feed ends
    a line. *)
Fixpoint messages (hd : bytes -> bool) (p : bytes) (sv : option bytes) (s : bytes) : list bytes * (bytes * option bytes) :=
  match s with
  | [] => ([], (p, sv))
  | c :: s =>
      if is_break c then
        let line := p ++ [c] in
        match sv with
        | None => if hd line then messages hd [] (Some line) s else let '(ms, r) := messages hd [] None s in (spec_strip_crlf line :: ms, r)
        | Some m => if hd line then let '(ms, r) := messages hd [] (Some line) s in (spec_strip_crlf m :: ms, r) else messages hd [] (Some (m ++ line)) s
        end
      else messages hd (p ++ [c]) sv s
  end.

Definition unbroken (u : bytes) : Prop := Forall (fun c => is_break c = false) u.

Lemma messages_partial hd p sv s : unbroken s -> messages hd p sv s = ([], (p ++ s, sv)).
Proof.
  revert p. induction s as [|c s IH]; intros p Hs; simpl; [by rewrite app_nil_r|]. apply Forall_cons in Hs as [Hc Hs]. rewrite Hc, IH by done.
  by rewrite <- app_assoc.
Qed.

(** What the first complete line does: the message that ends, and the one that is current. *)
Definition on_line (hd : bytes -> bool) (sv : option bytes) (line : bytes) : option bytes * option bytes :=
  match sv with
  | None => if hd line then (None, Some line) else (Some (spec_strip_crlf line), None)
  | Some m => if hd line then (Some (spec_strip_crlf m), Some line) else (None, Some (m ++ line))
  end.

Lemma messages_line hd p sv u c v : unbroken u -> is_break c = true ->
  messages hd p sv (u ++ c :: v) =
    let '(m, sv') := on_line hd sv (p ++ u ++ [c]) in
    (option_list m ++ fst (messages hd [] sv' v), snd (messages hd [] sv' v)).
Proof.
  revert p. induction u as [|d u IH]; intros p Hu Hc; simpl.
  - rewrite Hc. unfold on_line. destruct sv as [m|]; destruct (hd (p ++ [c])); simpl; repeat match goal with |- context [messages ?a ?b ?c ?d] => destruct (messages a b c d) end; done.
  - apply Forall_cons in Hu as [Hd Hu]. rewrite Hd, IH by done. by rewrite <- !app_assoc.
Qed.

(** Nothing of the current line and message is invented. *)
Lemma messages_rest hd p sv s ms p' sv' : messages hd p sv s = (ms, (p', sv')) -> exists w, p ++ s = w ++ p'.
Proof.
  revert p sv ms. induction s as [|c s IH]; intros p sv ms; simpl; [intros [= <- <- <-]; exists []; by rewrite app_nil_r|].
  assert (forall sv0 ms0, messages hd [] sv0 s = (ms0, (p', sv')) -> exists w, p ++ c :: s = w ++ p') as Hgo.
  { intros sv0 ms0 Hm. destruct (IH [] sv0 ms0 Hm) as [w Hw]. exists (p ++ c :: w). simpl in Hw. by rewrite Hw, <- app_assoc. }
  destruct (is_break c).
  - destruct sv as [m|], (hd (p ++ [c])); try apply Hgo.
    + destruct (messages hd [] (Some (p ++ [c])) s) as [l r] eqn:E. intros [= _ ->]. by eapply Hgo.
    + destruct (messages hd [] None s) as [l r] eqn:E. intros [= _ ->]. by eapply Hgo.
  - intros Hm. destruct (IH _ _ _ Hm) as [w Hw]. exists w. by rewrite <- Hw, <- app_assoc.
Qed.

Lemma messages_app hd p sv s1 s2 : messages hd p sv (s1 ++ s2) =
  (fst (messages hd p sv s1) ++ fst (messages hd (fst (snd (messages hd p sv s1))) (snd (snd (messages hd p sv s1))) s2),
   snd (messages hd (fst (snd (messages hd p sv s1))) (snd (snd (messages hd p sv s1))) s2)).
Proof.
  revert p sv. induction s1 as [|c s1 IH]; intros p sv; simpl; [by destruct (messages hd p sv s2)|].
  destruct (is_break c); [|apply IH]. destruct sv as [m|], (hd (p ++ [c])); try apply IH; rewrite IH.
  - by destruct (messages hd [] (Some (p ++ [c])) s1) as [l [q r]].
  - by destruct (messages hd [] None s1) as [l [q r]].
Qed.

Lemma break_or_not s : unbroken s \/ exists u c v, s = u ++ c :: v /\ unbroken u /\ is_break c = true.
Proof.
  induction s as [|d s IH]; [left; constructor|]. destruct (is_break d) eqn:Ed; [right; exists [], d, s; split_and!; [done|constructor|done]|].
  destruct IH as [IH|(u & c & v & -> & Hu & Hc)]; [left; by constructor|right]. exists (d :: u), c, v. split_and!; [done|by constructor|done].
Qed.

(** A line without the breaks at its end. *)
Fixpoint drop_breaks (l : bytes) : bytes :=
  match l with c :: l' => if is_break c then drop_breaks l' else l | [] => [] end.
Definition trimmed (l : bytes) : bytes := reverse (drop_breaks (reverse l)).

Lemma trimmed_snoc l c : trimmed (l ++ [c]) = if is_break c then trimmed l else l ++ [c].
Proof. unfold trimmed. rewrite reverse_snoc. simpl. destruct (is_break c); [done|]. by rewrite reverse_cons, reverse_involutive. Qed.

Lemma trim_ok l r fuel : (length l <= fuel)%nat -> trim fuel (l ++ r) (zlen l) = Ret (zlen (trimmed l)).
Proof.
  revert r fuel. induction l as [|c l IH] using rev_ind; intros r fuel Hf; [by destruct fuel|]. rewrite length_app in Hf. simpl in Hf.
  destruct fuel as [|fuel]; [lia|]. rewrite trimmed_snoc, length_app. simpl length. cbn [trim]. rewrite (proj2 (Z.ltb_lt _ _)) by lia.
  unfold load. rewrite (mem_read_at _ _ 1 l (c :: r)); [|by rewrite <- app_assoc|lia|cbn [length]; lia]. change (Z.to_nat 1) with 1%nat. cbn [take head deref mbind outcome_bind].
  destruct (is_break c); [|f_equal; rewrite length_app; cbn [length]; lia]. replace (Z.of_nat (length l + 1) - 1) with (zlen l) by lia. rewrite <- app_assoc. apply IH. lia.
Qed.

(** ** Lines in the heap *)

(** A record of a line: its only field is [raw_event]. *)
Definition plain (l : loc) : logdata := Ld (Some l) [(raw_key, string_value l)].
Definition has (h : heap) (l : loc) (t : bytes) : Prop := exists s, strs h !! l = Some s /\ str_rep s t.

Definition holds_text (h : heap) (d : option logdata) (t : option bytes) : Prop :=
  match d, t with
  | None, None => True
  | Some d, Some t => exists l, d = plain l /\ has h l t
  | _, _ => False
  end.

Definition text_of (p : bytes) : option bytes := match p with [] => None | _ => Some p end.
Definition locs (d : option logdata) : list loc := match d with Some d => option_list (raw_event d) | None => [] end.
Definition ctx_locs (c : nx_xm_multiline_ctx) : list loc := locs (tmpline c) ++ locs (saved c).

Lemma locs_nodup d : NoDup (locs d).
Proof. destruct d as [[[l|] fs]|]; simpl; auto using NoDup_nil_2, NoDup_singleton. Qed.

(** [h'] differs from [h] in new strings and in those of [ls]. *)
Definition only (h h' : heap) (ls : list loc) : Prop :=
  (fresh_loc h <= fresh_loc h')%positive /\ forall l, (l < fresh_loc h)%positive -> l ∉ ls -> strs h' !! l = strs h !! l.

Lemma only_refl h ls : only h h ls.
Proof. by split. Qed.
Lemma only_trans h1 h2 h3 ls1 ls2 ls : only h1 h2 ls1 -> only h2 h3 ls2 -> ls1 ⊆ ls -> (forall l, l ∈ ls2 -> l ∈ ls \/ (fresh_loc h1 <= l)%positive) -> only h1 h3 ls.
Proof.
  intros [F1 S1] [F2 S2] H1 H2. split; [lia|]. intros l Hl Hn. rewrite S2; [apply S1; [done|set_solver]|lia|].
  intros Hin. destruct (H2 l Hin); [done|lia].
Qed.

Lemma has_only h h' ls l t : only h h' ls -> (l < fresh_loc h)%positive -> l ∉ ls -> has h l t -> has h' l t.
Proof. intros [_ Hs] Hl Hn (s & H1 & H2). exists s. by rewrite Hs. Qed.

Section reader.
Context `{M : Malloc}.

Lemma has_lt h l t : heap_ok h -> has h l t -> (l < fresh_loc h)%positive.
Proof using. intros Hh (s & Hs & _). apply Hh. eauto. Qed.

Lemma new_plain h (b : bytes) n : heap_ok h -> 0 < n <= zlen b -> n <= string_limit ->
  exists h', nx_logdata_new_logline b n h = (h', Ret (plain (fresh_loc h))) /\ heap_ok h' /\ only h h' [] /\ has h' (fresh_loc h) (take (Z.to_nat n) b).
Proof using.
  intros Hh Hn Hl. unfold nx_logdata_new_logline. rewrite (proj2 (Z.eqb_neq n 0)) by lia.
  destruct (nx_string_create_rep b n ltac:(lia) Hl) as (s & Es & Hs & _). rewrite Es. erewrite cmd_bind_Ret by reflexivity.
  destruct (alloc_run h s Hh) as (h' & Ea & [Hf He] & Hh' & Hnew & _). rewrite (cmd_bind_Ret _ _ _ _ _ Ea). exists h'. split_and!; [done|done| |by exists s].
  split; [done|]. intros l Hlt _. by apply He.
Qed.

(** A change of the string at [l]. *)
Lemma update_plain h l t f t' : heap_ok h -> has h l t -> (forall s, str_rep s t -> exists s', f s = Ret s' /\ str_rep s' t') ->
  exists h', update_str l f h = (h', Ret tt) /\ heap_ok h' /\ only h h' [l] /\ has h' l t' /\ (forall l', l' <> l -> strs h' !! l' = strs h !! l').
Proof using.
  intros Hh (s & Hs & Hr) Hf. destruct (Hf s Hr) as (s' & Es & Hr'). exists (Heap (<[l := s']> (strs h)) (fresh_loc h)).
  assert (forall l', l' <> l -> <[l := s']> (strs h) !! l' = strs h !! l') as Hne by (intros l' Hl'; by rewrite lookup_insert_ne).
  split_and!; [by eapply update_str_run| | | |done].
  - intros l' [x Hx]. simpl in *. destruct (decide (l' = l)) as [->|Hl']; [apply Hh; eauto|]. rewrite Hne in Hx by done. apply Hh; eauto.
  - split; simpl; [lia|]. intros l' _ Hl'. apply Hne. set_solver.
  - exists s'. simpl. by rewrite lookup_insert_eq.
Qed.

Lemma append_text_ok t b n : 0 <= n <= zlen b -> zlen t + n < string_limit -> forall s, str_rep s t ->
  exists s', nx_string_append s b n = Ret s' /\ str_rep s' (t ++ take (Z.to_nat n) b).
Proof using.
  intros Hn Hl s Hs. destruct (nx_string_append_rep s t b n Hs Hn) as (s' & Es & Hs'). exists s'. split; [done|].
  rewrite spec_append_fits in Hs' by (rewrite length_take; lia). done.
Qed.

Lemma free_plain h l t : has h l t -> nx_logdata_free Dlist.null_link (plain l) h = (Heap (delete l (strs h)) (fresh_loc h), Ret tt).
Proof using.
  intros (s & Hs & _). unfold nx_logdata_free, plain. erewrite cmd_bind_Ret by reflexivity. erewrite cmd_bind_Ret by reflexivity. cbn [fields free_fields].
  unfold nx_value_free, nx_value_kill. cbn [string_value v_defined v_type v_data]. unfold mbind, cmd_bind, lift, string_ptr. simpl.
  by rewrite (nx_string_free_run _ _ _ Hs).
Qed.

Lemma join_ok h l m k t : heap_ok h -> has h l m -> has h k t -> l <> k -> zlen m + zlen t < string_limit ->
  exists h', join (plain l) (plain k) h = (h', Ret tt) /\ heap_ok h' /\ only h h' [l; k] /\ has h' l (m ++ t).
Proof using.
  intros Hh Hm Ht Hne Hl. pose proof Ht as (u & Hu & (_ & (r & Hb) & _ & Hul & _)). pose proof Hm as (s0 & Hs0 & _). unfold join, raw_of.
  assert ((l0 ← lift (deref (raw_event (plain k)) "logdata->raw_event"); s ← load_str l0; mret (l0, s)) h = (h, Ret (k, u))) as E1
    by (erewrite cmd_bind_Ret by reflexivity; by rewrite (cmd_bind_Ret _ _ _ _ _ (load_str_run _ _ _ Hu))).
  assert ((l0 ← lift (deref (raw_event (plain l)) "logdata->raw_event"); s ← load_str l0; mret (l0, s)) h = (h, Ret (l, s0))) as E2
    by (erewrite cmd_bind_Ret by reflexivity; by rewrite (cmd_bind_Ret _ _ _ _ _ (load_str_run _ _ _ Hs0))).
  rewrite (cmd_bind_Ret _ _ _ _ _ E1). cbn beta iota. rewrite (cmd_bind_Ret _ _ _ _ _ E2). cbn beta iota.
  destruct (update_plain h l m (fun s => nx_string_append s (buf u) (len u)) (m ++ t) Hh Hm) as (h1 & Eu & Hh1 & Ho1 & Hl1 & Hne1).
  { intros s Hs. destruct (append_text_ok m (buf u) (len u)) with (s := s) as (s' & Ea & Hs'); [rewrite Hb, Hul, length_app; lia|lia|done|].
    exists s'. split; [done|]. by rewrite Hul, Nat2Z.id, Hb, take_app_length in Hs'. }
  rewrite (cmd_bind_Ret _ _ _ _ _ Eu). assert (has h1 k t) as Hk1 by (destruct Ht as (s & Hs & Hr); exists s; by rewrite Hne1 by congruence).
  rewrite (free_plain h1 k t Hk1). eexists. split; [reflexivity|]. split_and!.
  - intros l' [x Hx]. simpl in *. apply lookup_delete_Some in Hx as [_ Hx]. apply Hh1. eauto.
  - destruct Ho1 as [F1 S1]. split; simpl; [done|]. intros l' Hl' Hn. rewrite lookup_delete_ne by set_solver. apply S1; [done|set_solver].
  - destruct Hl1 as (s & Hs & Hr). exists s. simpl. by rewrite lookup_delete_ne.
Qed.

(** ** Scanning *)

Lemma scan_rest {C} (x : nx_module_input C) s : forall b a fuel, s = a ++ b -> unbroken b -> holds x s -> (length b <= fuel)%nat ->
  scan fuel x (zlen a) false = Ret (zlen s, false).
Proof using.
  induction b as [|c b IH]; intros a fuel -> Hb Hx Hf; pose proof (holds_len _ _ Hx) as Hl.
  - rewrite app_nil_r in *. destruct fuel; simpl; rewrite Hl, (proj2 (Z.ltb_ge _ _)) by lia; done.
  - destruct fuel as [|fuel]; [simpl in Hf; lia|]. cbn [scan]. rewrite Hl, (proj2 (Z.ltb_lt _ _)) by (rewrite length_app; simpl; lia).
    rewrite (cell_in _ _ _ _ Hx). cbn [mbind outcome_bind]. apply Forall_cons in Hb as [Hc Hb]. rewrite Hc.
    replace (zlen a + 1) with (zlen (a ++ [c])) by (rewrite length_app; simpl; lia). apply IH; [by rewrite <- app_assoc|done|done|simpl in Hf; lia].
Qed.

Lemma scan_break {C} (x : nx_module_input C) c v : forall u a fuel, unbroken u -> is_break c = true -> holds x (a ++ u ++ c :: v) ->
  (length u + S (length v) <= fuel)%nat -> scan fuel x (zlen a) false = Ret (zlen (a ++ u) + 1, true).
Proof using.
  induction u as [|d u IH]; intros a fuel Hu Hc Hx Hf; pose proof (holds_len _ _ Hx) as Hl; (destruct fuel as [|fuel]; [simpl in Hf; lia|]);
    cbn [scan]; rewrite Hl, (proj2 (Z.ltb_lt _ _)) by (rewrite !length_app; simpl; lia); rewrite (cell_in _ _ _ _ Hx); cbn [mbind outcome_bind].
  - rewrite Hc, app_nil_r. destruct v as [|e v].
    + rewrite length_app in Hl. simpl in Hl. destruct fuel; cbn [scan]; rewrite (proj2 (Z.ltb_ge _ (buflen x))) by lia; done.
    + destruct fuel as [|fuel]; [simpl in Hf; lia|]. cbn [scan]. rewrite (proj2 (Z.ltb_lt _ (buflen x))) by (rewrite Hl, length_app; simpl; lia).
      assert (holds x ((a ++ [c]) ++ e :: v)) as Hx2 by (by rewrite <- app_assoc).
      replace (zlen a + 1) with (zlen (a ++ [c])) by (rewrite length_app; simpl; lia). by rewrite (cell_in _ _ _ _ Hx2).
  - apply Forall_cons in Hu as [Hd Hu]. rewrite Hd. replace (zlen a + 1) with (zlen (a ++ [d])) by (rewrite length_app; simpl; lia).
    rewrite (IH (a ++ [d]) fuel); [by rewrite <- app_assoc|done|done|by rewrite <- app_assoc|simpl in Hf; lia].
Qed.

(** ** One line *)

Context `{PC : Pcre}.
Variable conf : nx_xm_multiline_conf.
Record state_ok (h : heap) (c : nx_xm_multiline_ctx) (p : bytes) (sv : option bytes) : Prop := {
  so_heap : heap_ok h;
  so_tmp : holds_text h (tmpline c) (text_of p);
  so_saved : holds_text h (saved c) sv;
  so_nodup : NoDup (ctx_locs c)
}.

(** The message [m] that a step returns as [d]. *)
Definition returned (h : heap) (c : nx_xm_multiline_ctx) (d : option logdata) (m : option bytes) : Prop :=
  holds_text h d m /\ forall l, l ∈ locs d -> l ∉ ctx_locs c.

(** A step from [h] and [c] to [h'] and [c']. *)
Definition step_only (h h' : heap) (ls ls' : list loc) : Prop :=
  only h h' ls /\ forall l, l ∈ ls' -> l ∈ ls \/ (fresh_loc h <= l)%positive.

Lemma step_trans h1 h2 h3 l1 l2 l3 : step_only h1 h2 l1 l2 -> step_only h2 h3 l2 l3 -> step_only h1 h3 l1 l3.
Proof using.
  intros [O1 S1] [O2 S2]. split; [by eapply (only_trans h1 h2 h3 l1 l2)|]. intros l Hl. destruct (S2 l Hl) as [H|H]; [by apply S1|]. right. destruct O1. lia.
Qed.

Definition ctx_of (x : nx_module_input nx_xm_multiline_ctx) : nx_xm_multiline_ctx := default (Ctx None None 0) (ctx x).

Lemma add_text_ok h x c p sv t r : state_ok h c p sv -> from_start x = t ++ r -> t <> [] -> zlen p + zlen t < string_limit ->
  exists h' k, add_text (zlen t) (tmpline c) (h, x) = ((h', x), Ret (plain k)) /\ heap_ok h' /\ has h' k (p ++ t) /\ holds_text h' (saved c) sv /\
    k ∉ locs (saved c) /\ step_only h h' (ctx_locs c) (k :: locs (saved c)).
Proof using.
  intros [Hh Ht Hsv HN] Hx Hne Hl. unfold add_text. erewrite cmd_bind_Ret by reflexivity. cbn [snd]. rewrite Hx.
  assert (0 < zlen t) by (destruct t; [done|simpl; lia]).
  assert (forall l, l ∈ locs (saved c) -> (l < fresh_loc h)%positive) as Hlt.
  { intros l Hin. destruct (saved c) as [ds|]; [|by apply not_elem_of_nil in Hin]. destruct sv as [m|]; [|done]. destruct Hsv as (l0 & -> & Hm).
    simpl in Hin. apply list_elem_of_singleton in Hin as ->. by eapply has_lt. }
  destruct (tmpline c) as [d|] eqn:Ec.
  - destruct p as [|a p]; [done|]. destruct Ht as (k & -> & Hk). unfold ctx_locs in HN. rewrite Ec in HN. simpl in HN. apply NoDup_cons in HN as [Hks HN].
    destruct (update_plain h k (a :: p) (fun s => nx_string_append s (t ++ r) (zlen t)) ((a :: p) ++ t) Hh Hk) as (h' & Eu & Hh' & Ho & Hk' & Hne').
    { intros s Hs. destruct (append_text_ok (a :: p) (t ++ r) (zlen t)) with (s := s) as (s' & Ea & Hs'); [rewrite length_app; lia|lia|done|].
      exists s'. split; [done|]. by rewrite Nat2Z.id, take_app_length in Hs'. }
    exists h', k. split_and!; [|done|done| |done|].
    + rewrite (cmd_bind_Ret _ _ (h, x) (h', x) tt); [done|]. unfold append_line. cbn [fst snd].
      assert (nx_logdata_append_logline (t ++ r) (zlen t) (h, plain k) = ((h', plain k), Ret tt)) as ->; [|done].
      unfold nx_logdata_append_logline. erewrite cmd_bind_Ret by reflexivity. erewrite cmd_bind_Ret by reflexivity. erewrite cmd_bind_Ret by reflexivity.
      unfold on_heap. cbn [fst snd]. by rewrite Eu.
    + destruct (saved c) as [ds|]; destruct sv as [m|]; try done. destruct Hsv as (l & -> & Hm). exists l. split; [done|]. destruct Hm as (s & Hs & Hr).
      exists s. rewrite Hne'; [done|]. simpl in Hks. set_solver.
    + split; [destruct Ho as [F S]; split; [done|]; intros l Hl0 Hn0; apply S; [done|]; unfold ctx_locs in Hn0; rewrite Ec in Hn0; simpl in Hn0; set_solver|].
      intros l Hl0. left. unfold ctx_locs. rewrite Ec. simpl. set_solver.
  - destruct p as [|a p]; [|done]. destruct (new_plain h (t ++ r) (zlen t) Hh) as (h' & En & Hh' & Ho & Hk); [rewrite length_app; lia|simpl in Hl; lia|].
    rewrite Nat2Z.id, take_app_length in Hk. exists h', (fresh_loc h). split_and!; [|done|done| | |].
    + unfold in_heap. cbn [fst snd]. by rewrite En.
    + destruct (saved c) as [ds|]; destruct sv as [m|]; try done. destruct Hsv as (l & -> & Hm). exists l. split; [done|].
      eapply has_only; [exact Ho| |apply not_elem_of_nil|done]. apply Hlt. simpl. by left.
    + intros Hin. specialize (Hlt _ Hin). lia.
    + split; [destruct Ho as [F S]; split; [done|]; intros l Hl0 _; apply S; [done|apply not_elem_of_nil]|].
      intros l [->|Hin]%elem_of_cons; [right; lia|left]. unfold ctx_locs. rewrite Ec. simpl. done.
Qed.

(** The rest of the buffer when [t] was used. *)
Lemma holds_used x (c : nx_xm_multiline_ctx) t v : holds x (t ++ v) ->
  holds (set_pos (bufstart x + zlen t) (buflen x - zlen t) (set_ctx (Some c) x)) v.
Proof using.
  intros (pre & e & post & Hb & Hs & Hl & Hz). rewrite length_app in Hl. exists (pre ++ t), e, post.
  unfold set_pos, set_ctx. cbn [ibuf bufstart buflen bufsize]. split_and!; [by rewrite Hb, <- !app_assoc|rewrite length_app; lia|lia|done].
Qed.

Lemma one_line_partial h x p sv s : holds x s -> s <> [] -> unbroken s -> state_ok h (ctx_of x) p sv -> zlen p + zlen s < string_limit ->
  exists h' x' c', one_line conf None (h, x) = ((h', x'), Ret (None, true)) /\ holds x' [] /\ ctx x' = Some c' /\ bufsize x' = bufsize x /\
    state_ok h' c' (p ++ s) sv /\ step_only h h' (ctx_locs (ctx_of x)) (ctx_locs c').
Proof using.
  intros Hx Hne Hu Hok Hl. pose proof (holds_len _ _ Hx) as Hlen. unfold one_line. erewrite cmd_bind_Ret by reflexivity. cbn [snd]. fold (ctx_of x).
  rewrite (run_lift _ (zlen s, false)) by (rewrite Hlen, Nat2Z.id; by apply (scan_rest x s s [])). cbn beta iota.
  destruct (holds_from _ _ Hx) as [r Hr]. destruct (add_text_ok h x (ctx_of x) p sv s r Hok Hr Hne Hl) as (h' & k & Ea & Hh' & Hk & Hsv & Hks & Hstep).
  rewrite (cmd_bind_Ret _ _ _ _ _ Ea). erewrite cmd_bind_Ret by reflexivity. cbn beta iota. erewrite cmd_bind_Ret by reflexivity. cbn [snd].
  erewrite cmd_bind_Ret by reflexivity. do 3 eexists. split; [unfold mret, cmd_ret; do 3 f_equal; simpl; apply Z.leb_le; lia|].
  split_and!; [apply holds_used; by rewrite app_nil_r|reflexivity|done| |done].
  constructor; simpl; [done| |done|].
  - destruct (p ++ s) eqn:E; [apply app_eq_nil in E as [_ ->]; done|]. simpl. by exists k.
  - apply NoDup_cons. split; [done|]. apply locs_nodup.
Qed.

Variable hd : bytes -> bool.
Hypothesis header_only : endline conf = None /\ fixedlinecount conf <= 0.
Hypothesis header_is : forall l r, no_nul l -> matches (headerline conf) (l ++ x00 :: r) (zlen (trimmed l)) = Ret (hd l).

(** A complete line that is in the heap at [k], which no pending record uses. *)
Lemma complete_ok h k line c sv : heap_ok h -> has h k line -> no_nul line ->
  holds_text h (saved c) sv -> k ∉ locs (saved c) -> zlen line + zlen (default [] sv) < string_limit ->
  exists h' c' d done, complete_line conf (plain k) c h = (h', Ret (c', d, done)) /\
    state_ok h' c' [] (match sv with None => if hd line then Some line else None | Some m => Some (if hd line then line else m ++ line) end) /\
    returned h' c' d (match sv with None => if hd line then None else Some line | Some m => if hd line then Some m else None end) /\
    done = (match d with Some _ => true | None => false end) /\ step_only h h' (k :: locs (saved c)) (ctx_locs c' ++ locs d).
Proof using header_only header_is.
  intros Hh Hk Hn Hsv Hks Hl. pose proof Hk as (s & Hs & Hrep). pose proof Hrep as (_ & (r & Hb) & _ & Hlen & _). destruct header_only as [He Hf].
  unfold complete_line. rewrite (cmd_bind_Ret _ _ h h (k, s)).
  2:{ unfold raw_of. erewrite cmd_bind_Ret by reflexivity. by rewrite (cmd_bind_Ret _ _ _ _ _ (load_str_run _ _ _ Hs)). }
  cbn beta iota. rewrite (run_lift _ (zlen (trimmed line))) by (rewrite Hb, Hlen; apply trim_ok; lia).
  rewrite (run_lift _ (hd line)) by (rewrite Hb; by apply header_is). rewrite (run_lift _ false) by (by rewrite He).
  assert (forall c' d done, check_count conf (c', d, done) = (c', d, done)) as Hcc by (intros; unfold check_count; by rewrite (proj2 (Z.ltb_ge _ _)) by lia).
  unfold take_line. destruct (saved c) as [ds|] eqn:Es; (destruct sv as [m|]; try contradiction).
  - destruct Hsv as (l & -> & Hm). simpl in Hks. assert (l <> k) as Hlk by set_solver. simpl in Hl. destruct (hd line).
    + erewrite cmd_bind_Ret by reflexivity. rewrite Hcc. do 4 eexists. split; [reflexivity|]. split_and!; [|split|done|split].
      * constructor; simpl; [done|done|by exists k|apply NoDup_singleton].
      * simpl. by exists l.
      * intros l0. simpl. set_solver.
      * apply only_refl.
      * intros l0. simpl. set_solver.
    + destruct (join_ok h l m k line Hh Hm Hk Hlk) as (h' & Ej & Hh' & Ho & Hm'); [lia|].
      rewrite (cmd_bind_Ret _ _ h h' (Ctx None (Some (plain l)) (linecount c + 1), None, false)) by (by rewrite (cmd_bind_Ret _ _ _ _ _ Ej)).
      rewrite Hcc. do 4 eexists. split; [reflexivity|]. split_and!; [|split|done|split].
      * constructor; simpl; [done|done|by exists l|apply NoDup_singleton].
      * done.
      * intros l0. simpl. set_solver.
      * destruct Ho as [F S]. split; [done|]. intros l0 Hl0 Hn0. apply S; [done|simpl in Hn0; set_solver].
      * intros l0. simpl. set_solver.
  - destruct (hd line); cbn [negb]; rewrite ?andb_true_r, ?andb_false_r, ?(proj2 (Z.leb_le (fixedlinecount conf) 0)) by lia; erewrite cmd_bind_Ret by reflexivity; rewrite Hcc;
      do 4 eexists; (split; [reflexivity|]); (split_and!; [|split|done|split]).
    + constructor; simpl; [done|done|by exists k|apply NoDup_singleton].
    + done.
    + intros l0. simpl. set_solver.
    + apply only_refl.
    + intros l0. simpl. set_solver.
    + constructor; simpl; [done|done|done|apply NoDup_nil_2].
    + simpl. by exists k.
    + intros l0. simpl. set_solver.
    + apply only_refl.
    + intros l0. simpl. set_solver.
Qed.

Lemma one_line_complete h x p sv u b v : holds x (u ++ b :: v) -> unbroken u -> is_break b = true -> no_nul (p ++ u ++ [b]) ->
  state_ok h (ctx_of x) p sv -> zlen p + zlen (u ++ [b]) + zlen (default [] sv) < string_limit ->
  let line := p ++ u ++ [b] in
  exists h' x' c' d, one_line conf None (h, x) = ((h', x'), Ret (d, match d with Some _ => true | None => zlen v <=? 0 end)) /\
    holds x' v /\ ctx x' = Some c' /\ bufsize x' = bufsize x /\
    state_ok h' c' [] (match sv with None => if hd line then Some line else None | Some m => Some (if hd line then line else m ++ line) end) /\
    returned h' c' d (match sv with None => if hd line then None else Some line | Some m => if hd line then Some m else None end) /\
    step_only h h' (ctx_locs (ctx_of x)) (ctx_locs c' ++ locs d).
Proof using header_only header_is.
  intros Hx Hu Hb Hn Hok Hl line. pose proof (holds_len _ _ Hx) as Hlen. rewrite length_app in Hlen. cbn [length] in Hlen.
  unfold one_line. erewrite cmd_bind_Ret by reflexivity. cbn [snd]. fold (ctx_of x).
  assert (zlen (u ++ [b]) = zlen u + 1) as Hub by (rewrite length_app; cbn [length]; lia).
  rewrite (run_lift _ (zlen (u ++ [b]), true)).
  2:{ rewrite Hlen, Hub. rewrite (scan_break x b v u []) by (done || lia). done. }
  cbn beta iota. assert (holds x ((u ++ [b]) ++ v)) as Hx2 by (by rewrite <- app_assoc). destruct (holds_from _ _ Hx2) as [r Hr]. rewrite <- app_assoc in Hr.
  destruct (add_text_ok h x (ctx_of x) p sv (u ++ [b]) (v ++ r) Hok Hr) as (h1 & k & Ea & Hh1 & Hk & Hsv & Hks & Hstep); [by destruct u|lia|].
  rewrite (cmd_bind_Ret _ _ _ _ _ Ea). fold line in Hk.
  destruct (complete_ok h1 k line (ctx_of x) sv Hh1 Hk Hn) as (h2 & c2 & d & fin & Ec & Hok2 & Hret & Hdone & Hstep2); [done|done| |].
  { unfold line. rewrite length_app. lia. }
  rewrite (cmd_bind_Ret _ _ (h1, x) (h2, x) (c2, d, fin)).
  2:{ rewrite (cmd_bind_Ret _ _ (h1, x) (h1, x) (Some (plain k))) by done. cbn beta iota. unfold in_heap. cbn [fst snd]. by rewrite Ec. }
  cbn beta iota. erewrite cmd_bind_Ret by reflexivity. cbn [snd]. erewrite cmd_bind_Ret by reflexivity. do 4 eexists.
  split; [unfold mret, cmd_ret; do 3 f_equal; rewrite Hdone; destruct d; [done|]; cbn [orb]; f_equal; simpl; lia|].
  split_and!; [by apply holds_used|reflexivity|done|done|done|].
  eapply step_trans; [exact Hstep|exact Hstep2].
Qed.

(** ** One call *)

Lemma text_only h h' ls d t : heap_ok h -> only h h' ls -> (forall l, l ∈ locs d -> l ∉ ls) -> holds_text h d t -> holds_text h' d t.
Proof using.
  intros Hh Ho Hn Ht. destruct d as [d|], t as [t|]; try done. destruct Ht as (l & -> & Hl). exists l. split; [done|].
  eapply has_only; [exact Ho|by eapply has_lt|apply Hn; by left|done].
Qed.

Lemma state_only h h' ls c p sv : heap_ok h' -> only h h' ls -> (forall l, l ∈ ctx_locs c -> l ∉ ls) -> state_ok h c p sv -> state_ok h' c p sv.
Proof using.
  intros Hh' Ho Hn [Hh Ht Hs HN]. constructor; [done| | |done]; (eapply text_only; [exact Hh|exact Ho| |done]); intros l Hl; apply Hn, elem_of_app; auto.
Qed.

(** The message [m] in [d], which no pending record uses. *)
Definition finished (h : heap) (c : nx_xm_multiline_ctx) (d : logdata) (m : bytes) : Prop :=
  exists l, d = plain l /\ has h l m /\ (l < fresh_loc h)%positive /\ l ∉ ctx_locs c.

Lemma finished_step h h' c c' d m : step_only h h' (ctx_locs c) (ctx_locs c') -> finished h c d m -> finished h' c' d m.
Proof using.
  intros [Ho Hs] (l & -> & Hl & Hlt & Hn). exists l. split_and!; [done|by eapply has_only|destruct Ho; lia|].
  intros Hin. destruct (Hs l Hin); [done|lia].
Qed.

Lemma step_app h h' ls l1 l2 : step_only h h' ls (l1 ++ l2) -> step_only h h' ls l1.
Proof using. intros [Ho Hs]. split; [done|]. intros l Hl. apply Hs, elem_of_app. by left. Qed.

Lemma strip_ok h l m c p sv : has h l m -> state_ok h c p sv -> l ∉ ctx_locs c ->
  exists h', strip (Some (plain l)) h = (h', Ret tt) /\ state_ok h' c p sv /\ finished h' c (plain l) (spec_strip_crlf m) /\ only h h' [l].
Proof using.
  intros Hl Hok Hn. pose proof Hok as [Hh _ _ _]. pose proof Hl as (s & Hs & _).
  destruct (update_plain h l m nx_string_strip_crlf (spec_strip_crlf m) Hh Hl (fun s Hs => nx_string_strip_crlf_rep s m Hs)) as (h' & Eu & Hh' & Ho & Hl' & _).
  exists h'. split_and!; [| | |done].
  - unfold strip. rewrite (cmd_bind_Ret _ _ h h (l, s)); [done|]. unfold raw_of. erewrite cmd_bind_Ret by reflexivity. by rewrite (cmd_bind_Ret _ _ _ _ _ (load_str_run _ _ _ Hs)).
  - eapply state_only; [done|exact Ho| |done]. intros l0 Hl0 ->%list_elem_of_singleton. done.
  - exists l. split_and!; [done|done|by eapply has_lt|done].
Qed.

(** What a call leaves: the rest of the data, the context, and what the stream still says. *)
Record left_over (h' : heap) (x x' : nx_module_input nx_xm_multiline_ctx) (s' : bytes) (c' : nx_xm_multiline_ctx) (p' : bytes) (sv' : option bytes) : Prop := {
  lo_holds : holds x' s';
  lo_ctx : ctx x' = Some c';
  lo_size : bufsize x' = bufsize x;
  lo_ok : state_ok h' c' p' sv'
}.

Lemma lines_loop_ok fuel : forall h x p sv s, (length s <= fuel)%nat -> s <> [] -> holds x s -> no_nul (p ++ s) -> state_ok h (ctx_of x) p sv ->
  zlen p + zlen s + zlen (default [] sv) < string_limit ->
  exists h' x' d s' c' p' sv', lines_loop conf None fuel (h, x) = ((h', x'), Ret d) /\ left_over h' x x' s' c' p' sv' /\ no_nul s' /\
    zlen p' + zlen s' + zlen (default [] sv') <= zlen p + zlen s + zlen (default [] sv) /\ step_only h h' (ctx_locs (ctx_of x)) (ctx_locs c') /\
    match d with
    | None => s' = [] /\ messages hd p sv s = ([], (p', sv'))
    | Some d => exists m, finished h' c' d m /\ p' = [] /\ (length s' < length s)%nat /\ messages hd p sv s = (m :: fst (messages hd [] sv' s'), snd (messages hd [] sv' s'))
    end.
Proof using header_only header_is.
  induction fuel as [|fuel IH]; intros h x p sv s Hf Hne Hx Hn Hok Hl; [destruct s; [done|simpl in Hf; lia]|].
  destruct (break_or_not s) as [Hu|(u & b & v & -> & Hu & Hb)].
  - destruct (one_line_partial h x p sv s Hx Hne Hu Hok) as (h' & x' & c' & E1 & Hx' & Hc' & Hz' & Hok' & Hst); [lia|].
    exists h', x', None, [], c', (p ++ s), sv. cbn [lines_loop]. rewrite (cmd_bind_Ret _ _ _ _ _ E1). cbn beta iota.
    split_and!; [done|by constructor|apply not_elem_of_nil|rewrite length_app; simpl; lia|done|done|by apply messages_partial].
  - assert (zlen (u ++ [b]) = zlen u + 1) as Hub by (rewrite length_app; simpl; lia).
    rewrite length_app in Hl, Hf. cbn [length] in Hl, Hf. assert (p ++ u ++ b :: v = (p ++ u ++ [b]) ++ v) as Esp by (by rewrite <- !app_assoc).
    assert (no_nul (p ++ u ++ [b]) /\ no_nul v) as [Hn1 Hn2] by (rewrite Esp in Hn; by apply no_nul_app_iff in Hn).
    destruct (one_line_complete h x p sv u b v Hx Hu Hb Hn1 Hok) as (h1 & x1 & c1 & d & E1 & Hx1 & Hc1 & Hz1 & Hok1 & [Hret Hnin] & Hst); [lia|].
    set (line := p ++ u ++ [b]) in *. assert (zlen line = zlen p + zlen u + 1) as Hlen by (unfold line; rewrite length_app; lia).
    pose proof (messages_line hd p sv u b v Hu Hb) as Hm. fold line in Hm.
    set (sv1 := match sv with None => if hd line then Some line else None | Some m => Some (if hd line then line else m ++ line) end) in *.
    set (m1 := match sv with None => if hd line then None else Some line | Some m => if hd line then Some m else None end) in *.
    assert (on_line hd sv line = (spec_strip_crlf <$> m1, sv1)) as Eon by (unfold on_line, m1, sv1; destruct sv, (hd line); done).
    assert (zlen (default [] sv1) <= zlen line + zlen (default [] sv)) as Hsv1.
    { unfold sv1. destruct sv as [m|], (hd line); simpl; rewrite ?length_app; lia. }
    rewrite Eon in Hm. cbn [lines_loop]. rewrite (cmd_bind_Ret _ _ _ _ _ E1). cbn beta iota.
    destruct d as [d|].
    + destruct m1 as [m|]; [|done]. destruct Hret as (l & -> & Hl1). destruct (strip_ok h1 l m c1 [] sv1 Hl1 Hok1) as (h2 & Es & Hok2 & Hfin & Ho2); [apply Hnin; by left|].
      exists h2, x1, (Some (plain l)), v, c1, [], sv1. rewrite (cmd_bind_Ret _ _ (h1, x1) (h2, x1) tt) by (unfold in_heap; cbn [fst snd]; by rewrite Es).
      split_and!; [done|by constructor|done|rewrite length_app; cbn [length]; lia| |].
      * destruct Hst as [Ho1 Hs1]. split; [|intros l0 Hl0; apply Hs1, elem_of_app; by left]. eapply only_trans; [exact Ho1|exact Ho2|done|].
        intros l0 ->%list_elem_of_singleton. apply Hs1, elem_of_app. right. by left.
      * exists (spec_strip_crlf m). split_and!; [done|done|rewrite length_app; simpl; lia|done].
    + destruct m1 as [m|]; [done|]. rewrite app_nil_r in Hst. destruct (Z.leb_spec (zlen v) 0) as [Hv|Hv].
      * destruct v; [|simpl in Hv; lia]. exists h1, x1, None, [], c1, [], sv1. erewrite cmd_bind_Ret by reflexivity.
        split_and!; [done|by constructor|done|rewrite length_app; cbn [length]; lia|done|done|]. by rewrite Hm.
      * assert (ctx_of x1 = c1) as Ec1 by (unfold ctx_of; by rewrite Hc1).
        destruct (IH h1 x1 [] sv1 v) as (h2 & x2 & d2 & s2 & c2 & p2 & sv2 & E2 & Hlo & Hn3 & Hl2 & Hst2 & Hd2); [lia|by destruct v|done|done|by rewrite Ec1|simpl; lia|].
        rewrite Ec1 in Hst2. exists h2, x2, d2, s2, c2, p2, sv2. split_and!; [done| |done|rewrite length_app; cbn [length] in *; lia|by eapply step_trans|].
        { destruct Hlo as [L1 L2 L3 L4]. constructor; [done|done|congruence|done]. }
        simpl in Hm. destruct d2 as [d2|].
        -- destruct Hd2 as (m & Hfin & -> & Hlt & Hm2). exists m. split_and!; [done|done|rewrite length_app; simpl; lia|]. rewrite Hm, Hm2. done.
        -- destruct Hd2 as [-> Hm2]. split; [done|]. by rewrite Hm, Hm2.
Qed.

(** ** The stream *)

(** The loop of the input modules. *)
Fixpoint read_messages (fuel : nat) : cmd (rstate nx_xm_multiline_ctx) (list logdata) :=
  r ← xm_multiline_input_func conf None;
  match r with
  | None => mret []
  | Some d => match fuel with O => lift (Undef "out of fuel") | S fuel => ds ← read_messages fuel; mret (d :: ds) end
  end.

(** The data of the stream arrive in pieces. *)
Fixpoint read_pieces (pieces : list bytes) : cmd (rstate nx_xm_multiline_ctx) (list logdata) :=
  match pieces with
  | [] => mret []
  | c :: pieces =>
      x ← get_input;
      x ← lift (nx_module_input_fill_buffer_from_socket c x);
      _ ← put_input x;
      ds ← read_messages (length c);
      ds' ← read_pieces pieces;
      mret (ds ++ ds')
  end.

Lemma step_refl h ls : step_only h h ls ls.
Proof using. split; [apply only_refl|]. intros l Hl. by left. Qed.

Lemma read_messages_ok fuel : forall h x p sv s, (length s <= fuel)%nat -> holds x s -> no_nul (p ++ s) -> state_ok h (ctx_of x) p sv ->
  zlen p + zlen s + zlen (default [] sv) < string_limit ->
  exists h' x' ds p' sv', read_messages fuel (h, x) = ((h', x'), Ret ds) /\ holds x' [] /\ bufsize x' = bufsize x /\ state_ok h' (ctx_of x') p' sv' /\
    zlen p' + zlen (default [] sv') <= zlen p + zlen s + zlen (default [] sv) /\ no_nul p' /\
    step_only h h' (ctx_locs (ctx_of x)) (ctx_locs (ctx_of x')) /\
    messages hd p sv s = (fst (messages hd p sv s), (p', sv')) /\ Forall2 (finished h' (ctx_of x')) ds (fst (messages hd p sv s)).
Proof using header_only header_is.
  induction fuel as [|fuel IH]; intros h x p sv s Hf Hx Hn Hok Hl; pose proof (holds_len _ _ Hx) as Hlen.
  - destruct s; [|simpl in Hf; lia]. simpl in Hlen. exists h, x, [], p, sv. cbn [read_messages].
    rewrite (cmd_bind_Ret _ _ (h, x) (h, x) None) by (unfold xm_multiline_input_func; erewrite cmd_bind_Ret by reflexivity; cbn [snd]; by rewrite Hlen).
    apply no_nul_app_iff in Hn as [Hn _]. split_and!; try done; [simpl in *; lia|apply step_refl].
  - destruct s as [|b s].
    { simpl in Hlen. exists h, x, [], p, sv. cbn [read_messages].
      rewrite (cmd_bind_Ret _ _ (h, x) (h, x) None) by (unfold xm_multiline_input_func; erewrite cmd_bind_Ret by reflexivity; cbn [snd]; by rewrite Hlen).
      apply no_nul_app_iff in Hn as [Hn _]. split_and!; try done; [simpl in *; lia|apply step_refl]. }
    set (t := b :: s) in *. assert (t <> []) as Hne by done. clearbody t. clear b s.
    destruct (lines_loop_ok (length t) h x p sv t) as (h1 & x1 & d & s1 & c1 & p1 & sv1 & E1 & [Hx1 Hc1 Hz1 Hok1] & Hn1 & Hl1 & Hst1 & Hd); [done..|].
    assert (ctx_of x1 = c1) as Ec1 by (unfold ctx_of; by rewrite Hc1).
    assert (xm_multiline_input_func conf None (h, x) = ((h1, x1), Ret d)) as E0.
    { unfold xm_multiline_input_func. erewrite cmd_bind_Ret by reflexivity. cbn [snd]. rewrite (run_lift _ tt) by (by rewrite (proj2 (Z.leb_le 0 _)) by lia).
      assert (0 < zlen t) by (destruct t; [done|simpl; lia]). rewrite (proj2 (Z.eqb_neq _ _)) by lia. by rewrite Hlen, Nat2Z.id. }
    cbn [read_messages]. rewrite (cmd_bind_Ret _ _ _ _ _ E0). destruct d as [d|].
    + destruct Hd as (m & Hfin & -> & Hlt & Hm). destruct (IH h1 x1 [] sv1 s1) as (h2 & x2 & ds & p2 & sv2 & E2 & Hx2 & Hz2 & Hok2 & Hl2 & Hn2 & Hst2 & Hm2 & HF); [lia|done|done|by rewrite Ec1|simpl in *; lia|].
      rewrite (cmd_bind_Ret _ _ _ _ _ E2). exists h2, x2, (d :: ds), p2, sv2. rewrite Ec1 in Hst2. rewrite Hm. cbn [fst snd]. rewrite Hm2 at 2. cbn [fst snd].
      split_and!; [done|done|congruence|done|simpl in *; lia|done|by eapply step_trans|done|]. constructor; [by eapply finished_step|done].
    + destruct Hd as [-> Hm]. exists h1, x1, [], p1, sv1. rewrite Hm. cbn [fst]. split_and!; try done; [by rewrite Ec1|simpl in *; lia| |by rewrite Ec1].
      apply messages_rest in Hm as [w Hw]. rewrite Hw in Hn. apply no_nul_app_iff in Hn as [_ Hn]. done.
Qed.

Lemma read_pieces_ok pieces : forall h x p sv, holds x [] -> no_nul (p ++ concat pieces) -> state_ok h (ctx_of x) p sv ->
  Forall (fun c => zlen c < bufsize x) pieces -> zlen p + zlen (concat pieces) + zlen (default [] sv) < string_limit ->
  exists h' x' ds p' sv', read_pieces pieces (h, x) = ((h', x'), Ret ds) /\ state_ok h' (ctx_of x') p' sv' /\
    step_only h h' (ctx_locs (ctx_of x)) (ctx_locs (ctx_of x')) /\
    messages hd p sv (concat pieces) = (fst (messages hd p sv (concat pieces)), (p', sv')) /\
    Forall2 (finished h' (ctx_of x')) ds (fst (messages hd p sv (concat pieces))).
Proof using header_only header_is.
  induction pieces as [|c pieces IH]; intros h x p sv Hx Hn Hok Hsz Hl.
  - exists h, x, [], p, sv. split_and!; try done. apply step_refl.
  - apply Forall_cons in Hsz as [Hc Hsz]. cbn [concat] in *. rewrite app_assoc in Hn. apply no_nul_app_iff in Hn as [Hn1 Hn2]. rewrite length_app in Hl.
    cbn [read_pieces]. erewrite cmd_bind_Ret by reflexivity. cbn [snd]. destruct (fill_ok x c Hx Hc) as (x1 & E1 & Hx1 & Hc1 & Hz1).
    rewrite (run_lift _ x1) by done. erewrite cmd_bind_Ret by reflexivity. cbn [fst]. assert (ctx_of x1 = ctx_of x) as Ec1 by (unfold ctx_of; by rewrite Hc1).
    destruct (read_messages_ok (length c) h x1 p sv c) as (h2 & x2 & ds & p2 & sv2 & E2 & Hx2 & Hz2 & Hok2 & Hl2 & Hnp & Hst2 & Hm2 & HF2); [done|done|done|by rewrite Ec1|lia|].
    rewrite (cmd_bind_Ret _ _ _ _ _ E2). rewrite messages_app, Hm2. cbn [fst snd]. rewrite Ec1 in Hst2.
    destruct (IH h2 x2 p2 sv2 Hx2) as (h3 & x3 & ds3 & p3 & sv3 & E3 & Hok3 & Hst3 & Hm3 & HF3); [by apply no_nul_app_iff|done|by rewrite Hz2, Hz1|lia|].
    rewrite (cmd_bind_Ret _ _ _ _ _ E3). exists h3, x3, (ds ++ ds3), p3, sv3. rewrite Hm3. cbn [fst snd]. split_and!; [done|done|by eapply step_trans|done|].
    apply Forall2_app; [|done]. eapply Forall2_impl; [exact HF2|]. intros d m. by apply finished_step.
Qed.

(** C23: With only HeaderLine configured, the reader delivers the messages of a stream:
    each line that matches the pattern starts a message to which the following
    lines belong, a line before the first message is one of its own, and the
    message in progress and the line in progress are kept for later.  This holds
    however the stream is cut into pieces smaller than the buffer; no text is lost
    or delivered twice. *)
Theorem multiline_messages h size pieces :
  heap_ok h -> 0 < size -> no_nul (concat pieces) -> Forall (fun c => zlen c < size) pieces -> zlen (concat pieces) < string_limit ->
  exists h' x' ds p sv, read_pieces pieces (h, nx_module_input_new size) = ((h', x'), Ret ds) /\
    messages hd [] None (concat pieces) = (fst (messages hd [] None (concat pieces)), (p, sv)) /\
    Forall2 (finished h' (ctx_of x')) ds (fst (messages hd [] None (concat pieces))) /\ state_ok h' (ctx_of x') p sv.
Proof using header_only header_is.
  intros Hh Hz Hn Hsz Hl. assert (bufsize (@nx_module_input_new nx_xm_multiline_ctx size) = size) as Ez by (unfold nx_module_input_new; by rewrite (proj2 (Z.eqb_neq size 0)) by lia).
  destruct (read_pieces_ok pieces h (nx_module_input_new size) [] None) as (h' & x' & ds & p & sv & Hrun & Hok & _ & Hm & HF);
    [by apply new_holds|done|by constructor; [|..|apply NoDup_nil_2]|by rewrite Ez|simpl in *; lia|].
  exists h', x', ds, p, sv. done.
Qed.

End reader.
(** ** Patterns that are strings *)

(** A string matches a line that it equals up to the breaks at the end of the line. *)
Definition is_header (pat l : bytes) : bool := bool_decide (take (Z.to_nat (Z.max (zlen (trimmed l)) (zlen pat))) l = pat).

Lemma strncmp_string n : forall l pat r, (length pat <= n)%nat -> no_nul l -> no_nul pat ->
  strncmp_eq n (l ++ x00 :: r) (pat ++ [x00]) = Ret (bool_decide (take n l = pat)).
Proof.
  induction n as [|n IH]; intros l pat r Hn Hl Hp; [destruct pat; [done|simpl in Hn; lia]|].
  destruct l as [|a l], pat as [|b pat]; cbn [app strncmp_eq take].
  - done.
  - apply not_elem_of_cons in Hp as [Hb _]. by rewrite (proj2 (beq_false x00 b)) by congruence.
  - apply not_elem_of_cons in Hl as [Ha _]. by rewrite (proj2 (beq_false a x00)) by congruence.
  - apply not_elem_of_cons in Hl as [Ha Hl], Hp as [Hb Hp]. simpl in Hn. destruct (a =c b) eqn:Eab.
    + apply beq_true in Eab as ->. rewrite (proj2 (beq_false b x00)) by congruence. rewrite IH by (done || lia). f_equal. apply bool_decide_ext. split; congruence.
    + apply beq_false in Eab. rewrite bool_decide_eq_false_2; [done|congruence].
Qed.

Lemma matches_string `{PC : Pcre} pat l r : no_nul pat -> no_nul l -> matches (Some (str_value pat)) (l ++ x00 :: r) (zlen (trimmed l)) = Ret (is_header pat l).
Proof. intros Hp Hl. unfold matches, match_line. cbn. by rewrite strncmp_string by (done || lia). Qed.

(** ** Witnesses *)

Definition start_header : nx_xm_multiline_conf := Conf (Some (str_value (lit "=="))) None 0.
Definition cut_stream : list bytes :=
  [lit "x"; [LF] ++ lit "="; lit "=" ++ [CR]; [LF] ++ lit "text" ++ [LF]; lit "==" ++ [LF] ++ lit "re"; lit "st"].

Lemma multiline_messages_witness :
  exists h' x' ds p sv, read_pieces (M := poison_malloc) (PC := plain_pcre) start_header cut_stream (empty_heap, nx_module_input_new 100) = ((h', x'), Ret ds) /\
    messages (is_header (lit "==")) [] None (concat cut_stream) = (fst (messages (is_header (lit "==")) [] None (concat cut_stream)), (p, sv)) /\
    Forall2 (finished h' (ctx_of x')) ds (fst (messages (is_header (lit "==")) [] None (concat cut_stream))) /\ state_ok h' (ctx_of x') p sv.
Proof.
  apply (multiline_messages (M := poison_malloc) (PC := plain_pcre) start_header (is_header (lit "=="))).
  - split; [reflexivity|]. intros H. discriminate H.
  - intros l r. apply (matches_string (PC := plain_pcre)). apply (bool_decide_unpack _). vm_compute. exact I.
  - exact empty_heap_ok.
  - reflexivity.
  - apply (bool_decide_unpack _). vm_compute. exact I.
  - apply (bool_decide_unpack _). vm_compute. exact I.
  - reflexivity.
Defined.

(** The messages of that stream. *)
Example cut_stream_messages : messages (is_header (lit "==")) [] None (concat cut_stream) =
  ([lit "x"; lit "==" ++ [CR; LF] ++ lit "text"], (lit "rest", Some (lit "==" ++ [LF]))).
Proof. vm_compute. reflexivity. Qed.

(** ** Configurations that lose or split messages *)

Definition delivered_text (h : heap) (d : logdata) : option bytes := option_map fst (line_of d h).

(** The texts that come out for a stream, and what [flush] finds afterwards. *)
Definition texts (conf : nx_xm_multiline_conf) (pieces : list bytes) : outcome (list (option bytes) * option (option bytes)) :=
  let '((h, x), r) := read_pieces (M := poison_malloc) (PC := plain_pcre) conf pieces (empty_heap, nx_module_input_new 64) in
  let '((h', _), f) := xm_multiline_flush_func (M := poison_malloc) (h, x) in
  ds ← r; d ← f; Ret (map (delivered_text h) ds, option_map (delivered_text h') d).

(** Configurations that lose or split messages.  With HeaderLine and FixedLineCount
    together, the message that a header line ends is lost if this line completes
    the count: the header alone is delivered instead.  The carriage return and
    the line feed of a line end are two lines, so that FixedLineCount counts them
    twice, and a line outside a message keeps its carriage return and is followed by
    an empty message.  EndLine alone joins nothing, since no message is ever started.
    The lines of a message that EndLine ends still count for the next one. *)
Theorem multiline_gaps :
  let lines ls := map (fun l => lit l ++ [LF]) ls in
  texts (Conf (Some (str_value (lit "=="))) None 3) (lines ["=="; "a"; "=="; "b"; "c"]) = Ret ([Some (lit "==")], Some (Some (lit "b" ++ [LF] ++ lit "c"))) /\
  texts (Conf None None 2) [lit "a" ++ [CR; LF] ++ lit "b" ++ [CR; LF]; lit "c" ++ [LF] ++ lit "d" ++ [LF]] = Ret ([Some (lit "a"); Some (lit "b"); Some (lit "c" ++ [LF] ++ lit "d")], None) /\
  texts (Conf (Some (str_value (lit "=="))) None 0) [lit "a" ++ [CR; LF] ++ lit "b" ++ [CR; LF]] = Ret ([Some (lit "a" ++ [CR]); Some []; Some (lit "b" ++ [CR]); Some []], None) /\
  texts (Conf None (Some (str_value (lit "end"))) 0) (lines ["a"; "end"; "b"; "end"]) = Ret ([Some (lit "a"); Some (lit "end"); Some (lit "b"); Some (lit "end")], None) /\
  texts (Conf None (Some (str_value (lit "end"))) 3) (lines ["a"; "end"; "b"; "c"; "d"; "e"]) = Ret ([Some (lit "a" ++ [LF] ++ lit "end"); Some (lit "b" ++ [LF] ++ lit "c")], Some (Some (lit "d" ++ [LF] ++ lit "e"))).
Proof. split_and!; vm_compute; reflexivity. Qed.

End MultilineSpec.
