(* ===== verification/Evcorr.v ===== *)
(** * Event correlation (modules/processor/evcorr/pm_evcorr.c)

    A list of rules is applied to every record.  The rules keep the times of earlier
    matches, one for each value of a context expression if they have one.  These data are
    behind pointers, [c_data]; absence rules also have events that fire when the
    required record did not come, [c_events]. *)

From stdpp Require Import functions.
From S2P Require Import Prelude Dlist Str Value Serialize Logdata Expr.
Import Str Value Serialize Logdata Expr.



Module Evcorr.

Section evcorr.
Context `{H : Host} `{M : Malloc} `{E : ValueEnv} {PC : Pcre} {ST : Stale} {X : Type}.

Abbreviation expr := (@expr X).
Abbreviation stmt := (@stmt X).
Abbreviation ectx := (@ectx X).
Abbreviation block := (list stmt).

(** ** Data *)

(** The context of a rule: the expression, and the table from its values to the data. *)
Abbreviation context := (option (expr * gmap bytes loc)).

(** [nx_pm_evcorr_rule_t]: each kind of rule has the members of its part of the union;
    intervals are in seconds.  The address is that of the data used without a context. *)
Inductive nx_pm_evcorr_rule :=
| SIMPLE (exec : block)
| SUPPRESSED (matched : loc) (c : context) (cond : expr) (interval : Z) (exec : block)
| PAIR (matched : loc) (c : context) (triggercond requiredcond : expr) (interval : Z) (exec : block)
| ABSENCE (data : loc) (c : context) (triggercond requiredcond : expr) (interval : Z) (exec : block)
| THRESHOLDED (data : loc) (c : context) (cond : expr) (threshold interval : Z) (exec : block)
| STOP (cond : expr) (exec : option block).

(** What the rules keep: a time; [nx_pm_evcorr_rule_absence_data_t], where [rule] is the
    position of the rule; [nx_pm_evcorr_rule_thresholded_data_t], where the list has as
    many elements as its block and those that were not written are [None]. *)
Inductive data :=
| DTime (matched : Z)
| DAbsence (rule : option nat) (event : option loc) (matched : Z)
| DThresholded (num_match matchlist_size : Z) (matchlist : option (list (option Z))).

(** The rules, the data, the events of absence rules with their times and the data they
    point to, the context of the evaluation, [modconf->timeval], and the time of the event for the cleanup. *)
Record state := State {
  c_rules : list nx_pm_evcorr_rule;
  c_data : gmap loc data;
  c_events : gmap loc (Z * loc);
  c_ctx : ectx;
  c_timeval : Z;
  c_cleanup : option Z
}.

Definition with_rules r (s : state) : state := State r (c_data s) (c_events s) (c_ctx s) (c_timeval s) (c_cleanup s).
Definition with_data d (s : state) : state := State (c_rules s) d (c_events s) (c_ctx s) (c_timeval s) (c_cleanup s).
Definition with_events e (s : state) : state := State (c_rules s) (c_data s) e (c_ctx s) (c_timeval s) (c_cleanup s).
Definition with_ctx x (s : state) : state := State (c_rules s) (c_data s) (c_events s) x (c_timeval s) (c_cleanup s).
Definition with_timeval t (s : state) : state := State (c_rules s) (c_data s) (c_events s) (c_ctx s) t (c_cleanup s).
Definition with_cleanup c (s : state) : state := State (c_rules s) (c_data s) (c_events s) (c_ctx s) (c_timeval s) c.

Abbreviation prog A := (cmd state A).

(** ** Access *)

Definition get_rule (i : nat) : prog nx_pm_evcorr_rule := fun s => (s, deref (c_rules s !! i) "rule").
Definition get_data (p : loc) : prog data := fun s => (s, deref (c_data s !! p) "data that were freed").
Definition put_data (p : loc) (d : data) : prog unit := fun s =>
  (with_data (<[p := d]> (c_data s)) s, Ret tt).
Definition put_rule (i : nat) (r : nx_pm_evcorr_rule) : prog unit := fun s =>
  (with_rules (<[i := r]> (c_rules s)) s, Ret tt).
Definition put_timeval (t : Z) : prog unit := fun s => (with_timeval t s, Ret tt).

Definition get_time (p : loc) : prog Z := d ← get_data p; match d with DTime t => mret t | _ => lift (Undef "data of another rule") end.
Definition get_absence (p : loc) : prog (option nat * option loc * Z) :=
  d ← get_data p; match d with DAbsence r e t => mret (r, e, t) | _ => lift (Undef "data of another rule") end.
Definition get_thresholded (p : loc) : prog (Z * Z * option (list (option Z))) :=
  d ← get_data p; match d with DThresholded n size l => mret (n, size, l) | _ => lift (Undef "data of another rule") end.

(** [calloc] and [free] *)
Definition alloc_data (d : data) : prog loc := fun s =>
  let p := fresh (dom (c_data s)) in (with_data (<[p := d]> (c_data s)) s, Ret p).
Definition free_data (p : loc) : prog unit := fun s =>
  match c_data s !! p with
  | Some _ => (with_data (delete p (c_data s)) s, Ret tt)
  | None => (s, Undef "free of data that are not allocated")
  end.

(** [nx_event_new] and [nx_event_add]; [nx_event_remove] and [nx_event_free]. *)
Definition add_event (time : Z) (p : loc) : prog loc := fun s =>
  let e := fresh (dom (c_events s)) in (with_events (<[e := (time, p)]> (c_events s)) s, Ret e).
Definition remove_event (e : loc) : prog unit := fun s =>
  match c_events s !! e with
  | Some _ => (with_events (delete e (c_events s)) s, Ret tt)
  | None => (s, Undef "event that was freed")
  end.

(** ** Expressions and statements *)

Definition in_ctx {A} (c : cmd ectx A) : prog A := fun s =>
  let '(x, r) := c (c_ctx s) in (with_ctx x s, r).
Definition get_ectx : prog ectx := fun s => (s, Ret (c_ctx s)).

Definition evaluate (e : expr) : prog value := in_ctx (on_value fresh_value (nx_expr_evaluate e)).
Definition execute (l : block) : prog unit := in_ctx (nx_expr_statement_list_execute l).

(** The type is boolean, the value defined and TRUE. *)
Definition is_true (v : value) : outcome bool :=
  if has_type NX_VALUE_TYPE_BOOLEAN v && defined v then b ← as_boolean (v_data v); Ret (b =? TRUE) else Ret false.

(** A condition, whose value is not released. *)
Definition condition (e : expr) : prog bool := v ← evaluate e; lift (is_true v).

(** ** Contexts *)

(** The bytes of an integer in memory. *)
Definition memory_of (n : nat) (z : Z) : bytes := if APR_IS_BIGENDIAN then reverse (le n z) else le n z.

(** The key of a value in a table.  For the other types [key] is still NULL when the
    table is searched. *)
Definition context_key (v : value) : outcome bytes :=
  match v_type v with
  | NX_VALUE_TYPE_STRING => as_string (v_data v)
  | NX_VALUE_TYPE_INTEGER => z ← as_integer (v_data v); Ret (memory_of 8 z)
  | NX_VALUE_TYPE_DATETIME => t ← as_datetime (v_data v); Ret (memory_of 8 t)
  | NX_VALUE_TYPE_BOOLEAN => b ← as_boolean (v_data v); Ret (memory_of 4 b)
  | NX_VALUE_TYPE_IP4ADDR => as_ip4addr (v_data v)
  | NX_VALUE_TYPE_IP6ADDR => as_ip6addr (v_data v)
  | _ => _ ← Value.nx_value_to_string v; Undef "the key NULL is read"
  end.

Definition context_of (r : nx_pm_evcorr_rule) : context :=
  match r with
  | SUPPRESSED _ c _ _ _ | PAIR _ c _ _ _ _ | ABSENCE _ c _ _ _ _ | THRESHOLDED _ c _ _ _ _ => c
  | SIMPLE _ | STOP _ _ => None
  end.
Definition set_context (c : context) (r : nx_pm_evcorr_rule) : nx_pm_evcorr_rule :=
  match r with
  | SUPPRESSED p _ cond n exec => SUPPRESSED p c cond n exec
  | PAIR p _ t q n exec => PAIR p c t q n exec
  | ABSENCE p _ t q n exec => ABSENCE p c t q n exec
  | THRESHOLDED p _ cond k n exec => THRESHOLDED p c cond k n exec
  | SIMPLE _ | STOP _ _ => r
  end.

(** [apr_hash_set]; [None] deletes the key. *)
Definition hash_set (i : nat) (key : bytes) (p : option loc) : prog unit :=
  r ← get_rule i;
  match context_of r with
  | Some (e, t) => put_rule i (set_context (Some (e, partial_alter (fun _ => p) key t)) r)
  | None => lift (Undef "no table")
  end.

(** The data of the value, which are created with the contents [zero]; the second
    component is [hkey], which is only set when they are created. *)
Definition get_context_hashval (i : nat) (context_expr : expr) (zero : data) : prog (option loc * option bytes) :=
  v ← evaluate context_expr;
  if defined v then
    key ← lift (context_key v);
    r ← get_rule i;
    match context_of r with
    | None => lift (Undef "no table")
    | Some (_, t) =>
        '(p, hkey) ← (match t !! key with
          | Some p => mret (p, None)
          | None => p ← alloc_data zero; _ ← hash_set i key (Some p); mret (p, Some key)
          end);
        _ ← lift (kill v);
        mret (Some p, hkey)
    end
  else
    _ ← lift (kill v);
    mret (None, None).

(** The data of a rule: those of the context, or else [own]. *)
Definition data_of (i : nat) (c : context) (own : loc) (zero : data) : prog (loc * option bytes) :=
  match c with
  | None => mret (own, None)
  | Some (e, _) => '(p, hkey) ← get_context_hashval i e zero; mret (default own p, hkey)
  end.

(** ** The rules *)

(** [*matched + interval * APR_USEC_PER_SEC] *)
Definition until (matched interval : Z) : outcome Z := add_seconds matched interval.

Definition process_suppressed (timeval : Z) (i : nat) (own : loc) (c : context) (cond : expr) (interval : Z) (exec : block) : prog unit :=
  b ← condition cond;
  if (b : bool) then
    '(p, _) ← data_of i c own (DTime 0);
    matched ← get_time p;
    again ← (if matched =? 0 then mret true else t ← lift (until matched interval); mret (t <=? timeval));
    if (again : bool) then _ ← put_data p (DTime timeval); execute exec else mret tt
  else mret tt.

(** The entry that was created for this record is removed again; the code uses the
    member [absence] of the union, whose table is at the place of the expression. *)
Definition pair_free (hkey : option bytes) : prog unit :=
  match hkey with Some _ => lift (Undef "an expression is used as a table") | None => mret tt end.

Definition process_pair (timeval : Z) (i : nat) (own : loc) (c : context) (triggercond requiredcond : expr) (interval : Z) (exec : block) : prog unit :=
  '(p, hkey) ← data_of i c own (DTime 0);
  matched ← get_time p;
  if 0 <? matched then
    v ← evaluate requiredcond;
    b ← lift (is_true v);
    if (b : bool) then
      within ← (if interval =? 0 then mret true else t ← lift (until matched interval); mret (timeval <? t));
      _ ← (if (within : bool) then _ ← put_data p (DTime 0); _ ← execute exec; pair_free hkey else mret tt);
      lift (kill v)
    else
      v ← evaluate triggercond;
      b ← lift (is_true v);
      _ ← (if (b : bool) then put_data p (DTime timeval) else mret tt);
      lift (kill v)
  else
    v ← evaluate triggercond;
    b ← lift (is_true v);
    _ ← (if (b : bool) then put_data p (DTime timeval) else mret tt);
    lift (kill v).

(** The entry that was created for this record is removed. *)
Definition absence_free (i : nat) (p : loc) (hkey : option bytes) : prog unit :=
  match hkey with Some key => _ ← hash_set i key None; free_data p | None => mret tt end.

(** The pending event is removed. *)
Definition absence_cancel (p : loc) : prog unit :=
  '(rule, event, matched) ← get_absence p;
  match event with
  | Some e => _ ← remove_event e; put_data p (DAbsence rule None matched)
  | None => mret tt
  end.

Definition absence_set_matched (p : loc) (t : Z) : prog unit :=
  '(rule, event, _) ← get_absence p; put_data p (DAbsence rule event t).

Definition process_absence (now timeval : Z) (i : nat) (own : loc) (c : context) (triggercond requiredcond : expr) (interval : Z) (exec : block) : prog unit :=
  '(p, hkey) ← data_of i c own (DAbsence None None 0);
  '(rule, event, matched) ← get_absence p;
  _ ← lift (ASSERT (bool_decide (rule = None) || bool_decide (rule = Some i)) "(absence->rule == NULL) || (absence->rule == rule)");
  _ ← put_data p (DAbsence (Some i) event matched);
  if 0 <? matched then
    t ← lift (until matched interval);
    if t <? timeval then
      _ ← absence_set_matched p 0;
      _ ← execute exec;
      _ ← absence_cancel p;
      absence_free i p hkey
    else
      v ← evaluate requiredcond;
      b ← lift (is_true v);
      _ ← (if (b : bool) then
             if timeval <? t then _ ← absence_set_matched p 0; _ ← absence_cancel p; absence_free i p hkey else mret tt
           else mret tt);
      lift (kill v)
  else
    v ← evaluate triggercond;
    b ← lift (is_true v);
    _ ← (if (b : bool) then
           _ ← absence_set_matched p timeval;
           '(rule, event, matched) ← get_absence p;
           _ ← lift (ASSERT (bool_decide (event = None)) "absence->event == NULL");
           time ← lift (add_seconds now interval);
           e ← add_event time p;
           put_data p (DAbsence rule (Some e) matched)
         else mret tt);
    lift (kill v).

Definition NX_PM_EVCORR_DEFAULT_THRESHOLDED_WINDOW_SIZE : Z := 100.

(** Elements of a block. *)
Definition block_load (l : list (option Z)) (i : Z) : outcome Z :=
  if (0 <=? i) && (i <? zlen l) then t ← deref (l !! Z.to_nat i) "matchlist"; deref t "uninitialised element of the matchlist"
  else Undef "read outside the matchlist".
Definition block_store (l : list (option Z)) (i t : Z) : outcome (list (option Z)) :=
  if (0 <=? i) && (i <? zlen l) then Ret (<[Z.to_nat i := Some t]> l) else Undef "write outside the matchlist".
Definition block_resize (l : list (option Z)) (n : Z) : list (option Z) := take (Z.to_nat n) l ++ replicate (Z.to_nat n - length l) None.
(** [memmove(l, &l[i], n)] *)
Definition block_move (l : list (option Z)) (i n : Z) : outcome (list (option Z)) :=
  if (0 <=? n) && (i + n <=? zlen l) then Ret (take (Z.to_nat n) (drop (Z.to_nat i) l) ++ drop (Z.to_nat n) l) else Undef "memmove outside the matchlist".

(** The number of matches at the front that are older than the interval. *)
Fixpoint count_expired (fuel : nat) (l : list (option Z)) (num_match timeval interval i : Z) : outcome Z :=
  if i <? num_match then
    match fuel with
    | O => Undef "out of fuel"
    | S fuel =>
        t ← block_load l i;
        t ← until t interval;
        if timeval <=? t then Ret i else count_expired fuel l num_match timeval interval (i + 1)
    end
  else Ret i.

(** Expired matches are removed when the list gets long. *)
Definition shrink (threshold timeval interval : Z) (d : Z * Z * list (option Z)) : outcome (Z * Z * list (option Z)) :=
  let '(n, size, l) := d in
  if (threshold <=? n + 1) || (size <=? n + 1) then
    i ← count_expired (Z.to_nat n) l n timeval interval 0;
    if 0 <? i then
      l ← block_move l i (n - i);
      let n := n - i in
      if (n <? size / 2) && (NX_PM_EVCORR_DEFAULT_THRESHOLDED_WINDOW_SIZE <? size)
      then Ret (n, size, block_resize l (size / 2)) else Ret (n, size, l)
    else Ret (n, size, l)
  else Ret (n, size, l).

Definition grow (d : Z * Z * list (option Z)) : Z * Z * list (option Z) :=
  let '(n, size, l) := d in
  if size <=? n + 1 then (n, size * 3 / 2, block_resize l (size * 3 / 2)) else (n, size, l).

(** A match at [timeval] is added. *)
Definition add_match (threshold timeval interval : Z) (d : Z * Z * option (list (option Z))) : outcome (Z * Z * list (option Z)) :=
  let '(n, size, l) := d in
  let d := match l with
    | None => (0, NX_PM_EVCORR_DEFAULT_THRESHOLDED_WINDOW_SIZE, replicate (Z.to_nat NX_PM_EVCORR_DEFAULT_THRESHOLDED_WINDOW_SIZE) None)
    | Some l => (n, size, l)
    end in
  d ← shrink threshold timeval interval d;
  let '(n, size, l) := grow d in
  l ← block_store l n timeval;
  Ret (n + 1, size, l).

(** The condition holds. *)
Definition thresholded_match (timeval : Z) (p : loc) (threshold interval : Z) (exec : block) : prog unit :=
  d ← get_thresholded p;
  '(n, size, l) ← lift (add_match threshold timeval interval d);
  _ ← put_data p (DThresholded n size (Some l));
  if threshold <=? n then execute exec else mret tt.

Definition process_thresholded (timeval : Z) (i : nat) (own : loc) (c : context) (cond : expr) (threshold interval : Z) (exec : block) : prog unit :=
  '(p, hkey) ← data_of i c own (DThresholded 0 0 None);
  v ← evaluate cond;
  b ← lift (is_true v);
  _ ← (if (b : bool) then thresholded_match timeval p threshold interval exec else mret tt);
  lift (kill v).

Definition process_stop (cond : expr) (exec : option block) : prog bool :=
  v ← evaluate cond;
  b ← lift (is_true v);
  _ ← (if (b : bool) then match exec with Some l => execute l | None => mret tt end else mret tt);
  _ ← lift (kill v);
  mret b.

Definition process_rule (now timeval : Z) (i : nat) (r : nx_pm_evcorr_rule) : prog bool :=
  match r with
  | SIMPLE exec => _ ← execute exec; mret false
  | SUPPRESSED p c cond n exec => _ ← process_suppressed timeval i p c cond n exec; mret false
  | PAIR p c t q n exec => _ ← process_pair timeval i p c t q n exec; mret false
  | ABSENCE p c t q n exec => _ ← process_absence now timeval i p c t q n exec; mret false
  | THRESHOLDED p c cond k n exec => _ ← process_thresholded timeval i p c cond k n exec; mret false
  | STOP cond exec => process_stop cond exec
  end.

(** The rules from the [i]th on, until one stops or drops the record. *)
Fixpoint process_rules (now timeval : Z) (i : nat) (rules : list nx_pm_evcorr_rule) : prog unit :=
  match rules with
  | [] => mret tt
  | _ :: rest =>
      r ← get_rule i;
      stop ← process_rule now timeval i r;
      x ← get_ectx;
      match x_logdata x with
      | None => mret tt
      | Some _ => if (stop : bool) then mret tt else process_rules now timeval (S i) rest
      end
  end.

(** [modconf->timefield] *)
Variable timefield : option bytes.

Definition get_timeval (now : Z) (logdata : alist) : outcome Z :=
  match timefield with
  | None => Ret now
  | Some f =>
      match alist_get f logdata with
      | Some v => if defined v && has_type NX_VALUE_TYPE_DATETIME v then as_datetime (v_data v) else Ret now
      | None => Ret now
      end
  end.

(** [nx_expr_eval_ctx_init] *)
Definition nx_expr_eval_ctx_init (logdata : alist) : prog unit := fun s =>
  (with_ctx (Ectx (Some logdata) [] false (x_env (c_ctx s))) s, Ret tt).

(** The record that goes on to the next module, [None] if it was dropped. *)
Definition pm_evcorr_process (now : Z) (logdata : alist) : prog (option alist) :=
  _ ← nx_expr_eval_ctx_init logdata;
  timeval ← lift (get_timeval now logdata);
  _ ← put_timeval timeval;
  s ← get;
  _ ← process_rules now timeval 0 (c_rules s);
  x ← get_ectx;
  mret (x_logdata x).

(** ** Events *)

(** The event of an absence rule.  The context of the evaluation is not initialised: the
    captured strings and the flag are what was in memory. *)
Definition pm_evcorr_absence_event (captured : list bytes) (dropped : bool) (p : loc) : prog unit :=
  _ ← (fun s => (with_ctx (Ectx None captured dropped (x_env (c_ctx s))) s, Ret tt));
  '(rule, _, _) ← get_absence p;
  i ← lift (match rule with Some i => Ret i | None => Panic "absence->rule != NULL" end);
  r ← get_rule i;
  match r with
  | ABSENCE _ _ _ _ _ exec =>
      _ ← execute exec;
      '(rule, _, _) ← get_absence p;
      put_data p (DAbsence rule None 0)
  | _ => lift (Undef "union member absence")
  end.

(** The scheduler takes the event and frees it when it was processed. *)
Definition fire (captured : list bytes) (dropped : bool) (e : loc) : prog unit := fun s =>
  match c_events s !! e with
  | Some (_, p) => (_ ← remove_event e; pm_evcorr_absence_event captured dropped p) s
  | None => (s, Undef "event that was freed")
  end.

(** ** Cleanup *)

Definition free_hash_item (i : nat) (key : bytes) (p : loc) : prog unit := _ ← hash_set i key None; free_data p.

(** The loops over a table: [old] tells whether an entry has expired, [release] frees what
    its data own. *)
Fixpoint clean_entries (i : nat) (clearall : bool) (old : data -> outcome bool) (release : loc -> prog unit) (l : list (bytes * loc)) : prog unit :=
  match l with
  | [] => mret tt
  | (key, p) :: l =>
      d ← get_data p;
      b ← (if clearall then mret true else lift (old d));
      _ ← (if (b : bool) then _ ← release p; free_hash_item i key p else mret tt);
      clean_entries i clearall old release l
  end.

Definition expired (matched interval timeval : Z) : outcome bool := t ← until matched interval; Ret (t <=? timeval).

Definition suppressed_old (interval timeval : Z) (d : data) : outcome bool :=
  match d with DTime m => expired m interval timeval | _ => Undef "data of another rule" end.
Definition pair_old (interval timeval : Z) (d : data) : outcome bool :=
  match d with DTime m => if 0 <? interval then expired m interval timeval else Ret false | _ => Undef "data of another rule" end.
Definition absence_old (interval timeval : Z) (d : data) : outcome bool :=
  match d with DAbsence _ _ m => expired m interval timeval | _ => Undef "data of another rule" end.
(** The last match; a list without a match is read before its start. *)
Definition thresholded_old (interval timeval : Z) (d : data) : outcome bool :=
  match d with
  | DThresholded n _ (Some l) => m ← block_load l (n - 1); expired m interval timeval
  | DThresholded _ _ None => Ret false
  | _ => Undef "data of another rule"
  end.

(** The list of matches is freed, but neither the number of matches nor, in contexts,
    the size is reset. *)
Definition free_matchlist (p : loc) : prog unit :=
  '(n, size, _) ← get_thresholded p; put_data p (DThresholded n size None).

Definition clean_rule (clearall : bool) (i : nat) (r : nx_pm_evcorr_rule) : prog unit :=
  s ← get;
  match r with
  | SIMPLE _ | STOP _ _ => mret tt
  | SUPPRESSED _ (Some (_, t)) _ n _ => clean_entries i clearall (suppressed_old n (c_timeval s)) (fun _ => mret tt) (map_to_list t)
  | SUPPRESSED _ None _ _ _ => mret tt
  | PAIR _ (Some (_, t)) _ _ n _ => clean_entries i clearall (pair_old n (c_timeval s)) (fun _ => mret tt) (map_to_list t)
  | PAIR _ None _ _ _ _ => mret tt
  | ABSENCE _ (Some (_, t)) _ _ n _ => clean_entries i clearall (absence_old n (c_timeval s)) absence_cancel (map_to_list t)
  | ABSENCE p None _ _ _ _ =>
      '(_, event, _) ← get_absence p;
      match event with Some e => remove_event e | None => mret tt end
  | THRESHOLDED _ (Some (_, t)) _ _ n _ => clean_entries i clearall (thresholded_old n (c_timeval s)) free_matchlist (map_to_list t)
  | THRESHOLDED p None _ _ _ _ =>
      '(n, _, l) ← get_thresholded p;
      match l with Some _ => put_data p (DThresholded n 0 None) | None => mret tt end
  end.

Fixpoint clean_from (clearall : bool) (i : nat) (rules : list nx_pm_evcorr_rule) : prog unit :=
  match rules with
  | [] => mret tt
  | _ :: rest => r ← get_rule i; _ ← clean_rule clearall i r; clean_from clearall (S i) rest
  end.

Definition pm_evcorr_clean_rules (clearall : bool) : prog unit := s ← get; clean_from clearall 0 (c_rules s).

(** [modconf->context_cleantime] *)
Variable context_cleantime : Z.

Definition pm_evcorr_add_cleanup_event (now : Z) : prog unit :=
  if 0 <? context_cleantime then
    s ← get;
    _ ← lift (ASSERT (bool_decide (c_cleanup s = None)) "modconf->cleanup_event == NULL");
    t ← lift (add_seconds now context_cleantime);
    put (with_cleanup (Some t) s)
  else mret tt.

Definition pm_evcorr_start (now : Z) : prog unit := pm_evcorr_add_cleanup_event now.

Definition pm_evcorr_stop : prog unit :=
  s ← get;
  _ ← put (with_cleanup None s);
  pm_evcorr_clean_rules true.

(** [pm_evcorr_event] for the event of the cleanup. *)
Definition pm_evcorr_cleanup (now : Z) : prog unit :=
  _ ← pm_evcorr_clean_rules false;
  s ← get;
  _ ← put (with_cleanup None s);
  pm_evcorr_add_cleanup_event now.

End evcorr.
End Evcorr.
