(* ===== verification/EvcorrSpec.v ===== *)
(** * Event correlation: properties

    What the rules do with the times of earlier matches, for a record and for a
    stream of records. *)

From stdpp Require Import functions.
From S2P Require Import Prelude Dlist Str Value Serialize Logdata Expr ExprTypes Evcorr.
Import Str Value Serialize Logdata Expr ExprTypes Evcorr.

Module EvcorrSpec.

Section spec.
Context `{H : Host} `{M : Malloc} `{E : ValueEnv} {PC : Pcre} {ST : Stale} {X : Type}.

Abbreviation rule := (@nx_pm_evcorr_rule X).
Abbreviation state := (@state X).
Abbreviation ectx := (@ectx X).
Abbreviation expr := (@expr X).

(** ** Evaluation *)

(** In the context [x], the condition [e] is [b] and leaves the context [x']. *)
Definition holds (e : expr) (x : ectx) (b : bool) (x' : ectx) : Prop :=
  exists v, on_value fresh_value (nx_expr_evaluate e) x = (x', Ret v) /\ is_true v = Ret b /\ kill v = Ret tt.

(** The value of [e] has the key [k], or is undefined. *)
Definition keyed (e : expr) (x : ectx) (k : option bytes) (x' : ectx) : Prop :=
  exists v, on_value fresh_value (nx_expr_evaluate e) x = (x', Ret v) /\ kill v = Ret tt /\
    match k with Some key => defined v = true /\ context_key v = Ret key | None => defined v = false end.

Definition executes (l : list (@stmt X)) (x x' : ectx) : Prop := nx_expr_statement_list_execute l x = (x', Ret tt).

Lemma evaluate_run (e : expr) s x' v : on_value fresh_value (nx_expr_evaluate e) (c_ctx s) = (x', Ret v) -> evaluate e s = (with_ctx x' s, Ret v).
Proof. unfold evaluate, in_ctx. by intros ->. Qed.

Lemma execute_run l s x' : executes l (c_ctx s) x' -> execute l s = (with_ctx x' s, Ret tt).
Proof. unfold execute, in_ctx. by intros ->. Qed.

(** A condition that is evaluated, used by [f] and released. *)
Lemma holds_run (e : expr) s b x' (f : bool -> cmd state unit) s' : holds e (c_ctx s) b x' -> f b (with_ctx x' s) = (s', Ret tt) ->
  (v ← evaluate e; b ← lift (is_true v); _ ← f b; lift (kill v)) s = (s', Ret tt).
Proof.
  intros (v & Ev & Eb & Ek) Hf. rewrite (cmd_bind_Ret _ _ _ _ _ (evaluate_run _ _ _ _ Ev)).
  rewrite (cmd_bind_Ret _ _ _ (with_ctx x' s) b) by (unfold lift; by rewrite Eb). rewrite (cmd_bind_Ret _ _ _ s' tt) by done. unfold lift. by rewrite Ek.
Qed.

(** Contexts with a record for which the expressions of a rule are well behaved. *)
Definition good_ctx (good : alist -> Prop) (x : ectx) : Prop := exists al, x_logdata x = Some al /\ good al.

(** ** Slots: where the data of a key are *)

Definition own_of (r : rule) : option loc :=
  match r with
  | SUPPRESSED p _ _ _ _ | PAIR p _ _ _ _ _ | ABSENCE p _ _ _ _ _ | THRESHOLDED p _ _ _ _ _ => Some p
  | SIMPLE _ | STOP _ _ => None
  end.

(** The address of the data that rule [i] has for the key [k]; [None] is the key of the
    data without a context. *)
Definition slot_of (r : rule) (k : option bytes) : option loc :=
  match k with
  | None => own_of r
  | Some key => match context_of r with Some (_, t) => t !! key | None => None end
  end.
Definition slot (s : state) (i : nat) (k : option bytes) : option loc := r ← c_rules s !! i; slot_of r k.
Definition entry (s : state) (i : nat) (k : option bytes) : option data := p ← slot s i k; c_data s !! p.

(** The data of different slots are different and allocated. *)
Record wf (s : state) : Prop := {
  wf_alloc i k p : slot s i k = Some p -> is_Some (c_data s !! p);
  wf_inj i k j k' p : slot s i k = Some p -> slot s j k' = Some p -> i = j /\ k = k'
}.

(** What does not change in a rule. *)
Definition template (r : rule) : rule :=
  match context_of r with Some (e, _) => set_context (Some (e, ∅)) r | None => r end.

(** What a step may change in the data: only those of rule [i] and key [k]. *)
Record only_slot (i : nat) (k : option bytes) (s s' : state) : Prop := {
  os_rules : map template (c_rules s') = map template (c_rules s);
  os_slots j k' : (j, k') <> (i, k) -> slot s' j k' = slot s j k';
  os_data j k' : (j, k') <> (i, k) -> entry s' j k' = entry s j k';
  os_timeval : c_timeval s' = c_timeval s;
  os_cleanup : c_cleanup s' = c_cleanup s
}.

Lemma only_slot_refl i k s : only_slot i k s s.
Proof using. by constructor. Qed.

Lemma only_slot_trans i k s1 s2 s3 : only_slot i k s1 s2 -> only_slot i k s2 s3 -> only_slot i k s1 s3.
Proof using.
  intros [A1 B1 C1 D1 F1] [A2 B2 C2 D2 F2]. constructor; [congruence| | |congruence..]; intros j k' Hn.
  - rewrite B2 by done. by apply B1.
  - rewrite C2 by done. by apply C1.
Qed.

Lemma only_slot_ctx i k s s' x : only_slot i k s s' -> only_slot i k s (with_ctx x s').
Proof using. by intros []; constructor. Qed.
Lemma only_slot_events i k s s' e : only_slot i k s s' -> only_slot i k s (with_events e s').
Proof using. by intros []; constructor. Qed.

Lemma wf_ctx s x : wf s -> wf (with_ctx x s).
Proof using. by intros []; constructor. Qed.
Lemma wf_events s e : wf s -> wf (with_events e s).
Proof using. by intros []; constructor. Qed.

(** New data in a slot. *)
Lemma put_slot s i k p d : wf s -> slot s i k = Some p ->
  let s' := with_data (<[p := d]> (c_data s)) s in wf s' /\ slot s' i k = Some p /\ entry s' i k = Some d /\ only_slot i k s s'.
Proof using.
  intros [Ha Hi] Hp s'. assert (forall j k', slot s' j k' = slot s j k') as Hslot by done. split_and!.
  - constructor; [|done]. intros j k' q Hq. apply lookup_insert_is_Some'. destruct (Ha j k' q Hq); eauto.
  - done.
  - unfold entry. rewrite Hslot, Hp. apply lookup_insert_eq.
  - constructor; [done|done| |done..]. intros j k' Hn. unfold entry. rewrite Hslot. destruct (slot s j k') as [q|] eqn:Eq; [|done]. cbn [mbind option_bind].
    simpl. rewrite lookup_insert_ne; [done|]. intros ->. by destruct (Hi _ _ _ _ _ Hp Eq) as [-> ->].
Qed.

(** The template of a rule tells its kind. *)
Lemma template_context r e : (exists t, context_of r = Some (e, t)) <-> context_of (template r) = Some (e, ∅).
Proof using.
  unfold template. destruct (context_of r) as [[e' t]|] eqn:Ec.
  - destruct r; simpl in *; split; try done; intros; destruct_and?; naive_solver.
  - rewrite Ec. split; [intros [t Ht]; discriminate|done].
Qed.

Lemma template_at s r0 i r : map template (c_rules s) = r0 -> c_rules s !! i = Some r -> r0 !! i = Some (template r).
Proof using. intros <- Hr. rewrite list_lookup_fmap. by rewrite Hr. Qed.

(** What [data_of] finds depends on the context of the rule. *)
Definition key_of (c : option (expr * gmap bytes loc)) (x : ectx) (k : option bytes) (x' : ectx) : Prop :=
  match c with None => k = None /\ x' = x | Some (e, _) => keyed e x k x' end.

Definition set_table (e : expr) (t : gmap bytes loc) (r : rule) : rule := set_context (Some (e, t)) r.

Lemma set_table_facts e t t' r : context_of r = Some (e, t) ->
  context_of (set_table e t' r) = Some (e, t') /\ own_of (set_table e t' r) = own_of r /\ template (set_table e t' r) = template r.
Proof using. destruct r; simpl; intros [=]; subst; done. Qed.

(** A new key of rule [i]. *)
Lemma new_slot s i r e t key d : wf s -> c_rules s !! i = Some r -> context_of r = Some (e, t) -> t !! key = None ->
  let p := fresh (dom (c_data s)) in
  let s' := with_rules (<[i := set_table e (<[key := p]> t) r]> (c_rules s)) (with_data (<[p := d]> (c_data s)) s) in
  wf s' /\ slot s' i (Some key) = Some p /\ entry s' i (Some key) = Some d /\ only_slot i (Some key) s s'.
Proof using.
  intros [Ha Hi] Hr Hc Hk p s'. destruct (set_table_facts e t (<[key := p]> t) r Hc) as (Hc' & Ho & Ht).
  assert (i < length (c_rules s))%nat as Hl by (by eapply lookup_lt_Some).
  assert (forall j k, slot s' j k = if bool_decide ((j, k) = (i, Some key)) then Some p else slot s j k) as Hslot.
  { intros j k. unfold slot. simpl. destruct (decide (j = i)) as [->|Hn].
    - rewrite list_lookup_insert_eq by done. rewrite Hr. cbn [mbind option_bind]. destruct k as [k'|]; cbn [slot_of].
      + rewrite Hc', Hc. destruct (decide (k' = key)) as [->|Hk']; [by rewrite lookup_insert_eq, bool_decide_true|].
        rewrite lookup_insert_ne by done. rewrite bool_decide_false by congruence. done.
      + rewrite Ho. by rewrite bool_decide_false.
    - rewrite list_lookup_insert_ne by done. rewrite bool_decide_false by congruence. done. }
  assert (c_data s !! p = None) as Hp by (apply not_elem_of_dom, is_fresh).
  assert (forall j k, slot s j k <> Some p) as Hfresh by (intros j k Hs; destruct (Ha _ _ _ Hs); congruence).
  split_and!.
  - constructor.
    + intros j k q. rewrite Hslot. case_bool_decide; [intros [= <-]; simpl; rewrite lookup_insert_eq; eauto|].
      intros Hs. apply lookup_insert_is_Some'. destruct (Ha _ _ _ Hs); eauto.
    + intros j k j' k' q. rewrite !Hslot. repeat case_bool_decide; intros E1 E2; simplify_eq; try done; try (by destruct (Hfresh _ _ E1)); try (by destruct (Hfresh _ _ E2)). by eapply Hi.
  - by rewrite Hslot, bool_decide_true.
  - unfold entry. rewrite Hslot, bool_decide_true by done. apply lookup_insert_eq.
  - constructor; simpl; [|intros j k Hn; (rewrite Hslot; by rewrite bool_decide_false)| |done..].
    + rewrite list_fmap_insert, Ht. apply list_insert_id. rewrite list_lookup_fmap. by rewrite Hr.
    + intros j k Hn. unfold entry. rewrite Hslot, bool_decide_false by done. destruct (slot s j k) as [q|] eqn:Eq; [|done]. cbn [mbind option_bind].
      simpl. rewrite lookup_insert_ne; [done|]. intros ->. by eapply Hfresh.
Qed.

Lemma data_of_ok s i r own zero k x' : wf s -> c_rules s !! i = Some r -> own_of r = Some own -> key_of (context_of r) (c_ctx s) k x' ->
  exists s' p hk, data_of i (context_of r) own zero s = (s', Ret (p, hk)) /\ wf s' /\ slot s' i k = Some p /\
    entry s' i k = Some (default zero (entry s i k)) /\ only_slot i k s s' /\ c_ctx s' = x' /\ c_events s' = c_events s /\
    (hk <> None -> entry s i k = None) /\ (forall p', slot s i k = Some p' -> p' = p).
Proof.
  intros Hwf Hr Ho Hk. unfold data_of. destruct (context_of r) as [[e t]|] eqn:Ec; simpl in Hk.
  2:{ destruct Hk as [-> ->]. assert (slot s i None = Some own) as Hs by (unfold slot; by rewrite Hr).
      exists s, own, None. split_and!; [done|done|done| |apply only_slot_refl|done|done|done|intros p'; rewrite Hs; congruence]. unfold entry. rewrite Hs. cbn [mbind option_bind].
      by destruct (wf_alloc s Hwf _ _ _ Hs) as [d ->]. }
  destruct Hk as (v & Ev & Ekill & Hv). unfold get_context_hashval.
  set (s1 := with_ctx x' s). assert (wf s1) as Hwf1 by (by apply wf_ctx).
  assert (only_slot i k s s1) as Hos1 by (apply only_slot_ctx, only_slot_refl).
  assert (forall (f : value -> cmd state (option loc * option bytes)) r', f v s1 = r' -> (v ← evaluate e; f v) s = r') as Heval
    by (intros f r' <-; by rewrite (cmd_bind_Ret _ _ _ _ _ (evaluate_run _ _ _ _ Ev))).
  assert (forall s' r', (_ ← lift (kill v); mret r' : cmd state (option loc * option bytes)) s' = (s', Ret r')) as Hkill
    by (intros s' r'; unfold lift, mbind, cmd_bind; by rewrite Ekill).
  destruct k as [key|]; [destruct Hv as [Hd Hkey]|].
  - destruct (t !! key) as [p|] eqn:Et.
    + assert (slot s1 i (Some key) = Some p) as Hs by (unfold slot; simpl; rewrite Hr; simpl; by rewrite Ec).
      exists s1, p, None. split_and!; [|done|done| |done|done|done|done|change (slot s i (Some key)) with (slot s1 i (Some key)); intros p'; rewrite Hs; congruence].
      * rewrite (cmd_bind_Ret _ _ s s1 (Some p, None)); [done|]. apply Heval. rewrite Hd, Hkey. erewrite cmd_bind_Ret by reflexivity. rewrite (cmd_bind_Ret _ _ s1 s1 r) by (unfold get_rule; simpl; by rewrite Hr).
        rewrite Ec, Et. erewrite cmd_bind_Ret by reflexivity. apply Hkill.
      * unfold entry. rewrite Hs. change (slot s i (Some key)) with (slot s1 i (Some key)). rewrite Hs. cbn [mbind option_bind]. destruct (wf_alloc s1 Hwf1 _ _ _ Hs) as [d Hd1]. change (c_data s1) with (c_data s) in *. by rewrite Hd1.
    + destruct (new_slot s1 i r e t key zero Hwf1 Hr Ec Et) as (Hwf2 & Hs2 & He2 & Ho2). set (p := fresh (dom (c_data s1))) in *.
      assert (entry s i (Some key) = None) as Hnone by (unfold entry, slot; rewrite Hr; simpl; by rewrite Ec, Et).
      set (s2 := with_rules (<[i := set_table e (<[key := p]> t) r]> (c_rules s1)) (with_data (<[p := zero]> (c_data s1)) s1)) in *.
      exists s2, p, (Some key). split_and!; [|exact Hwf2|exact Hs2|by rewrite Hnone|by eapply only_slot_trans|done|done|done|intros p'; unfold slot; rewrite Hr; simpl; rewrite Ec, Et; done].
      rewrite (cmd_bind_Ret _ _ s s2 (Some p, Some key)); [done|]. apply Heval. rewrite Hd, Hkey. erewrite cmd_bind_Ret by reflexivity. rewrite (cmd_bind_Ret _ _ s1 s1 r) by (unfold get_rule; simpl; by rewrite Hr).
      rewrite Ec, Et. rewrite (cmd_bind_Ret _ _ s1 s2 (p, Some key)); [apply Hkill|]. erewrite cmd_bind_Ret by reflexivity. fold p. rewrite (cmd_bind_Ret _ _ _ s2 tt); [done|].
      unfold hash_set. rewrite (cmd_bind_Ret _ _ _ _ r) by (unfold get_rule; simpl; by rewrite Hr). rewrite Ec. reflexivity.
  - assert (slot s1 i None = Some own) as Hs by (unfold slot; simpl; by rewrite Hr).
    exists s1, own, None. split_and!; [|done|done| |done|done|done|done|change (slot s i None) with (slot s1 i None); intros p'; rewrite Hs; congruence].
    + rewrite (cmd_bind_Ret _ _ s s1 (None, None)); [done|]. apply Heval. rewrite Hv. apply Hkill.
    + unfold entry. rewrite Hs. change (slot s i None) with (slot s1 i None). rewrite Hs. cbn [mbind option_bind]. destruct (wf_alloc s1 Hwf1 _ _ _ Hs) as [d Hd1]. change (c_data s1) with (c_data s) in *. by rewrite Hd1.
Qed.

(** ** A stream of records *)

Definition ascending (ms : list Z) : Prop := forall i j a b, (i <= j)%nat -> ms !! i = Some a -> ms !! j = Some b -> a <= b.

Lemma ascending_snoc ms t : ascending ms -> Forall (fun m => m <= t) ms -> ascending (ms ++ [t]).
Proof using.
  intros Ha Ht i j a b Hij Hi Hj. apply lookup_app_Some in Hi as [Hi|[Hi Hi']].
  - apply lookup_app_Some in Hj as [Hj|[Hj Hj']]; [by eapply Ha|]. apply list_lookup_singleton_Some in Hj' as [_ ->]. by eapply Forall_lookup in Ht.
  - apply list_lookup_singleton_Some in Hi' as [Hi0 ->]. apply lookup_app_Some in Hj as [Hj|[Hj Hj']]; [apply lookup_lt_Some in Hj; lia|].
    apply list_lookup_singleton_Some in Hj' as [_ ->]. done.
Qed.

(** The times and contexts of the records that reach rule [i]; the contexts that it
    leaves. *)
Fixpoint feed (i : nat) (inputs : list (Z * ectx)) : cmd state (list ectx) :=
  match inputs with
  | [] => mret []
  | (t, x) :: inputs =>
      s ← get;
      _ ← put (with_ctx x s);
      r ← get_rule i;
      _ ← process_rule t t i r;
      y ← get_ectx;
      ys ← feed i inputs;
      mret (y :: ys)
  end.

Section stream.
Variable good : alist -> Prop.
(** The specification of a rule: the key of a record and what else is evaluated first
    ([Y]), the state [A] of a key, the state and context that a record of a time leads
    to, and when the specification may be used. *)
Context {A Y : Type} (key_f : ectx -> Y * option bytes) (step : Z -> A -> Y -> A * ectx) (allowed : Z -> A -> Y -> Prop).
(** How the data represent the state at a time. *)
Variable represents : Z -> A -> option data -> Prop.

Fixpoint outputs (st : option bytes -> A) (inputs : list (Z * ectx)) : list ectx :=
  match inputs with
  | [] => []
  | (t, x) :: inputs =>
      let '(x1, k) := key_f x in
      let '(a, y) := step t (st k) x1 in
      y :: outputs (<[k := a]> st) inputs
  end.

Fixpoint all_allowed (st : option bytes -> A) (inputs : list (Z * ectx)) : Prop :=
  match inputs with
  | [] => True
  | (t, x) :: inputs =>
      let '(x1, k) := key_f x in
      allowed t (st k) x1 /\ all_allowed (<[k := fst (step t (st k) x1)]> st) inputs
  end.

Definition does_step (i : nat) (r0 : rule) : Prop := forall s r T t a k x1,
  wf s -> c_rules s !! i = Some r -> template r = template r0 -> T <= t -> good_ctx good (c_ctx s) -> key_f (c_ctx s) = (x1, k) ->
  represents T a (entry s i k) -> allowed t a x1 ->
  exists s', process_rule t t i r s = (s', Ret false) /\ wf s' /\ only_slot i k s s' /\
    represents t (fst (step t a x1)) (entry s' i k) /\ c_ctx s' = snd (step t a x1).

Hypothesis represents_later : forall T t a d, T <= t -> represents T a d -> represents t a d.

Lemma feed_ok i r0 : does_step i r0 -> forall inputs s r T st, wf s -> c_rules s !! i = Some r -> template r = template r0 ->
  (forall k, represents T (st k) (entry s i k)) -> ascending (T :: map fst inputs) -> Forall (fun tx => good_ctx good (snd tx)) inputs -> all_allowed st inputs ->
  exists s', feed i inputs s = (s', Ret (outputs st inputs)).
Proof using represents_later.
  intros Hstep. induction inputs as [|[t x] inputs IH]; intros s r T st Hwf Hr Ht Hrep Hasc Hgood Hall; [by exists s|]. apply Forall_cons in Hgood as [Hgood Hgoods].
  cbn [feed outputs all_allowed] in *. destruct (key_f x) as [x1 k] eqn:Ek. destruct Hall as [Hal Hall].
  assert (T <= t) as HT by (by apply (Hasc 0%nat 1%nat T t); [lia|..]).
  assert (ascending (t :: map fst inputs)) as Hasc' by (intros a b u v Hab Hu Hv; by apply (Hasc (S a) (S b) u v); [lia|..]).
  destruct (Hstep (with_ctx x s) r T t (st k) k x1) as (s1 & E1 & Hwf1 & Ho1 & Hrep1 & Hx1); [by apply wf_ctx|done|done|done|done|done|by apply Hrep|done|].
  destruct (step t (st k) x1) as [a y]. cbn [fst snd] in *.
  assert (exists r1, c_rules s1 !! i = Some r1 /\ template r1 = template r0) as (r1 & Hr1 & Ht1).
  { pose proof (os_rules _ _ _ _ Ho1) as Hm. assert (map template (c_rules s1) !! i = Some (template r)) as Hl by (rewrite Hm; exact (template_at s _ i r eq_refl Hr)).
    rewrite list_lookup_fmap in Hl. destruct (c_rules s1 !! i) as [r1|]; [|done]. injection Hl as Hl. exists r1. split; [done|congruence]. }
  destruct (IH s1 r1 t (<[k := a]> st) Hwf1 Hr1 Ht1) as (s2 & E2); [|done|done|done|].
  { intros k'. destruct (decide (k' = k)) as [->|Hn].
    - by rewrite fn_lookup_insert.
    - rewrite fn_lookup_insert_ne by done. rewrite (os_data _ _ _ _ Ho1) by congruence. by eapply represents_later. }
  exists s2. erewrite cmd_bind_Ret by reflexivity. erewrite cmd_bind_Ret by reflexivity. rewrite (cmd_bind_Ret _ _ _ (with_ctx x s) r) by (unfold get_rule; simpl; by rewrite Hr).
  rewrite (cmd_bind_Ret _ _ _ _ _ E1). rewrite (cmd_bind_Ret _ _ s1 s1 y) by (unfold get_ectx; by rewrite Hx1). by rewrite (cmd_bind_Ret _ _ _ _ _ E2).
Qed.

End stream.

(** ** Thresholded rules *)

Definition usec (interval : Z) : Z := interval * APR_USEC_PER_SEC.

(** The number of the times [ms] that are not older than the interval at [t]. *)
Definition in_window (interval t : Z) (ms : list Z) : Z := zlen (filter (fun m => t <= m + usec interval) ms).

(** Times at which nothing overflows. *)
Definition time_ok (interval t : Z) : Prop := 0 <= t /\ t + usec interval < 2 ^ 63.

Lemma until_ok t interval : 0 <= interval < 2 ^ 32 -> time_ok interval t -> until t interval = Ret (t + usec interval).
Proof using.
  intros Hi [Ht Hu]. unfold until, add_seconds, long, usec, APR_USEC_PER_SEC in *.
  rewrite (proj2 (Z.leb_le _ (interval * 1000000))), (proj2 (Z.ltb_lt (interval * 1000000) _)) by lia. cbn [andb mbind outcome_bind].
  by rewrite (proj2 (Z.leb_le _ (t + interval * 1000000))), (proj2 (Z.ltb_lt (t + interval * 1000000) _)) by lia.
Qed.

Section thresholded.
Variables threshold interval : Z.
Hypothesis interval_ok : 0 <= interval < 2 ^ 32.

(** The matches [ms], the last of which was not after [T], in the data of a rule: the
    list has all but some expired ones. *)
Inductive matches_in (T : Z) : list Z -> Z * Z * option (list (option Z)) -> Prop :=
| matches_none n size : matches_in T [] (n, size, None)
| matches_some ms j n l : n = Z.of_nat (length ms - j) -> (j <= length ms)%nat -> zlen l = NX_PM_EVCORR_DEFAULT_THRESHOLDED_WINDOW_SIZE ->
    n < NX_PM_EVCORR_DEFAULT_THRESHOLDED_WINDOW_SIZE ->
    take (Z.to_nat n) l = map Some (drop j ms) -> Forall (fun m => m + usec interval < T) (take j ms) ->
    matches_in T ms (n, NX_PM_EVCORR_DEFAULT_THRESHOLDED_WINDOW_SIZE, Some l).

Lemma in_window_app t a b : in_window interval t (a ++ b) = in_window interval t a + in_window interval t b.
Proof using. unfold in_window. rewrite filter_app, length_app. lia. Qed.

Lemma in_window_expired t ms : Forall (fun m => m + usec interval < t) ms -> in_window interval t ms = 0.
Proof using.
  unfold in_window. induction 1 as [|m ms Hm _ IH]; [done|]. rewrite filter_cons_False by lia. done.
Qed.

Lemma in_window_le t ms : in_window interval t ms <= zlen ms.
Proof using. unfold in_window. pose proof (length_filter (fun m => t <= m + usec interval) ms). lia. Qed.

Lemma in_window_all t ms : Forall (fun m => t <= m + usec interval) ms -> in_window interval t ms = zlen ms.
Proof using. unfold in_window. induction 1 as [|m ms Hm _ IH]; [done|]. rewrite filter_cons_True by done. simpl. lia. Qed.

(** The loop stops at the first match that has not expired. *)
Lemma count_expired_ok t ms : forall l i fuel, Forall (time_ok interval) ms -> drop (Z.to_nat i) l = map Some ms ++ drop (Z.to_nat i + length ms) l -> 0 <= i ->
  (length ms <= fuel)%nat -> i + zlen ms <= zlen l ->
  exists e, count_expired fuel l (i + zlen ms) t interval i = Ret (i + Z.of_nat e) /\ (e <= length ms)%nat /\
    Forall (fun m => m + usec interval < t) (take e ms) /\ (forall m, drop e ms !! 0%nat = Some m -> t <= m + usec interval).
Proof using interval_ok.
  induction ms as [|m ms IH]; intros l i fuel Hok Hd Hi Hf Hl.
  - exists 0%nat. replace (i + zlen []) with i by (simpl; lia). split_and!; [|done|constructor|done]. destruct fuel; cbn [count_expired]; rewrite Z.ltb_irrefl; f_equal; lia.
  - apply Forall_cons in Hok as [Hm Hok]. cbn [length] in *. destruct fuel as [|fuel]; [lia|]. cbn [count_expired]. rewrite (proj2 (Z.ltb_lt i _)) by lia.
    assert (l !! Z.to_nat i = Some (Some m)) as Hli by (rewrite <- (Nat.add_0_r (Z.to_nat i)), <- lookup_drop; by rewrite Hd).
    assert (block_load l i = Ret m) as -> by (unfold block_load; rewrite (proj2 (Z.leb_le 0 i)), (proj2 (Z.ltb_lt i _)) by lia; simpl; by rewrite Hli).
    cbn [mbind outcome_bind]. rewrite until_ok by done. cbn [mbind outcome_bind]. destruct (Z.leb_spec t (m + usec interval)) as [Hle|Hgt].
    + exists 0%nat. split_and!; [f_equal; lia|lia|constructor|]. simpl. intros m' [= <-]. done.
    + destruct (IH l (i + 1) fuel Hok) as (e & He & Hle & Hex & Hfirst); [|lia..|].
      { replace (Z.to_nat (i + 1)) with (Z.to_nat i + 1)%nat by lia. rewrite <- drop_drop, Hd. simpl. rewrite drop_0. do 2 f_equal. lia. }
      exists (S e). replace (i + 1 + zlen ms) with (i + Z.of_nat (S (length ms))) in He by lia. split_and!; [rewrite He; f_equal; lia|lia| |done].
      simpl. constructor; [lia|done].
Qed.

Lemma ascending_rest t ms e : ascending ms -> (forall m, drop e ms !! 0%nat = Some m -> t <= m + usec interval) -> Forall (fun m => t <= m + usec interval) (drop e ms).
Proof using.
  intros Ha Hf. apply Forall_lookup. intros k m Hk. destruct (drop e ms !! 0%nat) as [m0|] eqn:E0.
  - specialize (Hf m0 eq_refl). rewrite lookup_drop in E0, Hk. assert (m0 <= m) by (eapply Ha; [|exact E0|exact Hk]; lia). lia.
  - apply lookup_ge_None in E0. apply lookup_lt_Some in Hk. lia.
Qed.

Lemma take_map_some {A} (l : list (option A)) (ms : list A) n : take n l = map Some ms -> length ms = n -> l = map Some ms ++ drop n l.
Proof using. intros <- _. symmetry. apply take_drop. Qed.

Lemma shrink_ok T t ms n l : 0 < NX_PM_EVCORR_DEFAULT_THRESHOLDED_WINDOW_SIZE -> T <= t -> ascending ms -> Forall (time_ok interval) ms ->
  matches_in T ms (n, NX_PM_EVCORR_DEFAULT_THRESHOLDED_WINDOW_SIZE, Some l) ->
  exists n' l', shrink threshold t interval (n, NX_PM_EVCORR_DEFAULT_THRESHOLDED_WINDOW_SIZE, l) = Ret (n', NX_PM_EVCORR_DEFAULT_THRESHOLDED_WINDOW_SIZE, l') /\
    matches_in t ms (n', NX_PM_EVCORR_DEFAULT_THRESHOLDED_WINDOW_SIZE, Some l') /\
    (n' = in_window interval t ms \/ n' + 1 < threshold /\ n' + 1 < NX_PM_EVCORR_DEFAULT_THRESHOLDED_WINDOW_SIZE /\ in_window interval t ms <= n').
Proof using interval_ok.
  intros _ HT Ha Hok Hm. inversion Hm as [|ms' j n' l' En Hj Hl Hn Ht Hex]; subst ms' n' l'. unfold shrink. set (size := NX_PM_EVCORR_DEFAULT_THRESHOLDED_WINDOW_SIZE) in *.
  assert (in_window interval t ms = in_window interval t (drop j ms)) as Ew.
  { rewrite <- (take_drop j ms) at 1. rewrite in_window_app, in_window_expired; [lia|]. eapply Forall_impl; [exact Hex|]. simpl. intros m. lia. }
  assert (Forall (fun m => m + usec interval < t) (take j ms)) as Hex' by (eapply Forall_impl; [exact Hex|]; simpl; lia).
  assert (zlen (drop j ms) = n) as Hdn by (rewrite length_drop; lia).
  destruct ((threshold <=? n + 1) || (size <=? n + 1)) eqn:Etest.
  2:{ exists n, l. split_and!; [done|by econstructor|]. right. apply orb_false_iff in Etest as [H1%Z.leb_gt H2%Z.leb_gt].
      split_and!; [done|done|]. rewrite Ew. pose proof (in_window_le t (drop j ms)). lia. }
  destruct (count_expired_ok t (drop j ms) l 0 (Z.to_nat n)) as (e & Ee & He & Hexp & Hfirst).
  { by apply Forall_drop. } { change (Z.to_nat 0) with 0%nat. cbn [Nat.add]. rewrite drop_0. rewrite <- Ht. replace (length (drop j ms)) with (Z.to_nat n) by lia. by rewrite take_drop. }
  { done. } { lia. } { subst size. lia. }
  rewrite Z.add_0_l in Ee. rewrite Hdn in Ee. rewrite Ee. cbn [mbind outcome_bind].
  assert (n - Z.of_nat e = in_window interval t ms) as Hw.
  { rewrite Ew. rewrite <- (take_drop e (drop j ms)), in_window_app, in_window_expired by done.
    rewrite in_window_all; [rewrite length_drop; lia|]. rewrite drop_drop in *. by apply ascending_rest. }
  assert (Forall (fun m => m + usec interval < t) (take (j + e) ms)) as Hall.
  { rewrite <- (take_drop j ms). rewrite take_app_ge by (rewrite length_take; lia). rewrite length_take_le by done. replace (j + e - j)%nat with e by lia. by apply Forall_app. }
  destruct (Z.ltb_spec 0 (0 + Z.of_nat e)) as [H0|H0]; rewrite Z.add_0_l in *.
  - unfold block_move. rewrite (proj2 (Z.leb_le 0 (n - Z.of_nat e))), (proj2 (Z.leb_le (Z.of_nat e + _) _)) by (subst size; lia). cbn [andb mbind outcome_bind].
    change (size <? size) with false. rewrite andb_false_r. eexists _, _. split_and!; [done| |by left]. apply (matches_some t ms (j + e)); [lia|lia| |subst size; lia| |done].
    + rewrite length_app, length_take, !length_drop. subst size. lia.
    + rewrite take_app_le by (rewrite length_take, length_drop; subst size; lia). rewrite take_take, Nat.min_id. rewrite Nat2Z.id.
      rewrite <- drop_drop, <- skipn_map. rewrite <- Ht. rewrite skipn_firstn_comm. f_equal. lia.
  - assert (e = 0%nat) as -> by lia. exists n, l. split_and!; [done|by econstructor|left; lia].
Qed.

Definition small_window (t : Z) (ms : list Z) : Prop := in_window interval t (ms ++ [t]) < NX_PM_EVCORR_DEFAULT_THRESHOLDED_WINDOW_SIZE.

Lemma in_window_now t ms : in_window interval t (ms ++ [t]) = in_window interval t ms + 1.
Proof using interval_ok. rewrite in_window_app. unfold in_window at 2. rewrite filter_cons_True; [done|]. unfold usec, APR_USEC_PER_SEC. lia. Qed.

Lemma add_match_ok T t ms d : T <= t -> ascending ms -> Forall (time_ok interval) ms -> matches_in T ms d -> small_window t ms ->
  exists n' l', add_match threshold t interval d = Ret (n', NX_PM_EVCORR_DEFAULT_THRESHOLDED_WINDOW_SIZE, l') /\
    matches_in t (ms ++ [t]) (n', NX_PM_EVCORR_DEFAULT_THRESHOLDED_WINDOW_SIZE, Some l') /\ (threshold <=? n') = (threshold <=? in_window interval t (ms ++ [t])).
Proof using interval_ok.
  intros HT Ha Hok Hm Hw. unfold small_window in Hw. rewrite in_window_now in *. set (size := NX_PM_EVCORR_DEFAULT_THRESHOLDED_WINDOW_SIZE) in *.
  assert (exists n l, matches_in T ms (n, size, Some l) /\ add_match threshold t interval d =
    (d ← shrink threshold t interval (n, size, l); let '(n, size, l) := grow d in l ← block_store l n t; Ret (n + 1, size, l))) as (n & l & Hm1 & ->).
  { inversion Hm; subst; [|eexists _, _; split; [exact Hm|reflexivity]]. exists 0, (replicate (Z.to_nat size) None). split; [|done].
    apply (matches_some T [] 0); [reflexivity|reflexivity|reflexivity|reflexivity|reflexivity|constructor]. }
  destruct (shrink_ok T t ms n l ltac:(done) HT Ha Hok Hm1) as (n1 & l1 & Es & Hm2 & Hc). fold size in Es, Hm2, Hc. rewrite Es. cbn [mbind outcome_bind].
  inversion Hm2 as [|ms' j n' l' En Hj Hl Hn Ht Hex]; subst ms' n' l'. fold size in Hl, Hn. assert (n1 + 1 < size) as Hlt by (destruct Hc as [->|(_ & ? & _)]; lia).
  unfold grow. rewrite (proj2 (Z.leb_gt size _)) by done. unfold block_store. rewrite (proj2 (Z.leb_le 0 n1)), (proj2 (Z.ltb_lt n1 _)) by lia. cbn [andb mbind outcome_bind].
  eexists _, _. split_and!; [done| |].
  - apply (matches_some t (ms ++ [t]) j); [rewrite length_app; simpl; lia|rewrite length_app; simpl; lia|by rewrite length_insert|done| |by rewrite take_app_le].
    rewrite drop_app_le by done. replace (Z.to_nat (n1 + 1)) with (S (Z.to_nat n1)) by lia.
    rewrite (take_S_r _ _ (Some t)) by (apply list_lookup_insert_eq; lia). rewrite take_insert_ge by done. rewrite Ht. by rewrite map_app.
  - destruct Hc as [->|(H1 & _ & H2)]; [done|]. rewrite (proj2 (Z.leb_gt _ _)) by lia. by rewrite (proj2 (Z.leb_gt _ _)) by lia.
Qed.

(** *** A record *)

Definition holds_matches (T : Z) (ms : list Z) (d : option data) : Prop :=
  match d with
  | None => ms = []
  | Some (DThresholded n size l) => matches_in T ms (n, size, l)
  | _ => False
  end.

Lemma thresholded_step s i own c cond exec T t ms k x1 b x2 x3 : wf s -> c_rules s !! i = Some (THRESHOLDED own c cond threshold interval exec) ->
  key_of c (c_ctx s) k x1 -> holds cond x1 b x2 -> (b = true -> threshold <= in_window interval t (ms ++ [t]) -> executes exec x2 x3) ->
  T <= t -> ascending ms -> Forall (time_ok interval) ms -> holds_matches T ms (entry s i k) -> (b = true -> small_window t ms) ->
  exists s', process_thresholded t i own c cond threshold interval exec s = (s', Ret tt) /\ wf s' /\ only_slot i k s s' /\
    (exists d, entry s' i k = Some d /\ holds_matches t (if b then ms ++ [t] else ms) (Some d)) /\
    c_ctx s' = if b && (threshold <=? in_window interval t (ms ++ [t])) then x3 else x2.
Proof using interval_ok.
  intros Hwf Hr Hk Hb Hx HT Ha Hok Hm Hw.
  destruct (data_of_ok s i (THRESHOLDED own c cond threshold interval exec) own (DThresholded 0 0 None) k x1 Hwf Hr eq_refl Hk) as (s1 & p & hk & E1 & Hwf1 & Hs1 & He1 & Ho1 & Hx1 & _).
  simpl context_of in E1. unfold process_thresholded. rewrite (cmd_bind_Ret _ _ _ _ _ E1). cbn beta iota. rewrite <- Hx1 in Hb.
  set (s2 := with_ctx x2 s1).
  assert (wf s2 /\ slot s2 i k = Some p /\ only_slot i k s s2) as (Hwf2 & Hs2 & Ho2) by (split_and!; [by apply wf_ctx|done|by apply only_slot_ctx]).
  assert (exists n size l, c_data s2 !! p = Some (DThresholded n size l) /\ matches_in T ms (n, size, l)) as (n & size & l & Hp & Hm1).
  { assert (c_data s1 !! p = entry s1 i k) as Hpe by (unfold entry; by rewrite Hs1). change (c_data s2) with (c_data s1). rewrite Hpe, He1. unfold holds_matches in Hm.
    destruct (entry s i k) as [[]|] eqn:Ee; try done; (eexists _, _, _; split; [reflexivity|]); [done|]. rewrite Hm. constructor. }
  destruct b; cbn [andb].
  - destruct (add_match_ok T t ms (n, size, l) HT Ha Hok Hm1 (Hw eq_refl)) as (n' & l' & Ea & Hm2 & Hth).
    set (d := DThresholded n' NX_PM_EVCORR_DEFAULT_THRESHOLDED_WINDOW_SIZE (Some l')). set (s3 := with_data (<[p := d]> (c_data s2)) s2).
    destruct (put_slot s2 i k p d Hwf2 Hs2) as (Hwf3 & Hs3 & He3 & Ho3). fold s3 in Hwf3, Hs3, He3, Ho3.
    assert (only_slot i k s s3) as Ho4 by (by eapply only_slot_trans).
    assert (forall s', (if threshold <=? n' then execute exec else mret tt) s3 = (s', Ret tt) -> thresholded_match t p threshold interval exec s2 = (s', Ret tt)) as Hrun.
    { intros s' Hs'. unfold thresholded_match. rewrite (cmd_bind_Ret _ _ s2 s2 (n, size, l)) by (unfold get_thresholded, get_data, mbind, cmd_bind; by rewrite Hp).
      rewrite (cmd_bind_Ret _ _ s2 s2 (n', NX_PM_EVCORR_DEFAULT_THRESHOLDED_WINDOW_SIZE, l')) by (unfold lift; by rewrite Ea). by erewrite cmd_bind_Ret by reflexivity. }
    assert (forall s', thresholded_match t p threshold interval exec s2 = (s', Ret tt) ->
      (v ← evaluate cond; b ← lift (is_true v); _ ← (if (b : bool) then thresholded_match t p threshold interval exec else mret tt); lift (kill v)) s1 = (s', Ret tt)) as Hrule
      by (intros s' Hs'; by apply (holds_run _ _ true x2 (fun b => if (b : bool) then thresholded_match t p threshold interval exec else mret tt))).
    rewrite Hth in Hrun. destruct (Z.leb_spec threshold (in_window interval t (ms ++ [t]))) as [Hle|Hgt].
    + exists (with_ctx x3 s3). split_and!; [apply Hrule, Hrun, execute_run; by apply Hx|by apply wf_ctx|by apply only_slot_ctx| |done]. by exists d.
    + exists s3. split_and!; [by apply Hrule, Hrun|done|done| |done]. by exists d.
  - exists s2. split_and!; [|done|done| |done].
    + apply (holds_run _ _ false x2 (fun b => if (b : bool) then thresholded_match t p threshold interval exec else mret tt)); done.
    + exists (DThresholded n size l). split; [unfold entry; by rewrite Hs2|]. simpl. inversion Hm1; subst; [constructor|]. econstructor; try done.
      eapply Forall_impl; [eassumption|]. simpl. lia.
Qed.

(** *** A stream *)

Section alarms.
Variable good : alist -> Prop.
Context (context_expr : option expr) (own : loc) (cond : expr) (exec : list (@stmt X)).
Context (key_f : ectx -> ectx * option bytes) (cond_f : ectx -> ectx * bool) (exec_f : ectx -> ectx).

(** The rule as it is configured. *)
Definition thresholded_rule : rule := THRESHOLDED own ((fun e => (e, ∅)) <$> context_expr) cond threshold interval exec.

(** The reference: all times of matches are kept for each key; Exec runs if enough of
    them are in the interval that ends now. *)
Definition alarm_step (t : Z) (ms : list Z) (x : ectx) : list Z * ectx :=
  let '(x, b) := cond_f x in
  if b then (ms ++ [t], if threshold <=? in_window interval t (ms ++ [t]) then exec_f x else x) else (ms, x).

Definition alarm_allowed (t : Z) (ms : list Z) (x : ectx) : Prop := time_ok interval t /\ (snd (cond_f x) = true -> small_window t ms).

Definition past (T : Z) (ms : list Z) (d : option data) : Prop :=
  holds_matches T ms d /\ ascending ms /\ Forall (time_ok interval) ms /\ Forall (fun m => m <= T) ms.

Hypothesis key_ok : forall x, good_ctx good x ->
  match context_expr with Some e => keyed e x (snd (key_f x)) (fst (key_f x)) | None => key_f x = (x, None) end /\ good_ctx good (fst (key_f x)).
Hypothesis cond_ok : forall x, good_ctx good x -> holds cond x (snd (cond_f x)) (fst (cond_f x)) /\ good_ctx good (fst (cond_f x)).
Hypothesis exec_ok : forall x, good_ctx good x -> executes exec x (exec_f x).

Lemma holds_matches_later T t ms d : T <= t -> holds_matches T ms d -> holds_matches t ms d.
Proof using.
  intros HT. destruct d as [[]|]; simpl; try done. inversion 1; subst; [constructor|]. econstructor; try done. eapply Forall_impl; [eassumption|]. simpl. lia.
Qed.

Lemma alarm_does_step i : does_step good key_f alarm_step alarm_allowed past i thresholded_rule.
Proof using interval_ok key_ok cond_ok exec_ok.
  intros s r T t ms k x1 Hwf Hr Htm HT Hg Hk (Hm & Ha & Hok & Hle) [Ht Hsw].
  assert (exists c, r = THRESHOLDED own c cond threshold interval exec /\ fst <$> c = context_expr) as (c & -> & Hc).
  { unfold thresholded_rule in Htm. destruct r as [|p [[e tb]|]|p [[e tb]|]|p [[e tb]|]|p [[e tb]|]|], context_expr as [e'|]; simpl in Htm; simplify_eq; eauto. }
  assert (key_of c (c_ctx s) k x1 /\ good_ctx good x1) as [Hkey Hg1].
  { destruct (key_ok (c_ctx s) Hg) as [Hko Hg1]. rewrite Hk, <- Hc in Hko. rewrite Hk in Hg1. split; [|done]. destruct c as [[e tb]|]; simpl in *; [done|by simplify_eq]. }
  destruct (cond_ok x1 Hg1) as [Hco Hg2]. unfold alarm_step. destruct (cond_f x1) as [x2 b]. cbn [fst snd] in *.
  destruct (thresholded_step s i own c cond exec T t ms k x1 b x2 (exec_f x2)) as (s' & E1 & Hwf' & Ho' & (d & Hd & Hm') & Hx'); [done|done|done|done|by intros; apply exec_ok|done..|].
  exists s'. split_and!; [simpl; by rewrite (cmd_bind_Ret _ _ _ _ _ E1)|done|done| |by destruct b].
  rewrite Hd. assert (Forall (fun m => m <= t) ms) as Hle' by (eapply Forall_impl; [exact Hle|]; simpl; lia).
  unfold past. destruct b; cbn [fst]; [|done]. split_and!; [done|by apply ascending_snoc|apply Forall_app; split; [done|by apply Forall_singleton]|apply Forall_app; split; [done|apply Forall_singleton; lia]].
Qed.

(** C24: A thresholded rule runs its Exec block for a record exactly if the
    condition holds for the record and at least [threshold] records with the same
    value of the context, this one included, have satisfied it within the interval
    that ends now: on any stream of records in the order of their times, the rule
    leaves the contexts that a reference leaves which remembers the times of
    all matches.  This holds as long as fewer than a hundred matches fall into an
    interval. *)
Theorem thresholded_counts i s T inputs :
  wf s -> c_rules s !! i = Some thresholded_rule -> (forall k, entry s i k = None \/ entry s i k = Some (DThresholded 0 0 None)) ->
  ascending (T :: map fst inputs) -> Forall (fun tx => good_ctx good (snd tx)) inputs -> all_allowed key_f alarm_step alarm_allowed (fun _ => []) inputs ->
  exists s', feed i inputs s = (s', Ret (outputs key_f alarm_step (fun _ => []) inputs)).
Proof using interval_ok key_ok cond_ok exec_ok.
  intros Hwf Hr Hnew Hasc Hgood Hall. eapply (feed_ok good key_f alarm_step alarm_allowed past); [|by apply alarm_does_step|done|exact Hr|done| |exact Hasc|exact Hgood|done].
  - intros T1 t ms d HT (H1 & H2 & H3 & H4). split_and!; [by eapply holds_matches_later|done|done|]. eapply Forall_impl; [exact H4|]. simpl. lia.
  - intros k. split_and!; [|by intros ? ? ? ? ? Hn|done|done]. destruct (Hnew k) as [->| ->]; [done|constructor].
Qed.

End alarms.

End thresholded.

(** ** Suppressed rules *)

Section suppressed.
Variable good : alist -> Prop.
Variable interval : Z.
Hypothesis interval_ok : 0 <= interval < 2 ^ 32.
Context (context_expr : option expr) (own : loc) (cond : expr) (exec : list (@stmt X)).
Context (key_f : ectx -> ectx * option bytes) (cond_f : ectx -> ectx * bool) (exec_f : ectx -> ectx).

Definition suppressed_rule : rule := SUPPRESSED own ((fun e => (e, ∅)) <$> context_expr) cond interval exec.

(** The context is only evaluated if the condition holds. *)
Definition suppressed_key (x : ectx) : (ectx * bool) * option bytes :=
  let '(x, b) := cond_f x in if b then let '(x, k) := key_f x in ((x, true), k) else ((x, false), None).

(** The reference: the times of all executions are kept for each key; Exec runs if
    none of them is in the interval before now. *)
Definition quiet (t : Z) (es : list Z) : bool := forallb (fun e => e + usec interval <=? t) es.

Definition suppressed_step (t : Z) (es : list Z) (y : ectx * bool) : list Z * ectx :=
  let '(x, b) := y in if b && quiet t es then (es ++ [t], exec_f x) else (es, x).

Definition suppressed_allowed (t : Z) (es : list Z) (y : ectx * bool) : Prop := 0 < t /\ time_ok interval t.

(** The last execution is stored. *)
Definition executions (T : Z) (es : list Z) (d : option data) : Prop :=
  ascending es /\ Forall (fun e => 0 < e /\ time_ok interval e) es /\ Forall (fun e => e <= T) es /\
  match d with None => es = [] | Some (DTime m) => m = default 0 (last es) | _ => False end.

Hypothesis key_ok : forall x, good_ctx good x ->
  match context_expr with Some e => keyed e x (snd (key_f x)) (fst (key_f x)) | None => key_f x = (x, None) end /\ good_ctx good (fst (key_f x)).
Hypothesis cond_ok : forall x, good_ctx good x -> holds cond x (snd (cond_f x)) (fst (cond_f x)) /\ good_ctx good (fst (cond_f x)).
Hypothesis exec_ok : forall x, good_ctx good x -> executes exec x (exec_f x).

Lemma quiet_last t es : ascending es -> quiet t es = match last es with Some e => e + usec interval <=? t | None => true end.
Proof using.
  intros Ha. unfold quiet. destruct (last es) as [e|] eqn:El; [|apply last_None in El as ->; done].
  apply eq_true_iff_eq. rewrite forallb_forall, Z.leb_le. setoid_rewrite Z.leb_le. rewrite last_lookup in El. split.
  - intros Hall. apply Hall. apply list_elem_of_In. by eapply list_elem_of_lookup_2.
  - intros He e' Hin. apply list_elem_of_In, list_elem_of_lookup in Hin as [j Hj]. pose proof (lookup_lt_Some _ _ _ Hj). assert (e' <= e) by (by eapply Ha; [|exact Hj|exact El]; lia). lia.
Qed.

Lemma condition_run s x b x' : holds x (c_ctx s) b x' -> condition x s = (with_ctx x' s, Ret b).
Proof using. intros (v & Ev & Eb & _). unfold condition. rewrite (cmd_bind_Ret _ _ _ _ _ (evaluate_run _ _ _ _ Ev)). unfold lift. by rewrite Eb. Qed.

Lemma suppressed_does_step i : does_step good suppressed_key suppressed_step suppressed_allowed executions i suppressed_rule.
Proof using interval_ok key_ok cond_ok exec_ok.
  intros s r T t es k y Hwf Hr Htm HT Hg Hk (Ha & Hok & Hle & Hd) [Ht0 Ht].
  assert (exists c, r = SUPPRESSED own c cond interval exec /\ fst <$> c = context_expr) as (c & -> & Hc).
  { unfold suppressed_rule in Htm. destruct r as [|p [[e tb]|]|p [[e tb]|]|p [[e tb]|]|p [[e tb]|]|], context_expr as [e'|]; simpl in Htm; simplify_eq; eauto. }
  destruct (cond_ok (c_ctx s) Hg) as [Hco Hg1]. unfold suppressed_key in Hk. destruct (cond_f (c_ctx s)) as [x1 b]. cbn [fst snd] in *.
  assert (Forall (fun e => e <= t) es) as Hle' by (eapply Forall_impl; [exact Hle|]; simpl; lia).
  enough (exists s', process_suppressed t i own c cond interval exec s = (s', Ret tt) /\ wf s' /\ only_slot i k s s' /\
    executions t (suppressed_step t es y).1 (entry s' i k) /\ c_ctx s' = (suppressed_step t es y).2) as (s' & E1 & Hrest).
  { exists s'. split; [|done]. simpl. by rewrite (cmd_bind_Ret _ _ _ _ _ E1). }
  unfold process_suppressed. rewrite (cmd_bind_Ret _ _ s (with_ctx x1 s) b) by (by apply condition_run).
  destruct b.
  2:{ injection Hk as <- <-. exists (with_ctx x1 s). split_and!; [done|by apply wf_ctx|apply only_slot_ctx, only_slot_refl| |done]. by split_and!. }
  destruct (key_f x1) as [x2 k'] eqn:Ek. injection Hk as <- ->. set (s1 := with_ctx x1 s).
  assert (key_of c (c_ctx s1) k x2 /\ good_ctx good x2) as [Hkey Hg2].
  { destruct (key_ok x1 Hg1) as [Hko Hg2]. rewrite Ek, <- Hc in Hko. rewrite Ek in Hg2. split; [|done]. destruct c as [[e tb]|]; simpl in *; [done|by simplify_eq]. }
  destruct (data_of_ok s1 i (SUPPRESSED own c cond interval exec) own (DTime 0) k x2) as (s2 & p & hk & E2 & Hwf2 & Hs2 & He2 & Ho2 & Hx2 & _); [by apply wf_ctx|done|done|done|].
  simpl context_of in E2. change (entry s1 i k) with (entry s i k) in He2.
  assert (only_slot i k s s2) as Ho3 by (eapply only_slot_trans; [apply (only_slot_ctx i k s s x1), only_slot_refl|exact Ho2]).
  assert (c_data s2 !! p = Some (DTime (default 0 (last es)))) as Hp.
  { assert (c_data s2 !! p = entry s2 i k) as -> by (unfold entry; by rewrite Hs2). rewrite He2. destruct (entry s i k) as [[]|]; try done; [by subst|]. by subst es. }
  assert (entry s2 i k = Some (DTime (default 0 (last es)))) as He3 by (unfold entry; by rewrite Hs2).
  assert (get_time p s2 = (s2, Ret (default 0 (last es)))) as Hget by (unfold get_time, get_data, mbind, cmd_bind; by rewrite Hp).
  rewrite (cmd_bind_Ret _ _ _ _ _ E2). cbn beta iota. rewrite (cmd_bind_Ret _ _ _ _ _ Hget).
  rewrite (cmd_bind_Ret _ _ s2 s2 (quiet t es)).
  2:{ rewrite quiet_last by done. destruct (last es) as [e|] eqn:El; [|done]. assert (e ∈ es) as Hin by (apply last_Some_elem_of in El; done).
      rewrite Forall_forall in Hok. destruct (Hok e Hin) as [He0 Het]. change (default 0 (Some e)) with e. rewrite (proj2 (Z.eqb_neq e 0)) by lia.
      rewrite (cmd_bind_Ret _ _ s2 s2 (e + usec interval)); [done|]. unfold lift. by rewrite until_ok. }
  unfold suppressed_step. cbn [andb]. destruct (quiet t es).
  - destruct (put_slot s2 i k p (DTime t) Hwf2 Hs2) as (Hwf4 & Hs4 & He4 & Ho4). set (s4 := with_data (<[p := DTime t]> (c_data s2)) s2) in *.
    exists (with_ctx (exec_f x2) s4). split_and!.
    + rewrite (cmd_bind_Ret _ _ _ s4 tt) by done. apply execute_run. simpl. rewrite Hx2. by apply exec_ok.
    + by apply wf_ctx.
    + apply only_slot_ctx. by eapply only_slot_trans.
    + change (entry (with_ctx (exec_f x2) s4) i k) with (entry s4 i k). rewrite He4. cbn [fst]. split_and!.
      * apply ascending_snoc; [done|done].
      * apply Forall_app. split; [done|by apply Forall_singleton].
      * apply Forall_app. split; [done|apply Forall_singleton; lia].
      * by rewrite last_snoc.
    + done.
  - exists s2. split_and!; [done|done|done| |done]. cbn [fst]. rewrite He3. by split_and!.
Qed.

(** C25: A suppressed rule runs its Exec block for a record exactly if the
    condition holds and the block did not run within the last Interval seconds for a
    record with the same value of the context: on a stream of records in the order
    of their times, the rule leaves the contexts that a reference leaves which
    remembers the times of all executions.  The rule is new (nothing is stored for a key),
    no cleanup runs between the records, and the interval is below 2^32 seconds.  The time
    of every record is after 1970-01-01 00:00:00 and far enough from 2^63 microseconds for
    the interval to be added: the stored time 0 stands for never, so that
    an execution at the time 0 is forgotten and the next record inside the interval
    runs the block again.  The condition, the context and the block are
    evaluated without an exception, as functions of the evaluation context, and the value
    of the context expression, if it is defined, has a key. *)
Theorem suppressed_quiet i s T inputs :
  wf s -> c_rules s !! i = Some suppressed_rule -> (forall k, entry s i k = None \/ entry s i k = Some (DTime 0)) ->
  ascending (T :: map fst inputs) -> Forall (fun tx => good_ctx good (snd tx)) inputs -> all_allowed suppressed_key suppressed_step suppressed_allowed (fun _ => []) inputs ->
  exists s', feed i inputs s = (s', Ret (outputs suppressed_key suppressed_step (fun _ => []) inputs)).
Proof using interval_ok key_ok cond_ok exec_ok.
  intros Hwf Hr Hnew Hasc Hgood Hall. eapply (feed_ok good suppressed_key suppressed_step suppressed_allowed executions); [|by apply suppressed_does_step|done|exact Hr|done| |exact Hasc|exact Hgood|done].
  - intros T1 t es d HT (H1 & H2 & H3 & H4). split_and!; [done|done| |done]. eapply Forall_impl; [exact H3|]. simpl. lia.
  - intros k. split_and!; [by intros ? ? ? ? ? Hn|done|done|]. by destruct (Hnew k) as [->| ->].
Qed.

End suppressed.

End spec.
End EvcorrSpec.
