(* ===== verification/EvcorrSafe.v ===== *)
(** * Event correlation: safety

    No sequence of records, events and cleanups makes the module stop or use freed
    memory, if its rules are of the kinds for which this is true; and what happens
    with the others. *)

From stdpp Require Import functions sorting.
From S2P Require Import Prelude Dlist Str Value Serialize Logdata Expr ExprTypes Evcorr EvcorrSpec.
Import Str Value Serialize Logdata Expr ExprTypes Evcorr EvcorrSpec.

Module EvcorrSafe.

Section safe.
Context `{H : Host} `{M : Malloc} `{E : ValueEnv} {PC : Pcre} {ST : Stale} {X : Type}.

(** The records for which the rules are meant. *)
Variable good : alist -> Prop.

Abbreviation rule := (@nx_pm_evcorr_rule X).
Abbreviation state := (@state X).
Abbreviation ectx := (@ectx X).
Abbreviation expr := (@expr X).
Implicit Types s : state.
Implicit Types r : rule.

(** ** The invariant *)

Definition LIMIT : Z := 2 ^ 62.

Abbreviation good_ctx := (good_ctx good).

(** A block may drop the record. *)
Definition left_ctx (x : ectx) : Prop := x_logdata x = None \/ good_ctx x.

(** Expressions and blocks that can be evaluated without an exception. *)
Definition fine_cond (e : expr) : Prop := forall x, good_ctx x -> exists b x', holds e x b x' /\ good_ctx x'.
Definition fine_context (c : option (expr * gmap bytes loc)) : Prop :=
  match c with Some (e, _) => forall x, good_ctx x -> exists k x', keyed e x k x' /\ good_ctx x' | None => True end.
Definition fine_exec (l : list (@stmt X)) : Prop := forall x, good_ctx x -> exists x', executes l x x' /\ left_ctx x'.

(** The rules for which the module is safe: Exec blocks of absence rules also run without
    a record. *)
Definition fine (r : rule) : Prop :=
  match r with
  | SIMPLE exec => fine_exec exec
  | SUPPRESSED _ c cond n exec => fine_context c /\ fine_cond cond /\ 0 <= n < 2 ^ 32 /\ fine_exec exec
  | PAIR _ c t q n exec => fine_context c /\ fine_cond t /\ fine_cond q /\ 0 <= n < 2 ^ 32 /\ fine_exec exec
  | ABSENCE _ c t q n exec => c <> None /\ fine_context c /\ fine_cond t /\ fine_cond q /\ 0 <= n < 2 ^ 32 /\ (forall x, exists x', executes exec x x' /\ (good_ctx x -> left_ctx x'))
  | THRESHOLDED _ _ _ _ _ _ => False
  | STOP cond exec => fine_cond cond /\ match exec with Some l => fine_exec l | None => True end
  end.

Lemma fine_template r : fine (template r) <-> fine r.
Proof using. destruct r as [|p [[e t]|]|p [[e t]|]|p [[e t]|]|p [[e t]|]|]; simpl; intuition congruence. Qed.

(** The data of a slot at [p] fit the rule [i]: an absence rule has an event exactly
    while it waits. *)
Definition fits (s : state) (i : nat) (r : rule) (p : loc) (d : data) : Prop :=
  match r, d with
  | SUPPRESSED _ _ _ _ _, DTime m | PAIR _ _ _ _ _ _, DTime m => 0 <= m < LIMIT
  | ABSENCE _ _ _ _ _ _, DAbsence rule event m =>
      0 <= m < LIMIT /\ (rule = None \/ rule = Some i) /\
      match event with Some e => 0 < m /\ rule = Some i /\ exists t, c_events s !! e = Some (t, p) | None => m = 0 end
  | _, _ => False
  end.

(** The event of a slot. *)
Definition event_of (s : state) (i : nat) (k : option bytes) (e : loc) : Prop :=
  exists rule m, entry s i k = Some (DAbsence rule (Some e) m).

Record ok (s : state) : Prop := {
  ok_wf : wf s;
  ok_rules i r : c_rules s !! i = Some r -> fine r;
  ok_fits i k p r d : slot s i k = Some p -> c_rules s !! i = Some r -> entry s i k = Some d -> fits s i r p d;
  ok_events e t p : c_events s !! e = Some (t, p) -> exists i k, slot s i k = Some p /\ event_of s i k e
}.

Lemma entry_slot s i k d : entry s i k = Some d -> exists p, slot s i k = Some p /\ c_data s !! p = Some d.
Proof using. unfold entry. destruct (slot s i k) as [p|]; [|done]. eauto. Qed.

Lemma slot_rule s i k p : slot s i k = Some p -> exists r, c_rules s !! i = Some r.
Proof using. unfold slot. destruct (c_rules s !! i) as [r|]; [|done]. eauto. Qed.

(** The event of a slot is pending and belongs to no other slot. *)
Lemma event_of_pending s i k e : ok s -> event_of s i k e -> exists t p, slot s i k = Some p /\ c_events s !! e = Some (t, p).
Proof using.
  intros Hok (rule & m & He). destruct (entry_slot _ _ _ _ He) as (p & Hp & _). destruct (slot_rule _ _ _ _ Hp) as [r Hr].
  pose proof (ok_fits s Hok i k p r _ Hp Hr He) as Hf. destruct r; try done. destruct Hf as (_ & _ & _ & _ & t & Ht). eauto.
Qed.

Lemma event_of_unique s i k j k' e : ok s -> event_of s i k e -> event_of s j k' e -> i = j /\ k = k'.
Proof using.
  intros Hok H1 H2. destruct (event_of_pending _ _ _ _ Hok H1) as (t & p & Hp & E1). destruct (event_of_pending _ _ _ _ Hok H2) as (t' & p' & Hp' & E2).
  rewrite E1 in E2. injection E2 as <- <-. by eapply wf_inj; [apply Hok|..].
Qed.

Lemma only_slot_fine i k s s' : only_slot i k s s' -> (forall j r, c_rules s !! j = Some r -> fine r) -> forall j r, c_rules s' !! j = Some r -> fine r.
Proof using.
  intros Ho Hf j r Hr. apply fine_template. assert (map template (c_rules s) !! j = Some (template r)) as Hl by (rewrite <- (os_rules _ _ _ _ Ho); by eapply template_at).
  rewrite list_lookup_fmap in Hl. destruct (c_rules s !! j) as [r'|] eqn:Er; [|done]. injection Hl as Hl. rewrite <- Hl. apply fine_template. by eapply Hf.
Qed.

Lemma fits_template s i r r' p d : template r = template r' -> fits s i r p d -> fits s i r' p d.
Proof using. destruct r as [|? [[??]|]|? [[??]|]|? [[??]|]|? [[??]|]|], r' as [|? [[??]|]|? [[??]|]|? [[??]|]|? [[??]|]|]; simpl; intros; simplify_eq; done. Qed.

(** A step that changes one slot and the events of this slot. *)
Lemma ok_update i k s s' : ok s -> wf s' -> only_slot i k s s' ->
  (forall p r d, slot s' i k = Some p -> c_rules s' !! i = Some r -> entry s' i k = Some d -> fits s' i r p d) ->
  (forall e, ~ event_of s i k e -> ~ event_of s' i k e -> c_events s' !! e = c_events s !! e) ->
  (forall e, event_of s i k e -> ~ event_of s' i k e -> c_events s' !! e = None) ->
  (forall e, event_of s' i k e -> event_of s i k e \/ c_events s !! e = None) -> ok s'.
Proof using.
  intros Hok Hwf Ho Hfit Hsame Hgone Hnew. constructor; [done|by eapply only_slot_fine, ok_rules|..].
  - intros j k' p r d Hp Hr Hd. destruct (decide ((j, k') = (i, k))) as [[= -> ->]|Hn]; [by apply Hfit|].
    rewrite (os_slots _ _ _ _ Ho) in Hp by done. rewrite (os_data _ _ _ _ Ho) in Hd by done. destruct (slot_rule _ _ _ _ Hp) as [r0 Hr0].
    assert (template r0 = template r) as Ht.
    { pose proof (template_at s' _ j r (os_rules _ _ _ _ Ho) Hr) as Hl. rewrite list_lookup_fmap, Hr0 in Hl. by injection Hl. }
    apply (fits_template _ _ r0); [done|]. pose proof (ok_fits s Hok j k' p r0 d Hp Hr0 Hd) as Hf. destruct r0, d; try done; simpl in *.
    destruct Hf as (H1 & H2 & H3). split_and!; [lia|lia|done|]. destruct event as [e|]; [|done]. destruct H3 as (H3 & H4 & t & H5). split_and!; [done|done|].
    exists t. rewrite Hsame; [done| |].
    + intros He. destruct (event_of_unique s i k j k' e Hok He) as [-> ->]; [eexists _, _; exact Hd|done].
    + intros He. destruct (Hnew e He) as [He'|He']; [|congruence]. destruct (event_of_unique s i k j k' e Hok He') as [-> ->]; [eexists _, _; exact Hd|done].
  - intros e t p He. assert (event_of s' i k e \/ ~ event_of s' i k e) as [He'|He'].
    { unfold event_of. destruct (entry s' i k) as [[| r [e'|] m|]|]; [right; naive_solver| |right; naive_solver|right; naive_solver|right; naive_solver].
      destruct (decide (e' = e)) as [->|]; [left; eauto|right; naive_solver]. }
    + exists i, k. split; [|done]. destruct He' as (rule & m & Hd). destruct (entry_slot _ _ _ _ Hd) as (p' & Hp & _). destruct (slot_rule _ _ _ _ Hp) as [r Hr].
      pose proof (Hfit p' r _ Hp Hr Hd) as Hf. destruct r; try done. destruct Hf as (_ & _ & _ & _ & t' & Ht'). congruence.
    + assert (~ event_of s i k e) as Hne by (intros He2; rewrite (Hgone e He2 He') in He; done). rewrite Hsame in He by done.
      destruct (ok_events s Hok e t p He) as (j & k' & Hp & Hev). assert ((j, k') <> (i, k)) as Hn by (by intros [= -> ->]).
      exists j, k'. rewrite (os_slots _ _ _ _ Ho) by done. split; [done|]. destruct Hev as (rule & m & Hd). exists rule, m. by rewrite (os_data _ _ _ _ Ho).
Qed.

(** *** The rules keep the invariant *)

(** What a step of the module ensures. *)
Definition keeps_ok (s s' : state) : Prop := ok s' /\ map template (c_rules s') = map template (c_rules s) /\ c_cleanup s' = c_cleanup s.

Lemma keeps_trans s1 s2 s3 : keeps_ok s1 s2 -> keeps_ok s2 s3 -> keeps_ok s1 s3.
Proof using. intros (_ & H1 & H2) (Hok & H3 & H4). split_and!; [done|congruence|congruence]. Qed.

Lemma ok_ctx s x : ok s -> keeps_ok s (with_ctx x s).
Proof using. intros []. split; [|done]. constructor; try done. by apply wf_ctx. Qed.

Lemma fine_key c x : fine_context c -> good_ctx x -> exists k x', key_of c x k x' /\ good_ctx x'.
Proof using. intros Hc Hx. destruct c as [[e t]|]; simpl in *; [by apply Hc|]. by exists None, x. Qed.

(** Rules that only keep a time. *)
Definition timer (r : rule) : Prop := match r with SUPPRESSED _ _ _ _ _ | PAIR _ _ _ _ _ _ => True | _ => False end.

Lemma timer_entry s i k r : ok s -> c_rules s !! i = Some r -> timer r -> entry s i k = None \/ exists m, entry s i k = Some (DTime m) /\ 0 <= m < LIMIT.
Proof using.
  intros Hok Hr Ht. destruct (entry s i k) as [d|] eqn:Ed; [right|by left]. destruct (entry_slot _ _ _ _ Ed) as (p & Hp & _).
  pose proof (ok_fits s Hok i k p r d Hp Hr Ed) as Hf. destruct r; try done; destruct d; try done; eauto.
Qed.

Lemma ok_time i k s s' r m : ok s -> c_rules s !! i = Some r -> timer r -> wf s' -> only_slot i k s s' -> c_events s' = c_events s ->
  entry s' i k = Some (DTime m) -> 0 <= m < LIMIT -> keeps_ok s s'.
Proof using.
  intros Hok Hr Ht Hwf Ho He Hd Hm. split; [|split; apply Ho]. assert (forall e, ~ event_of s' i k e) as Hno by (intros e (? & ? & Hd'); congruence).
  assert (forall e, ~ event_of s i k e) as Hno0 by (intros e (? & ? & Hd'); destruct (timer_entry s i k r Hok Hr Ht) as [?|(? & ? & _)]; congruence).
  eapply (ok_update i k s s'); [done|done|done| | | |].
  - intros p r' d Hp Hr' Hd'. rewrite Hd in Hd'. injection Hd' as <-. pose proof (template_at s' _ i r' (os_rules _ _ _ _ Ho) Hr') as Hl. rewrite list_lookup_fmap, Hr in Hl. injection Hl as Hl.
    apply (fits_template _ _ r); [done|]. by destruct r.
  - intros e _ _. by rewrite He.
  - intros e H1. by destruct (Hno0 e).
  - intros e H1. by destruct (Hno e).
Qed.

(** The data of a timer, found or created. *)
Lemma timer_data s i r own : ok s -> c_rules s !! i = Some r -> timer r -> own_of r = Some own -> fine_context (context_of r) -> good_ctx (c_ctx s) ->
  exists s1 k p hk m, data_of i (context_of r) own (DTime 0) s = (s1, Ret (p, hk)) /\ keeps_ok s s1 /\ wf s1 /\ slot s1 i k = Some p /\ only_slot i k s s1 /\
    c_events s1 = c_events s /\ good_ctx (c_ctx s1) /\ entry s1 i k = Some (DTime m) /\ get_time p s1 = (s1, Ret m) /\ 0 <= m < LIMIT /\ (0 < m -> hk = None).
Proof using.
  intros Hok Hr Ht Ho Hc Hx. destruct (fine_key _ _ Hc Hx) as (k & x' & Hk & Hx').
  destruct (data_of_ok s i r own (DTime 0) k x' (ok_wf s Hok) Hr Ho Hk) as (s1 & p & hk & E1 & Hwf1 & Hs1 & He1 & Ho1 & Hx1 & Hev1 & Hhk & _).
  assert (exists m, entry s1 i k = Some (DTime m) /\ 0 <= m < LIMIT /\ (0 < m -> hk = None)) as (m & Hm & Hb & Hm0).
  { destruct (timer_entry s i k r Hok Hr Ht) as [Hn|(m & Hn & Hb)]; rewrite Hn in He1; simpl in He1.
    - exists 0. split_and!; [done|done|done|lia].
    - exists m. split_and!; [done|lia|lia|]. intros _. destruct hk as [key|]; [|done]. rewrite Hhk in Hn by done. done. }
  assert (get_time p s1 = (s1, Ret m)) as Hg.
  { assert (c_data s1 !! p = Some (DTime m)) as Hp by (rewrite <- Hm; unfold entry; by rewrite Hs1). unfold get_time, get_data, mbind, cmd_bind. by rewrite Hp. }
  exists s1, k, p, hk, m. split_and!; try done; try lia; [by eapply ok_time|by rewrite Hx1].
Qed.

Lemma until_limit m n : 0 <= m < LIMIT -> 0 <= n < 2 ^ 32 -> until m n = Ret (m + usec n).
Proof using. intros Hm Hn. apply until_ok; [done|]. split; [lia|]. unfold usec, APR_USEC_PER_SEC, LIMIT in *. lia. Qed.

Lemma put_time s i k p s1 r m : ok s -> c_rules s !! i = Some r -> timer r -> wf s1 -> slot s1 i k = Some p -> only_slot i k s s1 -> c_events s1 = c_events s ->
  0 <= m < LIMIT -> forall x, keeps_ok s (with_ctx x (with_data (<[p := DTime m]> (c_data s1)) s1)).
Proof using.
  intros Hok Hr Ht Hwf Hs Ho He Hm x. destruct (put_slot s1 i k p (DTime m) Hwf Hs) as (Hwf2 & _ & He2 & Ho2).
  assert (keeps_ok s (with_data (<[p := DTime m]> (c_data s1)) s1)) as Hk.
  { apply (ok_time i k s _ r m); [done|done|done|done|by eapply only_slot_trans|done|done|done]. }
  eapply keeps_trans; [exact Hk|]. apply ok_ctx, Hk.
Qed.

Lemma process_suppressed_ok s i own c cond n exec timeval : ok s -> c_rules s !! i = Some (SUPPRESSED own c cond n exec) -> good_ctx (c_ctx s) -> 0 <= timeval < LIMIT ->
  exists s', process_suppressed timeval i own c cond n exec s = (s', Ret tt) /\ keeps_ok s s' /\ left_ctx (c_ctx s').
Proof using.
  intros Hok Hr Hx Ht. pose proof (ok_rules s Hok i _ Hr) as (Hfc & Hcond & Hn & Hexec). destruct (Hcond _ Hx) as (b & x1 & Hb & Hx1).
  unfold process_suppressed. rewrite (cmd_bind_Ret _ _ _ _ _ (condition_run _ _ _ _ Hb)). set (s0 := with_ctx x1 s).
  destruct (ok_ctx s x1 Hok) as [Hok0 _]. fold s0 in Hok0. destruct b; [|exists s0; split_and!; [done|by apply ok_ctx|by right]].
  destruct (timer_data s0 i (SUPPRESSED own c cond n exec) own Hok0 Hr I eq_refl Hfc Hx1) as (s1 & k & p & hk & m & E1 & Hk1 & Hwf1 & Hs1 & Ho1 & He1 & Hx2 & _ & Hg & Hm & _).
  rewrite (cmd_bind_Ret _ _ _ _ _ E1). cbn beta iota. rewrite (cmd_bind_Ret _ _ _ _ _ Hg).
  rewrite (cmd_bind_Ret _ _ s1 s1 ((m =? 0) || (m + usec n <=? timeval))).
  2:{ destruct (m =? 0); [done|]. rewrite (cmd_bind_Ret _ _ s1 s1 (m + usec n)); [done|]. unfold lift. by rewrite until_limit. }
  destruct ((m =? 0) || (m + usec n <=? timeval)); [|exists s1; split_and!; [done|done|by right]].
  destruct (Hexec _ Hx2) as (x3 & Hx3 & Hx4). eexists. split; [|split; [by eapply (put_time s0 i k p s1 (SUPPRESSED own c cond n exec) timeval)|exact Hx4]].
  erewrite cmd_bind_Ret by reflexivity. by apply execute_run.
Qed.

(** The part of a rule that evaluates a condition and stores the time. *)
Lemma trigger_ok s i k p s1 r t timeval : ok s -> c_rules s !! i = Some r -> timer r -> wf s1 -> slot s1 i k = Some p -> only_slot i k s s1 -> c_events s1 = c_events s ->
  keeps_ok s s1 -> fine_cond t -> good_ctx (c_ctx s1) -> 0 <= timeval < LIMIT ->
  exists s', (v ← evaluate t; b ← lift (is_true v); _ ← (if (b : bool) then put_data p (DTime timeval) else mret tt); lift (kill v)) s1 = (s', Ret tt) /\ keeps_ok s s' /\ left_ctx (c_ctx s').
Proof using.
  intros Hok Hr Ht Hwf Hs Ho He Hk Hf Hx Hv. destruct (Hf _ Hx) as (b & x' & Hb & Hx').
  exists (if b then with_data (<[p := DTime timeval]> (c_data (with_ctx x' s1))) (with_ctx x' s1) else with_ctx x' s1). split.
  - apply (holds_run _ _ b x' (fun b => if (b : bool) then put_data p (DTime timeval) else mret tt)); [done|]. by destruct b.
  - split; [|destruct b; by right]. destruct b; [|eapply keeps_trans; [exact Hk|apply ok_ctx, Hk]].
    apply (put_time s i k p s1 r timeval Hok Hr Ht Hwf Hs Ho He Hv x').
Qed.

Lemma process_pair_ok s i own c t q n exec timeval : ok s -> c_rules s !! i = Some (PAIR own c t q n exec) -> good_ctx (c_ctx s) -> 0 <= timeval < LIMIT ->
  exists s', process_pair timeval i own c t q n exec s = (s', Ret tt) /\ keeps_ok s s' /\ left_ctx (c_ctx s').
Proof using.
  intros Hok Hr Hx Ht. pose proof (ok_rules s Hok i _ Hr) as (Hfc & Hft & Hfq & Hn & Hexec).
  destruct (timer_data s i (PAIR own c t q n exec) own Hok Hr I eq_refl Hfc Hx) as (s1 & k & p & hk & m & E1 & Hk1 & Hwf1 & Hs1 & Ho1 & He1 & Hx1 & _ & Hg & Hm & Hhk).
  unfold process_pair. simpl context_of in E1. rewrite (cmd_bind_Ret _ _ _ _ _ E1). cbn beta iota. rewrite (cmd_bind_Ret _ _ _ _ _ Hg).
  destruct (Z.ltb_spec 0 m) as [Hpos|Hz]; [|by eapply trigger_ok]. rewrite (Hhk Hpos).
  destruct (Hfq _ Hx1) as (b & x2 & (v & Ev & Eb & Ekill) & Hx2). rewrite (cmd_bind_Ret _ _ _ _ _ (evaluate_run _ _ _ _ Ev)). set (s2 := with_ctx x2 s1).
  rewrite (cmd_bind_Ret _ _ s2 s2 b) by (unfold lift; by rewrite Eb).
  assert (keeps_ok s s2) as Hk2 by (eapply keeps_trans; [exact Hk1|apply ok_ctx, Hk1]).
  destruct b; [|eapply (trigger_ok s i k p s2); try done; [by apply wf_ctx|by apply only_slot_ctx]].
  rewrite (cmd_bind_Ret _ _ s2 s2 ((n =? 0) || (timeval <? m + usec n))).
  2:{ destruct (n =? 0); [done|]. rewrite (cmd_bind_Ret _ _ s2 s2 (m + usec n)); [done|]. unfold lift. by rewrite until_limit. }
  destruct ((n =? 0) || (timeval <? m + usec n)).
  - destruct (Hexec _ Hx2) as (x3 & Hx3 & Hx4). eexists. split; [|split; [eapply (put_time s i k p s1 _ 0 Hok Hr I Hwf1 Hs1 Ho1 He1); done|exact Hx4]].
    erewrite cmd_bind_Ret; [unfold lift; rewrite Ekill; reflexivity|]. erewrite cmd_bind_Ret by reflexivity. rewrite (cmd_bind_Ret _ _ _ (with_ctx x3 (with_data (<[p:=DTime 0]> (c_data s1)) s1)) tt); [done|].
    by apply (execute_run exec (with_data (<[p:=DTime 0]> (c_data s2)) s2)).
  - exists s2. split; [|split; [done|by right]]. rewrite (cmd_bind_Ret _ _ s2 s2 tt) by done. unfold lift. by rewrite Ekill.
Qed.

(** *** Absence rules *)

Lemma get_absence_run s i k p rule event m : slot s i k = Some p -> entry s i k = Some (DAbsence rule event m) -> get_absence p s = (s, Ret (rule, event, m)).
Proof using. intros Hp He. unfold entry in He. rewrite Hp in He. cbn [mbind option_bind] in He. unfold get_absence, get_data, mbind, cmd_bind. by rewrite He. Qed.

(** Absence data are changed and their event is removed. *)
Lemma set_matched_run s i k p rule event m t : wf s -> slot s i k = Some p -> entry s i k = Some (DAbsence rule event m) ->
  exists s', absence_set_matched p t s = (s', Ret tt) /\ wf s' /\ slot s' i k = Some p /\ entry s' i k = Some (DAbsence rule event t) /\ only_slot i k s s' /\
    c_events s' = c_events s /\ c_ctx s' = c_ctx s.
Proof using.
  intros Hwf Hp He. destruct (put_slot s i k p (DAbsence rule event t) Hwf Hp) as (H1 & H2 & H3 & H4). eexists. split; [|done].
  unfold absence_set_matched. by rewrite (cmd_bind_Ret _ _ _ _ _ (get_absence_run _ _ _ _ _ _ _ Hp He)).
Qed.

Lemma cancel_run s i k p rule e m t : wf s -> slot s i k = Some p -> entry s i k = Some (DAbsence rule (Some e) m) -> c_events s !! e = Some (t, p) ->
  exists s', absence_cancel p s = (s', Ret tt) /\ wf s' /\ slot s' i k = Some p /\ entry s' i k = Some (DAbsence rule None m) /\ only_slot i k s s' /\
    c_events s' = delete e (c_events s) /\ c_ctx s' = c_ctx s.
Proof using.
  intros Hwf Hp He Hev. set (s1 := with_events (delete e (c_events s)) s).
  destruct (put_slot s1 i k p (DAbsence rule None m)) as (H1 & H2 & H3 & H4); [by apply wf_events|done|]. eexists. split.
  - unfold absence_cancel. rewrite (cmd_bind_Ret _ _ _ _ _ (get_absence_run _ _ _ _ _ _ _ Hp He)). cbn beta iota. rewrite (cmd_bind_Ret _ _ _ s1 tt) by (unfold remove_event; by rewrite Hev). reflexivity.
  - split_and!; [done|done|done| |done|done]. eapply only_slot_trans; [apply (only_slot_events i k s s (delete e (c_events s))), only_slot_refl|done].
Qed.

Section absence.
Context (s : state) (i : nat) (own : loc) (c : option (expr * gmap bytes loc)) (trig req : expr) (n : Z) (exec : list (@stmt X)).
Hypothesis s_ok : ok s.
Hypothesis rule_at : c_rules s !! i = Some (ABSENCE own c trig req n exec).

Lemma absence_entry k : entry s i k = None \/ exists rule event m, entry s i k = Some (DAbsence rule event m).
Proof using s_ok rule_at.
  destruct (entry s i k) as [d|] eqn:Ed; [right|by left]. destruct (entry_slot _ _ _ _ Ed) as (p & Hp & _).
  pose proof (ok_fits s s_ok i k p _ d Hp rule_at Ed) as Hf. destruct d; try done; eauto.
Qed.

(** New data for a slot: without an event, with the same one, or with a new one. *)
Lemma absence_update k s' rule event m : wf s' -> only_slot i k s s' -> entry s' i k = Some (DAbsence rule event m) ->
  0 <= m < LIMIT -> rule = None \/ rule = Some i ->
  match event with
  | None => m = 0 /\ (forall e, event_of s i k e -> c_events s' !! e = None) /\ (forall e, ~ event_of s i k e -> c_events s' !! e = c_events s !! e)
  | Some e => 0 < m /\ rule = Some i /\ (exists t p, slot s' i k = Some p /\ c_events s' !! e = Some (t, p)) /\
      (event_of s i k e /\ c_events s' = c_events s \/
       (forall e, ~ event_of s i k e) /\ c_events s !! e = None /\ (forall e', e' <> e -> c_events s' !! e' = c_events s !! e'))
  end -> keeps_ok s s'.
Proof using s_ok rule_at.
  intros Hwf Ho Hd Hm Hrule Hev. split; [|split; apply Ho].
  assert (forall e, event_of s' i k e <-> event = Some e) as Hof by (intros e; unfold event_of; rewrite Hd; split; [intros (? & ? & [=]); congruence|intros ->; eauto]).
  eapply (ok_update i k s s'); [done|done|done| | | |].
  - intros p r d Hp Hr Hd'. rewrite Hd in Hd'. injection Hd' as <-. pose proof (template_at s' _ i r (os_rules _ _ _ _ Ho) Hr) as Hl. rewrite list_lookup_fmap, rule_at in Hl. injection Hl as Hl.
    apply (fits_template _ _ (ABSENCE own c trig req n exec)); [done|]. simpl. split_and!; [lia|lia|done|]. destruct event as [e|]; [|by destruct Hev].
    destruct Hev as (H1 & H2 & (t & p' & Hp' & Ht) & _). split_and!; [done|done|]. exists t. rewrite Ht. congruence.
  - intros e H1 H2. destruct event as [e'|]; [|by apply Hev]. destruct Hev as (_ & _ & _ & [[_ ->]|(_ & _ & Hoth)]); [done|]. apply Hoth. intros ->. apply H2. by apply Hof.
  - intros e H1 H2. destruct event as [e'|]; [|by apply Hev]. destruct Hev as (_ & _ & _ & [[He' _]|(Hno & _ & _)]); [|by destruct (Hno e)].
    destruct H1 as (r1 & m1 & Hd1), He' as (r2 & m2 & Hd2). rewrite Hd1 in Hd2. injection Hd2 as _ <- _. destruct H2. by apply Hof.
  - intros e He. apply Hof in He as ->. destruct Hev as (_ & _ & _ & [[? _]|(_ & ? & _)]); eauto.
Qed.

(** The data of the rule, found or created, with the rule entered. *)
Lemma absence_data : good_ctx (c_ctx s) -> exists s1 k p hk event m, data_of i c own (DAbsence None None 0) s = (s1, Ret (p, hk)) /\
    (exists rule, get_absence p s1 = (s1, Ret (rule, event, m)) /\ (rule = None \/ rule = Some i)) /\
    (let s2 := with_data (<[p := DAbsence (Some i) event m]> (c_data s1)) s1 in
     wf s2 /\ slot s2 i k = Some p /\ entry s2 i k = Some (DAbsence (Some i) event m) /\ only_slot i k s s2 /\ c_events s2 = c_events s /\ good_ctx (c_ctx s2)) /\
    0 <= m < LIMIT /\
    match event with
    | Some e => 0 < m /\ hk = None /\ event_of s i k e /\ exists t, c_events s !! e = Some (t, p)
    | None => m = 0 /\ forall e, ~ event_of s i k e
    end.
Proof using s_ok rule_at.
  intros Hx. pose proof (ok_rules s s_ok i _ rule_at) as (_ & Hfc & _). destruct (fine_key _ _ Hfc Hx) as (k & x' & Hk & Hx').
  destruct (data_of_ok s i _ own (DAbsence None None 0) k x' (ok_wf s s_ok) rule_at eq_refl Hk) as (s1 & p & hk & E1 & Hwf1 & Hs1 & He1 & Ho1 & Hx1 & Hev1 & Hhk & Hsame).
  assert (exists rule event m, entry s1 i k = Some (DAbsence rule event m) /\ 0 <= m < LIMIT /\ (rule = None \/ rule = Some i) /\
    match event with Some e => 0 < m /\ hk = None /\ event_of s i k e /\ exists t, c_events s !! e = Some (t, p) | None => m = 0 /\ forall e, ~ event_of s i k e end)
    as (rule & event & m & Hd & Hm & Hrule & Hev).
  { destruct (absence_entry k) as [Hn|(rule & event & m & Hn)]; rewrite Hn in He1; simpl in He1.
    - exists None, None, 0. split_and!; [done|done|done|by left|done|]. intros e (? & ? & ?). congruence.
    - exists rule, event, m. destruct (entry_slot _ _ _ _ Hn) as (p' & Hp' & _). pose proof (ok_fits s s_ok i k p' _ _ Hp' rule_at Hn) as (H1 & H2 & H3).
      split_and!; [done|lia|lia|done|]. destruct event as [e|].
      + destruct H3 as (H3 & _ & t & H4). split_and!; [lia| |eexists _, _; exact Hn|].
        * destruct hk; [|done]. rewrite Hhk in Hn by done. done.
        * exists t. by rewrite <- (Hsame p' Hp').
      + split; [done|]. intros e (? & ? & ?). congruence. }
  destruct (put_slot s1 i k p (DAbsence (Some i) event m) Hwf1 Hs1) as (H1 & H2 & H3 & H4).
  exists s1, k, p, hk, event, m. split_and!; [done|exists rule; split; [by eapply get_absence_run|done]| |lia|lia|done].
  cbn zeta. split_and!; [done|done|done|by eapply only_slot_trans|done|]. simpl. by rewrite Hx1.
Qed.

(** The wait of a slot ends: its event is removed. *)
Lemma end_of_wait k p e m t s2 (f : cmd state unit) x' :
  wf s2 -> slot s2 i k = Some p -> entry s2 i k = Some (DAbsence (Some i) (Some e) m) -> only_slot i k s s2 -> c_events s2 = c_events s ->
  event_of s i k e -> c_events s !! e = Some (t, p) -> (forall s3, c_ctx s3 = c_ctx s2 -> f s3 = (with_ctx x' s3, Ret tt)) ->
  exists s', (_ ← absence_set_matched p 0; _ ← f; _ ← absence_cancel p; absence_free i p None) s2 = (s', Ret tt) /\ keeps_ok s s' /\ c_ctx s' = x'.
Proof using s_ok rule_at.
  intros Hwf Hp Hd Ho Hev Hof Ht Hf.
  destruct (set_matched_run s2 i k p (Some i) (Some e) m 0 Hwf Hp Hd) as (s3 & E3 & Hwf3 & Hp3 & Hd3 & Ho3 & Hev3 & Hx3).
  set (s4 := with_ctx x' s3). destruct (cancel_run s4 i k p (Some i) e 0 t) as (s5 & E5 & Hwf5 & Hp5 & Hd5 & Ho5 & Hev5 & Hx5);
    [by apply wf_ctx|done|done|simpl; by rewrite Hev3, Hev|].
  exists s5. split_and!.
  - rewrite (cmd_bind_Ret _ _ _ _ _ E3). rewrite (cmd_bind_Ret _ _ _ s4 tt) by (by apply Hf). by rewrite (cmd_bind_Ret _ _ _ _ _ E5).
  - assert (c_events s5 = delete e (c_events s)) as Hdel by (rewrite Hev5; simpl; by rewrite Hev3, Hev).
    eapply (absence_update k s5 (Some i) None 0); [done| |done|done|by right|].
    + eapply only_slot_trans; [exact Ho|]. eapply only_slot_trans; [apply only_slot_ctx; exact Ho3|exact Ho5].
    + split_and!; [done|intros e' He'|intros e' He'].
      * destruct Hof as (r1 & m1 & H1), He' as (r2 & m2 & H2). rewrite H1 in H2. injection H2 as _ <- _. by rewrite Hdel, lookup_delete_eq.
      * rewrite Hdel, lookup_delete_ne; [done|]. by intros ->.
  - by rewrite Hx5.
Qed.

(** Nothing is changed but the rule that is entered, and the context. *)
Lemma still_waiting k p event m s2 x' : wf s2 -> slot s2 i k = Some p -> entry s2 i k = Some (DAbsence (Some i) event m) -> only_slot i k s s2 -> c_events s2 = c_events s ->
  0 <= m < LIMIT ->
  match event with
  | Some e => 0 < m /\ event_of s i k e /\ exists t, c_events s !! e = Some (t, p)
  | None => m = 0 /\ forall e, ~ event_of s i k e
  end -> keeps_ok s (with_ctx x' s2).
Proof using s_ok rule_at.
  intros Hwf Hp Hd Ho Hev Hm Hc. eapply (absence_update k _ (Some i) event m); [by apply wf_ctx|by apply only_slot_ctx|done|done|by right|].
  destruct event as [e|].
  - destruct Hc as (H1 & H2 & t & H3). split_and!; [done|done|exists t, p; split; [done|]; simpl; by rewrite Hev|by left].
  - destruct Hc as [-> Hno]. split_and!; [done|by intros e He; destruct (Hno e)|]. intros e _. simpl. by rewrite Hev.
Qed.

Lemma process_absence_ok now timeval : good_ctx (c_ctx s) -> 0 < timeval < LIMIT -> 0 <= now < LIMIT ->
  exists s', process_absence now timeval i own c trig req n exec s = (s', Ret tt) /\ keeps_ok s s' /\ left_ctx (c_ctx s').
Proof using s_ok rule_at.
  intros Hx Ht Hnow. pose proof (ok_rules s s_ok i _ rule_at) as (_ & _ & Hft & Hfq & Hn & Hexec).
  destruct (absence_data Hx) as (s1 & k & p & hk & event & m & E1 & (rule & Hg & Hrule) & Hs2 & Hm & Hev).
  set (s2 := with_data (<[p := DAbsence (Some i) event m]> (c_data s1)) s1) in *. destruct Hs2 as (Hwf & Hp & Hd & Ho & Hes & Hx2).
  unfold process_absence. rewrite (cmd_bind_Ret _ _ _ _ _ E1). cbn beta iota. rewrite (cmd_bind_Ret _ _ _ _ _ Hg). cbn beta iota.
  rewrite (cmd_bind_Ret _ _ s1 s1 tt) by (unfold lift; destruct Hrule as [-> | ->]; [done|]; rewrite (bool_decide_true (Some i = Some i)) by done; by rewrite orb_true_r).
  rewrite (cmd_bind_Ret _ _ _ s2 tt) by done. destruct event as [e|].
  - destruct Hev as (Hpos & -> & Hof & t & Hte). rewrite (proj2 (Z.ltb_lt 0 m)) by done. rewrite (cmd_bind_Ret _ _ s2 s2 (m + usec n)) by (unfold lift; by rewrite until_limit).
    destruct (m + usec n <? timeval).
    + destruct (Hexec (c_ctx s2)) as (x' & Hx' & Hleft). destruct (end_of_wait k p e m t s2 (execute exec) x' Hwf Hp Hd Ho Hes Hof Hte) as (s5 & E5 & Hk5 & Hx5).
      { intros s3 H3. apply execute_run. by rewrite H3. }
      exists s5. split_and!; [done|done|rewrite Hx5; by apply Hleft].
    + destruct (Hfq _ Hx2) as (b & x3 & Hb & Hx3). set (s3 := with_ctx x3 s2).
      destruct (end_of_wait k p e m t s3 (mret tt) x3) as (s5 & E5 & Hk5 & Hx5); try done; [by apply wf_ctx|by apply only_slot_ctx|intros [] H3; simpl in H3; by subst|].
      exists (if b && (timeval <? m + usec n) then s5 else s3). split_and!.
      * apply (holds_run _ _ b x3 (fun b => if (b : bool) then if timeval <? m + usec n then _ ← absence_set_matched p 0; _ ← absence_cancel p; absence_free i p None else mret tt else mret tt)); [done|].
        by destruct b, (timeval <? m + usec n).
      * destruct (b && (timeval <? m + usec n)); [done|]. eapply (still_waiting k p (Some e) m); try done. eauto.
      * destruct (b && (timeval <? m + usec n)); right; by rewrite ?Hx5.
  - destruct Hev as [-> Hno]. rewrite Z.ltb_irrefl. destruct (Hft _ Hx2) as (b & x3 & Hb & Hx3). set (s3 := with_ctx x3 s2).
    destruct b.
    2:{ exists s3. split; [|split; [by eapply (still_waiting k p None 0)|by right]]. eapply holds_run with (b := false) (f := fun b => if (b : bool) then _ else mret tt); done. }
    destruct (set_matched_run s3 i k p (Some i) None 0 timeval) as (s4 & E4 & Hwf4 & Hp4 & Hd4 & Ho4 & Hev4 & Hx4); [by apply wf_ctx|done|done|].
    set (e := fresh (dom (c_events s4))). set (s5 := with_events (<[e := (now + usec n, p)]> (c_events s4)) s4).
    destruct (put_slot s5 i k p (DAbsence (Some i) (Some e) timeval)) as (Hwf6 & Hp6 & Hd6 & Ho6); [by apply wf_events|done|].
    set (s6 := with_data (<[p := DAbsence (Some i) (Some e) timeval]> (c_data s5)) s5) in *. exists s6. split_and!.
    + eapply holds_run with (b := true) (f := fun b => if (b : bool) then _ else mret tt); [exact Hb|]. fold s3. cbn iota. rewrite (cmd_bind_Ret _ _ _ _ _ E4).
      rewrite (cmd_bind_Ret _ _ _ _ _ (get_absence_run _ _ _ _ _ _ _ Hp4 Hd4)). cbn beta iota. rewrite (cmd_bind_Ret _ _ s4 s4 tt) by done.
      rewrite (cmd_bind_Ret _ _ s4 s4 (now + usec n)) by (unfold lift; change add_seconds with until; by rewrite until_limit). rewrite (cmd_bind_Ret _ _ s4 s5 e) by done. done.
    + assert (c_events s4 = c_events s) as Hes4 by (rewrite Hev4; simpl; done). assert (c_events s !! e = None) as Hfr by (rewrite <- Hes4; apply not_elem_of_dom, is_fresh).
      eapply (absence_update k s6 (Some i) (Some e) timeval); [done| |done|lia|by right|].
      * eapply only_slot_trans; [exact Ho|]. eapply only_slot_trans; [apply (only_slot_ctx i k s2 s2 x3), only_slot_refl|]. eapply only_slot_trans; [exact Ho4|].
        eapply only_slot_trans; [apply (only_slot_events i k s4 s4 (<[e := (now + usec n, p)]> (c_events s4))), only_slot_refl|exact Ho6].
      * split_and!; [lia|done| |right].
        -- exists (now + usec n), p. split; [done|]. simpl. apply lookup_insert_eq.
        -- split_and!; [done|done|]. intros e' He'. simpl. rewrite lookup_insert_ne by done. by rewrite Hes4.
    + right. simpl. by rewrite Hx4.
Qed.

End absence.

(** *** Records and events *)

Lemma process_rule_ok now timeval s i r : ok s -> c_rules s !! i = Some r -> good_ctx (c_ctx s) -> 0 < timeval < LIMIT -> 0 <= now < LIMIT ->
  exists s' b, process_rule now timeval i r s = (s', Ret b) /\ keeps_ok s s' /\ left_ctx (c_ctx s').
Proof using.
  intros Hok Hr Hx Ht Hn. pose proof (ok_rules s Hok i r Hr) as Hf. destruct r as [exec|p c cond n exec|p c t q n exec|p c t q n exec|p c cond k n exec|cond exec]; simpl.
  - destruct (Hf _ Hx) as (x' & Hx' & Hl). exists (with_ctx x' s), false. split; [|split; [by apply ok_ctx|done]]. by rewrite (cmd_bind_Ret _ _ _ _ _ (execute_run _ _ _ Hx')).
  - destruct (process_suppressed_ok s i p c cond n exec timeval) as (s' & E1 & Hk & Hl); [done|done|done|lia|]. exists s', false. by rewrite (cmd_bind_Ret _ _ _ _ _ E1).
  - destruct (process_pair_ok s i p c t q n exec timeval) as (s' & E1 & Hk & Hl); [done|done|done|lia|]. exists s', false. by rewrite (cmd_bind_Ret _ _ _ _ _ E1).
  - destruct (process_absence_ok s i p c t q n exec Hok Hr now timeval) as (s' & E1 & Hk & Hl); [done|done|done|]. exists s', false. by rewrite (cmd_bind_Ret _ _ _ _ _ E1).
  - done.
  - destruct Hf as [Hcond Hexec]. destruct (Hcond _ Hx) as (b & x1 & (v & Ev & Eb & Ek) & Hx1). unfold process_stop. set (s1 := with_ctx x1 s).
    rewrite (cmd_bind_Ret _ _ _ _ _ (evaluate_run _ _ _ _ Ev)). rewrite (cmd_bind_Ret _ _ _ s1 b) by (unfold lift; by rewrite Eb).
    assert (exists x2, (if b then match exec with Some l => execute l | None => mret tt end else mret tt) s1 = (with_ctx x2 s1, Ret tt) /\ left_ctx x2) as (x2 & E2 & Hl).
    { destruct b, exec as [l|]; try (exists x1; split; [by destruct s|by right]). destruct (Hexec _ Hx1) as (x2 & Hx2 & Hl). exists x2. split; [by apply execute_run|done]. }
    exists (with_ctx x2 s1), b. rewrite (cmd_bind_Ret _ _ _ _ _ E2). split; [|split; [by apply (ok_ctx s x2)|done]].
    rewrite (cmd_bind_Ret _ _ _ (with_ctx x2 s1) tt) by (unfold lift; by rewrite Ek). done.
Qed.

Lemma keeps_length s s' : keeps_ok s s' -> length (c_rules s') = length (c_rules s).
Proof using. intros (_ & H1 & _). apply (f_equal length) in H1. by rewrite !length_map in H1. Qed.

Lemma process_rules_ok now timeval rules : forall i s, ok s -> length (c_rules s) = (i + length rules)%nat -> good_ctx (c_ctx s) ->
  0 < timeval < LIMIT -> 0 <= now < LIMIT -> exists s', process_rules now timeval i rules s = (s', Ret tt) /\ keeps_ok s s'.
Proof using.
  induction rules as [|r0 rules IH]; intros i s Hok Hl Hx Ht Hn; [by exists s|]. cbn [process_rules length] in *.
  destruct (lookup_lt_is_Some_2 (c_rules s) i) as [r Hr]; [lia|]. rewrite (cmd_bind_Ret _ _ s s r) by (unfold get_rule; by rewrite Hr).
  destruct (process_rule_ok now timeval s i r Hok Hr Hx Ht Hn) as (s1 & b & E1 & Hk1 & Hl1). rewrite (cmd_bind_Ret _ _ _ _ _ E1). erewrite cmd_bind_Ret by reflexivity.
  destruct (x_logdata (c_ctx s1)) as [al|] eqn:Ex; [|by exists s1]. destruct Hl1 as [Hl1|Hl1]; [congruence|]. destruct b; [by exists s1|].
  destruct (IH (S i) s1) as (s2 & E2 & Hk2); [apply Hk1|rewrite (keeps_length s s1); [lia|done]|done|done|done|].
  exists s2. split; [done|by eapply keeps_trans].
Qed.

Lemma pm_evcorr_process_ok timefield now al t s : ok s -> good al -> get_timeval timefield now al = Ret t -> 0 < t < LIMIT -> 0 <= now < LIMIT ->
  exists s' al', pm_evcorr_process timefield now al s = (s', Ret al') /\ keeps_ok s s'.
Proof using.
  intros Hok Hal Et Ht Hn. unfold pm_evcorr_process. erewrite cmd_bind_Ret by reflexivity. set (s1 := with_ctx _ s).
  rewrite (cmd_bind_Ret _ _ s1 s1 t) by (unfold lift; by rewrite Et). set (s2 := with_timeval t s1). rewrite (cmd_bind_Ret _ _ s1 s2 tt) by done.
  rewrite (cmd_bind_Ret _ _ s2 s2 s2) by done.
  assert (keeps_ok s s2) as Hk.
  { destruct (ok_ctx s (Ectx (Some al) [] false (x_env (c_ctx s))) Hok) as [[] Hm]. split; [|done]. constructor; try done. destruct ok_wf0. by constructor. }
  destruct (process_rules_ok now t (c_rules s2) 0 s2) as (s3 & E3 & Hk3); [apply Hk|done|by exists al|done|done|].
  rewrite (cmd_bind_Ret _ _ _ _ _ E3). erewrite cmd_bind_Ret by reflexivity. eexists _, _. split; [done|exact (keeps_trans _ _ _ Hk Hk3)].
Qed.

Lemma fire_ok captured dropped e s : ok s -> is_Some (c_events s !! e) -> exists s', fire captured dropped e s = (s', Ret tt) /\ keeps_ok s s'.
Proof using.
  intros Hok [[t p] He]. destruct (ok_events s Hok e t p He) as (i & k & Hp & (rule & m & Hd)). destruct (slot_rule _ _ _ _ Hp) as [r Hr].
  pose proof (ok_fits s Hok i k p r _ Hp Hr Hd) as Hf. destruct r as [| | |own c trig req n exec| |]; try done. destruct Hf as (Hm & _ & Hpos & -> & _).
  pose proof (ok_rules s Hok i _ Hr) as (_ & _ & _ & _ & _ & Hexec). unfold fire. rewrite He.
  set (s1 := with_events (delete e (c_events s)) s). set (s2 := with_ctx (Ectx None captured dropped (x_env (c_ctx s1))) s1).
  destruct (Hexec (c_ctx s2)) as (x' & Hx' & _). set (s3 := with_ctx x' s2).
  assert (wf s3 /\ only_slot i k s s3) as [Hwf3 Ho3].
  { split; [apply wf_ctx, wf_ctx, wf_events, Hok|]. apply only_slot_ctx, only_slot_ctx, only_slot_events, only_slot_refl. }
  destruct (put_slot s3 i k p (DAbsence (Some i) None 0) Hwf3 Hp) as (Hwf4 & Hp4 & Hd4 & Ho4). eexists. split.
  - rewrite (cmd_bind_Ret _ _ s s1 tt) by (unfold remove_event; by rewrite He). unfold pm_evcorr_absence_event. rewrite (cmd_bind_Ret _ _ s1 s2 tt) by done.
    rewrite (cmd_bind_Ret _ _ _ _ _ (get_absence_run s2 i k p _ _ _ Hp Hd)). cbn beta iota. erewrite cmd_bind_Ret by reflexivity.
    rewrite (cmd_bind_Ret _ _ s2 s2 (ABSENCE own c trig req n exec)) by (unfold get_rule; simpl; by rewrite Hr).
    rewrite (cmd_bind_Ret _ _ s2 s3 tt) by (by apply execute_run). rewrite (cmd_bind_Ret _ _ _ _ _ (get_absence_run s3 i k p _ _ _ Hp Hd)). cbn beta iota. reflexivity.
  - eapply (absence_update s i own c trig req n exec Hok Hr k _ (Some i) None 0); [done|by eapply only_slot_trans|done|done|by right|]. split_and!; [done|intros e' He'|intros e' He'].
    + destruct He' as (r2 & m2 & H2). rewrite Hd in H2. injection H2 as _ <- _. simpl. apply lookup_delete_eq.
    + simpl. rewrite lookup_delete_ne; [done|]. intros ->. destruct He'. by eexists _, _.
Qed.

(** *** Cleanup *)

(** An entry of a table and its data are freed. *)
Lemma drop_slot s i r e t key p : wf s -> c_rules s !! i = Some r -> context_of r = Some (e, t) -> t !! key = Some p ->
  exists s', free_hash_item i key p s = (s', Ret tt) /\ wf s' /\ slot s' i (Some key) = None /\ only_slot i (Some key) s s' /\ c_events s' = c_events s.
Proof using.
  intros [Ha Hi] Hr Hc Hk. destruct (set_table_facts e t (delete key t) r Hc) as (Hc' & Ho & Ht).
  assert (i < length (c_rules s))%nat as Hl by (by eapply lookup_lt_Some).
  assert (slot s i (Some key) = Some p) as Hp by (unfold slot; rewrite Hr; simpl; by rewrite Hc).
  set (s1 := with_rules (<[i := set_table e (delete key t) r]> (c_rules s)) s). set (s' := with_data (delete p (c_data s1)) s1).
  assert (forall j k, slot s' j k = if bool_decide ((j, k) = (i, Some key)) then None else slot s j k) as Hslot.
  { intros j k. unfold slot. simpl. destruct (decide (j = i)) as [->|Hn].
    - rewrite list_lookup_insert_eq by done. rewrite Hr. cbn [mbind option_bind]. destruct k as [k'|]; cbn [slot_of].
      + rewrite Hc', Hc. destruct (decide (k' = key)) as [->|Hk']; [by rewrite lookup_delete_eq, bool_decide_true|].
        rewrite lookup_delete_ne by done. rewrite bool_decide_false by congruence. done.
      + rewrite Ho. by rewrite bool_decide_false.
    - rewrite list_lookup_insert_ne by done. rewrite bool_decide_false by congruence. done. }
  assert (forall j k q, (j, k) <> (i, Some key) -> slot s j k = Some q -> q <> p) as Hne.
  { intros j k q Hn Hq ->. destruct (Hi _ _ _ _ _ Hq Hp) as [-> ->]. done. }
  exists s'. split_and!.
  - unfold free_hash_item. rewrite (cmd_bind_Ret _ _ s s1 tt).
    + unfold free_data. simpl. destruct (Ha _ _ _ Hp) as [d Hd]. by rewrite Hd.
    + unfold hash_set. rewrite (cmd_bind_Ret _ _ s s r) by (unfold get_rule; by rewrite Hr). rewrite Hc. reflexivity.
  - constructor.
    + intros j k q. rewrite Hslot. case_bool_decide as Hn; [done|]. intros Hq. simpl. rewrite lookup_delete_ne; [by eapply Ha|]. intros Hpq. by apply (Hne j k q Hn Hq).
    + intros j k j' k' q. rewrite !Hslot. repeat case_bool_decide; try done. by apply Hi.
  - by rewrite Hslot, bool_decide_true.
  - constructor; simpl; [|intros j k Hn; rewrite Hslot; by rewrite bool_decide_false| |done..].
    + rewrite list_fmap_insert, Ht. apply list_insert_id. rewrite list_lookup_fmap. by rewrite Hr.
    + intros j k Hn. unfold entry. rewrite Hslot, bool_decide_false by done. destruct (slot s j k) as [q|] eqn:Eq; [|done]. cbn [mbind option_bind].
      simpl. rewrite lookup_delete_ne; [done|]. intros Hpq. by apply (Hne j k q Hn Eq).
  - done.
Qed.

(** What the release of the data of a slot does: its event is removed. *)
Definition releases (i : nat) (r0 : rule) (release : loc -> cmd state unit) : Prop := forall s r key p, ok s -> c_rules s !! i = Some r -> template r = template r0 ->
  slot s i (Some key) = Some p -> exists s', release p s = (s', Ret tt) /\ wf s' /\ c_rules s' = c_rules s /\ only_slot i (Some key) s s' /\
    (forall e, event_of s i (Some key) e -> c_events s' !! e = None) /\ (forall e, ~ event_of s i (Some key) e -> c_events s' !! e = c_events s !! e).

Lemma slot_table s i r key p : c_rules s !! i = Some r -> slot s i (Some key) = Some p -> exists e t, context_of r = Some (e, t) /\ t !! key = Some p.
Proof using. unfold slot. intros ->. simpl. destruct (context_of r) as [[e t]|]; [|done]. eauto. Qed.

Lemma clean_entry_ok i r0 release s r key p : releases i r0 release -> ok s -> c_rules s !! i = Some r -> template r = template r0 -> slot s i (Some key) = Some p ->
  exists s', (_ ← release p; free_hash_item i key p) s = (s', Ret tt) /\ keeps_ok s s' /\ only_slot i (Some key) s s'.
Proof using.
  intros Hrel Hok Hr Ht Hp. destruct (Hrel s r key p Hok Hr Ht Hp) as (s1 & E1 & Hwf1 & Hr1 & Ho1 & Hgone & Hsame).
  destruct (slot_table _ _ _ _ _ Hr Hp) as (e & t & Hc & Hk). destruct (drop_slot s1 i r e t key p Hwf1) as (s2 & E2 & Hwf2 & Hp2 & Ho2 & He2); [by rewrite Hr1|done|done|].
  assert (only_slot i (Some key) s s2) as Ho by (by eapply only_slot_trans).
  exists s2. split; [by rewrite (cmd_bind_Ret _ _ _ _ _ E1)|]. split; [|done]. split; [|split; apply Ho].
  assert (entry s2 i (Some key) = None) as Hnone by (unfold entry; by rewrite Hp2).
  eapply (ok_update i (Some key) s s2); [done|done|done| | | |].
  - intros p' r' d Hp'. congruence.
  - intros ev H1 _. rewrite He2. by apply Hsame.
  - intros ev H1 _. rewrite He2. by apply Hgone.
  - intros ev (? & ? & H1). congruence.
Qed.

Lemma clean_entries_ok i r0 clearall old release : releases i r0 release ->
  (forall s r key p d, ok s -> c_rules s !! i = Some r -> template r = template r0 -> slot s i (Some key) = Some p -> entry s i (Some key) = Some d -> exists b, old d = Ret b) ->
  forall l s r, ok s -> c_rules s !! i = Some r -> template r = template r0 -> NoDup (map fst l) -> Forall (fun kp => slot s i (Some (fst kp)) = Some (snd kp)) l ->
  exists s', clean_entries i clearall old release l s = (s', Ret tt) /\ keeps_ok s s'.
Proof using.
  intros Hrel Hold. induction l as [|[key p] l IH]; intros s r Hok Hr Ht Hnd Hl; [by exists s|]. apply Forall_cons in Hl as [Hp Hl]. simpl in Hp. change (NoDup (key :: map fst l)) in Hnd. apply NoDup_cons in Hnd as [Hkey Hnd].
  destruct (wf_alloc s (ok_wf s Hok) _ _ _ Hp) as [d Hd]. assert (entry s i (Some key) = Some d) as He by (unfold entry; by rewrite Hp).
  assert (exists b, (if clearall then mret true else lift (old d)) s = (s, Ret b)) as [b Hb].
  { destruct clearall; [by exists true|]. destruct (Hold s r key p d Hok Hr Ht Hp He) as [b Hb]. exists b. unfold lift. by rewrite Hb. }
  cbn [clean_entries]. rewrite (cmd_bind_Ret _ _ s s d) by (unfold get_data; by rewrite Hd). rewrite (cmd_bind_Ret _ _ _ _ _ Hb). destruct b.
  - destruct (clean_entry_ok i r0 release s r key p Hrel Hok Hr Ht Hp) as (s1 & E1 & Hk1 & Ho1). rewrite (cmd_bind_Ret _ _ _ _ _ E1).
    assert (exists r1, c_rules s1 !! i = Some r1 /\ template r1 = template r0) as (r1 & Hr1 & Ht1).
    { assert (map template (c_rules s1) !! i = Some (template r)) as Hl1 by (rewrite (os_rules _ _ _ _ Ho1); exact (template_at s _ i r eq_refl Hr)).
      rewrite list_lookup_fmap in Hl1. destruct (c_rules s1 !! i) as [r1|]; [|done]. injection Hl1 as Hl1. exists r1. split; [done|congruence]. }
    destruct (IH s1 r1) as (s2 & E2 & Hk2); [apply Hk1|done|done|done| |by exists s2; split; [|by eapply keeps_trans]].
    apply Forall_forall. intros kp Hin. rewrite Forall_forall in Hl. rewrite (os_slots _ _ _ _ Ho1); [by apply Hl|]. intros [= Hk]. destruct Hkey. rewrite <- Hk. by apply list_elem_of_In, in_map, list_elem_of_In.
  - rewrite (cmd_bind_Ret _ _ s s tt) by done. by eapply IH.
Qed.

Lemma timer_releases i r0 : timer r0 -> releases i r0 (fun _ => mret tt).
Proof using.
  intros Ht0 s r key p Hok Hr Ht Hp. assert (timer r) as Htr.
  { destruct r as [|? [[??]|]|? [[??]|]|? [[??]|]|? [[??]|]|], r0 as [|? [[??]|]|? [[??]|]|? [[??]|]|? [[??]|]|]; simpl in Ht; simplify_eq; done. }
  exists s. split_and!; [done|apply Hok|done|apply only_slot_refl| |done]. intros e (rule & m & He). destruct (timer_entry s i (Some key) r Hok Hr Htr) as [Hn|(? & Hn & _)]; congruence.
Qed.

Lemma absence_releases i own c t q n exec : releases i (ABSENCE own c t q n exec) absence_cancel.
Proof using.
  intros s r key p Hok Hr Ht Hp. assert (exists c', r = ABSENCE own c' t q n exec) as [c' ->].
  { destruct r as [|? [[??]|]|? [[??]|]|? [[??]|]|? [[??]|]|], c as [[??]|]; simpl in Ht; simplify_eq; eauto. }
  destruct (wf_alloc s (ok_wf s Hok) _ _ _ Hp) as [d Hd]. assert (entry s i (Some key) = Some d) as He by (unfold entry; by rewrite Hp).
  destruct (absence_entry s i own c' t q n exec Hok Hr (Some key)) as [Hn|(rule & event & m & Hn)]; [congruence|]. destruct event as [ev|].
  - destruct (event_of_pending s i (Some key) ev Hok) as (tm & p' & Hp' & Hev); [by eexists _, _|]. assert (p' = p) as -> by congruence.
    destruct (cancel_run s i (Some key) p rule ev m tm (ok_wf s Hok) Hp Hn Hev) as (s' & E1 & Hwf' & _ & _ & Ho & Hes & _).
    exists s'. split_and!; [done|done| |done| |].
    + assert (s' = fst (absence_cancel p s)) as -> by (by rewrite E1). unfold absence_cancel. rewrite (cmd_bind_Ret _ _ _ _ _ (get_absence_run _ _ _ _ _ _ _ Hp Hn)). cbn beta iota.
      unfold remove_event, mbind, cmd_bind. rewrite Hev. done.
    + intros e (r2 & m2 & H2). rewrite Hn in H2. injection H2 as _ <- _. rewrite Hes. apply lookup_delete_eq.
    + intros e Hne. rewrite Hes, lookup_delete_ne; [done|]. intros ->. destruct Hne. by eexists _, _.
  - exists s. split_and!; [|apply Hok|done|apply only_slot_refl| |done].
    + unfold absence_cancel. by rewrite (cmd_bind_Ret _ _ _ _ _ (get_absence_run _ _ _ _ _ _ _ Hp Hn)).
    + intros e (r2 & m2 & H2). congruence.
Qed.

Lemma table_slots s i r e t : c_rules s !! i = Some r -> context_of r = Some (e, t) ->
  NoDup (map fst (map_to_list t)) /\ Forall (fun kp => slot s i (Some (fst kp)) = Some (snd kp)) (map_to_list t).
Proof using.
  intros Hr Hc. split; [apply NoDup_fst_map_to_list|]. apply Forall_forall. intros [key p] Hin%elem_of_map_to_list. unfold slot. rewrite Hr. simpl. by rewrite Hc.
Qed.

Lemma expired_ok m n t : 0 <= m < LIMIT -> 0 <= n < 2 ^ 32 -> exists b, expired m n t = Ret b.
Proof using. intros Hm Hn. unfold expired. rewrite until_limit by done. by eexists. Qed.

Lemma clean_rule_ok clearall s i r : ok s -> c_rules s !! i = Some r -> exists s', clean_rule clearall i r s = (s', Ret tt) /\ keeps_ok s s'.
Proof using.
  intros Hok Hr. pose proof (ok_rules s Hok i r Hr) as Hf. unfold clean_rule. rewrite (cmd_bind_Ret _ _ s s s) by done.
  assert (exists s', (mret tt : cmd state unit) s = (s', Ret tt) /\ keeps_ok s s') as Hskip by (by exists s).
  destruct r as [exec|p [[e t]|] cond n exec|p [[e t]|] tr q n exec|p [[e t]|] tr q n exec|p c cond k n exec|cond exec]; try done.
  - destruct Hf as (_ & _ & Hn & _). destruct (table_slots s i _ e t Hr eq_refl) as [Hnd Hall]. eapply (clean_entries_ok i (SUPPRESSED p (Some (e, t)) cond n exec)); [by apply timer_releases| |done|exact Hr|done|done|done].
    intros s1 r1 key p1 d Hok1 Hr1 Ht1 Hp1 Hd1. assert (timer r1) as Htr by (destruct r1 as [|? [[??]|]|? [[??]|]|? [[??]|]|? [[??]|]|]; simpl in Ht1; by simplify_eq).
    destruct (timer_entry s1 i (Some key) r1 Hok1 Hr1 Htr) as [Hx|(m & Hx & Hm)]; rewrite Hd1 in Hx; simplify_eq. by apply expired_ok.
  - destruct Hf as (_ & _ & _ & Hn & _). destruct (table_slots s i _ e t Hr eq_refl) as [Hnd Hall]. eapply (clean_entries_ok i (PAIR p (Some (e, t)) tr q n exec)); [by apply timer_releases| |done|exact Hr|done|done|done].
    intros s1 r1 key p1 d Hok1 Hr1 Ht1 Hp1 Hd1. assert (timer r1) as Htr by (destruct r1 as [|? [[??]|]|? [[??]|]|? [[??]|]|? [[??]|]|]; simpl in Ht1; by simplify_eq).
    destruct (timer_entry s1 i (Some key) r1 Hok1 Hr1 Htr) as [Hx|(m & Hx & Hm)]; rewrite Hd1 in Hx; simplify_eq. simpl. destruct (0 <? n); [by apply expired_ok|eauto].
  - destruct Hf as (_ & _ & _ & _ & Hn & _). destruct (table_slots s i _ e t Hr eq_refl) as [Hnd Hall]. eapply (clean_entries_ok i (ABSENCE p (Some (e, t)) tr q n exec)); [apply absence_releases| |done|exact Hr|done|done|done].
    intros s1 r1 key p1 d Hok1 Hr1 Ht1 Hp1 Hd1. assert (exists c', r1 = ABSENCE p c' tr q n exec) as [c' ->].
    { destruct r1 as [|? [[??]|]|? [[??]|]|? [[??]|]|? [[??]|]|]; simpl in Ht1; simplify_eq; eauto. }
    pose proof (ok_fits s1 Hok1 i (Some key) p1 _ d Hp1 Hr1 Hd1) as Hfit. destruct d; try done. destruct Hfit as [Hm _]. by apply expired_ok.
  - by destruct Hf.
Qed.

Lemma clean_from_ok clearall rules : forall i s, ok s -> length (c_rules s) = (i + length rules)%nat -> exists s', clean_from clearall i rules s = (s', Ret tt) /\ keeps_ok s s'.
Proof using.
  induction rules as [|r0 rules IH]; intros i s Hok Hl; [by exists s|]. cbn [clean_from length] in *.
  destruct (lookup_lt_is_Some_2 (c_rules s) i) as [r Hr]; [lia|]. rewrite (cmd_bind_Ret _ _ s s r) by (unfold get_rule; by rewrite Hr).
  destruct (clean_rule_ok clearall s i r Hok Hr) as (s1 & E1 & Hk1). rewrite (cmd_bind_Ret _ _ _ _ _ E1).
  destruct (IH (S i) s1) as (s2 & E2 & Hk2); [apply Hk1|rewrite (keeps_length s s1); [lia|done]|]. exists s2. split; [done|by eapply keeps_trans].
Qed.

Lemma pm_evcorr_clean_rules_ok clearall s : ok s -> exists s', pm_evcorr_clean_rules clearall s = (s', Ret tt) /\ keeps_ok s s'.
Proof using. intros Hok. unfold pm_evcorr_clean_rules. rewrite (cmd_bind_Ret _ _ s s s) by done. by apply clean_from_ok. Qed.

(** ** Any sequence of operations *)

(** A record arrives; the [n]th pending event fires; the event of the cleanup fires;
    the module is stopped and started. *)
Inductive op :=
| Record (now : Z) (al : alist)
| Fire (n : nat) (captured : list bytes) (dropped : bool)
| Cleanup (now : Z)
| Restart (now : Z).

Section operations.
Variables (timefield : option bytes) (cleantime : Z).
Hypothesis cleantime_ok : 0 <= cleantime < 2 ^ 32.

Definition run_op (o : op) : cmd state unit :=
  match o with
  | Record now al => _ ← pm_evcorr_process timefield now al; mret tt
  | Fire n captured dropped => s ← get; match map_to_list (c_events s) !! n with Some (e, _) => fire captured dropped e | None => mret tt end
  | Cleanup now => s ← get; match c_cleanup s with Some _ => pm_evcorr_cleanup cleantime now | None => mret tt end
  | Restart now => _ ← pm_evcorr_stop; pm_evcorr_start cleantime now
  end.

Fixpoint run_ops (ops : list op) : cmd state unit := match ops with [] => mret tt | o :: ops => _ ← run_op o; run_ops ops end.

(** The clock, and the time field of records, are after 1970 and before the year 148000. *)
Definition op_fine (o : op) : Prop :=
  match o with
  | Record now al => good al /\ 0 <= now < LIMIT /\ exists t, get_timeval timefield now al = Ret t /\ 0 < t < LIMIT
  | Fire _ _ _ => True
  | Cleanup now | Restart now => 0 <= now < LIMIT
  end.

Lemma ok_cleanup s c : ok s -> ok (with_cleanup c s).
Proof using. intros []. constructor; try done. destruct ok_wf0. by constructor. Qed.

Lemma add_cleanup_ok s now : ok s -> c_cleanup s = None -> 0 <= now < LIMIT -> exists s', pm_evcorr_add_cleanup_event cleantime now s = (s', Ret tt) /\ ok s'.
Proof using cleantime_ok.
  intros Hok Hc Hn. unfold pm_evcorr_add_cleanup_event. destruct (0 <? cleantime); [|by exists s]. rewrite (cmd_bind_Ret _ _ s s s) by done.
  rewrite (cmd_bind_Ret _ _ s s tt) by (unfold lift; by rewrite bool_decide_true). eexists. split; [|by apply (ok_cleanup s (Some (now + usec cleantime)))].
  rewrite (cmd_bind_Ret _ _ s s (now + usec cleantime)); [done|]. unfold lift. change add_seconds with until. by rewrite until_limit.
Qed.

Lemma run_op_ok o s : ok s -> op_fine o -> exists s', run_op o s = (s', Ret tt) /\ ok s'.
Proof using cleantime_ok.
  intros Hok Ho. destruct o as [now al|n captured dropped|now|now]; simpl in Ho |- *.
  - destruct Ho as (Hal & Hn & t & Et & Ht). destruct (pm_evcorr_process_ok timefield now al t s Hok Hal Et Ht Hn) as (s' & al' & E1 & Hk & _).
    exists s'. split; [|done]. by rewrite (cmd_bind_Ret _ _ _ _ _ E1).
  - rewrite (cmd_bind_Ret _ _ s s s) by done. destruct (map_to_list (c_events s) !! n) as [[e [t p]]|] eqn:El; [|by exists s].
    destruct (fire_ok captured dropped e s Hok) as (s' & E1 & Hk & _); [|by exists s'].
    apply list_elem_of_lookup_2, elem_of_map_to_list in El. eauto.
  - rewrite (cmd_bind_Ret _ _ s s s) by done. destruct (c_cleanup s); [|by exists s]. unfold pm_evcorr_cleanup.
    destruct (pm_evcorr_clean_rules_ok false s Hok) as (s1 & E1 & Hok1 & _). rewrite (cmd_bind_Ret _ _ _ _ _ E1). rewrite (cmd_bind_Ret _ _ s1 s1 s1) by done.
    pose proof (ok_cleanup s1 None Hok1) as Hok2. rewrite (cmd_bind_Ret _ _ s1 (with_cleanup None s1) tt) by done.
    destruct (add_cleanup_ok (with_cleanup None s1) now Hok2 eq_refl Ho) as (s3 & E3 & Hok3). by exists s3.
  - pose proof (ok_cleanup s None Hok) as Hok1. destruct (pm_evcorr_clean_rules_ok true (with_cleanup None s) Hok1) as (s2 & E2 & Hok2 & _ & Hc2).
    destruct (add_cleanup_ok s2 now Hok2 Hc2 Ho) as (s3 & E3 & Hok3). exists s3. split; [|done].
    rewrite (cmd_bind_Ret _ _ s s2 tt); [done|]. unfold pm_evcorr_stop. by erewrite !cmd_bind_Ret by reflexivity.
Qed.

End operations.

(** A module that was configured and did not see a record. *)
Record configured s : Prop := {
  cf_fine i r : c_rules s !! i = Some r -> fine r;
  cf_tables i r e t : c_rules s !! i = Some r -> context_of r = Some (e, t) -> t = ∅;
  cf_zero i r p : c_rules s !! i = Some r -> own_of r = Some p ->
    c_data s !! p = Some (match r with ABSENCE _ _ _ _ _ _ => DAbsence None None 0 | _ => DTime 0 end);
  cf_own i j r r' p : c_rules s !! i = Some r -> c_rules s !! j = Some r' -> own_of r = Some p -> own_of r' = Some p -> i = j;
  cf_events : c_events s = ∅
}.

Lemma configured_slot s i k p : configured s -> slot s i k = Some p -> k = None /\ exists r, c_rules s !! i = Some r /\ own_of r = Some p.
Proof using.
  intros Hc. unfold slot. destruct (c_rules s !! i) as [r|] eqn:Er; [|done]. destruct k as [key|]; [|eauto]. simpl.
  destruct (context_of r) as [[e t]|] eqn:Ec; [|done]. rewrite (cf_tables s Hc i r e t Er Ec). by rewrite lookup_empty.
Qed.

Lemma configured_ok s : configured s -> ok s.
Proof using.
  intros Hc. constructor.
  - constructor.
    + intros i k p Hp. destruct (configured_slot s i k p Hc Hp) as (_ & r & Hr & Ho). rewrite (cf_zero s Hc i r p Hr Ho). eauto.
    + intros i k j k' p Hp Hp'. destruct (configured_slot s i k p Hc Hp) as (-> & r & Hr & Ho). destruct (configured_slot s j k' p Hc Hp') as (-> & r' & Hr' & Ho').
      split; [by eapply (cf_own s Hc)|done].
  - intros i r. apply (cf_fine s Hc).
  - intros i k p r d Hp Hr Hd. destruct (configured_slot s i k p Hc Hp) as (-> & r' & Hr' & Ho). assert (r' = r) as -> by congruence.
    unfold entry in Hd. rewrite Hp in Hd. simpl in Hd. rewrite (cf_zero s Hc i r p Hr Ho) in Hd. injection Hd as <-.
    pose proof (cf_fine s Hc i r Hr) as Hf. destruct r; try done; simpl; split_and!; try done. by left.
  - intros e t p. by rewrite (cf_events s Hc).
Qed.

(** C26: The module is safe for rules that are simple, suppressed, pairs, absence rules with a
    context, or stop: for every sequence of records, of pending events that fire, of
    cleanups and of restarts, no assertion fails, nothing is used after it was freed and
    no exception is thrown; and afterwards every pending event still belongs to the
    data of an absence rule that waits, every rule that waits has its event, and different
    rules and keys have different data.  The module starts as it was configured; intervals
    are below 2^32 seconds; conditions, context expressions and blocks do not throw for a record that
    is good for them (blocks of absence rules not without a record either), and leave such a
    record or drop it; a context expression gives an undefined value or one of a type that
    [get_context_hashval] can turn into a key (for another type, such as binary, it would
    read a key that was never set); the times of records are after 1970 and those and the
    clock below 2^62 microseconds. *)
Theorem evcorr_safe timefield cleantime ops s : configured s -> 0 <= cleantime < 2 ^ 32 -> Forall (op_fine timefield) ops ->
  exists s', run_ops timefield cleantime ops s = (s', Ret tt) /\ ok s'.
Proof using.
  intros Hc%configured_ok Hclean Hops. revert s Hc. induction Hops as [|o ops Ho _ IH]; intros s Hok; [by exists s|].
  destruct (run_op_ok timefield cleantime Hclean o s Hok Ho) as (s1 & E1 & Hok1). destruct (IH s1 Hok1) as (s2 & E2 & Hok2).
  exists s2. split; [|done]. cbn [run_ops]. by rewrite (cmd_bind_Ret _ _ _ _ _ E1).
Qed.

End safe.
(** ** Witnesses and gaps *)

Definition boolean_value (b : bool) : value := NxValue NX_VALUE_TYPE_BOOLEAN TRUE (DBoolean (if b then TRUE else FALSE)).

(** A record with two flags, a host and a time. *)
Definition rec (a b : bool) (h : bytes) (t : Z) : alist :=
  [ (lit "Trigger", boolean_value a); (lit "Required", boolean_value b); (lit "Host", str_value h); (lit "EventTime", nx_value_new_datetime t) ].
Definition good_rec (al : alist) : Prop := exists a b h t, (h = lit "a" \/ h = lit "b") /\ al = rec a b h t.

(** The environment counts executions. *)
Definition count_it : list (@stmt nat) := [SProcedure (fun _ x => (Ectx (x_logdata x) (x_captured x) (x_dropped x) (S (x_env x)), Ret tt)) None].
Definition trig : @expr nat := EField (lit "Trigger").
Definition req : @expr nat := EField (lit "Required").
Definition host : @expr nat := EField (lit "Host").

Section concrete.
#[local] Existing Instances little poison_malloc plain_env plain_pcre plain_stale.

(** What the expressions are for a record, and what the block does. *)
Definition flag_of (f : bytes) (x : @ectx nat) : bool :=
  match x_logdata x with
  | Some al => match alist_get f al with Some v => match is_true v with Ret b => b | _ => false end | None => false end
  | None => false
  end.
Definition host_of (x : @ectx nat) : option bytes :=
  match x_logdata x with
  | Some al => match alist_get (lit "Host") al with Some v => match as_string (v_data v) with Ret h => Some h | _ => None end | None => None end
  | None => None
  end.
Definition counted (x : @ectx nat) : @ectx nat :=
  Ectx (x_logdata x) (x_captured x) (x_dropped x) (if x_dropped x then x_env x else S (x_env x)).

Lemma field_holds (f : string) x : f = "Trigger"%string \/ f = "Required"%string -> good_ctx good_rec x -> holds (EField (lit f)) x (flag_of (lit f) x) x.
Proof.
  intros Hf (al & Hx & a & b & h & t & Hh & ->). destruct x as [d cap dr env]. simpl in Hx. subst d.
  destruct Hf as [-> | ->]; [exists (boolean_value a); by destruct a|exists (boolean_value b); by destruct b].
Qed.

Lemma host_keyed x : good_ctx good_rec x -> keyed host x (host_of x) x.
Proof.
  intros (al & Hx & a & b & h & t & Hh & ->). destruct x as [d cap dr env]. simpl in Hx. subst d. exists (str_value h). by destruct Hh as [-> | ->].
Qed.

Lemma counted_run x : executes count_it x (counted x).
Proof. by destruct x as [d cap [] env]. Qed.

Lemma field_fine (f : string) : f = "Trigger"%string \/ f = "Required"%string -> fine_cond good_rec (EField (X := nat) (lit f)).
Proof. intros Hf x Hx. exists (flag_of (lit f) x), x. by split; [apply field_holds|]. Qed.

Lemma host_fine t0 : fine_context good_rec (Some (host, t0)).
Proof. intros x Hx. exists (host_of x), x. by split; [apply host_keyed|]. Qed.

Lemma count_fine_any x : exists x', executes count_it x x' /\ (good_ctx good_rec x -> left_ctx good_rec x').
Proof. exists (counted x). split; [apply counted_run|]. intros Hx. by right. Qed.

Lemma count_fine : fine_exec good_rec count_it.
Proof. intros x Hx. destruct (count_fine_any x) as (x' & He & Hl). eauto. Qed.

Definition module_rules : list (@nx_pm_evcorr_rule nat) :=
  [ SUPPRESSED 1 (Some (host, ∅)) trig 10 count_it; PAIR 2 None trig req 5 count_it; ABSENCE 3 (Some (host, ∅)) trig req 30 count_it; STOP req None; SIMPLE count_it ].
Definition no_ctx : @ectx nat := Ectx None [] false 0%nat.
Definition module_start : @state nat :=
  State module_rules (list_to_map [(1%positive, DTime 0); (2%positive, DTime 0); (3%positive, DAbsence None None 0)]) ∅ no_ctx 0 None.

Lemma module_fine : Forall (fine good_rec) module_rules.
Proof.
  pose proof (field_fine "Trigger" (or_introl eq_refl)) as Ht. pose proof (field_fine "Required" (or_intror eq_refl)) as Hr.
  pose proof (host_fine ∅) as Hh. pose proof count_fine as Hc.
  assert (forall n, n < 2 ^ 32 -> 0 <= n -> 0 <= n < 2 ^ 32) as Hn by lia.
  apply Forall_cons_2; [exact (conj Hh (conj Ht (conj (Hn 10 eq_refl ltac:(lia)) Hc)))|].
  apply Forall_cons_2; [exact (conj I (conj Ht (conj Hr (conj (Hn 5 eq_refl ltac:(lia)) Hc))))|].
  apply Forall_cons_2; [refine (conj _ (conj Hh (conj Ht (conj Hr (conj (Hn 30 eq_refl ltac:(lia)) count_fine_any))))); discriminate|].
  apply Forall_cons_2; [exact (conj Hr I)|]. apply Forall_cons_2; [exact Hc|constructor].
Qed.

Lemma module_configured : configured good_rec module_start.
Proof.
  constructor.
  - intros i r Hr. eapply Forall_lookup_1; [exact module_fine|exact Hr].
  - intros i r e t Hr. do 5 (destruct i as [|i]; [injection Hr as <-; simpl; by intros [=]|]). done.
  - intros i r p Hr. do 5 (destruct i as [|i]; [injection Hr as <-; simpl; by intros [=<-]|]). done.
  - intros i j r r' p Hr Hr'. do 5 (destruct i as [|i]; [injection Hr as <-; do 5 (destruct j as [|j]; [injection Hr' as <-; simpl; by intros [=<-] [=]|]); done|]). done.
  - done.
Qed.

Definition sec (n : Z) : Z := n * 1000000.
Definition module_ops : list op :=
  [ Restart (sec 1000); Record (sec 1001) (rec true false (lit "a") (sec 1001)); Record (sec 1003) (rec true true (lit "b") (sec 1003));
    Fire 0 [] false; Record (sec 1040) (rec false true (lit "b") (sec 1040)); Cleanup (sec 1060); Restart (sec 1100) ].

Lemma evcorr_safe_witness : exists s', run_ops (Some (lit "EventTime")) 60 module_ops module_start = (s', Ret tt) /\ ok good_rec s'.
Proof.
  apply (evcorr_safe good_rec (Some (lit "EventTime")) 60 module_ops module_start).
  - exact module_configured.
  - split; [discriminate|reflexivity].
  - assert (forall a b h t, (h = lit "a" \/ h = lit "b") -> 0 < t < LIMIT -> op_fine good_rec (Some (lit "EventTime")) (Record t (rec a b h t))) as Hrec.
    { intros a b h t Hh Ht. split_and!; [by exists a, b, h, t|lia|lia|]. by exists t. }
    repeat (apply List.Forall_cons; [first [apply Hrec; [auto|split; reflexivity]|exact I|split; [discriminate|reflexivity]]|]). constructor.
Defined.

(** A rule alone, and the streams of its records: times in seconds. *)
Definition alone (r : @nx_pm_evcorr_rule nat) (d : data) : @state nat := State [r] {[1%positive := d]} ∅ no_ctx 0 None.
Definition stream (l : list (Z * bool * string)) : list (Z * @ectx nat) :=
  map (fun '(t, b, h) => (sec t, Ectx (Some (rec b false (lit h) (sec t))) [] false 0%nat)) l.

Lemma alone_wf r d : own_of r = Some 1%positive -> (forall e t, context_of r = Some (e, t) -> t = ∅) -> wf (alone r d).
Proof.
  intros Ho Hc. assert (forall i k p, slot (alone r d) i k = Some p -> (i, k, p) = (0%nat, None, 1%positive)) as Hs.
  { intros [|i] [key|] p; unfold slot; simpl; rewrite ?Ho; try done; [|by intros [= <-]].
    destruct (context_of r) as [[e t]|] eqn:Ec; [|done]. by rewrite (Hc e t eq_refl). }
  constructor.
  - intros i k p Hp. injection (Hs i k p Hp) as -> -> ->. eexists. reflexivity.
  - intros i k j k' p Hp Hq. injection (Hs _ _ _ Hp) as -> -> ->. by injection (Hs _ _ _ Hq) as -> ->.
Qed.

Lemma alone_entry r d k : own_of r = Some 1%positive -> (forall e t, context_of r = Some (e, t) -> t = ∅) -> entry (alone r d) 0 k = None \/ entry (alone r d) 0 k = Some d.
Proof.
  intros Ho Hc. unfold entry, slot. simpl. destruct k as [key|]; simpl; [|rewrite Ho; by right].
  destruct (context_of r) as [[e t]|] eqn:Ec; [|by left]. rewrite (Hc e t eq_refl). by left.
Qed.

Lemma stream_good l : Forall (fun tbh => snd tbh = "a"%string \/ snd tbh = "b"%string) l -> Forall (fun tx => good_ctx good_rec (snd tx)) (stream l).
Proof.
  induction 1 as [|[[t b] h] l Hh _ IH]; [constructor|]. apply Forall_cons_2; [|exact IH]. eexists. split; [reflexivity|].
  exists b, false, (lit h), (sec t). split; [|reflexivity]. simpl in Hh. destruct Hh as [-> | ->]; auto.
Qed.

Definition logins : list (Z * bool * string) :=
  [(1000, true, "a"); (1001, true, "b"); (1002, false, "a"); (1003, true, "a"); (1005, true, "a"); (1012, true, "a"); (1013, true, "a"); (1040, true, "a")]%string.

Ltac stream_is_good := apply stream_good; repeat (apply Forall_cons_2; [simpl; auto|]); constructor.

Lemma ten_seconds : 0 <= 10 < 2 ^ 32.
Proof. lia. Qed.

Lemma ascending_sorted l : Sorted Z.le l -> ascending l.
Proof.
  intros Hs%Sorted_StronglySorted; [|intros a b c; lia]. induction Hs as [|a l _ IH Ha]; intros [|i] [|j] u v Hij Hu Hv; simpl in *; try done; try lia.
  - by simplify_eq.
  - simplify_eq. by apply (Forall_lookup_1 _ _ _ _ Ha Hv).
  - apply (IH i j); [lia|done..].
Qed.

(** Three matches within ten seconds: the fifth and the seventh record; the sixth is the third
    since the fourth. *)
Lemma thresholded_counts_witness : exists s',
  feed 0 (stream logins) (alone (THRESHOLDED 1 (Some (host, ∅)) trig 3 10 count_it) (DThresholded 0 0 None)) =
    (s', Ret (outputs (fun x => (x, host_of x)) (alarm_step 3 10 (fun x => (x, flag_of (lit "Trigger") x)) counted) (fun _ => []) (stream logins))).
Proof.
  apply (thresholded_counts 3 10 ten_seconds good_rec (Some host) 1 trig count_it
    (fun x => (x, host_of x)) (fun x => (x, flag_of (lit "Trigger") x)) counted
    (fun x Hx => conj (host_keyed x Hx) Hx) (fun x Hx => conj (field_holds "Trigger" x (or_introl eq_refl) Hx) Hx) (fun x _ => counted_run x) 0
    (alone (THRESHOLDED 1 (Some (host, ∅)) trig 3 10 count_it) (DThresholded 0 0 None)) 0 (stream logins)).
  - apply alone_wf; [reflexivity|]. by intros e t [= _ <-].
  - reflexivity.
  - intros k. apply alone_entry; [reflexivity|]. by intros e t [= _ <-].
  - apply ascending_sorted. apply (bool_decide_unpack _). vm_compute. exact I.
  - stream_is_good.
  - vm_compute. repeat split; intros; discriminate.
Defined.

Lemma suppressed_quiet_witness : exists s',
  feed 0 (stream logins) (alone (SUPPRESSED 1 (Some (host, ∅)) trig 10 count_it) (DTime 0)) =
    (s', Ret (outputs (suppressed_key (fun x => (x, host_of x)) (fun x => (x, flag_of (lit "Trigger") x))) (suppressed_step 10 counted) (fun _ => []) (stream logins))).
Proof.
  apply (suppressed_quiet good_rec 10 ten_seconds (Some host) 1 trig count_it
    (fun x => (x, host_of x)) (fun x => (x, flag_of (lit "Trigger") x)) counted
    (fun x Hx => conj (host_keyed x Hx) Hx) (fun x Hx => conj (field_holds "Trigger" x (or_introl eq_refl) Hx) Hx) (fun x _ => counted_run x) 0
    (alone (SUPPRESSED 1 (Some (host, ∅)) trig 10 count_it) (DTime 0)) 0 (stream logins)).
  - apply alone_wf; [reflexivity|]. by intros e t [= _ <-].
  - reflexivity.
  - intros k. apply alone_entry; [reflexivity|]. by intros e t [= _ <-].
  - apply ascending_sorted. apply (bool_decide_unpack _). vm_compute. exact I.
  - stream_is_good.
  - vm_compute. repeat split; intros; discriminate.
Defined.

(** ** What the rules do elsewhere *)

(** The first failure, after which nothing is defined, and the number of executions;
    exceptions are caught and logged by the caller. *)
Fixpoint verdict (ops : list op) (s : @state nat) : outcome unit * nat :=
  match ops with
  | [] => (Ret tt, x_env (c_ctx s))
  | o :: ops =>
      match run_op (Some (lit "EventTime")) 60 o s with
      | (s, Ret _) | (s, Throw _) => verdict ops s
      | (s, r) => (r, x_env (c_ctx s))
      end
  end.

Definition at_time (a b : bool) (t : Z) : op := Record (sec t) (rec a b (lit "a") (sec t)).
Definition stuck : list (@stmt nat) := [SProcedure (fun _ x => (x, Throw "Exec")) None].
Definition absence_rule (exec : list (@stmt nat)) : @state nat := alone (ABSENCE 1 None trig req 30 exec) (DAbsence None None 0).
Definition matches (from : Z) (n : nat) : list op := map (fun i => at_time true false (from + Z.of_nat i)) (seq 0 n).

(** Where the module fails, on concrete runs: a cleanup or a restart frees the event of
    an absence rule without a context and leaves the pointer to it; after a burst
    of matches the list of a thresholded rule is shortened to half of the size that is
    remembered, and later matches are written behind it; a second record that
    triggers an absence rule at the time zero fails an assertion, and so does the
    next trigger after the Exec block of an absence rule has thrown; an event whose Exec
    block throws leaves a pointer to the freed event; a pair rule does not take a
    record as a new trigger if it also satisfies the required condition after the
    window; and a context whose value is binary searches the table for the key
    NULL. *)
Theorem evcorr_gaps :
  verdict [at_time true false 100; Cleanup (sec 110); at_time false true 120] (with_cleanup (Some (sec 110)) (absence_rule count_it)) = (Undef "event that was freed", 0%nat) /\
  verdict [at_time true false 100; Restart (sec 110); at_time false true 120] (absence_rule count_it) = (Undef "event that was freed", 0%nat) /\
  verdict (matches 1000 120 ++ matches 5000 80) (alone (THRESHOLDED 1 None trig 100 1000 count_it) (DThresholded 0 0 None)) = (Undef "write outside the matchlist", 21%nat) /\
  verdict [at_time true false 0; at_time true false 0] (absence_rule count_it) = (Panic "absence->event == NULL", 0%nat) /\
  verdict [at_time true false 100; at_time false false 200; at_time true false 201] (absence_rule stuck) = (Panic "absence->event == NULL", 0%nat) /\
  verdict [at_time true false 100; Fire 0 [] false; at_time false true 120] (absence_rule stuck) = (Undef "event that was freed", 0%nat) /\
  verdict [at_time true false 100; at_time true true 110; at_time false true 112] (alone (PAIR 1 None trig req 5 count_it) (DTime 0)) = (Ret tt, 0%nat) /\
  context_key (NxValue NX_VALUE_TYPE_BINARY TRUE (DBinary (lit "a") 1)) = Undef "the key NULL is read".
Proof. vm_compute. repeat split. Qed.

End concrete.

End EvcorrSafe.
