(* ===== verification/ConfigCache.v ===== *)
(** * The cache of positions (common/config_cache.c)

    Modules keep integers and strings under the names of the module and of the
    value.  They are written to a file when the process ends, and read when it starts. *)

From S2P Require Import Prelude Str Value Serialize Expr.
Import Str Value Serialize.

Module ConfigCache.

(** [nx_cc_item_t]; the value is [None] after it was freed. *)
Record nx_cc_item := CcItem {
  i_used : bool;
  i_key : bytes;
  i_value : option value;
  i_offs : Z;
  i_needflush : bool
}.

(** The longest path of the platform, what [apr_snprintf] returns for a buffer that is too
    small, and the order in which the entries of a hash table are visited. *)
Class CacheEnv := {
  APR_PATH_MAX : Z;
  snprintf_overflow : Z -> Z;
  hash_order : gmap bytes nx_cc_item -> list bytes
}.

(** The members of the context: the table, [nocache], and [ccfile] with its position.  The
    file is the one at [ccfilename]; [openable] tells whether it can be opened. *)
Record state := State {
  config_cache : gmap bytes nx_cc_item;
  nocache : bool;
  ccfile : option Z;
  file : option bytes;
  openable : bool
}.

Definition with_cache c s := State c (nocache s) (ccfile s) (file s) (openable s).
Definition with_file pos f s := State (config_cache s) (nocache s) pos f (openable s).

Abbreviation prog A := (cmd state A).

Section cache.
Context `{H : Host} `{M : Malloc} `{CE : CacheEnv}.

Definition NX_CONFIG_CACHE_VERSION : bytes := lit "NX-CC-VERSION 001".
Definition NX_CONFIG_CACHE_LIMIT : Z := 1024 * 1024 * 100.
Definition NX_CONFIG_CACHE_MAX_KEYLEN : Z := APR_PATH_MAX + 64.

(** ** Items *)

(** The key of a value of a module. *)
Definition cache_key (module key : bytes) : outcome bytes :=
  let text := module ++ lit "/" ++ key in
  let size := NX_CONFIG_CACHE_MAX_KEYLEN in
  let n := if zlen text <? size then zlen text else snprintf_overflow size in
  if n =? size then Panic "config cache key too long, limit is %d bytes" else Ret (take (Z.to_nat (size - 1)) text).

Definition value_of_item (i : nx_cc_item) : outcome value := deref (i_value i) "value that was freed".
Definition find_item (ckey : bytes) : prog (option nx_cc_item) := fun s => (s, Ret (config_cache s !! ckey)).
Definition store_item (ckey : bytes) (i : nx_cc_item) : prog unit := fun s => (with_cache (<[ckey := i]> (config_cache s)) s, Ret tt).

Definition erase_item (ckey : bytes) : prog unit := fun s => (with_cache (delete ckey (config_cache s)) s, Ret tt).

Definition is_type (t : nx_value_type) (v : value) : bool := bool_decide (v_type v = t).

Definition mark_used (i : nx_cc_item) : nx_cc_item := CcItem true (i_key i) (i_value i) (i_offs i) (i_needflush i).

(** The result of the getters is [None] if they return FALSE. *)
Definition nx_config_cache_get_int (module key : bytes) : prog (option Z) :=
  ckey ← lift (cache_key module key);
  item ← find_item ckey;
  match item with
  | None => mret None
  | Some i =>
      v ← lift (value_of_item i);
      if bool_decide (i_key i = ckey) && is_type NX_VALUE_TYPE_INTEGER v then
        z ← lift (as_integer (v_data v));
        _ ← store_item ckey (mark_used i);
        mret (Some z)
      else mret None
  end.

Definition nx_config_cache_get_string (module key : bytes) : prog (option bytes) :=
  ckey ← lift (cache_key module key);
  item ← find_item ckey;
  match item with
  | None => mret None
  | Some i =>
      v ← lift (value_of_item i);
      if bool_decide (i_key i = ckey) && is_type NX_VALUE_TYPE_STRING v then
        t ← lift (as_string (v_data v));
        _ ← store_item ckey (mark_used i);
        mret (Some t)
      else mret None
  end.

Definition nx_config_cache_set_int (module key : bytes) (z : Z) : prog unit :=
  ckey ← lift (cache_key module key);
  item ← find_item ckey;
  match item with
  | Some i =>
      v ← lift (value_of_item i);
      _ ← lift (ASSERT (is_type NX_VALUE_TYPE_INTEGER v) "item->value->type == NX_VALUE_TYPE_INTEGER");
      store_item ckey (CcItem true (i_key i) (Some (NxValue (v_type v) (v_defined v) (DInteger z))) (i_offs i) true)
  | None => store_item ckey (CcItem true ckey (Some (nx_value_new_integer z)) 0 true)
  end.

(** The old value is freed before the new one is created. *)
Definition nx_config_cache_set_string (module key text : bytes) : prog unit :=
  ckey ← lift (cache_key module key);
  item ← find_item ckey;
  match item with
  | Some i =>
      v ← lift (value_of_item i);
      _ ← lift (ASSERT (is_type NX_VALUE_TYPE_STRING v) "item->value->type == NX_VALUE_TYPE_STRING");
      _ ← lift (Expr.kill v);
      _ ← store_item ckey (CcItem (i_used i) (i_key i) None (i_offs i) (i_needflush i));
      v ← lift (nx_value_new_string text);
      store_item ckey (CcItem true (i_key i) (Some v) (i_offs i) true)
  | None =>
      v ← lift (nx_value_new_string text);
      store_item ckey (CcItem true ckey (Some v) 0 true)
  end.

(** The item itself is not freed. *)
Definition nx_config_cache_remove (module key : bytes) : prog unit :=
  ckey ← lift (cache_key module key);
  erase_item ckey.

(** ** The file *)

(** Bytes written at a position. *)
Definition overwrite (f : bytes) (pos : Z) (b : bytes) : bytes :=
  take (Z.to_nat pos) f ++ b ++ drop (Z.to_nat pos + length b) f.

(** [nx_value_to_file(value, ctx->ccfile)] *)
Definition value_to_ccfile (v : value) : prog unit := fun s =>
  match ccfile s, file s with
  | Some pos, Some f =>
      match nx_value_to_file v [] with
      | Ret b => (with_file (Some (pos + zlen b)) (Some (overwrite f pos b)) s, Ret tt)
      | Throw e => (s, Throw e) | Panic e => (s, Panic e) | Undef e => (s, Undef e)
      end
  | _, _ => (s, Undef "file that is not open")
  end.

(** [apr_file_seek(file, APR_CUR, ...)] by zero, and with [APR_SET]. *)
Definition tell : prog Z := s ← get; lift (deref (ccfile s) "file that is not open").
Definition seek (pos : Z) : prog unit := fun s => (with_file (Some pos) (file s) s, Ret tt).

(** The file, which is created, or emptied; [false] if it cannot be opened. *)
Definition open_truncated : prog bool := fun s =>
  if openable s then (with_file (Some 0) (Some []) s, Ret true) else (s, Ret false).
Definition truncate : prog unit := fun s => (with_file (Some 0) (Some []) s, Ret tt).

Definition _write_item (ckey : bytes) (i : nx_cc_item) : prog unit :=
  _ ← value_to_ccfile (NxValue NX_VALUE_TYPE_STRING TRUE (DString (i_key i)));
  v ← lift (value_of_item i);
  _ ← (if is_type NX_VALUE_TYPE_INTEGER v then
         offs ← tell; store_item ckey (CcItem (i_used i) (i_key i) (i_value i) offs (i_needflush i))
       else mret tt);
  value_to_ccfile v.

Definition clear_needflush (ckey : bytes) : prog unit := fun s =>
  (with_cache (alter (fun i => CcItem (i_used i) (i_key i) (i_value i) (i_offs i) false) ckey (config_cache s)) s, Ret tt).

(** Only items that were read or written by a module are kept. *)
Fixpoint write_items (keys : list bytes) : prog unit :=
  match keys with
  | [] => mret tt
  | ckey :: keys =>
      item ← find_item ckey;
      i ← lift (deref item "entry of the table");
      _ ← (if i_used i then _ ← _write_item ckey i; clear_needflush ckey else mret tt);
      write_items keys
  end.

Definition nx_config_cache_write : prog unit :=
  s ← get;
  if nocache s then mret tt
  else if bool_decide (config_cache s = ∅) then mret tt
  else
    opened ← (match ccfile s with None => open_truncated | Some _ => _ ← truncate; mret true end);
    if (opened : bool) then
      version ← lift (nx_value_new_string NX_CONFIG_CACHE_VERSION);
      _ ← value_to_ccfile version;
      write_items (hash_order (config_cache s))
    else mret tt.

(** An integer that was written before is overwritten in place. *)
Definition _update_item (ckey : bytes) : prog unit :=
  item ← find_item ckey;
  i ← lift (deref item "item");
  v ← lift (value_of_item i);
  s ← get;
  _ ← (match ccfile s with
       | None => opened ← open_truncated; if (opened : bool) then mret tt else lift (Throw "couldn't open config cache '%s' for writing")
       | Some _ => mret tt
       end);
  _ ← (if (0 <? i_offs i) && is_type NX_VALUE_TYPE_INTEGER v
       then _ ← seek (i_offs i); value_to_ccfile v
       else nx_config_cache_write);
  clear_needflush ckey.

(** ** Reading *)

Definition _read_item (buf : bytes) (bufsize : Z) : prog Z :=
  '(key, n) ← lift (nx_value_from_membuf buf bufsize);
  _ ← lift (if is_type NX_VALUE_TYPE_STRING key then Ret tt else Throw "failed to read key from config cache");
  text ← lift (as_string (v_data key));
  '(v, m) ← lift (nx_value_from_membuf (drop (Z.to_nat n) buf) (bufsize - n));
  let ckey := cstr text in
  item ← find_item ckey;
  _ ← lift (ASSERT (bool_decide (item = None)) "tmpitem == NULL");
  _ ← store_item ckey (CcItem false ckey (Some v) 0 false);
  mret (n + m).

Fixpoint read_items (fuel : nat) (b : bytes) (bytesleft : Z) : prog unit :=
  if 0 <? bytesleft then
    match fuel with
    | O => lift (Undef "out of fuel")
    | S fuel =>
        n ← _read_item (drop (Z.to_nat (zlen b - bytesleft)) b) bytesleft;
        _ ← lift (ASSERT (n <=? bytesleft) "bytesread <= bytesleft");
        read_items fuel b (bytesleft - n)
    end
  else mret tt.

Definition read_file (b : bytes) : prog unit :=
  if NX_CONFIG_CACHE_LIMIT <? zlen b then lift (Throw "cache file is too large (%d bytes)")
  else if 0 <? zlen b then
    '(version, n) ← lift (nx_value_from_membuf b (zlen b));
    _ ← lift (if is_type NX_VALUE_TYPE_STRING version then Ret tt else Throw "string expected for config cache version");
    text ← lift (as_string (v_data version));
    _ ← lift (if bool_decide (cstr text = NX_CONFIG_CACHE_VERSION) then Ret tt else Throw "config cache version mismatch, expected %s, got %s");
    read_items (length b) b (zlen b - n)
  else mret tt.

(** A file that cannot be read is removed; the items that were read remain. *)
Definition nx_config_cache_read : prog unit := fun s =>
  if nocache s then (s, Ret tt)
  else
    match file s with
    | None => (s, Ret tt)
    | Some b =>
        if openable s then
          match read_file b s with
          | (s, Throw _) => (with_file (ccfile s) None s, Throw "failed to read config cache")
          | r => r
          end
        else (s, Throw "couldn't open config cache '%s'")
    end.

Definition nx_config_cache_free : prog unit := fun s => (with_file None (file s) (with_cache ∅ s), Ret tt).

End cache.
End ConfigCache.
