(* ===== verification/ConfigCacheSpec.v ===== *)
(** * The cache of positions: refinement of a map

    For the modules the cache is a map from names to integers and strings, of which a
    new process finds what the last one has used. *)

From S2P Require Import Prelude Str Value Serialize Expr ConfigCache.
Import Str Value Serialize ConfigCache.

Module ConfigCacheSpec.

(** Each entry of a hash table is visited once; paths are shorter than strings. *)
Class CacheLaws (CE : CacheEnv) : Prop := {
  hash_order_all m : hash_order m ≡ₚ (map_to_list m).*1;
  path_max : APR_PATH_MAX + 64 <= string_limit
}.

(** ** The specification *)

Inductive setting := Int (z : Z) | Text (t : bytes).

(** The current settings, with a mark at those that were used, and those that the next process
    finds if this one ends without any. *)
Record settings := Settings { current : gmap bytes (bool * setting); disk : gmap bytes setting }.

Inductive op :=
| GetInt (module key : bytes)
| GetString (module key : bytes)
| SetInt (module key : bytes) (z : Z)
| SetString (module key : bytes) (t : bytes)
| Remove (module key : bytes)
| Restart.

Definition name (module key : bytes) : bytes := module ++ lit "/" ++ key.

Definition kept (c : gmap bytes (bool * setting)) : gmap bytes setting := omap (fun '(used, x) => if (used : bool) then Some x else None) c.

(** What a new process finds. *)
Definition remaining (a : settings) : gmap bytes setting := if bool_decide (current a = ∅) then disk a else kept (current a).

Definition set_current (k : bytes) (x : setting) (a : settings) : settings := Settings (<[k := (true, x)]> (current a)) (disk a).

Definition spec (o : op) (a : settings) : settings * option setting :=
  match o with
  | GetInt m k => match current a !! name m k with Some (_, Int z) => (set_current (name m k) (Int z) a, Some (Int z)) | _ => (a, None) end
  | GetString m k => match current a !! name m k with Some (_, Text t) => (set_current (name m k) (Text t) a, Some (Text t)) | _ => (a, None) end
  | SetInt m k z => (set_current (name m k) (Int z) a, None)
  | SetString m k t => (set_current (name m k) (Text t) a, None)
  | Remove m k => (Settings (delete (name m k) (current a)) (disk a), None)
  | Restart => (Settings ((fun x => (false, x)) <$> remaining a) (remaining a), None)
  end.

Fixpoint spec_run (ops : list op) (a : settings) : list (option setting) :=
  match ops with [] => [] | o :: ops => let '(a, r) := spec o a in r :: spec_run ops a end.

(** ** The file *)

Definition text_value (t : bytes) : value := NxValue NX_VALUE_TYPE_STRING TRUE (DString t).
Definition setting_value (x : setting) : value := match x with Int z => nx_value_new_integer z | Text t => text_value t end.

Definition entry_bytes (e : bytes * setting) : bytes := encode_value (text_value e.1) ++ encode_value (setting_value e.2).
Definition file_bytes (l : list (bytes * setting)) : bytes := encode_value (text_value NX_CONFIG_CACHE_VERSION) ++ concat (map entry_bytes l).

Definition setting_ok (x : setting) : Prop := match x with Int z => int64 z | Text t => no_nul t /\ zlen t <= string_limit end.
Definition entry_ok (k : bytes) (x : setting) : Prop := no_nul k /\ zlen k <= string_limit /\ setting_ok x.

Section proofs.
Context `{H : Host} `{M : Malloc} {CE : CacheEnv} {CL : CacheLaws CE}.

(** *** What may be done *)

Definition key_ok (module key : bytes) : Prop := no_nul module /\ no_nul key /\ zlen (name module key) < NX_CONFIG_CACHE_MAX_KEYLEN.

(** A setting keeps its type, and the file is not too large to be read. *)
Definition allowed (o : op) (a : settings) : Prop :=
  match o with
  | GetInt m k | GetString m k | Remove m k => key_ok m k
  | SetInt m k z => key_ok m k /\ int64 z /\ match current a !! name m k with Some (_, Text _) => False | _ => True end
  | SetString m k t => key_ok m k /\ setting_ok (Text t) /\ match current a !! name m k with Some (_, Int _) => False | _ => True end
  | Restart => zlen (file_bytes (map_to_list (remaining a))) <= NX_CONFIG_CACHE_LIMIT
  end.

Fixpoint all_allowed (ops : list op) (a : settings) : Prop :=
  match ops with [] => True | o :: ops => allowed o a /\ all_allowed ops (fst (spec o a)) end.

(** *** The program *)

(** The process ends and a new one starts. *)
Definition restart : prog unit :=
  _ ← nx_config_cache_write;
  _ ← nx_config_cache_free;
  _ ← (fun s => (State ∅ false None (file s) (openable s), Ret tt));
  nx_config_cache_read.

Definition run_op (o : op) : prog (option setting) :=
  match o with
  | GetInt m k => r ← nx_config_cache_get_int m k; mret (Int <$> r)
  | GetString m k => r ← nx_config_cache_get_string m k; mret (Text <$> r)
  | SetInt m k z => _ ← nx_config_cache_set_int m k z; mret None
  | SetString m k t => _ ← nx_config_cache_set_string m k t; mret None
  | Remove m k => _ ← nx_config_cache_remove m k; mret None
  | Restart => _ ← restart; mret None
  end.

Fixpoint run (ops : list op) : prog (list (option setting)) :=
  match ops with [] => mret [] | o :: ops => r ← run_op o; rs ← run ops; mret (r :: rs) end.

(** ** The relation *)

Definition represents (k : bytes) (e : bool * setting) (i : nx_cc_item) : Prop :=
  i_used i = e.1 /\ i_key i = k /\ i_value i = Some (setting_value e.2).

Definition same_items (c : gmap bytes (bool * setting)) (m : gmap bytes nx_cc_item) : Prop :=
  forall k, option_Forall2 (represents k) (c !! k) (m !! k).

Definition on_disk (d : gmap bytes setting) (f : option bytes) : Prop :=
  match f with None => d = ∅ | Some b => exists l, l ≡ₚ map_to_list d /\ b = file_bytes l end.

Record rep (a : settings) (s : state) : Prop := {
  rep_items : same_items (current a) (config_cache s);
  rep_ok : map_Forall (fun k e => entry_ok k e.2) (current a);
  rep_disk : on_disk (disk a) (file s);
  rep_disk_ok : map_Forall entry_ok (disk a);
  rep_nocache : nocache s = false;
  rep_openable : openable s = true
}.

(** *** Items *)

Lemma same_items_lookup c m k e : same_items c m -> c !! k = Some e -> exists i, m !! k = Some i /\ represents k e i.
Proof using. intros Hs Hk. specialize (Hs k). rewrite Hk in Hs. inversion Hs; subst. eauto. Qed.

Lemma same_items_none c m k : same_items c m -> c !! k = None -> m !! k = None.
Proof using. intros Hs Hk. specialize (Hs k). rewrite Hk in Hs. by inversion Hs. Qed.

Lemma same_items_empty c m : same_items c m -> c = ∅ <-> m = ∅.
Proof using.
  intros Hs. split; intros ->; apply map_eq; intros k; specialize (Hs k); rewrite lookup_empty in Hs; rewrite lookup_empty; by inversion Hs.
Qed.

Lemma same_items_insert c m k e i : same_items c m -> represents k e i -> same_items (<[k := e]> c) (<[k := i]> m).
Proof using. intros Hs He k'. destruct (decide (k' = k)) as [->|Hn]; [rewrite !lookup_insert_eq; by constructor|by rewrite !lookup_insert_ne]. Qed.

Lemma same_items_delete c m k : same_items c m -> same_items (delete k c) (delete k m).
Proof using. intros Hs k'. destruct (decide (k' = k)) as [->|Hn]; [rewrite !lookup_delete_eq; constructor|by rewrite !lookup_delete_ne]. Qed.

Lemma same_items_store c m k e i : same_items c m -> c !! k = Some e -> represents k e i -> same_items c (<[k := i]> m).
Proof using. intros Hs Hk Hi. rewrite <- (insert_id c k e) by done. by apply same_items_insert. Qed.

(** *** Operations without a file *)

Lemma cache_key_ok m k : key_ok m k -> cache_key m k = Ret (name m k) /\ no_nul (name m k) /\ zlen (name m k) <= string_limit.
Proof using CL.
  intros (Hm & Hk & Hl). pose proof path_max. unfold cache_key. fold (name m k). rewrite (proj2 (Z.ltb_lt _ _)) by done.
  rewrite (proj2 (Z.eqb_neq _ _)) by lia. rewrite take_ge by lia. split_and!; [done| |unfold NX_CONFIG_CACHE_MAX_KEYLEN in *; lia].
  unfold name, no_nul in *. rewrite !not_elem_of_app. split_and!; [done| |done]. by apply (bool_decide_unpack _).
Qed.

Lemma rep_set a s k x i : rep a s -> entry_ok k x -> represents k (true, x) i -> rep (set_current k x a) (with_cache (<[k := i]> (config_cache s)) s).
Proof using.
  intros [Hi Ho Hd Hdo Hn Hop] Hx Hr. constructor; try done; simpl; [by apply same_items_insert|]. by apply map_Forall_insert_2.
Qed.

Lemma new_text t : setting_ok (Text t) -> nx_value_new_string t = Ret (text_value t).
Proof using.
  intros [Hn Hl]. unfold nx_value_new_string. destruct (nx_string_create_cstr t Hn Hl) as (r & -> & Hr). simpl. by rewrite (str_rep_content _ _ Hr).
Qed.

Lemma find_run (k : bytes) (s : state) : find_item k s = (s, Ret (config_cache s !! k)).
Proof using. done. Qed.

Lemma get_int_ok a s m k : rep a s -> key_ok m k -> exists s', run_op (GetInt m k) s = (s', Ret (snd (spec (GetInt m k) a))) /\ rep (fst (spec (GetInt m k) a)) s'.
Proof using CL.
  intros Hr Hk. destruct (cache_key_ok m k Hk) as (Ek & _). simpl. unfold nx_config_cache_get_int. rewrite Ek.
  destruct (current a !! name m k) as [[u x]|] eqn:Ec.
  - destruct (same_items_lookup _ _ _ _ (rep_items _ _ Hr) Ec) as (i & Ei & Hi). destruct Hi as (Hu & Hik & Hv). simpl in Hu, Hv.
    exists (match x with Int _ => with_cache (<[name m k := mark_used i]> (config_cache s)) s | Text _ => s end).
    unfold mbind, cmd_bind, lift, find_item, value_of_item. rewrite Ei. cbn beta iota. rewrite Hv. cbn [deref]. rewrite Hik, bool_decide_true by done.
    destruct x as [z|t]; [|done]. split; [done|]. apply rep_set; [done| |done]. exact (rep_ok _ _ Hr _ _ Ec).
  - exists s. unfold mbind, cmd_bind, lift, find_item. by rewrite (same_items_none _ _ _ (rep_items _ _ Hr) Ec).
Qed.

Lemma get_string_ok a s m k : rep a s -> key_ok m k -> exists s', run_op (GetString m k) s = (s', Ret (snd (spec (GetString m k) a))) /\ rep (fst (spec (GetString m k) a)) s'.
Proof using CL.
  intros Hr Hk. destruct (cache_key_ok m k Hk) as (Ek & _). simpl. unfold nx_config_cache_get_string. rewrite Ek.
  destruct (current a !! name m k) as [[u x]|] eqn:Ec.
  - destruct (same_items_lookup _ _ _ _ (rep_items _ _ Hr) Ec) as (i & Ei & Hi). destruct Hi as (Hu & Hik & Hv). simpl in Hu, Hv.
    exists (match x with Text _ => with_cache (<[name m k := mark_used i]> (config_cache s)) s | Int _ => s end).
    unfold mbind, cmd_bind, lift, find_item, value_of_item. rewrite Ei. cbn beta iota. rewrite Hv. cbn [deref]. rewrite Hik, bool_decide_true by done.
    destruct x as [z|t]; [done|]. split; [done|]. apply rep_set; [done| |done]. exact (rep_ok _ _ Hr _ _ Ec).
  - exists s. unfold mbind, cmd_bind, lift, find_item. by rewrite (same_items_none _ _ _ (rep_items _ _ Hr) Ec).
Qed.

Lemma set_int_ok a s m k z : rep a s -> allowed (SetInt m k z) a -> exists s', run_op (SetInt m k z) s = (s', Ret None) /\ rep (fst (spec (SetInt m k z) a)) s'.
Proof using CL.
  intros Hr (Hk & Hz & Hx). destruct (cache_key_ok m k Hk) as (Ek & Hnn & Hl). simpl. unfold nx_config_cache_set_int. rewrite Ek.
  assert (entry_ok (name m k) (Int z)) as Hok by done. destruct (current a !! name m k) as [[u x]|] eqn:Ec.
  - destruct (same_items_lookup _ _ _ _ (rep_items _ _ Hr) Ec) as (i & Ei & Hu & Hik & Hv). simpl in Hu, Hv. destruct x as [z0|]; [|done].
    unfold mbind, cmd_bind, lift, find_item, value_of_item. rewrite Ei. cbn beta iota. rewrite Hv. eexists. split; [reflexivity|]. by apply rep_set.
  - unfold mbind, cmd_bind, lift, find_item. rewrite (same_items_none _ _ _ (rep_items _ _ Hr) Ec). eexists. split; [reflexivity|]. by apply rep_set.
Qed.

Lemma with_cache_twice c c' s : with_cache c (with_cache c' s) = with_cache c s.
Proof using. done. Qed.

Lemma set_string_ok a s m k t : rep a s -> allowed (SetString m k t) a -> exists s', run_op (SetString m k t) s = (s', Ret None) /\ rep (fst (spec (SetString m k t) a)) s'.
Proof using CL.
  intros Hr (Hk & Ht & Hx). destruct (cache_key_ok m k Hk) as (Ek & Hnn & Hl). simpl. unfold nx_config_cache_set_string. rewrite Ek.
  assert (entry_ok (name m k) (Text t)) as Hok by done. destruct (current a !! name m k) as [[u x]|] eqn:Ec.
  - destruct (same_items_lookup _ _ _ _ (rep_items _ _ Hr) Ec) as (i & Ei & Hu & Hik & Hv). simpl in Hu, Hv. destruct x as [|t0]; [done|].
    unfold mbind, cmd_bind, lift, find_item, value_of_item. rewrite Ei. cbn beta iota. rewrite Hv. simpl. rewrite (new_text t Ht).
    eexists. split; [reflexivity|]. rewrite with_cache_twice. cbn [config_cache with_cache]. rewrite insert_insert_eq. by apply (rep_set a s).
  - unfold mbind, cmd_bind, lift, find_item. rewrite (same_items_none _ _ _ (rep_items _ _ Hr) Ec). rewrite (new_text t Ht). eexists. split; [reflexivity|]. by apply rep_set.
Qed.

Lemma remove_ok a s m k : rep a s -> key_ok m k -> exists s', run_op (Remove m k) s = (s', Ret None) /\ rep (fst (spec (Remove m k) a)) s'.
Proof using CL.
  intros Hr Hk. destruct (cache_key_ok m k Hk) as (Ek & _). simpl. unfold nx_config_cache_remove. rewrite Ek.
  eexists. split; [reflexivity|]. destruct Hr. constructor; try done; simpl; [by apply same_items_delete|by apply map_Forall_delete].
Qed.


(** *** Writing *)

Lemma text_ok t : zlen t <= string_limit -> value_ok len32 (text_value t).
Proof using. intros Ht. left. split; [done|]. unfold string_limit in Ht. simpl. unfold len32. lia. Qed.

Lemma setting_value_ok x : setting_ok x -> value_ok len32 (setting_value x).
Proof using. destruct x as [z|t]; [by left|intros [_ Ht]; by apply text_ok]. Qed.

Lemma value_to_end v s f : ccfile s = Some (zlen f) -> file s = Some f -> value_ok len32 v ->
  value_to_ccfile v s = (with_file (Some (zlen (f ++ encode_value v))) (Some (f ++ encode_value v)) s, Ret tt).
Proof using.
  intros Hp Hf Hv. unfold value_to_ccfile. rewrite Hp, Hf. unfold nx_value_to_file. rewrite serialized_size_encode by done. cbn [mbind outcome_bind].
  set (n := zlen (encode_value v)). pose proof (malloc_length n ltac:(lia)) as Hm.
  pose proof (to_membuf_fits v [] (malloc n) n Hv (conj (Z.le_refl _) (Z.eq_le_incl _ _ (eq_sym Hm)))) as E. cbn [app] in E. change (zlen []) with 0 in E. rewrite E. cbn [mbind outcome_bind].
  rewrite Z.eqb_refl. cbn [ASSERT mbind outcome_bind app]. unfold overwrite.
  subst n. rewrite Nat2Z.id, take_ge, !drop_ge by lens. cbn [app]. rewrite !app_nil_r.
  rewrite length_app. do 3 f_equal. lia.
Qed.

(** The entries among the keys that are written. *)
Definition chosen (c : gmap bytes (bool * setting)) (keys : list bytes) : list (bytes * setting) :=
  omap (fun k => match c !! k with Some (true, x) => Some (k, x) | _ => None end) keys.

Record written_to (c : gmap bytes (bool * setting)) (f : bytes) (s : state) : Prop := {
  wt_items : same_items c (config_cache s);
  wt_pos : ccfile s = Some (zlen f);
  wt_file : file s = Some f;
  wt_nocache : nocache s = false;
  wt_openable : openable s = true
}.

Lemma written_value c f s v : written_to c f s -> value_ok len32 v ->
  exists s', value_to_ccfile v s = (s', Ret tt) /\ written_to c (f ++ encode_value v) s'.
Proof using. intros [] Hv. rewrite (value_to_end v s f) by done. eexists. split; [reflexivity|]. by constructor. Qed.

Lemma written_store c f s k e i : written_to c f s -> c !! k = Some e -> represents k e i -> written_to c f (with_cache (<[k := i]> (config_cache s)) s).
Proof using. intros [] Hk Hi. constructor; try done. by eapply same_items_store. Qed.

Lemma write_item_ok c f s k x i : written_to c f s -> c !! k = Some (true, x) -> config_cache s !! k = Some i -> entry_ok k x ->
  exists s', _write_item k i s = (s', Ret tt) /\ written_to c (f ++ entry_bytes (k, x)) s'.
Proof using.
  intros Hw Hk Hi (Hn & Hl & Hx). destruct (same_items_lookup _ _ _ _ (wt_items _ _ _ Hw) Hk) as (i' & Hi' & Hu & Hik & Hv). assert (i' = i) as -> by congruence.
  unfold _write_item. destruct (written_value c f s (text_value k) Hw (text_ok _ Hl)) as (s1 & E1 & Hw1).
  rewrite Hik. rewrite (cmd_bind_Ret _ _ s s1 tt) by done. simpl in Hv. unfold value_of_item. rewrite Hv. rewrite (cmd_bind_Ret _ _ s1 s1 (setting_value x)) by done.
  assert (exists s2, (if is_type NX_VALUE_TYPE_INTEGER (setting_value x) then
      offs ← tell; store_item k (CcItem (i_used i) k (Some (setting_value x)) offs (i_needflush i)) else mret tt) s1 = (s2, Ret tt) /\
      written_to c (f ++ encode_value (text_value k)) s2) as (s2 & E2 & Hw2).
  { destruct x as [z|t]; [|by exists s1]. simpl. unfold tell. erewrite cmd_bind_Ret; [|rewrite (cmd_bind_Ret _ _ s1 s1 s1) by done; unfold lift; by rewrite (wt_pos _ _ _ Hw1)].
    eexists. split; [reflexivity|]. eapply written_store; [done|exact Hk|]. split_and!; [exact Hu|done|done]. }
  rewrite (cmd_bind_Ret _ _ _ _ _ E2). destruct (written_value c _ s2 (setting_value x) Hw2 (setting_value_ok x Hx)) as (s3 & E3 & Hw3).
  exists s3. split; [done|]. unfold entry_bytes. cbn [fst snd]. by rewrite app_assoc.
Qed.

Lemma write_items_ok c keys : forall f s, written_to c f s -> map_Forall (fun k e => entry_ok k e.2) c -> (forall k, k ∈ keys -> is_Some (c !! k)) ->
  exists s', write_items keys s = (s', Ret tt) /\ written_to c (f ++ concat (map entry_bytes (chosen c keys))) s'.
Proof using.
  induction keys as [|k keys IH]; intros f s Hw Hok Hkeys; [exists s; simpl; by rewrite app_nil_r|].
  destruct (Hkeys k (list_elem_of_here _ _)) as [[u x] Hk]. destruct (same_items_lookup _ _ _ _ (wt_items _ _ _ Hw) Hk) as (i & Hi & Hu & Hik & Hv). simpl in Hu.
  cbn [write_items]. rewrite (cmd_bind_Ret _ _ s s (Some i)) by (unfold find_item; by rewrite Hi). rewrite (cmd_bind_Ret _ _ s s i) by done. rewrite Hu.
  assert (exists s1, (if (u : bool) then _ ← _write_item k i; clear_needflush k else mret tt) s = (s1, Ret tt) /\
    written_to c (f ++ concat (map entry_bytes (chosen c [k]))) s1) as (s1 & E1 & Hw1).
  { unfold chosen. simpl. rewrite Hk. destruct u; [|exists s; simpl; by rewrite app_nil_r].
    destruct (write_item_ok c f s k x i Hw Hk Hi (Hok _ _ Hk)) as (s1 & E1 & Hw1). rewrite (cmd_bind_Ret _ _ _ _ _ E1). eexists. split; [reflexivity|].
    simpl. rewrite app_nil_r. destruct Hw1 as [Hs1 Hp1 Hf1 Hn1 Ho1]. constructor; try done. intros k'. simpl. destruct (decide (k' = k)) as [->|Hne].
    - rewrite lookup_alter_eq. specialize (Hs1 k). inversion Hs1 as [e j Hej|]; [|by constructor]. simpl. constructor. by destruct Hej as (? & ? & ?).
    - rewrite lookup_alter_ne by done. apply Hs1. }
  rewrite (cmd_bind_Ret _ _ _ _ _ E1). destruct (IH _ s1 Hw1 Hok) as (s2 & E2 & Hw2); [intros k' Hk'; apply Hkeys; by constructor|].
  exists s2. split; [done|]. assert (chosen c (k :: keys) = chosen c [k] ++ chosen c keys) as ->.
  { unfold chosen. simpl. by destruct (c !! k) as [[[] ?]|]. }
  rewrite map_app, concat_app, app_assoc. done.
Qed.

Lemma chosen_kept c keys : NoDup keys -> (forall k, k ∈ keys <-> is_Some (c !! k)) -> chosen c keys ≡ₚ map_to_list (kept c).
Proof using.
  intros Hnd Hkeys. apply NoDup_Permutation; [|apply NoDup_map_to_list|].
  - clear Hkeys. induction Hnd as [|k keys Hk _ IH]; [constructor|]. unfold chosen. simpl. destruct (c !! k) as [[[] x]|]; [|exact IH|exact IH].
    constructor; [|exact IH]. intros (k' & Hk' & Hg)%list_elem_of_omap. destruct (c !! k') as [[[] ?]|]; simplify_eq. done.
  - intros [k x]. rewrite elem_of_map_to_list. unfold kept. rewrite lookup_omap. unfold chosen. rewrite list_elem_of_omap. split.
    + intros (k' & Hk' & Hg). destruct (c !! k') as [[[] ?]|] eqn:Ec; simplify_eq. by rewrite Ec.
    + destruct (c !! k) as [[[] x']|] eqn:Ec; intros [=]; subst. exists k. rewrite Ec. split; [apply Hkeys; by rewrite Ec|done].
Qed.

Lemma version_ok : nx_value_new_string NX_CONFIG_CACHE_VERSION = Ret (text_value NX_CONFIG_CACHE_VERSION).
Proof using. apply new_text. split; [by apply (bool_decide_unpack _)|done]. Qed.

(** After the file was written it has what a new process is to find. *)
Lemma write_ok a s : rep a s -> exists s', nx_config_cache_write s = (s', Ret tt) /\ on_disk (remaining a) (file s') /\ openable s' = true.
Proof using CL.
  intros [Hi Hok Hd Hdo Hn Ho]. unfold nx_config_cache_write, remaining. rewrite (cmd_bind_Ret _ _ s s s) by done. rewrite Hn.
  pose proof (same_items_empty _ _ Hi) as Hempty. case_bool_decide as Hc; [rewrite bool_decide_true by (by apply Hempty); by exists s|].
  rewrite bool_decide_false by (by rewrite Hempty).
  assert (exists s1, (match ccfile s with None => open_truncated | Some _ => _ ← truncate; mret true end) s = (s1, Ret true) /\ written_to (current a) [] s1 /\ config_cache s1 = config_cache s) as (s1 & E1 & Hw1 & Hc1).
  { unfold open_truncated. destruct (ccfile s); [|rewrite Ho]; (eexists; split; [reflexivity|]); (split; [by constructor|done]). }
  rewrite (cmd_bind_Ret _ _ _ _ _ E1). rewrite (cmd_bind_Ret _ _ s1 s1 (text_value NX_CONFIG_CACHE_VERSION)) by (unfold lift; by rewrite version_ok).
  destruct (written_value _ _ s1 (text_value NX_CONFIG_CACHE_VERSION) Hw1) as (s2 & E2 & Hw2); [by apply text_ok|]. rewrite (cmd_bind_Ret _ _ _ _ _ E2).
  set (keys := hash_order (config_cache s)). assert (keys ≡ₚ (map_to_list (config_cache s)).*1) as Hkeys by apply hash_order_all.
  assert (forall k, k ∈ keys <-> is_Some (current a !! k)) as Hin.
  { intros k. rewrite Hkeys, list_elem_of_fmap. split.
    - intros ([k' i] & -> & He%elem_of_map_to_list). simpl. specialize (Hi k'). rewrite He in Hi. inversion Hi; subst. eauto.
    - intros [e He]. destruct (same_items_lookup _ _ _ _ Hi He) as (i & Hk & _). exists (k, i). by rewrite elem_of_map_to_list. }
  destruct (write_items_ok (current a) keys _ s2 Hw2 Hok) as (s3 & E3 & Hw3); [intros k; apply Hin|]. exists s3. split_and!; [done| |apply Hw3].
  rewrite (wt_file _ _ _ Hw3). exists (chosen (current a) keys). split; [|done]. apply chosen_kept; [|done].
  rewrite Hkeys. apply NoDup_fst_map_to_list.
Qed.


(** *** Reading *)

Lemma text_read t rest : zlen t <= string_limit ->
  nx_value_from_membuf (encode_value (text_value t) ++ rest) (zlen (encode_value (text_value t) ++ rest)) = Ret (text_value t, zlen (encode_value (text_value t))).
Proof using.
  intros Ht. rewrite from_membuf_encode; [done| |split; [rewrite length_app; lia|lia]]. split_and!; [by left|done|done].
Qed.

Lemma setting_read x rest : setting_ok x ->
  nx_value_from_membuf (encode_value (setting_value x) ++ rest) (zlen (encode_value (setting_value x) ++ rest)) = Ret (setting_value x, zlen (encode_value (setting_value x))).
Proof using.
  destruct x as [z|t]; [|intros [_ Ht]; by apply text_read]. intros Hz. rewrite from_membuf_encode; [done| |split; [rewrite length_app; lia|lia]]. split_and!; [by left|done|done].
Qed.

Definition found_item (k : bytes) (x : setting) : nx_cc_item := CcItem false k (Some (setting_value x)) 0 false.

Lemma read_item_ok k x rest s : entry_ok k x -> config_cache s !! k = None ->
  _read_item (entry_bytes (k, x) ++ rest) (zlen (entry_bytes (k, x) ++ rest)) s =
    (with_cache (<[k := found_item k x]> (config_cache s)) s, Ret (zlen (entry_bytes (k, x)))).
Proof using.
  intros (Hn & Hl & Hx) Hk. unfold _read_item, entry_bytes. cbn [fst snd]. rewrite <- app_assoc.
  rewrite (cmd_bind_Ret _ _ s s _ (f_equal (pair s) (text_read k _ Hl))). cbn beta iota.
  rewrite (cmd_bind_Ret _ _ s s tt) by done. rewrite (cmd_bind_Ret _ _ s s k) by done.
  rewrite Nat2Z.id, drop_app_length. replace (zlen (_ ++ _ ++ rest) - _) with (zlen (encode_value (setting_value x) ++ rest)) by (rewrite (length_app (encode_value (text_value k))); lia).
  rewrite (cmd_bind_Ret _ _ s s _ (f_equal (pair s) (setting_read x rest Hx))). cbn beta iota zeta. rewrite cstr_no_nul by done.
  rewrite (cmd_bind_Ret _ _ s s None) by (unfold find_item; by rewrite Hk). rewrite (cmd_bind_Ret _ _ s s tt) by done.
  unfold store_item, mbind, cmd_bind, mret, cmd_ret. do 2 f_equal. rewrite length_app. lia.
Qed.

Definition loaded (c : gmap bytes (bool * setting)) (l : list (bytes * setting)) : gmap bytes (bool * setting) :=
  foldl (fun c '(k, x) => <[k := (false, x)]> c) c l.

Lemma loaded_lookup l : forall c k, NoDup l.*1 -> loaded c l !! k = match (list_to_map l : gmap bytes setting) !! k with Some x => Some (false, x) | None => c !! k end.
Proof using.
  induction l as [|[k0 x0] l IH]; intros c k Hnd; [done|]. cbn [fmap list_fmap fst] in Hnd. apply NoDup_cons in Hnd as [Hk0 Hnd].
  cbn [loaded foldl list_to_map foldr]. fold (loaded (<[k0 := (false, x0)]> c) l). rewrite IH by done. destruct (decide (k = k0)) as [->|Hne].
  - rewrite not_elem_of_list_to_map_1 by done. by rewrite !lookup_insert_eq.
  - by rewrite !lookup_insert_ne.
Qed.

Lemma loaded_all d l : l ≡ₚ map_to_list d -> loaded ∅ l = (fun x => (false, x)) <$> d.
Proof using.
  intros Hl. assert (NoDup l.*1) as Hnd by (rewrite Hl; apply NoDup_fst_map_to_list).
  apply map_eq. intros k. rewrite loaded_lookup, lookup_fmap by done. rewrite (list_to_map_proper l (map_to_list d)) by done. rewrite list_to_map_to_list. by destruct (d !! k).
Qed.

Lemma entry_bytes_pos e : 0 < zlen (entry_bytes e).
Proof using. unfold entry_bytes, encode_value. simpl. lia. Qed.

Lemma entries_length l : zlen l <= zlen (concat (map entry_bytes l)).
Proof using. induction l as [|e l IH]; [done|]. cbn [map concat]. rewrite length_app. pose proof (entry_bytes_pos e). cbn [length] in *. lia. Qed.

Lemma entries_permuted l l' : l ≡ₚ l' -> zlen (concat (map entry_bytes l)) = zlen (concat (map entry_bytes l')).
Proof using. induction 1; cbn [map concat]; rewrite ?length_app; lia. Qed.

Lemma read_items_ok l : forall fuel pre c s, same_items c (config_cache s) -> NoDup l.*1 -> (forall k, k ∈ l.*1 -> c !! k = None) -> Forall (fun e => entry_ok e.1 e.2) l -> (length l <= fuel)%nat ->
  exists s', read_items fuel (pre ++ concat (map entry_bytes l)) (zlen (concat (map entry_bytes l))) s = (s', Ret tt) /\
    same_items (loaded c l) (config_cache s') /\ file s' = file s /\ nocache s' = nocache s /\ openable s' = openable s.
Proof using.
  induction l as [|[k x] l IH]; intros fuel pre c s Hs Hnd Hnew Hok Hfuel; [exists s; split_and!; [by destruct fuel|done..]|].
  apply Forall_cons in Hok as [Hx Hok]. cbn [fmap list_fmap fst] in Hnd, Hnew. apply NoDup_cons in Hnd as [Hk Hnd]. destruct fuel as [|fuel]; [simpl in Hfuel; lia|].
  cbn [map concat]. set (rest := concat (map entry_bytes l)). pose proof (entry_bytes_pos (k, x)) as Hpos. cbn [read_items].
  rewrite (proj2 (Z.ltb_lt 0 _)) by (rewrite length_app; lia).
  replace (Z.to_nat (zlen (pre ++ entry_bytes (k, x) ++ rest) - zlen (entry_bytes (k, x) ++ rest))) with (length pre) by (rewrite (length_app pre); lia). rewrite drop_app_length.
  assert (config_cache s !! k = None) as Hnone by (eapply same_items_none; [done|]; apply Hnew; by left).
  rewrite (cmd_bind_Ret _ _ _ _ _ (read_item_ok k x rest s Hx Hnone)). set (s1 := with_cache _ s).
  rewrite (cmd_bind_Ret _ _ s1 s1 tt) by (unfold lift; rewrite (proj2 (Z.leb_le _ _)); [done|rewrite length_app; lia]).
  destruct (IH fuel (pre ++ entry_bytes (k, x)) (<[k := (false, x)]> c) s1) as (s2 & E2 & Hs2 & Hrest); [by apply same_items_insert|done| |done|simpl in Hfuel; lia|].
  { intros k' Hk'. rewrite lookup_insert_ne by (intros ->; done). apply Hnew. by right. }
  exists s2. split; [|done]. rewrite <- E2. fold rest. rewrite <- app_assoc. f_equal. rewrite length_app. lia.
Qed.

Lemma read_ok d s : on_disk d (file s) -> map_Forall entry_ok d -> zlen (file_bytes (map_to_list d)) <= NX_CONFIG_CACHE_LIMIT ->
  config_cache s = ∅ -> nocache s = false -> openable s = true ->
  exists s', nx_config_cache_read s = (s', Ret tt) /\ rep (Settings ((fun x => (false, x)) <$> d) d) s'.
Proof using.
  intros Hd Hok Hsize Hc Hn Ho. assert (same_items ∅ (config_cache s)) as Hs by (rewrite Hc; intros k; rewrite !lookup_empty; constructor).
  unfold nx_config_cache_read. rewrite Hn. destruct (file s) as [b|] eqn:Ef; simpl in Hd.
  2:{ subst d. exists s. split; [done|]. rewrite fmap_empty. constructor; [done|apply map_Forall_empty|by rewrite Ef|apply map_Forall_empty|done|done]. }
  rewrite Ho. destruct Hd as (l & Hl & ->).
  assert (zlen (file_bytes l) = zlen (file_bytes (map_to_list d))) as Hlen.
  { unfold file_bytes. rewrite !length_app. pose proof (entries_permuted _ _ Hl). lia. }
  assert (Forall (fun e => entry_ok e.1 e.2) l) as Hokl.
  { rewrite Hl. apply Forall_forall. intros [k x] Hin%elem_of_map_to_list. exact (Hok _ _ Hin). }
  unfold read_file. rewrite (proj2 (Z.ltb_ge _ _)) by lia. rewrite (proj2 (Z.ltb_lt 0 _)) by (unfold file_bytes, encode_value; simpl; lia).
  set (entries := concat (map entry_bytes l)). pose proof (text_read NX_CONFIG_CACHE_VERSION entries ltac:(done)) as Ev. change (encode_value (text_value NX_CONFIG_CACHE_VERSION) ++ entries) with (file_bytes l) in Ev.
  rewrite (cmd_bind_Ret _ _ s s _ (f_equal (pair s) Ev)). cbn beta iota.
  rewrite (cmd_bind_Ret _ _ s s tt) by done. rewrite (cmd_bind_Ret _ _ s s NX_CONFIG_CACHE_VERSION) by done. rewrite (cmd_bind_Ret _ _ s s tt) by done.
  replace (zlen (file_bytes l) - _) with (zlen entries) by (unfold file_bytes; rewrite length_app; fold entries; lia).
  assert (NoDup l.*1) as Hnd by (rewrite Hl; apply NoDup_fst_map_to_list).
  destruct (read_items_ok l (length (file_bytes l)) (encode_value (text_value NX_CONFIG_CACHE_VERSION)) ∅ s Hs Hnd) as (s' & E & Hs' & Hf' & Hn' & Ho'); [done|done| |].
  { pose proof (entries_length l). unfold file_bytes. rewrite length_app. lia. }
  change (encode_value (text_value NX_CONFIG_CACHE_VERSION) ++ concat (map entry_bytes l)) with (file_bytes l) in E. fold entries in E. rewrite E. exists s'. split; [done|].
  rewrite (loaded_all d l Hl) in Hs'. constructor; [done| |by rewrite Hf', Ef; exists l|done|congruence|congruence].
  intros k e. cbn [current]. rewrite lookup_fmap. destruct (d !! k) as [x|] eqn:Ek; [|done]. intros [= <-]. by apply Hok.
Qed.

Lemma remaining_ok a s : rep a s -> map_Forall entry_ok (remaining a).
Proof using.
  intros Hr. unfold remaining. case_bool_decide; [apply Hr|]. intros k x. unfold kept. rewrite lookup_omap. destruct (current a !! k) as [[[] y]|] eqn:Ek; intros [=]; subst.
  exact (rep_ok _ _ Hr _ _ Ek).
Qed.

Lemma restart_ok a s : rep a s -> allowed Restart a -> exists s', run_op Restart s = (s', Ret None) /\ rep (fst (spec Restart a)) s'.
Proof using CL.
  intros Hr Hsize. simpl in Hsize. destruct (write_ok a s Hr) as (s1 & E1 & Hd & Ho).
  destruct (read_ok (remaining a) (State ∅ false None (file s1) (openable s1)) Hd (remaining_ok a s Hr) Hsize eq_refl eq_refl Ho) as (s2 & E2 & Hr2).
  exists s2. split; [|done]. simpl. rewrite (cmd_bind_Ret _ _ s s2 tt); [done|]. unfold restart. rewrite (cmd_bind_Ret _ _ _ _ _ E1).
  by erewrite !cmd_bind_Ret by reflexivity.
Qed.

Lemma cache_op_ok o a s : rep a s -> allowed o a -> exists s', run_op o s = (s', Ret (snd (spec o a))) /\ rep (fst (spec o a)) s'.
Proof using CL.
  intros Hr Ho. destruct o; [by apply get_int_ok|by apply get_string_ok|by apply set_int_ok|by apply set_string_ok|by apply remove_ok|by apply restart_ok].
Qed.

(** C27: The cache refines a map from names to integers and strings.  For every sequence of
    reads, writes and removals by the modules and of ends and starts of the
    process, the modules read what the specification says: the setting last
    written, also by an earlier process if it was used in every process since; the
    only exception that the specification makes is that a process that ends
    without a setting leaves the file as it was.  Nothing fails, for any order in which
    the table is written, as long as the names fit the buffer, no setting changes its
    type and the file can be read. *)
Theorem cache_refines ops f : all_allowed ops (Settings ∅ ∅) -> f = None \/ f = Some (file_bytes []) ->
  exists s', run ops (State ∅ false None f true) = (s', Ret (spec_run ops (Settings ∅ ∅))).
Proof using CL.
  intros Hall Hf. assert (rep (Settings ∅ ∅) (State ∅ false None f true)) as Hr.
  { constructor; try done; simpl; [intros k; rewrite !lookup_empty; constructor|]. destruct Hf as [->| ->]; [done|]. exists []. by rewrite map_to_list_empty. }
  revert Hr. generalize (State ∅ false None f true). revert Hall. generalize (Settings ∅ ∅). clear Hf. induction ops as [|o ops IH]; intros a Hall s Hr; [by exists s|].
  destruct Hall as [Ho Hall]. destruct (cache_op_ok o a s Hr Ho) as (s1 & E1 & Hr1). cbn [run spec_run]. rewrite (cmd_bind_Ret _ _ _ _ _ E1).
  destruct (spec o a) as [a1 r]. destruct (IH a1 Hall s1 Hr1) as (s2 & E2). exists s2. by rewrite (cmd_bind_Ret _ _ _ _ _ E2).
Qed.

End proofs.

(** ** Witnesses and failures *)

(** Tables are visited in the order of stdpp. *)
Definition some_order : CacheEnv := {| APR_PATH_MAX := 4096; snprintf_overflow n := n; hash_order m := (map_to_list m).*1 |}.
Lemma some_order_laws : CacheLaws some_order.
Proof. constructor; [done|]. vm_compute. discriminate. Qed.

Definition im : bytes := lit "im_file".
Definition log : bytes := lit "/var/log/messages".
Definition session : list op :=
  [ SetInt im log 4096; SetString im (lit "host") (lit "a"); GetInt im log; Restart;
    GetInt im log; SetInt im log (-1); Restart;
    GetInt im log; GetString im (lit "host"); Remove im log; Restart; GetInt im log ].

Lemma im_log : key_ok (CE := some_order) im log.
Proof. split_and!; [apply (bool_decide_unpack _); vm_compute; exact I|apply (bool_decide_unpack _); vm_compute; exact I|reflexivity]. Qed.
Lemma im_host : key_ok (CE := some_order) im (lit "host").
Proof. split_and!; [apply (bool_decide_unpack _); vm_compute; exact I|apply (bool_decide_unpack _); vm_compute; exact I|reflexivity]. Qed.

Lemma cache_refines_witness : exists s',
  run (H := little) (M := poison_malloc) (CE := some_order) session (State ∅ false None None true) = (s', Ret (spec_run session (Settings ∅ ∅))).
Proof.
  apply (cache_refines (H := little) (M := poison_malloc) (CE := some_order) (CL := some_order_laws) session None).
  - cbn [all_allowed session].
    split; [split; [exact im_log|split; [split; [discriminate|reflexivity]|vm_compute; exact I]]|].
    split; [split; [exact im_host|split; [split; [apply (bool_decide_unpack _); vm_compute; exact I|vm_compute; discriminate]|vm_compute; exact I]]|].
    split; [exact im_log|]. split; [vm_compute; discriminate|]. split; [exact im_log|].
    split; [split; [exact im_log|split; [split; [discriminate|reflexivity]|vm_compute; exact I]]|]. split; [vm_compute; discriminate|].
    split; [exact im_log|]. split; [exact im_host|]. split; [exact im_log|]. split; [vm_compute; discriminate|]. split; [exact im_log|exact I].
  - left. reflexivity.
Defined.

Section concrete.
#[local] Existing Instances little poison_malloc some_order.

Definition started (b : bytes) : outcome unit := snd (nx_config_cache_read (State ∅ false None (Some b) true)).
Definition version : bytes := encode_value (text_value NX_CONFIG_CACHE_VERSION).

(** What the cache does elsewhere: a file with the same name twice, or one that ends after a
    name, stops the process instead of being removed; a version or a name that is marked as
    undefined is read through a null pointer; a module that stores a string where
    an integer was stored stops the process; a string that is too long is refused
    after the old one was freed, and the next read uses that; and after the only
    setting was removed the next process finds it again. *)
Theorem cache_gaps :
  started (file_bytes [(lit "m/k", Int 1); (lit "m/k", Int 2)]) = Panic "tmpitem == NULL" /\
  started (version ++ encode_value (text_value (lit "m/k"))) = Panic "bufsize > 0" /\
  started (version ++ [x02]) = Throw "failed to read config cache" /\
  started (encode_value (NxValue NX_VALUE_TYPE_STRING FALSE DZero)) = Undef "union member string" /\
  started (version ++ encode_value (NxValue NX_VALUE_TYPE_STRING FALSE DZero)) = Undef "union member string" /\
  snd (run [SetInt im log 1; SetString im log (lit "a")] (State ∅ false None None true)) = Panic "item->value->type == NX_VALUE_TYPE_STRING" /\
  (let '(s, r) := run [SetString im log (lit "a"); SetString im log (replicate (Z.to_nat (string_limit + 1)) "a"%byte)] (State ∅ false None None true) in
   r = Throw "oversized string, limit is %d bytes" /\ snd (run [GetString im log] s) = Undef "value that was freed") /\
  snd (run [SetInt im log 7; Restart; Remove im log; Restart; GetInt im log] (State ∅ false None None true)) = Ret [None; None; None; None; Some (Int 7)].
Proof. vm_compute. repeat split. Qed.

End concrete.

End ConfigCacheSpec.
