(* ===== verification/Buffer.v ===== *)
(** * The buffer (modules/processor/buffer/pm_buffer.c)

    Records that cannot be sent are kept in memory or in chunk files, and are
    sent before later ones.  The module uses a record only through its size and
    its encoding, class [Codec], and the modules behind it only through two
    functions, class [Receivers]. *)

From S2P Require Import Prelude Str Value Serialize Expr Logqueue Event.
Import Str Value Serialize.

(** [nx_logdata_serialized_size], [nx_logdata_to_membuf] into a block of that size, and
    [nx_logdata_from_membuf]. *)
Class Codec (R : Type) := {
  serialized_size : R -> Z;
  to_membuf : R -> outcome bytes;
  from_membuf : bytes -> Z -> outcome (R * Z)
}.

(** The modules behind, as the buffer sees them: [nx_module_can_send], whether the limits of their
    queues allow to send, and what they are after [nx_module_progress_logdata] handed a record
    on.  Both are in common/module.c (lines 354 to 770) and are modelled, with the queues, the
    routes and the copies, in [Route]; the buffer uses nothing else of them. *)
Class Receivers (R X : Type) := {
  can_send : X -> bool;
  hand_on : R -> X -> X
}.

Module Buffer.

Inductive nx_pm_buffer_type := NX_PM_BUFFER_TYPE_MEM | NX_PM_BUFFER_TYPE_DISK.

(** [nx_pm_buffer_conf_t] without [basedir], which does not change, and [pop_pos], which is never
    read.  A file that is open for writing is the identifier of its chunk, a file that is
    open for reading also has a position. *)
Record conf {R : Type} := Conf {
  buffer_size : Z;
  buffer_maxsize : Z;
  buffer_warnlimit : Z;
  queue : list R;
  warned : bool;
  warned_full : bool;
  type : nx_pm_buffer_type;
  size : Z;
  push_file : option Z;
  push_count : Z;
  push_id : Z;
  push_limit : Z;
  pop_file : option (Z * Z);
  pop_id : Z;
  pop_count : Z
}.
#[global] Arguments conf R : clear implicits.
#[global] Arguments Conf {R}.
#[global] Arguments buffer_size {R}.
#[global] Arguments buffer_maxsize {R}.
#[global] Arguments buffer_warnlimit {R}.
#[global] Arguments queue {R}.
#[global] Arguments warned {R}.
#[global] Arguments warned_full {R}.
#[global] Arguments type {R}.
#[global] Arguments size {R}.
#[global] Arguments push_file {R}.
#[global] Arguments push_count {R}.
#[global] Arguments push_id {R}.
#[global] Arguments push_limit {R}.
#[global] Arguments pop_file {R}.
#[global] Arguments pop_id {R}.
#[global] Arguments pop_count {R}.

(** The module, its directory, its queue with the flag that the first record was peeked, the
    modules behind, the file of the queue in memory as a list, the times of its
    pending events, whether files can be written, and whether the status is RUNNING or PAUSED. *)
Record world {R X : Type} := World {
  w_conf : conf R;
  w_files : gmap bytes bytes;
  w_in : list R;
  w_needpop : bool;
  w_next : X;
  w_saved : option (list R);
  w_events : list Z;
  w_writable : bool;
  w_running : bool
}.
#[global] Arguments world R X : clear implicits.
#[global] Arguments World {R X}.
#[global] Arguments w_conf {R X}.
#[global] Arguments w_files {R X}.
#[global] Arguments w_in {R X}.
#[global] Arguments w_needpop {R X}.
#[global] Arguments w_next {R X}.
#[global] Arguments w_saved {R X}.
#[global] Arguments w_events {R X}.
#[global] Arguments w_writable {R X}.
#[global] Arguments w_running {R X}.

Section buffer.
Context {R X : Type} `{C : Codec R} `{N : Receivers R X} `{H : Host}.

(** The name of the module, the order in which a directory is read, and the bytes of the stack
    where [lenbuf] is. *)
Variable modname : bytes.
Variable dir_order : gmap bytes bytes -> list bytes.
Variable stack : bytes.

Abbreviation conf := (conf R).
Abbreviation world := (world R X).
Abbreviation prog A := (cmd world A).

(** ** State *)

Definition with_push (f : option Z) (count id : Z) (c : conf) : conf :=
  Conf (buffer_size c) (buffer_maxsize c) (buffer_warnlimit c) (queue c) (warned c) (warned_full c) (type c) (size c) f count id (push_limit c) (pop_file c) (pop_id c) (pop_count c).
Definition with_pop (f : option (Z * Z)) (id count : Z) (c : conf) : conf :=
  Conf (buffer_size c) (buffer_maxsize c) (buffer_warnlimit c) (queue c) (warned c) (warned_full c) (type c) (size c) (push_file c) (push_count c) (push_id c) (push_limit c) f id count.
Definition with_size (n : Z) (c : conf) : conf :=
  Conf (buffer_size c) (buffer_maxsize c) (buffer_warnlimit c) (queue c) (warned c) (warned_full c) (type c) n (push_file c) (push_count c) (push_id c) (push_limit c) (pop_file c) (pop_id c) (pop_count c).
Definition with_buffer (n : Z) (q : list R) (c : conf) : conf :=
  Conf n (buffer_maxsize c) (buffer_warnlimit c) q (warned c) (warned_full c) (type c) (size c) (push_file c) (push_count c) (push_id c) (push_limit c) (pop_file c) (pop_id c) (pop_count c).
Definition with_warned (b b' : bool) (c : conf) : conf :=
  Conf (buffer_size c) (buffer_maxsize c) (buffer_warnlimit c) (queue c) b b' (type c) (size c) (push_file c) (push_count c) (push_id c) (push_limit c) (pop_file c) (pop_id c) (pop_count c).

Definition set_conf (c : conf) (w : world) : world :=
  World c (w_files w) (w_in w) (w_needpop w) (w_next w) (w_saved w) (w_events w) (w_writable w) (w_running w).
Definition set_files (f : gmap bytes bytes) (w : world) : world :=
  World (w_conf w) f (w_in w) (w_needpop w) (w_next w) (w_saved w) (w_events w) (w_writable w) (w_running w).
Definition set_in (q : list R) (b : bool) (w : world) : world :=
  World (w_conf w) (w_files w) q b (w_next w) (w_saved w) (w_events w) (w_writable w) (w_running w).
Definition set_next (x : X) (w : world) : world :=
  World (w_conf w) (w_files w) (w_in w) (w_needpop w) x (w_saved w) (w_events w) (w_writable w) (w_running w).
Definition set_saved (l : option (list R)) (w : world) : world :=
  World (w_conf w) (w_files w) (w_in w) (w_needpop w) (w_next w) l (w_events w) (w_writable w) (w_running w).
Definition set_events (l : list Z) (w : world) : world :=
  World (w_conf w) (w_files w) (w_in w) (w_needpop w) (w_next w) (w_saved w) l (w_writable w) (w_running w).

Definition modconf : prog conf := fun w => (w, Ret (w_conf w)).
Definition update (f : conf -> conf) : prog unit := fun w => (set_conf (f (w_conf w)) w, Ret tt).

(** [uint64_t] and [int] *)
Definition u64 (z : Z) : Z := z mod 2 ^ 64.
Definition int_range (z : Z) : outcome Z := if (- 2 ^ 31 <=? z) && (z <? 2 ^ 31) then Ret z else Undef "signed overflow".

(** ** Files *)

Definition chunk_name (id : Z) : bytes := modname ++ lit "." ++ print_int id ++ lit ".q".

(** The file of a chunk is created or emptied, and kept open. *)
Definition open_push (id : Z) : prog unit := fun w =>
  if w_writable w then
    (set_conf (with_push (Some id) (push_count (w_conf w)) (push_id (w_conf w)) (w_conf w)) (set_files (<[chunk_name id := []]> (w_files w)) w), Ret tt)
  else (w, Throw "couldn't open disk buffer file %s for writing").

Definition open_pop (id : Z) : prog unit := fun w =>
  match w_files w !! chunk_name id with
  | Some _ => (set_conf (with_pop (Some (id, 0)) (pop_id (w_conf w)) (pop_count (w_conf w)) (w_conf w)) w, Ret tt)
  | None => (w, Throw "couldn't open disk buffer file %s for reading")
  end.

(** Data are added to the open chunk. *)
Definition append_push (data : bytes) : prog unit := fun w =>
  match push_file (w_conf w) with
  | None => (w, Undef "push_file")
  | Some id =>
      if w_writable w then (set_files (alter (fun b => b ++ data) (chunk_name id) (w_files w)) w, Ret tt)
      else (w, Throw "failed to write disk buffer file")
  end.

(** Up to [n] bytes at the position of the chunk that is read, [None] at its end. *)
Definition read_pop (n : Z) : prog (option bytes) := fun w =>
  match pop_file (w_conf w) with
  | None => (w, Undef "pop_file")
  | Some (id, pos) =>
      match w_files w !! chunk_name id with
      | None => (w, Undef "file that was removed")
      | Some b =>
          match Logqueue.apr_file_read (drop (Z.to_nat pos) b) n with
          | None => (w, Ret None)
          | Some (d, _) => (set_conf (with_pop (Some (id, pos + zlen d)) (pop_id (w_conf w)) (pop_count (w_conf w)) (w_conf w)) w, Ret (Some d))
          end
      end
  end.

Definition remove_file (name : bytes) : prog unit := fun w => (set_files (delete name (w_files w)) w, Ret tt).

(** ** Chunks *)

(** A chunk over the limit is closed, and the next one opened. *)
Definition ensure_chunk : prog unit :=
  c ← modconf;
  _ ← (if push_limit c <=? push_count c then
         _ ← lift (ASSERT (bool_decide (is_Some (push_file c))) "modconf->push_file != NULL");
         update (with_push None 0 (push_id c + 1))
       else mret tt);
  c ← modconf;
  match push_file c with None => open_push (push_id c) | Some _ => mret tt end.

Definition write_record (r : R) : prog Z :=
  let memsize := serialized_size r in
  b ← lift (to_membuf r);
  _ ← lift (ASSERT (zlen b =? memsize) "nx_logdata_to_membuf(logdata, buf + 4, memsize) == memsize");
  _ ← append_push (nx_int32_to_le memsize ++ b);
  _ ← update (fun c => with_push (push_file c) (push_count c + 1) (push_id c) c);
  c ← modconf;
  _ ← lift (ASSERT (0 <=? size c) "modconf->size >= 0");
  n ← lift (int_range (size c + 1));
  _ ← update (with_size n);
  mret (memsize + 4).

Definition pm_buffer_push_disk (r : R) : prog Z := _ ← ensure_chunk; write_record r.

(** The chunk was read to its end: it is removed and the next one opened. *)
Definition next_chunk : prog unit :=
  c ← modconf;
  _ ← lift (ASSERT (pop_id c <? push_id c) "modconf->push_id > modconf->pop_id");
  _ ← update (with_pop None (pop_id c) (pop_count c));
  _ ← remove_file (chunk_name (pop_id c));
  _ ← update (with_pop None (pop_id c + 1) (pop_count c));
  _ ← open_pop (pop_id c + 1);
  update (fun c => with_pop (pop_file c) (pop_id c) 0 c).

(** The record whose length was read. *)
Definition pop_record (lenbuf : bytes) : prog (R * Z) :=
  _ ← lift (ASSERT (zlen lenbuf =? 4) "bytesread == 4");
  let n := nx_int32_from_le lenbuf in
  d ← read_pop n;
  b ← lift (match d with Some b => Ret b | None => Throw "failed to read logdata from disk buffer file" end);
  _ ← lift (ASSERT (zlen b =? n) "bytesread == bytes");
  '(r, m) ← lift (from_membuf b n);
  _ ← update (fun c => with_size (size c - 1) (with_pop (pop_file c) (pop_id c) (pop_count c + 1) c));
  mret (r, m + 4).

(** [None] if there is nothing to read. *)
Definition pm_buffer_pop_disk : prog (option (R * Z)) :=
  c ← modconf;
  ready ← (match pop_file c with
    | Some _ => mret true
    | None =>
        _ ← lift (ASSERT (0 <? push_id c) "modconf->push_id > 0");
        _ ← lift (ASSERT (0 <? pop_id c) "modconf->pop_id > 0");
        if push_id c <? pop_id c then mret false else _ ← open_pop (pop_id c); mret true
    end);
  if negb ready then mret None
  else
    c ← modconf;
    empty ← (if push_id c =? pop_id c then
               _ ← lift (ASSERT (pop_count c <=? push_count c) "modconf->pop_count <= modconf->push_count");
               mret (pop_count c =? push_count c)
             else
               _ ← lift (ASSERT (pop_id c <? push_id c) "modconf->push_id > modconf->pop_id");
               mret false);
    if (empty : bool) then mret None
    else
      lenbuf ← read_pop 4;
      lenbuf ← (match lenbuf with Some _ => mret lenbuf | None => _ ← next_chunk; read_pop 4 end);
      match lenbuf with
      | None => mret None
      | Some l => p ← pop_record l; mret (Some p)
      end.

(** ** Events *)

(** [nx_module_logqueue_peek] without the Exec block, [nx_module_logqueue_pop], and
    [nx_module_progress_logdata], which pops the record if one was peeked; [first] tells
    whether the record is the first of the queue. *)
Definition peek_in : prog (option R) := fun w =>
  match w_in w with r :: _ => (set_in (w_in w) true w, Ret (Some r)) | [] => (w, Ret None) end.
Definition pop_in (first : bool) : prog unit := fun w =>
  if w_needpop w then
    match w_in w with
    | r :: q => if first then (set_in q false w, Ret tt) else (w, Panic "ld == logdata")
    | [] => (w, Panic "ld != NULL")
    end
  else (w, Panic "logqueue->needpop == TRUE").
Definition deliver (r : R) : prog unit := fun w => (set_next (hand_on r (w_next w)) w, Ret tt).
Definition progress (first : bool) (r : R) : prog unit :=
  w ← get;
  _ ← (if w_needpop w then pop_in first else mret tt);
  deliver r.

(** A record is taken from the buffer. *)
Definition take_buffered : prog (option (R * Z)) :=
  c ← modconf;
  match type c with
  | NX_PM_BUFFER_TYPE_MEM => match queue c with [] => mret None | r :: _ => mret (Some (r, serialized_size r + 4)) end
  | NX_PM_BUFFER_TYPE_DISK => pm_buffer_pop_disk
  end.

Definition release (n : Z) : prog unit :=
  c ← modconf;
  _ ← lift (ASSERT (n <=? buffer_size c) "modconf->buffer_size >= bytesread");
  update (fun c => with_buffer (buffer_size c - n) (match type c with NX_PM_BUFFER_TYPE_MEM => tail (queue c) | NX_PM_BUFFER_TYPE_DISK => queue c end) c).

(** The records of the buffer are sent as long as possible; the result is [can_send]. *)
Fixpoint send_buffered (fuel : nat) : prog bool :=
  match fuel with
  | O => lift (Undef "out of fuel")
  | S fuel =>
      w ← get;
      if can_send (w_next w) then
        p ← take_buffered;
        match p with
        | None => mret true
        | Some (r, n) => _ ← release n; _ ← progress false r; send_buffered fuel
        end
      else mret false
  end.

(** The record is put into the buffer. *)
Definition store (r : R) : prog unit :=
  c ← modconf;
  _ ← (match type c with
       | NX_PM_BUFFER_TYPE_MEM =>
           _ ← update (fun c => with_buffer (u64 (buffer_size c + (serialized_size r + 4))) (queue c) c);
           _ ← pop_in true;
           update (fun c => with_buffer (buffer_size c) (queue c ++ [r]) c)
       | NX_PM_BUFFER_TYPE_DISK =>
           written ← pm_buffer_push_disk r;
           _ ← pop_in true;
           update (fun c => with_buffer (u64 (buffer_size c + written)) (queue c) c)
       end);
  c ← modconf;
  if negb (warned c) && (0 <? buffer_warnlimit c) && (buffer_warnlimit c <=? buffer_size c)
  then update (with_warned true (warned_full c)) else mret tt.

Definition pm_buffer_data_available : prog unit :=
  w ← get;
  if negb (w_running w) then mret tt
  else
    cansend ← send_buffered (S (length (queue (w_conf w)) + Z.to_nat (size (w_conf w))));
    c ← modconf;
    if negb cansend && (buffer_maxsize c <=? buffer_size c) then update (with_warned (warned c) true)
    else
      _ ← update (fun c => with_warned (warned c) (if buffer_size c <=? buffer_maxsize c / 2 then false else warned_full c) c);
      _ ← update (fun c => with_warned (if buffer_size c <=? buffer_warnlimit c / 2 then false else warned c) (warned_full c) c);
      r ← peek_in;
      match r with
      | None => mret tt
      | Some r => if (cansend : bool) then progress true r else store r
      end.

Definition nx_event_add (t : Z) : prog unit := fun w => (set_events (w_events w ++ [t]) w, Ret tt).
Definition pm_buffer_add_event (now : Z) : prog unit := t ← lift (Expr.add_seconds now 1); nx_event_add t.

Definition pm_buffer_event (now : Z) (t : Event.nx_event_type) : prog unit :=
  match t with
  | Event.NX_EVENT_DATA_AVAILABLE => pm_buffer_data_available
  | Event.NX_EVENT_READ => _ ← pm_buffer_add_event now; pm_buffer_data_available
  | _ => lift (Panic "invalid event type: %d")
  end.

(** ** Start and stop *)

Definition atoi (s : bytes) : outcome Z := int_range (default 0 (scanf_ld s)).

(** The number in a file name, if it is that of a chunk of the module. *)
Definition chunk_of (name : bytes) : outcome (option Z) :=
  let fname := modname ++ lit "." in
  let namelen := zlen fname in
  if zlen name <=? namelen + 2 then Ret None
  else if negb (bool_decide (drop (length name - 2) name = lit ".q")) then Ret None
  else if negb (bool_decide (take (length fname) name = fname)) then Ret None
  else id ← atoi (drop (length fname) name); Ret (Some id).

(** The records of a file are counted: [total] is the number of bytes of the lengths. *)
Fixpoint count_records (fuel : nat) (b lenbuf : bytes) (total n bytes : Z) : outcome (Z * Z * Z) :=
  match fuel with
  | O => Undef "out of fuel"
  | S fuel =>
      match Logqueue.apr_file_read b 4 with
      | None => Ret (total, n, bytes)
      | Some (d, b) =>
          let lenbuf := d ++ drop (length d) lenbuf in
          let len := nx_int32_from_le lenbuf in
          count_records fuel (drop (Z.to_nat len) b) lenbuf (total + zlen d) (n + 1) (bytes + (len + 4))
      end
  end.

Definition start_file (name : bytes) : prog unit := fun w =>
  match chunk_of name with
  | Ret None => (w, Ret tt)
  | Ret (Some tmp_id) =>
      match w_files w !! name with
      | None => (w, Throw "couldn't open disk buffer file %s for reading")
      | Some b =>
          match count_records (S (length b)) b stack 0 0 0 with
          | Ret (total, n, bytes) =>
              let c := w_conf w in
              let c := with_size (size c + n) (with_buffer (u64 (buffer_size c + bytes)) (queue c) c) in
              if total =? 0 then (set_conf c (set_files (delete name (w_files w)) w), Ret tt)
              else
                let c := with_push (push_file c) (push_count c) (if push_id c <? tmp_id then tmp_id else push_id c) c in
                let c := with_pop (pop_file c) (if (pop_id c =? 0) || (tmp_id <? pop_id c) then tmp_id else pop_id c) (pop_count c) c in
                (set_conf c w, Ret tt)
          | Throw e => (w, Throw e) | Panic e => (w, Panic e) | Undef e => (w, Undef e)
          end
      end
  | Throw e => (w, Throw e) | Panic e => (w, Panic e) | Undef e => (w, Undef e)
  end.

Fixpoint start_files (names : list bytes) : prog unit :=
  match names with [] => mret tt | name :: names => _ ← start_file name; start_files names end.

Definition frames_size (l : list R) : Z := foldr (fun r n => serialized_size r + 4 + n) 0 l.

(** [nx_logqueue_from_file] and [nx_logqueue_to_file] (module [Logqueue]); the size of the
    buffer is what was read. *)
Definition queue_from_file : prog unit := fun w =>
  let l := default [] (w_saved w) in
  (set_saved None (set_conf (with_buffer (frames_size l) (queue (w_conf w) ++ l) (w_conf w)) w), Ret tt).
Definition queue_to_file : prog unit := fun w =>
  match queue (w_conf w) with [] => (w, Ret tt) | q => (set_saved (Some q) w, Ret tt) end.

Definition pm_buffer_start : prog unit :=
  c ← modconf;
  match type c with
  | NX_PM_BUFFER_TYPE_DISK =>
      w ← get;
      _ ← start_files (dir_order (w_files w));
      _ ← update (fun c => with_push (push_file c) (push_count c) (push_id c + 1) c);
      c ← modconf;
      _ ← open_push (push_id c);
      update (fun c => with_pop (pop_file c) (if pop_id c =? 0 then 1 else pop_id c) (pop_count c) (with_push (push_file c) 0 (push_id c) c))
  | NX_PM_BUFFER_TYPE_MEM => queue_from_file
  end.

Definition pm_buffer_stop : prog unit :=
  c ← modconf;
  match type c with
  | NX_PM_BUFFER_TYPE_DISK =>
      _ ← (if size c =? 0 then
             match pop_file c with Some _ => _ ← update (with_pop None (pop_id c) (pop_count c)); remove_file (chunk_name (pop_id c)) | None => mret tt end
           else mret tt);
      _ ← update (with_push None 0 0);
      update (with_pop None 0 0)
  | NX_PM_BUFFER_TYPE_MEM => queue_to_file
  end.

End buffer.

(** ** Configuration *)

(** [nx_directive_t]: the name and the arguments of a line of the configuration. *)
Record nx_directive_t := Directive { directive : bytes; args : bytes }.

Definition nx_module_common_keyword (keyword : bytes) : bool :=
  existsb (strcasecmp_eq keyword) [lit "Module"; lit "Processors"; lit "Exec"; lit "Schedule"; lit "FlowControl"].

(** [sscanf] of a [uint64_t] from digits, saturating. *)
Definition scanf_lu (s : bytes) : option Z :=
  match scan_digits 10 s 0 false with (n, true) => Some (Z.min (2 ^ 64 - 1) n) | (_, false) => None end.

(** MaxSize and WarnLimit, in kilobytes; [old] is not zero if the directive was there before. *)
Definition kilobytes (old : Z) (args : bytes) : outcome Z :=
  if negb (old =? 0) then Throw "is already defined"
  else if negb (forallb isdigit args) then Throw "invalid '%s', digit expected"
  else n ← throw_none (scanf_lu args) "invalid '%s'"; Ret (u64 (n * 1024)).

(** The members that directives set. *)
Record settings := Settings { s_maxsize : Z; s_warnlimit : Z; s_type : option nx_pm_buffer_type; s_basedir : option bytes }.

Definition set_type (d : nx_directive_t) (s : settings) : outcome settings :=
  match s_type s with
  | Some _ => Throw "Type is already defined"
  | None =>
      if strcasecmp_eq (args d) (lit "mem") then Ret (Settings (s_maxsize s) (s_warnlimit s) (Some NX_PM_BUFFER_TYPE_MEM) (s_basedir s))
      else if strcasecmp_eq (args d) (lit "disk") then Ret (Settings (s_maxsize s) (s_warnlimit s) (Some NX_PM_BUFFER_TYPE_DISK) (s_basedir s))
      else Throw "invalid Type '%s'"
  end.

(** A directive with another name is ignored. *)
Definition apply_directive (d : nx_directive_t) (s : settings) : outcome settings :=
  if nx_module_common_keyword (directive d) then Ret s
  else if strcasecmp_eq (directive d) (lit "MaxSize") then n ← kilobytes (s_maxsize s) (args d); Ret (Settings n (s_warnlimit s) (s_type s) (s_basedir s))
  else if strcasecmp_eq (directive d) (lit "WarnLimit") then n ← kilobytes (s_warnlimit s) (args d); Ret (Settings (s_maxsize s) n (s_type s) (s_basedir s))
  else if strcasecmp_eq (directive d) (lit "Type") then set_type d s
  else if strcasecmp_eq (directive d) (lit "Directory") then
    match s_basedir s with
    | Some _ => Throw "Directory is already defined"
    | None => Ret (Settings (s_maxsize s) (s_warnlimit s) (s_type s) (Some (args d)))
    end
  else Ret s.

Fixpoint apply_directives (ds : list nx_directive_t) (s : settings) : outcome settings :=
  match ds with [] => Ret s | d :: ds => s ← apply_directive d s; apply_directives ds s end.

Definition NX_PM_BUFFER_DEFAULT_CHUNK_SIZE_LIMIT : Z := 10000.

(** The module and its directory; [cachedir] is [nx_module_get_cachedir]. *)
Definition pm_buffer_config {R : Type} (cachedir : bytes) (ds : list nx_directive_t) : outcome (conf R * option bytes) :=
  s ← apply_directives ds (Settings 0 0 None None);
  if s_maxsize s =? 0 then Throw "MaxSize parameter must be defined for %s"
  else
    t ← throw_none (s_type s) "Type parameter (Mem|Disk) must be defined for %s";
    let dir := match t, s_basedir s with NX_PM_BUFFER_TYPE_DISK, None => Some cachedir | _, d => d end in
    Ret (Conf 0 (s_maxsize s) (s_warnlimit s) [] false false t 0 None 0 0 NX_PM_BUFFER_DEFAULT_CHUNK_SIZE_LIMIT None 0 0, dir).

End Buffer.
