(* ===== verification/BufferSpec.v ===== *)
(** * The buffer: a queue

    The chunk files and the counters represent a queue of records that survives a restart of
    the program: no record is lost or overtaken, and the size is bounded. *)

From S2P Require Import Prelude Str Value Serialize Expr Logqueue Event Buffer.
Import Str Value Serialize Buffer.

(** What the module relies on: a record that is [codec_ok] can be written and read again. *)
Class CodecLaws (R : Type) `{Codec R} := {
  codec_ok : R -> Prop;
  codec_rt r : codec_ok r -> exists b, to_membuf r = Ret b /\ zlen b = serialized_size r /\ 0 < serialized_size r < 2 ^ 32 /\
    from_membuf b (serialized_size r) = Ret (r, serialized_size r)
}.

(** The records that were handed on.  A record that is handed on is kept: of the receivers
    of [Route] this holds if [nx_module_can_send] was asked before, as the buffer does, and no
    other sender fills the queue of the receiver in between. *)
Class ReceiversLaws (R X : Type) `{Receivers R X} := {
  sent : X -> list R;
  sent_hand_on r x : sent (hand_on r x) = sent x ++ [r]
}.

Module BufferSpec.

Section spec.
Context {R X : Type} `{C : Codec R} {CL : CodecLaws R} `{N : Receivers R X} {NL : ReceiversLaws R X} `{H : Host}.
Variable modname : bytes.

Abbreviation conf := (conf R).
Abbreviation world := (world R X).
Implicit Types w : world.

Abbreviation chunk_name := (chunk_name modname).
Abbreviation pm_buffer_push_disk := (pm_buffer_push_disk modname).
Abbreviation pm_buffer_pop_disk := (pm_buffer_pop_disk modname).

(** ** Frames *)

Definition body (r : R) : bytes := match to_membuf r with Ret b => b | _ => [] end.
Definition frame (r : R) : bytes := le 4 (serialized_size r) ++ body r.
Definition chunk_bytes (l : list R) : bytes := concat (map frame l).

Lemma body_ok r : codec_ok r -> to_membuf r = Ret (body r) /\ zlen (body r) = serialized_size r /\ 0 < serialized_size r < 2 ^ 32 /\ from_membuf (body r) (serialized_size r) = Ret (r, serialized_size r).
Proof using. intros Hr. destruct (codec_rt r Hr) as (b & E & ?). unfold body. by rewrite E. Qed.

Lemma frame_length r : codec_ok r -> zlen (frame r) = serialized_size r + 4.
Proof using. intros Hr. destruct (body_ok r Hr) as (_ & Hl & _). unfold frame. rewrite length_app, le_length. lia. Qed.

Lemma chunk_bytes_app l l' : chunk_bytes (l ++ l') = chunk_bytes l ++ chunk_bytes l'.
Proof using. unfold chunk_bytes. by rewrite map_app, concat_app. Qed.

Lemma chunk_bytes_cons r l : chunk_bytes (r :: l) = frame r ++ chunk_bytes l.
Proof using. done. Qed.

Lemma frames_size_app l l' : frames_size (l ++ l') = frames_size l + frames_size l'.
Proof using. unfold frames_size. induction l as [|r l IH]; simpl; lia. Qed.

Lemma frames_size_pos l : Forall codec_ok l -> 0 <= frames_size l.
Proof using CL. induction 1 as [|r l Hr _ IH]; [done|]. destruct (body_ok r Hr) as (_ & _ & Hs & _). change (frames_size (r :: l)) with (serialized_size r + 4 + frames_size l). lia. Qed.

Lemma chunk_bytes_length l : Forall codec_ok l -> zlen (chunk_bytes l) = frames_size l.
Proof using. induction 1 as [|r l Hr _ IH]; [done|]. rewrite chunk_bytes_cons, length_app, Nat2Z.inj_add, IH, frame_length by done. done. Qed.

(** Names of different chunks are different. *)
Lemma chunk_name_inj a b : 0 <= a < 2 ^ 62 -> 0 <= b < 2 ^ 62 -> chunk_name a = chunk_name b -> a = b.
Proof using.
  intros Ha Hb E. unfold Buffer.chunk_name in E. apply (inj (app modname)) in E. apply (inj (app (lit "."))) in E. apply app_inj_2 in E as [E _]; [|done].
  unfold print_int in E. rewrite !(proj2 (Z.ltb_ge _ 0)) in E by lia.
  destruct (print_nat_numeral a) as [Na _]; [lia|]. destruct (print_nat_numeral b) as [Nb _]; [lia|].
  pose proof (numeral_scan _ _ Na) as Sa. rewrite E, (numeral_scan _ _ Nb) in Sa. congruence.
Qed.

(** ** The invariant of the chunks *)

(** The chunks from the one that is read to the one that is written; all but the last one have a
    record. *)
Record chunks (w : world) (held : list (list R)) : Prop := {
  ch_files j l : held !! j = Some l -> w_files w !! chunk_name (pop_id (w_conf w) + Z.of_nat j) = Some (chunk_bytes l);
  ch_ids : 0 < pop_id (w_conf w) /\ push_id (w_conf w) = pop_id (w_conf w) + zlen held - 1 /\ push_id (w_conf w) < 2 ^ 62;
  ch_push : push_file (w_conf w) = Some (push_id (w_conf w));
  ch_last : exists l, last held = Some l /\ push_count (w_conf w) = zlen l;
  ch_limit : 0 < push_limit (w_conf w);
  ch_nonempty j l : held !! j = Some l -> (S j < length held)%nat -> l <> [];
  ch_pop : exists l n, held !! 0%nat = Some l /\ pop_count (w_conf w) = Z.of_nat n /\ (n <= length l)%nat /\
    match pop_file (w_conf w) with None => n = 0%nat | Some (id, pos) => id = pop_id (w_conf w) /\ pos = zlen (chunk_bytes (take n l)) end;
  ch_ok : Forall codec_ok (concat held);
  ch_only name b : w_files w !! name = Some b -> chunk_of modname name = Ret None \/ exists j, (j < length held)%nat /\ name = chunk_name (pop_id (w_conf w) + Z.of_nat j)
}.

(** The records that were not read yet. *)
Definition unread (w : world) (held : list (list R)) : list R := drop (Z.to_nat (pop_count (w_conf w))) (concat held).

(** What neither reading nor writing a chunk changes. *)
Definition around (w : world) :=
  (buffer_size (w_conf w), buffer_maxsize (w_conf w), buffer_warnlimit (w_conf w), queue (w_conf w), warned (w_conf w), warned_full (w_conf w), type (w_conf w), push_limit (w_conf w),
   w_in w, w_needpop w, w_next w, w_saved w, w_events w, w_writable w, w_running w).

(** ** Writing *)

Lemma ensure_chunk_ok w held : chunks w held -> w_writable w = true -> push_id (w_conf w) + 1 < 2 ^ 62 ->
  exists w' held', ensure_chunk modname w = (w', Ret tt) /\ chunks w' held' /\ concat held' = concat held /\ push_count (w_conf w') < push_limit (w_conf w') /\
    pop_count (w_conf w') = pop_count (w_conf w) /\ size (w_conf w') = size (w_conf w) /\ push_id (w_conf w) <= push_id (w_conf w') <= push_id (w_conf w) + 1 /\ around w' = around w.
Proof using.
  intros Hch Hw Hb. pose proof Hch as [Hf (Hp0 & Hid & Hmax) Hpu (l & Hl & Hc) Hlim Hne Hpop Hok Hon]. unfold ensure_chunk. rewrite (cmd_bind_Ret _ _ w w (w_conf w)) by done.
  destruct (Z.leb_spec (push_limit (w_conf w)) (push_count (w_conf w))) as [Hfull|Hfull].
  2:{ exists w, held. split_and!; [|exact Hch|done|done|done|done|lia|lia|done].
      rewrite (cmd_bind_Ret _ _ w w tt) by done. rewrite (cmd_bind_Ret _ _ w w (w_conf w)) by done. by rewrite Hpu. }
  rewrite Hpu. set (w1 := set_conf (with_push None 0 (push_id (w_conf w) + 1) (w_conf w)) w). rewrite (cmd_bind_Ret _ _ w w1 tt) by done.
  rewrite (cmd_bind_Ret _ _ w1 w1 (w_conf w1)) by done. cbn [w_conf w1 set_conf with_push push_file push_id].
  unfold open_push. cbn [w_writable w1 set_conf]. rewrite Hw. eexists _, (held ++ [[]]). split; [reflexivity|].
  assert (held <> []) as Hheld by (by destruct held). assert (l <> []) as Hlne by (destruct l; [simpl in Hc; lia|done]).
  assert (held !! Nat.pred (length held) = Some l) as Hll by (by rewrite <- last_lookup).
  split_and!; [|rewrite concat_app; simpl; by rewrite !app_nil_r|done|done|done|simpl; lia|simpl; lia|done].
  constructor; simpl.
  - intros j l' Hj. destruct (decide (j = length held)) as [->|Hjn].
    + rewrite list_lookup_middle in Hj by done. injection Hj as <-. replace (pop_id (w_conf w) + zlen held) with (push_id (w_conf w) + 1) by lia. apply lookup_insert_eq.
    + assert (j < length (held ++ [[]]))%nat as Hjl by (by eapply lookup_lt_Some). rewrite length_app in Hjl. simpl in Hjl.
      rewrite lookup_app_l in Hj by lia. rewrite lookup_insert_ne; [by apply Hf|]. intros E%chunk_name_inj; lia.
  - rewrite length_app. simpl. lia.
  - done.
  - exists []. by rewrite last_snoc.
  - done.
  - intros j l' Hj Hjl. rewrite length_app in Hjl. simpl in Hjl. rewrite lookup_app_l in Hj by lia.
    destruct (decide (S j < length held)%nat) as [Hlt|Hge]; [by eapply Hne|]. replace j with (Nat.pred (length held)) in Hj by lia. congruence.
  - destruct Hpop as (l0 & n & H0 & ?). exists l0, n. split; [|done]. by rewrite lookup_app_l by (by eapply lookup_lt_Some).
  - rewrite concat_app. simpl. by rewrite !app_nil_r.
  - intros name b. rewrite length_app. simpl. intros [[<- _]|[_ Hb']]%lookup_insert_Some.
    + right. exists (length held). split; [lia|]. by replace (push_id (w_conf w) + 1) with (pop_id (w_conf w) + zlen held) by lia.
    + destruct (Hon _ _ Hb') as [|(j & Hj & ->)]; [by left|]. right. exists j. split; [lia|done].
Qed.

Lemma write_record_ok w held r : chunks w held -> codec_ok r -> push_count (w_conf w) < push_limit (w_conf w) -> 0 <= size (w_conf w) < 2 ^ 31 - 1 -> w_writable w = true ->
  exists w' held', write_record modname r w = (w', Ret (serialized_size r + 4)) /\ chunks w' held' /\ concat held' = concat held ++ [r] /\
    pop_count (w_conf w') = pop_count (w_conf w) /\ size (w_conf w') = size (w_conf w) + 1 /\ push_id (w_conf w') = push_id (w_conf w) /\ around w' = around w.
Proof using.
  intros [Hf (Hp0 & Hid & Hmax) Hpu (l & Hl & Hc) Hlim Hne Hpop Hok Hon] Hr Hlt Hsize Hw. destruct (body_ok r Hr) as (Eb & Hlb & Hsb & _). unfold write_record.
  rewrite (cmd_bind_Ret _ _ w w (body r)) by (unfold lift; by rewrite Eb). rewrite (cmd_bind_Ret _ _ w w tt) by (unfold lift; by rewrite (proj2 (Z.eqb_eq _ _) Hlb)).
  rewrite nx_int32_to_le_wire. change (le 4 (serialized_size r) ++ body r) with (frame r).
  set (w1 := set_files (alter (fun b => b ++ frame r) (chunk_name (push_id (w_conf w))) (w_files w)) w).
  rewrite (cmd_bind_Ret _ _ w w1 tt) by (unfold append_push; by rewrite Hpu, Hw).
  set (w2 := set_conf (with_push (push_file (w_conf w)) (push_count (w_conf w) + 1) (push_id (w_conf w)) (w_conf w)) w1). rewrite (cmd_bind_Ret _ _ w1 w2 tt) by done.
  rewrite (cmd_bind_Ret _ _ w2 w2 (w_conf w2)) by done. cbn [w_conf w2 set_conf with_push size].
  rewrite (cmd_bind_Ret _ _ w2 w2 tt) by (unfold lift; by rewrite (proj2 (Z.leb_le 0 _)) by lia).
  rewrite (cmd_bind_Ret _ _ w2 w2 (size (w_conf w) + 1)).
  2:{ unfold lift, int_range. by rewrite (proj2 (Z.leb_le _ (size (w_conf w) + 1))), (proj2 (Z.ltb_lt (size (w_conf w) + 1) _)) by lia. }
  erewrite cmd_bind_Ret by reflexivity. apply last_Some in Hl as [pre ->]. rewrite length_app in Hid. simpl in Hid.
  eexists _, (pre ++ [l ++ [r]]). split; [reflexivity|]. split_and!; [|rewrite !concat_app; simpl; by rewrite !app_nil_r, app_assoc|done..].
  constructor; simpl.
  - intros j l' Hj. destruct (decide (j = length pre)) as [->|Hjn].
    + rewrite list_lookup_middle in Hj by done. injection Hj as <-. replace (pop_id (w_conf w) + zlen pre) with (push_id (w_conf w)) by lia.
      rewrite lookup_alter_eq. specialize (Hf (length pre) l). rewrite list_lookup_middle in Hf by done.
      replace (pop_id (w_conf w) + zlen pre) with (push_id (w_conf w)) in Hf by lia. rewrite (Hf eq_refl). simpl. by rewrite chunk_bytes_app, chunk_bytes_cons, app_nil_r.
    + assert (j < length (pre ++ [l ++ [r]]))%nat as Hjl by (by eapply lookup_lt_Some). rewrite length_app in Hjl. simpl in Hjl.
      rewrite lookup_app_l in Hj by lia. rewrite lookup_alter_ne; [apply Hf; rewrite lookup_app_l by lia; done|]. intros E%chunk_name_inj; lia.
  - rewrite length_app. simpl. lia.
  - done.
  - exists (l ++ [r]). rewrite last_snoc, length_app. simpl. split; [done|lia].
  - done.
  - intros j l' Hj Hjl. rewrite length_app in Hjl. simpl in Hjl. rewrite lookup_app_l in Hj by lia. apply (Hne j); [by rewrite lookup_app_l by lia|rewrite length_app; simpl; lia].
  - destruct Hpop as (l0 & n & H0 & Hn & Hln & Hpf). destruct pre as [|c0 pre]; simpl in H0 |- *; injection H0 as <-.
    + exists (l ++ [r]), n. rewrite length_app. split_and!; [done|done|lia|]. by rewrite take_app_le by done.
    + by exists c0, n.
  - rewrite !concat_app in *. simpl in *. rewrite !app_nil_r in *. rewrite app_assoc. apply Forall_app. split; [done|by apply Forall_singleton].
  - intros name b Hb. assert (is_Some (w_files w !! name)) as [b' Hb'].
    { destruct (decide (name = chunk_name (push_id (w_conf w)))) as [->|]; [rewrite lookup_alter_eq in Hb; apply fmap_Some in Hb as (b' & ? & _); by exists b'|rewrite lookup_alter_ne in Hb by done; by exists b]. }
    destruct (Hon _ _ Hb') as [|(j & Hj & ->)]; [by left|]. right. exists j. rewrite !length_app in *. by split.
Qed.

Lemma push_disk_ok w held r : chunks w held -> codec_ok r -> 0 <= size (w_conf w) < 2 ^ 31 - 1 -> push_id (w_conf w) + 1 < 2 ^ 62 -> w_writable w = true ->
  exists w' held', pm_buffer_push_disk r w = (w', Ret (serialized_size r + 4)) /\ chunks w' held' /\ concat held' = concat held ++ [r] /\
    pop_count (w_conf w') = pop_count (w_conf w) /\ size (w_conf w') = size (w_conf w) + 1 /\ push_id (w_conf w') <= push_id (w_conf w) + 1 /\ around w' = around w.
Proof using.
  intros Hch Hr Hs Hb Hw. destruct (ensure_chunk_ok w held Hch Hw Hb) as (w1 & held1 & E1 & Hch1 & Hc1 & Hlt & Hp1 & Hs1 & Hid1 & Ha1).
  assert (w_writable w1 = true) as Hw1 by (unfold around in Ha1; congruence).
  destruct (write_record_ok w1 held1 r Hch1 Hr Hlt) as (w2 & held2 & E2 & Hch2 & Hc2 & Hp2 & Hs2 & Hid2 & Ha2); [lia|done|].
  exists w2, held2. unfold pm_buffer_push_disk. rewrite (cmd_bind_Ret _ _ _ _ _ E1). split_and!; [done|done|congruence|congruence|lia|lia|congruence].
Qed.

(** ** Reading *)

Lemma read_here w id pos b n d rest : pop_file (w_conf w) = Some (id, pos) -> w_files w !! chunk_name id = Some b -> drop (Z.to_nat pos) b = d ++ rest -> zlen d = n -> 0 < n ->
  read_pop modname n w = (set_conf (with_pop (Some (id, pos + n)) (pop_id (w_conf w)) (pop_count (w_conf w)) (w_conf w)) w, Ret (Some d)).
Proof using. intros Hp Hb Hd Hn H0. unfold read_pop. rewrite Hp, Hb, Hd. rewrite Logqueue.apr_file_read_app by done. by rewrite Hn. Qed.

Lemma read_end w id pos b : pop_file (w_conf w) = Some (id, pos) -> w_files w !! chunk_name id = Some b -> (length b <= Z.to_nat pos)%nat -> read_pop modname 4 w = (w, Ret None).
Proof using. intros Hp Hb Hl. unfold read_pop. by rewrite Hp, Hb, drop_ge. Qed.

(** The rest of the file of the chunk that is read. *)
Lemma chunk_rest l n : drop (length (chunk_bytes (take n l))) (chunk_bytes l) = chunk_bytes (drop n l).
Proof using. rewrite <- (take_drop n l) at 2. by rewrite chunk_bytes_app, drop_app_length. Qed.

(** A record is read from a chunk that has one. *)
Lemma read_record_ok w held l n r : chunks w held -> held !! 0%nat = Some l -> pop_count (w_conf w) = Z.of_nat n -> l !! n = Some r -> is_Some (pop_file (w_conf w)) ->
  exists w1 w', read_pop modname 4 w = (w1, Ret (Some (le 4 (serialized_size r)))) /\ pop_record modname (le 4 (serialized_size r)) w1 = (w', Ret (r, serialized_size r + 4)) /\
    chunks w' held /\ pop_count (w_conf w') = pop_count (w_conf w) + 1 /\ size (w_conf w') = size (w_conf w) - 1 /\ push_id (w_conf w') = push_id (w_conf w) /\ around w' = around w.
Proof using.
  intros [Hf Hids Hpu Hl Hlim Hne (l0 & n0 & H0 & Hn0 & Hln & Hpf) Hok Hon] Hl0 Hn Hr [[id pos] Hp]. assert (l0 = l) as -> by congruence. assert (n0 = n) as -> by lia.
  rewrite Hp in Hpf. destruct Hpf as [-> Hpos]. pose proof (Hf 0%nat l H0) as Hfile. rewrite Z.add_0_r in Hfile.
  assert (codec_ok r) as Hrok.
  { eapply Forall_forall; [exact Hok|]. apply list_elem_of_In, in_concat. exists l. split; apply list_elem_of_In; by eapply list_elem_of_lookup_2. }
  destruct (body_ok r Hrok) as (Eb & Hlb & Hsb & Ed).
  assert (drop (Z.to_nat pos) (chunk_bytes l) = le 4 (serialized_size r) ++ (body r ++ chunk_bytes (drop (S n) l))) as Hd1.
  { rewrite Hpos, Nat2Z.id, chunk_rest, (drop_S l r n Hr), chunk_bytes_cons. unfold frame. by rewrite <- app_assoc. }
  eexists _, _. split; [eapply read_here; [exact Hp|exact Hfile|exact Hd1|by rewrite le_length|lia]|].
  set (w1 := set_conf _ w). unfold pop_record. rewrite (cmd_bind_Ret _ _ w1 w1 tt) by (unfold lift; by rewrite le_length).
  assert (nx_int32_from_le (le 4 (serialized_size r)) = serialized_size r) as -> by (rewrite nx_int32_from_le_wire, unle_le by apply le_length; apply Z.mod_small; simpl; lia).
  assert (drop (Z.to_nat (pos + 4)) (chunk_bytes l) = body r ++ chunk_bytes (drop (S n) l)) as Hd2.
  { rewrite Z2Nat.inj_add by lia. rewrite <- drop_drop, Hd1. apply drop_app_length'. by rewrite le_length. }
  assert (forall w2, w2 = set_conf (with_pop (Some (pop_id (w_conf w), pos + 4 + serialized_size r)) (pop_id (w_conf w1)) (pop_count (w_conf w1)) (w_conf w1)) w1 -> read_pop modname (serialized_size r) w1 = (w2, Ret (Some (body r)))) as Hread.
  { intros w2 ->. eapply read_here; [done|exact Hfile|exact Hd2|done|lia]. }
  rewrite (cmd_bind_Ret _ _ _ _ _ (Hread _ eq_refl)). set (w2 := set_conf _ w1). rewrite (cmd_bind_Ret _ _ w2 w2 (body r)) by done.
  rewrite (cmd_bind_Ret _ _ w2 w2 tt) by (unfold lift; by rewrite (proj2 (Z.eqb_eq _ _) Hlb)). rewrite (cmd_bind_Ret _ _ w2 w2 (r, serialized_size r)) by (unfold lift; by rewrite Ed).
  erewrite cmd_bind_Ret by reflexivity. split; [reflexivity|]. split_and!; [|done..]. constructor; try done.
  exists l, (S n). simpl. split_and!; [done|lia|by eapply lookup_lt_Some|done|].
  rewrite (take_S_r _ _ _ Hr), chunk_bytes_app, length_app, chunk_bytes_cons, length_app. simpl (chunk_bytes []). pose proof (frame_length r Hrok). simpl. lia.
Qed.


(** The chunk that was read is removed. *)
Lemma next_chunk_ok w l l' held : chunks w (l :: l' :: held) -> pop_count (w_conf w) = zlen l ->
  exists w', next_chunk modname w = (w', Ret tt) /\ chunks w' (l' :: held) /\ pop_count (w_conf w') = 0 /\ is_Some (pop_file (w_conf w')) /\
    size (w_conf w') = size (w_conf w) /\ push_id (w_conf w') = push_id (w_conf w) /\ around w' = around w.
Proof using.
  intros [Hf (Hp0 & Hid & Hmax) Hpu (ll & Hl & Hc) Hlim Hne Hpop Hok Hon] Hn. simpl in Hid. unfold next_chunk. rewrite (cmd_bind_Ret _ _ w w (w_conf w)) by done.
  rewrite (cmd_bind_Ret _ _ w w tt) by (unfold lift; by rewrite (proj2 (Z.ltb_lt (pop_id (w_conf w)) _)) by lia).
  do 3 (erewrite cmd_bind_Ret by reflexivity). pose proof (Hf 1%nat l' eq_refl) as Hnext. replace (pop_id (w_conf w) + Z.of_nat 1) with (pop_id (w_conf w) + 1) in Hnext by lia.
  erewrite cmd_bind_Ret.
  2:{ unfold open_pop. simpl. rewrite lookup_delete_ne by (intros E%chunk_name_inj; lia). rewrite Hnext. reflexivity. }
  eexists. split; [reflexivity|]. split_and!; try done. constructor; simpl; try done.
  - intros j lj Hj. specialize (Hf (S j) lj Hj). replace (pop_id (w_conf w) + 1 + Z.of_nat j) with (pop_id (w_conf w) + Z.of_nat (S j)) by lia.
    assert (j < length (l' :: held))%nat as Hjl by (by eapply lookup_lt_Some). simpl in Hjl. rewrite lookup_delete_ne; [done|]. intros E%chunk_name_inj; lia.
  - lia.
  - exists ll. split; [|done]. by rewrite last_cons_cons in Hl.
  - intros j lj Hj Hjl. apply (Hne (S j)); [done|simpl in *; lia].
  - exists l', 0%nat. split_and!; [done|done|lia|done|done].
  - simpl in Hok. by apply Forall_app in Hok as [_ Hok].
  - intros name b [Hn' Hb']%lookup_delete_Some. destruct (Hon _ _ Hb') as [|(j & Hj & ->)]; [by left|]. right. destruct j as [|j].
    + by rewrite Z.add_0_r in Hn'.
    + exists j. simpl in Hj. split; [simpl; lia|]. by replace (pop_id (w_conf w) + 1 + Z.of_nat j) with (pop_id (w_conf w) + Z.of_nat (S j)) by lia.
Qed.

(** The first chunk of the unread records. *)
Lemma unread_first w l held : chunks w (l :: held) -> unread w (l :: held) = drop (Z.to_nat (pop_count (w_conf w))) l ++ concat held.
Proof using.
  intros Hch. destruct (ch_pop _ _ Hch) as (l0 & n & H0 & Hn & Hln & _). injection H0 as <-. unfold unread. simpl. rewrite drop_app_le by lia. done.
Qed.

Lemma open_first w held : chunks w held -> pop_file (w_conf w) = None ->
  exists w', open_pop modname (pop_id (w_conf w)) w = (w', Ret tt) /\ chunks w' held /\ is_Some (pop_file (w_conf w')) /\ pop_count (w_conf w') = pop_count (w_conf w) /\
    size (w_conf w') = size (w_conf w) /\ push_id (w_conf w') = push_id (w_conf w) /\ push_count (w_conf w') = push_count (w_conf w) /\ pop_id (w_conf w') = pop_id (w_conf w) /\ around w' = around w.
Proof using.
  intros [Hf Hids Hpu Hl Hlim Hne (l & n & H0 & Hn & Hln & Hpf) Hok Hon] Hp. rewrite Hp in Hpf. subst n. pose proof (Hf 0%nat l H0) as Hfile. rewrite Z.add_0_r in Hfile.
  unfold open_pop. rewrite Hfile. eexists. split; [reflexivity|]. split_and!; try done. constructor; try done. exists l, 0%nat. by split_and!.
Qed.

(** The part of [pm_buffer_pop_disk] that is run when the file is open. *)
Definition pop_open : cmd world (option (R * Z)) :=
  c ← modconf;
  empty ← (if push_id c =? pop_id c then
             _ ← lift (ASSERT (pop_count c <=? push_count c) "modconf->pop_count <= modconf->push_count");
             mret (pop_count c =? push_count c)
           else
             _ ← lift (ASSERT (pop_id c <? push_id c) "modconf->push_id > modconf->pop_id");
             mret false);
  if (empty : bool) then mret None
  else
    lenbuf ← read_pop modname 4;
    lenbuf ← (match lenbuf with Some _ => mret lenbuf | None => _ ← next_chunk modname; read_pop modname 4 end);
    match lenbuf with
    | None => mret None
    | Some l => p ← pop_record modname l; mret (Some p)
    end.

Lemma pop_open_ok w held : chunks w held -> is_Some (pop_file (w_conf w)) ->
  exists w' held', chunks w' held' /\ concat held' `suffix_of` concat held /\ is_Some (pop_file (w_conf w')) /\ push_id (w_conf w') = push_id (w_conf w) /\ around w' = around w /\
    match unread w held with
    | [] => pop_open w = (w', Ret None) /\ unread w' held' = [] /\ size (w_conf w') = size (w_conf w)
    | r :: rest => pop_open w = (w', Ret (Some (r, serialized_size r + 4))) /\ unread w' held' = rest /\ size (w_conf w') = size (w_conf w) - 1
    end.
Proof using.
  intros Hch Hpf. pose proof (ch_ids _ _ Hch) as (Hp0 & Hid & Hmax). destruct (ch_last _ _ Hch) as (ll & Hll & Hc). destruct (ch_pop _ _ Hch) as (l & n & H0 & Hn & Hln & Hpos).
  destruct held as [|l0 held]; [done|]. injection H0 as ->. simpl in Hid. rewrite (unread_first w l held Hch). rewrite Hn, Nat2Z.id.
  unfold pop_open. rewrite (cmd_bind_Ret _ _ w w (w_conf w)) by done.
  destruct (decide (n = length l)) as [->|Hnl].
  - (* the chunk is exhausted *)
    rewrite drop_ge by done. cbn [app]. destruct held as [|l' held].
    + simpl in *. injection Hll as ->. exists w, [ll]. do 5 (split; [done|]). rewrite (proj2 (Z.eqb_eq (push_id (w_conf w)) _)) by lia.
      rewrite (cmd_bind_Ret _ _ w w true).
      2:{ rewrite (cmd_bind_Ret _ _ w w tt); [by rewrite Hn, Hc, Z.eqb_refl|]. unfold lift. by rewrite Hn, Hc, (proj2 (Z.leb_le _ _)) by lia. }
      split_and!; [done| |done]. unfold unread. simpl. rewrite Hn. apply drop_ge. rewrite app_nil_r. lia.
    + simpl in Hid. rewrite (proj2 (Z.eqb_neq (push_id (w_conf w)) _)) by lia.
      rewrite (cmd_bind_Ret _ _ w w false) by (rewrite (cmd_bind_Ret _ _ w w tt); [done|]; unfold lift; by rewrite (proj2 (Z.ltb_lt (pop_id (w_conf w)) _)) by lia).
      destruct Hpf as [[id pos] Hp]. rewrite Hp in Hpos. destruct Hpos as [-> Hpos]. pose proof (ch_files _ _ Hch 0%nat l eq_refl) as Hfile. rewrite Z.add_0_r in Hfile.
      rewrite (cmd_bind_Ret _ _ w w None) by (eapply read_end; [exact Hp|exact Hfile|rewrite Hpos, take_ge by done; lia]).
      destruct (next_chunk_ok w l l' held Hch Hn) as (w1 & E1 & Hch1 & Hp1 & Hpf1 & Hs1 & Hid1 & Ha1).
      destruct l' as [|r l'].
      * (* the next chunk is the last one, and empty *)
        assert (held = []) as -> by (destruct held; [done|]; by destruct (ch_nonempty _ _ Hch 1%nat [] eq_refl ltac:(simpl; lia))).
        exists w1, [[]]. do 5 (split; [first [done|congruence|apply suffix_nil]|]). simpl. split_and!; [|unfold unread; simpl; by rewrite drop_nil|done].
        destruct Hpf1 as [[id1 pos1] Hpf1]. pose proof (ch_pop _ _ Hch1) as (l1 & n1 & Hl1 & Hn1 & Hln1 & Hpos1). rewrite Hpf1 in Hpos1. destruct Hpos1 as [-> Hpos1].
        pose proof (ch_files _ _ Hch1 0%nat [] eq_refl) as Hfile1. rewrite Z.add_0_r in Hfile1.
        rewrite (cmd_bind_Ret _ _ w w1 None); [done|]. rewrite (cmd_bind_Ret _ _ _ _ _ E1). eapply read_end; [exact Hpf1|exact Hfile1|simpl; lia].
      * destruct (read_record_ok w1 _ (r :: l') 0 r Hch1 eq_refl Hp1 eq_refl Hpf1) as (w2 & w3 & E2 & E3 & Hch3 & Hp3 & Hs3 & Hid3 & Ha3).
        exists w3, ((r :: l') :: held). split; [done|]. split; [by exists l|]. split.
        { destruct (ch_pop _ _ Hch3) as (l3 & n3 & Hl3 & Hn3 & _ & Hpos3). destruct (pop_file (w_conf w3)); [by eexists|lia]. }
        do 2 (split; [congruence|]). simpl. split_and!; [|rewrite (unread_first w3 _ _ Hch3), Hp3, Hp1; done|lia].
        rewrite (cmd_bind_Ret _ _ w w2 (Some (le 4 (serialized_size r)))) by (by rewrite (cmd_bind_Ret _ _ _ _ _ E1)). by rewrite (cmd_bind_Ret _ _ _ _ _ E3).
  - destruct (lookup_lt_is_Some_2 l n) as [r Hr]; [lia|]. rewrite (drop_S l r n Hr). cbn [app].
    rewrite (cmd_bind_Ret _ _ w w false).
    2:{ destruct (Z.eqb_spec (push_id (w_conf w)) (pop_id (w_conf w))) as [He|He].
        - rewrite (cmd_bind_Ret _ _ w w tt); [|unfold lift; rewrite (proj2 (Z.leb_le _ _)); [done|]]; (destruct held; [|simpl in Hid; lia]; simpl in Hll; injection Hll as ->); [|lia].
          unfold mret, cmd_ret. do 2 f_equal. apply Z.eqb_neq. lia.
        - rewrite (cmd_bind_Ret _ _ w w tt); [done|]. unfold lift. by rewrite (proj2 (Z.ltb_lt (pop_id (w_conf w)) _)) by lia. }
    destruct (read_record_ok w _ l n r Hch eq_refl Hn Hr Hpf) as (w2 & w3 & E2 & E3 & Hch3 & Hp3 & Hs3 & Hid3 & Ha3).
    exists w3, (l :: held). split; [done|]. split; [done|]. split.
    { destruct (ch_pop _ _ Hch3) as (l3 & n3 & Hl3 & Hn3 & _ & Hpos3). destruct (pop_file (w_conf w3)); [by eexists|lia]. }
    do 2 (split; [congruence|]). split_and!; [|rewrite (unread_first w3 _ _ Hch3), Hp3, Hn; do 2 f_equal; lia|lia].
    rewrite (cmd_bind_Ret _ _ _ _ _ E2). rewrite (cmd_bind_Ret _ _ w2 w2 (Some (le 4 (serialized_size r)))) by done. cbn iota. by rewrite (cmd_bind_Ret _ _ _ _ _ E3).
Qed.

Lemma pop_disk_ok w held : chunks w held ->
  exists w' held', chunks w' held' /\ concat held' `suffix_of` concat held /\ push_id (w_conf w') = push_id (w_conf w) /\ around w' = around w /\
    match unread w held with
    | [] => pm_buffer_pop_disk w = (w', Ret None) /\ unread w' held' = [] /\ size (w_conf w') = size (w_conf w)
    | r :: rest => pm_buffer_pop_disk w = (w', Ret (Some (r, serialized_size r + 4))) /\ unread w' held' = rest /\ size (w_conf w') = size (w_conf w) - 1
    end.
Proof using.
  intros Hch. assert (forall w1, is_Some (pop_file (w_conf w1)) ->
    (match pop_file (w_conf w) with Some _ => w1 = w | None => open_pop modname (pop_id (w_conf w)) w = (w1, Ret tt) end) -> pm_buffer_pop_disk w = pop_open w1) as Hrun.
  { intros w1 Hp1 Hw1. unfold pm_buffer_pop_disk. rewrite (cmd_bind_Ret _ _ w w (w_conf w)) by done. rewrite (cmd_bind_Ret _ _ w w1 true); [done|].
    destruct (pop_file (w_conf w)); [by subst|]. pose proof (ch_ids _ _ Hch) as (Hp0 & Hid & _). destruct (ch_last _ _ Hch) as (ll & Hll & _).
    assert (1 <= zlen held) by (destruct held; [done|simpl; lia]).
    rewrite (cmd_bind_Ret _ _ w w tt) by (unfold lift; by rewrite (proj2 (Z.ltb_lt 0 (push_id (w_conf w)))) by lia).
    rewrite (cmd_bind_Ret _ _ w w tt) by (unfold lift; by rewrite (proj2 (Z.ltb_lt 0 (pop_id (w_conf w)))) by lia).
    rewrite (proj2 (Z.ltb_ge (push_id (w_conf w)) _)) by lia. by rewrite (cmd_bind_Ret _ _ _ _ _ Hw1). }
  destruct (pop_file (w_conf w)) as [p|] eqn:Ep.
  - destruct (pop_open_ok w held Hch) as (w' & held' & Hch' & Hsuf & _ & Hid' & Ha' & Hres); [by rewrite Ep|]. exists w', held'. split_and!; [done..|].
    by rewrite (Hrun w) by (by rewrite ?Ep).
  - destruct (open_first w held Hch Ep) as (w1 & E1 & Hch1 & Hp1 & Hpc1 & Hs1 & Hid1 & _ & _ & Ha1).
    destruct (pop_open_ok w1 held Hch1 Hp1) as (w' & held' & Hch' & Hsuf & _ & Hid' & Ha' & Hres). exists w', held'. split_and!; [done|done|congruence|congruence|].
    assert (unread w1 held = unread w held) as Hu by (unfold unread; by rewrite Hpc1). rewrite Hu, Hs1 in Hres. by rewrite (Hrun w1 Hp1 E1).
Qed.


(** ** The buffer as a list of records *)

(** The buffer holds the records [l], and its files hold the records [d], of which [l] are the last
    ones. *)
Record buffers (w : world) (l d : list R) : Prop := {
  bf_size : buffer_size (w_conf w) = frames_size l;
  bf_ok : Forall codec_ok d;
  bf_store : match type (w_conf w) with
    | NX_PM_BUFFER_TYPE_MEM => queue (w_conf w) = l /\ d = l /\ w_saved w = None
    | NX_PM_BUFFER_TYPE_DISK => size (w_conf w) = zlen l /\ exists held, chunks w held /\ unread w held = l /\ d = concat held
    end
}.

Lemma buffers_suffix w l d : buffers w l d -> l `suffix_of` d.
Proof using.
  intros [_ _ Hst]. destruct (type (w_conf w)); [by destruct Hst as (_ & -> & _)|]. destruct Hst as (_ & held & _ & <- & ->). apply suffix_drop.
Qed.

Lemma frames_size_suffix l d : Forall codec_ok d -> l `suffix_of` d -> frames_size l <= frames_size d /\ zlen l <= zlen d.
Proof using CL.
  intros Hok [p ->]. apply Forall_app in Hok as [Hok _]. pose proof (frames_size_pos p Hok). rewrite frames_size_app, length_app. lia.
Qed.

Lemma ok_suffix l d : Forall codec_ok d -> l `suffix_of` d -> Forall codec_ok l.
Proof using. intros Hok [p ->]. by apply Forall_app in Hok as [_ Hok]. Qed.

(** What does not depend on the contents of the buffer. *)
Definition outside (w : world) :=
  (buffer_maxsize (w_conf w), buffer_warnlimit (w_conf w), type (w_conf w), w_in w, w_needpop w, w_saved w, w_writable w, w_running w, push_id (w_conf w)).

Lemma chunks_same w w' held : chunks w held -> w_files w' = w_files w -> push_file (w_conf w') = push_file (w_conf w) -> push_count (w_conf w') = push_count (w_conf w) -> push_id (w_conf w') = push_id (w_conf w) ->
  push_limit (w_conf w') = push_limit (w_conf w) -> pop_file (w_conf w') = pop_file (w_conf w) -> pop_id (w_conf w') = pop_id (w_conf w) -> pop_count (w_conf w') = pop_count (w_conf w) -> chunks w' held.
Proof using. intros [] E1 E2 E3 E4 E5 E6 E7 E8. constructor; rewrite ?E1, ?E2, ?E3, ?E4, ?E5, ?E6, ?E7, ?E8; done. Qed.

(** States that differ only in what the buffer does not depend on. *)
Lemma buffers_same w w' l d : buffers w l d -> w_files w' = w_files w -> w_saved w' = w_saved w -> (exists a b, w_conf w' = with_warned a b (w_conf w)) -> buffers w' l d.
Proof using.
  intros [Hs Hok Hst] Hf Hsv (a & b & Hc). constructor; rewrite ?Hc; try done. simpl. rewrite Hsv. destruct (type (w_conf w)); [done|].
  destruct Hst as (Hsz & held & Hch & Hu & Hd). split; [done|]. exists held. split; [|unfold unread; by rewrite Hc]. eapply chunks_same; [exact Hch|done|by rewrite Hc..].
Qed.

Lemma buffers_unchanged w w' l d : buffers w l d -> w_files w' = w_files w -> w_saved w' = w_saved w -> w_conf w' = w_conf w -> buffers w' l d.
Proof using. intros Hb Hf Hs Hc. eapply buffers_same; [exact Hb|done..|]. exists (warned (w_conf w)), (warned_full (w_conf w)). rewrite Hc. by destruct (w_conf w). Qed.

(** A record is taken from the buffer and accounted for. *)
Lemma take_release_ok w l d : buffers w l d ->
  match l with
  | [] => exists w' d', take_buffered modname w = (w', Ret None) /\ buffers w' [] d' /\ d' `suffix_of` d /\ outside w' = outside w /\ w_next w' = w_next w
  | r :: rest => exists w1 w' d', take_buffered modname w = (w1, Ret (Some (r, serialized_size r + 4))) /\ release (serialized_size r + 4) w1 = (w', Ret tt) /\
      buffers w' rest d' /\ d' `suffix_of` d /\ outside w' = outside w /\ w_next w' = w_next w
  end.
Proof using.
  intros Hb. pose proof (buffers_suffix _ _ _ Hb) as Hsuf. destruct Hb as [Hs Hok Hst]. pose proof (ok_suffix _ _ Hok Hsuf) as Hokl. unfold take_buffered.
  assert (forall A (f : conf -> cmd world A) v, (c ← modconf; f c) v = f (w_conf v) v) as Hm by done. destruct (type (w_conf w)) eqn:Et.
  - (* memory *)
    destruct Hst as (Hst & -> & Hsv). destruct l as [|r rest]; rewrite Hm, Et, Hst.
    + exists w, []. split_and!; [done|constructor; [done|done|by rewrite Et]|done..].
    + exists w. apply Forall_cons in Hok as [Hr Hok]. change (frames_size (r :: rest)) with (serialized_size r + 4 + frames_size rest) in Hs. pose proof (frames_size_pos rest Hok).
      unfold release. eexists _, rest. rewrite Hm. split; [done|]. split.
      { rewrite (cmd_bind_Ret _ _ w w tt) by (unfold lift; by rewrite (proj2 (Z.leb_le _ (buffer_size (w_conf w)))) by lia). reflexivity. }
      split_and!; [|by exists [r]|done|done]. constructor; simpl; [lia|done|]. by rewrite Et, Hst.
  - destruct Hst as (Hsz & held & Hch & <- & ->).
    destruct (pop_disk_ok w held Hch) as (w1 & held1 & Hch1 & Hsf1 & Hid1 & Ha1 & Hres). pose proof (ok_suffix _ _ Hok Hsf1) as Hok1. destruct (unread w held) as [|r rest] eqn:Eu.
    + destruct Hres as (E & Hu & Hs1). exists w1, (concat held1). rewrite Hm, Et. unfold around in Ha1. injection Ha1 as ? ? ? ? ? ? ? ? ? ? ? ? ? ? ?.
      split_and!; [done| |done|unfold outside; congruence|done]. constructor; [congruence|done|]. replace (type (w_conf w1)) with NX_PM_BUFFER_TYPE_DISK by congruence. split; [lia|by exists held1].
    + destruct Hres as (E & Hu & Hs1). unfold around in Ha1. injection Ha1 as Hbs ? ? ? ? ? Ht ? ? ? ? ? ? ? ?. apply Forall_cons in Hokl as [Hr Hokl].
      change (frames_size (r :: rest)) with (serialized_size r + 4 + frames_size rest) in Hs. pose proof (frames_size_pos rest Hokl).
      eexists w1, _, (concat held1). rewrite Hm, Et. split; [done|]. unfold release. rewrite Hm. split.
      { rewrite (cmd_bind_Ret _ _ w1 w1 tt) by (unfold lift; by rewrite (proj2 (Z.leb_le _ (buffer_size (w_conf w1)))) by lia). reflexivity. }
      split_and!; [|done|unfold outside; simpl; congruence|done]. constructor; simpl; [lia|done|]. rewrite Ht, Et. split; [simpl in Hsz; lia|].
      exists held1. split; [by eapply chunks_same|done].
Qed.

Lemma progress_ok w r : w_needpop w = false -> progress false r w = (set_next (hand_on r (w_next w)) w, Ret tt).
Proof using. intros Hn. unfold progress. rewrite (cmd_bind_Ret _ _ w w w) by done. rewrite Hn. by rewrite (cmd_bind_Ret _ _ w w tt). Qed.

Lemma send_buffered_ok fuel : forall w l d, buffers w l d -> w_needpop w = false -> (length l < fuel)%nat ->
  exists w' l' d' b, send_buffered modname fuel w = (w', Ret b) /\ buffers w' l' d' /\ d' `suffix_of` d /\ outside w' = outside w /\
    sent (w_next w') ++ l' = sent (w_next w) ++ l /\ l' `suffix_of` l /\ (if b then l' = [] else can_send (w_next w') = false).
Proof using.
  induction fuel as [|fuel IH]; intros w l d Hb Hn Hf; [lia|]. cbn [send_buffered]. rewrite (cmd_bind_Ret _ _ w w w) by done.
  destruct (can_send (w_next w)) eqn:Ec; [|exists w, l, d, false; split_and!; done]. pose proof (take_release_ok w l d Hb) as Ht. destruct l as [|r rest].
  - destruct Ht as (w' & d' & E & Hb' & Hsf & Ho & Hnx). exists w', [], d', true. rewrite (cmd_bind_Ret _ _ _ _ _ E). split_and!; try done. by rewrite Hnx.
  - destruct Ht as (w1 & w2 & d2 & E1 & E2 & Hb2 & Hsf2 & Ho2 & Hnx2). rewrite (cmd_bind_Ret _ _ _ _ _ E1). cbn beta iota. rewrite (cmd_bind_Ret _ _ _ _ _ E2).
    assert (w_needpop w2 = false) as Hn2 by (unfold outside in Ho2; congruence). rewrite (cmd_bind_Ret _ _ _ _ _ (progress_ok w2 r Hn2)).
    destruct (IH (set_next (hand_on r (w_next w2)) w2) rest d2) as (w3 & l3 & d3 & b & E3 & Hb3 & Hsf3 & Ho3 & Hs3 & Hf3 & Hlast); [by apply (buffers_unchanged w2)|done|simpl in Hf; lia|].
    exists w3, l3, d3, b. split_and!; [done|done|by transitivity d2|rewrite Ho3; by transitivity (outside w2)| |by transitivity rest; [|exists [r]]|done].
    rewrite Hs3. simpl. rewrite sent_hand_on, Hnx2. by rewrite <- app_assoc.
Qed.

(** *** Storing a record *)

Lemma warn_ok w l d : buffers w l d -> exists w', (c ← modconf;
    if negb (warned c) && (0 <? buffer_warnlimit c) && (buffer_warnlimit c <=? buffer_size c) then update (with_warned true (warned_full c)) else mret tt) w = (w', Ret tt) /\
  buffers w' l d /\ outside w' = outside w /\ w_next w' = w_next w.
Proof using.
  intros Hb. rewrite (cmd_bind_Ret _ _ w w (w_conf w)) by done. case_match; [|by exists w]. eexists. split; [reflexivity|]. split_and!; try done.
  eapply buffers_same; [exact Hb|done..|]. eexists _, _. reflexivity.
Qed.

Lemma store_ok w l d r q : buffers w l d -> w_in w = r :: q -> w_needpop w = true -> codec_ok r -> w_writable w = true ->
  zlen d < 2 ^ 31 - 1 -> frames_size (d ++ [r]) < 2 ^ 64 -> push_id (w_conf w) + 1 < 2 ^ 62 ->
  exists w', store modname r w = (w', Ret tt) /\ buffers w' (l ++ [r]) (d ++ [r]) /\ w_in w' = q /\ w_needpop w' = false /\ w_next w' = w_next w /\
    buffer_maxsize (w_conf w') = buffer_maxsize (w_conf w) /\ type (w_conf w') = type (w_conf w) /\ w_writable w' = w_writable w /\ w_running w' = w_running w /\ push_id (w_conf w') <= push_id (w_conf w) + 1.
Proof using.
  intros Hb Hin Hnp Hr Hw Hl Hfs Hid. pose proof Hb as [Hs Hok Hst]. destruct (body_ok r Hr) as (_ & _ & Hsr & _). pose proof (buffers_suffix _ _ _ Hb) as Hsuf. pose proof (ok_suffix _ _ Hok Hsuf) as Hokl.
  destruct (frames_size_suffix _ _ Hok Hsuf) as [Hsz1 Hsz2]. pose proof (frames_size_pos l Hokl).
  rewrite frames_size_app in Hfs. simpl in Hfs. assert (frames_size (l ++ [r]) = frames_size l + (serialized_size r + 4)) as Efs by (rewrite frames_size_app; simpl; lia).
  unfold store. rewrite (cmd_bind_Ret _ _ w w (w_conf w)) by done.
  assert (forall w1, w_in w1 = r :: q -> w_needpop w1 = true -> pop_in true w1 = (set_in q false w1, Ret tt)) as Hpop by (intros w1 H1 H2; unfold pop_in; by rewrite H1, H2).
  assert (u64 (buffer_size (w_conf w) + (serialized_size r + 4)) = frames_size (l ++ [r])) as Eu by (unfold u64; rewrite Z.mod_small by lia; lia).
  destruct (type (w_conf w)) eqn:Et.
  - set (w1 := set_conf (with_buffer (u64 (buffer_size (w_conf w) + (serialized_size r + 4))) (queue (w_conf w)) (w_conf w)) w).
    set (w2 := set_conf (with_buffer (buffer_size (w_conf w1)) (queue (w_conf w1) ++ [r]) (w_conf w1)) (set_in q false w1)).
    destruct Hst as (Hst & -> & Hsv). assert (buffers w2 (l ++ [r]) (l ++ [r])) as Hb2.
    { constructor; simpl; [exact Eu|apply Forall_app; split; [done|by apply Forall_singleton]|]. by rewrite Et, Hst, Hsv. }
    destruct (warn_ok w2 _ _ Hb2) as (w3 & E3 & Hb3 & Ho3 & Hn3). exists w3. unfold outside, w2, w1 in Ho3. unfold w2, w1 in Hn3. simpl in Ho3, Hn3. injection Ho3 as ? ? ? ? ? ? ? ? ?.
    split_and!; [|done|congruence..|lia].
    rewrite (cmd_bind_Ret _ _ w w2 tt); [exact E3|]. rewrite (cmd_bind_Ret _ _ w w1 tt) by done. by rewrite (cmd_bind_Ret _ _ w1 (set_in q false w1) tt) by (by apply Hpop).
  - destruct Hst as (Hsz & held & Hch & Hu & ->). destruct (push_disk_ok w held r Hch Hr) as (w1 & held1 & E1 & Hch1 & Hc1 & Hp1 & Hs1 & Hid1 & Ha1); [lia|done|done|].
    unfold around in Ha1. injection Ha1 as Hbs ? ? ? ? ? Ht ? Hin1 Hnp1 ? ? ? ? ?.
    set (w2 := set_in q false w1). set (w3 := set_conf (with_buffer (u64 (buffer_size (w_conf w1) + (serialized_size r + 4))) (queue (w_conf w1)) (w_conf w1)) w2).
    assert (buffers w3 (l ++ [r]) (concat held ++ [r])) as Hb3.
    { constructor; simpl; [by rewrite Hbs|apply Forall_app; split; [done|by apply Forall_singleton]|]. rewrite Ht, Et. split; [rewrite length_app; simpl; lia|].
      exists held1. split; [by eapply chunks_same|]. split; [|by rewrite Hc1]. unfold unread in *. simpl. rewrite Hc1, Hp1. rewrite drop_app_le; [by rewrite Hu|].
      pose proof (ch_pop _ _ Hch) as (l0 & n & Hl0 & Hn & Hln & _). destruct held as [|h held]; [done|]. injection Hl0 as ->. simpl. rewrite length_app. lia. }
    destruct (warn_ok w3 _ _ Hb3) as (w4 & E4 & Hb4 & Ho4 & Hn4). exists w4. unfold outside, w3, w2 in Ho4. unfold w3, w2 in Hn4. simpl in Ho4, Hn4. injection Ho4 as ? ? ? ? ? ? ? ? ?.
    split_and!; [|done|congruence..|lia].
    rewrite (cmd_bind_Ret _ _ w w3 tt); [exact E4|]. rewrite (cmd_bind_Ret _ _ _ _ _ E1). by rewrite (cmd_bind_Ret _ _ w1 w2 tt) by (apply Hpop; congruence).
Qed.

(** ** An event *)

(** What the records that the buffer holds, those of the queue and those that are still to come have to
    satisfy, and the room for them and for [k] restarts. *)
Record room (w : world) (d rest : list R) (k : Z) : Prop := {
  rm_ok : Forall codec_ok (d ++ w_in w ++ rest);
  rm_count : zlen (d ++ w_in w ++ rest) < 2 ^ 31 - 1;
  rm_size : frames_size (d ++ w_in w ++ rest) < 2 ^ 64;
  rm_writable : w_writable w = true;
  rm_ids : 0 <= k /\ Z.max 1 (push_id (w_conf w)) + zlen (w_in w ++ rest) + k < 2 ^ 31
}.

Lemma frames_size_le l l' : Forall codec_ok l' -> frames_size l <= frames_size (l ++ l').
Proof using. intros Hok. rewrite frames_size_app. pose proof (frames_size_pos l' Hok). lia. Qed.

Lemma suffix_mem (r : R) l d : l `suffix_of` d -> r ∈ l -> r ∈ d.
Proof using. intros [p ->] Hr. apply elem_of_app. by right. Qed.

Lemma room_later w w' d d' rest k k' : room w d rest k -> d' `suffix_of` d -> w_in w' = w_in w -> w_writable w' = w_writable w -> 0 <= k' -> Z.max 1 (push_id (w_conf w')) + k' <= Z.max 1 (push_id (w_conf w)) + k -> room w' d' rest k'.
Proof using.
  intros [H1 H2 H3 H4 H5] [p ->] Ei Ew Hk Ep. rewrite <- app_assoc in H1, H2, H3. apply Forall_app in H1 as [Hp H1]. rewrite frames_size_app in H3. pose proof (frames_size_pos p Hp). rewrite length_app in H2.
  constructor; rewrite ?Ei, ?Ew; [done|lia|lia|done|lia].
Qed.

Lemma room_kept w w' d d' rest k : room w d rest k -> d' `suffix_of` d -> w_in w' = w_in w -> w_writable w' = w_writable w -> push_id (w_conf w') = push_id (w_conf w) -> room w' d' rest k.
Proof using. intros Hr Hd Ei Ew Ep. pose proof (rm_ids _ _ _ _ Hr). eapply room_later; [done..|lia|rewrite Ep; lia]. Qed.

(** The first record of the queue is handed on or put into the buffer. *)
Lemma accept_ok w l d r q rest k (b : bool) : buffers w l d -> w_in w = r :: q -> w_needpop w = true -> room w d rest k -> (if b then l = [] else buffer_size (w_conf w) < buffer_maxsize (w_conf w)) ->
  exists w' l' d', (if b then progress true r else store modname r) w = (w', Ret tt) /\ buffers w' l' d' /\ w_needpop w' = false /\ w_in w' = q /\
    sent (w_next w') ++ l' ++ w_in w' = sent (w_next w) ++ l ++ w_in w /\ room w' d' rest k /\
    buffer_maxsize (w_conf w') = buffer_maxsize (w_conf w) /\ type (w_conf w') = type (w_conf w) /\ w_running w' = w_running w /\
    (buffer_size (w_conf w') <= buffer_size (w_conf w) \/ buffer_size (w_conf w') < buffer_maxsize (w_conf w) + (serialized_size r + 4)) /\
    (forall r, r ∈ d' -> r ∈ d \/ r ∈ l') /\ (if b then l' = [] else w_next w' = w_next w).
Proof using.
  intros Hb Ein Hnp [H1 H2 H3 H4 [H5 H6]] Hcase. rewrite Ein in H1, H2, H3, H6 |- *. rewrite <- !app_comm_cons in H1, H2, H3, H6. pose proof H1 as Hall. rewrite Forall_app, Forall_cons in Hall. destruct Hall as (Hd & Hr & Hq).
  destruct (body_ok r Hr) as (_ & _ & Hsr & _). rewrite frames_size_app in H3. change (frames_size (r :: q ++ rest)) with (serialized_size r + 4 + frames_size (q ++ rest)) in H3. pose proof (frames_size_pos _ Hq).
  rewrite length_app in H2. cbn [length] in H2, H6. destruct b.
  - (* handed on *) subst l. unfold progress. rewrite (cmd_bind_Ret _ _ w w w) by done. rewrite Hnp. rewrite (cmd_bind_Ret _ _ w (set_in q false w) tt) by (unfold pop_in; by rewrite Hnp, Ein).
    set (w1 := set_in q false w). eexists (set_next (hand_on r (w_next w1)) w1), [], d. split; [reflexivity|]. split; [by apply (buffers_unchanged w)|]. do 2 (split; [done|]). simpl. rewrite sent_hand_on, <- app_assoc.
    split; [done|]. split; [|do 3 (split; [done|]); split; [by left|]; split; [by left|done]].
    constructor; simpl; [by apply Forall_app|rewrite length_app; lia|rewrite frames_size_app; lia|done|lia].
  - (* stored *) assert (frames_size (d ++ [r]) = frames_size d + (serialized_size r + 4)) as Ed by (rewrite frames_size_app; simpl; lia).
    destruct (store_ok w l d r q Hb Ein Hnp Hr) as (w' & E & Hb' & Hin' & Hnp' & Hnx' & Hm' & Hty' & Hw' & Hr' & Hi'); [done|lia|lia|lia|].
    exists w', (l ++ [r]), (d ++ [r]). do 4 (split; [done|]). split; [rewrite Hnx', Hin'; by rewrite <- (app_assoc l)|]. split.
    { constructor; rewrite ?Hin'; [rewrite <- app_assoc; done|rewrite !length_app; simpl; rewrite <- length_app; lia|rewrite frames_size_app, Ed; lia|congruence|lia]. }
    do 3 (split; [done|]). split; [right; rewrite (bf_size _ _ _ Hb'), frames_size_app; rewrite (bf_size _ _ _ Hb) in Hcase; simpl; lia|]. split; [|done]. intros r' [?|?]%elem_of_app; [by left|right; set_solver].
Qed.

Lemma data_available_ok w l d rest k : buffers w l d -> w_needpop w = false -> room w d rest k ->
  exists w' l' d', pm_buffer_data_available modname w = (w', Ret tt) /\ buffers w' l' d' /\ w_needpop w' = false /\
    sent (w_next w') ++ l' ++ w_in w' = sent (w_next w) ++ l ++ w_in w /\ room w' d' rest k /\
    buffer_maxsize (w_conf w') = buffer_maxsize (w_conf w) /\ type (w_conf w') = type (w_conf w) /\ w_running w' = w_running w /\
    (buffer_size (w_conf w') <= buffer_size (w_conf w) \/ exists r, r ∈ w_in w /\ buffer_size (w_conf w') < buffer_maxsize (w_conf w) + (serialized_size r + 4)) /\
    (w_in w' = w_in w \/ exists r, w_in w = r :: w_in w') /\ (forall r, r ∈ d' -> r ∈ d \/ r ∈ l') /\
    (w_running w = true -> can_send (w_next w') = true -> l' = []).
Proof using.
  intros Hb Hnp Hroom. unfold pm_buffer_data_available. rewrite (cmd_bind_Ret _ _ w w w) by done.
  destruct (w_running w) eqn:Erun; [|exists w, l, d; split_and!; try done; by left; eauto]. cbn [negb].
  set (fuel := S (length (queue (w_conf w)) + Z.to_nat (size (w_conf w)))).
  assert (length l < fuel)%nat as Hfuel by (subst fuel; pose proof (bf_store _ _ _ Hb) as Hst; destruct (type (w_conf w)); [destruct Hst as [<- _]|destruct Hst as [Hst _]]; lia).
  destruct (send_buffered_ok fuel w l d Hb Hnp Hfuel) as (w1 & l1 & d1 & b & E1 & Hb1 & Hsf1 & Ho1 & Hs1 & Hl1 & Hlast). rewrite (cmd_bind_Ret _ _ _ _ _ E1).
  unfold outside in Ho1. injection Ho1 as Hm1 _ Ht1 Hin1 Hnp1 _ Hw1 Hr1 Hi1. rewrite (cmd_bind_Ret _ _ w1 w1 (w_conf w1)) by done.
  assert (room w1 d1 rest k) as Hroom1 by (eapply room_kept; eauto).
  assert (buffer_size (w_conf w1) <= buffer_size (w_conf w)) as Hbs1.
  { rewrite (bf_size _ _ _ Hb), (bf_size _ _ _ Hb1). apply frames_size_suffix; [|done]. eapply ok_suffix; [exact (bf_ok _ _ _ Hb)|]. by eapply buffers_suffix. }
  destruct (negb b && (buffer_maxsize (w_conf w1) <=? buffer_size (w_conf w1))) eqn:Efull.
  { (* full *)
    eexists _, l1, d1. split; [reflexivity|]. split_and!; simpl; try congruence.
    - eapply buffers_same; [exact Hb1|done..|]. eexists _, _. reflexivity.
    - rewrite Hin1, !app_assoc. by rewrite Hs1.
    - by apply (room_kept w1 _ d1).
    - by left.
    - left. congruence.
    - intros r Hr. left. by eapply suffix_mem.
    - destruct b; [done|]. intros _. congruence. }
  do 2 (erewrite cmd_bind_Ret by reflexivity). set (w2 := set_conf _ (set_conf _ w1)).
  assert (forall w3, w_files w3 = w_files w1 -> w_saved w3 = w_saved w1 -> w_conf w3 = w_conf w2 -> buffers w3 l1 d1) as Hb2.
  { intros w3 Ef Es Ec. eapply buffers_same; [exact Hb1|done..|]. exists (warned (w_conf w2)), (warned_full (w_conf w2)). rewrite Ec. reflexivity. }
  destruct (w_in w) as [|r q] eqn:Ein.
  - exists w2, l1, d1. rewrite (cmd_bind_Ret _ _ w2 w2 None) by (unfold peek_in; change (w_in w2) with (w_in w1); by rewrite Hin1). split; [done|]. split; [by apply Hb2|]. split; [change (w_needpop w1 = false); congruence|].
    split; [change (sent (w_next w1) ++ l1 ++ w_in w1 = sent (w_next w) ++ l ++ []); by rewrite Hin1, !app_nil_r|].
    split; [by apply (room_kept w1 _ d1)|]. split; [exact Hm1|]. split; [exact Ht1|]. split; [change (w_running w1 = true); congruence|].
    split; [by left|]. split; [left; exact Hin1|]. split; [intros r Hr; left; by eapply suffix_mem|]. destruct b; [done|]. intros _ Hc. change (can_send (w_next w1) = true) in Hc. congruence.
  - set (w3 := set_in (r :: q) true w2). rewrite (cmd_bind_Ret _ _ w2 w3 (Some r)) by (unfold peek_in; change (w_in w2) with (w_in w1); by rewrite Hin1). cbn iota.
    destruct (accept_ok w3 l1 d1 r q rest k b) as (w4 & l4 & d4 & E4 & Hb4 & Hnp4 & Hin4 & Hs4 & Hroom4 & Hm4 & Ht4 & Hr4 & Hsz4 & Hd4 & Hlast4); [by apply Hb2|done|done|by apply (room_kept w1 _ d1)|destruct b; [done|]; by apply Z.leb_gt in Efull|].
    exists w4, l4, d4. do 3 (split; [done|]). split; [rewrite Hs4; change (sent (w_next w1) ++ l1 ++ r :: q = sent (w_next w) ++ l ++ r :: q); by rewrite !(app_assoc _ _ (r :: q)), Hs1|].
    split; [done|]. split; [rewrite Hm4; exact Hm1|]. split; [rewrite Ht4; exact Ht1|]. split; [rewrite Hr4; change (w_running w1 = true); congruence|].
    change (buffer_size (w_conf w3)) with (buffer_size (w_conf w1)) in Hsz4. change (buffer_maxsize (w_conf w3)) with (buffer_maxsize (w_conf w1)) in Hsz4.
    split; [destruct Hsz4; [left; lia|right; exists r; split; [by left|lia]]|]. split; [right; exists r; by rewrite Hin4|].
    split; [intros r' Hr'; destruct (Hd4 r' Hr'); [left; by eapply suffix_mem|by right]|]. destruct b; [done|]. intros _ Hc. rewrite Hlast4 in Hc. change (can_send (w_next w1) = true) in Hc. congruence.
Qed.

(** ** Start and stop *)

Lemma scanf_id id : 0 <= id < 2 ^ 31 -> scanf_ld (print_int id ++ lit ".q") = Some id.
Proof using.
  intros Hid. destruct (print_nat_numeral id) as [Hn _]; [lia|]. unfold print_int. rewrite (proj2 (Z.ltb_ge id 0)) by lia.
  destruct (numeral_head _ _ Hn) as (c & t & E & Hc). destruct (isdigit_facts c Hc) as (Hs & _ & Hm & Hp & _). destruct Hn as (_ & _ & Hn). unfold scanf_ld.
  rewrite E in *. simpl skip_space. rewrite Hs. unfold scan_sign. rewrite (proj2 (beq_false c _)), (proj2 (beq_false c _)) by done.
  change (c :: t ++ lit ".q") with ((c :: t) ++ lit ".q"). rewrite Hn. simpl. f_equal. unfold LONG_MAX. lia.
Qed.

Lemma chunk_of_name id : 0 <= id < 2 ^ 31 -> chunk_of modname (chunk_name id) = Ret (Some id).
Proof using.
  intros Hid. unfold chunk_of. set (fname := modname ++ lit "."). assert (chunk_name id = fname ++ print_int id ++ lit ".q") as -> by (unfold fname; by rewrite <- app_assoc).
  assert (1 <= zlen (print_int id)).
  { destruct (print_nat_numeral id) as [Hn _]; [lia|]. unfold print_int. rewrite (proj2 (Z.ltb_ge id 0)) by lia. destruct (numeral_head _ _ Hn) as (c & t & -> & _). simpl. lia. }
  rewrite !length_app. change (length (lit ".q")) with 2%nat. rewrite (proj2 (Z.leb_gt _ _)) by lia.
  assert (drop (length fname + (length (print_int id) + 2) - 2) (fname ++ print_int id ++ lit ".q") = lit ".q") as ->.
  { rewrite app_assoc. apply drop_app_length'. rewrite length_app. lia. }
  rewrite bool_decide_true by done. rewrite take_app_length, bool_decide_true by done. cbn [negb]. rewrite drop_app_length. unfold atoi. rewrite scanf_id by done. unfold int_range. simpl default.
  by rewrite (proj2 (Z.leb_le _ id)), (proj2 (Z.ltb_lt id _)) by lia.
Qed.

Lemma chunk_counted l : Forall codec_ok l -> forall fuel lenbuf t n m, zlen lenbuf = 4 -> (length (chunk_bytes l) < fuel)%nat ->
  count_records fuel (chunk_bytes l) lenbuf t n m = Ret (t + 4 * zlen l, n + zlen l, m + frames_size l).
Proof using.
  induction 1 as [|r l Hr Hl IH]; intros fuel lenbuf t n m Hb Hf; (destruct fuel as [|fuel]; [lia|]); [simpl; do 2 f_equal; [f_equal|]; lia|].
  destruct (body_ok r Hr) as (_ & Hlb & Hsr & _). rewrite chunk_bytes_cons in *. unfold frame in *. rewrite <- app_assoc in *.
  cbn [count_records]. rewrite Logqueue.apr_file_read_app by (by rewrite ?le_length). rewrite (drop_ge lenbuf) by (pose proof (le_length 4 (serialized_size r)); lia). rewrite app_nil_r.
  assert (nx_int32_from_le (le 4 (serialized_size r)) = serialized_size r) as -> by (rewrite nx_int32_from_le_wire, unle_le by apply le_length; apply Z.mod_small; simpl; lia).
  rewrite drop_app_length' by lia. rewrite IH; [|by rewrite le_length|rewrite !length_app in Hf; lia]. rewrite le_length. change (frames_size (r :: l)) with (serialized_size r + 4 + frames_size l).
  simpl length. do 2 f_equal; [f_equal|]; lia.
Qed.

(** *** The directory *)

(** The chunks of the module in its directory, from number [base]; only the last one can be empty. *)
Record directory (f : gmap bytes bytes) (base : Z) (held : list (list R)) : Prop := {
  di_files j l : held !! j = Some l -> f !! chunk_name (base + Z.of_nat j) = Some (chunk_bytes l);
  di_only name b : f !! name = Some b -> chunk_of modname name = Ret None \/ exists j, (j < length held)%nat /\ name = chunk_name (base + Z.of_nat j);
  di_nonempty j l : held !! j = Some l -> (S j < length held)%nat -> l <> [];
  di_ids : 0 < base /\ base + zlen held <= 2 ^ 31;
  di_ok : Forall codec_ok (concat held)
}.

Lemma held_ok (held : list (list R)) j l : Forall codec_ok (concat held) -> held !! j = Some l -> Forall codec_ok l.
Proof using.
  intros Hok Hj. apply Forall_forall. intros r Hr. eapply Forall_forall; [exact Hok|]. apply list_elem_of_In, in_concat. exists l. split; apply list_elem_of_In; [by eapply list_elem_of_lookup_2|done].
Qed.

Section scan.
Context (f : gmap bytes bytes) (base : Z) (held : list (list R)) (Hdir : directory f base held).

(** The records of a file, if it is a chunk. *)
Definition records_of (name : bytes) : list R :=
  match chunk_of modname name with Ret (Some id) => default [] (held !! Z.to_nat (id - base)) | _ => [] end.

Lemma file_cases name b : f !! name = Some b ->
  (chunk_of modname name = Ret None /\ records_of name = []) \/
  exists j l, held !! j = Some l /\ name = chunk_name (base + Z.of_nat j) /\ chunk_of modname name = Ret (Some (base + Z.of_nat j)) /\ records_of name = l /\ b = chunk_bytes l.
Proof using Hdir.
  intros Hb. destruct (di_only _ _ _ Hdir _ _ Hb) as [E|(j & Hj & ->)]; [left; unfold records_of; by rewrite E|]. right. destruct (lookup_lt_is_Some_2 held j Hj) as [l Hl].
  pose proof (di_ids _ _ _ Hdir) as [Hi1 Hi2]. assert (chunk_of modname (chunk_name (base + Z.of_nat j)) = Ret (Some (base + Z.of_nat j))) as E by (apply chunk_of_name; lia).
  exists j, l. unfold records_of. rewrite E. replace (Z.to_nat (base + Z.of_nat j - base)) with j by lia. rewrite Hl. rewrite (di_files _ _ _ Hdir _ _ Hl) in Hb. split_and!; [done..|congruence].
Qed.

(** What a scan of the directory leaves as it was. *)
Definition settled (w : world) :=
  (buffer_maxsize (w_conf w), buffer_warnlimit (w_conf w), queue (w_conf w), warned (w_conf w), warned_full (w_conf w), type (w_conf w), push_limit (w_conf w),
   push_file (w_conf w), push_count (w_conf w), pop_file (w_conf w), pop_count (w_conf w)).

(** What was found: the records, and the first and the last chunk that is not empty. *)
Record scanned (w0 w : world) (names : list bytes) : Prop := {
  sc_size : size (w_conf w) = size (w_conf w0) + zlen (names ≫= records_of);
  sc_bytes : 0 <= buffer_size (w_conf w0) < 2 ^ 64 -> buffer_size (w_conf w) = u64 (buffer_size (w_conf w0) + frames_size (names ≫= records_of));
  sc_push : (push_id (w_conf w) = push_id (w_conf w0) \/ exists j l, held !! j = Some l /\ l <> [] /\ push_id (w_conf w) = base + Z.of_nat j) /\ push_id (w_conf w0) <= push_id (w_conf w);
  sc_pop : (pop_id (w_conf w) = pop_id (w_conf w0) \/ exists j l, held !! j = Some l /\ l <> [] /\ pop_id (w_conf w) = base + Z.of_nat j) /\ (pop_id (w_conf w0) <> 0 -> pop_id (w_conf w) <= pop_id (w_conf w0));
  sc_found j l : held !! j = Some l -> l <> [] -> chunk_name (base + Z.of_nat j) ∈ names -> 0 < pop_id (w_conf w) <= base + Z.of_nat j /\ base + Z.of_nat j <= push_id (w_conf w);
  sc_files name : w_files w !! name = w_files w0 !! name \/ (w_files w !! name = None /\ exists j, held !! j = Some [] /\ name = chunk_name (base + Z.of_nat j));
  sc_gone j : held !! j = Some [] -> chunk_name (base + Z.of_nat j) ∈ names -> w_files w !! chunk_name (base + Z.of_nat j) = None;
  sc_rest : settled w = settled w0;
  sc_same : (w_in w, w_needpop w, w_next w, w_saved w, w_writable w, w_running w) = (w_in w0, w_needpop w0, w_next w0, w_saved w0, w_writable w0, w_running w0)
}.

Lemma scanned_step w0 w1 w name names : scanned w0 w1 [name] -> scanned w1 w names -> scanned w0 w (name :: names).
Proof using Hdir.
  intros [A1 A2 [A3 A3'] [A4 A4'] A5 A6 Ag A7 A8] [B1 B2 [B3 B3'] [B4 B4'] B5 B6 Bg B7 B8]. pose proof (di_ids _ _ _ Hdir) as [Hi1 Hi2]. simpl in A1, A2. rewrite app_nil_r in A1, A2.
  assert (pop_id (w_conf w0) <> 0 -> pop_id (w_conf w1) <> 0) as Hpos by (destruct A4 as [->|(j & l & _ & _ & ->)]; lia).
  constructor; cbn [mbind list_bind].
  - rewrite B1, A1, length_app. lia.
  - intros Hb. specialize (A2 Hb). rewrite A2 in B2. rewrite B2 by (apply Z.mod_pos_bound; lia). rewrite frames_size_app. unfold u64. rewrite Zplus_mod_idemp_l. f_equal. lia.
  - split; [|lia]. destruct B3 as [->|?]; [done|by right].
  - split; [destruct B4 as [->|?]; [done|by right]|]. intros Hp. specialize (A4' Hp). specialize (B4' (Hpos Hp)). lia.
  - intros j l Hj Hl [Ej|Hin]%elem_of_cons; [|by apply (B5 j l)]. destruct (A5 j l Hj Hl) as [? ?]; [rewrite Ej; by left|]. specialize (B4' ltac:(lia)).
    assert (0 < pop_id (w_conf w)) by (destruct B4 as [->|(? & ? & _ & _ & ->)]; lia). lia.
  - intros n. destruct (B6 n) as [->|?]; [apply A6|by right].
  - intros j Hj [Ej|Hin]%elem_of_cons; [|by apply Bg]. destruct (B6 (chunk_name (base + Z.of_nat j))) as [->|[? _]]; [|done]. apply Ag; [done|]. rewrite Ej. by left.
  - congruence.
  - congruence.
Qed.

Variable stack : bytes.
Hypothesis stack_length : zlen stack = 4.

Lemma start_file_ok w0 name : f !! name = w_files w0 !! name -> is_Some (f !! name) -> 0 <= pop_id (w_conf w0) ->
  exists w1, start_file modname stack name w0 = (w1, Ret tt) /\ scanned w0 w1 [name] /\ (forall n, n <> name -> w_files w1 !! n = w_files w0 !! n).
Proof using Hdir stack_length.
  intros Ef [b Hb] Hpop0. pose proof (di_ids _ _ _ Hdir) as [Hi1 Hi2]. unfold start_file. destruct (file_cases name b Hb) as [[Ec Er]|(j & l & Hj & En & -> & Er & ->)].
  - assert (forall j l, held !! j = Some l -> chunk_name (base + Z.of_nat j) <> name) as Hno by (intros j l Hj <-; rewrite chunk_of_name in Ec by (apply lookup_lt_Some in Hj; lia); done).
    rewrite Ec. exists w0. split; [done|]. split; [|done]. constructor; simpl; rewrite ?Er; try done; simpl; [lia|intros ?; unfold u64; rewrite Z.mod_small; lia|by split; [left|]|by split; [left|]| |by left|].
    + by intros j l Hj%Hno Hl E%list_elem_of_singleton.
    + by intros j Hj%Hno E%list_elem_of_singleton.
  - rewrite <- Ef, Hb. rewrite (chunk_counted l) by (first [done|lia|by eapply held_ok; [exact (di_ok _ _ _ Hdir)|]]). cbn [app]. rewrite !Z.add_0_l.
    assert (Hjl : (j < length held)%nat) by (by eapply lookup_lt_Some). assert ([name] ≫= records_of = l) as El by (simpl; rewrite Er; apply app_nil_r).
    assert (forall j', chunk_name (base + Z.of_nat j') = name -> (j' < length held)%nat -> j' = j) as Hinj by (intros j' ->%eq_sym Hj'; apply chunk_name_inj in En; lia).
    destruct (Z.eqb_spec (4 * zlen l) 0) as [H0|H0].
    + destruct l; [|simpl in H0; lia]. eexists. split; [reflexivity|]. split; [|intros n Hn; simpl; by rewrite lookup_delete_ne].
      constructor; simpl; rewrite ?Er; try done; simpl; [by split; [left|]|by split; [left|]| | |].
      * intros j' l' Hj' Hl' E'%list_elem_of_singleton; apply Hinj in E' as ->; [congruence|by eapply lookup_lt_Some].
      * intros n. destruct (decide (n = name)) as [->|]; [right; rewrite lookup_delete_eq; split; [done|by exists j]|left; by rewrite lookup_delete_ne].
      * intros j' Hj' ->%list_elem_of_singleton. apply lookup_delete_eq.
    + assert (l <> []) as Hl by (intros ->; simpl in H0; lia). eexists. split; [reflexivity|]. split; [|done].
      constructor; rewrite ?El; simpl; try done.
      * destruct (push_id (w_conf w0) <? base + Z.of_nat j) eqn:E; tests; split; [right; by exists j, l|lia|by left|done].
      * destruct (_ || _) eqn:E; [|by split; [left|]]. split; [right; by exists j, l|]. apply orb_true_iff in E. lia.
      * intros j' l' Hj' Hl' E'%list_elem_of_singleton; apply Hinj in E' as ->; [|by eapply lookup_lt_Some]. split.
        -- destruct (_ || _) eqn:E; [lia|]. apply orb_false_iff in E. lia.
        -- destruct (push_id (w_conf w0) <? base + Z.of_nat j) eqn:E; tests; lia.
      * by left.
      * intros j' Hj' E'%list_elem_of_singleton; apply Hinj in E' as ->; [|by eapply lookup_lt_Some]. congruence.
Qed.

Lemma start_files_ok names : forall w0, NoDup names -> (forall name, name ∈ names -> f !! name = w_files w0 !! name /\ is_Some (f !! name)) -> 0 <= pop_id (w_conf w0) ->
  exists w, start_files modname stack names w0 = (w, Ret tt) /\ scanned w0 w names.
Proof using Hdir stack_length.
  induction names as [|name names IH]; intros w0 Hnd Hf Hp.
  - exists w0. split; [done|]. constructor; simpl; try done; [lia|intros ?; unfold u64; rewrite Z.mod_small; lia|by split; [left|]|by split; [left|]|by intros ? ? ? ? ?%not_elem_of_nil|by left|by intros ? ? ?%not_elem_of_nil].
  - apply NoDup_cons in Hnd as [Hni Hnd]. destruct (Hf name) as [E1 E2]; [by left|]. destruct (start_file_ok w0 name E1 E2 Hp) as (w1 & Er & Hsc & Hother).
    destruct (IH w1) as (w & Er2 & Hsc2); [done| | |exists w; split; [simpl; by rewrite (cmd_bind_Ret _ _ _ _ _ Er)|by eapply scanned_step]].
    + intros n Hn. rewrite Hother by (by intros ->). apply Hf. by right.
    + destruct (sc_pop _ _ _ Hsc) as [[->|(j & l & _ & _ & ->)] _]; [done|]. pose proof (di_ids _ _ _ Hdir). lia.
Qed.

End scan.

(** *** A new process *)

Lemma frames_size_perm l l' : l ≡ₚ l' -> frames_size l = frames_size l'.
Proof using. unfold frames_size. induction 1; simpl; lia. Qed.

(** The chunks that are not empty. *)
Lemma held_split (held : list (list R)) : (forall j l, held !! j = Some l -> (S j < length held)%nat -> l <> []) ->
  exists full, Forall (fun l => l <> []) full /\ (held = full \/ held = full ++ [[]]).
Proof using.
  intros Hne. destruct held as [|l pre _] using rev_ind; [exists []; auto|].
  assert (Forall (fun l => l <> []) pre) as Hpre.
  { apply Forall_lookup. intros j x Hj. apply (Hne j); [by apply lookup_app_l_Some|]. apply lookup_lt_Some in Hj. rewrite length_app. simpl. lia. }
  destruct l as [|r l]; [by exists pre; auto|]. exists (pre ++ [r :: l]). split; [by apply Forall_app; split; [|apply Forall_singleton]|by left].
Qed.

Lemma bind_chunks (rec : bytes -> list R) (name : nat -> bytes) (held : list (list R)) js : (forall j, j ∈ js -> rec (name j) = default [] (held !! j)) ->
  (name <$> js) ≫= rec = concat ((fun j => default [] (held !! j)) <$> js).
Proof using.
  induction js as [|j js IH]; intros Hr; [done|]. rewrite !fmap_cons. cbn [mbind list_bind concat]. rewrite Hr by (by left). rewrite IH by (intros; apply Hr; by right). done.
Qed.

Lemma bind_empty (rec : bytes -> list R) names : (forall n, n ∈ names -> rec n = []) -> names ≫= rec = [].
Proof using. induction names as [|n names IH]; intros Hr; [done|]. cbn [mbind list_bind]. rewrite Hr by (by left). apply IH. intros; apply Hr; by right. Qed.

Lemma map_seq_lookup (held : list (list R)) : (fun j => default [] (held !! j)) <$> seq 0 (length held) = held.
Proof using.
  apply list_eq. intros j. rewrite list_lookup_fmap. destruct (decide (j < length held)%nat) as [Hj|Hj].
  - rewrite lookup_seq_lt by done. simpl. destruct (lookup_lt_is_Some_2 held j Hj) as [l ->]. done.
  - rewrite lookup_seq_ge by lia. symmetry. apply lookup_ge_None_2. lia.
Qed.

(** The files of a directory, in any order, have the records of its chunks. *)
Lemma scanned_records f base held names : directory f base held -> names ≡ₚ (map_to_list f).*1 -> names ≫= records_of base held ≡ₚ concat held.
Proof using.
  intros Hdir Hp. pose proof (di_ids _ _ _ Hdir) as [Hi1 Hi2]. set (name := fun j : nat => chunk_name (base + Z.of_nat j)). set (cs := name <$> seq 0 (length held)).
  assert (forall n, n ∈ names <-> is_Some (f !! n)) as Hin.
  { intros n. rewrite Hp, list_elem_of_fmap. split; [intros ([n' b] & -> & Hb%elem_of_map_to_list); by exists b|intros [b Hb]; exists (n, b); split; [done|by apply elem_of_map_to_list]]. }
  assert (NoDup names) as Hnd by (rewrite Hp; apply NoDup_fst_map_to_list).
  assert (NoDup cs) as Hcs.
  { apply NoDup_fmap_2_strong; [|apply NoDup_seq]. intros i j Hi%elem_of_seq Hj%elem_of_seq E%chunk_name_inj; lia. }
  assert (names ≡ₚ cs ++ filter (fun n => n ∉ cs) names) as Hsplit.
  { apply NoDup_Permutation; [done| |].
    - apply NoDup_app. split; [done|]. split; [|by apply NoDup_filter]. intros n Hn [Hn' _]%list_elem_of_filter. done.
    - intros n. rewrite elem_of_app, list_elem_of_filter. split; [intros Hn; destruct (decide (n ∈ cs)); auto|]. intros [(j & -> & Hj%elem_of_seq)%list_elem_of_fmap|[_ ?]]; [|done].
      apply Hin. destruct (lookup_lt_is_Some_2 held j) as [l Hl]; [lia|]. exists (chunk_bytes l). by apply (di_files _ _ _ Hdir). }
  rewrite Hsplit, bind_app. rewrite (bind_empty _ (filter _ _)), app_nil_r.
  - unfold cs. rewrite (bind_chunks _ _ held); [by rewrite map_seq_lookup|]. intros j Hj%elem_of_seq. destruct (lookup_lt_is_Some_2 held j) as [l Hl]; [lia|]. unfold records_of, name.
    rewrite chunk_of_name by lia. by replace (Z.to_nat (base + Z.of_nat j - base)) with j by lia.
  - intros n [Hn Hn']%list_elem_of_filter. apply Hin in Hn' as [b Hb]. destruct (file_cases f base held Hdir n b Hb) as [[_ ?]|(j & l & Hj & -> & _)]; [done|]. destruct Hn.
    apply list_elem_of_fmap. exists j. split; [done|]. apply elem_of_seq. apply lookup_lt_Some in Hj. lia.
Qed.

(** *** The end of a process *)

Lemma chunks_directory w held : chunks w held -> push_id (w_conf w) < 2 ^ 31 -> directory (w_files w) (pop_id (w_conf w)) held.
Proof using. intros [Hf (Hp0 & Hid & Hmax) Hpu Hl Hlim Hne Hpop Hok Hon] Hb. constructor; [done..| |done]. lia. Qed.

Lemma directory_tail f base l held : directory f base (l :: held) -> directory (delete (chunk_name base) f) (base + 1) held.
Proof using.
  intros [Hf Hon Hne [Hi1 Hi2] Hok]. simpl in Hi2. constructor.
  - intros j x Hj. assert (j < length held)%nat by (by eapply lookup_lt_Some). rewrite lookup_delete_ne; [|intros E%chunk_name_inj; lia]. specialize (Hf (S j) x Hj).
    by replace (base + 1 + Z.of_nat j) with (base + Z.of_nat (S j)) by lia.
  - intros n b [Hn Hb]%lookup_delete_Some. destruct (Hon _ _ Hb) as [|(j & Hj & ->)]; [by left|]. right. destruct j as [|j]; [by rewrite Z.add_0_r in Hn|]. exists j. simpl in Hj. split; [lia|].
    by replace (base + 1 + Z.of_nat j) with (base + Z.of_nat (S j)) by lia.
  - intros j x Hj Hjl. apply (Hne (S j)); [done|simpl; lia].
  - lia.
  - simpl in Hok. by apply Forall_app in Hok as [_ Hok].
Qed.

(** What a process leaves to the next one besides its files. *)
Definition lasting (w : world) :=
  (buffer_maxsize (w_conf w), buffer_warnlimit (w_conf w), type (w_conf w), push_limit (w_conf w), w_in w, w_needpop w, w_next w, w_writable w, w_running w).

Lemma stop_disk_ok w l d : buffers w l d -> type (w_conf w) = NX_PM_BUFFER_TYPE_DISK -> push_id (w_conf w) < 2 ^ 31 ->
  exists w' base held, pm_buffer_stop modname w = (w', Ret tt) /\ directory (w_files w') base held /\ l `suffix_of` concat held /\ concat held `suffix_of` d /\
    base + zlen held <= push_id (w_conf w) + 1 /\ lasting w' = lasting w /\ 0 < push_limit (w_conf w).
Proof using.
  intros Hb Ht Hid. pose proof (buffers_suffix _ _ _ Hb) as Hsuf. destruct Hb as [_ _ Hst]. rewrite Ht in Hst. destruct Hst as (Hsz & held & Hch & Hu & ->). pose proof (chunks_directory w held Hch Hid) as Hdir.
  pose proof (ch_ids _ _ Hch) as (Hp0 & Hids & _). pose proof (ch_limit _ _ Hch) as Hlim. unfold pm_buffer_stop. rewrite (cmd_bind_Ret _ _ w w (w_conf w)) by done. rewrite Ht.
  destruct (Z.eqb_spec (size (w_conf w)) 0) as [H0|H0]; [destruct (pop_file (w_conf w)) eqn:Ep|].
  - destruct held as [|l0 held]; [by destruct (ch_pop _ _ Hch) as (? & ? & ? & _)|]. rewrite (unread_first _ _ _ Hch) in Hu. assert (l = []) as -> by (destruct l; [done|simpl in Hsz; lia]).
    apply app_eq_nil in Hu as [_ Hu]. eexists _, (pop_id (w_conf w) + 1), held. split; [reflexivity|]. split; [by eapply directory_tail|]. split; [apply suffix_nil|].
    split; [rewrite Hu; apply suffix_nil|]. simpl in Hids. split; [lia|]. done.
  - eexists _, (pop_id (w_conf w)), held. split; [reflexivity|]. split; [done|]. split; [done|]. split; [done|]. split; [lia|]. done.
  - eexists _, (pop_id (w_conf w)), held. split; [reflexivity|]. split; [done|]. split; [done|]. split; [done|]. split; [lia|]. done.
Qed.

Section process.
Variable dir_order : gmap bytes bytes -> list bytes.
Variable stack : bytes.
Hypothesis dir_order_all : forall m, dir_order m ≡ₚ (map_to_list m).*1.
Hypothesis stack_length : zlen stack = 4.

(** A module that was not started. *)
Definition unstarted (w : world) : Prop :=
  buffer_size (w_conf w) = 0 /\ size (w_conf w) = 0 /\ push_id (w_conf w) = 0 /\ pop_id (w_conf w) = 0 /\ pop_count (w_conf w) = 0 /\ pop_file (w_conf w) = None /\ queue (w_conf w) = [] /\ 0 < push_limit (w_conf w).

(** What was scanned: the chunks that are not empty follow each other from [b]. *)
Lemma scan_result w held base : unstarted w -> directory (w_files w) base held ->
  exists w1 full b, start_files modname stack (dir_order (w_files w)) w = (w1, Ret tt) /\ concat full = concat held /\ Forall (fun l => l <> []) full /\ 0 < b <= Z.max 1 base /\ b + zlen full <= Z.max 1 (base + zlen held) /\
    push_id (w_conf w1) = b + zlen full - 1 /\ pop_id (w_conf w1) = (if decide (full = []) then 0 else b) /\ (full = [] -> b = 1) /\
    (forall j l, full !! j = Some l -> w_files w1 !! chunk_name (b + Z.of_nat j) = Some (chunk_bytes l)) /\
    (forall n x, w_files w1 !! n = Some x -> chunk_of modname n = Ret None \/ exists j, (j < length full)%nat /\ n = chunk_name (b + Z.of_nat j)) /\
    size (w_conf w1) = zlen (concat held) /\ buffer_size (w_conf w1) = u64 (frames_size (concat held)) /\ settled w1 = settled w /\
    (w_in w1, w_needpop w1, w_next w1, w_saved w1, w_writable w1, w_running w1) = (w_in w, w_needpop w, w_next w, w_saved w, w_writable w, w_running w).
Proof using CL dir_order_all stack_length.
  intros (Hb0 & Hs0 & Hpu0 & Hpo0 & _) Hdir. pose proof (di_ids _ _ _ Hdir) as [Hi1 Hi2]. set (names := dir_order (w_files w)).
  assert (forall n, n ∈ names <-> is_Some (w_files w !! n)) as Hin.
  { intros n. unfold names. rewrite dir_order_all, list_elem_of_fmap. split; [intros ([n' b] & -> & Hb%elem_of_map_to_list); by exists b|intros [b Hb]; exists (n, b); split; [done|by apply elem_of_map_to_list]]. }
  destruct (start_files_ok (w_files w) base held Hdir stack stack_length names w) as (w1 & Er & Hsc); [unfold names; rewrite dir_order_all; apply NoDup_fst_map_to_list|by intros n Hn%Hin|lia|].
  pose proof (scanned_records _ _ _ names Hdir (dir_order_all _)) as Hrec. destruct Hsc as [S1 S2 [S3 S3'] [S4 S4'] S5 S6 Sg S7 S8].
  rewrite Hs0, Hrec in S1. rewrite Hb0, (frames_size_perm _ _ Hrec) in S2. specialize (S2 ltac:(lia)). rewrite Hpu0 in S3, S3'. rewrite Hpo0 in S4.
  destruct (held_split held (di_nonempty _ _ _ Hdir)) as (full & Hfull & Hcases).
  assert (concat full = concat held) as Hcat by (destruct Hcases as [-> | ->]; rewrite ?concat_app; simpl; by rewrite ?app_nil_r).
  assert (forall j l, full !! j = Some l -> held !! j = Some l /\ l <> [] /\ chunk_name (base + Z.of_nat j) ∈ names) as Hf.
  { intros j l Hj. assert (held !! j = Some l) as Hj' by (destruct Hcases as [-> | ->]; [done|by apply lookup_app_l_Some]). split; [done|]. split; [by eapply (Forall_lookup_1 _ _ _ _ Hfull)|].
    apply Hin. rewrite (di_files _ _ _ Hdir _ _ Hj'). by eexists. }
  assert (forall j l, held !! j = Some l -> l <> [] -> (j < length full)%nat) as Hlt.
  { intros j l Hj Hl. destruct Hcases as [-> | ->]; [by eapply lookup_lt_Some|]. apply lookup_app_Some in Hj as [Hj|[_ Hj]]; [by eapply lookup_lt_Some|]. by apply list_lookup_singleton_Some in Hj as [_ <-]. }
  assert (zlen full <= zlen held) as Hlen by (destruct Hcases as [-> | ->]; rewrite ?length_app; lia).
  set (b := if decide (full = []) then 1 else base).
  assert (push_id (w_conf w1) = b + zlen full - 1 /\ pop_id (w_conf w1) = (if decide (full = []) then 0 else b)) as [Hpush Hpop].
  { unfold b. destruct (decide (full = [])) as [->|Hne].
    - split; [destruct S3 as [->|(j & l & Hj & Hl & _)]; [done|]|destruct S4 as [->|(j & l & Hj & Hl & _)]; [done|]]; by specialize (Hlt j l Hj Hl); simpl in Hlt; lia.
    - destruct full as [|l0 full]; [done|]. destruct (Hf 0%nat l0 eq_refl) as (F1 & F2 & F3). pose proof (S5 _ _ F1 F2 F3) as G0.
      destruct (lookup_lt_is_Some_2 (l0 :: full) (length full)) as [l1 Hl1]; [simpl; lia|]. destruct (Hf _ _ Hl1) as (K1 & K2 & K3). pose proof (S5 _ _ K1 K2 K3) as G1. simpl length.
      split; [destruct S3 as [E|(j & l & Hj & Hl & E)]; [lia|]|destruct S4 as [E|(j & l & Hj & Hl & E)]; [lia|]]; specialize (Hlt j l Hj Hl); simpl in Hlt; lia. }
  exists w1, full, b. split; [exact Er|]. split; [done|]. split; [done|]. split; [unfold b; case_decide; lia|]. split; [unfold b; case_decide; [subst; simpl; lia|lia]|]. split; [done|]. split; [done|].
  split; [intros ->; unfold b; by rewrite decide_True|]. split.
  { intros j l Hj. destruct (Hf j l Hj) as (F1 & F2 & F3). assert (b = base) as -> by (unfold b; rewrite decide_False; [done|by intros ->]).
    destruct (S6 (chunk_name (base + Z.of_nat j))) as [->|(_ & j' & Hj' & E)]; [by apply (di_files _ _ _ Hdir)|]. apply chunk_name_inj in E; [|apply lookup_lt_Some in F1; lia|apply lookup_lt_Some in Hj'; lia].
    assert (j' = j) as -> by lia. congruence. }
  split.
  { intros n x Hn. destruct (S6 n) as [E|[E _]]; [|congruence]. rewrite E in Hn. destruct (di_only _ _ _ Hdir _ _ Hn) as [|(j & Hj & ->)]; [by left|]. right.
    destruct (lookup_lt_is_Some_2 held j Hj) as [l Hl]. destruct l as [|r l].
    - rewrite (Sg j Hl) in E; [congruence|]. apply Hin. by exists x.
    - assert (j < length full)%nat as Hjf by (by eapply Hlt). exists j. split; [done|]. unfold b. rewrite decide_False; [done|]. intros ->. simpl in Hjf. lia. }
  split; [lia|]. by split.
Qed.

Lemma start_disk_ok w held base : unstarted w -> directory (w_files w) base held -> type (w_conf w) = NX_PM_BUFFER_TYPE_DISK -> w_writable w = true -> base + zlen held < 2 ^ 31 -> frames_size (concat held) < 2 ^ 64 ->
  exists w', pm_buffer_start modname dir_order stack w = (w', Ret tt) /\ buffers w' (concat held) (concat held) /\ push_id (w_conf w') <= Z.max 1 (base + zlen held) /\ lasting w' = lasting w.
Proof using CL dir_order_all stack_length.
  intros Hun Hdir Ht Hw Hids Hsz. destruct (scan_result w held base Hun Hdir) as (w1 & full & b & Er & Hcat & Hne & Hb & Hbl & Hpush & Hpop & Hb1 & Hfiles & Honly & Hsize & Hbytes & Hset & Hsame).
  destruct Hun as (_ & _ & _ & _ & Hpc & Hpf & _ & Hlim). pose proof (di_ids _ _ _ Hdir) as [Hi1 _]. pose proof (frames_size_pos _ (di_ok _ _ _ Hdir)) as Hpos.
  unfold settled in Hset. injection Hset as Hm Hwl _ _ _ Ht1 Hl1 _ _ Hpf1 Hpc1. injection Hsame as E1 E2 E3 E4 E5 E6.
  unfold pm_buffer_start. rewrite (cmd_bind_Ret _ _ w w (w_conf w)) by done. rewrite Ht. rewrite (cmd_bind_Ret _ _ w w w) by done. rewrite (cmd_bind_Ret _ _ _ _ _ Er).
  do 2 (erewrite cmd_bind_Ret by reflexivity). erewrite cmd_bind_Ret by (unfold open_push; simpl; rewrite E5, Hw; reflexivity). cbn [push_id w_conf set_conf with_push].
  eexists. split; [reflexivity|]. simpl. split; [|split; [lia|unfold lasting; simpl; congruence]].
  set (x := push_id (w_conf w1) + 1). assert (x = b + zlen full) as Ex by (unfold x; lia).
  constructor; simpl; [by rewrite Hbytes; unfold u64; rewrite Z.mod_small by lia|apply Hdir|]. rewrite Ht1, Ht. split; [done|]. exists (full ++ [[]]).
  assert (concat (full ++ [[]]) = concat held) as Hcat2 by (rewrite concat_app; simpl; by rewrite !app_nil_r).
  split; [|split; [unfold unread; simpl; by rewrite Hpc1, Hpc, Hcat2|done]].
  assert ((if pop_id (w_conf w1) =? 0 then 1 else pop_id (w_conf w1)) = b) as Hpb.
  { rewrite Hpop. destruct (decide (full = [])) as [E|E]; [by rewrite (Hb1 E)|]. by rewrite (proj2 (Z.eqb_neq b 0)) by lia. }
  constructor; simpl; rewrite ?Hpb; fold x.
  - intros j l Hj. destruct (decide (j = length full)) as [->|Hjn].
    + rewrite list_lookup_middle in Hj by done. injection Hj as <-. rewrite Ex. apply lookup_insert_eq.
    + assert (j < length (full ++ [[]]))%nat as Hjl by (by eapply lookup_lt_Some). rewrite length_app in Hjl. simpl in Hjl. rewrite lookup_app_l in Hj by lia.
      rewrite lookup_insert_ne; [by apply Hfiles|]. intros E%chunk_name_inj; lia.
  - rewrite length_app. simpl. lia.
  - done.
  - exists []. by rewrite last_snoc.
  - congruence.
  - intros j l Hj Hjl. rewrite length_app in Hjl. simpl in Hjl. rewrite lookup_app_l in Hj by lia. by eapply (Forall_lookup_1 _ _ _ _ Hne).
  - exists (default [] (head (full ++ [[]]))), 0%nat. rewrite Hpc1, Hpf1, Hpc, Hpf. split_and!; [by destruct full|done|lia|done].
  - rewrite Hcat2. apply Hdir.
  - intros n y. rewrite length_app. simpl. intros [[<- _]|[_ Hn]]%lookup_insert_Some.
    + right. exists (length full). split; [lia|]. by rewrite Ex.
    + destruct (Honly _ _ Hn) as [|(j & Hj & ->)]; [by left|]. right. exists j. split; [lia|done].
Qed.

(** A new process has the same configuration and the same files. *)
Definition new_process (w : world) : world :=
  let c := w_conf w in
  World (Conf 0 (buffer_maxsize c) (buffer_warnlimit c) [] false false (type c) 0 None 0 0 (push_limit c) None 0 0) (w_files w) (w_in w) (w_needpop w) (w_next w) (w_saved w) [] (w_writable w) (w_running w).

Definition restart : cmd world unit :=
  _ ← pm_buffer_stop modname;
  _ ← (fun w => (new_process w, Ret tt));
  pm_buffer_start modname dir_order stack.

Lemma buffer_restart_ok w l d rest k : buffers w l d -> room w d rest (k + 1) -> 0 <= k ->
  exists w' l', restart w = (w', Ret tt) /\ buffers w' l' l' /\ l `suffix_of` l' /\ l' `suffix_of` d /\ (type (w_conf w) = NX_PM_BUFFER_TYPE_MEM -> l' = l) /\ room w' l' rest k /\ lasting w' = lasting w.
Proof using CL dir_order_all stack_length.
  intros Hb Hroom Hk. pose proof Hroom as [R1 R2 R3 R4 [_ R5]]. pose proof (bf_ok _ _ _ Hb) as Hokd.
  unfold restart. destruct (type (w_conf w)) eqn:Et.
  - pose proof (bf_ok _ _ _ Hb) as Hok. pose proof (bf_store _ _ _ Hb) as Hst. rewrite Et in Hst. destruct Hst as (Hq & -> & Hsv).
    assert (exists w1, pm_buffer_stop modname w = (w1, Ret tt) /\ w_conf w1 = w_conf w /\ w_saved w1 = (match l with [] => None | _ => Some l end) /\ lasting w1 = lasting w) as (w1 & E1 & Hc1 & Hs1 & Hl1).
    { unfold pm_buffer_stop. rewrite (cmd_bind_Ret _ _ w w (w_conf w)) by done. rewrite Et. unfold queue_to_file. rewrite Hq. destruct l; eexists; (split; [reflexivity|]); done. }
    rewrite (cmd_bind_Ret _ _ _ _ _ E1). rewrite (cmd_bind_Ret _ _ w1 (new_process w1) tt) by done. set (w2 := new_process w1).
    unfold pm_buffer_start. rewrite (cmd_bind_Ret _ _ w2 w2 (w_conf w2)) by done. assert (type (w_conf w2) = NX_PM_BUFFER_TYPE_MEM) as Et2 by (unfold w2; simpl; by rewrite Hc1). rewrite Et2.
    eexists _, l. split; [reflexivity|]. assert (default [] (w_saved w1) = l) as El by (rewrite Hs1; by destruct l).
    unfold lasting in Hl1. rewrite Hc1 in Hl1. injection Hl1 as Hi1 Hn1 Hx1 Hw1 Hr1.
    split; [constructor; simpl; [by rewrite El|done|by rewrite Hc1, Et; rewrite El]|]. split; [done|]. split; [done|]. split; [done|].
    split; [constructor; simpl; rewrite ?Hi1, ?Hw1; first [done|lia]|]. unfold lasting. simpl. rewrite Hc1. congruence.
  - destruct (stop_disk_ok w l d Hb Et) as (w1 & base & held & E1 & Hdir & Hs1 & Hs2 & Hid & Hl1 & Hlim); [lia|]. rewrite (cmd_bind_Ret _ _ _ _ _ E1).
    rewrite (cmd_bind_Ret _ _ w1 (new_process w1) tt) by done. set (w2 := new_process w1). unfold lasting in Hl1. injection Hl1 as Hm1 Hwl1 Ht1 Hli1 Hi1 Hn1 Hx1 Hw1 Hr1.
    destruct (frames_size_suffix _ _ Hokd Hs2) as [Hfs _]. assert (Forall codec_ok (w_in w ++ rest)) as Hok2 by (by apply Forall_app in R1 as [_ ?]). pose proof (frames_size_pos _ Hok2). rewrite frames_size_app in R3.
    destruct (start_disk_ok w2 held base) as (w' & E2 & Hb' & Hp' & Hsame); [unfold unstarted, w2; simpl; rewrite Hli1; by split_and!|done|unfold w2; simpl; congruence|unfold w2; simpl; congruence|lia|lia|].
    exists w', (concat held). pose proof Hsame as Hla. unfold lasting in Hsame. injection Hsame as _ _ _ _ Hi' _ _ Hw' _. split; [exact E2|]. split; [done|]. split; [done|]. split; [done|]. split; [done|].
    split; [eapply room_later; [exact Hroom|done|congruence|congruence|done|lia]|]. rewrite Hla. unfold lasting. simpl. congruence.
Qed.

(** ** Runs *)

(** A record arrives in the queue of the module, the modules behind it change, its status
    changes, it gets an event, or the program ends and is started again; the queue of the module
    is kept then ([Logqueue]). *)
Inductive op :=
| Arrive (r : R)
| Change (g : X -> X)
| Status (running : bool)
| Process (now : Z) (t : Event.nx_event_type)
| Restart.

Definition set_running (b : bool) (w : world) : world :=
  World (w_conf w) (w_files w) (w_in w) (w_needpop w) (w_next w) (w_saved w) (w_events w) (w_writable w) b.

Definition run_op (o : op) : cmd world unit :=
  match o with
  | Arrive r => fun w => (set_in (w_in w ++ [r]) (w_needpop w) w, Ret tt)
  | Change g => fun w => (set_next (g (w_next w)) w, Ret tt)
  | Status b => fun w => (set_running b w, Ret tt)
  | Process now t => pm_buffer_event modname now t
  | Restart => restart
  end.

Fixpoint run_ops (ops : list op) : cmd world unit := match ops with [] => mret tt | o :: ops => _ ← run_op o; run_ops ops end.

(** The module is started, and the operations follow. *)
Definition run (ops : list op) : cmd world unit := _ ← pm_buffer_start modname dir_order stack; run_ops ops.

Definition arrivals (o : op) : list R := match o with Arrive r => [r] | _ => [] end.
Definition arrived (ops : list op) : list R := ops ≫= arrivals.
Definition restarts (ops : list op) : Z := foldr (fun o n => match o with Restart => 1 + n | _ => n end) 0 ops.

(** The modules behind do not forget records, and only the two events that the module handles
    come, at a time before the year 148000. *)
Definition op_ok (o : op) : Prop :=
  match o with
  | Change g => forall x, sent (g x) = sent x
  | Process now t => (t = Event.NX_EVENT_DATA_AVAILABLE \/ t = Event.NX_EVENT_READ) /\ 0 <= now < 2 ^ 62
  | _ => True
  end.

(** Everything that has arrived, in the order in which it was or will be sent. *)
Definition everything (w : world) (l : list R) : list R := sent (w_next w) ++ l ++ w_in w.

(** The state between two operations. *)
Record between (w : world) (l d : list R) : Prop := {
  bw_buffers : buffers w l d;
  bw_needpop : w_needpop w = false;
  bw_known r : r ∈ d -> r ∈ everything w l
}.

(** What an operation that adds the records [new] does to it. *)
Record advances (w : world) (l : list R) (w' : world) (l' new : list R) (exact : Prop) : Prop := {
  ad_kept : everything w l ++ new `sublist_of` everything w' l';
  ad_known r : r ∈ everything w' l' -> r ∈ everything w l ++ new;
  ad_exact : exact -> everything w' l' = everything w l ++ new;
  ad_conf : buffer_maxsize (w_conf w') = buffer_maxsize (w_conf w) /\ type (w_conf w') = type (w_conf w);
  ad_bound most : exact -> Forall (fun r => serialized_size r + 4 <= most) (w_in w ++ new) -> Forall (fun r => serialized_size r + 4 <= most) (w_in w') /\
      (buffer_size (w_conf w) < buffer_maxsize (w_conf w) + most -> buffer_size (w_conf w') < buffer_maxsize (w_conf w') + most)
}.

Lemma advances_equal w l w' l' new exact : everything w' l' = everything w l ++ new -> (buffer_maxsize (w_conf w') = buffer_maxsize (w_conf w) /\ type (w_conf w') = type (w_conf w)) ->
  (forall most, Forall (fun r => serialized_size r + 4 <= most) (w_in w ++ new) -> Forall (fun r => serialized_size r + 4 <= most) (w_in w') /\
      (buffer_size (w_conf w) < buffer_maxsize (w_conf w) + most -> buffer_size (w_conf w') < buffer_maxsize (w_conf w') + most)) -> advances w l w' l' new exact.
Proof using. intros E Hc Hb. constructor; [by rewrite E|by rewrite E|done|done|]. intros most _. apply Hb. Qed.

Lemma between_known w l w' l' (d' new : list R) : everything w' l' = everything w l ++ new -> (forall r, r ∈ d' -> r ∈ everything w l \/ r ∈ l') -> forall r, r ∈ d' -> r ∈ everything w' l'.
Proof using. intros E Hd r Hr. destruct (Hd r Hr) as [Hr'|Hr']; [rewrite E; apply elem_of_app; by left|]. unfold everything. rewrite !elem_of_app. auto. Qed.

(** An event, whose time was put into the list of events. *)
Lemma event_runs now t w : (t = Event.NX_EVENT_DATA_AVAILABLE \/ t = Event.NX_EVENT_READ) -> 0 <= now < 2 ^ 62 ->
  exists e, pm_buffer_event modname now t w = pm_buffer_data_available modname (set_events e w).
Proof using.
  clear stack_length. intros [-> | ->] Hnow; [exists (w_events w); by destruct w|]. exists (w_events w ++ [now + 1000000]). cbn [pm_buffer_event]. unfold pm_buffer_add_event.
  rewrite (cmd_bind_Ret _ _ w (set_events (w_events w ++ [now + 1000000]) w) tt); [reflexivity|].
  rewrite (cmd_bind_Ret _ _ w w (now + 1000000)); [done|]. unfold lift. f_equal. unfold Expr.add_seconds, Expr.long, Expr.APR_USEC_PER_SEC. simpl.
  by rewrite (proj2 (Z.leb_le _ (now + 1000000))), (proj2 (Z.ltb_lt (now + 1000000) _)) by lia.
Qed.

Lemma event_ok w l d now t rest k : between w l d -> room w d rest k -> (t = Event.NX_EVENT_DATA_AVAILABLE \/ t = Event.NX_EVENT_READ) -> 0 <= now < 2 ^ 62 ->
  exists w' l' d', pm_buffer_event modname now t w = (w', Ret tt) /\ between w' l' d' /\ room w' d' rest k /\ (forall exact, advances w l w' l' [] exact) /\
    (w_running w = true -> can_send (w_next w') = true -> l' = []).
Proof using CL NL.
  clear stack_length dir_order_all. intros [Hb Hnp Hkn] Hroom Ht Hnow. destruct (event_runs now t w Ht Hnow) as [e Ee]. rewrite Ee. set (w1 := set_events e w).
  destruct (data_available_ok w1 l d rest k) as (w' & l' & d' & E2 & Hb2 & Hn2 & Hs2 & Hr2 & Hm2 & Hty & _ & Hsz & Hq & Hd2 & Hdone); [by eapply buffers_unchanged|done|by eapply room_kept|].
  assert (everything w' l' = everything w l ++ []) as Eall by (rewrite app_nil_r; exact Hs2).
  exists w', l', d'. split; [done|]. split; [constructor; [done|done|]|split; [done|split; [|exact Hdone]]].
  { eapply between_known; [exact Eall|]. intros r Hr. destruct (Hd2 r Hr); auto. }
  intros exact. apply advances_equal; [done|by split|]. intros most Hall. rewrite app_nil_r in Hall. change (w_in w1) with (w_in w) in Hq, Hsz. change (w_conf w1) with (w_conf w) in Hm2, Hsz. split.
  - destruct Hq as [->|(r & Hq)]; [done|]. rewrite Hq in Hall. by apply Forall_cons in Hall as [_ ?].
  - intros Hlt. rewrite Hm2. destruct Hsz as [Hle|(r & Hr & Hlt')]; [lia|]. rewrite Forall_forall in Hall. specialize (Hall r Hr). lia.
Qed.

Lemma step_ok w l d o rest k : between w l d -> room w d (arrivals o ++ rest) (restarts [o] + k) -> 0 <= k -> op_ok o ->
  exists w' l' d', run_op o w = (w', Ret tt) /\ between w' l' d' /\ room w' d' rest k /\
    advances w l w' l' (arrivals o) (restarts [o] = 0 \/ type (w_conf w) = NX_PM_BUFFER_TYPE_MEM).
Proof using CL NL dir_order_all stack_length.
  intros Hbw Hroom Hk Ho. pose proof Hbw as [Hb Hnp Hkn]. destruct o as [r|g|b|now t|]; cbn [arrivals restarts foldr app] in *.
  - eexists _, l, d. split; [reflexivity|]. assert (everything (set_in (w_in w ++ [r]) (w_needpop w) w) l = everything w l ++ [r]) as E by (unfold everything; simpl; by rewrite <- !app_assoc).
    split; [constructor; [by eapply buffers_unchanged|done|eapply between_known; [exact E|auto]]|]. split; [|by apply advances_equal].
    destruct Hroom as [H1 H2 H3 H4 H5]. by constructor; simpl; rewrite <- ?app_assoc.
  - eexists _, l, d. split; [reflexivity|]. assert (everything (set_next (g (w_next w)) w) l = everything w l ++ []) as E by (unfold everything; simpl; by rewrite (Ho (w_next w)), app_nil_r).
    split; [constructor; [by eapply buffers_unchanged|done|eapply between_known; [exact E|auto]]|]. split; [by eapply room_kept|]. apply advances_equal; [done|done|]. by rewrite app_nil_r.
  - eexists _, l, d. split; [reflexivity|]. assert (everything (set_running b w) l = everything w l ++ []) as E by (by rewrite app_nil_r).
    split; [constructor; [by eapply buffers_unchanged|done|eapply between_known; [exact E|auto]]|]. split; [by eapply room_kept|]. apply advances_equal; [done|done|]. by rewrite app_nil_r.
  - destruct Ho as [Ht Hnow]. destruct (event_ok w l d now t rest k Hbw Hroom Ht Hnow) as (w' & l' & d' & E & Hbw' & Hroom' & Ha & _). exists w', l', d'. by split_and!.
  - destruct (buffer_restart_ok w l d rest k) as (w' & l' & E & Hb' & Hl & Hd & Hmem & Hroom' & Hla); [done|by rewrite Z.add_comm|done|]. unfold lasting in Hla. injection Hla as Hm _ Ht _ Hi Hn Hx Hw Hr.
    exists w', l', l'. split; [done|]. assert (forall r, r ∈ l' -> r ∈ everything w l) as Hin by (intros r Hr'; apply Hkn; by eapply suffix_mem).
    split; [constructor; [done|congruence|]|split; [done|constructor]].
    + intros r Hr'. unfold everything. rewrite !elem_of_app. auto.
    + rewrite app_nil_r. unfold everything. rewrite Hx, Hi. destruct Hl as [p ->]. apply sublist_app; [done|]. apply sublist_app; [by apply sublist_inserts_l|done].
    + intros r Hr'. rewrite app_nil_r. unfold everything in Hr'. rewrite Hx, Hi, !elem_of_app in Hr'. destruct Hr' as [Hr'|[Hr'|Hr']]; [|by apply Hin|]; unfold everything; rewrite !elem_of_app; auto.
    + intros [?|Hmt]; [done|]. rewrite (Hmem Hmt), app_nil_r. unfold everything. by rewrite Hx, Hi.
    + by split.
    + intros most [?|Hmt]; [done|]. rewrite app_nil_r, Hi. split; [done|]. rewrite Hm, (bf_size _ _ _ Hb'), (bf_size _ _ _ Hb), (Hmem Hmt). done.
Qed.

Lemma advances_trans w l w1 l1 w2 l2 n1 n2 r1 r2 : 0 <= r1 -> 0 <= r2 ->
  advances w l w1 l1 n1 (r1 = 0 \/ type (w_conf w) = NX_PM_BUFFER_TYPE_MEM) -> advances w1 l1 w2 l2 n2 (r2 = 0 \/ type (w_conf w1) = NX_PM_BUFFER_TYPE_MEM) ->
  advances w l w2 l2 (n1 ++ n2) (r1 + r2 = 0 \/ type (w_conf w) = NX_PM_BUFFER_TYPE_MEM).
Proof using.
  clear stack_length dir_order_all. intros H1 H2 [A1 A2 A3 [A4 A4'] A5] [B1 B2 B3 [B4 B4'] B5].
  assert (r1 + r2 = 0 \/ type (w_conf w) = NX_PM_BUFFER_TYPE_MEM -> (r1 = 0 \/ type (w_conf w) = NX_PM_BUFFER_TYPE_MEM) /\ (r2 = 0 \/ type (w_conf w1) = NX_PM_BUFFER_TYPE_MEM)) as Hex.
  { rewrite A4'. intros [?|?]; [split; left; lia|by split; right]. }
  constructor.
  - rewrite app_assoc. etransitivity; [|exact B1]. by apply sublist_app.
  - intros r Hr%B2. rewrite app_assoc. apply elem_of_app in Hr as [Hr|Hr]; apply elem_of_app; [left; by apply A2|by right].
  - intros [E1 E2]%Hex. by rewrite (B3 E2), (A3 E1), app_assoc.
  - split; congruence.
  - intros most [E1 E2]%Hex Hall. rewrite app_assoc in Hall. apply Forall_app in Hall as [Hall1 Hall2]. destruct (A5 most E1 Hall1) as [Hin Hb1].
    destruct (B5 most E2) as [Hin2 Hb2]; [by apply Forall_app|]. auto.
Qed.

Lemma restarts_cons o ops : restarts (o :: ops) = restarts [o] + restarts ops.
Proof using. clear. destruct o; done. Qed.

Lemma restarts_pos ops : 0 <= restarts ops.
Proof using. clear. induction ops as [|o ops IH]; [done|]. rewrite restarts_cons. destruct o; simpl; lia. Qed.

Lemma run_ops_ok ops : forall w l d, between w l d -> room w d (arrived ops) (restarts ops) -> Forall op_ok ops ->
  exists w' l' d', run_ops ops w = (w', Ret tt) /\ between w' l' d' /\ room w' d' [] 0 /\ advances w l w' l' (arrived ops) (restarts ops = 0 \/ type (w_conf w) = NX_PM_BUFFER_TYPE_MEM).
Proof using CL NL dir_order_all stack_length.
  induction ops as [|o ops IH]; intros w l d Hbw Hroom Hops.
  - exists w, l, d. split; [done|]. split; [done|]. split; [done|]. apply advances_equal; [by rewrite app_nil_r|done|]. by rewrite app_nil_r.
  - apply Forall_cons in Hops as [Ho Hops]. rewrite restarts_cons in *. change (arrived (o :: ops)) with (arrivals o ++ arrived ops) in *.
    destruct (step_ok w l d o (arrived ops) (restarts ops) Hbw Hroom (restarts_pos ops) Ho) as (w1 & l1 & d1 & E1 & Hbw1 & Hroom1 & Ha1).
    destruct (IH w1 l1 d1 Hbw1 Hroom1 Hops) as (w2 & l2 & d2 & E2 & Hbw2 & Hroom2 & Ha2). exists w2, l2, d2. cbn [run_ops]. rewrite (cmd_bind_Ret _ _ _ _ _ E1).
    split; [done|]. split; [done|]. split; [done|]. eapply advances_trans; [|apply restarts_pos|exact Ha1|exact Ha2]. apply restarts_pos.
Qed.

(** The module before its first start: nothing has arrived, was saved or sent, and its directory
    has no chunks. *)
Record pristine (w : world) : Prop := {
  pr_unstarted : unstarted w;
  pr_in : w_in w = [] /\ w_needpop w = false /\ w_writable w = true;
  pr_saved : w_saved w = None;
  pr_files n b : w_files w !! n = Some b -> chunk_of modname n = Ret None;
  pr_sent : sent (w_next w) = []
}.

(** The limits are unsigned, and MaxSize is not zero. *)
Lemma kilobytes_range old a n : kilobytes old a = Ret n -> 0 <= n < 2 ^ 64.
Proof using. clear. unfold kilobytes. repeat case_match; try done. destruct (scanf_lu a); [|done]. intros [= <-]. apply Z.mod_pos_bound. lia. Qed.

Lemma directives_range ds : forall x y, apply_directives ds x = Ret y -> 0 <= s_maxsize x -> 0 <= s_maxsize y.
Proof using.
  clear. induction ds as [|d ds IH]; intros x y E Hx; [by injection E as <-|]. simpl in E. destruct (apply_directive d x) as [z| | |] eqn:Ed; try done.
  apply (IH _ _ E). unfold apply_directive, set_type in Ed. repeat case_match; try done; simplify_eq; try done; simpl.
  all: destruct (kilobytes _ _) as [n| | |] eqn:Ek; try done; apply kilobytes_range in Ek; injection Ed as <-; simpl; lia.
Qed.

Lemma configured_pristine cachedir ds c dir f x r : pm_buffer_config cachedir ds = Ret (c, dir) -> sent x = [] -> (forall n b, f !! n = Some b -> chunk_of modname n = Ret None) ->
  pristine (World c f [] false x None [] true r) /\ 0 < buffer_maxsize c.
Proof using.
  clear dir_order_all stack_length. intros E Hx Hf. unfold pm_buffer_config in E. destruct (apply_directives ds _) as [y| | |] eqn:Ed; try done. apply directives_range in Ed; [|done]. simpl in E.
  destruct (Z.eqb_spec (s_maxsize y) 0); [done|]. destruct (s_type y); [|done]. injection E as <- _. split; [|simpl; lia]. by constructor.
Qed.

Lemma first_start w rest k : pristine w -> Forall codec_ok rest -> zlen rest < 2 ^ 31 - 1 -> frames_size rest < 2 ^ 64 -> 0 <= k -> zlen rest + k + 1 < 2 ^ 31 ->
  exists w', pm_buffer_start modname dir_order stack w = (w', Ret tt) /\ between w' [] [] /\ room w' [] rest k /\ everything w' [] = [] /\
    type (w_conf w') = type (w_conf w) /\ buffer_maxsize (w_conf w') = buffer_maxsize (w_conf w) /\ w_in w' = [] /\ buffer_size (w_conf w') = 0.
Proof using CL dir_order_all stack_length.
  intros [Hun (Hin & Hnp & Hwr) Hsv Hfi Hse] Hok Hn Hf Hk Hids. pose proof Hun as (Hb & Hs & Hp & _ & _ & _ & Hq & _). destruct (type (w_conf w)) eqn:Et.
  - unfold pm_buffer_start. rewrite (cmd_bind_Ret _ _ w w (w_conf w)) by done. rewrite Et. eexists. split; [reflexivity|]. simpl. rewrite Hsv, Hq. simpl.
    split; [constructor; [constructor; simpl; [done|done|by rewrite Et]|done|by intros r ?%not_elem_of_nil]|]. split; [constructor; simpl; rewrite ?Hin, ?Hp; simpl; first [done|lia]|].
    unfold everything. simpl. by rewrite Hse, Hin.
  - assert (directory (w_files w) 1 []) as Hdir by (constructor; [done|intros n b Hb'; left; by eapply Hfi|done|done|done]).
    destruct (start_disk_ok w [] 1 Hun Hdir Et Hwr) as (w' & E & Hb' & Hp' & Hla); [done|done|]. unfold lasting in Hla. injection Hla as Hm _ Ht _ Hi Hn' Hx Hw Hr. simpl in Hp', Hb'.
    exists w'. split; [done|]. split; [constructor; [done|congruence|by intros r ?%not_elem_of_nil]|]. split; [constructor; rewrite ?Hi, ?Hin; simpl; first [done|congruence|lia]|].
    unfold everything. rewrite Hx, Hse, Hi, Hin. split_and!; [done|congruence|done|done|exact (bf_size _ _ _ Hb')].
Qed.

Lemma run_ok w ops : pristine w -> Forall op_ok ops -> Forall codec_ok (arrived ops) -> zlen (arrived ops) + restarts ops < 2 ^ 31 - 1 -> frames_size (arrived ops) < 2 ^ 64 ->
  exists w0 w' l d, run ops w = (w', Ret tt) /\ between w' l d /\ room w' d [] 0 /\ everything w0 [] = [] /\ buffer_size (w_conf w0) = 0 /\ w_in w0 = [] /\ buffer_maxsize (w_conf w0) = buffer_maxsize (w_conf w) /\
    advances w0 [] w' l (arrived ops) (restarts ops = 0 \/ type (w_conf w) = NX_PM_BUFFER_TYPE_MEM).
Proof using CL NL dir_order_all stack_length.
  intros Hpr Hops Hok Hn Hf. pose proof (restarts_pos ops). destruct (first_start w (arrived ops) (restarts ops) Hpr Hok) as (w0 & E0 & Hbw & Hroom & He & Ht & Hm & Hi & Hs); [lia|done|done|lia|].
  destruct (run_ops_ok ops w0 [] [] Hbw Hroom Hops) as (w' & l & d & E & Hbw' & Hroom' & Ha). rewrite Ht in Ha. exists w0, w', l, d. unfold run. rewrite (cmd_bind_Ret _ _ _ _ _ E0). by split_and!.
Qed.

(** C28: The buffer loses nothing and keeps the order.  A module that is started in a directory
    without chunks of its own runs without failure through any sequence of arrivals, events,
    changes of the modules behind it, changes of its status and restarts of the program, in memory
    or on disk.  What was sent, what is buffered and what waits in the queue is then everything that
    arrived, in this order; with restarts of a buffer on disk records can be there twice, but none
    is missing or unknown.  One more event, if the modules behind accept records throughout, empties
    the buffer. *)
Theorem buffer_delivers w ops : pristine w -> Forall op_ok ops -> Forall codec_ok (arrived ops) -> zlen (arrived ops) + restarts ops < 2 ^ 31 - 1 -> frames_size (arrived ops) < 2 ^ 64 ->
  exists w' l d, run ops w = (w', Ret tt) /\ buffers w' l d /\
    arrived ops `sublist_of` sent (w_next w') ++ l ++ w_in w' /\
    (forall r, r ∈ sent (w_next w') ++ l ++ w_in w' -> r ∈ arrived ops) /\
    (restarts ops = 0 \/ type (w_conf w) = NX_PM_BUFFER_TYPE_MEM -> sent (w_next w') ++ l ++ w_in w' = arrived ops) /\
    (forall now t, op_ok (Process now t) -> exists w'' l'' d'', pm_buffer_event modname now t w' = (w'', Ret tt) /\ buffers w'' l'' d'' /\
      sent (w_next w'') ++ l'' ++ w_in w'' = sent (w_next w') ++ l ++ w_in w' /\ (w_running w' = true -> can_send (w_next w'') = true -> l'' = [])).
Proof using CL NL dir_order_all stack_length.
  intros Hpr Hops Hok Hn Hf. destruct (run_ok w ops Hpr Hops Hok Hn Hf) as (w0 & w' & l & d & E & Hbw & Hroom & He & _ & _ & _ & [A1 A2 A3 _ _]). rewrite He in A1, A2, A3.
  exists w', l, d. split; [done|]. split; [apply Hbw|]. do 3 (split; [done|]). intros now t [Ht Hnow].
  destruct (event_ok w' l d now t [] 0 Hbw Hroom Ht Hnow) as (w2 & l2 & d2 & E2 & Hbw2 & _ & Ha & Hdone). exists w2, l2, d2. split; [done|]. split; [apply Hbw2|]. split; [|done].
  destruct (Ha True) as [_ _ A _ _]. rewrite app_nil_r in A. by apply A.
Qed.

(** C29: The size of the buffer is bounded, for a buffer in memory, or for one on disk as long
    as the process is not restarted.  With records of at most [most] bytes, their length
    included, the buffer never holds [MaxSize] and [most] bytes, and the counter [buffer_size]
    is the size of what it holds.  A restart breaks the bound on disk, since
    the chunk that was partly read is counted and sent again as a whole: with a [MaxSize] of 12,
    records of 7, 7 and 9 bytes, the first of them sent before the third arrived, count as 23
    bytes after a restart.  The module starts pristine (nothing buffered or sent,
    no chunk files of its name, a directory that can be written), every record can be written and read back by the record's
    code ([codec_ok]), fewer than 2^31 - 1 records arrive, their sizes add up to less than 2^64, and
    the operations are those of the module's life: records that arrive, events that are
    processed after 1970, restarts, other steps of the receiver that take back nothing that was sent. *)
Theorem buffer_bounded w ops most : pristine w -> Forall op_ok ops -> Forall codec_ok (arrived ops) -> zlen (arrived ops) + restarts ops < 2 ^ 31 - 1 -> frames_size (arrived ops) < 2 ^ 64 ->
  restarts ops = 0 \/ type (w_conf w) = NX_PM_BUFFER_TYPE_MEM -> 0 <= buffer_maxsize (w_conf w) -> 0 < most -> Forall (fun r => serialized_size r + 4 <= most) (arrived ops) ->
  exists w' l d, run ops w = (w', Ret tt) /\ buffers w' l d /\ buffer_size (w_conf w') = frames_size l /\ frames_size l < buffer_maxsize (w_conf w) + most.
Proof using CL NL dir_order_all stack_length.
  intros Hpr Hops Hok Hn Hf Hr Hm Hmost Hall. destruct (run_ok w ops Hpr Hops Hok Hn Hf) as (w0 & w' & l & d & E & [Hb _ _] & _ & _ & Hs & Hi & Hm0 & [_ _ _ [Hm' _] A]).
  exists w', l, d. pose proof (bf_size _ _ _ Hb) as Hbs. split_and!; [done..|]. destruct (A most Hr) as [_ Hlt]; [by rewrite Hi|]. rewrite <- Hbs, <- Hm0, <- Hm'. apply Hlt. lia.
Qed.

End process.

End spec.

(** ** Examples *)

(** Records that are blocks of bytes, and a module that takes them while it is open. *)
Module Examples.

#[export] Instance block_codec : Codec bytes := {| serialized_size b := zlen b; to_membuf b := Ret b; from_membuf b n := Ret (b, n) |}.
#[export, refine] Instance block_laws : CodecLaws bytes := {| codec_ok b := 0 < zlen b < 2 ^ 32 |}.
Proof. intros b Hb. by exists b. Defined.

Definition receiver : Type := list bytes * bool.
#[export] Instance receivers : Receivers bytes receiver := {| can_send := snd; hand_on r x := (x.1 ++ [r], x.2) |}.
#[export, refine] Instance receivers_laws : ReceiversLaws bytes receiver := {| sent := fst |}.
Proof. done. Defined.

#[export] Existing Instance little.

Definition buf : bytes := lit "buf".
Definition listing (m : gmap bytes bytes) : list bytes := (map_to_list m).*1.
Definition zeros : bytes := [x00; x00; x00; x00].

(** MaxSize 12 and two records in a chunk. *)
Definition initial (t : nx_pm_buffer_type) : world bytes receiver :=
  World (Conf 0 12 0 [] false false t 0 None 0 0 2 None 0 0) ∅ [] false ([], false) None [] true true.

Definition one : bytes := lit "one".
Definition two : bytes := lit "two".
Definition three : bytes := lit "three".
Definition close (x : receiver) : receiver := (x.1, false).
Definition open (x : receiver) : receiver := (x.1, true).
Definition data : op (R := bytes) (X := receiver) := Process 0 Event.NX_EVENT_DATA_AVAILABLE.
Definition again : op (R := bytes) (X := receiver) := Process 7 Event.NX_EVENT_READ.

(** Two records are buffered, the third one waits since the buffer is full; then they are sent. *)
Definition session : list (op (R := bytes) (X := receiver)) := [Arrive one; Arrive two; Arrive three; data; data; data; Change open; again; Change close; Restart].

Lemma initial_pristine t : pristine buf (initial t).
Proof. constructor; done. Qed.

Lemma listing_all m : listing m ≡ₚ (map_to_list m).*1.
Proof. done. Qed.

Lemma session_ok : Forall op_ok session.
Proof. by repeat constructor. Qed.

Lemma records_ok : Forall codec_ok (arrived session).
Proof. by repeat constructor. Qed.

End Examples.
Import Examples.

Example session_runs : exists w, run buf listing zeros session (initial NX_PM_BUFFER_TYPE_DISK) = (w, Ret tt) /\ (w_next w).1 = [one; two; three] /\ w_in w = [].
Proof. eexists. split; [vm_compute; reflexivity|]. by vm_compute. Qed.

Lemma buffer_delivers_witness : exists w' l d,
  run buf listing zeros session (initial NX_PM_BUFFER_TYPE_DISK) = (w', Ret tt) /\ buffers buf w' l d /\
    arrived session `sublist_of` sent (w_next w') ++ l ++ w_in w' /\ (forall r, r ∈ sent (w_next w') ++ l ++ w_in w' -> r ∈ arrived session).
Proof.
  destruct (buffer_delivers buf listing zeros listing_all eq_refl (initial NX_PM_BUFFER_TYPE_DISK) session (initial_pristine _) session_ok records_ok) as (w' & l & d & E & Hb & Hs & Hin & _); [done|done|].
  exists w', l, d. exact (conj E (conj Hb (conj Hs Hin))).
Defined.

Lemma buffer_bounded_witness : exists w' l d,
  run buf listing zeros session (initial NX_PM_BUFFER_TYPE_MEM) = (w', Ret tt) /\ buffers buf w' l d /\ buffer_size (w_conf w') = frames_size l /\ frames_size l < 12 + 9.
Proof.
  apply (buffer_bounded buf listing zeros listing_all eq_refl (initial NX_PM_BUFFER_TYPE_MEM) session 9 (initial_pristine _) session_ok records_ok);
    [done|done|by right|done|done|by repeat constructor].
Defined.

(** ** What does not hold *)

(** A receiver that takes a single record. *)
Definition receiver1 : Type := list bytes * nat.
#[local] Instance receivers1 : Receivers bytes receiver1 := {| can_send x := bool_decide (0 < x.2)%nat; hand_on r x := (x.1 ++ [r], Nat.pred x.2) |}.
Definition world1 (t : nx_pm_buffer_type) (f : gmap bytes bytes) (writable : bool) : world bytes receiver1 :=
  World (Conf 0 100 0 [] false false t 0 None 0 0 2 None 0 0) f [] false ([], 0%nat) None [] writable true.
Definition allow (n : nat) : op (R := bytes) (X := receiver1) := Change (fun x => (x.1, n)).
Definition data1 : op (R := bytes) (X := receiver1) := Process 0 Event.NX_EVENT_DATA_AVAILABLE.
Definition writing (b : bool) : cmd (world bytes receiver1) unit := fun w =>
  (World (w_conf w) (w_files w) (w_in w) (w_needpop w) (w_next w) (w_saved w) (w_events w) b (w_running w), Ret tt).
(** The caller of the handler logs an exception and goes on. *)
Definition logged (c : cmd (world bytes receiver1) unit) : cmd (world bytes receiver1) unit := fun w =>
  match c w with (w', Throw _) => (w', Ret tt) | r => r end.
Notation run1 ops := (run buf listing zeros (ops : list (op (R := bytes) (X := receiver1)))).
Notation go ops := (run_ops buf listing zeros (ops : list (op (R := bytes) (X := receiver1)))).
Notation disk := (world1 NX_PM_BUFFER_TYPE_DISK).

(** Where the buffer on disk falls short.  (1) After a restart the records of a chunk that was
    partly read are sent again.  (2) Stopping and starting the module in one process counts the
    records twice.  (3) A chunk whose last record was cut off stops the program when it is read
    ([ASSERT(bytesread == 4)]).  (4) After a failed write the record at the head of the queue stays marked
    as peeked, and the next record that is sent from the buffer stops the program.  (5) A file of a
    module named buf.1 is taken for a chunk of the module buf.  (6) A MaxSize of 2^54 + 1 kilobytes is
    taken for one kilobyte. *)
Theorem buffer_gaps :
  (w_next (run1 [Arrive one; Arrive two; data1; data1; allow 1; data1; Restart; allow 9; data1] (disk ∅ true)).1).1 = [one; one; two] /\
  (let w := (_ ← run1 [Arrive one; data1]; _ ← pm_buffer_stop buf; pm_buffer_start buf listing zeros) (disk ∅ true) in
    w.2 = Ret tt /\ size (w_conf w.1) = 2 /\ buffer_size (w_conf w.1) = 14) /\
  (run1 [allow 9; data1] (disk {[ lit "buf.1.q" := [x03; x00] ]} true)).2 = Panic "bytesread == 4" /\
  ((_ ← run1 [Arrive one; Arrive two; Arrive three; data1; data1]; _ ← writing false; _ ← logged (go [data1]); _ ← writing true; go [allow 9; data1]) (disk ∅ true)).2 = Panic "ld == logdata" /\
  chunk_of buf (lit "buf.1.7.q") = Ret (Some 1) /\
  exists c, pm_buffer_config (R := bytes) [] [Directive (lit "MaxSize") (lit "18014398509481985"); Directive (lit "Type") (lit "Mem")] = Ret (c, None) /\ buffer_maxsize c = 1024.
Proof. do 5 (split; [by vm_compute|]). eexists. by vm_compute. Qed.

End BufferSpec.
